(* ===== verification/_CoqProject ===== *)
-Q . S2P
Prelude.v
PyStr.v
PyText.v
PyDict.v
PyValue.v
PyFloat.v
Ambient.v
Scopes.v
Interactions.v
ReplayBookkeeping.v
Tracker.v
TrackerProps.v
PersonaEvents.v
ResponseGate.v
MemoryEvents.v
SalienceWakes.v
EventLoop.v
EventLoopProps.v
Timers.v
PySort.v
WorkingMemory.v
Delegation.v
Permissions.v
Cascade.v
MemoryBudget.v
Eviction.v
Classification.v
Audience.v
InjectionGate.v
Tripwire.v
Wallet.v
Security.v
RowScope.v
Relationships.v
RelationshipsProps.v
IdentityMerge.v
Commitments.v
CommitmentsProps.v
Decision.v
DecisionProps.v
PyJson.v
DecisionJson.v
FactPredicates.v
Facts.v
FactsProps.v
FactsRecall.v
FactEnvelope.v
FactExtractor.v
TopicSeeds.v
FactsSection.v
ConveneTimer.v
ScheduledWakes.v
Tick.v
PyRegex.v
SalienceDeliberation.v
SalienceAddressing.v
SalienceBid.v
SalienceGate.v
PromptFormat.v
ConversationWindow.v
ChannelValidation.v
ChannelIngress.v
ChannelCatchup.v
ActionParser.v
DelegationCodec.v
ChannelReply.v
Reflexion.v
PersonaState.v
LlmTypes.v
PersonaTurn.v
ToolArguments.v
ToolRound.v
TaskAgent.v
Episodes.v
Spawner.v
EpisodeRecall.v
TurnIngest.v
ClosePath.v
CloseProps.v
SummarizeClose.v
