(* ===== verification/Prelude.v ===== *)
(** * A verified model of the Persatrix agent runtime

    Persatrix runs LLM-driven persona agents that talk over channels. This
    development models the decision-making core of its Python agent runtime
    ([src/agents/]) and proves it correct. Definitions keep the names of the
    code; the [symbol] each one translates is found in the file named by the
    doc comment of the Rocq file it lives in.

    ** The program and its model

    An event (a channel message, a timer, a salient memory write) reaches an
    agent through its event loop, passes the response gate, makes the agent
    decide on actions, and the executor carries them out, possibly dispatching
    further events one cascade hop deeper. What was said is recorded per
    interaction and prompts are assembled under token budgets. The files, in
    dependency order:

    - [PyStr], [PyText], [PyDict], [PyValue], [PyFloat], [PySort], [PyJson],
      [PyRegex]: the Python the code uses (text, insertion-ordered dicts, untyped
      payload values, numbers, [sorted], JSON with sorted keys, the regular
      expressions as matchers).
    - [Ambient] ([principal_id.py], [epoch_id.py], [session_id.py]): the three
      identity axes, one generic [axis] with the modules [Principal], [Epoch]
      and [Session]; a task's context variables are the record [ambient].
    - [Scopes] ([memory/scopes.py]): scope strings of channels, threads and DMs.
    - [Interactions] ([memory/interaction_types.py], [interaction_key.py],
      [boundary_detectors.py]), [ReplayBookkeeping]
      ([memory/_replay_bookkeeping.py]), [Tracker] and [TrackerProps]
      ([memory/interaction_tracker.py], [interaction_metrics.py]): the per-agent
      tracker of open interactions. An [Interaction] is a mutable object that
      callers keep hold of, so records live in a heap and the tracker maps keys
      to addresses; every method is a state transformer, and a history is a
      list of calls.
    - [PersonaEvents] ([persona_types.py]): events and actions.
    - [ResponseGate] ([response_gate.py], [response_policies.py]): the pure
      decision whether to respond, with its contract stated independently.
    - [MemoryEvents] ([memory/_events.py]) and [SalienceWakes]
      ([event_loop_salience.py]): the memory-write bus and the rate-capped
      subscriber that turns salient writes into wakes.
    - [EventLoop], [EventLoopProps] ([event_loop.py], [event_loop_types.py],
      [event_loop_lifecycle.py]): the wake queue, its supervisor task, reentrant
      resolver tasks and the two-phase [stop]. Tasks interleave at their awaits,
      so the loop is a step relation [lstep] with traces ([run]); handlers end
      when and how the environment chooses.
    - [Timers] ([event_loop_timers.py]): the timer registry and the [call_later]
      callbacks, a step relation [tstep] over the loop.
    - [WorkingMemory] ([memory/working.py]): named prompt sections under a token
      budget, and the compression pass with what other tasks do meanwhile.
    - [Delegation] ([sub_agents/delegation.py], [merge.py]):
      validation and merging of a sub-agent's result.
    - [Permissions] ([tools/permissions.py]): the deny-by-default tool gate.
    - [Cascade] ([dispatch.py], [action_executor.py],
      [dispatch_context.py], [process_inbound_channel_event] of
      [chat_reply.py]): dispatching, executing actions and the cascade. The
      agents, their loops and the REST publisher are the record [Env].
    - [MemoryBudget] ([persona_runtime/memory_budget.py]): the token allocator
      of memory injection.
    - [Eviction] ([memory/eviction.py], [decay.py], [resolve_base_confidence] of
      [episodic_procedural.py]): the eviction pass over the [episodes] table, a
      list of rows on which each SQL statement is its meaning.
    - [Classification] ([persona_runtime/classification.py],
      [channel_event_classification.py], [acting_classification.py]), [Audience]
      ([audience.py]), [InjectionGate]
      ([injection_gate.py], [projection_branch.py], [memory/projections.py],
      [single_channel_turn.py]), [Tripwire] ([confidentiality_tripwire.py],
      [tripwire_watch.py]): the confidentiality labels, who is in the room, what
      a turn may be told, and the watch on what it says.
    - [Wallet] ([wallet_client.py], [wallet_lease.py], the leased call of
      [llm_client.py]): leases, their retries and their cleanup.
    - [Security] ([security.py]): the sanitizer and the external-data envelope,
      its regular expression as a matcher.
    - [RowScope] ([_session_filter.py], [_principal_filter.py],
      [_epoch_filter.py]): the scope of a row, used by the stores below.
    - [Relationships], [RelationshipsProps] ([relationship_queries.py],
      [relationship_mutations.py]), [IdentityMerge] ([relationship_types.py]):
      trust, interaction history and identity of the other party.
    - [Commitments], [CommitmentsProps] ([memory/commitments.py]): the store of
      what a persona promised.
    - [FactPredicates] ([fact_predicates.py]), [Facts], [FactsProps],
      [FactsRecall] ([memory/facts.py] and its [_facts_*] helpers): the fact tier.
      A write awaits between its statements, so it is a [writer] stepped by
      [write_step]; writers interleave under a schedule.
    - [Decision], [DecisionProps], [DecisionJson] ([decision/pipeline.py],
      [decision_types.py], [baseline.py], [action_classes.py]): the pipeline that
      settles which action runs, its records, and their encoding, a [Hint] class
      with its laws per type.
    - [FactEnvelope], [FactExtractor]
      ([persona_runtime/fact_envelope.py], [fact_extractor.py]): a close's combined
      answer and the batch of fact tuples it stores; [TopicSeeds], [FactsSection]
      ([topic_seeds.py], [facts_section.py], [facts_render.py]): what an event
      recalls and the section of the prompt.
    - [ConveneTimer] ([convene_timer.py], [convene_timer_writer.py]),
      [ScheduledWakes] ([memory/scheduled_wakes.py], [server_persona_timers.py]),
      [Tick] ([tick.py]): a convener's timers, the stored anchors and the scheduler
      that turns wakes into events.
    - [SalienceAddressing], [SalienceDeliberation], [SalienceBid], [SalienceGate]
      ([salience_*.py], [persona_runtime/salience_gate.py], [deliberation_plan.py]):
      whether a persona speaks on the open floor.
    - [PromptFormat] ([prompt_safety.py], the event formats of
      [prompt_assembly.py]), [ConversationWindow]
      ([persona_runtime/conversation_window.py], [_conversation_window_cache.py],
      [conversation_seed.py]): the messages a turn is seeded with.
    - [ChannelValidation] ([channel_validation.py]), [ChannelIngress]
      ([channel_wire_metadata.py], [channel_replay_event.py],
      [ReceiveChannelMessage] of [server_servicers.py]), [ChannelCatchup]
      ([channel_catchup.py]): a message off the wire and out of the history.
    - [ActionParser] ([persona_runtime/action_parser.py], [action_validation.py]),
      [ChannelReply] ([channel_reply.py]), [Reflexion] ([reflexion.py]),
      [PersonaState] ([PersonaState], [state_persistence.py]), [LlmTypes]
      ([llm_types.py]) and [PersonaTurn] ([action_loop.py] and its mixins): one
      turn, from the event to the actions.
    - [ToolArguments] ([tools/arg_check.py]), [ToolRound] ([tools/tool_list.py],
      [registry.py], both tool rounds): which calls of tools run, and on what.
    - [DelegationCodec] ([sub_agents/delegation.py]), [TaskAgent] ([base.py],
      [task_agent.py]), [Spawner] ([sub_agents/spawner.py]): the task agent, its
      envelope, and the dispatch around it. The facade that keeps what was admitted
      is the class [Facade], with the memory store over the table of [Episodes] as
      its instance; [Spawner] follows [Episodes] for it.
    - [Episodes] ([memory/episodic_*.py], [interaction_janitor.py]):
      the table of episodes with its writers, the janitor and retention;
      [EpisodeRecall] ([_fts5_query.py],
      [episodic_queries.py], [episodic_room_ranked.py], [scope_recall.py]): what a
      recall searches for, ranks and returns.
    - [TurnIngest] ([persona_runtime/turn_payload.py], [close_entries.py],
      [interaction_boundary.py], [record_write_scope.py],
      [replay_identity.py]), [ClosePath] ([close_path.py], [close_fan.py] and the
      modules that close, [episode_routing.py]), [CloseProps]: from
      an event's turn to the record it lands on, the boundaries it draws, and the
      row each closed record leaves. The state [CloseState] joins the tracker, the
      table of episodes, the summaries in flight and the parked votes.
    - [SummarizeClose] ([memory/store_compress.py],
      [persona_runtime/summarize_close.py], [record_close.py],
      [finalize_close.py]): the task behind a pending row, from the context it
      compresses to what it writes in the four stores of [CloseStores].

    ** What the theorems show

    - Tracker: over every history the open map holds exactly open records under
      their own keys ([tracker_map_invariant]), closed records never change,
      turns land where they should, each closing operation closes exactly the
      records it names, and the metrics count what happened.
    - Identity and scopes: a scope binds the normalised id and restores the
      previous one on every exit; scope routing follows its decision table.
    - Gate: the code refines its contract, never answers control messages or
      its own, and its label is bounded.
    - Event loop: FIFO without loss, bounded, a handle is settled once and orphaned
      only by a [stop] that cancels its resolver before the first step, and [stop]
      always reaches its end. Timers: registered timers
      and live callbacks correspond, re-arming stays above the busy-loop floor,
      disarmed timers stay silent. Salience wakes respect their rate cap.
    - Cascade: every dispatch terminates within an explicit number of decisions,
      below the depth ceiling, under the request's scope ids.
    - Delegation: each proposed write is accounted for once, the trust boundary
      holds for every admitted one, the merge patch is RFC 7396's.
    - Permissions: the allowlists decide exactly, and absence denies.
    - Working memory and budget: greedy choices within the budget; compression
      that nothing interrupts loses no section.
    - Eviction: a pass leaves no more rows than the cap, deletes the lowest
      scores first and spares a procedure refreshed while it runs; decayed
      confidence stays in range and does not grow with age.

    - Confidentiality: nothing above the acting level or not shared by its
      audience is injected, the manifest tells what was, and a message repeating
      a withheld span is caught.
    - Wallet: every granted lease whose body contacts the provider only after
      marking the call is closed by one request of the right kind, and a provider's answer is never
      lost to the bookkeeping around it.
    - Envelope and sanitizer: external content cannot close its envelope (unless a
      tag holds a second bracket), and is kept character by character.
    - Relationships, identity, commitments, facts: the row invariants over every
      history of calls, the exact effect of each write on every branch, isolation
      of tenants, and what stays true when other tasks run at the awaits. For
      facts: latest assertion wins, the chain of superseded rows ends at a live
      one while calls do not interleave, and reads list exactly what is in scope.
    - Decisions: a record is always valid, what it selects passed every check,
      and it reads back from its line.
    - Facts around a turn: exactly the acceptable tuples of an answer are stored,
      and an event recalls only what it may.
    - Timers of the runtime: a convener's block is reconciled exactly, a restart
      resumes the stored anchors, idle ticks are bounded.
    - The open floor: every failure of the bid or the verdict is silence, the gate
      is transparent off the floor, and the private note stays private.
    - Channels: both seams enforce one contract, a replayed event is the live one
      cut down to listed keys and marked, nobody speaks from outside his block, and the window's
      cache is the least-recently-used one.
    - A turn: its model calls (bid, loop, critic and revision) are bounded and billed
      alike, its actions are well formed and stay in its channel; a reply's actions
      are those of the array in its text, in order.
    - Tools: what is offered is what runs; a call runs only when offered and its
      arguments bind ([admission_exact]); conversions lose nothing; a refusal is
      printable and short.
    - Delegation end to end: the envelopes read back, a task's calls are counted,
      bounded and billed to the parent, a dispatch keeps the contract both ways, and
      what was admitted is kept entirely or, but for a delete that fails, not at all.
    - Episodes: a pending row is settled by one writer at most, raw episodes are
      compressed before they may go, the text handed to the search engine is inert,
      and a recall stays within its tenant, epoch and rooms.
    - Closing: a turn lands on one record of its own tenant, speaker, provenance and
      wire interaction; a room close, a notice and a vote close exactly the records
      they may, each filed under its own axes; a replayed span is derived once; and
      one invariant of the whole state holds however the steps interleave. In the
      background a record is summarised within a budget, by one call at most, and
      derived by one run only, which settles the very row its close filed.

    The lemmas [blank_pattern_allows_all], [nan_ttl_admitted],
    [low_priority_may_outlive], [callback_before_start_in_supervisor],
    [compression_overwrites_concurrent_update], [audience_refusal_disarms_tripwire],
    [settled_lease_released], [nested_tag_breaks_out], [nan_level_seeds_full_trust],
    [raw_number_raises], [concurrent_ties_lose_both], [overflow_drops_batch],
    [nested_plan_tag_breaks_out], [out_of_ten_reads_as_certain], [resume_may_refire],
    [raised_ceiling_reopens_ticks], [newline_ids_pass], [odd_row_escapes],
    [object_answer_raises], [dm_reply_published_to_group], [vote_escapes_its_channel],
    [truncated_dm_is_silent], [unsatisfiable_narrowing_accepted],
    [mistyped_reply_escapes], [odd_package_escapes], [view_over_budget],
    [literal_marker_unsettled] and [unstarted_resolver_orphaned] record behaviour that departs
    from the code's documentation or intent.

    ** Modelling choices

    - Text is Latin-1 (one Rocq character per code point U+0000 to U+00FF), a
      literal beyond it as its UTF-8 bytes, except in [MemoryBudget], for facts,
      topics, the salience bid, the texts of rejections and refusals and the
      prompts of a turn, where a text is a list of code points; case folding is
      that of Latin-1.
    - [json.loads], [str] of an odd value, ISO timestamps, the tokenizer, the clock
      offset and jsonschema are arguments; a hypothesis on one states what is
      documented of it, such as that a parsed object repeats no key.
    - A table of SQLite is the list of its rows in [rowid] order, and a statement
      is its meaning on it; a statement is atomic. In [Episodes] any call may fail:
      the failures to come are a list in the state. What other tasks do at an
      await is a function of the state, an argument, or a schedule of steps.
    - Digests, membership lookups, sanitizer patterns, the wallet's replies, the
      runtime's constraints and policies are parameters; JSON is modelled parsed.
    - A [float] is an exact rational, or [pyfloat] where infinities and NaN
      matter; rounding is not modelled. Integers are [Z] (Python's do not wrap).
    - Clock readings, random draws, callback results and third-party code are
      arguments. Log lines and trace spans are left out; metric increments are
      kept where a theorem speaks of them.
    - Fuel is used once, in [Cascade.dispatch], and bounds the recursion depth;
      [cascade_bounded] shows that the remaining depth plus one is enough.
    - [lstep] lets a second [stop] or a [start] begin only when no [stop] is in
      progress, and [stop] itself is not cancelled by its caller.

    ** Not modelled

    The Go orchestrator, the Rust CLI and the web client; LLM providers and gRPC or
    HTTP transport (their effects are parameters); the bodies of the tools; the
    tiers of memory injection other than the facts; the wait for
    summary tasks at shutdown; the note store (but for restamping), opening
    a database and the schema migrations; the ranking of the full-text engine;
    observability exporters. *)

From stdpp Require Export base tactics list gmap strings.
From Stdlib Require Export ZArith QArith Qminmax Lqa Lia.

(** [naive_solver] and [set_solver] clear hypotheses they have already lost. *)
#[export] Set Warnings "-clear-no-such-hyp".

Declare Scope py_scope.
Delimit Scope py_scope with py.

(** Databases of the development: [py] for goals closed by search, [pyrw] for
    the equations that compute the basic Python operations. *)
Create HintDb py.
Create Rewrite HintDb pyrw.

(** ** Tactics shared by the components *)

(** Case analysis on every [match] and [if] of the goal, as a handler written
    with guards and early returns needs. *)
Ltac split_cases := repeat (case_match; simplify_eq/=; try done).

(** The same on the body a hypothesis equates to a value. *)
Ltac split_cases_in H :=
  repeat (let E := fresh "E" in
          match type of H with
          | context [ match ?x with _ => _ end ] =>
              destruct x eqn:E; simplify_eq/=; try done
          end).

(** Booleans of the code into propositions. *)
Ltac bool_props :=
  rewrite ?andb_true_iff, ?orb_true_iff, ?negb_true_iff,
          ?andb_false_iff, ?orb_false_iff, ?negb_false_iff,
          ?bool_decide_eq_true, ?bool_decide_eq_false in *.

(** ** Results of code that may raise *)

Inductive result (E A : Type) : Type :=
| Ok (a : A)
| Raise (e : E).
Arguments Ok {E A} a.
Arguments Raise {E A} e.

Definition rbind {E A B} (m : result E A) (k : A -> result E B) : result E B :=
  match m with Ok a => k a | Raise e => Raise e end.

Notation "'let!' x ':=' m 'in' k" := (rbind m (λ x, k))
  (at level 100, x pattern, right associativity) : py_scope.

Lemma rbind_Ok {E A B} (m : result E A) (k : A -> result E B) b :
  rbind m k = Ok b <-> exists a, m = Ok a /\ k a = Ok b.
Proof.
  destruct m as [a|e]; simpl; split.
  - intros H. by exists a.
  - intros (a' & [= <-] & H). done.
  - done.
  - by intros (? & ? & _).
Qed.

Definition is_ok {E A} (m : result E A) : bool :=
  match m with Ok _ => true | Raise _ => false end.

(** ** Lists *)

Section lists.
Context {A : Type}.

Lemma filter_true_all (P : A -> Prop) `{!∀ x, Decision (P x)} (l : list A) :
  Forall P l -> filter P l = l.
Proof.
  induction 1 as [|x l Hx _ IH]; [done|].
  rewrite filter_cons, decide_True by done. by rewrite IH.
Qed.

Lemma filter_ext_Forall (P Q : A -> Prop) `{!∀ x, Decision (P x), !∀ x, Decision (Q x)}
    (l : list A) :
  Forall (λ x, P x <-> Q x) l -> filter P l = filter Q l.
Proof.
  induction 1 as [|x l Hx _ IH]; [done|].
  rewrite !filter_cons. repeat case_decide; try tauto; by rewrite IH.
Qed.

Lemma filter_filter_and (P Q : A -> Prop) `{!∀ x, Decision (P x), !∀ x, Decision (Q x)} (l : list A) :
  filter P (filter Q l) = filter (λ x, P x /\ Q x) l.
Proof.
  induction l as [|x l IH]; [done|].
  rewrite !filter_cons. repeat case_decide; try tauto;
    rewrite ?filter_cons; repeat case_decide; try tauto; by rewrite IH.
Qed.

(** A list without repeated images holds one element per image. *)
Lemma NoDup_map_inj {B} (f : A -> B) (l : list A) x y :
  NoDup (map f l) -> x ∈ l -> y ∈ l -> f x = f y -> x = y.
Proof.
  induction l as [|z l IH]; intros Hd Hx Hy E; [by apply not_elem_of_nil in Hx|].
  apply NoDup_cons in Hd as [Hz Hd].
  apply elem_of_cons in Hx as [->|Hx], Hy as [->|Hy]; [done| | |by apply IH].
  - destruct Hz. rewrite E. by apply list_elem_of_fmap_2.
  - destruct Hz. rewrite <- E. by apply list_elem_of_fmap_2.
Qed.
End lists.

(** Sum of a [Z]-valued measure, as [sum(f(x) for x in l)]. *)
Definition zsum {A} (f : A -> Z) (l : list A) : Z := foldr (λ x s, (f x + s)%Z) 0%Z l.

Section zsum.
Context {A : Type} (f : A -> Z).
Implicit Types l : list A.

Lemma zsum_app l k : zsum f (l ++ k) = (zsum f l + zsum f k)%Z.
Proof. induction l as [|x l IH]; simpl; [done|]. unfold zsum in *. lia. Qed.

Lemma zsum_Permutation l k : l ≡ₚ k -> zsum f l = zsum f k.
Proof. unfold zsum. induction 1; simpl; lia. Qed.

Lemma zsum_nonneg l : Forall (λ x, 0 <= f x)%Z l -> (0 <= zsum f l)%Z.
Proof. unfold zsum. induction 1; simpl; lia. Qed.
End zsum.

#[export] Hint Rewrite @zsum_app : pyrw.

(** ** Rational comparisons used as Python float comparisons *)

Definition Qltb (a b : Q) : bool := negb (Qle_bool b a).

Lemma Qltb_lt a b : Qltb a b = true <-> (a < b)%Q.
Proof.
  unfold Qltb. rewrite negb_true_iff. split.
  - intros H. apply Qnot_le_lt. intros H'%Qle_bool_iff. congruence.
  - intros H. destruct (Qle_bool b a) eqn:E; [|done].
    apply Qle_bool_iff in E. exfalso. lra.
Qed.

Lemma Qltb_ge a b : Qltb a b = false <-> (b <= a)%Q.
Proof. unfold Qltb. rewrite negb_false_iff. apply Qle_bool_iff. Qed.

Lemma Qle_bool_false a b : Qle_bool a b = false <-> (b < a)%Q.
Proof.
  rewrite <- (negb_involutive (Qle_bool a b)). change (negb (Qle_bool a b)) with (Qltb b a).
  rewrite negb_false_iff. apply Qltb_lt.
Qed.

Ltac q_props :=
  rewrite ?Qltb_lt, ?Qltb_ge, ?Qle_bool_iff, ?Qle_bool_false in *.

Section minmax.
Local Open Scope Q_scope.

(** [min] and [max] of two finite floats. *)
Definition fmin (a b : Q) : Q := if Qltb b a then b else a.
Definition fmax (a b : Q) : Q := if Qltb a b then b else a.

(** [min(xs)] and [max(xs)] of a non-empty list. *)
Definition qmin (x : Q) (xs : list Q) : Q := fold_left fmin xs x.
Definition qmax (x : Q) (xs : list Q) : Q := fold_left fmax xs x.

Lemma fmin_spec a b : fmin a b <= a /\ fmin a b <= b /\ (fmin a b = a \/ fmin a b = b).
Proof. unfold fmin. destruct (Qltb b a) eqn:E; q_props; repeat split; auto; lra. Qed.
Lemma fmax_spec a b : a <= fmax a b /\ b <= fmax a b /\ (fmax a b = a \/ fmax a b = b).
Proof. unfold fmax. destruct (Qltb a b) eqn:E; q_props; repeat split; auto; lra. Qed.

Lemma clamp_unit c : 0 <= fmax 0 (fmin 1 c) <= 1.
Proof.
  destruct (fmin_spec 1 c) as (?&?&_), (fmax_spec 0 (fmin 1 c)) as (?&?&E).
  split; [lra|]. destruct E as [E | E]; rewrite E; lra.
Qed.
End minmax.
