(* ===== verification/PyStr.v ===== *)
(** * Python [str] operations

    A Python [str] is a Rocq [string] whose characters are the code points
    U+0000 to U+00FF, one character per code point. On that range the
    operations below are the ones of CPython: [str.strip] without argument
    removes the characters [str.isspace] accepts, [str.lower] folds A-Z and
    the Latin-1 capitals, [len(s.encode("utf-8"))] counts one byte below
    U+0080 and two above. *)

From S2P Require Import Prelude.
From Stdlib Require Import Ascii String.
From Stdlib Require OrdersEx.
Local Open Scope string_scope.

Definition code (c : ascii) : N := N_of_ascii c.

(** [c.isspace()] on U+0000..U+00FF. *)
Definition space_cp (n : N) : bool :=
  ((9 <=? n) && (n <=? 13) || (28 <=? n) && (n <=? 32)
   || (n =? 133) || (n =? 160))%N.

Definition is_space (c : ascii) : bool := space_cp (code c).

(** [c.casefold()] as code points, on U+0000..U+00FF and on the Greek mu that
    the micro sign folds to. *)
Definition fold_cp (n : N) : list N :=
  if ((65 <=? n) && (n <=? 90) || (192 <=? n) && (n <=? 222) && negb (n =? 215))%N then [n + 32]%N
  else if (n =? 223)%N then [115; 115]%N
  else if (n =? 181)%N then [956]%N
  else [n].

Fixpoint lstrip (s : string) : string :=
  match s with
  | EmptyString => EmptyString
  | String c s' => if is_space c then lstrip s' else s
  end.

Fixpoint rstrip (s : string) : string :=
  match s with
  | EmptyString => EmptyString
  | String c s' =>
      match rstrip s' with
      | EmptyString => if is_space c then EmptyString else String c EmptyString
      | r => String c r
      end
  end.

(** [s.strip()] *)
Definition strip (s : string) : string := rstrip (lstrip s).

(** Truth value of a [str]: [bool(s)]. *)
Definition truthy (s : string) : bool :=
  match s with EmptyString => false | _ => true end.

(** [a or b] on two [str] operands. *)
Definition str_or (a b : string) : string := if truthy a then a else b.

(** [v or ""] for [v : str | None]. *)
Definition opt_str (v : option string) : string := default "" v.

Definition lower_char (c : ascii) : ascii :=
  let n := code c in
  if ((65 <=? n) && (n <=? 90)
      || (192 <=? n) && (n <=? 222) && negb (n =? 215))%N
  then ascii_of_N (n + 32) else c.

(** [s.lower()] *)
Fixpoint lower (s : string) : string :=
  match s with
  | EmptyString => EmptyString
  | String c s' => String (lower_char c) (lower s')
  end.

(** [s.startswith(p)] *)
Definition startswith (p s : string) : bool := String.prefix p s.

(** [len(s.encode("utf-8"))] *)
Fixpoint utf8_len (s : string) : Z :=
  match s with
  | EmptyString => 0
  | String c s' => (if (code c <? 128)%N then 1 else 2) + utf8_len s'
  end%Z.

(** [not s or not s.strip()] *)
Definition blank (s : string) : bool := negb (truthy s) || negb (truthy (strip s)).

(** The class [[^\W_]]: alphanumeric, on U+0000 to U+00FF and on the
    Greek mu that [casefold] gives. *)
Definition is_word (n : N) : bool :=
  ((48 <=? n) && (n <=? 57) || (65 <=? n) && (n <=? 90) || (97 <=? n) && (n <=? 122)
   || (n =? 170) || (n =? 178) || (n =? 179) || (n =? 181) || (n =? 185) || (n =? 186)
   || (188 <=? n) && (n <=? 190) || (192 <=? n) && (n <=? 214) || (216 <=? n) && (n <=? 246)
   || (248 <=? n) && (n <=? 255) || (n =? 956))%N.

(** [sorted((a, b))] on two strings. *)
Definition sorted_pair (a b : string) : string * string :=
  if String.ltb b a then (b, a) else (a, b).

(** ** Lemmas *)

Lemma truthy_false s : truthy s = false <-> s = "".
Proof. destruct s; split; simpl; congruence. Qed.

Lemma truthy_true s : truthy s = true <-> s <> "".
Proof. destruct s; split; simpl; congruence. Qed.

Lemma str_or_id s d : d <> "" -> str_or (str_or s d) d = str_or s d.
Proof. unfold str_or. destruct s, d; simpl; congruence. Qed.

Lemma str_or_truthy s d : d <> "" -> str_or s d <> "".
Proof. unfold str_or. destruct s, d; simpl; congruence. Qed.

Lemma lstrip_lstrip s : lstrip (lstrip s) = lstrip s.
Proof. induction s as [|c s IH]; simpl; auto. destruct (is_space c) eqn:E; simpl; rewrite ?E; auto. Qed.

Lemma rstrip_cons_nonspace c s :
  is_space c = false -> exists r, rstrip (String c s) = String c r.
Proof. intros H. simpl. destruct (rstrip s); rewrite ?H; eauto. Qed.

Lemma rstrip_rstrip s : rstrip (rstrip s) = rstrip s.
Proof.
  induction s as [|c s IH]; simpl; auto.
  destruct (rstrip s) as [|c' r] eqn:E.
  - destruct (is_space c) eqn:Hc; simpl; rewrite ?Hc; auto.
  - cbn [rstrip] in *. rewrite IH. done.
Qed.

Lemma lstrip_rstrip_lstrip s : lstrip (rstrip (lstrip s)) = rstrip (lstrip s).
Proof.
  induction s as [|c s IH]; simpl; auto.
  destruct (is_space c) eqn:Hc; auto.
  destruct (rstrip_cons_nonspace c s Hc) as [r Hr]. rewrite Hr. simpl. by rewrite Hc.
Qed.

Lemma strip_strip s : strip (strip s) = strip s.
Proof. unfold strip. by rewrite lstrip_rstrip_lstrip, rstrip_rstrip. Qed.

Lemma startswith_app p s : startswith p (p +:+ s) = true.
Proof.
  unfold startswith. induction p as [|c p IH]; simpl; [by destruct s|].
  destruct (ascii_dec c c); [done|congruence].
Qed.

Lemma startswith_true p s : startswith p s = true <-> exists r, s = p +:+ r.
Proof.
  split.
  - unfold startswith. revert s. induction p as [|c p IH]; intros s; simpl; [eauto|].
    destruct s as [|d s]; simpl; [done|].
    destruct (ascii_dec c d) as [->|]; [|done].
    intros [r ->]%IH. eauto.
  - intros [r ->]. apply startswith_app.
Qed.

Lemma sorted_pair_comm a b : sorted_pair a b = sorted_pair b a.
Proof.
  unfold sorted_pair, String.ltb. rewrite (String.compare_antisym a b).
  destruct (String.compare b a) eqn:E; simpl; auto.
  apply String.compare_eq_iff in E. by subst.
Qed.

Lemma sorted_pair_or a b : sorted_pair a b = (a, b) \/ sorted_pair a b = (b, a).
Proof. unfold sorted_pair. destruct (String.ltb b a); auto. Qed.

(** The order of [sorted] on strings. *)
Lemma str_leb_total x y : String.leb x y = false -> String.leb y x = true.
Proof. destruct (String.leb_total x y); congruence. Qed.

Lemma str_compare_lt x y : String.compare x y = Lt <-> OrdersEx.String_as_OT.lt x y.
Proof. done. Qed.

Lemma str_leb_trans x y z : String.leb x y = true -> String.leb y z = true -> String.leb x z = true.
Proof.
  assert (forall a b, String.leb a b = true <-> OrdersEx.String_as_OT.lt a b \/ a = b) as H.
  { intros a b. rewrite <- str_compare_lt. unfold String.leb.
    destruct (String.compare a b) eqn:E; split; try done; [|by left|].
    - intros _. right. by apply String.compare_eq_iff.
    - intros [H| ->]; [done|]. pose proof (String.compare_antisym b b) as Hs.
      rewrite E in Hs. done. }
  rewrite !H. intros [H1| ->] [H2| ->]; auto. left. by etransitivity.
Qed.

#[export] Hint Rewrite strip_strip lstrip_lstrip rstrip_rstrip startswith_app : pyrw.
#[export] Hint Rewrite str_or_id using done : pyrw.
