(* ===== verification/PyText.v ===== *)
(** * More on Python text

    Cutting a prefix, searching, joining, and how [strip] and concatenation
    interact. *)

From Stdlib Require Import Ascii.
From S2P Require Import Prelude PyStr.
Local Open Scope string_scope.

(** [s[len(p):]] where [s.startswith(p)] *)
Fixpoint after_prefix (p s : string) : option string :=
  match p, s with
  | EmptyString, _ => Some s
  | String c p, String d s => if Ascii.eqb c d then after_prefix p s else None
  | String _ _, EmptyString => None
  end.

(** [p in s] *)
Fixpoint occurs (p s : string) : bool :=
  startswith p s || match s with String _ s' => occurs p s' | EmptyString => false end.

(** [sep.join(parts)] *)
Fixpoint join_str (sep : string) (parts : list string) : string :=
  match parts with
  | [] => ""
  | [p] => p
  | p :: ps => p +:+ sep +:+ join_str sep ps
  end.

Lemma after_prefix_spec p s r : after_prefix p s = Some r <-> s = p +:+ r.
Proof.
  revert s. induction p as [|c p IH]; intros s; cbn [after_prefix].
  - split; [by intros [= ->]|]. by intros ->.
  - destruct s as [|d s]; [done|]. destruct (Ascii.eqb_spec c d) as [->|Hne].
    + rewrite IH. split; [by intros ->|]. by intros [= ->].
    + split; [done|]. by intros [= ? _].
Qed.

Lemma after_prefix_app p r : after_prefix p (p +:+ r) = Some r.
Proof. by apply after_prefix_spec. Qed.

Lemma app_cons c (s t : string) : String c s +:+ t = String c (s +:+ t).
Proof. done. Qed.

Lemma app_empty (t : string) : "" +:+ t = t.
Proof. done. Qed.

Lemma app_assoc_str (a b c : string) : a +:+ (b +:+ c) = (a +:+ b) +:+ c.
Proof. induction a as [|x a IH]; [done|]. by rewrite !app_cons, IH. Qed.

Lemma rstrip_last s d : is_space d = false -> rstrip (s +:+ String d "") = s +:+ String d "".
Proof.
  intros Hd. induction s as [|c s IH]; rewrite ?app_empty, ?app_cons; cbn [rstrip]; [by rewrite Hd|].
  rewrite IH. by destruct s.
Qed.

Lemma strip_head_last c s d :
  is_space c = false -> is_space d = false ->
  strip (String c (s +:+ String d "")) = String c (s +:+ String d "").
Proof. intros Hc Hd. unfold strip. cbn [lstrip]. rewrite Hc, <- app_cons. by apply rstrip_last. Qed.

Lemma rstrip_app_space s c : is_space c = true -> rstrip (s +:+ String c "") = rstrip s.
Proof.
  intros Hc. induction s as [|d s IH]; rewrite ?app_empty, ?app_cons; cbn [rstrip]; [by rewrite Hc|]. by rewrite IH.
Qed.

Lemma strip_app_space s c : is_space c = true -> strip (s +:+ String c "") = strip s.
Proof.
  intros Hc. unfold strip. induction s as [|d s IH]; rewrite ?app_empty, ?app_cons; cbn [lstrip].
  - by rewrite Hc.
  - destruct (is_space d); [done|]. rewrite <- app_cons. by apply rstrip_app_space.
Qed.


Lemma app_nil_str (t : string) : t +:+ "" = t.
Proof. induction t as [|c t IH]; [done|]. by rewrite app_cons, IH. Qed.

(** Only white space. *)
Fixpoint all_space (s : string) : bool :=
  match s with EmptyString => true | String c s => is_space c && all_space s end.

Lemma all_space_app s t : all_space (s +:+ t) = all_space s && all_space t.
Proof. induction s as [|c s IH]; [done|]. rewrite app_cons. cbn [all_space]. by rewrite IH, andb_assoc. Qed.

Lemma lstrip_all_space s t : all_space s = true -> lstrip (s +:+ t) = lstrip t.
Proof.
  induction s as [|c s IH]; [done|]. rewrite app_cons. cbn [all_space lstrip].
  intros [-> ?]%andb_true_iff. by apply IH.
Qed.

Lemma rstrip_all_space s t : all_space t = true -> rstrip (s +:+ t) = rstrip s.
Proof.
  revert s. induction t as [|c t IH]; intros s; [by rewrite app_nil_str|]. cbn [all_space]. intros [Hc Ht]%andb_true_iff.
  change (String c t) with (String c "" +:+ t). rewrite app_assoc_str, IH by done. by apply rstrip_app_space.
Qed.

Lemma lstrip_rstrip s : lstrip (rstrip s) = strip s.
Proof.
  unfold strip. induction s as [|c s IH]; [done|]. cbn [lstrip]. destruct (is_space c) eqn:Hc.
  - rewrite <- IH. cbn [rstrip]. rewrite Hc. destruct (rstrip s); [done|]. cbn [lstrip]. by rewrite Hc.
  - destruct (rstrip_cons_nonspace c s Hc) as [r ->]. cbn [lstrip]. by rewrite Hc.
Qed.

Lemma strip_rstrip s : strip (rstrip s) = strip s.
Proof. unfold strip at 1. rewrite lstrip_rstrip. unfold strip. by rewrite rstrip_rstrip. Qed.

Lemma strip_lstrip s : strip (lstrip s) = strip s.
Proof. unfold strip. by rewrite lstrip_lstrip. Qed.

(** Spaces on either side do not matter to [strip]. *)
Lemma strip_around a s b : all_space a = true -> all_space b = true -> strip (a +:+ s +:+ b) = strip s.
Proof.
  intros Ha Hb. unfold strip at 1. rewrite lstrip_all_space by done. fold (strip (s +:+ b)).
  rewrite <- !lstrip_rstrip. by rewrite rstrip_all_space.
Qed.

Lemma lstrip_app_nonspace s c t : is_space c = false -> lstrip (s +:+ String c t) = lstrip s +:+ String c t.
Proof.
  intros Hc. induction s as [|d s IH]; rewrite ?app_empty, ?app_cons; cbn [lstrip].
  - by rewrite Hc.
  - destruct (is_space d); [apply IH|by rewrite app_cons].
Qed.

Lemma rstrip_app_nonspace s c t : is_space c = false -> rstrip (s +:+ String c t) = s +:+ String c (rstrip t).
Proof.
  intros Hc. induction s as [|d s IH]; rewrite ?app_empty, ?app_cons; cbn [rstrip].
  - rewrite Hc. by destruct (rstrip t).
  - rewrite IH. by destruct s.
Qed.

(** ** Runs of characters *)

(** The maximal runs of characters [keep] accepts, in order: [re.findall] of a
    class repeated, and [s.split()] for the characters that are not spaces. *)
Fixpoint runs_from (keep : ascii -> bool) (cur s : string) : list string :=
  match s with
  | EmptyString => if truthy cur then [cur] else []
  | String c s' =>
      if keep c then runs_from keep (cur +:+ String c "") s'
      else ((if truthy cur then [cur] else []) ++ runs_from keep "" s')%list
  end.
Definition runs (keep : ascii -> bool) (s : string) : list string := runs_from keep "" s.
Definition words (s : string) : list string := runs (λ c, negb (is_space c)) s.

(** Every character satisfies [p]. *)
Fixpoint all_char (p : ascii -> bool) (s : string) : bool :=
  match s with EmptyString => true | String c s' => p c && all_char p s' end.

Lemma all_char_app p s t : all_char p (s +:+ t) = all_char p s && all_char p t.
Proof. induction s as [|c s IH]; [done|]. rewrite app_cons. cbn [all_char]. by rewrite IH, andb_assoc. Qed.

Lemma runs_from_keep keep s : forall cur r,
  all_char keep cur = true -> r ∈ runs_from keep cur s -> all_char keep r = true /\ r <> "".
Proof.
  assert (forall cur r, all_char keep cur = true -> r ∈ (if truthy cur then [cur] else []) -> all_char keep r = true /\ r <> "") as H0.
  { intros cur r Hc Hr. destruct (truthy cur) eqn:E; [|by apply not_elem_of_nil in Hr].
    apply list_elem_of_singleton in Hr as ->. by apply truthy_true in E. }
  induction s as [|c s IH]; intros cur r Hc Hr; cbn [runs_from] in Hr; [by apply (H0 cur)|].
  destruct (keep c) eqn:Ek.
  - apply IH in Hr; [done|]. rewrite all_char_app, Hc. cbn. by rewrite Ek.
  - apply elem_of_app in Hr as [Hr|Hr]; [by apply (H0 cur)|]. by apply IH in Hr.
Qed.

Lemma runs_keep keep s r : r ∈ runs keep s -> all_char keep r = true /\ r <> "".
Proof. by apply runs_from_keep. Qed.
