(* ===== verification/PyDict.v ===== *)
(** * Python [dict]: insertion-ordered maps

    Order is observable in the program (iteration over [dict.values()]), so a
    dict is an association list with distinct keys: assignment to a present
    key keeps its position, to an absent key appends, [del] removes. *)

From S2P Require Import Prelude.

Section dict.
Context {K V : Type} `{!EqDecision K}.
Implicit Types (d : list (K * V)) (k : K).

(** [d.get(k)] *)
Fixpoint dget (k : K) (d : list (K * V)) : option V :=
  match d with
  | [] => None
  | (k', v) :: d' => if decide (k = k') then Some v else dget k d'
  end.

(** [d[k] = v] *)
Fixpoint dset (k : K) (v : V) (d : list (K * V)) : list (K * V) :=
  match d with
  | [] => [(k, v)]
  | (k', v') :: d' =>
      if decide (k = k') then (k', v) :: d' else (k', v') :: dset k v d'
  end.

(** [d.pop(k, None)], and [del d[k]] on a present key *)
Fixpoint ddel (k : K) (d : list (K * V)) : list (K * V) :=
  match d with
  | [] => []
  | (k', v') :: d' => if decide (k = k') then d' else (k', v') :: ddel k d'
  end.

(** [k in d] *)
Definition dmem (k : K) (d : list (K * V)) : bool :=
  match dget k d with Some _ => true | None => false end.

(** [d.keys()] and [d.values()], in insertion order *)
Definition dkeys (d : list (K * V)) : list K := map fst d.
Definition dvalues (d : list (K * V)) : list V := map snd d.

Definition dwf (d : list (K * V)) : Prop := NoDup (dkeys d).

Lemma dget_None k d : dget k d = None <-> k ∉ dkeys d.
Proof.
  induction d as [|[k' v] d IH]; simpl; [set_solver|].
  case_decide; subst; set_solver.
Qed.

Lemma dget_Some_elem k v d : dget k d = Some v -> (k, v) ∈ d.
Proof.
  induction d as [|[k' v'] d IH]; simpl; [done|].
  case_decide; intros; simplify_eq; set_solver.
Qed.

Lemma elem_dget k v d : dwf d -> (k, v) ∈ d -> dget k d = Some v.
Proof.
  unfold dwf. induction d as [|[k' v'] d IH]; simpl; [set_solver|].
  rewrite NoDup_cons. intros [Hn Hd] [Heq|Hin]%elem_of_cons; simplify_eq.
  - by rewrite decide_True.
  - rewrite decide_False; [auto|]. intros ->. apply Hn.
    unfold dkeys. apply list_elem_of_fmap. by exists (k', v).
Qed.

Lemma dget_dset_eq k v d : dget k (dset k v d) = Some v.
Proof.
  induction d as [|[k' v'] d IH]; simpl; [by rewrite decide_True|].
  case_decide; simpl; [by rewrite decide_True|by rewrite decide_False].
Qed.

Lemma dget_dset_ne k k' v d : k <> k' -> dget k' (dset k v d) = dget k' d.
Proof.
  intros Hne. induction d as [|[j w] d IH]; simpl; [by rewrite decide_False|].
  case_decide; subst; simpl; case_decide; congruence.
Qed.

Lemma dset_same k v d : dget k d = Some v -> dset k v d = d.
Proof.
  induction d as [|[k' v'] d IH]; simpl; [done|]. case_decide as E.
  - intros [= ->]. by subst.
  - intros H. by rewrite IH.
Qed.

Lemma dset_fresh k v d : dget k d = None -> dset k v d = d ++ [(k, v)].
Proof.
  induction d as [|[k' v'] d IH]; simpl; [done|].
  case_decide; [done|]. intros Hk. by rewrite IH.
Qed.

Lemma elem_ddel k x d : x ∈ ddel k d -> x ∈ d.
Proof. induction d as [|[k' v'] d IH]; simpl; [done|]. case_decide; set_solver. Qed.

Lemma elem_ddel_iff k k' v d :
  dwf d -> (k', v) ∈ ddel k d <-> (k', v) ∈ d /\ k' <> k.
Proof.
  unfold dwf. induction d as [|[j w] d IH]; simpl; [set_solver|].
  rewrite NoDup_cons. intros [Hn Hd]. specialize (IH Hd). case_decide; subst.
  - split; [|set_solver]. intros Hin. split; [set_solver|]. intros ->.
    apply Hn. apply list_elem_of_fmap. by exists (j, v).
  - rewrite !elem_of_cons, IH. split; [|tauto]. intros [Heq|?]; [|tauto].
    simplify_eq. auto.
Qed.

Lemma dget_ddel_eq k d : dwf d -> dget k (ddel k d) = None.
Proof.
  intros Hd. apply dget_None. intros Hin. unfold dkeys in Hin.
  apply list_elem_of_fmap in Hin as [[k' v] [-> Hin]].
  apply elem_ddel_iff in Hin; [|done]. simpl in *. tauto.
Qed.

Lemma dget_ddel_ne k k' d : k <> k' -> dget k' (ddel k d) = dget k' d.
Proof.
  intros Hne. induction d as [|[j w] d IH]; simpl; [done|].
  case_decide; subst; simpl; case_decide; congruence.
Qed.

Lemma ddel_fresh k d : dget k d = None -> ddel k d = d.
Proof.
  induction d as [|[k' v'] d IH]; simpl; [done|].
  case_decide; [done|]. intros Hk. by rewrite IH.
Qed.

Lemma dwf_dset k v d : dwf d -> dwf (dset k v d).
Proof.
  intros Hd. destruct (dget k d) eqn:E.
  - enough (dkeys (dset k v d) = dkeys d) as H by (unfold dwf; by rewrite H).
    clear Hd. revert E. induction d as [|[k' v'] d IH]; simpl; [done|].
    case_decide; subst; simpl; [done|]. intros H'. by rewrite IH.
  - rewrite dset_fresh by done. unfold dwf, dkeys in *. rewrite map_app.
    apply NoDup_app. split; [done|]. split; [|apply NoDup_singleton].
    apply dget_None in E. set_solver.
Qed.

Lemma dwf_ddel k d : dwf d -> dwf (ddel k d).
Proof.
  unfold dwf. induction d as [|[k' v'] d IH]; simpl; [done|].
  rewrite NoDup_cons. intros [Hn Hd]. case_decide; [done|].
  simpl. apply NoDup_cons. split; [|auto].
  intros Hin. apply Hn. unfold dkeys in *. apply list_elem_of_fmap in Hin as [[j w] [-> Hin]].
  apply list_elem_of_fmap. exists (j, w). split; [done|]. by eapply elem_ddel.
Qed.

Lemma ddel_filter k d : dwf d -> ddel k d = filter (λ kv, kv.1 <> k) d.
Proof.
  unfold dwf. induction d as [|[j w] d IH]; simpl; [done|].
  rewrite NoDup_cons. intros [Hn Hd]. rewrite filter_cons. simpl. case_decide; subst.
  - rewrite decide_False by tauto. symmetry. clear IH Hd. induction d as [|[i u] d IH]; [done|].
    rewrite filter_cons. simpl in *. rewrite decide_True by set_solver.
    f_equal. apply IH. set_solver.
  - rewrite decide_True by congruence. f_equal. auto.
Qed.
End dict.

#[export] Hint Resolve dwf_dset dwf_ddel : py.
#[export] Hint Rewrite @dget_dset_eq : pyrw.
