(* ===== verification/PyValue.v ===== *)
(** * Python values of untyped payloads

    Event payloads and metadata are parsed JSON: the values the program
    inspects with [isinstance], truth tests and [is True]. A [float] is an
    exact rational (finite floats are rationals; rounding is not modelled). *)

From S2P Require Import Prelude PyStr PyDict.
Local Open Scope string_scope.

Inductive pyval : Type :=
| VNone
| VBool (b : bool)
| VInt (z : Z)
| VFloat (q : Q)
| VStr (s : string)
| VList (l : list pyval)
| VDict (d : list (string * pyval)).

(** A JSON object: [dict[str, object]]. *)
Abbreviation pydict := (list (string * pyval)).

(** [bool(v)] *)
Definition vtruthy (v : pyval) : bool :=
  match v with
  | VNone => false
  | VBool b => b
  | VInt z => negb (z =? 0)%Z
  | VFloat q => negb (Qeq_bool q 0)
  | VStr s => truthy s
  | VList l => match l with [] => false | _ => true end
  | VDict d => match d with [] => false | _ => true end
  end.

(** [v is True] *)
Definition is_true (v : option pyval) : bool :=
  match v with Some (VBool true) => true | _ => false end.

(** [v == s] for a [str] [s]: only an equal [str] compares equal. *)
Definition v_eq_str (v : pyval) (s : string) : bool :=
  match v with VStr s' => bool_decide (s' = s) | _ => false end.

(** [s in l] for a list of values. *)
Definition str_in (s : string) (l : list pyval) : bool :=
  existsb (λ v, v_eq_str v s) l.

Lemma str_in_elem s l : str_in s l = true <-> VStr s ∈ l.
Proof.
  unfold str_in. rewrite existsb_exists. split.
  - intros (v & Hin & Hv). apply list_elem_of_In. destruct v; simpl in Hv; try done.
    apply bool_decide_eq_true in Hv. by subst.
  - intros Hin. exists (VStr s). split; [by apply list_elem_of_In|].
    by apply bool_decide_eq_true.
Qed.

(** [isinstance(v, list) and v] with the value kept: the non-empty list case. *)
Definition nonempty_list (v : pyval) : option (list pyval) :=
  match v with VList (x :: l) => Some (x :: l) | _ => None end.

(** [d.get(k, default)] *)
Definition dget_or (k : string) (dft : pyval) (d : pydict) : pyval :=
  default dft (dget k d).

(** The number an [int], a [float] or a [bool] stands for in a comparison. *)
Definition vnum (v : pyval) : option Q :=
  match v with
  | VBool b => Some (if b then 1 else 0)%Q
  | VInt z => Some (inject_Z z)
  | VFloat q => Some q
  | _ => None
  end.

(** [a == b]: numbers by value, lists by position, dicts whatever their order. *)
Fixpoint py_eq (a b : pyval) {struct a} : bool :=
  match a, b with
  | VNone, VNone => true
  | VStr s, VStr t => String.eqb s t
  | VList l, VList m =>
      (fix go (l m : list pyval) {struct l} : bool :=
         match l, m with
         | [], [] => true
         | x :: l, y :: m => py_eq x y && go l m
         | _, _ => false
         end) l m
  | VDict d, VDict e =>
      Nat.eqb (length d) (length e) &&
      (fix go (d : pydict) : bool :=
         match d with
         | [] => true
         | (k, x) :: d => match dget k e with Some y => py_eq x y | None => false end && go d
         end) d
  | _, _ => match vnum a, vnum b with Some x, Some y => Qeq_bool x y | _, _ => false end
  end.

(** [v in l] *)
Definition py_mem (v : pyval) (l : list pyval) : bool := existsb (λ w, py_eq w v) l.

(** A value Python can hold: no object repeats a key, at any depth. *)
Fixpoint py_wf (v : pyval) : Prop :=
  match v with
  | VList l => (fix go (l : list pyval) : Prop := match l with [] => True | x :: l => py_wf x /\ go l end) l
  | VDict d =>
      dwf d /\
      (fix go (d : pydict) : Prop := match d with [] => True | (_, x) :: d => py_wf x /\ go d end) d
  | _ => True
  end.

Lemma py_eq_refl v : py_wf v -> py_eq v v = true.
Proof.
  revert v. fix IH 1. intros [|b|z|q|s|l|d]; intros Hw; simpl in *.
  - done.
  - by destruct b.
  - by apply Qeq_bool_iff.
  - by apply Qeq_bool_iff.
  - apply String.eqb_refl.
  - induction l as [|x l IHl]; [done|]. destruct Hw as [Hx Hl].
    apply andb_true_iff. split; [by apply IH|by apply IHl].
  - destruct Hw as [Hd Hw]. rewrite Nat.eqb_refl. simpl.
    assert (forall k x, (k, x) ∈ d -> dget k d = Some x) as Hg by (intros; by apply elem_dget).
    clear Hd. revert Hg Hw. set (d0 := d) at 2 4. clearbody d0. intros Hg Hw.
    induction d as [|[k x] d IHd]; [done|]. destruct Hw as [Hx Hd].
    rewrite (Hg k x) by left. rewrite IH by done. simpl. apply IHd; [|done].
    intros k' x' Hin. apply Hg. by right.
Qed.

Lemma py_mem_elem v l : py_wf v -> v ∈ l -> py_mem v l = true.
Proof.
  intros Hw Hin. apply existsb_exists. exists v. split; [by apply list_elem_of_In|by apply py_eq_refl].
Qed.

Lemma py_wf_list l : py_wf (VList l) -> Forall py_wf l.
Proof. simpl. induction l as [|x l IH]; [constructor|]. intros [Hx Hl]. constructor; auto. Qed.

Lemma py_wf_dict_elem d k v : py_wf (VDict d) -> (k, v) ∈ d -> py_wf v.
Proof.
  simpl. intros [_ H]. induction d as [|[k' v'] d IH]; intros Hin; [by apply not_elem_of_nil in Hin|].
  destruct H as [H1 H2]. apply elem_of_cons in Hin as [[= -> ->]|Hin]; auto.
Qed.
