(* ===== verification/PyFloat.v ===== *)
(** * Python numbers

    A [float] with its infinities and NaN, and a value as the checks for a
    number see it. A finite [float] is an exact rational. *)

From Stdlib Require Import Qround.
From S2P Require Import Prelude PyStr PyDict PyValue.
Local Open Scope string_scope.

(** A Python [float]: a finite one is an exact rational. Comparisons with NaN
    are false. *)
Inductive pyfloat := Fin (q : Q) | PosInf | NegInf | NaN.

Definition isfinite (x : pyfloat) : bool := match x with Fin _ => true | _ => false end.
Definition isnan (x : pyfloat) : bool := match x with NaN => true | _ => false end.

(** [a < b] *)
Definition flt (a b : pyfloat) : bool :=
  match a, b with
  | Fin x, Fin y => Qltb x y
  | NaN, _ | _, NaN => false
  | NegInf, NegInf => false
  | NegInf, _ => true
  | _, PosInf => match a with PosInf => false | _ => true end
  | _, _ => false
  end.

(** [a == b] *)
Definition feq (a b : pyfloat) : bool :=
  match a, b with
  | Fin x, Fin y => Qeq_bool x y
  | PosInf, PosInf | NegInf, NegInf => true
  | _, _ => false
  end.

(** [min(a, b)] is [b if b < a else a]; [max(a, b)] is [b if b > a else a]. *)
Definition py_min (a b : pyfloat) : pyfloat := if flt b a then b else a.
Definition py_max (a b : pyfloat) : pyfloat := if flt a b then b else a.

(** An argument as a check for a number has it: [isinstance] tells a [bool], an
    [int] and a [float] from anything else. *)
Inductive pynum := NumBool (b : bool) | NumInt (z : Z) | NumFloat (x : pyfloat) | NumOther.

Definition num_of (v : pyval) : pynum :=
  match v with
  | VBool b => NumBool b
  | VInt z => NumInt z
  | VFloat q => NumFloat (Fin q)
  | _ => NumOther
  end.

(** The integers [float()] overflows on. *)
Definition int_overflows (z : Z) : bool := (2 ^ 1024 - 2 ^ 970 <=? Z.abs z)%Z.

(** [round(x)]: to the nearest integer, a half to the even one. *)
Definition py_round (x : Q) : Z :=
  let f := Qfloor x in
  let d := (x - inject_Z f)%Q in
  if Qltb d (1 # 2) then f
  else if Qltb (1 # 2) d then (f + 1)%Z
  else if Z.even f then f else (f + 1)%Z.

Lemma py_round_near x : (inject_Z (py_round x) - (1 # 2) <= x <= inject_Z (py_round x) + (1 # 2))%Q.
Proof.
  unfold py_round. pose proof (Qfloor_le x) as H1. pose proof (Qlt_floor x) as H2.
  rewrite inject_Z_plus in H2. change (inject_Z 1) with 1%Q in H2.
  destruct (Qltb _ (1 # 2)) eqn:E1; q_props; [split; lra|].
  destruct (Qltb (1 # 2) _) eqn:E2; q_props; [rewrite inject_Z_plus; change (inject_Z 1) with 1%Q; split; lra|].
  destruct (Z.even _); rewrite ?inject_Z_plus; change (inject_Z 1) with 1%Q; split; lra.
Qed.

(** Rounding keeps the order: what is below an integer stays below it. *)
Lemma py_round_le x n : (x <= inject_Z n)%Q -> (py_round x <= n)%Z.
Proof.
  intros H. pose proof (Qfloor_le x) as H1. assert (Qfloor x <= n)%Z as Hf by (rewrite Zle_Qle; lra).
  unfold py_round. destruct (Z.eq_dec (Qfloor x) n) as [E|Hne].
  - assert (x - inject_Z (Qfloor x) <= 0)%Q by (rewrite E; lra).
    destruct (Qltb _ (1 # 2)) eqn:E1; q_props; [lia|]. exfalso. lra.
  - destruct (Qltb _ _); [lia|]. destruct (Qltb _ _); [lia|]. destruct (Z.even _); lia.
Qed.

Lemma py_round_ge x n : (inject_Z n <= x)%Q -> (n <= py_round x)%Z.
Proof.
  intros H. assert (n <= Qfloor x)%Z as Hf by (rewrite <- (Qfloor_Z n); by apply Qfloor_resp_le).
  unfold py_round. destruct (Qltb _ _); [lia|]. destruct (Qltb _ _); [lia|]. destruct (Z.even _); lia.
Qed.
