(* ===== verification/Ambient.v ===== *)
(** * Task-local identity axes: principal, epoch, session

    Models [agents/principal_id.py], [agents/epoch_id.py] and
    [agents/session_id.py]: three task-local [ContextVar]s with an environment
    fallback. The three modules are twins; the shared behaviour is stated once
    over an interface ([axis] with its [AxisLaws]) and instantiated in the
    Modules [Principal], [Epoch] and [Session]. *)

From S2P Require Import Prelude PyStr PyDict PyValue.
Local Open Scope string_scope.

(** The context of one [asyncio.Task] (the three variables) and
    [os.environ]. *)
Record ambient := Ambient {
  active_principal : option string;
  active_epoch : option string;
  active_session : option string;
  environ : list (string * string);
}.

(** One axis: its [ContextVar] (read and write), its environment variable, its
    default and the event-metadata key it rides on. *)
Record axis := Axis {
  ax_get : ambient -> option string;
  ax_set : option string -> ambient -> ambient;
  ax_env_var : string;
  ax_default : string;
  ax_metadata_key : string;
}.

(** What the generic lemmas need of an axis. [ax_default_strip] says the
    default is not blank and carries no surrounding space. *)
Class AxisLaws (ax : axis) : Prop := {
  ax_get_set v a : ax_get ax (ax_set ax v a) = v;
  ax_environ_set v a : environ (ax_set ax v a) = environ a;
  ax_default_truthy : ax_default ax <> "";
  ax_default_strip : strip (ax_default ax) = ax_default ax;
}.

(** The body of a [with] block: it runs in the current context, may raise, and
    may leave the context changed. *)
Abbreviation body A := (ambient -> result pyval A * ambient).

Section axis_ops.
Context (ax : axis).

(** [os.environ.get(VAR, "").strip() or DEFAULT] *)
Definition resolve_world (a : ambient) : string :=
  str_or (strip (default "" (dget (ax_env_var ax) (environ a)))) (ax_default ax).

(** [current() or os.environ.get(VAR, "").strip() or DEFAULT] *)
Definition resolve_silent (a : ambient) : string :=
  str_or (opt_str (ax_get ax a)) (resolve_world a).

(** [(value or "").strip() or DEFAULT] *)
Definition normalize_id (value : option string) : string :=
  str_or (strip (opt_str value)) (ax_default ax).

(** [@contextmanager def scope(value)]: set, run, and reset to the value the
    token saved, on a normal exit and on an exception alike. *)
Definition with_scope {A} (value : option string) (block : string -> body A) : body A :=
  λ a,
    let resolved := normalize_id value in
    let saved := ax_get ax a in
    let '(r, a') := block resolved (ax_set ax (Some resolved) a) in
    (r, ax_set ax saved a').

(** A present, non-empty string; anything else reads as [None]. *)
Definition id_from_metadata (metadata : pydict) : option string :=
  match dget (ax_metadata_key ax) metadata with
  | Some (VStr pid) => if truthy pid then Some pid else None
  | _ => None
  end.

(** Binds a scope for a valid id, a [nullcontext()] (yielding [None])
    otherwise. *)
Definition with_scope_from_metadata {A} (metadata : pydict)
    (block : option string -> body A) : body A :=
  match id_from_metadata metadata with
  | Some pid => with_scope (Some pid) (λ r, block (Some r))
  | None => block None
  end.
End axis_ops.

Section axis_lemmas.
Context (ax : axis) `{!AxisLaws ax}.

Lemma normalize_id_truthy v : normalize_id ax v <> "".
Proof. apply str_or_truthy, ax_default_truthy. Qed.

Lemma normalize_id_strip v : strip (normalize_id ax v) = normalize_id ax v.
Proof.
  unfold normalize_id, str_or. case_match; [apply strip_strip|apply ax_default_strip].
Qed.

Lemma normalize_id_fixed s : s <> "" -> strip s = s -> normalize_id ax (Some s) = s.
Proof.
  intros Hs Hst. unfold normalize_id, opt_str. simpl. rewrite Hst.
  unfold str_or. by apply truthy_true in Hs as ->.
Qed.

Lemma normalize_id_idemp v : normalize_id ax (Some (normalize_id ax v)) = normalize_id ax v.
Proof. apply normalize_id_fixed; [apply normalize_id_truthy|apply normalize_id_strip]. Qed.

Lemma resolve_world_truthy a : resolve_world ax a <> "".
Proof. apply str_or_truthy, ax_default_truthy. Qed.

Lemma resolve_silent_truthy a : resolve_silent ax a <> "".
Proof. apply str_or_truthy, resolve_world_truthy. Qed.

Lemma resolve_world_strip a : strip (resolve_world ax a) = resolve_world ax a.
Proof.
  unfold resolve_world, str_or. case_match; [apply strip_strip|apply ax_default_strip].
Qed.

Lemma resolve_in_scope a s : s <> "" -> resolve_silent ax (ax_set ax (Some s) a) = s.
Proof.
  intros Hs. unfold resolve_silent. rewrite ax_get_set. simpl.
  unfold str_or. by apply truthy_true in Hs as ->.
Qed.

Lemma with_scope_run {A} v (block : string -> body A) a :
  with_scope ax v block a =
    (fst (block (normalize_id ax v) (ax_set ax (Some (normalize_id ax v)) a)),
     ax_set ax (ax_get ax a)
       (snd (block (normalize_id ax v) (ax_set ax (Some (normalize_id ax v)) a)))).
Proof. unfold with_scope. by destruct (block _ _). Qed.
End axis_lemmas.

#[export] Hint Resolve normalize_id_truthy resolve_silent_truthy : py.
#[export] Hint Rewrite @normalize_id_idemp using typeclasses eauto : pyrw.

(** ** The three axes *)

Module Principal.
Definition PRINCIPAL_ID_ENV_VAR := "PERSATRIX_PRINCIPAL_ID".
Definition DEFAULT_PRINCIPAL_ID := "local".
Definition EVENT_PRINCIPAL_METADATA_KEY := "persatrix_principal".
Definition SEEDED_PRINCIPAL_MAX_BYTES := 256%Z.

Definition ax : axis :=
  Axis active_principal
       (λ v a, Ambient v (active_epoch a) (active_session a) (environ a))
       PRINCIPAL_ID_ENV_VAR DEFAULT_PRINCIPAL_ID EVENT_PRINCIPAL_METADATA_KEY.

#[global] Instance ax_laws : AxisLaws ax.
Proof. by split. Qed.

Definition current_principal_id (a : ambient) : option string := active_principal a.
Definition resolve_principal_id_silent (a : ambient) : string := resolve_silent ax a.
Definition normalize_principal_id (value : option string) : string := normalize_id ax value.
Definition principal_scope {A} := with_scope ax (A := A).
Definition principal_id_from_metadata (metadata : pydict) : option string :=
  id_from_metadata ax metadata.
Definition principal_scope_from_metadata {A} := with_scope_from_metadata ax (A := A).

(** The replay-side seed: a [str] that is non-empty after stripping and within
    the byte bound writes its stripped form; the flag says whether it did. *)
Definition seed_principal_metadata (metadata : pydict) (raw : pyval) : bool * pydict :=
  match raw with
  | VStr s =>
      let seeded := strip s in
      if negb (truthy seeded) || (SEEDED_PRINCIPAL_MAX_BYTES <? utf8_len seeded)%Z
      then (false, metadata)
      else (true, dset EVENT_PRINCIPAL_METADATA_KEY (VStr seeded) metadata)
  | _ => (false, metadata)
  end.
End Principal.

Module Epoch.
Definition EPOCH_ID_ENV_VAR := "PERSATRIX_EPOCH".
Definition DEFAULT_EPOCH_ID := "live".
Definition EVENT_EPOCH_METADATA_KEY := "persatrix_epoch".

Definition ax : axis :=
  Axis active_epoch
       (λ v a, Ambient (active_principal a) v (active_session a) (environ a))
       EPOCH_ID_ENV_VAR DEFAULT_EPOCH_ID EVENT_EPOCH_METADATA_KEY.

#[global] Instance ax_laws : AxisLaws ax.
Proof. by split. Qed.

Definition current_epoch_id (a : ambient) : option string := active_epoch a.
Definition resolve_world_epoch_id (a : ambient) : string := resolve_world ax a.
Definition resolve_epoch_id_silent (a : ambient) : string := resolve_silent ax a.
Definition normalize_epoch_id (value : option string) : string := normalize_id ax value.
Definition epoch_scope {A} := with_scope ax (A := A).
Definition epoch_id_from_metadata (metadata : pydict) : option string :=
  id_from_metadata ax metadata.
Definition epoch_scope_from_metadata {A} := with_scope_from_metadata ax (A := A).
End Epoch.

Module Session.
Definition SESSION_ID_ENV_VAR := "PERSATRIX_SESSION_ID".
Definition LEGACY_SESSION_ID := "legacy".
Definition EVENT_SESSION_METADATA_KEY := "persatrix_session".

Definition ax : axis :=
  Axis active_session
       (λ v a, Ambient (active_principal a) (active_epoch a) v (environ a))
       SESSION_ID_ENV_VAR LEGACY_SESSION_ID EVENT_SESSION_METADATA_KEY.

#[global] Instance ax_laws : AxisLaws ax.
Proof. by split. Qed.

Definition current_session_id (a : ambient) : option string := active_session a.
Definition resolve_session_id_silent (a : ambient) : string := resolve_silent ax a.
Definition normalize_session_id (value : option string) : string := normalize_id ax value.
Definition session_scope {A} := with_scope ax (A := A).
Definition session_id_from_metadata (metadata : pydict) : option string :=
  id_from_metadata ax metadata.
Definition session_scope_from_metadata {A} := with_scope_from_metadata ax (A := A).
End Session.

(** ** Properties *)

(** A [with ..._scope(v)] block of any axis: the block runs once, with the
    variable bound to the normalised id it is handed (so resolution inside it
    answers that id, never a blank one); when it ends, normally or by an
    exception, the block's result is returned and the variable holds its value
    from before the block, so two sequential or nested scopes cannot leak into
    each other. *)
Theorem scope_binds_and_restores (ax : axis) `{!AxisLaws ax} {A} v
    (block : string -> body A) a :
  let inside := ax_set ax (Some (normalize_id ax v)) a in
  let out := with_scope ax v block a in
  fst out = fst (block (normalize_id ax v) inside)
  /\ ax_get ax (snd out) = ax_get ax a
  /\ resolve_silent ax inside = normalize_id ax v
  /\ normalize_id ax v <> "".
Proof.
  cbv zeta. rewrite with_scope_run. simpl. repeat split.
  - apply ax_get_set.
  - apply resolve_in_scope; auto with py.
  - auto with py.
Qed.

Lemma scope_binds_and_restores_witness :
  let a := Ambient None None None [("PERSATRIX_PRINCIPAL_ID", " env ")] in
  let block (r : string) : body string := λ a, (Raise (VStr r), a) in
  with_scope Principal.ax (Some "  alice ") block a = (Raise (VStr "alice"), a)
  /\ resolve_silent Principal.ax a = "env"
  /\ ax_get Principal.ax (snd (with_scope Principal.ax (Some "  alice ") block a)) = None.
Proof.
  cbv zeta. split; [reflexivity|]. split; [reflexivity|].
  exact (proj1 (proj2 (scope_binds_and_restores Principal.ax (A := string) (Some "  alice ")
           (λ r a, (Raise (VStr r), a)) (Ambient None None None [("PERSATRIX_PRINCIPAL_ID", " env ")])))).
Defined.

(** Seeding a replayed event's principal: the returned flag and the tenant
    the record key later resolves always tell the same story. [True] means the
    raw value was a string whose stripped form is non-empty and at most 256
    bytes, that form is what the metadata reader returns, it is a fixed point of
    the storage normalisation, and no other key changed. [False] leaves the
    metadata untouched, exactly for every other raw value. *)
Theorem seed_principal_agrees (metadata : pydict) (raw : pyval) :
  let '(seeded, metadata') := Principal.seed_principal_metadata metadata raw in
  if seeded then
    exists s, raw = VStr s /\ strip s <> "" /\ (utf8_len (strip s) <= 256)%Z
      /\ Principal.principal_id_from_metadata metadata' = Some (strip s)
      /\ Principal.normalize_principal_id (Some (strip s)) = strip s
      /\ forall k, k <> Principal.EVENT_PRINCIPAL_METADATA_KEY ->
           dget k metadata' = dget k metadata
  else
    metadata' = metadata
    /\ forall s, raw = VStr s -> strip s = "" \/ (256 < utf8_len (strip s))%Z.
Proof.
  destruct raw as [| | | |s| |]; simpl; try (split; [done|discriminate]).
  unfold Principal.SEEDED_PRINCIPAL_MAX_BYTES.
  destruct (truthy (strip s)) eqn:Ht; simpl.
  - destruct (256 <? utf8_len (strip s))%Z eqn:Hl; simpl.
    + split; [done|]. intros s' [= <-]. right. by apply Z.ltb_lt.
    + exists s. apply truthy_true in Ht as Hne.
      split_and!; [done|done|by apply Z.ltb_ge| | |].
      * unfold Principal.principal_id_from_metadata, id_from_metadata. simpl.
        by rewrite dget_dset_eq, Ht.
      * by apply normalize_id_fixed, strip_strip.
      * intros k Hk. by apply dget_dset_ne.
  - split; [done|]. intros s' [= <-]. left. by apply truthy_false.
Qed.
