(* ===== verification/Scopes.v ===== *)
(** * Interaction scopes

    Models [agents/memory/scopes.py]: the scope strings interactions are filed
    under and the routing of a channel event to its scope. *)

From S2P Require Import Prelude PyStr.
From Stdlib Require Import Ascii String.
Local Open Scope string_scope.

Definition SCOPE_TICK := "tick".
Definition GROUP_PREFIX := "group:".
Definition THREAD_PREFIX := "thread:".
Definition DM_PREFIX := "dm:".

Definition scope_for_dm (local_agent_id peer_id : string) : string :=
  let '(a, b) := sorted_pair local_agent_id peer_id in
  DM_PREFIX +:+ a +:+ ":" +:+ b.

Definition scope_for_thread (thread_id_or_scope : string) : string :=
  if startswith THREAD_PREFIX thread_id_or_scope then thread_id_or_scope
  else THREAD_PREFIX +:+ thread_id_or_scope.

Definition scope_for_group (channel_id_or_name : string) : string :=
  if startswith GROUP_PREFIX channel_id_or_name then channel_id_or_name
  else GROUP_PREFIX +:+ channel_id_or_name.

Definition is_thread_scope (scope : string) : bool := startswith THREAD_PREFIX scope.
Definition is_group_scope (scope : string) : bool := startswith GROUP_PREFIX scope.

(** The two kind discriminators of the routing cascade. *)
Inductive kind := Kdm | Kgroup | Kthread.
#[export] Instance kind_eq_dec : EqDecision kind.
Proof. solve_decision. Defined.

Definition prefix_kind (channel_id : string) : option kind :=
  if startswith DM_PREFIX channel_id then Some Kdm
  else if startswith GROUP_PREFIX channel_id then Some Kgroup
  else if startswith THREAD_PREFIX channel_id then Some Kthread
  else None.

Definition type_kind (norm : string) : option kind :=
  if bool_decide (norm = "dm") then Some Kdm
  else if bool_decide (norm = "group") then Some Kgroup
  else if bool_decide (norm = "thread") then Some Kthread
  else None.

(** The scope of a kind; a DM needs its peer. *)
Definition scope_of_kind (local_agent_id : string) (sender_id : option string)
    (channel_id : string) (k : kind) : option string :=
  match k with
  | Kdm => if truthy (opt_str sender_id)
           then Some (scope_for_dm local_agent_id (opt_str sender_id)) else None
  | Kgroup => Some (scope_for_group channel_id)
  | Kthread => Some (scope_for_thread channel_id)
  end.

(** The calls made to [on_unknown], as a list of argument pairs; [has_cb] says
    whether a callback was given. [channel_type] has its annotated type
    [str | None]. *)
Definition scope_for_channel_event (local_agent_id : string)
    (channel_id sender_id thread_id channel_type : option string) (has_cb : bool)
    : option string * list (string * string) :=
  if truthy (opt_str thread_id) then (Some (scope_for_thread (opt_str thread_id)), [])
  else
    let raw := opt_str channel_type in
    let norm := lower (strip raw) in
    let cid := opt_str channel_id in
    if truthy cid then
      let pk := prefix_kind cid in
      let tk := type_kind norm in
      let type_set := truthy norm in
      let drift :=
        has_cb && type_set
        && (bool_decide (tk = None)
            || negb (bool_decide (pk = None)) && negb (bool_decide (tk = pk))) in
      let calls := if drift then [(raw, cid)] else [] in
      match tk with
      | Some k => (scope_of_kind local_agent_id sender_id cid k, calls)
      | None =>
          match pk with
          | Some k => (scope_of_kind local_agent_id sender_id cid k, calls)
          | None =>
              let calls' := if has_cb && negb type_set then (calls ++ [(raw, cid)])%list else calls in
              (Some (scope_for_thread cid), calls')
          end
      end
    else if truthy (opt_str sender_id)
         then (Some (scope_for_dm local_agent_id (opt_str sender_id)), [])
         else (None, []).

(** ** Lemmas *)

(** [c] does not occur in [s]. *)
Fixpoint no_char (c : ascii) (s : string) : Prop :=
  match s with EmptyString => True | String d s' => d <> c /\ no_char c s' end.

Lemma app_sep_inj c (a b x y : string) :
  no_char c a -> no_char c b ->
  a +:+ String c x = b +:+ String c y -> a = b /\ x = y.
Proof.
  revert b. induction a as [|d a IH]; intros [|e b]; simpl.
  - intros _ _ [= ->]. done.
  - intros _ [He _] [= <- _]. done.
  - intros [Hd _] _ [= -> _]. done.
  - intros [_ Ha] [_ Hb] [= -> Heq]. destruct (IH b Ha Hb Heq) as [-> ->]. done.
Qed.

Lemma scope_for_dm_sym a b : scope_for_dm a b = scope_for_dm b a.
Proof. unfold scope_for_dm. by rewrite sorted_pair_comm. Qed.

Lemma scope_for_thread_idemp s : scope_for_thread (scope_for_thread s) = scope_for_thread s.
Proof.
  unfold scope_for_thread. destruct (startswith THREAD_PREFIX s) eqn:E; rewrite ?E; auto.
  by rewrite startswith_app.
Qed.

Lemma scope_for_group_idemp s : scope_for_group (scope_for_group s) = scope_for_group s.
Proof.
  unfold scope_for_group. destruct (startswith GROUP_PREFIX s) eqn:E; rewrite ?E; auto.
  by rewrite startswith_app.
Qed.

Lemma is_thread_scope_for_thread s : is_thread_scope (scope_for_thread s) = true.
Proof.
  unfold is_thread_scope, scope_for_thread.
  destruct (startswith THREAD_PREFIX s) eqn:E; auto using startswith_app.
Qed.

Lemma is_group_scope_for_group s : is_group_scope (scope_for_group s) = true.
Proof.
  unfold is_group_scope, scope_for_group.
  destruct (startswith GROUP_PREFIX s) eqn:E; auto using startswith_app.
Qed.

(** The three scope shapes are disjoint: a scope has one kind. *)
Definition has_kind (k : kind) (scope : string) : bool :=
  match k with
  | Kdm => startswith DM_PREFIX scope
  | Kgroup => is_group_scope scope
  | Kthread => is_thread_scope scope
  end.

Lemma has_kind_unique s k k' : has_kind k s = true -> has_kind k' s = true -> k = k'.
Proof.
  unfold has_kind, is_group_scope, is_thread_scope.
  destruct k, k'; try done;
    intros H1 H2; apply startswith_true in H1 as [r ->], H2 as [r' Hr]; discriminate Hr.
Qed.

Lemma scope_of_kind_has_kind local sender cid k s :
  scope_of_kind local sender cid k = Some s -> has_kind k s = true.
Proof.
  destruct k; simpl; intros H; simplify_eq/=.
  - case_match; simplify_eq/=. unfold scope_for_dm. destruct (sorted_pair _ _). apply startswith_app.
  - apply is_group_scope_for_group.
  - apply is_thread_scope_for_thread.
Qed.

#[export] Hint Rewrite scope_for_thread_idemp scope_for_group_idemp : pyrw.
#[export] Hint Resolve is_thread_scope_for_thread is_group_scope_for_group : py.

(** The routing as a decision table: the kind that governs, if any. *)
Definition governing_kind (channel_id thread_id channel_type : option string) : kind :=
  if truthy (opt_str thread_id) then Kthread
  else if truthy (opt_str channel_id) then
    default (default Kthread (prefix_kind (opt_str channel_id)))
            (type_kind (lower (strip (opt_str channel_type))))
  else Kdm.

Ltac unfold_routing :=
  unfold scope_for_channel_event, governing_kind; cbv zeta.

(** ** Properties *)

(** DM scopes identify the unordered pair of participants: both sides of a
    conversation derive the same scope, and (for ids without the [:] separator)
    two conversations share a scope only if they have the same two
    participants. *)
Theorem scope_for_dm_pair a b c d :
  no_char ":"%char a -> no_char ":"%char b -> no_char ":"%char c -> no_char ":"%char d ->
  scope_for_dm a b = scope_for_dm c d <-> (a = c /\ b = d) \/ (a = d /\ b = c).
Proof.
  intros Ha Hb Hc Hd. split.
  - unfold scope_for_dm.
    destruct (sorted_pair_or a b) as [-> | ->], (sorted_pair_or c d) as [-> | ->];
      intros [= Heq]; apply app_sep_inj in Heq as [-> ->]; auto.
  - intros [[-> ->] | [-> ->]]; [done|]. apply scope_for_dm_sym.
Qed.

Lemma scope_for_dm_pair_witness :
  scope_for_dm "iron-fox" "ember" = "dm:ember:iron-fox"
  /\ (scope_for_dm "iron-fox" "ember" = scope_for_dm "ember" "iron-fox"
      <-> ("iron-fox" = "ember" /\ "ember" = "iron-fox")
          \/ ("iron-fox" = "iron-fox" /\ "ember" = "ember")).
Proof.
  split; [reflexivity|].
  apply scope_for_dm_pair; simpl; repeat split; discriminate.
Defined.

(** Routing of a channel event: the scope returned has exactly the kind the
    cascade names (thread id first, then an explicit known channel type, then
    the channel-id prefix, then a thread-shaped fallback; without any channel a
    DM), so a contradictory event can never yield a malformed scope such as
    [group:thread:x] counted as a thread; and no scope is returned exactly when
    a DM has no sender. *)
Theorem routing_kind local channel_id sender_id thread_id channel_type has_cb :
  let r := fst (scope_for_channel_event local channel_id sender_id thread_id channel_type has_cb) in
  let k := governing_kind channel_id thread_id channel_type in
  (forall s, r = Some s -> forall k', has_kind k' s = true <-> k' = k)
  /\ (r = None <-> k = Kdm /\ truthy (opt_str sender_id) = false).
Proof.
  cbv zeta.
  assert (forall s k k0, has_kind k0 s = true -> has_kind k s = true <-> k = k0) as Huniq.
  { intros s k k0 H. split; [|by intros ->]. intros H'. by eapply has_kind_unique. }
  assert (forall cid k,
    (forall s, scope_of_kind local sender_id cid k = Some s -> forall k', has_kind k' s = true <-> k' = k)
    /\ (scope_of_kind local sender_id cid k = None <-> k = Kdm /\ truthy (opt_str sender_id) = false))
    as Hkind.
  { intros cid k. split.
    - intros s Hs k'. by eapply Huniq, scope_of_kind_has_kind.
    - destruct k; simpl; try (split; [done|by intros [? _]]). case_match; naive_solver. }
  unfold_routing.
  destruct (truthy (opt_str thread_id)) eqn:Ht; simpl.
  { split; [|naive_solver]. intros s [= <-] k'. apply Huniq, is_thread_scope_for_thread. }
  destruct (truthy (opt_str channel_id)) eqn:Hc; simpl.
  - destruct (type_kind _) as [k|]; simpl; [apply Hkind|].
    destruct (prefix_kind _) as [k|]; simpl; [apply Hkind|].
    split; [|naive_solver]. intros s [= <-] k'. apply Huniq, is_thread_scope_for_thread.
  - destruct (Hkind (opt_str channel_id) Kdm) as [H1 H2]. simpl in H1, H2.
    destruct (truthy (opt_str sender_id)); simpl in *; auto.
Qed.
