(* ===== verification/Interactions.v ===== *)
(** * Interaction records, record keys and boundary detectors

    Models [agents/memory/interaction_types.py] (the [Turn] and [Interaction]
    dataclasses), [agents/memory/interaction_key.py] (what a record is filed
    under) and [agents/memory/boundary_detectors.py] (when an open record
    closes). *)

From S2P Require Import Prelude PyStr PyDict PyValue Ambient.
Local Open Scope string_scope.

(** ** [interaction_types.py] *)

Definition ROOM_CLOSE_TURN_KEY := "room_close".
Definition LIVE_DUPLICATE_TURN_KEY := "live_duplicate".

Record Turn := mkTurn { at_ : Q; payload : pydict }.

Record Interaction := mkInteraction {
  interaction_id : string;
  scope : string;
  started_at : Q;
  turns : list Turn;
  closed_at : option Q;
  close_reason : string;
  structural_close_reason : string;
  wire_interaction_id : string;
  predecessor_wire_id : string;
  session_id : string;
  principal_id : string;
  speaker_id : string;
  epoch_id : string;
  replayed : bool;
  replay_attributed : bool;
  replay_window_complete : bool;
  classification : option string;
  source_channel_id : option string;
  meter_close_summary : bool;
}.

Definition turn_count (i : Interaction) : Z := Z.of_nat (length (turns i)).
Definition last_turn_at (i : Interaction) : option Q := at_ <$> last (turns i).
Definition is_open (i : Interaction) : bool :=
  match closed_at i with None => true | Some _ => false end.

(** Assignments the program makes to a record: [turns.append(t)] and the three
    fields [close_record] writes. *)
Definition append_to (t : Turn) (i : Interaction) : Interaction :=
  mkInteraction (interaction_id i) (scope i) (started_at i) (turns i ++ [t])%list
    (closed_at i) (close_reason i) (structural_close_reason i)
    (wire_interaction_id i) (predecessor_wire_id i) (session_id i)
    (principal_id i) (speaker_id i) (epoch_id i) (replayed i)
    (replay_attributed i) (replay_window_complete i) (classification i)
    (source_channel_id i) (meter_close_summary i).

Definition mark_closed (ts : Q) (reason : string) (window : option bool)
    (i : Interaction) : Interaction :=
  mkInteraction (interaction_id i) (scope i) (started_at i) (turns i)
    (Some ts) reason (structural_close_reason i)
    (wire_interaction_id i) (predecessor_wire_id i) (session_id i)
    (principal_id i) (speaker_id i) (epoch_id i) (replayed i)
    (replay_attributed i) (default (replay_window_complete i) window)
    (classification i) (source_channel_id i) (meter_close_summary i).

(** The out-of-band marker [StructuralCloseDetector] consumes. *)
Definition set_structural (reason : string) (i : Interaction) : Interaction :=
  mkInteraction (interaction_id i) (scope i) (started_at i) (turns i)
    (closed_at i) (close_reason i) reason
    (wire_interaction_id i) (predecessor_wire_id i) (session_id i)
    (principal_id i) (speaker_id i) (epoch_id i) (replayed i)
    (replay_attributed i) (replay_window_complete i) (classification i)
    (source_channel_id i) (meter_close_summary i).

(** ** [interaction_key.py] *)

(** [(principal, speaker, scope)] *)
Abbreviation RecordKey := (string * string * string)%type.

Definition record_key (i : Interaction) : RecordKey :=
  (principal_id i, speaker_id i, scope i).

Definition resolve_record_key (a : ambient) (scope : string)
    (principal speaker : option string) : RecordKey :=
  let p := match principal with
           | Some _ => Principal.normalize_principal_id principal
           | None => Principal.resolve_principal_id_silent a
           end in
  (p, strip (opt_str speaker), scope).

(** ** [boundary_detectors.py] *)

Definition REASON_STRUCTURAL := "structural".
Definition REASON_IDLE_GAP := "idle_gap".
Definition REASON_TOPIC_SHIFT := "topic_shift".
Definition REASON_MAX_TURNS := "max_turns".
Definition REASON_SHUTDOWN := "shutdown".
Definition REASON_COST := "cost".
Definition REASON_CATCHUP_COMPLETE := "catchup_complete".

Definition DEFAULT_IDLE_TIMEOUT_SEC : Q := 600.
Definition DEFAULT_MAX_INTERACTION_TURNS : Z := 200.

(** The [BoundaryDetector] protocol: [evaluate] answers [Some reason] for
    [(True, reason)] and [None] for [(False, "")]; [cap] is the [max_turns]
    attribute of a [MaxTurnsDetector] ([None] for any other class). *)
Record BoundaryDetector := mkDetector {
  evaluate : Interaction -> Q -> option string;
  cap : option Z;
}.

Definition structural_evaluate (i : Interaction) (now : Q) : option string :=
  if truthy (structural_close_reason i) then Some (structural_close_reason i) else None.

Definition idle_evaluate (idle_timeout_sec : Q) (i : Interaction) (now : Q) : option string :=
  match last_turn_at i with
  | None => None
  | Some t => if Qle_bool idle_timeout_sec (now - t) then Some REASON_IDLE_GAP else None
  end.

Definition topic_evaluate (i : Interaction) (now : Q) : option string := None.

Definition max_turns_evaluate (max_turns : Z) (i : Interaction) (now : Q) : option string :=
  if (max_turns <=? turn_count i)%Z then Some REASON_MAX_TURNS else None.

Definition StructuralCloseDetector := mkDetector structural_evaluate None.
Definition IdleGapDetector (t : Q) := mkDetector (idle_evaluate t) None.
Definition TopicShiftDetector := mkDetector topic_evaluate None.
Definition MaxTurnsDetector (m : Z) := mkDetector (max_turns_evaluate m) (Some m).

Definition default_detectors (idle_timeout_sec : Q) (max_turns : Z) : list BoundaryDetector :=
  [StructuralCloseDetector; IdleGapDetector idle_timeout_sec;
   MaxTurnsDetector max_turns; TopicShiftDetector].

(** The chain read left to right: the first [(True, reason)] wins. *)
Fixpoint first_reason (chain : list BoundaryDetector) (i : Interaction) (now : Q)
    : option string :=
  match chain with
  | [] => None
  | d :: chain' =>
      match evaluate d i now with
      | Some r => Some r
      | None => first_reason chain' i now
      end
  end.

(** ** Lemmas *)

Lemma record_key_append t i : record_key (append_to t i) = record_key i.
Proof. done. Qed.

Lemma record_key_mark ts r w i : record_key (mark_closed ts r w i) = record_key i.
Proof. done. Qed.

Lemma turn_count_append t i : turn_count (append_to t i) = (turn_count i + 1)%Z.
Proof. unfold turn_count. simpl. rewrite length_app. simpl. lia. Qed.

Lemma last_turn_append t i : last_turn_at (append_to t i) = Some (at_ t).
Proof. unfold last_turn_at. simpl. by rewrite last_snoc. Qed.

#[export] Hint Rewrite record_key_append record_key_mark turn_count_append last_turn_append : pyrw.

(** The context variable is only ever written by [principal_scope], which
    stores a normalised id. *)
Definition ambient_ok (a : ambient) : Prop :=
  strip (opt_str (active_principal a)) = opt_str (active_principal a).

Lemma ambient_ok_scope v a :
  ambient_ok (ax_set Principal.ax (Some (normalize_id Principal.ax v)) a).
Proof. apply (normalize_id_strip Principal.ax). Qed.

Lemma resolve_silent_strip a :
  ambient_ok a ->
  strip (resolve_silent Principal.ax a) = resolve_silent Principal.ax a.
Proof.
  unfold ambient_ok, resolve_silent, str_or. simpl. intros H.
  case_match; [done|apply (resolve_world_strip Principal.ax)].
Qed.

(** Both normalisers are idempotent, so the key [add_turn] resolves is the key
    [start] resolves again from its halves. *)
Lemma resolve_record_key_idemp a b sc p s p' s' :
  ambient_ok a ->
  resolve_record_key a sc p s = (p', s', sc) ->
  resolve_record_key b sc (Some p') (Some s') = (p', s', sc).
Proof.
  intros Ha [= <- <-]. unfold resolve_record_key.
  assert (forall q, strip q = q -> q <> "" -> Principal.normalize_principal_id (Some q) = q) as Hn.
  { intros q Hq Hne. by apply (normalize_id_fixed Principal.ax). }
  simpl. rewrite strip_strip, Hn; [done|..]; destruct p.
  - apply (normalize_id_strip Principal.ax).
  - by apply resolve_silent_strip.
  - apply (normalize_id_truthy Principal.ax).
  - apply (resolve_silent_truthy Principal.ax).
Qed.
