(* ===== verification/ReplayBookkeeping.v ===== *)
(** * Per-pass replay bookkeeping

    Models [agents/memory/_replay_bookkeeping.py]: which replay windows are
    compromised and which wire messages were ingested live, between process
    start and the end of one catch-up pass. *)

From S2P Require Import Prelude PyStr.
Local Open Scope string_scope.

Record Replay := mkReplay {
  compromised_records : gset (string * string);
  compromised_channels : gset string;
  live_message_ids : gset string;
  replay_pass_open : bool;
}.

(** [_init_replay_bookkeeping]: the pass opens at process start. *)
Definition init_replay : Replay := mkReplay ∅ ∅ ∅ true.

Definition note_replayed_close (channel speaker : string) (r : Replay) : Replay :=
  mkReplay ({[ (channel, speaker) ]} ∪ compromised_records r)
           (compromised_channels r) (live_message_ids r) (replay_pass_open r).

Definition note_replay_gap (channel speaker : string) (r : Replay) : Replay :=
  if truthy speaker
  then mkReplay ({[ (channel, speaker) ]} ∪ compromised_records r)
                (compromised_channels r) (live_message_ids r) (replay_pass_open r)
  else mkReplay (compromised_records r) ({[ channel ]} ∪ compromised_channels r)
                (live_message_ids r) (replay_pass_open r).

Definition replay_record_compromised (channel speaker : string) (r : Replay) : bool :=
  bool_decide (channel ∈ compromised_channels r)
  || bool_decide ((channel, speaker) ∈ compromised_records r).

Definition observe_wire_message (message_id : string) (replayed : bool) (r : Replay)
    : bool * Replay :=
  if negb (truthy message_id) then (false, r)
  else if negb replayed then
    (false,
     if replay_pass_open r
     then mkReplay (compromised_records r) (compromised_channels r)
                   ({[ message_id ]} ∪ live_message_ids r) (replay_pass_open r)
     else r)
  else (bool_decide (message_id ∈ live_message_ids r), r).

Definition clear_replay_pass_state (r : Replay) : Replay := mkReplay ∅ ∅ ∅ false.

(** ** The bookkeeping over a history of calls *)

Inductive replay_op :=
| NoteClose (channel speaker : string)
| NoteGap (channel speaker : string)
| Observe (message_id : string) (replayed : bool)
| Clear.

Definition replay_step (r : Replay) (o : replay_op) : Replay :=
  match o with
  | NoteClose c s => note_replayed_close c s r
  | NoteGap c s => note_replay_gap c s r
  | Observe m b => snd (observe_wire_message m b r)
  | Clear => clear_replay_pass_state r
  end.

Definition replay_run (ops : list replay_op) (r : Replay) : Replay :=
  fold_left replay_step ops r.

(** The calls since the last [Clear], and whether there was one. *)
Definition is_clear (o : replay_op) : bool := match o with Clear => true | _ => false end.

(** The abstract specification: what a history entails, with no state. *)
Definition spec_compromised (ops : list replay_op) (channel speaker : string) : Prop :=
  exists pre o post, ops = (pre ++ o :: post)%list /\ (Clear ∉ post)
    /\ (o = NoteClose channel speaker
        \/ (o = NoteGap channel speaker /\ speaker <> "")
        \/ o = NoteGap channel "").

Definition spec_live (ops : list replay_op) (message_id : string) : Prop :=
  message_id <> "" /\ (Clear ∉ ops) /\ (Observe message_id false ∈ ops).

Lemma replay_run_app ops ops' r : replay_run (ops ++ ops') r = replay_run ops' (replay_run ops r).
Proof. apply fold_left_app. Qed.

Lemma spec_compromised_snoc ops o c s :
  spec_compromised (ops ++ [o]) c s <->
  (o = NoteClose c s \/ (o = NoteGap c s /\ s <> "") \/ o = NoteGap c "")
  \/ (o <> Clear /\ spec_compromised ops c s).
Proof.
  unfold spec_compromised. split.
  - intros (pre & o' & post & Heq & Hn & Ho).
    destruct post as [|x post _] using rev_ind.
    + apply app_inj_tail in Heq as [-> ->]. auto.
    + rewrite app_comm_cons, app_assoc in Heq. apply app_inj_tail in Heq as [-> ->].
      right. split; [set_solver|]. exists pre, o', post. set_solver.
  - intros [Ho | [Hc (pre & o' & post & -> & Hn & Ho)]].
    + exists ops, o, []. split; [done|]. split; [set_solver|done].
    + exists pre, o', (post ++ [o])%list. split; [by rewrite <- app_assoc|].
      split; [set_solver|done].
Qed.

Lemma replay_pass_open_step r o :
  replay_pass_open (replay_step r o) = negb (is_clear o) && replay_pass_open r.
Proof.
  destruct o; simpl; try done.
  - unfold note_replay_gap. by case_match.
  - unfold observe_wire_message. by repeat case_match.
Qed.

Lemma replay_pass_open_run ops :
  replay_pass_open (replay_run ops init_replay) = true <-> Clear ∉ ops.
Proof.
  induction ops as [|o ops IH] using rev_ind; [by split; [set_solver|]|].
  rewrite replay_run_app. cbn [replay_run fold_left].
  rewrite elem_of_app, list_elem_of_singleton, replay_pass_open_step.
  destruct o; simpl; naive_solver.
Qed.

(** ** Properties *)

(** The bookkeeping implements its specification over every history of
    calls since process start: a [(channel, speaker)] window is reported
    compromised exactly when, since the last pass ended, that record was closed
    mid-window or lost a row, or a row of unknown speaker was lost on the
    channel; and a replayed message is reported a live duplicate exactly when it
    was observed live while the pass was open and no pass has ended since, so
    nothing is retained or answered after the pass closes. *)
Theorem replay_bookkeeping_refines (ops : list replay_op) channel speaker message_id :
  let r := replay_run ops init_replay in
  (replay_record_compromised channel speaker r = true
     <-> spec_compromised ops channel speaker)
  /\ (fst (observe_wire_message message_id true r) = true
     <-> spec_live ops message_id)
  /\ (Clear ∈ ops -> live_message_ids r = ∅).
Proof.
  cbv zeta.
  assert (forall m, m ∈ live_message_ids (replay_run ops init_replay) <->
            m <> "" /\ (Clear ∉ ops) /\ (Observe m false ∈ ops)) as Hlive.
  { induction ops as [|o ops IH] using rev_ind; [set_solver|].
    intros m. pose proof (replay_pass_open_run ops) as Hopen.
    rewrite replay_run_app, !elem_of_app, !list_elem_of_singleton. simpl.
    destruct o as [c s|c s|m' b|]; simpl.
    - rewrite IH. naive_solver.
    - unfold note_replay_gap. case_match; simpl; rewrite IH; naive_solver.
    - unfold observe_wire_message.
      destruct (truthy m') eqn:Hm; [apply truthy_true in Hm|apply truthy_false in Hm as ->]; simpl;
        [|rewrite IH; naive_solver].
      destruct b; simpl; [rewrite IH; naive_solver|].
      destruct (replay_pass_open _); simpl;
        rewrite ?elem_of_union, ?elem_of_singleton, IH; naive_solver.
    - naive_solver set_solver. }
  split_and!.
  - clear Hlive. unfold replay_record_compromised.
    rewrite orb_true_iff, !bool_decide_eq_true.
    induction ops as [|o ops IH] using rev_ind.
    { split; [set_solver|]. intros ([|??] & ? & ? & [=] & _). }
    rewrite spec_compromised_snoc, replay_run_app, <- IH. clear IH. simpl.
    destruct o as [c s|c s|m' b|]; simpl.
    + set_solver.
    + unfold note_replay_gap. destruct s; simpl; set_solver.
    + unfold observe_wire_message. repeat case_match; simpl; naive_solver.
    + set_solver.
  - unfold observe_wire_message, spec_live. rewrite <- Hlive.
    destruct (truthy message_id) eqn:Hm; simpl.
    + by rewrite bool_decide_eq_true.
    + apply truthy_false in Hm as ->. rewrite Hlive. naive_solver.
  - intros Hc. apply leibniz_equiv. intros m. rewrite Hlive. set_solver.
Qed.
