(* ===== verification/Tracker.v ===== *)
(** * The interaction tracker

    Models [agents/memory/interaction_tracker.py] and the counters of
    [agents/memory/interaction_metrics.py]. Records are shared mutable objects:
    callers keep references and the tracker compares them by identity, so the
    state holds a heap of [Interaction]s addressed by object number, and the
    key map [_open] holds references. *)

From S2P Require Import Prelude PyStr PyDict PyValue Ambient Interactions ReplayBookkeeping.
Local Open Scope string_scope.

(** Reference to an [Interaction] object. *)
Abbreviation oid := nat.

Record Tracker := mkTracker {
  heap : list Interaction;               (* every record ever opened *)
  open_ : list (RecordKey * oid);        (* [self._open] *)
  detectors : list BoundaryDetector;     (* [self._detectors] *)
  max_turns : option Z;                  (* [self._max_turns] *)
  replay : Replay;                       (* [_ReplayBookkeepingMixin] *)
  instruments : bool;                    (* is [try_get_instruments()] set *)
  counters : list string;                (* counter increments, oldest first *)
}.

(** What one call reads from outside the tracker: the task context, the clock
    and [uuid.uuid4()]. *)
Record call_env := mkCall { amb : ambient; clock : Q; uuid4 : string }.

(** [next((d.max_turns for d in detectors if isinstance(d, MaxTurnsDetector)), None)] *)
Fixpoint first_cap (ds : list BoundaryDetector) : option Z :=
  match ds with
  | [] => None
  | d :: ds' => match cap d with Some m => Some m | None => first_cap ds' end
  end.

(** [InteractionTracker(detectors=..., idle_timeout_sec=...)] *)
Definition new_tracker (inst : bool) (ds : option (list BoundaryDetector))
    (idle_timeout_sec : Q) : Tracker :=
  let chain := default (default_detectors idle_timeout_sec DEFAULT_MAX_INTERACTION_TURNS) ds in
  mkTracker [] [] chain (first_cap chain) init_replay inst [].

Definition set_heap (h : list Interaction) (t : Tracker) : Tracker :=
  mkTracker h (open_ t) (detectors t) (max_turns t) (replay t) (instruments t) (counters t).
Definition set_open (d : list (RecordKey * oid)) (t : Tracker) : Tracker :=
  mkTracker (heap t) d (detectors t) (max_turns t) (replay t) (instruments t) (counters t).
Definition set_replay (r : Replay) (t : Tracker) : Tracker :=
  mkTracker (heap t) (open_ t) (detectors t) (max_turns t) r (instruments t) (counters t).
Definition emit (cs : list string) (t : Tracker) : Tracker :=
  mkTracker (heap t) (open_ t) (detectors t) (max_turns t) (replay t) (instruments t)
    (if instruments t then counters t ++ cs else counters t)%list.

(** [_emit_opened], [_REASON_COUNTER_ATTR] and [_emit_closed] *)
Definition emit_opened : Tracker -> Tracker := emit ["interactions_opened"].

Definition REASON_COUNTER_ATTR : list (string * string) :=
  [(REASON_STRUCTURAL, "interactions_closed_by_structural");
   (REASON_IDLE_GAP, "interactions_closed_by_idle_gap");
   (REASON_MAX_TURNS, "interactions_closed_by_max_turns");
   (REASON_TOPIC_SHIFT, "interactions_closed_by_topic_shift");
   (REASON_SHUTDOWN, "interactions_closed_by_shutdown");
   (REASON_COST, "interactions_closed_by_cost");
   (REASON_CATCHUP_COMPLETE, "interactions_closed_by_catchup_complete")].

Definition emit_closed (reason : string) : Tracker -> Tracker :=
  emit ("interactions_closed"
        :: match dget reason REASON_COUNTER_ATTR with Some c => [c] | None => [] end).

Definition option_list {A} (x : option A) : list A :=
  match x with Some a => [a] | None => [] end.

(** ** Read-only accessors *)

Definition open_records (t : Tracker) : list oid := dvalues (open_ t).

Definition obj (t : Tracker) (o : oid) : option Interaction := heap t !! o.

(** A property of the object behind a reference. *)
Definition holds (t : Tracker) (f : Interaction -> bool) (o : oid) : bool :=
  match obj t o with Some i => f i | None => false end.

Definition in_scope (sc : string) (i : Interaction) : bool := bool_decide (scope i = sc).

Definition records_for_scope (t : Tracker) (sc : string) : list oid :=
  filter (λ o, holds t (in_scope sc) o = true) (open_records t).

(** [list(dict.fromkeys(i.scope for i in self._open.values()))] *)
Definition open_scopes (t : Tracker) : list string :=
  dkeys (fold_left (λ d o, match obj t o with Some i => dset (scope i) tt d | None => d end)
                   (open_records t) []).

Definition get (t : Tracker) (a : ambient) (sc : string) (principal speaker : option string)
    : option oid :=
  dget (resolve_record_key a sc principal speaker) (open_ t).

(** ** Lifecycle *)

(** The keyword arguments frozen onto a record when a call opens it. *)
Record open_args := mkArgs {
  arg_session : option string;
  arg_classification : option string;
  arg_source_channel : option string;
  arg_replayed : bool;
  arg_attributed : bool;
}.

Definition fresh_record (c : call_env) (key : RecordKey) (ts : Q) (args : open_args) : Interaction :=
  mkInteraction (uuid4 c) (snd key) ts [] None "" "" "" ""
    (str_or (opt_str (arg_session args)) Session.LEGACY_SESSION_ID)
    (fst (fst key)) (snd (fst key)) (Epoch.resolve_epoch_id_silent (amb c))
    (arg_replayed args) (arg_attributed args) false
    (arg_classification args) (arg_source_channel args) false.

(** The [existing is not None and existing.is_open] test of both entry points. *)
Definition find_open (t : Tracker) (key : RecordKey) : option oid :=
  match dget key (open_ t) with
  | Some o => if holds t is_open o then Some o else None
  | None => None
  end.

Definition start (t : Tracker) (c : call_env) (sc : string) (now : option Q)
    (args : open_args) (principal speaker : option string) : oid * Tracker :=
  let key := resolve_record_key (amb c) sc principal speaker in
  match find_open t key with
  | Some o => (o, t)
  | None =>
      let ts := default (clock c) now in
      let o := length (heap t) in
      let t := set_heap (heap t ++ [fresh_record c key ts args])%list t in
      let t := set_open (dset key o (open_ t)) t in
      (o, emit_opened t)
  end.

Definition close_record (t : Tracker) (c : call_env) (o : oid) (reason : string)
    (now : option Q) (window : option bool) : option oid * Tracker :=
  match obj t o with
  | None => (None, t)
  | Some i =>
      let key := record_key i in
      if bool_decide (dget key (open_ t) = Some o) then
        let t := set_open (ddel key (open_ t)) t in
        let i := mark_closed (default (clock c) now) reason window i in
        let t := set_heap (<[o := i]> (heap t)) t in
        let t := if replayed i && negb (replay_window_complete i)
                 then set_replay (note_replayed_close (opt_str (source_channel_id i))
                                    (speaker_id i) (replay t)) t
                 else t in
        (Some o, emit_closed reason t)
      else (None, t)
  end.

(** [interaction.turns.append(Turn(at=ts, payload=payload or {}))] *)
Definition push_turn (t : Tracker) (o : oid) (ts : Q) (p : option pydict) : Tracker :=
  match obj t o with
  | Some i => set_heap (<[o := append_to (mkTurn ts (default [] p)) i]> (heap t)) t
  | None => t
  end.

Definition cap_reached (t : Tracker) (i : Interaction) : bool :=
  match max_turns t with Some m => (m <=? turn_count i)%Z | None => false end.

Definition add_turn (t : Tracker) (c : call_env) (sc : string) (p : option pydict)
    (now : option Q) (args : open_args) (principal speaker : option string) : oid * Tracker :=
  let ts := default (clock c) now in
  let key := resolve_record_key (amb c) sc principal speaker in
  let '(o, t) :=
    match find_open t key with
    | Some o => (o, t)
    | None => start t c sc (Some ts) args (Some (fst (fst key))) (Some (snd (fst key)))
    end in
  let t := push_turn t o ts p in
  if holds t (cap_reached t) o then
    match close_record t c o REASON_MAX_TURNS (Some ts) None with
    | (Some closed, t) => (closed, t)
    | (None, t) => (o, t)
    end
  else (o, t).

Definition append_turn (t : Tracker) (c : call_env) (o : oid) (p : option pydict)
    (now : option Q) : Tracker :=
  if holds t is_open o then push_turn t o (default (clock c) now) p else t.

(** The eligibility rule of the room-wide fan. *)
Definition admitted (sc : option string) (rule : option (Interaction -> bool))
    (i : Interaction) : bool :=
  match sc with None => true | Some s => in_scope s i end
  && negb (replayed i)
  && match rule with None => true | Some f => f i end.

Definition admitted_records (t : Tracker) (sc : option string)
    (rule : option (Interaction -> bool)) : list oid :=
  filter (λ o, holds t (admitted sc rule) o = true) (open_records t).

(** [for interaction in records: finished = ...; if finished is not None:
    closed.append(finished)] *)
Fixpoint sweep (visit : Tracker -> oid -> option oid * Tracker) (t : Tracker) (os : list oid)
    : list oid * Tracker :=
  match os with
  | [] => ([], t)
  | o :: os =>
      let '(finished, t) := visit t o in
      let '(closed, t) := sweep visit t os in
      (option_list finished ++ closed, t)%list
  end.

Definition close_scope (t : Tracker) (c : call_env) (sc : option string) (reason : string)
    (now : option Q) (rule : option (Interaction -> bool)) : list oid * Tracker :=
  let ts := default (clock c) now in
  sweep (λ t o, close_record t c o reason (Some ts) None) t (admitted_records t sc rule).

(** The detector chain of one record; the first [(True, reason)] closes it. *)
Definition idle_visit (c : call_env) (ts : Q) (t : Tracker) (o : oid) : option oid * Tracker :=
  match obj t o with
  | None => (None, t)
  | Some i =>
      match first_reason (detectors t) i ts with
      | Some reason => close_record t c o reason (Some ts) None
      | None => (None, t)
      end
  end.

Definition idle_check (t : Tracker) (c : call_env) (now : option Q)
    (records : option (list oid)) : list oid * Tracker :=
  sweep (idle_visit c (default (clock c) now)) t (default (open_records t) records).

(** An out-of-band call site marking a record for the structural detector. *)
Definition mark_structural (t : Tracker) (o : oid) (reason : string) : Tracker :=
  match obj t o with
  | Some i => set_heap (<[o := set_structural reason i]> (heap t)) t
  | None => t
  end.

(** ** Operations as data *)

Inductive op :=
| OpStart (sc : string) (now : option Q) (args : open_args) (p s : option string)
| OpAddTurn (sc : string) (pl : option pydict) (now : option Q) (args : open_args)
    (p s : option string)
| OpAppendTurn (o : oid) (pl : option pydict) (now : option Q)
| OpCloseRecord (o : oid) (reason : string) (now : option Q) (window : option bool)
| OpCloseScope (sc : option string) (reason : string) (now : option Q)
    (rule : option (Interaction -> bool))
| OpIdleCheck (now : option Q) (records : option (list oid))
| OpMarkStructural (o : oid) (reason : string)
| OpReplay (r : replay_op).

Definition run_op (t : Tracker) (c : call_env) (x : op) : Tracker :=
  match x with
  | OpStart sc now args p s => snd (start t c sc now args p s)
  | OpAddTurn sc pl now args p s => snd (add_turn t c sc pl now args p s)
  | OpAppendTurn o pl now => append_turn t c o pl now
  | OpCloseRecord o reason now w => snd (close_record t c o reason now w)
  | OpCloseScope sc reason now rule => snd (close_scope t c sc reason now rule)
  | OpIdleCheck now records => snd (idle_check t c now records)
  | OpMarkStructural o reason => mark_structural t o reason
  | OpReplay r => set_replay (replay_step (replay t) r) t
  end.

(** One step of a tracker used by a program whose task context is only ever
    written by [principal_scope]. *)
Inductive tstep : Tracker -> Tracker -> Prop :=
| tstep_op t c x : ambient_ok (amb c) -> tstep t (run_op t c x).

Definition reachable (t : Tracker) : Prop :=
  exists inst ds idle, rtc tstep (new_tracker inst ds idle) t.

(** ** The invariant

    The key map has distinct keys and holds exactly the open records of the
    heap, each under the key its own (frozen) fields produce. *)
Definition wf_maps (h : list Interaction) (d : list (RecordKey * oid)) : Prop :=
  dwf d
  /\ (forall k o, dget k d = Some o ->
        exists i, h !! o = Some i /\ record_key i = k /\ is_open i = true)
  /\ (forall o i, h !! o = Some i -> is_open i = true -> dget (record_key i) d = Some o).

Definition wf (t : Tracker) : Prop := wf_maps (heap t) (open_ t).

Lemma wf_new inst ds idle : wf (new_tracker inst ds idle).
Proof. split_and!; simpl; [apply NoDup_nil_2|done|done]. Qed.

Lemma wf_maps_update h d o i i' :
  wf_maps h d -> h !! o = Some i ->
  record_key i' = record_key i -> is_open i' = is_open i ->
  wf_maps (<[o := i']> h) d.
Proof.
  intros (Hd & Hmap & Hall) Ho Hk Hop.
  assert (o < length h)%nat as Hlt by by eapply lookup_lt_Some.
  split_and!; [done|..].
  - intros k o' Hget. destruct (Hmap k o' Hget) as (j & Hj & <- & Hopen).
    destruct (decide (o = o')) as [<-|Hne].
    + assert (j = i) as -> by congruence.
      exists i'. rewrite list_lookup_insert_eq by done. split; [done|]. by rewrite Hk, Hop.
    + exists j. by rewrite list_lookup_insert_ne.
  - intros o' j Hj Hopen. destruct (decide (o = o')) as [<-|Hne].
    + rewrite list_lookup_insert_eq in Hj by done. injection Hj as <-.
      rewrite Hk. apply Hall; congruence.
    + rewrite list_lookup_insert_ne in Hj by done. auto.
Qed.

Lemma wf_maps_alloc h d i :
  wf_maps h d -> dget (record_key i) d = None -> is_open i = true ->
  wf_maps (h ++ [i]) (dset (record_key i) (length h) d).
Proof.
  intros (Hd & Hmap & Hall) Hfree Hopen. split_and!; [by apply dwf_dset|..].
  - intros k o Hget. destruct (decide (record_key i = k)) as [<-|Hne].
    + rewrite dget_dset_eq in Hget. simplify_eq. exists i.
      by rewrite list_lookup_middle.
    + rewrite dget_dset_ne in Hget by done.
      destruct (Hmap k o Hget) as (j & Hj & ? & ?). exists j.
      split; [|done]. by apply lookup_app_l_Some.
  - intros o j Hj Hj'. apply lookup_app_Some in Hj as [Hj|[Hge Hj]].
    + rewrite dget_dset_ne; [auto|]. intros Heq. rewrite Heq in Hfree.
      specialize (Hall o j Hj Hj'). congruence.
    + apply list_lookup_singleton_Some in Hj as [Hz <-].
      rewrite dget_dset_eq. f_equal. lia.
Qed.

Lemma wf_maps_close h d o i i' :
  wf_maps h d -> h !! o = Some i -> dget (record_key i) d = Some o ->
  is_open i' = false ->
  wf_maps (<[o := i']> h) (ddel (record_key i) d).
Proof.
  intros (Hd & Hmap & Hall) Ho Hget Hcl.
  assert (o < length h)%nat as Hlt by by eapply lookup_lt_Some.
  split_and!; [by apply dwf_ddel|..].
  - intros k o' Hget'. destruct (decide (record_key i = k)) as [<-|Hne].
    { by rewrite dget_ddel_eq in Hget'. }
    rewrite dget_ddel_ne in Hget' by done.
    destruct (Hmap k o' Hget') as (j & Hj & <- & ?).
    assert (o <> o') by (intros ->; congruence).
    exists j. by rewrite list_lookup_insert_ne.
  - intros o' j Hj Hopen. destruct (decide (o = o')) as [<-|Hne].
    { rewrite list_lookup_insert_eq in Hj by done. congruence. }
    rewrite list_lookup_insert_ne in Hj by done.
    rewrite dget_ddel_ne; [auto|]. intros Heq.
    specialize (Hall o' j Hj Hopen). rewrite <- Heq in Hall. congruence.
Qed.

#[export] Hint Resolve wf_maps_update wf_maps_alloc wf_maps_close : py.

(** Under the invariant the guarded lookup of both entry points is the plain
    one. *)
Lemma find_open_dget t k : wf t -> find_open t k = dget k (open_ t).
Proof.
  intros (_ & Hmap & _). unfold find_open, holds, obj.
  destruct (dget k (open_ t)) as [o|] eqn:E; [|done].
  destruct (Hmap k o E) as (i & -> & _ & ->). done.
Qed.

Lemma record_key_fresh c key ts args : record_key (fresh_record c key ts args) = key.
Proof. by destruct key as [[??]?]. Qed.

(** The state after opening a fresh record, and what [start] does. *)
Definition open_fresh (t : Tracker) (c : call_env) (key : RecordKey) (ts : Q)
    (args : open_args) : Tracker :=
  emit_opened (set_open (dset key (length (heap t)) (open_ t))
    (set_heap (heap t ++ [fresh_record c key ts args])%list t)).

Lemma start_spec t c sc now args p s :
  wf t ->
  start t c sc now args p s =
    match get t (amb c) sc p s with
    | Some o => (o, t)
    | None => (length (heap t),
               open_fresh t c (resolve_record_key (amb c) sc p s) (default (clock c) now) args)
    end.
Proof. intros Hwf. unfold start, get. by rewrite find_open_dget. Qed.

Lemma wf_open_fresh t c key ts args :
  wf t -> dget key (open_ t) = None -> wf (open_fresh t c key ts args).
Proof.
  intros Hwf Hk. unfold wf, open_fresh. simpl.
  rewrite <- (record_key_fresh c key ts args) at 2.
  apply wf_maps_alloc; [done|by rewrite record_key_fresh|done].
Qed.

Lemma wf_start t c sc now args p s : wf t -> wf (snd (start t c sc now args p s)).
Proof.
  intros Hwf. rewrite start_spec by done. unfold get.
  destruct (dget _ _) eqn:E; [done|]. by apply wf_open_fresh.
Qed.

Lemma wf_push_turn t o ts p : wf t -> wf (push_turn t o ts p).
Proof.
  intros Hwf. unfold push_turn. destruct (obj t o) as [i|] eqn:E; [|done].
  by eapply wf_maps_update.
Qed.

Lemma wf_append_turn t c o p now : wf t -> wf (append_turn t c o p now).
Proof. intros Hwf. unfold append_turn. case_match; auto using wf_push_turn. Qed.

(** [close_record] on a record the map holds, and on any other reference. *)
Definition closed_state (t : Tracker) (o : oid) (i : Interaction) (ts : Q) (reason : string)
    (window : option bool) : Tracker :=
  let i' := mark_closed ts reason window i in
  let t' := set_heap (<[o := i']> (heap t)) (set_open (ddel (record_key i) (open_ t)) t) in
  emit_closed reason
    (if replayed i && negb (replay_window_complete i')
     then set_replay (note_replayed_close (opt_str (source_channel_id i)) (speaker_id i)
                        (replay t)) t'
     else t').

Lemma close_record_spec t c o reason now window :
  wf t ->
  close_record t c o reason now window =
    match obj t o with
    | Some i => if is_open i
                then (Some o, closed_state t o i (default (clock c) now) reason window)
                else (None, t)
    | None => (None, t)
    end.
Proof.
  intros (_ & Hmap & Hall). unfold close_record, obj.
  destruct (heap t !! o) as [i|] eqn:E; [|done].
  destruct (is_open i) eqn:Ho.
  - rewrite bool_decide_true by auto. done.
  - rewrite bool_decide_false; [done|]. intros Hget.
    destruct (Hmap _ _ Hget) as (j & Hj & _ & ?). congruence.
Qed.

Lemma closed_state_maps t o i ts reason w :
  heap (closed_state t o i ts reason w) = <[o := mark_closed ts reason w i]> (heap t)
  /\ open_ (closed_state t o i ts reason w) = ddel (record_key i) (open_ t).
Proof. unfold closed_state. by destruct (_ && _). Qed.

Lemma wf_closed_state t o i ts reason w :
  wf t -> obj t o = Some i -> is_open i = true -> wf (closed_state t o i ts reason w).
Proof.
  intros Hwf Ho Hop. unfold wf.
  destruct (closed_state_maps t o i ts reason w) as [-> ->].
  apply wf_maps_close; [done|done| |done]. by apply Hwf.
Qed.

Lemma wf_close_record t c o reason now w : wf t -> wf (snd (close_record t c o reason now w)).
Proof.
  intros Hwf. rewrite close_record_spec by done.
  destruct (obj t o) as [i|] eqn:E; [|done].
  destruct (is_open i) eqn:?; [|done]. by apply wf_closed_state.
Qed.

Lemma sweep_wf visit t os :
  (forall t o, wf t -> wf (snd (visit t o))) -> wf t -> wf (snd (sweep visit t os)).
Proof.
  intros Hv. revert t. induction os as [|o os IH]; intros t Hwf; simpl; [done|].
  specialize (Hv t o Hwf). destruct (visit t o) as [f t']. specialize (IH t' Hv).
  by destruct (sweep visit t' os).
Qed.

Lemma wf_idle_visit c ts t o : wf t -> wf (snd (idle_visit c ts t o)).
Proof. intros Hwf. unfold idle_visit. repeat case_match; auto using wf_close_record. Qed.

Lemma wf_add_turn t c sc p now args pr s : wf t -> wf (snd (add_turn t c sc p now args pr s)).
Proof.
  intros Hwf. unfold add_turn. rewrite find_open_dget by done.
  set (key := resolve_record_key (amb c) sc pr s).
  assert (exists o t', (match dget key (open_ t) with
    | Some o => (o, t)
    | None => start t c sc (Some (default (clock c) now)) args (Some key.1.1) (Some key.1.2)
    end) = (o, t') /\ wf t') as (o & t' & -> & Hwf').
  { destruct (dget key (open_ t)) as [o|]; [by exists o, t|].
    pose proof (wf_start t c sc (Some (default (clock c) now)) args (Some key.1.1) (Some key.1.2) Hwf).
    destruct (start _ _ _ _ _ _ _) as [o t']. by exists o, t'. }
  pose proof (wf_push_turn t' o (default (clock c) now) p Hwf') as Hwf2.
  case_match; [|done].
  pose proof (wf_close_record _ c o REASON_MAX_TURNS (Some (default (clock c) now)) None Hwf2).
  by destruct (close_record _ _ _ _ _ _) as [[closed|] t3].
Qed.

Lemma wf_mark_structural t o r : wf t -> wf (mark_structural t o r).
Proof.
  intros Hwf. unfold mark_structural. destruct (obj t o) as [i|] eqn:E; [|done].
  by eapply wf_maps_update.
Qed.

#[export] Hint Resolve wf_new wf_start wf_add_turn wf_append_turn wf_close_record
  wf_mark_structural wf_idle_visit wf_push_turn : py.

Lemma wf_run_op t c x : wf t -> wf (run_op t c x).
Proof.
  intros Hwf. destruct x; simpl; auto with py.
  - apply sweep_wf; auto with py.
  - apply sweep_wf; auto with py.
Qed.

Lemma wf_reachable t : reachable t -> wf t.
Proof.
  intros (inst & ds & idle & Hr).
  assert (wf (new_tracker inst ds idle)) as Hwf by auto with py.
  revert Hwf. induction Hr as [|? ? ? [] _ IH]; auto using wf_run_op.
Qed.

#[global] Arguments closed_state : simpl never.
#[global] Arguments open_fresh : simpl never.

(** ** Exact effect of the operations *)

Lemma obj_push_turn t o i ts p :
  obj t o = Some i ->
  heap (push_turn t o ts p) = <[o := append_to (mkTurn ts (default [] p)) i]> (heap t)
  /\ open_ (push_turn t o ts p) = open_ t
  /\ max_turns (push_turn t o ts p) = max_turns t.
Proof. unfold push_turn. by intros ->. Qed.

Lemma obj_closed_state t o i ts reason w o' :
  obj t o = Some i ->
  obj (closed_state t o i ts reason w) o' =
    if decide (o = o') then Some (mark_closed ts reason w i) else obj t o'.
Proof.
  intros Ho. unfold obj in *. destruct (closed_state_maps t o i ts reason w) as [-> _].
  apply lookup_lt_Some in Ho. case_decide; subst.
  - by apply list_lookup_insert_eq.
  - by apply list_lookup_insert_ne.
Qed.

Lemma detectors_closed_state t o i ts reason w :
  detectors (closed_state t o i ts reason w) = detectors t.
Proof. unfold closed_state. by destruct (_ && _). Qed.

(** The record a turn lands in, before the turn. *)
Definition target (t : Tracker) (c : call_env) (key : RecordKey) (ts : Q) (args : open_args)
    : oid * Interaction :=
  match dget key (open_ t) with
  | Some o => (o, default (fresh_record c key ts args) (obj t o))
  | None => (length (heap t), fresh_record c key ts args)
  end.

(** The state in which the turn is appended: the record exists and is open. *)
Lemma add_turn_target t c key ts args :
  wf t ->
  let '(o, i) := target t c key ts args in
  exists t1,
    (match dget key (open_ t) with
     | Some o => (o, t)
     | None => (length (heap t), open_fresh t c key ts args)
     end) = (o, t1)
    /\ wf t1 /\ obj t1 o = Some i /\ is_open i = true /\ record_key i = key
    /\ dget key (open_ t1) = Some o /\ max_turns t1 = max_turns t
    /\ (forall k, k <> key -> dget k (open_ t1) = dget k (open_ t))
    /\ (forall o', o' <> o -> obj t1 o' = obj t o').
Proof.
  intros Hwf. unfold target. destruct (dget key (open_ t)) as [o|] eqn:E.
  - pose proof Hwf as (_ & Hmap & _). destruct (Hmap key o E) as (i & Hi & Hk & Ho).
    unfold obj. rewrite Hi. simpl. exists t. by split_and!.
  - exists (open_fresh t c key ts args). split_and!; try done.
    + by apply wf_open_fresh.
    + by apply list_lookup_middle.
    + apply record_key_fresh.
    + unfold open_fresh. simpl. apply dget_dset_eq.
    + intros k Hk. unfold open_fresh. simpl. by apply dget_dset_ne.
    + intros o' Ho'. unfold obj, open_fresh. simpl.
      destruct (decide (o' < length (heap t))%nat).
      * by apply lookup_app_l.
      * rewrite !lookup_ge_None_2; [done|lia|rewrite length_app; simpl; lia].
Qed.

(** What becomes of a record the turn has just been appended to. *)
Definition turn_outcome (t : Tracker) (ts : Q) (i : Interaction) : Interaction :=
  if cap_reached t i then mark_closed ts REASON_MAX_TURNS None i else i.

Lemma start_from_key t c sc args pr s ts :
  wf t -> ambient_ok (amb c) ->
  let key := resolve_record_key (amb c) sc pr s in
  start t c sc (Some ts) args (Some key.1.1) (Some key.1.2) =
    match dget key (open_ t) with
    | Some o => (o, t)
    | None => (length (heap t), open_fresh t c key ts args)
    end.
Proof.
  intros Hwf Ha key. rewrite start_spec by done. unfold get.
  rewrite (resolve_record_key_idemp (amb c) (amb c) sc pr s key.1.1 key.1.2) by done.
  done.
Qed.

(** [add_turn] in one equation: the record found (or opened) under the key gets
    the turn; the cap closes it inline. *)
Lemma add_turn_spec t c sc p now args pr s :
  wf t -> ambient_ok (amb c) ->
  let ts := default (clock c) now in
  let key := resolve_record_key (amb c) sc pr s in
  let '(o, i0) := target t c key ts args in
  let i := append_to (mkTurn ts (default [] p)) i0 in
  let '(o', t') := add_turn t c sc p now args pr s in
  o' = o
  /\ obj t' o = Some (turn_outcome t ts i)
  /\ dget key (open_ t') = (if cap_reached t i then None else Some o)
  /\ (forall k, k <> key -> dget k (open_ t') = dget k (open_ t))
  /\ (forall o1, o1 <> o -> obj t' o1 = obj t o1).
Proof.
  intros Hwf Ha ts key. pose proof (add_turn_target t c key ts args Hwf) as Ht.
  destruct (target t c key ts args) as [o i0].
  destruct Ht as (t1 & Hst & Hwf1 & Ho & Hop & Hk & Hget & Hmax & Hkeys & Hobjs).
  set (i := append_to _ i0). unfold add_turn. fold ts key. rewrite find_open_dget by done.
  pose proof (start_from_key t c sc args pr s ts Hwf Ha) as Hs.
  cbv zeta in Hs. fold key in Hs. rewrite Hs. clear Hs.
  replace (match dget key (open_ t) with Some o => (o, t)
           | None => match dget key (open_ t) with Some o => (o, t)
                     | None => (length (heap t), open_fresh t c key ts args) end end)
    with (o, t1) by (rewrite <- Hst; by destruct (dget key (open_ t))).
  destruct (obj_push_turn t1 o i0 ts p Ho) as (Hheap & Hopen & Hmx).
  pose proof (wf_push_turn t1 o ts p Hwf1) as Hwf2.
  set (t2 := push_turn t1 o ts p) in *.
  assert (obj t2 o = Some i) as Ho2.
  { unfold obj. rewrite Hheap. apply list_lookup_insert_eq. by eapply lookup_lt_Some. }
  assert (forall o1, o1 <> o -> obj t2 o1 = obj t o1) as Hobjs2.
  { intros o1 Hne. rewrite <- Hobjs by done. unfold obj. rewrite Hheap.
    by apply list_lookup_insert_ne. }
  assert (cap_reached t2 i = cap_reached t i) as Hcap by (unfold cap_reached; by rewrite Hmx, Hmax).
  unfold holds. rewrite Ho2, Hcap. unfold turn_outcome.
  destruct (cap_reached t i); [|by rewrite Hopen].
  rewrite close_record_spec, Ho2 by done. change (is_open i) with (is_open i0). rewrite Hop.
  change (default (clock c) (Some ts)) with ts.
  destruct (closed_state_maps t2 o i ts REASON_MAX_TURNS None) as [_ Hop3].
  change (record_key i) with (record_key i0) in Hop3. rewrite Hk in Hop3.
  split_and!; try done.
  - rewrite (obj_closed_state t2 o i) by done. by rewrite decide_True.
  - rewrite Hop3, Hopen. apply dget_ddel_eq, Hwf1.
  - intros k Hne. rewrite Hop3, Hopen, dget_ddel_ne by done. auto.
  - intros o1 Hne. rewrite (obj_closed_state t2 o i) by done. rewrite decide_False by done. auto.
Qed.
