(* ===== verification/TrackerProps.v ===== *)
(** * Correctness of the interaction tracker

    The properties of [Tracker.v]: the map invariant over every history, what a
    turn does, the identity guard of a close, finality of closed records, the
    room-wide fan and the idle sweep, and the counters. *)

From S2P Require Import Prelude PyStr PyDict PyValue Ambient Interactions ReplayBookkeeping Tracker.
Local Open Scope string_scope.

(** ** Sweeps: a decision per open record, then a close *)

Definition close_by (dec : Interaction -> option string) (c : call_env) (ts : Q)
    (t : Tracker) (o : oid) : option oid * Tracker :=
  match obj t o with
  | None => (None, t)
  | Some i => match dec i with
              | Some r => close_record t c o r (Some ts) None
              | None => (None, t)
              end
  end.

Definition decided (dec : Interaction -> option string) (t : Tracker) (o : oid) : option string :=
  match obj t o with Some i => dec i | None => None end.

Lemma decided_obj dec t o i : obj t o = Some i -> decided dec t o = dec i.
Proof. unfold decided. by intros ->. Qed.

(** What a sweep leaves of the object [o]. *)
Definition swept (dec : Interaction -> option string) (ts : Q) (os : list oid) (o : oid)
    (i : Interaction) : Interaction :=
  match dec i with
  | Some r => if bool_decide (o ∈ os) then mark_closed ts r None i else i
  | None => i
  end.

(** Removing a record's key and then the closed ones is removing both. *)
Lemma drop_owner t o i closed :
  wf t -> obj t o = Some i -> is_open i = true ->
  filter (λ kv, kv.2 ∉ closed) (ddel (record_key i) (open_ t)) =
  filter (λ kv, kv.2 ∉ o :: closed) (open_ t).
Proof.
  intros (Hd & Hmap & Hget) Hi Ho. rewrite ddel_filter, filter_filter_and by done.
  apply filter_ext_Forall, Forall_forall. intros [k o'] Hin. simpl.
  apply elem_dget in Hin; [|done].
  destruct (Hmap _ _ Hin) as (j & Hj & Hk & Hjo). specialize (Hget o i Hi Ho). split.
  - intros [Hnc Hne]. intros [->|?]%elem_of_cons; [|done].
    apply Hne. unfold obj in Hi. congruence.
  - intros Hnc. split; [set_solver|]. intros ->.
    assert (o' = o) by congruence. set_solver.
Qed.

(** What a sweep over [os] from [t] must yield. *)
Definition sweep_ok (dec : Interaction -> option string) (ts : Q) (os : list oid) (t : Tracker)
    (closed : list oid) (t' : Tracker) : Prop :=
  closed = filter (λ o, is_Some (decided dec t o)) os
  /\ (forall o, obj t' o = swept dec ts os o <$> obj t o)
  /\ open_ t' = filter (λ kv, kv.2 ∉ closed) (open_ t).

Lemma sweep_ok_hit dec ts os t o i r closed t' :
  wf t -> obj t o = Some i -> is_open i = true -> dec i = Some r -> (o ∉ os) ->
  sweep_ok dec ts os (closed_state t o i ts r None) closed t' ->
  sweep_ok dec ts (o :: os) t (o :: closed) t'.
Proof.
  intros Hwf Hi Ho Hdec Hn (Hc & Hob & Hop).
  assert (forall o', o' <> o -> obj (closed_state t o i ts r None) o' = obj t o') as Hobj.
  { intros o' Hne. rewrite (obj_closed_state t o i) by done. by rewrite decide_False. }
  split_and!.
  - rewrite filter_cons, decide_True by (rewrite (decided_obj _ _ _ i), Hdec by done; eauto).
    f_equal. rewrite Hc. apply filter_ext_Forall, Forall_forall. intros o' Hin.
    unfold decided. rewrite Hobj by set_solver. done.
  - intros o'. rewrite Hob. destruct (decide (o = o')) as [<-|Hne].
    + rewrite Hi, (obj_closed_state t o i), decide_True by done.
      simpl. unfold swept. rewrite Hdec, (bool_decide_true (o ∈ o :: os)) by set_solver.
      case_match; [|done]. by rewrite bool_decide_false by done.
    + rewrite Hobj by done. destruct (obj t o') as [j|]; [|done]. simpl. f_equal.
      unfold swept. case_match; [|done].
      by rewrite (bool_decide_ext (o' ∈ o :: os) (o' ∈ os)) by set_solver.
  - rewrite Hop. destruct (closed_state_maps t o i ts r None) as [_ ->]. by apply drop_owner.
Qed.

Lemma sweep_ok_miss dec ts os t o i closed t' :
  obj t o = Some i -> dec i = None ->
  sweep_ok dec ts os t closed t' -> sweep_ok dec ts (o :: os) t closed t'.
Proof.
  intros Hi Hdec (Hc & Hob & Hop). split_and!; [|  |done].
  - rewrite filter_cons, decide_False; [done|]. rewrite (decided_obj _ _ _ i), Hdec by done. by intros [].
  - intros o'. rewrite Hob. destruct (obj t o') as [j|] eqn:Hj; [|done]. simpl. f_equal.
    unfold swept. destruct (dec j) eqn:Hdj; [|done].
    rewrite (bool_decide_ext (o' ∈ o :: os) (o' ∈ os)); [done|].
    assert (o' <> o) by congruence. set_solver.
Qed.

Lemma sweep_closes dec c ts os t :
  wf t -> NoDup os -> Forall (λ o, holds t is_open o = true) os ->
  let '(closed, t') := sweep (close_by dec c ts) t os in
  closed = filter (λ o, is_Some (decided dec t o)) os
  /\ (forall o, obj t' o = swept dec ts os o <$> obj t o)
  /\ open_ t' = filter (λ kv, kv.2 ∉ closed) (open_ t).
Proof.
  revert t. induction os as [|o os IH]; intros t Hwf Hnd Hall; simpl.
  - split_and!; [done| |].
    + intros o. destruct (obj t o) as [i|]; [|done]. simpl. unfold swept. by destruct (dec i).
    + symmetry. apply filter_true_all, Forall_forall. set_solver.
  - apply NoDup_cons in Hnd as [Hn Hnd]. apply Forall_cons in Hall as [Ho Hall].
    unfold holds in Ho. destruct (obj t o) as [i|] eqn:Hi; [|done].
    unfold close_by at 1. rewrite Hi. destruct (dec i) as [r|] eqn:Hdec; simpl.
    + rewrite close_record_spec, Hi, Ho by done. change (default (clock c) (Some ts)) with ts.
      specialize (IH (closed_state t o i ts r None)).
      destruct (sweep (close_by dec c ts) (closed_state t o i ts r None) os) as [closed t'].
      apply (sweep_ok_hit dec ts os t o i r closed t'); try done. apply IH; [|done|].
      * by apply wf_closed_state.
      * apply Forall_forall. intros o' Hin. rewrite Forall_forall in Hall.
        unfold holds. rewrite (obj_closed_state t o i) by done.
        rewrite decide_False by set_solver. by apply Hall.
    + specialize (IH t Hwf Hnd Hall). destruct (sweep (close_by dec c ts) t os) as [closed t'].
      by apply (sweep_ok_miss dec ts os t o i closed t').
Qed.

(** ** Evolution of a record

    Every field but [turns], the two close fields, the structural marker and
    the window flag is frozen at open; turns are only appended, and not after
    the close. *)
Definition frozen (i : Interaction) :=
  (interaction_id i, started_at i, session_id i, record_key i, epoch_id i,
   (replayed i, replay_attributed i, classification i, source_channel_id i)).

Definition evolves (i i' : Interaction) : Prop :=
  frozen i' = frozen i
  /\ turns i `prefix_of` turns i'
  /\ (is_open i = false ->
       turns i' = turns i /\ closed_at i' = closed_at i /\ close_reason i' = close_reason i
       /\ replay_window_complete i' = replay_window_complete i).

#[export] Instance evolves_preorder : PreOrder evolves.
Proof.
  split.
  - intros i. by split_and!.
  - intros i j k (F1 & P1 & C1) (F2 & P2 & C2). split_and!; [congruence|by etrans|].
    intros Hc. destruct (C1 Hc) as (T & A & R & W).
    assert (is_open j = false) as Hj by (revert Hc; unfold is_open; by rewrite A).
    destruct (C2 Hj) as (T' & A' & R' & W'). split_and!; congruence.
Qed.

(** Two states in which every object of the first evolves. *)
Definition grows (t t' : Tracker) : Prop :=
  forall o i, obj t o = Some i -> exists i', obj t' o = Some i' /\ evolves i i'.

#[export] Instance grows_preorder : PreOrder grows.
Proof.
  split.
  - intros t o i Hi. by exists i.
  - intros t1 t2 t3 H1 H2 o i Hi. destruct (H1 o i Hi) as (j & Hj & He).
    destruct (H2 o j Hj) as (k & Hk & He'). exists k. split; [done|by etrans].
Qed.

Lemma grows_update t t' o i i' :
  obj t o = Some i -> heap t' = <[o := i']> (heap t) -> evolves i i' -> grows t t'.
Proof.
  intros Ho Hh He o1 j Hj. unfold obj in *. rewrite Hh.
  destruct (decide (o = o1)) as [<-|Hne].
  - rewrite list_lookup_insert_eq by (by eapply lookup_lt_Some). exists i'. by simplify_eq.
  - rewrite list_lookup_insert_ne by done. by exists j.
Qed.

Lemma evolves_append tn i : is_open i = true -> evolves i (append_to tn i).
Proof. intros Ho. split_and!; [done|by apply prefix_app_r|congruence]. Qed.

Lemma evolves_mark ts r w i : is_open i = true -> evolves i (mark_closed ts r w i).
Proof. intros Ho. by split_and!; [..|congruence]. Qed.

Lemma evolves_structural r i : evolves i (set_structural r i).
Proof. by split_and!. Qed.

#[export] Hint Resolve evolves_append evolves_mark evolves_structural : py.

Lemma grows_close t c o r now w : wf t -> grows t (snd (close_record t c o r now w)).
Proof.
  intros Hwf. rewrite close_record_spec by done.
  destruct (obj t o) as [i|] eqn:Ho; [|done]. destruct (is_open i) eqn:Hop; [|done].
  eapply grows_update; [done|apply closed_state_maps|auto with py].
Qed.

Lemma grows_push t o ts p : holds t is_open o = true -> grows t (push_turn t o ts p).
Proof.
  unfold holds, push_turn. intros Hop. destruct (obj t o) as [i|] eqn:Ho; [|done].
  eapply grows_update; [done|done|auto with py].
Qed.

Lemma grows_open_fresh t c key ts args : grows t (open_fresh t c key ts args).
Proof. intros o i Hi. exists i. split; [by apply lookup_app_l_Some|done]. Qed.

Lemma grows_start t c sc now args p s : wf t -> grows t (snd (start t c sc now args p s)).
Proof.
  intros Hwf. rewrite start_spec by done. case_match; [done|apply grows_open_fresh].
Qed.

Lemma grows_sweep visit t os :
  (forall t o, wf t -> wf (snd (visit t o)) /\ grows t (snd (visit t o))) ->
  wf t -> grows t (snd (sweep visit t os)).
Proof.
  intros Hv. revert t. induction os as [|o os IH]; intros t Hwf; simpl; [done|].
  destruct (Hv t o Hwf) as [Hwf' Hg]. destruct (visit t o) as [f t'].
  specialize (IH t' Hwf'). destruct (sweep visit t' os). by etrans.
Qed.

Lemma grows_add_turn t c sc p now args pr s :
  wf t -> ambient_ok (amb c) -> grows t (snd (add_turn t c sc p now args pr s)).
Proof.
  intros Hwf Ha o i Hi.
  pose proof (add_turn_spec t c sc p now args pr s Hwf Ha) as H. cbv zeta in H.
  set (ts := default (clock c) now) in *. set (key := resolve_record_key _ _ _ _) in *.
  pose proof (add_turn_target t c key ts args Hwf) as Ht.
  destruct (target t c key ts args) as [o1 i0] eqn:Et.
  destruct Ht as (t1 & Hst & _ & Ho1 & Hop & _). destruct (add_turn _ _ _ _ _ _ _ _) as [o2 t'].
  destruct H as (-> & Hnew & _ & _ & Hold). simpl. destruct (decide (o = o1)) as [->|Hne].
  - eexists. split; [done|].
    assert (i0 = i) as ->.
    { destruct (dget key (open_ t)); simplify_eq; [congruence|].
      unfold obj in Hi. apply lookup_lt_Some in Hi. lia. }
    unfold turn_outcome. destruct (cap_reached t _); [|by apply evolves_append].
    etrans; [by apply evolves_append|by apply evolves_mark].
  - exists i. by rewrite Hold.
Qed.

Lemma grows_run_op t c x : wf t -> ambient_ok (amb c) -> grows t (run_op t c x).
Proof.
  intros Hwf Ha. destruct x; simpl; auto using grows_start, grows_close, grows_add_turn.
  - unfold append_turn. destruct (holds t is_open o) eqn:Ho; [|done]. by apply grows_push.
  - apply grows_sweep; [|done]. intros. auto using wf_close_record, grows_close.
  - apply grows_sweep; [|done]. intros t1 o Hwf1. split; [by apply wf_idle_visit|].
    unfold idle_visit. repeat case_match; [by apply grows_close|done|done].
  - unfold mark_structural. destruct (obj t o) eqn:Ho; [|done].
    eapply grows_update; [done|done|auto with py].
  - intros o i Hi. by exists i.
Qed.

(** ** Counters *)

Definition count (name : string) (l : list string) : nat := length (filter (.= name) l).
Definition closed_count (h : list Interaction) : nat :=
  length (filter (λ i, is_open i = false) h).

Definition metrics_ok (t : Tracker) : Prop :=
  instruments t = true ->
  count "interactions_opened" (counters t) = length (heap t)
  /\ count "interactions_closed" (counters t) = closed_count (heap t).

Lemma count_app name l k : count name (l ++ k) = (count name l + count name k)%nat.
Proof. unfold count. by rewrite filter_app, length_app. Qed.

Lemma closed_count_insert h o i i' :
  h !! o = Some i ->
  (closed_count (<[o := i']> h) + (if is_open i then 0 else 1)
   = closed_count h + (if is_open i' then 0 else 1))%nat.
Proof.
  unfold closed_count. revert o. induction h as [|j h IH]; intros [|o] Hi; simplify_eq/=.
  - rewrite !filter_cons. destruct (is_open i), (is_open i'); simpl; lia.
  - specialize (IH o Hi). rewrite !filter_cons. destruct (is_open j); simpl; lia.
Qed.

Lemma emit_closed_names reason :
  count "interactions_opened"
    ("interactions_closed" :: match dget reason REASON_COUNTER_ATTR with Some c => [c] | None => [] end) = 0%nat
  /\ count "interactions_closed"
    ("interactions_closed" :: match dget reason REASON_COUNTER_ATTR with Some c => [c] | None => [] end) = 1%nat.
Proof. simpl. repeat case_decide; by split. Qed.

Lemma metrics_update t t' o i i' :
  metrics_ok t -> obj t o = Some i -> is_open i' = is_open i ->
  heap t' = <[o := i']> (heap t) -> counters t' = counters t -> instruments t' = instruments t ->
  metrics_ok t'.
Proof.
  unfold metrics_ok, obj. intros Hm Hi Ho -> -> -> Hinst. destruct (Hm Hinst) as [-> ->].
  rewrite length_insert. pose proof (closed_count_insert _ _ _ i' Hi) as H.
  rewrite Ho in H. split; [done|lia].
Qed.

Lemma metrics_closed_state t o i ts reason w :
  metrics_ok t -> obj t o = Some i -> is_open i = true ->
  metrics_ok (closed_state t o i ts reason w).
Proof.
  unfold metrics_ok, obj. intros Hm Hi Ho.
  destruct (closed_state_maps t o i ts reason w) as [-> _].
  replace (instruments (closed_state t o i ts reason w)) with (instruments t)
    by (unfold closed_state; by destruct (_ && _)).
  intros Hinst. destruct (Hm Hinst) as [H1 H2]. destruct (emit_closed_names reason) as [E1 E2].
  assert (counters (closed_state t o i ts reason w) = counters t ++
    ("interactions_closed" :: match dget reason REASON_COUNTER_ATTR with Some c => [c] | None => [] end))%list as ->.
  { unfold closed_state, emit_closed, emit. destruct (_ && _); simpl; by rewrite Hinst. }
  rewrite !count_app, E1, E2, H1, H2, length_insert.
  pose proof (closed_count_insert _ _ _ (mark_closed ts reason w i) Hi) as H.
  rewrite Ho in H. simpl in H. split; lia.
Qed.

Lemma metrics_close t c o r now w : wf t -> metrics_ok t -> metrics_ok (snd (close_record t c o r now w)).
Proof.
  intros Hwf Hm. rewrite close_record_spec by done.
  destruct (obj t o) as [i|] eqn:Ho; [|done].
  destruct (is_open i) eqn:Hop; [by apply metrics_closed_state|done].
Qed.

Lemma metrics_push t o ts p : metrics_ok t -> metrics_ok (push_turn t o ts p).
Proof.
  intros Hm. unfold push_turn. destruct (obj t o) as [i|] eqn:Ho; [|done].
  by apply (metrics_update t _ o i (append_to (mkTurn ts (default [] p)) i)).
Qed.

Lemma metrics_open_fresh t c key ts args : metrics_ok t -> metrics_ok (open_fresh t c key ts args).
Proof.
  unfold metrics_ok, open_fresh. simpl. intros Hm Hinst. rewrite Hinst.
  destruct (Hm Hinst) as [H1 H2]. rewrite !count_app, H1, H2, length_app.
  unfold closed_count. rewrite filter_app, length_app. simpl. split; [done|].
  unfold count. simpl. lia.
Qed.

Lemma metrics_start t c sc now args p s :
  wf t -> metrics_ok t -> metrics_ok (snd (start t c sc now args p s)).
Proof. intros Hwf Hm. rewrite start_spec by done. case_match; [done|by apply metrics_open_fresh]. Qed.

Lemma metrics_add_turn t c sc p now args pr s :
  wf t -> metrics_ok t -> metrics_ok (snd (add_turn t c sc p now args pr s)).
Proof.
  intros Hwf Hm. unfold add_turn. set (ts := default (clock c) now).
  set (key := resolve_record_key _ _ _ _).
  destruct (match find_open t key with Some o => (o, t) | None => _ end) as [o t1] eqn:E.
  assert (wf t1 /\ metrics_ok t1) as [Hwf1 Hm1].
  { destruct (find_open t key); [by simplify_eq|].
    pose proof (wf_start t c sc (Some ts) args (Some key.1.1) (Some key.1.2) Hwf).
    pose proof (metrics_start t c sc (Some ts) args (Some key.1.1) (Some key.1.2) Hwf Hm).
    by rewrite E in *. }
  pose proof (wf_push_turn t1 o ts p Hwf1). pose proof (metrics_push t1 o ts p Hm1).
  destruct (holds _ _ _); [|done].
  pose proof (metrics_close (push_turn t1 o ts p) c o REASON_MAX_TURNS (Some ts) None) as Hc.
  destruct (close_record _ _ _ _ _ _) as [[]]; by apply Hc.
Qed.

Lemma metrics_sweep visit t os :
  (forall t o, wf t -> metrics_ok t -> wf (snd (visit t o)) /\ metrics_ok (snd (visit t o))) ->
  wf t -> metrics_ok t -> metrics_ok (snd (sweep visit t os)).
Proof.
  intros Hv. revert t. induction os as [|o os IH]; intros t Hwf Hm; simpl; [done|].
  destruct (Hv t o Hwf Hm) as [Hwf' Hm']. destruct (visit t o) as [f t'].
  specialize (IH t' Hwf' Hm'). by destruct (sweep visit t' os).
Qed.

Lemma metrics_run_op t c x : wf t -> metrics_ok t -> metrics_ok (run_op t c x).
Proof.
  intros Hwf Hm. destruct x; simpl; auto using metrics_start, metrics_close, metrics_add_turn.
  - unfold append_turn. case_match; auto using metrics_push.
  - apply metrics_sweep; auto using wf_close_record, metrics_close.
  - apply metrics_sweep; [|done..]. intros t1 o Hwf1 Hm1. split; [by apply wf_idle_visit|].
    unfold idle_visit. repeat case_match; auto using metrics_close.
  - unfold mark_structural. destruct (obj t o) as [i|] eqn:Ho; [|done].
    by apply (metrics_update t _ o i (set_structural reason i)).
Qed.

Lemma reachable_inv t : reachable t -> wf t /\ metrics_ok t.
Proof.
  intros (inst & ds & idle & Hr).
  assert (wf (new_tracker inst ds idle) /\ metrics_ok (new_tracker inst ds idle)) as Hinv
    by (split; [auto with py|by intros _]).
  revert Hinv. induction Hr as [|? ? ? [] _ IH]; [done|].
  intros [Hwf Hm]. apply IH. auto using wf_run_op, metrics_run_op.
Qed.

(** ** A concrete history, for the witnesses *)

Definition demo_call : call_env := mkCall (Ambient None None None []) 10 "uuid".
Definition demo_args : open_args := mkArgs None None None false false.
Definition demo_turn (speaker : string) : op :=
  OpAddTurn "group:plan" None None demo_args None (Some speaker).

Definition demo : Tracker :=
  run_op (run_op (new_tracker true None 600) demo_call (demo_turn "alice"))
         demo_call (demo_turn " bob ").

Lemma demo_reachable : reachable demo.
Proof.
  exists true, None, 600%Q.
  eapply rtc_l; [by apply (tstep_op _ demo_call (demo_turn "alice"))|].
  eapply rtc_l; [by apply (tstep_op _ demo_call (demo_turn " bob "))|]. apply rtc_refl.
Qed.

(** ** Properties *)

(** C1. In every state a history of tracker calls can reach, a record is open
    exactly when the key map holds that very object, and then under the key its
    own frozen fields produce: at most one open record per (principal, speaker,
    scope), no open record is lost from the map, and no closed record is still
    reachable through it. *)
Theorem tracker_map_invariant t (Hr : reachable t) :
  NoDup (dkeys (open_ t))
  /\ forall o i, obj t o = Some i ->
       (is_open i = true <-> dget (record_key i) (open_ t) = Some o)
       /\ forall k, dget k (open_ t) = Some o -> k = record_key i.
Proof.
  destruct (wf_reachable t Hr) as (Hd & Hmap & Hall). split; [done|].
  intros o i Hi. split.
  - split; [by apply Hall|]. intros Hg.
    destruct (Hmap _ _ Hg) as (j & Hj & _ & ?). unfold obj in Hi. congruence.
  - intros k Hg. destruct (Hmap _ _ Hg) as (j & Hj & <- & _). unfold obj in Hi. congruence.
Qed.

Lemma tracker_map_invariant_witness :
  open_ demo = [("local", "alice", "group:plan", 0%nat); ("local", "bob", "group:plan", 1%nat)]
  /\ NoDup (dkeys (open_ demo)).
Proof.
  split; [vm_compute; reflexivity|].
  exact (proj1 (tracker_map_invariant demo demo_reachable)).
Defined.

(** A turn lands in exactly one record: the one open under the key the call
    resolves, or a fresh one whose frozen fields come from this call. That
    record gets the turn last, stamped with the call's instant; if the turn
    brings it to the cap it is closed inline with reason [max_turns] and its key
    is freed, otherwise the key now finds it. No other record or key changes. *)
Theorem add_turn_lands t c sc p now args pr s
    (Hr : reachable t) (Ha : ambient_ok (amb c)) :
  let ts := default (clock c) now in
  let key := resolve_record_key (amb c) sc pr s in
  let '(o, i0) := target t c key ts args in
  let i := append_to (mkTurn ts (default [] p)) i0 in
  let '(o', t') := add_turn t c sc p now args pr s in
  o' = o
  /\ obj t' o = Some (if cap_reached t i then mark_closed ts REASON_MAX_TURNS None i else i)
  /\ get t' (amb c) sc pr s = (if cap_reached t i then None else Some o)
  /\ (forall k, k <> key -> dget k (open_ t') = dget k (open_ t))
  /\ (forall o1, o1 <> o -> obj t' o1 = obj t o1).
Proof. exact (add_turn_spec t c sc p now args pr s (wf_reachable t Hr) Ha). Qed.

Lemma add_turn_lands_witness :
  fst (add_turn demo demo_call "group:plan" None None demo_args None (Some "alice")) = 0%nat
  /\ (let '(o', t') := add_turn demo demo_call "group:plan" None None demo_args None (Some "alice") in
      forall o1, o1 <> 0%nat -> obj t' o1 = obj demo o1).
Proof.
  split; [vm_compute; reflexivity|].
  pose proof (add_turn_lands demo demo_call "group:plan" None None demo_args None (Some "alice")
                demo_reachable eq_refl) as H.
  exact (proj2 (proj2 (proj2 (proj2 H)))).
Defined.

(** [close_record] acts on a record exactly when the tracker still has it
    open, whatever else is filed under its key by now: it then stamps the close
    instant and reason, frees the key, registers the window as compromised when
    the record was replayed and not declared complete, and touches nothing else.
    On any other reference (closed already, so a concurrent close won) it
    returns [None] and changes nothing. *)
Theorem close_record_identity t c o reason now w (Hr : reachable t) :
  let ts := default (clock c) now in
  let '(res, t') := close_record t c o reason now w in
  if holds t is_open o then
    exists i, obj t o = Some i /\ res = Some o
      /\ obj t' o = Some (mark_closed ts reason w i)
      /\ open_ t' = ddel (record_key i) (open_ t)
      /\ (forall o1, o1 <> o -> obj t' o1 = obj t o1)
      /\ (replayed i = true -> default (replay_window_complete i) w = false ->
          replay_record_compromised (opt_str (source_channel_id i)) (speaker_id i) (replay t') = true)
      /\ (replayed i = false \/ default (replay_window_complete i) w = true ->
          replay t' = replay t)
  else res = None /\ t' = t.
Proof.
  cbv zeta. rewrite close_record_spec by (by apply wf_reachable). unfold holds.
  destruct (obj t o) as [i|] eqn:Hi; [|done]. destruct (is_open i) eqn:Ho; [|done].
  exists i. destruct (closed_state_maps t o i (default (clock c) now) reason w) as [_ Hop].
  split_and!; try done.
  - rewrite (obj_closed_state t o i) by done. by rewrite decide_True.
  - intros o1 Hne. rewrite (obj_closed_state t o i) by done. by rewrite decide_False.
  - intros Hrep Hw. unfold closed_state. simpl. rewrite Hrep, Hw. simpl.
    unfold replay_record_compromised. simpl. rewrite orb_true_iff, !bool_decide_eq_true.
    right. set_solver.
  - intros H. unfold closed_state. simpl.
    destruct H as [-> | ->]; simpl; [done|]. by rewrite andb_false_r.
Qed.

Lemma close_record_identity_witness :
  fst (close_record demo demo_call 1 REASON_COST None None) = Some 1%nat
  /\ (let '(res, t') := close_record demo demo_call 7 REASON_COST None None in
      res = None /\ t' = demo).
Proof.
  split; [vm_compute; reflexivity|].
  exact (close_record_identity demo demo_call 7 REASON_COST None None demo_reachable).
Defined.

(** Records only grow, and a close is final: over any history, every field
    captured at open (ids, principal, speaker, scope, session, epoch, replay and
    classification capture) keeps its value, turns are only appended, and once a
    record is closed its turns, close instant, close reason and window flag
    never change again. *)
Theorem records_evolve t t' (Hr : reachable t) (Hs : rtc tstep t t') o i :
  obj t o = Some i -> exists i', obj t' o = Some i' /\ evolves i i'.
Proof.
  assert (wf t) as Hwf by by apply wf_reachable. clear Hr.
  enough (grows t t') as H by apply H.
  induction Hs as [|t1 t2 t3 [t1' c x Ha] _ IH]; [done|].
  etrans; [by apply grows_run_op|]. apply IH. by apply wf_run_op.
Qed.

Lemma records_evolve_witness :
  exists i', obj (run_op demo demo_call (OpCloseScope None REASON_SHUTDOWN None None)) 0%nat = Some i'
    /\ evolves (default (fresh_record demo_call ("", "", "") 0 demo_args) (obj demo 0%nat)) i'.
Proof.
  apply (records_evolve demo _ demo_reachable).
  - apply rtc_once. apply (tstep_op _ demo_call (OpCloseScope None REASON_SHUTDOWN None None)).
    reflexivity.
  - vm_compute. reflexivity.
Defined.

Lemma open_records_ok t :
  wf t -> NoDup (open_records t) /\ Forall (λ o, holds t is_open o = true) (open_records t).
Proof.
  intros (Hd & Hmap & _). unfold open_records, dvalues. split.
  - rewrite <- (list_fmap_id (map snd (open_ t))). revert Hd Hmap. unfold dwf, dkeys.
    generalize (open_ t) as d. induction d as [|[k o] d IH]; simpl; [constructor|].
    rewrite !NoDup_cons. intros [Hn Hd] Hmap. split.
    + intros Hin. rewrite list_fmap_id in Hin. apply list_elem_of_fmap in Hin as [[k' o'] [-> Hin]].
      assert (k <> k') as Hne.
      { intros ->. apply Hn. apply list_elem_of_fmap. by exists (k', o'). }
      destruct (Hmap k o') as (i & Hi & Hk & _); [by rewrite decide_True|].
      destruct (Hmap k' o') as (j & Hj & Hk' & _);
        [rewrite decide_False by congruence; by apply elem_dget|]. simpl in *. congruence.
    + apply IH; [done|]. intros k' o' Hg. apply Hmap. case_decide; [|done]. subst.
      exfalso. apply Hn. apply dget_Some_elem in Hg. apply list_elem_of_fmap. by exists (k, o').
  - apply Forall_forall. intros o Hin. apply list_elem_of_fmap in Hin as [[k o'] [-> Hin]].
    apply elem_dget in Hin; [|done]. destruct (Hmap _ _ Hin) as (i & Hi & _ & Hop).
    unfold holds, obj. simpl. by rewrite Hi.
Qed.

(** Both sweeps of the tracker are [close_by] sweeps. *)
Lemma sweep_close_record c reason ts t os :
  sweep (λ t o, close_record t c o reason (Some ts) None) t os
  = sweep (close_by (λ _, Some reason) c ts) t os.
Proof.
  revert t. induction os as [|o os IH]; intros t; simpl; [done|].
  replace (close_by (λ _, Some reason) c ts t o) with (close_record t c o reason (Some ts) None)
    by (unfold close_by, close_record; by destruct (obj t o)).
  destruct (close_record _ _ _ _ _ _). by rewrite IH.
Qed.

Lemma sweep_idle c ds ts t os :
  detectors t = ds ->
  sweep (idle_visit c ts) t os = sweep (close_by (λ i, first_reason ds i ts) c ts) t os.
Proof.
  revert t. induction os as [|o os IH]; intros t Hdet; simpl; [done|].
  replace (idle_visit c ts t o) with (close_by (λ i, first_reason ds i ts) c ts t o)
    by (unfold close_by, idle_visit; by rewrite Hdet).
  assert (detectors (snd (close_by (λ i, first_reason ds i ts) c ts t o)) = ds) as Hd.
  { unfold close_by, close_record. repeat (case_match; simpl); done. }
  destruct (close_by _ c ts t o) as [f t1]. by rewrite IH.
Qed.

(** The fan, in any well-formed state. *)
Lemma close_scope_spec t c sc reason now rule (Hwf : wf t) :
  let ts := default (clock c) now in
  let '(closed, t') := close_scope t c sc reason now rule in
  closed = filter (λ o, holds t (admitted sc rule) o = true) (open_records t)
  /\ (forall o i, obj t o = Some i ->
        obj t' o = Some (if bool_decide (o ∈ closed) then mark_closed ts reason None i else i))
  /\ open_records t' = filter (λ o, o ∉ closed) (open_records t).
Proof.
  intros ts.
  destruct (open_records_ok t Hwf) as [Hnd Hop].
  unfold close_scope, admitted_records. fold ts.
  set (os := filter _ (open_records t)).
  pose proof (sweep_closes (λ _, Some reason) c ts os t Hwf) as H.
  rewrite sweep_close_record. destruct (sweep _ t os) as [closed t'].
  destruct H as (-> & Hobj & Hopen).
  { by apply NoDup_filter. }
  { apply Forall_forall. intros o Hin.
    rewrite Forall_forall in Hop. apply Hop. unfold os in Hin.
    by apply list_elem_of_filter in Hin as [_ ?]. }
  assert (filter (λ o, is_Some (decided (λ _, Some reason) t o)) os = os) as Hall.
  { apply filter_true_all, Forall_forall. intros o Hin. apply list_elem_of_filter in Hin as [Hh _].
    unfold holds in Hh. unfold decided. destruct (obj t o); [eauto|done]. }
  rewrite Hall in *. split_and!; [done| |].
  - intros o i Hi. rewrite Hobj, Hi. done.
  - unfold open_records, dvalues. rewrite Hopen. clear. induction (open_ t) as [|[k o] d IH]; [done|].
    simpl. rewrite !filter_cons. simpl. case_decide; simpl; by rewrite IH.
Qed.

(** The room-wide fan closes exactly the admitted records: those open in the
    scope (every scope for a stopping agent), not opened by a replay, and
    accepted by the caller's rule; in insertion order, all with the one instant
    and reason. Every other record and key stays as it was. *)
Theorem close_scope_exact t c sc reason now rule (Hr : reachable t) :
  let ts := default (clock c) now in
  let '(closed, t') := close_scope t c sc reason now rule in
  closed = filter (λ o, holds t (admitted sc rule) o = true) (open_records t)
  /\ (forall o i, obj t o = Some i ->
        obj t' o = Some (if bool_decide (o ∈ closed) then mark_closed ts reason None i else i))
  /\ open_records t' = filter (λ o, o ∉ closed) (open_records t).
Proof. by apply close_scope_spec, wf_reachable. Qed.

Lemma close_scope_exact_witness :
  fst (close_scope demo demo_call (Some "group:plan") REASON_STRUCTURAL None None) = [0; 1]%nat
  /\ open_records (snd (close_scope demo demo_call (Some "group:plan") REASON_STRUCTURAL None None))
     = filter (λ o, o ∉ fst (close_scope demo demo_call (Some "group:plan") REASON_STRUCTURAL None None))
         (open_records demo).
Proof.
  split; [vm_compute; reflexivity|].
  exact (proj2 (proj2 (close_scope_exact demo demo_call (Some "group:plan") REASON_STRUCTURAL
                         None None demo_reachable))).
Defined.

(** The sweep, in any well-formed state. *)
Lemma idle_check_spec t c now (Hwf : wf t) :
  let ts := default (clock c) now in
  let fires o := decided (λ i, first_reason (detectors t) i ts) t o in
  let '(closed, t') := idle_check t c now None in
  closed = filter (λ o, is_Some (fires o)) (open_records t)
  /\ (forall o i, obj t o = Some i ->
        obj t' o = Some (match first_reason (detectors t) i ts with
                         | Some reason =>
                             if is_open i then mark_closed ts reason None i else i
                         | None => i
                         end))
  /\ open_records t' = filter (λ o, fires o = None) (open_records t).
Proof.
  intros ts fires.
  destruct (open_records_ok t Hwf) as [Hnd Hop]. unfold idle_check. simpl. fold ts.
  set (dec i := first_reason (detectors t) i ts).
  pose proof (sweep_closes dec c ts (open_records t) t Hwf Hnd Hop) as H.
  rewrite (sweep_idle _ (detectors t)) by done. fold dec. destruct (sweep _ t (open_records t)) as [closed t'].
  destruct H as (-> & Hobj & Hopen). split_and!; [done| |].
  - intros o i Hi. rewrite Hobj, Hi. simpl. unfold swept, dec.
    destruct (first_reason _ _ _); [|done]. do 2 f_equal.
    destruct (is_open i) eqn:Ho.
    + rewrite bool_decide_true; [done|]. unfold open_records, dvalues.
      destruct Hwf as (_ & _ & Hall). apply list_elem_of_fmap.
      exists (record_key i, o). split; [done|]. by apply dget_Some_elem, Hall.
    + rewrite bool_decide_false; [done|]. intros Hin. rewrite Forall_forall in Hop.
      specialize (Hop o Hin). unfold holds in Hop. rewrite Hi in Hop. congruence.
  - unfold open_records at 1. unfold dvalues. rewrite Hopen. unfold fires. fold dec.
    assert (forall d, incl d (open_ t) ->
      map snd (filter (λ kv, kv.2 ∉ filter (λ o, is_Some (decided dec t o)) (open_records t)) d)
      = filter (λ o, decided dec t o = None) (map snd d)) as Hd; [|apply Hd, incl_refl].
    intros d. induction d as [|[k o] d IH]; intros Hin; [done|].
    simpl. rewrite !filter_cons. simpl.
    assert (o ∈ open_records t) as Ho.
    { apply list_elem_of_fmap. exists (k, o). split; [done|]. apply list_elem_of_In, Hin. by left. }
    destruct (incl_cons_inv Hin) as [_ Hin']. specialize (IH Hin').
    destruct (decided dec t o) eqn:E; simpl.
    + assert (o ∈ filter (λ o, is_Some (decided dec t o)) (open_records t)) as Hf
        by (apply list_elem_of_filter; rewrite E; eauto).
      by rewrite decide_False by tauto.
    + assert (o ∉ filter (λ o, is_Some (decided dec t o)) (open_records t)) as Hf
        by (rewrite list_elem_of_filter, E; by intros [[? ?] _]).
      rewrite decide_True by done. simpl. by rewrite IH.
Qed.

(** The idle sweep closes exactly the open records for which some detector
    of the chain fires, each with the reason of the first detector that does
    (so a structural marker pre-empts the idle gap, and the idle gap the turn
    cap), and leaves the other records and keys as they were: a quiet speaker
    idles out while an active sibling in the same room stays open. *)
Theorem idle_check_exact t c now (Hr : reachable t) :
  let ts := default (clock c) now in
  let fires o := decided (λ i, first_reason (detectors t) i ts) t o in
  let '(closed, t') := idle_check t c now None in
  closed = filter (λ o, is_Some (fires o)) (open_records t)
  /\ (forall o i, obj t o = Some i ->
        obj t' o = Some (match first_reason (detectors t) i ts with
                         | Some reason =>
                             if is_open i then mark_closed ts reason None i else i
                         | None => i
                         end))
  /\ open_records t' = filter (λ o, fires o = None) (open_records t).
Proof. by apply idle_check_spec, wf_reachable. Qed.

Lemma idle_check_exact_witness :
  fst (idle_check demo demo_call (Some 610) None) = [0; 1]%nat
  /\ fst (idle_check demo demo_call (Some 609) None) = []
  /\ open_records (snd (idle_check demo demo_call (Some 609) None))
     = filter (λ o, decided (λ i, first_reason (detectors demo) i 609) demo o = None)
         (open_records demo).
Proof.
  split; [vm_compute; reflexivity|]. split; [vm_compute; reflexivity|].
  exact (proj2 (proj2 (idle_check_exact demo demo_call (Some 609) demo_reachable))).
Defined.

(** The counters account for the records: with instruments installed, over
    every history the opened counter is the number of records ever opened and
    the closed counter the number of closed ones, one increment per record (a
    room close of N records counts N), so their difference is the number of
    open records. *)
Theorem counters_account t (Hr : reachable t) (Hi : instruments t = true) :
  count "interactions_opened" (counters t) = length (heap t)
  /\ count "interactions_closed" (counters t) = closed_count (heap t).
Proof. by apply (proj2 (reachable_inv t Hr)). Qed.

Lemma counters_account_witness :
  let t := run_op demo demo_call (OpCloseScope None REASON_SHUTDOWN None None) in
  reachable t /\ count "interactions_closed" (counters t) = 2%nat
  /\ count "interactions_opened" (counters t) = length (heap t).
Proof.
  cbv zeta. assert (reachable (run_op demo demo_call (OpCloseScope None REASON_SHUTDOWN None None))) as H.
  { destruct demo_reachable as (i & d & x & Hr). exists i, d, x.
    eapply rtc_r; [exact Hr|]. by apply tstep_op. }
  split; [exact H|]. split; [vm_compute; reflexivity|].
  exact (proj1 (counters_account _ H eq_refl)).
Defined.
