(* ===== verification/PersonaEvents.v ===== *)
(** * Events and actions of a persona agent

    Models the event and action vocabulary of [agents/persona_types.py]. *)

From S2P Require Import Prelude PyStr PyDict PyValue.
Local Open Scope string_scope.

Inductive EventType :=
| TASK_ASSIGNED | CHANNEL_MESSAGE | MENTION | SUB_AGENT_COMPLETED
| APPROVAL_REQUESTED | APPROVAL_RESPONSE | TICK | AGENT_JOINED | AGENT_LEFT.

#[export] Instance EventType_eq_dec : EqDecision EventType.
Proof. solve_decision. Defined.

Record AgentEvent := mkEvent {
  event_type : EventType;
  ev_payload : pydict;
  channel_id : option string;
  sender_id : option string;
  message_id : option string;
  thread_id : option string;
  timestamp : Q;
  metadata : pydict;
}.

Inductive ActionType :=
| SEND_CHANNEL_MESSAGE | COMPLETE_TASK | DELEGATE | SPAWN_SUB_AGENT | USE_TOOL
| REQUEST_APPROVAL | GRANT_APPROVAL | DENY_APPROVAL | DO_NOTHING | END_INTERACTION_VOTE.

#[export] Instance ActionType_eq_dec : EqDecision ActionType.
Proof. solve_decision. Defined.

Record AgentAction := mkAction { action_type : ActionType; act_payload : pydict }.
