(* ===== verification/ResponseGate.v ===== *)
(** * The channels response gate

    Models [agents/response_gate.py] and its vocabulary
    [agents/response_policies.py]: whether the persona runtime invokes the LLM
    for an inbound event. One definition per lane of [evaluate_response_gate],
    composed in the source's order. *)

From S2P Require Import Prelude PyStr PyDict PyValue PersonaEvents.
Local Open Scope string_scope.

(** ** [response_policies.py] *)

Definition POLICY_WHEN_MENTIONED := "when_mentioned".
Definition POLICY_ALWAYS := "always".
Definition POLICY_NEVER := "never".
Definition POLICY_PARTICIPANT := "participant".
Definition POLICY_ADDRESSED := "addressed".
Definition POLICY_OBSERVER := "observer".
Definition POLICY_CHAIR := "chair".
Definition POLICY_DEFENSE_IN_DEPTH := "defense_in_depth".
Definition POLICY_LOW_SALIENCE := "low_salience".
Definition POLICY_UNKNOWN := "unknown".
Definition MENTION_EVERYONE := "@everyone".
Definition DM_CHANNEL_PREFIX := "dm:".

Definition DISPOSITION_ALIASES : list (string * string) :=
  [(POLICY_PARTICIPANT, POLICY_ALWAYS); (POLICY_CHAIR, POLICY_ALWAYS);
   (POLICY_ADDRESSED, POLICY_WHEN_MENTIONED); (POLICY_OBSERVER, POLICY_NEVER)].

Definition FORCED_TURN_MARKERS := ["chair_escalation"; "convene"; "synthesis_turn"].

(** ** [response_gate.py] *)

Record GateDecision := mkDecision { respond : bool; policy : string; reason : string }.

#[export] Instance GateDecision_eq_dec : EqDecision GateDecision.
Proof. solve_decision. Defined.

Definition is_open_floor_admit (d : GateDecision) : bool :=
  respond d && bool_decide (policy d = POLICY_ALWAYS)
  && bool_decide (reason d = "policy_always").

(** The incoming policy: a non-string reads as [""], a disposition as its legacy
    alias. *)
Definition incoming_policy (payload : pydict) : string :=
  let raw := match dget_or "respond_policy" (VStr "") payload with
             | VStr s => s | _ => "" end in
  default raw (dget raw DISPOSITION_ALIASES).

Definition is_close_notification (payload : pydict) : bool :=
  is_true (dget "interaction_close_notification" payload).

Definition from_self (e : AgentEvent) (agent_id : string) : bool :=
  bool_decide (sender_id e = Some agent_id).

(** The DM lane: the channel type overrides the membership policy. *)
Definition gate_dm (e : AgentEvent) (agent_id : string) (payload : pydict) : GateDecision :=
  if from_self e agent_id then mkDecision false POLICY_DEFENSE_IN_DEPTH "dm_self_sender"
  else if is_close_notification payload
       then mkDecision false POLICY_ALWAYS "close_notification"
       else mkDecision true POLICY_ALWAYS "dm".

(** The close-notification lane: refused for every policy, label clamped. *)
Definition gate_close (pol : string) : GateDecision :=
  let pol := if bool_decide (pol ∈ [POLICY_ALWAYS; POLICY_WHEN_MENTIONED; POLICY_NEVER])
             then pol else POLICY_UNKNOWN in
  mkDecision false pol "close_notification".

(** [for marker in _FORCED_TURN_MARKERS: if payload.get(marker) is True and ...] *)
Definition forced_marker (payload : pydict) (pol : string) : option string :=
  if bool_decide (pol ∈ [POLICY_ALWAYS; POLICY_WHEN_MENTIONED])
  then list_find (λ m, is_true (dget m payload) = true) FORCED_TURN_MARKERS ≫= λ p, Some p.2
  else None.

(** [payload.get("mentions") or []], kept when it is a list. *)
Definition mentions_list (payload : pydict) : list pyval :=
  match dget_or "mentions" VNone payload with VList l => l | _ => [] end.

(** The suppression basis: the orchestrator-resolved floor-capable subset when
    the producer declared it resolved and it is a list, else the raw mentions. *)
Definition directed_basis (payload : pydict) (mentions : list pyval) : list pyval :=
  if is_true (dget "floor_mentions_resolved" payload) then
    match dget "floor_mentions" payload with
    | Some (VList floor) => floor
    | _ => mentions
    end
  else mentions.

Definition open_floor : GateDecision := mkDecision true POLICY_ALWAYS "policy_always".

(** The [always] (participant) lane: the directed-elsewhere filter. *)
Definition gate_always (agent_id : string) (payload : pydict) : GateDecision :=
  match mentions_list payload with
  | [] => open_floor
  | mentions =>
      if str_in agent_id mentions then mkDecision true POLICY_ALWAYS "mentioned"
      else if str_in MENTION_EVERYONE mentions then mkDecision true POLICY_ALWAYS "broadcast"
      else match directed_basis payload mentions with
           | [] => open_floor
           | _ => mkDecision false POLICY_ALWAYS "directed_elsewhere"
           end
  end.

(** The [when_mentioned] lane. *)
Definition gate_when_mentioned (e : AgentEvent) (agent_id : string) (payload : pydict)
    : GateDecision :=
  if str_in agent_id (mentions_list payload)
  then mkDecision true POLICY_WHEN_MENTIONED "mentioned"
  else if truthy (opt_str (thread_id e))
          && v_eq_str (dget_or "thread_parent_sender_id" (VStr "") payload) agent_id
       then mkDecision true POLICY_WHEN_MENTIONED "thread_reply_to_self"
       else mkDecision false POLICY_WHEN_MENTIONED "not_mentioned".

Definition evaluate_response_gate (e : AgentEvent) (agent_id : string) : GateDecision :=
  if negb (bool_decide (event_type e = CHANNEL_MESSAGE))
  then mkDecision true "" "not_channel_message"
  else
    let channel_id := opt_str (channel_id e) in
    if negb (truthy channel_id) then mkDecision true "" "no_channel_id"
    else
      let payload := ev_payload e in
      let pol := incoming_policy payload in
      if startswith DM_CHANNEL_PREFIX channel_id then gate_dm e agent_id payload
      else if is_close_notification payload then gate_close pol
      else if from_self e agent_id
           then mkDecision false POLICY_DEFENSE_IN_DEPTH "self_sender"
      else if bool_decide (pol = POLICY_NEVER) then mkDecision false POLICY_NEVER "policy_never"
      else match forced_marker payload pol with
           | Some marker => mkDecision true pol marker
           | None =>
               if bool_decide (pol = POLICY_ALWAYS) then gate_always agent_id payload
               else if bool_decide (pol = POLICY_WHEN_MENTIONED)
                    then gate_when_mentioned e agent_id payload
                    else mkDecision false POLICY_UNKNOWN "unknown_policy"
           end.

(** ** The contract: who may be answered *)

(** The message is addressed to named members of whom this agent is none, and
    someone named could take the floor. *)
Definition directed_elsewhere (agent_id : string) (payload : pydict) : Prop :=
  mentions_list payload <> []
  /\ (VStr agent_id ∉ mentions_list payload)
  /\ (VStr MENTION_EVERYONE ∉ mentions_list payload)
  /\ directed_basis payload (mentions_list payload) <> [].

Definition addressed_to (e : AgentEvent) (agent_id : string) (payload : pydict) : Prop :=
  VStr agent_id ∈ mentions_list payload
  \/ (opt_str (thread_id e) <> ""
      /\ dget_or "thread_parent_sender_id" (VStr "") payload = VStr agent_id).

Definition forced_turn (payload : pydict) : Prop :=
  exists m, m ∈ FORCED_TURN_MARKERS /\ dget m payload = Some (VBool true).

(** An ordinary message of a channel: no close notification, not an echo of the
    agent's own. *)
Definition stimulus (e : AgentEvent) (agent_id : string) : Prop :=
  is_close_notification (ev_payload e) = false /\ sender_id e <> Some agent_id.

Definition may_respond (e : AgentEvent) (agent_id : string) : Prop :=
  let payload := ev_payload e in
  let pol := incoming_policy payload in
  event_type e <> CHANNEL_MESSAGE
  \/ opt_str (channel_id e) = ""
  \/ (stimulus e agent_id
      /\ (startswith DM_CHANNEL_PREFIX (opt_str (channel_id e)) = true
          \/ (pol = POLICY_ALWAYS /\ (forced_turn payload \/ ~ directed_elsewhere agent_id payload))
          \/ (pol = POLICY_WHEN_MENTIONED
              /\ (forced_turn payload \/ addressed_to e agent_id payload)))).

(** ** Lemmas on the lanes *)

Lemma is_true_spec v : is_true v = true <-> v = Some (VBool true).
Proof. destruct v as [[|[]| | | | |]|]; simpl; split; congruence. Qed.

Lemma v_eq_str_spec v s : v_eq_str v s = true <-> v = VStr s.
Proof. destruct v; simpl; rewrite ?bool_decide_eq_true; split; congruence. Qed.

Lemma forced_marker_spec payload pol :
  match forced_marker payload pol with
  | Some m => m ∈ FORCED_TURN_MARKERS /\ dget m payload = Some (VBool true)
              /\ (pol = POLICY_ALWAYS \/ pol = POLICY_WHEN_MENTIONED)
  | None => (pol = POLICY_ALWAYS \/ pol = POLICY_WHEN_MENTIONED) -> ~ forced_turn payload
  end.
Proof.
  unfold forced_marker. case_bool_decide as Hp.
  - destruct (list_find _ _) as [[i m]|] eqn:E; simpl.
    + apply list_find_Some in E as (Hl & Hm & _). apply is_true_spec in Hm.
      split; [by eapply list_elem_of_lookup_2|]. split; [done|]. set_solver.
    + apply list_find_None in E. intros _ (m & Hin & Hm).
      rewrite Forall_forall in E. apply (E m Hin). by apply is_true_spec.
  - set_solver.
Qed.

Lemma gate_always_spec agent_id payload :
  respond (gate_always agent_id payload) = true <-> ~ directed_elsewhere agent_id payload.
Proof.
  unfold gate_always, directed_elsewhere.
  destruct (mentions_list payload) as [|v l] eqn:E; [simpl; naive_solver|].
  destruct (str_in agent_id (v :: l)) eqn:Ha; [apply str_in_elem in Ha; simpl; naive_solver|].
  destruct (str_in MENTION_EVERYONE (v :: l)) eqn:Hm; [apply str_in_elem in Hm; simpl; naive_solver|].
  rewrite <- !str_in_elem, Ha, Hm.
  destruct (directed_basis payload (v :: l)); simpl; naive_solver.
Qed.

Lemma gate_always_policy agent_id payload : policy (gate_always agent_id payload) = POLICY_ALWAYS.
Proof. unfold gate_always. by repeat case_match. Qed.

Lemma gate_always_floor agent_id payload :
  is_open_floor_admit (gate_always agent_id payload) = true <->
    mentions_list payload = []
    \/ ((VStr agent_id ∉ mentions_list payload)
        /\ (VStr MENTION_EVERYONE ∉ mentions_list payload)
        /\ directed_basis payload (mentions_list payload) = []).
Proof.
  unfold gate_always. destruct (mentions_list payload) as [|v l] eqn:E; [simpl; naive_solver|].
  rewrite <- !str_in_elem.
  destruct (str_in agent_id (v :: l)); [simpl; naive_solver|].
  destruct (str_in MENTION_EVERYONE (v :: l)); [simpl; naive_solver|].
  destruct (directed_basis payload (v :: l)); simpl; naive_solver.
Qed.

Lemma gate_when_mentioned_spec e agent_id payload :
  respond (gate_when_mentioned e agent_id payload) = true <-> addressed_to e agent_id payload.
Proof.
  unfold gate_when_mentioned, addressed_to. rewrite <- str_in_elem, <- v_eq_str_spec, <- truthy_true.
  destruct (str_in _ _); simpl; [naive_solver|].
  destruct (truthy _), (v_eq_str _ _); simpl; naive_solver.
Qed.

Lemma gate_when_mentioned_policy e agent_id payload :
  policy (gate_when_mentioned e agent_id payload) = POLICY_WHEN_MENTIONED.
Proof. unfold gate_when_mentioned. by repeat case_match. Qed.

Lemma is_open_floor_admit_spec d :
  is_open_floor_admit d = true <->
    respond d = true /\ policy d = POLICY_ALWAYS /\ reason d = "policy_always".
Proof.
  unfold is_open_floor_admit. rewrite !andb_true_iff, !bool_decide_eq_true. tauto.
Qed.

(** ** Properties *)

(** C35. The gate implements its contract on every event: the LLM may run exactly
    for a non-channel event, an event without a channel, or an ordinary message
    (not a close notification, not the agent's own echo) of a DM, of a
    participant who is not bypassed by a message directed elsewhere, or of a
    when-mentioned member who is addressed; a forced-turn marker overrides the
    last two conditions, and every other policy is refused. *)
Theorem gate_implements_contract e agent_id :
  respond (evaluate_response_gate e agent_id) = true <-> may_respond e agent_id.
Proof.
  unfold evaluate_response_gate, may_respond, stimulus. cbv zeta.
  set (payload := ev_payload e). set (pol := incoming_policy payload).
  case_bool_decide as Ht; simpl; [|intuition congruence].
  destruct (truthy (opt_str (channel_id e))) eqn:Hc; simpl;
    [apply truthy_true in Hc|apply truthy_false in Hc; intuition congruence].
  destruct (startswith DM_CHANNEL_PREFIX (opt_str (channel_id e))) eqn:Hdm.
  { unfold gate_dm, from_self. case_bool_decide; simpl; [intuition congruence|].
    destruct (is_close_notification payload); simpl; intuition congruence. }
  destruct (is_close_notification payload) eqn:Hcl; [simpl; intuition congruence|].
  unfold from_self. case_bool_decide as Hs; [simpl; intuition congruence|].
  assert (POLICY_NEVER <> POLICY_ALWAYS /\ POLICY_NEVER <> POLICY_WHEN_MENTIONED
          /\ POLICY_ALWAYS <> POLICY_WHEN_MENTIONED) as (N1 & N2 & N3) by done.
  case_bool_decide as Hn; simpl; [intuition congruence|].
  pose proof (forced_marker_spec payload pol) as Hf.
  destruct (forced_marker payload pol) as [m|].
  { simpl. assert (forced_turn payload) by (exists m; tauto). intuition congruence. }
  case_bool_decide as Ha.
  { rewrite gate_always_spec. intuition congruence. }
  case_bool_decide as Hw; [|simpl; intuition congruence].
  rewrite gate_when_mentioned_spec. intuition congruence.
Qed.

(** The metric label of a suppression is always one of six bounded values,
    whatever the wire carries, and a pass-through admit carries no label. *)
Theorem gate_label_bounded e agent_id :
  let d := evaluate_response_gate e agent_id in
  policy d ∈ [POLICY_ALWAYS; POLICY_WHEN_MENTIONED; POLICY_NEVER;
              POLICY_DEFENSE_IN_DEPTH; POLICY_UNKNOWN; ""]
  /\ (policy d = "" -> respond d = true
      /\ (event_type e <> CHANNEL_MESSAGE \/ opt_str (channel_id e) = "")).
Proof.
  cbv zeta. unfold evaluate_response_gate. cbv zeta.
  case_bool_decide as Ht; simpl; [|split; [set_solver|intuition congruence]].
  destruct (truthy (opt_str (channel_id e))) eqn:Hc; simpl;
    [|apply truthy_false in Hc; split; [set_solver|intuition congruence]].
  destruct (startswith _ _).
  { unfold gate_dm. repeat case_match; simpl; split; (set_solver || done). }
  destruct (is_close_notification _).
  { unfold gate_close. case_bool_decide as Hp; simpl; [|split; (set_solver || done)].
    split; [set_solver|]. intros Heq. rewrite Heq in Hp. set_solver. }
  destruct (from_self _ _); [simpl; split; (set_solver || done)|].
  case_bool_decide; [simpl; split; (set_solver || done)|].
  pose proof (forced_marker_spec (ev_payload e) (incoming_policy (ev_payload e))) as Hf.
  destruct (forced_marker _ _) as [m|]; simpl.
  { destruct Hf as (_ & _ & [-> | ->]); split; (set_solver || done). }
  case_bool_decide; [rewrite gate_always_policy; split; (set_solver || done)|].
  case_bool_decide; [rewrite gate_when_mentioned_policy; split; (set_solver || done)|].
  simpl. split; (set_solver || done).
Qed.

(** Control beats stimulus: on a channel message a close notification is
    refused under every policy and every spoofed marker, and so is any message
    the agent itself sent, in DMs and groups alike. *)
Theorem gate_never_answers_control e agent_id
    (Ht : event_type e = CHANNEL_MESSAGE) (Hc : opt_str (channel_id e) <> "")
    (Hcontrol : is_close_notification (ev_payload e) = true \/ sender_id e = Some agent_id) :
  respond (evaluate_response_gate e agent_id) = false.
Proof.
  apply not_true_iff_false. rewrite gate_implements_contract.
  unfold may_respond, stimulus. intros [? | [? | [[? ?] _]]]; intuition congruence.
Qed.

Lemma gate_never_answers_control_witness :
  let e := mkEvent CHANNEL_MESSAGE
             [("respond_policy", VStr "always"); ("convene", VBool true);
              ("interaction_close_notification", VBool true)]
             (Some "group:plan") (Some "alice") None None 0 [] in
  respond (evaluate_response_gate e "ember-owl") = false.
Proof. cbv zeta. apply gate_never_answers_control; [reflexivity|discriminate|left; reflexivity]. Defined.

(** The salience bid runs only on the ambiguous remainder: an admit is the
    open-floor one exactly when the message is an ordinary group message to a
    participant, carries no forced-turn marker, names neither the agent nor
    everyone, and names nobody who could take the floor. A directly addressed
    persona is never sent through the bias-to-silence bid. *)
Theorem open_floor_exact e agent_id :
  is_open_floor_admit (evaluate_response_gate e agent_id) = true <->
    event_type e = CHANNEL_MESSAGE /\ opt_str (channel_id e) <> ""
    /\ startswith DM_CHANNEL_PREFIX (opt_str (channel_id e)) = false
    /\ stimulus e agent_id
    /\ incoming_policy (ev_payload e) = POLICY_ALWAYS
    /\ ~ forced_turn (ev_payload e)
    /\ (mentions_list (ev_payload e) = []
        \/ ((VStr agent_id ∉ mentions_list (ev_payload e))
            /\ (VStr MENTION_EVERYONE ∉ mentions_list (ev_payload e))
            /\ directed_basis (ev_payload e) (mentions_list (ev_payload e)) = [])).
Proof.
  unfold evaluate_response_gate, stimulus. cbv zeta.
  set (payload := ev_payload e). set (pol := incoming_policy payload).
  assert (POLICY_NEVER <> POLICY_ALWAYS /\ POLICY_WHEN_MENTIONED <> POLICY_ALWAYS) as (N1 & N2) by done.
  case_bool_decide as Ht; simpl; [|rewrite is_open_floor_admit_spec; simpl; intuition congruence].
  destruct (truthy (opt_str (channel_id e))) eqn:Hc; simpl;
    [apply truthy_true in Hc
    |apply truthy_false in Hc; rewrite is_open_floor_admit_spec; simpl; intuition congruence].
  destruct (startswith DM_CHANNEL_PREFIX (opt_str (channel_id e))) eqn:Hdm.
  { unfold gate_dm. rewrite is_open_floor_admit_spec.
    repeat case_match; simpl; intuition congruence. }
  destruct (is_close_notification payload) eqn:Hcl.
  { rewrite is_open_floor_admit_spec. simpl. intuition congruence. }
  unfold from_self. case_bool_decide as Hs.
  { rewrite is_open_floor_admit_spec. simpl. intuition congruence. }
  case_bool_decide as Hn.
  { rewrite is_open_floor_admit_spec. simpl. intuition congruence. }
  pose proof (forced_marker_spec payload pol) as Hf.
  destruct (forced_marker payload pol) as [m|] eqn:Em.
  { assert (forced_turn payload) by (exists m; tauto).
    destruct Hf as (Hm & _ & _). rewrite is_open_floor_admit_spec. simpl. split; [|tauto].
    intros (_ & _ & ->). exfalso. revert Hm. unfold FORCED_TURN_MARKERS.
    rewrite !elem_of_cons, elem_of_nil. intuition congruence. }
  case_bool_decide as Ha.
  - rewrite gate_always_floor. tauto.
  - rewrite is_open_floor_admit_spec.
    case_bool_decide; [rewrite gate_when_mentioned_policy|]; simpl; intuition congruence.
Qed.
