(* ===== verification/MemoryEvents.v ===== *)
(** * Memory-write events and the bus

    Models [agents/memory/_events.py]: the event a successful memory write
    publishes and the synchronous in-process bus. *)

From S2P Require Import Prelude PyStr PyFloat.
Local Open Scope string_scope.

Inductive MemoryTier := Tepisodic | Tnotes | Treflection | Trelationship | Tfacts | Tcommitments.

Record MemoryWriteEvent := mkWrite {
  w_agent_id : string;
  tier : MemoryTier;
  salience : pyfloat;
  source_span_id : option string;
  written_at : Q;
}.

(** [__post_init__] on the salience field. *)
Definition clip_salience (s : pyfloat) : pyfloat :=
  if negb (isfinite s) then
    if isnan s || flt s (Fin 0) then Fin 0 else Fin 1
  else
    let clipped := py_max (Fin 0) (py_min (Fin 1) s) in
    if negb (feq clipped s) then clipped else s.

Definition MemoryWriteEvent_new (agent : string) (t : MemoryTier) (s : pyfloat)
    (span : option string) (at_ : Q) : MemoryWriteEvent :=
  mkWrite agent t (clip_salience s) span at_.

(** ** The bus

    A subscriber acts on a state [S] and may raise; it is identified by a
    number ([list.remove] compares subscribers). *)
Section bus.
Context {S : Type}.

Abbreviation subscriber := (nat * (MemoryWriteEvent -> S -> result string unit * S))%type.

Definition subscribe (sub : subscriber) (subs : list subscriber) : list subscriber :=
  (subs ++ [sub])%list.

(** [list.remove]: the first occurrence; absent is a no-op. *)
Fixpoint unsubscribe (id : nat) (subs : list subscriber) : list subscriber :=
  match subs with
  | [] => []
  | s :: subs => if decide (fst s = id) then subs else s :: unsubscribe id subs
  end.

(** Every subscriber of the snapshot runs, in order; an exception is swallowed. *)
Definition publish (subs : list subscriber) (e : MemoryWriteEvent) (st : S) : S :=
  fold_left (λ st s, snd (snd s e st)) subs st.
End bus.

(** ** Properties *)

(** Whatever a write site passes (NaN and infinities included), the salience
    stored on the event is a number in [0, 1], and a value already in the range
    is kept. *)
Theorem salience_clipped agent t s span at_ :
  exists q, salience (MemoryWriteEvent_new agent t s span at_) = Fin q
    /\ (0 <= q <= 1)%Q
    /\ (forall x, s = Fin x -> (0 <= x <= 1)%Q -> q = x).
Proof.
  simpl. destruct s as [x| | |]; unfold clip_salience; simpl;
    [|eexists; split; [done|]; split; [lra|done]..].
  unfold py_min, py_max. simpl.
  destruct (Qltb x 1) eqn:E1; simpl; [destruct (Qltb 0 x) eqn:E0|]; simpl; q_props.
  - assert (Qeq_bool x x = true) as -> by by apply Qeq_bool_iff.
    exists x. split; [done|]. split; [lra|]. by intros ? [= ->].
  - destruct (Qeq_bool 0 x) eqn:E; simpl.
    + apply Qeq_bool_iff in E. exists x. split; [done|]. split; [lra|]. by intros ? [= ->].
    + apply Qeq_bool_neq in E. exists 0%Q. split; [done|]. split; [lra|].
      intros y [= ->] Hy. exfalso. apply E. lra.
  - destruct (Qeq_bool 1 x) eqn:E; simpl.
    + apply Qeq_bool_iff in E. exists x. split; [done|]. split; [lra|]. by intros ? [= ->].
    + apply Qeq_bool_neq in E. exists 1%Q. split; [done|]. split; [lra|].
      intros y [= ->] Hy. exfalso. apply E. lra.
Qed.
