(* ===== verification/SalienceWakes.v ===== *)
(** * The salience subscriber of an event loop

    Models [agents/event_loop_salience.py]: the bus subscriber that turns a
    memory write of its own agent into a [SalienceWake], behind a threshold, a
    loop-back guard and a sliding-window rate cap. *)

From S2P Require Import Prelude PyStr PyFloat MemoryEvents.
From Stdlib Require Import Sorting.Sorted.
Local Open Scope string_scope.

Definition REASON_BELOW := "below_threshold".
Definition REASON_LOOPBACK := "loopback".
Definition REASON_RATE_LIMIT := "rate_limit".
Definition REASON_NONE := "none".
Definition REASON_QUEUE_FULL := "queue_full".

Record Subscriber := mkSubscriber {
  s_agent_id : string;
  threshold : pyfloat;
  rate_max : Z;
  recent : list Q;        (* the deque of attempt times, oldest first *)
}.

Definition set_recent (r : list Q) (s : Subscriber) : Subscriber :=
  mkSubscriber (s_agent_id s) (threshold s) (rate_max s) r.

(** [while self._recent and self._recent[0] < cutoff: self._recent.popleft()] *)
Fixpoint pop_before (cutoff : Q) (r : list Q) : list Q :=
  match r with
  | t :: r' => if Qltb t cutoff then pop_before cutoff r' else r
  | [] => []
  end.

Section subscriber.
(** The substrate: [EventLoop.enqueue] of a [SalienceWake]. *)
Context {L : Type} (enqueue : MemoryWriteEvent -> L -> bool * L).

(** The span guard: both sides present and equal. *)
Definition loopback (e : MemoryWriteEvent) (active : option string) : bool :=
  match source_span_id e, active with
  | Some a, Some b => bool_decide (a = b)
  | _, _ => false
  end.

(** [_decide]: the reason, the subscriber and the loop after the call. *)
Definition decide_wake (s : Subscriber) (l : L) (e : MemoryWriteEvent) (now : Q)
    (active : option string) : string * Subscriber * L :=
  if negb (flt (threshold s) (salience e)) then (REASON_BELOW, s, l)
  else if loopback e active then (REASON_LOOPBACK, s, l)
  else
    let s := set_recent (pop_before (now - 1) (recent s)) s in
    if (rate_max s <=? Z.of_nat (length (recent s)))%Z then (REASON_RATE_LIMIT, s, l)
    else
      let s := set_recent (recent s ++ [now])%list s in
      let '(accepted, l) := enqueue e l in
      (if accepted then REASON_NONE else REASON_QUEUE_FULL, s, l).

(** [__call__]: [None] for another agent's write, else the recorded reason. *)
Definition on_write (s : Subscriber) (l : L) (e : MemoryWriteEvent) (now : Q)
    (active : option string) : option string * Subscriber * L :=
  if bool_decide (w_agent_id e = s_agent_id s) then
    let '(r, s, l) := decide_wake s l e now active in (Some r, s, l)
  else (None, s, l).

(** A history of writes, each with the clock reading and the active span; the
    log pairs each clock reading with the recorded reason. *)
Definition write_call := (MemoryWriteEvent * Q * option string)%type.

Fixpoint run_writes (s : Subscriber) (l : L) (calls : list write_call)
    : list (Q * option string) * Subscriber * L :=
  match calls with
  | [] => ([], s, l)
  | (e, now, active) :: calls =>
      let '(r, s, l) := on_write s l e now active in
      let '(log, s, l) := run_writes s l calls in
      ((now, r) :: log, s, l)
  end.

(** The enqueue attempts of a log. *)
Definition is_attempt (r : option string) : bool :=
  match r with
  | Some r => bool_decide (r = REASON_NONE) || bool_decide (r = REASON_QUEUE_FULL)
  | None => false
  end.

Definition attempts (log : list (Q * option string)) : list Q :=
  map fst (filter (λ p, is_attempt p.2 = true) log).

(** How many of [ts] fall in the one-second window ending at [t]. *)
Definition in_window (t a : Q) : bool := Qle_bool (t - 1) a && Qle_bool a t.
Definition window_count (t : Q) (ts : list Q) : Z :=
  Z.of_nat (length (filter (λ a, in_window t a = true) ts)).

(** The clock does not go backwards. *)
Definition monotone_clock (calls : list write_call) : Prop :=
  StronglySorted Qle (map (λ c, c.1.2) calls).

(** ** Lemmas *)

Lemma pop_before_app cutoff r :
  exists dropped, r = (dropped ++ pop_before cutoff r)%list
    /\ Forall (λ a, a < cutoff)%Q dropped.
Proof.
  induction r as [|t r (d & Heq & Hd)]; simpl.
  - by exists [].
  - destruct (Qltb t cutoff) eqn:E.
    + exists (t :: d). split; [simpl; by rewrite <- Heq|].
      constructor; [by apply Qltb_lt|done].
    + by exists [].
Qed.

(** What the deque says of the attempts so far: older attempts were dropped
    because they left the window. *)
Definition deque_inv (last : Q) (past : list Q) (r : list Q) : Prop :=
  exists dropped, past = (dropped ++ r)%list /\ Forall (λ a, a < last - 1)%Q dropped.

Definition capped (m : Z) (ts : list Q) : Prop :=
  forall t, (window_count t ts <= Z.max 0 m)%Z.

Lemma window_count_snoc_lt t ts now : (t < now \/ now < t - 1)%Q -> window_count t (ts ++ [now]) = window_count t ts.
Proof.
  intros H. unfold window_count. rewrite filter_app, filter_cons, filter_nil.
  rewrite decide_False; [by rewrite app_nil_r|].
  unfold in_window. rewrite andb_true_iff, !Qle_bool_iff. lra.
Qed.

Lemma window_count_dropped t now dropped r :
  Forall (λ a, a < now - 1)%Q dropped -> (now <= t)%Q ->
  (window_count t (dropped ++ r) <= Z.of_nat (length r))%Z.
Proof.
  intros Hd Ht. unfold window_count. rewrite filter_app, length_app.
  assert (filter (λ a, in_window t a = true) dropped = []) as ->.
  { clear -Hd Ht. induction Hd as [|a d Ha _ IH]; [done|].
    rewrite filter_cons, decide_False; [done|].
    unfold in_window. rewrite andb_true_iff, !Qle_bool_iff. lra. }
  simpl. pose proof (length_filter (λ a, in_window t a = true) r). lia.
Qed.

(** One attempt keeps the cap: within the window of the new instant only the
    entries still in the deque count, and there are fewer than the cap. *)
Lemma capped_attempt m now dropped r :
  capped m (dropped ++ r) -> Forall (λ a, a < now - 1)%Q dropped ->
  (Z.of_nat (length r) < m)%Z ->
  capped m ((dropped ++ r) ++ [now]).
Proof.
  intros Hc Hd Hlen t. destruct (Qlt_le_dec t now) as [Hlt|Hge].
  - rewrite window_count_snoc_lt by auto. apply Hc.
  - pose proof (window_count_dropped t now dropped r Hd Hge) as Hw.
    assert (window_count t ((dropped ++ r) ++ [now]) <= window_count t (dropped ++ r) + 1)%Z as H1.
    { unfold window_count. rewrite filter_app, length_app.
      pose proof (length_filter (λ a, in_window t a = true) [now]). simpl in *. lia. }
    lia.
Qed.

Lemma attempts_cons now r log :
  attempts ((now, r) :: log) = if is_attempt r then now :: attempts log else attempts log.
Proof. unfold attempts. rewrite filter_cons. simpl. by destruct (is_attempt r). Qed.

(** One call: the deque invariant moves to the new instant, and the cap holds of
    the attempts including this one. *)
Lemma on_write_inv s l e now active last past :
  (last <= now)%Q -> deque_inv last past (recent s) -> capped (rate_max s) past ->
  let '(r, s', _) := on_write s l e now active in
  let past' := if is_attempt r then (past ++ [now])%list else past in
  rate_max s' = rate_max s /\ deque_inv now past' (recent s') /\ capped (rate_max s) past'.
Proof.
  intros Hle (dropped & -> & Hd) Hcap.
  assert (Forall (λ a, a < now - 1)%Q dropped) as Hd'.
  { eapply Forall_impl; [exact Hd|]. simpl. intros. lra. }
  assert (deque_inv now (dropped ++ recent s) (recent s)) as Hkeep by by exists dropped.
  unfold on_write, decide_wake.
  case_bool_decide; [|done]. destruct (negb _); [done|]. destruct (loopback e active); [done|].
  destruct (pop_before_app (now - 1) (recent s)) as (d2 & Hr & Hd2).
  set (r' := pop_before (now - 1) (recent s)) in *. simpl.
  assert (Forall (λ a, a < now - 1)%Q (dropped ++ d2)) as Hall by by apply Forall_app.
  assert (dropped ++ recent s = (dropped ++ d2) ++ r')%list as Hsplit
    by (rewrite <- app_assoc, <- Hr; done).
  destruct (rate_max s <=? Z.of_nat (length r'))%Z eqn:Hlim; simpl.
  - split_and!; [done| |done]. exists (dropped ++ d2)%list. done.
  - destruct (enqueue e l) as [accepted l']. simpl.
    assert (is_attempt (Some (if accepted then REASON_NONE else REASON_QUEUE_FULL)) = true)
      as Hatt by by destruct accepted.
    simpl in Hatt. rewrite Hatt, Hsplit. split_and!; [done| |].
    + exists (dropped ++ d2)%list. by rewrite <- app_assoc.
    + apply capped_attempt; [by rewrite <- Hsplit|done|lia].
Qed.

(** ** Properties *)

(** The rate cap is a true sliding-window bound: whatever the writes, the
    spans, the thresholds and the queue do, as long as the clock does not go
    backwards no one-second window contains more enqueue attempts of the agent
    than the configured cap (none at all for a non-positive cap). *)
Theorem salience_rate_capped s l calls
    (Hempty : recent s = []) (Hclock : monotone_clock calls) :
  let '(log, _, _) := run_writes s l calls in
  forall t, (window_count t (attempts log) <= Z.max 0 (rate_max s))%Z.
Proof.
  assert (forall last past s l,
    Forall (λ c, last <= c.1.2)%Q calls -> monotone_clock calls ->
    deque_inv last past (recent s) -> capped (rate_max s) past ->
    let '(log, _, _) := run_writes s l calls in
    capped (rate_max s) (past ++ attempts log)) as Hgen.
  { clear s l Hempty Hclock.
    induction calls as [|[[e now] active] calls IH]; intros last past s l Hlast Hmono Hinv Hcap; simpl.
    { by rewrite app_nil_r. }
    apply Forall_cons in Hlast as [Hle _]. apply StronglySorted_inv in Hmono as [Hmono Hnow].
    pose proof (on_write_inv s l e now active last past Hle Hinv Hcap) as H.
    destruct (on_write s l e now active) as [[r s'] l'].
    destruct H as (Hm & Hinv' & Hcap').
    assert (Forall (λ c, now <= c.1.2)%Q calls) as Hnow'.
    { apply Forall_forall. intros c Hc. simpl in Hnow. rewrite List.Forall_forall in Hnow.
      apply Hnow, in_map_iff. exists c. split; [done|by apply list_elem_of_In]. }
    specialize (IH now (if is_attempt r then past ++ [now] else past)%list s' l' Hnow' Hmono Hinv').
    destruct (run_writes s' l' calls) as [[log s''] l''].
    rewrite attempts_cons. rewrite Hm in IH. specialize (IH Hcap').
    destruct (is_attempt r); [|done]. by rewrite <- app_assoc in IH. }
  destruct calls as [|c calls']; [simpl; intros t; unfold window_count; simpl; lia|].
  assert (Forall (λ d, c.1.2 <= d.1.2)%Q (c :: calls')) as Hfirst.
  { apply StronglySorted_inv in Hclock as [_ Hn]. constructor; [apply Qle_refl|].
    apply Forall_forall. intros d Hd. rewrite List.Forall_forall in Hn.
    apply Hn, in_map_iff. exists d. split; [done|by apply list_elem_of_In]. }
  assert (deque_inv c.1.2 [] (recent s)) as H0 by (exists []; by rewrite Hempty).
  specialize (Hgen c.1.2 [] s l Hfirst Hclock H0).
  destruct (run_writes s l (c :: calls')) as [[log s'] l']. apply Hgen.
  intros t. unfold window_count. simpl. lia.
Qed.
End subscriber.

Lemma salience_rate_capped_witness :
  let e := mkWrite "owl" Tfacts (Fin (99 # 100)) None 0 in
  let s := mkSubscriber "owl" (Fin (95 # 100)) 2 [] in
  let calls : list write_call := [(e, 0, None); (e, 1 # 2, None); (e, 1, None); (e, 3 # 2, None)]%Q in
  let enq := λ (_ : MemoryWriteEvent) (n : nat), (true, S n) in
  run_writes enq s 0%nat calls
    = ([(0, Some "none"); (1 # 2, Some "none"); (1, Some "rate_limit"); (3 # 2, Some "none")]%Q,
       mkSubscriber "owl" (Fin (95 # 100)) 2 [(1 # 2)%Q; (3 # 2)%Q], 3%nat)
  /\ (let '(log, _, _) := run_writes enq s 0%nat calls in
      forall t, (window_count t (attempts log) <= Z.max 0 2)%Z).
Proof.
  cbv zeta. split; [vm_compute; reflexivity|].
  apply (salience_rate_capped (λ (_ : MemoryWriteEvent) (n : nat), (true, S n))
           (mkSubscriber "owl" (Fin (95 # 100)) 2 [])); [reflexivity|].
  unfold monotone_clock. simpl. repeat constructor; unfold Qle; simpl; discriminate.
Defined.
