(* ===== verification/EventLoop.v ===== *)
(** * The per-agent event loop

    Models [agents/event_loop.py], [agents/event_loop_types.py] and
    [agents/event_loop_lifecycle.py]: one bounded FIFO of wakes, one supervisor
    task, detached resolver tasks for reentrant dispatches, and the two-phase
    [stop]. Tasks interleave at their [await]s, so the program is a step
    relation whose atomic actions are the code between two awaits; the agent's
    callbacks are the environment, which picks when a handler ends and how. *)

From S2P Require Import Prelude PyStr PyDict PyValue PersonaEvents MemoryEvents.
Local Open Scope string_scope.

(** ** [event_loop_types.py] *)

(** A [SyncDispatchHandle] is a future; [hid] addresses it. *)
Abbreviation hid := nat.

Inductive future :=
| Pending
| Result (actions : list AgentAction)
| Failed (exc : string)
| CancelledFuture.

Inductive wake :=
| InboundEventWake (event : AgentEvent) (handle : option hid)
| ScheduledWake (timer_id callback_kind : string)
| SalienceWake (write_event : option MemoryWriteEvent)
| StopSentinel.

Definition done_ (f : future) : bool := match f with Pending => false | _ => true end.

(** [resolve] and [reject]: a settled future is left alone. *)
Definition settle (v : future) (f : future) : future := if done_ f then f else v.

(** ** [event_loop.py]: the state *)

(** [self._task]: absent, about to test [_stopped], blocked in [queue.get()],
    running a handler, or done. *)
Inductive supervisor :=
| NoTask | Ready | Waiting | Handling (w : wake) | Finished.

(** A resolver task: created, inside the [try] of its [_resolve], or cancelled
    before its first step. A task cancelled then never enters its body: asyncio
    throws the cancellation into a coroutine that has not started. *)
Inductive resolver_phase := Created | Entered | Doomed.

#[export] Instance resolver_phase_eq : EqDecision resolver_phase.
Proof. solve_decision. Defined.

Record resolver := mkResolver { rs_event : AgentEvent; rs_handle : hid; rs_phase : resolver_phase }.

(** Where a [stop()] in progress is suspended. *)
Inductive stop_phase := NotStopping | AwaitReentrant | AwaitSupervisor.

Record Loop := mkLoop {
  queue : list wake;
  maxsize : Z;                             (* 0 or less: unbounded *)
  stopped : bool;                          (* [self._stopped] *)
  sup : supervisor;
  stopping : stop_phase;
  handles : list future;                   (* every handle created *)
  reentrant : list resolver;               (* [self._reentrant_tasks] *)
  dropped_count : Z;
  last_queue_full_log : option Q;
  warnings : list Q;                       (* emitted queue-full warnings *)
  counters : list string;
}.

Definition new_loop (queue_size : Z) : Loop :=
  mkLoop [] queue_size false NoTask NotStopping [] [] 0 None [] [].

Definition set_queue q l := mkLoop q (maxsize l) (stopped l) (sup l) (stopping l) (handles l)
  (reentrant l) (dropped_count l) (last_queue_full_log l) (warnings l) (counters l).
Definition set_stopped b l := mkLoop (queue l) (maxsize l) b (sup l) (stopping l) (handles l)
  (reentrant l) (dropped_count l) (last_queue_full_log l) (warnings l) (counters l).
Definition set_sup s l := mkLoop (queue l) (maxsize l) (stopped l) s (stopping l) (handles l)
  (reentrant l) (dropped_count l) (last_queue_full_log l) (warnings l) (counters l).
Definition set_stopping p l := mkLoop (queue l) (maxsize l) (stopped l) (sup l) p (handles l)
  (reentrant l) (dropped_count l) (last_queue_full_log l) (warnings l) (counters l).
Definition set_handles h l := mkLoop (queue l) (maxsize l) (stopped l) (sup l) (stopping l) h
  (reentrant l) (dropped_count l) (last_queue_full_log l) (warnings l) (counters l).
Definition set_reentrant r l := mkLoop (queue l) (maxsize l) (stopped l) (sup l) (stopping l)
  (handles l) r (dropped_count l) (last_queue_full_log l) (warnings l) (counters l).
Definition set_log d t ws l := mkLoop (queue l) (maxsize l) (stopped l) (sup l) (stopping l)
  (handles l) (reentrant l) d t ws (counters l).
Definition count_wake c l := mkLoop (queue l) (maxsize l) (stopped l) (sup l) (stopping l)
  (handles l) (reentrant l) (dropped_count l) (last_queue_full_log l) (warnings l)
  (counters l ++ [c])%list.

Definition settle_handle (h : hid) (v : future) (l : Loop) : Loop :=
  set_handles (alter (settle v) h (handles l)) l.

Definition settle_opt (oh : option hid) (v : future) (l : Loop) : Loop :=
  match oh with Some h => settle_handle h v l | None => l end.

Definition wake_handle (w : wake) : option hid :=
  match w with InboundEventWake _ h => h | _ => None end.

(** ** [event_loop_lifecycle.py] *)

(** Who calls [enqueue]: this loop's supervisor task, another task, a plain
    loop callback (no current task), or code outside any running loop. *)
Inductive caller := FromSupervisor | FromTask | FromCallback | NoRunningLoop.

(** [asyncio.current_task() is self._task] *)
Definition in_supervisor (l : Loop) (c : caller) : bool :=
  match c with
  | FromSupervisor => true
  | FromTask | NoRunningLoop => false
  | FromCallback => match sup l with NoTask => true | _ => false end
  end.

Definition spawn_reentrant (e : AgentEvent) (h : hid) (l : Loop) : Loop :=
  set_reentrant (reentrant l ++ [mkResolver e h Created])%list (count_wake "wake_inbound" l).

Definition QUEUE_FULL_LOG_INTERVAL_S : Q := 60.

Definition log_queue_full (now : Q) (l : Loop) : Loop :=
  match last_queue_full_log l with
  | Some last =>
      if Qltb (now - last) QUEUE_FULL_LOG_INTERVAL_S then l
      else set_log (dropped_count l) (Some now) (warnings l ++ [now])%list l
  | None => set_log (dropped_count l) (Some now) (warnings l ++ [now])%list l
  end.

(** [_drain_pending_handles]: every queued wake leaves; handle-bearing ones are
    settled with the empty action list. *)
Definition drain_pending_handles (l : Loop) : Loop :=
  set_queue [] (fold_left (λ l w, settle_opt (wake_handle w) (Result []) l) (queue l) l).

(** ** [event_loop.py]: the operations *)

Definition queue_full (l : Loop) : bool :=
  (0 <? maxsize l)%Z && (maxsize l <=? Z.of_nat (length (queue l)))%Z.

(** [put_nowait] with its [QueueFull] branch. *)
Definition put_or_drop (now : Q) (w : wake) (l : Loop) : bool * Loop :=
  if queue_full l then
    (false, count_wake "wake_dropped" (log_queue_full now
              (set_log (dropped_count l + 1)%Z (last_queue_full_log l) (warnings l) l)))
  else (true, set_queue (queue l ++ [w])%list l).

(** [enqueue(wake)], with the monotonic clock reading for the log throttle. *)
Definition enqueue (c : caller) (now : Q) (w : wake) (l : Loop) : bool * Loop :=
  if stopped l then (false, settle_opt (wake_handle w) (Result []) l)
  else match w with
       | InboundEventWake e (Some h) =>
           if in_supervisor l c then (true, spawn_reentrant e h l) else put_or_drop now w l
       | _ => put_or_drop now w l
       end.

(** [SyncDispatchHandle()] then [enqueue(InboundEventWake(event, handle))], as
    [EventDispatcher.dispatch] does; the handle is returned. *)
Definition submit (c : caller) (now : Q) (e : AgentEvent) (l : Loop) : hid * bool * Loop :=
  let h := length (handles l) in
  let '(ok, l) := enqueue c now (InboundEventWake e (Some h))
                    (set_handles (handles l ++ [Pending])%list l) in
  (h, ok, l).

Definition is_running (l : Loop) : bool :=
  match sup l with NoTask | Finished => false | _ => true end.

Definition start (l : Loop) : Loop :=
  if is_running l then l else set_sup Ready (set_stopped false l).

(** [_run], from one [await] to the next: the loop test, the wake-up of the
    blocked [get], and the end of a handler. *)
Definition sup_check (l : Loop) : Loop :=
  set_sup (if stopped l then Finished else Waiting) l.

Definition sup_take (l : Loop) : option Loop :=
  match queue l with
  | [] => None
  | StopSentinel :: q => Some (set_sup Finished (set_queue q l))
  | w :: q => Some (set_sup (Handling w) (set_queue q l))
  end.

(** How a callback ends. *)
Inductive outcome := Returned (actions : list AgentAction) | Raised (exc : string) | Cancelled.

(** [_handle_wake_supervised] around [_handle_wake]: the future a handle gets. *)
Definition outcome_value (o : outcome) : future :=
  match o with
  | Returned actions => Result actions
  | Raised exc => Failed exc
  | Cancelled => Result []
  end.

Definition wake_counter (w : wake) (l : Loop) : Loop :=
  match w with
  | InboundEventWake _ _ => count_wake "wake_inbound" l
  | ScheduledWake _ _ => count_wake "wake_scheduled" l
  | _ => l
  end.

Definition sup_finish (w : wake) (o : outcome) (l : Loop) : Loop :=
  let l := settle_opt (wake_handle w) (outcome_value o) (wake_counter w l) in
  set_sup (match o with Cancelled => Finished | _ => Ready end) l.

(** Cancellation of the supervisor outside a handler. *)
Definition sup_cancel (l : Loop) : Loop := set_sup Finished l.

(** A detached resolver task ([_spawn_reentrant._resolve]): its first step, its
    end once inside, and the end of one cancelled before its first step, which
    leaves the handle as it is; the done-callback discards the task. *)
Definition reentrant_enter (i : nat) (l : Loop) : Loop :=
  set_reentrant (alter (λ r, mkResolver (rs_event r) (rs_handle r) Entered) i (reentrant l)) l.

Definition reentrant_finish (i : nat) (o : outcome) (l : Loop) : Loop :=
  match reentrant l !! i with
  | Some r =>
      settle_handle (rs_handle r) (outcome_value o) (set_reentrant (delete i (reentrant l)) l)
  | None => l
  end.

Definition reentrant_discard (i : nat) (l : Loop) : Loop := set_reentrant (delete i (reentrant l)) l.

(** [task.cancel()] of a resolver: one that has entered its body gets the
    cancellation at its await, and ends as its handler lets it. *)
Definition cancel_resolver (r : resolver) : resolver :=
  match rs_phase r with
  | Created => mkResolver (rs_event r) (rs_handle r) Doomed
  | _ => r
  end.

(** The handles of the resolvers that have not started. *)
Definition unstarted (l : Loop) : list hid :=
  map rs_handle (filter (λ r, rs_phase r = Created) (reentrant l)).

(** [stop()] up to its first await, between its awaits, and its tail. *)
Definition stop_begin (l : Loop) : Loop :=
  set_stopping AwaitReentrant (set_reentrant (map cancel_resolver (reentrant l)) (set_stopped true l)).

Definition stop_poison (l : Loop) : Loop :=
  let l := set_stopping AwaitSupervisor l in
  if is_running l && negb (queue_full l) then set_queue (queue l ++ [StopSentinel])%list l else l.

Definition stop_finish (l : Loop) : Loop :=
  set_sup NoTask (set_stopping NotStopping (drain_pending_handles l)).

(** ** The step relation *)

Inductive label :=
| Accepted (w : wake)             (* entered the queue *)
| Taken (w : wake)                (* left it for the supervisor *)
| Drained (ws : list wake)        (* left it at the end of [stop] *)
| Refused (h : hid)               (* [enqueue] returned [False] to the caller *)
| Stopping (hs : list hid)        (* [stop] cancelled the resolvers of [hs] unstarted *)
| Silent.

Definition accepted_label (l l' : Loop) (w : wake) : label :=
  if bool_decide (length (queue l) < length (queue l'))%nat then Accepted w else Silent.

(** A handler may end in any way, cancellation included; a reentrant resolver
    may outlive [stop], whose wait for it is bounded. *)
Inductive lstep : Loop -> label -> Loop -> Prop :=
| step_submit c now e l h ok l' :
    (c = FromSupervisor -> exists w, sup l = Handling w) ->
    submit c now e l = (h, ok, l') ->
    lstep l (if ok then accepted_label l l' (InboundEventWake e (Some h)) else Refused h) l'
| step_enqueue c now w l ok l' :
    wake_handle w = None -> w <> StopSentinel -> enqueue c now w l = (ok, l') ->
    lstep l (accepted_label l l' w) l'
| step_start l : stopping l = NotStopping -> lstep l Silent (start l)
| step_check l : sup l = Ready -> lstep l Silent (sup_check l)
| step_take l w q l' :
    sup l = Waiting -> queue l = w :: q -> sup_take l = Some l' -> lstep l (Taken w) l'
| step_finish l w o : sup l = Handling w -> lstep l Silent (sup_finish w o l)
| step_cancel l : sup l = Ready \/ sup l = Waiting -> lstep l Silent (sup_cancel l)
| step_enter l i r :
    reentrant l !! i = Some r -> rs_phase r = Created -> lstep l Silent (reentrant_enter i l)
| step_reentrant l i r o :
    reentrant l !! i = Some r -> rs_phase r = Entered -> lstep l Silent (reentrant_finish i o l)
| step_doomed l i r :
    reentrant l !! i = Some r -> rs_phase r = Doomed -> lstep l Silent (reentrant_discard i l)
| step_waiter_cancel l h :                       (* an external [wait_for] *)
    lstep l Silent (settle_handle h CancelledFuture l)
| step_stop l : stopping l = NotStopping -> lstep l (Stopping (unstarted l)) (stop_begin l)
| step_poison l :
    stopping l = AwaitReentrant ->
    lstep l (accepted_label l (stop_poison l) StopSentinel) (stop_poison l)
| step_stopped l :
    stopping l = AwaitSupervisor -> is_running l = false ->
    lstep l (Drained (queue l)) (stop_finish l).

(** A run with its trace of queue events. *)
Inductive run : Loop -> list label -> Loop -> Prop :=
| run_nil l : run l [] l
| run_snoc l tr l1 lab l2 : run l tr l1 -> lstep l1 lab l2 -> run l (tr ++ [lab])%list l2.

Definition entered (tr : list label) : list wake :=
  concat (map (λ lab, match lab with Accepted w => [w] | _ => [] end) tr).
Definition left_queue (tr : list label) : list wake :=
  concat (map (λ lab, match lab with Taken w => [w] | Drained ws => ws | _ => [] end) tr).

(** Who will settle a pending handle. *)
Definition owned (l : Loop) (h : hid) : Prop :=
  (exists w, w ∈ queue l /\ wake_handle w = Some h) \/
  (exists w, sup l = Handling w /\ wake_handle w = Some h) \/
  (exists r, r ∈ reentrant l /\ rs_handle r = h /\ rs_phase r <> Doomed).
