(* ===== verification/EventLoopProps.v ===== *)
(** * Correctness of the event loop

    The wake queue is a bounded FIFO, a handle is settled once and orphaned only
    where [stop] cancels its resolver before the first step, and [stop] always
    reaches its end. *)

From S2P Require Import Prelude PyStr PyDict PyValue PersonaEvents MemoryEvents EventLoop.
Local Open Scope string_scope.
Arguments sup_finish : simpl never.
Arguments start : simpl never.
Arguments reentrant_finish : simpl never.
Arguments stop_poison : simpl never.
Arguments settle_opt : simpl never.
Arguments stop_finish : simpl never.
Arguments put_or_drop : simpl never.

(** ** What each operation changes *)

Lemma settle_done v f : done_ f = true -> settle v f = f.
Proof. unfold settle. by intros ->. Qed.

Lemma settle_opt_frame oh v l :
  queue (settle_opt oh v l) = queue l /\ sup (settle_opt oh v l) = sup l /\
  stopped (settle_opt oh v l) = stopped l /\ stopping (settle_opt oh v l) = stopping l /\
  reentrant (settle_opt oh v l) = reentrant l /\ maxsize (settle_opt oh v l) = maxsize l /\
  counters (settle_opt oh v l) = counters l /\ warnings (settle_opt oh v l) = warnings l /\
  dropped_count (settle_opt oh v l) = dropped_count l /\
  last_queue_full_log (settle_opt oh v l) = last_queue_full_log l.
Proof. by destruct oh. Qed.

Lemma settle_opt_lookup oh v l h :
  handles (settle_opt oh v l) !! h =
    if decide (oh = Some h) then settle v <$> handles l !! h else handles l !! h.
Proof.
  destruct oh as [k|]; simpl; [|done]. case_decide as E.
  - simplify_eq. apply list_lookup_alter_eq.
  - apply list_lookup_alter_ne. congruence.
Qed.

Lemma log_queue_full_frame now l :
  queue (log_queue_full now l) = queue l /\ sup (log_queue_full now l) = sup l /\
  stopped (log_queue_full now l) = stopped l /\ stopping (log_queue_full now l) = stopping l /\
  reentrant (log_queue_full now l) = reentrant l /\ maxsize (log_queue_full now l) = maxsize l /\
  handles (log_queue_full now l) = handles l /\ counters (log_queue_full now l) = counters l /\
  dropped_count (log_queue_full now l) = dropped_count l.
Proof.
  unfold log_queue_full. destruct (last_queue_full_log l); [|done]. by destruct (Qltb _ _).
Qed.

(** The drain as a fold over the queued wakes. *)
Lemma drain_fold ws l :
  let l' := fold_left (λ l w, settle_opt (wake_handle w) (Result []) l) ws l in
  (sup l' = sup l /\ stopped l' = stopped l /\ stopping l' = stopping l /\
   reentrant l' = reentrant l /\ maxsize l' = maxsize l /\ counters l' = counters l /\
   warnings l' = warnings l /\ dropped_count l' = dropped_count l /\
   last_queue_full_log l' = last_queue_full_log l) /\
  length (handles l') = length (handles l) /\
  (forall h, handles l' !! h = Some Pending ->
     handles l !! h = Some Pending /\ forall w, w ∈ ws -> wake_handle w <> Some h) /\
  (forall h f, handles l !! h = Some f -> done_ f = true -> handles l' !! h = Some f).
Proof.
  revert l. induction ws as [|w ws IH]; intros l; simpl.
  { repeat split; try done. intros w Hw. by apply not_elem_of_nil in Hw. }
  destruct (IH (settle_opt (wake_handle w) (Result []) l)) as (F & Hlen & Hp & Hd).
  pose proof (settle_opt_frame (wake_handle w) (Result []) l) as G.
  split; [|split; [|split]].
  - intuition congruence.
  - rewrite Hlen. destruct (wake_handle w); simpl; [apply length_alter|done].
  - intros h Hh. apply Hp in Hh as [Hh Hn]. rewrite settle_opt_lookup in Hh.
    case_decide as E.
    + destruct (handles l !! h) as [[]|]; simpl in Hh; discriminate.
    + split; [done|]. intros w' [->|Hw]%elem_of_cons; auto.
  - intros h f Hh Hf. apply Hd; [|done]. rewrite settle_opt_lookup.
    case_decide; [|done]. rewrite Hh. simpl. by rewrite settle_done.
Qed.

Lemma put_or_drop_spec now w l ok l' :
  put_or_drop now w l = (ok, l') ->
  (queue_full l = true /\ ok = false /\ queue l' = queue l /\ handles l' = handles l /\
   counters l' = (counters l ++ ["wake_dropped"])%list /\
   dropped_count l' = (dropped_count l + 1)%Z /\
   sup l' = sup l /\ stopped l' = stopped l /\ stopping l' = stopping l /\
   reentrant l' = reentrant l /\ maxsize l' = maxsize l) \/
  (queue_full l = false /\ ok = true /\ l' = set_queue (queue l ++ [w])%list l).
Proof.
  unfold put_or_drop. destruct (queue_full l) eqn:E; intros [= <- <-]; [left|by right].
  match goal with |- context [log_queue_full now ?m] =>
    pose proof (log_queue_full_frame now m) end.
  simpl in *. intuition congruence.
Qed.

Lemma enqueue_spec c now w l ok l' :
  enqueue c now w l = (ok, l') ->
  (stopped l = true /\ ok = false /\ l' = settle_opt (wake_handle w) (Result []) l) \/
  (stopped l = false /\ ok = true /\ in_supervisor l c = true /\
   exists e h, w = InboundEventWake e (Some h) /\ l' = spawn_reentrant e h l) \/
  (stopped l = false /\ put_or_drop now w l = (ok, l')).
Proof.
  unfold enqueue. destruct (stopped l); [intros [= <- <-]; auto|].
  destruct w as [e [h|]| | | ]; eauto.
  destruct (in_supervisor l c) eqn:E; [intros [= <- <-]; right; left; eauto 10|eauto].
Qed.

(** Splits a step into its cases, with [enqueue] and [submit] unfolded. *)
Ltac lstep_cases H :=
  inversion H; subst; clear H;
  repeat match goal with
  | E : submit ?c ?n ?e ?l = _ |- _ =>
      unfold submit in E; destruct (enqueue c n _ _) eqn:?; simplify_eq
  | E : enqueue _ _ _ _ = _ |- _ =>
      apply enqueue_spec in E as [(?&->&->)|[(?&->&?&?&?&?&->)|(?&E)]]; simplify_eq
  | E : put_or_drop _ _ _ _ = _ |- _ =>
      apply put_or_drop_spec in E as [(?&->&?&?&?&?&?&?&?&?&?)|(?&->&->)]
  | E : put_or_drop _ _ _ = _ |- _ =>
      apply put_or_drop_spec in E as [(?&->&?&?&?&?&?&?&?&?&?)|(?&->&->)]
  end.

Lemma accepted_label_same l l' w : queue l' = queue l -> accepted_label l l' w = Silent.
Proof. unfold accepted_label. intros ->. by rewrite bool_decide_eq_false_2 by lia. Qed.

Lemma accepted_label_snoc l l' w :
  queue l' = (queue l ++ [w])%list -> accepted_label l l' w = Accepted w.
Proof.
  unfold accepted_label. intros ->. rewrite length_app; simpl.
  by rewrite bool_decide_eq_true_2 by lia.
Qed.

Lemma entered_snoc tr lab : entered (tr ++ [lab]) = (entered tr ++ entered [lab])%list.
Proof. unfold entered. by rewrite map_app, concat_app. Qed.
Lemma left_queue_snoc tr lab : left_queue (tr ++ [lab]) = (left_queue tr ++ left_queue [lab])%list.
Proof. unfold left_queue. by rewrite map_app, concat_app. Qed.

(** The accounting fields a step may leave alone. *)
Definition books (l : Loop) := (maxsize l, dropped_count l, last_queue_full_log l, warnings l).

Lemma wake_counter_frame w l :
  queue (wake_counter w l) = queue l /\ handles (wake_counter w l) = handles l /\
  reentrant (wake_counter w l) = reentrant l /\ stopped (wake_counter w l) = stopped l /\
  stopping (wake_counter w l) = stopping l /\ books (wake_counter w l) = books l.
Proof. by destruct w. Qed.

Lemma sup_finish_frame w o l :
  queue (sup_finish w o l) = queue l /\ reentrant (sup_finish w o l) = reentrant l /\
  stopped (sup_finish w o l) = stopped l /\ stopping (sup_finish w o l) = stopping l /\
  books (sup_finish w o l) = books l /\
  handles (sup_finish w o l) = handles (settle_opt (wake_handle w) (outcome_value o) l).
Proof. by destruct w as [e [h|]| | | ]. Qed.

Lemma reentrant_finish_frame i o l :
  queue (reentrant_finish i o l) = queue l /\ sup (reentrant_finish i o l) = sup l /\
  stopped (reentrant_finish i o l) = stopped l /\ stopping (reentrant_finish i o l) = stopping l /\
  books (reentrant_finish i o l) = books l.
Proof. unfold reentrant_finish. by destruct (reentrant l !! i). Qed.

Lemma start_frame l :
  queue (start l) = queue l /\ handles (start l) = handles l /\
  reentrant (start l) = reentrant l /\ stopping (start l) = stopping l /\
  books (start l) = books l.
Proof. unfold start. by destruct (is_running l). Qed.

Lemma stop_poison_frame l :
  handles (stop_poison l) = handles l /\ reentrant (stop_poison l) = reentrant l /\
  sup (stop_poison l) = sup l /\ stopped (stop_poison l) = stopped l /\
  stopping (stop_poison l) = AwaitSupervisor /\ books (stop_poison l) = books l /\
  queue (stop_poison l) =
    if is_running l && negb (queue_full l) then (queue l ++ [StopSentinel])%list else queue l.
Proof.
  unfold stop_poison. change (is_running (set_stopping AwaitSupervisor l)) with (is_running l).
  change (queue_full (set_stopping AwaitSupervisor l)) with (queue_full l).
  by destruct (is_running l && negb (queue_full l)).
Qed.

Ltac lframe :=
  repeat match goal with
  | |- context [settle_opt ?o ?v ?m] => progress (destruct (settle_opt_frame o v m)
      as (->&->&->&->&->&->&->&->&->&->))
  | |- context [sup_finish ?w ?o ?m] =>
      destruct (sup_finish_frame w o m) as (->&->&->&->&?&->)
  | |- context [start ?m] => destruct (start_frame m) as (->&->&->&->&?)
  end.

Lemma lstep_queue l lab l' :
  lstep l lab l' ->
  (queue l ++ entered [lab] = left_queue [lab] ++ queue l')%list.
Proof.
  intros H. lstep_cases H; simpl in *;
    rewrite ?accepted_label_same, ?accepted_label_snoc by (simpl; congruence);
    simpl; rewrite ?app_nil_r; auto.
  - destruct (settle_opt_frame (wake_handle w) (Result []) l) as (E&_).
    rewrite accepted_label_same by done. simpl. by rewrite app_nil_r.
  - by destruct (start_frame l) as (->&_).
  - match goal with E : sup_take l = _, Q : queue l = _ |- _ =>
      unfold sup_take in E; rewrite Q in *; by destruct w; simplify_eq end.
  - symmetry. apply (sup_finish_frame w o l).
  - symmetry. apply (reentrant_finish_frame i o l).
  - destruct (stop_poison_frame l) as (_&_&_&_&_&_&E).
    destruct (_ && _).
    + rewrite accepted_label_snoc by done. simpl. by rewrite E.
    + rewrite accepted_label_same by done. simpl. by rewrite E, app_nil_r.
  - unfold left_queue. simpl. by rewrite !app_nil_r.
Qed.

(** The wake queue is FIFO and loses nothing: along every run of a fresh
    loop, the wakes accepted so far are, in order, exactly those that have left
    the queue (for the supervisor, or drained by [stop]) followed by those
    still in it. *)
Theorem wake_queue_fifo n tr l :
  run (new_loop n) tr l -> entered tr = (left_queue tr ++ queue l)%list.
Proof.
  intros H. remember (new_loop n) as l0 eqn:E. induction H as [|l0 tr l1 lab l2 _ IH Hs]; subst.
  - done.
  - rewrite entered_snoc, left_queue_snoc, IH, <- !app_assoc by done.
    f_equal. by apply lstep_queue.
Qed.

(** ** Backpressure *)

Lemma lstep_maxsize l lab l' : lstep l lab l' -> maxsize l' = maxsize l.
Proof.
  intros H. lstep_cases H; simpl in *; try done.
  - by destruct (wake_handle w).
  - unfold start. by destruct (is_running l).
  - unfold sup_take in *. destruct (queue l) as [|[] ?]; by simplify_eq.
  - by destruct w as [e [h|]| | | ].
  - unfold reentrant_finish. by destruct (reentrant l !! i).
  - unfold stop_poison. by destruct (_ && _).
  - unfold stop_finish, drain_pending_handles. simpl. by apply (drain_fold (queue l) l).
Qed.

Definition within_bound (l : Loop) : Prop :=
  (0 < maxsize l)%Z -> (Z.of_nat (length (queue l)) <= maxsize l)%Z.

Lemma lstep_grow l lab l' :
  lstep l lab l' ->
  (length (queue l') <= length (queue l))%nat \/
  exists w, queue_full l = false /\ queue l' = (queue l ++ [w])%list.
Proof.
  intros H. lstep_cases H; simpl in *; try (left; simpl; (congruence || lia || done)); eauto.
  - left. match goal with E : queue l' = _ |- _ => by rewrite E end.
  - left. by destruct (settle_opt_frame (wake_handle w) (Result []) l) as (->&_).
  - left. match goal with E : queue l' = _ |- _ => by rewrite E end.
  - left. by destruct (start_frame l) as (->&_).
  - left. unfold sup_take in *. destruct (queue l) as [|[] ?]; simplify_eq; simpl; lia.
  - left. by destruct w as [? []| | | ].
  - left. by destruct (reentrant_finish_frame i o l) as (->&_).
  - destruct (stop_poison_frame l) as (_&_&_&_&_&_&->).
    destruct (is_running l && negb (queue_full l)) eqn:E; [|by left].
    bool_props. right. exists StopSentinel. tauto.
Qed.

Lemma lstep_within_bound l lab l' : lstep l lab l' -> within_bound l -> within_bound l'.
Proof.
  intros H Hb Hm. rewrite (lstep_maxsize _ _ _ H) in *. specialize (Hb Hm).
  destruct (lstep_grow _ _ _ H) as [Hle|(w&Hf&->)]; [lia|].
  unfold queue_full in Hf. bool_props. destruct Hf; [lia|]. rewrite length_app; simpl. lia.
Qed.

(** Consecutive warnings are at least the throttle interval apart. *)
Fixpoint spaced (gap : Q) (ts : list Q) : Prop :=
  match ts with
  | t1 :: (t2 :: _) as ts' => (gap <= t2 - t1)%Q /\ spaced gap ts'
  | _ => True
  end.

Lemma spaced_snoc gap ts t :
  spaced gap ts -> (forall u, last ts = Some u -> (gap <= t - u)%Q) -> spaced gap (ts ++ [t])%list.
Proof.
  induction ts as [|a [|b ts] IH]; simpl; intros Hs Hl; auto.
  destruct Hs as [Ha Hs]. split; [done|]. by apply IH.
Qed.

Definition refusals (tr : list label) : Z := 
  zsum (λ lab, match lab with Refused _ => 1 | _ => 0 end)%Z tr.

Definition log_ok (l : Loop) : Prop :=
  last (warnings l) = last_queue_full_log l /\ spaced QUEUE_FULL_LOG_INTERVAL_S (warnings l).

Lemma log_queue_full_ok now l : log_ok l -> log_ok (log_queue_full now l).
Proof.
  unfold log_queue_full, log_ok. intros [Hl Hs].
  destruct (last_queue_full_log l) as [t|] eqn:E; simpl; [destruct (Qltb _ _) eqn:Q; simpl|].
  - by rewrite E.
  - split; [by rewrite last_snoc|]. apply spaced_snoc; [done|]. intros u Hu.
    q_props. congruence.
  - split; [by rewrite last_snoc|]. apply spaced_snoc; [done|]. congruence.
Qed.

Lemma books_log_ok l l' : books l' = books l -> log_ok l -> log_ok l'.
Proof. unfold books, log_ok. intros [= _ _ Hl Hw]. by rewrite Hl, Hw. Qed.

Lemma put_or_drop_log now w l ok l' :
  put_or_drop now w l = (ok, l') -> log_ok l -> log_ok l'.
Proof.
  unfold put_or_drop. destruct (queue_full l); intros [= <- <-] Hl; [|done].
  apply (log_queue_full_ok now (set_log (dropped_count l + 1)%Z (last_queue_full_log l) (warnings l) l)) in Hl. exact Hl.
Qed.

Lemma lstep_log_ok l lab l' : lstep l lab l' -> log_ok l -> log_ok l'.
Proof.
  intros H. inversion H; subst; clear H; try (apply books_log_ok; done).
  - unfold submit, enqueue in *. simpl in *.
    destruct (stopped l); simplify_eq; [done|].
    destruct (in_supervisor _ _); simplify_eq; [done|].
    destruct (put_or_drop _ _ _) eqn:E; simplify_eq. intros Hl.
    by apply (put_or_drop_log _ _ _ _ _ E).
  - match goal with H : enqueue _ _ _ _ = _ |- _ => rename H into E end.
    apply enqueue_spec in E as [(_&_&->)|[(_&_&_&?&?&->&->)|(_&E)]]; [|done|].
    + apply books_log_ok. by destruct (wake_handle w).
    + by apply (put_or_drop_log _ _ _ _ _ E).
  - apply books_log_ok, start_frame.
  - unfold sup_take in *. destruct (queue l) as [|[] ?]; simplify_eq; apply books_log_ok; done.
  - apply books_log_ok, sup_finish_frame.
  - apply books_log_ok, reentrant_finish_frame.
  - apply books_log_ok, stop_poison_frame.
  - apply books_log_ok. unfold stop_finish, drain_pending_handles, books. simpl.
    destruct (drain_fold (queue l) l) as [(?&?&?&?&?&?&?&?&?) _]. congruence.
Qed.

Lemma run_invariant (P : Loop -> Prop) :
  (forall l lab l', lstep l lab l' -> P l -> P l') ->
  forall l tr l', run l tr l' -> P l -> P l'.
Proof. intros Hs l tr l'. induction 1; eauto. Qed.

(** Backpressure: along every run of a fresh loop of positive size the
    queue never exceeds that size, and the queue-full warnings it emits are at
    least [QUEUE_FULL_LOG_INTERVAL_S] apart whatever the clock reads. *)
Theorem queue_bounded_and_log_throttled n tr l :
  (0 < n)%Z -> run (new_loop n) tr l ->
  (Z.of_nat (length (queue l)) <= n)%Z /\ spaced QUEUE_FULL_LOG_INTERVAL_S (warnings l).
Proof.
  intros Hn Hr. split.
  - assert (maxsize l = n) as En.
    { refine (run_invariant (λ l, maxsize l = n) _ _ _ _ Hr eq_refl).
      intros ? ? ? H <-. by apply (lstep_maxsize _ _ _ H). }
    rewrite <- En. refine (run_invariant _ lstep_within_bound _ _ _ Hr _ _); [|lia].
    intros ?. simpl. lia.
  - by refine (proj2 (run_invariant _ lstep_log_ok _ _ _ Hr _)).
Qed.

(** ** Handles *)

Lemma step_submit_handles c now e l h ok l' :
  submit c now e l = (h, ok, l') ->
  h = length (handles l) /\ exists f, handles l' = (handles l ++ [f])%list /\
  (f = Pending \/ f = Result []).
Proof.
  unfold submit. destruct (enqueue _ _ _ _) as [ok' l1] eqn:E. intros [= <- <- <-].
  split; [done|]. apply enqueue_spec in E as [(_&_&->)|[(_&_&_&?&?&_&->)|(_&E)]].
  - exists (Result []). split; [|by right]. simpl.
    unfold settle_opt. simpl. rewrite alter_app_r_alt by lia. by rewrite Nat.sub_diag.
  - exists Pending. auto.
  - apply put_or_drop_spec in E as [(_&_&_&->&_)|(_&_&->)]; eauto.
Qed.

Lemma lookup_settle (h k : nat) v (fs : list future) f :
  alter (settle v) k fs !! h = Some f -> done_ f = false ->
  fs !! h = Some f /\ (done_ v = true -> h <> k).
Proof.
  destruct (decide (h = k)) as [->|Hne].
  - rewrite list_lookup_alter_eq. intros Hf Hd.
    apply fmap_Some in Hf as (g&Hg&->). unfold settle in *.
    destruct (done_ g) eqn:E; [congruence|]. rewrite Hd in *.
    split; [|congruence]. destruct v; [|done..]. by destruct g.
  - rewrite list_lookup_alter_ne by done. auto.
Qed.

Lemma settle_opt_pending oh v l h :
  handles (settle_opt oh v l) !! h = Some Pending ->
  handles l !! h = Some Pending /\ (done_ v = true -> oh <> Some h).
Proof.
  destruct oh as [k|]; unfold settle_opt; simpl; [|done].
  intros [H1 H2]%lookup_settle; [|done]. split; [done|]. intros Hd. specialize (H2 Hd). congruence.
Qed.

Lemma settle_opt_done oh v l h f :
  handles l !! h = Some f -> done_ f = true -> handles (settle_opt oh v l) !! h = Some f.
Proof.
  intros Hf Hd. rewrite settle_opt_lookup. case_decide; [|done].
  rewrite Hf. simpl. by rewrite settle_done.
Qed.

Lemma outcome_done o : done_ (outcome_value o) = true.
Proof. by destruct o. Qed.

(** [owned] only looks at three fields, the supervisor's while it handles. *)
Lemma owned_frame l l' h :
  owned l h ->
  (forall w, w ∈ queue l -> wake_handle w = Some h -> w ∈ queue l') ->
  reentrant l' = reentrant l ->
  (forall w, sup l = Handling w -> sup l' = Handling w) ->
  owned l' h.
Proof.
  intros [(w&Hw&E)|[(w&Hw&E)|Hr]] Hq Hre Hs.
  - left. eauto.
  - right; left. eauto.
  - right; right. by rewrite Hre.
Qed.

(** A task that leaves the set of resolvers takes no other with it. *)
Lemma delete_keeps {A} (xs : list A) i x y : xs !! i = Some x -> y ∈ xs -> y <> x -> y ∈ delete i xs.
Proof.
  intros Hi (j&Hj)%list_elem_of_lookup Hne.
  assert (j <> i) by (intros ->; congruence). apply list_elem_of_lookup. destruct (decide (j < i)%nat).
  - exists j. by rewrite list_lookup_delete_lt.
  - exists (j - 1)%nat. rewrite list_lookup_delete_ge by lia. by replace (S (j - 1))%nat with j by lia.
Qed.

(** A resolver that will settle [h]. *)
Definition resolving (l : Loop) (h : hid) : Prop :=
  exists r, r ∈ reentrant l /\ rs_handle r = h /\ rs_phase r <> Doomed.

Lemma reentrant_finish_pending i o l h r :
  handles (reentrant_finish i o l) !! h = Some Pending -> reentrant l !! i = Some r ->
  handles l !! h = Some Pending /\ (resolving l h -> resolving (reentrant_finish i o l) h).
Proof.
  unfold reentrant_finish. intros Hp Hk. rewrite Hk in *.
  apply (settle_opt_pending (Some (rs_handle r))) in Hp as [Hp Hne]. split; [done|].
  specialize (Hne (outcome_done o)). intros (r'&Hr&Eh&Ep). exists r'. split; [|done]. cbn.
  apply (delete_keeps _ i r); [done..|]. congruence.
Qed.

Lemma reentrant_discard_resolving i l r h :
  reentrant l !! i = Some r -> rs_phase r = Doomed -> resolving l h -> resolving (reentrant_discard i l) h.
Proof.
  intros Hi Hd (r'&Hr&Eh&Ep). exists r'. split; [|done]. cbn. apply (delete_keeps _ i r); [done..|]. congruence.
Qed.

Lemma reentrant_enter_resolving i l h : resolving l h -> resolving (reentrant_enter i l) h.
Proof.
  intros (r&(j&Hj)%list_elem_of_lookup&Eh&Ep). cbn. destruct (decide (i = j)) as [<-|Hne].
  - exists (mkResolver (rs_event r) (rs_handle r) Entered). split; [|done]. cbn. apply list_elem_of_lookup.
    exists i. by rewrite list_lookup_alter_eq, Hj.
  - exists r. split; [|done]. apply list_elem_of_lookup. exists j. cbn. by rewrite list_lookup_alter_ne.
Qed.

(** [stop] takes the handle of a resolver that has not started, and no other. *)
Lemma stop_begin_resolving l h : resolving l h -> resolving (stop_begin l) h \/ h ∈ unstarted l.
Proof.
  intros (r&Hr&Eh&Ep). destruct (decide (rs_phase r = Created)) as [Ec|Ec].
  - right. unfold unstarted. apply list_elem_of_fmap. exists r. split; [done|]. by apply list_elem_of_filter.
  - left. exists r. split; [|done]. cbn. apply list_elem_of_fmap. exists r. split; [|done].
    unfold cancel_resolver. by destruct (rs_phase r).
Qed.

Lemma stop_finish_facts l :
  sup (stop_finish l) = NoTask /\ stopping (stop_finish l) = NotStopping /\
  queue (stop_finish l) = [] /\ reentrant (stop_finish l) = reentrant l /\
  (forall h, handles (stop_finish l) !! h = Some Pending ->
     handles l !! h = Some Pending /\ forall w, w ∈ queue l -> wake_handle w <> Some h) /\
  (forall h f, handles l !! h = Some f -> done_ f = true ->
     handles (stop_finish l) !! h = Some f).
Proof.
  unfold stop_finish, drain_pending_handles. simpl.
  destruct (drain_fold (queue l) l) as ((?&?&?&?&_)&_&Hp&Hd). auto 10.
Qed.

Lemma lstep_done l lab l' h f :
  lstep l lab l' -> handles l !! h = Some f -> done_ f = true -> handles l' !! h = Some f.
Proof.
  intros H Hf Hd. inversion H; subst; clear H; auto.
  - match goal with E : submit _ _ _ _ = _ |- _ => apply step_submit_handles in E
      as (_&g&->&_) end.
    by apply lookup_app_l_Some.
  - match goal with E : enqueue _ _ _ _ = _ |- _ => apply enqueue_spec in E
      as [(_&_&->)|[(_&_&_&?&?&->&->)|(_&E)]] end; [by apply settle_opt_done|done|].
    match goal with E : put_or_drop _ _ _ = _ |- _ =>
      apply put_or_drop_spec in E as [(_&_&_&->&_)|(_&_&->)]; done end.
  - by destruct (start_frame l) as (_&->&_).
  - unfold sup_take in *. destruct (queue l) as [|[] ?]; by simplify_eq.
  - destruct (sup_finish_frame w o l) as (_&_&_&_&_&E). rewrite E. by apply settle_opt_done.
  - unfold reentrant_finish. destruct (reentrant l !! i) as [r'|]; [|done].
    by apply (settle_opt_done (Some (rs_handle r')) _ _ h f).
  - by apply (settle_opt_done (Some h0) _ _ h f).
  - by destruct (stop_poison_frame l) as (->&_).
  - by apply stop_finish_facts.
Qed.

(** A handle is settled at most once: whatever the loop, its callers or its
    handlers do afterwards, its value never changes. *)
Theorem handle_settled_once l tr l' h f :
  run l tr l' -> handles l !! h = Some f -> done_ f = true -> handles l' !! h = Some f.
Proof. induction 1; [done|]. intros. eapply lstep_done; eauto. Qed.

(** A queue that only grows keeps every owner. *)
Lemma owned_grow l l' ws h :
  queue l' = (queue l ++ ws)%list -> reentrant l' = reentrant l -> sup l' = sup l ->
  owned l h -> owned l' h.
Proof.
  intros Eq Er Es Ho. apply (owned_frame l); [done| |done|by rewrite Es].
  intros w Hw _. rewrite Eq. apply elem_of_app. by left.
Qed.

Lemma put_or_drop_owned now w l ok l' h :
  put_or_drop now w l = (ok, l') -> owned l h -> owned l' h.
Proof.
  intros [(_&->&Eq&_&_&_&Es&_&_&Er&_)|(_&->&->)]%put_or_drop_spec.
  - apply (owned_grow _ _ []); [by rewrite app_nil_r|done..].
  - by apply (owned_grow _ _ [w]).
Qed.

Lemma submit_owned c now e l k ok l' h :
  submit c now e l = (k, ok, l') -> handles l' !! h = Some Pending ->
  (handles l !! h = Some Pending /\ (owned l h -> owned l' h)) \/ owned l' h \/ (h = k /\ ok = false).
Proof.
  unfold submit. destruct (enqueue _ _ _ _) as [ok' l1] eqn:E. intros [= <- <- <-] Hp.
  assert (handles l1 = (handles l ++ [Pending])%list ->
          handles l !! h = Some Pending \/ h = length (handles l)) as Hnew.
  { intros Eq. rewrite Eq in Hp. apply lookup_snoc_Some in Hp. tauto. }
  apply enqueue_spec in E as [(_&->&->)|[(_&->&_&e'&h'&[= <- <-]&->)|(_&E)]].
  - left. apply settle_opt_pending in Hp as [Hp Hne]. specialize (Hne eq_refl). split; [|done].
    simpl in Hp, Hne. apply lookup_snoc_Some in Hp as [[_ ?]|[-> _]]; done.
  - destruct (Hnew eq_refl) as [Hh| ->].
    + left. split; [done|]. intros [?|[?|(r&?&?)]]; [by left|by right; left|].
      right; right. exists r. split; [|done]. simpl. apply elem_of_app. by left.
    + right; left. right; right. exists (mkResolver e (length (handles l)) Created). split; [|done].
      simpl. apply elem_of_app. right. by apply list_elem_of_singleton.
  - pose proof (put_or_drop_owned _ _ _ _ _ h E) as Ho.
    apply put_or_drop_spec in E as [(_&->&_&Eh&_)|(_&->&->)]; simpl in *.
    + destruct (Hnew Eh) as [Hh| ->]; [left; split; [done|exact Ho]|by right; right].
    + destruct (Hnew eq_refl) as [Hh| ->]; [left; split; [done|exact Ho]|right; left].
      left. eexists. split; [apply elem_of_app; right; by apply list_elem_of_singleton|done].
Qed.

Lemma enqueue_owned c now w l ok l' h :
  enqueue c now w l = (ok, l') -> wake_handle w = None -> handles l' !! h = Some Pending ->
  handles l !! h = Some Pending /\ (owned l h -> owned l' h).
Proof.
  intros [(_&_&->)|[(_&_&_&?&?&->&->)|(_&E)]]%enqueue_spec Hw Hp; [|done|].
  - rewrite Hw in *. done.
  - pose proof (put_or_drop_owned _ _ _ _ _ h E) as Ho.
    apply put_or_drop_spec in E as [(_&_&_&<-&_)|(_&_&->)]; done.
Qed.

Lemma sup_take_owned l w q l' h :
  sup l = Waiting -> queue l = w :: q -> sup_take l = Some l' -> 
  handles l' = handles l /\ (owned l h -> owned l' h).
Proof.
  intros Hs Hq Ht. unfold sup_take in Ht. rewrite Hq in Ht.
  assert (handles l' = handles l /\ reentrant l' = reentrant l /\ queue l' = q /\
          (sup l' = Handling w \/ wake_handle w = None)) as (Eh&Er&Eq&Es).
  { destruct w; simplify_eq; simpl; auto. }
  split; [done|]. intros [(w'&Hw&E)|[(w'&Hw&E)|(r&Hr)]]; [|congruence|right; right; exists r; by rewrite Er].
  rewrite Hq in Hw. apply elem_of_cons in Hw as [->|Hw]; [|left; exists w'; by rewrite Eq].
  right; left. destruct Es as [Es|Es]; [eauto|congruence].
Qed.

Lemma sup_finish_owned l w o h :
  sup l = Handling w -> handles (sup_finish w o l) !! h = Some Pending ->
  handles l !! h = Some Pending /\ (owned l h -> owned (sup_finish w o l) h).
Proof.
  intros Hs Hp. destruct (sup_finish_frame w o l) as (Eq&Er&_&_&_&Eh). rewrite Eh in Hp.
  apply settle_opt_pending in Hp as [Hp Hne]. specialize (Hne (outcome_done o)).
  split; [done|]. intros [(w'&Hw&E)|[(w'&Hw&E)|(r&Hr)]].
  - left. exists w'. by rewrite Eq.
  - congruence.
  - right; right. exists r. by rewrite Er.
Qed.

(** What changes the resolvers only. *)
Lemma owned_resolving l l' h :
  queue l' = queue l -> sup l' = sup l -> (resolving l h -> resolving l' h) -> owned l h -> owned l' h.
Proof. unfold owned. intros -> -> H. fold (resolving l h) (resolving l' h). tauto. Qed.

Lemma reentrant_finish_owned l i o h r :
  reentrant l !! i = Some r -> handles (reentrant_finish i o l) !! h = Some Pending ->
  handles l !! h = Some Pending /\ (owned l h -> owned (reentrant_finish i o l) h).
Proof.
  intros Hi Hp. destruct (reentrant_finish_pending i o l h r Hp Hi) as [Hh Hr]. split; [done|].
  destruct (reentrant_finish_frame i o l) as (Eq&Es&_). by apply owned_resolving.
Qed.

Lemma stop_finish_owned l h :
  is_running l = false -> handles (stop_finish l) !! h = Some Pending ->
  handles l !! h = Some Pending /\ (owned l h -> owned (stop_finish l) h).
Proof.
  intros Hrun Hp. destruct (stop_finish_facts l) as (_&_&_&Er&Hq&_). apply Hq in Hp as [Hp Hn].
  split; [done|]. intros [(w'&Hw&E)|[(w'&Hw&E)|(r&Hr)]].
  - by apply Hn in Hw.
  - unfold is_running in Hrun. by rewrite Hw in Hrun.
  - right; right. exists r. by rewrite Er.
Qed.

(** The steps after which nobody settles [h]: the caller is told, or [stop]
    has cancelled the resolver of [h] before its first step. *)
Definition let_go (h : hid) (lab : label) : Prop :=
  lab = Refused h \/ exists hs, lab = Stopping hs /\ h ∈ hs.

Lemma lstep_owned l lab l' h :
  lstep l lab l' -> handles l' !! h = Some Pending ->
  (handles l !! h = Some Pending /\ (owned l h -> owned l' h)) \/ owned l' h \/ let_go h lab.
Proof.
  unfold let_go. intros H Hp. destruct H; try (left; by eauto using enqueue_owned, sup_finish_owned,
    reentrant_finish_owned, stop_finish_owned).
  - destruct (submit_owned _ _ _ _ _ _ _ h H0 Hp) as [?|[?|[-> ->]]]; auto.
  - left. destruct (start_frame l) as (Eq&Eh&Er&_). rewrite Eh in Hp. split; [done|].
    intros Ho. apply (owned_frame l); try done; [by rewrite Eq|].
    unfold start, is_running. intros w Hw. by rewrite Hw.
  - left. split; [done|]. intros Ho. apply (owned_frame l); try done. by rewrite H.
  - left. destruct (sup_take_owned l w q l' h) as [Eh Ho]; [done..|]. by rewrite <- Eh.
  - left. split; [done|]. intros Ho. apply (owned_frame l); try done.
    intros ? E. destruct H; congruence.
  - left. split; [done|]. apply owned_resolving; [done..|]. apply reentrant_enter_resolving.
  - left. split; [done|]. apply owned_resolving; [done..|]. by eapply reentrant_discard_resolving.
  - left. apply (settle_opt_pending (Some h0)) in Hp as [Hp _]. split; [done|].
    intros Ho. by apply (owned_frame l).
  - destruct (decide (h ∈ unstarted l)); [right; right; right; eauto|].
    left. split; [done|]. apply owned_resolving; [done..|].
    intros Hr. by destruct (stop_begin_resolving l h Hr).
  - left. destruct (stop_poison_frame l) as (Eh&Er&Es&_&_&_&Eq). rewrite Eh in Hp.
    split; [done|]. destruct (_ && _); [by apply (owned_grow _ _ [StopSentinel])|].
    apply (owned_grow _ _ []); [by rewrite app_nil_r|done..].
Qed.

Lemma pending_owned n tr l h :
  run (new_loop n) tr l -> handles l !! h = Some Pending -> owned l h \/ Exists (let_go h) tr.
Proof.
  intros Hr. remember (new_loop n) as l0 eqn:E. revert h.
  induction Hr as [|l0 tr l1 lab l2 _ IH Hs]; subst; intros h Hp; [done|]. rewrite Exists_app.
  destruct (lstep_owned _ _ _ _ Hs Hp) as [[Hp1 Ho]|[Ho|Hl]]; [|by left|right; right; by apply Exists_cons_hd].
  destruct (IH eq_refl h Hp1); auto.
Qed.

(** C30. No handle is orphaned but one kind: in every reachable state of a fresh
    loop, an unsettled handle is carried by a queued wake, by the wake the
    supervisor is handling or by a resolver task that will run its body to its
    end. Otherwise its [enqueue] answered [False], so that its caller knows it
    was dropped, or a [stop] cancelled its resolver before the first step of that
    task: the body never runs, and the handle stays as it is
    ([unstarted_resolver_orphaned]). *)
Theorem no_orphan_handle n tr l h :
  run (new_loop n) tr l -> handles l !! h = Some Pending ->
  owned l h \/ Refused h ∈ tr \/ exists hs, Stopping hs ∈ tr /\ h ∈ hs.
Proof.
  intros Hr Hp. destruct (pending_owned n tr l h Hr Hp) as [|Hx]; [by left|right].
  apply Exists_exists in Hx as (lab&Hin&[->|(hs&->&Hh)]); eauto.
Qed.

(** ** [stop] *)

Definition phase_ok (l : Loop) : Prop :=
  (stopping l <> NotStopping -> stopped l = true) /\
  (stopping l = AwaitSupervisor -> sup l = Waiting -> queue l <> []).

Lemma phase_ok_frame l l' :
  stopping l' = stopping l -> stopped l' = stopped l ->
  (sup l' = Waiting -> sup l = Waiting /\ (queue l <> [] -> queue l' <> [])) ->
  phase_ok l -> phase_ok l'.
Proof. unfold phase_ok. intros -> -> Hs [H1 H2]. split; [done|]. intros Ha Hw. apply Hs in Hw as [Hw Hq]. auto. Qed.

Lemma stop_poison_phase l :
  stopping l = AwaitReentrant -> phase_ok l -> phase_ok (stop_poison l).
Proof.
  intros Ha [H1 _]. destruct (stop_poison_frame l) as (_&_&Es&Ep&_&_&Eq). split.
  - intros _. rewrite Ep. apply H1. congruence.
  - intros _ Hw. rewrite Es in Hw. rewrite Eq. unfold is_running. rewrite Hw. simpl.
    destruct (queue_full l) eqn:Ef; simpl; [|by destruct (queue l)].
    apply andb_true_iff in Ef as [E1%Z.ltb_lt E2%Z.leb_le].
    destruct (queue l); [simpl in E2; lia|done].
Qed.

Lemma put_or_drop_phase now w l ok l' :
  put_or_drop now w l = (ok, l') -> phase_ok l -> phase_ok l'.
Proof.
  intros [(_&->&Eq&_&_&_&Es&Ep&Eg&_)|(_&_&->)]%put_or_drop_spec;
    apply phase_ok_frame; simpl; try congruence.
  - rewrite Eq, Es. auto.
  - intros Hw. split; [done|]. by destruct (queue l).
Qed.

Lemma lstep_phase_ok l lab l' : lstep l lab l' -> phase_ok l -> phase_ok l'.
Proof.
  intros H. inversion H; subst; clear H;
    try (apply phase_ok_frame; simpl; by auto).
  - unfold submit in *. destruct (enqueue _ _ _ _) as [ok' l1] eqn:E. simplify_eq.
    intros Hl. assert (phase_ok (set_handles (handles l ++ [Pending])%list l)) as Hl1.
    { by apply (phase_ok_frame l); auto. }
    apply enqueue_spec in E as [(_&_&->)|[(_&_&_&?&?&_&->)|(_&E)]].
    + revert Hl1. by apply phase_ok_frame; auto.
    + revert Hl1. by apply phase_ok_frame; auto.
    + by apply (put_or_drop_phase _ _ _ _ _ E).
  - match goal with E : enqueue _ _ _ _ = _ |- _ => rename E into En end.
    apply enqueue_spec in En as [(_&_&->)|[(_&_&_&?&?&->&->)|(_&E)]]; [|done|].
    + destruct (settle_opt_frame (wake_handle w) (Result []) l) as (Eq&Es&Ep&Eg&_).
      apply phase_ok_frame; try done. by rewrite Eq, Es.
    + apply (put_or_drop_phase _ _ _ _ _ E).
  - unfold start. destruct (is_running l); [done|]. intros _.
    split; simpl; [done|congruence].
  - intros [H1 H2]. split; [done|]. simpl. intros Ha Hw.
    rewrite H1 in Hw by congruence. done.
  - unfold sup_take in *. destruct (queue l) as [|w' q']; [done|].
    apply phase_ok_frame; destruct w'; simplify_eq; done.
  - destruct (sup_finish_frame w o l) as (_&_&Ep&Eg&_).
    apply phase_ok_frame; try done. by destruct w as [? []| | | ], o.
  - destruct (reentrant_finish_frame i o l) as (Eq&Es&Ep&Eg&_).
    apply phase_ok_frame; try done. by rewrite Eq, Es.
  - intros _. split; simpl; done.
  - by apply stop_poison_phase.
  - intros _. destruct (stop_finish_facts l) as (Es&Eg&_). split; congruence.
Qed.

(** One step of [stop] and of the supervisor it waits for, when the handler in
    flight ends with [o]. *)
Definition stop_drive (o : outcome) (l : Loop) : Loop :=
  match stopping l with
  | NotStopping => l
  | AwaitReentrant => stop_poison l
  | AwaitSupervisor =>
      match sup l with
      | Ready => sup_check l
      | Waiting => default l (sup_take l)
      | Handling w => sup_finish w o l
      | _ => stop_finish l
      end
  end.

Definition stop_rank (l : Loop) : nat :=
  match stopping l with
  | NotStopping => 0
  | AwaitReentrant => 5
  | AwaitSupervisor =>
      match sup l with Waiting => 4 | Handling _ => 3 | Ready => 2 | _ => 1 end
  end.

(** A step that may let a handle go. *)
Definition lets_go (lab : label) : bool := match lab with Refused _ | Stopping _ => true | _ => false end.

Lemma stop_drive_step o l :
  phase_ok l -> stopping l <> NotStopping ->
  exists lab, lstep l lab (stop_drive o l) /\ lets_go lab = false /\
  (stop_rank (stop_drive o l) < stop_rank l)%nat.
Proof.
  intros [H1 H2] Hs. specialize (H1 Hs). unfold stop_drive, stop_rank.
  destruct (stopping l) eqn:Eg; [done| |].
  - destruct (stop_poison_frame l) as (_&_&Es&_&->&_).
    eexists. split; [by apply step_poison|]. split; [by unfold accepted_label; case_bool_decide|].
    rewrite Es. destruct (sup l); lia.
  - destruct (sup l) as [| | |w|] eqn:Es.
    + eexists. split; [apply step_stopped; [done|]; unfold is_running; by rewrite Es|].
      split; [done|]. destruct (stop_finish_facts l) as (->&->&_). lia.
    + eexists. split; [by apply step_check|]. split; [done|].
      unfold sup_check. simpl. rewrite H1, Eg. lia.
    + destruct (queue l) as [|w q] eqn:Eq; [by destruct H2|].
      assert (sup_take l = Some (default l (sup_take l))) as Et.
      { unfold sup_take. rewrite Eq. by destruct w. }
      eexists. split; [by eapply step_take|]. split; [done|].
      unfold sup_take. rewrite Eq. destruct w; simpl; rewrite Eg; lia.
    + eexists. split; [by apply step_finish|]. split; [done|].
      destruct (sup_finish_frame w o l) as (_&_&_&->&_). rewrite Eg.
      unfold sup_finish. simpl. destruct o; lia.
    + eexists. split; [apply step_stopped; [done|]; unfold is_running; by rewrite Es|].
      split; [done|]. destruct (stop_finish_facts l) as (->&->&_). lia.
Qed.

Lemma run_app l1 tr1 l2 tr2 l3 : run l1 tr1 l2 -> run l2 tr2 l3 -> run l1 (tr1 ++ tr2)%list l3.
Proof.
  intros H1 H2. revert H1. induction H2 as [|l2 tr l3' lab l3 _ IH Hs]; intros H1.
  - by rewrite app_nil_r.
  - rewrite app_assoc. eapply run_snoc; eauto.
Qed.

Lemma stop_drive_n o k l :
  phase_ok l -> (stop_rank l <= k)%nat ->
  exists tr, run l tr (Nat.iter k (stop_drive o) l) /\ Forall (λ lab, lets_go lab = false) tr /\
  stopping (Nat.iter k (stop_drive o) l) = NotStopping.
Proof.
  revert l. induction k as [|k IH]; intros l Hl Hk.
  - exists []. split; [constructor|]. split; [done|]. simpl.
    unfold stop_rank in Hk. destruct (stopping l); [done|lia|destruct (sup l); lia].
  - rewrite Nat.iter_succ_r. destruct (stopping l) eqn:Eg.
    { assert (stop_drive o l = l) as -> by (unfold stop_drive; by rewrite Eg).
      apply IH; [done|]. unfold stop_rank. rewrite Eg. lia. }
    all: destruct (stop_drive_step o l) as (lab&Hs&Hn&Hr); [done|congruence|];
      destruct (IH (stop_drive o l)) as (tr&Htr&Hf&Hg);
        [by eapply lstep_phase_ok|lia|];
      exists (lab :: tr); repeat split; [|by constructor|done];
      apply (run_app _ [lab] (stop_drive o l)); [|done];
      apply (run_snoc _ [] l); [constructor|done].
Qed.

Lemma stop_drive_fin o k l :
  stopping l <> NotStopping -> stopping (Nat.iter k (stop_drive o) l) = NotStopping ->
  sup (Nat.iter k (stop_drive o) l) = NoTask /\ queue (Nat.iter k (stop_drive o) l) = [].
Proof.
  intros Hs. induction k as [|k IH]; [done|]. rewrite Nat.iter_succ.
  generalize dependent (Nat.iter k (stop_drive o) l). intros l1 IH. unfold stop_drive.
  destruct (stopping l1) eqn:Eg; [intros _; by apply IH| |].
  - destruct (stop_poison_frame l1) as (_&_&_&_&->&_). done.
  - destruct (stop_finish_facts l1) as (?&?&?&_). destruct (sup l1); try done; try (simpl; congruence).
    + unfold sup_take. destruct (queue l1) as [|[] ?]; simpl; congruence.
    + destruct (sup_finish_frame w o l1) as (_&_&_&->&_). congruence.
Qed.

(** [stop] always reaches its end: from every reachable state in which it
    is in progress, and however the handler in flight ends, five steps of
    [stop] and of the supervisor bring it to its return, with the supervisor
    gone, the queue empty, and every handle settled except those of resolvers
    that outlived the bounded wait, those whose [enqueue] had answered [False]
    and those of resolvers a [stop] cancelled before they had started. *)
Theorem stop_returns_and_settles n tr l o :
  run (new_loop n) tr l -> stopping l <> NotStopping ->
  exists tr', run l tr' (Nat.iter 5 (stop_drive o) l) /\
  stopping (Nat.iter 5 (stop_drive o) l) = NotStopping /\
  sup (Nat.iter 5 (stop_drive o) l) = NoTask /\
  queue (Nat.iter 5 (stop_drive o) l) = [] /\
  forall h, handles (Nat.iter 5 (stop_drive o) l) !! h = Some Pending ->
    Exists (let_go h) tr \/ resolving (Nat.iter 5 (stop_drive o) l) h.
Proof.
  intros Hr Hs.
  assert (phase_ok l) as Hl.
  { refine (run_invariant _ lstep_phase_ok _ _ _ Hr _). by split. }
  destruct (stop_drive_n o 5 l Hl) as (tr'&Hr'&Hf&Hg).
  { unfold stop_rank. destruct (stopping l); [lia..|destruct (sup l); lia]. }
  destruct (stop_drive_fin o 5 l) as [Es Eq]; [done|done|].
  exists tr'. repeat (split; [done|]). intros h Hh.
  destruct (pending_owned n (tr ++ tr') _ h (run_app _ _ _ _ _ Hr Hr') Hh)
    as [[(w&Hw&_)|[(w&Hw&_)|He]]|[Hin|Hin]%Exists_app]; auto.
  - rewrite Eq in Hw. by apply not_elem_of_nil in Hw.
  - congruence.
  - rewrite Forall_forall in Hf. apply Exists_exists in Hin as (lab&Hin&Hlet).
    apply Hf in Hin. by destruct Hlet as [->|(hs&->&_)].
Qed.

(** ** A concrete run *)

(** One step in front of a run. *)
Lemma run_step l lab l1 tr l2 : lstep l lab l1 -> run l1 tr l2 -> run l (lab :: tr) l2.
Proof. intros Hs Hr. apply (run_app l [lab] l1); [|done]. apply (run_snoc _ [] l); [constructor|done]. Qed.

Definition demo_event : AgentEvent :=
  mkEvent CHANNEL_MESSAGE [] None None None None 0 [].
Definition demo_wake : wake := InboundEventWake demo_event (Some 0%nat).

(** Start, a first dispatch accepted, a second refused by the full queue, the
    first taken, and [stop] waiting for its handler. *)
Definition demo_trace : list label :=
  [Silent; Silent; Accepted demo_wake; Refused 1%nat; Taken demo_wake; Stopping [];
   Accepted StopSentinel].

Definition demo_ready : Loop := sup_check (start (new_loop 1)).
Definition demo_full : Loop := snd (submit FromTask 0 demo_event demo_ready).
Definition demo_refused : Loop := snd (submit FromTask 1 demo_event demo_full).
Definition demo_taken : Loop := default demo_refused (sup_take demo_refused).
Definition demo_loop : Loop := stop_poison (stop_begin demo_taken).

Lemma demo_run : run (new_loop 1) demo_trace demo_loop.
Proof.
  apply (run_snoc _ [Silent; Silent; Accepted demo_wake; Refused 1%nat; Taken demo_wake; Stopping []]
           (stop_begin demo_taken)); [|by apply (step_poison (stop_begin demo_taken))].
  apply (run_snoc _ [Silent; Silent; Accepted demo_wake; Refused 1%nat; Taken demo_wake]
           demo_taken); [|by apply step_stop].
  apply (run_snoc _ [Silent; Silent; Accepted demo_wake; Refused 1%nat] demo_refused);
    [|by apply (step_take demo_refused _ [])].
  apply (run_snoc _ [Silent; Silent; Accepted demo_wake] demo_full);
    [|by apply (step_submit FromTask 1 demo_event demo_full 1%nat false demo_refused)].
  apply (run_snoc _ [Silent; Silent] demo_ready);
    [|by apply (step_submit FromTask 0 demo_event demo_ready 0%nat true demo_full)].
  apply (run_snoc _ [Silent] (start (new_loop 1))); [|by apply (step_check (start (new_loop 1)))].
  apply (run_snoc _ [] (new_loop 1)); [constructor|by apply (step_start (new_loop 1))].
Qed.

Lemma wake_queue_fifo_witness :
  run (new_loop 1) demo_trace demo_loop /\
  entered demo_trace = (left_queue demo_trace ++ queue demo_loop)%list.
Proof. split; [apply demo_run|apply (wake_queue_fifo 1), demo_run]. Defined.

Lemma queue_bounded_and_log_throttled_witness :
  (Z.of_nat (length (queue demo_loop)) <= 1)%Z /\
  spaced QUEUE_FULL_LOG_INTERVAL_S (warnings demo_loop).
Proof. apply (queue_bounded_and_log_throttled 1 demo_trace); [lia|apply demo_run]. Defined.

Lemma handle_settled_once_witness :
  handles (sup_finish demo_wake (Returned []) demo_loop) !! 0%nat = Some (Result []).
Proof.
  apply (handle_settled_once (sup_finish demo_wake (Returned []) demo_loop) []);
    [constructor|reflexivity|reflexivity].
Defined.

Lemma no_orphan_handle_witness :
  owned demo_loop 0 \/ Refused 0 ∈ demo_trace \/ exists hs, Stopping hs ∈ demo_trace /\ 0%nat ∈ hs.
Proof. apply (no_orphan_handle 1); [apply demo_run|reflexivity]. Defined.

(** The handler of a dispatch sends to its own agent, whose wake goes to a
    resolver task; [stop] is called before that task's first step. The comment
    of [stop] says that every such handle is settled by the time it returns. *)
Definition reentrant_loop : Loop :=
  snd (submit FromSupervisor 0 demo_event (default demo_full (sup_take demo_full))).

Definition orphan_loop : Loop :=
  stop_finish (sup_check (sup_finish demo_wake (Returned [])
    (stop_poison (reentrant_discard 0 (stop_begin reentrant_loop))))).

Lemma unstarted_resolver_orphaned :
  exists tr, run (new_loop 1) tr orphan_loop /\ stopping orphan_loop = NotStopping /\
  Exists (λ lab, lab = Stopping [1%nat]) tr /\ Refused 1 ∉ tr /\
  handles orphan_loop = [Result []; Pending] /\ ~ owned orphan_loop 1.
Proof.
  set (l1 := default demo_full (sup_take demo_full)). set (l2 := stop_begin reentrant_loop).
  set (l3 := reentrant_discard 0 l2). set (l4 := stop_poison l3). set (l5 := sup_finish demo_wake (Returned []) l4).
  exists [Silent; Silent; Accepted demo_wake; Taken demo_wake; Silent; Stopping [1%nat]; Silent;
          Accepted StopSentinel; Silent; Silent; Drained [StopSentinel]]. split; [|split_and!].
  - apply (run_step _ _ (start (new_loop 1))); [by apply (step_start (new_loop 1))|].
    apply (run_step _ _ demo_ready); [by apply (step_check (start (new_loop 1)))|].
    apply (run_step _ _ demo_full); [by apply (step_submit FromTask 0 demo_event demo_ready 0%nat true demo_full)|].
    apply (run_step _ _ l1); [by apply (step_take demo_full demo_wake [] l1)|].
    apply (run_step _ _ reentrant_loop).
    { apply (step_submit FromSupervisor 0 demo_event l1 1%nat true reentrant_loop); [by exists demo_wake|done]. }
    apply (run_step _ _ l2); [by apply (step_stop reentrant_loop)|].
    apply (run_step _ _ l3); [by apply (step_doomed l2 0 (mkResolver demo_event 1 Doomed))|].
    apply (run_step _ _ l4); [by apply (step_poison l3)|].
    apply (run_step _ _ l5); [by apply (step_finish l4 demo_wake (Returned []))|].
    apply (run_step _ _ (sup_check l5)); [by apply (step_check l5)|].
    apply (run_step _ _ orphan_loop); [by apply (step_stopped (sup_check l5))|constructor].
  - done.
  - do 5 apply Exists_cons_tl. by apply Exists_cons_hd.
  - cbn. rewrite list_elem_of_In. cbn. naive_solver.
  - done.
  - intros [(w&Hw&_)|[(w&Hw&_)|(r&Hr&_)]]; [by apply not_elem_of_nil in Hw|done|by apply not_elem_of_nil in Hr].
Qed.

Lemma stop_returns_and_settles_witness :
  exists tr', run demo_loop tr' (Nat.iter 5 (stop_drive Cancelled) demo_loop) /\
  queue (Nat.iter 5 (stop_drive Cancelled) demo_loop) = [].
Proof.
  destruct (stop_returns_and_settles 1 demo_trace demo_loop Cancelled) as (tr'&Hr&_&_&Hq&_);
    [apply demo_run|discriminate|]. exists tr'. split; assumption.
Defined.

(** Before [start] there is no supervisor task, yet a plain loop callback passes
    for it: [None is None]. *)
Lemma callback_before_start_in_supervisor n : in_supervisor (new_loop n) FromCallback = true.
Proof. reflexivity. Qed.
