(* ===== verification/Timers.v ===== *)
(** * Per-agent timers

    Models [agents/event_loop_timers.py] and the timer part of
    [EventLoop.stop]: the registry of periodic and one-shot timers, the
    [call_later] callbacks they arm, and the wakes those enqueue. Entries are
    shared objects (the registry and the armed closure both hold one), so they
    live in a heap addressed by position. *)

From S2P Require Import Prelude PyStr PyDict PyValue PersonaEvents MemoryEvents EventLoop EventLoopProps.
Local Open Scope string_scope.
Local Open Scope py_scope.

Definition MIN_INTERVAL : Q := 1.

Record TimerEntry := mkEntry {
  interval : option Q;
  callback_kind : string;
  jitter_max : Q;
  te_handle : option nat;          (* the armed callback *)
  cancelled : bool;
  one_shot : bool;
}.

Definition set_handle h e :=
  mkEntry (interval e) (callback_kind e) (jitter_max e) h (cancelled e) (one_shot e).
Definition set_cancelled e :=
  mkEntry (interval e) (callback_kind e) (jitter_max e) (te_handle e) true (one_shot e).

(** A [call_later] handle: the closure [_fire] over its timer id and entry. *)
Record Call := mkCall { for_timer : string; for_entry : nat; delay : Q; live : bool }.

Definition kill (c : Call) : Call := mkCall (for_timer c) (for_entry c) (delay c) false.

Record Timers := mkTimers {
  lp : Loop;
  timers : gmap string nat;
  entries : list TimerEntry;
  calls : list Call;
}.

Definition no_timers (l : Loop) : Timers := mkTimers l ∅ [] [].

Definition has_timer (timer_id : string) (t : Timers) : bool :=
  bool_decide (is_Some (timers t !! timer_id)).

(** [random.uniform(a, b)], with [r] the generator's draw from [0, 1). *)
Definition uniform (a b r : Q) : Q := a + (b - a) * r.

Definition next_delay (r : Q) (e : TimerEntry) : result string Q :=
  match interval e with
  | None => Raise "RuntimeError"
  | Some i =>
      if Qle_bool (jitter_max e) 0 then Ok i
      else Ok (i + uniform (- jitter_max e) (jitter_max e) r)%Q
  end.

(** [entry.handle = call_later(d, _fire)] *)
Definition call_later (timer_id : string) (k : nat) (d : Q) (t : Timers) : Timers :=
  mkTimers (lp t) (timers t)
    (alter (set_handle (Some (length (calls t)))) k (entries t))
    (calls t ++ [mkCall timer_id k d true]).

Definition arm_timer (timer_id : string) (k : nat) (e : TimerEntry) (initial_delay : option Q)
    (r : Q) (t : Timers) : result string Timers :=
  let! d := match initial_delay with Some d => Ok d | None => next_delay r e end in
  Ok (call_later timer_id k d t).

(** The guards of [register_timer], in order. *)
Definition register_check (t : Timers) (timer_id : string) (interval fire_after : option Q)
    (jitter_max : Q) (initial_delay : option Q) : option string :=
  if has_timer timer_id t then Some "already registered"
  else if eqb (bool_decide (interval = None)) (bool_decide (fire_after = None))
  then Some "exactly one of interval or fire_after"
  else if match interval with Some i => Qltb i MIN_INTERVAL | None => false end
  then Some "interval below _MIN_INTERVAL"
  else if match fire_after with Some f => Qle_bool f 0 | None => false end
  then Some "fire_after must be positive"
  else if Qltb jitter_max 0 then Some "jitter_max must be non-negative"
  else if match interval with Some i => Qltb (i - MIN_INTERVAL) jitter_max | None => false end
  then Some "jitter_max exceeds slack"
  else match initial_delay with
       | None => None
       | Some d =>
           if negb (bool_decide (fire_after = None)) then Some "initial_delay is for periodic timers"
           else if Qltb d 0 then Some "initial_delay must be non-negative" else None
       end.

Definition register_timer (timer_id callback_kind : string) (interval : option Q)
    (jitter_max : Q) (fire_after initial_delay : option Q) (r : Q) (t : Timers) :
    result string Timers :=
  match register_check t timer_id interval fire_after jitter_max initial_delay with
  | Some message => Raise message
  | None =>
      let e := mkEntry interval callback_kind jitter_max None false
                 (negb (bool_decide (fire_after = None))) in
      let k := length (entries t) in
      let t := mkTimers (lp t) (<[timer_id := k]> (timers t)) (entries t ++ [e]) (calls t) in
      arm_timer timer_id k e (match fire_after with Some f => Some f | None => initial_delay end) r t
  end.

(** [handle.cancel()] *)
Definition cancel_call (oh : option nat) (cs : list Call) : list Call :=
  match oh with Some i => alter kill i cs | None => cs end.

(** [entry.cancelled = True; entry.handle.cancel()] *)
Definition cancel_entry (k : nat) (t : Timers) : Timers :=
  match entries t !! k with
  | Some e => mkTimers (lp t) (timers t) (alter set_cancelled k (entries t))
                (cancel_call (te_handle e) (calls t))
  | None => t
  end.

Definition unregister_timer (timer_id : string) (t : Timers) : Timers :=
  match timers t !! timer_id with
  | None => t
  | Some k => cancel_entry k (mkTimers (lp t) (delete timer_id (timers t)) (entries t) (calls t))
  end.

(** The armed callback [i] comes due: [_fire]. *)
Definition fire (now r : Q) (i : nat) (t : Timers) : result string Timers :=
  match calls t !! i with
  | Some c =>
      if negb (live c) then Ok t else
      let t := mkTimers (lp t) (timers t) (entries t) (alter kill i (calls t)) in
      match entries t !! for_entry c with
      | Some e =>
          if cancelled e then Ok t else
          let '(_, l) := enqueue FromCallback now
                           (ScheduledWake (for_timer c) (callback_kind e)) (lp t) in
          let t := mkTimers l (timers t) (entries t) (calls t) in
          if one_shot e then Ok (mkTimers l (delete (for_timer c) (timers t)) (entries t) (calls t))
          else arm_timer (for_timer c) (for_entry c) e None r t
      | None => Ok t
      end
  | None => Ok t
  end.

(** [stop()] up to its first await, timers included. *)
Definition stop_timers (t : Timers) : Timers :=
  let t := fold_left (λ t k, cancel_entry k t) (map_to_list (timers t)).*2 t in
  mkTimers (stop_begin (lp t)) ∅ (entries t) (calls t).

(** One action of the timer half of the loop. *)
Inductive tstep : Timers -> Timers -> Prop :=
| t_loop t lab l' :
    lstep (lp t) lab l' -> (stopping (lp t) = NotStopping -> stopping l' = NotStopping) ->
    tstep t (mkTimers l' (timers t) (entries t) (calls t))
| t_register t timer_id ck i j f d r t' :
    (0 <= r < 1)%Q -> register_timer timer_id ck i j f d r t = Ok t' -> tstep t t'
| t_unregister t timer_id : tstep t (unregister_timer timer_id t)
| t_fire t now r i t' : (0 <= r < 1)%Q -> fire now r i t = Ok t' -> tstep t t'
| t_stop t : stopping (lp t) = NotStopping -> tstep t (stop_timers t).

Definition treach (n : Z) (t : Timers) : Prop := rtc tstep (no_timers (new_loop n)) t.

(** ** The registry invariant *)

(** What [register_timer] guarantees of an entry. *)
Definition entry_wf (e : TimerEntry) : Prop :=
  match interval e with
  | Some i => one_shot e = false /\ (MIN_INTERVAL <= i)%Q /\
              (0 <= jitter_max e)%Q /\ (jitter_max e <= i - MIN_INTERVAL)%Q
  | None => one_shot e = true
  end.

(** Timer [id] is entry [k], armed by the live callback [i]. *)
Definition armed (t : Timers) (id : string) (k i : nat) : Prop :=
  timers t !! id = Some k /\
  exists e c, entries t !! k = Some e /\ cancelled e = false /\ entry_wf e /\
    te_handle e = Some i /\ calls t !! i = Some c /\ live c = true /\
    for_timer c = id /\ for_entry c = k.

(** Registered timers and live callbacks correspond one to one. *)
Definition timers_ok (t : Timers) : Prop :=
  (forall id k, timers t !! id = Some k -> exists i, armed t id k i) /\
  (forall i c, calls t !! i = Some c -> live c = true -> armed t (for_timer c) (for_entry c) i).

Lemma armed_entry_inj t id id' k i i' : armed t id k i -> armed t id' k i' -> id = id' /\ i = i'.
Proof. intros (_&e&c&?&?&?&?&?&?&?&?) (_&e'&c'&?&?&?&?&?&?&?&?). simplify_eq. auto. Qed.

Lemma armed_call_inj t id id' k k' i : armed t id k i -> armed t id' k' i -> id = id' /\ k = k'.
Proof. intros (_&e&c&?&?&?&?&?&?&?&?) (_&e'&c'&?&?&?&?&?&?&?&?). simplify_eq. auto. Qed.

(** [armed] only looks at its own registry slot, entry and callback. *)
Lemma armed_frame t t' id k i :
  armed t id k i -> timers t' !! id = timers t !! id ->
  entries t' !! k = entries t !! k -> calls t' !! i = calls t !! i -> armed t' id k i.
Proof. intros [Ht He] E1 E2 E3. unfold armed. by rewrite E1, E2, E3. Qed.

Lemma call_later_armed t id k e d :
  timers t !! id = Some k -> entries t !! k = Some e -> cancelled e = false -> entry_wf e ->
  armed (call_later id k d t) id k (length (calls t)).
Proof.
  intros Ht He Hc Hw. split; [done|]. exists (set_handle (Some (length (calls t))) e), (mkCall id k d true).
  simpl. rewrite list_lookup_alter_eq, He. repeat split; try done.
  by rewrite list_lookup_middle.
Qed.

(** Arming the one timer that has no live callback restores the invariant. *)
Lemma call_later_ok t id k e d :
  timers t !! id = Some k -> entries t !! k = Some e -> cancelled e = false -> entry_wf e ->
  (forall id' k', id' <> id -> timers t !! id' = Some k' -> k' <> k /\ exists i, armed t id' k' i) ->
  (forall i c, calls t !! i = Some c -> live c = true ->
     for_timer c <> id /\ armed t (for_timer c) (for_entry c) i) ->
  timers_ok (call_later id k d t).
Proof.
  intros Ht He Hc Hw Hreg Hlive. pose proof (call_later_armed t id k e d Ht He Hc Hw) as Ha.
  assert (forall id' k' i, id' <> id -> armed t id' k' i -> armed (call_later id k d t) id' k' i) as Hf.
  { intros id' k' i Hne Hi. destruct (Hreg id' k' Hne (proj1 Hi)) as [Hk _].
    apply (armed_frame t); [done..| |]; simpl.
    - by rewrite list_lookup_alter_ne.
    - destruct Hi as (_&?&?&_&_&_&_&Hi&_). rewrite Hi. by apply lookup_app_l_Some. }
  split.
  - intros id' k' Hk. destruct (decide (id' = id)) as [->|Hne]; [simpl in Hk; simplify_eq; eauto|].
    destruct (Hreg id' k' Hne Hk) as [_ [i Hi]]. eauto.
  - intros i c Hi Hl. simpl in Hi. apply lookup_snoc_Some in Hi as [[_ Hi]|[-> <-]]; [|done].
    destruct (Hlive i c Hi Hl). auto.
Qed.

Lemma register_check_None t timer_id i f j d :
  register_check t timer_id i f j d = None <->
  timers t !! timer_id = None /\ (0 <= j)%Q /\
  match i, f with
  | Some i, None => (MIN_INTERVAL <= i)%Q /\ (j <= i - MIN_INTERVAL)%Q /\
                    match d with Some d => (0 <= d)%Q | None => True end
  | None, Some f => (0 < f)%Q /\ d = None
  | _, _ => False
  end.
Proof.
  unfold register_check, has_timer. case_bool_decide as Ht.
  { split; [done|]. intros (E&_). rewrite E in Ht. by destruct Ht. }
  rewrite <- eq_None_not_Some in Ht.
  destruct i as [i|], f as [f|]; simpl; try (split; [done|tauto]).
  - destruct (Qltb i _) eqn:E1; [q_props; split; [done|lra]|].
    destruct (Qltb j 0) eqn:E2; [q_props; split; [done|lra]|].
    destruct (Qltb _ j) eqn:E3; [q_props; split; [done|lra]|]. q_props.
    destruct d as [d|]; [|tauto]. simpl. destruct (Qltb d 0) eqn:E4; q_props; split; try done; try lra; try tauto.
  - destruct (Qle_bool f 0) eqn:E1; [q_props; split; [done|lra]|].
    destruct (Qltb j 0) eqn:E2; [q_props; split; [done|lra]|]. q_props.
    destruct d as [d|]; simpl; split; try done; try tauto; intuition congruence.
Qed.

Lemma register_timer_Ok t timer_id ck i j f d r t' :
  register_timer timer_id ck i j f d r t = Ok t' ->
  exists e delay, entry_wf e /\ cancelled e = false /\ interval e = i /\ jitter_max e = j /\
  callback_kind e = ck /\ timers t !! timer_id = None /\
  match f with Some f => delay = f | None => match d with Some d => delay = d | None => next_delay r e = Ok delay end end /\
  t' = call_later timer_id (length (entries t)) delay
         (mkTimers (lp t) (<[timer_id := length (entries t)]> (timers t)) (entries t ++ [e]) (calls t)).
Proof.
  intros H. unfold register_timer in H. destruct (register_check _ _ _ _ _ _) eqn:E; [done|].
  apply register_check_None in E as (Ht&Hj&E).
  exists (mkEntry i ck j None false (negb (bool_decide (f = None)))).
  unfold arm_timer in *. destruct i as [i|], f as [f|]; try done.
  - destruct E as (Hi&Hs&_). destruct d as [d|].
    + injection H as <-. exists d. repeat split; done.
    + apply rbind_Ok in H as (dl&Hd&[= <-]). exists dl. repeat split; done.
  - destruct E as (Hf&->). injection H as <-. exists f. repeat split; done.
Qed.

Lemma lookup_kill i j (cs : list Call) c :
  alter kill i cs !! j = Some c -> live c = true -> j <> i /\ cs !! j = Some c.
Proof.
  destruct (decide (j = i)) as [->|Hne].
  - rewrite list_lookup_alter_eq. intros (c'&_&->)%fmap_Some. done.
  - rewrite list_lookup_alter_ne by done. auto.
Qed.

(** Another timer's arming survives the end of timer [id]. *)
Lemma armed_other t t' id k i id' k' i' :
  armed t id k i -> armed t id' k' i' -> id' <> id ->
  (forall id', id' <> id -> timers t' !! id' = timers t !! id') ->
  (forall k', k' <> k -> entries t' !! k' = entries t !! k') ->
  calls t' = alter kill i (calls t) -> armed t' id' k' i'.
Proof.
  intros Ha Ha' Hne Ht He Hc. apply (armed_frame t); [done|auto| |].
  - apply He. intros ->. destruct (armed_entry_inj _ _ _ _ _ _ Ha Ha'). congruence.
  - rewrite Hc, list_lookup_alter_ne; [done|]. intros ->.
    destruct (armed_call_inj _ _ _ _ _ _ Ha Ha'). congruence.
Qed.

Lemma drop_timer_ok t t' id k i :
  timers_ok t -> armed t id k i -> timers t' = delete id (timers t) ->
  (forall k', k' <> k -> entries t' !! k' = entries t !! k') ->
  calls t' = alter kill i (calls t) -> timers_ok t'.
Proof.
  intros [H1 H2] Ha Ht He Hc.
  assert (forall id', id' <> id -> timers t' !! id' = timers t !! id') as Ht'.
  { intros id' Hne. by rewrite Ht, lookup_delete_ne by done. }
  split.
  - intros id' k' Hk. rewrite Ht in Hk. apply lookup_delete_Some in Hk as [Hne Hk].
    destruct (H1 id' k' Hk) as [i' Hi]. exists i'. by apply (armed_other t t' id k i).
  - intros j c Hj Hl. rewrite Hc in Hj. apply lookup_kill in Hj as [Hne Hj]; [|done].
    pose proof (H2 j c Hj Hl) as Hc'. apply (armed_other t t' id k i); try done.
    intros E. rewrite E in Hc'. assert (for_entry c = k) as Ee by (destruct Ha, Hc'; congruence).
    rewrite Ee in Hc'. destruct (armed_entry_inj _ _ _ _ _ _ Ha Hc'). congruence.
Qed.

Lemma register_timer_ok t timer_id ck i j f d r t' :
  timers_ok t -> register_timer timer_id ck i j f d r t = Ok t' -> timers_ok t'.
Proof.
  intros [H1 H2] (e&dl&Hw&Hc&_&_&_&Hn&_&->)%register_timer_Ok.
  set (t1 := mkTimers _ _ _ _).
  assert (forall id' k' i', timers t !! id' = Some k' -> armed t id' k' i' ->
          id' <> timer_id /\ k' <> length (entries t) /\ armed t1 id' k' i') as Hf.
  { intros id' k' i' Hk Ha. assert (id' <> timer_id) by congruence. split; [done|].
    destruct (proj2 Ha) as (e'&_&He'&_). split; [apply lookup_lt_Some in He'; lia|].
    apply (armed_frame t); [done|simpl; by rewrite lookup_insert_ne by done| |done].
    simpl. rewrite He'. by apply lookup_app_l_Some. }
  apply (call_later_ok t1 timer_id _ e); simpl; try done.
  - by rewrite lookup_insert_eq.
  - by apply list_lookup_middle.
  - intros id' k' Hne Hk. rewrite lookup_insert_ne in Hk by done.
    destruct (H1 id' k' Hk) as [i' Hi]. destruct (Hf id' k' i' Hk Hi) as (_&?&?). eauto.
  - intros i' c Hi Hl. pose proof (H2 i' c Hi Hl) as Ha.
    destruct (Hf _ _ _ (proj1 Ha) Ha) as (?&_&?). done.
Qed.

Lemma unregister_timer_ok t timer_id : timers_ok t -> timers_ok (unregister_timer timer_id t).
Proof.
  intros Hok. unfold unregister_timer. destruct (timers t !! timer_id) as [k|] eqn:Ek; [|done].
  destruct (proj1 Hok _ _ Ek) as [i Ha]. pose proof Ha as (_&e&c&He&_&_&Hh&_).
  apply (drop_timer_ok t _ timer_id k i Hok Ha); unfold cancel_entry; simpl; rewrite He; simpl.
  - done.
  - intros k' Hk. by rewrite list_lookup_alter_ne.
  - by rewrite Hh.
Qed.

Lemma fire_ok t now r i t' : timers_ok t -> fire now r i t = Ok t' -> timers_ok t'.
Proof.
  intros Hok. unfold fire. destruct (calls t !! i) as [c|] eqn:Ei; [|by intros [= <-]].
  destruct (live c) eqn:El; [|by intros [= <-]]. simpl.
  pose proof (proj2 Hok i c Ei El) as Ha. pose proof Ha as (Ht&e&c'&He&Hc&Hw&_).
  rewrite He, Hc. destruct (enqueue _ _ _ _) as [ok l].
  destruct (one_shot e) eqn:Eo.
  { intros [= <-]. by apply (drop_timer_ok t _ (for_timer c) (for_entry c) i). }
  unfold arm_timer. intros (dl&Hd&[= <-])%rbind_Ok.
  assert (forall id' k' i', id' <> for_timer c -> armed t id' k' i' ->
    armed (mkTimers l (timers t) (entries t) (alter kill i (calls t))) id' k' i') as Hf.
  { intros. by apply (armed_other t _ (for_timer c) (for_entry c) i). }
  apply (call_later_ok (mkTimers l (timers t) (entries t) (alter kill i (calls t)))
           (for_timer c) (for_entry c) e); simpl; try done.
  - intros id' k' Hne Hk. destruct (proj1 Hok id' k' Hk) as [i' Hi]. split; [|eauto].
    intros ->. destruct (armed_entry_inj _ _ _ _ _ _ Ha Hi). congruence.
  - intros j cj Hj Hl. apply lookup_kill in Hj as [Hne Hj]; [|done].
    pose proof (proj2 Hok j cj Hj Hl) as Haj.
    assert (for_timer cj <> for_timer c) as Hn; [|auto]. intros E.
    rewrite E in Haj. assert (for_entry c = for_entry cj) as Ee by (destruct Haj; congruence).
    rewrite <- Ee in Haj. destruct (armed_entry_inj _ _ _ _ _ _ Ha Haj). congruence.
Qed.

(** ** [stop] *)

Definition handles_current (t : Timers) : Prop :=
  forall i c, calls t !! i = Some c -> live c = true ->
  exists e, entries t !! for_entry c = Some e /\ te_handle e = Some i.

Lemma cancel_entry_live k t i c :
  handles_current t -> calls (cancel_entry k t) !! i = Some c -> live c = true ->
  calls t !! i = Some c /\ for_entry c <> k.
Proof.
  unfold cancel_entry. intros Hh. destruct (entries t !! k) as [e|] eqn:Ek; simpl; intros Hi Hl.
  - destruct (te_handle e) as [j|] eqn:Ej; simpl in Hi.
    + apply lookup_kill in Hi as [Hne Hi]; [|done]. split; [done|]. intros E.
      destruct (Hh i c Hi Hl) as (e'&He'&Hj'). rewrite E in He'. congruence.
    + split; [done|]. intros E. destruct (Hh i c Hi Hl) as (e'&He'&Hj'). rewrite E in He'. congruence.
  - split; [done|]. intros E. destruct (Hh i c Hi Hl) as (e'&He'&_). rewrite E in He'. congruence.
Qed.

Lemma cancel_entry_current k t : handles_current t -> handles_current (cancel_entry k t).
Proof.
  intros Hh i c Hi Hl. apply cancel_entry_live in Hi as [Hi Hne]; [|done..].
  destruct (Hh i c Hi Hl) as (e&He&Hj). exists e. split; [|done].
  unfold cancel_entry. destruct (entries t !! k); [simpl|done].
  by rewrite list_lookup_alter_ne by congruence.
Qed.

Lemma cancel_entries_live ks t i c :
  handles_current t -> calls (fold_left (λ t k, cancel_entry k t) ks t) !! i = Some c ->
  live c = true -> calls t !! i = Some c /\ for_entry c ∉ ks.
Proof.
  revert t. induction ks as [|k ks IH]; simpl; intros t Hh Hi Hl.
  - split; [done|apply not_elem_of_nil].
  - apply IH in Hi as [Hi Hn]; [|by apply cancel_entry_current|done].
    apply cancel_entry_live in Hi as [Hi Hne]; [|done..]. split; [done|].
    rewrite elem_of_cons. tauto.
Qed.

Lemma timers_ok_current t : timers_ok t -> handles_current t.
Proof. intros [_ H] i c Hi Hl. destruct (H i c Hi Hl) as (_&e&c'&He&_&_&Hh&_). eauto. Qed.

Lemma stop_timers_live t i c :
  timers_ok t -> calls (stop_timers t) !! i = Some c -> live c = false.
Proof.
  intros Hok Hi. destruct (live c) eqn:Hl; [exfalso|done].
  apply cancel_entries_live in Hi as [Hi Hn]; [|by apply timers_ok_current|done].
  apply Hn. apply list_elem_of_fmap. exists (for_timer c, for_entry c). split; [done|].
  apply elem_of_map_to_list. apply (proj2 Hok i c Hi Hl).
Qed.

Lemma stop_timers_ok t : timers_ok t -> timers_ok (stop_timers t).
Proof.
  intros Hok. split; [done|]. intros i c Hi Hl.
  by rewrite (stop_timers_live t i c Hok Hi) in Hl.
Qed.

Lemma tstep_ok t t' : tstep t t' -> timers_ok t -> timers_ok t'.
Proof.
  intros Hs Hok. destruct Hs.
  - destruct Hok as [H1 H2]. split; simpl.
    + intros id k Hk. destruct (H1 id k Hk) as [i Hi]. by exists i.
    + intros i c Hi Hl. exact (H2 i c Hi Hl).
  - by eapply register_timer_ok.
  - by apply unregister_timer_ok.
  - by eapply fire_ok.
  - by apply stop_timers_ok.
Qed.

Lemma treach_ok n t : treach n t -> timers_ok t.
Proof.
  unfold treach. intros Hr. remember (no_timers (new_loop n)) as t0 eqn:E.
  assert (timers_ok t0) as H0 by (subst; by split).
  clear E. induction Hr; [done|]. eauto using tstep_ok.
Qed.

(** ** Properties *)

(** Registered timers and armed callbacks correspond one to one in every
    reachable state: each registered timer has exactly one callback that can
    still fire, its entry is valid and not cancelled, and no callback that can
    still fire belongs to an unregistered timer. *)
Theorem timers_match_callbacks n t : treach n t -> timers_ok t.
Proof. apply treach_ok. Qed.

(** After [unregister_timer] no callback of that timer can fire, after [stop]
    none at all, and neither leaves the timer registered. *)
Theorem disarmed_timers_are_silent n t id :
  treach n t ->
  (timers (unregister_timer id t) !! id = None /\
   forall i c, calls (unregister_timer id t) !! i = Some c -> live c = true -> for_timer c <> id) /\
  (timers (stop_timers t) = ∅ /\
   forall i c, calls (stop_timers t) !! i = Some c -> live c = false).
Proof.
  intros Hok%treach_ok. split; [|split; [done|]; intros i c; by apply stop_timers_live].
  assert (timers (unregister_timer id t) !! id = None) as Hn.
  { unfold unregister_timer. destruct (timers t !! id) as [k|] eqn:Ek; [|done].
    unfold cancel_entry. simpl. destruct (entries t !! k); apply lookup_delete_eq. }
  split; [done|]. intros i c Hi Hl E.
  destruct (proj2 (unregister_timer_ok t id Hok) i c Hi Hl) as [Ht _]. congruence.
Qed.

Lemma uniform_bounds j r : (0 <= j)%Q -> (0 <= r < 1)%Q ->
  (- j <= uniform (- j) j r <= j)%Q.
Proof. unfold uniform. intros Hj [H0 H1]. split; nra. Qed.

Lemma next_delay_bounds r e i :
  entry_wf e -> interval e = Some i -> (0 <= r < 1)%Q ->
  exists d, next_delay r e = Ok d /\ (i - jitter_max e <= d <= i + jitter_max e)%Q /\
  (MIN_INTERVAL <= d)%Q.
Proof.
  unfold entry_wf, next_delay. intros Hw Ei Hr. rewrite Ei in *. destruct Hw as (_&Hi&Hj&Hs).
  destruct (Qle_bool (jitter_max e) 0) eqn:E; q_props.
  - exists i. split; [done|]. split; [split; lra|done].
  - exists (i + uniform (- jitter_max e) (jitter_max e) r)%Q.
    destruct (uniform_bounds (jitter_max e) r Hj Hr). split; [done|]. split; [split; lra|lra].
Qed.

(** A due callback never raises, and re-arms only a periodic timer, at most
    [jitter_max] away from its interval and never below the busy-loop floor:
    no sequence of registrations makes the loop spin. *)
Theorem rearm_above_floor n t now r i :
  treach n t -> (0 <= r < 1)%Q ->
  exists t', fire now r i t = Ok t' /\
  (length (calls t') = length (calls t) \/
   exists c e iv, calls t' = (alter kill i (calls t) ++ [c])%list /\
     entries t !! for_entry c = Some e /\ interval e = Some iv /\ one_shot e = false /\
     (iv - jitter_max e <= delay c <= iv + jitter_max e)%Q /\ (MIN_INTERVAL <= delay c)%Q).
Proof.
  intros Hok%treach_ok Hr. unfold fire.
  destruct (calls t !! i) as [c|] eqn:Ei; [|eauto].
  destruct (live c) eqn:El; [|simpl; eauto].
  destruct (proj2 Hok i c Ei El) as (Ht&e&c'&He&Hc&Hw&_). simpl.
  rewrite He, Hc. destruct (enqueue _ _ _ _) as [ok l].
  destruct (one_shot e) eqn:Eo.
  { eexists. split; [done|]. left. simpl. apply length_alter. }
  destruct (interval e) as [iv|] eqn:Eiv; [|unfold entry_wf in Hw; rewrite Eiv in Hw; congruence].
  destruct (next_delay_bounds r e iv Hw Eiv Hr) as (d&Hd&Hb&Hm).
  unfold arm_timer. rewrite Hd. simpl. eexists. split; [done|]. right.
  exists (mkCall (for_timer c) (for_entry c) d true), e, iv. done.
Qed.

(** [register_timer] accepts exactly the documented combinations: a fresh id,
    a non-negative jitter, and either an interval at or above the floor with
    jitter within the slack and a non-negative first delay, or a positive
    [fire_after] without an initial delay; everything else raises. *)
Theorem register_timer_accepts t timer_id ck i f j d r :
  is_ok (register_timer timer_id ck i j f d r t) = true <->
  timers t !! timer_id = None /\ (0 <= j)%Q /\
  match i, f with
  | Some i, None => (MIN_INTERVAL <= i)%Q /\ (j <= i - MIN_INTERVAL)%Q /\
                    match d with Some d => (0 <= d)%Q | None => True end
  | None, Some f => (0 < f)%Q /\ d = None
  | _, _ => False
  end.
Proof.
  rewrite <- register_check_None. unfold register_timer.
  destruct (register_check _ _ _ _ _ _) eqn:E; [done|].
  apply register_check_None in E as (Ht&Hj&E). split; [done|intros _].
  unfold arm_timer. destruct i as [i|], f as [f|]; try done.
  destruct d as [d|]; [done|]. simpl. unfold next_delay. simpl. by destruct (Qle_bool j 0).
Qed.

(** ** Witnesses *)

Definition demo_timers : Timers :=
  match register_timer "morning" "tick" (Some 10) 2 None (Some 0) (1 # 2)
          (no_timers (new_loop 4)) with
  | Ok t => t
  | Raise _ => no_timers (new_loop 4)
  end.

Lemma demo_treach : treach 4 demo_timers.
Proof.
  apply rtc_once, (t_register _ "morning" "tick" (Some 10) 2 None (Some 0) (1 # 2));
    [split; lra|reflexivity].
Qed.

Lemma timers_match_callbacks_witness : timers_ok demo_timers.
Proof. apply (timers_match_callbacks 4), demo_treach. Defined.

Lemma disarmed_timers_are_silent_witness :
  timers (unregister_timer "morning" demo_timers) !! "morning" = None /\
  timers (stop_timers demo_timers) = ∅.
Proof.
  destruct (disarmed_timers_are_silent 4 demo_timers "morning") as [[H _] [H' _]];
    [apply demo_treach|]. split; assumption.
Defined.

Lemma rearm_above_floor_witness :
  exists t', fire 0 (1 # 4) 0 demo_timers = Ok t' /\ length (calls t') = 2%nat.
Proof.
  destruct (rearm_above_floor 4 demo_timers 0 (1 # 4) 0) as (t'&Ht'&_);
    [apply demo_treach|split; lra|].
  exists t'. split; [assumption|]. vm_compute in Ht'. by injection Ht' as <-.
Defined.
