(* ===== verification/PySort.v ===== *)
(** * Python's [sorted]

    [sorted(l, key=k)] and its [reverse=True] form as a stable insertion sort
    over a total preorder given as a boolean. *)

From stdpp Require Import sorting.
From S2P Require Import Prelude.

Lemma StronglySorted_impl {A} (R Q : A -> A -> Prop) l :
  (forall a b, R a b -> Q a b) -> StronglySorted R l -> StronglySorted Q l.
Proof.
  intros H. induction 1 as [|x l _ IH Hx]; constructor; [done|].
  eapply Forall_impl; [exact Hx|]. auto.
Qed.

Lemma StronglySorted_sublist {A} (R : A -> A -> Prop) l k :
  l `sublist_of` k -> StronglySorted R k -> StronglySorted R l.
Proof.
  induction 1 as [|x l k Hl IH|x l k Hl IH]; intros Hs; [done|..];
    apply StronglySorted_inv in Hs as [Hk Hx]; [|auto].
  constructor; [auto|]. rewrite Forall_forall in *. intros y Hy. apply Hx.
  by eapply elem_of_submseteq, sublist_submseteq.
Qed.

Section py_sorted.
Context {A : Type} (le : A -> A -> bool).

Fixpoint sort_insert (x : A) (l : list A) : list A :=
  match l with
  | [] => [x]
  | y :: l' => if le x y then x :: l else y :: sort_insert x l'
  end.

Definition py_sorted (l : list A) : list A := foldr sort_insert [] l.

Lemma sort_insert_perm x l : sort_insert x l ≡ₚ x :: l.
Proof.
  induction l as [|y l IH]; simpl; [done|]. destruct (le x y); [done|].
  by rewrite IH, Permutation_swap.
Qed.

Lemma py_sorted_perm l : py_sorted l ≡ₚ l.
Proof.
  induction l as [|x l IH]; simpl; [done|]. by rewrite sort_insert_perm, IH.
Qed.

Lemma elem_of_py_sorted x l : x ∈ py_sorted l <-> x ∈ l.
Proof. by rewrite py_sorted_perm. Qed.

Lemma length_py_sorted l : length (py_sorted l) = length l.
Proof. apply Permutation_length, py_sorted_perm. Qed.

Hypothesis le_total : forall x y, le x y = false -> le y x = true.
Hypothesis le_trans : forall x y z, le x y = true -> le y z = true -> le x z = true.

Lemma sort_insert_sorted x l :
  StronglySorted (λ a b, le a b = true) l -> StronglySorted (λ a b, le a b = true) (sort_insert x l).
Proof.
  induction 1 as [|y l Hs IH Hy]; simpl; [by repeat constructor|].
  destruct (le x y) eqn:E.
  - constructor; [by constructor|]. constructor; [done|].
    eapply Forall_impl; [exact Hy|]. simpl. eauto.
  - constructor; [done|]. rewrite sort_insert_perm. constructor; auto.
Qed.

Lemma py_sorted_sorted l : StronglySorted (λ a b, le a b = true) (py_sorted l).
Proof. induction l; simpl; [constructor|]. by apply sort_insert_sorted. Qed.

(** Stability: the elements of one equivalence class keep their order. *)
Lemma sort_insert_stable x l c :
  (forall a b, le a b = true -> le b a = true -> c a = c b) ->
  (forall a b, c a = true -> c b = true -> le a b = true) ->
  StronglySorted (λ a b, le a b = true) l ->
  filter (λ a, c a = true) (sort_insert x l) = filter (λ a, c a = true) (x :: l).
Proof.
  intros Hc Hc'. induction 1 as [|y l Hs IH Hy]; simpl; [done|].
  destruct (le x y) eqn:E; [done|]. rewrite filter_cons, IH, !filter_cons.
  destruct (c y) eqn:Ey, (c x) eqn:Ex; repeat case_decide; try done.
  exfalso. rewrite (Hc' x y Ex Ey) in E. done.
Qed.

Lemma py_sorted_stable l c :
  (forall a b, le a b = true -> le b a = true -> c a = c b) ->
  (forall a b, c a = true -> c b = true -> le a b = true) ->
  filter (λ a, c a = true) (py_sorted l) = filter (λ a, c a = true) l.
Proof.
  intros Hc Hc'. induction l as [|x l IH]; [done|].
  simpl. rewrite sort_insert_stable, !filter_cons, IH; auto using py_sorted_sorted.
Qed.
End py_sorted.

(** [sorted(l, key=k)] and [sorted(l, key=k, reverse=True)] for an integer key. *)
Definition sort_by {A} (k : A -> Z) : list A -> list A := py_sorted (λ x y, k x <=? k y)%Z.
Definition sort_by_desc {A} (k : A -> Z) : list A -> list A := py_sorted (λ x y, k y <=? k x)%Z.

Lemma sort_by_desc_sorted {A} (k : A -> Z) l :
  StronglySorted (λ a b, k b <= k a)%Z (sort_by_desc k l).
Proof.
  eapply StronglySorted_impl; [|apply py_sorted_sorted].
  - intros a b H. simpl in H. by apply Z.leb_le.
  - intros x y H%Z.leb_gt. apply Z.leb_le. lia.
  - intros x y z H1%Z.leb_le H2%Z.leb_le. apply Z.leb_le. lia.
Qed.

Lemma filter_all {A} (p : A -> bool) l : Forall (λ a, p a = true) l -> List.filter p l = l.
Proof. induction 1 as [|a l Ha _ IH]; [done|]. cbn [List.filter]. rewrite Ha. by f_equal. Qed.

Lemma filter_none {A} (p : A -> bool) l : Forall (λ a, p a = false) l -> List.filter p l = [].
Proof. induction 1 as [|a l Ha _ IH]; [done|]. cbn [List.filter]. by rewrite Ha. Qed.

Lemma filter_as_stdpp {A} (p : A -> bool) (l : list A) : List.filter p l = filter (λ a, p a = true) l.
Proof.
  induction l as [|x l IH]; [done|]. rewrite filter_cons. cbn [List.filter]. rewrite IH.
  destruct (p x); by case_decide.
Qed.

(** A stable sort is determined: two sorted lists whose classes of equivalent
    elements are the same lists are equal. *)
Section sorted_unique.
Context {A : Type} (le : A -> A -> bool).
Hypothesis le_refl : forall x, le x x = true.
Hypothesis le_trans : forall x y z, le x y = true -> le y z = true -> le x z = true.

Definition class_of (x a : A) : bool := le x a && le a x.

Lemma class_refl x : class_of x x = true.
Proof. unfold class_of. by rewrite le_refl. Qed.

Lemma sorted_classes_eq l : forall k,
  StronglySorted (λ a b, le a b = true) l -> StronglySorted (λ a b, le a b = true) k ->
  (forall x, List.filter (class_of x) l = List.filter (class_of x) k) -> l = k.
Proof.
  induction l as [|x l IH]; intros k Hl Hk H.
  - destruct k as [|y k]; [done|]. specialize (H y). cbn [List.filter] in H. by rewrite class_refl in H.
  - assert (forall y m, List.filter (class_of y) (y :: m) = y :: List.filter (class_of y) m) as Hc
      by (intros y m; cbn [List.filter]; by rewrite class_refl).
    destruct k as [|y k]; [specialize (H x); by rewrite Hc in H|].
    apply StronglySorted_inv in Hl as [Hl Hxl]. apply StronglySorted_inv in Hk as [Hk Hyk].
    assert (forall a b m, Forall (λ c, le b c = true) m -> a ∈ List.filter (class_of a) (b :: m) -> le b a = true) as Hmin.
    { intros a b m Hm Ha. apply list_elem_of_In, filter_In in Ha as [[->|Ha%list_elem_of_In] _]; [apply le_refl|].
      rewrite Forall_forall in Hm. by apply Hm. }
    assert (le y x = true) as Hyx by (apply (Hmin x y k Hyk); rewrite <- H, Hc; left).
    assert (le x y = true) as Hxy by (apply (Hmin y x l Hxl); rewrite H, Hc; left).
    pose proof (H x) as Hx. rewrite Hc in Hx. cbn [List.filter] in Hx.
    assert (class_of x y = true) as E by (unfold class_of; by rewrite Hxy, Hyx). rewrite E in Hx. injection Hx as -> _.
    f_equal. apply IH; [done..|]. intros z. specialize (H z). cbn [List.filter] in H.
    destruct (class_of z y); [by injection H|done].
Qed.

Hypothesis le_total : forall x y, le x y = false -> le y x = true.

Lemma py_sorted_classes x l : List.filter (class_of x) (py_sorted le l) = List.filter (class_of x) l.
Proof.
  rewrite !filter_as_stdpp. apply py_sorted_stable; [done..| |]; unfold class_of.
  - intros a b Hab Hba. apply eq_true_iff_eq. rewrite !andb_true_iff. split; intros []; split; eauto.
  - intros a b [Ha1 Ha2]%andb_true_iff [Hb1 Hb2]%andb_true_iff. eauto.
Qed.

(** Sorting again what was sorted, but for elements moved out of it and back. *)
Lemma py_sorted_again (p : A -> bool) n c :
  Forall (λ a, p a = true) n -> Forall (λ a, p a = false) c ->
  py_sorted le (List.filter p (py_sorted le (n ++ c)) ++ c) = py_sorted le (n ++ c).
Proof.
  intros Hn Hc. apply sorted_classes_eq; [apply py_sorted_sorted; done..|].
  intros x. rewrite !py_sorted_classes, !List.filter_app. f_equal.
  assert (forall (p q : A -> bool) l, List.filter p (List.filter q l) = List.filter q (List.filter p l)) as Hcomm.
  { intros p' q l. induction l as [|a l IH]; [done|]. cbn [List.filter].
    destruct (q a) eqn:Eq, (p' a) eqn:Ep; cbn [List.filter]; rewrite ?Eq, ?Ep, IH; done. }
  rewrite Hcomm, py_sorted_classes, Hcomm, List.filter_app.
  by rewrite (filter_all p n), (filter_none p c), app_nil_r.
Qed.
End sorted_unique.
