(* ===== verification/WorkingMemory.v ===== *)
(** * Working memory: the context-window budget

    Models [agents/memory/working.py]. The LLM reply, the tokenizer and whatever
    other tasks do to the sections while a compression awaits its reply are
    inputs of [compress_if_needed]. *)

From Stdlib Require Import Sorted.
From S2P Require Import Prelude PyStr PySort.
Local Open Scope string_scope.

Record ContextSection := mkSection {
  name : string;
  content : string;
  priority : Z;
  token_count : Z;
  compressible : bool;
}.

(** The [chars/4] estimate; [encode] is the tokenizer when it is usable. *)
Definition estimate_tokens (encode : option (string -> Z)) (text : string) (accurate : bool) : Z :=
  match accurate, encode with
  | true, Some enc => enc text
  | _, _ => Z.of_nat (String.length text) / 4
  end.

Abbreviation Sections := (list ContextSection).

Definition remove_section (n : string) (secs : Sections) : Sections :=
  filter (λ s, name s <> n) secs.

Definition add_section (s : ContextSection) (secs : Sections) : Sections :=
  (remove_section (name s) secs ++ [s])%list.

Definition get_section (n : string) (secs : Sections) : option ContextSection :=
  find (λ s, String.eqb (name s) n) secs.

Definition total_tokens (secs : Sections) : Z := zsum token_count secs.

(** The loop of [build_context], over the sections in priority order. *)
Fixpoint fill (max_tokens running : Z) (l : Sections) : Sections :=
  match l with
  | [] => []
  | s :: l' =>
      if (running + token_count s <=? max_tokens)%Z
      then s :: fill max_tokens (running + token_count s) l'
      else fill max_tokens running l'
  end.

Definition build_context (max_tokens : Z) (secs : Sections) : list (string * string) :=
  map (λ s, (name s, content s)) (fill max_tokens 0 (sort_by_desc priority secs)).

(** What [create_message] did: text, no text, or an exception. *)
Inductive reply := Text (summary : option string) | CallFailed.

(** What other tasks did while the reply was awaited. *)
Inductive wm_op := AddSection (s : ContextSection) | RemoveSection (n : string).

Definition wm_apply (secs : Sections) (o : wm_op) : Sections :=
  match o with AddSection s => add_section s secs | RemoveSection n => remove_section n secs end.

Section compress.
Context (encode : option (string -> Z)) (max_tokens : Z).

(** The body of the loop once the reply is there. *)
Definition apply_reply (s : ContextSection) (r : reply) (secs : Sections) : Sections :=
  match r with
  | Text (Some summary) =>
      let n := estimate_tokens encode summary true in
      if (token_count s <=? n)%Z then secs
      else add_section (mkSection (name s) summary (priority s) n (compressible s)) secs
  | _ => secs
  end.

Fixpoint compress_loop (env : nat -> list wm_op * reply) (n : nat) (todo secs : Sections) : Sections :=
  match todo with
  | [] => secs
  | s :: todo' =>
      if (total_tokens secs <=? max_tokens)%Z then secs
      else
        let '(ops, r) := env n in
        compress_loop env (S n) todo' (apply_reply s r (fold_left wm_apply ops secs))
  end.

(** [resolvable]: [resolve] knows the compression alias. *)
Definition compress_if_needed (resolvable : bool) (env : nat -> list wm_op * reply)
    (secs : Sections) : Sections :=
  if (total_tokens secs <=? max_tokens)%Z then secs
  else
    let todo := sort_by priority (filter (λ s, compressible s = true) secs) in
    match todo with
    | [] => secs
    | _ => if resolvable then compress_loop env 0 todo secs else secs
    end.
End compress.

(** ** Sections are keyed by name *)

Definition unique_names (secs : Sections) : Prop := NoDup (map name secs).

Lemma elem_of_remove_section s n secs : s ∈ remove_section n secs <-> name s <> n /\ s ∈ secs.
Proof. unfold remove_section. by rewrite list_elem_of_filter. Qed.

Lemma elem_of_add_section s s' secs :
  s ∈ add_section s' secs <-> s = s' \/ (name s <> name s' /\ s ∈ secs).
Proof.
  unfold add_section. rewrite elem_of_app, elem_of_remove_section, list_elem_of_singleton. tauto.
Qed.

Lemma remove_section_names n secs : unique_names secs -> unique_names (remove_section n secs).
Proof.
  unfold unique_names. intros Hn. induction secs as [|s secs IH]; [done|].
  cbn in Hn. apply NoDup_cons in Hn as [Hs Hn].
  unfold remove_section in *. rewrite filter_cons. case_decide; [|auto].
  cbn. apply NoDup_cons. split; [|auto].
  intros (s'&E&Hin)%list_elem_of_fmap. apply list_elem_of_filter in Hin as [_ Hin].
  apply Hs, list_elem_of_fmap. eauto.
Qed.

Lemma add_section_names s secs : unique_names secs -> unique_names (add_section s secs).
Proof.
  intros Hn. unfold unique_names, add_section. rewrite map_app. apply NoDup_app.
  split; [by apply remove_section_names|]. split; [|apply NoDup_singleton].
  intros n (s'&->&Hs')%list_elem_of_fmap Hin%list_elem_of_singleton.
  apply elem_of_remove_section in Hs'. tauto.
Qed.

Lemma wm_apply_names ops secs : unique_names secs -> unique_names (fold_left wm_apply ops secs).
Proof.
  revert secs. induction ops as [|[s|n] ops IH]; simpl; intros secs Hn; [done|..];
    apply IH; auto using add_section_names, remove_section_names.
Qed.

Lemma get_section_spec n secs s :
  unique_names secs -> (get_section n secs = Some s <-> s ∈ secs /\ name s = n).
Proof.
  unfold get_section, unique_names. induction secs as [|x secs IH]; cbn.
  - intros _. split; [done|]. intros [H _]. by apply not_elem_of_nil in H.
  - intros [Hx Hn]%NoDup_cons. destruct (String.eqb_spec (name x) n) as [E|E].
    + split; [intros [= <-]; split; [left|done]|].
      intros [[->|Hs]%elem_of_cons Hsn]; [done|]. exfalso. apply Hx.
      apply list_elem_of_fmap. exists s. split; [congruence|done].
    + rewrite IH by done. rewrite elem_of_cons. split; [tauto|].
      intros [[->|Hs] Hsn]; [done|tauto].
Qed.

Lemma total_tokens_remove secs s :
  unique_names secs -> s ∈ secs ->
  total_tokens secs = (token_count s + total_tokens (remove_section (name s) secs))%Z.
Proof.
  unfold unique_names, total_tokens, remove_section.
  induction secs as [|x secs IH]; intros Hn Hs; [by apply not_elem_of_nil in Hs|].
  cbn in Hn. apply NoDup_cons in Hn as [Hx Hn]. rewrite filter_cons.
  apply elem_of_cons in Hs as [->|Hs].
  - case_decide; [done|]. simpl. f_equal. f_equal. symmetry. apply filter_true_all.
    apply Forall_forall. intros y Hy E. apply Hx, list_elem_of_fmap. eauto.
  - case_decide as E; [simpl; rewrite (IH Hn Hs); lia|].
    exfalso. apply Hx, list_elem_of_fmap. exists s. done.
Qed.

Lemma total_tokens_replace secs s s' :
  unique_names secs -> s ∈ secs -> name s' = name s ->
  total_tokens (add_section s' secs) = (total_tokens secs - token_count s + token_count s')%Z.
Proof.
  intros Hn Hs E. unfold add_section. rewrite E. unfold total_tokens at 1.
  rewrite zsum_app. fold (total_tokens (remove_section (name s) secs)).
  rewrite (total_tokens_remove secs s Hn Hs). simpl. lia.
Qed.

(** ** [build_context] *)

Lemma fill_sublist m r l : fill m r l `sublist_of` l.
Proof.
  revert r. induction l as [|s l IH]; intros r; simpl; [constructor|].
  destruct (_ <=? _)%Z; by constructor.
Qed.

Lemma fill_bounded m r l : (r <= m)%Z -> (r + total_tokens (fill m r l) <= m)%Z.
Proof.
  revert r. induction l as [|s l IH]; intros r Hr; simpl; [unfold total_tokens; simpl; lia|].
  destruct (_ <=? _)%Z eqn:E; [apply Z.leb_le in E|auto].
  specialize (IH _ E). unfold total_tokens in *. simpl. lia.
Qed.

Lemma fill_app m r l1 l2 :
  fill m r (l1 ++ l2)%list = (fill m r l1 ++ fill m (r + total_tokens (fill m r l1)) l2)%list.
Proof.
  revert r. induction l1 as [|s l1 IH]; intros r; simpl.
  - unfold total_tokens. simpl. f_equal. lia.
  - destruct (_ <=? _)%Z; [|apply IH]. simpl. rewrite IH. do 3 f_equal. unfold total_tokens. simpl. lia.
Qed.

Lemma fill_all m r l :
  Forall (λ s, 0 <= token_count s)%Z l -> (r + total_tokens l <= m)%Z -> fill m r l = l.
Proof.
  unfold total_tokens. intros Hl. revert r. induction Hl as [|s l Hs Hl IH]; intros r Ht; simpl in *; [done|].
  pose proof (zsum_nonneg token_count l Hl).
  rewrite (proj2 (Z.leb_le _ _)) by lia. by rewrite IH by lia.
Qed.

(** [build_context] is greedy in priority order: it never exceeds a
    non-negative budget, keeps the priority order, and decides each section by
    whether it fits beside the sections of higher rank already kept; when
    everything fits it drops nothing. *)
Theorem build_context_greedy m secs :
  (0 <= m)%Z ->
  let kept := fill m 0 (sort_by_desc priority secs) in
  build_context m secs = map (λ s, (name s, content s)) kept /\
  (total_tokens kept <= m)%Z /\
  StronglySorted (λ a b, priority b <= priority a)%Z kept /\
  (forall pre s post, sort_by_desc priority secs = (pre ++ s :: post)%list ->
     let used := total_tokens (fill m 0 pre) in
     exists rest, kept = (fill m 0 pre ++
       (if used + token_count s <=? m then [s] else [])%Z ++ rest)%list) /\
  (Forall (λ s, 0 <= token_count s)%Z secs -> (total_tokens secs <= m)%Z -> kept ≡ₚ secs).
Proof.
  intros Hm kept. split; [done|]. split; [|split; [|split]].
  - pose proof (fill_bounded m 0 (sort_by_desc priority secs) Hm). unfold kept. lia.
  - eapply StronglySorted_sublist; [apply fill_sublist|apply sort_by_desc_sorted].
  - intros pre s post E used. unfold kept. rewrite E, fill_app, Z.add_0_l. fold used. simpl.
    destruct (_ <=? _)%Z; eexists; reflexivity.
  - intros Hnn Ht. unfold kept. rewrite fill_all; [apply py_sorted_perm| |].
    + unfold sort_by_desc. by rewrite py_sorted_perm.
    + unfold total_tokens in *. rewrite (zsum_Permutation _ _ secs); [lia|apply py_sorted_perm].
Qed.

(** ** [compress_if_needed] *)

(** [s'] is [s], or a shorter summary of it where [s] is compressible. *)
Definition compressed_from (s s' : ContextSection) : Prop :=
  name s' = name s /\ priority s' = priority s /\ compressible s' = compressible s /\
  (s' = s \/ (compressible s = true /\ (token_count s' < token_count s)%Z)).

Lemma compressed_from_refl s : compressed_from s s.
Proof. repeat split; auto. Qed.

(** Every section survives, possibly compressed, and none appears. *)
Definition compresses (secs secs' : Sections) : Prop :=
  unique_names secs' /\ (total_tokens secs' <= total_tokens secs)%Z /\
  (forall s, s ∈ secs -> exists s', s' ∈ secs' /\ compressed_from s s') /\
  (forall s', s' ∈ secs' -> exists s, s ∈ secs /\ compressed_from s s').

Lemma compresses_refl secs : unique_names secs -> compresses secs secs.
Proof. intros Hn. repeat split; eauto using compressed_from_refl; lia. Qed.

Lemma compresses_trans a b c : compresses a b -> compresses b c -> compresses a c.
Proof.
  assert (forall x y z, compressed_from x y -> compressed_from y z -> compressed_from x z) as Ht.
  { unfold compressed_from. intros x y z (?&?&?&[->|[]]) (?&?&?&[->|[]]); repeat split; try congruence.
    - by left.
    - right. split; [congruence|lia].
    - right. split; [congruence|lia].
    - right. split; [congruence|lia]. }
  intros (_&T1&F1&B1) (U2&T2&F2&B2). repeat split; [done|lia| |].
  - intros s Hs. destruct (F1 s Hs) as (s1&H1&C1). destruct (F2 s1 H1) as (s2&?&?). eauto.
  - intros s Hs. destruct (B2 s Hs) as (s1&H1&C1). destruct (B1 s1 H1) as (s2&?&?). eauto.
Qed.

Lemma apply_reply_compresses enc s r secs :
  unique_names secs -> s ∈ secs -> compressible s = true ->
  compresses secs (apply_reply enc s r secs) /\
  forall x, x ∈ secs -> name x <> name s -> x ∈ apply_reply enc s r secs.
Proof.
  intros Hn Hs Hc. destruct r as [[summary|]|]; simpl; [|auto using compresses_refl..].
  destruct (_ <=? _)%Z eqn:E; [auto using compresses_refl|]. apply Z.leb_gt in E.
  set (s' := mkSection _ _ _ _ _). assert (compressed_from s s') as Hcf.
  { repeat split. right. split; [done|]. simpl. done. }
  split; [|intros x Hx Hne; apply elem_of_add_section; by right].
  split; [by apply add_section_names|]. split; [|split].
  - rewrite (total_tokens_replace secs s s') by done. simpl. lia.
  - intros x Hx. destruct (decide (name x = name s)) as [En|En].
    + exists s'. split; [apply elem_of_add_section; by left|].
      assert (x = s) as ->; [|done].
      assert (get_section (name s) secs = Some x) as E1 by (by apply get_section_spec).
      assert (get_section (name s) secs = Some s) as E2 by (by apply get_section_spec). congruence.
    + exists x. split; [apply elem_of_add_section; by right|apply compressed_from_refl].
  - intros x [->|[Hne Hx]]%elem_of_add_section; eauto using compressed_from_refl.
Qed.

Lemma compress_loop_compresses enc m env n todo secs :
  (forall k, fst (env k) = []) -> unique_names secs -> NoDup (map name todo) ->
  Forall (λ s, s ∈ secs /\ compressible s = true) todo ->
  compresses secs (compress_loop enc m env n todo secs).
Proof.
  intros He. revert n secs. induction todo as [|s todo IH]; intros n secs Hn Hd Ht; simpl.
  { by apply compresses_refl. }
  destruct (_ <=? _)%Z; [by apply compresses_refl|].
  pose proof (He n) as Hen. destruct (env n) as [ops r]. simpl in Hen. subst ops. simpl.
  cbn in Hd. apply NoDup_cons in Hd as [Hs Hd]. apply Forall_cons in Ht as [[Hin Hc] Ht].
  destruct (apply_reply_compresses enc s r secs Hn Hin Hc) as [H1 H2].
  eapply compresses_trans; [exact H1|]. apply IH; [apply H1|done|].
  apply Forall_forall. intros x Hx. rewrite Forall_forall in Ht. destruct (Ht x Hx) as [? ?].
  split; [|done]. apply H2; [done|]. intros E. apply Hs, list_elem_of_fmap. eauto.
Qed.

(** A compression pass that nothing else interrupts keeps every section
    under its name, priority and flag, leaves the incompressible ones
    untouched, replaces a section only by a strictly shorter text, and so never
    raises the total, whatever the model answers. *)
Theorem compression_pass_sound enc m resolvable env secs :
  unique_names secs -> (forall k, fst (env k) = []) ->
  compresses secs (compress_if_needed enc m resolvable env secs).
Proof.
  intros Hn He. unfold compress_if_needed. destruct (_ <=? _)%Z; [by apply compresses_refl|].
  destruct (sort_by _ _) as [|s todo] eqn:E; [by apply compresses_refl|].
  destruct resolvable; [|by apply compresses_refl].
  assert (s :: todo ≡ₚ filter (λ s, compressible s = true) secs) as Hp.
  { rewrite <- E. apply py_sorted_perm. }
  apply compress_loop_compresses; [done..| |].
  - rewrite Hp. clear -Hn. unfold unique_names in Hn. induction secs as [|x secs IH]; [done|].
    cbn in Hn. apply NoDup_cons in Hn as [Hx Hn]. rewrite filter_cons. case_decide; [|auto].
    cbn. apply NoDup_cons. split; [|auto].
    intros (y&Ey&Hy)%list_elem_of_fmap. apply list_elem_of_filter in Hy as [_ Hy].
    apply Hx, list_elem_of_fmap. eauto.
  - rewrite Hp. apply Forall_forall. intros x Hx. apply list_elem_of_filter in Hx. tauto.
Qed.

(** A summary is computed from the text the pass started with: whatever other
    tasks did to that section while the reply was awaited, a shorter summary
    replaces it, so an update or a removal made in between is lost. *)
Theorem compression_overwrites_concurrent_update enc m env n s todo secs summary :
  unique_names secs -> (m < total_tokens secs)%Z ->
  snd (env n) = Text (Some summary) -> (estimate_tokens enc summary true < token_count s)%Z ->
  exists secs1, compress_loop enc m env n (s :: todo) secs = compress_loop enc m env (S n) todo secs1 /\
  get_section (name s) secs1 =
    Some (mkSection (name s) summary (priority s) (estimate_tokens enc summary true) (compressible s)).
Proof.
  intros Hn Ht Hr He. simpl. rewrite (proj2 (Z.leb_gt _ _)) by done.
  destruct (env n) as [ops r]. simpl in Hr. subst r. simpl.
  rewrite (proj2 (Z.leb_gt _ _)) by done. eexists. split; [done|].
  apply get_section_spec; [by apply add_section_names, wm_apply_names|].
  split; [apply elem_of_add_section; by left|done].
Qed.

(** ** Witnesses *)

Definition demo_sections : list ContextSection :=
  [mkSection "system" "s" 100 60 false; mkSection "recall" "r" 50 50 true;
   mkSection "notes" "n" 10 30 true].

(** A section of low priority may outlive one of higher priority. *)
Lemma low_priority_may_outlive : build_context 100 demo_sections = [("system", "s"); ("notes", "n")].
Proof. reflexivity. Qed.

Lemma demo_sections_unique : unique_names demo_sections.
Proof. unfold unique_names. apply (bool_decide_unpack _). vm_compute. exact I. Qed.

Lemma build_context_greedy_witness :
  (total_tokens (fill 100 0 (sort_by_desc priority demo_sections)) <= 100)%Z.
Proof. apply (build_context_greedy 100 demo_sections). lia. Defined.

Definition demo_env (ops : list wm_op) (n : nat) : list wm_op * reply := (ops, Text (Some "short")).

Lemma compression_pass_sound_witness :
  compresses demo_sections (compress_if_needed None 100 true (demo_env []) demo_sections).
Proof. apply (compression_pass_sound None); [apply demo_sections_unique|reflexivity]. Defined.

Lemma compression_overwrites_concurrent_update_witness :
  exists secs1, compress_loop None 100 (demo_env [RemoveSection "notes"]) 0
    [mkSection "notes" "n" 10 30 true] demo_sections = secs1 /\
  get_section "notes" secs1 = Some (mkSection "notes" "short" 10 1 true).
Proof.
  destruct (compression_overwrites_concurrent_update None 100 (demo_env [RemoveSection "notes"]) 0
    (mkSection "notes" "n" 10 30 true) [] demo_sections "short") as (secs1&E&H);
    [apply demo_sections_unique|vm_compute; reflexivity..|].
  exists secs1. split; [exact E|exact H].
Defined.
