(* ===== verification/Delegation.v ===== *)
(** * Delegation: merging a sub-agent's result

    Models [agents/sub_agents/delegation.py] (the request and result envelopes
    and their validation) and [agents/sub_agents/merge.py] (RFC 7396 merge patch,
    artifact strategies, and the per-entry admission pipeline). The [detail]
    texts of errors and rejections are not kept. *)

From S2P Require Import Prelude PyStr PyFloat PyDict PyValue MemoryEvents.
Local Open Scope string_scope.
Local Open Scope py_scope.

(** ** [delegation.py] *)

Definition ALLOWED_TIERS := ["episodic"; "notes"].
Definition ALLOWED_STATUSES := ["completed"; "partial"; "failed"].
Definition ALLOWED_STRATEGIES := ["replace"; "append"; "patch"; "reject_on_conflict"].
Definition DEFAULT_TRUST_CEILING : pyfloat := Fin (8 # 10).
Definition DEFAULT_MAX_MEMORY_WRITES : Z := 20.

Inductive delegation_error := DelegationContractError (what : string) | DelegationFailure.

Definition str_mem (s : string) (l : list string) : bool := bool_decide (s ∈ l).

(** [a <= b] on floats, and [0.0 <= x <= 1.0]. *)
Definition fle (a b : pyfloat) : bool := flt a b || feq a b.
Definition in_unit (x : pyfloat) : bool := fle (Fin 0) x && fle x (Fin 1).

Record BudgetEnvelope := mkBudget { tokens : Z; timeout_seconds : pyfloat; max_llm_calls : Z }.

(** [BudgetEnvelope(...)], [__post_init__] included. *)
Definition BudgetEnvelope_new (tk : Z) (ts : pyfloat) (calls : Z) : result delegation_error BudgetEnvelope :=
  if (tk <? 0)%Z then Raise (DelegationContractError "tokens")
  else if flt ts (Fin 0) then Raise (DelegationContractError "timeout_seconds")
  else if (calls <? 0)%Z then Raise (DelegationContractError "max_llm_calls")
  else Ok (mkBudget tk ts calls).

Record MemoryWriteEntry := mkEntry {
  tier : string;
  key : string;
  content : string;
  importance : pyfloat;
  ttl_seconds : option pyfloat;
  tags : list string;
  merge_strategy : string;
  source_agent : option string;
}.

Definition with_source_agent (agent_id : string) (e : MemoryWriteEntry) : MemoryWriteEntry :=
  mkEntry (tier e) (key e) (content e) (importance e) (ttl_seconds e) (tags e)
    (merge_strategy e) (Some agent_id).

Definition with_importance (x : pyfloat) (e : MemoryWriteEntry) : MemoryWriteEntry :=
  mkEntry (tier e) (key e) (content e) x (ttl_seconds e) (tags e) (merge_strategy e)
    (source_agent e).

Record DelegationRequest := mkRequest {
  objective : string;
  acceptance_criteria : list string;
  context_package : pydict;
  budget : BudgetEnvelope;
  allowed_tools : list string;
  output_schema : pydict;
  trust_ceiling : pyfloat;
  max_memory_writes : Z;
}.

Definition validate_request (r : DelegationRequest) : result delegation_error unit :=
  if blank (objective r) then Raise (DelegationContractError "objective")
  else if negb (in_unit (trust_ceiling r)) then Raise (DelegationContractError "trust_ceiling")
  else if (max_memory_writes r <? 0)%Z then Raise (DelegationContractError "max_memory_writes")
  else Ok tt.

Record DelegationResult := mkResult {
  summary : string;
  status : string;
  artifacts : pyval;               (* any value until validated *)
  decisions : list string;
  memory_writes : list MemoryWriteEntry;
  risks : list string;
}.

Definition validate_result (r : DelegationResult) : result delegation_error pydict :=
  if negb (str_mem (status r) ALLOWED_STATUSES) then Raise (DelegationContractError "status")
  else match artifacts r with
       | VDict d => Ok d
       | _ => Raise (DelegationContractError "artifacts")
       end.

(** ** [merge.py]: RFC 7396 *)

Fixpoint apply_json_merge_patch (target patch : pyval) {struct patch} : pyval :=
  match patch with
  | VDict items =>
      VDict ((fix go (out items : pydict) {struct items} : pydict :=
                match items with
                | [] => out
                | (k, v) :: items' =>
                    go (match v with
                        | VNone => ddel k out
                        | _ => dset k (apply_json_merge_patch (dget_or k VNone out) v) out
                        end) items'
                end) (match target with VDict d => d | _ => [] end) items)
  | _ => patch
  end.

(** The loop over [patch.items()]. *)
Fixpoint patch_items (out items : pydict) : pydict :=
  match items with
  | [] => out
  | (k, v) :: items' =>
      patch_items (match v with
                   | VNone => ddel k out
                   | _ => dset k (apply_json_merge_patch (dget_or k VNone out) v) out
                   end) items'
  end.

Definition base_of (target : pyval) : pydict := match target with VDict d => d | _ => [] end.

Lemma apply_json_merge_patch_dict target items :
  apply_json_merge_patch target (VDict items) = VDict (patch_items (base_of target) items).
Proof. reflexivity. Qed.

(** [_union_tags] *)
Definition union_tags (existing incoming : list string) : list string :=
  fold_left (λ out tag, if str_mem tag out then out else (out ++ [tag])%list) incoming existing.

(** [isinstance(v, list)] etc. on artifact values; tags are compared as text,
    and only lists of [str] are merged here ([str(x)] of other values is the
    argument [str_of]). *)
Section merge_artifacts.
Context (str_of : pyval -> string).

Definition merge_artifacts (existing incoming : pyval) (strategy : string) :
    result delegation_error pyval :=
  if negb (str_mem strategy ALLOWED_STRATEGIES) then Raise (DelegationContractError "strategy")
  else if String.eqb strategy "replace" then Ok incoming
  else if String.eqb strategy "append" then
    match existing, incoming with
    | VList a, VList b => Ok (VList (a ++ b)%list)
    | _, _ => Raise (DelegationContractError "append")
    end
  else if String.eqb strategy "patch" then
    match existing, incoming with
    | VList a, VList b => Ok (VList (map VStr (union_tags (map str_of a) (map str_of b))))
    | VDict _, VDict _ => Ok (apply_json_merge_patch existing incoming)
    | _, _ => Ok incoming
    end
  else
    match existing with
    | VNone => Ok incoming
    | _ => Raise (DelegationContractError "reject_on_conflict")
    end.
End merge_artifacts.

(** ** [merge.py]: the admission pipeline *)

Definition REASON_SCHEMA_INVALID := "schema_invalid".
Definition REASON_TRUST_CEILING := "trust_ceiling".
Definition REASON_CAP_EXCEEDED := "cap_exceeded".
Definition REASON_SOURCE_AGENT_SET := "source_agent_set".
Definition REASON_PROCEDURAL_TIER_REJECTED := "procedural_tier_rejected".
Definition REASON_RESERVED_TAG_PREFIX := "reserved_tag_prefix".
Definition REASON_CONFLICT := "conflict".
Definition RESERVED_TAG_PREFIXES := ["tier:"; "key:"; "source:"; "channel:"; "procedure:"].

Record RejectedEntry := mkRejected { index : nat; reason : string }.

(** A metric emission: name, label value, increment. *)
Abbreviation metric := (string * string * Z)%type.

Record MergeOutcome := mkOutcome {
  admitted : list MemoryWriteEntry;
  rejected : list RejectedEntry;
  merged_artifacts : pydict;
}.

Definition reserved_tag (tag : string) : bool :=
  existsb (λ p, startswith p tag) RESERVED_TAG_PREFIXES.

(** [_validate_entry]: the reason of the first check that fails. *)
Definition validate_entry (e : MemoryWriteEntry) : option string :=
  if match source_agent e with Some _ => true | None => false end then Some REASON_SOURCE_AGENT_SET
  else if existsb reserved_tag (tags e) then Some REASON_RESERVED_TAG_PREFIX
  else if String.eqb (tier e) "procedural" then Some REASON_PROCEDURAL_TIER_REJECTED
  else if negb (str_mem (tier e) ALLOWED_TIERS) then Some REASON_SCHEMA_INVALID
  else if blank (key e) then Some REASON_SCHEMA_INVALID
  else if blank (content e) then Some REASON_SCHEMA_INVALID
  else if negb (in_unit (importance e)) then Some REASON_SCHEMA_INVALID
  else if match ttl_seconds e with Some t => fle t (Fin 0) | None => false end
  then Some REASON_SCHEMA_INVALID
  else if negb (str_mem (merge_strategy e) ALLOWED_STRATEGIES) then Some REASON_SCHEMA_INVALID
  else None.

(** [_apply_strategy]: admission against the known keys. *)
Definition apply_strategy (e : MemoryWriteEntry) (known : list string) : bool :=
  negb (String.eqb (merge_strategy e) "reject_on_conflict" && str_mem (key e) known).

Definition downscaled (ceiling : pyfloat) (e : MemoryWriteEntry) : bool := flt ceiling (importance e).

Record pipeline := mkPipeline {
  p_admitted : list MemoryWriteEntry;
  p_rejected : list RejectedEntry;
  p_known : list string;
  p_metrics : list metric;
}.

(** One turn of the per-entry loop. *)
Definition merge_entry (agent_id : string) (ceiling : pyfloat) (idx : nat) (e : MemoryWriteEntry)
    (p : pipeline) : pipeline :=
  match validate_entry e with
  | Some r => mkPipeline (p_admitted p) (p_rejected p ++ [mkRejected idx r])%list (p_known p) (p_metrics p)
  | None =>
      let e := with_source_agent agent_id e in
      let '(e, ms) :=
        if downscaled ceiling e
        then (with_importance ceiling e,
              (p_metrics p ++ [("delegation_memory_writes_downscaled", REASON_TRUST_CEILING, 1%Z)])%list)
        else (e, p_metrics p) in
      if apply_strategy e (p_known p)
      then mkPipeline (p_admitted p ++ [e])%list (p_rejected p) (key e :: p_known p) ms
      else mkPipeline (p_admitted p) (p_rejected p ++ [mkRejected idx REASON_CONFLICT])%list (p_known p) ms
  end.

Fixpoint merge_entries (agent_id : string) (ceiling : pyfloat) (idx : nat)
    (es : list MemoryWriteEntry) (p : pipeline) : pipeline :=
  match es with
  | [] => p
  | e :: es' => merge_entries agent_id ceiling (S idx) es' (merge_entry agent_id ceiling idx e p)
  end.

(** [MergeOutcome.reasons]: counts in order of first occurrence. *)
Definition reasons (rs : list RejectedEntry) : list (string * Z) :=
  fold_left (λ out r, dset (reason r) (default 0%Z (dget (reason r) out) + 1)%Z out) rs [].

(** [MergeEngine.merge_result]: the outcome, with the metrics emitted. *)
Definition merge_result (r : DelegationResult) (req : DelegationRequest) (agent_id : string)
    (existing_artifacts : option pydict) (existing_keys : list string) :
    result delegation_error MergeOutcome * list metric :=
  match validate_result r with
  | Raise _ => (Raise DelegationFailure, [("delegation_merge_outcome", "failed", 1%Z)])
  | Ok arts =>
      let merged := base_of (apply_json_merge_patch (VDict (default [] existing_artifacts)) (VDict arts)) in
      let cap := Z.to_nat (max_memory_writes req) in
      let over := imap (λ i _, mkRejected (cap + i) REASON_CAP_EXCEEDED) (drop cap (memory_writes r)) in
      let p := merge_entries agent_id (trust_ceiling req) 0 (take cap (memory_writes r))
                 (mkPipeline [] over existing_keys []) in
      (Ok (mkOutcome (p_admitted p) (p_rejected p) merged),
       (p_metrics p ++ [("delegation_merge_outcome", status r, 1%Z)] ++
        map (λ rc, ("delegation_memory_writes_rejected", fst rc, snd rc)) (reasons (p_rejected p)) ++
        match p_admitted p with
        | [] => []
        | _ => [("delegation_memory_writes_admitted", "ok", Z.of_nat (length (p_admitted p)))]
        end)%list)
  end.

(** * Correctness of the delegation merge

    The merge patch meets RFC 7396 and is idempotent; the admission pipeline
    accounts for every proposed write, enforces the trust boundary, and its
    metrics agree with its outcome. *)

(** ** JSON Merge Patch *)

(** Objects have unique keys, at every depth. *)
Fixpoint val_wf (v : pyval) : Prop :=
  match v with
  | VDict d => dwf d /\ foldr (λ kv P, val_wf kv.2 /\ P) True d
  | VList l => foldr (λ v P, val_wf v /\ P) True l
  | _ => True
  end.

(** Induction on a value through the entries of its objects. *)
Lemma pyval_dict_ind (P : pyval -> Prop) :
  (forall v, base_of v = [] -> P v) ->
  (forall d, (forall k v, (k, v) ∈ d -> P v) -> P (VDict d)) ->
  forall v, P v.
Proof.
  intros Ho Hd. fix IH 1. intros [| | | | | |d]; try (apply Ho; reflexivity).
  apply Hd. assert (Forall (λ kv, P kv.2) d) as HF.
  { induction d as [|[k v] d IHd]; constructor; [exact (IH v)|exact IHd]. }
  intros k v Hin. by apply (proj1 (Forall_forall _ _) HF (k, v)).
Qed.

Lemma val_wf_entries d k v : val_wf (VDict d) -> (k, v) ∈ d -> val_wf v.
Proof.
  simpl. intros [_ H]. induction d as [|[k' v'] d IH]; intros Hin.
  - by apply not_elem_of_nil in Hin.
  - destruct H as [H1 H2]. apply elem_of_cons in Hin as [[= -> ->]|Hin]; auto.
Qed.

(** One assignment of the loop. *)
Definition patch_one (k : string) (v : pyval) (out : pydict) : pydict :=
  match v with
  | VNone => ddel k out
  | _ => dset k (apply_json_merge_patch (dget_or k VNone out) v) out
  end.

Lemma patch_one_wf k v out : dwf out -> dwf (patch_one k v out).
Proof. intros Ho. destruct v; simpl; auto using dwf_ddel, dwf_dset. Qed.

Lemma patch_one_eq k v out :
  dwf out -> dget k (patch_one k v out) =
    match v with VNone => None | _ => Some (apply_json_merge_patch (dget_or k VNone out) v) end.
Proof. intros Ho. destruct v; cbn [patch_one]; auto using dget_ddel_eq, dget_dset_eq. Qed.

Lemma patch_one_ne k k' v out : k' <> k -> dget k' (patch_one k v out) = dget k' out.
Proof. intros Hne. destruct v; cbn [patch_one]; auto using dget_ddel_ne, dget_dset_ne. Qed.

Lemma patch_items_cons k v items out :
  patch_items out ((k, v) :: items) = patch_items (patch_one k v out) items.
Proof. done. Qed.

Lemma patch_items_get k items out :
  dwf items -> dwf out ->
  dwf (patch_items out items) /\
  dget k (patch_items out items) =
    match dget k items with
    | None => dget k out
    | Some VNone => None
    | Some v => Some (apply_json_merge_patch (dget_or k VNone out) v)
    end.
Proof.
  revert out. induction items as [|[k' v'] items IH]; intros out Hi Ho; [done|].
  unfold dwf in Hi. cbn [dkeys map fst] in Hi. apply NoDup_cons in Hi as [Hk Hi].
  assert (dget k' items = None) as Hf by (by apply dget_None).
  rewrite patch_items_cons.
  destruct (IH (patch_one k' v' out) Hi (patch_one_wf _ _ _ Ho)) as [Hw Hg].
  split; [done|]. rewrite Hg. cbn [dget]. case_decide as E.
  - subst. rewrite Hf. by apply patch_one_eq.
  - unfold dget_or. by rewrite patch_one_ne by done.
Qed.

(** The RFC 7396 reading of one member. *)
Definition patched_member (target patch : pyval) (k : string) : option pyval :=
  match dget k (base_of patch) with
  | None => dget k (base_of target)
  | Some VNone => None
  | Some v => Some (apply_json_merge_patch (dget_or k VNone (base_of target)) v)
  end.

(** A patch already applied changes nothing. *)
Lemma patch_items_noop items out :
  dwf items ->
  (forall k v, (k, v) ∈ items ->
     dget k out = match v with VNone => None
                  | _ => Some (apply_json_merge_patch (dget_or k VNone out) v) end) ->
  patch_items out items = out.
Proof.
  induction items as [|[k v] items IH]; intros Hi H; [done|].
  unfold dwf in Hi. cbn [dkeys map fst] in Hi. apply NoDup_cons in Hi as [_ Hi].
  rewrite patch_items_cons. assert (patch_one k v out = out) as ->.
  { specialize (H k v ltac:(left)). destruct v; cbn [patch_one]; auto using ddel_fresh, dset_same. }
  apply IH; [done|]. intros k' v' Hin. apply H. by right.
Qed.

Lemma base_wf v : val_wf v -> dwf (base_of v).
Proof. destruct v; simpl; try (intros _; apply NoDup_nil_2). tauto. Qed.

Lemma member_wf k v : val_wf v -> val_wf (dget_or k VNone (base_of v)).
Proof.
  intros Hv. unfold dget_or. destruct (dget k (base_of v)) as [w|] eqn:E; [|done].
  destruct v; simpl in E; try done. by eapply val_wf_entries, dget_Some_elem.
Qed.

Lemma merge_patch_idem patch : val_wf patch -> forall target, val_wf target ->
  apply_json_merge_patch (apply_json_merge_patch target patch) patch =
  apply_json_merge_patch target patch.
Proof.
  induction patch as [v Hv|d IH] using pyval_dict_ind; intros Hp target Ht.
  - destruct v as [| | | | | |d]; try done. simpl in Hv. by subst.
  - rewrite !apply_json_merge_patch_dict. f_equal. cbn [base_of].
    pose proof (base_wf _ Ht) as Hb. pose proof (base_wf _ Hp) as Hd. cbn [base_of] in Hd.
    apply patch_items_noop; [done|]. intros k v Hin.
    pose proof (elem_dget k v d Hd Hin) as Hg.
    destruct (patch_items_get k d (base_of target) Hd Hb) as [_ E]. rewrite Hg in E.
    pose proof (IH k v Hin (val_wf_entries _ _ _ Hp Hin) _ (member_wf k _ Ht)) as Hi.
    assert (v = VNone \/ v <> VNone) as [->|Hn] by (destruct v; auto; by right).
    { by rewrite E. }
    assert (dget k (patch_items (base_of target) d) =
            Some (apply_json_merge_patch (dget_or k VNone (base_of target)) v)) as E' by (by destruct v).
    assert (dget_or k VNone (patch_items (base_of target) d) =
            apply_json_merge_patch (dget_or k VNone (base_of target)) v) as ->
      by (unfold dget_or; by rewrite E').
    rewrite Hi, E'. by destruct v.
Qed.

(** The merge patch meets RFC 7396: a non-object patch replaces the target;
    an object patch yields an object with unique keys in which a member set to
    [null] is gone, any other member of the patch is the target's member
    patched by it, and every other member is the target's; and applying the
    same patch again changes nothing. *)
Theorem merge_patch_rfc7396 target patch :
  val_wf target -> val_wf patch ->
  (forall d, patch = VDict d ->
     exists out, apply_json_merge_patch target patch = VDict out /\ dwf out /\
       forall k, dget k out = patched_member target patch k) /\
  ((forall d, patch <> VDict d) -> apply_json_merge_patch target patch = patch) /\
  apply_json_merge_patch (apply_json_merge_patch target patch) patch =
  apply_json_merge_patch target patch.
Proof.
  intros Ht Hp. split; [|split; [|by apply merge_patch_idem]].
  - intros d ->. rewrite apply_json_merge_patch_dict. eexists. split; [done|].
    pose proof (base_wf _ Ht) as Hb. pose proof (base_wf _ Hp) as Hd. cbn [base_of] in Hd.
    split; [by apply (patch_items_get EmptyString)|]. intros k.
    unfold patched_member. by apply patch_items_get.
  - intros Hn. destruct patch; try done. by edestruct Hn.
Qed.

(** ** The admission pipeline *)

(** What an admitted entry becomes: attributed, and capped at the ceiling. *)
Definition finalise (agent_id : string) (ceiling : pyfloat) (e : MemoryWriteEntry) : MemoryWriteEntry :=
  let e := with_source_agent agent_id e in
  if downscaled ceiling e then with_importance ceiling e else e.

(** The specification of one entry: admitted ([inl]) or rejected ([inr]). *)
Definition verdict (agent_id : string) (req : DelegationRequest) (known : list string) (i : nat)
    (e : MemoryWriteEntry) : MemoryWriteEntry + string :=
  if (max_memory_writes req <=? Z.of_nat i)%Z then inr REASON_CAP_EXCEEDED
  else match validate_entry e with
       | Some r => inr r
       | None => if apply_strategy e known then inl (finalise agent_id (trust_ceiling req) e)
                 else inr REASON_CONFLICT
       end.

Definition admitted_of (vs : list (MemoryWriteEntry + string)) : list MemoryWriteEntry :=
  omap (λ v, match v with inl e => Some e | inr _ => None end) vs.

Fixpoint rejected_of (i : nat) (vs : list (MemoryWriteEntry + string)) : list RejectedEntry :=
  match vs with
  | [] => []
  | inl _ :: vs' => rejected_of (S i) vs'
  | inr r :: vs' => mkRejected i r :: rejected_of (S i) vs'
  end.

Lemma admitted_of_app vs ws : admitted_of (vs ++ ws) = (admitted_of vs ++ admitted_of ws)%list.
Proof. apply omap_app. Qed.

Lemma rejected_of_app i vs ws :
  rejected_of i (vs ++ ws) = (rejected_of i vs ++ rejected_of (i + length vs) ws)%list.
Proof.
  revert i. induction vs as [|[e|r] vs IH]; intros i; simpl.
  - by rewrite Nat.add_0_r.
  - by rewrite IH, Nat.add_succ_r.
  - by rewrite IH, Nat.add_succ_r.
Qed.

Lemma finalise_key a c e : key (finalise a c e) = key e.
Proof. unfold finalise. by destruct (downscaled _ _). Qed.

Lemma apply_strategy_mem e known known' :
  (forall k, k ∈ known <-> k ∈ known') -> apply_strategy e known = apply_strategy e known'.
Proof.
  intros H. unfold apply_strategy, str_mem. do 2 f_equal. by apply bool_decide_ext.
Qed.

Lemma merge_entry_spec a c i e p :
  let p' := merge_entry a c i e p in
  let v := match validate_entry e with
           | Some r => inr r
           | None => if apply_strategy e (p_known p) then inl (finalise a c e) else inr REASON_CONFLICT
           end in
  p_admitted p' = (p_admitted p ++ admitted_of [v])%list /\
  p_rejected p' = (p_rejected p ++ rejected_of i [v])%list /\
  p_known p' = (rev (map key (admitted_of [v])) ++ p_known p)%list.
Proof.
  unfold merge_entry. destruct (validate_entry e); simpl; [by rewrite app_nil_r|].
  assert (forall e', merge_strategy e' = merge_strategy e -> key e' = key e ->
    apply_strategy e' (p_known p) = apply_strategy e (p_known p)) as Hs.
  { unfold apply_strategy. by intros e' -> ->. }
  unfold finalise. destruct (downscaled _ _); rewrite Hs by done;
    destruct (apply_strategy e _); simpl; rewrite ?app_nil_r; done.
Qed.

Lemma merge_entries_verdicts a req es i known p :
  (forall j, (j < length es)%nat -> (Z.of_nat (i + j) < max_memory_writes req)%Z) ->
  (forall k, k ∈ p_known p <-> k ∈ known) ->
  let p' := merge_entries a (trust_ceiling req) i es p in
  exists vs, length vs = length es /\
  p_admitted p' = (p_admitted p ++ admitted_of vs)%list /\
  p_rejected p' = (p_rejected p ++ rejected_of i vs)%list /\
  forall j e, es !! j = Some e ->
    vs !! j = Some (verdict a req (known ++ map key (admitted_of (take j vs))) (i + j) e).
Proof.
  revert i known p. induction es as [|e es IH]; intros i known p Hcap Hk; simpl.
  { exists []. by rewrite !app_nil_r. }
  destruct (merge_entry_spec a (trust_ceiling req) i e p) as (HA&HR&HK).
  set (v := match validate_entry e with Some _ => _ | None => _ end) in *.
  assert (v = verdict a req known i e) as Hv.
  { unfold v, verdict. specialize (Hcap O ltac:(simpl; lia)). rewrite Nat.add_0_r in Hcap.
    rewrite (proj2 (Z.leb_gt _ _)) by done.
    by rewrite (apply_strategy_mem e (p_known p) known). }
  destruct (IH (S i) (known ++ map key (admitted_of [v]))%list
              (merge_entry a (trust_ceiling req) i e p)) as (vs&Hl&EA&ER&Hvs).
  { intros j Hj. specialize (Hcap (S j) ltac:(simpl; lia)). by rewrite Nat.add_succ_r in Hcap. }
  { intros k. rewrite HK, !elem_of_app, list_elem_of_In, <- in_rev, <- list_elem_of_In, Hk. tauto. }
  exists (v :: vs). split; [simpl; by rewrite Hl|]. rewrite EA, ER, HA, HR, <- !app_assoc.
  change (v :: vs) with ([v] ++ vs)%list. rewrite admitted_of_app, rejected_of_app.
  rewrite Nat.add_1_r. split; [done|]. split; [done|]. intros [|j] e' Hj; simpl in Hj.
  - simplify_eq. rewrite Nat.add_0_r. simpl. by rewrite app_nil_r, Hv.
  - apply Hvs in Hj. simpl. rewrite Hj. f_equal. rewrite Nat.add_succ_r. simpl.
    f_equal. rewrite <- app_assoc, <- map_app. do 2 f_equal.
    by destruct v.
Qed.

Lemma rejected_of_cap n (l : list MemoryWriteEntry) :
  rejected_of n (map (λ _, inr REASON_CAP_EXCEEDED) l) =
  imap (λ i _, mkRejected (n + i) REASON_CAP_EXCEEDED) l.
Proof.
  revert n. induction l as [|e l IH]; intros n; simpl; [done|].
  rewrite IH, Nat.add_0_r. f_equal. apply imap_ext. intros i x _. simpl.
  by rewrite Nat.add_succ_r.
Qed.

Lemma admitted_of_cap (l : list MemoryWriteEntry) :
  admitted_of (map (λ _, inr REASON_CAP_EXCEEDED) l) = [].
Proof. by induction l. Qed.

Lemma merge_result_verdicts r req a ea ek out ms :
  merge_result r req a ea ek = (Ok out, ms) ->
  exists vs, length vs = length (memory_writes r) /\
  admitted out = admitted_of vs /\ rejected out ≡ₚ rejected_of 0 vs /\
  forall i e, memory_writes r !! i = Some e ->
    vs !! i = Some (verdict a req (ek ++ map key (admitted_of (take i vs))) i e).
Proof.
  unfold merge_result. destruct (validate_result r); [|done]. intros [= <- _]. simpl.
  set (cap := Z.to_nat (max_memory_writes req)). set (mw := memory_writes r).
  set (over := imap _ _).
  destruct (merge_entries_verdicts a req (take cap mw) 0 ek (mkPipeline [] over ek []))
    as (vs&Hl&EA&ER&Hvs); [|done|].
  { intros j Hj. rewrite length_take in Hj. unfold cap in Hj. lia. }
  simpl in EA, ER. rewrite length_take in Hl.
  exists (vs ++ map (λ _, inr REASON_CAP_EXCEEDED) (drop cap mw))%list.
  rewrite admitted_of_app, admitted_of_cap, app_nil_r, rejected_of_app, rejected_of_cap.
  split; [rewrite length_app, length_map, length_drop; lia|]. split; [done|]. split.
  - rewrite ER, (Permutation_app_comm over). simpl. apply Permutation_app; [done|].
    unfold over. apply reflexive_eq. destruct (decide (length mw <= cap)%nat).
    + by rewrite drop_ge by done.
    + rewrite Hl. by replace (cap `min` length mw)%nat with cap by lia.
  - intros i e Hi. destruct (decide (i < cap)%nat) as [Hlt|Hge].
    + assert (take cap mw !! i = Some e) as Ht by (by rewrite lookup_take_lt).
      apply Hvs in Ht as E. rewrite (lookup_app_l_Some _ _ _ _ E). simpl in E |- *.
      rewrite take_app_le by (apply lookup_lt_Some in E; lia). done.
    + assert (length vs = cap) as Hc by (apply lookup_lt_Some in Hi; lia).
      rewrite lookup_app_r, Hc, list_lookup_fmap, lookup_drop by lia.
      replace (cap + (i - cap))%nat with i by lia. fold mw. rewrite Hi. simpl. f_equal.
      unfold verdict. rewrite (proj2 (Z.leb_le _ _)); [done|]. unfold cap in Hge. lia.
Qed.

(** Every proposed memory write is accounted for exactly once: entry by entry,
    the outcome's admitted list (in order) and rejected list (with the entry's
    offset) are those of the per-entry specification, where a conflict is
    judged against the caller's keys and those admitted before it. *)
Theorem merge_accounts_for_every_write r req a ea ek out ms :
  merge_result r req a ea ek = (Ok out, ms) ->
  exists vs, length vs = length (memory_writes r) /\
  admitted out = admitted_of vs /\ rejected out ≡ₚ rejected_of 0 vs /\
  forall i e, memory_writes r !! i = Some e ->
    vs !! i = Some (verdict a req (ek ++ map key (admitted_of (take i vs))) i e).
Proof. apply merge_result_verdicts. Qed.

(** ** The trust boundary *)

Lemma fle_Fin p q : fle (Fin p) (Fin q) = true <-> (p <= q)%Q.
Proof.
  unfold fle. simpl. destruct (Qltb p q) eqn:E; simpl; q_props.
  - split; [intros _; lra|done].
  - rewrite Qeq_bool_iff. split; lra.
Qed.

Lemma in_unit_Fin x : in_unit x = true <-> exists q, x = Fin q /\ (0 <= q <= 1)%Q.
Proof.
  unfold in_unit. rewrite andb_true_iff. split.
  - destruct x as [q| | |]; try (intros [? ?]; done). rewrite !fle_Fin. eauto.
  - intros (q&->&Hq). by rewrite !fle_Fin.
Qed.

Lemma fle_of_not_flt p q : flt (Fin p) (Fin q) = false -> fle (Fin q) (Fin p) = true.
Proof. rewrite fle_Fin. simpl. intros H. by q_props. Qed.

(** A time-to-live, where there is one, is above zero; NaN passes for one. *)
Definition lifetime_ok (ttl : option pyfloat) : Prop :=
  match ttl with Some t => flt (Fin 0) t = true \/ t = NaN | None => True end.

Lemma lifetime_ok_iff ttl :
  match ttl with Some t => fle t (Fin 0) | None => false end = false <-> lifetime_ok ttl.
Proof.
  unfold lifetime_ok. destruct ttl as [t|]; [|by split]. destruct t as [q| | |]; [|by split; [left|]|split; [done|by intros []]|by split; [right|]].
  rewrite <- not_true_iff_false, fle_Fin. unfold flt. rewrite Qltb_lt. split; [intros H; left; lra|intros [H|H]; [lra|done]].
Qed.

Lemma validate_entry_None e :
  validate_entry e = None ->
  source_agent e = None /\ existsb reserved_tag (tags e) = false /\
  tier e ∈ ALLOWED_TIERS /\ blank (key e) = false /\ blank (content e) = false /\
  in_unit (importance e) = true /\ lifetime_ok (ttl_seconds e) /\ merge_strategy e ∈ ALLOWED_STRATEGIES.
Proof.
  unfold validate_entry, str_mem. destruct (source_agent e); [done|].
  destruct (existsb reserved_tag _); [done|].
  destruct (String.eqb _ _); [done|]. case_bool_decide; [|done]. simpl.
  destruct (blank (key e)); [done|]. destruct (blank (content e)); [done|].
  destruct (in_unit _); [|done]. simpl.
  destruct (match ttl_seconds e with Some _ => _ | None => _ end) eqn:El; [done|]. apply lifetime_ok_iff in El.
  case_bool_decide; [|done]. intros _. by repeat split.
Qed.

(** What the caller may rely on in an admitted entry. *)
Definition trusted (a : string) (ceiling : pyfloat) (e : MemoryWriteEntry) : Prop :=
  source_agent e = Some a /\ in_unit (importance e) = true /\
  fle (importance e) ceiling = true /\ existsb reserved_tag (tags e) = false /\
  tier e ∈ ALLOWED_TIERS /\ blank (key e) = false /\ blank (content e) = false /\
  lifetime_ok (ttl_seconds e) /\ merge_strategy e ∈ ALLOWED_STRATEGIES.

Lemma finalise_trusted a c e :
  in_unit c = true -> validate_entry e = None -> trusted a c (finalise a c e).
Proof.
  intros (p&->&Hp)%in_unit_Fin (_&Ht&Hti&Hk&Hc&Hi&Hm)%validate_entry_None.
  apply in_unit_Fin in Hi as (q&Eq&Hq).
  unfold finalise, downscaled, trusted. simpl. rewrite Eq.
  destruct (Qltb p q) eqn:E; simpl.
  - repeat (split; [done|]). split; [apply in_unit_Fin; eauto|].
    split; [apply fle_Fin; lra|]. done.
  - rewrite Eq. repeat (split; [done|]). split; [apply in_unit_Fin; eauto|].
    split; [by apply fle_of_not_flt|]. done.
Qed.

Lemma elem_of_admitted vs e : e ∈ admitted_of vs <-> inl e ∈ vs.
Proof.
  unfold admitted_of. rewrite list_elem_of_omap. split.
  - intros ([e'|]&Hin&E); simplify_eq; done.
  - intros Hin. by exists (inl e).
Qed.

Lemma length_admitted_le vs : (length (admitted_of vs) <= length vs)%nat.
Proof. induction vs as [|[] vs IH]; simpl; lia. Qed.

(** C32. The trust boundary: under a valid request, every admitted write stems
    from a proposed one, is attributed to the sub-agent by the framework (the
    proposal left the attribution empty), has an importance in [0, 1] at most
    the ceiling, carries no reserved tag, is of a delegable tier with a
    non-blank key and content, and lives for a time above zero where it is given one
    (NaN, which the check lets through, apart); and at most [max_memory_writes] are admitted. *)
Theorem merge_trust_boundary r req a ea ek out ms :
  merge_result r req a ea ek = (Ok out, ms) -> validate_request req = Ok tt ->
  (Z.of_nat (length (admitted out)) <= max_memory_writes req)%Z /\
  forall e', e' ∈ admitted out ->
    trusted a (trust_ceiling req) e' /\
    exists e, e ∈ memory_writes r /\ source_agent e = None /\
      e' = finalise a (trust_ceiling req) e.
Proof.
  intros (vs&Hl&->&_&Hvs)%merge_result_verdicts Hreq.
  unfold validate_request in Hreq. destruct (blank _); [done|].
  destruct (in_unit (trust_ceiling req)) eqn:Hu; [|done]. simpl in Hreq.
  destruct (max_memory_writes req <? 0)%Z eqn:Hm; [done|]. apply Z.ltb_ge in Hm. clear Hreq.
  assert (forall i e', vs !! i = Some (inl e') -> (Z.of_nat i < max_memory_writes req)%Z /\
    exists e, e ∈ memory_writes r /\ validate_entry e = None /\ e' = finalise a (trust_ceiling req) e) as Hin.
  { intros i e' Hi. destruct (lookup_lt_is_Some_2 (memory_writes r) i) as [e He].
    { rewrite <- Hl. by eapply lookup_lt_Some. }
    rewrite (Hvs i e He) in Hi. injection Hi as Hi. unfold verdict in Hi.
    destruct (_ <=? _)%Z eqn:Hle; [done|]. apply Z.leb_gt in Hle.
    destruct (validate_entry e) eqn:Hv; [done|]. destruct (apply_strategy _ _); [|done].
    injection Hi as <-. split; [done|]. exists e. split; [by eapply list_elem_of_lookup_2|done]. }
  split.
  - rewrite <- (take_drop (Z.to_nat (max_memory_writes req)) vs), admitted_of_app, length_app.
    assert (admitted_of (drop (Z.to_nat (max_memory_writes req)) vs) = []) as ->.
    { apply elem_of_nil_inv. intros e' [i Hi]%elem_of_admitted%list_elem_of_lookup.
      rewrite lookup_drop in Hi. apply Hin in Hi as [Hi _]. lia. }
    pose proof (length_admitted_le (take (Z.to_nat (max_memory_writes req)) vs)) as Hle.
    rewrite length_take in Hle. simpl. lia.
  - intros e' [i Hi]%elem_of_admitted%list_elem_of_lookup.
    apply Hin in Hi as (_&e&He&Hv&->). split; [by apply finalise_trusted|].
    exists e. split; [done|]. split; [|done]. by apply validate_entry_None.
Qed.

(** ** Metrics *)

Definition metric_total (n : string) (ms : list metric) : Z :=
  zsum (λ m, if String.eqb (fst (fst m)) n then snd m else 0)%Z ms.

Lemma metric_total_app n ms ms' : metric_total n (ms ++ ms') = (metric_total n ms + metric_total n ms')%Z.
Proof. apply zsum_app. Qed.

Lemma metric_total_cons n m ms :
  metric_total n (m :: ms) = ((if String.eqb (fst (fst m)) n then snd m else 0) + metric_total n ms)%Z.
Proof. done. Qed.

Lemma zsum_dset_incr r (out : list (string * Z)) :
  zsum snd (dset r (default 0%Z (dget r out) + 1)%Z out) = (zsum snd out + 1)%Z.
Proof.
  unfold zsum. induction out as [|[k v] out IH]; simpl; [done|].
  case_decide; simpl; [lia|]. rewrite IH. lia.
Qed.

Lemma reasons_total rs : zsum snd (reasons rs) = Z.of_nat (length rs).
Proof.
  unfold reasons. assert (forall out, zsum snd (fold_left (λ out r,
    dset (reason r) (default 0%Z (dget (reason r) out) + 1)%Z out) rs out) =
    (zsum snd out + Z.of_nat (length rs))%Z) as H; [|by rewrite H].
  induction rs as [|r rs IH]; intros out; simpl; [lia|]. rewrite IH, zsum_dset_incr. lia.
Qed.

Lemma metric_total_rejected l :
  metric_total "delegation_memory_writes_rejected"
    (map (λ rc : string * Z, ("delegation_memory_writes_rejected", fst rc, snd rc)) l) = zsum snd l.
Proof. unfold metric_total, zsum. induction l as [|[k v] l IH]; simpl; [done|]. by rewrite IH. Qed.

Lemma metric_total_other n l :
  n <> "delegation_memory_writes_rejected" ->
  metric_total n (map (λ rc : string * Z, ("delegation_memory_writes_rejected", fst rc, snd rc)) l) = 0%Z.
Proof.
  intros Hn. unfold metric_total, zsum. induction l as [|[k v] l IH]; cbn [map foldr fst snd]; [done|].
  rewrite IH. destruct (String.eqb_spec "delegation_memory_writes_rejected" n); [congruence|done].
Qed.

(** The per-entry loop only emits downscale metrics. *)
Lemma merge_entries_metrics n a c i es p :
  n <> "delegation_memory_writes_downscaled" ->
  metric_total n (p_metrics (merge_entries a c i es p)) = metric_total n (p_metrics p).
Proof.
  intros Hn. revert i p. induction es as [|e es IH]; intros i p; cbn [merge_entries]; [done|].
  rewrite IH. unfold merge_entry. destruct (validate_entry e); [done|].
  destruct (downscaled c _); destruct (apply_strategy _ _); cbn [p_metrics]; try done;
    rewrite metric_total_app; unfold metric_total at 2, zsum; cbn [foldr fst snd];
    destruct (String.eqb_spec "delegation_memory_writes_downscaled" n); try congruence; lia.
Qed.

(** The metrics agree with the outcome: one outcome metric is emitted, labelled
    with the result's status or with [failed] exactly when the result is
    refused as a whole, and the admitted and rejected increments add up to the
    numbers of admitted and rejected writes. *)
Theorem merge_metrics_account r req a ea ek res ms :
  merge_result r req a ea ek = (res, ms) ->
  match res with
  | Raise _ => is_ok (validate_result r) = false /\ ms = [("delegation_merge_outcome", "failed", 1%Z)]
  | Ok out =>
      is_ok (validate_result r) = true /\ ("delegation_merge_outcome", status r, 1%Z) ∈ ms /\
      metric_total "delegation_merge_outcome" ms = 1%Z /\
      metric_total "delegation_memory_writes_rejected" ms = Z.of_nat (length (rejected out)) /\
      metric_total "delegation_memory_writes_admitted" ms = Z.of_nat (length (admitted out))
  end.
Proof.
  unfold merge_result. destruct (validate_result r) as [arts|e] eqn:Ev; intros [= <- <-]; [|done].
  cbn [admitted rejected]. set (p := merge_entries _ _ _ _ _).
  assert (forall n, n <> "delegation_memory_writes_downscaled" -> metric_total n (p_metrics p) = 0%Z) as Hp.
  { intros n Hn. unfold p. by rewrite merge_entries_metrics. }
  split; [done|]. split; [apply elem_of_app; right; left|].
  rewrite !metric_total_app, !Hp, !metric_total_cons, !metric_total_app by done.
  rewrite metric_total_rejected, !metric_total_other, reasons_total by done.
  destruct (p_admitted p) as [|x l]; [by rewrite !Z.add_0_r|].
  unfold metric_total, zsum. simpl. repeat split; lia.
Qed.

(** ** Witnesses *)

Definition demo_entry (k : string) (imp : pyfloat) : MemoryWriteEntry :=
  mkEntry "notes" k "text" imp None ["a"] "reject_on_conflict" None.

Definition demo_result : DelegationResult :=
  mkResult "done" "completed" (VDict []) []
    [demo_entry "k1" (Fin 1); demo_entry "k1" (Fin 0); demo_entry " " (Fin 0); demo_entry "k2" (Fin 0)] [].

Definition demo_request : DelegationRequest :=
  mkRequest "goal" [] [] (mkBudget 0 (Fin 0) 0) [] [] DEFAULT_TRUST_CEILING 3.

Definition demo_outcome : MergeOutcome :=
  mkOutcome [finalise "sub" DEFAULT_TRUST_CEILING (demo_entry "k1" (Fin 1))]
    [mkRejected 3 REASON_CAP_EXCEEDED; mkRejected 1 REASON_CONFLICT; mkRejected 2 REASON_SCHEMA_INVALID] [].

Lemma demo_merge_result :
  fst (merge_result demo_result demo_request "sub" None ["k0"]) = Ok demo_outcome.
Proof. vm_compute. reflexivity. Qed.

(** [ttl_seconds <= 0] is false of NaN, so a NaN time-to-live is admitted. *)
Lemma nan_ttl_admitted :
  validate_entry (mkEntry "notes" "k" "text" (Fin 0) (Some NaN) [] "replace" None) = None.
Proof. vm_compute. reflexivity. Qed.

Lemma merge_patch_rfc7396_witness :
  apply_json_merge_patch
    (apply_json_merge_patch (VDict [("a", VInt 1); ("b", VInt 2)]) (VDict [("a", VNone); ("c", VInt 3)]))
    (VDict [("a", VNone); ("c", VInt 3)]) = VDict [("b", VInt 2); ("c", VInt 3)].
Proof.
  destruct (merge_patch_rfc7396 (VDict [("a", VInt 1); ("b", VInt 2)])
              (VDict [("a", VNone); ("c", VInt 3)])) as (_&_&E).
  - split; [apply (bool_decide_unpack _); vm_compute; exact I|simpl; auto].
  - split; [apply (bool_decide_unpack _); vm_compute; exact I|simpl; auto].
  - rewrite E. reflexivity.
Defined.

Lemma merge_accounts_for_every_write_witness :
  exists vs, length vs = 4%nat /\ admitted demo_outcome = admitted_of vs /\
  rejected demo_outcome ≡ₚ rejected_of 0 vs.
Proof.
  destruct (merge_accounts_for_every_write demo_result demo_request "sub" None ["k0"] demo_outcome
    (snd (merge_result demo_result demo_request "sub" None ["k0"]))) as (vs&H1&H2&H3&_).
  - vm_compute. reflexivity.
  - exists vs. split; [exact H1|]. split; [exact H2|exact H3].
Defined.

Lemma merge_trust_boundary_witness :
  (Z.of_nat (length (admitted demo_outcome)) <= 3)%Z.
Proof.
  destruct (merge_trust_boundary demo_result demo_request "sub" None ["k0"] demo_outcome
    (snd (merge_result demo_result demo_request "sub" None ["k0"]))) as [H _].
  - vm_compute. reflexivity.
  - vm_compute. reflexivity.
  - exact H.
Defined.

Lemma merge_metrics_account_witness :
  metric_total "delegation_memory_writes_rejected"
    (snd (merge_result demo_result demo_request "sub" None ["k0"])) = 3%Z.
Proof.
  destruct (merge_metrics_account demo_result demo_request "sub" None ["k0"] (Ok demo_outcome)
    (snd (merge_result demo_result demo_request "sub" None ["k0"]))) as (_&_&_&H&_).
  - vm_compute. reflexivity.
  - exact H.
Defined.
