(* ===== verification/Permissions.v ===== *)
(** * The permission gate

    Models [agents/tools/permissions.py] over the agent's [permissions] block,
    an untyped configuration object: an access that would raise in Python
    raises here. *)

From Stdlib Require Import Ascii.
From S2P Require Import Prelude PyStr PyDict PyValue.
Local Open Scope string_scope.
Local Open Scope py_scope.

Definition GRANTED_BY_LIST : list (string * string) :=
  [("shell:exec", "allowed_commands"); ("network:http", "allow")].

(** [s.split(":", 1)]: the two parts, or [None] when there is no colon. *)
Fixpoint split_colon (s : string) : option (string * string) :=
  match s with
  | EmptyString => None
  | String c s' =>
      if Ascii.eqb c ":"%char then Some ("", s')
      else option_map (λ ab, (String c (fst ab), snd ab)) (split_colon s')
  end.

(** [s.split()] *)
Fixpoint split_words_from (word : string) (s : string) : list string :=
  match s with
  | EmptyString => if truthy word then [word] else []
  | String c s' =>
      if is_space c
      then (if truthy word then [word] else []) ++ split_words_from "" s'
      else split_words_from (word +:+ String c "") s'
  end%list.
Definition split_words (s : string) : list string := split_words_from "" s.

(** [v.get(k)] on a value that may not be a mapping. *)
Definition attr_get (k : string) (v : pyval) : result string pyval :=
  match v with VDict d => Ok (dget_or k VNone d) | _ => Raise "AttributeError" end.
Definition attr_get_or (k : string) (dft v : pyval) : result string pyval :=
  match v with VDict d => Ok (dget_or k dft d) | _ => Raise "AttributeError" end.

Fixpoint chars (s : string) : list string :=
  match s with EmptyString => [] | String c s' => String c "" :: chars s' end.

(** [iter(v)] *)
Definition iterate (v : pyval) : result string (list pyval) :=
  match v with
  | VList l => Ok l
  | VStr s => Ok (map VStr (chars s))
  | VDict d => Ok (map VStr (dkeys d))
  | _ => Raise "TypeError"
  end.

(** [d.lower()] *)
Definition v_lower (v : pyval) : result string string :=
  match v with VStr s => Ok (lower s) | _ => Raise "AttributeError" end.

Fixpoint lower_all (l : list pyval) : result string (list string) :=
  match l with
  | [] => Ok []
  | v :: l' => let! s := v_lower v in let! r := lower_all l' in Ok (s :: r)
  end.

(** [self._permissions.get(category)], [None] when absent. *)
Definition category (permissions : pydict) (c : string) : pyval := dget_or c VNone permissions.

Definition check (permissions : pydict) (permission : string) : result string bool :=
  match split_colon permission with
  | None => Ok false
  | Some (cat, action) =>
      match category permissions cat with
      | VNone => Ok false
      | cat_config =>
          let! value := attr_get (default action (dget permission GRANTED_BY_LIST)) cat_config in
          Ok (vtruthy value)
      end
  end.

(** [args[:len(p)] == p], with the length test before it. *)
Definition matches_pattern (words args : list string) : bool :=
  if bool_decide (length args < length words)%nat then false
  else bool_decide (take (length words) args = words).

Fixpoint any_pattern (patterns : list pyval) (args : list string) : result string bool :=
  match patterns with
  | [] => Ok false
  | VStr p :: ps => if matches_pattern (split_words p) args then Ok true else any_pattern ps args
  | _ :: _ => Raise "AttributeError"
  end.

Definition is_command_allowed (permissions : pydict) (args : list string) : result string bool :=
  match args with
  | [] => Ok false
  | _ =>
      match category permissions "shell" with
      | VNone => Ok false
      | shell_config =>
          let! allowed := attr_get_or "allowed_commands" (VList []) shell_config in
          if negb (vtruthy allowed) then Ok false
          else let! patterns := iterate allowed in any_pattern patterns args
      end
  end.

(** [bool] is an [int] in Python, hence the first test. *)
Definition shell_time_limit (permissions : pydict) : result string (option Z) :=
  let shell := category permissions "shell" in
  let! limit := attr_get "max_execution_seconds" (if vtruthy shell then shell else VDict []) in
  match limit with
  | VInt n => Ok (if (n <? 1)%Z then None else Some n)
  | _ => Ok None
  end.

Definition is_domain_allowed (permissions : pydict) (domain : string) : result string bool :=
  let domain := lower domain in
  match category permissions "network" with
  | VNone => Ok false
  | net_config =>
      let! allow := attr_get_or "allow" (VList []) net_config in
      let! allow := iterate allow in
      let! allow_list := lower_all allow in
      let! deny := attr_get_or "deny" (VList []) net_config in
      let! deny := iterate deny in
      let! deny_list := lower_all deny in
      if bool_decide (domain ∈ allow_list) then Ok true
      else if bool_decide ("*" ∈ deny_list) || bool_decide (domain ∈ deny_list) then Ok false
      else if negb (bool_decide (deny_list = [])) then Ok false
      else if negb (bool_decide (allow_list = [])) then Ok false
      else Ok false
  end.

(** ** Properties *)

Lemma matches_pattern_spec words args :
  matches_pattern words args = true <-> words `prefix_of` args.
Proof.
  unfold matches_pattern. case_bool_decide as Hl.
  - split; [done|]. intros Hp%prefix_length. lia.
  - rewrite bool_decide_eq_true. split.
    + intros E. exists (drop (length words) args). by rewrite <- E at 1; rewrite take_drop.
    + intros [r ->]. by rewrite take_app_length.
Qed.

Lemma any_pattern_spec pats args :
  any_pattern (map VStr pats) args =
  Ok (existsb (λ p, matches_pattern (split_words p) args) pats).
Proof.
  induction pats as [|p pats IH]; simpl; [done|]. by destruct (matches_pattern _ _).
Qed.

Arguments any_pattern : simpl never.
Arguments existsb : simpl never.

(** A configuration category holding the given list of strings. *)
Definition configured (permissions : pydict) (cat k : string) (l : list string) : Prop :=
  exists d, category permissions cat = VDict d /\ dget k d = Some (VList (map VStr l)).

Lemma command_allowed_iff permissions pats args :
  configured permissions "shell" "allowed_commands" pats ->
  exists b, is_command_allowed permissions args = Ok b /\
  (b = true <-> args <> [] /\ exists p, p ∈ pats /\ split_words p `prefix_of` args).
Proof.
  intros (d&Hc&Hd). unfold is_command_allowed. destruct args as [|a args].
  { exists false. split; [done|]. split; [done|]. by intros [? _]. }
  rewrite Hc. unfold attr_get_or, dget_or. rewrite Hd. simpl.
  rewrite any_pattern_spec. destruct pats as [|p pats].
  { exists false. split; [done|]. split; [done|]. intros (_&p&Hp&_). by apply not_elem_of_nil in Hp. }
  eexists. split; [reflexivity|]. rewrite existsb_exists.
  split.
  - intros (q&Hq&Hm). split; [done|]. exists q. split; [by apply list_elem_of_In|].
    by apply matches_pattern_spec.
  - intros (_&q&Hq&Hm). exists q. split; [by apply list_elem_of_In|].
    by apply matches_pattern_spec.
Qed.

(** The shell allowlist decides exactly by word prefixes: a non-empty command
    is allowed iff the words of some listed pattern are its first words. *)
Theorem command_allowed_exact permissions pats args :
  configured permissions "shell" "allowed_commands" pats ->
  exists b, is_command_allowed permissions args = Ok b /\
  (b = true <-> args <> [] /\ exists p, p ∈ pats /\ split_words p `prefix_of` args).
Proof. apply command_allowed_iff. Qed.

(** A blank pattern has no words, and its empty prefix admits every command. *)
Lemma blank_pattern_allows_all permissions p pats args :
  configured permissions "shell" "allowed_commands" pats -> p ∈ pats -> split_words p = [] ->
  args <> [] -> is_command_allowed permissions args = Ok true.
Proof.
  intros Hc Hp Hs Ha. destruct (command_allowed_iff permissions pats args Hc) as (b&->&Hb).
  f_equal. apply Hb. split; [done|]. exists p. rewrite Hs. split; [done|]. apply prefix_nil.
Qed.

Lemma lower_all_strs l : lower_all (map VStr l) = Ok (map lower l).
Proof. induction l as [|s l IH]; simpl; [done|]. by rewrite IH. Qed.

(** A domain is allowed iff it is on the allow list, case-insensitively: the
    deny list, wildcard included, never overrides nor extends it. *)
Theorem domain_allowed_exact permissions d allow deny domain :
  category permissions "network" = VDict d ->
  dget_or "allow" (VList []) d = VList (map VStr allow) ->
  dget_or "deny" (VList []) d = VList (map VStr deny) ->
  is_domain_allowed permissions domain =
  Ok (bool_decide (lower domain ∈ map lower allow)).
Proof.
  intros Hc Ha Hd. unfold is_domain_allowed. rewrite Hc. unfold attr_get_or.
  rewrite Ha, Hd. simpl. rewrite !lower_all_strs. simpl.
  case_bool_decide as E; [done|]. repeat (case_bool_decide; simpl; try done).
Qed.

(** Deny by default: a permission is granted iff it names a category the
    configuration holds as an object and the entry that grants it is truthy;
    and with no shell or network category no command and no domain passes. *)
Theorem gate_denies_by_default permissions permission :
  (check permissions permission = Ok true <->
   exists cat action d, split_colon permission = Some (cat, action) /\
     category permissions cat = VDict d /\
     vtruthy (dget_or (default action (dget permission GRANTED_BY_LIST)) VNone d) = true) /\
  (dget "shell" permissions = None -> forall args, is_command_allowed permissions args = Ok false) /\
  (dget "network" permissions = None -> forall dom, is_domain_allowed permissions dom = Ok false).
Proof.
  split; [|split].
  - unfold check. destruct (split_colon permission) as [[cat action]|]; [|by split; [|intros (?&?&?&?&_)]].
    split.
    + intros H. exists cat, action. destruct (category permissions cat) as [| | | | | |d]; try done.
      exists d. simpl in H. injection H as H. done.
    + intros (cat'&action'&d&[= <- <-]&Hc&Hv). rewrite Hc. cbn [rbind attr_get]. by rewrite Hv.
  - intros Hn args. unfold is_command_allowed, category, dget_or. rewrite Hn. by destruct args.
  - intros Hn dom. unfold is_domain_allowed, category, dget_or. by rewrite Hn.
Qed.

(** ** Witnesses *)

Definition demo_permissions : pydict :=
  [("shell", VDict [("allowed_commands", VList [VStr "git diff"; VStr "ls"])]);
   ("network", VDict [("allow", VList [VStr "Example.org"]); ("deny", VList [VStr "*"])])].

Lemma demo_configured : configured demo_permissions "shell" "allowed_commands" ["git diff"; "ls"].
Proof. eexists. split; reflexivity. Qed.

Lemma command_allowed_exact_witness :
  is_command_allowed demo_permissions ["git"; "diff"; "main"] = Ok true /\
  is_command_allowed demo_permissions ["git"; "push"] = Ok false /\
  exists b, is_command_allowed demo_permissions ["git"; "diff"; "main"] = Ok b /\ b = true.
Proof.
  split; [reflexivity|]. split; [reflexivity|].
  destruct (command_allowed_exact demo_permissions ["git diff"; "ls"] ["git"; "diff"; "main"])
    as (b&E&_); [apply demo_configured|]. exists b. split; [exact E|].
  vm_compute in E. congruence.
Defined.

Lemma domain_allowed_exact_witness :
  is_domain_allowed demo_permissions "EXAMPLE.org" = Ok true.
Proof.
  rewrite (domain_allowed_exact demo_permissions
    [("allow", VList [VStr "Example.org"]); ("deny", VList [VStr "*"])] ["Example.org"] ["*"]);
    reflexivity.
Defined.

Lemma gate_denies_by_default_witness :
  check demo_permissions "shell:exec" = Ok true /\ is_domain_allowed [] "example.org" = Ok false.
Proof.
  split.
  - apply (gate_denies_by_default demo_permissions "shell:exec").
    exists "shell", "exec", [("allowed_commands", VList [VStr "git diff"; VStr "ls"])].
    split; [reflexivity|]. split; reflexivity.
  - apply (gate_denies_by_default [] "shell:exec"). reflexivity.
Defined.
