(* ===== verification/Cascade.v ===== *)
(** * Dispatch, action execution and the in-process cascade

    Models [agents/dispatch.py] ([EventDispatcher.dispatch]),
    [agents/action_executor.py] ([ActionExecutor.execute] and its arms),
    [agents/dispatch_context.py] and [process_inbound_channel_event] of
    [agents/chat_reply.py]. An event dispatched to an agent makes it decide
    actions; sending a message dispatches child events to the agents it
    mentions, one hop deeper.

    What the agents, their event loops and the REST publisher do is the
    environment [Env], a record of operations over a world [W]. The per-hop
    timeout is an exception the environment may raise. Log lines, trace spans
    and the leak tripwire (observability only) are left out, a message's
    channel id is a [str], and a cascade depth is an [int]. *)

From S2P Require Import Prelude PyStr PyDict PyValue Ambient PersonaEvents.
Local Open Scope string_scope.
Local Open Scope py_scope.

Definition DEFAULT_MAX_CASCADE_DEPTH : Z := 5.
Definition MAX_MENTIONS_PER_ACTION : nat := 10.

(** ** [dispatch_context.py] *)

Definition wire_interaction_id (metadata : pydict) : string :=
  match dget_or "interaction_id" (VStr "") metadata with VStr s => s | _ => "" end.

Record DispatchContext := mkContext {
  cascade_depth : Z;
  origin_channel_id : string;
  origin_interaction_id : string;
  origin_synthesis_turn : bool;
  origin_epoch_id : string;
  origin_session_id : string;
  origin_principal_id : string;
}.

Definition for_event (e : AgentEvent) (depth : Z) : DispatchContext :=
  mkContext depth
    (opt_str (channel_id e))
    (wire_interaction_id (metadata e))
    (is_true (dget "synthesis_turn" (ev_payload e)))
    (opt_str (Epoch.epoch_id_from_metadata (metadata e)))
    (opt_str (Session.session_id_from_metadata (metadata e)))
    (opt_str (Principal.principal_id_from_metadata (metadata e))).

(** The binder order is session, principal, epoch; empty fields enter nothing. *)
Definition enter_if {A} (scope : option string -> (string -> body A) -> body A) (v : string)
    (block : body A) : body A :=
  if truthy v then scope (Some v) (λ _, block) else block.

Definition request_scopes {A} (c : DispatchContext) (block : body A) : body A :=
  enter_if Session.session_scope (origin_session_id c)
    (enter_if Principal.principal_scope (origin_principal_id c)
      (enter_if Epoch.epoch_scope (origin_epoch_id c) block)).

Definition same_channel_claim (c : DispatchContext) (target_channel : string)
    (claim_synthesis_reply : bool) : option pydict :=
  if truthy (origin_interaction_id c) && String.eqb target_channel (origin_channel_id c) then
    let claim := [("interaction_id", VStr (origin_interaction_id c))] in
    Some (if claim_synthesis_reply && origin_synthesis_turn c
          then dset "synthesis_reply" (VBool true) claim else claim)
  else None.

(** ** The environment *)

Inductive decision := Decided (actions : list AgentAction) | DecisionRaised (exc : string).
Inductive publish_outcome := Published | ChannelsDisabled | PublishFailed.

Record Publication := mkPublication {
  pub_channel : string;
  pub_sender : string;
  pub_content : pyval;
  pub_mentions : list pyval;
  pub_metadata : option pydict;
  pub_cascade_depth : Z;
}.

Record Env (W : Type) := mkEnv {
  registered : W -> string -> bool;
  (** [None]: no scheduler; [Some running]. *)
  scheduler : W -> string -> option bool;
  scheduler_wake : string -> W -> W;
  (** [event_loop.enqueue(InboundEventWake(event, handle))]. *)
  loop_accepts : string -> AgentEvent -> W -> bool * W;
  (** The agent's [on_event], run by the caller or by its event loop. *)
  on_event : string -> AgentEvent -> W -> decision * W;
  publisher : option (Publication -> W -> publish_outcome * W);
  (** The end-vote arm, publish and outcome callback; answers its status. *)
  end_vote : string -> AgentAction -> DispatchContext -> W -> string * W;
}.
Arguments registered {W}. Arguments scheduler {W}. Arguments scheduler_wake {W}.
Arguments loop_accepts {W}. Arguments on_event {W}. Arguments publisher {W}.
Arguments end_vote {W}.

(** The status dictionary of an executed action. *)
Record Status := mkStatus {
  st_action : ActionType;
  st_status : string;
  st_dispatched_to : option nat;
}.

Section cascade.
Context {W : Type} (env : Env W) (max_cascade_depth : Z).

(** The world, with the decisions taken so far: who decided on which event. *)
Record state := mkState { world : W; decisions : list (string * AgentEvent) }.

(** Results: [None] is out of fuel. *)
Abbreviation outcome A := (option (result string A * state)).

(** [event.metadata.get("cascade_depth", 0)] *)
Definition inbound_depth (e : AgentEvent) : result string Z :=
  match dget_or "cascade_depth" (VInt 0) (metadata e) with
  | VInt z => Ok z
  | VBool b => Ok (if b then 1 else 0)%Z
  | _ => Raise "TypeError"
  end.

(** [self._agents.get(target_id)]: only a [str] can be found; an unhashable
    target raises. *)
Definition find_agent (w : W) (target : pyval) : result string (option string) :=
  match target with
  | VStr s => Ok (if registered env w s then Some s else None)
  | VList _ | VDict _ => Raise "TypeError"
  | _ => Ok None
  end.

Definition deepened (e : AgentEvent) (depth : Z) : AgentEvent :=
  mkEvent (event_type e) (ev_payload e) (channel_id e) (sender_id e) (message_id e)
    (thread_id e) (timestamp e) (dset "cascade_depth" (VInt (depth + 1)) (metadata e)).

(** The agent decides, directly or through its running event loop; a full
    queue discards the event. *)
Definition decide_on (target : string) (e : AgentEvent) (s : state) :
    option decision * state :=
  let run (w : W) :=
    let '(d, w) := on_event env target e w in
    (Some d, mkState w (decisions s ++ [(target, e)])%list) in
  match scheduler env (world s) target with
  | Some true =>
      let '(ok, w) := loop_accepts env target e (world s) in
      if ok then run w else (None, mkState w (decisions s))
  | Some false => run (scheduler_wake env target (world s))
  | None => run (world s)
  end.

(** The event a sent message makes for one mentioned agent. *)
Definition child_event (c : DispatchContext) (sender : string) (target_channel : string)
    (content : pyval) (mentions : list pyval) : AgentEvent :=
  let md := [("cascade_depth", VInt (cascade_depth c))] in
  let md := if truthy (origin_session_id c)
            then dset Session.EVENT_SESSION_METADATA_KEY (VStr (origin_session_id c)) md else md in
  let md := if truthy (origin_epoch_id c)
            then dset Epoch.EVENT_EPOCH_METADATA_KEY (VStr (origin_epoch_id c)) md else md in
  let md := if truthy (origin_principal_id c)
            then dset Principal.EVENT_PRINCIPAL_METADATA_KEY (VStr (origin_principal_id c)) md else md in
  mkEvent CHANNEL_MESSAGE
    [("content", content); ("channel_id", VStr target_channel); ("mentions", VList mentions);
     ("respond_policy", VStr "when_mentioned")]
    (Some target_channel) (Some sender) None None 0 md.

Section execute.
(** [self._dispatcher.dispatch], one hop deeper. *)
Context (dispatch : pyval -> AgentEvent -> state -> outcome (list AgentAction)).

(** The loop over the mentions: a failing dispatch does not stop the others. *)
Fixpoint dispatch_mentions (e : AgentEvent) (targets : list pyval) (dispatched : nat) (s : state) :
    option (nat * state) :=
  match targets with
  | [] => Some (dispatched, s)
  | t :: targets' =>
      match dispatch t e s with
      | None => None
      | Some (Ok _, s) => dispatch_mentions e targets' (S dispatched) s
      | Some (Raise _, s) => dispatch_mentions e targets' dispatched s
      end
  end.

Definition mentions_of (a : AgentAction) : list pyval :=
  match dget_or "mentions" (VList []) (act_payload a) with
  | VList l => take MAX_MENTIONS_PER_ACTION l
  | _ => []
  end.

Definition target_channel_of (a : AgentAction) : string :=
  match dget_or "channel_id" (VStr "") (act_payload a) with VStr s => s | _ => "" end.

Definition handle_send_channel_message (sender : string) (a : AgentAction) (c : DispatchContext)
    (s : state) : option (Status * state) :=
  let target_channel := target_channel_of a in
  let content := dget_or "content" (VStr "") (act_payload a) in
  let mentions := mentions_of a in
  match (if truthy target_channel then publisher env else None) with
  | Some publish =>
      let '(r, w) := publish (mkPublication target_channel sender content mentions
                        (same_channel_claim c target_channel true) (cascade_depth c)) (world s) in
      Some (mkStatus SEND_CHANNEL_MESSAGE
              (match r with
               | Published => "published"
               | ChannelsDisabled => "channels_disabled"
               | PublishFailed => "failed"
               end) None,
            mkState w (decisions s))
  | None =>
      match mentions with
      | [] => Some (mkStatus SEND_CHANNEL_MESSAGE "no_targets" (Some 0%nat), s)
      | _ =>
          match dispatch_mentions (child_event c sender target_channel content mentions) mentions 0 s with
          | None => None
          | Some (n, s) =>
              Some (mkStatus SEND_CHANNEL_MESSAGE (if (0 <? n)%nat then "dispatched" else "failed") (Some n), s)
          end
      end
  end.

Definition execute_one (agent_id : string) (a : AgentAction) (c : DispatchContext) (s : state) :
    option (Status * state) :=
  match action_type a with
  | SEND_CHANNEL_MESSAGE => handle_send_channel_message agent_id a c s
  | END_INTERACTION_VOTE =>
      let '(status, w) := end_vote env agent_id a c (world s) in
      Some (mkStatus END_INTERACTION_VOTE status None, mkState w (decisions s))
  | COMPLETE_TASK => Some (mkStatus COMPLETE_TASK "completed" None, s)
  | USE_TOOL => Some (mkStatus USE_TOOL "skipped" None, s)
  | DO_NOTHING => Some (mkStatus DO_NOTHING "ok" None, s)
  | t => Some (mkStatus t "not_implemented" None, s)
  end.

Fixpoint execute (agent_id : string) (actions : list AgentAction) (c : DispatchContext) (s : state) :
    option (list Status * state) :=
  match actions with
  | [] => Some ([], s)
  | a :: actions' =>
      match execute_one agent_id a c s with
      | None => None
      | Some (st, s) =>
          match execute agent_id actions' c s with
          | None => None
          | Some (sts, s) => Some (st :: sts, s)
          end
      end
  end.
End execute.

(** [EventDispatcher.dispatch]; the fuel bounds the depth of the recursion. *)
Fixpoint dispatch (fuel : nat) (execute_actions : bool) (target : pyval) (e : AgentEvent) (s : state) :
    outcome (list AgentAction) :=
  match fuel with
  | O => None
  | S fuel' =>
      match inbound_depth e with
      | Raise x => Some (Raise x, s)
      | Ok depth =>
          if (max_cascade_depth <=? depth)%Z then Some (Ok [], s)
          else match find_agent (world s) target with
               | Raise x => Some (Raise x, s)
               | Ok None => Some (Ok [], s)
               | Ok (Some id) =>
                   let e := deepened e depth in
                   match decide_on id e s with
                   | (None, s) => Some (Ok [], s)
                   | (Some (DecisionRaised x), s) => Some (Raise x, s)
                   | (Some (Decided actions), s) =>
                       if execute_actions then
                         match execute (dispatch fuel' true) id actions (for_event e (depth + 1)) s with
                         | None => None
                         | Some (_, s) => Some (Ok actions, s)
                         end
                       else Some (Ok actions, s)
                   end
               end
      end
  end.

(** [process_inbound_channel_event], without the error-reply wrapper: the
    fire-and-forget path, which runs the agent on the event as it came. *)
Definition process_inbound (fuel : nat) (id : string) (e : AgentEvent) (s : state) : outcome unit :=
  match inbound_depth e with
  | Raise x => Some (Raise x, s)
  | Ok depth =>
      if (max_cascade_depth <=? depth)%Z then Some (Ok tt, s)
      else
        let '(d, w) := on_event env id e (world s) in
        let s := mkState w (decisions s ++ [(id, e)])%list in
        match d with
        | DecisionRaised x => Some (Raise x, s)
        | Decided actions =>
            match execute (dispatch fuel true) id actions (for_event e (depth + 1)) s with
            | None => None
            | Some (_, s) => Some (Ok tt, s)
            end
        end
  end.
End cascade.

(** * Correctness of the cascade

    Every dispatch terminates after a bounded number of decisions, no agent
    decides past the depth ceiling, and the request's scope ids reach every
    agent of the cascade. *)

(** ** Scope ids along the cascade *)

Definition scope_ids (md : pydict) : option string * option string * option string :=
  (Epoch.epoch_id_from_metadata md, Session.session_id_from_metadata md,
   Principal.principal_id_from_metadata md).

Lemma id_from_metadata_dset_ne ax k v md :
  k <> ax_metadata_key ax -> id_from_metadata ax (dset k v md) = id_from_metadata ax md.
Proof. intros Hne. unfold id_from_metadata. by rewrite dget_dset_ne by done. Qed.

Lemma id_from_metadata_dset_eq ax s md :
  truthy s = true -> id_from_metadata ax (dset (ax_metadata_key ax) (VStr s) md) = Some s.
Proof. intros Hs. unfold id_from_metadata. rewrite dget_dset_eq. by rewrite Hs. Qed.

Lemma id_from_metadata_truthy ax md s : id_from_metadata ax md = Some s -> truthy s = true.
Proof.
  unfold id_from_metadata. destruct (dget _ md) as [[]|]; try done.
  destruct (truthy s0) eqn:E; [|done]. by intros [= <-].
Qed.

(** Seeding an axis from what was read of it, and nothing when nothing was. *)
Lemma seed_axis ax (oid : option string) md :
  (forall s, oid = Some s -> truthy s = true) -> id_from_metadata ax md = None ->
  id_from_metadata ax
    (if truthy (opt_str oid) then dset (ax_metadata_key ax) (VStr (opt_str oid)) md else md) = oid.
Proof.
  intros Ht Hn. destruct oid as [s|]; simpl; [|done].
  rewrite (Ht s eq_refl). by apply id_from_metadata_dset_eq, Ht.
Qed.

Lemma deepened_scope_ids e d : scope_ids (metadata (deepened e d)) = scope_ids (metadata e).
Proof. unfold scope_ids. simpl. f_equal; [f_equal|]; by apply id_from_metadata_dset_ne. Qed.

Lemma deepened_depth e d : inbound_depth (deepened e d) = Ok (d + 1)%Z.
Proof. unfold inbound_depth, dget_or. simpl. by rewrite dget_dset_eq. Qed.

Ltac seed_cases :=
  repeat match goal with |- context [if truthy ?s then _ else _] => destruct (truthy s) end.

Lemma child_event_depth c sender ch content ms :
  inbound_depth (child_event c sender ch content ms) = Ok (cascade_depth c).
Proof.
  unfold inbound_depth, dget_or, child_event. simpl metadata.
  seed_cases; rewrite ?dget_dset_ne by done; reflexivity.
Qed.

Lemma child_event_scope_ids e d sender ch content ms :
  scope_ids (metadata (child_event (for_event e d) sender ch content ms)) = scope_ids (metadata e).
Proof.
  unfold scope_ids, child_event, for_event.
  cbn [metadata cascade_depth origin_session_id origin_epoch_id origin_principal_id].
  set (m0 := [("cascade_depth", VInt d)]).
  set (m1 := if truthy (opt_str (Session.session_id_from_metadata (metadata e))) then _ else m0).
  set (m2 := if truthy (opt_str (Epoch.epoch_id_from_metadata (metadata e))) then _ else m1).
  assert (forall ax k v (b : bool) md, k <> ax_metadata_key ax ->
    id_from_metadata ax (if b then dset k v md else md) = id_from_metadata ax md) as Hskip.
  { intros ax k v [] md Hk; [by apply id_from_metadata_dset_ne|done]. }
  f_equal; [f_equal|].
  - unfold Epoch.epoch_id_from_metadata at 1. rewrite Hskip by done.
    apply (seed_axis Epoch.ax); [apply id_from_metadata_truthy|]. unfold m1. by rewrite Hskip by done.
  - unfold Session.session_id_from_metadata at 1. rewrite Hskip by done. unfold m2. rewrite Hskip by done.
    apply (seed_axis Session.ax); [apply id_from_metadata_truthy|done].
  - unfold Principal.principal_id_from_metadata at 1.
    apply (seed_axis Principal.ax); [apply id_from_metadata_truthy|].
    unfold m2. rewrite Hskip by done. unfold m1. by rewrite Hskip by done.
Qed.

(** ** Termination and size *)

(** [1 + b + b^2 + ...], [n] terms. *)
Fixpoint geo (b n : nat) : nat := match n with O => 0 | S n' => S (b * geo b n') end.

Section bounded.
Context {W : Type} (env : Env W) (maxd : Z).

(** From [s] to [s'], at most [n] decisions were taken, each satisfying [R]. *)
Definition decided (R : string * AgentEvent -> Prop) (n : nat) (s s' : @state W) : Prop :=
  exists new, decisions s' = (decisions s ++ new)%list /\ (length new <= n)%nat /\ Forall R new.

Lemma decided_none R n (s : @state W) w : decided R n s (mkState w (decisions s)).
Proof. exists []. rewrite app_nil_r. repeat split; [simpl; lia|constructor]. Qed.

Lemma decided_refl R n (s : @state W) : decided R n s s.
Proof. exists []. rewrite app_nil_r. repeat split; [simpl; lia|constructor]. Qed.

Lemma decided_trans R n m (s1 s2 s3 : @state W) :
  decided R n s1 s2 -> decided R m s2 s3 -> decided R (n + m) s1 s3.
Proof.
  intros (l1&E1&L1&F1) (l2&E2&L2&F2). exists (l1 ++ l2)%list.
  rewrite E2, E1, app_assoc, length_app. repeat split; [lia|by apply Forall_app].
Qed.

Lemma decided_mono R n m (s1 s2 : @state W) : decided R n s1 s2 -> (n <= m)%nat -> decided R m s1 s2.
Proof. intros (l&E&L&F) Hm. exists l. repeat split; [done|lia|done]. Qed.

Lemma decided_cons R (s s' : @state W) n w x :
  R x -> decided R n (mkState w (decisions s ++ [x])%list) s' -> decided R (S n) s s'.
Proof.
  intros Hx (l&E&L&F). exists (x :: l). simpl in E. rewrite E, <- app_assoc.
  repeat split; [simpl; lia|by constructor].
Qed.

(** What one deeper dispatch is assumed to do. *)
Section execute.
Context (disp : pyval -> AgentEvent -> @state W -> option (result string (list AgentAction) * @state W)).
Context (R : string * AgentEvent -> Prop) (b : nat) (c : DispatchContext).
Context (Hdisp : forall t sender ch content ms s, exists r s',
  disp t (child_event c sender ch content ms) s = Some (r, s') /\ decided R b s s').

Lemma dispatch_mentions_decided sender ch content ms ts n s :
  exists n' s', dispatch_mentions disp (child_event c sender ch content ms) ts n s = Some (n', s') /\
  decided R (length ts * b) s s'.
Proof.
  revert n s. induction ts as [|t ts IH]; intros n s; simpl.
  { eexists _, _. split; [done|apply decided_refl]. }
  destruct (Hdisp t sender ch content ms s) as (r&s1&->&H1).
  destruct r; [destruct (IH (S n) s1) as (n'&s'&->&H2)|destruct (IH n s1) as (n'&s'&->&H2)];
    eexists _, _; (split; [done|by eapply decided_trans]).
Qed.

Lemma mentions_capped a : (length (mentions_of a) <= MAX_MENTIONS_PER_ACTION)%nat.
Proof.
  unfold mentions_of. destruct (dget_or _ _ _); simpl; try (unfold MAX_MENTIONS_PER_ACTION; lia).
  rewrite length_take. lia.
Qed.

Lemma execute_one_decided id a s :
  exists st s', execute_one env disp id a c s = Some (st, s') /\
  decided R (MAX_MENTIONS_PER_ACTION * b) s s'.
Proof.
  unfold execute_one. destruct (action_type a);
    try (eexists _, _; split; [reflexivity|apply decided_refl]).
  - unfold handle_send_channel_message.
    destruct (if truthy (target_channel_of a) then publisher env else None) as [publish|].
    { destruct (publish _ _) as [r w]. eexists _, _. split; [reflexivity|apply decided_none]. }
    pose proof (mentions_capped a) as Hc.
    destruct (mentions_of a) as [|m ms] eqn:E.
    { eexists _, _. split; [reflexivity|apply decided_refl]. }
    destruct (dispatch_mentions_decided id (target_channel_of a)
      (dget_or "content" (VStr "") (act_payload a)) (m :: ms) (m :: ms) 0 s) as (n&s'&->&H).
    eexists _, _. split; [reflexivity|]. eapply decided_mono; [exact H|].
    by apply Nat.mul_le_mono_r.
  - destruct (end_vote env id a c (world s)) as [status w].
    eexists _, _. split; [reflexivity|apply decided_none].
Qed.

Lemma execute_decided id acts s :
  exists sts s', execute env disp id acts c s = Some (sts, s') /\
  decided R (length acts * (MAX_MENTIONS_PER_ACTION * b)) s s'.
Proof.
  revert s. induction acts as [|a acts IH]; intros s; cbn [execute length].
  { eexists _, _. split; [reflexivity|apply decided_refl]. }
  destruct (execute_one_decided id a s) as (st&s1&->&H1).
  destruct (IH s1) as (sts&s2&->&H2). eexists _, _. split; [reflexivity|].
  rewrite Nat.mul_succ_l, Nat.add_comm. by eapply decided_trans.
Qed.
End execute.

(** How an agent of the cascade rooted at depth [d] with scope [ids] sees its
    event. *)
Definition in_cascade (d : Z) (ids : option string * option string * option string)
    (x : string * AgentEvent) : Prop :=
  scope_ids (metadata (snd x)) = ids /\
  exists d', inbound_depth (snd x) = Ok d' /\ (d < d' <= maxd)%Z.

Lemma in_cascade_deeper d d' ids x : (d <= d')%Z -> in_cascade d' ids x -> in_cascade d ids x.
Proof. intros Hd (Hi&e&He&Hb). split; [done|]. exists e. split; [done|lia]. Qed.

Lemma decided_impl (R Q : string * AgentEvent -> Prop) n s s' :
  (forall x, R x -> Q x) -> decided R n s s' -> decided Q n s s'.
Proof. intros H (l&E&L&F). exists l. repeat split; try done. by eapply Forall_impl. Qed.

(** The agents decide on at most [k] actions at a time. *)
Context (k : nat)
  (Hk : forall t e w acts w', on_event env t e w = (Decided acts, w') -> (length acts <= k)%nat).

Abbreviation fanout := (k * MAX_MENTIONS_PER_ACTION)%nat.

Lemma decide_on_decided id e s od s' ids d :
  decide_on env id e s = (od, s') -> in_cascade d ids (id, e) ->
  decided (in_cascade d ids) 1 s s' /\
  (forall acts, od = Some (Decided acts) -> (length acts <= k)%nat).
Proof.
  intros Hd Hi.
  assert (forall w od s', (let '(x, w') := on_event env id e w in
      (Some x, mkState w' (decisions s ++ [(id, e)])%list)) = (od, s') ->
    decided (in_cascade d ids) 1 s s' /\ (forall acts, od = Some (Decided acts) -> (length acts <= k)%nat)) as Hrun.
  { intros w od' s1. destruct (on_event env id e w) as [x w'] eqn:E. intros [= <- <-]. split.
    - by apply (decided_cons _ _ _ 0 w' (id, e)); [|apply decided_refl].
    - intros acts [= ->]. by eapply Hk. }
  unfold decide_on in Hd. destruct (scheduler env (world s) id) as [[]|]; eauto.
  destruct (loop_accepts env id e (world s)) as [[] w]; [eauto|].
  injection Hd as <- <-. split; [apply decided_none|done].
Qed.

Lemma dispatch_decided fuel x t e s d :
  inbound_depth e = Ok d -> (Z.to_nat (maxd - d) < fuel)%nat ->
  exists r s', dispatch env maxd fuel x t e s = Some (r, s') /\
  decided (in_cascade d (scope_ids (metadata e))) (geo fanout (Z.to_nat (maxd - d))) s s'.
Proof.
  revert x t e s d. induction fuel as [|fuel IH]; intros x t e s d Hd Hf; [lia|].
  cbn [dispatch]. rewrite Hd. destruct (maxd <=? d)%Z eqn:Hm.
  { eexists _, _. split; [reflexivity|apply decided_refl]. }
  apply Z.leb_gt in Hm.
  destruct (find_agent env (world s) t) as [[id|]|];
    [|eexists _, _; split; [reflexivity|apply decided_refl]..].
  set (e' := deepened e d). set (n := Z.to_nat (maxd - (d + 1))).
  assert (Z.to_nat (maxd - d) = S n) as -> by (unfold n; lia).
  assert (in_cascade d (scope_ids (metadata e)) (id, e')) as Hi.
  { split; [apply deepened_scope_ids|]. exists (d + 1)%Z. split; [apply deepened_depth|lia]. }
  destruct (decide_on env id e' s) as [od s1] eqn:Ed.
  destruct (decide_on_decided _ _ _ _ _ _ _ Ed Hi) as [H1 Hacts].
  assert (forall s2 m, decided (in_cascade d (scope_ids (metadata e))) m s1 s2 ->
    (m <= fanout * geo fanout n)%nat ->
    decided (in_cascade d (scope_ids (metadata e))) (geo fanout (S n)) s s2) as Hjoin.
  { intros s2 m H2 Hle. eapply decided_mono; [by eapply decided_trans|]. simpl. lia. }
  destruct od as [[acts|exc]|];
    [|eexists _, _; split; [reflexivity|]; by apply (Hjoin _ 0%nat); [apply decided_refl|lia]..].
  destruct x; [|eexists _, _; split; [reflexivity|]; by apply (Hjoin _ 0%nat); [apply decided_refl|lia]].
  destruct (execute_decided (dispatch env maxd fuel true) (in_cascade d (scope_ids (metadata e)))
    (geo fanout n) (for_event e' (d + 1)%Z)) with (id := id) (acts := acts) (s := s1)
    as (sts&s2&->&H2).
  { intros t' sender ch content ms s'.
    destruct (IH true t' (child_event (for_event e' (d + 1)%Z) sender ch content ms) s' (d + 1)%Z)
      as (r&s2&->&H2); [apply child_event_depth|lia|].
    eexists _, _. split; [reflexivity|]. rewrite child_event_scope_ids in H2.
    unfold e' in H2. rewrite deepened_scope_ids in H2.
    eapply decided_impl; [|exact H2]. intros y. apply in_cascade_deeper. lia. }
  eexists _, _. split; [reflexivity|]. eapply Hjoin; [exact H2|].
  specialize (Hacts acts eq_refl). rewrite Nat.mul_assoc. by repeat apply Nat.mul_le_mono_r.
Qed.
End bounded.

(** C6. The cascade is finite and its ceiling holds: dispatching an event at depth
    [d] returns whenever the fuel exceeds the remaining depth; the agents then
    decided at most [1 + b + b^2 + ...] times ([max_cascade_depth - d] terms,
    [b] ten mentions for each of the at most [k] actions of a decision), each
    on an event strictly deeper than [d] and at most [max_cascade_depth] deep,
    and under the epoch, session and principal ids of the dispatched event. *)
Theorem cascade_bounded {W} (env : Env W) maxd k fuel x t e s d :
  (forall t e w acts w', on_event env t e w = (Decided acts, w') -> (length acts <= k)%nat) ->
  inbound_depth e = Ok d -> (Z.to_nat (maxd - d) < fuel)%nat ->
  exists r s' new, dispatch env maxd fuel x t e s = Some (r, s') /\
  decisions s' = (decisions s ++ new)%list /\
  (length new <= geo (k * MAX_MENTIONS_PER_ACTION) (Z.to_nat (maxd - d)))%nat /\
  Forall (λ y, scope_ids (metadata (snd y)) = scope_ids (metadata e) /\
    exists d', inbound_depth (snd y) = Ok d' /\ (d < d' <= maxd)%Z) new.
Proof.
  intros Hk Hd Hf. destruct (dispatch_decided env maxd k Hk fuel x t e s d Hd Hf)
    as (r&s'&E&new&H1&H2&H3). by exists r, s', new.
Qed.

(** The fire-and-forget path has the same ceiling: an inbound event at the
    ceiling runs no agent, and below it the receiving agent and the cascade it
    starts decide at most [1 + b * (1 + b + ...)] times. *)
Theorem inbound_processing_bounded {W} (env : Env W) maxd k fuel id e s d :
  (forall t e w acts w', on_event env t e w = (Decided acts, w') -> (length acts <= k)%nat) ->
  inbound_depth e = Ok d -> (Z.to_nat (maxd - d) < fuel)%nat ->
  exists r s' new, process_inbound env maxd fuel id e s = Some (r, s') /\
  decisions s' = (decisions s ++ new)%list /\
  (if (maxd <=? d)%Z then new = [] else
   exists rest, new = (id, e) :: rest /\
   (length rest <= k * MAX_MENTIONS_PER_ACTION * geo (k * MAX_MENTIONS_PER_ACTION) (Z.to_nat (maxd - (d + 1))))%nat /\
   Forall (λ y, scope_ids (metadata (snd y)) = scope_ids (metadata e)) rest).
Proof.
  intros Hk Hd Hf. unfold process_inbound. rewrite Hd. destruct (maxd <=? d)%Z eqn:Hm.
  { exists (Ok tt), s, []. by rewrite app_nil_r. }
  apply Z.leb_gt in Hm. destruct (on_event env id e (world s)) as [[acts|exc] w] eqn:Eo.
  - destruct (execute_decided env (dispatch env maxd fuel true)
      (λ y, scope_ids (metadata (snd y)) = scope_ids (metadata e))
      (geo (k * MAX_MENTIONS_PER_ACTION) (Z.to_nat (maxd - (d + 1)))) (for_event e (d + 1)%Z))
      with (id := id) (acts := acts) (s := mkState w (decisions s ++ [(id, e)])%list)
      as (sts&s2&->&rest&H1&H2&H3).
    { intros t' sender ch content ms s'.
      destruct (dispatch_decided env maxd k Hk fuel true t'
        (child_event (for_event e (d + 1)%Z) sender ch content ms) s' (d + 1)%Z)
        as (r&s2&->&H2); [apply child_event_depth|lia|].
      eexists _, _. split; [reflexivity|]. rewrite child_event_scope_ids in H2.
      eapply decided_impl; [|exact H2]. by intros y [Hy _]. }
    exists (Ok tt), s2, ((id, e) :: rest). split; [done|]. simpl in H1.
    rewrite H1, <- app_assoc. split; [done|]. exists rest. split; [done|]. split; [|done].
    etrans; [exact H2|]. rewrite Nat.mul_assoc. apply Nat.mul_le_mono_r, Nat.mul_le_mono_r.
    by eapply Hk.
  - eexists _, _, [(id, e)]. split; [reflexivity|]. split; [done|]. exists [].
    split; [done|]. split; [simpl; lia|constructor].
Qed.

(** ** Witnesses *)

Definition demo_send : AgentAction :=
  mkAction SEND_CHANNEL_MESSAGE [("content", VStr "hi"); ("mentions", VList [VStr "a"; VStr "b"])].

(** Two agents that always mention each other. *)
Definition demo_env : Env unit :=
  mkEnv unit (λ _ s, String.eqb s "a" || String.eqb s "b") (λ _ _, None) (λ _ w, w)
    (λ _ _ w, (true, w)) (λ _ _ w, (Decided [demo_send], w)) None (λ _ _ _ w, ("published", w)).

Definition demo_root : AgentEvent := mkEvent CHANNEL_MESSAGE [] None None None None 0 [].

Lemma demo_env_k t e w acts w' :
  on_event demo_env t e w = (Decided acts, w') -> (length acts <= 1)%nat.
Proof. intros [= <- _]. simpl. lia. Qed.

Lemma demo_cascade_size :
  option_map (λ rs, length (decisions (snd rs)))
    (dispatch demo_env 3 4 true (VStr "a") demo_root (mkState tt [])) = Some 7%nat.
Proof. vm_compute. reflexivity. Qed.

Lemma cascade_bounded_witness :
  exists r s', dispatch demo_env 3 4 true (VStr "a") demo_root (mkState tt []) = Some (r, s').
Proof.
  destruct (cascade_bounded demo_env 3 1 4 true (VStr "a") demo_root (mkState tt []) 0)
    as (r&s'&new&E&_); [exact demo_env_k|reflexivity|simpl; lia|].
  exists r, s'. exact E.
Defined.

Lemma inbound_processing_bounded_witness :
  exists r s', process_inbound demo_env 3 4 "a" demo_root (mkState tt []) = Some (r, s').
Proof.
  destruct (inbound_processing_bounded demo_env 3 1 4 "a" demo_root (mkState tt []) 0)
    as (r&s'&new&E&_); [exact demo_env_k|reflexivity|simpl; lia|].
  exists r, s'. exact E.
Defined.
