(* ===== verification/MemoryBudget.v ===== *)
(** * The memory-injection budget

    Models [agents/persona_runtime/memory_budget.py]. A text is the list of its
    code points (the ellipsis is U+2026); the tokenizer, a third-party package
    that may be absent or raise, is the parameter [tok]. *)

From S2P Require Import Prelude PyStr PyDict.
Local Open Scope string_scope.
Local Open Scope py_scope.

Abbreviation text := (list Z).

Definition KNOWN_TIERS := ["facts"; "episodic"; "notes"; "relationship"; "channel_history"].
Definition MEMORY_BUDGET_TOKENS : Z := 1500.
Definition MIN_TOKENS_RELATIONSHIP : Z := 64.
Definition MIN_TOKENS_EPISODIC : Z := 32.
Definition MIN_TOKENS_NOTES : Z := 24.
Definition MIN_TOKENS_CHANNEL_HISTORY : Z := 32.

(** [tiktoken]'s encoding: [None] is an exception. *)
Record Tokenizer := mkTokenizer {
  encode : text -> option (list Z);
  decode : list Z -> option text;
}.

Definition zlen {A} (l : list A) : Z := Z.of_nat (length l).
Definition ztake {A} (n : Z) (l : list A) : list A := take (Z.to_nat n) l.

Definition ellipsis : text := [8230]%Z.

Section tokens.
Context (tok : option Tokenizer).

Definition encode_text (t : text) : Z * option (list Z) :=
  match tok with
  | Some k => match encode k t with
              | Some ids => (zlen ids, Some ids)
              | None => (Z.max 0 (zlen t / 4), None)
              end
  | None => (Z.max 0 (zlen t / 4), None)
  end.

Definition count_tokens (t : text) : Z := fst (encode_text t).

(** The char-proportional fallback. *)
Definition truncate_chars (t : text) (limit : Z) : text :=
  if (zlen t / 4 <=? limit)%Z then t
  else if (limit - 1 <=? 0)%Z then ellipsis
  else (ztake ((limit - 1) * 4) t ++ ellipsis)%list.

Definition truncate_to_token_limit (t : text) (limit : Z) (ids : option (list Z)) : text :=
  if (limit <=? 0)%Z then ellipsis
  else
    match tok with
    | None => truncate_chars t limit
    | Some k =>
        match (match ids with Some ids => Some ids | None => encode k t end) with
        | None => truncate_chars t limit
        | Some tokens =>
            if (zlen tokens <=? limit)%Z then t
            else match encode k ellipsis with
                 | None => truncate_chars t limit
                 | Some e =>
                     if (limit - zlen e <=? 0)%Z then ellipsis
                     else match decode k (ztake (limit - zlen e) tokens) with
                          | None => truncate_chars t limit
                          | Some d => (d ++ ellipsis)%list
                          end
                 end
        end
    end.

(** ** [MemoryBudget] *)

Record MemoryBudget := mkMB {
  remaining : Z;
  admissions : list (string * list string);
}.

Definition new_budget (total_tokens : Z) : MemoryBudget := mkMB (Z.max 0 total_tokens) [].

Definition spend (n : Z) (b : MemoryBudget) : MemoryBudget := mkMB (remaining b - n) (admissions b).

Definition try_add (t : text) (min_tokens : Z) (b : MemoryBudget) : option text * MemoryBudget :=
  match t with
  | [] => (None, b)
  | _ =>
      if (remaining b <=? 0)%Z then (None, b)
      else
        let '(count, ids) := encode_text t in
        if (count <=? remaining b)%Z then (Some t, spend count b)
        else
          let truncated := truncate_to_token_limit t (remaining b) ids in
          let n := count_tokens truncated in
          if (min_tokens <=? n)%Z then (Some truncated, spend n b) else (None, b)
  end.

(** The allocation loop: each item with its floor; what was admitted. *)
Fixpoint allocate (items : list (text * Z)) (b : MemoryBudget) : list text * MemoryBudget :=
  match items with
  | [] => ([], b)
  | (t, m) :: items' =>
      let '(r, b) := try_add t m b in
      let '(rs, b) := allocate items' b in
      (match r with Some a => a :: rs | None => rs end, b)
  end.
End tokens.

(** [_provenance_enabled], given the variable's value. *)
Definition provenance_enabled (env : option string) : bool :=
  bool_decide (lower (strip (default "" env)) ∈ ["1"; "true"; "yes"]).

(** [record_admission], with the provenance record it logs. *)
Definition record_admission (env : option string) (tier item_id : string) (tokens_admitted : Z)
    (b : MemoryBudget) : result string (MemoryBudget * list (string * string * Z)) :=
  if negb (bool_decide (tier ∈ KNOWN_TIERS)) then Raise "ValueError"
  else Ok (mkMB (remaining b)
             (dset tier (default [] (dget tier (admissions b)) ++ [item_id])%list (admissions b)),
           if provenance_enabled env then [(tier, item_id, tokens_admitted)] else []).

Definition admissions_by_tier (tier : string) (b : MemoryBudget) : list string :=
  default [] (dget tier (admissions b)).

(** ** Lemmas *)

Lemma count_nonneg tok t : (0 <= count_tokens tok t)%Z.
Proof.
  unfold count_tokens, encode_text, zlen. destruct tok as [k|]; [destruct (encode k t)|]; simpl; lia.
Qed.

(** Every way [try_add] ends. *)
Lemma try_add_cases tok t m b :
  let '(r, b') := try_add tok t m b in
  (r = None /\ b' = b /\
   (t = [] \/ (remaining b <= 0)%Z \/
    ((remaining b < count_tokens tok t)%Z /\
     (count_tokens tok (truncate_to_token_limit tok t (remaining b) (snd (encode_text tok t))) < m)%Z))) \/
  (exists a, r = Some a /\ (0 < remaining b)%Z /\ b' = spend (count_tokens tok a) b /\
   ((a = t /\ (count_tokens tok t <= remaining b)%Z) \/
    ((remaining b < count_tokens tok t)%Z /\ (m <= count_tokens tok a)%Z /\
     a = truncate_to_token_limit tok t (remaining b) (snd (encode_text tok t))))).
Proof.
  unfold try_add. destruct t as [|c t]; [left; auto|].
  destruct (remaining b <=? 0)%Z eqn:Hr; [apply Z.leb_le in Hr; left; auto|apply Z.leb_gt in Hr].
  unfold count_tokens. destruct (encode_text tok (c :: t)) as [count ids] eqn:Ec. simpl.
  destruct (count <=? remaining b)%Z eqn:E1; [apply Z.leb_le in E1|apply Z.leb_gt in E1].
  - right. exists (c :: t). rewrite Ec. simpl. repeat (split; [done|]). by left.
  - destruct (m <=? _)%Z eqn:E2; [apply Z.leb_le in E2|apply Z.leb_gt in E2].
    + right. eexists. split; [done|]. split; [done|]. split; [done|]. right. done.
    + left. auto 10.
Qed.

Definition spent (tok : option Tokenizer) (admitted : list text) : Z := zsum (count_tokens tok) admitted.

Lemma allocate_accounts tok items b :
  let '(rs, b') := allocate tok items b in
  remaining b' = (remaining b - spent tok rs)%Z /\
  (forall pre a, rs = (pre ++ [a])%list -> (spent tok pre < remaining b)%Z).
Proof.
  revert b. induction items as [|[t m] items IH]; intros b; simpl.
  { split; [unfold spent; simpl; lia|]. intros [|? ?] a; discriminate. }
  pose proof (try_add_cases tok t m b) as Hc. destruct (try_add tok t m b) as [r b1].
  specialize (IH b1). destruct (allocate tok items b1) as [rs b2]. destruct IH as [IH1 IH2].
  destruct Hc as [(->&->&_)|(a&->&Hp&->&_)]; [done|]. simpl in IH1, IH2. unfold spent in *. split.
  - simpl. unfold zsum in *. lia.
  - intros [|x pre] y E; simpl in E; [unfold zsum; simpl; lia|]. simplify_eq.
    specialize (IH2 pre y eq_refl). simpl. unfold zsum in *. lia.
Qed.

Lemma truncate_chars_count t limit :
  (0 < limit)%Z -> (limit < count_tokens None t)%Z ->
  (count_tokens None (truncate_to_token_limit None t limit None) <= limit)%Z.
Proof.
  unfold count_tokens, encode_text, truncate_to_token_limit, truncate_chars. simpl. intros Hl Hc.
  rewrite (proj2 (Z.leb_gt limit 0)) by lia.
  destruct (zlen t / 4 <=? limit)%Z eqn:E1; [apply Z.leb_le in E1; lia|].
  destruct (limit - 1 <=? 0)%Z eqn:E2; [change (zlen ellipsis / 4)%Z with 0%Z; lia|apply Z.leb_gt in E2].
  unfold zlen, ztake. rewrite length_app, length_take. simpl.
  assert (Z.of_nat (Z.to_nat ((limit - 1) * 4) `min` length t + 1) / 4 <=
          ((limit - 1) * 4 + 1) / 4)%Z as H by (apply Z.div_le_mono; lia).
  assert (((limit - 1) * 4 + 1) / 4 = limit - 1)%Z as E.
  { rewrite Z.add_comm, Z.div_add by lia. reflexivity. }
  lia.
Qed.

Lemma try_add_fallback t m b :
  (0 <= remaining b)%Z -> (0 <= remaining (snd (try_add None t m b)))%Z.
Proof.
  intros Hb. pose proof (try_add_cases None t m b) as Hc. destruct (try_add None t m b) as [r b'].
  simpl. destruct Hc as [(_&->&_)|(a&_&Hp&->&[[-> Ha]|(Hlt&_&->)])]; simpl; [done|lia|].
  pose proof (truncate_chars_count t (remaining b) Hp Hlt) as H.
  unfold encode_text in *. simpl in *. lia.
Qed.

Lemma allocate_fallback items b :
  (0 <= remaining b)%Z -> (0 <= remaining (snd (allocate None items b)))%Z.
Proof.
  revert b. induction items as [|[t m] items IH]; intros b Hb; simpl; [done|].
  pose proof (try_add_fallback t m b Hb) as H. destruct (try_add None t m b) as [r b1].
  specialize (IH b1 H). by destruct (allocate None items b1).
Qed.

(** ** Properties *)

(** The allocator's books balance whatever the tokenizer does: after any
    sequence of items what remains is the budget less the tokens of the
    admitted texts, and the budget was not yet spent when the last of them was
    admitted, so at most one item overshoots; with the chars/4 fallback none
    does. *)
Theorem budget_accounts tok total items :
  let '(rs, b) := allocate tok items (new_budget total) in
  remaining b = (Z.max 0 total - spent tok rs)%Z /\
  (forall pre a, rs = (pre ++ [a])%list -> (spent tok pre < Z.max 0 total)%Z) /\
  (tok = None -> (spent tok rs <= Z.max 0 total)%Z).
Proof.
  pose proof (allocate_accounts tok items (new_budget total)) as H.
  assert (tok = None -> (0 <= remaining (snd (allocate tok items (new_budget total))))%Z) as Hf.
  { intros ->. apply allocate_fallback. simpl. lia. }
  destruct (allocate tok items (new_budget total)) as [rs b]. simpl in *. destruct H as [H1 H2].
  split; [done|]. split; [done|]. intros E. specialize (Hf E). lia.
Qed.

(** [try_add] on every branch: an item is dropped without spending exactly
    when it is empty, the budget is exhausted, or it does not fit and its
    truncation is below the floor; an item that fits is admitted whole; and
    only an item that does not fit is truncated, to at least the floor. *)
Theorem try_add_exact tok t m b :
  (fst (try_add tok t m b) = None ->
     snd (try_add tok t m b) = b /\
     (t = [] \/ (remaining b <= 0)%Z \/ (remaining b < count_tokens tok t)%Z)) /\
  (t <> [] -> (0 < remaining b)%Z -> (count_tokens tok t <= remaining b)%Z ->
     try_add tok t m b = (Some t, spend (count_tokens tok t) b)) /\
  (forall a, fst (try_add tok t m b) = Some a ->
     snd (try_add tok t m b) = spend (count_tokens tok a) b /\
     (a = t \/ ((remaining b < count_tokens tok t)%Z /\ (m <= count_tokens tok a)%Z))).
Proof.
  pose proof (try_add_cases tok t m b) as H. split; [|split].
  - destruct (try_add tok t m b) as [r b']. simpl. intros ->.
    destruct H as [(_&->&H)|(a&?&_)]; [|done]. split; [done|]. tauto.
  - intros Ht Hr Hc. destruct (try_add tok t m b) as [r b'].
    destruct H as [(_&_&[H|[H|[H _]]])|(a&->&_&->&[[-> _]|[H _]])]; try done; lia.
  - destruct (try_add tok t m b) as [r b']. simpl. intros a ->.
    destruct H as [(?&_)|(a'&[= <-]&_&->&[[-> _]|(?&?&_)])]; [done|auto..].
Qed.

(** The admission registry: a known tier's list grows by the item, in order,
    other tiers' lists and the remaining tokens are untouched, and an unknown
    tier raises. *)
Theorem record_admission_exact env tier item n b :
  match record_admission env tier item n b with
  | Ok (b', _) =>
      tier ∈ KNOWN_TIERS /\ remaining b' = remaining b /\
      admissions_by_tier tier b' = (admissions_by_tier tier b ++ [item])%list /\
      forall tier', tier' <> tier -> admissions_by_tier tier' b' = admissions_by_tier tier' b
  | Raise e => e = "ValueError" /\ (tier ∉ KNOWN_TIERS)
  end.
Proof.
  unfold record_admission. case_bool_decide as E; simpl; [|done].
  split; [done|]. split; [done|]. unfold admissions_by_tier. simpl. split.
  - by rewrite dget_dset_eq.
  - intros tier' Hne. by rewrite dget_dset_ne.
Qed.

(** ** Witnesses *)

Definition demo_text (n : nat) : text := repeat 97%Z n.

Lemma demo_allocation :
  map length (fst (allocate None [(demo_text 40, 4); (demo_text 400, 4); (demo_text 8, 1)]%Z
    (new_budget 20))) = [40; 37]%nat.
Proof. vm_compute. reflexivity. Qed.

Lemma budget_accounts_witness :
  (spent None (fst (allocate None [(demo_text 40, 4); (demo_text 400, 4)]%Z (new_budget 20))) <= 20)%Z.
Proof.
  pose proof (budget_accounts None 20 [(demo_text 40, 4); (demo_text 400, 4)]%Z) as H.
  destruct (allocate None [(demo_text 40, 4); (demo_text 400, 4)]%Z (new_budget 20)) as [rs b].
  destruct H as (_&_&H). exact (H eq_refl).
Defined.

Lemma try_add_exact_witness :
  try_add None (demo_text 40) 4 (new_budget 20) = (Some (demo_text 40), spend 10 (new_budget 20)).
Proof. apply (try_add_exact None (demo_text 40) 4 (new_budget 20)); [discriminate|reflexivity|discriminate]. Defined.
