(* ===== verification/Eviction.v ===== *)
(** * Memory eviction and confidence decay

    Models [agents/memory/eviction.py], [agents/memory/decay.py] and
    [resolve_base_confidence] of [agents/memory/episodic_procedural.py]. The
    [episodes] table is a list of rows; each SQL statement is its meaning on
    that list. [math.exp] is the parameter [exp]. What other tasks do to the
    table between a pass's SELECT and its DELETE is the argument [meanwhile]. *)

From Stdlib Require Import Ascii Sorted.
From S2P Require Import Prelude PyStr PySort.
Local Open Scope string_scope.
Local Open Scope py_scope.
Local Open Scope Q_scope.

(** ** [decay.py] *)

Definition SECONDS_PER_DAY : Q := 86400.
Definition DEFAULT_LAMBDA_PER_DAY : Q := 1 # 100.
Definition DEFAULT_C_MIN : Q := 1 # 10.

Definition compute_decayed_confidence (exp : Q -> Q) (c0 age_seconds lambda_per_day : Q) :
    result string Q :=
  if Qltb lambda_per_day 0 then Raise "ValueError"
  else
    let c0_clamped := fmax 0 (fmin 1 c0) in
    let age := fmax 0 age_seconds in
    let age_days := age / SECONDS_PER_DAY in
    Ok (c0_clamped * exp (- lambda_per_day * age_days)).

(** ** The table *)

Record Row := mkRow {
  row_id : string;
  row_agent : string;
  importance : Q;
  created_at : Q;
  access_count : option Z;
  tags_json : option string;
  confidence : option Q;
  last_validated_at : option Q;
}.

Abbreviation table := (list Row).

Definition resolve_base_confidence (conf imp last_validated : option Q) : Q :=
  match conf with
  | None => default 1 imp
  | Some c =>
      match last_validated, imp with
      | None, Some i => if Qeq_bool c 1 && negb (Qeq_bool i 1) then i else c
      | _, _ => c
      end
  end.

(** The [LIKE] test for a tag that starts with [procedure:], a double quote
    before it; [LIKE] folds ASCII case. *)
Fixpoint contains (needle s : string) : bool :=
  startswith needle s ||
  match s with EmptyString => false | String _ s' => contains needle s' end.

Definition procedure_tag : string := String (ascii_of_nat 34) "procedure:".

Definition is_procedure (r : Row) : bool :=
  match tags_json r with Some s => contains procedure_tag (lower s) | None => false end.

(** ** [eviction.py] *)

Definition TTL_IMPORTANCE_THRESHOLD : Q := 3 # 10.
Definition W_IMPORTANCE : Q := 6 # 10.
Definition W_RECENCY : Q := 3 # 10.
Definition W_ACCESS : Q := 1 # 10.

Record EvictionPass := mkPass {
  agent_id : string;
  episodic_cap : Z;
  ttl_seconds : Q;
  lambda_per_day : Q;
  c_min : Q;
}.

Definition EvictionPass_new (agent : string) (cap ttl_days : Z) (lam cmin : Q) :
    result string EvictionPass :=
  if (cap <? 1)%Z then Raise "ValueError"
  else if (ttl_days <? 1)%Z then Raise "ValueError"
  else Ok (mkPass agent cap (inject_Z ttl_days * 86400) lam cmin).

(** [SELECT ... WHERE agent_id = ? AND _NOT_PROCEDURE_PREDICATE] *)
Definition evictable (p : EvictionPass) (r : Row) : bool :=
  String.eqb (row_agent r) (agent_id p) && negb (is_procedure r).

Definition candidates (p : EvictionPass) (t : table) : table :=
  filter (λ r, evictable p r = true) t.

Definition count (p : EvictionPass) (t : table) : Z := Z.of_nat (length (candidates p t)).

Definition expired (p : EvictionPass) (now : Q) (r : Row) : bool :=
  evictable p r && Qltb (importance r) TTL_IMPORTANCE_THRESHOLD &&
  Qltb (created_at r) (now - ttl_seconds p).

Definition evict_ttl (p : EvictionPass) (now : Q) (t : table) : Z * table :=
  let kept := filter (λ r, expired p now r = false) t in
  ((Z.of_nat (length t) - Z.of_nat (length kept))%Z, kept).

Definition access (r : Row) : Z := default 0%Z (access_count r).

Definition score_row (rec_min rec_max : Q) (acc_max : Z) (r : Row) : Q :=
  let rec_span := rec_max - rec_min in
  let recency_norm := if Qltb 0 rec_span then (created_at r - rec_min) / rec_span else 1 in
  let access_norm := if (0 <? acc_max)%Z then inject_Z (access r) / inject_Z acc_max else 0 in
  importance r * W_IMPORTANCE + recency_norm * W_RECENCY + access_norm * W_ACCESS.

Definition score_rows (rows : table) : list (Row * Q) :=
  match rows with
  | [] => []
  | r0 :: rest =>
      let rec_min := qmin (created_at r0) (map created_at rest) in
      let rec_max := qmax (created_at r0) (map created_at rest) in
      let acc_max := fold_left Z.max (map access rest) (access r0) in
      map (λ r, (r, score_row rec_min rec_max acc_max r)) rows
  end.

#[export] Instance Q_eq_dec : EqDecision Q.
Proof. solve_decision. Defined.
#[export] Instance Row_eq_dec : EqDecision Row.
Proof. solve_decision. Defined.

(** The sort key [(score, created_at)]. *)
Definition score_le (a b : Row * Q) : bool :=
  Qltb (snd a) (snd b) ||
  (Qeq_bool (snd a) (snd b) && Qle_bool (created_at (fst a)) (created_at (fst b))).

Definition victims (p : EvictionPass) (excess : Z) (t : table) : table :=
  map fst (take (Z.to_nat excess) (py_sorted score_le (score_rows (candidates p t)))).

(** [DELETE ... WHERE agent_id = ? AND id IN (...)] *)
Definition delete_ids (p : EvictionPass) (ids : list string) (t : table) : table :=
  filter (λ r, ~ (row_agent r = agent_id p /\ row_id r ∈ ids)) t.

(** [counted] is what other tasks do between the COUNT and the SELECT. *)
Definition evict_size_cap (p : EvictionPass) (counted meanwhile : table -> table) (t : table) :
    Z * table :=
  let excess := (count p t - episodic_cap p)%Z in
  if (excess <=? 0)%Z then (0%Z, t)
  else
    let t := counted t in
    match victims p excess t with
    | [] => (0%Z, t)
    | vs => (Z.of_nat (length vs), delete_ids p (map row_id vs) (meanwhile t))
    end.

(** The decayed confidence of a procedural row is below the floor. *)
Definition decayed_out (exp : Q -> Q) (p : EvictionPass) (now : Q) (r : Row) : bool :=
  let base := resolve_base_confidence (confidence r) (Some (importance r)) (last_validated_at r) in
  let anchor := default (created_at r) (last_validated_at r) in
  match compute_decayed_confidence exp base (fmax 0 (now - anchor)) (lambda_per_day p) with
  | Ok c => Qltb c (c_min p)
  | Raise _ => false
  end.

Definition stale (now : Q) (r : Row) : bool :=
  match last_validated_at r with None => true | Some v => Qltb v now end.

Definition evict_procedural_decay (exp : Q -> Q) (p : EvictionPass) (now : Q)
    (meanwhile : table -> table) (t : table) : result string (Z * table) :=
  let rows := filter (λ r, row_agent r = agent_id p /\ is_procedure r = true) t in
  if negb (bool_decide (rows = [])) && Qltb (lambda_per_day p) 0 then Raise "ValueError"
  else
    match filter (λ r, decayed_out exp p now r = true) rows with
    | [] => Ok (0%Z, t)
    | vs =>
        let t := meanwhile t in
        let kept := filter (λ r, ~ (row_agent r = agent_id p /\ row_id r ∈ map row_id vs /\
                                    stale now r = true)) t in
        Ok ((Z.of_nat (length t) - Z.of_nat (length kept))%Z, kept)
    end.

Record EvictionStats := mkStats {
  ttl_evicted : Z;
  cap_evicted : Z;
  total_after : Z;
  procedural_evicted : Z;
}.

(** [others i] is what the other tasks do at the [i]-th await of the pass;
    [now] and [now'] are its two readings of the clock. *)
Definition run (exp : Q -> Q) (p : EvictionPass) (now now' : Q) (others : nat -> table -> table)
    (t : table) : result string (EvictionStats * table) :=
  let '(ttl, t) := evict_ttl p now t in
  let '(cap, t) := evict_size_cap p (others 1%nat) (others 2%nat) (others 0%nat t) in
  match evict_procedural_decay exp p now' (others 4%nat) (others 3%nat t) with
  | Raise e => Raise e
  | Ok (procedural, t) =>
      let t := others 5%nat t in Ok (mkStats ttl cap (count p t) procedural, t)
  end.

(** ** The size cap *)

Lemma map_fst_score_rows rows : map fst (score_rows rows) = rows.
Proof.
  destruct rows as [|r rows]; [done|]. unfold score_rows. rewrite map_map.
  etrans; [|apply map_id]. by apply map_ext.
Qed.

Lemma score_le_total a b : score_le a b = false -> score_le b a = true.
Proof.
  unfold score_le. rewrite orb_false_iff, andb_false_iff, orb_true_iff, andb_true_iff.
  rewrite !Qeq_bool_iff. intros [H1 [H2|H2]]; q_props.
  - left. apply Qnot_le_lt. intros H. assert (Qeq_bool (snd a) (snd b) = true) as E
      by (apply Qeq_bool_iff; lra). congruence.
  - destruct (Qlt_le_dec (snd b) (snd a)); [by left|right; split; lra].
Qed.

Lemma score_le_trans a b c : score_le a b = true -> score_le b c = true -> score_le a c = true.
Proof.
  unfold score_le. rewrite !orb_true_iff, !andb_true_iff, !Qeq_bool_iff. q_props.
  intros [H1|[H1 H1']] [H2|[H2 H2']]; [left; lra..|right; split; lra].
Qed.

(** Deleting the first [n] elements of a list without duplicates. *)
Lemma filter_not_take {A} `{EqDecision A} (n : nat) (l : list A) :
  NoDup l -> filter (λ x, x ∉ take n l) l = drop n l.
Proof.
  intros Hn. transitivity (filter (λ x, x ∉ take n l) (take n l ++ drop n l)%list);
    [by rewrite take_drop|]. rewrite filter_app.
  assert (forall x, x ∈ drop n l -> x ∉ take n l) as Hd.
  { rewrite <- (take_drop n l) in Hn. apply NoDup_app in Hn as (_&Hd&_). intros x Hx Hx'. by apply (Hd x). }
  rewrite (filter_true_all _ (drop n l)) by (by apply Forall_forall).
  assert (filter (λ x, x ∉ take n l) (take n l) = []) as ->; [|done].
  apply elem_of_nil_inv. intros x [Hx Hx']%list_elem_of_filter. done.
Qed.

Definition unique_ids (t : table) : Prop := NoDup (map row_id t).

Lemma unique_ids_inj t r r' : unique_ids t -> r ∈ t -> r' ∈ t -> row_id r = row_id r' -> r = r'.
Proof. apply NoDup_map_inj. Qed.

Lemma unique_ids_NoDup t : unique_ids t -> NoDup t.
Proof. apply NoDup_fmap_1. Qed.

Definition ranked (p : EvictionPass) (t : table) : list (Row * Q) :=
  py_sorted score_le (score_rows (candidates p t)).

Lemma ranked_perm p t : map fst (ranked p t) ≡ₚ candidates p t.
Proof. unfold ranked. rewrite py_sorted_perm. by rewrite map_fst_score_rows. Qed.

Lemma victims_candidates p n t r : r ∈ victims p n t -> r ∈ candidates p t.
Proof.
  unfold victims. fold (ranked p t). intros (x&->&Hx)%list_elem_of_fmap.
  rewrite <- (ranked_perm p t). apply list_elem_of_fmap. exists x. split; [done|].
  by eapply elem_of_submseteq, sublist_submseteq, sublist_take.
Qed.

Lemma candidate_spec p t r : r ∈ candidates p t <-> evictable p r = true /\ r ∈ t.
Proof. unfold candidates. by rewrite list_elem_of_filter. Qed.

(** The DELETE removes exactly the victims. *)
Lemma delete_victims p n t :
  unique_ids t ->
  delete_ids p (map row_id (victims p n t)) t = filter (λ r, r ∉ victims p n t) t.
Proof.
  intros Hu. unfold delete_ids. apply filter_ext_Forall, Forall_forall. intros r Hr. split.
  - intros Hn Hv. apply Hn. split; [|apply list_elem_of_fmap; eauto].
    apply victims_candidates, candidate_spec in Hv as [Hv _]. unfold evictable in Hv.
    apply andb_true_iff in Hv as [Hv _]. by apply String.eqb_eq.
  - intros Hn [_ (v&E&Hv)%list_elem_of_fmap]. apply Hn.
    pose proof (proj1 (candidate_spec p t v) (victims_candidates p n t v Hv)) as [_ Hvt].
    by rewrite (unique_ids_inj t r v Hu Hr Hvt E).
Qed.

Definition excess (p : EvictionPass) (t : table) : Z := (count p t - episodic_cap p)%Z.

Lemma excess_victims p t :
  victims p (excess p t) t = take (Z.to_nat (count p t - episodic_cap p)) (map fst (ranked p t)).
Proof. unfold victims. fold (ranked p t). by rewrite <- firstn_map. Qed.

Lemma candidates_NoDup p t : unique_ids t -> NoDup (map fst (ranked p t)).
Proof.
  intros Hu. rewrite ranked_perm. unfold candidates. by apply NoDup_filter, unique_ids_NoDup.
Qed.

Lemma candidates_after p t :
  unique_ids t ->
  candidates p (filter (λ r, r ∉ victims p (excess p t) t) t) ≡ₚ
  drop (Z.to_nat (count p t - episodic_cap p)) (map fst (ranked p t)).
Proof.
  intros Hu. rewrite <- (filter_not_take _ (map fst (ranked p t))) by (by apply candidates_NoDup).
  rewrite <- excess_victims, ranked_perm. unfold candidates.
  rewrite !filter_filter_and. apply reflexive_eq, filter_ext_Forall, Forall_forall. tauto.
Qed.

(** Whoever is dropped ranks no higher than whoever is kept. *)
Lemma take_drop_ranked n (l : list (Row * Q)) a b :
  StronglySorted (λ a b, score_le a b = true) l -> a ∈ take n l -> b ∈ drop n l -> score_le a b = true.
Proof.
  revert n. induction l as [|x l IH]; intros n Hs Ha Hb.
  - rewrite take_nil in Ha. by apply not_elem_of_nil in Ha.
  - destruct n as [|n]; [by apply not_elem_of_nil in Ha|].
    apply StronglySorted_inv in Hs as [Hs Hx]. simpl in Ha, Hb.
    apply elem_of_cons in Ha as [->|Ha]; [|by eapply IH].
    rewrite Forall_forall in Hx. apply Hx. by eapply elem_of_submseteq, sublist_submseteq, sublist_drop.
Qed.

Lemma delete_ids_nil p t : delete_ids p [] t = t.
Proof. apply filter_true_all, Forall_forall. intros r _ [_ H]. by apply not_elem_of_nil in H. Qed.

Lemma evict_size_cap_quiet p t :
  unique_ids t ->
  evict_size_cap p (λ t, t) (λ t, t) t =
  (Z.of_nat (length (victims p (excess p t) t)), filter (λ r, r ∉ victims p (excess p t) t) t).
Proof.
  intros Hu. rewrite <- delete_victims by done. unfold evict_size_cap. cbv zeta.
  fold (excess p t). destruct (Z.leb_spec (excess p t) 0).
  - assert (victims p (excess p t) t = []) as ->.
    { unfold victims. by rewrite Z2Nat.nonpos. }
    by rewrite delete_ids_nil.
  - destruct (victims p (excess p t) t) eqn:E; [|done]. by rewrite delete_ids_nil.
Qed.

Lemma length_ranked p t : Z.of_nat (length (map fst (ranked p t))) = count p t.
Proof. unfold count. f_equal. apply Permutation_length, ranked_perm. Qed.

Lemma evict_size_cap_count p t :
  unique_ids t -> (1 <= episodic_cap p)%Z ->
  count p (snd (evict_size_cap p (λ t, t) (λ t, t) t)) = Z.min (count p t) (episodic_cap p) /\
  forall r, evictable p r = false -> (r ∈ snd (evict_size_cap p (λ t, t) (λ t, t) t) <-> r ∈ t).
Proof.
  intros Hu Hc. pose proof (length_ranked p t) as Hl. rewrite evict_size_cap_quiet by done. cbn [snd]. split.
  - unfold count at 1. rewrite (Permutation_length (candidates_after p t Hu)), length_drop. lia.
  - intros r Hr. rewrite list_elem_of_filter. split; [by intros [_ ?]|]. intros Hin. split; [|done].
    intros Hv%victims_candidates%candidate_spec. destruct Hv as [Hv _]. congruence.
Qed.

(** A quiet size-cap pass leaves the evictable rows at the cap or below, by
    deleting exactly the excess; it touches neither procedures nor other
    agents' rows; and no deleted row outranks a kept one in the hybrid score,
    older rows going first among equals. *)
Theorem size_cap_exact p t :
  unique_ids t -> (1 <= episodic_cap p)%Z ->
  let '(n, t') := evict_size_cap p (λ t, t) (λ t, t) t in
  n = Z.max 0 (count p t - episodic_cap p) /\
  count p t' = Z.min (count p t) (episodic_cap p) /\
  (forall r, evictable p r = false -> (r ∈ t' <-> r ∈ t)) /\
  (forall v r, v ∈ victims p (excess p t) t -> r ∈ candidates p t' ->
     exists sv sr, (v, sv) ∈ ranked p t /\ (r, sr) ∈ ranked p t /\ score_le (v, sv) (r, sr) = true).
Proof.
  intros Hu Hc. destruct (evict_size_cap_count p t Hu Hc) as [Hcount Hrest].
  rewrite evict_size_cap_quiet in * by done. cbn [snd] in *.
  split; [rewrite excess_victims, length_take; pose proof (length_ranked p t); lia|].
  split; [done|]. split; [done|].
  intros v r Hv Hr. rewrite candidates_after in Hr by done.
  rewrite <- fmap_drop in Hr. apply list_elem_of_fmap in Hr as ([r' sr]&->&Hr).
  unfold victims in Hv. fold (ranked p t) in Hv.
  apply list_elem_of_fmap in Hv as ([v' sv]&->&Hv). exists sv, sr.
  split; [by eapply elem_of_submseteq, sublist_submseteq, sublist_take|].
  split; [by eapply elem_of_submseteq, sublist_submseteq, sublist_drop|].
  eapply take_drop_ranked; [|exact Hv|exact Hr].
  apply py_sorted_sorted; [exact score_le_total|exact score_le_trans].
Qed.

(** ** Decay *)

Lemma fmax_nonpos a : a <= 0 -> fmax 0 a = 0.
Proof. intros H. unfold fmax. by rewrite (proj2 (Qltb_ge 0 a) H). Qed.

Lemma fmax_mono a b : a <= b -> fmax 0 a <= fmax 0 b.
Proof.
  intros H. destruct (fmax_spec 0 a) as (_&_&E), (fmax_spec 0 b) as (?&?&_).
  destruct E as [E | E]; rewrite E; lra.
Qed.

(** What is used of [math.exp]: values in [0, 1] and monotonicity on the
    non-positive axis. *)
Class ExpLaws (exp : Q -> Q) : Prop := {
  exp_unit x : x <= 0 -> 0 <= exp x <= 1;
  exp_mono x y : x <= y -> y <= 0 -> exp x <= exp y;
}.

Lemma decay_exponent lam age :
  0 <= lam -> - lam * (fmax 0 age / SECONDS_PER_DAY) <= 0.
Proof.
  intros Hl. destruct (fmax_spec 0 age) as (H&_). unfold SECONDS_PER_DAY, Qdiv.
  assert (0 <= fmax 0 age * / 86400) by (apply Qmult_le_0_compat; [done|by vm_compute]). nra.
Qed.

(** Decayed confidence: a negative rate raises; otherwise the result lies in
    [0, 1], never exceeds the clamped stored confidence, does not grow with
    age, and a future validation stamp counts as age zero. *)
Theorem decay_bounded exp `{!ExpLaws exp} c0 age age' lam :
  if Qltb lam 0 then compute_decayed_confidence exp c0 age lam = Raise "ValueError"
  else exists c c', compute_decayed_confidence exp c0 age lam = Ok c /\
    compute_decayed_confidence exp c0 age' lam = Ok c' /\
    0 <= c /\ c <= fmax 0 (fmin 1 c0) /\ fmax 0 (fmin 1 c0) <= 1 /\
    (age <= age' -> c' <= c) /\ (age <= 0 -> age' <= 0 -> c == c').
Proof.
  unfold compute_decayed_confidence. destruct (Qltb lam 0) eqn:El; [done|]. q_props.
  eexists _, _. split; [done|]. split; [done|].
  pose proof (clamp_unit c0) as [Hc0 Hc1]. set (k := fmax 0 (fmin 1 c0)) in *.
  pose proof (exp_unit _ (decay_exponent lam age El)) as [He0 He1].
  pose proof (decay_exponent lam age El) as Ha.
  split; [nra|]. split; [nra|]. split; [done|]. split.
  - intros Hle. assert (exp (- lam * (fmax 0 age' / SECONDS_PER_DAY)) <=
                        exp (- lam * (fmax 0 age / SECONDS_PER_DAY))) as Hm; [|nra].
    apply exp_mono; [|done].
    pose proof (fmax_mono age age' Hle) as Hf.
    assert (fmax 0 age / SECONDS_PER_DAY <= fmax 0 age' / SECONDS_PER_DAY) as Hd.
    { unfold SECONDS_PER_DAY, Qdiv. apply Qmult_le_compat_r; [done|by vm_compute]. }
    nra.
  - intros H1 H2. by rewrite (fmax_nonpos age H1), (fmax_nonpos age' H2).
Qed.

(** The procedural rows of [t] whose confidence fell below the floor. *)
Definition decayed_procedure (exp : Q -> Q) (p : EvictionPass) (now : Q) (t : table) (v : Row) : Prop :=
  v ∈ t /\ row_agent v = agent_id p /\ is_procedure v = true /\ decayed_out exp p now v = true.

(** Procedural eviction raises exactly when the rate is negative and there is
    a procedure to decay. Otherwise it deletes exactly the agent's rows with the
    id of a procedure decayed below the floor that carry no validation stamp of
    the pass's instant or later, and counts them: whatever happens between the
    SELECT and the DELETE, a procedure refreshed meanwhile stays. *)
Theorem procedural_eviction_exact exp p now meanwhile t :
  match evict_procedural_decay exp p now meanwhile t with
  | Raise e => e = "ValueError" /\ lambda_per_day p < 0 /\
      exists r, r ∈ t /\ row_agent r = agent_id p /\ is_procedure r = true
  | Ok (n, t') =>
      ((forall r, ~ decayed_procedure exp p now t r) /\ n = 0%Z /\ t' = t) \/
      ((exists r, decayed_procedure exp p now t r) /\
       n = (Z.of_nat (length (meanwhile t)) - Z.of_nat (length t'))%Z /\
       forall r, r ∈ t' <-> r ∈ meanwhile t /\
         ~ (row_agent r = agent_id p /\ stale now r = true /\
            exists v, decayed_procedure exp p now t v /\ row_id v = row_id r))
  end.
Proof.
  unfold evict_procedural_decay.
  set (rows := filter (λ r, row_agent r = agent_id p /\ is_procedure r = true) t).
  assert (forall r, r ∈ filter (λ r, decayed_out exp p now r = true) rows <->
                    decayed_procedure exp p now t r) as Hd.
  { intros r. unfold rows, decayed_procedure. rewrite !list_elem_of_filter. tauto. }
  destruct (_ && _) eqn:Eg.
  - apply andb_true_iff in Eg as [Hr%negb_true_iff Hl]. q_props. do 2 (split; [done|]).
    apply bool_decide_eq_false in Hr. destruct rows as [|r rs] eqn:E; [done|]. exists r.
    assert (r ∈ rows) as Hin by (rewrite E; left). unfold rows in Hin.
    apply list_elem_of_filter in Hin. tauto.
  - destruct (filter (λ r, decayed_out exp p now r = true) rows) as [|v vs] eqn:E.
    + left. split; [|done]. intros r Hr%Hd. by apply not_elem_of_nil in Hr.
    + right. split; [exists v; apply Hd; left|]. split; [done|]. intros r.
      rewrite list_elem_of_filter, list_elem_of_fmap. setoid_rewrite Hd.
      assert ((exists y, row_id r = row_id y /\ decayed_procedure exp p now t y) <->
              (exists v, decayed_procedure exp p now t v /\ row_id v = row_id r)) as ->.
      { split; intros (y&?&?); by exists y. }
      tauto.
Qed.

(** ** A whole pass *)

Lemma evict_ttl_spec p now t r :
  r ∈ snd (evict_ttl p now t) <-> r ∈ t /\ expired p now r = false.
Proof. cbn [evict_ttl snd]. rewrite list_elem_of_filter. tauto. Qed.

Lemma unique_ids_filter P `{!forall r, Decision (P r)} t : unique_ids t -> unique_ids (filter P t).
Proof.
  unfold unique_ids. intros Hu. eapply sublist_NoDup; [exact Hu|]. apply fmap_sublist, sublist_filter.
Qed.

Lemma is_procedure_not_evictable p r : is_procedure r = true -> evictable p r = false.
Proof. unfold evictable. intros ->. apply andb_false_r. Qed.

Definition quiet : nat -> table -> table := λ _ t, t.

(** The rows a quiet procedural pass keeps: without duplicate ids the deleted
    row is the decayed procedure itself. *)
Lemma quiet_procedural exp p now t n t' :
  unique_ids t -> evict_procedural_decay exp p now (λ t, t) t = Ok (n, t') ->
  exists P (HP : forall r, Decision (P r)),
    t' = filter P t /\ forall r, r ∈ t -> evictable p r = true -> P r.
Proof.
  intros Hu. unfold evict_procedural_decay. destruct (_ && _); [done|].
  destruct (filter (λ r, decayed_out exp p now r = true) _) as [|v vs] eqn:E; intros [= _ <-].
  - exists (λ _, True), (λ _, left I). split; [|done]. symmetry. by apply filter_true_all, Forall_forall.
  - eexists _, _. split; [reflexivity|]. intros r Hr He (_&Hv&_).
    change (row_id r ∈ row_id <$> (v :: vs)) in Hv. apply list_elem_of_fmap in Hv as (x&Ex&Hx).
    rewrite <- E, !list_elem_of_filter in Hx. destruct Hx as (_&(_&Hp)&Hx).
    rewrite (unique_ids_inj t r x Hu Hr Hx Ex), (is_procedure_not_evictable p x Hp) in He. done.
Qed.

Lemma procedural_ok exp p now t :
  0 <= lambda_per_day p -> exists n t', evict_procedural_decay exp p now (λ t, t) t = Ok (n, t').
Proof.
  intros Hl. unfold evict_procedural_decay. rewrite (proj2 (Qltb_ge _ 0) Hl), andb_false_r.
  destruct (filter (λ r, decayed_out exp p now r = true) _); eauto.
Qed.

Lemma other_agent_kept exp p now t n t' :
  evict_procedural_decay exp p now (λ t, t) t = Ok (n, t') ->
  forall r, row_agent r <> agent_id p -> r ∈ t -> r ∈ t'.
Proof.
  unfold evict_procedural_decay. destruct (_ && _); [done|].
  destruct (filter (λ r, decayed_out exp p now r = true) _); intros [= _ <-] x Ha Hx; [done|].
  apply list_elem_of_filter. split; [|done]. by intros [? _].
Qed.

Lemma count_filter p P `{!forall r, Decision (P r)} t :
  (forall r, r ∈ t -> evictable p r = true -> P r) -> count p (filter P t) = count p t.
Proof.
  intros HP. unfold count, candidates. do 2 f_equal. rewrite filter_filter_and.
  apply filter_ext_Forall, Forall_forall. intros r Hr. split; [tauto|]. intros He. split; auto.
Qed.

(** A quiet pass with a non-negative rate succeeds, reports the evictable
    rows left, which are what the TTL step left but never more than the cap, and
    touches no row of another agent. *)
Theorem pass_respects_cap exp p now now' t :
  unique_ids t -> (1 <= episodic_cap p)%Z -> 0 <= lambda_per_day p ->
  exists stats t', run exp p now now' quiet t = Ok (stats, t') /\
    total_after stats = count p t' /\
    total_after stats = Z.min (count p (snd (evict_ttl p now t))) (episodic_cap p) /\
    (forall r, r ∈ t' -> r ∈ t /\ expired p now r = false) /\
    (forall r, row_agent r <> agent_id p -> r ∈ t -> r ∈ t').
Proof.
  intros Hu Hc Hl. unfold run, quiet. destruct (evict_ttl p now t) as [n1 t1] eqn:E1.
  assert (forall r, r ∈ t1 <-> r ∈ t /\ expired p now r = false) as H1.
  { intros r. rewrite <- evict_ttl_spec. by rewrite E1. }
  assert (unique_ids t1) as Hu1.
  { change t1 with (snd (n1, t1)). rewrite <- E1. by apply unique_ids_filter. }
  pose proof (evict_size_cap_count p t1 Hu1 Hc) as (Hn2&Hrest).
  rewrite evict_size_cap_quiet in * by done. cbn [fst snd] in *.
  set (t2 := filter _ t1) in *.
  assert (unique_ids t2) as Hu2 by (by apply unique_ids_filter).
  pose proof (procedural_ok exp p now' t2 Hl) as (n3&t3&E3). rewrite E3.
  eexists _, _. split; [reflexivity|]. split; [done|].
  destruct (quiet_procedural _ _ _ _ _ _ Hu2 E3) as (P&HP&->&Hk). cbn [total_after].
  split; [by rewrite count_filter|]. split.
  - intros r [_ [_ Hr]%list_elem_of_filter]%list_elem_of_filter. by apply H1.
  - intros r Ha Hr. apply (other_agent_kept exp p now' t2 _ _ E3); [done|]. apply Hrest.
    + unfold evictable. apply andb_false_iff. left. by apply String.eqb_neq.
    + apply H1. split; [done|]. unfold expired, evictable. apply String.eqb_neq in Ha. by rewrite Ha.
Qed.

(** ** Witnesses *)

Definition demo_row (id : string) (imp created : Q) (tags : option string) : Row :=
  mkRow id "a" imp created (Some 0%Z) tags (Some 1) None.

Definition demo_table : table :=
  [demo_row "e1" (9 # 10) 0 None; demo_row "e2" (2 # 10) 200000 None;
   demo_row "e3" (8 # 10) 190000 None; demo_row "e4" (1 # 10) 10 None;
   demo_row "p1" (5 # 10) 0 (Some (String "[" (procedure_tag ++ "k")))].

Definition demo_pass : EvictionPass := mkPass "a" 1 86400 DEFAULT_LAMBDA_PER_DAY DEFAULT_C_MIN.

(** A rational stand-in for [math.exp] on the axis that matters. *)
Definition demo_exp (x : Q) : Q := if Qltb x (-1) then 0 else fmin 1 (1 + x).

#[export] Instance demo_exp_laws : ExpLaws demo_exp.
Proof.
  split.
  - intros x Hx. unfold demo_exp, fmin. destruct (Qltb x (-1)) eqn:E; [split; lra|].
    destruct (Qltb (1 + x) 1) eqn:E2; q_props; split; lra.
  - intros x y Hxy Hy. unfold demo_exp, fmin. destruct (Qltb x (-1)) eqn:E1, (Qltb y (-1)) eqn:E2,
      (Qltb (1 + x) 1) eqn:E3, (Qltb (1 + y) 1) eqn:E4; q_props; lra.
Qed.

Lemma demo_unique : unique_ids demo_table.
Proof. unfold unique_ids. by apply (bool_decide_eq_true_1 _). Qed.

Example demo_victims :
  map row_id (victims demo_pass (excess demo_pass demo_table) demo_table) = ["e4"; "e2"; "e1"].
Proof. by vm_compute. Qed.

Lemma size_cap_exact_witness :
  count demo_pass (snd (evict_size_cap demo_pass (λ t, t) (λ t, t) demo_table)) = 1%Z.
Proof.
  pose proof (size_cap_exact demo_pass demo_table demo_unique) as H.
  destruct (evict_size_cap _ _ _ _) as [n t'] eqn:E. cbn [snd].
  destruct H as (_&H&_); [by vm_compute|]. rewrite H. by vm_compute.
Defined.

Lemma pass_respects_cap_witness :
  exists stats t', run demo_exp demo_pass 200000 200000 quiet demo_table = Ok (stats, t') /\
    total_after stats = 1%Z.
Proof.
  destruct (pass_respects_cap demo_exp demo_pass 200000 200000 demo_table demo_unique)
    as (stats&t'&Hrun&_&Htotal&_); [by vm_compute..|].
  exists stats, t'. split; [exact Hrun|]. rewrite Htotal. by vm_compute.
Defined.

Lemma decay_bounded_witness :
  exists c, compute_decayed_confidence demo_exp 2 (-5) DEFAULT_LAMBDA_PER_DAY = Ok c /\ c <= 1.
Proof.
  destruct (decay_bounded demo_exp 2 (-5) 0 DEFAULT_LAMBDA_PER_DAY) as (c&c'&Hc&_&_&Hle&_).
  exists c. split; [exact Hc|]. eapply Qle_trans; [exact Hle|]. by vm_compute.
Defined.
