(* ===== verification/Classification.v ===== *)
(** * Confidentiality classification

    Models [agents/persona_runtime/classification.py] (the four-level lattice
    and the resolvers of its three fail-closed rules),
    [agents/channel_event_classification.py] (the wire seed and its reader),
    [agents/acting_classification.py] (the task-local binding),
    [acting_classification_for_event] of [persona_runtime/injection_gate.py] and
    the raise-only re-stamp of [update_note] in [memory/_notes_mutations.py].
    The task's context variable is the argument and result of a block. *)

From S2P Require Import Prelude PyStr PyDict PyValue PersonaEvents.
Local Open Scope string_scope.
Local Open Scope py_scope.

Definition CLASSIFICATION_PUBLIC := "public".
Definition CLASSIFICATION_INTERNAL := "internal".
Definition CLASSIFICATION_RESTRICTED := "restricted".
Definition CLASSIFICATION_SECRET := "secret".
Definition DEFAULT_CLASSIFICATION := CLASSIFICATION_INTERNAL.

Definition CLASSIFICATION_RANKS : list (string * Z) :=
  [(CLASSIFICATION_PUBLIC, 0); (CLASSIFICATION_INTERNAL, 1);
   (CLASSIFICATION_RESTRICTED, 2); (CLASSIFICATION_SECRET, 3)]%Z.

Definition classification_rank (level : option string) : option Z :=
  match level with None => None | Some l => dget l CLASSIFICATION_RANKS end.

Definition is_valid_classification (level : option string) : bool :=
  match level with None => false | Some l => dmem l CLASSIFICATION_RANKS end.

(** Rule (a): stamping. *)
Definition normalize_for_stamp (level : option string) : string :=
  match level with
  | Some l => if dmem l CLASSIFICATION_RANKS then l else DEFAULT_CLASSIFICATION
  | None => DEFAULT_CLASSIFICATION
  end.

(** [CLASSIFICATION_RANKS[l]], a [KeyError] outside the vocabulary. *)
Definition rank_of (l : string) : result string Z :=
  match dget l CLASSIFICATION_RANKS with Some r => Ok r | None => Raise "KeyError" end.

Definition rank_for_stamp (level : option string) : result string Z :=
  rank_of (normalize_for_stamp level).

(** Rule (b): acting. *)
Definition acting_rank (level : option string) : Z :=
  match classification_rank level with Some r => r | None => 0 end.

Definition normalize_acting (level : option string) : string :=
  match level with
  | Some l => if dmem l CLASSIFICATION_RANKS then l else CLASSIFICATION_PUBLIC
  | None => CLASSIFICATION_PUBLIC
  end.

Definition acting_at_or_below_internal (level : option string) : bool :=
  (acting_rank level <=? 1)%Z.

(** Rule (c): a stored entry. *)
Definition entry_rank_or_withhold (level : option string) : option Z := classification_rank level.

Definition injectable_levels (acting : option string) : list string :=
  map fst (filter (λ lr, (lr.2 <= acting_rank acting)%Z) CLASSIFICATION_RANKS).

Definition levels_below_stamp (level : option string) : result string (list string) :=
  let! bound := rank_for_stamp level in
  Ok (map fst (filter (λ lr, (lr.2 < bound)%Z) CLASSIFICATION_RANKS)).

(** [update_note]'s [CASE]: the stored level after an edit that passes
    [restamp] and [below]. *)
Definition restamp_level (restamp : option string) (below : list string) (stored : string) : string :=
  match restamp, below with
  | Some stamp, _ :: _ => if decide (stored ∈ below) then stamp else stored
  | _, _ => stored
  end.

(** ** The wire seed and its readers *)

Definition CHANNEL_CLASSIFICATION_METADATA_KEY := "channel_classification".
Definition CLASSIFICATION_MAX_BYTES : Z := 64.

Definition seed_channel_classification (metadata : pydict) (classification : pyval) : pydict :=
  match classification with
  | VStr s =>
      if truthy s && (utf8_len s <=? CLASSIFICATION_MAX_BYTES)%Z
      then dset CHANNEL_CLASSIFICATION_METADATA_KEY (VStr s) metadata else metadata
  | _ => metadata
  end.

(** A present non-empty string at the key. *)
Definition read_classification (metadata : pydict) : option string :=
  match dget CHANNEL_CLASSIFICATION_METADATA_KEY metadata with
  | Some (VStr s) => if truthy s then Some s else None
  | _ => None
  end.

Definition wire_channel_classification (e : AgentEvent) : option string :=
  read_classification (metadata e).

(** A block runs in a context (the value of the variable) and may change it. *)
Definition acting_classification_scope_from_metadata {A} (md : pydict)
    (block : option string -> A * option string) (ctx : option string) : A * option string :=
  match read_classification md with
  | None => block ctx
  | Some raw => let '(a, _) := block (Some raw) in (a, ctx)
  end.

Definition is_channel_acting (t : EventType) : bool :=
  match t with CHANNEL_MESSAGE | MENTION => true | _ => false end.

Definition is_public_floor (t : EventType) : bool :=
  match t with
  | TICK | TASK_ASSIGNED | SUB_AGENT_COMPLETED | APPROVAL_REQUESTED | APPROVAL_RESPONSE
  | AGENT_JOINED | AGENT_LEFT => true
  | _ => false
  end.

Definition acting_classification_for_event (e : AgentEvent) : option string :=
  if is_channel_acting (event_type e) then wire_channel_classification e else None.

(** ** Lemmas *)

Lemma acting_rank_nonneg level : (0 <= acting_rank level <= 3)%Z.
Proof.
  unfold acting_rank, classification_rank. destruct level as [l|]; [|lia]. simpl.
  repeat case_decide; simpl; lia.
Qed.

Lemma dmem_rank l : dmem l CLASSIFICATION_RANKS = true <-> is_Some (dget l CLASSIFICATION_RANKS).
Proof. unfold dmem. destruct (dget _ _); split; intros H; [eauto|done|done|by destruct H]. Qed.

Lemma ranks_wf : dwf CLASSIFICATION_RANKS.
Proof. by apply (bool_decide_eq_true_1 _). Qed.

(** The vocabulary is the dictionary's keys; membership in a rank-bounded
    level set is a rank comparison. *)
Lemma level_set_spec (P : Z -> Prop) `{!∀ r, Decision (P r)} l :
  l ∈ map fst (filter (λ lr, P lr.2) CLASSIFICATION_RANKS) <->
  exists r, dget l CLASSIFICATION_RANKS = Some r /\ P r.
Proof.
  rewrite list_elem_of_fmap. split.
  - intros ([l' r]&->&[Hp Hin]%list_elem_of_filter). exists r. split; [|done].
    apply elem_dget; [exact ranks_wf|done].
  - intros (r&Hr&Hp). exists (l, r). split; [done|]. apply list_elem_of_filter.
    split; [done|]. by apply dget_Some_elem.
Qed.

Lemma injectable_spec acting l :
  l ∈ injectable_levels acting <->
  exists r, entry_rank_or_withhold (Some l) = Some r /\ (r <= acting_rank acting)%Z.
Proof.
  unfold injectable_levels, entry_rank_or_withhold, classification_rank.
  exact (level_set_spec (λ r, r <= acting_rank acting)%Z l).
Qed.

Lemma normalize_for_stamp_known level : dmem (normalize_for_stamp level) CLASSIFICATION_RANKS = true.
Proof. unfold normalize_for_stamp. destruct level as [l|]; [|done]. by destruct (dmem l _) eqn:E. Qed.

Lemma rank_for_stamp_ok level :
  exists r, rank_for_stamp level = Ok r /\ entry_rank_or_withhold (Some (normalize_for_stamp level)) = Some r.
Proof.
  unfold rank_for_stamp, rank_of, entry_rank_or_withhold, classification_rank.
  pose proof (normalize_for_stamp_known level) as [r Hr]%dmem_rank. rewrite Hr. eauto.
Qed.

Lemma rank_injective l l' r :
  entry_rank_or_withhold (Some l) = Some r -> entry_rank_or_withhold (Some l') = Some r -> l = l'.
Proof.
  unfold entry_rank_or_withhold, classification_rank. simpl. repeat case_decide; congruence.
Qed.

Lemma event_classes_partition t : is_channel_acting t = negb (is_public_floor t).
Proof. by destruct t. Qed.

(** ** Theorems *)

(** The three fail-closed rules resolve a known level to itself and an
    unknown or absent one in three different directions: stamps default to
    internal, acting levels fall to the public floor, entries get no rank; the
    rank lookup of a stamp never raises. *)
Theorem fail_closed_rules level :
  (exists r, rank_for_stamp level = Ok r) /\
  match classification_rank level with
  | Some r => level = Some (normalize_for_stamp level) /\ level = Some (normalize_acting level) /\
      rank_for_stamp level = Ok r /\ acting_rank level = r /\
      entry_rank_or_withhold level = Some r /\ is_valid_classification level = true
  | None => normalize_for_stamp level = "internal" /\ normalize_acting level = "public" /\
      acting_rank level = 0%Z /\ entry_rank_or_withhold level = None /\
      is_valid_classification level = false /\ injectable_levels level = ["public"]
  end.
Proof.
  split; [destruct (rank_for_stamp_ok level) as (r&?&_); eauto|].
  unfold rank_for_stamp, rank_of, acting_rank, entry_rank_or_withhold, is_valid_classification,
    injectable_levels, acting_rank, normalize_for_stamp, normalize_acting.
  destruct level as [l|]; simpl; [|done]. unfold dmem.
  unfold dget; simpl. repeat case_decide; simplify_eq/=; repeat split; done.
Qed.

(** An edit re-stamps a note to the maximum of its stored level and the
    acting stamp, in rank; a corrupted stored level keeps its value. *)
Theorem restamp_is_max acting stored below :
  levels_below_stamp acting = Ok below ->
  let stored' := restamp_level (Some (normalize_for_stamp acting)) below stored in
  match entry_rank_or_withhold (Some stored), rank_for_stamp acting with
  | Some r, Ok a => entry_rank_or_withhold (Some stored') = Some (Z.max r a)
  | _, _ => stored' = stored
  end.
Proof.
  intros Hb. unfold levels_below_stamp in Hb. destruct (rank_for_stamp_ok acting) as (a&Ha&Hra).
  rewrite Ha in Hb |- *. cbn [rbind] in Hb. injection Hb as <-. cbv zeta.
  set (below := map fst _).
  assert (forall l, l ∈ below <-> exists r, dget l CLASSIFICATION_RANKS = Some r /\ (r < a)%Z) as Hbelow.
  { exact (level_set_spec (λ r, r < a)%Z). }
  assert (restamp_level (Some (normalize_for_stamp acting)) below stored =
          if decide (stored ∈ below) then normalize_for_stamp acting else stored) as ->.
  { unfold restamp_level. destruct below; [|done].
      rewrite decide_False; [done|]. apply not_elem_of_nil. }
  destruct (entry_rank_or_withhold (Some stored)) as [r|] eqn:E.
  - destruct (decide _) as [(r'&Hr'&Hlt)%Hbelow|Hn].
    + rewrite Hra. unfold entry_rank_or_withhold, classification_rank in E. f_equal.
      assert (r = r') by congruence. lia.
    + rewrite E. f_equal. assert (~ (r < a)%Z); [|lia]. intros Hlt. apply Hn, Hbelow. by exists r.
  - rewrite decide_False; [done|]. intros (r'&Hr'&_)%Hbelow.
    unfold entry_rank_or_withhold, classification_rank in E. congruence.
Qed.

(** What a producer stamps is what the turn acts at: seeding then reading
    returns a non-empty bounded string verbatim and leaves the metadata of any
    other value alone, and only channel-anchored events read it. *)
Theorem seed_read_roundtrip md v e :
  let md' := seed_channel_classification md v in
  (forall s, v = VStr s -> s <> "" -> (utf8_len s <= CLASSIFICATION_MAX_BYTES)%Z ->
     read_classification md' = Some s /\ forall k, k <> CHANNEL_CLASSIFICATION_METADATA_KEY ->
       dget k md' = dget k md) /\
  ((forall s, v = VStr s -> s = "" \/ (CLASSIFICATION_MAX_BYTES < utf8_len s)%Z) -> md' = md) /\
  (metadata e = md' ->
   acting_classification_for_event e =
     if is_public_floor (event_type e) then None else read_classification md').
Proof.
  cbv zeta. split; [|split].
  - intros s -> Hs Hl. unfold seed_channel_classification, read_classification.
    apply truthy_true in Hs. apply Z.leb_le in Hl. rewrite Hs, Hl. simpl.
    rewrite dget_dset_eq, Hs. split; [done|]. intros k Hk. by rewrite dget_dset_ne.
  - intros H. destruct v as [| | | |s| |]; try done. unfold seed_channel_classification.
    destruct (H s eq_refl) as [->|Hl]; [done|]. apply Z.leb_gt in Hl. by rewrite Hl, andb_false_r.
  - intros E. unfold acting_classification_for_event, wire_channel_classification.
    rewrite E, event_classes_partition. by destruct (is_public_floor _).
Qed.

(** The scope restores what it found, whatever the block leaves behind. *)
Lemma acting_scope_restores {A} md (block : option string -> A * option string) ctx raw :
  read_classification md = Some raw ->
  acting_classification_scope_from_metadata md block ctx = (fst (block (Some raw)), ctx).
Proof.
  intros H. unfold acting_classification_scope_from_metadata. rewrite H. by destruct (block _).
Qed.

(** ** Witnesses *)

Lemma restamp_is_max_witness :
  entry_rank_or_withhold (Some (restamp_level (Some "secret") ["public"; "internal"; "restricted"] "internal"))
  = Some 3%Z.
Proof. exact (restamp_is_max (Some "secret") "internal" _ eq_refl). Defined.

Lemma seed_read_roundtrip_witness :
  read_classification (seed_channel_classification [] (VStr "secret")) = Some "secret".
Proof.
  refine (proj1 (proj1 (seed_read_roundtrip [] (VStr "secret")
    (mkEvent TICK [] None None None None 0 [])) "secret" eq_refl _ _)); [done|by vm_compute].
Defined.
