(* ===== verification/Audience.v ===== *)
(** * Who is in the room

    Models [agents/persona_runtime/audience.py] and [member_ids_from_meta] of
    [channel_roster.py]: the members of the acting room and of the rooms the
    candidates came from, and the verdict for one entry. The roster fetcher (an
    HTTP client) is the parameter [fetcher]: a response body or an exception. *)

From stdpp Require Import gmap sets.
From S2P Require Import Prelude PyStr PyDict PyValue Classification.
Local Open Scope string_scope.

Definition AUDIENCE_OFF := "off".
Definition AUDIENCE_SHADOW := "shadow".
Definition AUDIENCE_LIVE := "live".
Definition AUDIENCE_MODES := [AUDIENCE_OFF; AUDIENCE_SHADOW; AUDIENCE_LIVE].
Definition AUDIENCE_TIERS := ["channel_history"; "facts"; "episodic"].
Definition DEFAULT_MEMORY_AUDIENCE := AUDIENCE_LIVE.

Inductive AudienceVerdict :=
| ADMIT | WITHHOLD_DISJOINT | WITHHOLD_UNKNOWN_FETCH_FAILED | WITHHOLD_UNKNOWN_NO_PROVENANCE.

#[export] Instance AudienceVerdict_eq_dec : EqDecision AudienceVerdict.
Proof. solve_decision. Defined.

Definition ENFORCED_VERDICTS := [WITHHOLD_DISJOINT].

Record AudienceRecord := mkAudienceRecord {
  ar_tier : string;
  ar_entry_id : string;
  ar_protection_level : string;
  ar_source_channel_id : option string;
  ar_verdict : AudienceVerdict;
}.

(** [(config.get(k) or {})]: a falsy value reads as the empty object, a truthy
    one without [get] raises. *)
Definition sub_object (k : string) (config : pydict) : result string pydict :=
  match dget k config with
  | None => Ok []
  | Some v => if vtruthy v then match v with VDict d => Ok d | _ => Raise "AttributeError" end else Ok []
  end.

Definition resolve_memory_audience (config : pydict) : result string string :=
  rbind (sub_object "memory" config) (λ memory,
  rbind (sub_object "egress" memory) (λ egress,
  match dget "audience" egress with
  | None | Some VNone => Ok DEFAULT_MEMORY_AUDIENCE
  | Some (VStr s) => if decide (s ∈ AUDIENCE_MODES) then Ok s else Raise "ValueError"
  | Some _ => Raise "ValueError"
  end)).

(** ** A memory entry, as the gate reads it *)

Record Entry := mkEntry {
  entry_id : string;
  interaction_id : option string;
  protection_level : option string;
  source_channel_id : option string;
  content : option string;
}.

(** ** One turn's audience *)

Record TurnAudience := mkAudience {
  mode : string;
  acting_channel_id : option string;
  rooms : list (string * option (gset string));
  fetches : Z;
  source_rooms : Z;
}.

Definition room_members (a : TurnAudience) (room : string) : option (gset string) :=
  default None (dget room (rooms a)).

(** The acting room's snapshot of [__post_init__]. *)
Definition acting_members (a : TurnAudience) : option (gset string) :=
  match acting_channel_id a with
  | Some c => if truthy c then room_members a c else None
  | None => None
  end.

Definition enforcing (a : TurnAudience) : bool := String.eqb (mode a) AUDIENCE_LIVE.

Definition verdict (a : TurnAudience) (tier level : string) (source : option string) :
    option AudienceVerdict :=
  if negb (bool_decide (tier ∈ AUDIENCE_TIERS)) then None
  else if String.eqb level CLASSIFICATION_PUBLIC then None
  else
    match source with
    | None => Some WITHHOLD_UNKNOWN_NO_PROVENANCE
    | Some room =>
        if negb (truthy room) then Some WITHHOLD_UNKNOWN_NO_PROVENANCE
        else
          match room_members a room, acting_members a with
          | Some source, Some acting =>
              if decide (acting ⊆ source) then Some ADMIT else Some WITHHOLD_DISJOINT
          | _, _ => Some WITHHOLD_UNKNOWN_FETCH_FAILED
          end
    end.

(** ** Resolving it *)

(** The room of an entry that will be judged. *)
Definition judged_room (acting : Z) (tier : string) (e : Entry) : option string :=
  if negb (bool_decide (tier ∈ AUDIENCE_TIERS)) then None
  else if bool_decide (protection_level e = Some CLASSIFICATION_PUBLIC) then None
  else
    match entry_rank_or_withhold (protection_level e) with
    | None => None
    | Some rank =>
        if (acting <? rank)%Z then None
        else match source_channel_id e with
             | Some room => if truthy room then Some room else None
             | None => None
             end
    end.

Definition see_room (seen : list string) (room : option string) : list string :=
  match room with
  | Some r => if decide (r ∈ seen) then seen else (seen ++ [r])%list
  | None => seen
  end.

Definition distinct_source_rooms (candidates : list (string * list Entry)) (acting : Z) : list string :=
  fold_left (λ seen te, fold_left (λ seen e, see_room seen (judged_room acting te.1 e)) te.2 seen)
    candidates [].

Definition member_ids_from_meta (meta : pyval) : option (gset string) :=
  match meta with
  | VDict d =>
      match dget "members" d with
      | Some (VList declared) =>
          let ids : gset string := list_to_set (omap (λ m,
            match m with
            | VDict m => match dget "id" m with
                         | Some (VStr id) => if truthy id then Some id else None
                         | _ => None
                         end
            | _ => None
            end) declared) in
          if decide (ids = ∅) then None else Some ids
      | _ => None
      end
  | _ => None
  end.

Abbreviation Fetcher := (string -> result string pyval).

Definition fetch_member_ids (fetcher : option Fetcher) (room : string) : option (gset string) :=
  match fetcher with
  | None => None
  | Some fetch => match fetch room with Ok meta => member_ids_from_meta meta | Raise _ => None end
  end.

Record ChannelRoster := mkRoster { roster_channel : string; member_ids : gset string }.

Definition resolve_turn_audience (fetcher : option Fetcher) (roster : option ChannelRoster)
    (md : string) (acting_channel acting_classification : option string)
    (candidates : list (string * list Entry)) : option TurnAudience :=
  if String.eqb md AUDIENCE_OFF then None
  else
    let acting := acting_rank acting_classification in
    if (acting <=? 0)%Z then None
    else
      let members :=
        match roster, acting_channel with
        | Some r, Some c => if String.eqb (roster_channel r) c then Some (member_ids r) else None
        | _, _ => None
        end in
      let rooms0 := match acting_channel with
                    | Some c => if truthy c then [(c, members)] else []
                    | None => []
                    end in
      let sources := distinct_source_rooms candidates acting in
      let n := Z.of_nat (length sources) in
      match members, fetcher with
      | Some _, Some _ =>
          let pending := filter (λ room, dget room rooms0 = None) sources in
          let rooms1 := fold_left (λ d room, dset room (fetch_member_ids fetcher room) d) pending rooms0 in
          Some (mkAudience md acting_channel rooms1 (Z.of_nat (length pending)) n)
      | _, _ => Some (mkAudience md acting_channel rooms0 0 n)
      end.

(** ** Lemmas *)

Lemma elem_see_room seen room r :
  r ∈ see_room seen room <-> r ∈ seen \/ room = Some r.
Proof.
  destruct room as [x|]; simpl; [|split; [tauto|intros [?|?]; done]].
  case_decide as Hx.
  - split; [tauto|]. intros [?|[= <-]]; done.
  - rewrite elem_of_app, list_elem_of_singleton. split; intros [?|H]; auto; [by right; subst|].
    injection H. auto.
Qed.

Lemma NoDup_see_room seen room : NoDup seen -> NoDup (see_room seen room).
Proof.
  destruct room as [x|]; simpl; [|done]. case_decide; [done|]. intros H1. apply NoDup_app.
  split; [done|]. split; [set_solver|apply NoDup_singleton].
Qed.

Lemma elem_rooms_of_tier acting tier es seen r :
  r ∈ fold_left (λ seen e, see_room seen (judged_room acting tier e)) es seen <->
  r ∈ seen \/ exists e, e ∈ es /\ judged_room acting tier e = Some r.
Proof.
  revert seen. induction es as [|e es IH]; intros seen; simpl.
  - split; [auto|]. intros [?|(e&He&_)]; [done|]. by apply not_elem_of_nil in He.
  - rewrite IH, elem_see_room. setoid_rewrite elem_of_cons. naive_solver.
Qed.

Lemma NoDup_rooms_of_tier acting tier es seen :
  NoDup seen -> NoDup (fold_left (λ seen e, see_room seen (judged_room acting tier e)) es seen).
Proof.
  revert seen. induction es as [|e es IH]; intros seen H; simpl; [done|].
  by apply IH, NoDup_see_room.
Qed.

Lemma elem_distinct_source_rooms cands acting r :
  r ∈ distinct_source_rooms cands acting <->
  exists tier es e, (tier, es) ∈ cands /\ e ∈ es /\ judged_room acting tier e = Some r.
Proof.
  unfold distinct_source_rooms.
  assert (forall seen, r ∈ fold_left (λ seen te, fold_left (λ seen e,
      see_room seen (judged_room acting te.1 e)) te.2 seen) cands seen <->
    r ∈ seen \/ exists tier es e, (tier, es) ∈ cands /\ e ∈ es /\ judged_room acting tier e = Some r) as H.
  { induction cands as [|[tier es] cands IH]; intros seen; simpl.
    - split; [auto|]. intros [?|(?&?&?&He&_)]; [done|]. by apply not_elem_of_nil in He.
    - rewrite IH, elem_rooms_of_tier. setoid_rewrite elem_of_cons. split.
      + intros [[?|(e&?&?)]|(t'&es'&e&?&?&?)]; [by left|right..].
        * exists tier, es, e. auto.
        * exists t', es', e. auto.
      + intros [?|(t'&es'&e&[[= -> ->]|?]&?&?)]; [by left; left|left; right; by exists e|].
        right. by exists t', es', e. }
  rewrite H. split; [intros [Hn|?]; [by apply not_elem_of_nil in Hn|done]|auto].
Qed.

Lemma NoDup_distinct_source_rooms cands acting : NoDup (distinct_source_rooms cands acting).
Proof.
  unfold distinct_source_rooms.
  assert (forall seen, NoDup seen -> NoDup (fold_left (λ seen te, fold_left (λ seen e,
      see_room seen (judged_room acting te.1 e)) te.2 seen) cands seen)) as H; [|apply H, NoDup_nil_2].
  induction cands as [|[tier es] cands IH]; intros seen Hs; simpl; [done|].
  by apply IH, NoDup_rooms_of_tier.
Qed.

Lemma dget_fold_dset {V} (f : string -> V) (ks : list string) (d : list (string * V)) k :
  dget k (fold_left (λ d k, dset k (f k) d) ks d) =
  if decide (k ∈ ks) then Some (f k) else dget k d.
Proof.
  revert d. induction ks as [|k' ks IH]; intros d; simpl; [done|].
  rewrite IH. destruct (decide (k ∈ ks)) as [Hk|Hk].
  - rewrite decide_True by (by right). done.
  - destruct (decide (k = k')) as [->|Hne].
    + rewrite decide_True by left. apply dget_dset_eq.
    + rewrite decide_False by (rewrite elem_of_cons; tauto). by apply dget_dset_ne.
Qed.

Lemma fetch_member_ids_nonempty fetcher room m : fetch_member_ids fetcher room = Some m -> m <> ∅.
Proof.
  unfold fetch_member_ids, member_ids_from_meta. intros H.
  destruct fetcher as [fetch|]; [|done]. destruct (fetch room) as [meta|]; [|done].
  destruct meta; try done. destruct (dget "members" d) as [v|]; [|done]. destruct v; try done.
  cbv zeta in H. case_decide; congruence.
Qed.
