(* ===== verification/InjectionGate.v ===== *)
(** * The gate at memory injection

    Models [agents/persona_runtime/injection_gate.py], [projection_branch.py],
    [single_channel_turn.py], [memory/projections.py] (the
    [memory_projections] table as a list of rows) and the gating part of
    [_inject_memory_context] in [memory_context.py]. The gate is a mutable
    object: each method takes and returns its state. *)

From stdpp Require Import gmap sets sorting.
From S2P Require Import Prelude PyStr PyDict PyValue PySort PersonaEvents MemoryBudget Classification Audience.
Local Open Scope string_scope.

(** ** The gate *)

Record UnknownEntry := mkUnknown {
  un_tier : string; un_id : string; un_level : option string; un_channel : option string;
}.

Record TurnInjectionGate := mkGate {
  acting : option string;
  audience : option TurnAudience;
  audience_records : list AudienceRecord;
  terminal : gset (string * string);
  withheld : Z;
  unknown : list UnknownEntry;
  passed_levels : list ((string * string) * string);
  decisions_of : list (string * list (Entry * bool));
}.

Definition new_gate (acting : option string) (audience : option TurnAudience) : TurnInjectionGate :=
  mkGate acting audience [] ∅ 0 [] [] [].

Definition add_record (r : AudienceRecord) (g : TurnInjectionGate) : TurnInjectionGate :=
  mkGate (acting g) (audience g) (audience_records g ++ [r])%list (terminal g) (withheld g) (unknown g)
    (passed_levels g) (decisions_of g).

Definition add_terminal (k : string * string) (g : TurnInjectionGate) : TurnInjectionGate :=
  mkGate (acting g) (audience g) (audience_records g) (terminal g ∪ {[k]}) (withheld g) (unknown g)
    (passed_levels g) (decisions_of g).

Definition set_passed (k : string * string) (level : string) (g : TurnInjectionGate) : TurnInjectionGate :=
  mkGate (acting g) (audience g) (audience_records g) (terminal g) (withheld g) (unknown g)
    (dset k level (passed_levels g)) (decisions_of g).

Definition add_withheld (g : TurnInjectionGate) : TurnInjectionGate :=
  mkGate (acting g) (audience g) (audience_records g) (terminal g) (withheld g + 1) (unknown g)
    (passed_levels g) (decisions_of g).

Definition add_unknown (u : UnknownEntry) (g : TurnInjectionGate) : TurnInjectionGate :=
  mkGate (acting g) (audience g) (audience_records g) (terminal g) (withheld g) (unknown g ++ [u])%list
    (passed_levels g) (decisions_of g).

Definition set_decisions (d : list (string * list (Entry * bool))) (g : TurnInjectionGate) :
    TurnInjectionGate :=
  mkGate (acting g) (audience g) (audience_records g) (terminal g) (withheld g) (unknown g)
    (passed_levels g) d.

Definition decisions (g : TurnInjectionGate) (tier : string) : list (Entry * bool) :=
  default [] (dget tier (decisions_of g)).

Definition audience_terminal (g : TurnInjectionGate) (tier id : string) : bool :=
  bool_decide ((tier, id) ∈ terminal g).

Definition audience_withheld_count (g : TurnInjectionGate) : Z := Z.of_nat (size (terminal g)).
Definition unknown_label_count (g : TurnInjectionGate) : Z := Z.of_nat (length (unknown g)).

Definition judge_audience (tier id level : string) (source : option string) (g : TurnInjectionGate) :
    bool * TurnInjectionGate :=
  match audience g with
  | None => (true, g)
  | Some a =>
      match verdict a tier level source with
      | None => (true, g)
      | Some v =>
          let g := add_record (mkAudienceRecord tier id level source v) g in
          if enforcing a && bool_decide (v ∈ ENFORCED_VERDICTS)
          then (false, add_terminal (tier, id) g) else (true, g)
      end
  end.

Definition admit_entry (tier : string) (e : Entry) (g : TurnInjectionGate) : bool * TurnInjectionGate :=
  match entry_rank_or_withhold (protection_level e), protection_level e with
  | Some rank, Some level =>
      if (acting_rank (acting g) <? rank)%Z then (false, add_withheld g)
      else
        match judge_audience tier (entry_id e) level (source_channel_id e) g with
        | (false, g) => (false, g)
        | (true, g) => (true, set_passed (tier, entry_id e) level g)
        end
  | _, _ => (false, add_unknown (mkUnknown tier (entry_id e) (protection_level e) (source_channel_id e)) g)
  end.

Definition record_decision (tier : string) (d : Entry * bool) (g : TurnInjectionGate) :
    TurnInjectionGate :=
  set_decisions (dset tier (decisions g tier ++ [d])%list (decisions_of g)) g.

Fixpoint filter_loop (tier : string) (entries : list Entry) (g : TurnInjectionGate) :
    list Entry * TurnInjectionGate :=
  match entries with
  | [] => ([], g)
  | e :: rest =>
      let '(ok, g) := admit_entry tier e g in
      let '(admitted, g) := filter_loop tier rest (record_decision tier (e, ok) g) in
      ((if ok then e :: admitted else admitted), g)
  end.

Definition filter_entries (tier : string) (entries : list Entry) (g : TurnInjectionGate) :
    list Entry * TurnInjectionGate :=
  filter_loop tier entries (set_decisions (dset tier (decisions g tier) (decisions_of g)) g).

Record InjectionManifestEntry := mkManifest {
  m_tier : string; m_entry_id : string; m_protection_level : string;
}.

Definition MANIFEST_TIERS := ["channel_history"; "facts"; "episodic"; "notes"].

Definition manifest (b : MemoryBudget) (g : TurnInjectionGate) : list InjectionManifestEntry :=
  tier ← MANIFEST_TIERS;
  omap (λ id, match dget (tier, id) (passed_levels g) with
              | Some level => Some (mkManifest tier id level)
              | None => None
              end) (admissions_by_tier tier b).

(** ** Projections *)

Record ProjectionRow := mkProjection {
  pj_agent : string;
  pj_entry : string;
  pj_tier : string;
  pj_level : string;
  pj_text : string;
  pj_created_at : Q;
}.

#[export] Instance Q_dec : EqDecision Q.
Proof. solve_decision. Defined.
#[export] Instance ProjectionRow_dec : EqDecision ProjectionRow.
Proof. solve_decision. Defined.

Abbreviation projection_table := (list ProjectionRow).

Definition ENTRY_TIER_EPISODE := "episode".

Definition same_key (r r' : ProjectionRow) : bool :=
  String.eqb (pj_entry r) (pj_entry r') && String.eqb (pj_tier r) (pj_tier r') &&
  String.eqb (pj_level r) (pj_level r').

(** [INSERT]; the primary key is (entry, tier, level). *)
Definition insert_projection (r : ProjectionRow) (t : projection_table) :
    result string projection_table :=
  if existsb (same_key r) t then Raise "IntegrityError" else Ok (t ++ [r])%list.

Fixpoint insert_projections (agent entry tier : string) (created_at : Q)
    (projections : list (string * string)) (written : Z) (t : projection_table) :
    result string Z * projection_table :=
  match projections with
  | [] => (Ok written, t)
  | (level, txt) :: rest =>
      if negb (truthy (strip txt)) then insert_projections agent entry tier created_at rest written t
      else
        match insert_projection (mkProjection agent entry tier level txt created_at) t with
        | Raise e => (Raise e, t)
        | Ok t => insert_projections agent entry tier created_at rest (written + 1) t
        end
  end.

Definition owned_by (agent entry tier : string) (r : ProjectionRow) : Prop :=
  pj_agent r = agent /\ pj_entry r = entry /\ pj_tier r = tier.

#[export] Instance owned_by_dec agent entry tier r : Decision (owned_by agent entry tier r).
Proof. unfold owned_by. apply _. Defined.

Definition replace_entry_projections (agent entry tier : string) (projections : list (string * string))
    (created_at : Q) (t : projection_table) : result string Z * projection_table :=
  insert_projections agent entry tier created_at projections 0
    (filter (λ r, ~ owned_by agent entry tier r) t).

Definition projection_le (a b : ProjectionRow) : bool :=
  match String.compare (pj_entry a) (pj_entry b) with
  | Lt => true
  | Gt => false
  | Eq => String.leb (pj_level a) (pj_level b)
  end.

Definition projections_for (agent tier : string) (ids levels : list string) (t : projection_table) :
    list (string * list (string * string)) :=
  match ids, levels with
  | [], _ | _, [] => []
  | _, _ =>
      fold_left (λ out r, dset (pj_entry r)
                   (default [] (dget (pj_entry r) out) ++ [(pj_level r, pj_text r)])%list out)
        (py_sorted projection_le
           (filter (λ r, pj_agent r = agent /\ pj_tier r = tier /\ pj_entry r ∈ ids /\ pj_level r ∈ levels) t))
        []
  end.

Definition level_rank (level : string) : Z := default (-1)%Z (entry_rank_or_withhold (Some level)).

(** [max(candidates, key=...)]: the first of the greatest. *)
Definition best_projection (c : string * string) (cs : list (string * string)) : string * string :=
  fold_left (λ best c, if (level_rank best.1 <? level_rank c.1)%Z then c else best) cs c.

Definition EPISODE_TIERS := ["channel_history"; "episodic"].

Definition interaction_key (e : Entry) : option string :=
  match interaction_id e with Some i => if truthy i then Some i else None | None => None end.

Definition withheld_ids (g : TurnInjectionGate) : list string :=
  py_sorted String.leb (remove_dups
    (tier ← EPISODE_TIERS;
     omap (λ d : Entry * bool,
       if d.2 || audience_terminal g tier (entry_id d.1) then None else interaction_key d.1)
       (decisions g tier))).

(** [replace(episode, summary=text, protection_level=level)] *)
Definition as_projection (e : Entry) (level txt : string) : Entry :=
  mkEntry (entry_id e) (interaction_id e) (Some level) (source_channel_id e) (Some txt).

Fixpoint rebuild_loop (available : list (string * list (string * string))) (tier : string)
    (ds : list (Entry * bool)) (g : TurnInjectionGate) : list Entry * bool * TurnInjectionGate :=
  match ds with
  | [] => ([], false, g)
  | (e, true) :: rest =>
      let '(out, served, g) := rebuild_loop available tier rest g in (e :: out, served, g)
  | (e, false) :: rest =>
      if audience_terminal g tier (entry_id e) then rebuild_loop available tier rest g
      else
        match default [] (dget (opt_str (interaction_id e)) available) with
        | [] => rebuild_loop available tier rest g
        | c :: cs =>
            let '(level, txt) := best_projection c cs in
            match judge_audience tier (entry_id e) level (source_channel_id e) g with
            | (false, g) => rebuild_loop available tier rest g
            | (true, g) =>
                let '(out, _, g) :=
                  rebuild_loop available tier rest (set_passed (tier, entry_id e) level g) in
                (as_projection e level txt :: out, true, g)
            end
        end
  end.

Definition rebuild (available : list (string * list (string * string))) (tier : string)
    (admitted_now : list Entry) (g : TurnInjectionGate) : list Entry * TurnInjectionGate :=
  let '(out, served, g) := rebuild_loop available tier (decisions g tier) g in
  ((if served then out else admitted_now), g).

(** [rows] is the table, or a storage error. *)
Definition apply_episode_projections (agent : string) (rows : result string projection_table)
    (channel_history episodic : list Entry) (g : TurnInjectionGate) :
    list Entry * list Entry * TurnInjectionGate :=
  match withheld_ids g with
  | [] => (channel_history, episodic, g)
  | ids =>
      match rows with
      | Raise _ => (channel_history, episodic, g)
      | Ok t =>
          match projections_for agent ENTRY_TIER_EPISODE ids (injectable_levels (acting g)) t with
          | [] => (channel_history, episodic, g)
          | available =>
              let '(ch, g) := rebuild available "channel_history" channel_history g in
              let '(ep, g) := rebuild available "episodic" episodic g in
              (ch, ep, g)
          end
      end
  end.

(** ** One turn *)

Record Candidates := mkCandidates {
  c_channel_history : list Entry;
  c_episodic : list Entry;
  c_facts : list Entry;
  c_notes : list Entry;
}.

(** The candidates that go on to the budget, and the gate. *)
Definition gate_turn (agent : string) (fetcher : option Fetcher) (roster : option ChannelRoster)
    (md : string) (rows : result string projection_table) (e : AgentEvent) (c : Candidates) :
    Candidates * TurnInjectionGate :=
  let acting := acting_classification_for_event e in
  let aud := resolve_turn_audience fetcher roster md (channel_id e) acting
    [("channel_history", c_channel_history c); ("episodic", c_episodic c); ("facts", c_facts c)] in
  let g := new_gate acting aud in
  let '(ch, g) := filter_entries "channel_history" (c_channel_history c) g in
  let '(ep, g) := filter_entries "episodic" (c_episodic c) g in
  let '(fa, g) := filter_entries "facts" (c_facts c) g in
  let '(no, g) := filter_entries "notes" (c_notes c) g in
  let '(ch, ep, g) := apply_episode_projections agent rows ch ep g in
  (mkCandidates ch ep fa no, g).

(** ** The single-channel-turn guard *)

Definition guard_action (event_channel : string) (a : AgentAction) : AgentAction :=
  match action_type a with
  | SEND_CHANNEL_MESSAGE =>
      match dget "channel_id" (act_payload a) with
      | Some (VStr target) =>
          if truthy target && negb (String.eqb target event_channel)
          then mkAction DO_NOTHING [] else a
      | _ => a
      end
  | _ => a
  end.

Definition enforce_single_channel_turn (e : AgentEvent) (actions : list AgentAction) :
    list AgentAction :=
  match channel_id e with
  | Some c => if is_channel_acting (event_type e) && truthy c then map (guard_action c) actions
              else actions
  | None => actions
  end.

(** * Correctness of the gate at memory injection

    What [InjectionGate.gate_turn] lets through: the classification bound, the
    audience condition, where served entries come from, the manifest, the
    projection store, the cost of the audience check and the publish guard. *)

(** ** What may be served *)

(** The entry's level is known and ranks at or below the acting level. *)
Definition level_ok (act : option string) (e : Entry) : Prop :=
  exists r, entry_rank_or_withhold (protection_level e) = Some r /\ (r <= acting_rank act)%Z.

(** The audience check, where it enforces, found nobody new in the room. *)
Definition audience_ok (aud : option TurnAudience) (tier : string) (e : Entry) : Prop :=
  forall a level v, aud = Some a -> enforcing a = true -> protection_level e = Some level ->
    verdict a tier level (source_channel_id e) = Some v -> v ∉ ENFORCED_VERDICTS.

Definition good (act : option string) (aud : option TurnAudience) (tier : string) (e : Entry) : Prop :=
  level_ok act e /\ audience_ok aud tier e.

(** Methods leave what the gate was built with. *)
Definition same_turn (g g' : TurnInjectionGate) : Prop :=
  acting g' = acting g /\ audience g' = audience g.

#[export] Instance same_turn_preorder : PreOrder same_turn.
Proof. split; [done|]. intros g g' g'' [E1 E2] [E3 E4]. split; congruence. Qed.

Lemma judge_audience_spec tier id level source g :
  let '(ok, g') := judge_audience tier id level source g in
  same_turn g g' /\ decisions_of g' = decisions_of g /\ passed_levels g' = passed_levels g /\
  (ok = true -> forall e, protection_level e = Some level -> source_channel_id e = source ->
     audience_ok (audience g) tier e).
Proof.
  unfold judge_audience, audience_ok. destruct (audience g) as [a|] eqn:Ea; [|by split_and!].
  destruct (verdict a tier level source) as [v|] eqn:Ev.
  - destruct (enforcing a && _) eqn:E; (split; [by split|]); (split; [done|]); (split; [done|]); [done|].
    intros _ e Hl Hs a' l' v' [= <-] Hf Hl' Hv. assert (v' = v) as -> by congruence.
    rewrite Hf in E. by apply bool_decide_eq_false in E.
  - split; [done|]. split; [done|]. split; [done|]. intros _ e Hl Hs a' l' v' [= <-] _ Hl' Hv. congruence.
Qed.

Lemma admit_spec tier e g :
  let '(ok, g') := admit_entry tier e g in
  same_turn g g' /\ decisions_of g' = decisions_of g /\
  (ok = true -> good (acting g) (audience g) tier e) /\
  (passed_levels g' = passed_levels g \/
   ok = true /\ exists level, protection_level e = Some level /\
     passed_levels g' = dset (tier, entry_id e) level (passed_levels g)).
Proof.
  unfold admit_entry. destruct (entry_rank_or_withhold (protection_level e)) as [r|] eqn:Er.
  2: { split_and!; try done. by left. }
  destruct (protection_level e) as [level|] eqn:El; [|done].
  destruct (Z.ltb_spec (acting_rank (acting g)) r) as [|Hle]; [split_and!; try done; by left|].
  pose proof (judge_audience_spec tier (entry_id e) level (source_channel_id e) g) as H.
  destruct (judge_audience _ _ _ _ _) as [ok g']. destruct H as ([Ha Hb]&Hd&Hp&Hok).
  destruct ok; (split; [by split|]); (split; [done|]); split; try done.
  - intros _. split; [exists r; by rewrite El|]. by apply Hok.
  - right. split; [done|]. exists level. split; [done|]. simpl. by rewrite Hp.
  - by left.
Qed.

Lemma decisions_record tier tier' d g :
  decisions (record_decision tier d g) tier' =
  if decide (tier' = tier) then (decisions g tier' ++ [d])%list else decisions g tier'.
Proof.
  unfold record_decision, decisions, set_decisions. simpl. case_decide as Ht.
  - subst. by rewrite dget_dset_eq.
  - by rewrite dget_dset_ne.
Qed.

(** Every label the gate holds is that of an entry among [served]. *)
Definition labelled (served : string -> list Entry) (g : TurnInjectionGate) : Prop :=
  forall tier id level, dget (tier, id) (passed_levels g) = Some level ->
    exists e, e ∈ served tier /\ entry_id e = id /\ protection_level e = Some level.

Lemma labelled_set served tier e level g :
  labelled served g -> e ∈ served tier -> protection_level e = Some level ->
  labelled served (set_passed (tier, entry_id e) level g).
Proof.
  intros H He Hl t id l. simpl. destruct (decide ((tier, entry_id e) = (t, id))) as [[= <- <-]|Hne].
  - rewrite dget_dset_eq. intros [= <-]. by exists e.
  - rewrite dget_dset_ne by done. apply H.
Qed.

Lemma labelled_mono served served' g g' :
  (forall t e, e ∈ served t -> e ∈ served' t) -> passed_levels g' = passed_levels g ->
  labelled served g -> labelled served' g'.
Proof. intros Hs E H t id l. rewrite E. intros (e&?&?)%H. exists e. auto. Qed.

(** ** A tier through the gate *)

Definition admitted_of (ds : list (Entry * bool)) : list Entry :=
  omap (λ d : Entry * bool, if d.2 then Some d.1 else None) ds.

Lemma elem_admitted_of ds e : e ∈ admitted_of ds <-> (e, true) ∈ ds.
Proof.
  unfold admitted_of. rewrite list_elem_of_omap. split.
  - intros ([e' []]&Hin&[= <-]). done.
  - intros H. by exists (e, true).
Qed.

Lemma filter_loop_spec tier es g :
  let '(out, g') := filter_loop tier es g in
  exists ds,
    same_turn g g' /\ map fst ds = es /\ out = admitted_of ds /\
    (forall t, decisions g' t = if decide (t = tier) then (decisions g t ++ ds)%list else decisions g t) /\
    Forall (λ d : Entry * bool, d.2 = true -> good (acting g) (audience g) tier d.1) ds /\
    (forall served, labelled served g -> (forall e, e ∈ out -> e ∈ served tier) -> labelled served g').
Proof.
  revert g. induction es as [|e es IH]; intros g; simpl.
  - exists []. split; [done|]. split; [done|]. split; [done|]. split; [|split; [constructor|auto]].
    intros t. case_decide; [by rewrite app_nil_r|done].
  - pose proof (admit_spec tier e g) as Ha. destruct (admit_entry tier e g) as [ok g1].
    destruct Ha as (Hs1&Hd1&Hgood&Hp1). set (g2 := record_decision tier (e, ok) g1).
    assert (same_turn g g2) as Hs2 by (destruct Hs1; by split).
    specialize (IH g2). destruct (filter_loop tier es g2) as [out g3].
    destruct IH as (ds&Hs3&Hm&->&Hd3&Hf&Hl3). exists ((e, ok) :: ds).
    split; [by etrans|]. split; [simpl; by rewrite Hm|]. split; [by destruct ok|]. split; [|split].
    + intros t. rewrite Hd3. unfold g2. rewrite decisions_record.
      assert (decisions g1 t = decisions g t) as Ed by (unfold decisions; by rewrite Hd1).
      rewrite Ed. case_decide; [|done]. by rewrite <- app_assoc.
    + constructor; [exact Hgood|]. destruct Hs2 as [-> ->] in Hf. done.
    + intros served Hl Hin. apply Hl3.
      * unfold g2. destruct Hp1 as [Hp1|(->&level&Hlev&Hp1)].
        -- by apply (labelled_mono served served g).
        -- apply (labelled_mono served served (set_passed (tier, entry_id e) level g));
             [done|exact Hp1|]. apply labelled_set; [done| |done]. apply Hin. by left.
      * intros e' He'. apply Hin. destruct ok; [by right|done].
Qed.

Lemma filter_entries_spec tier es g :
  let '(out, g') := filter_entries tier es g in
  exists ds,
    same_turn g g' /\ map fst ds = es /\ out = admitted_of ds /\
    (forall t, decisions g' t = if decide (t = tier) then (decisions g t ++ ds)%list else decisions g t) /\
    Forall (λ d : Entry * bool, d.2 = true -> good (acting g) (audience g) tier d.1) ds /\
    (forall served, labelled served g -> (forall e, e ∈ out -> e ∈ served tier) -> labelled served g').
Proof.
  unfold filter_entries. set (g0 := set_decisions _ g).
  pose proof (filter_loop_spec tier es g0) as H. destruct (filter_loop tier es g0) as [out g'].
  destruct H as (ds&[Ha Hb]&Hm&Ho&Hd&Hf&Hl). exists ds. split; [by split|].
  split; [done|]. split; [done|]. split; [|split; [exact Hf|exact Hl]].
  intros t. rewrite Hd. assert (decisions g0 t = decisions g t) as E; [|by rewrite E].
  unfold g0, decisions, set_decisions. simpl. destruct (decide (t = tier)) as [->|Hne].
  - by rewrite dget_dset_eq.
  - by rewrite dget_dset_ne.
Qed.

(** ** The projection store *)

Lemma projections_for_spec agent tier ids levels t entry level txt :
  (level, txt) ∈ default [] (dget entry (projections_for agent tier ids levels t)) <->
  exists r, r ∈ t /\ pj_agent r = agent /\ pj_tier r = tier /\ pj_entry r = entry /\
    entry ∈ ids /\ level ∈ levels /\ pj_level r = level /\ pj_text r = txt.
Proof.
  set (rows := py_sorted projection_le (filter (λ r, pj_agent r = agent /\ pj_tier r = tier /\
    pj_entry r ∈ ids /\ pj_level r ∈ levels) t)).
  assert (forall rs out, (level, txt) ∈ default [] (dget entry (fold_left (λ out r, dset (pj_entry r)
      (default [] (dget (pj_entry r) out) ++ [(pj_level r, pj_text r)])%list out) rs out)) <->
    (level, txt) ∈ default [] (dget entry out) \/
    exists r, r ∈ rs /\ pj_entry r = entry /\ pj_level r = level /\ pj_text r = txt) as Hfold.
  { induction rs as [|r rs IH]; intros out; cbn [fold_left].
    - split; [auto|]. intros [?|(r&Hr&_)]; [done|]. by apply not_elem_of_nil in Hr.
    - rewrite IH. setoid_rewrite elem_of_cons. destruct (decide (pj_entry r = entry)) as [E|Hne].
      + rewrite E, dget_dset_eq. cbn [from_option id]. rewrite elem_of_app, list_elem_of_singleton. split.
        * intros [[?|[= -> ->]]|(r'&?&?)]; [by left|right; exists r; auto|right; exists r'; auto].
        * intros [?|(r'&[->|?]&?&<-&<-)]; [by left; left|by left; right|right; exists r'; auto].
      + rewrite dget_dset_ne by done. split.
        * intros [?|(r'&?&?)]; [by left|right; exists r'; auto].
        * intros [?|(r'&[->|?]&?&?)]; [by left|done|right; exists r'; auto]. }
  assert (projections_for agent tier ids levels t = [] /\ (ids = [] \/ levels = []) \/
          ((level, txt) ∈ default [] (dget entry (projections_for agent tier ids levels t)) <->
          exists r, r ∈ rows /\ pj_entry r = entry /\ pj_level r = level /\ pj_text r = txt)) as [[-> Hnil]|Hproj].
  { unfold projections_for. destruct ids as [|i ids]; [left; auto|]. destruct levels as [|l levels]; [left; auto|].
    right. fold rows. rewrite (Hfold rows []). simpl. split; [|auto].
    intros [Hn|?]; [by apply not_elem_of_nil in Hn|done]. }
  - simpl. split; [by intros Hn%not_elem_of_nil|]. intros (r&_&_&_&_&Hi&Hl&_).
    destruct Hnil; subst; by apply not_elem_of_nil in Hi || by apply not_elem_of_nil in Hl.
  - rewrite Hproj. unfold rows. setoid_rewrite elem_of_py_sorted. setoid_rewrite list_elem_of_filter. split.
    + intros (r&((?&?&?&?)&?)&<-&<-&?). by exists r.
    + intros (r&?&?&?&<-&?&?&<-&?). exists r. split_and!; done.
Qed.

Lemma best_projection_in c cs : best_projection c cs ∈ c :: cs.
Proof.
  unfold best_projection. revert c. induction cs as [|c' cs IH]; intros c; simpl; [by left|].
  destruct (_ <? _)%Z.
  - right. apply IH.
  - specialize (IH c). apply elem_of_cons in IH as [->|?]; [by left|by do 2 right].
Qed.

Lemma best_projection_max c cs d :
  d ∈ c :: cs -> (level_rank d.1 <= level_rank (best_projection c cs).1)%Z.
Proof.
  unfold best_projection. revert c d. induction cs as [|c' cs IH]; intros c d Hd; simpl.
  - apply list_elem_of_singleton in Hd as ->. lia.
  - assert (forall x, x = c \/ x = c' -> (level_rank x.1 <= level_rank (fold_left
      (λ best c, if (level_rank best.1 <? level_rank c.1)%Z then c else best) cs
      (if (level_rank c.1 <? level_rank c'.1)%Z then c' else c)).1)%Z) as Hx.
    { intros x Hx. destruct (Z.ltb_spec (level_rank c.1) (level_rank c'.1)).
      - specialize (IH c' c' ltac:(left)). destruct Hx as [->| ->]; lia.
      - specialize (IH c c ltac:(left)). destruct Hx as [->| ->]; lia. }
    apply elem_of_cons in Hd as [->|Hd]; [by apply Hx; left|].
    apply elem_of_cons in Hd as [->|Hd]; [by apply Hx; right|]. apply IH. by right.
Qed.

(** The stand-in of [e] drawn from the table. *)
Definition projection_of (agent : string) (t : projection_table) (e e' : Entry) : Prop :=
  exists r, r ∈ t /\ pj_agent r = agent /\ pj_tier r = ENTRY_TIER_EPISODE /\
    interaction_id e = Some (pj_entry r) /\ e' = as_projection e (pj_level r) (pj_text r).

(** What [rebuild_loop] started in [g] on the decisions [ds] ends with. *)
Record rebuilt (agent : string) (t : projection_table) (tier : string) (ds : list (Entry * bool))
    (g : TurnInjectionGate) (out : list Entry) (served : bool) (g' : TurnInjectionGate) : Prop := {
  rb_same : same_turn g g';
  rb_decisions : decisions_of g' = decisions_of g;
  rb_good : Forall (good (acting g) (audience g) tier) out;
  rb_from x : x ∈ out -> (x, true) ∈ ds \/ exists e, (e, false) ∈ ds /\ projection_of agent t e x;
  rb_kept x : (x, true) ∈ ds -> x ∈ out;
  rb_unserved : served = false -> out = admitted_of ds;
  rb_labelled s : labelled s g -> (forall x, x ∈ out -> x ∈ s tier) -> labelled s g';
}.

Lemma rb_from_cons agent t ds d (out : list Entry) :
  (forall x, x ∈ out -> (x, true) ∈ ds \/ exists e, (e, false) ∈ ds /\ projection_of agent t e x) ->
  forall x, x ∈ out ->
    (x, true) ∈ d :: ds \/ exists e, (e, false) ∈ d :: ds /\ projection_of agent t e x.
Proof. intros H x [?|(e&?&?)]%H; [left; by right|right; exists e; split; [by right|done]]. Qed.

Lemma rebuilt_keep agent t tier e ds g out served g' :
  good (acting g) (audience g) tier e -> rebuilt agent t tier ds g out served g' ->
  rebuilt agent t tier ((e, true) :: ds) g (e :: out) served g'.
Proof.
  intros Hd [Hs Hdec Hf Hfrom Hkeep Hno Hlab]. split; try done.
  - by constructor.
  - intros x [->|Hx]%elem_of_cons; [left; left|by eapply rb_from_cons].
  - intros x [[= ->]|Hx]%elem_of_cons; [left|right; auto].
  - intros H. simpl. f_equal. auto.
  - intros s Hl Hin. apply Hlab; [done|]. intros x Hx. apply Hin. by right.
Qed.

(** The entry is skipped, with the gate moved on to [g1]. *)
Lemma rebuilt_skip agent t tier e ds g g1 out served g' :
  same_turn g g1 -> decisions_of g1 = decisions_of g -> passed_levels g1 = passed_levels g ->
  rebuilt agent t tier ds g1 out served g' -> rebuilt agent t tier ((e, false) :: ds) g out served g'.
Proof.
  intros Hs1 Hdec1 Hp1 [Hs Hdec Hf Hfrom Hkeep Hno Hlab].
  destruct Hs1 as [Ea Eb]. rewrite Ea, Eb in Hf. split; try done.
  - destruct Hs. split; congruence.
  - congruence.
  - by apply rb_from_cons.
  - intros x [[=]|Hx]%elem_of_cons. auto.
  - intros s Hl. apply Hlab. by apply (labelled_mono s s g).
Qed.

(** A stand-in is served. *)
Lemma rebuilt_serve agent t tier e ds g g1 level txt out served g' :
  same_turn g g1 -> decisions_of g1 = decisions_of g -> passed_levels g1 = passed_levels g ->
  good (acting g) (audience g) tier (as_projection e level txt) ->
  projection_of agent t e (as_projection e level txt) ->
  rebuilt agent t tier ds (set_passed (tier, entry_id e) level g1) out served g' ->
  rebuilt agent t tier ((e, false) :: ds) g (as_projection e level txt :: out) true g'.
Proof.
  intros Hs1 Hdec1 Hp1 Hgood Hproj [Hs Hdec Hf Hfrom Hkeep Hno Hlab].
  destruct Hs1 as [Ea Eb]. simpl in Hf, Hdec. rewrite Ea, Eb in Hf. split; try done.
  - destruct Hs as [Hs Hs']. simpl in Hs, Hs'. split; congruence.
  - congruence.
  - by constructor.
  - intros x [->|Hx]%elem_of_cons; [right; exists e; split; [left|done]|by eapply rb_from_cons].
  - intros x [[=]|Hx]%elem_of_cons. right. auto.
  - intros s Hl Hin. apply Hlab; [|intros x Hx; apply Hin; by right].
    apply (labelled_set s tier (as_projection e level txt) level g1);
      [by apply (labelled_mono s s g)|apply Hin; left|done].
Qed.

Lemma rebuild_loop_spec agent t ids tier ds g out served g' :
  Forall (λ i, i <> "") ids ->
  Forall (λ d : Entry * bool, d.2 = true -> good (acting g) (audience g) tier d.1) ds ->
  rebuild_loop (projections_for agent ENTRY_TIER_EPISODE ids (injectable_levels (acting g)) t)
    tier ds g = (out, served, g') ->
  rebuilt agent t tier ds g out served g'.
Proof.
  intros Hids. set (lv := injectable_levels (acting g)).
  assert (injectable_levels (acting g) = lv) as Hlv by done. clearbody lv.
  revert g Hlv out served g'. induction ds as [|[e ok] ds IH]; intros g Hlv out served g' Hds.
  { intros [= <- <- <-]. by split; try done; intros x Hx; apply not_elem_of_nil in Hx. }
  apply Forall_cons in Hds as [Hd Hds]. simpl in Hd. destruct ok; cbn [rebuild_loop].
  { destruct (rebuild_loop _ tier ds g) as [[out1 served1] g1] eqn:E. intros [= <- <- <-].
    apply rebuilt_keep; [auto|]. by apply IH. }
  assert (forall g1, same_turn g g1 -> decisions_of g1 = decisions_of g ->
    passed_levels g1 = passed_levels g ->
    rebuild_loop (projections_for agent ENTRY_TIER_EPISODE ids lv t) tier ds g1 = (out, served, g') ->
    rebuilt agent t tier ((e, false) :: ds) g out served g') as Hskip.
  { intros g1 Hs1 Hd1 Hp1 E. apply (rebuilt_skip _ _ _ _ _ _ g1); [done..|].
    destruct Hs1 as [Ea Eb]. apply IH; [congruence| |done]. by rewrite Ea, Eb. }
  destruct (audience_terminal g tier (entry_id e)); [by apply Hskip|].
  destruct (default [] _) as [|c cs] eqn:Eav; [by apply Hskip|].
  pose proof (best_projection_in c cs) as Hin. destruct (best_projection c cs) as [level txt].
  rewrite <- Eav in Hin. apply projections_for_spec in Hin as (r&Hr&Hag&Hti&Hen&Hid&Hlev&<-&<-).
  pose proof (judge_audience_spec tier (entry_id e) (pj_level r) (source_channel_id e) g) as Hj.
  destruct (judge_audience _ _ _ _ g) as [[] g1]; destruct Hj as (Hs1&Hdec1&Hp1&Hok); [|by apply Hskip].
  destruct (rebuild_loop _ tier ds _) as [[out1 served1] g2] eqn:E. intros [= <- <- <-].
  apply (rebuilt_serve _ _ _ _ _ _ g1 _ _ _ served1); [done..| | |].
  - split; [|by apply Hok]. rewrite <- Hlv in Hlev. by apply injectable_spec in Hlev.
  - exists r. split_and!; try done. rewrite Hen. destruct (interaction_id e) as [i|]; [done|].
    rewrite Forall_forall in Hids. by specialize (Hids "" Hid).
  - destruct Hs1 as [Ea Eb]. apply IH; [simpl; congruence| |done]. simpl. by rewrite Ea, Eb.
Qed.

(** ** The whole turn *)

Lemma withheld_ids_nonempty g : Forall (λ i, i <> "") (withheld_ids g).
Proof.
  apply Forall_forall. intros i Hi. unfold withheld_ids in Hi.
  rewrite elem_of_py_sorted, elem_of_remove_dups, list_elem_of_bind in Hi.
  destruct Hi as (tier&Hi&_). apply list_elem_of_omap in Hi as (d&_&Hi).
  destruct (_ || _); [done|]. unfold interaction_key in Hi.
  destruct (interaction_id d.1) as [j|]; [|done]. destruct (truthy j) eqn:E; simplify_eq.
  by apply truthy_true.
Qed.

Definition tier_entries (c : Candidates) (tier : string) : list Entry :=
  if String.eqb tier "channel_history" then c_channel_history c
  else if String.eqb tier "episodic" then c_episodic c
  else if String.eqb tier "facts" then c_facts c
  else if String.eqb tier "notes" then c_notes c else [].

(** What a tier's served list may hold, given the tier's decisions. *)
Definition tier_post (agent : string) (rows : result string projection_table) (g : TurnInjectionGate)
    (tier : string) (ds : list (Entry * bool)) (out : list Entry) : Prop :=
  Forall (good (acting g) (audience g) tier) out /\
  (forall x, x ∈ out -> (x, true) ∈ ds \/
     exists t e, rows = Ok t /\ (e, false) ∈ ds /\ projection_of agent t e x) /\
  (forall x, x ∈ admitted_of ds -> x ∈ out).

Lemma tier_post_admitted agent rows g tier ds :
  Forall (λ d : Entry * bool, d.2 = true -> good (acting g) (audience g) tier d.1) ds ->
  tier_post agent rows g tier ds (admitted_of ds).
Proof.
  intros Hds. split.
  - apply Forall_forall. intros x Hx%elem_admitted_of. rewrite Forall_forall in Hds.
    by apply (Hds (x, true) Hx).
  - split; [|done]. intros x Hx%elem_admitted_of. by left.
Qed.

Lemma tier_post_rebuild agent t ids tier g now out g' :
  Forall (λ i, i <> "") ids ->
  Forall (λ d : Entry * bool, d.2 = true -> good (acting g) (audience g) tier d.1) (decisions g tier) ->
  now = admitted_of (decisions g tier) ->
  rebuild (projections_for agent ENTRY_TIER_EPISODE ids (injectable_levels (acting g)) t) tier now g = (out, g') ->
  same_turn g g' /\ decisions_of g' = decisions_of g /\
  tier_post agent (Ok t) g tier (decisions g tier) out /\
  (forall s, labelled s g -> (forall x, x ∈ out -> x ∈ s tier) -> labelled s g').
Proof.
  intros Hids Hds -> Hr. unfold rebuild in Hr.
  destruct (rebuild_loop _ tier _ g) as [[o served] g1] eqn:E.
  apply rebuild_loop_spec in E as [Hs Hdec Hf Hfrom Hkeep Hno Hlab]; [|done..].
  injection Hr as <- <-. assert ((if served then o else admitted_of (decisions g tier)) = o) as ->.
  { destruct served; [done|]. by rewrite Hno. }
  split; [done|]. split; [done|]. split; [|done]. split; [done|]. split.
  - intros x Hx. destruct (Hfrom x Hx) as [?|(e&?&?)]; [by left|right; exists t, e; done].
  - intros x Hx%elem_admitted_of. auto.
Qed.

Lemma apply_projections_spec agent rows ch ep g ch' ep' g' :
  (forall tier, tier ∈ EPISODE_TIERS ->
     Forall (λ d : Entry * bool, d.2 = true -> good (acting g) (audience g) tier d.1) (decisions g tier)) ->
  ch = admitted_of (decisions g "channel_history") -> ep = admitted_of (decisions g "episodic") ->
  apply_episode_projections agent rows ch ep g = (ch', ep', g') ->
  same_turn g g' /\ decisions_of g' = decisions_of g /\
  tier_post agent rows g "channel_history" (decisions g "channel_history") ch' /\
  tier_post agent rows g "episodic" (decisions g "episodic") ep' /\
  (forall s, labelled s g -> (forall x, x ∈ ch' -> x ∈ s "channel_history") ->
     (forall x, x ∈ ep' -> x ∈ s "episodic") -> labelled s g').
Proof.
  intros Hds -> -> Ha.
  assert (Forall (λ d : Entry * bool, d.2 = true -> good (acting g) (audience g) "channel_history" d.1)
    (decisions g "channel_history")) as H1 by (apply Hds; left).
  assert (Forall (λ d : Entry * bool, d.2 = true -> good (acting g) (audience g) "episodic" d.1)
    (decisions g "episodic")) as H2 by (apply Hds; right; left).
  pose proof (withheld_ids_nonempty g) as Hids. unfold apply_episode_projections in Ha.
  assert (forall o1 o2 g1, (admitted_of (decisions g "channel_history"), admitted_of (decisions g "episodic"), g)
      = (o1, o2, g1) -> same_turn g g1 /\ decisions_of g1 = decisions_of g /\
    tier_post agent rows g "channel_history" (decisions g "channel_history") o1 /\
    tier_post agent rows g "episodic" (decisions g "episodic") o2 /\
    (forall s, labelled s g -> (forall x, x ∈ o1 -> x ∈ s "channel_history") ->
     (forall x, x ∈ o2 -> x ∈ s "episodic") -> labelled s g1)) as Hsame.
  { intros o1 o2 g1 [= <- <- <-]. split_and!; try done; by apply tier_post_admitted. }
  destruct (withheld_ids g) as [|i ids]; [by apply Hsame|].
  destruct rows as [t|]; [|by apply Hsame].
  set (av := projections_for _ _ _ _ t) in *.
  destruct av as [|a av'] eqn:Eav; [by apply Hsame|]. rewrite <- Eav in Ha.
  destruct (rebuild av "channel_history" _ g) as [o1 g1] eqn:E1.
  apply tier_post_rebuild in E1 as ([Ea Eb]&Hd1&Hp1&Hl1); [|done..].
  destruct (rebuild av "episodic" _ g1) as [o2 g2] eqn:E2.
  assert (decisions g1 "episodic" = decisions g "episodic") as Ed by (unfold decisions; by rewrite Hd1).
  unfold av in E2. rewrite <- Ea in E2. apply tier_post_rebuild in E2 as ([Ea' Eb']&Hd2&Hp2&Hl2);
    [|done|by rewrite Ed, Ea, Eb|by rewrite Ed].
  injection Ha as <- <- <-. split; [split; congruence|]. split; [congruence|]. split; [done|].
  split; [|intros s Hl Hc He; auto]. unfold tier_post in *. by rewrite Ea, Eb, Ed in Hp2.
Qed.

(** A served entry, against the candidates it came from. *)
Definition served_ok (agent : string) (rows : result string projection_table) (act : option string)
    (aud : option TurnAudience) (tier : string) (cands : list Entry) (x : Entry) : Prop :=
  good act aud tier x /\
  (x ∈ cands \/ tier ∈ EPISODE_TIERS /\
     exists t e, rows = Ok t /\ e ∈ cands /\ projection_of agent t e x).

Lemma tier_post_served agent rows g tier ds out cands x :
  map fst ds = cands -> tier ∈ EPISODE_TIERS ->
  tier_post agent rows g tier ds out -> x ∈ out ->
  served_ok agent rows (acting g) (audience g) tier cands x.
Proof.
  intros <- Ht (Hf&Hfrom&_) Hx. rewrite Forall_forall in Hf. split; [auto|].
  destruct (Hfrom x Hx) as [H|(t&e&->&H&Hp)].
  - left. apply list_elem_of_fmap. by exists (x, true).
  - right. split; [done|]. exists t, e. split; [done|]. split; [|done].
    apply list_elem_of_fmap. by exists (e, false).
Qed.

Lemma admitted_served agent rows g tier ds cands x :
  map fst ds = cands ->
  Forall (λ d : Entry * bool, d.2 = true -> good (acting g) (audience g) tier d.1) ds ->
  x ∈ admitted_of ds -> served_ok agent rows (acting g) (audience g) tier cands x.
Proof.
  intros <- Hf Hx%elem_admitted_of. rewrite Forall_forall in Hf. split.
  - by apply (Hf (x, true) Hx).
  - left. apply list_elem_of_fmap. by exists (x, true).
Qed.

Lemma labelled_new s act aud : labelled s (new_gate act aud).
Proof. intros t id l. done. Qed.

(** The audience of the turn. *)
Definition turn_audience (fetcher : option Fetcher) (roster : option ChannelRoster) (md : string)
    (e : AgentEvent) (c : Candidates) : option TurnAudience :=
  resolve_turn_audience fetcher roster md (channel_id e) (acting_classification_for_event e)
    [("channel_history", c_channel_history c); ("episodic", c_episodic c); ("facts", c_facts c)].

Lemma gate_turn_spec agent fetcher roster md rows e c c' g :
  gate_turn agent fetcher roster md rows e c = (c', g) ->
  let act := acting_classification_for_event e in
  let aud := turn_audience fetcher roster md e c in
  acting g = act /\ audience g = aud /\
  (forall tier x, x ∈ tier_entries c' tier ->
     served_ok agent rows act aud tier (tier_entries c tier) x) /\
  labelled (tier_entries c') g /\
  (forall tier, tier ∈ MANIFEST_TIERS ->
     map fst (decisions g tier) = tier_entries c tier /\
     Forall (λ d : Entry * bool, d.2 = true -> good act aud tier d.1) (decisions g tier)).
Proof.
  cbv zeta. unfold gate_turn. fold (turn_audience fetcher roster md e c).
  set (act := acting_classification_for_event e). set (aud := turn_audience fetcher roster md e c).
  set (g0 := new_gate act aud).
  assert (forall t, decisions g0 t = []) as Hd0 by done.
  pose proof (filter_entries_spec "channel_history" (c_channel_history c) g0) as H.
  destruct (filter_entries "channel_history" _ g0) as [ch g1].
  destruct H as (d1&[A1 B1]&M1&->&D1&F1&L1). simpl in A1, B1.
  pose proof (filter_entries_spec "episodic" (c_episodic c) g1) as H.
  destruct (filter_entries "episodic" _ g1) as [ep g2].
  destruct H as (d2&[A2 B2]&M2&->&D2&F2&L2). rewrite A1, B1 in *.
  pose proof (filter_entries_spec "facts" (c_facts c) g2) as H.
  destruct (filter_entries "facts" _ g2) as [fa g3].
  destruct H as (d3&[A3 B3]&M3&->&D3&F3&L3). rewrite A2, B2 in *.
  pose proof (filter_entries_spec "notes" (c_notes c) g3) as H.
  destruct (filter_entries "notes" _ g3) as [no g4].
  destruct H as (d4&[A4 B4]&M4&->&D4&F4&L4). rewrite A3, B3 in *.
  destruct (apply_episode_projections agent rows _ _ g4) as [[ch' ep'] g5] eqn:Ea.
  assert (decisions g4 "channel_history" = d1) as E1.
  { rewrite D4, D3, D2, D1, Hd0. done. }
  assert (decisions g4 "episodic" = d2) as E2.
  { rewrite D4, D3, D2, D1, Hd0. done. }
  apply apply_projections_spec in Ea as ([A5 B5]&D5&P1&P2&L5); [|
    |by rewrite E1|by rewrite E2].
  2: { intros tier Ht. unfold EPISODE_TIERS in Ht. rewrite A4, B4.
       apply elem_of_cons in Ht as [->|Ht]; [by rewrite E1|].
       apply list_elem_of_singleton in Ht as ->. by rewrite E2. }
  rewrite A4, B4 in *. intros [= <- <-].
  split; [congruence|]. split; [congruence|]. rewrite E1 in P1. rewrite E2 in P2. split.
  - intros tier x. unfold tier_entries.
    destruct (String.eqb_spec tier "channel_history") as [->|].
    { intros Hx. rewrite <- A4, <- B4. eapply tier_post_served; [exact M1|left|exact P1|exact Hx]. }
    destruct (String.eqb_spec tier "episodic") as [->|].
    { intros Hx. rewrite <- A4, <- B4. eapply tier_post_served; [exact M2|right; left|exact P2|exact Hx]. }
    destruct (String.eqb_spec tier "facts") as [->|]; simpl.
    { intros Hx. rewrite <- A4, <- B4. eapply admitted_served; [exact M3|by rewrite A4, B4|exact Hx]. }
    destruct (String.eqb_spec tier "notes") as [->|]; simpl; [|by intros Hn%not_elem_of_nil].
    intros Hx. rewrite <- A4, <- B4. eapply admitted_served; [exact M4|by rewrite A4, B4|exact Hx].
  - split.
    + destruct P1 as (_&_&K1), P2 as (_&_&K2).
      apply L5; [|done..]. apply L4; [|done]. apply L3; [|done]. apply L2; [|auto].
      apply L1; [apply labelled_new|auto].
    + assert (forall t, decisions g5 t = decisions g4 t) as E5 by (intros t; unfold decisions; by rewrite D5).
      intros tier Ht. rewrite E5. unfold MANIFEST_TIERS in Ht. rewrite !elem_of_cons in Ht.
      destruct Ht as [->|[->|[->|[->|Hn]]]]; [| | | |by apply not_elem_of_nil in Hn].
      * by rewrite E1.
      * rewrite D4, D3, D2, D1, Hd0. by split.
      * by rewrite E2.
      * rewrite D4, D3, D2, D1, Hd0. by split.
Qed.

(** ** Theorems *)

(** C10. No entry above the acting classification reaches the prompt, in any
    tier, verbatim or as a stand-in, whatever the store holds; in live mode the
    acting room adds nobody to the room of a judged entry; and everything
    served is a candidate, or an episode's stored projection for this agent. *)
Theorem injection_boundary agent fetcher roster md rows e c tier x :
  let act := acting_classification_for_event e in
  x ∈ tier_entries (fst (gate_turn agent fetcher roster md rows e c)) tier ->
  (exists r, entry_rank_or_withhold (protection_level x) = Some r /\ (r <= acting_rank act)%Z) /\
  (forall a level, turn_audience fetcher roster md e c = Some a -> mode a = AUDIENCE_LIVE ->
     protection_level x = Some level ->
     verdict a tier level (source_channel_id x) <> Some WITHHOLD_DISJOINT) /\
  (x ∈ tier_entries c tier \/ tier ∈ EPISODE_TIERS /\
     exists t e0, rows = Ok t /\ e0 ∈ tier_entries c tier /\ projection_of agent t e0 x).
Proof.
  cbv zeta. destruct (gate_turn _ _ _ _ _ _ _) as [c' g] eqn:E.
  apply gate_turn_spec in E as (_&_&Hserved&_&_). intros Hx.
  destruct (Hserved tier x Hx) as ([Hl Ha]&Hfrom). split; [exact Hl|]. split; [|exact Hfrom].
  intros a level Hau Hm Hlev Hv. apply (Ha a level WITHHOLD_DISJOINT); try done.
  - unfold enforcing. by apply String.eqb_eq.
  - left.
Qed.

(** Each line of the injection manifest names an entry that was served and
    that the budget admitted, at the level it was served at: at or below the
    acting classification, the projection's own for a stand-in. *)
Theorem manifest_labels_served agent fetcher roster md rows e c b m :
  let '(c', g) := gate_turn agent fetcher roster md rows e c in
  m ∈ manifest b g ->
  m_tier m ∈ MANIFEST_TIERS /\ m_entry_id m ∈ admissions_by_tier (m_tier m) b /\
  exists x r, x ∈ tier_entries c' (m_tier m) /\ entry_id x = m_entry_id m /\
    protection_level x = Some (m_protection_level m) /\
    entry_rank_or_withhold (Some (m_protection_level m)) = Some r /\
    (r <= acting_rank (acting_classification_for_event e))%Z.
Proof.
  destruct (gate_turn _ _ _ _ _ _ _) as [c' g] eqn:E.
  apply gate_turn_spec in E as (_&_&Hserved&Hlab&_). unfold manifest.
  intros (tier&Hm&Ht)%list_elem_of_bind. apply list_elem_of_omap in Hm as (id&Hid&Hm).
  destruct (dget (tier, id) (passed_levels g)) as [level|] eqn:El; [|done].
  injection Hm as <-. simpl. split; [done|]. split; [done|].
  destruct (Hlab tier id level El) as (x&Hx&Hxid&Hxl).
  destruct (Hserved tier x Hx) as ([(r&Hr&Hle) _]&_). exists x, r. rewrite Hxl in Hr. done.
Qed.

(** The SQL predicate of a gated read: the stored level is in the IN-list. *)
Definition in_list (act : option string) (e : Entry) : Prop :=
  exists l, protection_level e = Some l /\ l ∈ injectable_levels act.

#[export] Instance in_list_dec act e : Decision (in_list act e).
Proof.
  unfold in_list. destruct (protection_level e) as [l|].
  - destruct (decide (l ∈ injectable_levels act)) as [H|H]; [left; eauto|right].
    intros (l'&[= <-]&?). done.
  - right. by intros (?&?&_).
Defined.

Lemma admit_no_audience tier e g :
  audience g = None -> fst (admit_entry tier e g) = bool_decide (in_list (acting g) e).
Proof.
  intros Ha. unfold admit_entry, judge_audience.
  assert (in_list (acting g) e <-> exists l r, protection_level e = Some l /\
    entry_rank_or_withhold (Some l) = Some r /\ (r <= acting_rank (acting g))%Z) as Hin.
  { unfold in_list. setoid_rewrite injectable_spec.
    split; [intros (l&?&r&?&?)|intros (l&r&?&?&?)]; eauto. }
  symmetry. destruct (protection_level e) as [l|] eqn:El; [|].
  - destruct (entry_rank_or_withhold (Some l)) as [r|] eqn:Er.
    + destruct (Z.ltb_spec (acting_rank (acting g)) r) as [Hlt|Hle].
      * apply bool_decide_eq_false. intros (l'&r'&[= <-]&Hr'&Hle)%Hin. simplify_eq. lia.
      * rewrite Ha. cbn [fst]. apply bool_decide_eq_true, Hin. eauto.
    + apply bool_decide_eq_false. intros (l'&r'&[= <-]&Hr'&_)%Hin. congruence.
  - apply bool_decide_eq_false. intros (l'&r'&?&_)%Hin. done.
Qed.

(** Without an audience check the gate admits exactly the rows the SQL read
    surfaces select: the Python rank comparison and the IN-list agree on every
    level, corrupted ones included. *)
Theorem gate_agrees_with_in_list tier entries g :
  audience g = None ->
  fst (filter_entries tier entries g) = filter (in_list (acting g)) entries.
Proof.
  unfold filter_entries. intros Ha.
  set (g0 := set_decisions _ g). assert (audience g0 = None /\ acting g0 = acting g) as [Ha0 <-] by done.
  clearbody g0. clear Ha g. revert g0 Ha0. induction entries as [|e es IH]; intros g Ha; simpl; [done|].
  pose proof (admit_no_audience tier e g Ha) as Hok. pose proof (admit_spec tier e g) as Hs.
  destruct (admit_entry tier e g) as [ok g1]. destruct Hs as ([Ea Eb]&_). simpl in Hok. subst ok.
  specialize (IH (record_decision tier (e, bool_decide (in_list (acting g) e)) g1)).
  change (acting (record_decision _ _ g1)) with (acting g1) in IH. rewrite Ea in IH.
  destruct (filter_loop tier es _) as [out g2]. simpl in *. rewrite filter_cons.
  rewrite IH by (simpl; congruence). by repeat case_decide || case_bool_decide.
Qed.

(** Where the audience check is skipped it could not have spoken: at the
    public floor no admitted entry gets a verdict from any audience. *)
Theorem audience_skip_sound fetcher roster md channel act cands a tier e g :
  acting_rank act = 0%Z ->
  resolve_turn_audience fetcher roster md channel act cands = None /\
  let g' := mkGate act (Some a) (audience_records g) (terminal g) (withheld g) (unknown g)
              (passed_levels g) (decisions_of g) in
  fst (admit_entry tier e g') = bool_decide (in_list act e) /\
  audience_records (snd (admit_entry tier e g')) = audience_records g.
Proof.
  intros Hact. split.
  { unfold resolve_turn_audience. rewrite Hact. by destruct (String.eqb md AUDIENCE_OFF). }
  cbv zeta. set (g1 := mkGate act None (audience_records g) (terminal g) (withheld g) (unknown g)
    (passed_levels g) (decisions_of g)).
  pose proof (admit_no_audience tier e g1 eq_refl) as H1. change (acting g1) with act in H1.
  rewrite <- H1. clear H1.
  unfold admit_entry, judge_audience. simpl. rewrite Hact.
  destruct (entry_rank_or_withhold (protection_level e)) as [r|] eqn:Er; [|done].
  destruct (protection_level e) as [l|] eqn:El; [|done].
  destruct (Z.ltb_spec 0 r) as [|Hle]; [done|].
  assert (l = CLASSIFICATION_PUBLIC) as ->.
  { unfold entry_rank_or_withhold, classification_rank in Er. simpl in Er.
    repeat case_decide; simplify_eq; [done|lia..]. }
  unfold verdict. by destruct (negb _).
Qed.

(** When the turn's audience is known and a fetcher is wired, each room that
    can change a verdict is resolved, once: the acting room from the roster and
    every other judged room by one fetch; nothing else is fetched. *)
Theorem audience_resolution_exact fetch r md channel act cands a :
  roster_channel r = channel -> channel <> "" ->
  resolve_turn_audience (Some fetch) (Some r) md (Some channel) act cands = Some a ->
  acting_members a = Some (member_ids r) /\
  (forall tier es e room, (tier, es) ∈ cands -> e ∈ es -> level_ok act e ->
     protection_level e <> Some CLASSIFICATION_PUBLIC -> tier ∈ AUDIENCE_TIERS ->
     source_channel_id e = Some room -> room <> "" -> room <> channel ->
     room_members a room = fetch_member_ids (Some fetch) room) /\
  (forall room, room <> channel -> is_Some (dget room (rooms a)) ->
     exists tier es e, (tier, es) ∈ cands /\ e ∈ es /\ judged_room (acting_rank act) tier e = Some room) /\
  fetches a = Z.of_nat (length (filter (λ room, room <> channel)
                                  (distinct_source_rooms cands (acting_rank act)))).
Proof.
  intros Hr Hc Ha. unfold resolve_turn_audience in Ha. destruct (String.eqb md _); [done|].
  destruct (acting_rank act <=? 0)%Z eqn:E0; [done|].
  rewrite Hr, String.eqb_refl in Ha. apply truthy_true in Hc as Ht. rewrite Ht in Ha.
  set (sources := distinct_source_rooms cands (acting_rank act)) in *.
  set (pending := filter _ sources) in Ha. cbv zeta in Ha. injection Ha as <-.
  assert (pending = filter (λ room, room <> channel) sources) as Hp.
  { apply filter_ext_Forall, Forall_forall. intros x _. simpl. by case_decide; split; congruence. }
  assert (forall room, dget room (rooms (mkAudience md (Some channel)
      (fold_left (λ d room, dset room (fetch_member_ids (Some fetch) room) d) pending
         [(channel, Some (member_ids r))]) (Z.of_nat (length pending)) (Z.of_nat (length sources)))) =
    if decide (room ∈ pending) then Some (fetch_member_ids (Some fetch) room)
    else if decide (room = channel) then Some (Some (member_ids r)) else None) as Hget.
  { intros room. cbn [rooms]. by rewrite dget_fold_dset. }
  assert (channel ∉ pending) as Hcp.
  { rewrite Hp. intros [Hn _]%list_elem_of_filter. done. }
  split; [|split; [|split]].
  - unfold acting_members. cbn [acting_channel_id]. rewrite Ht. unfold room_members.
    rewrite Hget. by rewrite decide_False, decide_True.
  - intros tier es e room Hin He (rk&Hrk&Hle) Hpub Htier Hsrc Hne Hnc. unfold room_members.
    rewrite Hget, decide_True; [done|]. rewrite Hp. apply list_elem_of_filter. split; [done|].
    apply elem_distinct_source_rooms. exists tier, es, e. split; [done|]. split; [done|].
    unfold judged_room. rewrite bool_decide_true by done. simpl. rewrite bool_decide_false by done.
    rewrite Hrk. destruct (Z.ltb_spec (acting_rank act) rk); [lia|]. rewrite Hsrc.
    apply truthy_true in Hne. by rewrite Hne.
  - intros room Hnc. rewrite Hget. case_decide as Hin; [|rewrite decide_False by done; by intros [? ?]].
    intros _. rewrite Hp in Hin. apply list_elem_of_filter in Hin as [_ Hin].
    by apply elem_distinct_source_rooms.
  - cbn [fetches]. by rewrite Hp.
Qed.

(** A channel-anchored turn publishes only to its own channel: after the
    guard every channel message has the acting channel as target, or no target
    at all; the other actions and the number of actions are unchanged. *)
Theorem single_channel_turn e actions c :
  is_channel_acting (event_type e) = true -> channel_id e = Some c -> c <> "" ->
  let guarded := enforce_single_channel_turn e actions in
  length guarded = length actions /\
  Forall2 (λ a a', a' = a \/ a' = mkAction DO_NOTHING [] /\ action_type a = SEND_CHANNEL_MESSAGE)
    actions guarded /\
  forall a target, a ∈ guarded -> action_type a = SEND_CHANNEL_MESSAGE ->
    dget "channel_id" (act_payload a) = Some (VStr target) -> target <> "" -> target = c.
Proof.
  intros Ht Hc Hne. unfold enforce_single_channel_turn. rewrite Hc, Ht.
  apply truthy_true in Hne. rewrite Hne. simpl. split; [by rewrite length_map|]. split.
  - induction actions as [|a actions IH]; simpl; constructor; [|done].
    unfold guard_action. destruct (action_type a) eqn:E; try (by left).
    destruct (dget _ _) as [[]|]; try (by left). destruct (_ && _); [by right|by left].
  - intros a target (a0&->&_)%list_elem_of_fmap. unfold guard_action.
    destruct (action_type a0) eqn:E; try (intros E'; congruence).
    destruct (dget "channel_id" (act_payload a0)) as [v|] eqn:Ed.
    2: { intros _ E'. congruence. }
    destruct v as [| | | |s| |]; try (intros _ E'; congruence).
    destruct (truthy s && negb (String.eqb s c)) eqn:Eg; [done|].
    intros _ E' Hs. rewrite Ed in E'. injection E' as ->. apply truthy_true in Hs. rewrite Hs in Eg.
    simpl in Eg. apply negb_false_iff in Eg. by apply String.eqb_eq.
Qed.

(** ** The store round trip *)

Definition nonblank (lt : string * string) : bool := truthy (strip lt.2).

Lemma insert_projections_spec agent entry tier at_ ps w t :
  match insert_projections agent entry tier at_ ps w t with
  | (Ok n, t') =>
      n = (w + Z.of_nat (length (filter (λ lt, nonblank lt = true) ps)))%Z /\
      forall r, r ∈ t' <-> r ∈ t \/ exists lt, lt ∈ ps /\ nonblank lt = true /\
        r = mkProjection agent entry tier lt.1 lt.2 at_
  | (Raise err, _) => err = "IntegrityError" /\
      exists pre lt post, ps = (pre ++ lt :: post)%list /\ nonblank lt = true /\
        ((exists r, r ∈ t /\ pj_entry r = entry /\ pj_tier r = tier /\ pj_level r = lt.1) \/
         lt.1 ∈ map fst pre)
  end.
Proof.
  revert w t. induction ps as [|[level txt] ps IH]; intros w t; cbn [insert_projections].
  { split; [simpl; lia|]. intros r. split; [auto|]. intros [?|(lt&Hlt&_)]; [done|by apply not_elem_of_nil in Hlt]. }
  destruct (truthy (strip txt)) eqn:Et; cbn [negb].
  2: { specialize (IH w t). destruct (insert_projections _ _ _ _ ps w t) as [[n|err] t'].
       - destruct IH as [-> IH]. rewrite filter_cons, decide_False by (unfold nonblank; cbn [snd]; congruence).
         split; [done|].
         intros r. rewrite IH. setoid_rewrite elem_of_cons. split.
         + intros [?|(lt&?&?)]; [by left|right; exists lt; auto].
         + intros [?|(lt&[->|?]&Hb&?)]; [by left| |right; by exists lt]. unfold nonblank in Hb. simpl in Hb. congruence.
       - destruct IH as (->&pre&lt&post&->&Hb&H). split; [done|]. exists ((level, txt) :: pre), lt, post.
         split; [done|]. split; [done|]. destruct H as [?|?]; [by left|right; by right]. }
  unfold insert_projection. destruct (existsb _ t) eqn:Ex.
  { split; [done|]. exists [], (level, txt), ps. split; [done|]. split; [done|]. left.
    apply existsb_exists in Ex as (r&Hr%list_elem_of_In&Hk). exists r. split; [done|].
    unfold same_key in Hk. simpl in Hk. rewrite !andb_true_iff, !String.eqb_eq in Hk.
    destruct Hk as [[? ?] ?]. by split_and!. }
  set (row := mkProjection agent entry tier level txt at_).
  specialize (IH (w + 1)%Z (t ++ [row])%list). destruct (insert_projections _ _ _ _ ps _ _) as [[n|err] t'].
  - destruct IH as [-> IH]. rewrite filter_cons, decide_True by done.
    split; [cbn [length]; lia|].
    intros r. rewrite IH, elem_of_app, list_elem_of_singleton. setoid_rewrite elem_of_cons. split.
    + intros [[?| ->]|(lt&?&?)]; [by left|right; exists (level, txt); auto|right; exists lt; auto].
    + intros [?|(lt&[->|?]&?&->)]; [by left; left|by left; right|right; by exists lt].
  - destruct IH as (->&pre&lt&post&->&Hb&H). split; [done|]. exists ((level, txt) :: pre), lt, post.
    split; [done|]. split; [done|]. destruct H as [(r&Hr&?&?&El)|?]; [|right; by right].
    apply elem_of_app in Hr as [?|Hr]; [left; by exists r|]. apply list_elem_of_singleton in Hr as ->.
    right. simpl in El. rewrite <- El. left.
Qed.

(** What is stored is what is served: after an entry's projections are
    replaced, reading them back at any set of levels returns exactly the
    non-blank ones at those levels, no older one survives, no other row changes;
    and storing fails only on a key another agent holds. *)
Theorem projection_roundtrip agent entry tier ps at_ t :
  NoDup (map fst ps) ->
  match replace_entry_projections agent entry tier ps at_ t with
  | (Ok n, t') =>
      n = Z.of_nat (length (filter (λ lt, nonblank lt = true) ps)) /\
      (forall levels level txt,
         (level, txt) ∈ default [] (dget entry (projections_for agent tier [entry] levels t')) <->
         (level, txt) ∈ ps /\ strip txt <> "" /\ level ∈ levels) /\
      (forall r, ~ owned_by agent entry tier r -> (r ∈ t' <-> r ∈ t))
  | (Raise err, _) => err = "IntegrityError" /\
      exists r, r ∈ t /\ pj_entry r = entry /\ pj_tier r = tier /\ pj_agent r <> agent /\
        pj_level r ∈ map fst ps
  end.
Proof.
  intros Hnd. unfold replace_entry_projections.
  pose proof (insert_projections_spec agent entry tier at_ ps 0
    (filter (λ r, ~ owned_by agent entry tier r) t)) as H.
  destruct (insert_projections _ _ _ _ ps 0 _) as [[n|err] t'].
  - destruct H as [-> H]. split; [done|]. split.
    + intros levels level txt. rewrite projections_for_spec. setoid_rewrite H.
      setoid_rewrite list_elem_of_filter. split.
      * intros (r&[[Hno _]|([l x]&Hin&Hb&->)]&Ha&Ht&He&_&Hl&<-&<-).
        -- by destruct Hno.
        -- split; [done|]. split; [by apply truthy_true|done].
      * intros (Hin&Hb&Hl). exists (mkProjection agent entry tier level txt at_).
        split; [right; exists (level, txt); split; [done|split; [by apply truthy_true|done]]|].
        split_and!; try done. left.
    + intros r Hr. rewrite H, list_elem_of_filter. split; [|by left].
      intros [[_ ?]|(lt&_&_&->)]; [done|by destruct Hr].
  - destruct H as (->&pre&lt&post&->&_&H). split; [done|].
    assert (lt.1 ∈ map fst (pre ++ lt :: post)) as Hin.
    { rewrite map_app. apply elem_of_app. right. left. }
    destruct H as [(r&[Hno Hr]%list_elem_of_filter&He&Ht&Hl)|Hdup].
    + exists r. rewrite Hl. split_and!; try done. intros Ha. apply Hno. by split_and!.
    + rewrite map_app in Hnd. apply NoDup_app in Hnd as (_&Hd&_). exfalso. apply (Hd lt.1 Hdup). left.
Qed.

(** ** A concrete turn and the witnesses *)

Definition demo_members (ids : list string) : pyval :=
  VDict [("members", VList (map (λ id, VDict [("id", VStr id)]) ids))].

Definition demo_fetch : Fetcher := λ room,
  if String.eqb room "dm:alice:fox" then Ok (demo_members ["alice"; "fox"]) else Raise "404".

Definition demo_event : AgentEvent :=
  mkEvent CHANNEL_MESSAGE [] (Some "group:standup") (Some "bob") None None 0
    [(CHANNEL_CLASSIFICATION_METADATA_KEY, VStr "internal")].

Definition demo_roster : ChannelRoster := mkRoster "group:standup" {["alice"; "fox"; "bob"]}.

Definition demo_text := "the Zephyr acquisition closes on March 3 and stays between us".

Definition demo_entry (id level source : string) : Entry :=
  mkEntry id (Some ("ix-" +:+ id)) (Some level) (Some source) (Some demo_text).

Definition demo_candidates : Candidates :=
  mkCandidates [] [demo_entry "e1" "internal" "group:standup"; demo_entry "e2" "internal" "dm:alice:fox";
                   demo_entry "e3" "secret" "group:standup"; demo_entry "e4" "restricted" "dm:alice:fox"]
    [demo_entry "f1" "public" "dm:alice:fox"; demo_entry "f2" "corrupt" "group:standup"] [].

Definition demo_rows : projection_table :=
  [mkProjection "fox" "ix-e3" "episode" "public" "a deal was discussed" 0;
   mkProjection "fox" "ix-e3" "episode" "internal" "a deal closes in spring" 0;
   mkProjection "fox" "ix-e4" "episode" "internal" "alice flagged a decision" 0].

Definition demo_turn : Candidates * TurnInjectionGate :=
  gate_turn "fox" (Some demo_fetch) (Some demo_roster) AUDIENCE_LIVE (Ok demo_rows) demo_event demo_candidates.

(** Verbatim at the acting level, no DM entry in a room with somebody new, the
    best projection in the place of the secret. *)
Example demo_served :
  map (λ e, (entry_id e, protection_level e, content e)) (c_episodic (fst demo_turn)) =
    [("e1", Some "internal", Some demo_text); ("e3", Some "internal", Some "a deal closes in spring")] /\
  map entry_id (c_facts (fst demo_turn)) = ["f1"].
Proof. by vm_compute. Qed.

Lemma demo_e1_served : demo_entry "e1" "internal" "group:standup" ∈ tier_entries (fst demo_turn) "episodic".
Proof.
  replace (tier_entries (fst demo_turn) "episodic") with
    [demo_entry "e1" "internal" "group:standup";
     as_projection (demo_entry "e3" "secret" "group:standup") "internal" "a deal closes in spring"]
    by (by vm_compute).
  left.
Qed.

Lemma injection_boundary_witness :
  exists r, entry_rank_or_withhold (Some "internal") = Some r /\
    (r <= acting_rank (acting_classification_for_event demo_event))%Z.
Proof.
  exact (proj1 (injection_boundary "fox" (Some demo_fetch) (Some demo_roster) AUDIENCE_LIVE (Ok demo_rows)
    demo_event demo_candidates "episodic" (demo_entry "e1" "internal" "group:standup") demo_e1_served)).
Defined.

Definition demo_budget : MemoryBudget :=
  match record_admission None "episodic" "e3" 5 (new_budget 100) with
  | Ok (b, _) => b
  | Raise _ => new_budget 100
  end.

Lemma demo_manifest : mkManifest "episodic" "e3" "internal" ∈ manifest demo_budget (snd demo_turn).
Proof.
  replace (manifest demo_budget (snd demo_turn)) with [mkManifest "episodic" "e3" "internal"] by (by vm_compute).
  left.
Qed.

Lemma manifest_labels_served_witness :
  exists x, x ∈ tier_entries (fst demo_turn) "episodic" /\ entry_id x = "e3" /\
    protection_level x = Some "internal".
Proof.
  pose proof (manifest_labels_served "fox" (Some demo_fetch) (Some demo_roster) AUDIENCE_LIVE (Ok demo_rows)
    demo_event demo_candidates demo_budget (mkManifest "episodic" "e3" "internal")) as H.
  change (gate_turn _ _ _ _ _ _ _) with demo_turn in H. pose proof demo_manifest as Hm.
  destruct demo_turn as [c' g]. destruct (H Hm) as (_&_&x&_&Hx&Hid&Hl&_).
  exists x. split; [exact Hx|]. split; [exact Hid|exact Hl].
Defined.

Lemma gate_agrees_with_in_list_witness :
  map entry_id (fst (filter_entries "notes" (c_episodic demo_candidates) (new_gate (Some "internal") None)))
  = ["e1"; "e2"].
Proof.
  rewrite (gate_agrees_with_in_list "notes" (c_episodic demo_candidates) (new_gate (Some "internal") None) eq_refl).
  by vm_compute.
Defined.

Lemma audience_skip_sound_witness :
  resolve_turn_audience (Some demo_fetch) None AUDIENCE_LIVE (Some "c") None
    [("episodic", c_episodic demo_candidates)] = None.
Proof.
  exact (proj1 (audience_skip_sound (Some demo_fetch) None AUDIENCE_LIVE (Some "c") None
    [("episodic", c_episodic demo_candidates)] (mkAudience AUDIENCE_LIVE None [] 0 0) "facts"
    (demo_entry "e" "public" "c") (new_gate None None) eq_refl)).
Defined.

Lemma audience_resolution_exact_witness :
  exists a, resolve_turn_audience (Some demo_fetch) (Some demo_roster) AUDIENCE_LIVE (Some "group:standup")
      (Some "internal") [("episodic", c_episodic demo_candidates)] = Some a /\
    acting_members a = Some (member_ids demo_roster) /\ fetches a = 1%Z.
Proof.
  destruct (resolve_turn_audience (Some demo_fetch) (Some demo_roster) AUDIENCE_LIVE (Some "group:standup")
      (Some "internal") [("episodic", c_episodic demo_candidates)]) as [a|] eqn:E; [|by vm_compute in E].
  destruct (audience_resolution_exact demo_fetch demo_roster AUDIENCE_LIVE "group:standup" (Some "internal")
    [("episodic", c_episodic demo_candidates)] a eq_refl ltac:(discriminate) E) as (Ha&_&_&Hf).
  exists a. split; [done|]. split; [exact Ha|]. rewrite Hf. by vm_compute.
Defined.

Lemma single_channel_turn_witness :
  length (enforce_single_channel_turn demo_event
    [mkAction SEND_CHANNEL_MESSAGE [("channel_id", VStr "group:other")]]) = 1%nat.
Proof.
  exact (proj1 (single_channel_turn demo_event [mkAction SEND_CHANNEL_MESSAGE [("channel_id", VStr "group:other")]]
    "group:standup" eq_refl eq_refl ltac:(discriminate))).
Defined.

Lemma projection_roundtrip_witness :
  ("public", "a deal") ∈ default [] (dget "ix" (projections_for "fox" "episode" ["ix"] ["public"]
    (snd (replace_entry_projections "fox" "ix" "episode" [("public", "a deal")] 0 demo_rows)))).
Proof.
  pose proof (projection_roundtrip "fox" "ix" "episode" [("public", "a deal")] 0 demo_rows
    (NoDup_singleton "public")) as H.
  destruct (replace_entry_projections _ _ _ _ _ _) as [[n|err] t'] eqn:E; [|by vm_compute in E].
  apply (proj1 (proj2 H) ["public"] "public" "a deal"). split; [left|]. split; [done|left].
Defined.
