(* ===== verification/Tripwire.v ===== *)
(** * The leak tripwire at channel egress

    Models [agents/confidentiality_tripwire.py] and
    [persona_runtime/tripwire_watch.py]: the fingerprint of the withheld
    entries and its match against an outgoing message. A text is Latin-1; its
    case folding is given as code points. The digest ([sha256] in hexadecimal of
    a span's UTF-8) is the parameter [digest]. *)

From stdpp Require Import gmap sets.
From S2P Require Import Prelude PyStr PyDict PyValue PersonaEvents Classification Audience InjectionGate.
Local Open Scope string_scope.

Definition TRIPWIRE_SPAN_WORDS : nat := 8.

(** [str.casefold] of one Latin-1 character. *)
Definition casefold_char (c : Ascii.ascii) : list N := fold_cp (code c).

Fixpoint casefold (s : string) : list N :=
  match s with EmptyString => [] | String c s => casefold_char c ++ casefold s end%list.

(** [findall]: the maximal runs; [cur] is the run being read. *)
Fixpoint words_from (cur : list N) (cs : list N) : list (list N) :=
  match cs with
  | [] => match cur with [] => [] | _ => [cur] end
  | c :: cs =>
      if is_word c then words_from (cur ++ [c])%list cs
      else match cur with [] => words_from [] cs | _ => cur :: words_from [] cs end
  end.

Definition words (text : string) : list (list N) := words_from [] (casefold text).

(** [words[i : i + n]] for each [i] of [range(len(words) - n + 1)]. *)
Definition windows {A} (n : nat) (ws : list A) : list (list A) :=
  map (λ i, take n (drop i ws)) (seq 0 (length ws + 1 - n)).

Fixpoint join_space (ws : list (list N)) : list N :=
  match ws with
  | [] => []
  | [w] => w
  | w :: ws => (w ++ 32%N :: join_space ws)%list
  end.

(** ** The watch *)

Definition TIER_CONTENT_ATTRS := ["channel_history"; "facts"; "episodic"; "notes"].
Definition UNKNOWN_LEVEL := "unknown".

Record TripwireWatchEntry := mkWatchEntry {
  w_tier : string;
  w_entry_id : string;
  w_protection_level : string;
  w_span_hashes : gset string;
}.

Record TripwireWatch := mkWatch { watch_acting : option string; watch_entries : list TripwireWatchEntry }.

Record TripwireHit := mkHit { hit_entry : TripwireWatchEntry; matched_spans : Z }.

Section tripwire.
Context (digest : list N -> string).

Definition span_hashes (text : string) : gset string :=
  let ws := words text in
  if (length ws <? TRIPWIRE_SPAN_WORDS)%nat then ∅
  else list_to_set (map (λ w, digest (join_space w)) (windows TRIPWIRE_SPAN_WORDS ws)).

Definition watch_entry (g : TurnInjectionGate) (tier : string) (d : Entry * bool) :
    option TripwireWatchEntry :=
  let '(e, admitted) := d in
  if admitted then None
  else if audience_terminal g tier (entry_id e) then None
  else
    match content e with
    | None => None
    | Some txt =>
        let hashes := span_hashes txt in
        if decide (hashes = ∅) then None
        else
          let level := match entry_rank_or_withhold (protection_level e), protection_level e with
                       | Some _, Some l => l
                       | _, _ => UNKNOWN_LEVEL
                       end in
          Some (mkWatchEntry tier (entry_id e) level hashes)
    end.

Definition build_tripwire_watch (g : TurnInjectionGate) : option TripwireWatch :=
  match (tier ← TIER_CONTENT_ATTRS; omap (watch_entry g tier) (decisions g tier)) with
  | [] => None
  | entries => Some (mkWatch (acting g) entries)
  end.

Definition find_tripwire_hits (w : TripwireWatch) (msg : string) : list TripwireHit :=
  let hashes := span_hashes msg in
  if decide (hashes = ∅) then []
  else omap (λ e, let matched := Z.of_nat (size (w_span_hashes e ∩ hashes)) in
                  if (matched =? 0)%Z then None else Some (mkHit e matched)) (watch_entries w).

(** The audit records of one outgoing message. *)
Definition run_channel_message_tripwire (w : option TripwireWatch) (msg : string) : list TripwireHit :=
  match w with
  | None => []
  | Some w =>
      match watch_entries w with
      | [] => []
      | _ => if truthy msg then find_tripwire_hits w msg else []
      end
  end.

(** ** Lemmas *)

(** The texts share a run of [n] consecutive words. *)
Definition share_span (n : nat) (a b : string) : Prop :=
  exists span pre post pre' post',
    length span = n /\ words a = (pre ++ span ++ post)%list /\ words b = (pre' ++ span ++ post')%list.

Lemma elem_windows {A} n (pre span post : list A) :
  length span = n -> span ∈ windows n (pre ++ span ++ post)%list.
Proof.
  intros Hl. unfold windows. apply list_elem_of_fmap. exists (length pre). split.
  - rewrite drop_app_length. rewrite <- Hl. by rewrite take_app_length.
  - apply elem_of_seq. rewrite !length_app. lia.
Qed.

Lemma windows_elem {A} n (w ws : list A) :
  w ∈ windows n ws -> exists pre post, ws = (pre ++ w ++ post)%list.
Proof.
  unfold windows. intros (i&->&_)%list_elem_of_fmap. exists (take i ws), (drop n (drop i ws)).
  by rewrite take_drop, take_drop.
Qed.

Lemma span_hashes_in text span pre post :
  length span = TRIPWIRE_SPAN_WORDS -> words text = (pre ++ span ++ post)%list ->
  digest (join_space span) ∈ span_hashes text.
Proof.
  intros Hl Hw. unfold span_hashes. cbv zeta. rewrite Hw.
  destruct (Nat.ltb_spec (length (pre ++ span ++ post)) TRIPWIRE_SPAN_WORDS) as [Hlt|_].
  - rewrite !length_app in Hlt. lia.
  - apply elem_of_list_to_set, list_elem_of_fmap. exists span. split; [done|]. by apply elem_windows.
Qed.

Lemma span_hashes_elem text h :
  h ∈ span_hashes text -> exists span pre post, length span = TRIPWIRE_SPAN_WORDS /\
    words text = (pre ++ span ++ post)%list /\ h = digest (join_space span).
Proof.
  unfold span_hashes. cbv zeta. destruct (Nat.ltb_spec (length (words text)) TRIPWIRE_SPAN_WORDS) as [_|Hge].
  { by intros Hn%not_elem_of_empty. }
  intros (span&->&Hs)%elem_of_list_to_set%list_elem_of_fmap.
  unfold windows in Hs. apply list_elem_of_fmap in Hs as (i&->&Hi%elem_of_seq).
  exists (take TRIPWIRE_SPAN_WORDS (drop i (words text))), (take i (words text)),
    (drop TRIPWIRE_SPAN_WORDS (drop i (words text))).
  split; [rewrite length_take, length_drop; lia|]. split; [|done]. by rewrite take_drop, take_drop.
Qed.

(** The level an entry is reported at: its own where that is a known one. *)
Definition level_reported (e : Entry) (level : string) : Prop :=
  match entry_rank_or_withhold (protection_level e) with
  | Some _ => protection_level e = Some level
  | None => level = UNKNOWN_LEVEL
  end.

Lemma watched_level e :
  level_reported e (match entry_rank_or_withhold (protection_level e), protection_level e with
                    | Some _, Some l => l | _, _ => UNKNOWN_LEVEL end).
Proof. unfold level_reported. destruct (protection_level e) as [l|]; [|done]. by destruct (entry_rank_or_withhold (Some l)). Qed.

Lemma run_hit g e tier txt msg :
  (e, false) ∈ decisions g tier -> tier ∈ TIER_CONTENT_ATTRS ->
  audience_terminal g tier (entry_id e) = false -> content e = Some txt ->
  share_span TRIPWIRE_SPAN_WORDS txt msg ->
  exists h, h ∈ run_channel_message_tripwire (build_tripwire_watch g) msg /\
    w_tier (hit_entry h) = tier /\ w_entry_id (hit_entry h) = entry_id e /\
    level_reported e (w_protection_level (hit_entry h)) /\ (0 < matched_spans h)%Z.
Proof.
  intros Hin Ht Hterm Hc (span&pre&post&pre'&post'&Hl&Hw&Hw').
  pose proof (span_hashes_in txt span pre post Hl Hw) as H1.
  pose proof (span_hashes_in msg span pre' post' Hl Hw') as H2.
  assert (exists we, watch_entry g tier (e, false) = Some we /\ w_tier we = tier /\
    w_entry_id we = entry_id e /\ level_reported e (w_protection_level we) /\ w_span_hashes we = span_hashes txt) as (we&Hwe&Hwt&Hwi&Hwl&Hwh).
  { unfold watch_entry. rewrite Hterm, Hc. cbv zeta. rewrite decide_False by set_solver.
    eexists. split; [done|]. split; [done|]. split; [done|]. split; [apply watched_level|done]. }
  unfold build_tripwire_watch.
  assert (we ∈ (tier ← TIER_CONTENT_ATTRS; omap (watch_entry g tier) (decisions g tier))) as Hwin.
  { apply list_elem_of_bind. exists tier. split; [|done]. apply list_elem_of_omap. by exists (e, false). }
  destruct (tier ← TIER_CONTENT_ATTRS; omap _ _) as [|we0 wes] eqn:Ew; [by apply not_elem_of_nil in Hwin|].
  cbn [run_channel_message_tripwire watch_entries].
  assert (truthy msg = true) as ->.
  { apply truthy_true. intros ->. destruct pre', span; done. }
  unfold find_tripwire_hits. cbv zeta. rewrite decide_False by set_solver. cbn [watch_entries].
  assert (Z.of_nat (size (w_span_hashes we ∩ span_hashes msg)) <> 0)%Z as Hne.
  { rewrite Hwh. intros Hz. assert (span_hashes txt ∩ span_hashes msg ≡ ∅) as He.
    { apply size_empty_iff. lia. }
    set_solver. }
  exists (mkHit we (Z.of_nat (size (w_span_hashes we ∩ span_hashes msg)))). split; [|simpl; lia || split_and!; try done; lia].
  apply list_elem_of_omap. exists we. split; [done|].
  apply Z.eqb_neq in Hne. by rewrite Hne.
Qed.

Lemma hit_sound g msg h :
  h ∈ run_channel_message_tripwire (build_tripwire_watch g) msg ->
  exists e txt s s', (e, false) ∈ decisions g (w_tier (hit_entry h)) /\
    entry_id e = w_entry_id (hit_entry h) /\ level_reported e (w_protection_level (hit_entry h)) /\ content e = Some txt /\
    s ∈ windows TRIPWIRE_SPAN_WORDS (words txt) /\ s' ∈ windows TRIPWIRE_SPAN_WORDS (words msg) /\
    digest (join_space s) = digest (join_space s').
Proof.
  unfold run_channel_message_tripwire, build_tripwire_watch, find_tripwire_hits.
  destruct (tier ← TIER_CONTENT_ATTRS; omap _ _) as [|we0 wes] eqn:Ew; [by intros Hn%not_elem_of_nil|].
  cbn [watch_entries]. destruct (truthy msg); [|by intros Hn%not_elem_of_nil].
  case_decide as Hne; [by intros Hn%not_elem_of_nil|]. cbv zeta.
  intros (we&Hwe&Hh)%list_elem_of_omap. rewrite <- Ew in Hwe.
  destruct (_ =? 0)%Z eqn:Ez; [done|]. injection Hh as <-. cbn [hit_entry].
  apply list_elem_of_bind in Hwe as (tier&Hwe&_). apply list_elem_of_omap in Hwe as ([e b]&Hin&Hwe).
  unfold watch_entry in Hwe. destruct b; [done|]. destruct (audience_terminal _ _ _); [done|].
  destruct (content e) as [txt|] eqn:Ec; [|done]. cbv zeta in Hwe. case_decide; [done|].
  injection Hwe as <-. cbn [w_tier w_entry_id w_protection_level w_span_hashes] in *.
  apply Z.eqb_neq in Ez. assert (exists x, x ∈ span_hashes txt ∩ span_hashes msg) as [x Hx].
  { destruct (set_choose_or_empty (span_hashes txt ∩ span_hashes msg)) as [Hx|Hx]; [done|].
    apply size_empty_iff in Hx. lia. }
  apply elem_of_intersection in Hx as [Hx1 Hx2].
  apply span_hashes_elem in Hx1 as (s&pre&post&Hl&Hw&->).
  apply span_hashes_elem in Hx2 as (s'&pre'&post'&Hl'&Hw'&Hd).
  exists e, txt, s, s'. rewrite Hw, Hw'. split_and!; try done; [apply watched_level|by apply elem_windows..].
Qed.
End tripwire.

(** C36. The tripwire hears every verbatim leak it watches for: if a message
    repeats eight consecutive words of a candidate above the turn's acting
    classification, and the audience check did not also turn that candidate
    away (for its own sake or for its stand-in's), the message is reported against it,
    under its tier and id and at its own level, a level outside the vocabulary reading
    as unknown; and a report always names, in the same terms, a withheld candidate with
    a matching span. *)
Theorem tripwire_catches digest agent fetcher roster md rows ev c tier e txt msg :
  let g := snd (gate_turn agent fetcher roster md rows ev c) in
  let hits := run_channel_message_tripwire digest (build_tripwire_watch digest g) msg in
  (tier ∈ TIER_CONTENT_ATTRS -> e ∈ tier_entries c tier ->
   ~ level_ok (acting_classification_for_event ev) e ->
   audience_terminal g tier (entry_id e) = false -> content e = Some txt ->
   share_span TRIPWIRE_SPAN_WORDS txt msg ->
   exists h, h ∈ hits /\ w_tier (hit_entry h) = tier /\ w_entry_id (hit_entry h) = entry_id e /\
     level_reported e (w_protection_level (hit_entry h)) /\ (0 < matched_spans h)%Z) /\
  (forall h, h ∈ hits -> exists e0 txt0 s s',
     (e0, false) ∈ decisions g (w_tier (hit_entry h)) /\ entry_id e0 = w_entry_id (hit_entry h) /\
     level_reported e0 (w_protection_level (hit_entry h)) /\
     content e0 = Some txt0 /\ s ∈ windows TRIPWIRE_SPAN_WORDS (words txt0) /\
     s' ∈ windows TRIPWIRE_SPAN_WORDS (words msg) /\ digest (join_space s) = digest (join_space s')).
Proof.
  cbv zeta. destruct (gate_turn _ _ _ _ _ _ _) as [c' g] eqn:E. cbn [snd].
  apply gate_turn_spec in E as (_&_&_&_&Hdec). split.
  - intros Ht He Hlev Hterm Hc Hs. destruct (Hdec tier Ht) as [Hm Hf].
    rewrite <- Hm in He. apply list_elem_of_fmap in He as ([e' b]&->&Hin). cbn [fst] in *.
    rewrite Forall_forall in Hf. destruct b.
    { destruct Hlev. by destruct (Hf _ Hin eq_refl). }
    destruct (run_hit digest g e' tier txt msg Hin Ht Hterm Hc Hs) as (h&?&?&?&?&?). by exists h.
  - intros h Hh. by apply hit_sound.
Qed.

(** ** Witness, and a leak the tripwire does not watch for *)

Definition demo_digest (ns : list N) : string := String.string_of_list_ascii (map Ascii.ascii_of_N ns).

Lemma tripwire_catches_witness :
  exists h, h ∈ run_channel_message_tripwire demo_digest (build_tripwire_watch demo_digest (snd demo_turn))
      demo_text /\ w_tier (hit_entry h) = "episodic" /\ w_entry_id (hit_entry h) = "e3" /\
      Some "secret" = Some (w_protection_level (hit_entry h)) /\ (0 < matched_spans h)%Z.
Proof.
  apply (proj1 (tripwire_catches demo_digest "fox" (Some demo_fetch) (Some demo_roster) AUDIENCE_LIVE
    (Ok demo_rows) demo_event demo_candidates "episodic" (demo_entry "e3" "secret" "group:standup")
    demo_text demo_text)).
  - by right; right; left.
  - by right; right; left.
  - intros (r&Hr&Hle). injection Hr as <-. by vm_compute in Hle.
  - by vm_compute.
  - done.
  - exists (take 8 (words demo_text)), [], (drop 8 (words demo_text)), [], (drop 8 (words demo_text)).
    by vm_compute.
Defined.

(** The entry e4 is above the acting level and its text is repeated word for
    word, yet nothing is reported against it: the refusal of its stand-in by the
    audience check took the entry itself off the watch. *)
Lemma audience_refusal_disarms_tripwire :
  let e4 := demo_entry "e4" "restricted" "dm:alice:fox" in
  e4 ∈ c_episodic demo_candidates /\ ~ level_ok (acting_classification_for_event demo_event) e4 /\
  content e4 = Some demo_text /\
  forall h, h ∈ run_channel_message_tripwire demo_digest (build_tripwire_watch demo_digest (snd demo_turn))
      demo_text -> w_entry_id (hit_entry h) <> "e4".
Proof.
  cbv zeta. split; [by right; right; right; left|]. split.
  { intros (r&Hr&Hle). injection Hr as <-. by vm_compute in Hle. }
  split; [done|]. intros h Hh.
  assert (map (λ h, w_entry_id (hit_entry h)) (run_channel_message_tripwire demo_digest
    (build_tripwire_watch demo_digest (snd demo_turn)) demo_text) = ["f2"; "e3"]) as E by (by vm_compute).
  intros Hid. assert ("e4" ∈ ["f2"; "e3"]) as Hin.
  { rewrite <- E, <- Hid. apply list_elem_of_fmap. exists h. split; [reflexivity|exact Hh]. }
  rewrite !elem_of_cons in Hin. by destruct Hin as [?|[?|?%not_elem_of_nil]].
Qed.
