(* ===== verification/Wallet.v ===== *)
(** * Wallet leases

    Models [agents/wallet_client.py] and [agents/wallet_lease.py]: acquiring a
    lease, the body that runs under it, and how the provisional charge is closed
    on each exit; and the body [LLMClient] runs. The wallet service, the sleeps
    and the random draws are the environment [env]: what the [n]-th await of the
    lease does. Each RPC and each sleep is logged. *)

From S2P Require Import Prelude PyStr.
Local Open Scope string_scope.

Inductive StatusCode := UNAVAILABLE | DEADLINE_EXCEEDED | RESOURCE_EXHAUSTED | INTERNAL | INVALID_ARGUMENT
  | OTHER_STATUS.

Definition is_unreachable (c : StatusCode) : bool :=
  match c with UNAVAILABLE | DEADLINE_EXCEEDED => true | _ => false end.

(** What a task may see raised. [Cancelled] is no [Exception]. *)
Inductive exn :=
| AioRpcError (code : StatusCode)
| BudgetExceededError (reason : string)
| RuntimeError (what : string)
| OtherException (what : string)
| Cancelled.

Definition is_Exception (e : exn) : bool := match e with Cancelled => false | _ => true end.

(** An awaited call: a value, or what it raises. *)
Abbreviation rpc A := (result exn A).

Record LeaseRequest := mkLeaseRequest {
  workflow_id : string; rq_agent_id : string; rq_model : string;
  estimated_input_tokens : Z; estimated_max_output_tokens : Z;
  rq_interaction_id : string; interaction_budget_tokens : Z;
}.

Inductive LeaseDeniedReason := REASON_UNSPECIFIED | REASON_INTERACTION_BUDGET_EXHAUSTED | REASON_OTHER.

Record Grant := mkGrant { lease_id : string; granted_input : Z; granted_output : Z; ttl_seconds : Z }.

(** The [outcome] oneof; [Unset] is an absent or unknown arm. *)
Inductive LeaseResponse := Denied (reason : LeaseDeniedReason) | Granted (g : Grant) | Unset.

Record SettlementRequest := mkSettlement { st_lease : string; actual_input : Z; actual_output : Z }.

Inductive event :=
| EAcquire (r : LeaseRequest)
| ESettle (r : SettlementRequest)
| ERelease (lease : string)
| ESleep (delay : Q)
| EProvider.

Record WalletEnv := mkEnv {
  acquire_reply : nat -> rpc LeaseResponse;
  settle_reply : nat -> rpc bool;
  release_reply : nat -> rpc bool;
  sleep_reply : nat -> rpc unit;
  draw : nat -> Q;
}.

Record WalletClient := mkClient {
  acquire_max_attempts : nat;
  settle_max_attempts : nat;
  backoff_base : Q;
}.

Definition WalletClient_new (acquire settle : Z) (base : Q) : WalletClient :=
  mkClient (Z.to_nat (Z.max 1 acquire)) (Z.to_nat (Z.max 1 settle)) (if Qltb 0 base then base else 0%Q).

(** [lease()]'s clamped request. *)
Definition lease_request (workflow agent model : string) (inp out : Z) (interaction : string)
    (budget : Z) : LeaseRequest :=
  mkLeaseRequest workflow agent model (Z.max 0 inp) (Z.max 0 out) interaction (Z.max 0 budget).

(** ** The task: a log of what it awaited *)

Abbreviation log := (list event).

Section client.
Context (env : WalletEnv) (client : WalletClient).

(** [2.0 ** (attempt - 1)] times the base, and a uniform draw below it. *)
Definition ceiling (attempt : nat) : Q := backoff_base client * inject_Z (2 ^ (Z.of_nat attempt - 1)).
Definition backoff (attempt : nat) (l : log) : Q := ceiling attempt * draw env (length l).

(** [await asyncio.sleep(self._backoff(attempt))] *)
Definition sleep (attempt : nat) (l : log) : rpc unit * log :=
  (sleep_reply env (length l), l ++ [ESleep (backoff attempt l)])%list.

(** The retry loops, from attempt [attempt] with [left] more attempts after it. *)
Fixpoint acquire_loop (request : LeaseRequest) (left attempt : nat) (l : log) : rpc Grant * log :=
  let reply := acquire_reply env (length l) in
  let l := (l ++ [EAcquire request])%list in
  match reply with
  | Raise (AioRpcError code) =>
      if is_unreachable code then (Raise (BudgetExceededError "wallet_unreachable"), l)
      else
        match code, left with
        | RESOURCE_EXHAUSTED, S left' =>
            match sleep attempt l with
            | (Ok _, l) => acquire_loop request left' (S attempt) l
            | (Raise e, l) => (Raise e, l)
            end
        | _, _ => (Raise (AioRpcError code), l)
        end
  | Raise e => (Raise e, l)
  | Ok (Denied REASON_INTERACTION_BUDGET_EXHAUSTED) =>
      (Raise (BudgetExceededError "interaction_budget_exhausted"), l)
  | Ok (Denied _) => (Raise (BudgetExceededError "budget_exceeded"), l)
  | Ok (Granted g) => (Ok g, l)
  | Ok Unset => (Raise (RuntimeError "unrecognised outcome"), l)
  end.

Definition acquire (request : LeaseRequest) (l : log) : rpc Grant * log :=
  acquire_loop request (acquire_max_attempts client - 1) 1 l.

Fixpoint settle_loop (request : SettlementRequest) (left attempt : nat) (l : log) : rpc bool * log :=
  let reply := settle_reply env (length l) in
  let l := (l ++ [ESettle request])%list in
  match reply with
  | Raise (AioRpcError _) =>
      match left with
      | S left' =>
          match sleep attempt l with
          | (Ok _, l) => settle_loop request left' (S attempt) l
          | (Raise e, l) => (Raise e, l)
          end
      | O => (Ok false, l)
      end
  | Raise e => (Raise e, l)
  | Ok _ => (Ok true, l)
  end.

Definition settle_rpc (lease : string) (inp out : Z) (l : log) : rpc bool * log :=
  settle_loop (mkSettlement lease (Z.max 0 inp) (Z.max 0 out)) (settle_max_attempts client - 1) 1 l.

Definition release_rpc (lease : string) (l : log) : rpc bool * log :=
  let l' := (l ++ [ERelease lease])%list in
  match release_reply env (length l) with
  | Raise (AioRpcError _) => (Ok false, l')
  | r => (r, l')
  end.

(** ** The lease and the body of the [with] block *)

Record Lease := mkLease { grant : Grant; call_started : bool; settled : bool }.

(** What a body does with its lease: contact the provider, mark the call
    started, settle, return or raise. *)
Inductive body (A : Type) : Type :=
| Return (a : A)
| Throw (e : exn)
| MarkStarted (k : body A)
| Provider (k : body A)
| Settle (inp out : Z) (k : rpc unit -> body A).

Definition lease_settle (inp out : Z) (lease : Lease) (l : log) : rpc unit * Lease * log :=
  if settled lease then (Ok tt, lease, l)
  else
    let lease := mkLease (grant lease) (call_started lease) true in
    match settle_rpc (lease_id (grant lease)) inp out l with
    | (Ok _, l) => (Ok tt, lease, l)
    | (Raise e, l) => (Raise e, lease, l)
    end.

Fixpoint run_body {A} (b : body A) (lease : Lease) (l : log) : rpc A * Lease * log :=
  match b with
  | Return _ a => (Ok a, lease, l)
  | Throw _ e => (Raise e, lease, l)
  | MarkStarted _ k => run_body k (mkLease (grant lease) true (settled lease)) l
  | Provider _ k => run_body k lease (l ++ [EProvider])%list
  | Settle _ inp out k =>
      let '(r, lease, l) := lease_settle inp out lease l in run_body (k r) lease l
  end.

(** Closing a lease pessimistically, at the granted amounts. *)
Definition settle_at_granted (lease : Lease) (l : log) : rpc bool * log :=
  settle_rpc (lease_id (grant lease)) (granted_input (grant lease)) (granted_output (grant lease)) l.

(** The exit of the context manager on an exception and on a clean return: the
    cleanup to run, if any. *)
Definition exit_exception (lease : Lease) (l : log) : rpc bool * log :=
  if negb (call_started lease) then release_rpc (lease_id (grant lease)) l
  else if negb (settled lease) then settle_at_granted lease l
  else (Ok true, l).

Definition exit_clean (lease : Lease) (l : log) : rpc bool * log :=
  if negb (settled lease) then
    if negb (call_started lease) then release_rpc (lease_id (grant lease)) l
    else settle_at_granted lease l
  else (Ok true, l).

(** [async with client.lease(...)]: acquire, run the body, close. An exception
    of the cleanup is swallowed, a cancellation is not. *)
Definition with_lease {A} (request : LeaseRequest) (b : body A) (l : log) : rpc A * log :=
  match acquire request l with
  | (Raise e, l) => (Raise e, l)
  | (Ok g, l) =>
      match run_body b (mkLease g false false) l with
      | (Raise e, lease, l) =>
          match exit_exception lease l with
          | (Raise Cancelled, l) => (Raise Cancelled, l)
          | (_, l) => (Raise e, l)
          end
      | (Ok a, lease, l) =>
          match exit_clean lease l with
          | (Raise Cancelled, l) => (Raise Cancelled, l)
          | (_, l) => (Ok a, l)
          end
      end
  end.
End client.

Arguments Return {A} a.
Arguments Throw {A} e.
Arguments MarkStarted {A} k.
Arguments Provider {A} k.
Arguments Settle {A} inp out k.

(** [LLMClient]'s body: mark, call the provider, settle its actuals. The
    provider gives a response and its usage, or raises. *)
Definition llm_call_body {A} (response : rpc (A * (Z * Z))) : body A :=
  MarkStarted (Provider
    match response with
    | Raise e => Throw e
    | Ok (a, (inp, out)) =>
        Settle inp out (λ r, match r with Ok _ => Return a | Raise e => Throw e end)
    end).

(** ** Logs *)

Definition closing (e : event) : bool := match e with ESettle _ | ERelease _ => true | _ => false end.
Definition is_acquire (e : event) : bool := match e with EAcquire _ => true | _ => false end.
Definition closings (l : log) : log := List.filter closing l.

Lemma closings_app l k : closings (l ++ k) = (closings l ++ closings k)%list.
Proof. apply List.filter_app. Qed.

(** The log of a retried settlement of [rq]. *)
Definition settle_log (rq : SettlementRequest) (seg : log) : Prop :=
  Forall (λ e, e = ESettle rq \/ exists d, e = ESleep d) seg /\ ESettle rq ∈ seg.

Section lemmas.
Context (env : WalletEnv) (client : WalletClient).

Lemma settle_loop_log rq left attempt l :
  exists seg, snd (settle_loop env client rq left attempt l) = (l ++ seg)%list /\ settle_log rq seg /\
    (length (closings seg) <= S left)%nat.
Proof.
  revert attempt l. induction left as [|left IH]; intros attempt l; cbn [settle_loop].
  - exists [ESettle rq]. assert (settle_log rq [ESettle rq]) as Hs.
    { split; [constructor; [by left|constructor]|left]. }
    destruct (settle_reply env (length l)) as [b|[]]; by split_and!.
  - destruct (settle_reply env (length l)) as [b|e].
    { exists [ESettle rq]. split_and!; [done| |simpl; lia]. split; [constructor; [by left|constructor]|left]. }
    destruct e; try (exists [ESettle rq]; split_and!;
      [done|split; [constructor; [by left|constructor]|left]|simpl; lia]).
    unfold sleep. set (l1 := (l ++ [ESettle rq])%list). set (d := backoff env client attempt l1).
    destruct (sleep_reply env (length l1)) as [[]|e].
    + destruct (IH (S attempt) (l1 ++ [ESleep d])%list) as (seg&Hl&[Hf Hin]&Hc).
      exists (ESettle rq :: ESleep d :: seg). split.
      { etrans; [exact Hl|]. unfold l1. by rewrite <- !app_assoc. }
      split; [|simpl; lia]. split; [|left]. constructor; [by left|]. constructor; [right; by eexists|done].
    + exists [ESettle rq; ESleep d]. split; [unfold l1; simpl; by rewrite <- app_assoc|].
      split; [|simpl; lia]. split; [|left]. constructor; [by left|]. constructor; [right; by eexists|constructor].
Qed.

Lemma settle_rpc_log lease inp out l :
  (1 <= settle_max_attempts client)%nat ->
  exists seg, snd (settle_rpc env client lease inp out l) = (l ++ seg)%list /\
    settle_log (mkSettlement lease (Z.max 0 inp) (Z.max 0 out)) seg /\
    (length (closings seg) <= settle_max_attempts client)%nat.
Proof.
  intros H. destruct (settle_loop_log (mkSettlement lease (Z.max 0 inp) (Z.max 0 out))
    (settle_max_attempts client - 1) 1 l) as (seg&?&?&?). exists seg. split; [done|]. split; [done|]. lia.
Qed.

(** ** Acquiring *)

(** Attempt [k] of the acquisition of a log of length [n] is await [n + 2 k]. *)
Definition exhausted_before (n k : nat) : Prop :=
  forall j, (j < k)%nat -> acquire_reply env (n + 2 * j) = Raise (AioRpcError RESOURCE_EXHAUSTED) /\
                           sleep_reply env (n + 2 * j + 1) = Ok tt.

(** What a reply means for the caller; [last] tells the last attempt. *)
Definition classify (reply : rpc LeaseResponse) : rpc Grant :=
  match reply with
  | Raise (AioRpcError code) =>
      if is_unreachable code then Raise (BudgetExceededError "wallet_unreachable") else Raise (AioRpcError code)
  | Raise e => Raise e
  | Ok (Denied REASON_INTERACTION_BUDGET_EXHAUSTED) =>
      Raise (BudgetExceededError "interaction_budget_exhausted")
  | Ok (Denied _) => Raise (BudgetExceededError "budget_exceeded")
  | Ok (Granted g) => Ok g
  | Ok Unset => Raise (RuntimeError "unrecognised outcome")
  end.

(** The acquisition from [l] with [left] retries answers [r] and leaves [l']:
    it settles on attempt [k], or its [k]-th sleep raises. *)
Definition acquired (rq : LeaseRequest) (left : nat) (l : log) (r : rpc Grant) (l' : log) : Prop :=
  exists k seg, (k <= left)%nat /\ exhausted_before (length l) k /\ l' = (l ++ seg)%list /\
    Forall (λ e, e = EAcquire rq \/ exists d, e = ESleep d) seg /\
    length (List.filter is_acquire seg) = S k /\
    ((r = classify (acquire_reply env (length l + 2 * k)) /\
      ((k < left)%nat -> acquire_reply env (length l + 2 * k) <> Raise (AioRpcError RESOURCE_EXHAUSTED))) \/
     exists e, acquire_reply env (length l + 2 * k) = Raise (AioRpcError RESOURCE_EXHAUSTED) /\
       sleep_reply env (length l + 2 * k + 1) = Raise e /\ r = Raise e).

Lemma acquired_now rq left l r :
  r = classify (acquire_reply env (length l)) ->
  ((0 < left)%nat -> acquire_reply env (length l) <> Raise (AioRpcError RESOURCE_EXHAUSTED)) ->
  acquired rq left l r (l ++ [EAcquire rq])%list.
Proof.
  intros Hr Hn. exists 0%nat, [EAcquire rq]. rewrite Nat.add_0_r.
  split; [lia|]. split; [intros j Hj; lia|].
  split; [done|]. split; [constructor; [by left|constructor]|]. split; [done|by left].
Qed.

Lemma acquired_interrupted rq left l d e :
  acquire_reply env (length l) = Raise (AioRpcError RESOURCE_EXHAUSTED) ->
  sleep_reply env (length l + 1) = Raise e ->
  acquired rq left l (Raise e) (l ++ [EAcquire rq; ESleep d])%list.
Proof.
  intros Ha Hs. exists 0%nat, [EAcquire rq; ESleep d]. rewrite !Nat.add_0_r.
  split; [lia|]. split; [intros j Hj; lia|]. split; [done|]. split; [|split; [done|right; by exists e]].
  constructor; [by left|]. constructor; [right; by eexists|constructor].
Qed.

Lemma acquired_retry rq left l d r l' :
  acquire_reply env (length l) = Raise (AioRpcError RESOURCE_EXHAUSTED) ->
  sleep_reply env (length l + 1) = Ok tt ->
  acquired rq left (l ++ [EAcquire rq; ESleep d])%list r l' -> acquired rq (S left) l r l'.
Proof.
  intros Ha Hs (k&seg&Hk&He&->&Hf&Hn&Hr). rewrite length_app in He, Hr. cbn [length] in He, Hr.
  exists (S k), (EAcquire rq :: ESleep d :: seg).
  replace (length l + 2 * S k)%nat with (length l + 2 + 2 * k)%nat by lia.
  split; [lia|]. split.
  { intros [|j] Hj; [by rewrite Nat.add_0_r|].
    replace (length l + 2 * S j)%nat with (length l + 2 + 2 * j)%nat by lia. apply He. lia. }
  split; [by rewrite <- app_assoc|]. split.
  { constructor; [by left|]. constructor; [right; by eexists|done]. }
  split; [simpl; by rewrite Hn|]. destruct Hr as [[Hr Hlt]|?]; [left|by right].
  split; [done|]. intros ?. apply Hlt. lia.
Qed.

Lemma acquire_loop_spec rq left attempt l :
  acquired rq left l (fst (acquire_loop env client rq left attempt l))
    (snd (acquire_loop env client rq left attempt l)).
Proof.
  revert attempt l. induction left as [|left IH]; intros attempt l; cbn [acquire_loop].
  - assert (acquired rq 0 l (classify (acquire_reply env (length l))) (l ++ [EAcquire rq])%list) as H
      by (apply acquired_now; [done|lia]).
    by destruct (acquire_reply env (length l)) as [[[]| |]|[[]| | | |]].
  - assert (acquire_reply env (length l) <> Raise (AioRpcError RESOURCE_EXHAUSTED) ->
      acquired rq (S left) l (classify (acquire_reply env (length l))) (l ++ [EAcquire rq])%list) as H
      by (intros ?; by apply acquired_now).
    destruct (acquire_reply env (length l)) as [[[]| |]|[[]| | | |]] eqn:E;
      try (by apply H). cbn [is_unreachable]. unfold sleep. rewrite length_app. cbn [length].
    set (d := backoff env client attempt _). destruct (sleep_reply env (length l + 1)) as [[]|e] eqn:Es.
    + rewrite <- app_assoc. by apply (acquired_retry _ _ _ d).
    + rewrite <- app_assoc. by apply acquired_interrupted.
Qed.

(** The log of an acquisition holds requests and sleeps only. *)
Lemma acquire_log rq l :
  exists seg, snd (acquire env client rq l) = (l ++ seg)%list /\
    Forall (λ e, e = EAcquire rq \/ exists d, e = ESleep d) seg.
Proof.
  unfold acquire. destruct (acquire_loop_spec rq (acquire_max_attempts client - 1) 1 l)
    as (k&seg&_&_&Hl&Hf&_). by exists seg.
Qed.

(** ** The body *)

(** The provider is called and the lease settled only once the call is marked
    started. *)
Fixpoint disciplined {A} (started : bool) (b : body A) : Prop :=
  match b with
  | Return _ | Throw _ => True
  | MarkStarted k => disciplined true k
  | Provider k => started = true /\ disciplined started k
  | Settle _ _ k => started = true /\ forall r, disciplined started (k r)
  end.

(** The amounts a body may settle. *)
Fixpoint asks {A} (b : body A) (inp out : Z) : Prop :=
  match b with
  | Return _ | Throw _ => False
  | MarkStarted k | Provider k => asks k inp out
  | Settle i o k => (inp = i /\ out = o) \/ exists r, asks (k r) inp out
  end.

(** The request that settles a lease at some amounts. *)
Definition settlement (g : Grant) (inp out : Z) : SettlementRequest :=
  mkSettlement (lease_id g) (Z.max 0 inp) (Z.max 0 out).

(** One settlement, sent at least once and at most the configured number of times. *)
Definition settled_by (rq : SettlementRequest) (seg : log) : Prop :=
  ESettle rq ∈ seg /\ Forall (λ e, e = ESettle rq) (closings seg) /\
  (length (closings seg) <= settle_max_attempts client)%nat.

(** What a body's log and its lease say of each other, where [P] holds of the amounts
    the body may settle. *)
Record body_log (P : Z -> Z -> Prop) (g : Grant) (lease : Lease) (seg : log) : Prop := {
  bl_grant : grant lease = g;
  bl_started : EProvider ∈ seg -> call_started lease = true;
  bl_unsettled : settled lease = false -> closings seg = [];
  bl_settled : settled lease = true -> call_started lease = true /\
    exists inp out, P inp out /\ settled_by (settlement g inp out) seg;
  bl_no_acquire : Forall (λ e, is_acquire e = false) seg;
}.

Lemma settle_log_closings rq seg : settle_log rq seg -> Forall (λ e, e = ESettle rq) (closings seg).
Proof.
  intros [Hf _]. unfold closings. induction Hf as [|e seg [->|[d ->]] _ IH]; simpl; auto.
Qed.

Lemma settle_log_other rq seg :
  settle_log rq seg -> (EProvider ∉ seg) /\ Forall (λ e, is_acquire e = false) seg.
Proof.
  intros [Hf _]. split.
  - intros Hin. rewrite Forall_forall in Hf. by destruct (Hf _ Hin) as [?|[d ?]].
  - eapply Forall_impl; [exact Hf|]. by intros e [->|[d ->]].
Qed.

Lemma settle_never_raises lease inp out l :
  (forall n e, settle_reply env n = Raise e -> exists c, e = AioRpcError c) ->
  (forall n, sleep_reply env n = Ok tt) ->
  is_ok (fst (settle_rpc env client lease inp out l)) = true.
Proof.
  intros Hrpc Hsleep. unfold settle_rpc.
  generalize (settle_max_attempts client - 1)%nat as left. intros left. generalize 1%nat as attempt.
  revert l. induction left as [|left IH]; intros l attempt; cbn [settle_loop].
  - destruct (settle_reply env (length l)) as [b|e] eqn:E; [done|]. by destruct (Hrpc _ _ E) as [c ->].
  - destruct (settle_reply env (length l)) as [b|e] eqn:E; [done|]. destruct (Hrpc _ _ E) as [c ->].
    unfold sleep. rewrite Hsleep. apply IH.
Qed.

Hypothesis attempts : (1 <= settle_max_attempts client)%nat.

Lemma settled_by_app rq seg seg' :
  closings seg' = [] -> settled_by rq seg -> settled_by rq (seg ++ seg')%list.
Proof.
  intros Hc (Hin&Hf&Hn). split; [apply elem_of_app; by left|]. by rewrite closings_app, Hc, app_nil_r.
Qed.

Lemma settled_by_log rq seg seg' :
  closings seg = [] -> settle_log rq seg' -> (length (closings seg') <= settle_max_attempts client)%nat ->
  settled_by rq (seg ++ seg')%list.
Proof.
  intros Hc Hl Hn. split; [apply elem_of_app; right; apply Hl|]. rewrite closings_app, Hc. cbn [app].
  split; [by apply settle_log_closings|done].
Qed.

Lemma run_body_log {A} P (b : body A) g lease l0 seg0 :
  (forall inp out, asks b inp out -> P inp out) ->
  disciplined (call_started lease) b -> body_log P g lease seg0 ->
  exists seg r lease', run_body env client b lease (l0 ++ seg0)%list = (r, lease', (l0 ++ seg)%list) /\
    body_log P g lease' seg.
Proof.
  revert lease seg0. induction b as [a|e|b IH|b IH|inp out k IH]; intros lease seg0 HP; cbn [run_body disciplined].
  - intros _ H. by exists seg0, (Ok a), lease.
  - intros _ H. by exists seg0, (Raise e), lease.
  - intros Hd [Hg Hs Hu Hst Hn]. apply IH; [done|done|]. split; try done. intros ?. by destruct Hst.
  - intros [Hc Hd] [Hg Hs Hu Hst Hn]. rewrite <- app_assoc. apply IH; [done|done|].
    assert (closings (seg0 ++ [EProvider])%list = closings seg0) as Ec.
    { rewrite closings_app. apply app_nil_r. }
    split; try done; rewrite ?Ec; try done.
    + intros Ht. destruct (Hst Ht) as (?&inp&out&?&?). split; [done|]. exists inp, out.
      split; [done|]. by apply settled_by_app.
    + apply Forall_app. split; [done|]. by repeat constructor.
  - intros [Hc Hd] H. assert (forall r i o, asks (k r) i o -> P i o) as HPk by (intros r i o Ha; apply HP; right; eauto).
    unfold lease_settle. destruct (settled lease) eqn:Es; [by apply IH; [apply HPk|..]|].
    destruct H as [Hg Hs Hu Hst Hn].
    destruct (settle_rpc_log (lease_id (grant lease)) inp out (l0 ++ seg0)%list attempts) as (seg&Hl&Hlog&Hlen).
    destruct (settle_rpc env client _ inp out _) as [r l1]. cbn [snd] in Hl. subst l1.
    assert (body_log P g (mkLease (grant lease) (call_started lease) true) (seg0 ++ seg)%list) as Hb.
    { split; try done.
      - intros _. split; [done|]. exists inp, out. split; [apply HP; by left|]. unfold settlement. rewrite <- Hg.
        apply settled_by_log; auto.
      - apply Forall_app. split; [done|]. by eapply settle_log_other. }
    destruct r as [b|e]; rewrite <- app_assoc; by apply IH; [apply HPk|..].
Qed.

(** How a lease ends up closed, by what its body left: settled by the body at amounts
    it asked for, and not touched again; settled at the granted amounts on the way out
    where the call was marked started and not settled; else released once, the
    provider never having been contacted. [seg] is the body's log, [ext] the exit's. *)
Definition closed {A} (b : body A) (g : Grant) (lease : Lease) (seg ext : log) : Prop :=
  if settled lease then
    call_started lease = true /\ ext = [] /\ exists inp out, asks b inp out /\ settled_by (settlement g inp out) seg
  else
    closings seg = [] /\
    if call_started lease then settled_by (settlement g (granted_input g) (granted_output g)) ext /\ EProvider ∉ ext
    else ext = [ERelease (lease_id g)] /\ EProvider ∉ seg.

Lemma release_rpc_log lease l :
  snd (release_rpc env lease l) = (l ++ [ERelease lease])%list.
Proof. unfold release_rpc. by destruct (release_reply env (length l)) as [b|[]]. Qed.

Lemma exit_closes {A} (b : body A) (clean : bool) g lease l0 seg :
  body_log (asks b) g lease seg ->
  exists ext, snd ((if clean then exit_clean else exit_exception) env client lease (l0 ++ seg)%list) =
    (l0 ++ seg ++ ext)%list /\ closed b g lease seg ext.
Proof.
  intros [Hg Hs Hu Hst Hn]. unfold closed.
  destruct (settled lease) eqn:Es.
  { destruct (Hst eq_refl) as [Hc H]. exists []. rewrite app_nil_r. split; [|done].
    by destruct clean; unfold exit_clean, exit_exception; rewrite Es, ?Hc. }
  destruct (call_started lease) eqn:Ec.
  - destruct (settle_rpc_log (lease_id (grant lease)) (granted_input (grant lease))
      (granted_output (grant lease)) (l0 ++ seg)%list attempts) as (ext&Hl&Hlog&Hlen). exists ext. split.
    + rewrite app_assoc, <- Hl. by destruct clean; unfold exit_clean, exit_exception, settle_at_granted; rewrite Es, Ec.
    + split; [by apply Hu|]. split; [|by eapply settle_log_other]. unfold settlement. rewrite <- Hg.
      exact (settled_by_log _ [] ext eq_refl Hlog Hlen).
  - exists [ERelease (lease_id g)]. split.
    + rewrite app_assoc, <- Hg, <- release_rpc_log. by destruct clean; unfold exit_clean, exit_exception; rewrite Es, Ec.
    + split; [by apply Hu|]. split; [done|]. intros Hp. discriminate (Hs Hp).
Qed.
End lemmas.

(** ** Theorems *)

(** Acquiring a lease stops after at most the configured number of
    requests, all the same request: the answer is what the first reply other
    than an exhausted cap means, an exhausted cap surfacing raw only on the
    last attempt; so a lease is held only if the wallet granted it, and an
    unreachable wallet, a denial or a malformed reply runs no body. *)
Theorem acquire_exact env client rq l :
  (1 <= acquire_max_attempts client)%nat ->
  let r := fst (acquire env client rq l) in
  exists k, (k < acquire_max_attempts client)%nat /\ exhausted_before env (length l) k /\
    length (List.filter is_acquire (drop (length l) (snd (acquire env client rq l)))) = S k /\
    Forall (λ e, is_acquire e = true -> e = EAcquire rq) (drop (length l) (snd (acquire env client rq l))) /\
    closings (drop (length l) (snd (acquire env client rq l))) = [] /\
    ((r = classify (acquire_reply env (length l + 2 * k)) /\
      ((k < acquire_max_attempts client - 1)%nat ->
         acquire_reply env (length l + 2 * k) <> Raise (AioRpcError RESOURCE_EXHAUSTED))) \/
     exists e, acquire_reply env (length l + 2 * k) = Raise (AioRpcError RESOURCE_EXHAUSTED) /\
       sleep_reply env (length l + 2 * k + 1) = Raise e /\ r = Raise e).
Proof.
  intros Hm. cbv zeta. unfold acquire.
  destruct (acquire_loop_spec env client rq (acquire_max_attempts client - 1) 1 l)
    as (k&seg&Hk&He&->&Hf&Hn&Hr). exists k. rewrite drop_app_length.
  split; [lia|]. split; [done|]. split; [done|]. split; [|split; [|exact Hr]].
  - eapply Forall_impl; [exact Hf|]. by intros e [->|[d ->]].
  - clear -Hf. unfold closings. induction Hf as [|e seg [->|[d ->]] _ IH]; simpl; auto.
Qed.

(** C33. Every lease that is granted is closed exactly one way, on every exit of its
    block and whatever the wallet and the sleeps do, where the block contacts the
    provider and settles only after marking the call started: a settlement the block
    made stands and is the only one; a started call that was not settled is settled at
    the granted amounts, one request repeated at most the configured number of times;
    and a block that never marked its call, so that the provider was not contacted, is
    followed by one release and by nothing else. *)
Theorem granted_lease_is_closed {A} env client rq (b : body A) l :
  (1 <= settle_max_attempts client)%nat -> disciplined false b ->
  forall g l1, acquire env client rq l = (Ok g, l1) ->
  exists r lease seg ext, run_body env client b (mkLease g false false) l1 = (r, lease, (l1 ++ seg)%list) /\
    snd (with_lease env client rq b l) = (l1 ++ seg ++ ext)%list /\ closed client b g lease seg ext.
Proof.
  intros Hm Hd g l1 Ha. unfold with_lease. rewrite Ha.
  destruct (run_body_log env client Hm (asks b) b g (mkLease g false false) l1 []) as (seg&r&lease&Hr&Hb); [done|done| |].
  - split; try done. intros Hp. by apply not_elem_of_nil in Hp.
  - rewrite app_nil_r in Hr. rewrite Hr. destruct r as [a|e].
    + destruct (exit_closes env client Hm b true g lease l1 seg Hb) as (ext&Hs&Hc). exists (Ok a), lease, seg, ext.
      split; [done|]. split; [|done]. rewrite <- Hs. by destruct (exit_clean _ _ _ _) as [[?|[]] ?].
    + destruct (exit_closes env client Hm b false g lease l1 seg Hb) as (ext&Hs&Hc). exists (Raise e), lease, seg, ext.
      split; [done|]. split; [|done]. rewrite <- Hs. by destruct (exit_exception _ _ _ _) as [[?|[]] ?].
Qed.

(** The outcome of a leased block is the body's own: closing the lease never
    changes a value or an exception the body ended with, unless it is cancelled
    itself; and without a grant the body does not run. *)
Theorem lease_outcome_preserved {A} env client rq (b : body A) l :
  match acquire env client rq l with
  | (Raise e, l1) => with_lease env client rq b l = (Raise e, l1)
  | (Ok g, l1) =>
      let r := fst (fst (run_body env client b (mkLease g false false) l1)) in
      fst (with_lease env client rq b l) = r \/ fst (with_lease env client rq b l) = Raise Cancelled
  end.
Proof.
  unfold with_lease. destruct (acquire env client rq l) as [[g|e] l1]; [|done]. cbv zeta.
  destruct (run_body env client b (mkLease g false false) l1) as [[[a|e] lease] l2]; cbn [fst].
  - destruct (exit_clean env client lease l2) as [[?|[]] ?]; auto.
  - destruct (exit_exception env client lease l2) as [[?|[]] ?]; auto.
Qed.

(** The body of an LLM call. *)
Lemma llm_call_disciplined {A} (response : rpc (A * (Z * Z))) : disciplined false (llm_call_body response).
Proof. unfold llm_call_body. destruct response as [[a [i o]]|e]; simpl; split_and!; try done. by intros []. Qed.

(** A leased LLM call that got its answer keeps it: if the provider
    responds and the wallet's failures are gRPC statuses, the response is
    returned, even when every settlement attempt fails, and what is settled is
    the usage the provider reported, clamped at zero. *)
Theorem llm_response_never_lost {A} env client rq (a : A) inp out l g l1 :
  (1 <= settle_max_attempts client)%nat ->
  (forall n e, settle_reply env n = Raise e -> exists c, e = AioRpcError c) ->
  (forall n, sleep_reply env n = Ok tt) ->
  acquire env client rq l = (Ok g, l1) ->
  exists seg, with_lease env client rq (llm_call_body (Ok (a, (inp, out)))) l = (Ok a, (l1 ++ EProvider :: seg)%list) /\
    settle_log (mkSettlement (lease_id g) (Z.max 0 inp) (Z.max 0 out)) seg /\
    (length (closings seg) <= settle_max_attempts client)%nat.
Proof.
  intros Hm Hrpc Hsleep Ha. unfold with_lease. rewrite Ha. unfold llm_call_body.
  cbn [run_body grant settled call_started]. unfold lease_settle. cbn [settled grant call_started].
  destruct (settle_rpc_log env client (lease_id g) inp out (l1 ++ [EProvider])%list Hm) as (seg&Hl&Hs&Hn).
  assert (is_ok (fst (settle_rpc env client (lease_id g) inp out (l1 ++ [EProvider])%list)) = true) as Hok.
  { by apply settle_never_raises. }
  destruct (settle_rpc env client _ inp out _) as [[x|e] l2]; [|done]. cbn [snd] in Hl. subst l2.
  exists seg. split; [|done]. simpl. by rewrite <- app_assoc.
Qed.

(** The delay before retry [attempt] lies between zero and the base doubled
    once per earlier attempt, for any draw in the unit interval. *)
Theorem backoff_bounded env acquire settle base attempt l :
  (1 <= attempt)%nat -> (0 <= draw env (length l) <= 1)%Q ->
  let client := WalletClient_new acquire settle base in
  (0 <= backoff env client attempt l)%Q /\
  (backoff env client attempt l <= ceiling client attempt)%Q /\
  (ceiling client (S attempt) == 2 * ceiling client attempt)%Q /\
  (1 <= acquire_max_attempts client)%nat /\ (1 <= settle_max_attempts client)%nat.
Proof.
  intros Ha [Hd0 Hd1]. cbv zeta. set (client := WalletClient_new acquire settle base).
  assert (0 <= backoff_base client)%Q as Hb.
  { unfold client, WalletClient_new. cbn [backoff_base]. destruct (Qltb 0 base) eqn:E; [|lra]. q_props. lra. }
  assert (0 <= inject_Z (2 ^ (Z.of_nat attempt - 1)))%Q as Hp.
  { change 0%Q with (inject_Z 0). rewrite <- Zle_Qle. apply Z.pow_nonneg. lia. }
  assert (0 <= ceiling client attempt)%Q as Hc by (by apply Qmult_le_0_compat).
  unfold backoff. split; [by apply Qmult_le_0_compat|]. split; [|split].
  - nra.
  - unfold ceiling. replace (Z.of_nat (S attempt) - 1)%Z with (1 + (Z.of_nat attempt - 1))%Z by lia.
    rewrite Z.pow_add_r, inject_Z_mult by lia. change (inject_Z (2 ^ 1)) with 2%Q. ring.
  - unfold client, WalletClient_new. cbn. lia.
Qed.

(** ** Witnesses, and an undisciplined body *)

(** The wallet is exhausted once, then grants; settling fails twice, then works. *)
Definition demo_env : WalletEnv := mkEnv
  (λ n, if Nat.eqb n 0 then Raise (AioRpcError RESOURCE_EXHAUSTED) else Ok (Granted (mkGrant "L" 10 20 60)))
  (λ n, if Nat.ltb n 7 then Raise (AioRpcError UNAVAILABLE) else Ok true)
  (λ _, Ok true) (λ _, Ok tt) (λ _, 1 # 2).

Definition demo_client : WalletClient := WalletClient_new 3 3 (1 # 10).
Definition demo_request : LeaseRequest := lease_request "" "a" "m" 5 (-1) "" 0.
Definition demo_log : log := snd (acquire demo_env demo_client demo_request []).

Example demo_lease_run :
  let settle := ESettle (mkSettlement "L" 3 4) in
  with_lease demo_env demo_client demo_request (llm_call_body (Ok ("hi", (3, 4)%Z))) [] =
  (Ok "hi", (demo_log ++ [EProvider; settle; ESleep ((1 # 10) * inject_Z 1 * (1 # 2));
     settle; ESleep ((1 # 10) * inject_Z 2 * (1 # 2)); settle])%list).
Proof. reflexivity. Qed.

Lemma acquire_exact_witness :
  exists k, (k < 3)%nat /\ exhausted_before demo_env 0 k.
Proof.
  destruct (acquire_exact demo_env demo_client demo_request []) as (k&Hk&He&_).
  - by apply Nat.leb_le.
  - exists k. split; [exact Hk|exact He].
Defined.

Lemma granted_lease_is_closed_witness :
  snd (with_lease demo_env demo_client demo_request (Throw (OtherException "x") : body unit) []) = (demo_log ++ [ERelease "L"])%list.
Proof.
  destruct (granted_lease_is_closed demo_env demo_client demo_request (Throw (OtherException "x") : body unit) [])
    with (g := mkGrant "L" 10 20 60) (l1 := demo_log) as (r&lease&seg&ext&Hr&Hl&Hc).
  - by apply Nat.leb_le.
  - exact I.
  - reflexivity.
  - assert (mkLease (mkGrant "L" 10 20 60) false false = lease) as <- by exact (f_equal (λ x, snd (fst x)) Hr).
    assert (demo_log ++ [] = demo_log ++ seg)%list as <-%app_inv_head by (rewrite app_nil_r; exact (f_equal snd Hr)).
    rewrite Hl. destruct Hc as (_&->&_). reflexivity.
Defined.

Lemma llm_response_never_lost_witness :
  exists seg, with_lease demo_env demo_client demo_request (llm_call_body (Ok ("hi", (3, 4)%Z))) [] =
    (Ok "hi", (demo_log ++ EProvider :: seg)%list).
Proof.
  destruct (llm_response_never_lost demo_env demo_client demo_request "hi" 3 4 [] (mkGrant "L" 10 20 60) demo_log)
    as (seg&Hw&_).
  - by apply Nat.leb_le.
  - intros n e. cbn [settle_reply demo_env]. destruct (Nat.ltb n 7); intros H; [|done].
    exists UNAVAILABLE. congruence.
  - done.
  - reflexivity.
  - by exists seg.
Defined.

Lemma backoff_bounded_witness : (backoff demo_env demo_client 2 [] <= ceiling demo_client 2)%Q.
Proof.
  apply (backoff_bounded demo_env 3 3 (1 # 10) 2 []); [lia|]. cbn. split; lra.
Defined.

(** A body that settles without having marked the call started, then raises,
    has its settled lease released as well: the exception exit looks at the
    start mark before it looks at the settlement. *)
Lemma settled_lease_released :
  closings (snd (with_lease demo_env demo_client demo_request
    (Settle 3 4 (λ _, Throw (OtherException "x")) : body unit) [])) =
  [ESettle (mkSettlement "L" 3 4); ESettle (mkSettlement "L" 3 4); ESettle (mkSettlement "L" 3 4); ERelease "L"].
Proof. reflexivity. Qed.
