(* ===== verification/RowScope.v ===== *)
(** * The row scope of the memory tiers

    Models [agents/memory/_session_filter.py], [_principal_filter.py] and
    [_epoch_filter.py]: how a memory tier resolves the session, tenant and
    epoch of a call, and the [WHERE] predicates it reads with. A clause of SQL
    text with its parameters is the boolean it means on a row's column. *)

From S2P Require Import Prelude PyStr PyDict Ambient.
Local Open Scope string_scope.
Local Open Scope py_scope.

(** [current() or snapshot]: a task's scope wins over the tier's construction
    snapshot. One rule for the three axes. *)
Definition resolve_active (ax : axis) (a : ambient) (snapshot : string) : string :=
  str_or (opt_str (ax_get ax a)) snapshot.

Definition resolve_active_session := resolve_active Session.ax.
Definition resolve_active_principal := resolve_active Principal.ax.
Definition resolve_active_epoch := resolve_active Epoch.ax.

Definition resolve_write_principal (a : ambient) (explicit : option string) (snapshot : string) : string :=
  match explicit with
  | None => resolve_active_principal a snapshot
  | Some p => Principal.normalize_principal_id (Some p)
  end.

(** The [sessions=] argument. *)
Inductive sessions_arg :=
| SessDefault
| SessStr (s : string)
| SessList (ids : list string)
| SessOther.

Definition SESSIONS_ALL := "*".

(** [None] is the mode without a filter. *)
Definition resolve_session_list (a : ambient) (sessions : sessions_arg) (active : string) :
    result string (option (list string)) :=
  let extend ids :=
    Ok (Some (if decide (Session.LEGACY_SESSION_ID ∈ ids) then ids
              else (ids ++ [Session.LEGACY_SESSION_ID])%list)) in
  match sessions with
  | SessDefault => extend [resolve_active_session a active]
  | SessStr s => if String.eqb s SESSIONS_ALL then Ok None else Raise "TypeError"
  | SessList [] => Raise "ValueError"
  | SessList ids => extend ids
  | SessOther => Raise "TypeError"
  end.

(** [col IN (...)], [col = ?] *)
Definition session_in (session_list : option (list string)) (column : string) : bool :=
  match session_list with None => true | Some ids => bool_decide (column ∈ ids) end.

Definition principal_eq (principal column : string) : bool := String.eqb column principal.
Definition epoch_eq (epoch column : string) : bool := String.eqb column epoch.

(** The snapshots a tier takes when it is built. *)
Record TierScope := mkTierScope {
  active_session_id : string;
  active_principal_id : string;
  active_epoch_id : string;
}.

Definition tier_scope (a : ambient) : TierScope :=
  mkTierScope (Session.resolve_session_id_silent a) (Principal.resolve_principal_id_silent a)
    (Epoch.resolve_epoch_id_silent a).

(** ** Properties *)

Lemma resolve_active_truthy ax a snapshot : snapshot <> "" -> resolve_active ax a snapshot <> "".
Proof. apply str_or_truthy. Qed.

#[export] Hint Resolve resolve_active_truthy : py.

(** A call made inside a scope resolves to the scope's id, one made outside to
    the snapshot. *)
Lemma resolve_active_spec ax `{!AxisLaws ax} a snapshot v :
  resolve_active ax (ax_set ax (Some (normalize_id ax v)) a) snapshot = normalize_id ax v /\
  (ax_get ax a = None -> resolve_active ax a snapshot = snapshot).
Proof.
  unfold resolve_active. split.
  - rewrite ax_get_set. cbn [opt_str from_option id]. unfold opt_str, str_or.
    by assert (truthy (normalize_id ax v) = true) as -> by (apply truthy_true, normalize_id_truthy, _).
  - by intros ->.
Qed.

(** The default read sees the call's own session and the legacy rows, exactly. *)
Lemma resolve_session_list_default a active column :
  exists ids, resolve_session_list a SessDefault active = Ok (Some ids) /\
    (session_in (Some ids) column = true <->
     column = resolve_active_session a active \/ column = Session.LEGACY_SESSION_ID).
Proof.
  unfold resolve_session_list. eexists. split; [reflexivity|]. unfold session_in.
  rewrite bool_decide_eq_true. case_decide as H; rewrite ?elem_of_app, !list_elem_of_singleton in *.
  - split; [auto|]. by intros [?| ->].
  - done.
Qed.
