(* ===== verification/Relationships.v ===== *)
(** * Relationships: trust, identity and interaction history

    Models [agents/memory/relationship_types.py], [relationship_mutations.py],
    [relationship_queries.py] and the validation of [agents/participant.py].
    The two tables are [rel_db]: [relationships] keyed by its primary key, and
    [interactions] in insertion ([rowid]) order; each SQL statement is its
    meaning on them. The [identity] column is the object its JSON text holds.
    The identifier of a new interaction ([uuid4]), the clock and the outcome of
    [float()] on a configured trust level are arguments. *)

From Stdlib Require Import Ascii Qabs Sorted.
From S2P Require Import Prelude PyStr PyFloat PyDict PyValue PySort MemoryEvents Ambient RowScope.
Local Open Scope string_scope.
Local Open Scope py_scope.

(** ** [relationship_types.py] *)

Definition MAX_TRUST_DELTA : Q := 2 # 10.
Definition IDENTITY_LIST_KEYS : list string := ["prefs"].
Definition IDENTITY_TEXT_UNION_KEYS : list string := ["raw"].
Definition TEXT_UNION_SEP := ". ".
Definition DEFAULT_TRUST : Q := 1 # 2.
Definition MAX_RECENT_INTERACTIONS : nat := 10.

Definition is_absent (v : pyval) : bool :=
  match v with VNone => true | VStr s => negb (truthy s) | _ => false end.

Definition union_step (out : list pyval) (item : pyval) : list pyval :=
  if negb (is_absent item) && negb (py_mem item out) then (out ++ [item])%list else out.

Definition union_preserving (base items : list pyval) : list pyval := fold_left union_step items base.

(** [value.split(". ")] *)
Fixpoint split_sep (s : string) : list string :=
  match s with
  | EmptyString => [EmptyString]
  | String "." (String " " s') => EmptyString :: split_sep s'
  | String c s' =>
      match split_sep s' with
      | w :: ws => String c w :: ws
      | [] => [String c EmptyString]
      end
  end.

Definition split_clauses (value : pyval) : list pyval :=
  if is_absent value then []
  else match value with
       | VStr s => map (λ c, VStr (strip c)) (filter (λ c, strip c <> "") (split_sep s))
       | _ => [value]
       end.

(** [". ".join(l)]: an item that is no string raises. *)
Fixpoint join_sep (l : list pyval) : result string string :=
  match l with
  | [] => Ok ""
  | [VStr s] => Ok s
  | VStr s :: l => let! r := join_sep l in Ok (s +:+ TEXT_UNION_SEP +:+ r)
  | _ => Raise "TypeError"
  end.

Definition as_list (v : pyval) : list pyval := match v with VList l => l | _ => [v] end.

Definition merge_field (merged : pydict) (kv : string * pyval) : result string pydict :=
  let '(key, value) := kv in
  if is_absent value then Ok merged
  else if bool_decide (key ∈ IDENTITY_LIST_KEYS) then
    Ok (dset key (VList (union_preserving (as_list (dget_or key (VList []) merged)) (as_list value))) merged)
  else if bool_decide (key ∈ IDENTITY_TEXT_UNION_KEYS) then
    let! joined := join_sep (union_preserving (split_clauses (dget_or key VNone merged))
                               (split_clauses value)) in
    Ok (dset key (VStr joined) merged)
  else Ok (dset key value merged).

Fixpoint merge_identity (merged incoming : pydict) : result string pydict :=
  match incoming with
  | [] => Ok merged
  | kv :: incoming => let! merged := merge_field merged kv in merge_identity merged incoming
  end.

(** ** The tables *)

(** The primary key of [relationships]; it has no session. *)
Record RelKey := mkKey {
  participant_id : string; participant_type : string;
  other_id : string; other_type : string;
  rel_principal : string; rel_epoch : string;
}.

#[export] Instance RelKey_dec : EqDecision RelKey.
Proof. solve_decision. Defined.

Record RelRow := mkRel {
  trust_score : Q;
  interaction_count : Z;
  last_interaction_at : option Q;
  notes : option string;
  rel_session : string;
  identity : option pydict;
}.

Record IntRow := mkInt {
  int_id : string;
  int_key : RelKey;
  interaction_type : string;
  outcome : option string;
  sentiment : Q;
  int_created_at : Q;
  int_session : string;
}.

Record rel_db := mkRelDb { rels : list (RelKey * RelRow); ints : list IntRow }.

Definition rel_db_new : rel_db := mkRelDb [] [].

Definition set_row (k : RelKey) (r : RelRow) (db : rel_db) : rel_db :=
  mkRelDb (dset k r (rels db)) (ints db).

(** ** Validation *)

Definition VALID_PARTICIPANT_TYPES : list string := ["agent"; "user"].

Definition validate_participant_type (t : string) : result string unit :=
  if decide (t ∈ VALID_PARTICIPANT_TYPES) then Ok tt else Raise "ValueError".

Definition validate_other_id (other : string) : result string unit :=
  if blank other then Raise "ValueError" else Ok tt.

Definition validate_key (k : RelKey) : result string unit :=
  let! _ := validate_other_id (other_id k) in
  let! _ := validate_participant_type (participant_type k) in
  validate_participant_type (other_type k).

Definition truncate_field (value : string) : string :=
  if (1024 <? Z.of_nat (String.length value))%Z then String.substring 0 1021 value +:+ "..." else value.

(** [max(0.0, min(1.0, x))] *)
Definition clamp_trust (x : Q) : Q := fmax 0 (fmin 1 x).

(** ** Mutations *)

(** One [INSERT ... ON CONFLICT DO UPDATE ... RETURNING]. *)
Definition update_trust (k : RelKey) (delta : pyfloat) (reason : string) (db : rel_db) :
    result string Q * rel_db :=
  match validate_key k with
  | Raise e => (Raise e, db)
  | Ok _ =>
      match delta with
      | Fin delta =>
          let delta := fmax (- MAX_TRUST_DELTA) (fmin MAX_TRUST_DELTA delta) in
          let reason := truncate_field reason in
          let insert_trust := clamp_trust (DEFAULT_TRUST + delta) in
          let row :=
            match dget k (rels db) with
            | None => mkRel insert_trust 0 None (Some reason) Session.LEGACY_SESSION_ID None
            | Some r =>
                mkRel (clamp_trust (trust_score r + delta)) (interaction_count r)
                  (last_interaction_at r) (Some reason) (rel_session r) (identity r)
            end in
          (Ok (trust_score row), set_row k row db)
      | _ => (Raise "ValueError", db)
      end
  end.

Definition decays (agent ptype principal epoch : string) (k : RelKey) (r : RelRow) : bool :=
  String.eqb (participant_id k) agent && String.eqb (participant_type k) ptype &&
  principal_eq principal (rel_principal k) && epoch_eq epoch (rel_epoch k) &&
  Qltb (1 # 1000) (Qabs.Qabs (trust_score r - (1 # 2))).

Definition decay_row (rate : Q) (r : RelRow) : RelRow :=
  mkRel (trust_score r + rate * ((1 # 2) - trust_score r)) (interaction_count r)
    (last_interaction_at r) (notes r) (rel_session r) (identity r).

Definition apply_decay (agent ptype principal epoch : string) (decay_rate : pyfloat) (db : rel_db) :
    result string Z * rel_db :=
  match decay_rate with
  | Fin rate =>
      if negb (Qltb 0 rate && Qle_bool rate 1) then (Raise "ValueError", db)
      else
        let hit kr := decays agent ptype principal epoch (fst kr) (snd kr) in
        (Ok (Z.of_nat (length (List.filter hit (rels db)))),
         mkRelDb (map (λ kr, if hit kr then (fst kr, decay_row rate (snd kr)) else kr) (rels db)) (ints db))
  | _ => (Raise "ValueError", db)
  end.

Definition clamp_sentiment (x : Q) : Q := fmax (-1) (fmin 1 x).

(** The [INSERT] into [interactions], then the counter's upsert. *)
Definition record_interaction (k : RelKey) (itype : string) (out : option string) (sent : pyfloat)
    (session new_id : string) (now : Q) (db : rel_db) : result string string * rel_db :=
  match validate_key k with
  | Raise e => (Raise e, db)
  | Ok _ =>
      if blank itype then (Raise "ValueError", db)
      else
        match sent with
        | Fin sent =>
            let session := Session.normalize_session_id (Some session) in
            let out := match out with
                       | Some o => Some (if truthy o then truncate_field o else o)
                       | None => None
                       end in
            if existsb (λ i, String.eqb (int_id i) new_id) (ints db) then (Raise "IntegrityError", db)
            else
              let row :=
                match dget k (rels db) with
                | None => mkRel DEFAULT_TRUST 1 (Some now) None session None
                | Some r => mkRel (trust_score r) (interaction_count r + 1) (Some now) (notes r)
                              (rel_session r) (identity r)
                end in
              (Ok new_id,
               mkRelDb (dset k row (rels db))
                 (ints db ++ [mkInt new_id k itype out (clamp_sentiment sent) now session])%list)
        | _ => (Raise "ValueError", db)
        end
  end.

(** A [relationships:] entry of the configuration; the level is what [float()]
    made of the configured value. *)
Record SeedEntry := mkSeed { seed_agent : option string; seed_level : option (result string pyfloat) }.

(** [max(0.0, min(1.0, x))] of any float. *)
Definition clamp_trust_float (x : pyfloat) : Q :=
  match py_max (Fin 0) (py_min (Fin 1) x) with Fin q => q | _ => 0 end.

Definition seed_one (agent session principal epoch : string) (e : SeedEntry) (db : rel_db) :
    result string rel_db :=
  match seed_agent e, seed_level e with
  | Some other, Some level =>
      match level with
      | Raise err => if decide (err ∈ ["TypeError"; "ValueError"]) then Ok db else Raise err
      | Ok level =>
          let k := mkKey agent "agent" other "agent" principal epoch in
          if dmem k (rels db) then Ok db
          else Ok (set_row k (mkRel (clamp_trust_float level) 0 None None session None) db)
      end
  | _, _ => Ok db
  end.

(** The loop inserts as it goes; an exception leaves what was inserted. *)
Fixpoint seed_trust (agent session principal epoch : string) (entries : list SeedEntry) (db : rel_db) :
    result string unit * rel_db :=
  match entries with
  | [] => (Ok tt, db)
  | e :: entries =>
      match seed_one agent session principal epoch e db with
      | Ok db => seed_trust agent session principal epoch entries db
      | Raise err => (Raise err, db)
      end
  end.

(** ** Reads *)

Definition get_trust (k : RelKey) (db : rel_db) : Q :=
  match dget k (rels db) with Some r => trust_score r | None => DEFAULT_TRUST end.

Definition get_identity (k : RelKey) (db : rel_db) : option pydict :=
  match dget k (rels db) with Some r => identity r | None => None end.

(** The read, the merge and the upsert; [meanwhile] is what other tasks do to
    the tables between the two statements. *)
Definition upsert_identity (k : RelKey) (fields : pydict) (meanwhile : rel_db -> rel_db) (db : rel_db) :
    result string pydict * rel_db :=
  match validate_key k with
  | Raise e => (Raise e, db)
  | Ok _ =>
      let existing := default [] (get_identity k db) in
      let db := meanwhile db in
      match merge_identity existing fields with
      | Raise e => (Raise e, db)
      | Ok [] => (Ok [], db)
      | Ok merged =>
          let row :=
            match dget k (rels db) with
            | None => mkRel DEFAULT_TRUST 0 None None Session.LEGACY_SESSION_ID (Some merged)
            | Some r => mkRel (trust_score r) (interaction_count r) (last_interaction_at r) (notes r)
                          (rel_session r) (Some merged)
            end in
          (Ok merged, set_row k row db)
      end
  end.

Record RelationshipSummary := mkSummary {
  sum_other : string; sum_other_type : string;
  sum_trust : Q; sum_count : Z; sum_last : option Q; sum_notes : option string;
  sum_recent : list IntRow; sum_first : option Q;
}.

Definition history (k : RelKey) (sessions : option (list string)) (db : rel_db) : list IntRow :=
  List.filter (λ i, bool_decide (int_key i = k) && session_in sessions (int_session i)) (ints db).

(** [MIN] and [MAX] of a column; [NULL] over no rows. *)
Definition sql_min (l : list Q) : option Q := match l with [] => None | x :: xs => Some (qmin x xs) end.
Definition sql_max (l : list Q) : option Q := match l with [] => None | x :: xs => Some (qmax x xs) end.

(** [ORDER BY created_at DESC, rowid DESC LIMIT ?] *)
Definition recent_first (l : list IntRow) : list IntRow :=
  py_sorted (λ a b, Qle_bool (int_created_at b) (int_created_at a)) (reverse l).

Definition get_relationship_summary (k : RelKey) (sessions : option (list string)) (db : rel_db) :
    RelationshipSummary :=
  match dget k (rels db) with
  | None => mkSummary (other_id k) (other_type k) DEFAULT_TRUST 0 None None [] None
  | Some r =>
      let h := history k sessions db in
      mkSummary (other_id k) (other_type k) (trust_score r) (Z.of_nat (length h))
        (sql_max (map int_created_at h)) (notes r)
        (take MAX_RECENT_INTERACTIONS (recent_first h)) (sql_min (map int_created_at h))
  end.

(** [ORDER BY trust_score DESC, other_participant_id, other_participant_type] *)
Definition summary_le (a b : RelationshipSummary) : bool :=
  if Qeq_bool (sum_trust a) (sum_trust b) then
    if String.eqb (sum_other a) (sum_other b) then String.leb (sum_other_type a) (sum_other_type b)
    else String.leb (sum_other a) (sum_other b)
  else Qle_bool (sum_trust b) (sum_trust a).

Definition get_all_relationships (agent ptype principal epoch : string) (sessions : option (list string))
    (db : rel_db) : list RelationshipSummary :=
  py_sorted summary_le
    (map (λ kr, let h := history (fst kr) sessions db in
                mkSummary (other_id (fst kr)) (other_type (fst kr)) (trust_score (snd kr))
                  (Z.of_nat (length h)) (sql_max (map int_created_at h)) (notes (snd kr)) [] None)
       (List.filter (λ kr, String.eqb (participant_id (fst kr)) agent &&
                           String.eqb (participant_type (fst kr)) ptype &&
                           principal_eq principal (rel_principal (fst kr)) &&
                           epoch_eq epoch (rel_epoch (fst kr))) (rels db))).
