(* ===== verification/RelationshipsProps.v ===== *)
(** * Correctness of the relationship store

    An invariant over every history of calls, the exact effect of each
    mutation, the reads, and the identity merge with its interleaving. *)

From Stdlib Require Import Ascii Qabs Sorted.
From S2P Require Import Prelude PyStr PyFloat PyDict PyValue PySort MemoryEvents Ambient RowScope Relationships.
Local Open Scope string_scope.
Local Open Scope py_scope.

(** ** Histories *)

Inductive rel_op :=
| OpTrust (k : RelKey) (delta : pyfloat) (reason : string)
| OpDecay (agent ptype principal epoch : string) (rate : pyfloat)
| OpRecord (k : RelKey) (itype : string) (out : option string) (sent : pyfloat)
    (session new_id : string) (now : Q)
| OpSeed (agent session principal epoch : string) (entries : list SeedEntry)
| OpIdentity (k : RelKey) (fields : pydict).

Definition run_op (db : rel_db) (o : rel_op) : rel_db :=
  match o with
  | OpTrust k d r => snd (update_trust k d r db)
  | OpDecay a t p e r => snd (apply_decay a t p e r db)
  | OpRecord k i o s ss id now => snd (record_interaction k i o s ss id now db)
  | OpSeed a s p e es => snd (seed_trust a s p e es db)
  | OpIdentity k f => snd (upsert_identity k f (λ db, db) db)
  end.

Definition run_ops (db : rel_db) (os : list rel_op) : rel_db := fold_left run_op os db.

(** The interactions recorded under a key. *)
Definition recorded (k : RelKey) (db : rel_db) : list IntRow :=
  List.filter (λ i, bool_decide (int_key i = k)) (ints db).

Record rel_ok (db : rel_db) : Prop := {
  ok_keys : dwf (rels db);
  ok_trust : forall k r, dget k (rels db) = Some r -> (0 <= trust_score r <= 1)%Q;
  ok_count : forall k r, dget k (rels db) = Some r ->
    interaction_count r = Z.of_nat (length (recorded k db));
  ok_row : forall i, i ∈ ints db -> is_Some (dget (int_key i) (rels db));
  ok_ids : NoDup (map int_id (ints db));
  ok_sentiment : forall i, i ∈ ints db -> (-1 <= sentiment i <= 1)%Q;
}.

(** ** Lemmas *)

Lemma clamp_trust_range x : (0 <= clamp_trust x <= 1)%Q.
Proof. apply clamp_unit. Qed.

Lemma clamp_trust_float_spec x :
  py_max (Fin 0) (py_min (Fin 1) x) = Fin (clamp_trust_float x) /\ (0 <= clamp_trust_float x <= 1)%Q /\
  forall q, x = Fin q -> clamp_trust_float x = clamp_trust q.
Proof.
  unfold clamp_trust_float, py_max, py_min. destruct x as [q| | |]; [|split; [done|]; split; [split; by apply Qle_bool_iff|done]..].
  unfold clamp_trust, fmax, fmin. cbn [flt]. destruct (Qltb q 1) eqn:E1; cbn [flt].
  - destruct (Qltb 0 q) eqn:E0; q_props; (split; [done|]; split; [lra|]); intros ? [= ->];
      [by rewrite (proj2 (Qltb_lt _ 1) E1), (proj2 (Qltb_lt 0 _) E0)
      |by rewrite (proj2 (Qltb_lt _ 1) E1), (proj2 (Qltb_ge 0 _) E0)].
  - q_props. split; [done|]. split; [split; by apply Qle_bool_iff|]. intros ? [= ->]. by rewrite (proj2 (Qltb_ge _ 1) E1).
Qed.

Lemma recorded_none k db : rel_ok db -> dget k (rels db) = None -> recorded k db = [].
Proof.
  intros Hok Hk. unfold recorded. destruct (List.filter _ _) as [|i l] eqn:E; [done|].
  assert (i ∈ List.filter (λ i, bool_decide (int_key i = k)) (ints db)) as Hi by (rewrite E; left).
  apply list_elem_of_In, filter_In in Hi as [Hin Hik%bool_decide_eq_true].
  destruct (ok_row db Hok i) as [r Hr]; [by apply list_elem_of_In|]. rewrite Hik in Hr. congruence.
Qed.

Lemma dget_set_row k k' r db :
  dget k' (rels (set_row k r db)) = if decide (k = k') then Some r else dget k' (rels db).
Proof.
  unfold set_row. cbn [rels]. case_decide as E; [subst; by rewrite dget_dset_eq|by rewrite dget_dset_ne].
Qed.

(** Writing a row in range, with the right count, keeps the invariant. *)
Lemma rel_ok_set_row k r db :
  rel_ok db -> (0 <= trust_score r <= 1)%Q ->
  interaction_count r = Z.of_nat (length (recorded k db)) -> rel_ok (set_row k r db).
Proof.
  intros Hok Ht Hc. split.
  - apply dwf_dset, Hok.
  - intros k' r'. rewrite dget_set_row. case_decide; [by intros [= <-]|apply Hok].
  - intros k' r'. rewrite dget_set_row. case_decide; [intros [= <-]; by subst|apply Hok].
  - intros i Hi. rewrite dget_set_row. case_decide; [eauto|by apply Hok].
  - apply Hok.
  - apply Hok.
Qed.

Lemma row_count k db :
  rel_ok db -> match dget k (rels db) with Some r => interaction_count r | None => 0%Z end =
    Z.of_nat (length (recorded k db)).
Proof.
  intros Hok. destruct (dget k (rels db)) as [r|] eqn:E; [by apply Hok|].
  by rewrite recorded_none.
Qed.

Lemma update_trust_ok k d reason db : rel_ok db -> rel_ok (snd (update_trust k d reason db)).
Proof.
  intros Hok. unfold update_trust. destruct (validate_key k); [|done]. destruct d as [d| | |]; try done.
  cbn [snd]. pose proof (row_count k db Hok) as Hc.
  destruct (dget k (rels db)); apply rel_ok_set_row; try done; apply clamp_trust_range.
Qed.

Lemma identity_ok k fields mw db : rel_ok (mw db) -> rel_ok db -> rel_ok (snd (upsert_identity k fields mw db)).
Proof.
  intros Hm Hok. unfold upsert_identity. destruct (validate_key k); [|done].
  destruct (merge_identity _ _) as [[|kv m]|]; [done| |done]. cbn [snd].
  pose proof (row_count k (mw db) Hm) as Hc.
  destruct (dget k (rels (mw db))) eqn:E; apply rel_ok_set_row; try done.
  exact (ok_trust _ Hm k _ E).
Qed.

Lemma seed_one_ok agent session principal epoch e db db' :
  rel_ok db -> seed_one agent session principal epoch e db = Ok db' -> rel_ok db'.
Proof.
  intros Hok. unfold seed_one. destruct (seed_agent e) as [other|]; [|by intros [= <-]].
  destruct (seed_level e) as [[lv|err]|]; [|case_decide; [by intros [= <-]|done]|by intros [= <-]].
  set (k := mkKey _ _ _ _ _ _). unfold dmem. destruct (dget k (rels db)) eqn:E; [by intros [= <-]|].
  intros [= <-]. apply rel_ok_set_row; [done|apply clamp_trust_float_spec|].
  by rewrite recorded_none.
Qed.

Lemma seed_trust_ok agent session principal epoch entries db :
  rel_ok db -> rel_ok (snd (seed_trust agent session principal epoch entries db)).
Proof.
  revert db. induction entries as [|e es IH]; intros db Hok; [done|]. cbn [seed_trust].
  destruct (seed_one _ _ _ _ _ _) eqn:E; [|done]. apply IH. by eapply seed_one_ok.
Qed.

(** A map that keeps the keys. *)
Lemma dget_map_rows (g : RelKey * RelRow -> RelKey * RelRow) (d : list (RelKey * RelRow)) k :
  (forall kr, fst (g kr) = fst kr) ->
  dget k (map g d) = option_map (λ r, snd (g (k, r))) (dget k d).
Proof.
  intros Hg. induction d as [|[k' r] d IH]; [done|]. cbn [map dget].
  destruct (g (k', r)) as [k2 r2] eqn:E. pose proof (Hg (k', r)) as H. rewrite E in H. simpl in H. subst k2.
  case_decide as Hk; [|done]. subst. simpl. by rewrite E.
Qed.

Lemma dkeys_map_rows (g : RelKey * RelRow -> RelKey * RelRow) (d : list (RelKey * RelRow)) :
  (forall kr, fst (g kr) = fst kr) -> dkeys (map g d) = dkeys d.
Proof. intros Hg. unfold dkeys. rewrite map_map. apply map_ext, Hg. Qed.

Lemma decay_row_range rate r :
  (0 < rate <= 1)%Q -> (0 <= trust_score r <= 1)%Q -> (0 <= trust_score (decay_row rate r) <= 1)%Q.
Proof. intros H1 H2. unfold decay_row. cbn [trust_score]. split; nra. Qed.

Lemma apply_decay_ok agent ptype principal epoch rate db :
  rel_ok db -> rel_ok (snd (apply_decay agent ptype principal epoch rate db)).
Proof.
  intros Hok. unfold apply_decay. destruct rate as [rate| | |]; try done.
  destruct (Qltb 0 rate && Qle_bool rate 1) eqn:E; [|done]. cbn [negb snd].
  bool_props. destruct E as [E1 E2]. q_props.
  set (g := λ kr : RelKey * RelRow, if decays agent ptype principal epoch kr.1 kr.2 then _ else _).
  assert (forall kr, fst (g kr) = fst kr) as Hg by (intros kr; unfold g; by destruct (decays _ _ _ _ _ _)).
  split; cbn [rels ints].
  - unfold dwf. rewrite dkeys_map_rows by done. apply Hok.
  - intros k r. rewrite dget_map_rows by done. destruct (dget k (rels db)) as [r0|] eqn:Ek; [|done].
    intros [= <-]. pose proof (ok_trust db Hok k r0 Ek). unfold g. cbn [fst snd].
    destruct (decays _ _ _ _ _ _); cbn [snd]; [by apply decay_row_range|done].
  - intros k r. rewrite dget_map_rows by done. destruct (dget k (rels db)) as [r0|] eqn:Ek; [|done].
    intros [= <-]. pose proof (ok_count db Hok k r0 Ek) as Hc. unfold g. cbn [fst snd].
    by destruct (decays _ _ _ _ _ _).
  - intros i Hi. rewrite dget_map_rows by done. destruct (ok_row db Hok i Hi) as [r ->]. by eexists.
  - apply Hok.
  - apply Hok.
Qed.

Lemma clamp_sentiment_range x : (-1 <= clamp_sentiment x <= 1)%Q.
Proof.
  unfold clamp_sentiment. destruct (fmin_spec 1 x) as (?&?&_), (fmax_spec (-1) (fmin 1 x)) as (?&?&E).
  split; [done|]. destruct E as [E|E]; rewrite E; lra.
Qed.

Lemma record_interaction_ok k itype out sent session new_id now db :
  rel_ok db -> rel_ok (snd (record_interaction k itype out sent session new_id now db)).
Proof.
  intros Hok. unfold record_interaction. destruct (validate_key k); [|done].
  destruct (blank itype); [done|]. destruct sent as [sent| | |]; try done.
  destruct (existsb _ _) eqn:Eid; [done|]. cbn [snd]. pose proof (row_count k db Hok) as Hc.
  set (new := mkInt _ _ _ _ _ _ _). set (row := match dget k (rels db) with Some _ => _ | None => _ end).
  assert (forall k', recorded k' (mkRelDb (dset k row (rels db)) (ints db ++ [new])%list) =
    (recorded k' db ++ if decide (k = k') then [new] else [])%list) as Hrec.
  { intros k'. unfold recorded. cbn [ints]. rewrite List.filter_app. simpl.
    by repeat case_decide || case_bool_decide. }
  assert (new_id ∉ map int_id (ints db)) as Hfresh.
  { intros (i&->&Hi)%list_elem_of_fmap. apply not_true_iff_false in Eid. apply Eid, existsb_exists.
    exists i. split; [by apply list_elem_of_In|apply String.eqb_refl]. }
  split.
  - apply dwf_dset, Hok.
  - cbn [rels]. intros k' r'. destruct (decide (k = k')) as [<-|Hne].
    + rewrite dget_dset_eq. intros [= <-]. subst row. destruct (dget k (rels db)) as [r0|] eqn:Ek.
      * by apply (ok_trust db Hok k r0).
      * unfold DEFAULT_TRUST. cbn [trust_score]. lra.
    + rewrite dget_dset_ne by done. apply Hok.
  - intros k' r'. rewrite Hrec, length_app. cbn [rels]. case_decide as Hne; [subst k'|].
    + rewrite dget_dset_eq. intros [= <-]. cbn [length]. subst row. destruct (dget k (rels db)); cbn [interaction_count]; lia.
    + rewrite dget_dset_ne by done. intros Hg. rewrite (ok_count db Hok k' r' Hg). simpl. lia.
  - cbn [rels ints]. intros i [Hi| ->%list_elem_of_singleton]%elem_of_app.
    + destruct (decide (k = int_key i)) as [<-|]; [rewrite dget_dset_eq; eauto|].
      rewrite dget_dset_ne by done. by apply Hok.
    + cbn [int_key new]. rewrite dget_dset_eq. eauto.
  - cbn [ints]. rewrite map_app. apply NoDup_app. split; [apply Hok|]. split; [|apply NoDup_singleton].
    intros x Hx ->%list_elem_of_singleton. done.
  - cbn [ints]. intros i [Hi| ->%list_elem_of_singleton]%elem_of_app; [by apply Hok|].
    apply clamp_sentiment_range.
Qed.

Lemma run_op_ok db o : rel_ok db -> rel_ok (run_op db o).
Proof.
  intros Hok. destruct o; cbn [run_op].
  - by apply update_trust_ok.
  - by apply apply_decay_ok.
  - by apply record_interaction_ok.
  - by apply seed_trust_ok.
  - by apply identity_ok.
Qed.

Lemma run_ops_ok os db : rel_ok db -> rel_ok (run_ops db os).
Proof. revert db. induction os as [|o os IH]; intros db H; [done|]. apply IH, run_op_ok, H. Qed.

Lemma rel_ok_new : rel_ok rel_db_new.
Proof. split; try done; try apply NoDup_nil_2; intros i Hi; by apply not_elem_of_nil in Hi. Qed.

#[export] Hint Resolve run_op_ok run_ops_ok rel_ok_new : py.

(** ** The tenant frame *)

Definition tenant (k : RelKey) : string * string * string :=
  (participant_id k, rel_principal k, rel_epoch k).

Definition op_tenant (o : rel_op) : string * string * string :=
  match o with
  | OpTrust k _ _ | OpRecord k _ _ _ _ _ _ | OpIdentity k _ => tenant k
  | OpDecay a _ p e _ | OpSeed a _ p e _ => (a, p, e)
  end.

(** What the reads of a key look at. *)
Definition same_view (k : RelKey) (db db' : rel_db) : Prop :=
  dget k (rels db') = dget k (rels db) /\ recorded k db' = recorded k db.

Lemma same_view_set_row k k' r db : k' <> k -> same_view k db (set_row k' r db).
Proof. intros Hne. split; [|done]. rewrite dget_set_row. by rewrite decide_False. Qed.

Lemma same_view_trans k db1 db2 db3 : same_view k db1 db2 -> same_view k db2 db3 -> same_view k db1 db3.
Proof. intros [H1 H2] [H3 H4]. split; congruence. Qed.

Lemma seed_trust_frame agent session principal epoch entries db k :
  tenant k <> (agent, principal, epoch) ->
  same_view k db (snd (seed_trust agent session principal epoch entries db)).
Proof.
  intros Hk. revert db. induction entries as [|e es IH]; intros db; [done|]. cbn [seed_trust].
  destruct (seed_one _ _ _ _ _ _) as [db'|] eqn:E; [|done]. eapply same_view_trans; [|apply IH].
  unfold seed_one in E. destruct (seed_agent e); [|by simplify_eq].
  destruct (seed_level e) as [[lv|err]|]; [|case_decide; by simplify_eq|by simplify_eq].
  destruct (dmem _ _); simplify_eq; [done|]. apply same_view_set_row. intros <-. by apply Hk.
Qed.

Lemma run_op_frame o db k : op_tenant o <> tenant k -> same_view k db (run_op db o).
Proof.
  destruct o as [k' d r|a t p e rate|k' i out s ss id now|a s p e es|k' f]; cbn [op_tenant run_op]; intros Ht.
  - unfold update_trust. destruct (validate_key k'); [|done]. destruct d; try done.
    apply same_view_set_row. congruence.
  - unfold apply_decay. destruct rate as [rate| | |]; try done. destruct (negb _); [done|].
    split; [|done]. cbn [snd rels].
    rewrite dget_map_rows by (intros kr; by destruct (decays _ _ _ _ _ _)).
    destruct (dget k (rels db)) as [r|]; [|done]. cbn [option_map fst snd].
    destruct (decays a t p e k r) eqn:E; [|done]. exfalso. apply Ht. unfold decays, principal_eq, epoch_eq in E.
    bool_props. destruct E as [[[[E1 _] E3] E4] _]. apply String.eqb_eq in E1, E3, E4. by subst.
  - unfold record_interaction. destruct (validate_key k'); [|done]. destruct (blank i); [done|].
    destruct s; try done. destruct (existsb _ _); [done|]. assert (k' <> k) as Hne by congruence.
    split; cbn [snd rels]; [by rewrite dget_dset_ne|]. unfold recorded. cbn [ints].
    rewrite List.filter_app. simpl. rewrite bool_decide_false by done. apply app_nil_r.
  - apply seed_trust_frame. congruence.
  - unfold upsert_identity. destruct (validate_key k'); [|done].
    destruct (merge_identity _ _) as [[|]|]; try done. apply same_view_set_row. congruence.
Qed.

Lemma run_ops_frame os db k : Forall (λ o, op_tenant o <> tenant k) os -> same_view k db (run_ops db os).
Proof.
  intros H. revert db. induction H as [|o os Ho _ IH]; intros db; [done|].
  eapply same_view_trans; [by apply run_op_frame|apply IH].
Qed.

Lemma history_recorded k sessions db :
  history k sessions db = List.filter (λ i, session_in sessions (int_session i)) (recorded k db).
Proof.
  unfold history, recorded. induction (ints db) as [|i l IH]; simpl; [done|].
  case_bool_decide; simpl; [|done]. destruct (session_in _ _); by rewrite IH.
Qed.

(** Only the identity writer touches identities. *)
Definition writes_identity (o : rel_op) : bool := match o with OpIdentity _ _ => true | _ => false end.

Lemma identity_set_row k k' r db :
  identity r = get_identity k' db -> get_identity k (set_row k' r db) = get_identity k db.
Proof.
  intros Hr. unfold get_identity at 1. rewrite dget_set_row. case_decide; [by subst|done].
Qed.

Lemma seed_identity agent session principal epoch entries db k :
  get_identity k (snd (seed_trust agent session principal epoch entries db)) = get_identity k db.
Proof.
  revert db. induction entries as [|e es IH]; intros db; [done|]. cbn [seed_trust].
  destruct (seed_one _ _ _ _ _ _) as [db'|] eqn:E; [|done]. rewrite IH.
  unfold seed_one in E. destruct (seed_agent e); [|by simplify_eq].
  destruct (seed_level e) as [[lv|err]|]; [|case_decide; by simplify_eq|by simplify_eq].
  unfold dmem in E. destruct (dget _ (rels db)) eqn:Ek; simplify_eq; [done|].
  apply identity_set_row. unfold get_identity. by rewrite Ek.
Qed.

Lemma run_op_identity o db k : writes_identity o = false -> get_identity k (run_op db o) = get_identity k db.
Proof.
  destruct o as [k' d r|a t p e rate|k' i out s ss id now|a s p e es|k' f]; cbn [run_op]; intros Ho; [..|done].
  - unfold update_trust. destruct (validate_key k'); [|done]. destruct d; try done.
    apply identity_set_row. unfold get_identity. by destruct (dget k' (rels db)).
  - unfold apply_decay. destruct rate as [rate| | |]; try done. destruct (negb _); [done|].
    unfold get_identity. cbn [snd rels].
    rewrite dget_map_rows by (intros kr; by destruct (decays _ _ _ _ _ _)).
    destruct (dget k (rels db)) as [r|]; [|done]. cbn [option_map fst snd]. by destruct (decays _ _ _ _ _ _).
  - unfold record_interaction. destruct (validate_key k'); [|done]. destruct (blank i); [done|].
    destruct s; try done. destruct (existsb _ _); [done|]. cbn [snd].
    match goal with |- get_identity k (mkRelDb (dset k' ?row _) _) = _ =>
      change (get_identity k (set_row k' row db) = get_identity k db) end.
    apply identity_set_row. unfold get_identity. by destruct (dget k' (rels db)).
  - apply seed_identity.
Qed.

Lemma run_ops_identity os db k :
  Forall (λ o, writes_identity o = false) os -> get_identity k (run_ops db os) = get_identity k db.
Proof.
  intros H. revert db. induction H as [|o os Ho _ IH]; intros db; [done|].
  cbn [run_ops fold_left]. fold (run_ops (run_op db o) os). rewrite IH. by apply run_op_identity.
Qed.

(** ** The history page *)

Lemma recent_first_sorted l :
  StronglySorted (λ a b, int_created_at b <= int_created_at a)%Q (recent_first l).
Proof.
  eapply StronglySorted_impl; [|apply py_sorted_sorted].
  - intros a b H. simpl in H. by apply Qle_bool_iff.
  - intros x y H. q_props. lra.
  - intros x y z H1 H2. q_props. lra.
Qed.

Lemma recent_first_perm l : recent_first l ≡ₚ l.
Proof. unfold recent_first. by rewrite py_sorted_perm, reverse_Permutation. Qed.

Lemma StronglySorted_split {A} (R : A -> A -> Prop) l k a b :
  StronglySorted R (l ++ k) -> a ∈ l -> b ∈ k -> R a b.
Proof.
  induction l as [|x l IH]; intros Hs Ha Hb; [by apply not_elem_of_nil in Ha|].
  simpl in Hs. apply StronglySorted_inv in Hs as [Hs Hx]. apply elem_of_cons in Ha as [->|Ha]; [|auto].
  rewrite Forall_forall in Hx. apply Hx, elem_of_app. by right.
Qed.

Lemma qfold_spec (f : Q -> Q -> Q) (R : Q -> Q -> Prop) x xs :
  (forall a b, R (f a b) a /\ R (f a b) b /\ (f a b = a \/ f a b = b)) ->
  (forall a, R a a) -> (forall a b c, R a b -> R b c -> R a c) ->
  fold_left f xs x ∈ x :: xs /\ forall y, y ∈ x :: xs -> R (fold_left f xs x) y.
Proof.
  intros Hf Hr Ht. revert x. induction xs as [|z xs IH]; intros x; cbn [fold_left].
  - split; [left|]. intros y ->%list_elem_of_singleton. apply Hr.
  - destruct (IH (f x z)) as [Hin Hall], (Hf x z) as (H1&H2&H3). split.
    + apply elem_of_cons in Hin as [E|Hin]; [|by do 2 right].
      rewrite E. destruct H3 as [-> | ->]; [left|right; left].
    + assert (R (fold_left f xs (f x z)) (f x z)) as Hfx by (apply Hall; left).
      intros y [->|[->|Hy]%elem_of_cons]%elem_of_cons; [by eapply Ht|by eapply Ht|].
      apply Hall. by right.
Qed.

Lemma sql_min_spec l m : sql_min l = Some m -> m ∈ l /\ forall y, y ∈ l -> (m <= y)%Q.
Proof.
  destruct l as [|x xs]; [done|]. intros [= <-]. apply (qfold_spec fmin Qle).
  - intros a b. apply fmin_spec.
  - intros a. lra.
  - intros a b c. apply Qle_trans.
Qed.

Lemma sql_max_spec l m : sql_max l = Some m -> m ∈ l /\ forall y, y ∈ l -> (y <= m)%Q.
Proof.
  destruct l as [|x xs]; [done|]. intros [= <-]. apply (qfold_spec fmax (λ a b, b <= a)%Q).
  - intros a b. apply fmax_spec.
  - intros a. lra.
  - intros a b c H1 H2. lra.
Qed.

Lemma sql_min_None l : sql_min l = None <-> l = [].
Proof. by destruct l. Qed.

Lemma elem_history k sessions db i :
  i ∈ history k sessions db <-> i ∈ ints db /\ int_key i = k /\ session_in sessions (int_session i) = true.
Proof.
  unfold history. rewrite !list_elem_of_In, filter_In, andb_true_iff, bool_decide_eq_true. tauto.
Qed.

(** ** Theorems *)

(** C34. Over every history of calls on an empty store, from any tenants in any
    order: each pair has one row; trust stays in [0, 1] and sentiments in
    [-1, 1]; a row's counter is the number of interactions recorded under its
    key; and every recorded interaction has its row and its own id. *)
Theorem relationships_invariant os :
  let db := run_ops rel_db_new os in
  NoDup (dkeys (rels db)) /\ NoDup (map int_id (ints db)) /\
  (forall k r, dget k (rels db) = Some r ->
     (0 <= trust_score r <= 1)%Q /\ interaction_count r = Z.of_nat (length (recorded k db))) /\
  (forall i, i ∈ ints db -> is_Some (dget (int_key i) (rels db)) /\ (-1 <= sentiment i <= 1)%Q).
Proof.
  cbv zeta. assert (rel_ok (run_ops rel_db_new os)) as [H1 H2 H3 H4 H5 H6] by auto with py.
  split; [exact H1|]. split; [exact H5|]. split; intros; split; eauto.
Qed.

(** A trust update moves one pair's score by the delta clamped to a fifth,
    within the unit interval, and records the reason; the pair's counter and
    identity and every other row stay; a first contact starts at neutral; the
    value returned is the value stored. *)
Theorem update_trust_exact k d reason db :
  rel_ok db -> validate_key k = Ok tt ->
  let '(res, db') := update_trust k (Fin d) reason db in
  let t := clamp_trust (get_trust k db + fmax (- MAX_TRUST_DELTA) (fmin MAX_TRUST_DELTA d)) in
  res = Ok t /\ get_trust k db' = t /\ (0 <= t <= 1)%Q /\
  (Qabs (t - get_trust k db) <= MAX_TRUST_DELTA)%Q /\
  (exists r, dget k (rels db') = Some r /\ notes r = Some (truncate_field reason) /\
     identity r = get_identity k db /\ interaction_count r = Z.of_nat (length (recorded k db))) /\
  (forall k', k' <> k -> dget k' (rels db') = dget k' (rels db)) /\ ints db' = ints db.
Proof.
  intros Hok Hv. unfold update_trust. rewrite Hv. cbv zeta.
  set (dl := fmax (- MAX_TRUST_DELTA) (fmin MAX_TRUST_DELTA d)).
  set (row := match dget k (rels db) with None => _ | Some _ => _ end).
  assert (trust_score row = clamp_trust (get_trust k db + dl)) as Ht.
  { unfold row, get_trust. by destruct (dget k (rels db)). }
  assert (- MAX_TRUST_DELTA <= dl <= MAX_TRUST_DELTA)%Q as Hd.
  { unfold dl, MAX_TRUST_DELTA. destruct (fmin_spec (2 # 10) d) as (?&?&_),
      (fmax_spec (- (2 # 10)) (fmin (2 # 10) d)) as (?&?&E). split; [done|]. destruct E as [->| ->]; lra. }
  assert (0 <= get_trust k db <= 1)%Q as Hg.
  { unfold get_trust. destruct (dget k (rels db)) eqn:E; [by eapply ok_trust|]. unfold DEFAULT_TRUST. lra. }
  rewrite Ht. split; [done|]. split.
  { unfold get_trust at 1. rewrite dget_set_row. by rewrite decide_True. }
  split; [apply clamp_trust_range|]. split; [|split; [|split; [|done]]].
  - unfold clamp_trust. apply Qabs_Qle_condition.
    destruct (fmin_spec 1 (get_trust k db + dl)) as (?&?&E1),
      (fmax_spec 0 (fmin 1 (get_trust k db + dl))) as (?&?&E2). unfold MAX_TRUST_DELTA in *.
    destruct E1 as [E1|E1], E2 as [E2|E2]; rewrite E2 in *; rewrite E1 in *; split; lra.
  - exists row. rewrite dget_set_row, decide_True by done. split; [done|].
    rewrite <- (row_count k db Hok). unfold row, get_identity. by destruct (dget k (rels db)).
  - intros k' Hk'. by rewrite dget_set_row, decide_False.
Qed.

(** A decay pass moves every matching score towards neutral by the given
    share of its distance, without crossing it, and touches nothing else: other
    tenants, rows within a thousandth of neutral, other columns, the history.
    It reports the number of rows moved and refuses any rate outside (0, 1]. *)
Theorem decay_exact agent ptype principal epoch rate db :
  match apply_decay agent ptype principal epoch rate db with
  | (Raise e, db') => e = "ValueError" /\ db' = db /\
      forall q, rate = Fin q -> ~ (0 < q <= 1)%Q
  | (Ok n, db') => exists q, rate = Fin q /\ (0 < q <= 1)%Q /\ ints db' = ints db /\
      dkeys (rels db') = dkeys (rels db) /\
      n = Z.of_nat (length (List.filter (λ kr, decays agent ptype principal epoch kr.1 kr.2) (rels db))) /\
      forall k r, dget k (rels db) = Some r -> exists r', dget k (rels db') = Some r' /\
        if decays agent ptype principal epoch k r
        then (trust_score r' - (1 # 2) == (1 - q) * (trust_score r - (1 # 2)))%Q /\ notes r' = notes r /\
             interaction_count r' = interaction_count r /\ identity r' = identity r
        else r' = r
  end.
Proof.
  unfold apply_decay. destruct rate as [q| | |]; try by (split; [done|]; split; [done|]; intros ? [=]).
  destruct (Qltb 0 q && Qle_bool q 1) eqn:E; cbn [negb].
  - bool_props. destruct E as [E1 E2]. q_props. exists q. split; [done|]. split; [done|]. split; [done|].
    set (g := λ kr : RelKey * RelRow, if decays agent ptype principal epoch kr.1 kr.2 then _ else _).
    assert (forall kr, fst (g kr) = fst kr) as Hg by (intros kr; unfold g; by destruct (decays _ _ _ _ _ _)).
    cbn [rels]. split; [by apply dkeys_map_rows|]. split; [done|]. intros k r Hk.
    rewrite dget_map_rows, Hk by done. cbn [option_map]. eexists. split; [done|]. unfold g. cbn [fst snd].
    destruct (decays agent ptype principal epoch k r); [|done]. unfold decay_row. cbn [snd trust_score].
    split; [ring|done].
  - split; [done|]. split; [done|]. intros ? [= <-] [H1 H2]. apply not_true_iff_false in E. apply E.
    apply andb_true_iff. split; [by apply Qltb_lt|by apply Qle_bool_iff].
Qed.

(** What a prompt is told of a relationship: trust and notes are the pair's
    one row, whatever the session; the count, the first and last times and the
    page of at most ten recent interactions are those of the admitted sessions
    only, and the page holds the newest, newest first. *)
Theorem summary_exact k sessions db r :
  dget k (rels db) = Some r ->
  let s := get_relationship_summary k sessions db in
  let h := history k sessions db in
  sum_trust s = trust_score r /\ sum_notes s = notes r /\ sum_count s = Z.of_nat (length h) /\
  (forall i, i ∈ h <-> i ∈ ints db /\ int_key i = k /\ session_in sessions (int_session i) = true) /\
  (length (sum_recent s) <= 10)%nat /\
  StronglySorted (λ a b, int_created_at b <= int_created_at a)%Q (sum_recent s) /\
  (exists rest, (sum_recent s ++ rest)%list ≡ₚ h /\ ((length h <= 10)%nat -> rest = []) /\
     forall i j, i ∈ sum_recent s -> j ∈ rest -> (int_created_at j <= int_created_at i)%Q) /\
  (h = [] <-> sum_first s = None) /\
  (forall t, sum_first s = Some t -> exists i, i ∈ h /\ int_created_at i = t) /\
  (forall f l i, sum_first s = Some f -> sum_last s = Some l -> i ∈ h ->
     (f <= int_created_at i <= l)%Q).
Proof.
  intros Hr. cbv zeta. unfold get_relationship_summary. rewrite Hr.
  cbn [sum_trust sum_notes sum_count sum_recent sum_first sum_last].
  set (h := history k sessions db). pose proof (recent_first_sorted h) as Hs.
  rewrite <- (take_drop MAX_RECENT_INTERACTIONS (recent_first h)) in Hs.
  split; [done|]. split; [done|]. split; [done|]. split; [intros i; apply elem_history|].
  split; [rewrite length_take; apply Nat.le_min_l|].
  split; [|split; [|split; [|split]]].
  - eapply StronglySorted_sublist; [|apply recent_first_sorted]. apply sublist_take.
  - exists (drop MAX_RECENT_INTERACTIONS (recent_first h)). split; [rewrite take_drop; apply recent_first_perm|].
    split; [|intros i j Hi Hj; by eapply (StronglySorted_split _ _ _ i j) in Hs].
    intros Hl. apply nil_length_inv. rewrite length_drop, recent_first_perm. unfold MAX_RECENT_INTERACTIONS. lia.
  - rewrite sql_min_None. destruct h; [done|]. by split.
  - intros t Ht. apply sql_min_spec in Ht as [(i&->&Hi)%list_elem_of_fmap _]. by exists i.
  - intros f l i Hf Hl Hi. assert (int_created_at i ∈ map int_created_at h) as Hm by (by apply list_elem_of_fmap_2).
    split; [by apply (sql_min_spec _ _ Hf)|by apply (sql_max_spec _ _ Hl)].
Qed.

(** The identity write loses no update: whatever trust updates, decays,
    interactions and seeds run between its read and its write, the row ends
    with those effects and with the fields merged into the identity stored at
    the moment of the write; every other row is as the others left it. *)
Theorem identity_no_lost_update k fields os db m :
  Forall (λ o, writes_identity o = false) os -> validate_key k = Ok tt ->
  merge_identity (default [] (get_identity k db)) fields = Ok m -> m <> [] ->
  let mid := run_ops db os in
  let '(res, db') := upsert_identity k fields (λ db, run_ops db os) db in
  res = Ok m /\ get_identity k db' = Some m /\
  merge_identity (default [] (get_identity k mid)) fields = Ok m /\
  get_trust k db' = get_trust k mid /\ ints db' = ints mid /\
  (forall r, dget k (rels mid) = Some r -> exists r', dget k (rels db') = Some r' /\
     notes r' = notes r /\ interaction_count r' = interaction_count r /\
     last_interaction_at r' = last_interaction_at r) /\
  (forall k', k' <> k -> dget k' (rels db') = dget k' (rels mid)).
Proof.
  intros Hos Hv Hm Hne. cbv zeta. unfold upsert_identity. rewrite Hv, Hm.
  destruct m as [|kv m]; [done|]. split; [done|].
  set (row := match dget k (rels (run_ops db os)) with None => _ | Some _ => _ end).
  assert (dget k (rels (set_row k row (run_ops db os))) = Some row) as Hrow.
  { by rewrite dget_set_row, decide_True. }
  split; [|split; [by rewrite run_ops_identity|split; [|split; [done|split]]]].
  - unfold get_identity. rewrite Hrow. unfold row. by destruct (dget k (rels (run_ops db os))).
  - unfold get_trust. rewrite Hrow. unfold row. by destruct (dget k (rels (run_ops db os))).
  - intros r Hr. exists row. split; [done|]. unfold row. by rewrite Hr.
  - intros k' Hk'. by rewrite dget_set_row, decide_False.
Qed.

(** Tenants are isolated: no history of calls made for other tenants (agent,
    principal and epoch) changes what the reads of a pair answer: its trust,
    its identity and its summary over any sessions. *)
Theorem tenant_isolation k os db sessions :
  Forall (λ o, op_tenant o <> tenant k) os ->
  let db' := run_ops db os in
  get_trust k db' = get_trust k db /\ get_identity k db' = get_identity k db /\
  get_relationship_summary k sessions db' = get_relationship_summary k sessions db.
Proof.
  intros H. cbv zeta. destruct (run_ops_frame os db k H) as [H1 H2].
  unfold get_trust, get_identity, get_relationship_summary. rewrite H1. split; [done|]. split; [done|].
  by rewrite !history_recorded, H2.
Qed.

(** ** Witnesses *)

Definition demo_key : RelKey := mkKey "ada" "agent" "mike" "user" "local" "live".
Definition demo_other : RelKey := mkKey "ada" "agent" "mike" "user" "tenant-b" "live".

Definition demo_ops : list rel_op :=
  [OpSeed "ada" "boot" "local" "live" [mkSeed (Some "mike") (Some (Ok (Fin (9 # 10))))];
   OpRecord demo_key "chat" (Some "ok") (Fin 2) "room-1" "i1" 10;
   OpRecord demo_key "chat" None (Fin 0) "room-2" "i2" 20;
   OpTrust demo_key (Fin 1) "helpful"].

Definition demo_db : rel_db := run_ops rel_db_new demo_ops.

Lemma demo_rel_ok : rel_ok demo_db.
Proof. unfold demo_db. auto with py. Qed.

Lemma relationships_invariant_witness :
  exists r, dget demo_key (rels demo_db) = Some r /\
    (0 <= trust_score r <= 1)%Q /\ interaction_count r = Z.of_nat (length (recorded demo_key demo_db)).
Proof.
  eexists. split; [vm_compute; reflexivity|].
  refine (proj1 (proj2 (proj2 (relationships_invariant demo_ops))) demo_key _ _). vm_compute. reflexivity.
Defined.

Lemma update_trust_exact_witness :
  fst (update_trust demo_key (Fin (-1)) "let down" demo_db) =
    Ok (clamp_trust (get_trust demo_key demo_db + fmax (- MAX_TRUST_DELTA) (fmin MAX_TRUST_DELTA (-1)))).
Proof.
  pose proof (update_trust_exact demo_key (-1) "let down" demo_db demo_rel_ok eq_refl) as H.
  destruct (update_trust demo_key (Fin (-1)) "let down" demo_db) as [res db']. exact (proj1 H).
Defined.

Lemma summary_exact_witness :
  exists r, dget demo_key (rels demo_db) = Some r /\
    sum_count (get_relationship_summary demo_key (Some ["room-1"; "legacy"]) demo_db) =
      Z.of_nat (length (history demo_key (Some ["room-1"; "legacy"]) demo_db)).
Proof.
  eexists. split; [vm_compute; reflexivity|].
  refine (proj1 (proj2 (proj2 (summary_exact demo_key (Some ["room-1"; "legacy"]) demo_db _ _)))).
  vm_compute. reflexivity.
Defined.

Lemma identity_no_lost_update_witness :
  let '(_, db') := upsert_identity demo_key [("name", VStr "Mike")]
    (λ db, run_ops db [OpTrust demo_key (Fin (1 # 10)) "polite"]) demo_db in
  get_identity demo_key db' = Some [("name", VStr "Mike")].
Proof.
  pose proof (identity_no_lost_update demo_key [("name", VStr "Mike")]
    [OpTrust demo_key (Fin (1 # 10)) "polite"] demo_db [("name", VStr "Mike")]) as H.
  cbv zeta in H.
  destruct (upsert_identity demo_key [("name", VStr "Mike")]
    (λ db, run_ops db [OpTrust demo_key (Fin (1 # 10)) "polite"]) demo_db) as [res db'].
  refine (proj1 (proj2 (H _ _ _ _))); [by repeat constructor|reflexivity|by vm_compute|done].
Defined.

Lemma tenant_isolation_witness :
  get_trust demo_key (run_ops demo_db [OpTrust demo_other (Fin (-1)) "no"]) = get_trust demo_key demo_db.
Proof.
  refine (proj1 (tenant_isolation demo_key [OpTrust demo_other (Fin (-1)) "no"] demo_db None _)).
  by repeat constructor.
Defined.

(** A NaN trust level passes the clamp as full trust: [min(1.0, nan)] is [1.0].
    The other writers refuse NaN. *)
Lemma nan_level_seeds_full_trust :
  get_trust (mkKey "ada" "agent" "eve" "agent" "local" "live")
    (run_op rel_db_new (OpSeed "ada" "boot" "local" "live" [mkSeed (Some "eve") (Some (Ok NaN))])) = 1%Q.
Proof. reflexivity. Qed.
