(* ===== verification/IdentityMerge.v ===== *)
(** * The identity merge

    [merge_identity] of [agents/memory/relationship_types.py]: what it makes of
    each field, and that merging the same fields again changes nothing. *)

From Stdlib Require Import Ascii.
From S2P Require Import Prelude PyStr PyDict PyValue Relationships.
Local Open Scope string_scope.
Local Open Scope py_scope.

(** ** Splitting and joining clauses *)

Lemma split_sep_cons a s :
  (exists s', a = "."%char /\ s = String " " s' /\ split_sep (String a s) = "" :: split_sep s') \/
  ((forall s', a = "."%char -> s <> String " " s') /\
   split_sep (String a s) = match split_sep s with
                            | w :: ws => String a w :: ws
                            | [] => [String a EmptyString]
                            end).
Proof.
  destruct (decide (a = "."%char)) as [->|Ha].
  - destruct s as [|b s']; [by right|]. destruct (decide (b = " "%char)) as [->|Hb].
    + left. by exists s'.
    + right. split; [by intros ? _ [=]|]. cbn [split_sep]. repeat case_match; congruence.
  - right. split; [done|]. cbn [split_sep]. repeat case_match; congruence.
Qed.

Lemma split_sep_nonempty s : split_sep s <> [].
Proof.
  destruct s as [|a s]; [done|]. destruct (split_sep_cons a s) as [(s'&_&_&->)|[_ ->]]; [done|].
  by destruct (split_sep s).
Qed.

(** A clause: a text without a separator. *)
Definition no_sep (c : string) : Prop := split_sep c = [c].

Lemma no_sep_cons a c : no_sep (String a c) <-> no_sep c /\ forall c', a = "."%char -> c <> String " " c'.
Proof.
  unfold no_sep. destruct (split_sep_cons a c) as [(s'&->&->&->)|[Hn ->]].
  - split; [|intros [_ H]; by destruct (H s' eq_refl)]. by intros [=].
  - split; [|intros [-> _]; reflexivity]. destruct (split_sep c) as [|w ws] eqn:Ec; intros E.
    + injection E as <-. done.
    + injection E as -> ->. split; [reflexivity|exact Hn].
Qed.

Lemma split_sep_app c r : no_sep c -> split_sep (c +:+ TEXT_UNION_SEP +:+ r) = c :: split_sep r.
Proof.
  induction c as [|a c IH]; [done|]. intros [Hc Hn]%no_sep_cons.
  change (String a c +:+ TEXT_UNION_SEP +:+ r) with (String a (c +:+ TEXT_UNION_SEP +:+ r)).
  destruct (split_sep_cons a (c +:+ TEXT_UNION_SEP +:+ r)) as [(s'&->&E&_)|[_ ->]]; [|by rewrite IH].
  destruct c as [|b c]; [done|].
  change (String b c +:+ TEXT_UNION_SEP +:+ r) with (String b (c +:+ TEXT_UNION_SEP +:+ r)) in E.
  injection E as -> _. by destruct (Hn c).
Qed.

Lemma split_sep_no_sep s : Forall no_sep (split_sep s).
Proof.
  remember (String.length s) as n eqn:Hn. revert s Hn.
  induction n as [n IH] using lt_wf_ind. intros [|a s] ->; [by repeat constructor|].
  destruct (split_sep_cons a s) as [(s'&->&->&->)|[Hne ->]].
  - constructor; [done|]. eapply IH; [|done]. simpl. lia.
  - assert (Forall no_sep (split_sep s)) as Hf by (eapply IH; [|done]; simpl; lia).
    destruct (split_sep s) as [|w ws] eqn:E; [by destruct (split_sep_nonempty s)|].
    apply Forall_cons in Hf as [Hw Hws]. constructor; [|done]. apply no_sep_cons. split; [done|].
    intros c' -> ->. destruct s as [|b s]; [by injection E|].
    destruct (split_sep_cons b s) as [(s'&_&_&E')|[_ E']]; rewrite E in E'; [done|].
    destruct (split_sep s); injection E' as Eb _; subst b; by destruct (Hne _ eq_refl eq_refl).
Qed.

Lemma no_sep_lstrip c : no_sep c -> no_sep (lstrip c).
Proof.
  induction c as [|a c IH]; [done|]. intros Hc. cbn [lstrip]. destruct (is_space a); [|done].
  apply no_sep_cons in Hc as [Hc _]. auto.
Qed.

Lemma rstrip_head a c : rstrip c = "" \/ exists c', rstrip (String a c) = String a c' /\ c' = rstrip c.
Proof. cbn [rstrip]. destruct (rstrip c); [by left|right; eauto]. Qed.

Lemma no_sep_rstrip c : no_sep c -> no_sep (rstrip c).
Proof.
  induction c as [|a c IH]; [done|]. intros [Hc Hn]%no_sep_cons. specialize (IH Hc). cbn [rstrip].
  destruct (rstrip c) as [|b r] eqn:E; [by destruct (is_space a); [|apply no_sep_cons]|].
  apply no_sep_cons. split; [done|]. intros c' -> [= -> ->].
  destruct c as [|b c]; [done|]. cbn [rstrip] in E. apply (Hn c eq_refl).
  destruct (rstrip c); [|by injection E as -> _]. destruct (is_space b); [done|]. by injection E as -> _.
Qed.

Lemma no_sep_strip c : no_sep c -> no_sep (strip c).
Proof. intros H. by apply no_sep_rstrip, no_sep_lstrip. Qed.

(** A clause as [split_clauses] makes it. *)
Definition clean (v : pyval) : Prop := exists c, v = VStr c /\ no_sep c /\ strip c = c /\ c <> "".

Lemma split_clauses_clean v s : v = VStr s -> Forall clean (split_clauses v).
Proof.
  intros ->. unfold split_clauses. destruct (is_absent _); [constructor|].
  apply Forall_forall. intros x (c&->&[Hc Hin]%list_elem_of_filter)%list_elem_of_fmap.
  exists (strip c). split; [done|]. split; [|split; [apply strip_strip|done]].
  apply no_sep_strip. pose proof (split_sep_no_sep s) as Hf. rewrite Forall_forall in Hf. auto.
Qed.

Definition is_str (v : pyval) : bool := match v with VStr _ => true | _ => false end.

Lemma join_sep_ok l s : join_sep l = Ok s -> forallb is_str l = true.
Proof.
  revert s. induction l as [|v l IH]; intros s; [done|]. cbn [join_sep forallb].
  destruct v; try done. destruct l as [|w l]; [done|].
  intros (r&Hr&_)%rbind_Ok. cbn [is_str andb]. by eapply IH.
Qed.

Lemma join_sep_total l : forallb is_str l = true -> exists s, join_sep l = Ok s.
Proof.
  induction l as [|v l IH]; [by exists ""|]. cbn [forallb]. intros [Hv Hl]%andb_true_iff.
  destruct v; try done. cbn [join_sep]. destruct l as [|w l]; [eauto|].
  destruct (IH Hl) as [r ->]. cbn [rbind]. eauto.
Qed.

(** Joined clauses split into themselves. *)
Lemma split_join l s : Forall clean l -> join_sep l = Ok s -> split_clauses (VStr s) = l.
Proof.
  intros Hl Hj.
  assert (l = [] /\ s = "" \/ s <> "" /\ map VStr (split_sep s) = l) as [[-> ->]|[Hs Hsp]]; [|done|].
  - revert s Hj. induction Hl as [|v l (c&->&Hc&_&Hne) Hl IH]; intros s Hj; [by injection Hj as <-; left|].
    right. cbn [join_sep] in Hj. destruct l as [|w l].
    + injection Hj as <-. by rewrite Hc.
    + apply rbind_Ok in Hj as (r&Hr&[= <-]). split; [by destruct c|].
      rewrite split_sep_app by done. cbn [map]. f_equal.
      destruct (IH r Hr) as [[? _]|[_ H]]; [done|exact H].
  - unfold split_clauses. cbn [is_absent]. apply truthy_true in Hs. rewrite Hs. cbn [negb].
    rewrite <- Hsp in Hl |- *. clear -Hl. induction (split_sep s) as [|c cs IH]; [done|].
    apply Forall_cons in Hl as [(c'&[= <-]&_&Hst&Hne) Hcs]. rewrite filter_cons, decide_True by congruence.
    cbn [map]. by rewrite Hst, IH.
Qed.

(** ** Unions *)

Lemma elem_union_step out item v :
  v ∈ union_step out item -> v ∈ out \/ v = item /\ is_absent item = false.
Proof.
  unfold union_step. destruct (negb (is_absent item) && _) eqn:E; [|by left].
  apply andb_true_iff in E as [E%negb_true_iff _].
  intros [?|?%list_elem_of_singleton]%elem_of_app; auto.
Qed.

Lemma union_base base items v : v ∈ base -> v ∈ union_preserving base items.
Proof.
  unfold union_preserving. revert base. induction items as [|i items IH]; intros base Hv; [done|].
  cbn [fold_left]. apply IH. unfold union_step. destruct (_ && _); [|done]. apply elem_of_app. by left.
Qed.

Lemma elem_union base items v :
  v ∈ union_preserving base items -> v ∈ base \/ v ∈ items /\ is_absent v = false.
Proof.
  unfold union_preserving. revert base. induction items as [|i items IH]; intros base; [by left|].
  cbn [fold_left]. intros [Hv|[Hv Ha]]%IH; [|right; split; [by right|done]].
  apply elem_union_step in Hv as [?|[-> ?]]; [by left|right; split; [left|done]].
Qed.

Lemma py_mem_mono v l k : py_mem v l = true -> py_mem v (l ++ k) = true.
Proof. unfold py_mem. rewrite existsb_app. by intros ->. Qed.

Lemma union_mem_base v base items : py_mem v base = true -> py_mem v (union_preserving base items) = true.
Proof.
  unfold union_preserving. revert base. induction items as [|i items IH]; intros base H; [done|].
  cbn [fold_left]. apply IH. unfold union_step. destruct (_ && _); [by apply py_mem_mono|done].
Qed.

(** Every item is in the union, up to Python's equality. *)
Lemma union_mem v base items :
  py_wf v -> v ∈ items -> is_absent v = false -> py_mem v (union_preserving base items) = true.
Proof.
  intros Hw Hv Ha. unfold union_preserving. revert base.
  induction items as [|i items IH]; intros base; [by apply not_elem_of_nil in Hv|].
  cbn [fold_left]. apply elem_of_cons in Hv as [<-|Hv]; [|by apply IH].
  apply (union_mem_base _ (union_step base v) items). unfold union_step. rewrite Ha. cbn [negb andb].
  destruct (py_mem v base) eqn:E; [done|]. apply py_mem_elem; [done|]. apply elem_of_app. right. by left.
Qed.

Lemma union_noop out items :
  (forall v, v ∈ items -> is_absent v = true \/ py_mem v out = true) -> union_preserving out items = out.
Proof.
  unfold union_preserving. induction items as [|i items IH]; intros H; [done|]. cbn [fold_left].
  assert (union_step out i = out) as ->; [|apply IH; intros v Hv; apply H; by right].
  unfold union_step. destruct (H i) as [-> | ->]; [left|done|by rewrite andb_false_r].
Qed.

Lemma union_idem base items :
  Forall py_wf items -> union_preserving (union_preserving base items) items = union_preserving base items.
Proof.
  intros Hw. apply union_noop. intros v Hv. destruct (is_absent v) eqn:E; [by left|right].
  rewrite Forall_forall in Hw. apply union_mem; auto.
Qed.

(** ** The merge, member by member *)

Definition new_member (key : string) (v : pyval) (old : option pyval) : result string (option pyval) :=
  if is_absent v then Ok old
  else if bool_decide (key ∈ IDENTITY_LIST_KEYS) then
    Ok (Some (VList (union_preserving (as_list (default (VList []) old)) (as_list v))))
  else if bool_decide (key ∈ IDENTITY_TEXT_UNION_KEYS) then
    let! s := join_sep (union_preserving (split_clauses (default VNone old)) (split_clauses v)) in
    Ok (Some (VStr s))
  else Ok (Some v).

Definition merged_member (existing fields : pydict) (key : string) : result string (option pyval) :=
  match dget key fields with
  | None => Ok (dget key existing)
  | Some v => new_member key v (dget key existing)
  end.

Lemma join_sep_raise l e : join_sep l = Raise e -> e = "TypeError".
Proof.
  induction l as [|v l IH]; [done|]. cbn [join_sep]. destruct v; try (by intros [= <-]).
  destruct l as [|w l]; [done|]. destruct (join_sep (w :: l)); [done|]. cbn [rbind]. intros [= ->]. auto.
Qed.

Lemma merge_field_spec merged k v :
  match merge_field merged (k, v) with
  | Ok m => new_member k v (dget k merged) = Ok (dget k m) /\ (dwf merged -> dwf m) /\
      forall k', k' <> k -> dget k' m = dget k' merged
  | Raise e => e = "TypeError" /\ new_member k v (dget k merged) = Raise e
  end.
Proof.
  unfold merge_field, new_member, dget_or. destruct (is_absent v); [done|].
  destruct (bool_decide (k ∈ IDENTITY_LIST_KEYS)); [|destruct (bool_decide _)].
  - rewrite dget_dset_eq. split; [done|]. split; [apply dwf_dset|]. intros. by apply dget_dset_ne.
  - destruct (join_sep _) as [s|e] eqn:E; cbn [rbind].
    + rewrite dget_dset_eq. split; [done|]. split; [apply dwf_dset|]. intros. by apply dget_dset_ne.
    + split; [by eapply join_sep_raise|done].
  - rewrite dget_dset_eq. split; [done|]. split; [apply dwf_dset|]. intros. by apply dget_dset_ne.
Qed.

Lemma merge_identity_spec existing fields :
  dwf fields ->
  match merge_identity existing fields with
  | Ok m => (forall k, merged_member existing fields k = Ok (dget k m)) /\ (dwf existing -> dwf m)
  | Raise e => e = "TypeError" /\ exists k, merged_member existing fields k = Raise e
  end.
Proof.
  revert existing. induction fields as [|[k v] fields IH]; intros merged Hd; [done|].
  unfold dwf in Hd. cbn [dkeys map fst] in Hd. apply NoDup_cons in Hd as [Hk Hd].
  assert (dget k fields = None) as Hf by (by apply dget_None).
  cbn [merge_identity]. pose proof (merge_field_spec merged k v) as Hs.
  assert (merged_member merged ((k, v) :: fields) k = new_member k v (dget k merged)) as Hk1.
  { unfold merged_member. cbn [dget]. by rewrite decide_True. }
  destruct (merge_field merged (k, v)) as [m1|e]; cbn [rbind].
  2: { destruct Hs as [-> Hs]. split; [done|]. exists k. by rewrite Hk1. }
  destruct Hs as (Hs&Hw&Ho). specialize (IH m1 Hd).
  assert (forall k', k' <> k -> merged_member merged ((k, v) :: fields) k' = merged_member m1 fields k') as Hne.
  { intros k' Hk'. unfold merged_member. cbn [dget]. rewrite decide_False by done. by rewrite Ho. }
  assert (merged_member merged ((k, v) :: fields) k = merged_member m1 fields k) as Heq.
  { rewrite Hk1, Hs. unfold merged_member. by rewrite Hf. }
  destruct (merge_identity m1 fields) as [m|e].
  - destruct IH as [IH1 IH2]. split; [|auto]. intros k'.
    destruct (decide (k' = k)) as [->|Hk']; [by rewrite Heq|by rewrite Hne].
  - destruct IH as [-> [k' IH]]. split; [done|]. exists k'.
    destruct (decide (k' = k)) as [->|Hk']; [by rewrite Heq|by rewrite Hne].
Qed.

Lemma as_list_wf v : py_wf v -> Forall py_wf (as_list v).
Proof. destruct v as [| | | | |l|]; intros H; try (by repeat constructor); [by apply py_wf_list|]. constructor; [exact H|constructor]. Qed.

(** Setting a member to what it becomes again is no change. *)
Lemma new_member_idem k v old new :
  py_wf v -> new_member k v old = Ok new -> new_member k v new = Ok new.
Proof.
  intros Hw. unfold new_member. destruct (is_absent v) eqn:Ea; [by intros [= <-]|].
  destruct (bool_decide (k ∈ IDENTITY_LIST_KEYS)); [|destruct (bool_decide _); [|by intros [= <-]]].
  - intros [= <-]. cbn [default from_option id as_list]. rewrite union_idem; [done|].
    apply as_list_wf, Hw.
  - intros (s&Hs&[= <-])%rbind_Ok. cbn [default from_option id].
    set (U := union_preserving _ _) in Hs.
    assert (Forall clean U) as Hc.
    { apply join_sep_ok in Hs as Hstr. rewrite forallb_forall in Hstr. apply Forall_forall. intros x Hx.
      assert (exists c, x = VStr c) as [c ->].
      { specialize (Hstr x (proj1 (list_elem_of_In _ _) Hx)). destruct x; try done. eauto. }
      assert (forall w, VStr c ∈ split_clauses w -> clean (VStr c)) as Hcl.
      { intros w Hin. destruct w as [| | | |t| |]; unfold split_clauses in Hin; cbn [is_absent] in Hin;
          try (by apply not_elem_of_nil in Hin); try (by apply list_elem_of_singleton in Hin).
        pose proof (split_clauses_clean (VStr t) t eq_refl) as Hf. rewrite Forall_forall in Hf. by apply Hf. }
      apply elem_union in Hx as [Hx|[Hx _]]; by eapply Hcl. }
    rewrite (split_join U s Hc Hs).
    assert (union_preserving U (split_clauses v) = U) as ->; [|by rewrite Hs].
    apply union_idem.
    destruct v as [| | | |t| |]; unfold split_clauses; rewrite Ea;
      try (constructor; [exact Hw|constructor]).
    apply Forall_forall. by intros x (c&->&_)%list_elem_of_fmap.
Qed.

Lemma merge_identity_noop m fields :
  dwf fields -> (forall k v, (k, v) ∈ fields -> new_member k v (dget k m) = Ok (dget k m)) ->
  merge_identity m fields = Ok m.
Proof.
  induction fields as [|[k v] fields IH]; intros Hd Hn; [done|].
  unfold dwf in Hd. cbn [dkeys map fst] in Hd. apply NoDup_cons in Hd as [_ Hd]. cbn [merge_identity].
  assert (merge_field m (k, v) = Ok m) as ->; [|apply IH; [done|]; intros k' v' Hin; apply Hn; by right].
  specialize (Hn k v ltac:(left)). unfold merge_field. unfold new_member in Hn. unfold dget_or.
  destruct (is_absent v); [done|].
  destruct (bool_decide (k ∈ IDENTITY_LIST_KEYS)); [|destruct (bool_decide _)].
  - injection Hn as Hn. by rewrite dset_same.
  - apply rbind_Ok in Hn as (s&Hs&[= Hn]). rewrite Hs. cbn [rbind]. by rewrite dset_same.
  - injection Hn as Hn. by rewrite dset_same.
Qed.

(** Merging identity fields: each member is decided alone, an absent value
    never changes it, [prefs] and [raw] are unions, any other value replaces;
    the merge fails only where a text union meets a clause that is no text;
    and merging the same fields again changes nothing. *)
Theorem identity_merge_exact existing fields :
  py_wf (VDict existing) -> py_wf (VDict fields) ->
  match merge_identity existing fields with
  | Ok m => (forall k, merged_member existing fields k = Ok (dget k m)) /\ dwf m /\
      merge_identity m fields = Ok m
  | Raise e => e = "TypeError" /\ exists k, k ∈ IDENTITY_TEXT_UNION_KEYS /\
      merged_member existing fields k = Raise e
  end.
Proof.
  intros [Hde _] Hf. pose proof Hf as [Hdf _]. pose proof (merge_identity_spec existing fields Hdf) as Hs.
  destruct (merge_identity existing fields) as [m|e].
  - destruct Hs as [Hm Hw]. split; [done|]. split; [auto|]. apply merge_identity_noop; [done|].
    intros k v Hin. specialize (Hm k). unfold merged_member in Hm. rewrite (elem_dget k v) in Hm by done.
    eapply new_member_idem; [|exact Hm]. by eapply py_wf_dict_elem.
  - destruct Hs as [-> [k Hk]]. split; [done|]. exists k. split; [|done].
    unfold merged_member in Hk. destruct (dget k fields) as [v|]; [|done]. unfold new_member in Hk.
    destruct (is_absent v); [done|]. destruct (bool_decide (k ∈ IDENTITY_LIST_KEYS)); [done|].
    by case_bool_decide.
Qed.

(** Identity accumulates: no recorded field disappears in a merge, every
    preference known before is kept and every preference told is known after,
    up to Python's equality. *)
Theorem identity_accumulates existing fields m :
  py_wf (VDict existing) -> py_wf (VDict fields) -> merge_identity existing fields = Ok m ->
  (forall k, is_Some (dget k existing) -> is_Some (dget k m)) /\
  (forall v, v ∈ as_list (dget_or "prefs" (VList []) existing) -> v ∈ as_list (dget_or "prefs" (VList []) m)) /\
  (forall v, v ∈ as_list (dget_or "prefs" VNone fields) -> is_absent v = false ->
     py_mem v (as_list (dget_or "prefs" (VList []) m)) = true).
Proof.
  intros He Hf Hm. pose proof (merge_identity_spec existing fields (proj1 Hf)) as Hs. rewrite Hm in Hs.
  destruct Hs as [Hs _]. unfold dget_or. split; [|split].
  - intros k [v Hk]. specialize (Hs k). unfold merged_member, new_member in Hs. rewrite Hk in Hs.
    destruct (dget k fields) as [w|]; [|injection Hs as <-; eauto].
    destruct (is_absent w); [injection Hs as <-; eauto|].
    destruct (bool_decide _); [injection Hs as <-; eauto|]. destruct (bool_decide _).
    + apply rbind_Ok in Hs as (s&_&[= <-]). eauto.
    + injection Hs as <-. eauto.
  - intros v Hv. specialize (Hs "prefs"). unfold merged_member, new_member in Hs.
    destruct (dget "prefs" fields) as [w|]; [|by injection Hs as <-].
    destruct (is_absent w); [by injection Hs as <-|].
    cbn [bool_decide] in Hs. rewrite bool_decide_true in Hs by left. injection Hs as <-.
    cbn [default from_option id as_list]. by apply union_base.
  - intros v Hv Ha. specialize (Hs "prefs"). unfold merged_member, new_member in Hs.
    destruct (dget "prefs" fields) as [w|] eqn:Ew; cbn [default from_option id as_list] in Hv.
    2: { apply list_elem_of_singleton in Hv. by subst. }
    assert (py_wf w) as Hw by (eapply py_wf_dict_elem; [done|by apply dget_Some_elem]).
    destruct (is_absent w) eqn:Eaw.
    { destruct w; try done; cbn [as_list] in Hv; apply list_elem_of_singleton in Hv; by subst v; rewrite Ha in Eaw. }
    rewrite bool_decide_true in Hs by left. injection Hs as <-. cbn [default from_option id as_list].
    apply union_mem; [|done..]. pose proof (as_list_wf w Hw) as Hl. rewrite Forall_forall in Hl. auto.
Qed.

(** ** Witnesses *)

Definition demo_identity : pydict :=
  [("name", VStr "Ada"); ("prefs", VList [VStr "tea"]); ("raw", VStr "Lives in Berlin.")].
Definition demo_fields : pydict :=
  [("name", VStr ""); ("role", VStr "lead"); ("prefs", VList [VStr "tea"; VStr "maps"]);
   ("raw", VStr "Runs. Lives in Berlin.")].

Example demo_identity_merge :
  merge_identity demo_identity demo_fields =
    Ok [("name", VStr "Ada"); ("prefs", VList [VStr "tea"; VStr "maps"]);
        ("raw", VStr "Lives in Berlin.. Runs"); ("role", VStr "lead")].
Proof. reflexivity. Qed.

Lemma demo_identity_wf : py_wf (VDict demo_identity) /\ py_wf (VDict demo_fields).
Proof. split; (split; [apply (bool_decide_unpack _); by vm_compute|by vm_compute]). Qed.

Lemma identity_merge_exact_witness :
  exists m, merge_identity demo_identity demo_fields = Ok m /\ merge_identity m demo_fields = Ok m.
Proof.
  eexists. split; [reflexivity|].
  exact (proj2 (proj2 (identity_merge_exact demo_identity demo_fields (proj1 demo_identity_wf)
    (proj2 demo_identity_wf)))).
Defined.

Lemma identity_accumulates_witness :
  exists m, merge_identity demo_identity demo_fields = Ok m /\ is_Some (dget "name" m).
Proof.
  eexists. split; [reflexivity|].
  exact (proj1 (identity_accumulates demo_identity demo_fields _ (proj1 demo_identity_wf)
    (proj2 demo_identity_wf) eq_refl) "name" (ltac:(eauto))).
Defined.

(** A text-union field that holds no text: the comment of [_split_clauses]
    promises a single clause, but the join raises. *)
Lemma raw_number_raises :
  merge_identity [("raw", VInt 5)] [("raw", VStr "Lives in Berlin")] = Raise "TypeError".
Proof. reflexivity. Qed.
