(* ===== verification/Commitments.v ===== *)
(** * Commitments

    Models [agents/memory/commitments.py] and the states of
    [_migration_commitments.py]. The [commitments] table is the list of its rows
    in [rowid] order; it also holds the directive rows of another tier. Each SQL
    statement is its meaning on it. Tags are the list their JSON text holds. A
    call's ambient context, clock reading, fresh id ([uuid4]) and span are the
    record [Call]; the sanitizer's patterns are a parameter. *)

From Stdlib Require Import Ascii Sorted.
From S2P Require Import Prelude PyStr PyFloat PyDict PyValue PySort MemoryEvents Ambient RowScope Security.
Local Open Scope string_scope.
Local Open Scope py_scope.

Definition MAX_DESCRIPTION_CHARS : Z := 1000.
Definition MAX_OPEN_COMMITMENTS : Z := 500.
Definition MAX_LIST_LIMIT : Z := 100.
Definition COMMITMENTS_APPEND_SALIENCE : pyfloat := Fin 0.

Inductive CommitmentState := Open | Fulfilled | Missed | Cancelled.

#[export] Instance CommitmentState_dec : EqDecision CommitmentState.
Proof. solve_decision. Defined.

(** The names of [COMMITMENT_STATES]. *)
Definition state_of_name (s : string) : option CommitmentState :=
  if String.eqb s "open" then Some Open
  else if String.eqb s "fulfilled" then Some Fulfilled
  else if String.eqb s "missed" then Some Missed
  else if String.eqb s "cancelled" then Some Cancelled
  else None.

Record Commitment := mkCommitment {
  id : string;
  description : string;
  due_at : Q;
  target_party : option string;
  created_at : Q;
  state : CommitmentState;
  fulfilled_at : option Q;
  source_interaction_id : option string;
  tags : list string;
  session_id : string;
  protection_level : string;
}.

(** A row: the commitment and the columns of its scope; the table's other kind
    of row is opaque here. *)
Record ScopedRow := mkRow {
  row_agent : string;
  row_principal : string;
  row_epoch : string;
  row_commitment : Commitment;
}.

Inductive Row := CommitmentRow (r : ScopedRow) | DirectiveRow (row_id : string) (payload : pyval).

Inductive commitment_error :=
| TypeError (field : string)
| ValueError (field : string)
| CommitmentNotFoundError (cid : string)
| CommitmentClosedError (cid : string) (st : CommitmentState)
| CommitmentCapError
| IntegrityError.

(** ** Checking the fields *)

Definition check_text (value : pyval) (field : string) : result commitment_error string :=
  match value with
  | VStr s =>
      let text := strip s in
      if (MAX_DESCRIPTION_CHARS <? Z.of_nat (String.length text))%Z then Raise (ValueError field) else Ok text
  | _ => Raise (TypeError field)
  end.

Definition check_description (description : pyval) : result commitment_error string :=
  match description with
  | VStr s => if truthy (strip s) then check_text description "description" else Raise (ValueError "description")
  | _ => Raise (ValueError "description")
  end.

Definition check_due_at (due : pynum) : result commitment_error Q :=
  match due with
  | NumBool _ | NumOther => Raise (TypeError "due_at")
  | NumInt z => if int_overflows z then Raise (ValueError "due_at") else Ok (inject_Z z)
  | NumFloat (Fin q) => Ok q
  | NumFloat _ => Raise (ValueError "due_at")
  end.

Definition as_strs (l : list pyval) : option (list string) :=
  mapM (λ v, match v with VStr s => Some s | _ => None end) l.

Definition check_tags (tags : pyval) : result commitment_error (list string) :=
  match tags with
  | VList l => match as_strs l with Some ss => Ok ss | None => Raise (TypeError "tags") end
  | VDict d => Ok (dkeys d)
  | _ => Raise (TypeError "tags")
  end.

(** ** The store *)

Record CommitmentStore := mkStore { store_agent : string; store_scope : TierScope }.

Record Call := mkCall { amb : ambient; now : Q; span : option string; fresh_id : string }.

(** The table and the events sent, newest last. *)
Record commitments_db := mkDb { rows : list Row; sent : list (string * MemoryWriteEvent) }.

Definition row_id (r : Row) : string :=
  match r with CommitmentRow r => id (row_commitment r) | DirectiveRow i _ => i end.

Definition active_principal (st : CommitmentStore) (c : Call) : string :=
  resolve_active_principal (amb c) (active_principal_id (store_scope st)).
Definition active_epoch (st : CommitmentStore) (c : Call) : string :=
  resolve_active_epoch (amb c) (active_epoch_id (store_scope st)).

(** [_scope()]: the default session list cannot raise. *)
Definition in_scope (st : CommitmentStore) (c : Call) (r : ScopedRow) : bool :=
  String.eqb (row_agent r) (store_agent st) &&
  match resolve_session_list (amb c) SessDefault (active_session_id (store_scope st)) with
  | Ok ids => session_in ids (session_id (row_commitment r))
  | Raise _ => false
  end &&
  principal_eq (active_principal st c) (row_principal r) &&
  epoch_eq (active_epoch st c) (row_epoch r).

(** The rows the cap counts. *)
Definition counted (agent epoch : string) (now : Q) (r : Row) : bool :=
  match r with
  | CommitmentRow r =>
      String.eqb (row_agent r) agent && bool_decide (state (row_commitment r) = Open) &&
      Qle_bool now (due_at (row_commitment r)) && epoch_eq epoch (row_epoch r)
  | DirectiveRow _ _ => false
  end.

Definition open_count (agent epoch : string) (now : Q) (t : list Row) : Z :=
  Z.of_nat (length (List.filter (counted agent epoch now) t)).

Definition count_write (st : CommitmentStore) (c : Call) (session : string) (db : commitments_db) :
    commitments_db :=
  mkDb (rows db)
    (sent db ++ [(session, MemoryWriteEvent_new (store_agent st) Tcommitments COMMITMENTS_APPEND_SALIENCE
                             (span c) (now c))])%list.

Section store.
Context (COMPILED_PATTERNS : list (string * (string -> bool))) (st : CommitmentStore).

(** The sanitizer under passthrough; its own checks cannot fail here. *)
Definition scanned (text : string) : string :=
  match sanitize COMPILED_PATTERNS text CONTEXT_SOURCE_AGENT_OUTPUT SANITIZER_ACTION_PASSTHROUGH with
  | Ok r => content r
  | Raise _ => ""
  end.

(** The checked fields of a new commitment. *)
Definition check_fields (description : pyval) (due : pynum) (target tags : pyval) :
    result commitment_error (string * Q * list string * string) :=
  let! text := check_description description in
  let! due := check_due_at due in
  let! tag_list := check_tags tags in
  let! target := match target with VNone => Ok "" | _ => check_text target "target_party" end in
  Ok (text, due, tag_list, target).

Definition create (c : Call) (description : pyval) (due : pynum) (target : pyval)
    (source : option string) (tags : pyval) (level : string) (db : commitments_db) :
    result commitment_error string * commitments_db :=
  match check_fields description due target tags with
  | Raise e => (Raise e, db)
  | Ok (text, due, tag_list, target) =>
      let session :=
        Session.normalize_session_id (Some (resolve_active_session (amb c) (active_session_id (store_scope st)))) in
      if (open_count (store_agent st) (active_epoch st c) (now c) (rows db) <? MAX_OPEN_COMMITMENTS)%Z then
        if existsb (λ r, String.eqb (row_id r) (fresh_id c)) (rows db) then (Raise IntegrityError, db)
        else
          let row := mkRow (store_agent st) (active_principal st c) (active_epoch st c)
            (mkCommitment (fresh_id c) (scanned text) due
               (if truthy target then Some (scanned target) else None)
               (now c) Open None source tag_list session level) in
          (Ok (fresh_id c),
           count_write st c session (mkDb (rows db ++ [CommitmentRow row])%list (sent db)))
      else (Raise CommitmentCapError, db)
  end.

(** ** Reading *)

(** The rows of a query in the turn's scope, in [rowid] order. *)
Definition visible (c : Call) (db : commitments_db) : list Commitment :=
  omap (λ r, match r with
             | CommitmentRow r => if in_scope st c r then Some (row_commitment r) else None
             | DirectiveRow _ _ => None
             end) (rows db).

Definition get (c : Call) (cid : string) (db : commitments_db) : option Commitment :=
  find (λ m, String.eqb (id m) cid) (visible c db).

(** [COLLATE NOCASE]: ASCII letters only. *)
Definition nocase_char (ch : ascii) : ascii :=
  if ((65 <=? code ch) && (code ch <=? 90))%N then ascii_of_N (code ch + 32) else ch.
Fixpoint nocase (s : string) : string :=
  match s with EmptyString => EmptyString | String ch s => String (nocase_char ch) (nocase s) end.

(** The row predicates of [_select]. *)
Definition selected (st_filter : option CommitmentState) (target : option string) (horizon : option pyfloat)
    (m : Commitment) : bool :=
  match st_filter with Some s => bool_decide (state m = s) | None => true end &&
  match target with
  | Some t => match target_party m with Some p => String.eqb (nocase p) (nocase t) | None => false end
  | None => true
  end &&
  match horizon with
  | Some h => flt (Fin (due_at m)) h || feq (Fin (due_at m)) h
  | None => true
  end.

Definition due_le (a b : Commitment) : bool := Qle_bool (due_at a) (due_at b).

(** [now + within] for a [within] that is not negative and no NaN. *)
Definition horizon_of (now : Q) (within : pyfloat) : pyfloat :=
  match within with Fin w => Fin (now + w) | _ => PosInf end.

Definition select (c : Call) (st_name : option string) (within : option pyfloat) (limit : Z)
    (target : option string) (db : commitments_db) : result commitment_error (list Commitment) :=
  if (limit <? 1)%Z then Raise (ValueError "limit")
  else
    let! st_filter :=
      match st_name with
      | None => Ok None
      | Some s => match state_of_name s with Some x => Ok (Some x) | None => Raise (ValueError "state") end
      end in
    let! horizon :=
      match within with
      | None => Ok None
      | Some w => if flt (Fin 0) w || feq (Fin 0) w then Ok (Some (horizon_of (now c) w))
                  else Raise (ValueError "within_seconds")
      end in
    Ok (take (Z.to_nat (Z.min limit MAX_LIST_LIMIT))
          (py_sorted due_le (List.filter (selected st_filter target horizon) (visible c db)))).

Definition list_commitments (c : Call) (st_name : option string) (within : option pyfloat) (limit : Z)
    (db : commitments_db) : result commitment_error (list Commitment) :=
  select c st_name within limit None db.

Definition list_open_commitments (c : Call) (within : option pyfloat) (limit : Z) (db : commitments_db) :
    result commitment_error (list Commitment) :=
  select c (Some "open") within limit None db.

Definition list_commitments_to (c : Call) (target : pyval) (st_name : option string) (limit : Z)
    (db : commitments_db) : result commitment_error (list Commitment) :=
  let! t := check_text target "target_party" in
  if truthy t then select c st_name None limit (Some t) db else Raise (ValueError "target_party").

(** ** Closing one *)

Definition set_state (s : CommitmentState) (at_ : option Q) (m : Commitment) : Commitment :=
  mkCommitment (id m) (description m) (due_at m) (target_party m) (created_at m) s at_
    (source_interaction_id m) (tags m) (session_id m) (protection_level m).

(** The rows the [UPDATE] hits. *)
Definition closable (c : Call) (cid : string) (r : Row) : bool :=
  match r with
  | CommitmentRow r =>
      String.eqb (id (row_commitment r)) cid && bool_decide (state (row_commitment r) = Open) && in_scope st c r
  | DirectiveRow _ _ => false
  end.

Definition close_row (s : CommitmentState) (at_ : option Q) (r : Row) : Row :=
  match r with
  | CommitmentRow r => CommitmentRow (mkRow (row_agent r) (row_principal r) (row_epoch r)
                                       (set_state s at_ (row_commitment r)))
  | r => r
  end.

(** The update, then the read; [meanwhile] is what other tasks do between. *)
Definition close (c : Call) (cid : string) (s : CommitmentState) (meanwhile : commitments_db -> commitments_db)
    (db : commitments_db) : result commitment_error Commitment * commitments_db :=
  let at_ := match s with Fulfilled => Some (now c) | _ => None end in
  let hit := List.filter (closable c cid) (rows db) in
  let db := meanwhile (mkDb (map (λ r, if closable c cid r then close_row s at_ r else r) (rows db)) (sent db)) in
  match get c cid db with
  | None => (Raise (CommitmentNotFoundError cid), db)
  | Some m =>
      if negb (Nat.eqb (length hit) 1) then (Raise (CommitmentClosedError cid (state m)), db)
      else (Ok m, count_write st c (session_id m) db)
  end.

Definition fulfill (c : Call) (cid : string) := close c cid Fulfilled.
Definition cancel (c : Call) (cid : string) := close c cid Cancelled.
End store.
