(* ===== verification/CommitmentsProps.v ===== *)
(** * Correctness of the commitment store

    Histories of calls by any personas on one table: the lifecycle, the cap,
    the scope of reads and closes, the exact outcome of each operation. *)

From Stdlib Require Import Ascii Sorted.
From S2P Require Import Prelude PyStr PyFloat PyDict PyValue PySort MemoryEvents Ambient RowScope Security Commitments.
Local Open Scope string_scope.
Local Open Scope py_scope.

(** ** Histories *)

Inductive c_op :=
| OpCreate (st : CommitmentStore) (c : Call) (description : pyval) (due : pynum) (target : pyval)
    (source : option string) (tags : pyval) (level : string)
| OpClose (st : CommitmentStore) (c : Call) (cid : string) (fulfil : bool).

Definition op_call (o : c_op) : Call := match o with OpCreate _ c _ _ _ _ _ _ | OpClose _ c _ _ => c end.

Section histories.
Context (ps : list (string * (string -> bool))).

Definition run_op (db : commitments_db) (o : c_op) : commitments_db :=
  match o with
  | OpCreate st c d due t s tg lv => snd (create ps st c d due t s tg lv db)
  | OpClose st c cid fulfil => snd (close st c cid (if fulfil then Fulfilled else Cancelled) (λ db, db) db)
  end.

Definition run_ops (db : commitments_db) (os : list c_op) : commitments_db := fold_left run_op os db.

(** ** How a table evolves *)

(** A row stays, or is an open commitment that closes, once. *)
Inductive row_evolves : Row -> Row -> Prop :=
| row_stays r : row_evolves r r
| row_closes r s at_ :
    state (row_commitment r) = Open -> s = Fulfilled /\ is_Some at_ \/ s = Cancelled /\ at_ = None ->
    row_evolves (CommitmentRow r) (close_row s at_ (CommitmentRow r)).

Definition evolves (t t' : list Row) : Prop :=
  exists old new, t' = (old ++ new)%list /\ Forall2 row_evolves t old /\
    Forall (λ r, exists m, r = CommitmentRow m) new.

Lemma row_evolves_trans a b c : row_evolves a b -> row_evolves b c -> row_evolves a c.
Proof.
  intros Hab Hbc. destruct Hab as [|r s at_ Hs Hc]; [done|].
  inversion Hbc as [|r' s' at' Hs' _ E]; subst; [by constructor|]. cbn in Hs'.
  destruct Hc as [[-> _]|[-> _]]; done.
Qed.

Lemma row_evolves_id a b : row_evolves a b -> row_id b = row_id a.
Proof. by intros [|? ? ? _ _]. Qed.

Lemma evolves_refl t : evolves t t.
Proof. exists t, []. rewrite app_nil_r. split; [done|]. split; [|done]. induction t; constructor; [constructor|done]. Qed.

Lemma evolves_trans t1 t2 t3 : evolves t1 t2 -> evolves t2 t3 -> evolves t1 t3.
Proof.
  intros (o1&n1&->&H1&N1) (o2&n2&->&H2&N2).
  apply Forall2_app_inv_l in H2 as (o2a&o2b&Ha&Hb&->). exists o2a, (o2b ++ n2)%list.
  split; [by rewrite app_assoc|]. split.
  - clear -H1 Ha. revert o2a Ha. induction H1 as [|x y l k Hxy _ IH]; intros o2a Ha.
    + by apply Forall2_nil_inv_l in Ha as ->.
    + apply Forall2_cons_inv_l in Ha as (z&o&Hz&Ho&->). constructor; [by eapply row_evolves_trans|auto].
  - apply Forall_app. split; [|done]. clear -Hb N1. revert o2b Hb.
    induction N1 as [|x l [m ->] _ IH]; intros o2b Hb; [by apply Forall2_nil_inv_l in Hb as ->|].
    apply Forall2_cons_inv_l in Hb as (z&o&Hz&Ho&->). constructor; [|auto].
    by inversion Hz; subst; eexists.
Qed.

Lemma evolves_snoc t r : evolves t (t ++ [CommitmentRow r]).
Proof.
  exists t, [CommitmentRow r]. split; [done|]. split; [|by repeat econstructor].
  induction t; constructor; [constructor|done].
Qed.

Lemma evolves_close st c cid s at_ t :
  s = Fulfilled /\ is_Some at_ \/ s = Cancelled /\ at_ = None ->
  evolves t (map (λ r, if closable st c cid r then close_row s at_ r else r) t).
Proof.
  intros Hs. exists (map (λ r, if closable st c cid r then close_row s at_ r else r) t), [].
  rewrite app_nil_r. split; [done|]. split; [|done].
  induction t as [|r t IH]; constructor; [|done]. destruct (closable st c cid r) eqn:E; [|constructor].
  destruct r as [r|]; [|done]. constructor; [|done]. cbn [closable] in E. bool_props. tauto.
Qed.

Lemma close_rows st c cid s mw db :
  rows (snd (close st c cid s mw db)) =
  rows (mw (mkDb (map (λ r, if closable st c cid r
                            then close_row s (match s with Fulfilled => Some (now c) | _ => None end) r else r)
                   (rows db)) (sent db))).
Proof.
  unfold close. destruct (get _ _ _ _); [|done]. by destruct (negb _).
Qed.

Lemma run_op_evolves db o : evolves (rows db) (rows (run_op db o)).
Proof.
  destruct o as [st c d due t s tg lv|st c cid f]; cbn [run_op].
  - unfold create. destruct (check_fields _ _ _ _) as [[[[text q] tl] tgt]|]; [|apply evolves_refl].
    destruct (_ <? _)%Z; [|apply evolves_refl]. destruct (existsb _ _); [apply evolves_refl|].
    apply evolves_snoc.
  - rewrite close_rows. apply evolves_close. destruct f; [left|right]; split; eauto.
Qed.

Lemma run_ops_evolves db os : evolves (rows db) (rows (run_ops db os)).
Proof.
  revert db. induction os as [|o os IH]; intros db; [apply evolves_refl|].
  eapply evolves_trans; [apply run_op_evolves|apply IH].
Qed.

(** ** Ids *)

Definition ids (t : list Row) : list string := map row_id t.

Lemma evolves_ids t old : Forall2 row_evolves t old -> ids old = ids t.
Proof. unfold ids. induction 1 as [|x y l k H _ IH]; simpl; [done|]. by rewrite IH, (row_evolves_id _ _ H). Qed.

Lemma map_close_ids st c cid s at_ t :
  ids (map (λ r, if closable st c cid r then close_row s at_ r else r) t) = ids t.
Proof.
  unfold ids. rewrite map_map. apply map_ext. intros r.
  destruct (closable st c cid r) eqn:E; [|done]. by destruct r.
Qed.

Lemma run_op_ids db o : NoDup (ids (rows db)) -> NoDup (ids (rows (run_op db o))).
Proof.
  intros Hd. destruct o as [st c d due t s tg lv|st c cid f]; cbn [run_op].
  - unfold create. destruct (check_fields _ _ _ _) as [[[[text q] tl] tgt]|]; [|done].
    destruct (_ <? _)%Z; [|done]. destruct (existsb _ _) eqn:E; [done|]. cbn [snd count_write rows].
    unfold ids. rewrite map_app. apply NoDup_app. split; [done|]. split; [|apply NoDup_singleton].
    intros x (r&->&Hr)%list_elem_of_fmap Hx%list_elem_of_singleton. cbn in Hx.
    apply not_true_iff_false in E. apply E, existsb_exists. exists r.
    split; [by apply list_elem_of_In|]. by apply String.eqb_eq.
  - rewrite close_rows. cbn [rows]. by rewrite map_close_ids.
Qed.

Lemma run_ops_ids db os : NoDup (ids (rows db)) -> NoDup (ids (rows (run_ops db os))).
Proof. revert db. induction os as [|o os IH]; intros db H; [done|]. apply IH, run_op_ids, H. Qed.

(** ** What a store writes *)

Lemma scanned_verbatim text : scanned ps text = text.
Proof.
  unfold scanned, sanitize, validate_source. rewrite decide_True by (do 2 right; left). cbn [rbind].
  rewrite bool_decide_true by left. cbn [negb content].
  change (String.eqb SANITIZER_ACTION_PASSTHROUGH SANITIZER_ACTION_QUARANTINE) with false.
  by rewrite andb_false_r.
Qed.

Record row_ok (r : Row) : Prop := {
  ok_fields : forall m, r = CommitmentRow m ->
    description (row_commitment m) <> "" /\
    (Z.of_nat (String.length (description (row_commitment m))) <= MAX_DESCRIPTION_CHARS)%Z /\
    strip (description (row_commitment m)) = description (row_commitment m) /\
    (forall p, target_party (row_commitment m) = Some p ->
       p <> "" /\ (Z.of_nat (String.length p) <= MAX_DESCRIPTION_CHARS)%Z) /\
    (is_Some (fulfilled_at (row_commitment m)) <-> state (row_commitment m) = Fulfilled) /\
    state (row_commitment m) <> Missed;
}.

Lemma row_ok_evolves r r' : row_evolves r r' -> row_ok r -> row_ok r'.
Proof.
  intros [|m s at_ Hs Hc] [H]; [by split|]. split. intros m' [= <-].
  destruct (H m eq_refl) as (H1&H2&H3&H4&_&_). cbn.
  split; [done|]. split; [done|]. split; [done|]. split; [done|].
  destruct Hc as [[-> ?]|[-> ->]]; (split; [|done]); split; try done.
Qed.

Lemma check_text_ok v f s :
  check_text v f = Ok s ->
  (Z.of_nat (String.length s) <= MAX_DESCRIPTION_CHARS)%Z /\ exists t, v = VStr t /\ s = strip t.
Proof.
  unfold check_text. destruct v; try done. destruct (_ <? _)%Z eqn:E; [done|]. intros [= <-].
  split; [lia|eauto].
Qed.

Lemma check_fields_ok d due t tg text q tl target :
  check_fields d due t tg = Ok (text, q, tl, target) ->
  text <> "" /\ (Z.of_nat (String.length text) <= MAX_DESCRIPTION_CHARS)%Z /\ strip text = text /\
  (Z.of_nat (String.length target) <= MAX_DESCRIPTION_CHARS)%Z.
Proof.
  unfold check_fields. intros (x&Hx&(y&Hy&(z&Hz&(w&Hw&[= -> -> -> ->])%rbind_Ok)%rbind_Ok)%rbind_Ok)%rbind_Ok.
  unfold check_description in Hx. destruct d; try done. destruct (truthy _) eqn:Et; [|done].
  apply check_text_ok in Hx as (Hl&s'&[= <-]&->). apply truthy_true in Et.
  split; [done|]. split; [done|]. split; [apply strip_strip|].
  destruct t; try (by apply check_text_ok in Hw as [? _]). by injection Hw as <-.
Qed.

Lemma run_op_rows_ok db o : Forall row_ok (rows db) -> Forall row_ok (rows (run_op db o)).
Proof.
  intros H. destruct o as [st c d due t s tg lv|st c cid f]; cbn [run_op].
  - unfold create. destruct (check_fields _ _ _ _) as [[[[text q] tl] tgt]|] eqn:E; [|done].
    destruct (_ <? _)%Z; [|done]. destruct (existsb _ _); [done|]. cbn [snd count_write rows].
    apply Forall_app. split; [done|]. constructor; [|constructor]. split. intros m [= <-]. cbn.
    apply check_fields_ok in E as (E1&E2&E3&E4). rewrite !scanned_verbatim.
    split; [done|]. split; [done|]. split; [done|]. split; [|split; [|done]; split; [by intros [? ?]|done]].
    intros p. destruct (truthy tgt) eqn:Et; [|done]. intros [= <-]. by apply truthy_true in Et.
  - rewrite close_rows. cbn [rows].
    pose proof (evolves_close st c cid (if f then Fulfilled else Cancelled)
      (match (if f then Fulfilled else Cancelled) with Fulfilled => Some (now c) | _ => None end) (rows db)) as Hev.
    destruct Hev as (old&new&E&Hold&Hnew); [destruct f; [left|right]; split; eauto|].
    assert (length new = 0%nat) as Hn.
    { apply (f_equal length) in E. rewrite length_map, length_app in E. apply Forall2_length in Hold. lia. }
    apply nil_length_inv in Hn as ->. rewrite app_nil_r in E. rewrite E. clear -H Hold.
    induction Hold as [|x y l k Hxy _ IH]; [done|]. apply Forall_cons in H as [Hx Hl].
    constructor; [by eapply row_ok_evolves|auto].
Qed.

Lemma run_ops_rows_ok db os : Forall row_ok (rows db) -> Forall row_ok (rows (run_ops db os)).
Proof. revert db. induction os as [|o os IH]; intros db H; [done|]. apply IH, run_op_rows_ok, H. Qed.

(** C20. The lifecycle of commitments, over every history of calls: rows are
    never removed or reordered; a row changes at most once, from open to
    fulfilled with its time or to cancelled without one, every other field
    kept; directive rows are untouched; ids stay unique; and every commitment
    holds a stripped, non-empty description of at most 1000 characters, a time
    of fulfilment exactly when fulfilled, and is never marked missed. *)
Theorem commitment_lifecycle os db :
  NoDup (ids (rows db)) -> Forall row_ok (rows db) ->
  let db' := run_ops db os in
  (exists old new, rows db' = (old ++ new)%list /\ Forall2 row_evolves (rows db) old /\
     Forall (λ r, exists m, r = CommitmentRow m) new) /\
  NoDup (ids (rows db')) /\ Forall row_ok (rows db').
Proof.
  intros Hd Hr. cbv zeta. split; [apply run_ops_evolves|].
  split; [by apply run_ops_ids|by apply run_ops_rows_ok].
Qed.

(** ** The cap *)

Lemma counted_mono agent epoch n t r :
  (n <= t)%Q -> counted agent epoch t r = true -> counted agent epoch n r = true.
Proof.
  intros Hnt. destruct r as [r|]; [|done]. cbn [counted]. bool_props. intros [[[? ?] Hq] ?].
  split; [|done]. split; [done|]. q_props. lra.
Qed.

Lemma open_count_mono agent epoch n t l :
  (n <= t)%Q -> (open_count agent epoch t l <= open_count agent epoch n l)%Z.
Proof.
  intros Hnt. unfold open_count. induction l as [|r l IH]; [done|]. cbn [List.filter].
  destruct (counted agent epoch t r) eqn:E.
  - rewrite (counted_mono _ _ _ _ _ Hnt E). cbn [length]. lia.
  - destruct (counted agent epoch n r); cbn [length]; lia.
Qed.

Lemma open_count_evolves agent epoch t l k :
  Forall2 row_evolves l k -> (open_count agent epoch t k <= open_count agent epoch t l)%Z.
Proof.
  unfold open_count. induction 1 as [|x y l k Hxy _ IH]; [done|]. cbn [List.filter].
  assert (counted agent epoch t y = true -> counted agent epoch t x = true) as H.
  { destruct Hxy as [|r s at_ Ho Hs]; [done|]. cbn. bool_props. intros [[[_ Hs'] _] _].
    destruct Hs as [[-> _]|[-> _]]; done. }
  destruct (counted agent epoch t y); [rewrite H by done|destruct (counted agent epoch t x)]; cbn [length]; lia.
Qed.

Lemma open_count_snoc agent epoch t l r :
  open_count agent epoch t (l ++ [r]) =
    (open_count agent epoch t l + if counted agent epoch t r then 1 else 0)%Z.
Proof.
  unfold open_count. rewrite List.filter_app, length_app. cbn [List.filter].
  destruct (counted agent epoch t r); cbn [length]; lia.
Qed.

(** At any time, a persona holds at most 500 open commitments not yet due
    in an epoch, whatever rooms and people they were made with: the cap holds
    after every history of calls made up to that time. *)
Theorem cap_respected os agent epoch t db :
  (open_count agent epoch t (rows db) <= MAX_OPEN_COMMITMENTS)%Z ->
  Forall (λ o, now (op_call o) <= t)%Q os ->
  (open_count agent epoch t (rows (run_ops db os)) <= MAX_OPEN_COMMITMENTS)%Z.
Proof.
  intros H Hos. revert db H. induction Hos as [|o os Ho _ IH]; intros db H; [done|]. apply IH. clear IH.
  destruct o as [st c d due tg s tags lv|st c cid f]; cbn [run_op op_call] in *.
  - unfold create. destruct (check_fields _ _ _ _) as [[[[text q] tl] tgt]|]; [|done].
    destruct (_ <? _)%Z eqn:Ec; [|done]. destruct (existsb _ _); [done|]. cbn [snd count_write rows].
    rewrite open_count_snoc. destruct (counted agent epoch t _) eqn:E; [|lia].
    cbn [counted row_agent row_commitment state due_at row_epoch] in E. bool_props.
    destruct E as [[[Ea _] _] Ee]. apply String.eqb_eq in Ea. unfold epoch_eq in Ee.
    apply String.eqb_eq in Ee. rewrite Ea, Ee in Ec.
    pose proof (open_count_mono agent epoch (now c) t (rows db) Ho). lia.
  - rewrite close_rows. cbn [rows].
    destruct (evolves_close st c cid (if f then Fulfilled else Cancelled)
      (match (if f then Fulfilled else Cancelled) with Fulfilled => Some (now c) | _ => None end) (rows db))
      as (old&new&E&Hold&Hnew); [destruct f; [left|right]; split; eauto|].
    assert (length new = 0%nat) as Hn.
    { apply (f_equal length) in E. rewrite length_map, length_app in E. apply Forall2_length in Hold. lia. }
    apply nil_length_inv in Hn as ->. rewrite app_nil_r in E. rewrite E.
    pose proof (open_count_evolves agent epoch t _ _ Hold). lia.
Qed.

(** ** Creating *)

Lemma visible_elem st c db m :
  m ∈ visible st c db <-> exists r, CommitmentRow r ∈ rows db /\ in_scope st c r = true /\ m = row_commitment r.
Proof.
  unfold visible. rewrite list_elem_of_omap. split.
  - intros ([r|i v]&Hr&Hm); [|done]. destruct (in_scope st c r) eqn:E; [|done]. injection Hm as <-. eauto.
  - intros (r&Hr&E&->). exists (CommitmentRow r). by rewrite E.
Qed.

Lemma visible_app st c l k sn :
  visible st c (mkDb (l ++ k) sn) = (visible st c (mkDb l sn) ++ visible st c (mkDb k sn))%list.
Proof. unfold visible. cbn [rows]. apply omap_app. Qed.

Lemma find_app_None {A} (f : A -> bool) l k : find f l = None -> find f (l ++ k) = find f k.
Proof. induction l as [|x l IH]; [done|]. cbn [find app]. by destruct (f x). Qed.

Lemma in_scope_iff st c r :
  in_scope st c r = true <->
  row_agent r = store_agent st /\ row_principal r = active_principal st c /\ row_epoch r = active_epoch st c /\
  (session_id (row_commitment r) = resolve_active_session (amb c) (active_session_id (store_scope st)) \/
   session_id (row_commitment r) = Session.LEGACY_SESSION_ID).
Proof.
  unfold in_scope. destruct (resolve_session_list_default (amb c) (active_session_id (store_scope st))
    (session_id (row_commitment r))) as (l&->&Hl). unfold principal_eq, epoch_eq.
  rewrite !andb_true_iff, !String.eqb_eq, Hl. tauto.
Qed.

(** Making a commitment: it succeeds exactly when the fields pass their
    checks, the persona holds fewer than the cap and the id is fresh; then it
    is the table's last row and reading it back in the same turn gives the
    stripped text, the time, the target and the tags it was made with, open;
    every refusal stores and sends nothing. *)
Theorem create_exact st c d due t src tg lv db :
  let session := resolve_active_session (amb c) (active_session_id (store_scope st)) in
  Session.normalize_session_id (Some session) = session ->
  match create ps st c d due t src tg lv db with
  | (Ok cid, db') => exists text q tl target,
      check_fields d due t tg = Ok (text, q, tl, target) /\ cid = fresh_id c /\
      (open_count (store_agent st) (active_epoch st c) (now c) (rows db) < MAX_OPEN_COMMITMENTS)%Z /\
      get st c cid db' = Some (mkCommitment cid text q (if truthy target then Some target else None)
                                 (now c) Open None src tl session lv) /\
      (exists r, rows db' = (rows db ++ [CommitmentRow r])%list) /\
      length (sent db') = S (length (sent db))
  | (Raise e, db') => db' = db /\
      (check_fields d due t tg = Raise e \/
       is_ok (check_fields d due t tg) = true /\
       (e = CommitmentCapError /\
          (MAX_OPEN_COMMITMENTS <= open_count (store_agent st) (active_epoch st c) (now c) (rows db))%Z \/
        e = IntegrityError /\ fresh_id c ∈ ids (rows db)))
  end.
Proof.
  cbv zeta. intros Hsess. unfold create.
  destruct (check_fields d due t tg) as [[[[text q] tl] target]|e]; [|by split; [|left]].
  destruct (_ <? _)%Z eqn:Ec.
  2: { split; [done|]. right. split; [done|]. left. split; [done|]. by apply Z.ltb_ge in Ec. }
  destruct (existsb _ _) eqn:Eid.
  { split; [done|]. right. split; [done|]. right. split; [done|].
    apply existsb_exists in Eid as (r&Hr&E%String.eqb_eq). rewrite <- E.
    by apply list_elem_of_fmap_2, list_elem_of_In. }
  exists text, q, tl, target. split; [done|]. split; [done|]. split; [by apply Z.ltb_lt|].
  rewrite !scanned_verbatim, Hsess. split; [|split; [by eexists|cbn; rewrite length_app; cbn; lia]].
  unfold get, count_write. cbn [rows sent].
  match goal with |- find _ (visible _ _ (mkDb (_ ++ [CommitmentRow ?r]) ?sn)) = _ => set (new := r); set (snt := sn) end.
  rewrite visible_app, find_app_None.
  - unfold visible. cbn [rows omap list_omap].
    assert (in_scope st c new = true) as -> by (apply in_scope_iff; cbn; auto).
    cbn [find]. unfold new at 1. cbn [row_commitment id]. by rewrite String.eqb_refl.
  - apply not_true_iff_false in Eid. destruct (find _ _) as [m|] eqn:Ef; [|done]. destruct Eid.
    apply find_some in Ef as [Hin E%String.eqb_eq]. apply list_elem_of_In, visible_elem in Hin as (r&Hr&_&->).
    apply existsb_exists. exists (CommitmentRow r). split; [by apply list_elem_of_In|].
    by apply String.eqb_eq.
Qed.

(** ** Reading *)

(** A read of the due list: every answer is a commitment of the turn's
    scope that passes the filters; there are at most the limit of them and
    never more than 100; they come nearest due first, equal times in the order
    they were made; and what is left out is due no earlier than anything
    answered. A bad limit, state or window is refused. *)
Theorem select_exact st c sn within limit target db :
  match select st c sn within limit target db with
  | Raise e => exists f, e = ValueError f
  | Ok l => (1 <= limit)%Z /\ exists sf hz rest,
      (forall m, m ∈ (l ++ rest)%list <->
         selected sf target hz m = true /\
         exists r, CommitmentRow r ∈ rows db /\ in_scope st c r = true /\ m = row_commitment r) /\
      (forall s, sn = Some s -> sf = state_of_name s /\ is_Some sf) /\ (sn = None -> sf = None) /\
      (forall w, within = Some (Fin w) -> (0 <= w)%Q /\ hz = Some (Fin (now c + w))) /\ (within = None -> hz = None) /\
      length l = Nat.min (Z.to_nat (Z.min limit MAX_LIST_LIMIT)) (length (l ++ rest)) /\
      StronglySorted (λ a b, due_at a <= due_at b)%Q (l ++ rest) /\
      (forall q, filter (λ m, Qeq_bool (due_at m) q = true) (l ++ rest)%list =
                 filter (λ m, Qeq_bool (due_at m) q = true) (List.filter (selected sf target hz) (visible st c db)))
  end.
Proof.
  unfold select. destruct (limit <? 1)%Z eqn:El; [by eexists|]. apply Z.ltb_ge in El.
  destruct (match sn with None => _ | Some s => _ end) as [sf|e] eqn:Es; cbn [rbind].
  2: { destruct sn as [s|]; [|done]. destruct (state_of_name s); [done|]. injection Es as <-. by eexists. }
  destruct (match within with None => _ | Some w => _ end) as [hz|e] eqn:Ew; cbn [rbind].
  2: { destruct within as [w|]; [|done]. destruct (_ || _); [done|]. injection Ew as <-. by eexists. }
  split; [done|]. set (all := List.filter (selected sf target hz) (visible st c db)).
  set (n := Z.to_nat (Z.min limit MAX_LIST_LIMIT)).
  exists sf, hz, (drop n (py_sorted due_le all)). rewrite take_drop.
  assert (forall x y, due_le x y = false -> due_le y x = true) as Htot.
  { unfold due_le. intros x y H. q_props. lra. }
  assert (forall x y z, due_le x y = true -> due_le y z = true -> due_le x z = true) as Htr.
  { unfold due_le. intros x y z H1 H2. q_props. lra. }
  split_and!.
  - intros m. rewrite elem_of_py_sorted. unfold all.
    rewrite list_elem_of_In, filter_In, <- list_elem_of_In, visible_elem. tauto.
  - intros s ->. destruct (state_of_name s); [|done]. injection Es as <-. eauto.
  - intros ->. by injection Es as <-.
  - intros w ->. destruct (flt (Fin 0) (Fin w) || feq (Fin 0) (Fin w)) eqn:E; [|done]. injection Ew as <-.
    split; [|done]. cbn [flt feq] in E. apply orb_true_iff in E as [E|E]; [q_props; lra|].
    apply Qeq_bool_iff in E. lra.
  - intros ->. by injection Ew as <-.
  - apply length_take.
  - eapply StronglySorted_impl; [|by apply py_sorted_sorted]. intros a b H. by apply Qle_bool_iff.
  - intros q. apply (py_sorted_stable due_le Htot Htr all (λ m, Qeq_bool (due_at m) q)).
    + unfold due_le. intros a b H1 H2. q_props. assert (due_at a == due_at b)%Q as E by lra.
      apply eq_true_iff_eq. rewrite !Qeq_bool_iff. by rewrite E.
    + unfold due_le. intros a b H1%Qeq_bool_iff H2%Qeq_bool_iff. apply Qle_bool_iff. lra.
Qed.

(** ** Closing *)

Lemma get_spec st c cid db m :
  NoDup (ids (rows db)) ->
  get st c cid db = Some m <->
  exists r, CommitmentRow r ∈ rows db /\ in_scope st c r = true /\ id (row_commitment r) = cid /\ m = row_commitment r.
Proof.
  intros Hd. unfold get. split.
  - intros [Hin E%String.eqb_eq]%find_some. apply list_elem_of_In, visible_elem in Hin as (r&Hr&Hs&->). eauto.
  - intros (r&Hr&Hs&E&->). destruct (find _ _) as [m|] eqn:Ef.
    + apply find_some in Ef as [Hin E'%String.eqb_eq]. apply list_elem_of_In, visible_elem in Hin as (r2&Hr2&_&->).
      assert (CommitmentRow r2 = CommitmentRow r) as [= ->]; [|done].
      apply (NoDup_map_inj row_id (rows db)); [done..|]. cbn. congruence.
    + pose proof (find_none _ _ Ef (row_commitment r)) as Hf. cbv beta in Hf. rewrite E, String.eqb_refl in Hf.
      discriminate Hf. apply list_elem_of_In, visible_elem. eauto.
Qed.

Lemma get_none st c cid db :
  get st c cid db = None ->
  forall r, CommitmentRow r ∈ rows db -> in_scope st c r = true -> id (row_commitment r) <> cid.
Proof.
  unfold get. intros Hn r Hr Hs E. pose proof (find_none _ _ Hn (row_commitment r)) as Hf. cbv beta in Hf.
  rewrite E, String.eqb_refl in Hf. discriminate Hf. apply list_elem_of_In, visible_elem. eauto.
Qed.

Lemma run_op_new_ids db o i :
  i ∈ ids (rows (run_op db o)) -> i ∈ ids (rows db) \/ i = fresh_id (op_call o).
Proof.
  destruct o as [st c d due t s tg lv|st c cid f]; cbn [run_op op_call].
  - unfold create. destruct (check_fields _ _ _ _) as [[[[text q] tl] tgt]|]; [|by left].
    destruct (_ <? _)%Z; [|by left]. destruct (existsb _ _); [by left|]. cbn [snd count_write rows].
    unfold ids. rewrite map_app. intros [?|Hx%list_elem_of_singleton]%elem_of_app; [by left|by right].
  - rewrite close_rows. cbn [rows]. rewrite map_close_ids. by left.
Qed.

Lemma run_ops_new_ids db os i :
  i ∈ ids (rows (run_ops db os)) -> i ∈ ids (rows db) \/ exists o, o ∈ os /\ i = fresh_id (op_call o).
Proof.
  revert db. induction os as [|o os IH]; intros db; [by left|].
  intros [H|(o'&Ho&->)]%IH; [|right; exists o'; split; [by right|done]].
  apply run_op_new_ids in H as [H| ->]; [by left|right; exists o; split; [left|done]].
Qed.

Lemma in_scope_closed st c r s at_ :
  in_scope st c (mkRow (row_agent r) (row_principal r) (row_epoch r) (set_state s at_ (row_commitment r))) =
  in_scope st c r.
Proof. done. Qed.

(** Other calls between two reads of an id no new row takes: the row is found
    exactly as before, unless it was open and has been closed. *)
Lemma run_ops_get st c cid os db :
  NoDup (ids (rows db)) -> Forall (λ o, fresh_id (op_call o) <> cid) os ->
  match get st c cid db with
  | None => get st c cid (run_ops db os) = None
  | Some m => exists m', get st c cid (run_ops db os) = Some m' /\
      row_evolves (CommitmentRow (mkRow (store_agent st) (active_principal st c) (active_epoch st c) m))
                  (CommitmentRow (mkRow (store_agent st) (active_principal st c) (active_epoch st c) m'))
  end.
Proof.
  intros Hd Hos. pose proof (run_ops_ids db os Hd) as Hd'.
  destruct (run_ops_evolves db os) as (old&new&E&Hold&_).
  destruct (get st c cid db) as [m|] eqn:Eg.
  - apply get_spec in Eg as (r&Hr&Hs&<-&->); [|done]. apply list_elem_of_lookup in Hr as [i Hi].
    destruct (Forall2_lookup_l _ _ _ _ _ Hold Hi) as (r'&Hi'&Hev).
    assert (r' ∈ rows (run_ops db os)) as Hin by (rewrite E; apply elem_of_app; left; by eapply list_elem_of_lookup_2).
    pose proof (proj1 (in_scope_iff st c r) Hs) as (Ha&Hp&He&_).
    inversion Hev as [|r0 s at_ Ho Hc]; subst.
    + exists (row_commitment r). split; [apply get_spec; eauto|constructor].
    + eexists. split; [apply get_spec; [done|]; eexists; split; [exact Hin|]; done|].
      by apply (row_closes (mkRow (store_agent st) (active_principal st c) (active_epoch st c) (row_commitment r)) s at_).
  - destruct (get st c cid (run_ops db os)) as [m'|] eqn:Eg'; [|done]. exfalso.
    apply get_spec in Eg' as (r'&Hr'&Hs&Hid&->); [|done]. rewrite E in Hr', Hd'.
    unfold ids in Hd'. rewrite map_app in Hd'. apply NoDup_app in Hd' as (_&Hdis&_).
    assert (cid ∈ ids (rows db)) as Hcid.
    { assert (cid ∈ ids (rows (run_ops db os))) as H.
      { rewrite E, <- Hid. by apply (list_elem_of_fmap_2 row_id _ (CommitmentRow r')). }
      apply run_ops_new_ids in H as [H|(o&Ho&->)]; [done|]. rewrite Forall_forall in Hos. by destruct (Hos o Ho). }
    apply elem_of_app in Hr' as [Hr'|Hr'].
    2: { apply (Hdis cid); [by rewrite <- (evolves_ids _ _ Hold) in Hcid|]. rewrite <- Hid.
         by apply (list_elem_of_fmap_2 row_id _ (CommitmentRow r')). }
    apply list_elem_of_lookup in Hr' as [i Hi]. destruct (Forall2_lookup_r _ _ _ _ _ Hold Hi) as (r0&Hi0&Hev).
    apply list_elem_of_lookup_2 in Hi0.
    inversion Hev as [|r1 s at_ Ho Hc]; subst.
    + by apply (get_none st c _ db Eg r').
    + by apply (get_none st c _ db Eg r1).
Qed.

Lemma map_not_closable st c cid s at_ t :
  Forall (λ r, closable st c cid r = false) t ->
  map (λ r, if closable st c cid r then close_row s at_ r else r) t = t.
Proof. induction 1 as [|r t Hr _ IH]; [done|]. cbn [map]. by rewrite Hr, IH. Qed.

Lemma filter_not_closable st c cid t :
  Forall (λ r, closable st c cid r = false) t -> List.filter (closable st c cid) t = [].
Proof. induction 1 as [|r t Hr _ IH]; [done|]. cbn [List.filter]. by rewrite Hr. Qed.

Lemma mkDb_eta db : mkDb (rows db) (sent db) = db.
Proof. by destruct db. Qed.

(** A table with unique ids has at most one row to close. *)
Lemma closable_split st c cid db :
  NoDup (ids (rows db)) ->
  (Forall (λ r, closable st c cid r = false) (rows db) /\
   forall m, get st c cid db = Some m -> state m <> Open) \/
  exists r l k, rows db = (l ++ CommitmentRow r :: k)%list /\ closable st c cid (CommitmentRow r) = true /\
    Forall (λ r, closable st c cid r = false) l /\ Forall (λ r, closable st c cid r = false) k /\
    get st c cid db = Some (row_commitment r) /\ state (row_commitment r) = Open.
Proof.
  intros Hd. destruct (existsb (closable st c cid) (rows db)) eqn:Ex.
  - right. apply existsb_exists in Ex as (r&Hin&Hc). destruct r as [r|]; [|done].
    apply list_elem_of_In in Hin as Hin'.
    apply list_elem_of_split in Hin' as (l&k&E). exists r, l, k. split; [done|]. split; [done|].
    cbn [closable] in Hc. bool_props. destruct Hc as [[Hid%String.eqb_eq Ho] Hs].
    assert (forall x, x ∈ (l ++ k)%list -> closable st c cid x = false) as Hx.
    { intros x Hxin. destruct (closable st c cid x) eqn:Ecx; [|done]. exfalso.
      destruct x as [x|]; [|done]. cbn [closable] in Ecx. bool_props. destruct Ecx as [[Hid'%String.eqb_eq _] _].
      rewrite E in Hd. unfold ids in Hd. rewrite map_app in Hd. cbn [map] in Hd.
      apply NoDup_app in Hd as (_&Hdis&[Hnk _]%NoDup_cons). apply elem_of_app in Hxin as [Hxin|Hxin].
      - apply (Hdis cid); [rewrite <- Hid'; by apply (list_elem_of_fmap_2 row_id _ (CommitmentRow x))|].
        cbn. rewrite Hid. left.
      - apply Hnk. cbn. rewrite Hid, <- Hid'. by apply (list_elem_of_fmap_2 row_id _ (CommitmentRow x)). }
    split; [apply Forall_forall; intros x Hxin; apply Hx, elem_of_app; by left|].
    split; [apply Forall_forall; intros x Hxin; apply Hx, elem_of_app; by right|].
    split; [|done]. apply get_spec; [done|]. exists r. by apply list_elem_of_In in Hin.
  - left. assert (forall r, r ∈ rows db -> closable st c cid r = false) as Hall.
    { intros r Hr. destruct (closable st c cid r) eqn:E; [|done]. apply not_true_iff_false in Ex. destruct Ex.
      apply existsb_exists. exists r. split; [by apply list_elem_of_In|done]. }
    split; [by apply Forall_forall|]. intros m (r&Hr&Hs&Hid&->)%get_spec Ho; [|done].
    specialize (Hall _ Hr). cbn [closable] in Hall. rewrite Hs, Hid, String.eqb_refl in Hall.
    by rewrite bool_decide_true in Hall.
Qed.

(** Closing a commitment, whatever other calls run between its update and
    its read: in the turn's scope an open one is closed, once, and returned
    closed with the moment of fulfilment; one already closed is refused with
    its state and one that is not there is not found, and then this call
    changes nothing. *)
Theorem close_exact st c cid (fulfil : bool) os db :
  NoDup (ids (rows db)) -> Forall (λ o, fresh_id (op_call o) <> cid) os ->
  let s := if fulfil then Fulfilled else Cancelled in
  let closed (m : Commitment) := set_state s (if fulfil then Some (now c) else None) m in
  let '(res, db') := close st c cid s (λ db, run_ops db os) db in
  match get st c cid db with
  | Some m =>
      if decide (state m = Open) then
        res = Ok (closed m) /\ get st c cid db' = Some (closed m) /\
        exists e, last (sent db') = Some (session_id m, e)
      else res = Raise (CommitmentClosedError cid (state m)) /\ db' = run_ops db os
  | None => res = Raise (CommitmentNotFoundError cid) /\ db' = run_ops db os
  end.
Proof.
  intros Hd Hos. cbv zeta. unfold close.
  set (s := if fulfil then Fulfilled else Cancelled).
  set (at_ := match s with Fulfilled => Some (now c) | _ => None end).
  assert (at_ = if fulfil then Some (now c) else None) as Hat by (unfold at_, s; by destruct fulfil).
  destruct (closable_split st c cid db Hd) as [[Hn Hno]|(r&l&k&E&Hc&Hl&Hk&Hg&Ho)].
  - rewrite map_not_closable, filter_not_closable, mkDb_eta by done. cbn [length Nat.eqb negb].
    pose proof (run_ops_get st c cid os db Hd Hos) as Hget. destruct (get st c cid db) as [m|] eqn:Eg.
    + destruct Hget as (m'&->&Hev). rewrite decide_False by auto.
      inversion Hev as [|r0 s0 a0 Ho Hc E1]; subst; [done|]. cbn in Ho. by destruct (Hno m eq_refl).
    + by rewrite Hget.
  - rewrite E, List.filter_app. cbn [List.filter].
    rewrite Hc, !filter_not_closable by done. cbn [app length Nat.eqb negb].
    rewrite map_app. cbn [map]. rewrite Hc, !map_not_closable by done.
    set (db1 := mkDb (l ++ close_row s at_ (CommitmentRow r) :: k) (sent db)).
    assert (NoDup (ids (rows db1))) as Hd1.
    { unfold db1, ids. cbn [rows]. rewrite map_app. cbn [map]. by rewrite E in Hd; unfold ids in Hd; rewrite map_app in Hd. }
    assert (get st c cid db1 = Some (set_state s at_ (row_commitment r))) as Hg1.
    { apply get_spec; [done|]. cbn [closable] in Hc. bool_props. destruct Hc as [[Hid%String.eqb_eq _] Hs].
      exists (mkRow (row_agent r) (row_principal r) (row_epoch r) (set_state s at_ (row_commitment r))).
      split; [|done]. unfold db1. cbn [rows close_row]. apply elem_of_app. right. left. }
    pose proof (run_ops_get st c cid os db1 Hd1 Hos) as Hget. rewrite Hg1 in Hget.
    destruct Hget as (m'&Hm'&Hev).
    assert (m' = set_state s at_ (row_commitment r)) as ->.
    { inversion Hev as [|r0 s0 a0 Ho' Hc' E1]; subst; [done|]. cbn in Ho'. unfold s in Ho'. by destruct fulfil. }
    rewrite Hm', Hg, decide_True by done. rewrite <- Hat. split; [done|]. split; [exact Hm'|]. eexists. cbn [count_write sent]. apply last_snoc.
Qed.

(** ** Scope *)

(** The scope is sealed: what a call reads belongs to its persona, tenant and
    epoch and to its session or the legacy one; and a close changes no row of
    another scope, no directive row, and no row of another id. *)
Theorem scope_sealed st c db cid fulfil :
  (forall m, m ∈ visible st c db ->
     exists r, CommitmentRow r ∈ rows db /\ m = row_commitment r /\ row_agent r = store_agent st /\
       row_principal r = active_principal st c /\ row_epoch r = active_epoch st c /\
       (session_id m = resolve_active_session (amb c) (active_session_id (store_scope st)) \/
        session_id m = Session.LEGACY_SESSION_ID)) /\
  Forall2 (λ r r', r' = r \/
      exists m, r = CommitmentRow m /\ in_scope st c m = true /\ id (row_commitment m) = cid /\
        state (row_commitment m) = Open)
    (rows db) (rows (run_op db (OpClose st c cid fulfil))).
Proof.
  split.
  - intros m (r&Hr&Hs&->)%visible_elem. apply in_scope_iff in Hs. exists r. tauto.
  - cbn [run_op]. rewrite close_rows. cbn [rows]. induction (rows db) as [|r t IH]; constructor; [|done].
    destruct (closable st c cid r) eqn:E; [|by left]. right. destruct r as [r|]; [|done].
    cbn [closable] in E. bool_props. destruct E as [[E1%String.eqb_eq E2] E3]. eauto.
Qed.
End histories.

(** ** Witnesses *)

Definition demo_store : CommitmentStore := mkStore "ada" (mkTierScope "room-1" "local" "live").
Definition demo_call (t : Q) (i : string) : Call := mkCall (Ambient None None None []) t None i.
Definition demo_create (t : Q) (i : string) (due : Q) : c_op :=
  OpCreate demo_store (demo_call t i) (VStr " send the notes ") (NumFloat (Fin due)) (VStr "Mike") None
    (VList [VStr "notes"]) "internal".
Definition demo_empty : commitments_db := mkDb [DirectiveRow "d1" VNone] [].
Definition demo_history : list c_op :=
  [demo_create 1 "c1" 50; demo_create 2 "c2" 40; OpClose demo_store (demo_call 3 "x") "c1" true].
Definition demo_table : commitments_db := run_ops [] demo_empty demo_history.

Lemma demo_empty_ok : NoDup (ids (rows demo_empty)) /\ Forall row_ok (rows demo_empty).
Proof. split; [apply NoDup_singleton|]. constructor; [|constructor]. split. by intros m [=]. Qed.

Lemma commitment_lifecycle_witness : NoDup (ids (rows demo_table)).
Proof.
  exact (proj1 (proj2 (commitment_lifecycle [] demo_history demo_empty (proj1 demo_empty_ok) (proj2 demo_empty_ok)))).
Defined.

Lemma cap_respected_witness :
  (open_count "ada" "live" 10 (rows demo_table) <= MAX_OPEN_COMMITMENTS)%Z.
Proof.
  refine (cap_respected [] demo_history "ada" "live" 10 demo_empty _ _); [by vm_compute|].
  repeat constructor; by apply Qle_bool_iff.
Defined.

Lemma create_exact_witness :
  let c := demo_call 4 "c3" in
  exists q tl, check_fields (VStr " call back ") (NumFloat (Fin 9)) VNone (VList []) =
                 Ok ("call back", q, tl, "") /\
    Session.normalize_session_id (Some (resolve_active_session (amb c) "room-1")) = "room-1" /\
    is_ok (fst (create [] demo_store c (VStr " call back ") (NumFloat (Fin 9)) VNone None (VList []) "internal" demo_table)) = true /\
    length (sent (snd (create [] demo_store c (VStr " call back ") (NumFloat (Fin 9)) VNone None (VList []) "internal" demo_table)))
      = S (length (sent demo_table)).
Proof.
  cbv zeta. exists 9%Q, []. split; [reflexivity|]. split; [reflexivity|]. split; [by vm_compute|].
  pose proof (create_exact [] demo_store (demo_call 4 "c3") (VStr " call back ") (NumFloat (Fin 9)) VNone None
    (VList []) "internal" demo_table eq_refl) as H.
  destruct (create [] demo_store (demo_call 4 "c3") (VStr " call back ") (NumFloat (Fin 9)) VNone None (VList [])
    "internal" demo_table) as [[cid|e] db'] eqn:E.
  - destruct H as (?&?&?&?&_&_&_&_&_&H). exact H.
  - exfalso. assert (is_ok (fst (create [] demo_store (demo_call 4 "c3") (VStr " call back ") (NumFloat (Fin 9)) VNone
      None (VList []) "internal" demo_table)) = true) as Ht by by vm_compute.
    rewrite E in Ht. done.
Defined.

Lemma close_exact_witness :
  let '(res, _) := close demo_store (demo_call 5 "y") "c2" Cancelled (λ db, run_ops [] db [demo_create 5 "c9" 99]) demo_table in
  is_ok res = true.
Proof.
  pose proof (close_exact [] demo_store (demo_call 5 "y") "c2" false [demo_create 5 "c9" 99] demo_table
    (run_ops_ids [] demo_empty demo_history (proj1 demo_empty_ok))) as H.
  cbv zeta in H.
  assert (exists m, get demo_store (demo_call 5 "y") "c2" demo_table = Some m /\ state m = Open) as (m&Eg&Es).
  { eexists. split; [vm_compute; reflexivity|reflexivity]. }
  rewrite Eg in H. destruct (close demo_store (demo_call 5 "y") "c2" Cancelled _ demo_table) as [res db'].
  rewrite decide_True in H by done. destruct H as [-> _]; [by repeat constructor|done].
Defined.
