(* ===== verification/Decision.v ===== *)
(** * The decision contract and the selection pipeline

    Models [agents/decision/decision_types.py], [pipeline.py], [baseline.py] and
    [action_classes.py]. A dataclass is a record of its fields, a constructor
    call runs its [__post_init__] on them. A constraint input, an approval gate
    and a policy are functions of the runtime: what such a call gives is an
    [answer]. Log lines are left out. *)

From Stdlib Require Import Ascii.
From S2P Require Import Prelude PyStr PyDict PyValue PyFloat PySort PersonaEvents.
Local Open Scope string_scope.
Local Open Scope py_scope.

(** ** Labels *)

Inductive ActionClass := RESPOND | ASK_CLARIFICATION | TOOL_CALL | DELEGATE | PUBLISH_CHANNEL | DEFER.
Inductive Checkpoint := PRE_ACT | PRE_TOOL | PRE_DELEGATE | POST_OUTCOME.
Inductive DecisionSubject := ACTION | DIRECTIVE.
Inductive DirectiveVerdict := ACCEPT | ADAPT | REFUSE.
Inductive PolicyMode := MANUAL | SEMI_AUTOMATED | AUTOMATED.

#[export] Instance ActionClass_eq_dec : EqDecision ActionClass.
Proof. solve_decision. Defined.
#[export] Instance DirectiveVerdict_eq_dec : EqDecision DirectiveVerdict.
Proof. solve_decision. Defined.
#[export] Instance PolicyMode_eq_dec : EqDecision PolicyMode.
Proof. solve_decision. Defined.

(** [[a-z][a-z0-9_]*], in full *)
Definition is_lower_letter (c : ascii) : bool := (97 <=? code c)%N && (code c <=? 122)%N.
Definition is_digit (c : ascii) : bool := (48 <=? code c)%N && (code c <=? 57)%N.

Definition reason_char (c : ascii) : bool := is_lower_letter c || is_digit c || (code c =? 95)%N.

Definition REASON_CODE (s : string) : bool :=
  match s with
  | "" => false
  | String c s => is_lower_letter c && forallb reason_char (String.list_ascii_of_string s)
  end.

(** [[0-9a-f]{64}], in full *)
Definition hex_char (c : ascii) : bool := is_digit c || (97 <=? code c)%N && (code c <=? 102)%N.

Definition SHA256_HEX (s : string) : bool :=
  Nat.eqb (String.length s) 64 && forallb hex_char (String.list_ascii_of_string s).

Definition as_float (value : pynum) : result string Q :=
  match value with
  | NumBool _ | NumOther => Raise "ValueError"
  | NumInt z => if int_overflows z then Raise "ValueError" else Ok (inject_Z z)
  | NumFloat (Fin q) => Ok q
  | NumFloat _ => Raise "ValueError"
  end.

Definition check_reason (reason : option string) : result string unit :=
  match reason with
  | Some r => if REASON_CODE r then Ok tt else Raise "ValueError"
  | None => Ok tt
  end.

(** ** The record's parts *)

Record DecisionContext := mkContext {
  checkpoint : Checkpoint; agent_id : string; mode : PolicyMode;
  agent_type : option string; event_type : option string; event_id : option string;
  workflow_id : option string; channel_id : option string; protection_level : option string;
  autonomy_level : option string; mood : option string }.

Record DecisionCandidate := mkCandidate {
  candidate_id : string; action_class : ActionClass; action : string;
  tool_name : option string; argument_names : list string; target : option string;
  content_hash : option string }.

Definition candidate_post_init (c : DecisionCandidate) : result string DecisionCandidate :=
  match content_hash c with
  | Some h => if SHA256_HEX h then Ok c else Raise "ValueError"
  | None => Ok c
  end.

Record Rejection := mkRejection { rejected_id : string; rejection_reason : string }.

Definition rejection_post_init (r : Rejection) : result string Rejection :=
  let! _ := check_reason (Some (rejection_reason r)) in Ok r.

Record DecisionOutcome := mkOutcome {
  outcome_class : option ActionClass; selected_id : option string; reason : option string;
  confidence : option Q; rejected : list Rejection; rationale : string;
  verdict : option DirectiveVerdict }.

(** The confidence is the number [_as_float] makes of the argument. *)
Definition outcome_post_init (o : DecisionOutcome) : result string DecisionOutcome :=
  let! _ := check_reason (reason o) in
  match confidence o with
  | Some x => if Qle_bool 0 x && Qle_bool x 1 then Ok o else Raise "ValueError"
  | None => Ok o
  end.

Definition new_outcome (cl : option ActionClass) (sel rsn : option string) (conf : option pynum)
    (rej : list Rejection) (rat : string) (v : option DirectiveVerdict) : result string DecisionOutcome :=
  match conf with
  | Some x =>
      let! q := as_float x in
      outcome_post_init (mkOutcome cl sel rsn (Some q) rej rat v)
  | None => outcome_post_init (mkOutcome cl sel rsn None rej rat v)
  end.

Record DecisionRecord := mkRecord {
  context : DecisionContext; candidates : list DecisionCandidate; outcome : DecisionOutcome;
  subject : DecisionSubject; subject_id : option string; record_id : string; recorded_at : Q }.

(** ** The rules of a record *)

Definition check_candidates (cs : list DecisionCandidate) : result string unit :=
  if bool_decide (NoDup (map candidate_id cs)) then Ok tt else Raise "ValueError".

(** [{c.candidate_id: c.action_class for c in candidates}.get(i)]: of equal ids the last. *)
Definition class_of_id (cs : list DecisionCandidate) (i : string) : option ActionClass :=
  dget i (map (λ c, (candidate_id c, action_class c)) (reverse cs)).

Definition deferred (o : DecisionOutcome) : bool :=
  bool_decide (outcome_class o = Some DEFER) && truthy (opt_str (reason o)).

Definition check_subject (o : DecisionOutcome) (sub : DecisionSubject) (sid : option string) : bool :=
  match sub with
  | ACTION =>
      bool_decide (is_Some (outcome_class o)) && bool_decide (verdict o = None) &&
      bool_decide (sid = None) && (bool_decide (is_Some (selected_id o)) || deferred o)
  | DIRECTIVE =>
      truthy (opt_str sid) &&
      (bool_decide (is_Some (verdict o)) && bool_decide (outcome_class o = None) ||
       deferred o && bool_decide (verdict o = None))
  end.

Definition check_rejections (cs : list DecisionCandidate) (o : DecisionOutcome) : bool :=
  let rej := map rejected_id (rejected o) in
  bool_decide (NoDup rej) && forallb (λ i, bool_decide (is_Some (class_of_id cs i))) rej.

Definition check_selection (cs : list DecisionCandidate) (o : DecisionOutcome) : bool :=
  match selected_id o with
  | Some i =>
      negb (bool_decide (i ∈ map rejected_id (rejected o))) &&
      match class_of_id cs i with Some cl => bool_decide (outcome_class o = Some cl) | None => false end
  | None => true
  end.

Definition check_outcome (ctx : DecisionContext) (cs : list DecisionCandidate) (o : DecisionOutcome)
    (sub : DecisionSubject) (sid : option string) : result string unit :=
  if bool_decide (mode ctx = MANUAL) && bool_decide (is_Some (confidence o)) then Raise "ValueError"
  else if negb (check_rejections cs o) then Raise "ValueError"
  else if negb (check_selection cs o) then Raise "ValueError"
  else if negb (check_subject o sub sid) then Raise "ValueError"
  else Ok tt.

Definition check_record (r : DecisionRecord) : result string unit :=
  let! _ := check_candidates (candidates r) in
  check_outcome (context r) (candidates r) (outcome r) (subject r) (subject_id r).

Definition record_post_init (r : DecisionRecord) : result string DecisionRecord :=
  let! _ := check_record r in Ok r.

(** ** The action classes *)

Definition class_of_action (a : ActionType) : ActionClass :=
  match a with
  | SEND_CHANNEL_MESSAGE => PUBLISH_CHANNEL
  | COMPLETE_TASK => RESPOND
  | PersonaEvents.DELEGATE => DELEGATE
  | SPAWN_SUB_AGENT => DELEGATE
  | USE_TOOL => TOOL_CALL
  | REQUEST_APPROVAL => ASK_CLARIFICATION
  | GRANT_APPROVAL => RESPOND
  | DENY_APPROVAL => RESPOND
  | DO_NOTHING => DEFER
  | END_INTERACTION_VOTE => PUBLISH_CHANNEL
  end.

Inductive StopReason := END_TURN | TOOL_USE | MAX_TOKENS.

Definition class_of_step (s : StopReason) : ActionClass :=
  match s with END_TURN => RESPOND | TOOL_USE => TOOL_CALL | MAX_TOKENS => DEFER end.

(** ** The pipeline *)

Definition NO_CANDIDATE : DecisionOutcome :=
  mkOutcome (Some DEFER) None (Some "no_candidate") None [] "" None.
Definition RUNTIME_PROPOSAL : string := "runtime_proposal".
Definition PROPOSAL_REMOVED : string := "proposal_removed".

Definition set_reason (r : string) (o : DecisionOutcome) : DecisionOutcome :=
  mkOutcome (outcome_class o) (selected_id o) (Some r) (confidence o) (rejected o) (rationale o) (verdict o).
Definition set_rejected (l : list Rejection) (o : DecisionOutcome) : DecisionOutcome :=
  mkOutcome (outcome_class o) (selected_id o) (reason o) (confidence o) l (rationale o) (verdict o).

Definition defer_for (r : string) (rej : list Rejection) : DecisionOutcome :=
  mkOutcome (Some DEFER) None (Some r) None rej "" None.

(** What calling a step gives: it raises, it is a coroutine, or it returns. *)
Inductive answer (A : Type) := Raised | Coroutine | Returned (a : A).
Arguments Raised {A}.
Arguments Coroutine {A}.
Arguments Returned {A} a.

Definition StepCheck : Type := DecisionContext -> DecisionCandidate -> answer pyval.
(** A policy returns an outcome ([inl]) or anything else. *)
Definition DecisionPolicy : Type :=
  DecisionContext -> list DecisionCandidate -> answer (DecisionOutcome + pyval).

(** [_ask]: the rejection, or whether the check broke. A reason that is no
    string makes the expression raise [TypeError]. *)
Definition ask (ctx : DecisionContext) (c : DecisionCandidate) (check : StepCheck) : option Rejection * bool :=
  match check ctx c with
  | Raised | Coroutine => (None, true)
  | Returned VNone => (None, false)
  | Returned (VStr s) =>
      match rejection_post_init (mkRejection (candidate_id c) s) with
      | Ok r => (Some r, false)
      | Raise _ => (None, true)
      end
  | Returned _ => (None, true)
  end.

(** The inner loop of [_constrain] on one candidate. *)
Fixpoint constrain_one (ctx : DecisionContext) (c : DecisionCandidate) (constraints : list StepCheck)
    (broke : bool) : option Rejection * bool :=
  match constraints with
  | [] => (None, broke)
  | k :: ks =>
      match ask ctx c k with
      | (Some r, _) => (Some r, broke)
      | (None, failed) => constrain_one ctx c ks (broke || failed)
      end
  end.

Record constrained := mkConstrained {
  survivors : list DecisionCandidate; removed : list Rejection; broke_any : bool }.

Definition constrain_step (ctx : DecisionContext) (constraints : list StepCheck) (a : constrained)
    (c : DecisionCandidate) : constrained :=
  match constrain_one ctx c constraints false with
  | (Some r, _) => mkConstrained (survivors a) (removed a ++ [r])%list (broke_any a)
  | (None, true) =>
      mkConstrained (survivors a) (removed a ++ [mkRejection (candidate_id c) "constraint_error"])%list true
  | (None, false) => mkConstrained (survivors a ++ [c])%list (removed a) (broke_any a)
  end.

Definition constrain (ctx : DecisionContext) (cs : list DecisionCandidate) (constraints : list StepCheck) :
    constrained :=
  fold_left (constrain_step ctx constraints) cs (mkConstrained [] [] false).

Definition policy_broke : DecisionOutcome := defer_for "policy_error" [].

Definition pick (ctx : DecisionContext) (left_ : list DecisionCandidate) (policy : DecisionPolicy) :
    DecisionOutcome :=
  match policy ctx left_ with
  | Returned (inl o) =>
      match check_outcome ctx left_ o ACTION None with Ok _ => o | Raise _ => policy_broke end
  | _ => policy_broke
  end.

Definition relabel (o : DecisionOutcome) (proposal : DecisionCandidate) : result string DecisionOutcome :=
  if negb (bool_decide (reason o = Some RUNTIME_PROPOSAL)) ||
     bool_decide (selected_id o = None \/ selected_id o = Some (candidate_id proposal))
  then Ok o
  else outcome_post_init (set_reason PROPOSAL_REMOVED o).

(** The loop of [_gate] over the gates, for the selected candidate. *)
Fixpoint gate_loop (ctx : DecisionContext) (selected : DecisionCandidate) (gates : list StepCheck)
    (o : DecisionOutcome) : result string DecisionOutcome :=
  match gates with
  | [] => Ok o
  | g :: gs =>
      let '(held, broke) := ask ctx selected g in
      match (if broke then Some (mkRejection (candidate_id selected) "approval_gate_error") else held) with
      | Some h => outcome_post_init (defer_for (rejection_reason h) (rejected o ++ [h])%list)
      | None => gate_loop ctx selected gs o
      end
  end.

(** [next] over no match raises [StopIteration]. *)
Definition gate (ctx : DecisionContext) (left_ : list DecisionCandidate) (o : DecisionOutcome)
    (gates : list StepCheck) : result string DecisionOutcome :=
  match selected_id o with
  | None => Ok o
  | Some i =>
      match List.find (λ c, String.eqb (candidate_id c) i) left_ with
      | Some selected => gate_loop ctx selected gates o
      | None => Raise "StopIteration"
      end
  end.

(** The record's id and time are arguments. *)
Definition pipeline_decide (ctx : DecisionContext) (cs : list DecisionCandidate) (policy : DecisionPolicy)
    (constraints gates : list StepCheck) (rid : string) (now : pyfloat) : result string DecisionRecord :=
  let! _ := check_candidates cs in
  let k := constrain ctx cs constraints in
  let! o :=
    match cs, survivors k with
    | [], _ => Ok NO_CANDIDATE
    | _, [] => Ok (defer_for (if broke_any k then "constraint_error" else "no_permitted_candidate") [])
    | proposal :: _, left_ =>
        let! picked := relabel (pick ctx left_ policy) proposal in
        gate ctx left_ picked gates
    end in
  let! o := outcome_post_init (set_rejected (removed k ++ rejected o)%list o) in
  let! at_ := as_float (NumFloat now) in
  record_post_init (mkRecord ctx cs o ACTION None rid at_).

Definition baseline_select : DecisionPolicy := λ ctx cs,
  if negb (bool_decide (mode ctx = MANUAL)) then Raised
  else match cs with
       | [] => Returned (inl NO_CANDIDATE)
       | c :: _ =>
           Returned (inl (mkOutcome (Some (action_class c)) (Some (candidate_id c)) (Some RUNTIME_PROPOSAL)
             None [] "manual mode takes the first candidate left in the runtime's own order" None))
       end.
