(* ===== verification/DecisionProps.v ===== *)
(** * The selection pipeline: what it guarantees

    Every record is valid whatever the runtime's steps do, a selection passed
    every check, and the rejections account for every removed candidate. *)

From Stdlib Require Import Ascii.
From S2P Require Import Prelude PyStr PyDict PyValue PyFloat Decision.
Local Open Scope string_scope.
Local Open Scope py_scope.

(** ** The rules as propositions *)

Lemma rejection_post_init_Ok r r' : rejection_post_init r = Ok r' -> r' = r /\ REASON_CODE (rejection_reason r) = true.
Proof.
  unfold rejection_post_init, check_reason. destruct (REASON_CODE _); [|done]. cbn [rbind]. by intros [= <-].
Qed.

Lemma outcome_post_init_Ok o o' : outcome_post_init o = Ok o' -> o' = o.
Proof.
  unfold outcome_post_init. intros (?&_&H)%rbind_Ok. destruct (confidence o); [|by injection H].
  destruct (_ && _); [by injection H|done].
Qed.

Definition outcome_valid (o : DecisionOutcome) : Prop := outcome_post_init o = Ok o.
Definition candidate_valid (c : DecisionCandidate) : Prop := candidate_post_init c = Ok c.
Definition rejection_valid (r : Rejection) : Prop := REASON_CODE (rejection_reason r) = true.

(** What building a record out of built parts guarantees of it. *)
Definition record_valid (r : DecisionRecord) : Prop :=
  check_record r = Ok tt /\ Forall candidate_valid (candidates r) /\
  outcome_valid (outcome r) /\ Forall rejection_valid (rejected (outcome r)).

Lemma check_outcome_Ok ctx cs o sub sid :
  check_outcome ctx cs o sub sid = Ok tt <->
  (mode ctx = MANUAL -> confidence o = None) /\ check_rejections cs o = true /\
  check_selection cs o = true /\ check_subject o sub sid = true.
Proof.
  unfold check_outcome. destruct (bool_decide (mode ctx = MANUAL) && _) eqn:E.
  { apply andb_true_iff in E as [E1%bool_decide_eq_true E2%bool_decide_eq_true].
    split; [done|]. intros [H _]. rewrite H in E2 by done. by destruct E2. }
  assert (mode ctx = MANUAL -> confidence o = None) as Hm.
  { intros H. apply andb_false_iff in E as [E%bool_decide_eq_false|E%bool_decide_eq_false]; [done|].
    destruct (confidence o); [destruct E; eauto|done]. }
  destruct (check_rejections cs o), (check_selection cs o), (check_subject o sub sid); cbn [negb];
    split; try tauto; intros; try done; by destruct_and?.
Qed.

Lemma check_candidates_Ok cs : check_candidates cs = Ok tt <-> NoDup (map candidate_id cs).
Proof. unfold check_candidates. case_bool_decide; by split. Qed.

(** The class a record knows an id by is that of its one candidate. *)
Lemma class_of_id_spec cs i cl :
  NoDup (map candidate_id cs) ->
  class_of_id cs i = Some cl <-> exists c, c ∈ cs /\ candidate_id c = i /\ action_class c = cl.
Proof.
  intros Hnd. unfold class_of_id. split.
  - intros H%dget_Some_elem. apply list_elem_of_fmap in H as (c&[= -> ->]&Hc). rewrite elem_of_reverse in Hc. by exists c.
  - intros (c&Hc&<-&<-). apply elem_dget.
    + unfold dwf, dkeys. rewrite map_map. cbn. by rewrite reverse_Permutation.
    + apply list_elem_of_fmap. exists c. split; [done|]. by rewrite elem_of_reverse.
Qed.

(** A candidate list and its ids. *)
Definition has_id (cs : list DecisionCandidate) (i : string) : Prop := exists c, c ∈ cs /\ candidate_id c = i.

Lemma class_of_id_is_Some cs i :
  NoDup (map candidate_id cs) -> is_Some (class_of_id cs i) <-> has_id cs i.
Proof.
  intros H. split.
  - intros [cl Hcl]. apply class_of_id_spec in Hcl as (c&?&?&?); [|done]. by exists c.
  - intros (c&Hc&Hi). exists (action_class c). apply class_of_id_spec; eauto.
Qed.

Lemma check_rejections_true cs o :
  NoDup (map candidate_id cs) ->
  check_rejections cs o = true <->
  NoDup (map rejected_id (rejected o)) /\ forall i, i ∈ map rejected_id (rejected o) -> has_id cs i.
Proof.
  intros Hnd. unfold check_rejections. rewrite andb_true_iff, bool_decide_eq_true, forallb_forall.
  split; intros [H1 H2]; (split; [done|]); intros i Hi.
  - apply list_elem_of_In, H2, bool_decide_eq_true in Hi. by apply class_of_id_is_Some.
  - apply bool_decide_eq_true, class_of_id_is_Some; [done|]. by apply H2, list_elem_of_In.
Qed.

Lemma check_selection_true cs o :
  NoDup (map candidate_id cs) ->
  check_selection cs o = true <->
  forall i, selected_id o = Some i -> i ∉ map rejected_id (rejected o) /\
    exists c, c ∈ cs /\ candidate_id c = i /\ outcome_class o = Some (action_class c).
Proof.
  intros Hnd. unfold check_selection. destruct (selected_id o) as [i|]; [|done].
  rewrite andb_true_iff, negb_true_iff, bool_decide_eq_false. split.
  - intros [H1 H2] j [= <-]. split; [done|]. destruct (class_of_id cs i) eqn:E; [|done].
    apply class_of_id_spec in E as (c&?&?&<-); [|done]. apply bool_decide_eq_true in H2. eauto.
  - intros H. destruct (H i) as (H1&c&Hc&Hi&Ho); [done|]. split; [done|].
    rewrite (proj2 (class_of_id_spec cs i (action_class c) Hnd)) by eauto. by apply bool_decide_eq_true.
Qed.

(** ** What a check says *)

(** The reason code a check refuses a candidate with. *)
Definition refusal (ctx : DecisionContext) (c : DecisionCandidate) (k : StepCheck) : option string :=
  match k ctx c with Returned (VStr s) => if REASON_CODE s then Some s else None | _ => None end.

(** A check lets a candidate through by answering [None], and no other way. *)
Definition clears (ctx : DecisionContext) (c : DecisionCandidate) (k : StepCheck) : bool :=
  match k ctx c with Returned VNone => true | _ => false end.

Lemma ask_spec ctx c k :
  ask ctx c k = (mkRejection (candidate_id c) <$> refusal ctx c k,
                 negb (clears ctx c k) && negb (bool_decide (is_Some (refusal ctx c k)))).
Proof.
  unfold ask, refusal, clears. destruct (k ctx c) as [| |[| | | |s| |]]; try done.
  unfold rejection_post_init, check_reason. cbn [rejection_reason]. by destruct (REASON_CODE s).
Qed.

Lemma clears_refusal ctx c k : clears ctx c k = true -> refusal ctx c k = None.
Proof. unfold clears, refusal. by destruct (k ctx c) as [| |[]]. Qed.

Lemma refusal_code ctx c k s : refusal ctx c k = Some s -> REASON_CODE s = true.
Proof.
  unfold refusal. destruct (k ctx c) as [| |[]]; try done. destruct (REASON_CODE _) eqn:E; [|done]. by intros [= <-].
Qed.

(** Why the constraints remove a candidate: the first that refuses it names the
    reason, and one that broke counts only when none refuses. *)
Definition removal (ctx : DecisionContext) (ks : list StepCheck) (c : DecisionCandidate) : option string :=
  match omap (refusal ctx c) ks with
  | s :: _ => Some s
  | [] => if forallb (clears ctx c) ks then None else Some "constraint_error"
  end.

Definition unrefused (ctx : DecisionContext) (ks : list StepCheck) (c : DecisionCandidate) : bool :=
  match omap (refusal ctx c) ks with [] => negb (forallb (clears ctx c) ks) | _ => false end.

Lemma constrain_one_spec ctx c ks b :
  constrain_one ctx c ks b =
  match omap (refusal ctx c) ks with
  | s :: _ => (Some (mkRejection (candidate_id c) s), (constrain_one ctx c ks b).2)
  | [] => (None, b || negb (forallb (clears ctx c) ks))
  end.
Proof.
  revert b. induction ks as [|k ks IH]; intros b; cbn [constrain_one omap list_omap forallb].
  { by rewrite orb_false_r. }
  rewrite ask_spec. destruct (refusal ctx c k) as [s|] eqn:E; cbn [fmap option_fmap option_map].
  - done.
  - rewrite IH. rewrite bool_decide_false by (intros [? ?]; done). cbn [negb]. rewrite andb_true_r.
    fold (omap (refusal ctx c) ks). destruct (omap (refusal ctx c) ks); [|done]. f_equal.
    by destruct b, (clears ctx c k), (forallb _ ks).
Qed.

Lemma removal_None ctx ks c : removal ctx ks c = None <-> forallb (clears ctx c) ks = true.
Proof.
  unfold removal. split; [by destruct (omap _ _), (forallb _ _)|]. intros H. rewrite H.
  assert (omap (refusal ctx c) ks = []) as ->; [|done].
  induction ks as [|k ks IH]; [done|]. cbn [forallb] in H. apply andb_true_iff in H as [H1 H2].
  cbn [omap list_omap]. rewrite clears_refusal by done. by apply IH.
Qed.

Lemma removal_code ctx ks c s : removal ctx ks c = Some s -> REASON_CODE s = true.
Proof.
  unfold removal. destruct (omap _ ks) as [|s' l] eqn:E.
  - destruct (forallb _ _); [done|]. by intros [= <-].
  - intros [= <-]. assert (s' ∈ omap (refusal ctx c) ks) as H by (rewrite E; left).
    apply list_elem_of_omap in H as (k&_&H). by eapply refusal_code.
Qed.

Lemma constrain_spec ctx ks cs :
  constrain ctx cs ks =
  mkConstrained (List.filter (λ c, forallb (clears ctx c) ks) cs)
    (omap (λ c, mkRejection (candidate_id c) <$> removal ctx ks c) cs)
    (existsb (unrefused ctx ks) cs).
Proof.
  unfold constrain. set (a0 := mkConstrained [] [] false).
  assert (forall a, fold_left (constrain_step ctx ks) cs a =
    mkConstrained (survivors a ++ List.filter (λ c, forallb (clears ctx c) ks) cs)
      (removed a ++ omap (λ c, mkRejection (candidate_id c) <$> removal ctx ks c) cs)
      (broke_any a || existsb (unrefused ctx ks) cs)) as H; [|by rewrite H].
  induction cs as [|c cs IH]; intros a; cbn [fold_left List.filter existsb omap list_omap].
  { destruct a as [l r b]. cbn [survivors removed broke_any]. by rewrite !app_nil_r, orb_false_r. }
  rewrite IH. unfold constrain_step. rewrite constrain_one_spec.
  pose proof (removal_None ctx ks c) as Hn. unfold removal, unrefused in *.
  destruct (omap (refusal ctx c) ks) as [|s l] eqn:E; cbn [orb negb].
  - destruct (forallb (clears ctx c) ks); cbn [negb survivors removed broke_any fmap option_fmap option_map];
      rewrite <- ?app_assoc, ?orb_false_r; cbn [orb app]; rewrite ?orb_true_r; done.
  - assert (forallb (clears ctx c) ks = false) as -> by (destruct (forallb _ _); [by destruct Hn as [_ Hn]; discriminate Hn|done]).
    cbn [survivors removed broke_any fmap option_fmap option_map orb]. by rewrite <- app_assoc.
Qed.

(** ** The steps *)

(** The reason of the first gate that does not let the pick through. *)
Definition held (ctx : DecisionContext) (gs : list StepCheck) (c : DecisionCandidate) : option string :=
  match List.find (λ g, negb (clears ctx c g)) gs with
  | Some g => Some (default "approval_gate_error" (refusal ctx c g))
  | None => None
  end.

Lemma held_None ctx gs c : held ctx gs c = None <-> forallb (clears ctx c) gs = true.
Proof.
  unfold held. induction gs as [|g gs IH]; [done|]. cbn [List.find forallb].
  by destruct (clears ctx c g); cbn [negb andb].
Qed.

Lemma held_code ctx gs c s : held ctx gs c = Some s -> REASON_CODE s = true.
Proof.
  unfold held. destruct (List.find _ gs) as [g|]; [|done]. intros [= <-].
  destruct (refusal ctx c g) eqn:E; [by eapply refusal_code|done].
Qed.

Lemma reason_code_nonempty s : REASON_CODE s = true -> truthy s = true.
Proof. by destruct s. Qed.

Lemma defer_for_valid s rej : REASON_CODE s = true -> outcome_valid (defer_for s rej).
Proof. intros H. unfold outcome_valid, outcome_post_init, check_reason. cbn [reason defer_for]. by rewrite H. Qed.

Lemma gate_loop_spec ctx c gs o :
  gate_loop ctx c gs o =
  Ok (match held ctx gs c with
      | Some s => defer_for s (rejected o ++ [mkRejection (candidate_id c) s])%list
      | None => o
      end).
Proof.
  induction gs as [|g gs IH]; [done|]. cbn [gate_loop]. rewrite ask_spec. unfold held. cbn [List.find].
  destruct (clears ctx c g) eqn:E; cbn [negb andb].
  - rewrite clears_refusal by done. cbn [fmap option_fmap option_map]. by rewrite IH.
  - destruct (refusal ctx c g) as [s|] eqn:Er; cbn [fmap option_fmap option_map default from_option id].
    + rewrite bool_decide_true by eauto. cbn [negb rejection_reason]. apply defer_for_valid.
      by eapply refusal_code.
    + rewrite bool_decide_false by (intros [? ?]; done). cbn [negb rejection_reason]. by apply defer_for_valid.
Qed.

Lemma check_defer_for ctx l s : REASON_CODE s = true -> check_outcome ctx l (defer_for s []) ACTION None = Ok tt.
Proof.
  intros H%reason_code_nonempty. apply check_outcome_Ok. split; [done|]. split; [done|]. split; [done|].
  unfold check_subject, deferred. cbn [outcome_class verdict selected_id reason defer_for opt_str default from_option id].
  by rewrite H.
Qed.

Lemma pick_checked ctx l policy : check_outcome ctx l (pick ctx l policy) ACTION None = Ok tt.
Proof.
  unfold pick. assert (check_outcome ctx l policy_broke ACTION None = Ok tt) as Hb by by apply check_defer_for.
  destruct (policy ctx l) as [| |[o|v]]; try done. by destruct (check_outcome ctx l o ACTION None) as [[]|] eqn:E.
Qed.

(** A policy's outcome is an object its constructor has checked. *)
Definition policy_sound (policy : DecisionPolicy) : Prop :=
  forall ctx l o, policy ctx l = Returned (inl o) -> outcome_valid o /\ Forall rejection_valid (rejected o).

Lemma pick_valid ctx l policy :
  policy_sound policy -> outcome_valid (pick ctx l policy) /\ Forall rejection_valid (rejected (pick ctx l policy)).
Proof.
  intros H. unfold pick. assert (outcome_valid policy_broke) by done.
  destruct (policy ctx l) as [| |[o|v]] eqn:E; try done.
  destruct (check_outcome ctx l o ACTION None); [by eapply H|done].
Qed.

(** The label of a pick: an outcome's reason, but that only the first candidate
    is the runtime's proposal. *)
Definition relabelled (o : DecisionOutcome) (proposal : DecisionCandidate) : DecisionOutcome :=
  if decide (reason o = Some RUNTIME_PROPOSAL /\ selected_id o <> None /\
             selected_id o <> Some (candidate_id proposal))
  then set_reason PROPOSAL_REMOVED o else o.

Lemma relabel_spec o p : outcome_valid o -> relabel o p = Ok (relabelled o p) /\ outcome_valid (relabelled o p).
Proof.
  intros Ho. unfold relabel, relabelled. case_decide as H.
  - destruct H as (H1&H2&H3). rewrite bool_decide_true by done. rewrite bool_decide_false by tauto. cbn [negb orb].
    assert (outcome_valid (set_reason PROPOSAL_REMOVED o)); [|done].
    unfold outcome_valid, outcome_post_init in *. apply rbind_Ok in Ho as (u&_&Ho). cbn [reason set_reason].
    cbn [check_reason]. assert (REASON_CODE PROPOSAL_REMOVED = true) as -> by done. cbn [rbind].
    cbn [confidence set_reason]. revert Ho. destruct (confidence o); [|done]. by destruct (_ && _).
  - destruct (_ || _) eqn:E; [done|]. exfalso. apply H. apply orb_false_iff in E as [E1 E2].
    apply negb_false_iff, bool_decide_eq_true in E1. apply bool_decide_eq_false in E2. tauto.
Qed.

Lemma relabelled_checked ctx l o p :
  check_outcome ctx l o ACTION None = Ok tt -> check_outcome ctx l (relabelled o p) ACTION None = Ok tt.
Proof.
  rewrite !check_outcome_Ok. unfold relabelled. case_decide as H; [|done]. destruct H as (_&H&_).
  intros (H1&H2&H3&H4). split; [done|]. split; [done|]. split; [done|].
  unfold check_subject in *. cbn [outcome_class verdict selected_id set_reason].
  bool_props. destruct H4 as [[[? ?] ?] _]. split_and!; try done. left. by apply not_eq_None_Some.
Qed.

(** ** The outcome settled on *)

Section settled.
Context (ctx : DecisionContext) (cs : list DecisionCandidate) (policy : DecisionPolicy)
  (ks gs : list StepCheck).

Definition permitted : list DecisionCandidate := List.filter (λ c, forallb (clears ctx c) ks) cs.

Definition removals : list Rejection :=
  omap (λ c, mkRejection (candidate_id c) <$> removal ctx ks c) cs.

(** The candidate an outcome over [permitted] selects. *)
Definition selection (o : DecisionOutcome) : option DecisionCandidate :=
  selected_id o ≫= λ i, List.find (λ c, String.eqb (candidate_id c) i) permitted.

Definition settled : DecisionOutcome :=
  match cs, permitted with
  | [], _ => NO_CANDIDATE
  | _, [] => defer_for (if existsb (unrefused ctx ks) cs then "constraint_error" else "no_permitted_candidate") []
  | p :: _, _ =>
      let o := relabelled (pick ctx permitted policy) p in
      match selection o with
      | Some c =>
          match held ctx gs c with
          | Some s => defer_for s (rejected o ++ [mkRejection (candidate_id c) s])%list
          | None => o
          end
      | None => o
      end
  end.

Hypothesis ids : NoDup (map candidate_id cs).

Lemma filter_ids_NoDup (f : DecisionCandidate -> bool) : NoDup (map candidate_id (List.filter f cs)).
Proof.
  revert ids. induction cs as [|c l IH]; intros H; [done|]. cbn [List.filter map] in *.
  apply NoDup_cons in H as [H1 H2]. destruct (f c); [|auto]. cbn [map]. apply NoDup_cons.
  split; [|auto]. intros (c'&E&Hc)%list_elem_of_fmap. apply H1, list_elem_of_fmap. exists c'. split; [done|].
  apply list_elem_of_In. apply list_elem_of_In in Hc. by apply filter_In in Hc as [? _].
Qed.

Lemma permitted_ids : NoDup (map candidate_id permitted).
Proof. apply filter_ids_NoDup. Qed.

Lemma permitted_elem c : c ∈ permitted <-> c ∈ cs /\ forallb (clears ctx c) ks = true.
Proof. unfold permitted. rewrite !list_elem_of_In, filter_In. done. Qed.

Lemma selection_Some o c : selection o = Some c -> c ∈ permitted /\ selected_id o = Some (candidate_id c).
Proof.
  unfold selection. destruct (selected_id o) as [i|]; [|done]. cbn [mbind option_bind].
  intros [H1 H2%String.eqb_eq]%find_some. rewrite list_elem_of_In. by subst.
Qed.

Lemma selection_defined o :
  check_outcome ctx permitted o ACTION None = Ok tt -> selected_id o <> None -> is_Some (selection o).
Proof.
  intros (_&_&Hs&_)%check_outcome_Ok H. unfold selection. destruct (selected_id o) as [i|] eqn:E; [|done].
  cbn [mbind option_bind]. destruct (List.find _ permitted) eqn:F; [eauto|exfalso].
  pose proof (proj1 (check_selection_true permitted o permitted_ids) Hs) as Hs'. destruct (Hs' i E) as (_&c&Hc&Hi&_). apply list_elem_of_In in Hc.
  pose proof (find_none _ _ F _ Hc) as Hn. cbn in Hn. rewrite Hi, String.eqb_refl in Hn. done.
Qed.

Lemma settled_checked : check_outcome ctx permitted settled ACTION None = Ok tt.
Proof.
  unfold settled. pose proof permitted_ids as Hp. destruct cs as [|p l] eqn:E; [by apply (check_defer_for ctx _ "no_candidate")|].
  destruct permitted as [|c0 l0] eqn:Ep; [apply check_defer_for; by destruct (existsb _ _)|].
  rewrite <- Ep in *. clear c0 l0 Ep.
  assert (check_outcome ctx permitted (relabelled (pick ctx permitted policy) p) ACTION None = Ok tt) as Ho
    by apply relabelled_checked, pick_checked.
  set (o := relabelled _ _) in *. clearbody o. destruct (selection o) as [c|] eqn:Es; [|done].
  destruct (held ctx gs c) as [s|] eqn:Eh; [|done]. apply selection_Some in Es as [Hc Hs].
  apply check_outcome_Ok in Ho as (H1&H2&H3&H4). apply (check_rejections_true _ _ Hp) in H2 as [H2a H2b].
  destruct (proj1 (check_selection_true _ _ Hp) H3 _ Hs) as [Hn _]. apply check_outcome_Ok.
  split; [done|]. split; [|split; [done|]].
  - apply check_rejections_true; [done|]. cbn [rejected defer_for]. rewrite map_app. cbn [map rejected_id]. split.
    + apply NoDup_app. split; [done|]. split; [|apply NoDup_singleton]. intros i Hi Hx. apply list_elem_of_singleton in Hx. by subst.
    + intros i [Hi|Hi]%elem_of_app; [auto|]. apply list_elem_of_singleton in Hi. subst. by exists c.
  - unfold check_subject, deferred. cbn [outcome_class verdict selected_id reason defer_for opt_str default from_option id].
    apply held_code, reason_code_nonempty in Eh. by rewrite Eh.
Qed.

Lemma removals_ids_eq :
  map rejected_id removals = map candidate_id (List.filter (λ c, negb (forallb (clears ctx c) ks)) cs).
Proof.
  unfold removals. clear ids. induction cs as [|c l IH]; [done|]. cbn [omap list_omap List.filter].
  pose proof (removal_None ctx ks c) as Hn. destruct (removal ctx ks c) as [s|].
  - assert (forallb (clears ctx c) ks = false) as -> by (destruct (forallb _ _); [by destruct Hn as [_ Hn]; discriminate Hn|done]).
    cbn [fmap option_fmap option_map negb map rejected_id]. by f_equal.
  - rewrite (proj1 Hn) by done. done.
Qed.

Lemma removals_ids i :
  i ∈ map rejected_id removals <-> exists c, c ∈ cs /\ candidate_id c = i /\ forallb (clears ctx c) ks = false.
Proof.
  rewrite removals_ids_eq, list_elem_of_fmap. split.
  - intros (c&->&Hc). apply list_elem_of_In, filter_In in Hc as [Hc Hf%negb_true_iff]. exists c.
    by rewrite list_elem_of_In.
  - intros (c&Hc&<-&Hf). exists c. split; [done|]. apply list_elem_of_In, filter_In. rewrite <- list_elem_of_In.
    by rewrite Hf.
Qed.

Lemma id_inj c c' : c ∈ cs -> c' ∈ cs -> candidate_id c = candidate_id c' -> c = c'.
Proof. intros. by eapply (NoDup_map_inj candidate_id). Qed.

(** What [settled] selects is what the policy picked, past every gate. *)
Lemma settled_picks i :
  selected_id settled = Some i ->
  exists o p l, cs = p :: l /\ policy ctx permitted = Returned (inl o) /\ selected_id o = Some i /\
    has_id permitted i /\
    (forall c, c ∈ permitted -> candidate_id c = i -> forallb (clears ctx c) gs = true) /\
    (reason settled = Some RUNTIME_PROPOSAL -> candidate_id p = i).
Proof.
  pose proof selection_defined as Hsd. pose proof permitted_ids as Hpi. unfold settled.
  destruct cs as [|p l] eqn:E; [done|]. destruct permitted as [|c0 l0] eqn:Ep; [done|].
  rewrite <- Ep in *. clear c0 l0 Ep. pose proof (pick_checked ctx permitted policy) as Hk.
  pose proof (relabelled_checked _ _ _ p Hk) as Hk'.
  set (o := relabelled _ _). fold o in Hk'.
  assert (selected_id o = selected_id (pick ctx permitted policy)) as Ho by (unfold o, relabelled; by case_decide).
  assert (selected_id o = Some i -> exists c, selection o = Some c /\ c ∈ permitted /\ candidate_id c = i) as Hsel.
  { intros Hi. destruct (Hsd o Hk') as [c Hc]; [by rewrite Hi|]. exists c.
    pose proof (selection_Some o c Hc) as [H1 H2]. split; [done|]. split; [done|]. congruence. }
  intros Hi. assert (selected_id o = Some i) as Hoi.
  { destruct (selection o) as [c|]; [|done]. by destruct (held ctx gs c). }
  destruct (Hsel Hoi) as (c&Hc&Hcp&Hci). rewrite Hc in *. destruct (held ctx gs c) eqn:Eh; [done|].
  apply held_None in Eh. rewrite Ho in Hoi. unfold pick in Hoi.
  destruct (policy ctx permitted) as [| |[o0|v]] eqn:Epol; try done.
  destruct (check_outcome ctx permitted o0 ACTION None); [|done].
  exists o0, p, l. split; [done|]. split; [done|]. split; [done|]. split; [by exists c|]. split.
  - intros c' Hc' Hi'. assert (c' = c) as ->; [|done]. eapply (NoDup_map_inj candidate_id); [exact Hpi|..]; congruence || done.
  - intros Hr. unfold o, relabelled in Hr, Hi, Ho. case_decide as Hd; [done|].
    destruct (decide (candidate_id p = i)) as [|Hne]; [done|]. exfalso. apply Hd. split; [done|].
    rewrite Hi. split; [done|]. congruence.
Qed.

(** What holds over the permitted candidates holds over all of them, with the
    removals added. *)
Lemma removals_added o :
  check_outcome ctx permitted o ACTION None = Ok tt ->
  check_outcome ctx cs (set_rejected (removals ++ rejected o)%list o) ACTION None = Ok tt.
Proof.
  pose proof permitted_ids as Hp. rewrite !check_outcome_Ok. intros (H1&H2&H3&H4).
  apply (check_rejections_true _ _ Hp) in H2 as [H2a H2b]. pose proof (proj1 (check_selection_true _ _ Hp) H3) as H3'.
  assert (forall i, has_id permitted i -> i ∉ map rejected_id removals) as Hdis.
  { intros i (c&Hc&Hi) Hr. apply permitted_elem in Hc as [Hc Hf]. apply removals_ids in Hr as (c'&Hc'&Hi'&Hf').
    assert (c = c') as -> by (apply id_inj; [done|done|congruence]). congruence. }
  assert (forall i, has_id permitted i -> has_id cs i) as Hin.
  { intros i (c&Hc&Hi). apply permitted_elem in Hc as [Hc _]. by exists c. }
  split; [done|]. split; [|split; [|done]].
  - apply check_rejections_true; [done|]. cbn [rejected set_rejected]. rewrite map_app. split.
    + apply NoDup_app. split; [rewrite removals_ids_eq; apply filter_ids_NoDup|]. split; [|done].
      intros i Hi Hj. by destruct (Hdis i (H2b i Hj)).
    + intros i [Hi|Hi]%elem_of_app; [|auto]. apply removals_ids in Hi as (c&?&?&_). by exists c.
  - apply check_selection_true; [done|]. intros i Hi. destruct (H3' i Hi) as (Hn&c&Hc&Hci&Ho).
    cbn [rejected set_rejected]. rewrite map_app, not_elem_of_app. split.
    + split; [|done]. apply Hdis. by exists c.
    + apply permitted_elem in Hc as [Hc _]. eauto.
Qed.

Hypothesis policy_ok : policy_sound policy.

Lemma settled_valid : outcome_valid settled /\ Forall rejection_valid (rejected settled).
Proof.
  unfold settled. destruct cs as [|p l]; [done|]. destruct permitted as [|c0 l0] eqn:Ep.
  { split; [|constructor]. apply defer_for_valid. by destruct (existsb _ _). }
  rewrite <- Ep. destruct (pick_valid ctx permitted policy policy_ok) as [H1 H2].
  destruct (relabel_spec _ p H1) as [_ H3].
  assert (rejected (relabelled (pick ctx permitted policy) p) = rejected (pick ctx permitted policy)) as Hr
    by (unfold relabelled; by case_decide).
  destruct (selection _) as [c|]; [|by rewrite Hr]. destruct (held ctx gs c) as [s|] eqn:E; [|by rewrite Hr].
  apply held_code in E. split; [by apply defer_for_valid|]. cbn [rejected defer_for]. rewrite Hr.
  apply Forall_app. split; [done|]. by constructor.
Qed.

Lemma removals_valid : Forall rejection_valid removals.
Proof.
  apply Forall_forall. intros r Hr. unfold removals in Hr. apply list_elem_of_omap in Hr as (c&_&Hr).
  destruct (removal ctx ks c) as [s|] eqn:E; [|done]. injection Hr as <-. by eapply removal_code.
Qed.

Lemma pipeline_decide_eq rid q :
  pipeline_decide ctx cs policy ks gs rid (Fin q) =
  Ok (mkRecord ctx cs (set_rejected (removals ++ rejected settled)%list settled) ACTION None rid q).
Proof.
  unfold pipeline_decide. rewrite (proj2 (check_candidates_Ok cs) ids). cbn [rbind]. cbv zeta.
  rewrite constrain_spec. cbn [survivors removed broke_any]. fold permitted removals.
  pose proof settled_checked as Hc. pose proof selection_defined as Hsd. destruct settled_valid as [Hv _].
  match goal with |- rbind ?m _ = _ => assert (m = Ok settled) as -> end.
  { unfold settled. destruct cs as [|p l] eqn:E; [done|]. destruct permitted as [|c0 l0] eqn:Ep; [done|].
    rewrite <- Ep in *. clear c0 l0 Ep.
    destruct (pick_valid ctx permitted policy policy_ok) as [H1 _]. destruct (relabel_spec _ p H1) as [-> _].
    cbn [rbind]. pose proof (relabelled_checked _ _ _ p (pick_checked ctx permitted policy)) as Hk.
    set (o := relabelled _ _) in *. clearbody o. unfold gate.
    specialize (Hsd o) as Hd. unfold selection in *. destruct (selected_id o) as [i|]; [|done].
    cbn [mbind option_bind] in *. destruct Hd as [c Hcc]; [done|done|].
    rewrite Hcc. apply gate_loop_spec. }
  cbn [rbind]. assert (outcome_post_init (set_rejected (removals ++ rejected settled)%list settled) =
      Ok (set_rejected (removals ++ rejected settled)%list settled)) as ->.
  { unfold outcome_valid, outcome_post_init in *. cbn [reason confidence set_rejected].
    apply rbind_Ok in Hv as (u&->&Hv). cbn [rbind]. revert Hv. destruct (confidence settled); [|done].
    by destruct (_ && _). }
  cbn [rbind as_float]. unfold record_post_init, check_record. cbn [candidates context outcome subject subject_id].
  rewrite (proj2 (check_candidates_Ok cs) ids). cbn [rbind]. by rewrite removals_added.
Qed.
End settled.

(** ** The properties *)

(** Whatever the runtime's constraints, gates and policy answer, raise or
    leave unawaited, the pipeline returns a record, of the candidates and the
    context it was given, that passes every rule of a record; only candidates
    that share an id make it refuse, before any step runs. *)
Theorem decide_valid ctx cs policy ks gs rid q :
  policy_sound policy -> Forall candidate_valid cs ->
  match pipeline_decide ctx cs policy ks gs rid (Fin q) with
  | Ok r => NoDup (map candidate_id cs) /\ record_valid r /\ candidates r = cs /\ context r = ctx /\
      subject r = ACTION /\ record_id r = rid /\ recorded_at r = q
  | Raise e => e = "ValueError" /\ ~ NoDup (map candidate_id cs)
  end.
Proof.
  intros Hp Hc. destruct (decide (NoDup (map candidate_id cs))) as [Hn|Hn].
  - rewrite pipeline_decide_eq by done. split; [done|]. split; [|done]. unfold record_valid.
    cbn [candidates outcome]. split; [|split; [done|]].
    + unfold check_record. cbn [candidates context outcome subject subject_id].
      rewrite (proj2 (check_candidates_Ok cs) Hn). cbn [rbind]. by apply removals_added, settled_checked.
    + destruct (settled_valid ctx cs policy ks gs Hn Hp) as [H1 H2]. split.
      * unfold outcome_valid, outcome_post_init in *. cbn [reason confidence set_rejected].
        apply rbind_Ok in H1 as (u&->&H1). cbn [rbind]. revert H1. destruct (confidence _); [|done].
        by destruct (_ && _).
      * cbn [rejected set_rejected]. apply Forall_app. split; [apply removals_valid|done].
  - unfold pipeline_decide, check_candidates. by rewrite bool_decide_false.
Qed.

(** C7. Nothing runs that any step did not clear: a selected candidate is one
    of those proposed, selected under its own class; every constraint and every
    gate answered [None] on it, none raising, async or unclear; the policy,
    asked about the permitted candidates, picked it; it is not also rejected;
    and only the runtime's first proposal is recorded as such. *)
Theorem selection_cleared ctx cs policy ks gs rid q r i :
  policy_sound policy -> pipeline_decide ctx cs policy ks gs rid (Fin q) = Ok r ->
  selected_id (outcome r) = Some i ->
  exists c o, c ∈ cs /\ candidate_id c = i /\ outcome_class (outcome r) = Some (action_class c) /\
    forallb (clears ctx c) ks = true /\ forallb (clears ctx c) gs = true /\
    policy ctx (permitted ctx cs ks) = Returned (inl o) /\ selected_id o = Some i /\
    i ∉ map rejected_id (rejected (outcome r)) /\
    (reason (outcome r) = Some RUNTIME_PROPOSAL -> head cs = Some c).
Proof.
  intros Hp Hd Hi. assert (NoDup (map candidate_id cs)) as Hn.
  { unfold pipeline_decide in Hd. apply rbind_Ok in Hd as ([]&Hd&_). by apply check_candidates_Ok. }
  rewrite pipeline_decide_eq in Hd by done. injection Hd as <-. cbn [outcome selected_id set_rejected] in *.
  pose proof (removals_added ctx cs ks Hn _ (settled_checked ctx cs policy ks gs Hn)) as Hk.
  apply check_outcome_Ok in Hk as (_&_&Hs&_). apply (check_selection_true _ _ Hn) with (i := i) in Hs; [|done].
  destruct Hs as (Hr&c&Hc&Hci&Ho). pose proof (settled_picks ctx cs policy ks gs Hn i Hi) as (o&p&l&E&Hpo&Hoi&Hcl&Hg&He).
  exists c, o. assert (c ∈ permitted ctx cs ks) as Hcp.
  { destruct Hcl as (c'&Hc'&Hi'). apply permitted_elem in Hc' as Hc''. destruct Hc'' as [Hc'' _].
    by rewrite (id_inj cs Hn c c') by (done || congruence). }
  split; [done|]. split; [done|]. split; [done|]. apply permitted_elem in Hcp as Hf. destruct Hf as [_ Hf].
  split; [done|]. split.
  { apply Hg; [done|congruence]. }
  split; [done|]. split; [done|]. split; [done|]. intros Hrs. rewrite E. cbn [head].
  f_equal. apply (id_inj cs Hn); [rewrite E; left|done|]. rewrite Hci. by apply He.
Qed.

(** The outcome on every branch: with no candidate, or none permitted, the
    record defers and says which; otherwise a deferral of the policy stands; a
    pick the gates clear stands, relabelled when it only looks like the
    proposal; and a pick a gate holds is deferred with that gate's reason,
    unscored. In each case the removed candidates come first in the rejections,
    in the runtime's order, each with the reason of the first constraint that
    refused it. *)
Theorem decide_exact ctx cs policy ks gs rid q :
  policy_sound policy -> NoDup (map candidate_id cs) ->
  exists r, pipeline_decide ctx cs policy ks gs rid (Fin q) = Ok r /\
    let o := pick ctx (permitted ctx cs ks) policy in
    let gone := removals ctx cs ks in
    match cs, permitted ctx cs ks with
    | [], _ => outcome r = NO_CANDIDATE
    | _, [] => outcome r =
        defer_for (if existsb (unrefused ctx ks) cs then "constraint_error" else "no_permitted_candidate") gone
    | p :: _, _ =>
        match selected_id o with
        | None => outcome r = set_rejected (gone ++ rejected o)%list o
        | Some i => exists c, c ∈ permitted ctx cs ks /\ candidate_id c = i /\
            match held ctx gs c with
            | Some s => outcome r = defer_for s (gone ++ rejected o ++ [mkRejection i s])%list
            | None => outcome r = set_rejected (gone ++ rejected o)%list
                (if decide (reason o = Some RUNTIME_PROPOSAL /\ i <> candidate_id p)
                 then set_reason PROPOSAL_REMOVED o else o)
            end
        end
    end.
Proof.
  intros Hp Hn. rewrite pipeline_decide_eq by done. eexists. split; [done|]. cbv zeta. cbn [outcome].
  pose proof (selection_defined ctx cs ks Hn) as Hsd. pose proof (pick_checked ctx (permitted ctx cs ks) policy) as Hk.
  unfold settled. destruct cs as [|p l] eqn:E; [done|]. rewrite <- E in *. clear Hn E l.
  destruct (permitted ctx cs ks) as [|c0 l0] eqn:Ep; [by rewrite app_nil_r|]. rewrite <- Ep in *. clear c0 l0 Ep.
  pose proof (relabelled_checked _ _ _ p Hk) as Hk'. specialize (Hsd _ Hk').
  pose proof (λ c, selection_Some ctx cs ks (relabelled (pick ctx (permitted ctx cs ks) policy) p) c) as Hss.
  set (o := pick ctx (permitted ctx cs ks) policy) in *. clearbody o.
  assert (selected_id (relabelled o p) = selected_id o /\ rejected (relabelled o p) = rejected o) as [Hs Hr]
    by (unfold relabelled; by case_decide).
  rewrite Hs, Hr in *. destruct (selected_id o) as [i|] eqn:Ei.
  - destruct Hsd as [c Hc]; [done|]. destruct (Hss c Hc) as [Hcp [= ->]]. rewrite Hc. exists c.
    split; [done|]. split; [done|]. destruct (held ctx gs c); [done|].
    rewrite Hr. f_equal. unfold relabelled. rewrite Ei.
    repeat match goal with |- context [decide ?P] => let H := fresh "Hd" in destruct (decide P) as [H|H] end; try done; exfalso.
    + apply Hd0. destruct Hd as (?&_&?). split; [done|congruence].
    + apply Hd. destruct Hd0 as [? ?]. split; [done|]. split; [done|congruence].
  - unfold selection. rewrite Hs. cbn [mbind option_bind]. rewrite Hr.
    f_equal. unfold relabelled. case_decide as Hd; [|done]. destruct Hd as (_&Hd&_). by rewrite Ei in Hd.
Qed.

(** What [BaselinePolicy] makes of the first candidate it is given. *)
Definition first_proposed (c : DecisionCandidate) : DecisionOutcome :=
  mkOutcome (Some (action_class c)) (Some (candidate_id c)) (Some RUNTIME_PROPOSAL) None []
    "manual mode takes the first candidate left in the runtime's own order" None.

Lemma baseline_pick ctx c t :
  mode ctx = MANUAL -> NoDup (map candidate_id (c :: t)) ->
  pick ctx (c :: t) baseline_select = first_proposed c.
Proof.
  intros Hm Hn. unfold pick, baseline_select. rewrite bool_decide_true by done. cbn [negb]. fold (first_proposed c).
  assert (check_outcome ctx (c :: t) (first_proposed c) ACTION None = Ok tt) as ->; [|done].
  apply check_outcome_Ok. split; [done|]. split; [done|]. split; [|done].
  apply check_selection_true; [done|]. intros i [= <-]. split; [apply not_elem_of_nil|].
  exists c. split; [left|done].
Qed.

(** Manual mode changes no choice: with no constraint and no gate the first
    candidate runs, recorded as the runtime's proposal, unscored and with no
    rejection; under constraints, the first candidate they all let through,
    recorded as the proposal only when it is. *)
Theorem baseline_takes_first ctx p l ks rid q :
  mode ctx = MANUAL -> NoDup (map candidate_id (p :: l)) ->
  exists r, pipeline_decide ctx (p :: l) baseline_select ks [] rid (Fin q) = Ok r /\
    confidence (outcome r) = None /\ rejected (outcome r) = removals ctx (p :: l) ks /\
    (ks = [] -> rejected (outcome r) = []) /\
    match permitted ctx (p :: l) ks with
    | [] => selected_id (outcome r) = None
    | c :: _ => selected_id (outcome r) = Some (candidate_id c) /\ outcome_class (outcome r) = Some (action_class c) /\
        reason (outcome r) = Some (if decide (candidate_id c = candidate_id p) then RUNTIME_PROPOSAL else PROPOSAL_REMOVED) /\
        (ks = [] -> c = p)
    end.
Proof.
  intros Hm Hn. assert (policy_sound baseline_select) as Hp.
  { intros x y o. unfold baseline_select. destruct (negb _); [done|]. by destruct y; intros [= <-]. }
  assert (ks = [] -> removals ctx (p :: l) ks = []) as Hks.
  { intros ->. unfold removals. generalize (p :: l). induction l0 as [|c t IH]; [done|]. apply IH. }
  rewrite pipeline_decide_eq by done. eexists. split; [done|]. cbn [outcome].
  cbn [confidence rejected set_rejected selected_id outcome_class reason]. unfold settled.
  pose proof (selection_defined ctx (p :: l) ks Hn) as Hsd.
  pose proof (pick_checked ctx (permitted ctx (p :: l) ks) baseline_select) as Hk.
  destruct (permitted ctx (p :: l) ks) as [|c t] eqn:Ep.
  { cbn [rejected confidence selected_id defer_for]. rewrite app_nil_r. auto. }
  assert (ks = [] -> c = p) as Hc by (intros ->; by injection Ep).
  rewrite baseline_pick in * by (done || rewrite <- Ep; by apply permitted_ids).
  pose proof (relabelled_checked _ _ _ p Hk) as Hk'. specialize (Hsd _ Hk').
  assert (forall o, selected_id (relabelled o p) = selected_id o /\ rejected (relabelled o p) = rejected o /\
            confidence (relabelled o p) = confidence o /\ outcome_class (relabelled o p) = outcome_class o) as Hrel
    by (intros o; unfold relabelled; by case_decide).
  destruct (Hrel (first_proposed c)) as (H1&H2&H3&H4). destruct (selection _ _ _ _) as [c'|]; cbn [held List.find].
  all: rewrite H1, H2, H3, H4; cbn [rejected selected_id confidence outcome_class first_proposed]; rewrite app_nil_r.
  all: split_and!; try done; unfold relabelled; cbn [reason selected_id first_proposed].
  all: destruct (decide (candidate_id c = candidate_id p)) as [Heq|Hne]; case_decide as Hd; try done.
  all: exfalso; naive_solver congruence.
Qed.

(** ** Witnesses *)

Definition demo_ctx : DecisionContext :=
  mkContext PRE_ACT "ada" MANUAL None (Some "channel_message") None None (Some "c1") None None None.
Definition demo_reply : DecisionCandidate := mkCandidate "1" RESPOND "complete_task" None [] None None.
Definition demo_tool : DecisionCandidate := mkCandidate "2" TOOL_CALL "use_tool" (Some "shell") ["cmd"] None None.
Definition demo_candidates : list DecisionCandidate := [demo_reply; demo_tool].
(** A constraint that refuses replies, one that breaks on tools, a gate that
    holds tools. *)
Definition demo_no_reply : StepCheck := λ _ c,
  if decide (action_class c = RESPOND) then Returned (VStr "not_a_member") else Returned VNone.
Definition demo_gate : StepCheck := λ _ c,
  if decide (action_class c = TOOL_CALL) then Returned (VStr "approval_required") else Returned VNone.

Lemma baseline_sound : policy_sound baseline_select.
Proof. intros ctx l o. unfold baseline_select. destruct (negb _); [done|]. by destruct l; intros [= <-]. Qed.

Lemma decide_valid_witness :
  match pipeline_decide demo_ctx demo_candidates baseline_select [demo_no_reply] [demo_gate] "r1" (Fin 5) with
  | Ok r => selected_id (outcome r) = None /\ reason (outcome r) = Some "approval_required" /\
      length (rejected (outcome r)) = 2%nat /\ record_valid r
  | Raise _ => False
  end.
Proof.
  pose proof (decide_valid demo_ctx demo_candidates baseline_select [demo_no_reply] [demo_gate] "r1" 5 baseline_sound
    ltac:(by repeat constructor)) as H.
  destruct (pipeline_decide _ _ _ _ _ _ _) as [r|] eqn:E; [|vm_compute in E; discriminate E].
  destruct H as (_&H&_). vm_compute in E. injection E as <-. by split_and!.
Defined.

Lemma selection_cleared_witness :
  exists r, pipeline_decide demo_ctx demo_candidates baseline_select [demo_no_reply] [] "r1" (Fin 5) = Ok r /\
    selected_id (outcome r) = Some "2" /\ "2" ∉ map rejected_id (rejected (outcome r)).
Proof.
  eexists. split; [vm_compute; reflexivity|]. split; [reflexivity|].
  edestruct (selection_cleared demo_ctx demo_candidates baseline_select [demo_no_reply] [] "r1" 5) as (c&o&H);
    [exact baseline_sound|vm_compute; reflexivity|vm_compute; reflexivity|]. by destruct_and! H.
Defined.

Lemma decide_exact_witness :
  exists r, pipeline_decide demo_ctx demo_candidates baseline_select [demo_no_reply] [demo_gate] "r1" (Fin 5) = Ok r /\
    outcome r = defer_for "approval_required" [mkRejection "1" "not_a_member"; mkRejection "2" "approval_required"].
Proof.
  destruct (decide_exact demo_ctx demo_candidates baseline_select [demo_no_reply] [demo_gate] "r1" 5 baseline_sound)
    as (r&Hr&H); [apply (bool_decide_unpack _); vm_compute; done|]. exists r. split; [done|]. cbv zeta in H.
  destruct H as (c&Hc&_&H). change (c ∈ [demo_tool]) in Hc. apply list_elem_of_singleton in Hc. subst c. exact H.
Defined.

Lemma baseline_takes_first_witness :
  exists r, pipeline_decide demo_ctx demo_candidates baseline_select [] [] "r1" (Fin 5) = Ok r /\
    selected_id (outcome r) = Some "1" /\ reason (outcome r) = Some RUNTIME_PROPOSAL.
Proof.
  destruct (baseline_takes_first demo_ctx demo_reply [demo_tool] [] "r1" 5) as (r&Hr&_&_&_&H1&_&H2&_);
    [done|apply (bool_decide_unpack _); vm_compute; done|]. exists r. by split_and!.
Defined.
