(* ===== verification/PyJson.v ===== *)
(** * JSON values, sorted

    [json.dumps(v, sort_keys=True)] and [json.loads] of its text, on values: the
    keys of every object in order. *)

From S2P Require Import Prelude PyStr PyDict PyValue PySort.
Local Open Scope string_scope.

(** [json.dumps(..., sort_keys=True)], on values *)
Definition key_le {A} (a b : string * A) : bool := String.leb a.1 b.1.

Fixpoint sort_keys (v : pyval) : pyval :=
  match v with
  | VList l => VList (map sort_keys l)
  | VDict d => VDict (py_sorted key_le (map (λ kv, (kv.1, sort_keys kv.2)) d))
  | _ => v
  end.

Lemma sort_keys_None v : sort_keys v = VNone -> v = VNone.
Proof. by destruct v. Qed.

(** [d'] holds the fields [d] names, with their keys sorted within, in any order. *)
Definition holds (d d' : pydict) : Prop := forall k, dget k d' = sort_keys <$> dget k d.

Lemma dget_map_values k (f : pyval -> pyval) (d : pydict) :
  dget k (map (λ kv, (kv.1, f kv.2)) d) = f <$> dget k d.
Proof. induction d as [|[k' v] d IH]; [done|]. cbn [map dget fst snd]. by case_decide. Qed.

Lemma dget_permutation k (d d' : pydict) : dwf d -> d' ≡ₚ d -> dget k d' = dget k d.
Proof.
  intros Hd Hp. assert (dwf d') as Hd' by (unfold dwf, dkeys in *; by rewrite Hp).
  destruct (dget k d) as [v|] eqn:E.
  - apply dget_Some_elem in E. apply elem_dget; [done|]. by rewrite Hp.
  - apply dget_None. apply dget_None in E. unfold dkeys in *. by rewrite Hp.
Qed.

Lemma sort_keys_holds d : dwf d -> exists d', sort_keys (VDict d) = VDict d' /\ holds d d' /\ dwf d'.
Proof.
  intros Hd. eexists. split; [done|].
  assert (dwf (map (λ kv, (kv.1, sort_keys kv.2)) d)) as Hw by (unfold dwf, dkeys in *; by rewrite map_map).
  split.
  - intros k. rewrite (dget_permutation k _ _ Hw (py_sorted_perm _ _)). apply dget_map_values.
  - unfold dwf, dkeys in *. by rewrite (py_sorted_perm _ _).
Qed.
