(* ===== verification/DecisionJson.v ===== *)
(** * The decision record's JSON line

    Models the encoding and decoding of [agents/decision/decision_types.py] on
    parsed JSON: [to_data] is the object [to_json] writes, [from_data] what
    [from_json] makes of a parsed line, and [sort_keys] the reordering of
    [sort_keys=True]. Encoding walks the dataclasses, decoding their type hints:
    a hint is an instance of [Hint], a branch of [_decode] per instance. *)

From Stdlib Require Import Ascii.
From S2P Require Import Prelude PyStr PyDict PyValue PyFloat PySort PyJson Decision DecisionProps.
Local Open Scope string_scope.
Local Open Scope py_scope.

Definition RECORD_FORMAT_VERSION : Z := 1.

(** ** Hints *)

Class Hint (A : Type) := { encode : A -> pyval; decode : pyval -> result string A }.

Definition str_hint : Hint string := {|
  encode := VStr;
  decode v := match v with VStr s => Ok s | _ => Raise "ValueError" end |}.
#[export] Existing Instance str_hint.

Definition float_hint : Hint Q := {|
  encode := VFloat;
  decode v := as_float (num_of v) |}.
#[export] Existing Instance float_hint.

Definition option_hint {A} `{Hint A} : Hint (option A) := {|
  encode o := match o with Some a => encode a | None => VNone end;
  decode v := match v with VNone => Ok None | _ => let! a := decode v in Ok (Some a) end |}.
#[export] Existing Instance option_hint.

(** [tuple(_decode(args[0], item) for item in raw)] *)
Fixpoint decode_items {A} (dec : pyval -> result string A) (l : list pyval) : result string (list A) :=
  match l with
  | [] => Ok []
  | v :: l => let! a := dec v in let! t := decode_items dec l in Ok (a :: t)
  end.

Definition tuple_hint {A} `{Hint A} : Hint (list A) := {|
  encode l := VList (map encode l);
  decode v := match v with VList l => decode_items decode l | _ => Raise "ValueError" end |}.
#[export] Existing Instance tuple_hint.

(** An [Enum]: [hint(raw)] looks a member up by its value. *)
Fixpoint enum_lookup {A} (members : list (A * string)) (v : pyval) : result string A :=
  match members with
  | [] => Raise "ValueError"
  | (a, s) :: ms => if v_eq_str v s then Ok a else enum_lookup ms v
  end.

Definition action_class_value (c : ActionClass) : string :=
  match c with
  | RESPOND => "respond" | ASK_CLARIFICATION => "ask_clarification" | TOOL_CALL => "tool_call"
  | DELEGATE => "delegate" | PUBLISH_CHANNEL => "publish_channel" | DEFER => "defer"
  end.
Definition checkpoint_value (c : Checkpoint) : string :=
  match c with
  | PRE_ACT => "pre_act" | PRE_TOOL => "pre_tool" | PRE_DELEGATE => "pre_delegate" | POST_OUTCOME => "post_outcome"
  end.
Definition subject_value (s : DecisionSubject) : string :=
  match s with ACTION => "action" | DIRECTIVE => "directive" end.
Definition verdict_value (v : DirectiveVerdict) : string :=
  match v with ACCEPT => "accept" | ADAPT => "adapt" | REFUSE => "refuse" end.
Definition mode_value (m : PolicyMode) : string :=
  match m with MANUAL => "manual" | SEMI_AUTOMATED => "semi_automated" | AUTOMATED => "automated" end.

Definition enum_hint {A} (value : A -> string) (all : list A) : Hint A := {|
  encode a := VStr (value a);
  decode := enum_lookup (map (λ a, (a, value a)) all) |}.

#[export] Instance action_class_hint : Hint ActionClass :=
  enum_hint action_class_value [RESPOND; ASK_CLARIFICATION; TOOL_CALL; DELEGATE; PUBLISH_CHANNEL; DEFER].
#[export] Instance checkpoint_hint : Hint Checkpoint :=
  enum_hint checkpoint_value [PRE_ACT; PRE_TOOL; PRE_DELEGATE; POST_OUTCOME].
#[export] Instance subject_hint : Hint DecisionSubject := enum_hint subject_value [ACTION; DIRECTIVE].
#[export] Instance verdict_hint : Hint DirectiveVerdict := enum_hint verdict_value [ACCEPT; ADAPT; REFUSE].
#[export] Instance mode_hint : Hint PolicyMode := enum_hint mode_value [MANUAL; SEMI_AUTOMATED; AUTOMATED].

(** ** Dataclasses

    Every failure of the decoder is a [ValueError], so the order in which the
    fields of an object are decoded does not show. *)

(** The object with none but the class's fields. *)
Definition fields_of (names : list string) (raw : pyval) : result string pydict :=
  match raw with
  | VDict d => if forallb (λ k, bool_decide (k ∈ names)) (dkeys d) then Ok d else Raise "ValueError"
  | _ => Raise "ValueError"
  end.

(** One field: decoded, defaulted, or missing ([TypeError], made [ValueError]). *)
Definition field {A} `{Hint A} (d : pydict) (name : string) (dft : option A) : result string A :=
  match dget name d, dft with
  | Some v, _ => decode v
  | None, Some a => Ok a
  | None, None => Raise "ValueError"
  end.

Definition context_fields : list string :=
  ["checkpoint"; "agent_id"; "mode"; "agent_type"; "event_type"; "event_id"; "workflow_id"; "channel_id";
   "protection_level"; "autonomy_level"; "mood"].

Definition context_hint : Hint DecisionContext := {|
  encode c := VDict
    [("checkpoint", encode (checkpoint c)); ("agent_id", encode (agent_id c)); ("mode", encode (mode c));
     ("agent_type", encode (agent_type c)); ("event_type", encode (event_type c)); ("event_id", encode (event_id c));
     ("workflow_id", encode (workflow_id c)); ("channel_id", encode (channel_id c));
     ("protection_level", encode (protection_level c)); ("autonomy_level", encode (autonomy_level c));
     ("mood", encode (mood c))];
  decode raw :=
    let! d := fields_of context_fields raw in
    let! cp := field d "checkpoint" None in
    let! ag := field d "agent_id" None in
    let! md := field d "mode" None in
    let! a1 := field d "agent_type" (Some None) in
    let! a2 := field d "event_type" (Some None) in
    let! a3 := field d "event_id" (Some None) in
    let! a4 := field d "workflow_id" (Some None) in
    let! a5 := field d "channel_id" (Some None) in
    let! a6 := field d "protection_level" (Some None) in
    let! a7 := field d "autonomy_level" (Some None) in
    let! a8 := field d "mood" (Some None) in
    Ok (mkContext cp ag md a1 a2 a3 a4 a5 a6 a7 a8) |}.
#[export] Existing Instance context_hint.

Definition candidate_fields : list string :=
  ["candidate_id"; "action_class"; "action"; "tool_name"; "argument_names"; "target"; "content_hash"].

Definition candidate_hint : Hint DecisionCandidate := {|
  encode c := VDict
    [("candidate_id", encode (candidate_id c)); ("action_class", encode (action_class c)); ("action", encode (action c));
     ("tool_name", encode (tool_name c)); ("argument_names", encode (argument_names c)); ("target", encode (target c));
     ("content_hash", encode (content_hash c))];
  decode raw :=
    let! d := fields_of candidate_fields raw in
    let! i := field d "candidate_id" None in
    let! cl := field d "action_class" None in
    let! ac := field d "action" None in
    let! tn := field d "tool_name" (Some None) in
    let! an := field d "argument_names" (Some []) in
    let! tg := field d "target" (Some None) in
    let! h := field d "content_hash" (Some None) in
    candidate_post_init (mkCandidate i cl ac tn an tg h) |}.
#[export] Existing Instance candidate_hint.

Definition rejection_hint : Hint Rejection := {|
  encode r := VDict [("candidate_id", encode (rejected_id r)); ("reason", encode (rejection_reason r))];
  decode raw :=
    let! d := fields_of ["candidate_id"; "reason"] raw in
    let! i := field d "candidate_id" None in
    let! r := field d "reason" None in
    rejection_post_init (mkRejection i r) |}.
#[export] Existing Instance rejection_hint.

Definition outcome_fields : list string :=
  ["action_class"; "selected_id"; "reason"; "confidence"; "rejected"; "rationale"; "verdict"].

(** [action_class: ActionClass | None] has no default. *)
Definition outcome_hint : Hint DecisionOutcome := {|
  encode o := VDict
    [("action_class", encode (outcome_class o)); ("selected_id", encode (selected_id o)); ("reason", encode (reason o));
     ("confidence", encode (confidence o)); ("rejected", encode (rejected o)); ("rationale", encode (rationale o));
     ("verdict", encode (verdict o))];
  decode raw :=
    let! d := fields_of outcome_fields raw in
    let! cl := field d "action_class" None in
    let! sel := field d "selected_id" (Some None) in
    let! rsn := field d "reason" (Some None) in
    let! cf := field d "confidence" (Some None) in
    let! rej := field d "rejected" (Some []) in
    let! rat := field d "rationale" (Some "") in
    let! v := field d "verdict" (Some None) in
    outcome_post_init (mkOutcome cl sel rsn cf rej rat v) |}.
#[export] Existing Instance outcome_hint.

Definition record_fields : list string :=
  ["context"; "candidates"; "outcome"; "subject"; "subject_id"; "record_id"; "recorded_at"].

Definition encode_record (r : DecisionRecord) : pydict :=
  [("context", encode (context r)); ("candidates", encode (candidates r)); ("outcome", encode (outcome r));
   ("subject", encode (subject r)); ("subject_id", encode (subject_id r)); ("record_id", encode (record_id r));
   ("recorded_at", encode (recorded_at r))].

(** [record_id] and [recorded_at] have defaults that a line may not use. *)
Definition decode_record (raw : pyval) : result string DecisionRecord :=
  let! d := fields_of record_fields raw in
  let! ctx := field d "context" None in
  let! cs := field d "candidates" None in
  let! o := field d "outcome" None in
  let! sub := field d "subject" (Some ACTION) in
  let! sid := field d "subject_id" (Some None) in
  let! rid := field d "record_id" None in
  let! at_ := field d "recorded_at" None in
  record_post_init (mkRecord ctx cs o sub sid rid at_).

(** ** The line *)

Definition to_data (r : DecisionRecord) : pyval :=
  sort_keys (VDict (("v", VInt RECORD_FORMAT_VERSION) :: encode_record r)).

Definition from_data (data : pyval) : result string DecisionRecord :=
  match data with
  | VDict d =>
      match dget "v" d with
      | Some (VInt version) =>
          if (1 <=? version)%Z && (version <=? RECORD_FORMAT_VERSION)%Z then
            let d := ddel "v" d in
            if dmem "record_id" d && dmem "recorded_at" d then decode_record (VDict d)
            else Raise "ValueError"
          else Raise "ValueError"
      | _ => Raise "ValueError"
      end
  | _ => Raise "ValueError"
  end.

(** ** Round trips, hint by hint *)

Class HintLaws (A : Type) `{!Hint A} := {
  valid : A -> Prop;
  encode_not_None : forall a, encode a <> VNone;
  decode_encode : forall a, valid a -> decode (sort_keys (encode a)) = Ok a;
  decode_valid : forall v (a : A), decode v = Ok a -> valid a }.

#[export] Instance str_laws : HintLaws string.
Proof. by exists (λ _, True). Defined.

#[export] Instance float_laws : HintLaws Q.
Proof. by exists (λ _, True). Defined.

Definition valid_opt {A} `{HintLaws A} (o : option A) : Prop := match o with Some a => valid a | None => True end.

#[export] Instance tuple_laws {A} `{HintLaws A} : HintLaws (list A).
Proof.
  exists (Forall valid); [done|..].
  - intros l Hl. cbn. rewrite map_map. induction Hl as [|a l Ha _ IH]; [done|].
    cbn [map decode_items]. rewrite decode_encode by done. cbn [rbind]. by rewrite IH.
  - intros [| | | | |l|] a; cbn; try done. revert a. induction l as [|v l IH]; intros a; cbn.
    + by intros [= <-].
    + intros (x&Hx&(t&Ht&[= <-])%rbind_Ok)%rbind_Ok. constructor; [by eapply decode_valid|auto].
Defined.

Lemma decode_option_encode {A} `{HintLaws A} (o : option A) :
  valid_opt o -> decode (sort_keys (encode o)) = Ok o.
Proof.
  destruct o as [a|]; [|done]. intros Ha. cbn [encode option_hint decode].
  pose proof (encode_not_None a) as Hn. pose proof (decode_encode a Ha) as Hd.
  destruct (sort_keys (encode a)) eqn:E; [by apply sort_keys_None in E|..]; by rewrite Hd.
Qed.

Lemma decode_option_valid {A} `{HintLaws A} v (o : option A) : decode v = Ok o -> valid_opt o.
Proof.
  cbn [decode option_hint]. destruct v; [by intros [= <-]|..];
    intros (a&Ha&[= <-])%rbind_Ok; by eapply decode_valid.
Qed.

Lemma enum_laws {A} (value : A -> string) (all : list A) :
  (forall a, a ∈ all) -> (forall a b, value a = value b -> a = b) -> @HintLaws A (enum_hint value all).
Proof.
  intros Hall Hinj. exists (λ _, True); [done| |done]. intros a _. cbn [sort_keys encode decode enum_hint].
  specialize (Hall a). induction Hall as [l|x l Hx IH]; cbn [map enum_lookup v_eq_str].
  - by rewrite bool_decide_true.
  - case_bool_decide as E; [by apply Hinj in E as ->|done].
Defined.

Ltac enum_cases := apply enum_laws; [intros []; set_solver|intros [] []; by cbn].

#[export] Instance action_class_laws : HintLaws ActionClass.
Proof. enum_cases. Defined.
#[export] Instance checkpoint_laws : HintLaws Checkpoint.
Proof. enum_cases. Defined.
#[export] Instance subject_laws : HintLaws DecisionSubject.
Proof. enum_cases. Defined.
#[export] Instance verdict_laws : HintLaws DirectiveVerdict.
Proof. enum_cases. Defined.
#[export] Instance mode_laws : HintLaws PolicyMode.
Proof. enum_cases. Defined.

(** ** Objects *)

Lemma fields_of_holds names d d' :
  holds d d' -> Forall (λ k, k ∈ names) (dkeys d) -> fields_of names (VDict d') = Ok d'.
Proof.
  intros H Hn. unfold fields_of.
  assert (forallb (λ k, bool_decide (k ∈ names)) (dkeys d') = true) as ->; [|done].
  apply forallb_forall. intros k Hk%list_elem_of_In. apply bool_decide_eq_true.
  rewrite Forall_forall in Hn. apply Hn. destruct (decide (k ∈ dkeys d)) as [|Hf]; [done|exfalso].
  apply dget_None in Hf. specialize (H k). rewrite Hf in H. by apply dget_None in H.
Qed.

Lemma field_holds {A} `{HintLaws A} d d' name a dft :
  holds d d' -> dget name d = Some (encode a) -> valid a -> field d' name dft = Ok a.
Proof. intros Hh Hd Ha. unfold field. rewrite Hh, Hd. by apply decode_encode. Qed.

Lemma field_opt_holds {A} `{HintLaws A} d d' name (o : option A) dft :
  holds d d' -> dget name d = Some (encode o) -> valid_opt o -> field d' name dft = Ok o.
Proof. intros Hh Hd Ha. unfold field. rewrite Hh, Hd. by apply decode_option_encode. Qed.

Lemma field_valid {A} `{HintLaws A} d name a : field d name None = Ok a -> valid a.
Proof. unfold field. destruct (dget name d); [apply decode_valid|done]. Qed.

Lemma field_dft_valid {A} `{HintLaws A} d name dft a : valid dft -> field d name (Some dft) = Ok a -> valid a.
Proof. intros Hd. unfold field. destruct (dget name d); [apply decode_valid|by intros [= <-]]. Qed.

Ltac valid_field :=
  cbn; first [done | assumption | by apply Forall_forall
             | by match goal with |- valid_opt ?o => destruct o end
             | by match goal with |- match ?o with _ => _ end => destruct o end].

(** Decodes the fields of an encoded object one after the other. *)
Ltac decode_fields Hh :=
  erewrite fields_of_holds; [|exact Hh|repeat (constructor; [set_solver|]); constructor]; cbn [rbind];
  repeat (first
    [ erewrite field_opt_holds; [|exact Hh|reflexivity|valid_field]
    | erewrite field_holds; [|exact Hh|reflexivity|valid_field] ]; cbn [rbind]).

(** Reads the steps of a decoding that succeeded. *)
Ltac decoded H :=
  repeat (match type of H with rbind _ _ = _ => idtac end;
          let x := fresh "x" in let Hx := fresh "Hx" in apply rbind_Ok in H as (x & Hx & H); cbv beta in H).

#[export] Instance rejection_laws : HintLaws Rejection.
Proof.
  exists rejection_valid; [done|..].
  - intros [i r] Hr. cbn [encode rejection_hint]. edestruct sort_keys_holds as (d'&->&Hh&_);
      [apply (bool_decide_unpack _); vm_compute; done|].
    cbn [decode rejection_hint]. decode_fields Hh. unfold rejection_post_init, check_reason.
    unfold rejection_valid in Hr. cbn [rejection_reason] in *. by rewrite Hr.
  - intros v a H. cbn [decode rejection_hint] in H. decoded H. by apply rejection_post_init_Ok in H as [-> ?].
Defined.

#[export] Instance candidate_laws : HintLaws DecisionCandidate.
Proof.
  exists candidate_valid; [done|..].
  - intros [i cl ac tn an tg h] Hc. cbn [encode candidate_hint]. edestruct sort_keys_holds as (d'&->&Hh&_);
      [apply (bool_decide_unpack _); vm_compute; done|].
    cbn [decode candidate_hint]. decode_fields Hh. exact Hc.
  - intros v a H. cbn [decode candidate_hint] in H. decoded H. unfold candidate_valid.
    assert (forall c c', candidate_post_init c = Ok c' -> c' = c) as Hi; [|by pose proof (Hi _ _ H) as ->].
    intros c c'. unfold candidate_post_init. destruct (content_hash c); [destruct (SHA256_HEX _)|]; congruence.
Defined.

#[export] Instance context_laws : HintLaws DecisionContext.
Proof.
  exists (λ _, True); [done| |done]. intros [] _. cbn [encode context_hint].
  edestruct sort_keys_holds as (d'&->&Hh&_); [apply (bool_decide_unpack _); vm_compute; done|].
  cbn [decode context_hint]. by decode_fields Hh.
Defined.

#[export] Instance outcome_laws : HintLaws DecisionOutcome.
Proof.
  exists (λ o, outcome_valid o /\ Forall rejection_valid (rejected o)); [done|..].
  - intros [cl sel rsn cf rej rat v] [Ho Hr]. cbn [encode outcome_hint]. edestruct sort_keys_holds as (d'&->&Hh&_);
      [apply (bool_decide_unpack _); vm_compute; done|].
    cbn [decode outcome_hint]. decode_fields Hh. exact Ho.
  - intros v a H. cbn [decode outcome_hint] in H. decoded H. apply outcome_post_init_Ok in H as Ha.
    subst a. split; [exact H|]. cbn [rejected].
    match goal with Hx : field _ "rejected" _ = Ok _ |- _ =>
      refine (field_dft_valid (A := list Rejection) _ _ [] _ _ Hx) end. constructor.
Defined.

(** ** The properties *)

(** C27. A line reads back as the record it was written from: decoding the
    encoded fields, in whatever order their keys are sorted into, gives every
    valid record back, field by field. *)
Theorem record_roundtrip r : record_valid r -> from_data (to_data r) = Ok r.
Proof.
  intros (Hc&Hcs&Ho&Hr). unfold to_data. set (d := ("v", VInt RECORD_FORMAT_VERSION) :: encode_record r).
  destruct (sort_keys_holds d) as (d'&->&Hh&Hw); [apply (bool_decide_unpack _); vm_compute; done|].
  cbn [from_data]. assert (holds (encode_record r) (ddel "v" d')) as Hh'.
  { intros k. destruct (decide (k = "v")) as [->|Hk]; [by rewrite dget_ddel_eq|].
    rewrite dget_ddel_ne by done. rewrite Hh. unfold d. cbn [dget]. by rewrite decide_False. }
  rewrite (Hh "v"). cbn [d dget]. rewrite decide_True by done. cbn [fmap option_fmap option_map sort_keys Z.leb].
  cbn -[dmem ddel decode_record]. unfold dmem. rewrite !Hh'. cbn -[ddel decode_record]. clearbody d.
  destruct r as [ctx cs o sub sid rid at_]. unfold decode_record.
  unfold encode_record in Hh'. cbn [context candidates outcome subject subject_id record_id recorded_at] in *.
  decode_fields Hh'. unfold record_post_init. by rewrite Hc.
Qed.

(** A reader admits valid records only: a line that is read at all was a
    version-1 object with an id and a time, and what it gives passes every rule
    of a record, its candidates, outcome and rejections included. *)
Theorem reader_admits_valid v r :
  from_data v = Ok r ->
  record_valid r /\ exists d, v = VDict d /\ dget "v" d = Some (VInt 1) /\
    is_Some (dget "record_id" d) /\ is_Some (dget "recorded_at" d).
Proof.
  unfold from_data. destruct v as [| | | | | |d]; try done. destruct (dget "v" d) as [[| |z| | | |]|] eqn:Ev; try done.
  destruct (_ && _) eqn:E; [|done]. apply andb_true_iff in E as [E1%Z.leb_le E2%Z.leb_le].
  unfold RECORD_FORMAT_VERSION in E2. assert (z = 1)%Z as -> by lia.
  unfold dmem. rewrite !dget_ddel_ne by done. destruct (dget "record_id" d) eqn:Ei; [|done].
  destruct (dget "recorded_at" d) eqn:Ea; [|done]. cbn [andb]. unfold decode_record. intros H. decoded H.
  unfold record_post_init in H. apply rbind_Ok in H as ([]&Hc&[= <-]). split; [|eauto 10].
  split; [done|]. cbn [candidates outcome].
  repeat match goal with Hx : field _ _ None = Ok _ |- _ => apply field_valid in Hx end. naive_solver.
Qed.

(** ** Witnesses *)

Definition demo_record : DecisionRecord :=
  mkRecord demo_ctx demo_candidates
    (mkOutcome (Some TOOL_CALL) (Some "2") (Some "proposal_removed") None [mkRejection "1" "not_a_member"] "" None)
    ACTION None "r1" 5.

Lemma record_roundtrip_witness : record_valid demo_record /\ from_data (to_data demo_record) = Ok demo_record.
Proof.
  assert (record_valid demo_record) as H by (split_and!; [reflexivity|repeat constructor|reflexivity|repeat constructor]).
  split; [exact H|]. exact (record_roundtrip demo_record H).
Defined.

Lemma reader_admits_valid_witness :
  from_data (to_data demo_record) = Ok demo_record /\ check_record demo_record = Ok tt /\
  from_data (VDict [("v", VInt 2)]) = Raise "ValueError".
Proof.
  assert (from_data (to_data demo_record) = Ok demo_record) as H by (vm_compute; reflexivity).
  split; [exact H|]. split; [|reflexivity]. exact (proj1 (proj1 (reader_admits_valid _ _ H))).
Defined.
