(* ===== verification/FactPredicates.v ===== *)
(** * The vocabulary and the bounds of the fact tier

    Models [agents/memory/fact_predicates.py]. A subject is a list of code
    points of U+0000 to U+00FF and the Greek mu, closed under case folding;
    predicates and objects are strings. *)

From Stdlib Require Import Ascii.
From S2P Require Import Prelude PyStr PyDict.
Local Open Scope string_scope.
Local Open Scope py_scope.

Abbreviation text := (list N).

Definition codes (s : string) : text := map code (String.list_ascii_of_string s).

(** ** The vocabulary *)

Definition TOPIC_PREDICATES : list string :=
  ["topic.has_status"; "topic.has_deadline"; "topic.decided"; "topic.owned_by"].

Definition PREDICATE_ALLOWLIST : list string :=
  (["has_name"; "lives_in"; "works_at"; "has_age"; "speaks_language";
    "prefers"; "dislikes"; "loves"; "avoids";
    "committed_to"; "plans_to"; "agreed_to";
    "has_child_named"; "has_partner_named"; "has_parent_named"; "works_with"; "knows";
    "self.has_preference"; "self.holds_value"; "self.committed_to"; "self.has_attribute"]
   ++ TOPIC_PREDICATES)%list.

Definition SINGLE_VALUED_PREDICATES : list string := ["has_name"; "has_age"; "lives_in"; "topic.owned_by"].

Definition validate_predicate (predicate : string) : result string unit :=
  if blank predicate then Raise "ValueError"
  else if negb (bool_decide (predicate ∈ PREDICATE_ALLOWLIST)) then Raise "ValueError"
  else Ok tt.

(** ** Subjects *)

(** [s.strip()], [s.casefold()], [s.split()] and [" ".join(ws)] on code points *)
Fixpoint drop_spaces (s : text) : text :=
  match s with c :: s' => if space_cp c then drop_spaces s' else s | [] => [] end.

Definition strip_text (s : text) : text := reverse (drop_spaces (reverse (drop_spaces s))).

Definition blank_text (s : text) : bool := match strip_text s with [] => true | _ => false end.

Definition fold_text (s : text) : text := flat_map fold_cp s.

(** [cur] is the word being read. *)
Fixpoint split_from (cur s : text) : list text :=
  match s with
  | [] => match cur with [] => [] | _ => [cur] end
  | c :: s =>
      if space_cp c then match cur with [] => split_from [] s | _ => cur :: split_from [] s end
      else split_from (cur ++ [c])%list s
  end.

Fixpoint join_words (ws : list text) : text :=
  match ws with
  | [] => []
  | [w] => w
  | w :: ws => (w ++ 32%N :: join_words ws)%list
  end.

Definition canonicalize_subject (raw : text) : result string text :=
  if blank_text raw then Raise "ValueError"
  else Ok (join_words (split_from [] (fold_text (strip_text raw)))).

(** ** Bounds *)

Definition MAX_SUBJECT_CHARS : nat := 120.
Definition MAX_OBJECT_CHARS : nat := 400.

(** [[\x00-\x1f\x7f\x85...]] somewhere *)
Definition control_cp (n : N) : bool := ((n <=? 31) || (n =? 127) || (n =? 133))%N.

Definition has_control (s : text) : bool := existsb control_cp s.

(** [<\s*/?\s*external_data] somewhere, without case *)
Fixpoint literal (lower_name s : text) : bool :=
  match lower_name, s with
  | [], _ => true
  | n :: name, c :: s => ((c =? n) || (97 <=? n) && (n <=? 122) && (c + 32 =? n))%N && literal name s
  | _, [] => false
  end.

Definition drop_slash (s : text) : text :=
  match s with c :: s' => if (c =? 47)%N then s' else s | [] => [] end.

Definition delimiter_head (s : text) : bool :=
  match s with
  | c :: s => (c =? 60)%N && literal (codes "external_data") (drop_spaces (drop_slash (drop_spaces s)))
  | [] => false
  end.

Fixpoint has_delimiter (s : text) : bool :=
  match s with [] => false | _ :: s' => delimiter_head s || has_delimiter s' end.

Definition validate_subject (subject : text) : result string unit :=
  if (MAX_SUBJECT_CHARS <? length subject)%nat then Raise "ValueError"
  else if has_control subject then Raise "ValueError"
  else if has_delimiter subject then Raise "ValueError"
  else Ok tt.

Definition validate_object (value : string) : result string unit :=
  if blank value then Raise "ValueError"
  else if (MAX_OBJECT_CHARS <? String.length value)%nat then Raise "ValueError"
  else if has_control (codes value) then Raise "ValueError"
  else if has_delimiter (codes value) then Raise "ValueError"
  else Ok tt.

Example canonical_demo : canonicalize_subject (codes "  Bob   SMITH ") = Ok (codes "bob smith").
Proof. reflexivity. Qed.

(** ** Lemmas *)

(** Boolean comparisons of code points into linear arithmetic. *)
Ltac n_props :=
  do 4 bool_props; rewrite ?N.leb_le, ?N.leb_gt, ?N.eqb_eq, ?N.eqb_neq in *.

Lemma fold_cp_fixed n : Forall (λ d, fold_cp d = [d]) (fold_cp n).
Proof.
  assert (forall d, fold_cp n = [d] -> fold_cp d = [d] -> Forall (λ d, fold_cp d = [d]) (fold_cp n)) as H
    by (intros d -> Hd; by repeat constructor).
  destruct ((65 <=? n) && (n <=? 90) || (192 <=? n) && (n <=? 222) && negb (n =? 215))%N eqn:E1.
  - apply (H (n + 32)%N); unfold fold_cp; [by rewrite E1|].
    repeat match goal with |- (if ?b then _ else _) = _ =>
      let E := fresh "E" in destruct b eqn:E; [exfalso; n_props; lia|] end. done.
  - unfold fold_cp at 2. rewrite E1. destruct (n =? 223)%N eqn:E3; [by repeat constructor|].
    destruct (n =? 181)%N eqn:E4; [by repeat constructor|]. constructor; [|done].
    unfold fold_cp. by rewrite E1, E3, E4.
Qed.

Lemma fold_cp_nonempty n : fold_cp n <> [].
Proof. unfold fold_cp. repeat case_match; congruence. Qed.

Lemma fold_cp_space n : Forall (λ d, space_cp d = space_cp n) (fold_cp n).
Proof.
  unfold fold_cp. destruct (_ || _) eqn:E1.
  - constructor; [|done]. unfold space_cp.
    match goal with |- ?a = ?b => destruct a eqn:Ha, b eqn:Hb end; try done; exfalso; n_props; lia.
  - destruct (n =? 223)%N eqn:E3; [apply N.eqb_eq in E3; subst; by repeat constructor|].
    destruct (n =? 181)%N eqn:E4; [apply N.eqb_eq in E4; subst; by repeat constructor|]. by constructor.
Qed.

(** A word: characters, none of them a space. *)
Definition word (w : text) : Prop := w <> [] /\ Forall (λ c, space_cp c = false) w.
Definition spaces (s : text) : Prop := Forall (λ c, space_cp c = true) s.

Lemma split_from_word cur w s :
  Forall (λ c, space_cp c = false) w -> split_from cur (w ++ s) = split_from (cur ++ w) s.
Proof.
  intros H. revert cur. induction H as [|c w Hc _ IH]; intros cur; cbn [app split_from]; [by rewrite app_nil_r|].
  by rewrite Hc, IH, <- app_assoc.
Qed.

Lemma split_from_join ws : Forall word ws -> split_from [] (join_words ws) = ws.
Proof.
  induction 1 as [|w ws [Hn Hw] Hws IH]; [done|]. destruct ws as [|w' ws]; cbn [join_words].
  - rewrite <- (app_nil_r w) at 1. rewrite split_from_word by done. by destruct w.
  - cbn [join_words] in IH. rewrite split_from_word by done. cbn [split_from app]. destruct w as [|c w]; [done|].
    by rewrite IH.
Qed.

Lemma split_from_words cur s : Forall (λ c, space_cp c = false) cur -> Forall word (split_from cur s).
Proof.
  revert cur. induction s as [|c s IH]; intros cur Hc; cbn [split_from].
  - destruct cur; [constructor|]. by constructor; [split|constructor].
  - destruct (space_cp c) eqn:E.
    + destruct cur; [by apply IH|]. constructor; [done|by apply IH].
    + apply IH. apply Forall_app. split; [done|by constructor].
Qed.

Lemma split_spaces_left a s : spaces a -> split_from [] (a ++ s) = split_from [] s.
Proof. induction 1 as [|c a Hc _ IH]; [done|]. cbn [app split_from]. by rewrite Hc. Qed.

Lemma split_spaces_right cur s b : spaces b -> split_from cur (s ++ b) = split_from cur s.
Proof.
  intros Hb. revert cur. induction s as [|c s IH]; intros cur; cbn [app split_from].
  - destruct Hb as [|c b Hc Hb]; [done|]. cbn [split_from]. rewrite Hc.
    assert (split_from [] b = []) as H by (rewrite <- (app_nil_r b); by apply split_spaces_left).
    by destruct cur; rewrite H.
  - destruct (space_cp c); [|done]. destruct cur; [done|]. by rewrite IH.
Qed.

Lemma drop_spaces_split s : exists a, s = (a ++ drop_spaces s)%list /\ spaces a.
Proof.
  induction s as [|c s [a [Ha Hs]]]; [by exists []; repeat constructor|]. cbn [drop_spaces].
  destruct (space_cp c) eqn:E; [|by exists []; repeat constructor].
  exists (c :: a). split; [cbn; by f_equal|by constructor].
Qed.

Lemma strip_split s : exists a b, s = (a ++ strip_text s ++ b)%list /\ spaces a /\ spaces b.
Proof.
  destruct (drop_spaces_split s) as (a&Ha&Hsa). destruct (drop_spaces_split (reverse (drop_spaces s))) as (b&Hb&Hsb).
  exists a, (reverse b). split; [|split; [done|]].
  - unfold strip_text. rewrite <- reverse_app, <- Hb, reverse_involutive. done.
  - unfold spaces. by apply Forall_reverse.
Qed.

Lemma fold_text_app s t : fold_text (s ++ t) = (fold_text s ++ fold_text t)%list.
Proof. apply flat_map_app. Qed.

Lemma fold_text_spaces s : spaces s -> spaces (fold_text s).
Proof.
  induction 1 as [|c s Hc _ IH]; [constructor|]. apply Forall_app. split; [|done].
  eapply Forall_impl; [apply fold_cp_space|]. intros d ->. done.
Qed.

Lemma split_fold_strip s : split_from [] (fold_text (strip_text s)) = split_from [] (fold_text s).
Proof.
  destruct (strip_split s) as (a&b&E&Ha&Hb). rewrite E at 2. rewrite !fold_text_app.
  rewrite split_spaces_left, split_spaces_right; auto using fold_text_spaces.
Qed.

Lemma fold_text_fixed s : Forall (λ d, fold_cp d = [d]) s -> fold_text s = s.
Proof. induction 1 as [|c s Hc _ IH]; [done|]. cbn [fold_text flat_map]. rewrite Hc. cbn. by f_equal. Qed.

Lemma fold_text_Forall s : Forall (λ d, fold_cp d = [d]) (fold_text s).
Proof.
  induction s as [|c s IH]; [constructor|]. apply Forall_app. split; [apply fold_cp_fixed|done].
Qed.

Lemma split_from_chars (P : N -> Prop) cur s :
  Forall P cur -> Forall P s -> Forall (Forall P) (split_from cur s).
Proof.
  intros Hc Hs. revert cur Hc. induction Hs as [|c s H _ IH]; intros cur Hc; cbn [split_from].
  - destruct cur; [constructor|]. by constructor; [|constructor].
  - destruct (space_cp c); [destruct cur; [by apply IH|constructor; [done|by apply IH]]|].
    apply IH, Forall_app. split; [done|by constructor].
Qed.

Lemma join_words_chars (P : N -> Prop) ws : P 32%N -> Forall (Forall P) ws -> Forall P (join_words ws).
Proof.
  intros Hs. induction 1 as [|w ws Hw Hws IH]; [constructor|]. destruct ws as [|w' ws]; [done|].
  apply Forall_app. split; [done|by constructor].
Qed.

Lemma blank_text_spaces s : blank_text s = true <-> spaces s.
Proof.
  unfold blank_text. destruct (strip_split s) as (a&b&E&Ha&Hb). destruct (strip_text s) as [|c t] eqn:Es.
  - split; [|done]. intros _. rewrite E. by apply Forall_app.
  - split; [done|]. intros H. exfalso.
    assert (spaces s -> strip_text s = []) as Hn; [|by rewrite (Hn H) in Es].
    clear. intros H. unfold strip_text. assert (drop_spaces s = []) as ->; [|done].
    induction H as [|c s Hc _ IH]; [done|]. cbn [drop_spaces]. by rewrite Hc.
Qed.

Lemma split_nil_spaces s : split_from [] s = [] <-> spaces s.
Proof.
  split.
  - assert (forall cur, split_from cur s = [] -> cur = [] /\ spaces s) as H; [|intros H'; by apply (H [])].
    induction s as [|c s IH]; intros cur; cbn [split_from].
    + by destruct cur; [split; [|constructor]|].
    + destruct (space_cp c) eqn:E.
      * destruct cur; [|done]. intros [_ ?]%IH. split; [done|by constructor].
      * intros [H _]%IH. by destruct cur.
  - intros H. rewrite <- (app_nil_r s). by rewrite split_spaces_left.
Qed.

(** What a subject is stored and looked up under: the folded words of the raw
    text, joined by single spaces. *)
Lemma canonicalize_Ok raw c :
  canonicalize_subject raw = Ok c -> c = join_words (split_from [] (fold_text raw)) /\ split_from [] (fold_text raw) <> [].
Proof.
  unfold canonicalize_subject. destruct (blank_text raw) eqn:E; [done|]. rewrite split_fold_strip. intros [= <-].
  split; [done|]. intros H%split_nil_spaces. assert (spaces raw) as Hs.
  { clear E. induction raw as [|c s IH]; [constructor|]. apply Forall_app in H as [H1 H2].
    constructor; [|by apply IH]. pose proof (fold_cp_space c) as Hc.
    pose proof (fold_cp_nonempty c) as Hn.
    destruct (fold_cp c) as [|d l]; [done|]. apply Forall_cons in H1 as [H1 _]. apply Forall_cons in Hc as [Hc _].
    by rewrite <- Hc. }
  apply blank_text_spaces in Hs. congruence.
Qed.

Lemma canonical_subject_refusal a e : canonicalize_subject a = Raise e -> spaces a.
Proof.
  unfold canonicalize_subject. destruct (blank_text a) eqn:E; [|done]. intros _. by apply blank_text_spaces.
Qed.

(** The canonical form of a subject: canonicalising twice changes nothing;
    two subjects share a row exactly when their folded words agree, whatever
    their case and spacing; only an empty or blank one is refused. *)
Theorem canonical_subject a :
  match canonicalize_subject a with
  | Ok c => canonicalize_subject c = Ok c /\
      forall b, (canonicalize_subject b = Ok c <->
                 split_from [] (fold_text b) = split_from [] (fold_text a) /\ blank_text b = false)
  | Raise e => e = "ValueError" /\ spaces a
  end.
Proof.
  destruct (canonicalize_subject a) as [c|e] eqn:E.
  - assert (forall b, canonicalize_subject b =
      if blank_text b then Raise "ValueError" else Ok (join_words (split_from [] (fold_text b)))) as Hc.
    { intros b. unfold canonicalize_subject. by rewrite split_fold_strip. }
    apply canonicalize_Ok in E as [-> Hn]. set (ws := split_from [] (fold_text a)) in *.
    assert (Forall word ws) as Hw by by apply split_from_words.
    assert (fold_text (join_words ws) = join_words ws) as Hf.
    { apply fold_text_fixed, join_words_chars; [done|]. apply split_from_chars; [constructor|apply fold_text_Forall]. }
    assert (blank_text (join_words ws) = false) as Hb.
    { destruct (blank_text _) eqn:E; [|done]. apply blank_text_spaces, split_nil_spaces in E.
      by rewrite split_from_join in E. }
    split; [by rewrite Hc, Hb, Hf, split_from_join|]. intros b. rewrite Hc. destruct (blank_text b) eqn:Eb.
    + split; [done|by intros []].
    + split; [|by intros [-> _]]. intros [= H]. split; [|done].
      rewrite <- (split_from_join ws Hw), <- H, split_from_join; [done|]. by apply split_from_words.
  - unfold canonicalize_subject in E. destruct (blank_text a) eqn:Eb; [|done]. injection E as <-.
    split; [done|]. by apply blank_text_spaces.
Qed.
