(* ===== verification/Facts.v ===== *)
(** * Declarative facts

    Models [agents/memory/facts.py], [fact_types.py], [_facts_write.py],
    [_facts_supersede.py], [_facts_reinforce.py], [_facts_erasure.py],
    [_facts_topics.py] and [_facts_audit.py]. The [facts] table is the list of
    its rows in [rowid] order; each SQL statement is its meaning on it. A write
    awaits between its statements, so it is a [writer] that runs one statement
    per [write_step]; [insert_fact] runs one to its end. *)

From Stdlib Require Import Ascii.
From S2P Require Import Prelude PyStr PyDict PyValue PyFloat PySort MemoryEvents Ambient RowScope FactPredicates.
Local Open Scope string_scope.
Local Open Scope py_scope.

Definition MAX_RECALL_LIMIT : Z := 100.
Definition MAX_IDS_PER_UPDATE : nat := 900.
Definition FACTS_APPEND_SALIENCE : pyfloat := Fin 0.

Record Fact := mkFact {
  fact_id : string; agent_id : string; subject : text; predicate : string; object : string;
  certainty : Q; source_interaction_id : option string; asserted_at : Q;
  last_recalled_at : option Q; superseded_by : option string; session_id : string;
  protection_level : string; source_channel_id : option string }.

(** A row: the columns a [Fact] carries and those it does not. *)
Record FactRow := mkFactRow {
  row_to_fact : Fact; principal_id : string; epoch_id : string; speaker_id : option string }.

Inductive audit :=
| FactStored (agent id : string) (subj : text) (pred obj : string) (source : option string)
| FactSuperseded (agent old by_ : string)
| FactRecalled (agent : string) (ids : list string) (at_ : Q).

Record fact_db := mkFactDb { rows : list FactRow; audits : list audit; sent : list MemoryWriteEvent }.

(** A store, and one call on it: its ambient context, clock, span and fresh id. *)
Record FactStore := mkFactStore {
  store_agent : string; store_scope : TierScope; predicate_validator : string -> result string unit }.

Record FactCall := mkFactCall { amb : ambient; now : Q; span : option string; new_id : string }.

Definition row_id (r : FactRow) : string := fact_id (row_to_fact r).
Definition live (r : FactRow) : bool := bool_decide (superseded_by (row_to_fact r) = None).

Definition set_superseded (by_ : string) (r : FactRow) : FactRow :=
  let f := row_to_fact r in
  mkFactRow (mkFact (fact_id f) (agent_id f) (subject f) (predicate f) (object f) (certainty f)
    (source_interaction_id f) (asserted_at f) (last_recalled_at f) (Some by_) (session_id f)
    (protection_level f) (source_channel_id f)) (principal_id r) (epoch_id r) (speaker_id r).

Definition set_recalled (at_ : Q) (r : FactRow) : FactRow :=
  let f := row_to_fact r in
  mkFactRow (mkFact (fact_id f) (agent_id f) (subject f) (predicate f) (object f) (certainty f)
    (source_interaction_id f) (asserted_at f) (Some at_) (superseded_by f) (session_id f)
    (protection_level f) (source_channel_id f)) (principal_id r) (epoch_id r) (speaker_id r).

(** ** Auditing *)

Definition emit_audit (c : FactCall) (a : audit) (db : fact_db) : fact_db :=
  mkFactDb (rows db) (audits db ++ [a])%list
    (match a with
     | FactStored agent _ _ _ _ _ =>
         (sent db ++ [MemoryWriteEvent_new agent Tfacts FACTS_APPEND_SALIENCE (span c) (now c)])%list
     | _ => sent db
     end).

(** ** Supersession *)

(** The columns both sweeps require to be the new row's. *)
Definition same_key (n r : FactRow) : bool :=
  let f := row_to_fact r in let g := row_to_fact n in
  String.eqb (agent_id f) (agent_id g) && bool_decide (subject f = subject g) &&
  String.eqb (predicate f) (predicate g) &&
  principal_eq (principal_id n) (principal_id r) && epoch_eq (epoch_id n) (epoch_id r).

Definition older_sessions (session : string) : list string :=
  if String.eqb session Session.LEGACY_SESSION_ID then [session] else [session; Session.LEGACY_SESSION_ID].

Definition together_source (n : FactRow) : option string :=
  let g := row_to_fact n in
  if bool_decide (predicate g ∈ SINGLE_VALUED_PREDICATES) then None else source_interaction_id g.

(** [NOT (source IS NOT NULL AND source IS ? AND asserted_at = ? AND object != ?)], negated. *)
Definition written_together (n r : FactRow) : bool :=
  let f := row_to_fact r in let g := row_to_fact n in
  bool_decide (is_Some (source_interaction_id f)) &&
  bool_decide (source_interaction_id f = together_source n) &&
  Qeq_bool (asserted_at f) (asserted_at g) && negb (String.eqb (object f) (object g)).

Definition older_live (n r : FactRow) : bool :=
  let f := row_to_fact r in let g := row_to_fact n in
  same_key n r && bool_decide (session_id f ∈ older_sessions (session_id g)) &&
  live r && Qle_bool (asserted_at f) (asserted_at g) && negb (String.eqb (fact_id f) (fact_id g)) &&
  negb (written_together n r).

Definition newer_live (n r : FactRow) : bool :=
  let f := row_to_fact r in let g := row_to_fact n in
  same_key n r && String.eqb (session_id f) (session_id g) && live r &&
  Qltb (asserted_at g) (asserted_at f).

(** A row with its [rowid]. *)
Definition numbered (t : list FactRow) : list (nat * FactRow) := imap pair t.

Definition at_of (x : nat * FactRow) : Q := asserted_at (row_to_fact x.2).

(** [ORDER BY asserted_at DESC, rowid DESC], and its reverse *)
Definition newest_le (a b : nat * FactRow) : bool :=
  Qltb (at_of b) (at_of a) || Qeq_bool (at_of a) (at_of b) && (b.1 <=? a.1)%nat.
Definition oldest_le (a b : nat * FactRow) : bool := newest_le b a.

Definition older_ids (n : FactRow) (t : list FactRow) : list string :=
  map row_id (List.filter (older_live n) t).

Definition newer_id (n : FactRow) (t : list FactRow) : option string :=
  match py_sorted newest_le (List.filter (λ x, newer_live n x.2) (numbered t)) with
  | x :: _ => Some (row_id x.2)
  | [] => None
  end.

(** [UPDATE facts SET superseded_by = ? WHERE agent_id = ? AND fact_id IN (...)] *)
Definition supersede_rows (agent by_ : string) (ids : list string) (t : list FactRow) : list FactRow :=
  map (λ r, if String.eqb (agent_id (row_to_fact r)) agent && bool_decide (row_id r ∈ ids)
            then set_superseded by_ r else r) t.

(** ** One write, statement by statement *)

Inductive writer :=
| ToInsert (n : FactRow)
| ToSweepOlder (n : FactRow)
| ToFindNewer (n : FactRow) (older : list string)
| ToMarkOlder (n : FactRow) (older : list string) (newer : option string)
| ToMarkSelf (n : FactRow) (older : list string) (newer : option string)
| ToAudit (n : FactRow) (older : list string) (newer : option string)
| Written (id : string)
| Refused (e : string).

Definition set_rows (t : list FactRow) (db : fact_db) : fact_db := mkFactDb t (audits db) (sent db).

(** The audit records of a committed write. *)
Definition write_audits (n : FactRow) (older : list string) (newer : option string) : list audit :=
  let g := row_to_fact n in
  ([FactStored (agent_id g) (fact_id g) (subject g) (predicate g) (object g) (source_interaction_id g)]
   ++ map (λ o, FactSuperseded (agent_id g) o (fact_id g)) older
   ++ match newer with Some d => [FactSuperseded (agent_id g) (fact_id g) d] | None => [] end)%list.

Definition write_step (c : FactCall) (w : writer) (db : fact_db) : writer * fact_db :=
  match w with
  | ToInsert n =>
      if bool_decide (row_id n ∈ map row_id (rows db)) then (Refused "IntegrityError", db)
      else (ToSweepOlder n, set_rows (rows db ++ [n])%list db)
  | ToSweepOlder n => (ToFindNewer n (older_ids n (rows db)), db)
  | ToFindNewer n older => (ToMarkOlder n older (newer_id n (rows db)), db)
  | ToMarkOlder n older newer =>
      (ToMarkSelf n older newer,
       match older with
       | [] => db
       | _ => set_rows (supersede_rows (agent_id (row_to_fact n)) (row_id n) older (rows db)) db
       end)
  | ToMarkSelf n older newer =>
      (ToAudit n older newer,
       match newer with
       | Some d => set_rows (supersede_rows (agent_id (row_to_fact n)) d [row_id n] (rows db)) db
       | None => db
       end)
  | ToAudit n older newer =>
      (Written (row_id n), fold_left (λ db a, emit_audit c a db) (write_audits n older newer) db)
  | Written _ | Refused _ => (w, db)
  end.

(** ** The write path *)

Record FactArgs := mkFactArgs {
  arg_subject : text; arg_predicate : string; arg_object : string; arg_source : option string;
  arg_asserted_at : Q; arg_certainty : pyfloat; arg_session : string; arg_level : string;
  arg_channel : option string; arg_speaker : option string; arg_principal : option string }.

(** [v or None] *)
Definition or_None (v : option string) : option string :=
  match v with Some s => if truthy s then Some s else None | None => None end.

(** A blank source is no source. *)
Definition fold_source (v : option string) : option string :=
  match v with Some s => if truthy (strip s) then Some s else None | None => None end.

(** The checks before the [INSERT]: the row to insert. [0.0 <= certainty <= 1.0]
    is false of a NaN. *)
Definition checked_row (st : FactStore) (c : FactCall) (a : FactArgs) : result string FactRow :=
  if blank_text (arg_subject a) then Raise "ValueError"
  else
    match arg_certainty a with
    | Fin q =>
        if negb (Qle_bool 0 q && Qle_bool q 1) then Raise "ValueError"
        else
          let! _ := predicate_validator st (arg_predicate a) in
          let! _ := validate_object (arg_object a) in
          let! subj := canonicalize_subject (arg_subject a) in
          let! _ := validate_subject subj in
          Ok (mkFactRow
            (mkFact (new_id c) (store_agent st) subj (arg_predicate a) (arg_object a) q
               (fold_source (arg_source a)) (arg_asserted_at a) None None
               (Session.normalize_session_id (Some (arg_session a))) (arg_level a) (arg_channel a))
            (resolve_write_principal (amb c) (arg_principal a) (active_principal_id (store_scope st)))
            (resolve_active_epoch (amb c) (active_epoch_id (store_scope st)))
            (or_None (arg_speaker a)))
    | _ => Raise "ValueError"
    end.

(** A write that nothing interrupts. *)
Fixpoint write_steps (k : nat) (c : FactCall) (w : writer) (db : fact_db) : writer * fact_db :=
  match k with
  | O => (w, db)
  | S k => let '(w, db) := write_step c w db in write_steps k c w db
  end.

Definition run_writer := write_steps 6.

Definition insert_fact (st : FactStore) (c : FactCall) (a : FactArgs) (db : fact_db) :
    result string string * fact_db :=
  match checked_row st c a with
  | Raise e => (Raise e, db)
  | Ok n =>
      match run_writer c (ToInsert n) db with
      | (Written id, db) => (Ok id, db)
      | (Refused e, db) => (Raise e, db)
      | (_, db) => (Raise "unfinished", db)
      end
  end.

(** [store]: the same call; the three ambient axes are resolved in [checked_row]. *)
Definition store := insert_fact.

(** ** Reading *)

(** [predicate IN (...)]; [None] is every class, an empty collection none. *)
Definition predicate_in (predicates : option (list string)) (column : string) : bool :=
  match predicates with None => true | Some ps => bool_decide (column ∈ ps) end.

(** The rows a read may see, whatever their subject. *)
Definition readable (st : FactStore) (c : FactCall) (sessions : option (list string))
    (predicates : option (list string)) (r : FactRow) : bool :=
  let f := row_to_fact r in
  String.eqb (agent_id f) (store_agent st) && predicate_in predicates (predicate f) &&
  session_in sessions (session_id f) &&
  principal_eq (resolve_active_principal (amb c) (active_principal_id (store_scope st))) (principal_id r) &&
  epoch_eq (resolve_active_epoch (amb c) (active_epoch_id (store_scope st))) (epoch_id r).

(** [ROW_NUMBER() OVER (ORDER BY ...)], for a row of the sorted list *)
Fixpoint row_number (l : list (nat * FactRow)) (x : nat * FactRow) : nat :=
  match l with
  | [] => 1
  | y :: l => if Nat.eqb (fst x) (fst y) then 1 else S (row_number l x)
  end.

(** [ORDER BY MIN(from_newest, from_oldest), from_newest] *)
Definition ends_le (newest oldest : list (nat * FactRow)) (a b : nat * FactRow) : bool :=
  let near x := Nat.min (row_number newest x) (row_number oldest x) in
  (near a <? near b)%nat ||
  (near a =? near b)%nat && (row_number newest a <=? row_number newest b)%nat.

Definition both_ends (l : list (nat * FactRow)) : list (nat * FactRow) :=
  py_sorted (ends_le (py_sorted newest_le l) (py_sorted oldest_le l)) l.

Definition recall (st : FactStore) (c : FactCall) (subj : text) (limit : Z) (include_superseded : bool)
    (sessions : sessions_arg) (predicates : option (list string)) (order : string) (db : fact_db) :
    result string (list Fact) :=
  if (limit <? 1)%Z then Raise "ValueError"
  else if negb (bool_decide (order ∈ ["newest"; "both_ends"])) then Raise "ValueError"
  else
    let! subj := canonicalize_subject subj in
    let! sess := resolve_session_list (amb c) sessions (active_session_id (store_scope st)) in
    let found := List.filter (λ x, bool_decide (subject (row_to_fact x.2) = subj) &&
        (include_superseded || live x.2) && readable st c sess predicates x.2) (numbered (rows db)) in
    let ordered := if String.eqb order "both_ends" then both_ends found else py_sorted newest_le found in
    Ok (map (λ x, row_to_fact x.2) (take (Z.to_nat (Z.min limit MAX_RECALL_LIMIT)) ordered)).

(** [GROUP BY subject]: a group with its greatest [asserted_at] and [rowid]. *)
Fixpoint group_add (x : nat * FactRow) (gs : list (text * (Q * nat))) : list (text * (Q * nat)) :=
  match gs with
  | [] => [(subject (row_to_fact x.2), (at_of x, x.1))]
  | (s, (t, i)) :: gs =>
      if bool_decide (s = subject (row_to_fact x.2)) then (s, (fmax t (at_of x), Nat.max i x.1)) :: gs
      else (s, (t, i)) :: group_add x gs
  end.

Definition group_le (a b : text * (Q * nat)) : bool :=
  Qltb b.2.1 a.2.1 || Qeq_bool a.2.1 b.2.1 && (b.2.2 <=? a.2.2)%nat.

Definition topic_subjects (st : FactStore) (c : FactCall) (limit : Z) (sessions : sessions_arg) (db : fact_db) :
    result string (list text) :=
  let! sess := resolve_session_list (amb c) sessions (active_session_id (store_scope st)) in
  let limit := Z.min limit (MAX_RECALL_LIMIT * 2) in
  if (limit <? 1)%Z then Raise "ValueError"
  else
    let found := List.filter (λ x, live x.2 && readable st c sess (Some TOPIC_PREDICATES) x.2) (numbered (rows db)) in
    Ok (map fst (take (Z.to_nat limit) (py_sorted group_le (fold_left (λ gs x, group_add x gs) found [])))).

(** ** Reinforcement, retraction, cleanup *)

(** [_chunked]; the step is never zero. *)
Fixpoint chunked (fuel size : nat) (ids : list string) : list (list string) :=
  match fuel, ids with
  | S fuel, _ :: _ => take size ids :: chunked fuel size (drop size ids)
  | _, _ => []
  end.

(** [MAX(COALESCE(last_recalled_at, 0), ?)] *)
Definition recalled_at (timestamp : Q) (r : FactRow) : Q :=
  fmax (default 0%Q (last_recalled_at (row_to_fact r))) timestamp.

Definition recall_rows (agent : string) (timestamp : Q) (t : list FactRow) (chunk : list string) : list FactRow :=
  map (λ r, if String.eqb (agent_id (row_to_fact r)) agent && bool_decide (row_id r ∈ chunk)
            then set_recalled (recalled_at timestamp r) r else r) t.

Definition mark_recalled (st : FactStore) (c : FactCall) (ids : list string) (at_ : option Q) (db : fact_db) : fact_db :=
  match ids with
  | [] => db
  | _ =>
      let timestamp := default (now c) at_ in
      let t := fold_left (recall_rows (store_agent st) timestamp) (chunked (length ids) MAX_IDS_PER_UPDATE ids) (rows db) in
      emit_audit c (FactRecalled (store_agent st) ids timestamp) (set_rows t db)
  end.

(** The row [retract_fact] updates. *)
Definition retractable (st : FactStore) (c : FactCall) (fid : string) (r : FactRow) : bool :=
  String.eqb (row_id r) fid && String.eqb (agent_id (row_to_fact r)) (store_agent st) && live r &&
  principal_eq (resolve_active_principal (amb c) (active_principal_id (store_scope st))) (principal_id r) &&
  epoch_eq (resolve_active_epoch (amb c) (active_epoch_id (store_scope st))) (epoch_id r).

Definition supersede (st : FactStore) (c : FactCall) (fid by_ : string) (db : fact_db) : bool * fact_db :=
  let t := map (λ r, if retractable st c fid r then set_superseded by_ r else r) (rows db) in
  if existsb (retractable st c fid) (rows db)
  then (true, emit_audit c (FactSuperseded (store_agent st) fid by_) (set_rows t db))
  else (false, set_rows t db).

(** [DELETE FROM facts WHERE ...] and its row count *)
Definition delete_rows (p : FactRow -> bool) (db : fact_db) : Z * fact_db :=
  (Z.of_nat (length (List.filter p (rows db))), set_rows (List.filter (λ r, negb (p r)) (rows db)) db).

Definition prune (st : FactStore) (before : Q) (db : fact_db) : Z * fact_db :=
  delete_rows (λ r, String.eqb (agent_id (row_to_fact r)) (store_agent st) && negb (live r) &&
                    Qltb (asserted_at (row_to_fact r)) before) db.

(** [delete_by_subject]: the subject is canonicalised, the source id is not. *)
Definition delete_by_subject (st : FactStore) (c : FactCall) (subject_id : string) (db : fact_db) :
    result string (Z * Z) * fact_db :=
  let principal := resolve_active_principal (amb c) (active_principal_id (store_scope st)) in
  match canonicalize_subject (codes subject_id) with
  | Raise e => (Raise e, db)
  | Ok subj =>
      let '(by_subject, db) := delete_rows (λ r, String.eqb (agent_id (row_to_fact r)) (store_agent st) &&
            bool_decide (subject (row_to_fact r) = subj) && principal_eq principal (principal_id r)) db in
      let '(by_source, db) := delete_rows (λ r, String.eqb (agent_id (row_to_fact r)) (store_agent st) &&
            bool_decide (source_interaction_id (row_to_fact r) = Some subject_id) &&
            principal_eq principal (principal_id r)) db in
      (Ok (by_subject, by_source), db)
  end.
