(* ===== verification/FactsProps.v ===== *)
(** * Declarative facts: what the store guarantees

    Latest assertion wins, over every history; facts written together coexist;
    the chain of superseded rows ends at a live one; writes that interleave stay
    within their key. *)

From Stdlib Require Import Ascii Sorted.
From S2P Require Import Prelude PyStr PyDict PyValue PyFloat PySort MemoryEvents Ambient RowScope FactPredicates Facts.
Local Open Scope string_scope.
Local Open Scope py_scope.

(** ** Rows *)

(** The columns no operation changes. *)
Definition same_row (r s : FactRow) : Prop :=
  let f := row_to_fact r in let g := row_to_fact s in
  fact_id f = fact_id g /\ agent_id f = agent_id g /\ subject f = subject g /\ predicate f = predicate g /\
  object f = object g /\ certainty f = certainty g /\ source_interaction_id f = source_interaction_id g /\
  asserted_at f = asserted_at g /\ session_id f = session_id g /\ protection_level f = protection_level g /\
  source_channel_id f = source_channel_id g /\ principal_id r = principal_id s /\ epoch_id r = epoch_id s /\
  speaker_id r = speaker_id s.

#[export] Instance same_row_equiv : Equivalence same_row.
Proof.
  split; [by intros r|by intros r s H; unfold same_row in *; naive_solver|].
  intros r s t H1 H2. unfold same_row in *. destruct_and!. split_and!; congruence.
Qed.

Lemma set_superseded_same by_ r : same_row (set_superseded by_ r) r.
Proof. done. Qed.
Lemma set_recalled_same at_ r : same_row (set_recalled at_ r) r.
Proof. done. Qed.

#[export] Hint Resolve set_superseded_same set_recalled_same : py.

(** The supersession relations read only those columns. *)
#[export] Instance same_key_proper : Proper (same_row ==> same_row ==> eq) same_key.
Proof.
  intros [[] ???] [[] ???] Hn [[] ???] [[] ???] Hr. unfold same_row in *. cbn in *. destruct_and!. by subst.
Qed.

#[export] Instance written_together_proper : Proper (same_row ==> same_row ==> eq) written_together.
Proof.
  intros [[] ???] [[] ???] Hn [[] ???] [[] ???] Hr. unfold same_row in *. cbn in *. destruct_and!. by subst.
Qed.

Lemma same_key_spec n r :
  same_key n r = true <->
  agent_id (row_to_fact r) = agent_id (row_to_fact n) /\ subject (row_to_fact r) = subject (row_to_fact n) /\
  predicate (row_to_fact r) = predicate (row_to_fact n) /\ principal_id r = principal_id n /\ epoch_id r = epoch_id n.
Proof.
  unfold same_key, principal_eq, epoch_eq. rewrite !andb_true_iff, bool_decide_eq_true, !String.eqb_eq. tauto.
Qed.

Lemma older_live_key n r : older_live n r = true -> same_key n r = true /\ live r = true /\
  session_id (row_to_fact r) ∈ older_sessions (session_id (row_to_fact n)) /\
  (asserted_at (row_to_fact r) <= asserted_at (row_to_fact n))%Q /\ row_id r <> row_id n /\
  written_together n r = false.
Proof.
  unfold older_live. rewrite !andb_true_iff, !negb_true_iff, bool_decide_eq_true, Qle_bool_iff, String.eqb_neq. tauto.
Qed.

Lemma newer_live_key n r : newer_live n r = true <-> same_key n r = true /\ live r = true /\
  session_id (row_to_fact r) = session_id (row_to_fact n) /\
  (asserted_at (row_to_fact n) < asserted_at (row_to_fact r))%Q.
Proof.
  unfold newer_live. rewrite !andb_true_iff, String.eqb_eq, Qltb_lt. tauto.
Qed.

(** ** The effect of one write *)

Lemma supersede_rows_nil agent by_ t : supersede_rows agent by_ [] t = t.
Proof.
  unfold supersede_rows. rewrite <- (map_id t) at 2. apply map_ext. intros r.
  by rewrite bool_decide_false, andb_false_r by apply not_elem_of_nil.
Qed.

(** A sweep marks exactly the rows it selected. *)
Lemma supersede_rows_filter (p : FactRow -> bool) agent by_ t :
  NoDup (map row_id t) -> (forall r, p r = true -> agent_id (row_to_fact r) = agent) ->
  supersede_rows agent by_ (map row_id (List.filter p t)) t = map (λ r, if p r then set_superseded by_ r else r) t.
Proof.
  intros Hn Hp. unfold supersede_rows. apply map_ext_in. intros r Hr%list_elem_of_In.
  destruct (p r) eqn:E.
  - rewrite (Hp r E), String.eqb_refl. rewrite bool_decide_true; [done|]. apply list_elem_of_fmap.
    exists r. split; [done|]. apply list_elem_of_In, filter_In. by rewrite <- list_elem_of_In.
  - rewrite bool_decide_false; [by rewrite andb_false_r|]. intros (s&Hs&Hin)%list_elem_of_fmap.
    apply list_elem_of_In, filter_In in Hin as [Hin Hps]. apply list_elem_of_In in Hin.
    assert (r = s) as -> by (by eapply (NoDup_map_inj row_id)). congruence.
Qed.

Definition newer_of (n : FactRow) (t : list FactRow) : FactRow :=
  match newer_id n t with Some d => set_superseded d n | None => n end.

(** The table after the write of [n]. *)
Definition inserted (n : FactRow) (t : list FactRow) : list FactRow :=
  (map (λ r, if older_live n r then set_superseded (row_id n) r else r) t ++ [newer_of n (t ++ [n])%list])%list.

Lemma older_live_irrefl n : older_live n n = false.
Proof.
  unfold older_live. cbv zeta. rewrite (String.eqb_refl (fact_id _)). cbn [negb]. by rewrite andb_false_r.
Qed.

Lemma run_writer_spec c n db :
  NoDup (map row_id (rows db)) ->
  run_writer c (ToInsert n) db =
  if bool_decide (row_id n ∈ map row_id (rows db)) then (Refused "IntegrityError", db)
  else (Written (row_id n),
        fold_left (λ db a, emit_audit c a db)
          (write_audits n (older_ids n (rows db)) (newer_id n (rows db ++ [n])%list))
          (set_rows (inserted n (rows db)) db)).
Proof.
  intros Hn. unfold run_writer. cbn [write_steps write_step]. case_bool_decide as Hf; [done|].
  cbn [write_steps write_step rows set_rows].
  assert (older_ids n (rows db ++ [n]) = older_ids n (rows db)) as Ho.
  { unfold older_ids. rewrite List.filter_app. cbn [List.filter]. rewrite older_live_irrefl. by rewrite app_nil_r. }
  rewrite Ho. set (t1 := (rows db ++ [n])%list).
  assert (NoDup (map row_id t1)) as Hn1.
  { unfold t1. rewrite map_app. apply NoDup_app. split; [done|]. split; [|apply NoDup_singleton].
    intros i Hi Hx. apply list_elem_of_singleton in Hx. by subst. }
  set (t2 := supersede_rows (agent_id (row_to_fact n)) (row_id n) (older_ids n (rows db)) t1).
  assert (match older_ids n (rows db) with [] => set_rows t1 db | _ => set_rows t2 (set_rows t1 db) end
          = set_rows t2 (set_rows t1 db)) as Hm.
  { unfold t2. destruct (older_ids n (rows db)); [by rewrite supersede_rows_nil|done]. }
  assert (t2 = (map (λ r, if older_live n r then set_superseded (row_id n) r else r) (rows db) ++ [n])%list) as H2.
  { unfold t2. rewrite <- Ho. unfold older_ids. rewrite supersede_rows_filter; [|done|].
    - unfold t1. rewrite map_app. cbn [map]. by rewrite older_live_irrefl.
    - intros r Hr. apply older_live_key in Hr as [Hk _]. apply same_key_spec in Hk. tauto. }
  rewrite Hm. cbn [rows set_rows]. f_equal. f_equal. unfold inserted, newer_of. fold t1. rewrite H2.
  destruct (newer_id n t1) as [d|]; [|done]. unfold set_rows. cbn [rows audits sent]. f_equal.
  unfold supersede_rows. rewrite map_app. cbn [map]. rewrite String.eqb_refl.
  rewrite (bool_decide_true (row_id n ∈ [row_id n])) by left. cbn [andb]. f_equal.
  rewrite map_map. apply map_ext_in. intros r Hr%list_elem_of_In.
  assert (row_id (if older_live n r then set_superseded (row_id n) r else r) = row_id r) as Hi by by destruct (older_live n r).
  rewrite Hi, bool_decide_false; [by rewrite andb_false_r|]. intros Hx%list_elem_of_singleton. apply Hf.
  rewrite <- Hx. apply list_elem_of_fmap. by exists r.
Qed.

(** ** Orders *)

Lemma numbered_elem i r t : (i, r) ∈ numbered t <-> t !! i = Some r.
Proof.
  unfold numbered. rewrite elem_of_lookup_imap. split.
  - by intros (j&x&[= -> ->]&H).
  - intros H. by exists i, r.
Qed.

Lemma newest_le_total a b : newest_le a b = false -> newest_le b a = true.
Proof.
  unfold newest_le. rewrite orb_false_iff, andb_false_iff, orb_true_iff, andb_true_iff.
  rewrite Qltb_ge, Qltb_lt, Qeq_bool_iff, Nat.leb_gt, Nat.leb_le. intros [H1 [H2|H2]].
  - left. apply Qeq_bool_neq in H2. destruct (Qlt_le_dec (at_of a) (at_of b)); [done|]. exfalso. apply H2. lra.
  - destruct (Qlt_le_dec (at_of a) (at_of b)); [by left|]. right. split; [lra|lia].
Qed.

Lemma newest_le_spec a b :
  newest_le a b = true <-> (at_of b < at_of a)%Q \/ (at_of a == at_of b)%Q /\ (b.1 <= a.1)%nat.
Proof. unfold newest_le. by rewrite orb_true_iff, andb_true_iff, Qltb_lt, Qeq_bool_iff, Nat.leb_le. Qed.

Lemma newest_le_trans a b c : newest_le a b = true -> newest_le b c = true -> newest_le a c = true.
Proof.
  rewrite !newest_le_spec. intros [H1|[H1 H1']] [H2|[H2 H2']]; [left; lra|left; lra|left; lra|right].
  split; [lra|lia].
Qed.

#[export] Hint Resolve newest_le_total newest_le_trans : py.

Lemma newer_id_spec n t :
  match newer_id n t with
  | Some d => exists j r, t !! j = Some r /\ row_id r = d /\ newer_live n r = true /\
      forall s, s ∈ t -> newer_live n s = true -> (asserted_at (row_to_fact s) <= asserted_at (row_to_fact r))%Q
  | None => forall s, s ∈ t -> newer_live n s = false
  end.
Proof.
  unfold newer_id. set (l := List.filter _ _).
  assert (forall s, s ∈ t -> newer_live n s = true -> exists j, (j, s) ∈ l) as Hin.
  { intros s Hs Hl. apply list_elem_of_lookup in Hs as [j Hj]. exists j. apply list_elem_of_In, filter_In.
    split; [|done]. by apply list_elem_of_In, numbered_elem. }
  pose proof (py_sorted_sorted newest_le newest_le_total newest_le_trans l) as Hs.
  pose proof (λ x, elem_of_py_sorted newest_le x l) as He. destruct (py_sorted newest_le l) as [|[j r] k].
  - intros s Hs'. destruct (newer_live n s) eqn:E; [|done]. destruct (Hin s Hs' E) as [j Hj].
    by apply He, not_elem_of_nil in Hj.
  - assert ((j, r) ∈ l) as Hr by (apply He; left). apply list_elem_of_In, filter_In in Hr as [Hr Hl].
    apply list_elem_of_In, numbered_elem in Hr. exists j, r. split; [done|]. split; [done|]. split; [done|].
    intros s Hst Hsl. destruct (Hin s Hst Hsl) as [i Hi]. apply He, elem_of_cons in Hi as [[= -> ->]|Hi]; [lra|].
    apply StronglySorted_inv in Hs as [_ Hs]. rewrite Forall_forall in Hs. specialize (Hs _ Hi).
    apply newest_le_spec in Hs. unfold at_of in Hs. cbn [snd] in Hs. destruct Hs as [?|[? _]]; lra.
Qed.

(** A row of the table is not strictly newer than itself. *)
Lemma newer_live_irrefl n : newer_live n n = false.
Proof. destruct (newer_live n n) eqn:E; [|done]. apply newer_live_key in E as (_&_&_&E). lra. Qed.

(** ** Histories *)

Inductive fact_op :=
| OpStore (st : FactStore) (c : FactCall) (a : FactArgs)
| OpMark (st : FactStore) (c : FactCall) (ids : list string) (at_ : option Q)
| OpSupersede (st : FactStore) (c : FactCall) (fid by_ : string)
| OpPrune (st : FactStore) (before : Q)
| OpErase (st : FactStore) (c : FactCall) (subject_id : string).

Definition run_op (db : fact_db) (o : fact_op) : fact_db :=
  match o with
  | OpStore st c a => (insert_fact st c a db).2
  | OpMark st c ids at_ => mark_recalled st c ids at_ db
  | OpSupersede st c fid by_ => (supersede st c fid by_ db).2
  | OpPrune st before => (prune st before db).2
  | OpErase st c subj => (delete_by_subject st c subj db).2
  end.

Definition run_ops (db : fact_db) (os : list fact_op) : fact_db := fold_left run_op os db.

Lemma emit_rows c l db : rows (fold_left (λ db a, emit_audit c a db) l db) = rows db.
Proof. revert db. induction l as [|a l IH]; intros db; [done|]. cbn [fold_left]. by rewrite IH. Qed.

(** What a store does to the table: nothing when refused. *)
Lemma insert_fact_rows st c a db :
  NoDup (map row_id (rows db)) ->
  match insert_fact st c a db with
  | (Ok i, db') => exists n, checked_row st c a = Ok n /\ i = row_id n /\ row_id n ∉ map row_id (rows db) /\
      rows db' = inserted n (rows db)
  | (Raise e, db') => db' = db /\ (checked_row st c a = Raise e \/
      e = "IntegrityError" /\ exists n, checked_row st c a = Ok n /\ row_id n ∈ map row_id (rows db))
  end.
Proof.
  intros Hn. unfold insert_fact. destruct (checked_row st c a) as [n|e]; [|auto].
  rewrite run_writer_spec by done. case_bool_decide as Hf.
  - split; [done|]. right. eauto.
  - exists n. split; [done|]. split; [done|]. split; [done|]. by rewrite emit_rows.
Qed.

Lemma map_filter_cases (P : list FactRow -> list FactRow -> Prop) :
  (forall t, P t t) -> (forall t u v, P t u -> P u v -> P t v) ->
  (forall t p, P t (List.filter p t)) ->
  (forall t f, (forall r, f r = r \/ exists q, f r = set_recalled q r) -> P t (map f t)) ->
  (forall t f, (forall r, f r = r \/ live r = true /\ exists b, f r = set_superseded b r) -> P t (map f t)) ->
  forall db o, (forall st c a, o <> OpStore st c a) -> P (rows db) (rows (run_op db o)).
Proof.
  intros Hrefl Htrans Hfilter Hmark Hsup db o Ho.
  destruct o as [st c a|st c ids at_|st c fid by_|st before|st c subj]; cbn [run_op].
  - by destruct (Ho st c a).
  - unfold mark_recalled. destruct ids as [|i ids]; [apply Hrefl|]. cbn [rows emit_audit set_rows].
    generalize (chunked (length (i :: ids)) MAX_IDS_PER_UPDATE (i :: ids)). intros l. generalize (rows db) as t.
    induction l as [|k l IH]; intros t; [apply Hrefl|]. cbn [fold_left]. eapply Htrans; [|apply IH].
    apply Hmark. intros r. destruct (_ && _); eauto.
  - unfold supersede. assert (forall t, P t (map (λ r, if retractable st c fid r then set_superseded by_ r else r) t)) as H.
    { intros t. apply Hsup. intros r. destruct (retractable st c fid r) eqn:E; [right|by left].
      split; [|eauto]. unfold retractable in E. bool_props. tauto. }
    destruct (existsb _ _); cbn [snd rows emit_audit set_rows]; apply H.
  - apply Hfilter.
  - unfold delete_by_subject. destruct (canonicalize_subject _); [|apply Hrefl].
    cbn [snd delete_rows rows set_rows]. eapply Htrans; apply Hfilter.
Qed.

(** ** Latest assertion wins *)

(** Two rows of one extraction that say different things of a predicate with
    many values. *)
Definition coexist (r s : FactRow) : Prop :=
  let f := row_to_fact r in let g := row_to_fact s in
  is_Some (source_interaction_id f) /\ source_interaction_id f = source_interaction_id g /\
  (asserted_at f == asserted_at g)%Q /\ object f <> object g /\ predicate f ∉ SINGLE_VALUED_PREDICATES.

Definition same_belief (r s : FactRow) : Prop :=
  same_key r s = true /\ session_id (row_to_fact r) = session_id (row_to_fact s).

#[export] Instance coexist_proper : Proper (same_row ==> same_row ==> iff) coexist.
Proof. intros [[] ???] [[] ???] Hn [[] ???] [[] ???] Hr. unfold same_row in *. cbn in *. destruct_and!. by subst. Qed.

#[export] Instance same_belief_proper : Proper (same_row ==> same_row ==> iff) same_belief.
Proof. intros [[] ???] [[] ???] Hn [[] ???] [[] ???] Hr. unfold same_row in *. cbn in *. destruct_and!. by subst. Qed.

(** One live assertion per key and session, but for facts written together. *)
Definition belief (t : list FactRow) : Prop :=
  NoDup (map row_id t) /\
  forall r s, r ∈ t -> s ∈ t -> row_id r <> row_id s -> live r = true -> live s = true ->
    same_belief r s -> coexist r s.

Lemma belief_nil : belief [].
Proof. split; [constructor|]. by intros r s Hr%not_elem_of_nil. Qed.

Lemma belief_filter t p : belief t -> belief (List.filter p t).
Proof.
  intros [Hn Hb]. split.
  - clear Hb. induction t as [|r t IH]; [done|]. cbn [map List.filter] in *. apply NoDup_cons in Hn as [Hr Hn].
    destruct (p r); [|auto]. cbn [map]. apply NoDup_cons. split; [|auto].
    intros (s&Hs&Hin)%list_elem_of_fmap. apply Hr, list_elem_of_fmap. exists s. split; [done|].
    apply list_elem_of_In. apply list_elem_of_In in Hin. by apply filter_In in Hin as [? _].
  - intros r s Hr Hs. apply Hb; [apply list_elem_of_In in Hr|apply list_elem_of_In in Hs];
      apply list_elem_of_In; [by apply filter_In in Hr as [? _]|by apply filter_In in Hs as [? _]].
Qed.

(** Changing only the mutable columns, and reviving nothing, keeps it. *)
Lemma belief_map t f :
  (forall r, same_row (f r) r /\ (live (f r) = true -> live r = true)) -> belief t -> belief (map f t).
Proof.
  intros Hf [Hn Hb]. assert (forall r, row_id (f r) = row_id r) as Hid by (intros r; apply Hf). split.
  - rewrite map_map. by rewrite (map_ext _ row_id Hid).
  - intros r' s' (r&->&Hr)%list_elem_of_fmap (s&->&Hs)%list_elem_of_fmap. rewrite !Hid. intros Hne Hlr Hls Hk.
    destruct (Hf r) as [Hr1 Hr2], (Hf s) as [Hs1 Hs2]. rewrite Hr1, Hs1 in Hk |- *. by apply Hb; auto.
Qed.

Lemma coexist_sym r s : same_key r s = true -> coexist r s -> coexist s r.
Proof.
  intros (_&_&Hp&_)%same_key_spec (H1&H2&H3&H4&H5). unfold coexist. rewrite Hp, <- H2. by split_and!.
Qed.

Lemma same_belief_sym r s : same_belief r s -> same_belief s r.
Proof. unfold same_belief. rewrite !same_key_spec. intuition congruence. Qed.

Lemma written_together_coexist n r :
  same_key n r = true -> written_together n r = true -> coexist r n.
Proof.
  intros (_&_&Hp&_)%same_key_spec H. unfold written_together in H.
  rewrite !andb_true_iff, negb_true_iff, !bool_decide_eq_true, Qeq_bool_iff, String.eqb_neq in H.
  destruct H as [[[H1 H2] H3] H4]. unfold together_source in H2. case_bool_decide as Hs.
  - rewrite H2 in H1. by destruct H1.
  - unfold coexist. rewrite Hp. split_and!; done.
Qed.

(** A live row of the new row's belief that the write leaves live was written
    together with it, unless it is strictly newer. *)
Lemma spared_coexists n r :
  same_belief n r -> live r = true -> row_id r <> row_id n -> older_live n r = false -> newer_live n r = false ->
  coexist r n.
Proof.
  intros [Hk Hs] Hl Hi Ho Hn. apply written_together_coexist; [done|].
  destruct (written_together n r) eqn:E; [done|exfalso].
  assert (asserted_at (row_to_fact r) <= asserted_at (row_to_fact n))%Q as Hle.
  { destruct (Qlt_le_dec (asserted_at (row_to_fact n)) (asserted_at (row_to_fact r))) as [Hlt|]; [|done].
    assert (newer_live n r = true) by by apply newer_live_key. congruence. }
  assert (older_live n r = true); [|congruence]. unfold older_live. cbv zeta. rewrite Hk, Hl, E.
  rewrite bool_decide_true; [|rewrite Hs; unfold older_sessions; destruct (String.eqb _ _); left].
  rewrite (proj2 (Qle_bool_iff _ _) Hle). cbn [andb]. rewrite andb_true_r. apply negb_true_iff, String.eqb_neq, Hi.
Qed.

Lemma newer_of_same n t : same_row (newer_of n t) n.
Proof. unfold newer_of. by destruct (newer_id n t). Qed.

Lemma newer_of_live n t : live (newer_of n t) = true -> forall s, s ∈ t -> newer_live n s = false.
Proof. unfold newer_of. pose proof (newer_id_spec n t) as H. by destruct (newer_id n t). Qed.

Lemma belief_inserted n t :
  row_id n ∉ map row_id t -> belief t -> belief (inserted n t).
Proof.
  intros Hf Hb. set (f := λ r, if older_live n r then set_superseded (row_id n) r else r).
  assert (forall r, same_row (f r) r /\ (live (f r) = true -> live r = true /\ older_live n r = false)) as Hm.
  { intros r. unfold f. destruct (older_live n r) eqn:E; split; try done; auto with py. }
  assert (belief (map f t)) as [Hn' Hb'].
  { apply belief_map; [|done]. intros r. destruct (Hm r) as [H1 H2]. split; [done|]. intros H. by apply H2. }
  assert (forall r, r ∈ map f t -> live r = true -> live (newer_of n (t ++ [n])%list) = true ->
            same_belief n r -> coexist r n) as Hx.
  { intros r' (r&->&Hr)%list_elem_of_fmap Hl Hln Hs. destruct (Hm r) as [H1 H2]. destruct (H2 Hl) as [H3 H4].
    rewrite H1 in Hs |- *. apply spared_coexists; [done..| |done|].
    - intros Hi. apply Hf. rewrite <- Hi. apply list_elem_of_fmap. by exists r.
    - eapply newer_of_live; [done|]. apply elem_of_app. by left. }
  pose proof (newer_of_same n (t ++ [n])) as Hsame. split.
  - unfold inserted. fold f. rewrite map_app. apply NoDup_app. split; [done|]. split; [|apply NoDup_singleton].
    intros i Hi Hn. apply list_elem_of_singleton in Hn. apply Hf. rewrite map_map in Hi.
    rewrite (map_ext _ row_id) in Hi by (intros r; apply Hm). rewrite Hn in Hi.
    by assert (row_id (newer_of n (t ++ [n])%list) = row_id n) as <- by apply Hsame.
  - unfold inserted. fold f. intros r s [Hr|Hr%list_elem_of_singleton]%elem_of_app [Hs|Hs%list_elem_of_singleton]%elem_of_app;
      subst; intros Hne Hlr Hls Hk; [by apply Hb'|..|done].
    + rewrite Hsame in Hk |- *. apply Hx; [done..|]. by apply same_belief_sym.
    + rewrite Hsame in Hk |- *. apply coexist_sym; [by apply same_belief_sym in Hk as [? _]|]. by apply Hx.
Qed.

Lemma run_op_belief db o : belief (rows db) -> belief (rows (run_op db o)).
Proof.
  intros Hb. assert ((forall st c a, o <> OpStore st c a) \/ exists st c a, o = OpStore st c a) as [Ho|(st&c&a&->)]
    by (destruct o; eauto; by left).
  - revert Hb. apply (map_filter_cases (λ t u, belief t -> belief u)); auto using belief_filter.
    + intros t f Hf. apply belief_map. intros r. destruct (Hf r) as [->|[q ->]]; [done|]. by split.
    + intros t f Hf. apply belief_map. intros r. destruct (Hf r) as [->|[_ [q ->]]]; [done|]. by split.
  - cbn [run_op]. pose proof (insert_fact_rows st c a db (proj1 Hb)) as H.
    destruct (insert_fact st c a db) as [[i|e] db']; cbn [snd].
    + destruct H as (n&_&_&Hf&->). by apply belief_inserted.
    + by destruct H as [-> _].
Qed.

(** C8. Latest assertion wins, over every history of writes, retractions,
    erasures, prunings and reinforcements: ids stay unique, and two live rows of
    one subject, predicate, tenant, epoch and session were written by one
    extraction, at one time, say different things, and of a predicate that may
    hold several values. *)
Theorem latest_assertion_wins os :
  let db := run_ops (mkFactDb [] [] []) os in
  NoDup (map row_id (rows db)) /\
  forall r s, r ∈ rows db -> s ∈ rows db -> row_id r <> row_id s -> live r = true -> live s = true ->
    same_belief r s -> coexist r s.
Proof.
  cbv zeta. change (belief (rows (run_ops (mkFactDb [] [] []) os))). unfold run_ops.
  assert (belief (rows (mkFactDb [] [] []))) as H by apply belief_nil. revert H.
  generalize (mkFactDb [] [] []) as db. induction os as [|o os IH]; intros db H; [done|].
  cbn [fold_left]. by apply IH, run_op_belief.
Qed.

(** ** The chain of superseded rows *)

(** One row comes after another: asserted later, or at the same time and
    inserted later. *)
Definition after (x y : nat * FactRow) : bool := negb (newest_le x y).

Lemma after_spec i r j s :
  after (i, r) (j, s) = true <->
  (asserted_at (row_to_fact r) < asserted_at (row_to_fact s))%Q \/
  (asserted_at (row_to_fact r) == asserted_at (row_to_fact s))%Q /\ (i < j)%nat.
Proof.
  unfold after. rewrite negb_true_iff. unfold newest_le, at_of. cbn [fst snd].
  rewrite orb_false_iff, andb_false_iff, Qltb_ge, Nat.leb_gt. split.
  - intros [H1 [H2|H2]].
    + apply Qeq_bool_neq in H2. left. destruct (Qlt_le_dec (asserted_at (row_to_fact r)) (asserted_at (row_to_fact s)));
        [done|]. exfalso. apply H2. lra.
    + destruct (Qlt_le_dec (asserted_at (row_to_fact r)) (asserted_at (row_to_fact s))); [by left|right]. split; [lra|done].
  - intros [H|[H1 H2]]; (split; [lra|]); [left|by right]. apply not_true_iff_false. rewrite Qeq_bool_iff. lra.
Qed.

(** Every superseded row names a row of its key that comes after it. *)
Definition chained (t : list FactRow) : Prop :=
  forall i r d, t !! i = Some r -> superseded_by (row_to_fact r) = Some d ->
    exists j s, t !! j = Some s /\ row_id s = d /\ same_key s r = true /\ after (i, r) (j, s) = true.

Lemma same_key_sym r s : same_key r s = true -> same_key s r = true.
Proof. rewrite !same_key_spec. intuition congruence. Qed.

Lemma after_same_row i r r' j s s' :
  same_row r r' -> same_row s s' -> after (i, r) (j, s) = true -> after (i, r') (j, s') = true.
Proof. rewrite !after_spec. unfold same_row. intros. destruct_and!. congruence. Qed.

Lemma chained_inserted n t :
  superseded_by (row_to_fact n) = None -> chained t -> chained (inserted n t).
Proof.
  intros Hn Hc. unfold inserted. set (f := λ r, if older_live n r then set_superseded (row_id n) r else r).
  assert (forall r, same_row (f r) r) as Hf by (intros r; unfold f; by destruct (older_live n r)).
  assert (forall j s, t !! j = Some s -> (map f t ++ [newer_of n (t ++ [n])%list])%list !! j = Some (f s)) as Hold.
  { intros j s Hj. rewrite lookup_app_l by (rewrite length_map; by eapply lookup_lt_Some).
    by rewrite list_lookup_fmap, Hj. }
  assert ((map f t ++ [newer_of n (t ++ [n])%list])%list !! length t = Some (newer_of n (t ++ [n])%list)) as Hnew.
  { rewrite lookup_app_r by (by rewrite length_map). by rewrite length_map, Nat.sub_diag. }
  pose proof (newer_of_same n (t ++ [n])) as Hsame. intros i r d Hi Hd.
  destruct (decide (i < length t)%nat) as [Hlt|Hge].
  - destruct (lookup_lt_is_Some_2 t i Hlt) as [r0 Hr0]. rewrite (Hold _ _ Hr0) in Hi. injection Hi as <-.
    destruct (older_live n r0) eqn:Eo; unfold f in Hd; rewrite Eo in Hd.
    + injection Hd as <-. exists (length t), (newer_of n (t ++ [n])%list). split; [done|].
      split; [by apply Hsame|]. apply older_live_key in Eo as (Hk&_&_&Hle&_). split; [by rewrite Hsame, Hf|].
      eapply (after_same_row _ r0 _ _ n); [by symmetry|by symmetry|]. apply after_spec.
      destruct (Qlt_le_dec (asserted_at (row_to_fact r0)) (asserted_at (row_to_fact n))); [by left|right].
      split; [lra|done].
    + destruct (Hc i r0 d Hr0 Hd) as (j&s&Hj&Hs&Hk&Ha). exists j, (f s). split; [by apply Hold|].
      split; [rewrite <- Hs; apply Hf|]. split; [by rewrite !Hf|].
      eapply after_same_row; [by symmetry; apply Hf|by symmetry; apply Hf|done].
  - rewrite lookup_app_r in Hi by (rewrite length_map; lia). rewrite length_map in Hi.
    apply list_lookup_singleton_Some in Hi as [Hi <-]. assert (i = length t) as -> by lia.
    revert Hd. unfold newer_of at 1 3. pose proof (newer_id_spec n (t ++ [n])) as Hsp.
    destruct (newer_id n (t ++ [n])) as [d'|]; [|congruence]. intros [= <-].
    destruct Hsp as (j&s&Hj&Hs&Hl&_). assert (s <> n) as Hne by (intros ->; by rewrite newer_live_irrefl in Hl).
    destruct (decide (j < length t)%nat) as [Hjl|Hjg].
    + rewrite lookup_app_l in Hj by done. exists j, (f s). split; [by apply Hold|].
      split; [rewrite <- Hs; apply Hf|]. apply newer_live_key in Hl as (Hk&_&_&Hlt).
      split; [rewrite Hf; by apply same_key_sym|].
      eapply (after_same_row _ n _ _ s); [by symmetry|by symmetry|]. apply after_spec. by left.
    + rewrite lookup_app_r in Hj by lia. by apply list_lookup_singleton_Some in Hj as [_ ->].
Qed.

Lemma filter_length_lt {A} (p q : A -> bool) l y :
  (forall z, q z = true -> p z = true) -> y ∈ l -> p y = true -> q y = false ->
  (length (List.filter q l) < length (List.filter p l))%nat.
Proof.
  intros Hqp Hy Hp Hq. assert (forall k, length (List.filter q k) <= length (List.filter p k))%nat as Hle.
  { intros k. induction k as [|z k IH]; cbn [List.filter]; [lia|]. destruct (q z) eqn:E; [rewrite (Hqp _ E); cbn; lia|].
    destruct (p z); cbn [length]; lia. }
  induction l as [|z l IH]; [by apply not_elem_of_nil in Hy|]. apply elem_of_cons in Hy as [->|Hy]; cbn [List.filter].
  - rewrite Hp, Hq. cbn [length]. specialize (Hle l). lia.
  - specialize (IH Hy). destruct (q z) eqn:E; [rewrite (Hqp _ E); cbn; lia|]. destruct (p z); cbn [length]; lia.
Qed.

(** The row a row is superseded by. *)
Definition points (t : list FactRow) (r s : FactRow) : Prop :=
  r ∈ t /\ s ∈ t /\ superseded_by (row_to_fact r) = Some (row_id s).

Lemma chained_reaches t i r :
  chained t -> t !! i = Some r ->
  exists s, s ∈ t /\ live s = true /\ same_key s r = true /\ rtc (points t) r s /\
    (asserted_at (row_to_fact r) <= asserted_at (row_to_fact s))%Q.
Proof.
  intros Hc. remember (length (List.filter (after (i, r)) (numbered t))) as k eqn:Ek. revert i r Ek.
  induction (lt_wf k) as [k _ IH]. intros i r -> Hi. pose proof Hi as Hin%list_elem_of_lookup_2.
  destruct (superseded_by (row_to_fact r)) as [d|] eqn:E.
  - destruct (Hc i r d Hi E) as (j&s&Hj&Hs&Hk&Ha).
    edestruct (IH (length (List.filter (after (j, s)) (numbered t)))) as (u&Hu&Hl&Hku&Hr&Hle); [|done|exact Hj|].
    + apply (filter_length_lt _ _ _ (j, s)); [| |done|].
      * intros [l z] Hz. apply after_spec in Ha, Hz. apply after_spec. destruct Ha as [?|[? ?]], Hz as [?|[? ?]];
          [left; lra..|right]. split; [lra|lia].
      * by apply numbered_elem.
      * unfold after. apply negb_false_iff, newest_le_spec. right. split; [lra|lia].
    + exists u. split; [done|]. split; [done|]. split.
      { apply same_key_spec in Hk, Hku. apply same_key_spec. intuition congruence. }
      split.
      * eapply rtc_l; [|exact Hr]. split; [done|]. split; [by eapply list_elem_of_lookup_2|congruence].
      * apply after_spec in Ha. destruct Ha as [?|[? _]]; lra.
  - exists r. split; [done|]. split; [by apply bool_decide_eq_true|].
    split; [by apply same_key_spec|]. split; [apply rtc_refl|lra].
Qed.

Lemma chained_map t f :
  (forall r, same_row (f r) r /\ superseded_by (row_to_fact (f r)) = superseded_by (row_to_fact r)) ->
  chained t -> chained (map f t).
Proof.
  intros Hf Hc i r d Hi Hd. rewrite list_lookup_fmap in Hi. destruct (t !! i) as [r0|] eqn:E; [|done].
  injection Hi as <-. rewrite (proj2 (Hf r0)) in Hd. destruct (Hc i r0 d E Hd) as (j&s&Hj&Hs&Hk&Ha).
  exists j, (f s). rewrite list_lookup_fmap, Hj. split; [done|]. split; [rewrite <- Hs; apply Hf|].
  split; [by rewrite (proj1 (Hf s)), (proj1 (Hf r0))|].
  eapply after_same_row; [by symmetry; apply Hf|by symmetry; apply Hf|done].
Qed.

Definition is_store_or_mark (o : fact_op) : bool :=
  match o with OpStore _ _ _ | OpMark _ _ _ _ => true | _ => false end.

Lemma mark_recalled_chained st c ids at_ db : chained (rows db) -> chained (rows (mark_recalled st c ids at_ db)).
Proof.
  unfold mark_recalled. destruct ids as [|i ids]; [done|]. cbn [rows emit_audit set_rows].
  generalize (chunked (length (i :: ids)) MAX_IDS_PER_UPDATE (i :: ids)) as l. intros l. generalize (rows db) as t.
  induction l as [|k l IH]; intros t H; [done|]. cbn [fold_left]. apply IH. apply chained_map; [|done].
  intros r. by destruct (_ && _).
Qed.

Lemma checked_row_fresh st c a n :
  checked_row st c a = Ok n -> superseded_by (row_to_fact n) = None /\ row_id n = new_id c.
Proof.
  unfold checked_row. destruct (blank_text _); [done|]. destruct (arg_certainty a); try done.
  destruct (negb _); [done|]. intros (?&_&(?&_&(?&_&(?&_&[= <-])%rbind_Ok)%rbind_Ok)%rbind_Ok)%rbind_Ok. done.
Qed.

Lemma run_op_chained db o :
  is_store_or_mark o = true -> belief (rows db) -> chained (rows db) -> chained (rows (run_op db o)).
Proof.
  destruct o as [st c a|st c ids at_| | |]; try done; intros _ Hb Hc; cbn [run_op].
  - pose proof (insert_fact_rows st c a db (proj1 Hb)) as H.
    destruct (insert_fact st c a db) as [[i|e] db']; cbn [snd]; [|by destruct H as [-> _]].
    destruct H as (n&Hn&_&_&->). apply chained_inserted; [by eapply checked_row_fresh|done].
  - by apply mark_recalled_chained.
Qed.

(** C31. No belief is lost while facts are only written and reinforced, each call
    running to its end before the next begins: over every such history, from
    every row the chain of [superseded_by] leads, in the table and without a
    cycle, to a live row of the same key, asserted no earlier. Retraction and
    pruning, which remove rows, and writers that interleave at their awaits
    ([concurrent_ties_lose_both]) are outside the claim. *)
Theorem chain_ends_live os r :
  Forall (λ o, is_store_or_mark o = true) os ->
  let t := rows (run_ops (mkFactDb [] [] []) os) in
  r ∈ t ->
  exists s, s ∈ t /\ live s = true /\ same_key s r = true /\ rtc (points t) r s /\
    (asserted_at (row_to_fact r) <= asserted_at (row_to_fact s))%Q.
Proof.
  intros Hos. cbv zeta. intros [i Hi]%list_elem_of_lookup.
  assert (chained (rows (run_ops (mkFactDb [] [] []) os))) as Hc; [|by eapply chained_reaches].
  clear Hi. unfold run_ops.
  assert (belief (rows (mkFactDb [] [] []))) as Hb by apply belief_nil.
  assert (chained (rows (mkFactDb [] [] []))) as Hc by (intros j s d Hj; done).
  revert Hb Hc. generalize (mkFactDb [] [] []) as db. induction Hos as [|o os Ho _ IH]; intros db Hb Hc; [done|].
  cbn [fold_left]. apply IH; [by apply run_op_belief|by apply run_op_chained].
Qed.

(** ** Writes that interleave *)

(** Writers in flight, each with its call, over one table; a schedule names the
    one that runs its next statement. *)
Abbreviation writers := (list (FactCall * writer)).

Definition sched_step (s : writers * fact_db) (i : nat) : writers * fact_db :=
  match s.1 !! i with
  | Some (c, w) => let '(w', db') := write_step c w s.2 in (<[i := (c, w')]> s.1, db')
  | None => s
  end.

Definition run_schedule (ws : writers) (db : fact_db) (sched : list nat) : writers * fact_db :=
  fold_left sched_step sched (ws, db).

Definition demo_row (id obj source : string) : FactRow :=
  mkFactRow (mkFact id "ada" (codes "bob") "works_at" obj 1 (Some source) 100 None None "room-1" "internal" None)
    "local" "live" (Some source).

Definition demo_fact_call : FactCall := mkFactCall (Ambient None None None []) 100 None "f".

(** Two closes of one room write the same claim at the same instant. Run one
    after the other, the later write is live; statement by statement, each sweep
    sees the other's row and marks it, and neither stays live. *)
Lemma concurrent_ties_lose_both :
  let ws := [(demo_fact_call, ToInsert (demo_row "x" "acme" "i1")); (demo_fact_call, ToInsert (demo_row "y" "acme" "i2"))] in
  let db := mkFactDb [] [] [] in
  map live (rows (run_schedule ws db [0; 0; 0; 0; 0; 0; 1; 1; 1; 1; 1; 1]%nat).2) = [false; true] /\
  map live (rows (run_schedule ws db [0; 1; 0; 1; 0; 1; 0; 1; 0; 1; 0; 1]%nat).2) = [false; false].
Proof. split; vm_compute; reflexivity. Qed.

(** What a write may touch: rows of its key, of its session or the legacy one. *)
Definition in_reach (n r : FactRow) : Prop :=
  same_key n r = true /\ session_id (row_to_fact r) ∈ older_sessions (session_id (row_to_fact n)).

#[export] Instance in_reach_proper : Proper (same_row ==> same_row ==> iff) in_reach.
Proof. intros [[] ???] [[] ???] Hn [[] ???] [[] ???] Hr. unfold same_row in *. cbn in *. destruct_and!. by subst. Qed.

Lemma in_reach_self n : in_reach n n.
Proof.
  split; [by apply same_key_spec|]. unfold older_sessions. destruct (String.eqb _ _); left.
Qed.

(** The row of a writer in flight, and the ids it has read. *)
Definition writer_row (w : writer) : option FactRow :=
  match w with
  | ToInsert n | ToSweepOlder n | ToFindNewer n _ | ToMarkOlder n _ _ | ToMarkSelf n _ _ | ToAudit n _ _ => Some n
  | Written _ | Refused _ => None
  end.

Definition holds_older (n : FactRow) (older : list string) (t : list FactRow) : Prop :=
  forall i, i ∈ older -> exists r, r ∈ t /\ row_id r = i /\ in_reach n r.

Definition stored (n : FactRow) (t : list FactRow) : Prop := exists r, r ∈ t /\ same_row r n.

Definition writer_ok (t : list FactRow) (w : writer) : Prop :=
  match w with
  | ToSweepOlder n => stored n t
  | ToFindNewer n older | ToMarkOlder n older _ | ToMarkSelf n older _ => stored n t /\ holds_older n older t
  | _ => True
  end.

(** What a table becomes while writes run: rows are appended, none is removed,
    and only the pointer of a row some write reaches changes. *)
Definition grows (ns : list FactRow) (t t' : list FactRow) : Prop :=
  exists old new, t' = (old ++ new)%list /\
    Forall2 (λ r r', same_row r' r /\ (r' = r \/ exists n, n ∈ ns /\ in_reach n r) /\ (live r' = true -> live r = true)) t old /\
    Forall (λ r, exists n, n ∈ ns /\ same_row r n) new.

Lemma grows_refl ns t : grows ns t t.
Proof.
  exists t, []. rewrite app_nil_r. split; [done|]. split; [|constructor].
  apply Forall_Forall2_diag, Forall_forall. intros r _. split; [done|]. auto.
Qed.

Lemma grows_trans ns t u v : grows ns t u -> grows ns u v -> grows ns t v.
Proof.
  intros (o1&n1&->&F1&N1) (o2&n2&->&F2&N2). apply Forall2_app_inv_l in F2 as (o3&n3&F3&F4&->).
  exists o3, (n3 ++ n2)%list. split; [by rewrite app_assoc|]. split.
  - clear -F1 F3. revert o3 F3. induction F1 as [|r r' t o1 (H1&H2&H3) _ IH]; intros o3 F3;
      inversion F3 as [|? r'' ? ? (H4&H5&H6)]; subst; constructor; [|by apply IH].
    split; [by rewrite H4|]. split; [|auto]. destruct H5 as [->|(n&Hn&Hr)]; [done|]. right. exists n.
    split; [done|]. by rewrite H1 in Hr.
  - apply Forall_app. split; [|done]. clear -N1 F4. revert N1. induction F4 as [|r r' t o1 (H1&_) _ IH]; intros N1; [done|].
    apply Forall_cons in N1 as [(n&Hn&Hs) N1]. constructor; [|by apply IH]. exists n. split; [done|]. by rewrite H1.
Qed.

Lemma grows_elem ns t t' r : grows ns t t' -> r ∈ t -> exists r', r' ∈ t' /\ same_row r' r.
Proof.
  intros (old&new&->&F&_) Hr. apply list_elem_of_lookup in Hr as [i Hi].
  destruct (Forall2_lookup_l _ _ _ _ _ F Hi) as (r'&Hi'&Hs&_). exists r'. split; [|done].
  apply elem_of_app. left. by eapply list_elem_of_lookup_2.
Qed.

Lemma writer_ok_grows ns t t' w : grows ns t t' -> writer_ok t w -> writer_ok t' w.
Proof.
  intros Hg. assert (forall n, stored n t -> stored n t') as H1.
  { intros n (r&Hr&Hs). destruct (grows_elem _ _ _ _ Hg Hr) as (r'&Hr'&Hs'). exists r'. split; [done|]. by rewrite Hs'. }
  assert (forall n l, holds_older n l t -> holds_older n l t') as H2.
  { intros n l H i Hi. destruct (H i Hi) as (r&Hr&Hid&Hre). destruct (grows_elem _ _ _ _ Hg Hr) as (r'&Hr'&Hs').
    exists r'. split; [done|]. split; [rewrite <- Hid; apply Hs'|]. by rewrite Hs'. }
  destruct w; cbn [writer_ok]; naive_solver.
Qed.

(** Marking rows a write reaches. *)
Lemma supersede_rows_grows ns n agent by_ ids t :
  n ∈ ns -> (forall r, r ∈ t -> row_id r ∈ ids -> in_reach n r) -> grows ns t (supersede_rows agent by_ ids t).
Proof.
  intros Hn Hr. exists (supersede_rows agent by_ ids t), []. rewrite app_nil_r. split; [done|]. split; [|constructor].
  unfold supersede_rows. apply Forall2_fmap_r, Forall_Forall2_diag, Forall_forall. intros r Hin.
  unfold compose. destruct (String.eqb (agent_id (row_to_fact r)) agent && bool_decide (row_id r ∈ ids)) eqn:E; [|by split; [|auto]].
  apply andb_true_iff in E as [_ E%bool_decide_eq_true].
  split; [done|]. split; [right; by exists n; auto|done].
Qed.

Lemma supersede_rows_ids agent by_ ids t : map row_id (supersede_rows agent by_ ids t) = map row_id t.
Proof. unfold supersede_rows. rewrite map_map. apply map_ext. intros r. by destruct (_ && _). Qed.

(** A reached row is found by its id. *)
Lemma holds_older_reach n older t r :
  NoDup (map row_id t) -> holds_older n older t -> r ∈ t -> row_id r ∈ older -> in_reach n r.
Proof.
  intros Hn Ho Hr Hi. destruct (Ho _ Hi) as (s&Hs&Hid&Hre).
  by assert (s = r) as <- by (by eapply (NoDup_map_inj row_id)).
Qed.

Lemma stored_reach n t r : NoDup (map row_id t) -> stored n t -> r ∈ t -> row_id r ∈ [row_id n] -> in_reach n r.
Proof.
  intros Hn (s&Hs&Hsame) Hr Hi%list_elem_of_singleton.
  assert (s = r) as -> by (eapply (NoDup_map_inj row_id); [done..|]; rewrite Hi; apply Hsame).
  rewrite Hsame. apply in_reach_self.
Qed.

Lemma rows_set_rows t db : rows (set_rows t db) = t.
Proof. done. Qed.

Lemma write_step_grows ns c w db :
  NoDup (map row_id (rows db)) -> writer_ok (rows db) w -> (forall n, writer_row w = Some n -> n ∈ ns) ->
  let '(w', db') := write_step c w db in
  NoDup (map row_id (rows db')) /\ grows ns (rows db) (rows db') /\ writer_ok (rows db') w' /\
  (forall n, writer_row w' = Some n -> n ∈ ns).
Proof.
  intros Hn Hw Hr. destruct w as [n|n|n older|n older newer|n older newer|n older newer|i|e]; cbn [write_step];
    try pose proof (Hr n eq_refl) as Hns.
  - case_bool_decide as Hf; [split_and!; auto using grows_refl; by intros|]. cbn [rows set_rows writer_ok writer_row].
    split; [|split; [|split; [|done]]].
    + rewrite map_app. apply NoDup_app. split; [done|]. split; [|apply NoDup_singleton].
      intros i Hi Hx%list_elem_of_singleton. by subst.
    + exists (rows db), [n]. split; [done|]. split; [|constructor; [by exists n|constructor]].
      apply Forall_Forall2_diag, Forall_forall. intros r _. split; [done|]. auto.
    + exists n. split; [|done]. apply elem_of_app. right. left.
  - split; [done|]. split; [apply grows_refl|]. split; [|done]. split; [done|]. intros i Hi.
    unfold older_ids in Hi. apply list_elem_of_fmap in Hi as (r&->&Hin). apply list_elem_of_In, filter_In in Hin as [Hin Ho].
    exists r. apply list_elem_of_In in Hin. apply older_live_key in Ho as (?&_&?&_). by split_and!.
  - split_and!; auto using grows_refl.
  - destruct Hw as [H1 H2].
    assert (grows ns (rows db) (supersede_rows (agent_id (row_to_fact n)) (row_id n) older (rows db))) as Hg.
    { apply (supersede_rows_grows ns n); [done|]. intros r. by apply holds_older_reach. }
    destruct older as [|o older]; [split_and!; auto using grows_refl; by split|]. rewrite !rows_set_rows.
    split; [by rewrite supersede_rows_ids|]. split; [done|]. split; [|done].
    apply (writer_ok_grows ns _ _ (ToMarkSelf n (o :: older) newer) Hg). by split.
  - destruct Hw as [H1 H2]. destruct newer as [d|]; [|split_and!; auto using grows_refl; done]. cbn [rows set_rows].
    split; [by rewrite supersede_rows_ids|]. split; [|done]. apply (supersede_rows_grows ns n); [done|].
    intros r. by apply stored_reach.
  - rewrite emit_rows. split_and!; auto using grows_refl; done.
  - split_and!; auto using grows_refl; done.
  - split_and!; auto using grows_refl; done.
Qed.

Definition writers_ok (ns : list FactRow) (s : writers * fact_db) : Prop :=
  NoDup (map row_id (rows s.2)) /\
  forall k c w, s.1 !! k = Some (c, w) -> writer_ok (rows s.2) w /\ forall n, writer_row w = Some n -> n ∈ ns.

Lemma sched_step_ok ns s i :
  writers_ok ns s -> writers_ok ns (sched_step s i) /\ grows ns (rows s.2) (rows (sched_step s i).2).
Proof.
  intros [Hn Hw]. unfold sched_step. destruct (s.1 !! i) as [[c w]|] eqn:E; [|by split; [|apply grows_refl]].
  destruct (Hw i c w E) as [Hw1 Hw2]. pose proof (write_step_grows ns c w s.2 Hn Hw1 Hw2) as H.
  destruct (write_step c w s.2) as [w' db']. destruct H as (H1&H2&H3&H4). cbn [fst snd]. split; [|done].
  split; [done|]. cbn [fst snd]. intros k c' u Hk. destruct (decide (k = i)) as [->|Hne].
  - rewrite list_lookup_insert_eq in Hk by (by eapply lookup_lt_Some). by injection Hk as <- <-.
  - rewrite list_lookup_insert_ne in Hk by done. destruct (Hw k c' u Hk) as [Hu1 Hu2].
    split; [by eapply writer_ok_grows|done].
Qed.

(** However the statements of concurrent writes interleave, no row is
    removed or revived, and only its [superseded_by] can change, of a row some
    write reaches: one of its agent, subject, predicate, tenant and epoch, and of
    its session or the legacy one. Every other row is untouched; the rows added
    are those the writes insert; ids stay unique. *)
Theorem interleavings_stay_in_reach ns cs db sched :
  NoDup (map row_id (rows db)) ->
  let ws := zip_with (λ c n, (c, ToInsert n)) cs ns in
  let t' := rows (run_schedule ws db sched).2 in
  NoDup (map row_id t') /\
  exists old new, t' = (old ++ new)%list /\
    Forall2 (λ r r', same_row r' r /\ (live r' = true -> live r = true) /\
                     ((forall n, n ∈ ns -> ~ in_reach n r) -> r' = r)) (rows db) old /\
    Forall (λ r, exists n, n ∈ ns /\ same_row r n) new.
Proof.
  intros Hn. cbv zeta. set (ws := zip_with _ cs ns). assert (writers_ok ns (ws, db)) as Hw.
  { split; [done|]. intros k c w Hk. cbn [fst] in Hk. unfold ws in Hk. apply lookup_zip_with_Some in Hk as (c'&n&[= -> ->]&_&Hns).
    split; [done|]. intros m [= <-]. by eapply list_elem_of_lookup_2. }
  assert (writers_ok ns (run_schedule ws db sched) /\ grows ns (rows db) (rows (run_schedule ws db sched).2)) as [[H1 _] H2].
  { unfold run_schedule. change (rows db) with (rows (ws, db).2). revert Hw. generalize (ws, db) as s.
    induction sched as [|i sched IH]; intros s Hw; [by split; [|apply grows_refl]|]. cbn [fold_left].
    destruct (sched_step_ok ns s i Hw) as [Hw' Hg]. destruct (IH _ Hw') as [Hw'' Hg']. split; [done|].
    by eapply grows_trans. }
  split; [done|]. destruct H2 as (old&new&E&F&N). exists old, new. split; [done|]. split; [|done].
  eapply Forall2_impl; [exact F|]. intros r r' (Hs&Hc&Hl). split; [done|]. split; [done|].
  intros Hr. destruct Hc as [|(n&Hin&Hre)]; [done|]. by destruct (Hr n Hin).
Qed.

(** ** One write *)

(** A write does exactly this: refused, it leaves the table alone; accepted,
    it appends its row, marks with it the older live rows of its key and session
    (or of the legacy one) that were not written together with it, and, when a
    newer live row of its session exists, is itself marked by the newest such
    row; every other row stays. *)
Theorem store_exact st c a db :
  NoDup (map row_id (rows db)) ->
  match insert_fact st c a db with
  | (Raise e, db') => db' = db /\
      (checked_row st c a = Raise e \/ e = "IntegrityError" /\ new_id c ∈ map row_id (rows db))
  | (Ok i, db') => exists n old last_,
      checked_row st c a = Ok n /\ i = new_id c /\ new_id c ∉ map row_id (rows db) /\
      rows db' = (old ++ [last_])%list /\ same_row last_ n /\
      Forall2 (λ r r', r' = if older_live n r then set_superseded i r else r) (rows db) old /\
      match superseded_by (row_to_fact last_) with
      | None => forall s, s ∈ rows db -> newer_live n s = false
      | Some d => exists r, r ∈ rows db /\ row_id r = d /\ newer_live n r = true /\
          forall s, s ∈ rows db -> newer_live n s = true -> (asserted_at (row_to_fact s) <= asserted_at (row_to_fact r))%Q
      end
  end.
Proof.
  intros Hn. pose proof (insert_fact_rows st c a db Hn) as H. destruct (insert_fact st c a db) as [[i|e] db'].
  - destruct H as (n&Hc&->&Hf&Hr). destruct (checked_row_fresh st c a n Hc) as [Hs Hi]. rewrite Hi in *.
    exists n. eexists _, _. split; [done|]. split; [done|]. split; [done|]. split; [exact Hr|].
    split; [apply newer_of_same|]. split.
    { rewrite Hi. apply Forall2_fmap_r, Forall_Forall2_diag, Forall_forall. by intros. }
    unfold newer_of. pose proof (newer_id_spec n (rows db ++ [n])) as Hsp.
    destruct (newer_id n (rows db ++ [n])) as [d|]; cbn [superseded_by row_to_fact set_superseded].
    + destruct Hsp as (j&r&Hj&Hd&Hl&Hmax). exists r. split.
      * apply list_elem_of_lookup_2, elem_of_app in Hj as [|Hj]; [done|]. apply list_elem_of_singleton in Hj. subst r.
        by rewrite newer_live_irrefl in Hl.
      * split; [done|]. split; [done|]. intros s Hin. apply Hmax, elem_of_app. by left.
    + rewrite Hs. intros s Hin. apply Hsp, elem_of_app. by left.
  - destruct H as [-> H]. split; [done|]. destruct H as [H|(H&n&Hc&Hin)]; [by left|right]. split; [done|].
    by rewrite (proj2 (checked_row_fresh st c a n Hc)) in Hin.
Qed.

(** ** Witnesses *)

Definition demo_store : FactStore := mkFactStore "ada" (mkTierScope "room-1" "local" "live") validate_predicate.
Definition demo_fact (id obj source : string) (t : Q) : fact_op :=
  OpStore demo_store (mkFactCall (Ambient None None None []) t None id)
    (mkFactArgs (codes " Bob ") "works_at" obj (Some source) t (Fin 1) "room-1" "internal" None None None).

(** One extraction writes two facts, a later one a third. *)
Definition demo_facts : list fact_op :=
  [demo_fact "f1" "acme" "i1" 100; demo_fact "f2" "the night shift" "i1" 100; demo_fact "f3" "beta" "i2" 200].

Lemma latest_assertion_wins_witness :
  let t := rows (run_ops (mkFactDb [] [] []) (take 2 demo_facts)) in
  exists r s, t = [r; s] /\ live r = true /\ live s = true /\ coexist r s.
Proof.
  cbv zeta. eexists _, _. split; [vm_compute; reflexivity|]. split; [reflexivity|]. split; [reflexivity|].
  refine (proj2 (latest_assertion_wins (take 2 demo_facts)) _ _ _ _ _ _ _ _); try reflexivity.
  - assert (forall (l : list FactRow) r s, l = [r; s] -> r ∈ l) as H by (intros l r s ->; left).
    eapply H. vm_compute. reflexivity.
  - assert (forall (l : list FactRow) r s, l = [r; s] -> s ∈ l) as H by (intros l r s ->; right; left).
    eapply H. vm_compute. reflexivity.
  - discriminate.
  - split; reflexivity.
Defined.

Lemma chain_ends_live_witness :
  exists r s, head (rows (run_ops (mkFactDb [] [] []) demo_facts)) = Some r /\ live r = false /\
    live s = true /\ same_key s r = true /\ rtc (points (rows (run_ops (mkFactDb [] [] []) demo_facts))) r s.
Proof.
  edestruct (chain_ends_live demo_facts) as (s&_&H1&H2&H3&_).
  - repeat constructor.
  - assert (forall (l : list FactRow) r k, l = r :: k -> r ∈ l) as H by (intros l r k ->; left).
    eapply H. vm_compute. reflexivity.
  - eexists _, s. split; [vm_compute; reflexivity|]. split; [reflexivity|]. split; [exact H1|]. split; [exact H2|exact H3].
Defined.

Lemma interleavings_stay_in_reach_witness :
  let db := run_ops (mkFactDb [] [] []) demo_facts in
  NoDup (map row_id (rows db)) /\
  NoDup (map row_id (rows (run_schedule
    [(demo_fact_call, ToInsert (demo_row "x" "acme" "i3")); (demo_fact_call, ToInsert (demo_row "y" "acme" "i4"))]
    db [0; 1; 0; 1; 1; 0]%nat).2)).
Proof.
  assert (NoDup (map row_id (rows (run_ops (mkFactDb [] [] []) demo_facts)))) as H
    by (apply (bool_decide_unpack _); vm_compute; reflexivity).
  split; [exact H|].
  exact (proj1 (interleavings_stay_in_reach [demo_row "x" "acme" "i3"; demo_row "y" "acme" "i4"]
    [demo_fact_call; demo_fact_call] _ [0; 1; 0; 1; 1; 0]%nat H)).
Defined.

Lemma store_exact_witness :
  let db := run_ops (mkFactDb [] [] []) (take 1 demo_facts) in
  let a := mkFactArgs (codes "BOB") "works_at" "beta" (Some "i2") 200 (Fin 1) "room-1" "internal" None None None in
  let c := mkFactCall (Ambient None None None []) 200 None "f3" in
  exists n old last_, rows (insert_fact demo_store c a db).2 = (old ++ [last_])%list /\ same_row last_ n /\
    map live old = [false].
Proof.
  cbv zeta. set (db := run_ops _ _). set (a := mkFactArgs _ _ _ _ _ _ _ _ _ _ _). set (c := mkFactCall _ _ _ "f3").
  assert (NoDup (map row_id (rows db))) as H by (apply (bool_decide_unpack _); vm_compute; reflexivity).
  pose proof (store_exact demo_store c a db H) as E.
  destruct (insert_fact demo_store c a db) as [[i|e] db'] eqn:Ei; [|vm_compute in Ei; discriminate Ei].
  destruct E as (n&old&last_&_&_&_&Hr&Hs&Ho&_). exists n, old, last_. split; [exact Hr|]. split; [exact Hs|].
  vm_compute in Ei. injection Ei as _ <-. cbn [rows] in Hr.
  destruct old as [|o1 [|o2 [|o3 old]]]; try discriminate Hr; injection Hr as <- _; reflexivity.
Defined.
