(* ===== verification/FactsRecall.v ===== *)
(** * Reading and erasing facts

    What [recall], [topic_subjects], [mark_recalled] and [delete_by_subject] of
    [Facts] answer and leave behind. *)

From Stdlib Require Import Ascii Sorted.
From stdpp Require Import sorting.
From S2P Require Import Prelude PyStr PyDict PyValue PyFloat PySort MemoryEvents Ambient RowScope FactPredicates Facts FactsProps.
Local Open Scope string_scope.
Local Open Scope py_scope.

(** ** Taking from both ends in turn *)

(** The first, the last, the second, the last but one, and so on. *)
Fixpoint alternate {A} (k : nat) (l : list A) : list A :=
  match k, l with
  | S k, x :: l => x :: alternate k (reverse l)
  | _, _ => []
  end.

Lemma alternate_perm {A} k (l : list A) : k = length l -> alternate k l ≡ₚ l.
Proof.
  revert l. induction k as [|k IH]; intros [|x l] H; try done. cbn [alternate]. f_equiv.
  rewrite IH; [apply reverse_Permutation|]. rewrite length_reverse. by injection H.
Qed.

Lemma alternate_map {A B} (g : A -> B) k l : alternate k (map g l) = map g (alternate k l).
Proof.
  revert l. induction k as [|k IH]; intros [|x l]; try done. cbn [alternate map]. f_equal.
  by rewrite <- IH, <- fmap_reverse.
Qed.

Section positions.
Context (n : nat).

(** Positions 1 to [n] in the order of [both_ends]. *)
Definition end_le (i j : nat) : Prop :=
  (Nat.min i (n + 1 - i) < Nat.min j (n + 1 - j))%nat \/
  Nat.min i (n + 1 - i) = Nat.min j (n + 1 - j) /\ (i <= j)%nat.

Lemma alternate_seq k lo :
  (1 <= lo)%nat ->
  ((lo + lo + k = n + 2)%nat -> StronglySorted end_le (alternate k (seq lo k))) /\
  ((lo + lo + k = n + 3)%nat -> StronglySorted end_le (alternate k (reverse (seq lo k)))).
Proof.
  revert lo. induction k as [|k IH]; intros lo Hlo; [by split; constructor|]. split; intros H.
  - cbn [seq alternate]. destruct (IH (S lo)) as [_ IH2]; [lia|]. constructor; [apply IH2; lia|].
    apply Forall_forall. intros i Hi. rewrite alternate_perm in Hi by (by rewrite length_reverse, length_seq).
    rewrite reverse_Permutation in Hi. apply elem_of_seq in Hi. unfold end_le. lia.
  - rewrite seq_S, reverse_snoc. cbn [alternate]. rewrite reverse_involutive.
    destruct (IH lo) as [IH1 _]; [done|]. constructor; [apply IH1; lia|].
    apply Forall_forall. intros i Hi. rewrite alternate_perm in Hi by (by rewrite length_seq).
    apply elem_of_seq in Hi. unfold end_le. lia.
Qed.
End positions.

Lemma oldest_le_total a b : oldest_le a b = false -> oldest_le b a = true.
Proof. apply newest_le_total. Qed.
Lemma oldest_le_trans a b c : oldest_le a b = true -> oldest_le b c = true -> oldest_le a c = true.
Proof. unfold oldest_le. eauto using newest_le_trans. Qed.

Lemma StronglySorted_reverse {A} (R : A -> A -> Prop) l :
  StronglySorted R l -> StronglySorted (λ a b, R b a) (reverse l).
Proof.
  induction 1 as [|x l Hs IH Hx]; [constructor|]. rewrite reverse_cons.
  apply StronglySorted_app_2; [|done|by repeat constructor].
  intros a b Ha Hb%list_elem_of_singleton. subst. rewrite Forall_forall in Hx. apply Hx. by rewrite elem_of_reverse in Ha.
Qed.

Section both_ends.
Context (l : list (nat * FactRow)) (Hl : NoDup (map fst l)).

Lemma row_inj x y : x ∈ l -> y ∈ l -> x.1 = y.1 -> x = y.
Proof. intros. by eapply (NoDup_map_inj fst). Qed.

Lemma newest_le_antisym x y : x ∈ l -> y ∈ l -> newest_le x y = true -> newest_le y x = true -> x = y.
Proof. rewrite !newest_le_spec. intros Hx Hy H1 H2. apply row_inj; [done..|]. destruct H1 as [?|[? ?]], H2 as [?|[? ?]]; lra || lia. Qed.

Lemma oldest_is_reverse : py_sorted oldest_le l = reverse (py_sorted newest_le l).
Proof.
  apply (StronglySorted_unique_strong (λ a b, oldest_le a b = true)).
  - intros x y Hx Hy H1 H2. rewrite elem_of_py_sorted in Hx. rewrite elem_of_reverse, elem_of_py_sorted in Hy.
    by apply newest_le_antisym.
  - apply py_sorted_sorted; [apply oldest_le_total|apply oldest_le_trans].
  - apply (StronglySorted_reverse (λ a b, newest_le a b = true)), py_sorted_sorted; eauto with py.
  - by rewrite reverse_Permutation, !py_sorted_perm.
Qed.

Lemma row_number_app_fresh k1 k2 x :
  (forall y, y ∈ k1 -> y.1 <> x.1) -> row_number (k1 ++ x :: k2) x = S (length k1).
Proof.
  induction k1 as [|y k1 IH]; intros H; cbn [app row_number]; [by rewrite Nat.eqb_refl|].
  rewrite (proj2 (Nat.eqb_neq _ _)) by (intros E; by apply (H y); [left|]). rewrite IH; [done|].
  intros z Hz. apply H. by right.
Qed.

(** The row number of a row is its position, and from the other end the
    complement. *)
Lemma row_number_position k i x :
  NoDup (map fst k) -> k !! i = Some x ->
  row_number k x = S i /\ row_number (reverse k) x = (length k - i)%nat.
Proof.
  intros Hk Hi. pose proof (list_elem_of_split_length _ _ _ Hi) as (k1&k2&E&Hlen). subst k i.
  rewrite map_app in Hk. apply NoDup_app in Hk as (_&Hd&H2). cbn [map] in Hd, H2. apply NoDup_cons in H2 as [H2 _].
  split.
  - apply row_number_app_fresh. intros y Hy E. apply (Hd (y.1)); [by apply (list_elem_of_fmap_2 fst)|rewrite E; left].
  - rewrite reverse_app, reverse_cons, <- app_assoc. cbn [app]. rewrite row_number_app_fresh.
    + rewrite length_reverse, length_app. cbn [length]. lia.
    + intros y Hy E. rewrite elem_of_reverse in Hy. apply H2. rewrite <- E. by apply (list_elem_of_fmap_2 fst).
Qed.

Lemma StronglySorted_map {A B} (R : A -> A -> Prop) (S : B -> B -> Prop) (g : A -> B) k :
  (forall a b, a ∈ k -> b ∈ k -> R a b -> S (g a) (g b)) -> StronglySorted R k -> StronglySorted S (map g k).
Proof.
  intros H Hs. induction Hs as [|x k Hs IH Hx]; [constructor|]. cbn [map]. constructor.
  - apply IH. intros a b Ha Hb. apply H; by right.
  - apply Forall_forall. intros y (a&->&Ha)%list_elem_of_fmap. rewrite Forall_forall in Hx.
    apply H; [left|by right|by apply Hx].
Qed.

(** The positions from 1 on, as rows. *)
Lemma map_positions {A} (d : A) k : map (λ i, nth (i - 1) k d) (seq 1 (length k)) = k.
Proof.
  rewrite <- seq_shift, map_map. transitivity (map (λ i, nth i k d) (seq 0 (length k))).
  - apply map_ext. intros i. f_equal. lia.
  - induction k as [|x k IH]; [done|]. cbn [length seq map nth]. f_equal. by rewrite <- seq_shift, map_map.
Qed.

(** The two numberings of the query pick the rows from the two ends in turn. *)
Lemma both_ends_alternate : both_ends l = alternate (length l) (py_sorted newest_le l).
Proof.
  unfold both_ends. rewrite oldest_is_reverse. set (k := py_sorted newest_le l).
  assert (length k = length l) as Hlen by apply length_py_sorted.
  assert (NoDup (map fst k)) as Hk by (unfold k; by rewrite py_sorted_perm).
  assert (forall x, x ∈ k <-> x ∈ l) as Hel by (intros x; apply elem_of_py_sorted).
  rewrite <- Hlen. assert (forall x, x ∈ k -> exists i, (i < length k)%nat /\ row_number k x = S i /\
    row_number (reverse k) x = (length k - i)%nat /\ k !! i = Some x) as Hpos.
  { intros x [i Hi]%list_elem_of_lookup. destruct (row_number_position k i x Hk Hi) as [H1 H2]. exists i.
    split_and!; [by eapply lookup_lt_Some|done..]. }
  apply (StronglySorted_unique_strong (λ a b, ends_le k (reverse k) a b = true)).
  - intros x y Hx Hy. rewrite elem_of_py_sorted in Hx. rewrite alternate_perm in Hy by done. apply Hel in Hx.
    destruct (Hpos x Hx) as (i&Hi&E1&_&Ex), (Hpos y Hy) as (j&Hj&E2&_&Ey).
    unfold ends_le. rewrite E1, E2, !orb_true_iff, !andb_true_iff, !Nat.ltb_lt, !Nat.eqb_eq, !Nat.leb_le. intros H1 H2.
    assert (i = j) as -> by lia. congruence.
  - apply py_sorted_sorted.
    + intros x y. unfold ends_le. rewrite !orb_false_iff, !orb_true_iff, !andb_false_iff, !andb_true_iff.
      rewrite !Nat.ltb_ge, !Nat.ltb_lt, !Nat.eqb_neq, !Nat.eqb_eq, !Nat.leb_gt, !Nat.leb_le. lia.
    + intros x y z. unfold ends_le. rewrite !orb_true_iff, !andb_true_iff, !Nat.ltb_lt, !Nat.eqb_eq, !Nat.leb_le. lia.
  - destruct k as [|d k'] eqn:E; [constructor|]. rewrite <- E in *. clear E k'.
    replace (alternate (length k) k) with (map (λ i, nth (i - 1) k d) (alternate (length k) (seq 1 (length k))))
      by (by rewrite <- alternate_map, map_positions).
    apply (StronglySorted_map (end_le (length k))).
    + intros i j. rewrite !alternate_perm by (by rewrite length_seq). rewrite !elem_of_seq. intros Hi Hj Hle.
      assert (forall m, (1 <= m < 1 + length k)%nat -> row_number k (nth (m - 1) k d) = m /\
        row_number (reverse k) (nth (m - 1) k d) = (length k + 1 - m)%nat) as Hm.
      { intros m Hm. destruct (lookup_lt_is_Some_2 k (m - 1)) as [x Hx]; [lia|].
        rewrite (nth_lookup_Some _ _ _ _ Hx). destruct (row_number_position k (m - 1) x Hk Hx) as [-> ->]. lia. }
      unfold ends_le. destruct (Hm i Hi) as [-> ->], (Hm j Hj) as [-> ->].
      rewrite orb_true_iff, andb_true_iff, Nat.ltb_lt, Nat.eqb_eq, Nat.leb_le. exact Hle.
    + apply alternate_seq; lia.
  - rewrite py_sorted_perm, alternate_perm by done. unfold k. by rewrite py_sorted_perm.
Qed.
End both_ends.

(** ** Reading *)

Lemma filter_map_NoDup {A B} (g : A -> B) (p : A -> bool) l : NoDup (map g l) -> NoDup (map g (List.filter p l)).
Proof.
  induction l as [|x l IH]; intros H; [done|]. cbn [map List.filter] in *. apply NoDup_cons in H as [H1 H2].
  destruct (p x); [|auto]. cbn [map]. apply NoDup_cons. split; [|auto].
  intros (y&E&Hy)%list_elem_of_fmap. apply H1, list_elem_of_fmap. exists y. split; [done|].
  apply list_elem_of_In. apply list_elem_of_In in Hy. by apply filter_In in Hy as [? _].
Qed.

Lemma numbered_ids t : NoDup (map fst (numbered t)).
Proof.
  unfold numbered. assert (map fst (imap pair t) = seq 0 (length t)) as ->; [|apply NoDup_seq].
  apply list_eq. intros i. change (map fst (imap pair t)) with (fst <$> imap pair t).
  rewrite list_lookup_fmap, list_lookup_imap.
  destruct (t !! i) eqn:E; cbn.
  - by rewrite lookup_seq_lt by (by eapply lookup_lt_Some).
  - symmetry. apply lookup_seq_ge. by apply lookup_ge_None.
Qed.

(** What a read lists is stored, in scope and under the subject asked for. *)
Lemma recall_elem st c subj limit inc sessions preds order db fs f :
  recall st c subj limit inc sessions preds order db = Ok fs -> f ∈ fs ->
  exists r s sess, r ∈ rows db /\ f = row_to_fact r /\ canonicalize_subject subj = Ok s /\ subject f = s /\
    resolve_session_list (amb c) sessions (active_session_id (store_scope st)) = Ok sess /\
    (inc = true \/ live r = true) /\ readable st c sess preds r = true.
Proof.
  unfold recall. destruct (limit <? 1)%Z; [done|]. destruct (negb _); [done|].
  intros (s&Hs&(sess&Hse&[= <-])%rbind_Ok)%rbind_Ok (x&->&Hx)%list_elem_of_fmap.
  eapply elem_of_submseteq in Hx; [|apply sublist_submseteq, sublist_take].
  assert (x ∈ List.filter (λ x, bool_decide (subject (row_to_fact x.2) = s) && (inc || live x.2) &&
    readable st c sess preds x.2) (numbered (rows db))) as Hin.
  { destruct (String.eqb order "both_ends"); [unfold both_ends in Hx|]; by rewrite py_sorted_perm in Hx. }
  apply list_elem_of_In, filter_In in Hin as [Hin Hp]. destruct x as [i r].
  apply list_elem_of_In, numbered_elem, list_elem_of_lookup_2 in Hin. cbn [snd] in *.
  rewrite !andb_true_iff, orb_true_iff, bool_decide_eq_true in Hp. exists r, s, sess. tauto.
Qed.

(** A read of a subject: what it can list is exactly the facts stored under
    the subject's canonical form by this agent, tenant and epoch, in the
    sessions and predicates asked for, live unless the superseded are asked for
    too; newest first, or from the two ends in turn; at most the limit, and
    never more than 100. A bad limit, order, subject or session list is
    refused. *)
Theorem recall_exact st c subj limit inc sessions preds order db :
  match recall st c subj limit inc sessions preds order db with
  | Ok fs => (1 <= limit)%Z /\ exists s sess l,
      canonicalize_subject subj = Ok s /\
      resolve_session_list (amb c) sessions (active_session_id (store_scope st)) = Ok sess /\
      (forall f, f ∈ l <-> exists r, r ∈ rows db /\ f = row_to_fact r /\ subject f = s /\
         (inc = true \/ live r = true) /\ readable st c sess preds r = true) /\
      StronglySorted (λ a b, asserted_at b <= asserted_at a)%Q l /\
      fs = take (Z.to_nat (Z.min limit MAX_RECALL_LIMIT))
             (if String.eqb order "both_ends" then alternate (length l) l else l)
  | Raise e => (limit < 1)%Z \/ order ∉ ["newest"; "both_ends"] \/ canonicalize_subject subj = Raise e \/
      resolve_session_list (amb c) sessions (active_session_id (store_scope st)) = Raise e
  end.
Proof.
  unfold recall. destruct (limit <? 1)%Z eqn:El; [left; lia|]. apply Z.ltb_ge in El.
  case_bool_decide as Ho; cbn [negb]; [|auto]. destruct (canonicalize_subject subj) as [s|e]; cbn [rbind]; [|auto].
  destruct (resolve_session_list _ _ _) as [sess|e]; cbn [rbind]; [|auto]. cbv zeta.
  set (found := List.filter _ _). split; [done|].
  exists s, sess, (map (λ x, row_to_fact x.2) (py_sorted newest_le found)).
  split; [done|]. split; [done|]. split; [|split].
  - intros f. rewrite list_elem_of_fmap. split.
    + intros ([i r]&->&Hin). rewrite elem_of_py_sorted in Hin. apply list_elem_of_In, filter_In in Hin as [Hin Hp].
      apply list_elem_of_In, numbered_elem, list_elem_of_lookup_2 in Hin. cbn [snd] in *.
      rewrite !andb_true_iff, orb_true_iff, bool_decide_eq_true in Hp. exists r. tauto.
    + intros (r&Hr&->&Hs&Hl&Hp). apply list_elem_of_lookup in Hr as [i Hi]. exists (i, r). split; [done|].
      rewrite elem_of_py_sorted. apply list_elem_of_In, filter_In. split; [by apply list_elem_of_In, numbered_elem|].
      cbn [snd]. by rewrite !andb_true_iff, orb_true_iff, bool_decide_eq_true.
  - apply (StronglySorted_map (λ a b, newest_le a b = true)); [|apply py_sorted_sorted; eauto with py].
    intros x y _ _ H. apply newest_le_spec in H. unfold at_of in H. destruct H as [?|[? _]]; lra.
  - destruct (String.eqb order "both_ends").
    + rewrite both_ends_alternate by (apply filter_map_NoDup, numbered_ids).
      rewrite length_map, alternate_map, length_py_sorted. symmetry. apply firstn_map.
    + symmetry. apply firstn_map.
Qed.

(** ** Reinforcement *)

Lemma chunked_concat fuel size ids :
  (0 < size)%nat -> (length ids <= fuel)%nat -> concat (chunked fuel size ids) = ids.
Proof.
  intros Hs. revert ids. induction fuel as [|fuel IH]; intros [|i ids] H; cbn [chunked concat length] in *; try done; [lia|].
  rewrite IH; [apply take_drop|]. rewrite length_drop. cbn [length]. lia.
Qed.

Lemma fmax_idem a b : fmax (fmax a b) b = fmax a b.
Proof.
  unfold fmax. destruct (Qltb a b) eqn:E; [|by rewrite E].
  destruct (Qltb b b) eqn:F; [|done]. apply Qltb_lt in F. lra.
Qed.

(** Marking chunk by chunk is marking once: an id in two chunks changes nothing. *)
Lemma recall_rows_chunks agent ts chunks t :
  fold_left (recall_rows agent ts) chunks t = recall_rows agent ts t (concat chunks).
Proof.
  revert t. induction chunks as [|k chunks IH]; intros t; cbn [fold_left concat].
  - unfold recall_rows. rewrite <- (map_id t) at 1. apply map_ext. intros r.
    by rewrite bool_decide_false, andb_false_r by apply not_elem_of_nil.
  - rewrite IH. unfold recall_rows. rewrite map_map. apply map_ext. intros r.
    destruct (String.eqb (agent_id (row_to_fact r)) agent) eqn:E; cbn [andb]; [|by rewrite E].
    destruct (decide (row_id r ∈ k)) as [Hk|Hk].
    + rewrite (bool_decide_true (row_id r ∈ k)) by done. rewrite (bool_decide_true (row_id r ∈ k ++ _)%list) by set_solver.
      destruct (_ && _); [|done]. unfold set_recalled, recalled_at. cbn. by rewrite fmax_idem.
    + rewrite (bool_decide_false (row_id r ∈ k)) by done. rewrite E. cbn [andb].
      destruct (decide (row_id r ∈ concat chunks)).
      * rewrite !bool_decide_true by set_solver. done.
      * rewrite !bool_decide_false by set_solver. done.
Qed.

(** Reinforcement marks exactly the named rows of this agent, however many
    statements it takes, and moves their time of recall forwards only. *)
Theorem mark_recalled_exact st c ids at_ db :
  rows (mark_recalled st c ids at_ db) =
    map (λ r, if String.eqb (agent_id (row_to_fact r)) (store_agent st) && bool_decide (row_id r ∈ ids)
              then set_recalled (recalled_at (default (now c) at_) r) r else r) (rows db) /\
  forall r, (default 0 (last_recalled_at (row_to_fact r)) <= recalled_at (default (now c) at_) r)%Q.
Proof.
  split.
  - unfold mark_recalled. destruct ids as [|i ids].
    + rewrite <- (map_id (rows db)) at 1. apply map_ext. intros r.
      by rewrite bool_decide_false, andb_false_r by apply not_elem_of_nil.
    + cbn [rows emit_audit set_rows]. rewrite recall_rows_chunks, chunked_concat; [done| |done].
      unfold MAX_IDS_PER_UPDATE. lia.
  - intros r. unfold recalled_at. apply fmax_spec.
Qed.

(** ** Erasure *)

Lemma filter_length_split {A} (p : A -> bool) l :
  (length (List.filter p l) + length (List.filter (λ x, negb (p x)) l) = length l)%nat.
Proof. induction l as [|x l IH]; [done|]. cbn [List.filter]. destruct (p x); cbn [negb length]; lia. Qed.

(** Erasing a subject deletes, of this agent and tenant, the facts about it
    and the facts drawn from the interaction of that id, in every session and
    epoch, and nothing else; the two counts are disjoint and add up to the rows
    deleted. A blank subject is refused. *)
Theorem erasure_exact st c sid db :
  match delete_by_subject st c sid db with
  | (Raise e, db') => db' = db /\ spaces (codes sid)
  | (Ok (a, b), db') => exists s, canonicalize_subject (codes sid) = Ok s /\
      let mine r := String.eqb (agent_id (row_to_fact r)) (store_agent st) &&
        principal_eq (resolve_active_principal (amb c) (active_principal_id (store_scope st))) (principal_id r) in
      (forall r, r ∈ rows db' <-> r ∈ rows db /\
         ~ (mine r = true /\ (subject (row_to_fact r) = s \/ source_interaction_id (row_to_fact r) = Some sid))) /\
      (a + b = Z.of_nat (length (rows db)) - Z.of_nat (length (rows db')))%Z /\
      a = Z.of_nat (length (List.filter (λ r, mine r && bool_decide (subject (row_to_fact r) = s)) (rows db)))
  end.
Proof.
  unfold delete_by_subject. pose proof (canonical_subject_refusal (codes sid)) as Hr.
  destruct (canonicalize_subject (codes sid)) as [s|e]; [|by split; [|eapply Hr]]. cbn [delete_rows rows set_rows].
  exists s. split; [done|]. cbv zeta. split; [|split].
  - intros r. rewrite !list_elem_of_In, !filter_In, !negb_true_iff.
    rewrite <- !not_true_iff_false, !andb_true_iff, !bool_decide_eq_true. tauto.
  - match goal with |- (Z.of_nat (length (List.filter ?p ?l)) + Z.of_nat (length (List.filter ?q ?k)) = _)%Z =>
      pose proof (filter_length_split p l); pose proof (filter_length_split q k) end.
    lia.
  - f_equal. f_equal. apply filter_ext. intros r.
    destruct (String.eqb _ _), (bool_decide _), (principal_eq _ _); done.
Qed.
