(* ===== verification/FactEnvelope.v ===== *)
(** * The answer of the summarize-and-extract call

    Models [agents/persona_runtime/fact_envelope.py]: unwrapping a code fence,
    splitting the envelope into its summary and its facts, the best-effort
    projections, and the shape check of the facts. [json.loads] and
    [json.dumps] are parameters: [loads] gives a parsed value, or [None] on a
    [JSONDecodeError]. A [FactsParseError] is its [reason]. *)

From Stdlib Require Import Ascii.
From S2P Require Import Prelude PyStr PyText PyDict PyValue.
Local Open Scope string_scope.
Local Open Scope py_scope.

Definition FENCE : string := "```".
Definition newline : ascii := "010".

(** [text[text.find("\n") + 1:]], [None] without a newline *)
Fixpoint after_newline (s : string) : option string :=
  match s with
  | EmptyString => None
  | String c s' => if Ascii.eqb c newline then Some s' else after_newline s'
  end.

(** [s[:s.rfind(p)]], [None] where [p] is not found *)
Fixpoint before_last (p s : string) : option string :=
  match s with
  | EmptyString => None
  | String c s' =>
      match before_last p s' with
      | Some t => Some (String c t)
      | None => if startswith p s then Some EmptyString else None
      end
  end.

Definition _strip_code_fence (text : string) : string :=
  if negb (startswith FENCE text) then text
  else
    match after_newline text with
    | None => text
    | Some inner => strip (default inner (before_last FENCE inner))
    end.

(** [text[:1] in {"{", "["}] *)
Definition looks_like_envelope (text : string) : bool :=
  match text with String c _ => Ascii.eqb c "{" || Ascii.eqb c "[" | EmptyString => false end.

Section json.
Context (loads : string -> option pyval) (dumps : pyval -> string).

(** Raises with the [reason] slot. *)
Definition split_combined_response (raw : string) : result (option string) (string * string) :=
  let text := strip raw in
  if negb (truthy text) then Raise None
  else
    let text := _strip_code_fence text in
    match loads text with
    | None => Raise (if looks_like_envelope text then Some "truncated" else None)
    | Some (VDict envelope) =>
        match dget "summary" envelope with
        | None => Raise (Some "missing_summary")
        | Some (VStr summary) => Ok (summary, dumps (dget_or "facts" (VList []) envelope))
        | Some _ => Raise (Some "missing_summary")
        end
    | Some _ => Raise (Some "invalid_envelope")
    end.

Definition add_projection (projections : pydict) (out : list (string * string)) (level : string) :
    list (string * string) :=
  match dget level projections with
  | Some (VStr value) => if truthy (strip value) then dset level (strip value) out else out
  | _ => out
  end.

Definition extract_projections (raw : string) (levels : list string) : list (string * string) :=
  match loads (_strip_code_fence (strip raw)) with
  | Some (VDict envelope) =>
      match dget "projections" envelope with
      | Some (VDict projections) => fold_left (add_projection projections) levels []
      | _ => []
      end
  | _ => []
  end.

(** Each element as a [dict]. *)
Fixpoint dict_items (l : list pyval) : result (option string) (list pydict) :=
  match l with
  | [] => Ok []
  | VDict d :: l => let! ds := dict_items l in Ok (d :: ds)
  | _ :: _ => Raise None
  end.

Definition parse_facts_payload (raw : string) : result (option string) (list pydict) :=
  let text := strip raw in
  if negb (truthy text) then Raise None
  else
    match loads text with
    | Some (VList payload) => dict_items payload
    | _ => Raise None
    end.

(** ** Fences *)

Lemma after_newline_app lang s :
  after_newline lang = None -> after_newline (lang +:+ String newline s) = Some s.
Proof.
  induction lang as [|c lang IH]; rewrite ?app_empty, ?app_cons; cbn [after_newline]; [done|].
  destruct (Ascii.eqb c newline); [done|apply IH].
Qed.

Lemma before_last_fence s : before_last FENCE (s +:+ FENCE) = Some s.
Proof. induction s as [|c s IH]; [done|]. rewrite app_cons. cbn [before_last]. by rewrite IH. Qed.

(** A text opened by a fence, its tag on the line of the fence. *)
Definition opened (lang body : string) : string := FENCE +:+ lang +:+ String newline body.
Definition fenced (lang body : string) : string := opened lang (body +:+ String newline FENCE).

Lemma strip_fence_opened lang body :
  after_newline lang = None ->
  _strip_code_fence (opened lang body) = strip (default body (before_last FENCE body)).
Proof.
  intros Hl. unfold _strip_code_fence, opened. rewrite startswith_app. cbn [negb].
  rewrite app_assoc_str, after_newline_app; [done|]. exact Hl.
Qed.

Lemma strip_fence_fenced lang body :
  after_newline lang = None -> strip body = body -> _strip_code_fence (fenced lang body) = body.
Proof.
  intros Hl Hb. unfold fenced. rewrite strip_fence_opened by done.
  change (String newline FENCE) with (String newline "" +:+ FENCE).
  rewrite app_assoc_str, before_last_fence. cbn [default from_option id].
  by rewrite strip_app_space.
Qed.

Lemma strip_fenced lang body : strip (fenced lang body) = fenced lang body.
Proof.
  assert (fenced lang body =
    String "`" ((("``" +:+ lang) +:+ String newline (body +:+ String newline "``")) +:+ String "`" "")) as ->.
  { rewrite <- !app_assoc_str, (app_cons newline), <- !app_assoc_str. done. }
  by apply strip_head_last.
Qed.

Lemma rstrip_ends t : t <> "" -> rstrip t = t -> exists s d, t = s +:+ String d "" /\ is_space d = false.
Proof.
  induction t as [|c t IH]; intros Hn H; [done|]. cbn [rstrip] in H. destruct t as [|e t].
  - cbn [rstrip] in H. destruct (is_space c) eqn:Hc; [done|]. by exists "", c.
  - destruct (rstrip (String e t)) as [|f r] eqn:E; [by destruct (is_space c)|].
    destruct IH as (s&d&Hs&Hd); [done|congruence|]. exists (String c s), d. split; [|done]. by rewrite Hs, app_cons.
Qed.

Lemma strip_opened lang body : body <> "" -> strip body = body -> strip (opened lang body) = opened lang body.
Proof.
  intros Hn Hb. destruct (rstrip_ends body) as (s&d&->&Hd); [done|by rewrite <- Hb; apply rstrip_rstrip|].
  assert (opened lang (s +:+ String d "") =
    String "`" ((("``" +:+ lang) +:+ String newline s) +:+ String d "")) as ->.
  { rewrite <- !app_assoc_str, (app_cons newline). done. }
  by apply strip_head_last.
Qed.

Lemma opened_truthy lang body : truthy (opened lang body) = true.
Proof. done. Qed.

(** A code fence around an answer changes nothing: an envelope between fences,
    whatever language the opening one names, splits and projects like the bare
    envelope, and one cut short before its closing fence does too. *)
Theorem fence_transparent lang body levels
    (Hl : after_newline lang = None) (Hb : strip body = body) (Hn : body <> "")
    (Hf : startswith FENCE body = false) :
  split_combined_response (fenced lang body) = split_combined_response body /\
  extract_projections (fenced lang body) levels = extract_projections body levels /\
  (before_last FENCE body = None ->
   split_combined_response (opened lang body) = split_combined_response body /\
   extract_projections (opened lang body) levels = extract_projections body levels).
Proof.
  assert (_strip_code_fence body = body) as Hbare by (unfold _strip_code_fence; by rewrite Hf).
  assert (forall raw, strip raw = raw -> truthy raw = true -> _strip_code_fence raw = body ->
    split_combined_response raw = split_combined_response body /\
    extract_projections raw levels = extract_projections body levels) as H.
  { intros raw Hs Ht Hx. unfold split_combined_response, extract_projections.
    rewrite Hs, Hb, Ht, Hx, Hbare. by rewrite (proj2 (truthy_true body) Hn). }
  destruct (H (fenced lang body)) as [H1 H2]; [apply strip_fenced|done|by apply strip_fence_fenced|].
  split; [done|]. split; [done|]. intros Hc. apply H; [by apply strip_opened|done|].
  rewrite strip_fence_opened by done. by rewrite Hc.
Qed.

(** ** Projections *)

Lemma add_projections_spec projections levels out l v :
  dwf out -> (forall l w, (l, w) ∈ out -> exists t, dget l projections = Some (VStr t) /\ w = strip t) ->
  dwf (fold_left (add_projection projections) levels out) /\
  ((l, v) ∈ fold_left (add_projection projections) levels out <->
   (l, v) ∈ out \/ l ∈ levels /\ exists t, dget l projections = Some (VStr t) /\ v = strip t /\ v <> "").
Proof.
  revert out. induction levels as [|k levels IH]; intros out Hw Ho; cbn [fold_left].
  - split; [done|]. split; [by left|]. by intros [H|[H%not_elem_of_nil _]].
  - assert (add_projection projections out k = out /\
      (forall t, dget k projections = Some (VStr t) -> strip t = "") \/
      exists t, dget k projections = Some (VStr t) /\ strip t <> "" /\
        add_projection projections out k = dset k (strip t) out) as [[-> Hno]|(t&Ht&Hne&->)].
    { unfold add_projection. destruct (dget k projections) as [[| | | |t| |]|]; try (left; split; [done|congruence]).
      destruct (truthy (strip t)) eqn:E.
      - right. exists t. split; [done|]. split; [by apply truthy_true|done].
      - left. split; [done|]. intros ? [= <-]. by apply truthy_false. }
    + destruct (IH out Hw Ho) as [H1 H2]. split; [done|]. rewrite H2, elem_of_cons. split.
      * intros [H|[H H']]; [by left|right]. by split; [right|].
      * intros [H|[[->|H] H']]; [by left| |by right]. destruct H' as (t&Ht&->&Hne). by rewrite (Hno t Ht) in Hne.
    + assert (forall l w, (l, w) ∈ dset k (strip t) out <-> (l = k /\ w = strip t) \/ (l, w) ∈ out) as Hs.
      { intros m w. split.
        - intros H. apply elem_dget in H; [|by apply dwf_dset]. destruct (decide (k = m)) as [<-|Hm].
          + rewrite dget_dset_eq in H. left. split; congruence.
          + rewrite dget_dset_ne in H by done. right. by apply dget_Some_elem.
        - intros H. apply dget_Some_elem. destruct (decide (k = m)) as [<-|Hm].
          + rewrite dget_dset_eq. destruct H as [[_ ->]|H]; [done|]. destruct (Ho _ _ H) as (u&Hu&->). congruence.
          + rewrite dget_dset_ne by done. destruct H as [[-> _]|H]; [done|]. by apply elem_dget. }
      destruct (IH (dset k (strip t) out)) as [H1 H2]; [by apply dwf_dset| |].
      { intros m w [[-> ->]|H]%Hs; [eauto|by apply Ho]. }
      split; [done|]. rewrite H2, Hs, elem_of_cons. clear -Ht Hne. naive_solver.
Qed.

(** Projections are best-effort and confined: what is kept is exactly the
    non-blank text, stripped, the envelope gives for a level that was asked
    for, at most once per level; any other answer yields none. *)
Theorem projections_exact raw levels :
  let out := extract_projections raw levels in
  dwf out /\
  forall l v, (l, v) ∈ out <->
    l ∈ levels /\ exists envelope projections t,
      loads (_strip_code_fence (strip raw)) = Some (VDict envelope) /\
      dget "projections" envelope = Some (VDict projections) /\
      dget l projections = Some (VStr t) /\ v = strip t /\ v <> "".
Proof.
  cbv zeta. assert (forall l v, (l, v) ∈ ([] : list (string * string)) <-> False) as Hnil.
  { intros l v. split; [apply not_elem_of_nil|done]. }
  unfold extract_projections. destruct (loads _) as [[| | | | | |envelope]|] eqn:E;
    try (split; [by apply NoDup_nil|]; intros m w; rewrite Hnil; split; [done|];
         by intros (_&e&p&t&He&_)).
  destruct (dget "projections" envelope) as [[| | | | | |projections]|] eqn:Ep;
    try (split; [by apply NoDup_nil|]; intros m w; rewrite Hnil; split; [done|];
         by intros (_&e&p&t&[= <-]&Hp&_); rewrite Ep in Hp).
  pose proof (λ l v, add_projections_spec projections levels [] l v) as H.
  split; [apply (H "" ""); [apply NoDup_nil; done|by intros l w ?%not_elem_of_nil]|].
  intros l v. destruct (H l v) as [_ ->]; [by apply NoDup_nil|by intros ?? ?%not_elem_of_nil|].
  rewrite Hnil. split.
  - intros [[]|(Hl&t&Ht&->&Hne)]. split; [done|]. by exists envelope, projections, t.
  - intros (Hl&e&p&t&[= <-]&Hp&Ht&->&Hne). right. split; [done|]. rewrite Ep in Hp. injection Hp as <-. eauto.
Qed.

(** ** Errors *)

Lemma dict_items_Ok l ds : dict_items l = Ok ds <-> l = map VDict ds.
Proof.
  revert ds. induction l as [|v l IH]; intros ds; cbn [dict_items].
  - split; [by intros [= <-]|]. by destruct ds.
  - destruct v; try (split; [done|by destruct ds]). rewrite rbind_Ok. split.
    + intros (ds'&->%IH&[= <-]). done.
    + destruct ds as [|d' ds]; [done|]. intros [= <- ->]. exists ds. split; [by apply IH|done].
Qed.

End json.

Lemma fence_transparent_witness :
  let loads s := if String.eqb s "{}" then Some (VDict [("summary", VStr "ok")]) else None in
  split_combined_response loads (λ _, "[]") (fenced "json" "{}") = Ok ("ok", "[]") /\
  split_combined_response loads (λ _, "[]") (opened "json" "{}") = Ok ("ok", "[]").
Proof.
  cbv zeta. set (loads := λ s, if String.eqb s "{}" then Some (VDict [("summary", VStr "ok")]) else None).
  destruct (fence_transparent loads (λ _, "[]") "json" "{}" []) as (H1&_&H2); try reflexivity; [discriminate|].
  split; [rewrite H1; reflexivity|]. destruct H2 as [-> _]; reflexivity.
Defined.
