(* ===== verification/FactExtractor.v ===== *)
(** * Extracting facts at the close of an interaction

    Models [agents/persona_runtime/fact_extractor.py]: the checks on one fact
    tuple, the loop that stores a batch, the process-wide set of rejected
    verbs, and the dispatch of the facts half of an answer. The state is the
    fact table, that set and the [extraction_failed] counter. Each write of a
    batch runs to its end ([FactsProps] says what interleaving ones do); the
    [i]-th tuple's write runs in the ambient context, at the time and with the
    fresh id of [call i]. *)

From Stdlib Require Import Ascii.
From S2P Require Import Prelude PyStr PyDict PyValue PyFloat Ambient RowScope Interactions Classification FactPredicates Facts FactsProps FactEnvelope.
Local Open Scope string_scope.
Local Open Scope py_scope.

Definition _REJECTED_PREDICATES_LOG_CAP : nat := 256.

Definition _record_rejected_predicate (predicate : string) (seen : gset string) : gset string :=
  if negb (truthy predicate) then seen
  else if bool_decide (predicate ∈ seen) then seen
  else if (_REJECTED_PREDICATES_LOG_CAP <=? size seen)%nat then seen
  else {[predicate]} ∪ seen.

Definition _required_str (raw : pydict) (key : string) : result string string :=
  match dget key raw with
  | None => Raise "KeyError"
  | Some (VStr s) => if truthy (strip s) then Ok s else Raise "ValueError"
  | Some _ => Raise "ValueError"
  end.

Definition _canonicalize_subject (raw : pydict) (sender_id : option string) (canonical_sender : option text) :
    result string text :=
  let! raw_subject := _required_str raw "subject" in
  let! canonical := canonicalize_subject (codes raw_subject) in
  match sender_id, canonical_sender with
  | Some _, Some sender => Ok (if bool_decide (canonical = sender) then sender else canonical)
  | _, _ => Ok canonical
  end.

Definition _normalise_predicate (raw : pydict) (seen : gset string) : result string string * gset string :=
  match _required_str raw "predicate" with
  | Raise e => (Raise e, seen)
  | Ok s =>
      let predicate := lower (strip s) in
      match validate_predicate predicate with
      | Raise e => (Raise e, _record_rejected_predicate predicate seen)
      | Ok _ => (Ok predicate, seen)
      end
  end.

(** On the value found; [float()] of a large [int] overflows. *)
Definition coerce_number (v : pynum) : result string pyfloat :=
  match v with
  | NumBool _ | NumOther => Raise "ValueError"
  | NumInt z =>
      if int_overflows z then Raise "OverflowError"
      else if (0 <=? z)%Z && (z <=? 1)%Z then Ok (Fin (inject_Z z)) else Raise "ValueError"
  | NumFloat (Fin q) => if Qle_bool 0 q && Qle_bool q 1 then Ok (Fin q) else Raise "ValueError"
  | NumFloat _ => Raise "ValueError"
  end.

Definition _coerce_certainty (raw : pydict) : result string pyfloat :=
  match dget "certainty" raw with
  | None => Ok (Fin 1)
  | Some v => coerce_number (num_of v)
  end.

(** What every tuple of a batch is stamped with. *)
Record Batch := mkBatch {
  b_source : string; b_asserted_at : Q; b_session : string; b_sender : option string;
  b_level : option string; b_channel : option string; b_speaker : option string;
  b_principal : option string }.

Record xstate := mkX { x_db : fact_db; x_seen : gset string; x_failed : Z }.

(** [sender_id.strip() or None], and its canonical form *)
Definition stripped_sender (sender : option string) : option string :=
  match sender with Some s => if truthy (strip s) then Some (strip s) else None | None => None end.

Definition canonical_sender (sender : option string) : option text :=
  match sender with
  | Some s => match canonicalize_subject (codes s) with Ok c => Some c | Raise _ => None end
  | None => None
  end.

Definition fact_args (b : Batch) (subj : text) (pred obj : string) (certainty : pyfloat) : FactArgs :=
  mkFactArgs subj pred obj (Some (b_source b)) (b_asserted_at b) certainty (b_session b)
    (normalize_for_stamp (b_level b)) (b_channel b) (b_speaker b) (b_principal b).

(** The body of the loop's first [try]. *)
Definition tuple_args (b : Batch) (raw : pydict) (seen : gset string) : result string FactArgs * gset string :=
  let sender := stripped_sender (b_sender b) in
  match _canonicalize_subject raw sender (canonical_sender sender) with
  | Raise e => (Raise e, seen)
  | Ok subj =>
      match _normalise_predicate raw seen with
      | (Raise e, seen) => (Raise e, seen)
      | (Ok pred, seen) =>
          (let! obj := _required_str raw "object" in
           let! certainty := _coerce_certainty raw in
           Ok (fact_args b subj pred obj certainty), seen)
      end
  end.

(** [except (ValueError, KeyError, TypeError)] *)
Definition tuple_error (e : string) : bool := bool_decide (e ∈ ["ValueError"; "KeyError"; "TypeError"]).

Definition _emit_extraction_failed (count : Z) (s : xstate) : xstate :=
  mkX (x_db s) (x_seen s) (x_failed s + count).

(** The loop, from the [i]-th tuple on. *)
Fixpoint store_each (st : FactStore) (call : nat -> FactCall) (b : Batch) (i : nat) (facts : list pydict)
    (stored failures : Z) (s : xstate) : result string (Z * Z) * xstate :=
  match facts with
  | [] => (Ok (stored, failures), s)
  | raw :: facts =>
      let '(args, seen) := tuple_args b raw (x_seen s) in
      let s := mkX (x_db s) seen (x_failed s) in
      match args with
      | Raise e =>
          if tuple_error e then store_each st call b (S i) facts stored (failures + 1) s else (Raise e, s)
      | Ok a =>
          let '(r, db) := store st (call i) a (x_db s) in
          let s := mkX db (x_seen s) (x_failed s) in
          match r with
          | Raise e =>
              if String.eqb e "ValueError" then store_each st call b (S i) facts stored (failures + 1) s
              else (Raise e, s)
          | Ok _ => store_each st call b (S i) facts (stored + 1) failures s
          end
      end
  end.

Definition store_extracted_facts (st : FactStore) (call : nat -> FactCall) (b : Batch) (facts : list pydict)
    (s : xstate) : result string Z * xstate :=
  match store_each st call b 0 facts 0 0 s with
  | (Raise e, s) => (Raise e, s)
  | (Ok (stored, failures), s) =>
      (Ok stored, if (failures =? 0)%Z then s else _emit_extraction_failed failures s)
  end.

(** [interaction.closed_at or interaction.started_at] *)
Definition closing_time (i : Interaction) : Q :=
  match closed_at i with Some t => if Qeq_bool t 0 then started_at i else t | None => started_at i end.

(** The batch an interaction's facts are stored under. *)
Definition interaction_batch (i : Interaction) (session : string) : Batch :=
  let sender := if truthy (Interactions.speaker_id i) then Some (Interactions.speaker_id i) else None in
  mkBatch (interaction_id i) (closing_time i) session sender (classification i) (Interactions.source_channel_id i)
    sender (Some (Interactions.principal_id i)).

(** An error of the batch is logged and dropped. *)
Definition dispatch_facts_from_response (loads : string -> option pyval) (st : FactStore) (call : nat -> FactCall)
    (facts_raw : string) (i : Interaction) (session : string) (s : xstate) : xstate :=
  match parse_facts_payload loads facts_raw with
  | Raise _ => _emit_extraction_failed 1 s
  | Ok facts => (store_extracted_facts st call (interaction_batch i session) facts s).2
  end.

(** * Extracting facts: what a batch stores

    A batch stores exactly its acceptable tuples, each through the fact store;
    its rows carry the interaction's stamp and do not supersede one another
    where a predicate holds several values; the set of rejected verbs stays
    bounded. *)

(** ** One tuple *)

(** The counterparty's canonical form is the subject's own: naming the sender
    changes nothing of what is stored. *)
Lemma canonicalize_sender raw sender canonical :
  _canonicalize_subject raw sender canonical =
  (let! s := _required_str raw "subject" in canonicalize_subject (codes s)).
Proof.
  unfold _canonicalize_subject. destruct (_required_str raw "subject"); cbn [rbind]; [|done].
  destruct (canonicalize_subject _) as [c|]; cbn [rbind]; [|done].
  destruct sender, canonical; try done. by case_bool_decide; subst.
Qed.

(** The checks on a tuple, without the log of rejected verbs. *)
Definition tuple_fields (b : Batch) (raw : pydict) : result string FactArgs :=
  let! s := _required_str raw "subject" in
  let! subj := canonicalize_subject (codes s) in
  let! p := _required_str raw "predicate" in
  let! _ := validate_predicate (lower (strip p)) in
  let! obj := _required_str raw "object" in
  let! certainty := _coerce_certainty raw in
  Ok (fact_args b subj (lower (strip p)) obj certainty).

Lemma tuple_args_fields b raw seen : (tuple_args b raw seen).1 = tuple_fields b raw.
Proof.
  unfold tuple_args, tuple_fields. rewrite canonicalize_sender.
  destruct (_required_str raw "subject") as [s|]; cbn [rbind]; [|done].
  destruct (canonicalize_subject _); cbn [rbind]; [|done]. unfold _normalise_predicate.
  destruct (_required_str raw "predicate") as [p|]; cbn [rbind]; [|done].
  by destruct (validate_predicate _).
Qed.

(** [float()] overflows on the certainty. *)
Definition certainty_overflows (raw : pydict) : bool :=
  match dget "certainty" raw with Some (VInt z) => int_overflows z | _ => false end.

Lemma required_str_error raw k e : _required_str raw k = Raise e -> tuple_error e = true.
Proof.
  unfold _required_str. destruct (dget k raw) as [[]|]; try by intros [= <-].
  destruct (truthy (strip s)); [done|]. by intros [= <-].
Qed.

Lemma validate_predicate_error p e : validate_predicate p = Raise e -> e = "ValueError".
Proof. unfold validate_predicate. destruct (blank p); [congruence|]. by case_bool_decide; intros [= <-]. Qed.

Lemma canonicalize_error s e : canonicalize_subject s = Raise e -> e = "ValueError".
Proof. unfold canonicalize_subject. destruct (blank_text s); congruence. Qed.

Lemma coerce_certainty_error raw e :
  _coerce_certainty raw = Raise e -> certainty_overflows raw = false -> e = "ValueError".
Proof.
  unfold _coerce_certainty, certainty_overflows. destruct (dget "certainty" raw) as [[]|]; cbn [num_of coerce_number];
    try congruence; intros H Ho; rewrite ?Ho in H; revert H; case_match; congruence.
Qed.

Lemma rbind_Raise {E A B} (m : result E A) (k : A -> result E B) e :
  rbind m k = Raise e <-> m = Raise e \/ exists a, m = Ok a /\ k a = Raise e.
Proof. destruct m; cbn; naive_solver. Qed.

Lemma tuple_fields_error b raw e :
  tuple_fields b raw = Raise e -> certainty_overflows raw = false -> tuple_error e = true.
Proof.
  assert (forall e, e = "ValueError" -> tuple_error e = true) as Hv by by intros ? ->.
  unfold tuple_fields. intros H Ho. revert H. rewrite !rbind_Raise.
  intros [H|(s&_&H)]; [by eapply required_str_error|]. revert H. rewrite !rbind_Raise.
  intros [H|(c&_&H)]; [eauto using canonicalize_error|]. revert H. rewrite !rbind_Raise.
  intros [H|(p&_&H)]; [by eapply required_str_error|]. revert H. rewrite !rbind_Raise.
  intros [H|(u&_&H)]; [eauto using validate_predicate_error|]. revert H. rewrite !rbind_Raise.
  intros [H|(o&_&H)]; [by eapply required_str_error|]. revert H. rewrite !rbind_Raise.
  intros [H|(x&_&H)]; [eauto using coerce_certainty_error|done].
Qed.

Lemma checked_row_error st c a e :
  predicate_validator st = validate_predicate -> checked_row st c a = Raise e -> e = "ValueError".
Proof.
  intros Hv. unfold checked_row. rewrite Hv. destruct (blank_text _); [congruence|].
  destruct (arg_certainty a); try congruence. destruct (negb _); [congruence|]. rewrite rbind_Raise.
  intros [H|(u&_&H)]; [by eapply validate_predicate_error|]. revert H. rewrite !rbind_Raise.
  intros [H|(o&_&H)]; [revert H; unfold validate_object; repeat case_match; congruence|]. revert H. rewrite !rbind_Raise.
  intros [H|(s&_&H)]; [by eapply canonicalize_error|]. revert H. rewrite !rbind_Raise.
  intros [H|(v&_&H)]; [revert H; unfold validate_subject; repeat case_match; congruence|done].
Qed.

(** ** A batch *)

(** The writes of the acceptable tuples, in order. *)
Fixpoint kept (st : FactStore) (call : nat -> FactCall) (b : Batch) (i : nat) (facts : list pydict) : list fact_op :=
  match facts with
  | [] => []
  | raw :: facts =>
      match tuple_fields b raw with
      | Ok a => if is_ok (checked_row st (call i) a) then OpStore st (call i) a :: kept st call b (S i) facts
                else kept st call b (S i) facts
      | Raise _ => kept st call b (S i) facts
      end
  end.

Definition seen_after (b : Batch) (facts : list pydict) (seen : gset string) : gset string :=
  fold_left (λ seen raw, (tuple_args b raw seen).2) facts seen.

(** The ids the writes of a batch draw. *)
Definition drawn (call : nat -> FactCall) (i : nat) (facts : list pydict) : list string :=
  map (λ j, new_id (call j)) (seq i (length facts)).

Lemma drawn_step call i raw facts ids :
  NoDup (ids ++ drawn call i (raw :: facts)) ->
  NoDup ids /\ new_id (call i) ∉ ids /\ NoDup (ids ++ drawn call (S i) facts) /\
  NoDup ((ids ++ [new_id (call i)]) ++ drawn call (S i) facts).
Proof.
  change (drawn call i (raw :: facts)) with (new_id (call i) :: drawn call (S i) facts). intros Hn.
  pose proof Hn as (H1&H2&[_ H3]%NoDup_cons)%NoDup_app. split; [done|]. split; [intros H; apply (H2 _ H); left|].
  split; [|by rewrite <- app_assoc]. apply NoDup_app. split_and!; [done| |done]. intros x Hx Hin. apply (H2 x Hx). by right.
Qed.

Lemma inserted_ids n t : map row_id (inserted n t) = (map row_id t ++ [row_id n])%list.
Proof.
  unfold inserted. rewrite map_app, map_map. f_equal.
  - apply map_ext. intros r. by destruct (older_live n r).
  - cbn [map]. f_equal. apply newer_of_same.
Qed.

(** A write of an acceptable tuple under a fresh id. *)
Lemma store_accepted st c a n db :
  NoDup (map row_id (rows db)) -> new_id c ∉ map row_id (rows db) -> checked_row st c a = Ok n ->
  exists i, store st c a db = (Ok i, run_op db (OpStore st c a)) /\ row_id n = new_id c /\
    rows (run_op db (OpStore st c a)) = inserted n (rows db) /\
    map row_id (rows (run_op db (OpStore st c a))) = (map row_id (rows db) ++ [new_id c])%list.
Proof.
  intros Hn Hf Hc. pose proof (insert_fact_rows st c a db Hn) as H. pose proof (checked_row_fresh st c a n Hc) as [_ Hi].
  unfold store. cbn [run_op]. destruct (insert_fact st c a db) as [[i|e] db']; cbn [snd].
  - destruct H as (n'&Hc'&_&_&Hr). rewrite Hc in Hc'. injection Hc' as <-. exists i.
    rewrite Hr, inserted_ids, Hi. done.
  - exfalso. destruct H as [_ [H|(_&n'&Hc'&Hin)]]; [congruence|]. rewrite Hc in Hc'. injection Hc' as <-. congruence.
Qed.

(** The loop stores exactly the acceptable tuples; every other one is counted. *)
Lemma store_each_exact st call b facts : forall i stored failures s,
  predicate_validator st = validate_predicate ->
  NoDup (map row_id (rows (x_db s)) ++ drawn call i facts) ->
  Forall (λ raw, certainty_overflows raw = false) facts ->
  let k := kept st call b i facts in
  store_each st call b i facts stored failures s =
    (Ok (stored + Z.of_nat (length k), failures + Z.of_nat (length facts) - Z.of_nat (length k))%Z,
     mkX (run_ops (x_db s) k) (seen_after b facts (x_seen s)) (x_failed s)).
Proof.
  induction facts as [|raw facts IH]; intros i stored failures s Hv Hn Hover; cbv zeta.
  - cbn [store_each kept seen_after fold_left run_ops length]. destruct s. cbn. do 2 f_equal. f_equal; lia.
  - apply Forall_cons in Hover as [Ho Hover]. cbn [store_each kept].
    destruct (drawn_step _ _ _ _ _ Hn) as (Hn1&Hf&Hn'&Hn2).
    pose proof (tuple_args_fields b raw (x_seen s)) as Ht. unfold seen_after. cbn [fold_left]. fold (seen_after b facts).
    destruct (tuple_args b raw (x_seen s)) as [args seen']. cbn [fst snd] in *. subst args.
    destruct (tuple_fields b raw) as [a|e] eqn:Ef.
    + cbn [x_db x_seen x_failed]. destruct (checked_row st (call i) a) as [n|e] eqn:Ec; cbn [is_ok].
      * destruct (store_accepted st (call i) a n (x_db s)) as (j&Hs&_&_&Hids); [done..|]. rewrite Hs. cbn [x_db x_seen x_failed].
        rewrite IH; [|done| |done].
        -- cbn [x_db x_seen x_failed length run_ops fold_left]. do 2 f_equal. f_equal; lia.
        -- cbn [x_db]. by rewrite Hids.
      * unfold store, insert_fact. rewrite Ec. rewrite (checked_row_error _ _ _ _ Hv Ec), String.eqb_refl.
        rewrite IH by done. cbn [x_db x_seen x_failed length]. do 2 f_equal. f_equal; lia.
    + rewrite (tuple_fields_error _ _ _ Ef Ho). rewrite IH by done.
      cbn [x_db x_seen x_failed length]. do 2 f_equal. f_equal; lia.
Qed.

Lemma run_ops_app db os os' : run_ops db (os ++ os') = run_ops (run_ops db os) os'.
Proof. apply fold_left_app. Qed.

(** What every write of a batch keeps, the batch keeps. *)
Lemma kept_ind (P : list FactRow -> Prop) st call b :
  (forall t raw c a n, tuple_fields b raw = Ok a -> checked_row st c a = Ok n -> row_id n ∉ map row_id t ->
     NoDup (map row_id t) -> P t -> P (inserted n t)) ->
  forall facts i db, NoDup (map row_id (rows db) ++ drawn call i facts) -> P (rows db) ->
    P (rows (run_ops db (kept st call b i facts))).
Proof.
  intros Hstep facts. induction facts as [|raw facts IH]; intros i db Hn Hp; [done|].
  destruct (drawn_step _ _ _ _ _ Hn) as (H1&Hf&Hn'&Hn2). cbn [kept].
  destruct (tuple_fields b raw) as [a|e] eqn:Ef; [|by apply IH].
  destruct (checked_row st (call i) a) as [n|e] eqn:Ec; cbn [is_ok]; [|by apply IH].
  destruct (store_accepted st (call i) a n db H1 Hf Ec) as (j&_&Hi&Hr&Hids).
  cbn [run_ops fold_left]. fold (run_ops (run_op db (OpStore st (call i) a)) (kept st call b (S i) facts)). apply IH.
  - by rewrite Hids.
  - rewrite Hr. eapply Hstep; [done..|by rewrite Hi|done|done].
Qed.

(** ** The rows of a batch *)

Lemma tuple_fields_Ok b raw a :
  tuple_fields b raw = Ok a ->
  exists subj pred obj certainty, a = fact_args b subj pred obj certainty /\ validate_predicate pred = Ok tt.
Proof.
  unfold tuple_fields.
  intros (s&_&(c&_&(p&_&(u&Hu&(o&_&(x&_&[= <-])%rbind_Ok)%rbind_Ok)%rbind_Ok)%rbind_Ok)%rbind_Ok)%rbind_Ok.
  destruct u. by exists c, (lower (strip p)), o, x.
Qed.

Lemma checked_row_Ok st c a n :
  checked_row st c a = Ok n ->
  let g := row_to_fact n in
  agent_id g = store_agent st /\ canonicalize_subject (arg_subject a) = Ok (subject g) /\
  validate_subject (subject g) = Ok tt /\ predicate g = arg_predicate a /\ object g = arg_object a /\
  validate_object (object g) = Ok tt /\ arg_certainty a = Fin (certainty g) /\ (0 <= certainty g <= 1)%Q /\
  source_interaction_id g = fold_source (arg_source a) /\ asserted_at g = arg_asserted_at a /\
  superseded_by g = None /\ session_id g = Session.normalize_session_id (Some (arg_session a)) /\
  protection_level g = arg_level a /\ source_channel_id g = arg_channel a /\
  principal_id n = resolve_write_principal (amb c) (arg_principal a) (active_principal_id (store_scope st)) /\
  epoch_id n = resolve_active_epoch (amb c) (active_epoch_id (store_scope st)) /\ speaker_id n = or_None (arg_speaker a).
Proof.
  unfold checked_row. destruct (blank_text _); [done|]. destruct (arg_certainty a) as [q| | |]; try done.
  destruct (Qle_bool 0 q && Qle_bool q 1) eqn:Eq; [|done]. cbn [negb].
  intros (?&_&([]&Ho&(s&Hs&([]&Hv&[= <-])%rbind_Ok)%rbind_Ok)%rbind_Ok)%rbind_Ok.
  apply andb_true_iff in Eq as [H1%Qle_bool_iff H2%Qle_bool_iff]. cbn. split_and!; done.
Qed.

(** What the interaction stamps on a row of its batch. *)
Definition stamped (st : FactStore) (b : Batch) (r : FactRow) : Prop :=
  let f := row_to_fact r in
  agent_id f = store_agent st /\ source_interaction_id f = fold_source (Some (b_source b)) /\
  asserted_at f = b_asserted_at b /\ session_id f = Session.normalize_session_id (Some (b_session b)) /\
  protection_level f = normalize_for_stamp (b_level b) /\ source_channel_id f = b_channel b /\
  speaker_id r = or_None (b_speaker b) /\ predicate f ∈ PREDICATE_ALLOWLIST /\
  validate_subject (subject f) = Ok tt /\ validate_object (object f) = Ok tt /\ (0 <= certainty f <= 1)%Q.

#[export] Instance stamped_proper st b : Proper (same_row ==> iff) (stamped st b).
Proof. intros [[] ???] [[] ???] Hn. unfold same_row in *. cbn in *. destruct_and!. by subst. Qed.

Lemma accepted_stamped st c b raw a n :
  tuple_fields b raw = Ok a -> checked_row st c a = Ok n -> stamped st b n.
Proof.
  intros (s&p&o&x&->&Hp)%tuple_fields_Ok H%checked_row_Ok. cbn in H. destruct_and!. unfold stamped.
  assert (p ∈ PREDICATE_ALLOWLIST) as Hin.
  { unfold validate_predicate in Hp. destruct (blank p); [done|]. by case_bool_decide. }
  split_and!; congruence || done.
Qed.

(** A row of the batch points only into the table, and not at a row of the
    batch that may stand beside it. *)
Definition batch_apart (st : FactStore) (b : Batch) (ids : list string) (t : list FactRow) : Prop :=
  (forall r, r ∈ t -> row_id r ∉ ids -> stamped st b r) /\
  (forall r d, r ∈ t -> row_id r ∉ ids -> superseded_by (row_to_fact r) = Some d ->
     d ∈ map row_id t /\
     forall s, s ∈ t -> row_id s = d -> d ∉ ids -> same_key s r = true ->
       object (row_to_fact r) = object (row_to_fact s) \/ predicate (row_to_fact r) ∈ SINGLE_VALUED_PREDICATES).

Lemma not_together st b n r :
  stamped st b n -> stamped st b r -> is_Some (fold_source (Some (b_source b))) -> same_key n r = true ->
  written_together n r = false ->
  object (row_to_fact r) = object (row_to_fact n) \/ predicate (row_to_fact r) ∈ SINGLE_VALUED_PREDICATES.
Proof.
  intros Hn Hr Hs (_&_&Hp&_)%same_key_spec Hw. unfold stamped in *. destruct_and!.
  destruct (decide (object (row_to_fact r) = object (row_to_fact n))) as [|Ho]; [by left|right].
  destruct (decide (predicate (row_to_fact r) ∈ SINGLE_VALUED_PREDICATES)) as [|Hv]; [done|exfalso].
  apply not_true_iff_false in Hw. apply Hw. unfold written_together, together_source.
  rewrite <- Hp, (bool_decide_false (predicate (row_to_fact r) ∈ _)) by done.
  repeat match goal with H : source_interaction_id (row_to_fact ?x) = _ |- _ => rewrite H; clear H end.
  rewrite !bool_decide_true by done. cbn [andb]. apply andb_true_iff. split.
  - apply Qeq_bool_iff. match goal with H : asserted_at _ = _, H' : asserted_at _ = _ |- _ => rewrite H, H' end. done.
  - by apply negb_true_iff, String.eqb_neq.
Qed.

Lemma batch_apart_inserted st b ids n t :
  is_Some (fold_source (Some (b_source b))) -> stamped st b n -> superseded_by (row_to_fact n) = None ->
  row_id n ∉ map row_id t -> NoDup (map row_id t) -> batch_apart st b ids t -> batch_apart st b ids (inserted n t).
Proof.
  intros Hsrc Hst Hsup Hf Hnd [Hs Hp]. set (f := λ r, if older_live n r then set_superseded (row_id n) r else r).
  assert (forall r, same_row (f r) r) as Hm by (intros r; unfold f; by destruct (older_live n r)).
  pose proof (newer_of_same n (t ++ [n])) as Hno.
  assert (forall r, r ∈ inserted n t -> (exists r0, r0 ∈ t /\ r = f r0) \/ r = newer_of n (t ++ [n])%list) as Hin.
  { intros r [(r0&->&H)%list_elem_of_fmap|H%list_elem_of_singleton]%elem_of_app; [left; by exists r0|by right]. }
  assert (forall r, r ∈ t -> row_id r <> row_id n) as Hne.
  { intros r Hr E. apply Hf. rewrite <- E. by apply (list_elem_of_fmap_2 row_id). }
  assert (forall x, row_id (f x) = row_id x) as Hid by (intros; apply Hm).
  assert (row_id (newer_of n (t ++ [n])%list) = row_id n) as Hidn by apply Hno.
  split.
  - intros r [(r0&Hr0&->)| ->]%Hin Hi; [rewrite Hm|by rewrite Hno]. rewrite Hid in Hi. by apply Hs.
  - intros r d Hr Hi Hd. rewrite inserted_ids. apply Hin in Hr as [(r0&Hr0&->)| ->].
    + rewrite Hid in Hi. unfold f in Hd. destruct (older_live n r0) eqn:Eo.
      * injection Hd as <-. split; [apply elem_of_app; right; by left|]. intros s Hs' Hsid _ Hk.
        apply Hin in Hs' as [(s0&Hs0&->)| ->]; [by destruct (Hne s0 Hs0); rewrite <- Hid|].
        apply older_live_key in Eo as (_&_&_&_&_&Hw). rewrite Hno, Hm in Hk.
        assert (object (row_to_fact (newer_of n (t ++ [n])%list)) = object (row_to_fact n)) as -> by apply Hno.
        assert (object (row_to_fact (f r0)) = object (row_to_fact r0)) as -> by apply Hm.
        assert (predicate (row_to_fact (f r0)) = predicate (row_to_fact r0)) as -> by apply Hm.
        by eapply not_together; eauto.
      * destruct (Hp r0 d Hr0 Hi Hd) as [Hdt Hd']. split; [by apply elem_of_app; left|]. intros s Hs' Hsid Hdi Hk.
        apply Hin in Hs' as [(s0&Hs0&->)| ->].
        -- rewrite Hid in Hsid. rewrite !Hm in Hk.
           assert (object (row_to_fact (f s0)) = object (row_to_fact s0)) as -> by apply Hm.
           assert (object (row_to_fact (f r0)) = object (row_to_fact r0)) as -> by apply Hm.
           assert (predicate (row_to_fact (f r0)) = predicate (row_to_fact r0)) as -> by apply Hm. by apply Hd'.
        -- rewrite Hidn in Hsid. by rewrite <- Hsid in Hdt.
    + revert Hd. unfold newer_of at 1. pose proof (newer_id_spec n (t ++ [n])) as Hsp.
      destruct (newer_id n (t ++ [n])) as [d'|]; [|congruence]. intros [= <-]. destruct Hsp as (j&s&Hj&Hsd&Hl&_).
      apply list_elem_of_lookup_2, elem_of_app in Hj as [Hst'|Hj%list_elem_of_singleton];
        [|subst s; by rewrite newer_live_irrefl in Hl].
      split; [apply elem_of_app; left; rewrite <- Hsd; by apply (list_elem_of_fmap_2 row_id)|].
      intros s' _ _ Hdi _. exfalso. rewrite <- Hsd in Hdi. specialize (Hs s Hst' Hdi).
      apply newer_live_key in Hl as (_&_&_&Hlt). unfold stamped in *. destruct_and!.
      match goal with H : asserted_at _ = _, H' : asserted_at _ = _ |- _ => rewrite H, H' in Hlt end. lra.
Qed.

Lemma kept_apart st call b facts db :
  NoDup (map row_id (rows db) ++ drawn call 0 facts) -> is_Some (fold_source (Some (b_source b))) ->
  batch_apart st b (map row_id (rows db)) (rows (run_ops db (kept st call b 0 facts))).
Proof.
  intros Hn Hs. apply kept_ind; [|done|].
  - intros t raw c a n Ha Hc Hf Hnd Hp. apply batch_apart_inserted; try done.
    + by eapply accepted_stamped.
    + by eapply checked_row_fresh.
  - split.
    + intros r Hr Hi. destruct Hi. by apply (list_elem_of_fmap_2 row_id).
    + intros r d Hr Hi. destruct Hi. by apply (list_elem_of_fmap_2 row_id).
Qed.

Lemma run_kept_ids st call b facts i db :
  NoDup (map row_id (rows db) ++ drawn call i facts) ->
  NoDup (map row_id (rows (run_ops db (kept st call b i facts)))).
Proof.
  intros Hn. apply kept_ind; [|done|by apply NoDup_app in Hn as [? _]].
  intros t raw c a n _ _ Hf Hnd _. rewrite inserted_ids. apply NoDup_app. split_and!; [done| |apply NoDup_singleton].
  intros x Hx Hin%list_elem_of_singleton. by subst.
Qed.

Lemma length_kept st call b facts : forall i db,
  NoDup (map row_id (rows db) ++ drawn call i facts) ->
  length (rows (run_ops db (kept st call b i facts))) = (length (rows db) + length (kept st call b i facts))%nat.
Proof.
  induction facts as [|raw facts IH]; intros i db Hn; [cbn; lia|].
  destruct (drawn_step _ _ _ _ _ Hn) as (H1&Hf&Hn'&Hn2). cbn [kept].
  destruct (tuple_fields b raw) as [a|e]; [|by apply IH].
  destruct (checked_row st (call i) a) as [n|e] eqn:Ec; cbn [is_ok]; [|by apply IH].
  destruct (store_accepted st (call i) a n db H1 Hf Ec) as (j&_&_&_&Hids).
  cbn [run_ops fold_left length]. fold (run_ops (run_op db (OpStore st (call i) a)) (kept st call b (S i) facts)).
  rewrite IH by (by rewrite Hids). apply (f_equal length) in Hids.
  rewrite length_app, !length_map in Hids. cbn [length] in Hids. lia.
Qed.

(** The rows a batch adds carry the stamp of their interaction (agent, source,
    time, session, label, channel, speaker) and a vetted predicate, subject,
    object and certainty; and no row of the batch supersedes another one, unless
    the two say the same or the predicate holds one value: one extraction's
    "works with Ann" does not retire its "works with Ben". *)
Theorem batch_rows_apart st call b facts s
    (Hv : predicate_validator st = validate_predicate)
    (Hid : NoDup (map row_id (rows (x_db s)) ++ drawn call 0 facts))
    (Hsrc : truthy (strip (b_source b)) = true)
    (Ho : Forall (λ raw, certainty_overflows raw = false) facts) :
  let t := rows (x_db (store_extracted_facts st call b facts s).2) in
  let added r := r ∈ t /\ row_id r ∉ map row_id (rows (x_db s)) in
  NoDup (map row_id t) /\
  (forall r, added r -> stamped st b r) /\
  (forall r r', added r -> added r' -> same_key r' r = true ->
     superseded_by (row_to_fact r) = Some (row_id r') ->
     object (row_to_fact r) = object (row_to_fact r') \/ predicate (row_to_fact r) ∈ SINGLE_VALUED_PREDICATES).
Proof.
  cbv zeta. unfold store_extracted_facts. rewrite store_each_exact by done. cbn [snd].
  match goal with |- context [if ?c then ?x else ?y] => assert (x_db (if c then x else y) = x_db x) as -> by by destruct c end.
  cbn [x_db].
  destruct (kept_apart st call b facts (x_db s)) as [H1 H2]; [done|unfold fold_source; rewrite Hsrc; eauto|].
  split; [by apply run_kept_ids|]. split.
  - intros r [Hr Hi]. by apply H1.
  - intros r r' [Hr Hi] [Hr' Hi'] Hk Hs. destruct (H2 r _ Hr Hi Hs) as [_ H]. by apply H.
Qed.

(** ** Rejected verbs *)

Lemma record_rejected_spec p seen :
  (size seen <= _REJECTED_PREDICATES_LOG_CAP)%nat ->
  (size (_record_rejected_predicate p seen) <= _REJECTED_PREDICATES_LOG_CAP)%nat /\
  seen ⊆ _record_rejected_predicate p seen /\ _record_rejected_predicate p seen ⊆ {[p]} ∪ seen /\
  (p <> "" -> (size seen < _REJECTED_PREDICATES_LOG_CAP)%nat -> p ∈ _record_rejected_predicate p seen).
Proof.
  intros Hs. unfold _record_rejected_predicate. destruct (truthy p) eqn:Et; cbn [negb].
  - case_bool_decide as Hp; [set_solver|]. destruct (Nat.leb_spec _REJECTED_PREDICATES_LOG_CAP (size seen)).
    + split_and!; [done|done|set_solver|lia].
    + rewrite size_union by set_solver. rewrite size_singleton. split_and!; [lia|set_solver..].
  - apply truthy_false in Et as ->. split_and!; [done|done|set_solver|done].
Qed.

Lemma tuple_args_seen b raw seen :
  (size seen <= _REJECTED_PREDICATES_LOG_CAP)%nat ->
  (size (tuple_args b raw seen).2 <= _REJECTED_PREDICATES_LOG_CAP)%nat /\ seen ⊆ (tuple_args b raw seen).2 /\
  forall p, p ∈ (tuple_args b raw seen).2 -> p ∈ seen \/ p ∉ PREDICATE_ALLOWLIST.
Proof.
  intros Hs. unfold tuple_args. destruct (_canonicalize_subject _ _ _); [|by split_and!; auto].
  unfold _normalise_predicate. destruct (_required_str raw "predicate") as [p|]; [|by split_and!; auto].
  destruct (validate_predicate (lower (strip p))) as [u|e] eqn:Ev; cbn [snd]; [by split_and!; auto|].
  destruct (record_rejected_spec (lower (strip p)) seen Hs) as (H1&H2&H3&_). split; [done|]. split; [done|].
  intros q Hq%H3. apply elem_of_union in Hq as [Hq%elem_of_singleton|Hq]; [right|by left]. subst q.
  unfold validate_predicate in Ev. destruct (blank (lower (strip p))) eqn:Eb.
  - intros Hin. assert (Forall (λ x, blank x = false) PREDICATE_ALLOWLIST) as Ha by by repeat constructor.
    rewrite Forall_forall in Ha. rewrite (Ha _ Hin) in Eb. done.
  - by case_bool_decide.
Qed.

Lemma store_each_seen st call b facts : forall i stored failures s,
  (size (x_seen s) <= _REJECTED_PREDICATES_LOG_CAP)%nat ->
  let s' := (store_each st call b i facts stored failures s).2 in
  (size (x_seen s') <= _REJECTED_PREDICATES_LOG_CAP)%nat /\ x_seen s ⊆ x_seen s' /\
  forall p, p ∈ x_seen s' -> p ∈ x_seen s \/ p ∉ PREDICATE_ALLOWLIST.
Proof.
  induction facts as [|raw facts IH]; intros i stored failures s Hs; cbv zeta; [by split_and!; auto|].
  cbn [store_each]. pose proof (tuple_args_seen b raw (x_seen s) Hs) as (H1&H2&H3).
  destruct (tuple_args b raw (x_seen s)) as [args seen']. cbn [fst snd] in *.
  assert (forall i' k f db,
    let s' := (store_each st call b i' facts k f (mkX db seen' (x_failed s))).2 in
    (size (x_seen s') <= _REJECTED_PREDICATES_LOG_CAP)%nat /\ x_seen s ⊆ x_seen s' /\
    forall p, p ∈ x_seen s' -> p ∈ x_seen s \/ p ∉ PREDICATE_ALLOWLIST) as H.
  { intros i' k f db. destruct (IH i' k f (mkX db seen' (x_failed s)) H1) as (J1&J2&J3). cbn [x_seen] in *.
    split_and!; [done|set_solver|]. intros p Hp. destruct (J3 p Hp) as [Hp'|]; [by apply H3|by right]. }
  destruct args as [a|e]; cbn [x_db x_seen x_failed].
  - destruct (store st (call i) a (x_db s)) as [[j|e] db]; [by apply H|].
    destruct (String.eqb e "ValueError"); [by apply H|done].
  - destruct (tuple_error e); [by apply H|done].
Qed.

(** The log of rejected verbs grows to its cap and no further, forgets nothing,
    and holds only verbs outside the vocabulary, whatever batches are run. *)
Theorem rejected_verbs_bounded loads st call facts_raw i session s
    (Hs : (size (x_seen s) <= _REJECTED_PREDICATES_LOG_CAP)%nat) :
  let s' := dispatch_facts_from_response loads st call facts_raw i session s in
  (size (x_seen s') <= _REJECTED_PREDICATES_LOG_CAP)%nat /\ x_seen s ⊆ x_seen s' /\
  forall p, p ∈ x_seen s' -> p ∈ x_seen s \/ p ∉ PREDICATE_ALLOWLIST.
Proof.
  cbv zeta. unfold dispatch_facts_from_response. destruct (parse_facts_payload _ _) as [facts|e]; [|by split_and!; auto].
  unfold store_extracted_facts.
  pose proof (store_each_seen st call (interaction_batch i session) facts 0 0 0 s Hs) as H.
  destruct (store_each _ _ _ _ _ _ _ _) as [[[k f]|e] s']; cbn [snd] in *; [|done]. by destruct (f =? 0)%Z.
Qed.

(** ** A certainty that does not fit a float *)

(** The first tuple whose [certainty] is an integer too large for a float ends
    the batch: the rest is neither stored nor counted. The three caught errors
    do not include [OverflowError]. *)
Theorem overflow_drops_batch st call b raw rest s subj p obj
    (Hs : (let! t := _required_str raw "subject" in canonicalize_subject (codes t)) = Ok subj)
    (Hp : _required_str raw "predicate" = Ok p) (Hv : validate_predicate (lower (strip p)) = Ok tt)
    (Hobj : _required_str raw "object" = Ok obj) (Ho : certainty_overflows raw = true) :
  store_extracted_facts st call b (raw :: rest) s = (Raise "OverflowError", s).
Proof.
  unfold store_extracted_facts. cbn [store_each].
  assert (tuple_args b raw (x_seen s) = (Raise "OverflowError", x_seen s)) as ->.
  { unfold tuple_args. rewrite canonicalize_sender, Hs. unfold _normalise_predicate. rewrite Hp, Hv, Hobj.
    unfold certainty_overflows in Ho. unfold _coerce_certainty.
    destruct (dget "certainty" raw) as [[]|]; try done. cbn [num_of coerce_number]. by rewrite Ho. }
  cbn. by destruct s.
Qed.

(** ** From the answer to the table *)

(** An answer whose envelope holds a summary and fact tuples: the summary comes
    out, and of the facts exactly the acceptable ones are written, in order,
    each by one store; every other tuple is counted once and costs nothing
    else. The serialised facts are required to parse back. *)
Theorem answer_facts_stored loads dumps st call raw envelope summary ds i session s
    (Hraw : truthy (strip raw) = true)
    (Henv : loads (_strip_code_fence (strip raw)) = Some (VDict envelope))
    (Hsum : dget "summary" envelope = Some (VStr summary))
    (Hfacts : dget_or "facts" (VList []) envelope = VList (map VDict ds))
    (Hdump : truthy (strip (dumps (VList (map VDict ds)))) = true)
    (Hback : loads (strip (dumps (VList (map VDict ds)))) = Some (VList (map VDict ds)))
    (Hv : predicate_validator st = validate_predicate)
    (Hid : NoDup (map row_id (rows (x_db s)) ++ drawn call 0 ds))
    (Ho : Forall (λ raw, certainty_overflows raw = false) ds) :
  exists facts_json, split_combined_response loads dumps raw = Ok (summary, facts_json) /\
    let s' := dispatch_facts_from_response loads st call facts_json i session s in
    let writes := kept st call (interaction_batch i session) 0 ds in
    x_db s' = run_ops (x_db s) writes /\
    length (rows (x_db s')) = (length (rows (x_db s)) + length writes)%nat /\
    x_failed s' = (x_failed s + (Z.of_nat (length ds) - Z.of_nat (length writes)))%Z.
Proof.
  exists (dumps (VList (map VDict ds))). split.
  - unfold split_combined_response. rewrite Hraw. cbn [negb]. by rewrite Henv, Hsum, Hfacts.
  - cbv zeta. unfold dispatch_facts_from_response, parse_facts_payload. rewrite Hdump. cbn [negb]. rewrite Hback.
    rewrite (proj2 (dict_items_Ok _ ds)) by done. unfold store_extracted_facts. rewrite store_each_exact by done.
    set (k := kept _ _ _ _ _). cbn [snd].
    assert (x_db (if (0 + Z.of_nat (length ds) - Z.of_nat (length k) =? 0)%Z then
        mkX (run_ops (x_db s) k) (seen_after (interaction_batch i session) ds (x_seen s)) (x_failed s)
      else _emit_extraction_failed (0 + Z.of_nat (length ds) - Z.of_nat (length k))
        (mkX (run_ops (x_db s) k) (seen_after (interaction_batch i session) ds (x_seen s)) (x_failed s)))
      = run_ops (x_db s) k) as E by by destruct (_ =? _)%Z.
    split; [exact E|]. split.
    + rewrite E. unfold k. apply length_kept. exact Hid.
    + destruct (Z.eqb_spec (0 + Z.of_nat (length ds) - Z.of_nat (length k)) 0); cbn [x_failed _emit_extraction_failed]; lia.
Qed.

(** ** Witnesses *)

(** Two facts of one interaction, and a verb outside the vocabulary. *)
Definition demo_tuples : list pydict :=
  [[("subject", VStr "Bob"); ("predicate", VStr "Works_With"); ("object", VStr "ann")];
   [("subject", VStr " bob "); ("predicate", VStr "works_with"); ("object", VStr "ben"); ("certainty", VInt 1)];
   [("subject", VStr "bob"); ("predicate", VStr "hates"); ("object", VStr "rain")]].

Definition demo_interaction : Interaction :=
  mkInteraction "i9" "room" 100 [] (Some 120%Q) "idle" "" "" "" "room-1" "local" "Bob" "live" false false false
    (Some "internal") (Some "room-1") false.

Definition demo_call (i : nat) : FactCall :=
  mkFactCall (Ambient None None None []) 120 None (nth i ["a"; "b"; "c"; "d"] "e").

Definition demo_x : xstate := mkX (run_ops (mkFactDb [] [] []) demo_facts) ∅ 0.

Lemma demo_ids : NoDup (map row_id (rows (x_db demo_x)) ++ drawn demo_call 0 demo_tuples).
Proof. apply (bool_decide_unpack _). vm_compute. reflexivity. Qed.

Lemma demo_certainties : Forall (λ raw, certainty_overflows raw = false) demo_tuples.
Proof. repeat constructor. Qed.

Lemma batch_rows_apart_witness :
  let t := rows (x_db (store_extracted_facts demo_store demo_call (interaction_batch demo_interaction "room-1") demo_tuples demo_x).2) in
  NoDup (map row_id t) /\ map live (drop 3 t) = [true; true].
Proof.
  split; [|vm_compute; reflexivity].
  exact (proj1 (batch_rows_apart demo_store demo_call (interaction_batch demo_interaction "room-1") demo_tuples demo_x
    eq_refl demo_ids eq_refl demo_certainties)).
Defined.

Lemma rejected_verbs_bounded_witness :
  let loads := λ _ : string, Some (VList (map VDict demo_tuples)) in
  let s' := dispatch_facts_from_response loads demo_store demo_call "[...]" demo_interaction "room-1" demo_x in
  elements (x_seen s') = ["hates"] /\ (size (x_seen s') <= 256)%nat.
Proof.
  cbv zeta. split; [vm_compute; reflexivity|].
  apply (rejected_verbs_bounded (λ _, Some (VList (map VDict demo_tuples))) demo_store demo_call "[...]" demo_interaction "room-1" demo_x).
  vm_compute. repeat constructor.
Defined.

Definition huge_tuple : pydict :=
  [("subject", VStr "bob"); ("predicate", VStr "knows"); ("object", VStr "ann"); ("certainty", VInt (2 ^ 1024))].

Lemma overflow_drops_batch_witness :
  store_extracted_facts demo_store demo_call (interaction_batch demo_interaction "room-1") (huge_tuple :: demo_tuples) demo_x
    = (Raise "OverflowError", demo_x).
Proof.
  apply (overflow_drops_batch demo_store demo_call _ huge_tuple demo_tuples demo_x (codes "bob") "knows" "ann"); reflexivity.
Defined.

Lemma answer_facts_stored_witness :
  let envelope := [("summary", VStr "Bob met the team."); ("facts", VList (map VDict demo_tuples))] in
  let loads s := if String.eqb s "E" then Some (VDict envelope) else Some (VList (map VDict demo_tuples)) in
  exists facts_json, split_combined_response loads (λ _, "F") "E" = Ok ("Bob met the team.", facts_json) /\
    let s' := dispatch_facts_from_response loads demo_store demo_call facts_json demo_interaction "room-1" demo_x in
    length (rows (x_db s')) = 5%nat /\ x_failed s' = 1%Z.
Proof.
  cbv zeta. set (envelope := [("summary", VStr "Bob met the team."); ("facts", VList (map VDict demo_tuples))]).
  set (loads := λ s, if String.eqb s "E" then Some (VDict envelope) else Some (VList (map VDict demo_tuples))).
  destruct (answer_facts_stored loads (λ _, "F") demo_store demo_call "E" envelope "Bob met the team." demo_tuples
    demo_interaction "room-1" demo_x) as (f&H1&_&H2&H3); try reflexivity; [exact demo_ids|exact demo_certainties|].
  exists f. split; [exact H1|]. cbv zeta in *. rewrite H2, H3. split; vm_compute; reflexivity.
Defined.
