(* ===== verification/TopicSeeds.v ===== *)
(** * Topic seeds

    Models [agents/persona_runtime/topic_seeds.py]: which stored topic subjects
    an event's text and its room's description name, and how each is to be
    read. Texts are lists of code points; a subject is searched as whole words
    of the folded text, the meaning of [(?<!\w)subject(?!\w)]. *)

From Stdlib Require Import Ascii Sorted.
From S2P Require Import Prelude PyStr PyDict PyValue PyFloat PySort Ambient RowScope FactPredicates Facts FactsProps FactsRecall.
Local Open Scope string_scope.
Local Open Scope py_scope.

Definition TOPIC_SEED_LIMIT : Z := 3.
Definition ROOM_SEED_LIMIT : Z := TOPIC_SEED_LIMIT - 1.
Definition ROOM_SEED_ROWS_BESIDE_MESSAGE : Z := 6.
Definition TOPIC_SUBJECT_SCAN_LIMIT : Z := 200.
Definition TOPIC_SEED_MIN_CHARS : nat := 3.

Definition _STOPWORD_SUBJECTS : list text := map codes
  ["the"; "and"; "for"; "you"; "your"; "our"; "this"; "that"; "with";
   "from"; "have"; "has"; "was"; "were"; "are"; "not"; "but"; "all";
   "any"; "can"; "will"; "what"; "when"; "who"; "how"; "why"; "yes";
   "one"; "out"; "get"; "got"; "new"; "now"; "day"; "way"; "let"].

Definition _seed_eligible (subject : text) : bool :=
  (TOPIC_SEED_MIN_CHARS <=? length subject)%nat && negb (bool_decide (subject ∈ _STOPWORD_SUBJECTS)).

(** [\w] *)
Definition word_cp (n : N) : bool := is_word n || (n =? 95)%N.

(** [subject] at the front, no word character after it *)
Fixpoint matches_here (subject folded : text) : bool :=
  match subject, folded with
  | [], [] => true
  | [], c :: _ => negb (word_cp c)
  | d :: subject, c :: folded => (c =? d)%N && matches_here subject folded
  | _ :: _, [] => false
  end.

(** The first match from position [at_] on; [prev] is the character before it. *)
Fixpoint search_from (prev : option N) (at_ : nat) (subject folded : text) : option nat :=
  if negb (match prev with Some c => word_cp c | None => false end) && matches_here subject folded then Some at_
  else match folded with [] => None | c :: folded => search_from (Some c) (S at_) subject folded end.

Definition _mention (folded subject : text) : option nat := search_from None 0 subject folded.

(** [" ".join(s.casefold().split())] *)
Definition fold_spaces (s : text) : text := join_words (split_from [] (fold_text s)).

Fixpoint match_each (folded : text) (limit : Z) (exclude : list text) (matched subjects : list text) : list text :=
  match subjects with
  | [] => matched
  | subject :: subjects =>
      if (limit <=? Z.of_nat (length matched))%Z then matched
      else if bool_decide (subject ∈ exclude) || bool_decide (subject ∈ matched)
      then match_each folded limit exclude matched subjects
      else if negb (_seed_eligible subject) then match_each folded limit exclude matched subjects
      else match _mention folded subject with
           | Some _ => match_each folded limit exclude (matched ++ [subject])%list subjects
           | None => match_each folded limit exclude matched subjects
           end
  end.

Definition match_topic_subjects (stimulus : text) (subjects : list text) (limit : Z) (exclude : list text) : list text :=
  if blank_text stimulus then [] else match_each (fold_spaces stimulus) limit exclude [] subjects.

(** [found], a dict from a subject to where it is first named *)
Definition found_add (folded : text) (exclude : list text) (found : list (text * nat)) (subject : text) : list (text * nat) :=
  if bool_decide (subject ∈ exclude) || dmem subject found || negb (_seed_eligible subject) then found
  else match _mention folded subject with Some at_ => dset subject at_ found | None => found end.

(** [key=lambda subject: (found[subject], -len(subject))] *)
Definition named_le (a b : text * nat) : bool :=
  (a.2 <? b.2)%nat || (a.2 =? b.2)%nat && (length b.1 <=? length a.1)%nat.

Definition _named_in_order (txt : text) (subjects : list text) (exclude : list text) : list text :=
  map fst (py_sorted named_le (fold_left (found_add (fold_spaces txt) exclude) subjects [])).

(** [l[:n]] *)
Definition upto {A} (n : Z) (l : list A) : list A :=
  if (n <? 0)%Z then take (Z.to_nat (Z.of_nat (length l) + n)) l else take (Z.to_nat n) l.

(** A text or something else: a message's content may be anything. *)
Definition _text (value : option text) : text :=
  match value with Some t => if blank_text t then [] else t | None => [] end.

Record TopicSeed := mkSeed {
  seed_subject : text; seed_predicates : list string; seed_order : string; seed_rows : option Z }.

Definition seed (described : list text) (subject : text) (rows : option Z) : TopicSeed :=
  mkSeed subject TOPIC_PREDICATES (if bool_decide (subject ∈ described) then "both_ends" else "newest") rows.

Definition seeds_of (room message : text) (subjects exclude : list text) : list TopicSeed :=
  let named := _named_in_order room subjects exclude in
  let kept := upto ROOM_SEED_LIMIT named in
  let message_seeds := match_topic_subjects message subjects (TOPIC_SEED_LIMIT - Z.of_nat (length kept)) (exclude ++ kept) in
  let room_seeds := upto (TOPIC_SEED_LIMIT - Z.of_nat (length message_seeds)) named in
  let beside := match message_seeds with [] => None | _ => Some ROOM_SEED_ROWS_BESIDE_MESSAGE end in
  (map (λ s, seed named s beside) (upto 1 room_seeds) ++ map (λ s, seed named s None) message_seeds ++
   map (λ s, seed named s None) (drop 1 room_seeds))%list.

(** [topic_subjects] failing seeds nothing. *)
Definition topic_recall_seeds (st : option FactStore) (c : FactCall) (stimulus : option text) (exclude : list text)
    (room_text : option text) (sessions : sessions_arg) (db : fact_db) : list TopicSeed :=
  let room := _text room_text in
  let message := _text stimulus in
  match st with
  | None => []
  | Some st =>
      match room, message with
      | [], [] => []
      | _, _ =>
          match topic_subjects st c TOPIC_SUBJECT_SCAN_LIMIT sessions db with
          | Raise _ => []
          | Ok subjects => seeds_of room message subjects exclude
          end
      end
  end.

Example match_demo :
  match_topic_subjects (codes "Is the Atlas  Plan late? atlases") [codes "atlas"; codes "the"; codes "atlas plan"; codes "late"] 3 [] =
  [codes "atlas"; codes "atlas plan"; codes "late"].
Proof. vm_compute. reflexivity. Qed.

Example seeds_demo :
  map seed_subject (seeds_of (codes "Atlas and the billing desk") (codes "what of payroll?")
    [codes "payroll"; codes "billing desk"; codes "atlas"] []) = [codes "atlas"; codes "payroll"; codes "billing desk"].
Proof. vm_compute. reflexivity. Qed.

(** ** Mentions *)

(** [subject] stands at position [i] of [folded], as whole words. *)
Definition named_at (folded subject : text) (i : nat) : Prop :=
  exists pre post, folded = (pre ++ subject ++ post)%list /\ length pre = i /\
    (forall c, last pre = Some c -> word_cp c = false) /\ (forall c, head post = Some c -> word_cp c = false).

Lemma matches_here_spec subject folded :
  matches_here subject folded = true <->
  exists post, folded = (subject ++ post)%list /\ forall c, head post = Some c -> word_cp c = false.
Proof.
  revert folded. induction subject as [|d subject IH]; intros [|c folded]; cbn [matches_here].
  - split; [|done]. intros _. by exists [].
  - rewrite negb_true_iff. split.
    + intros H. exists (c :: folded). split; [done|]. by intros ? [= <-].
    + intros ([|e post]&E&H); [done|]. injection E as -> ->. by apply H.
  - split; [done|]. by intros (post&E&_).
  - rewrite andb_true_iff, N.eqb_eq, IH. split.
    + intros [-> (post&->&H)]. by exists post.
    + intros (post&[= -> ->]&H). split; [done|]. by exists post.
Qed.

Lemma search_here pre subject folded :
  negb (match last pre with Some c => word_cp c | None => false end) && matches_here subject folded = true <->
  named_at (pre ++ folded) subject (length pre).
Proof.
  rewrite andb_true_iff, negb_true_iff, matches_here_spec. split.
  - intros [H1 (post&->&H2)]. exists pre, post. split_and!; [done|done| |done]. intros ? E. by rewrite E in H1.
  - intros (pre'&post&E&Hl&H1&H2). apply app_inj_1 in E as [<- ->]; [|done].
    split; [|by exists post]. destruct (last pre) eqn:El; [by apply H1|done].
Qed.

Lemma search_from_spec subject folded : forall pre,
  match search_from (last pre) (length pre) subject folded with
  | Some i => named_at (pre ++ folded) subject i /\
      forall j, (length pre <= j < i)%nat -> ~ named_at (pre ++ folded) subject j
  | None => forall j, (length pre <= j)%nat -> ~ named_at (pre ++ folded) subject j
  end.
Proof.
  induction folded as [|c folded IH]; intros pre; cbn [search_from]; [pose proof (search_here pre subject []) as Hhere|
    pose proof (search_here pre subject (c :: folded)) as Hhere]; destruct (_ && _).
  - split; [by apply Hhere|lia].
  - intros j Hj (pre'&post&E&Hl&H1&H2).
    pose proof E as E'. apply (f_equal length) in E'. rewrite !length_app in E'. cbn in E'.
    assert (j = length pre) as -> by lia. assert (false = true); [|done]. apply Hhere. by exists pre', post.
  - split; [by apply Hhere|lia].
  - specialize (IH (pre ++ [c])%list). rewrite last_snoc, length_app, Nat.add_1_r, <- app_assoc in IH. cbn [app] in IH.
    assert (~ named_at (pre ++ c :: folded) subject (length pre)) as Hno by (intros H; by apply Hhere in H).
    destruct (search_from _ _ _ _) as [i|].
    + destruct IH as [H1 H2]. split; [done|]. intros j Hj. destruct (decide (j = length pre)) as [->|]; [done|]. apply H2; lia.
    + intros j Hj. destruct (decide (j = length pre)) as [->|]; [done|]. apply IH; lia.
Qed.

(** A mention is the first whole-word occurrence, and none is missed. *)
Lemma mention_spec folded subject :
  match _mention folded subject with
  | Some i => named_at folded subject i /\ forall j, (j < i)%nat -> ~ named_at folded subject j
  | None => forall j, ~ named_at folded subject j
  end.
Proof.
  pose proof (search_from_spec subject folded []) as H. cbn [last length app] in H. unfold _mention.
  destruct (search_from _ _ _ _) as [i|].
  - destruct H as [H1 H2]. split; [done|]. intros j Hj. apply H2. lia.
  - intros j. apply H. lia.
Qed.

(** ** Matching *)

(** A subject a text may seed. *)
Definition qualifies (folded : text) (exclude : list text) (s : text) : Prop :=
  s ∉ exclude /\ _seed_eligible s = true /\ is_Some (_mention folded s).

Lemma match_each_spec folded limit exclude subjects : forall matched,
  NoDup matched ->
  exists new, match_each folded limit exclude matched subjects = (matched ++ new)%list /\
    NoDup (matched ++ new) /\ (new `sublist_of` subjects) /\ Forall (qualifies folded exclude) new /\
    (Z.of_nat (length (matched ++ new)) <= Z.max limit (Z.of_nat (length matched)))%Z /\
    ((Z.of_nat (length (matched ++ new)) < limit)%Z ->
     forall s, s ∈ subjects -> qualifies folded exclude s -> s ∈ (matched ++ new)%list).
Proof.
  induction subjects as [|s subjects IH]; intros matched Hn; cbn [match_each].
  - exists []. rewrite app_nil_r. split_and!; [done..|lia|]. by intros _ ? ?%not_elem_of_nil.
  - assert (forall matched', matched' = matched ->
      (qualifies folded exclude s -> s ∈ matched) ->
      exists new, match_each folded limit exclude matched' subjects = (matched ++ new)%list /\
        NoDup (matched ++ new) /\ new `sublist_of` (s :: subjects) /\ Forall (qualifies folded exclude) new /\
        (Z.of_nat (length (matched ++ new)) <= Z.max limit (Z.of_nat (length matched)))%Z /\
        ((Z.of_nat (length (matched ++ new)) < limit)%Z ->
         forall s', s' ∈ s :: subjects -> qualifies folded exclude s' -> s' ∈ (matched ++ new)%list)) as Hskip.
    { intros ? -> Hs. destruct (IH matched Hn) as (new&E&H1&H2&H3&H4&H5). exists new.
      split_and!; [done|done|by constructor|done|done|]. intros Hl s' [->|Hin]%elem_of_cons Hq; [|by apply H5].
      apply elem_of_app. left. by apply Hs. }
    destruct (Z.leb_spec limit (Z.of_nat (length matched))).
    { exists []. rewrite app_nil_r. split_and!; [done|done|apply sublist_nil_l|done|lia|lia]. }
    case_bool_decide as He; cbn [orb]; [by apply Hskip; [|intros [? _]]|].
    case_bool_decide as Hm; [by apply Hskip|].
    destruct (_seed_eligible s) eqn:Ee; cbn [negb]; [|by apply Hskip; [|intros (_&H'&_); congruence]].
    destruct (_mention folded s) as [i|] eqn:Em.
    2: { apply Hskip; [done|]. intros (_&_&[? H']). congruence. }
    destruct (IH (matched ++ [s])%list) as (new&E&H1&H2&H3&H4&H5).
    { apply NoDup_app. split_and!; [done| |apply NoDup_singleton]. intros x Hx Hs%list_elem_of_singleton. by subst. }
    exists (s :: new). rewrite <- app_assoc in *. cbn [app] in *.
    split_and!; [done|done|by apply sublist_skip| |rewrite !length_app in *; cbn in *; lia|].
    + constructor; [by split_and!; eauto|done].
    + intros Hl s' [->|Hin]%elem_of_cons Hq; [apply elem_of_app; right; left|by apply H5].
Qed.

Lemma found_add_spec folded exclude subjects : forall found,
  dwf found -> (forall s i, (s, i) ∈ found -> qualifies folded exclude s /\ _mention folded s = Some i) ->
  let r := fold_left (found_add folded exclude) subjects found in
  dwf r /\ (forall s i, (s, i) ∈ r -> qualifies folded exclude s /\ _mention folded s = Some i) /\
  forall s, s ∈ map fst r <-> s ∈ map fst found \/ s ∈ subjects /\ qualifies folded exclude s.
Proof.
  induction subjects as [|s subjects IH]; intros found Hw Hf; cbv zeta; cbn [fold_left].
  - split_and!; [done..|]. intros s. split; [by left|]. intros [|[?%not_elem_of_nil _]]; done.
  - assert (found_add folded exclude found s = found /\ (qualifies folded exclude s -> s ∈ map fst found) \/
      exists i, qualifies folded exclude s /\ _mention folded s = Some i /\ s ∉ map fst found /\
        found_add folded exclude found s = (found ++ [(s, i)])%list) as [[-> Hs]|(i&Hq&Hm&Hno&->)].
    { unfold found_add. case_bool_decide as He; cbn [orb]; [left; split; [done|by intros [? _]]|].
      destruct (dmem s found) eqn:Ed; cbn [orb].
      { left. split; [done|]. intros _. unfold dmem in Ed. destruct (dget s found) as [j|] eqn:Eg; [|done].
        apply dget_Some_elem in Eg. by apply (list_elem_of_fmap_2 fst) in Eg. }
      destruct (_seed_eligible s) eqn:Ee; cbn [negb]; [|left; split; [done|intros (_&?&_); congruence]].
      destruct (_mention folded s) as [i|] eqn:Em; [|left; split; [done|intros (_&_&[? ?]); congruence]].
      right. exists i. assert (dget s found = None) as Hd by (unfold dmem in Ed; by destruct (dget s found)).
      split; [by split_and!; eauto|]. split; [done|]. split; [by apply dget_None|]. by apply dset_fresh. }
    + destruct (IH found Hw Hf) as (H1&H2&H3). split_and!; [done..|]. intros s'. rewrite H3, elem_of_cons.
      clear -Hs. naive_solver.
    + destruct (IH (found ++ [(s, i)])%list) as (H1&H2&H3).
      * unfold dwf, dkeys. rewrite map_app. apply NoDup_app. split_and!; [done| |apply NoDup_singleton].
        intros x Hx Hin%list_elem_of_singleton. subst. done.
      * intros s' j [H|H%list_elem_of_singleton]%elem_of_app; [by apply Hf|]. by injection H as -> ->.
      * split_and!; [done..|]. intros s'. rewrite H3, map_app, elem_of_app, elem_of_cons. cbn [map].
        rewrite list_elem_of_singleton. clear -Hq. naive_solver.
Qed.

Lemma named_le_total a b : named_le a b = false -> named_le b a = true.
Proof.
  unfold named_le. rewrite orb_false_iff, orb_true_iff, andb_false_iff, andb_true_iff, !Nat.ltb_ge, !Nat.ltb_lt, !Nat.eqb_neq, !Nat.eqb_eq, !Nat.leb_gt, !Nat.leb_le.
  lia.
Qed.

Lemma named_le_trans a b c : named_le a b = true -> named_le b c = true -> named_le a c = true.
Proof.
  unfold named_le. rewrite !orb_true_iff, !andb_true_iff, !Nat.ltb_lt, !Nat.eqb_eq, !Nat.leb_le. lia.
Qed.

Lemma named_spec txt subjects exclude :
  let named := _named_in_order txt subjects exclude in
  NoDup named /\ (forall s, s ∈ named <-> s ∈ subjects /\ qualifies (fold_spaces txt) exclude s) /\
  StronglySorted (λ a b, forall i j, _mention (fold_spaces txt) a = Some i -> _mention (fold_spaces txt) b = Some j ->
    named_le (a, i) (b, j) = true) named.
Proof.
  cbv zeta. unfold _named_in_order.
  destruct (found_add_spec (fold_spaces txt) exclude subjects []) as (H1&H2&H3);
    [by apply NoDup_nil|by intros ?? ?%not_elem_of_nil|]. set (r := fold_left _ _ _) in *. split_and!.
  - by rewrite py_sorted_perm.
  - intros s. rewrite py_sorted_perm, H3. cbn [map]. rewrite list_elem_of_In. cbn. tauto.
  - apply (StronglySorted_map (λ a b, named_le a b = true)).
    + intros [a i] [b j] Ha Hb Hle i' j'. rewrite elem_of_py_sorted in Ha, Hb. cbn [fst].
      destruct (H2 _ _ Ha) as [_ ->], (H2 _ _ Hb) as [_ ->]. by intros [= <-] [= <-].
    + apply py_sorted_sorted; [exact named_le_total|exact named_le_trans].
Qed.

(** ** Seeds *)

Lemma no_mention_nil exclude s : ~ qualifies (fold_spaces []) exclude s.
Proof.
  intros (_&He&[i Hi]). destruct s as [|c s]; [done|]. by change (_mention (fold_spaces []) (c :: s)) with (@None nat) in Hi.
Qed.

Lemma text_or_nil v : _text v = [] \/ blank_text (_text v) = false.
Proof. destruct v as [t|]; [|by left]. cbn. destruct (blank_text t) eqn:E; [by left|by right]. Qed.

Lemma match_topic_spec message subjects limit exclude :
  (0 <= limit)%Z ->
  let m := match_topic_subjects (_text message) subjects limit exclude in
  NoDup m /\ (forall s, s ∈ m -> s ∈ subjects /\ qualifies (fold_spaces (_text message)) exclude s) /\
  (Z.of_nat (length m) <= limit)%Z /\
  ((Z.of_nat (length m) < limit)%Z -> forall s, s ∈ subjects -> qualifies (fold_spaces (_text message)) exclude s -> s ∈ m).
Proof.
  intros Hl. cbv zeta. unfold match_topic_subjects. destruct (text_or_nil message) as [->|Hb].
  - cbn [blank_text]. split_and!; [by apply NoDup_nil|by intros ? ?%not_elem_of_nil|cbn; lia|].
    intros _ s _ H. by apply no_mention_nil in H.
  - rewrite Hb. destruct (match_each_spec (fold_spaces (_text message)) limit exclude subjects [])
      as (new&->&H1&H2&H3&H4&H5); [by apply NoDup_nil|]. cbn [app length] in *.
    split_and!; [done| |lia|done]. intros s Hs. rewrite Forall_forall in H3. split; [|by apply H3].
    eapply elem_of_submseteq; [exact Hs|by apply sublist_submseteq].
Qed.

Lemma qualifies_app folded a b s : qualifies folded (a ++ b) s <-> qualifies folded a s /\ s ∉ b.
Proof. unfold qualifies. rewrite not_elem_of_app. tauto. Qed.

Lemma upto_take {A} n (l : list A) : (0 <= n)%Z -> upto n l = take (Z.to_nat n) l.
Proof. intros H. unfold upto. by rewrite (proj2 (Z.ltb_ge _ _) H). Qed.

Lemma take_take_le {A} (l : list A) n k : (n <= k)%nat -> take n (take k l) = take n l.
Proof. intros H. rewrite take_take. f_equal. lia. Qed.

(** What the slots are given to: [k] room subjects, of which the first come
    first, and the message's. *)
Lemma seeds_slots room message subjects exclude :
  let named := _named_in_order (_text room) subjects exclude in
  exists m k, seeds_of (_text room) (_text message) subjects exclude =
      (map (λ s, seed named s (match m with [] => None | _ => Some ROOM_SEED_ROWS_BESIDE_MESSAGE end)) (take 1 (take k named)) ++
       map (λ s, seed named s None) m ++ map (λ s, seed named s None) (drop 1 (take k named)))%list /\
    (length m + k = 3)%nat /\ NoDup m /\ (forall s, s ∈ m -> s ∉ take k named) /\
    (forall s, s ∈ m -> s ∈ subjects /\ qualifies (fold_spaces (_text message)) exclude s) /\
    (named <> [] -> (0 < k)%nat) /\
    (m = [] -> forall s, s ∈ subjects -> qualifies (fold_spaces (_text message)) exclude s -> s ∈ take k named).
Proof.
  cbv zeta. unfold seeds_of. set (named := _named_in_order _ _ _).
  rewrite (upto_take ROOM_SEED_LIMIT) by done. change (Z.to_nat ROOM_SEED_LIMIT) with 2%nat.
  assert (length (take 2 named) <= 2)%nat as Hk by (rewrite length_take; lia).
  destruct (match_topic_spec message subjects (TOPIC_SEED_LIMIT - Z.of_nat (length (take 2 named))) (exclude ++ take 2 named))
    as (H1&H2&H3&H4); [unfold TOPIC_SEED_LIMIT; lia|].
  set (m := match_topic_subjects _ _ _ _) in *. unfold TOPIC_SEED_LIMIT in *.
  rewrite (upto_take 1) by done. rewrite upto_take by lia. change (Z.to_nat 1) with 1%nat.
  exists m, (Z.to_nat (3 - Z.of_nat (length m))). split; [done|]. split; [lia|]. split; [done|]. split_and!.
  - intros s Hs Hin. destruct (H2 s Hs) as [_ [_ Hno]%qualifies_app]. apply Hno.
    assert (length m = 0%nat \/ (3 - Z.of_nat (length m) <= 2)%Z) as [Hm|Hm] by lia; [by destruct m; [apply not_elem_of_nil in Hs|]|].
    eapply elem_of_submseteq; [exact Hin|]. apply sublist_submseteq.
    rewrite <- (take_take_le named (Z.to_nat (3 - Z.of_nat (length m))) 2) by lia. apply sublist_take.
  - intros s Hs. destruct (H2 s Hs) as [Hin [Hq _]%qualifies_app]. done.
  - intros Hn. destruct named as [|x l]; [done|]. cbn [take length] in H3. lia.
  - intros Hm s Hs Hq. assert (s ∈ take 2 named) as Hin.
    { destruct (decide (s ∈ take 2 named)) as [|Hno]; [done|exfalso].
      apply (not_elem_of_nil s). rewrite <- Hm. apply H4; [rewrite Hm; cbn; lia|done|]. by apply qualifies_app. }
    rewrite Hm. change (Z.to_nat (3 - Z.of_nat (length []))) with 3%nat.
    eapply elem_of_submseteq; [exact Hin|]. apply sublist_submseteq. rewrite <- (take_take_le named 2 3) by lia. apply sublist_take.
Qed.

Lemma recall_predicates st c subj limit inc sessions ps order db fs :
  recall st c subj limit inc sessions (Some ps) order db = Ok fs -> Forall (λ f, predicate f ∈ ps) fs.
Proof.
  intros H. apply Forall_forall. intros f Hf. destruct (recall_elem _ _ _ _ _ _ _ _ _ _ _ H Hf) as (r&s&sess&_&->&_&_&_&_&Hr).
  unfold readable, predicate_in in Hr. bool_props. tauto.
Qed.

(** The seeds are those of the texts, or there is nothing to name. *)
Lemma topic_recall_cases st c stimulus exclude room_text sessions db subjects :
  topic_subjects st c TOPIC_SUBJECT_SCAN_LIMIT sessions db = Ok subjects ->
  topic_recall_seeds (Some st) c stimulus exclude room_text sessions db =
    seeds_of (_text room_text) (_text stimulus) subjects exclude \/
  topic_recall_seeds (Some st) c stimulus exclude room_text sessions db = [] /\
    (forall s, ~ qualifies (fold_spaces (_text room_text)) exclude s) /\
    forall s, ~ qualifies (fold_spaces (_text stimulus)) exclude s.
Proof.
  intros Hs. cbn [topic_recall_seeds]. rewrite Hs.
  destruct (_text room_text) as [|x r]; [destruct (_text stimulus) as [|y m]|]; auto.
  right. split; [done|]. split; intros s; apply no_mention_nil.
Qed.

Lemma take_elem {A} n (l : list A) x : x ∈ take n l -> x ∈ l.
Proof. intros H. eapply elem_of_submseteq; [exact H|apply sublist_submseteq, sublist_take]. Qed.

(** Where a seed comes from, and how it is read. *)
Lemma seeds_of_elem room message subjects exclude x :
  x ∈ seeds_of (_text room) (_text message) subjects exclude ->
  let in_room := qualifies (fold_spaces (_text room)) exclude in
  seed_subject x ∈ subjects /\ seed_predicates x = TOPIC_PREDICATES /\
  (in_room (seed_subject x) /\ seed_order x = "both_ends" \/
   ~ in_room (seed_subject x) /\ qualifies (fold_spaces (_text message)) exclude (seed_subject x) /\ seed_order x = "newest").
Proof.
  destruct (seeds_slots room message subjects exclude) as (m&k&->&_&_&_&Hq&_).
  pose proof (named_spec (_text room) subjects exclude) as (_&Hne&_). set (named := _named_in_order _ _ _) in *.
  intros Hx. assert (exists s r, x = seed named s r /\ (s ∈ m \/ s ∈ named)) as (s&r&->&Hin).
  { rewrite !elem_of_app, !list_elem_of_fmap in Hx. pose proof (take_elem k named) as Ht.
    rewrite <- (take_drop 1 (take k named)) in Ht. setoid_rewrite elem_of_app in Ht.
    destruct Hx as [(s&->&Hx)|[(s&->&Hx)|(s&->&Hx)]]; eauto 7. }
  cbn [seed seed_subject seed_predicates seed_order]. cbv zeta.
  split; [by destruct Hin as [[? _]%Hq|[? _]%Hne]|]. split; [done|].
  case_bool_decide as Hb; [left; split; [by apply Hne|done]|right]. destruct Hin as [Hin|]; [|done].
  destruct (Hq s Hin). split_and!; [|done|done]. intros Hr. by apply Hb, Hne.
Qed.

Lemma topic_recall_elem st c stimulus exclude room_text sessions db x :
  x ∈ topic_recall_seeds (Some st) c stimulus exclude room_text sessions db ->
  exists subjects, topic_subjects st c TOPIC_SUBJECT_SCAN_LIMIT sessions db = Ok subjects /\
    x ∈ seeds_of (_text room_text) (_text stimulus) subjects exclude.
Proof.
  cbn [topic_recall_seeds]. destruct (topic_subjects _ _ _ _ _) as [subjects|].
  - intros Hx. exists subjects. split; [done|].
    destruct (_text room_text); [destruct (_text stimulus); [by apply not_elem_of_nil in Hx|]|]; done.
  - intros Hx. destruct (_text room_text); [destruct (_text stimulus)|]; by apply not_elem_of_nil in Hx.
Qed.

(** The topic seeds of an event: at most three, none twice, each a stored
    subject that the message or the room's description names, that may seed and
    that no other path seeded; what the description names is read from both
    ends, anything else newest first; and a seed reads topic facts alone. *)
Theorem topic_seeds_exact st c stimulus exclude room_text sessions db subjects
    (Hs : topic_subjects st c TOPIC_SUBJECT_SCAN_LIMIT sessions db = Ok subjects) :
  let in_room := qualifies (fold_spaces (_text room_text)) exclude in
  let in_message := qualifies (fold_spaces (_text stimulus)) exclude in
  let seeds := topic_recall_seeds (Some st) c stimulus exclude room_text sessions db in
  (length seeds <= 3)%nat /\ NoDup (map seed_subject seeds) /\
  forall x, x ∈ seeds -> seed_subject x ∈ subjects /\
    (in_room (seed_subject x) /\ seed_order x = "both_ends" \/
     ~ in_room (seed_subject x) /\ in_message (seed_subject x) /\ seed_order x = "newest") /\
    forall limit inc fs, recall st c (seed_subject x) limit inc sessions (Some (seed_predicates x)) (seed_order x) db = Ok fs ->
      Forall (λ f, predicate f ∈ TOPIC_PREDICATES) fs.
Proof.
  cbv zeta. destruct (topic_recall_cases st c stimulus exclude room_text sessions db subjects Hs) as [->|(->&_)];
    [|split_and!; [cbn; lia|by apply NoDup_nil|by intros ? ?%not_elem_of_nil]].
  split_and!.
  1, 2: destruct (seeds_slots room_text stimulus subjects exclude) as (m&k&->&Hlen&Hn&Hd&Hq&_);
    pose proof (named_spec (_text room_text) subjects exclude) as (Hnn&Hne&_); set (named := _named_in_order _ _ _) in *;
    set (beside := match m with [] => None | _ => _ end).
  - rewrite !length_app, !length_map, length_drop, !length_take. lia.
  - rewrite !map_app, !map_map. cbn [seed seed_subject]. rewrite !map_id.
    rewrite (app_assoc (take 1 _)), (Permutation_app_comm (take 1 _) m), <- app_assoc, take_drop.
    apply NoDup_app. split_and!; [done|done|]. eapply sublist_NoDup; [exact Hnn|]. apply sublist_take.
  - intros x Hx. destruct (seeds_of_elem _ _ _ _ _ Hx) as (H1&->&H3). split; [done|]. split; [done|].
    intros. by eapply recall_predicates.
Qed.

(** Who gets the slots. What the room's description names first always seeds,
    and first, a longer name before a shorter one at the same place; beside a
    subject of the message it is read six rows deep, otherwise to the caller's
    limit. And a message that names a subject is heard: some seed is a subject
    it names. *)
Theorem topic_seeds_priority st c stimulus exclude room_text sessions db subjects s
    (Hs : topic_subjects st c TOPIC_SUBJECT_SCAN_LIMIT sessions db = Ok subjects) (Hin : s ∈ subjects) :
  let in_room := qualifies (fold_spaces (_text room_text)) exclude in
  let in_message := qualifies (fold_spaces (_text stimulus)) exclude in
  let at_ := _mention (fold_spaces (_text room_text)) in
  let seeds := topic_recall_seeds (Some st) c stimulus exclude room_text sessions db in
  (in_room s -> exists x rest, seeds = x :: rest /\ in_room (seed_subject x) /\
     (forall i j, at_ (seed_subject x) = Some i -> at_ s = Some j ->
        (i < j \/ i = j /\ length s <= length (seed_subject x))%nat) /\
     (seed_rows x = Some ROOM_SEED_ROWS_BESIDE_MESSAGE \/
      seed_rows x = None /\ Forall (λ y, in_room (seed_subject y)) rest) /\
     Forall (λ y, seed_rows y = None) rest) /\
  (in_message s -> exists x, x ∈ seeds /\ in_message (seed_subject x)).
Proof.
  cbv zeta. destruct (topic_recall_cases st c stimulus exclude room_text sessions db subjects Hs) as [->|(->&Hr&Hm)];
    [|by split; [intros ?%Hr|intros ?%Hm]].
  destruct (seeds_slots room_text stimulus subjects exclude) as (m&k&->&Hlen&Hn&Hd&Hq&Hk&Hheard).
  pose proof (named_spec (_text room_text) subjects exclude) as (_&Hne&Hns). set (named := _named_in_order _ _ _) in *.
  split.
  - intros Hr. destruct named as [|a named']; [by pose proof (proj2 (Hne s) (conj Hin Hr)) as ?%not_elem_of_nil|].
    destruct k as [|k]; [assert (0 < 0)%nat by (by apply Hk); lia|]. cbn [firstn skipn map app]. eexists _, _. split; [done|].
    cbn [seed seed_subject seed_rows]. assert (a ∈ a :: named') as Ha by left. apply Hne in Ha as [_ Ha].
    split; [done|]. split; [|split].
    + intros i j Hi Hj. assert (s ∈ a :: named') as Hsn by by apply Hne.
      apply elem_of_cons in Hsn as [->|Hsn]; [rewrite Hi in Hj; injection Hj as ->; lia|].
      apply StronglySorted_inv in Hns as [_ Hns]. rewrite Forall_forall in Hns. specialize (Hns s Hsn i j Hi Hj).
      unfold named_le in Hns. cbn [fst snd] in Hns.
      rewrite orb_true_iff, andb_true_iff, Nat.ltb_lt, Nat.eqb_eq, Nat.leb_le in Hns. lia.
    + destruct m as [|b m]; [right|by left]. split; [done|]. cbn [map app].
      apply Forall_fmap, Forall_forall. intros y Hy. cbn. apply Hne. right.
      by apply take_elem in Hy.
    + apply Forall_forall. intros y Hy. rewrite !elem_of_app, !list_elem_of_fmap in Hy. by destruct Hy as [(?&->&[]%not_elem_of_nil)|[(?&->&_)|(?&->&_)]].
  - intros Hm. destruct m as [|b m].
    + specialize (Hheard eq_refl s Hin Hm). eexists (seed named s None). split; [|done].
      cbn [map app]. set (t := take k named) in *. destruct t as [|a t]; [by apply not_elem_of_nil in Hheard|].
      cbn [firstn skipn map app]. apply elem_of_cons in Hheard as [->|Hx]; [left|right]. by apply (list_elem_of_fmap_2 (λ s, seed named s None)).
    + eexists (seed named b None). split; [|apply Hq; left]. apply elem_of_app. right. apply elem_of_app. left. left.
Qed.

(** ** Witnesses *)

Definition topic_fact (id subj : string) (t : Q) : fact_op :=
  OpStore demo_store (mkFactCall (Ambient None None None []) t None id)
    (mkFactArgs (codes subj) "topic.decided" "yes" (Some id) t (Fin 1) "room-1" "internal" None None None).

Definition topic_db : fact_db :=
  run_ops (mkFactDb [] [] []) [topic_fact "t1" "Atlas" 1; topic_fact "t2" "Payroll" 2; topic_fact "t3" "billing desk" 3].

Definition topic_call : FactCall := mkFactCall (Ambient None None None []) 10 None "x".

Lemma topic_subjects_demo :
  topic_subjects demo_store topic_call TOPIC_SUBJECT_SCAN_LIMIT SessDefault topic_db =
  Ok [codes "billing desk"; codes "payroll"; codes "atlas"].
Proof. vm_compute. reflexivity. Qed.

Lemma topic_seeds_exact_witness :
  let seeds := topic_recall_seeds (Some demo_store) topic_call (Some (codes "Is PAYROLL done?")) []
    (Some (codes "Atlas, and the billing desk.")) SessDefault topic_db in
  map seed_subject seeds = [codes "atlas"; codes "payroll"; codes "billing desk"] /\ NoDup (map seed_subject seeds).
Proof.
  cbv zeta. split; [vm_compute; reflexivity|].
  apply (topic_seeds_exact demo_store topic_call (Some (codes "Is PAYROLL done?")) []
    (Some (codes "Atlas, and the billing desk.")) SessDefault topic_db _ topic_subjects_demo).
Defined.

Lemma topic_seeds_priority_witness :
  exists x, x ∈ topic_recall_seeds (Some demo_store) topic_call (Some (codes "Is PAYROLL done?")) []
      (Some (codes "Atlas, and the billing desk.")) SessDefault topic_db /\
    qualifies (fold_spaces (codes "Is PAYROLL done?")) [] (seed_subject x).
Proof.
  apply (topic_seeds_priority demo_store topic_call (Some (codes "Is PAYROLL done?")) []
    (Some (codes "Atlas, and the billing desk.")) SessDefault topic_db _ (codes "payroll") topic_subjects_demo).
  - right. left.
  - split; [apply not_elem_of_nil|]. split; [reflexivity|]. vm_compute. eexists. reflexivity.
Defined.
