(* ===== verification/FactsSection.v ===== *)
(** * The facts section of a prompt

    Models [agents/persona_runtime/facts_section.py] and [facts_render.py]:
    the subjects an event seeds, the recall over them, and the rendering of the
    recalled facts under the shared token budget. The prompt's text is a list of
    code points, as in [MemoryBudget]. *)

From Stdlib Require Import Ascii.
From S2P Require Import Prelude PyStr PyDict PyValue PyFloat PySort PersonaEvents Ambient RowScope MemoryBudget FactPredicates Facts FactsProps FactsRecall TopicSeeds.
Local Open Scope string_scope.
Local Open Scope py_scope.

Definition FACTS_SECTION_NAME : string := "facts_context".
Definition FACTS_SECTION_PRIORITY : Z := 7.
Definition MIN_TOKENS_FACTS : Z := 24.
Definition DEFAULT_FACTS_BUDGET_TOKENS : Z := 200.
Definition FACTS_RECALL_LIMIT : Z := 20.
Definition SELF_SUBJECT : text := codes "self".

(** ** Recall *)

Definition _subject_seeds (e : AgentEvent) : list text :=
  match sender_id e with
  | None => []
  | Some s =>
      if negb (truthy s) || negb (truthy (strip s)) then []
      else match canonicalize_subject (codes s) with
           | Raise _ => [SELF_SUBJECT]
           | Ok canonical => if bool_decide (canonical = SELF_SUBJECT) then [SELF_SUBJECT] else [SELF_SUBJECT; canonical]
           end
  end.

(** A seed as the recall loop takes it. *)
Definition person_seed (s : text) : text * option (list string) * string * option Z := (s, None, "newest", None).
Definition topic_seed (x : TopicSeed) : text * option (list string) * string * option Z :=
  (seed_subject x, Some (seed_predicates x), seed_order x, seed_rows x).

(** [min(limit, depth or limit)] *)
Definition row_cap (limit : Z) (depth : option Z) : Z :=
  match depth with Some d => if (d =? 0)%Z then limit else Z.min limit d | None => limit end.

(** Facts not seen yet. *)
Fixpoint collect (seen : list string) (rows : list Fact) : list Fact :=
  match rows with
  | [] => []
  | f :: rows => if bool_decide (fact_id f ∈ seen) then collect seen rows else f :: collect (fact_id f :: seen) rows
  end.

(** Each seed's read; one that fails is skipped. *)
Fixpoint recall_seeds (st : FactStore) (c : FactCall) (limit : Z) (sessions : sessions_arg) (db : fact_db)
    (seeds : list (text * option (list string) * string * option Z)) (collected : list Fact) : list Fact :=
  match seeds with
  | [] => collected
  | (subj, predicates, order, depth) :: seeds =>
      recall_seeds st c limit sessions db seeds
        match recall st c subj (row_cap limit depth) false sessions predicates order db with
        | Raise _ => collected
        | Ok rows => (collected ++ collect (map fact_id collected) rows)%list
        end
  end.

Definition recall_facts_for_event (st : option FactStore) (c : FactCall) (e : AgentEvent) (limit : Z)
    (stimulus : option text) (sessions : sessions_arg) (room_text : option text) (db : fact_db) : list Fact :=
  match st with
  | None => []
  | Some st =>
      match _subject_seeds e with
      | [] => []
      | person_seeds =>
          recall_seeds st c limit sessions db
            (map person_seed person_seeds ++
             map topic_seed (topic_recall_seeds (Some st) c stimulus person_seeds room_text sessions db)) []
      end
  end.

(** ** Rendering *)

Definition HEADER_SUBJECT_MAX_WORDS : nat := 4.
Definition HEADER_SUBJECT_MAX_CHARS : nat := 48.
Definition _TRUNCATION_MARKER : list Z := [8230]%Z.

(** [s.split(" ")] *)
Fixpoint split_space (cur s : text) : list text :=
  match s with
  | [] => [cur]
  | c :: s => if (c =? 32)%N then cur :: split_space [] s else split_space (cur ++ [c])%list s
  end.

Definition rstrip_text (s : text) : text := reverse (drop_spaces (reverse s)).

Definition as_text (s : text) : list Z := map Z.of_N s.
Definition ztext (s : string) : list Z := as_text (codes s).

(** The kept subject, and whether it was cut. *)
Definition bound_subject (subj : text) : text * bool :=
  let words := split_space [] subj in
  let bounded := join_words (take HEADER_SUBJECT_MAX_WORDS words) in
  let truncated := (HEADER_SUBJECT_MAX_WORDS <? length words)%nat in
  if (HEADER_SUBJECT_MAX_CHARS <? length bounded)%nat
  then (rstrip_text (take HEADER_SUBJECT_MAX_CHARS bounded), true) else (bounded, truncated).

Definition bounded_header_subject (subj : text) : list Z :=
  let '(bounded, truncated) := bound_subject subj in
  if truncated then (as_text bounded ++ _TRUNCATION_MARKER)%list else as_text bounded.

Definition format_fact_line (f : Fact) : list Z :=
  (ztext "- " ++ as_text (subject f) ++ ztext " " ++ ztext (predicate f) ++ ztext " " ++ ztext (object f))%list.

(** [groups.setdefault(fact.subject, []).append(fact)] *)
Definition add_group (groups : list (text * list Fact)) (f : Fact) : list (text * list Fact) :=
  dset (subject f) (default [] (dget (subject f) groups) ++ [f])%list groups.

Definition group_facts (facts : list Fact) : list (text * list Fact) := fold_left add_group facts [].

(** [sep.join(l)] *)
Fixpoint join_text (sep : list Z) (l : list (list Z)) : list Z :=
  match l with [] => [] | [x] => x | x :: l => (x ++ sep ++ join_text sep l)%list end.

Record block := mkBlock { b_header : list Z; b_items : list (list Z); b_pending : list (string * Z) }.

Definition block_text (b : block) : list Z := (b_header b ++ join_text (ztext (String "010" "")) (b_items b))%list.

Section render.
Context (tok : option Tokenizer) (env : option string) (slice : Z).

(** One subject's lines: what was admitted, what to register, the slice used. *)
Fixpoint render_items (facts : list Fact) (used : Z) (b : MemoryBudget) :
    list (list Z) * list (string * Z) * Z * MemoryBudget :=
  match facts with
  | [] => ([], [], used, b)
  | f :: facts =>
      if (slice <=? used)%Z || (remaining b <=? 0)%Z then ([], [], used, b)
      else
        let '(admitted, b') := try_add tok (format_fact_line f) MIN_TOKENS_FACTS b in
        match admitted with
        | None => render_items facts used b'
        | Some line =>
            let n := (remaining b - remaining b')%Z in
            let '(items, pending, used, b) := render_items facts (used + n) b' in
            (line :: items, (fact_id f, n) :: pending, used, b)
        end
  end.

Definition commit (pending : list (string * Z)) (b : MemoryBudget) : MemoryBudget :=
  fold_left (λ b p, match record_admission env "facts" p.1 p.2 b with Ok (b, _) => b | Raise _ => b end) pending b.

Fixpoint render_blocks (groups : list (text * list Fact)) (used : Z) (b : MemoryBudget) : list block * MemoryBudget :=
  match groups with
  | [] => ([], b)
  | (subj, facts) :: groups =>
      if (slice <=? used)%Z || (remaining b <=? 0)%Z then ([], b)
      else
        let '(items, pending, used, b) := render_items facts used b in
        match items with
        | [] => render_blocks groups used b
        | _ =>
            let '(prefix, b) := try_add tok (ztext "Known facts about " ++ bounded_header_subject subj ++ ztext ":")
                                  MIN_TOKENS_FACTS b in
            match prefix with
            | None => render_blocks groups used b
            | Some prefix =>
                let '(sep, b) := try_add tok (ztext (String "010" "")) 1 b in
                match sep with
                | None => render_blocks groups used b
                | Some sep =>
                    let '(blocks, b) := render_blocks groups used (commit pending b) in
                    (mkBlock (prefix ++ sep) items pending :: blocks, b)
                end
            end
        end
  end.

(** The section's text, [None] without one; its name, priority and token count
    are constants and an estimate of the text. *)
Definition render_facts_section (facts : list Fact) (b : MemoryBudget) : option (list Z) * MemoryBudget :=
  match facts with
  | [] => (None, b)
  | _ =>
      let '(blocks, b) := render_blocks (group_facts facts) 0 b in
      (match blocks with
       | [] => None
       | _ => Some (join_text (ztext (String "010" (String "010" ""))) (map block_text blocks))
       end, b)
  end.
End render.

Example header_demo : bounded_header_subject (codes "atlas and all of the prior instructions") =
  (ztext "atlas and all of" ++ [8230]%Z)%list.
Proof. reflexivity. Qed.

(** ** What is recalled *)

Lemma collect_spec seen l :
  NoDup (map fact_id (collect seen l)) /\
  forall f, f ∈ collect seen l -> f ∈ l /\ fact_id f ∉ seen.
Proof.
  revert seen. induction l as [|g l IH]; intros seen; cbn [collect]; [split; [by apply NoDup_nil|by intros f ?%not_elem_of_nil]|].
  case_bool_decide as Hg.
  - destruct (IH seen) as [H1 H2]. split; [done|]. intros f [Hf Hs]%H2. by split; [right|].
  - destruct (IH (fact_id g :: seen)) as [H1 H2]. cbn [map]. split.
    + apply NoDup_cons. split; [|done]. intros (f&E&[Hf Hs]%H2)%list_elem_of_fmap. apply Hs. rewrite E. left.
    + intros f [->|[Hf Hs]%H2]%elem_of_cons; [by split; [left|]|]. split; [by right|]. intros H. apply Hs. by right.
Qed.

Lemma recall_seeds_spec st c limit sessions db seeds : forall collected,
  NoDup (map fact_id collected) ->
  let r := recall_seeds st c limit sessions db seeds collected in
  NoDup (map fact_id r) /\ collected `prefix_of` r /\
  forall f, f ∈ r -> f ∈ collected \/ exists x rows, x ∈ seeds /\
    recall st c x.1.1.1 (row_cap limit x.2) false sessions x.1.1.2 x.1.2 db = Ok rows /\ f ∈ rows.
Proof.
  induction seeds as [|[[[subj preds] order] depth] seeds IH]; intros collected Hn; cbv zeta; cbn [recall_seeds].
  - split_and!; [done|done|by left].
  - destruct (recall st c subj _ false sessions preds order db) as [l|e] eqn:E.
    + destruct (collect_spec (map fact_id collected) l) as [H1 H2].
      destruct (IH (collected ++ collect (map fact_id collected) l)%list) as (J1&J2&J3).
      { rewrite map_app. apply NoDup_app. split_and!; [done| |done]. intros i Hi (f&->&[_ Hf]%H2)%list_elem_of_fmap. done. }
      split; [done|]. split; [etrans; [|exact J2]; by eexists|]. intros f [[Hf|[Hf _]%H2]%elem_of_app|(x&k&Hx&Hr)]%J3.
      * by left.
      * right. eexists (subj, preds, order, depth), l. split_and!; [left|done|done].
      * right. exists x, k. split; [by right|done].
    + destruct (IH collected Hn) as (J1&J2&J3). split_and!; [done|done|].
      intros f [Hf|(x&k&Hx&Hr)]%J3; [by left|right]. exists x, k. split; [by right|done].
Qed.

(** The subjects of the people in an event: none without a sender, otherwise the
    persona itself and then the sender, in their canonical forms. *)
Lemma subject_seeds_spec e :
  match sender_id e with
  | Some s => if truthy s && truthy (strip s)
              then exists rest, _subject_seeds e = SELF_SUBJECT :: rest /\
                forall x, x ∈ rest -> canonicalize_subject (codes s) = Ok x /\ x <> SELF_SUBJECT
              else _subject_seeds e = []
  | None => _subject_seeds e = []
  end.
Proof.
  unfold _subject_seeds. destruct (sender_id e) as [s|]; [|done]. destruct (truthy s); [|done].
  destruct (truthy (strip s)); [|done]. cbn [negb orb andb].
  destruct (canonicalize_subject _) as [x|]; [case_bool_decide|]; eexists; (split; [done|]).
  - by intros ? ?%not_elem_of_nil.
  - by intros y ->%list_elem_of_singleton.
  - by intros ? ?%not_elem_of_nil.
Qed.

(** What an event can recall: nothing without a sender; no fact twice; and every
    fact is live, stored by this agent for this tenant and epoch and in the
    sessions asked for, and about the persona, about the sender, or a topic fact
    about a subject the message or the room's description names: naming someone
    else's subject reads no other fact about them. *)
Theorem event_recall_confined st c e limit stimulus sessions room_text db :
  let facts := recall_facts_for_event (Some st) c e limit stimulus sessions room_text db in
  NoDup (map fact_id facts) /\
  forall f, f ∈ facts -> exists s r sess, sender_id e = Some s /\ strip s <> "" /\ r ∈ rows db /\ f = row_to_fact r /\
    live r = true /\ resolve_session_list (amb c) sessions (active_session_id (store_scope st)) = Ok sess /\
    readable st c sess None r = true /\
    (subject f = SELF_SUBJECT \/ canonicalize_subject (codes s) = Ok (subject f) \/
     predicate f ∈ TOPIC_PREDICATES /\ exists named, canonicalize_subject named = Ok (subject f) /\
       (is_Some (_mention (fold_spaces (_text stimulus)) named) \/ is_Some (_mention (fold_spaces (_text room_text)) named))).
Proof.
  cbv zeta. unfold recall_facts_for_event. pose proof (subject_seeds_spec e) as Hsub.
  destruct (_subject_seeds e) as [|s0 people] eqn:Es; [split; [by apply NoDup_nil|by intros ? ?%not_elem_of_nil]|].
  set (seeds := (map person_seed (s0 :: people) ++ _)%list).
  destruct (recall_seeds_spec st c limit sessions db seeds []) as (H1&_&H3); [by apply NoDup_nil|].
  split; [done|]. intros f [?%not_elem_of_nil|([[[subj preds] order] depth]&l&Hx&Hr&Hf)]%H3; [done|].
  destruct (sender_id e) as [sender|]; [|done].
  destruct (truthy sender && truthy (strip sender)) eqn:Et; [|done]. apply andb_true_iff in Et as [_ Et%truthy_true].
  destruct Hsub as (rest&[= -> ->]&Hrest).
  destruct (recall_elem _ _ _ _ _ _ _ _ _ _ _ Hr Hf) as (r&s&sess&Hin&->&Hc&Hs&Hsess&Hl&Hread). cbn [fst snd] in Hread, Hc.
  exists sender, r, sess. split; [done|]. split; [done|]. split; [done|]. split; [done|].
  split; [by destruct Hl|]. split; [done|].
  assert (readable st c sess None r = true) as Hw by (unfold readable, predicate_in in *; bool_props; tauto).
  split; [done|]. apply elem_of_app in Hx as [(x&[= -> -> -> ->]&Hx)%list_elem_of_fmap|(x&[= -> -> -> ->]&Hx)%list_elem_of_fmap].
  - apply elem_of_cons in Hx as [->|Hx]; [left|right; left].
    + change (canonicalize_subject SELF_SUBJECT) with (@Ok string text SELF_SUBJECT) in Hc. congruence.
    + destruct (Hrest x Hx) as [Hx' _]. pose proof (canonical_subject (codes sender)) as Hcan. rewrite Hx' in Hcan.
      destruct Hcan as [Hcan _]. congruence.
  - right; right. destruct (topic_recall_elem _ _ _ _ _ _ _ _ Hx) as (subjects&_&Hx').
    apply seeds_of_elem in Hx' as (_&Hp&Hn). split.
    { unfold readable, predicate_in in Hread. rewrite Hp in Hread. bool_props. tauto. }
    exists (seed_subject x). split; [congruence|]. destruct Hn as [[(_&_&?) _]|(_&(_&_&?)&_)]; auto.
Qed.

(** ** What is rendered *)

Section render_props.
Context (tok : option Tokenizer) (env : option string) (slice : Z).

(** A line of a fact, with what is registered for it: whole, or cut to what was
    left of the budget. *)
Definition line_of (facts : list Fact) (line : list Z) (p : string * Z) : Prop :=
  p.2 = count_tokens tok line /\
  exists f, f ∈ facts /\ p.1 = fact_id f /\
    (line = format_fact_line f \/
     (MIN_TOKENS_FACTS <= count_tokens tok line)%Z /\
     exists limit ids, line = truncate_to_token_limit tok (format_fact_line f) limit ids).

(** The registered tokens before each line leave room in the slice. *)
Definition within (used : Z) (pending : list (string * Z)) : Prop :=
  forall pre x post, pending = (pre ++ x :: post)%list -> (used + zsum snd pre < slice)%Z.

Lemma within_cons used x pending :
  (used < slice)%Z -> within (used + x.2) pending -> within used (x :: pending).
Proof.
  intros Hu Hw [|y pre] z post E; [unfold zsum; cbn; lia|]. injection E as <- E.
  specialize (Hw pre z post E). unfold zsum in *. cbn [foldr]. lia.
Qed.

Lemma render_items_spec facts : forall used b,
  let '(items, pending, used', b') := render_items tok slice facts used b in
  used' = (used + zsum snd pending)%Z /\ remaining b' = (remaining b - zsum snd pending)%Z /\
  admissions b' = admissions b /\ Forall2 (line_of facts) items pending /\
  map fst pending `sublist_of` map fact_id facts /\ within used pending.
Proof.
  assert (forall used b, used = (used + zsum snd ([] : list (string * Z)))%Z /\
    remaining b = (remaining b - zsum snd ([] : list (string * Z)))%Z) as H0 by (intros; unfold zsum; cbn; lia).
  assert (forall used, within used []) as Hw0 by (intros ? [|] ???; done).
  induction facts as [|f facts IH]; intros used b; cbn [render_items].
  - destruct (H0 used b). by split_and!.
  - destruct ((slice <=? used)%Z || (remaining b <=? 0)%Z) eqn:Eg.
    { destruct (H0 used b). split_and!; auto using sublist_nil_l. }
    apply orb_false_iff in Eg as [Eg%Z.leb_gt _].
    pose proof (try_add_cases tok (format_fact_line f) MIN_TOKENS_FACTS b) as Hc.
    destruct (try_add tok (format_fact_line f) MIN_TOKENS_FACTS b) as [r b1].
    assert (forall items pending, Forall2 (line_of facts) items pending -> Forall2 (line_of (f :: facts)) items pending) as Hl.
    { intros items pending H. eapply Forall2_impl; [exact H|]. intros l p (H1&g&Hg&H2). split; [done|]. exists g. split; [by right|done]. }
    destruct Hc as [(->&->&_)|(line&->&_&->&Hline)].
    + specialize (IH used b). destruct (render_items tok slice facts used b) as [[[items pending] used'] b'].
      destruct IH as (H1&H2&H3&H4&H5&H6). split_and!; [done..|by apply Hl|by apply sublist_cons|done].
    + cbn [remaining spend]. replace (remaining b - (remaining b - count_tokens tok line))%Z with (count_tokens tok line) by lia.
      specialize (IH (used + count_tokens tok line)%Z (spend (count_tokens tok line) b)).
      destruct (render_items tok slice facts _ _) as [[[items pending] used'] b'].
      destruct IH as (H1&H2&H3&H4&H5&H6). cbn [remaining spend admissions] in *.
      split_and!.
      * rewrite H1. unfold zsum. cbn. lia.
      * rewrite H2. unfold zsum. cbn. lia.
      * done.
      * constructor; [|by apply Hl]. split; [done|]. exists f. split; [left|]. split; [done|].
        destruct Hline as [[-> _]|(_&Hm&Hl')]; [by left|right]. split; [done|]. eauto.
      * by apply sublist_skip.
      * apply within_cons; [done|exact H6].
Qed.

Lemma commit_spec pending : forall b,
  remaining (commit env pending b) = remaining b /\
  admissions_by_tier "facts" (commit env pending b) = (admissions_by_tier "facts" b ++ map fst pending)%list /\
  forall tier, tier <> "facts" -> admissions_by_tier tier (commit env pending b) = admissions_by_tier tier b.
Proof.
  induction pending as [|[i n] pending IH]; intros b; cbn [commit fold_left map fst snd]; [by rewrite app_nil_r|].
  set (b1 := match record_admission env "facts" i n b with Ok (b, _) => b | Raise _ => b end).
  assert (b1 = mkMB (remaining b) (dset "facts" (default [] (dget "facts" (admissions b)) ++ [i])%list (admissions b))) as Hb1 by done.
  fold (commit env pending b1). destruct (IH b1) as (H1&H2&H3). rewrite H1, H2. split; [by rewrite Hb1|]. split.
  - rewrite Hb1. unfold admissions_by_tier. cbn [admissions]. rewrite dget_dset_eq. cbn [from_option id fst]. by rewrite <- app_assoc.
  - intros tier Ht. rewrite H3 by done. rewrite Hb1. unfold admissions_by_tier. cbn [admissions]. by rewrite dget_dset_ne.
Qed.

(** A block: a header that names the subject, in whole or cut, and the lines of
    its facts. *)
Definition block_of (groups : list (text * list Fact)) (k : block) : Prop :=
  exists subj facts prefix sep, (subj, facts) ∈ groups /\ b_header k = (prefix ++ sep)%list /\
    (prefix = (ztext "Known facts about " ++ bounded_header_subject subj ++ ztext ":")%list \/
     (MIN_TOKENS_FACTS <= count_tokens tok prefix)%Z) /\
    b_items k <> [] /\ Forall2 (line_of facts) (b_items k) (b_pending k).

Lemma block_of_cons g groups k : block_of groups k -> block_of (g :: groups) k.
Proof. intros (subj&facts&p&s&Hin&H). exists subj, facts, p, s. split; [by right|done]. Qed.

Definition registered (blocks : list block) : list (string * Z) := concat (map b_pending blocks).

Lemma zsum_pending_nonneg facts items pending : Forall2 (line_of facts) items pending -> (0 <= zsum snd pending)%Z.
Proof.
  induction 1 as [|l p items pending [Hp _] _ IH]; [done|]. unfold zsum in *. cbn [foldr].
  pose proof (count_nonneg tok l). lia.
Qed.

Lemma within_le used used' pending : (used' <= used)%Z -> within used pending -> within used' pending.
Proof. intros H Hw pre x post E. specialize (Hw pre x post E). lia. Qed.

Lemma within_app used p q : within used p -> within (used + zsum snd p) q -> within used (p ++ q).
Proof.
  revert used. induction p as [|x p IH]; intros used Hp Hq; [by unfold zsum in Hq; cbn in Hq; rewrite Z.add_0_r in Hq|].
  cbn [app]. apply within_cons; [pose proof (Hp [] x p eq_refl) as H; unfold zsum in H; cbn in H; lia|]. apply IH.
  - intros pre y post E. specialize (Hp (x :: pre) y post). unfold zsum in *. cbn [foldr] in Hp.
    assert (x :: p = x :: pre ++ y :: post)%list as E' by by rewrite E. specialize (Hp E'). lia.
  - intros pre y post E. specialize (Hq pre y post E). unfold zsum in *. cbn [foldr] in Hq. lia.
Qed.

Lemma render_blocks_spec groups : forall used b,
  let '(blocks, b') := render_blocks tok env slice groups used b in
  (remaining b' <= remaining b)%Z /\
  admissions_by_tier "facts" b' = (admissions_by_tier "facts" b ++ map fst (registered blocks))%list /\
  (forall tier, tier <> "facts" -> admissions_by_tier tier b' = admissions_by_tier tier b) /\
  Forall (block_of groups) blocks /\ within used (registered blocks) /\
  map fst (registered blocks) `sublist_of` map fact_id (concat (map snd groups)).
Proof.
  assert (forall (groups : list (text * list Fact)) used b, (remaining b <= remaining b)%Z /\
    admissions_by_tier "facts" b = (admissions_by_tier "facts" b ++ map fst (registered []))%list /\
    (forall tier, tier <> "facts" -> admissions_by_tier tier b = admissions_by_tier tier b) /\
    Forall (block_of groups) [] /\ within used (registered []) /\
    map fst (registered []) `sublist_of` map fact_id (concat (map snd groups))) as H0.
  { intros g used b. rewrite app_nil_r. split_and!; [lia|done|done|done| |apply sublist_nil_l]. by intros [|] ???. }
  induction groups as [|[subj facts] groups IH]; intros used b; cbn [render_blocks]; [apply H0|].
  destruct ((slice <=? used)%Z || (remaining b <=? 0)%Z); [apply H0|].
  pose proof (render_items_spec facts used b) as Hi.
  destruct (render_items tok slice facts used b) as [[[items pending] used'] b1].
  destruct Hi as (Hu&Hr&Ha&Hl&Hsub&Hw).
  pose proof (zsum_pending_nonneg _ _ _ Hl) as Hz. pose proof Ha as Ha'.
  assert (forall tier, admissions_by_tier tier b1 = admissions_by_tier tier b) as Hb1 by (intros; unfold admissions_by_tier; by rewrite Ha).
  assert (forall b2, admissions b2 = admissions b1 -> (remaining b2 <= remaining b1)%Z ->
    let '(blocks, b') := render_blocks tok env slice groups used' b2 in
    (remaining b' <= remaining b)%Z /\
    admissions_by_tier "facts" b' = (admissions_by_tier "facts" b ++ map fst (registered blocks))%list /\
    (forall tier, tier <> "facts" -> admissions_by_tier tier b' = admissions_by_tier tier b) /\
    Forall (block_of ((subj, facts) :: groups)) blocks /\ within used (registered blocks) /\
    map fst (registered blocks) `sublist_of` map fact_id (facts ++ concat (map snd groups))) as Hskip.
  { intros b2 H2 H2'. specialize (IH used' b2). destruct (render_blocks tok env slice groups used' b2) as [blocks b'].
    assert (forall tier, admissions_by_tier tier b2 = admissions_by_tier tier b) as Hb2
      by (intros; unfold admissions_by_tier; by rewrite H2, Ha).
    destruct IH as (J1&J2&J3&J4&J5&J6). rewrite Hb2 in J2. setoid_rewrite Hb2 in J3. split_and!; [lia|done|done| | |].
    - eapply Forall_impl; [exact J4|]. intros; by apply block_of_cons.
    - eapply within_le; [|exact J5]. lia.
    - rewrite map_app. by apply sublist_inserts_l. }
  cbn [map snd concat]. destruct items as [|it items]; [apply Hskip; [done|lia]|].
  set (hdr := (ztext "Known facts about " ++ _)%list).
  pose proof (try_add_cases tok hdr MIN_TOKENS_FACTS b1) as Hh. destruct (try_add tok hdr MIN_TOKENS_FACTS b1) as [h b2].
  destruct Hh as [(->&->&_)|(prefix&->&_&->&Hpre)]; [apply Hskip; [done|lia]|]. cbn [fst snd].
  pose proof (count_nonneg tok prefix) as Hn1.
  pose proof (try_add_cases tok (ztext (String "010" "")) 1 (spend (count_tokens tok prefix) b1)) as Hs.
  destruct (try_add tok (ztext (String "010" "")) 1 _) as [s b3].
  destruct Hs as [(->&->&_)|(sep&->&_&->&_)]; [apply Hskip; [done|cbn; lia]|].
  set (b4 := spend _ _). pose proof (count_nonneg tok sep) as Hn2.
  destruct (commit_spec pending b4) as (K1&K2&K3). specialize (IH used' (commit env pending b4)).
  destruct (render_blocks tok env slice groups used' _) as [blocks b']. destruct IH as (J1&J2&J3&J4&J5&J6).
  assert (forall tier, admissions_by_tier tier b4 = admissions_by_tier tier b) as Hb4 by (intros; apply Hb1).
  assert (registered (mkBlock (prefix ++ sep) (it :: items) pending :: blocks) = (pending ++ registered blocks)%list) as -> by done.
  rewrite map_app. split_and!.
  - rewrite K1 in J1. unfold b4 in J1. cbn [remaining spend] in J1. lia.
  - by rewrite J2, K2, Hb4, app_assoc.
  - intros tier Ht. by rewrite J3, K3, Hb4.
  - constructor; [|eapply Forall_impl; [exact J4|]; intros; by apply block_of_cons].
    exists subj, facts, prefix, sep. cbn [b_header b_items b_pending]. split; [left|]. split; [done|].
    split; [destruct Hpre as [[-> _]|(_&?&_)]; auto|]. done.
  - apply within_app; [done|]. by rewrite <- Hu.
  - rewrite map_app. by apply sublist_app.
Qed.
End render_props.

Lemma dset_concat_perm (g : text) (f : Fact) (groups : list (text * list Fact)) :
  concat (map snd (dset g (default [] (dget g groups) ++ [f])%list groups)) ≡ₚ f :: concat (map snd groups).
Proof.
  induction groups as [|[h l] groups IH]; [done|]. cbn [dget dset]. case_decide; cbn [map snd concat].
  - cbn [from_option id]. rewrite <- app_assoc. cbn [app]. by rewrite <- Permutation_middle.
  - rewrite IH. by rewrite <- Permutation_middle.
Qed.

Lemma group_facts_spec facts :
  concat (map snd (group_facts facts)) ≡ₚ facts /\
  forall subj l f, (subj, l) ∈ group_facts facts -> f ∈ l -> subject f = subj.
Proof.
  unfold group_facts. assert (forall groups : list (text * list Fact), dwf groups ->
    (forall subj l f, (subj, l) ∈ groups -> f ∈ l -> subject f = subj) ->
    concat (map snd (fold_left add_group facts groups)) ≡ₚ (concat (map snd groups) ++ facts)%list /\
    forall subj l f, (subj, l) ∈ fold_left add_group facts groups -> f ∈ l -> subject f = subj) as H.
  { induction facts as [|f facts IH]; intros groups Hw Hg; cbn [fold_left]; [by rewrite app_nil_r|].
    destruct (IH (add_group groups f)) as [H1 H2].
    - by apply dwf_dset.
    - intros subj l g Hin Hl. unfold add_group in Hin. apply elem_dget in Hin; [|by apply dwf_dset].
      destruct (decide (subject f = subj)) as [E|E].
      + rewrite <- E, dget_dset_eq in Hin. injection Hin as <-.
        apply elem_of_app in Hl as [Hl| ->%list_elem_of_singleton]; [|done].
        destruct (dget (subject f) groups) as [l'|] eqn:Eg; [|by apply not_elem_of_nil in Hl].
        cbn in Hl. rewrite <- E. by eapply Hg; [by apply dget_Some_elem|].
      + rewrite dget_dset_ne in Hin by done. eapply Hg; [by apply dget_Some_elem|done].
    - split; [|done]. rewrite H1. unfold add_group. rewrite dset_concat_perm. by rewrite <- Permutation_middle. }
  apply (H []); [by apply NoDup_nil|]. by intros ??? ?%not_elem_of_nil.
Qed.

(** The rendered section and the registry agree, whatever the tokenizer: what
    is registered for reinforcement is, in order and once each, the facts whose
    lines stand in the section (none where there is no section), each line that
    fact's own or cut to at least the floor, under a header of its subject;
    other tiers keep their registrations, the budget only shrinks, and the slice
    was not yet spent when the last line was taken. *)
Theorem section_registers_exactly tok env slice facts b :
  let '(section, b') := render_facts_section tok env slice facts b in
  exists blocks,
    section = match blocks with [] => None | _ => Some (join_text (ztext (String "010" (String "010" ""))) (map block_text blocks)) end /\
    admissions_by_tier "facts" b' = (admissions_by_tier "facts" b ++ map fst (registered blocks))%list /\
    (forall tier, tier <> "facts" -> admissions_by_tier tier b' = admissions_by_tier tier b) /\
    (remaining b' <= remaining b)%Z /\ within slice 0 (registered blocks) /\
    (NoDup (map fact_id facts) -> NoDup (map fst (registered blocks))) /\
    Forall (λ k, exists subj prefix sep, b_header k = (prefix ++ sep)%list /\
       (prefix = (ztext "Known facts about " ++ bounded_header_subject subj ++ ztext ":")%list \/
        (MIN_TOKENS_FACTS <= count_tokens tok prefix)%Z) /\
       b_items k <> [] /\
       Forall2 (line_of tok (List.filter (λ f, bool_decide (subject f = subj)) facts)) (b_items k) (b_pending k)) blocks.
Proof.
  unfold render_facts_section. destruct facts as [|f0 facts0] eqn:Ef.
  { exists []. split_and!; try done; [by rewrite app_nil_r|by intros [|] ???]. }
  rewrite <- Ef. clear f0 facts0 Ef. pose proof (render_blocks_spec tok env slice (group_facts facts) 0 b) as H.
  destruct (render_blocks tok env slice (group_facts facts) 0 b) as [blocks b']. destruct H as (H1&H2&H3&H4&H5&H6).
  destruct (group_facts_spec facts) as [G1 G2]. exists blocks. split_and!; [done..| |].
  - intros Hn. eapply sublist_NoDup; [|exact H6]. by rewrite G1.
  - eapply Forall_impl; [exact H4|]. intros k (subj&l&p&s&Hin&Hh&Hp&Hne&Hl). exists subj, p, s. split_and!; [done..|].
    eapply Forall2_impl; [exact Hl|]. intros line q (Hq&f&Hf&Hl'). split; [done|]. exists f. split; [|done].
    apply list_elem_of_In, filter_In. split.
    + apply list_elem_of_In. rewrite <- G1. apply list_elem_of_In, in_concat. exists l. split.
      * apply list_elem_of_In. by apply (list_elem_of_fmap_2 snd) in Hin.
      * by apply list_elem_of_In.
    + apply bool_decide_eq_true. by eapply G2.
Qed.

(** The header's subject: one within bounds is printed as it is; of any other
    at most 48 characters and the marker are, however long it is. *)
Theorem header_bounded subj :
  (length (bounded_header_subject subj) <= 49)%nat /\
  ((length (split_space [] subj) <= HEADER_SUBJECT_MAX_WORDS)%nat -> (length subj <= HEADER_SUBJECT_MAX_CHARS)%nat ->
   bounded_header_subject subj = as_text subj).
Proof.
  assert (forall s, length (as_text s) = length s) as Hlen by (intros; apply length_map).
  assert (forall s, length (rstrip_text s) <= length s)%nat as Hr.
  { intros s. unfold rstrip_text. rewrite length_reverse, <- (length_reverse s) at 1.
    induction (reverse s) as [|c t IH]; [done|]. cbn [drop_spaces]. destruct (space_cp c); cbn [length] in *; lia. }
  assert (forall s cur, split_space cur s <> []) as Hne.
  { induction s as [|c s IH]; intros cur; cbn [split_space]; [done|]. by destruct (c =? 32)%N. }
  assert (forall s cur, join_words (split_space cur s) = (cur ++ s)%list) as Hj.
  { induction s as [|c s IH]; intros cur; cbn [split_space]; [by rewrite app_nil_r|].
    destruct (N.eqb_spec c 32) as [->|].
    - destruct (split_space [] s) as [|w ws] eqn:E; [by destruct (Hne s [])|].
      change (join_words (cur :: w :: ws)) with (cur ++ 32%N :: join_words (w :: ws))%list. by rewrite <- E, IH.
    - rewrite IH. by rewrite <- app_assoc. }
  unfold bounded_header_subject, bound_subject. split.
  - destruct (Nat.ltb_spec HEADER_SUBJECT_MAX_CHARS (length (join_words (take HEADER_SUBJECT_MAX_WORDS (split_space [] subj))))).
    + rewrite length_app, Hlen. pose proof (Hr (take HEADER_SUBJECT_MAX_CHARS (join_words (take HEADER_SUBJECT_MAX_WORDS (split_space [] subj))))) as H1.
      rewrite length_take in H1. unfold HEADER_SUBJECT_MAX_CHARS in *. cbn [length _TRUNCATION_MARKER]. lia.
    + unfold HEADER_SUBJECT_MAX_CHARS in *. destruct (_ <? _)%nat; [rewrite length_app, Hlen; cbn [length _TRUNCATION_MARKER]; lia|rewrite Hlen; lia].
  - intros Hw Hc. rewrite take_ge by done. rewrite Hj. cbn [app].
    rewrite (proj2 (Nat.ltb_ge _ _)) by done. rewrite (proj2 (Nat.ltb_ge HEADER_SUBJECT_MAX_WORDS _)) by done. done.
Qed.

(** ** Witnesses *)

Definition event_from (sender : string) : AgentEvent := mkEvent MENTION [] (Some "room-1") (Some sender) None None 10 [].

Lemma event_recall_confined_witness :
  let facts := recall_facts_for_event (Some demo_store) topic_call (event_from "Atlas") FACTS_RECALL_LIMIT
    (Some (codes "Is PAYROLL done?")) SessDefault None topic_db in
  map fact_id facts = ["t1"; "t2"] /\ NoDup (map fact_id facts).
Proof.
  cbv zeta. split; [vm_compute; reflexivity|].
  apply (event_recall_confined demo_store topic_call (event_from "Atlas") FACTS_RECALL_LIMIT
    (Some (codes "Is PAYROLL done?")) SessDefault None topic_db).
Defined.

Definition section_demo := render_facts_section None None 30 (map row_to_fact (rows topic_db)) (new_budget 100).

Lemma section_registers_exactly_witness :
  admissions_by_tier "facts" section_demo.2 = ["t1"; "t2"; "t3"] /\ NoDup ["t1"; "t2"; "t3"] /\
  (remaining section_demo.2 <= 100)%Z.
Proof.
  split; [vm_compute; reflexivity|].
  pose proof (section_registers_exactly None None 30 (map row_to_fact (rows topic_db)) (new_budget 100)) as H.
  fold section_demo in H. assert (admissions_by_tier "facts" section_demo.2 = ["t1"; "t2"; "t3"]) as Hd by (vm_compute; reflexivity).
  destruct section_demo as [sec b']. destruct H as (blocks&_&Ha&_&Hr&_&Hn&_). cbn [snd] in *.
  split; [|exact Hr]. rewrite <- Hd, Ha. apply Hn. apply (bool_decide_unpack _). vm_compute. reflexivity.
Defined.
