(* ===== verification/ConveneTimer.v ===== *)
(** * Convene timers

    Models [agents/convene_timer.py], the correspondence of group channels and
    timer ids, and [agents/convene_timer_writer.py], the reconciliation of a
    convener's [autonomy] block with its standing channels. A block is parsed
    YAML: a [pydict]. *)

From Stdlib Require Import Ascii Sorted.
From S2P Require Import Prelude PyStr PyText PyDict PyValue PySort.
Local Open Scope string_scope.
Local Open Scope py_scope.

Definition STANDING_CONVENE_KIND : string := "convene".
Definition _STANDING_CONVENE_TIMER_PREFIX : string := "convene-".
Definition _GROUP_PREFIX : string := "group:".

(** [[a-z0-9]] and [[a-z0-9-]] *)
Definition name_alnum (c : ascii) : bool :=
  let n := code c in ((48 <=? n) && (n <=? 57) || (97 <=? n) && (n <=? 122))%N.
Definition name_char (c : ascii) : bool := name_alnum c || Ascii.eqb c "-".

Fixpoint name_tail (s : string) : bool :=
  match s with
  | EmptyString => false
  | String c EmptyString => name_alnum c
  | String c s => name_char c && name_tail s
  end.

(** [_CHANNEL_NAME_PATTERN.fullmatch(name)] *)
Definition channel_name (s : string) : bool :=
  match s with String c s => name_alnum c && name_tail s | EmptyString => false end.

Definition standing_convene_timer_id (channel_id : string) : option string :=
  match after_prefix _GROUP_PREFIX channel_id with
  | None => None
  | Some name => if channel_name name then Some (_STANDING_CONVENE_TIMER_PREFIX +:+ name) else None
  end.

Definition parse_standing_convene_timer_id (timer_id : string) : option string :=
  match after_prefix _STANDING_CONVENE_TIMER_PREFIX timer_id with
  | None => None
  | Some name => if channel_name name then Some (_GROUP_PREFIX +:+ name) else None
  end.

(** ** The writer *)

Definition _SCHEDULER_LEVELS : list string := ["semi-autonomous"; "autonomous"].
Definition _DEFAULT_LEVEL : string := "reactive".
Definition _MIN_SCHEDULER_LEVEL : string := "semi-autonomous".
Definition _LEGACY_TICK_ID : string := "legacy_tick".
Definition _LEGACY_TICK_KIND : string := "tick".
Definition _DEFAULT_TICK_INTERVAL_SECONDS : Z := 60.
Definition _MIN_INTERVAL_SECONDS : Z := 1.

Record ConveneSpec := mkSpec { spec_channel : string; spec_interval : Z }.

(** [{"id": ..., "interval_seconds": ..., "kind": ...}] *)
Definition timer_entry (id : string) (interval : pyval) (kind : string) : pydict :=
  [("id", VStr id); ("interval_seconds", interval); ("kind", VStr kind)].

Definition has_id (id : string) (t : pydict) : bool :=
  match dget "id" t with Some v => v_eq_str v id | None => false end.

Fixpoint _upsert_by_id (timers : list pydict) (id : string) (entry : pydict) : list pydict :=
  match timers with
  | [] => [entry]
  | t :: timers => if has_id id t then entry :: timers else t :: _upsert_by_id timers id entry
  end.

Definition is_convene (t : pydict) : bool :=
  match dget "kind" t with Some v => v_eq_str v STANDING_CONVENE_KIND | None => false end.

(** Iterating an entry that is no dict: [.get] raises. *)
Fixpoint entries_of (l : list pyval) : result string (list pydict) :=
  match l with
  | [] => Ok []
  | VDict d :: l => let! t := entries_of l in Ok (d :: t)
  | _ :: _ => Raise "AttributeError"
  end.

(** [src.get("timers") or []], iterated *)
Definition timer_entries (src : pydict) : result string (list pydict) :=
  match dget "timers" src with
  | None => Ok []
  | Some v =>
      if negb (vtruthy v) then Ok []
      else match v with
           | VList l => entries_of l
           | VStr _ | VDict _ => Raise "AttributeError"
           | _ => Raise "TypeError"
           end
  end.

Definition hashable (v : pyval) : bool := match v with VList _ | VDict _ => false | _ => true end.

Definition ids_hashable (timers : list pydict) : bool :=
  forallb (λ t, match dget "id" t with Some v => hashable v | None => true end) timers.

(** One spec: its checks, then the entry, refreshed or appended. *)
Definition arm_spec (reserved : list pydict) (timers : list pydict) (spec : ConveneSpec) : result string (list pydict) :=
  match standing_convene_timer_id (spec_channel spec) with
  | None => Raise "ValueError"
  | Some timer_id =>
      if (spec_interval spec <? _MIN_INTERVAL_SECONDS)%Z then Raise "ValueError"
      else if existsb (has_id timer_id) reserved then Raise "ValueError"
      else Ok (_upsert_by_id timers timer_id (timer_entry timer_id (VInt (spec_interval spec)) STANDING_CONVENE_KIND))
  end.

Fixpoint arm_specs (reserved timers : list pydict) (specs : list ConveneSpec) : result string (list pydict) :=
  match specs with
  | [] => Ok timers
  | spec :: specs => let! timers := arm_spec reserved timers spec in arm_specs reserved timers specs
  end.

(** [key=lambda t: t.get("id", "")] *)
Definition sort_key (t : pydict) : pyval := dget_or "id" (VStr "") t.
Definition is_str (v : pyval) : bool := match v with VStr _ => true | _ => false end.
Definition str_key (t : pydict) : string := match sort_key t with VStr s => s | _ => "" end.
Definition num_key (t : pydict) : Q := default 0%Q (vnum (sort_key t)).

(** [timers.sort(...)]: keys of two kinds, or [None]s, do not compare. *)
Definition sort_timers (timers : list pydict) : result string (list pydict) :=
  if (length timers <=? 1)%nat then Ok timers
  else if forallb (λ t, is_str (sort_key t)) timers then Ok (py_sorted (λ a b, String.leb (str_key a) (str_key b)) timers)
  else if forallb (λ t, bool_decide (is_Some (vnum (sort_key t)))) timers
  then Ok (py_sorted (λ a b, Qle_bool (num_key a) (num_key b)) timers)
  else Raise "TypeError".

Definition was_scheduling (src : pydict) : bool :=
  existsb (v_eq_str (dget_or "level" (VStr _DEFAULT_LEVEL) src)) _SCHEDULER_LEVELS.

(** [src.get("timers") is not None] *)
Definition had_timers_block (src : pydict) : bool :=
  match dget "timers" src with None | Some VNone => false | Some _ => true end.

(** The tick a scheduling convener without a block would lose. *)
Definition carried_tick (src : pydict) (specs : list ConveneSpec) (timers : list pydict) : list pydict :=
  match specs with
  | [] => timers
  | _ =>
      if was_scheduling src && negb (had_timers_block src)
      then _upsert_by_id timers _LEGACY_TICK_ID
             (timer_entry _LEGACY_TICK_ID (dget_or "tick_interval_seconds" (VInt _DEFAULT_TICK_INTERVAL_SECONDS) src) _LEGACY_TICK_KIND)
      else timers
  end.

Definition merge_convene_timers (autonomy : option pydict) (specs : list ConveneSpec) : result string pydict :=
  let src := default [] autonomy in
  let! existing := timer_entries src in
  let timers := carried_tick src specs (List.filter (λ t, negb (is_convene t)) existing) in
  if negb (ids_hashable timers) then Raise "TypeError"
  else
    let! timers := arm_specs timers timers specs in
    let! timers := sort_timers timers in
    let armed := match specs with [] => false | _ => true end in
    let merged := if armed || had_timers_block src then dset "timers" (VList (map VDict timers)) src else src in
    Ok (if armed && negb (was_scheduling src) then dset "level" (VStr _MIN_SCHEDULER_LEVEL) merged else merged).

Example merge_demo :
  merge_convene_timers (Some [("level", VStr "autonomous"); ("tick_interval_seconds", VInt 30)])
    [mkSpec "group:planning" 3600] =
  Ok [("level", VStr "autonomous"); ("tick_interval_seconds", VInt 30);
      ("timers", VList [VDict (timer_entry "convene-planning" (VInt 3600) "convene");
                        VDict (timer_entry "legacy_tick" (VInt 30) "tick")])].
Proof. reflexivity. Qed.

(** ** Timer ids *)

Lemma parse_of_timer_id channel timer :
  standing_convene_timer_id channel = Some timer -> parse_standing_convene_timer_id timer = Some channel.
Proof.
  unfold standing_convene_timer_id, parse_standing_convene_timer_id.
  destruct (after_prefix _GROUP_PREFIX channel) as [name|] eqn:E; [|done]. apply after_prefix_spec in E.
  destruct (channel_name name) eqn:En; [|done]. intros [= <-]. rewrite after_prefix_app, En. by rewrite E.
Qed.

(** The correspondence is one to one: a timer id encodes a channel exactly when
    it parses to it, so nothing but a group channel has a timer, every timer of
    a group channel finds its channel again, and no two channels share one. *)
Theorem timer_id_roundtrip channel timer :
  standing_convene_timer_id channel = Some timer <-> parse_standing_convene_timer_id timer = Some channel.
Proof.
  split; [apply parse_of_timer_id|]. unfold standing_convene_timer_id, parse_standing_convene_timer_id.
  destruct (after_prefix _STANDING_CONVENE_TIMER_PREFIX timer) as [name|] eqn:E; [|done]. apply after_prefix_spec in E.
  destruct (channel_name name) eqn:En; [|done]. intros [= <-]. rewrite after_prefix_app, En. by rewrite E.
Qed.

Lemma timer_id_inj c1 c2 t :
  standing_convene_timer_id c1 = Some t -> standing_convene_timer_id c2 = Some t -> c1 = c2.
Proof.
  unfold standing_convene_timer_id.
  destruct (after_prefix _GROUP_PREFIX c1) as [n1|] eqn:E1, (after_prefix _GROUP_PREFIX c2) as [n2|] eqn:E2; try done.
  apply after_prefix_spec in E1, E2. destruct (channel_name n1), (channel_name n2); try done.
  intros H1 H2. assert (Some n1 = Some n2) as [= ->]; [|congruence].
  rewrite <- (after_prefix_app _STANDING_CONVENE_TIMER_PREFIX n1), <- (after_prefix_app _STANDING_CONVENE_TIMER_PREFIX n2).
  congruence.
Qed.

(** ** Arming *)

Definition convene_entry (p : string * Z) : pydict := timer_entry p.1 (VInt p.2) STANDING_CONVENE_KIND.

(** The convene timers of the specs: per timer id, the last interval given. *)
Definition armed_timers (specs : list ConveneSpec) (d : list (string * Z)) : list (string * Z) :=
  fold_left (λ d s, match standing_convene_timer_id (spec_channel s) with
                    | Some t => dset t (spec_interval s) d | None => d end) specs d.

Lemma has_id_convene t p : has_id t (convene_entry p) = bool_decide (t = p.1).
Proof. cbn. by apply bool_decide_ext. Qed.

Lemma upsert_armed reserved t i d :
  existsb (has_id t) reserved = false ->
  _upsert_by_id (reserved ++ map convene_entry d) t (convene_entry (t, i)) = (reserved ++ map convene_entry (dset t i d))%list.
Proof.
  induction reserved as [|r reserved IH]; cbn [existsb app _upsert_by_id].
  - intros _. induction d as [|[u j] d IH]; [done|]. cbn [map _upsert_by_id dset]. rewrite has_id_convene. cbn [fst].
    case_bool_decide; case_decide; try done; [by subst|]. cbn [map]. by f_equal.
  - intros [H1 H2]%orb_false_iff. rewrite H1. f_equal. by apply IH.
Qed.

Lemma arm_specs_Ok reserved specs : forall d timers,
  arm_specs reserved (reserved ++ map convene_entry d) specs = Ok timers <->
  timers = (reserved ++ map convene_entry (armed_timers specs d))%list /\
  Forall (λ s, (_MIN_INTERVAL_SECONDS <= spec_interval s)%Z /\
    exists t, standing_convene_timer_id (spec_channel s) = Some t /\ existsb (has_id t) reserved = false) specs.
Proof.
  induction specs as [|s specs IH]; intros d timers; cbn [arm_specs armed_timers fold_left].
  - split; [by intros [= <-]|]. by intros [-> _].
  - rewrite rbind_Ok. unfold arm_spec. destruct (standing_convene_timer_id (spec_channel s)) as [t|] eqn:Et.
    2: { split; [by intros (?&?&_)|]. intros [_ Hf]. apply Forall_cons in Hf as [(_&t&?&_) _]. congruence. }
    destruct (Z.ltb_spec (spec_interval s) _MIN_INTERVAL_SECONDS).
    { split; [by intros (?&?&_)|]. intros [_ Hf]. apply Forall_cons in Hf as [(?&_) _]. lia. }
    destruct (existsb (has_id t) reserved) eqn:Er.
    { split; [by intros (?&?&_)|]. intros [_ Hf]. apply Forall_cons in Hf as [(_&t'&?&?) _]. congruence. }
    split.
    + intros (timers'&[= <-]&Hr). change (timer_entry t (VInt (spec_interval s)) STANDING_CONVENE_KIND) with (convene_entry (t, spec_interval s)) in Hr.
      rewrite upsert_armed in Hr by done. apply IH in Hr as [-> Hf]. split; [done|]. constructor; [|done]. eauto.
    + intros [-> Hf]. apply Forall_cons in Hf as [_ Hf]. eexists. split; [done|].
      change (timer_entry t (VInt (spec_interval s)) STANDING_CONVENE_KIND) with (convene_entry (t, spec_interval s)).
      rewrite upsert_armed by done. by apply IH.
Qed.

(** The last interval the specs give a channel. *)
Fixpoint last_interval (channel : string) (specs : list ConveneSpec) : option Z :=
  match specs with
  | [] => None
  | s :: specs =>
      match last_interval channel specs with
      | Some i => Some i
      | None => if bool_decide (spec_channel s = channel) then Some (spec_interval s) else None
      end
  end.

Lemma last_interval_spec channel specs i :
  last_interval channel specs = Some i -> exists s, s ∈ specs /\ spec_channel s = channel /\ spec_interval s = i.
Proof.
  induction specs as [|s specs IH]; [done|]. cbn [last_interval]. destruct (last_interval channel specs) as [j|].
  - intros [= ->]. destruct IH as (s'&?&?&?); [done|]. exists s'. split; [by right|done].
  - case_bool_decide; [|done]. intros [= <-]. exists s. split; [left|done].
Qed.

Lemma last_interval_None channel specs :
  last_interval channel specs = None -> forall s, s ∈ specs -> spec_channel s <> channel.
Proof.
  induction specs as [|s specs IH]; [intros _ s ?%not_elem_of_nil; done|]. cbn [last_interval].
  destruct (last_interval channel specs); [done|]. case_bool_decide; [done|]. intros _ s' [->|Hs']%elem_of_cons; [done|by apply IH].
Qed.

Lemma armed_timers_spec specs : forall d channel t,
  Forall (λ s, is_Some (standing_convene_timer_id (spec_channel s))) specs ->
  standing_convene_timer_id channel = Some t ->
  dget t (armed_timers specs d) = match last_interval channel specs with Some i => Some i | None => dget t d end.
Proof.
  induction specs as [|s specs IH]; intros d channel t Hs Ht; cbn [armed_timers fold_left last_interval]; [done|].
  apply Forall_cons in Hs as [[u Hu] Hs]. rewrite Hu. fold (armed_timers specs (dset u (spec_interval s) d)).
  rewrite (IH _ channel t Hs Ht). destruct (last_interval channel specs); [done|]. case_bool_decide as Hc.
  - subst. rewrite Hu in Ht. injection Ht as ->. by rewrite dget_dset_eq.
  - rewrite dget_dset_ne; [done|]. intros ->. apply Hc. by eapply timer_id_inj.
Qed.

Lemma armed_timers_wf specs d : dwf d -> dwf (armed_timers specs d).
Proof.
  unfold armed_timers. revert d. induction specs as [|s specs IH]; intros d Hw; cbn [fold_left]; [done|].
  apply IH. destruct (standing_convene_timer_id (spec_channel s)); [by apply dwf_dset|done].
Qed.

Lemma armed_timers_keys specs : forall d t i, (t, i) ∈ armed_timers specs d ->
  (t, i) ∈ d \/ exists s, s ∈ specs /\ standing_convene_timer_id (spec_channel s) = Some t.
Proof.
  unfold armed_timers. induction specs as [|s specs IH]; intros d t i Hin; cbn [fold_left] in Hin; [by left|].
  destruct (standing_convene_timer_id (spec_channel s)) as [u|] eqn:Eu.
  - apply IH in Hin as [Hin|(s'&Hs'&Ht)]; [|right; exists s'; by split; [right|]].
    destruct (decide (u = t)) as [->|Hne]; [right; exists s; by split; [left|]|]. left.
    clear -Hin Hne. induction d as [|[w j] d IH]; cbn [dset] in Hin.
    + apply list_elem_of_singleton in Hin. congruence.
    + case_decide; apply elem_of_cons in Hin as [E|Hin]; [congruence|by right|rewrite E; left|right; by apply IH].
  - apply IH in Hin as [Hin|(s'&Hs'&Ht)]; [by left|right; exists s'; by split; [right|]].
Qed.

(** ** Sorting *)

Definition str_le (a b : pydict) : bool := String.leb (str_key a) (str_key b).
Definition num_le (a b : pydict) : bool := Qle_bool (num_key a) (num_key b).

Lemma str_le_total a b : str_le a b = false -> str_le b a = true.
Proof. apply str_leb_total. Qed.
Lemma str_le_trans a b c : str_le a b = true -> str_le b c = true -> str_le a c = true.
Proof. apply str_leb_trans. Qed.
Lemma str_le_refl a : str_le a a = true.
Proof. destruct (str_le a a) eqn:E; [done|]. pose proof (str_le_total _ _ E). congruence. Qed.
Lemma num_le_total a b : num_le a b = false -> num_le b a = true.
Proof. unfold num_le. q_props. lra. Qed.
Lemma num_le_trans a b c : num_le a b = true -> num_le b c = true -> num_le a c = true.
Proof. unfold num_le. q_props. lra. Qed.
Lemma num_le_refl a : num_le a a = true.
Proof. unfold num_le. q_props. lra. Qed.

Lemma forallb_perm {A} (p : A -> bool) l k : l ≡ₚ k -> forallb p l = forallb p k.
Proof. induction 1; cbn [forallb]; rewrite ?IHPermutation; congruence || by destruct (p x), (p y). Qed.

Lemma sort_timers_perm l k : sort_timers l = Ok k -> k ≡ₚ l.
Proof.
  unfold sort_timers. destruct (length l <=? 1)%nat; [by intros [= ->]|]. destruct (forallb _ l); [intros [= <-]; apply py_sorted_perm|].
  destruct (forallb _ l); [intros [= <-]; apply py_sorted_perm|done].
Qed.

(** Reconciling what was reconciled: the timers the writer does not own, taken
    out of the sorted list, and its own again. *)
Lemma filter_unowned n c :
  Forall (λ t, is_convene t = false) n -> Forall (λ t, is_convene t = true) c ->
  List.filter (λ t, negb (is_convene t)) (n ++ c) = n.
Proof.
  intros Hn Hc. rewrite List.filter_app, filter_all, filter_none, app_nil_r; [done|..];
    (eapply Forall_impl; [eassumption|]; by intros ? ->).
Qed.

Lemma sort_timers_again n c k :
  Forall (λ t, is_convene t = false) n -> Forall (λ t, is_convene t = true) c ->
  sort_timers (n ++ c) = Ok k ->
  sort_timers (List.filter (λ t, negb (is_convene t)) k ++ c) = Ok k.
Proof.
  intros Hn Hc Hk. assert (List.filter (λ t, negb (is_convene t)) k ++ c ≡ₚ n ++ c) as Hp.
  { apply Permutation_app_tail. apply sort_timers_perm in Hk.
    by rewrite filter_as_stdpp, Hk, <- filter_as_stdpp, filter_unowned. }
  assert (Forall (λ t, negb (is_convene t) = true) n) as Hn' by (eapply Forall_impl; [exact Hn|]; by intros ? ->).
  assert (Forall (λ t, negb (is_convene t) = false) c) as Hc' by (eapply Forall_impl; [exact Hc|]; by intros ? ->).
  unfold sort_timers in *. rewrite (Permutation_length Hp), !(forallb_perm _ _ _ Hp).
  destruct (length (n ++ c) <=? 1)%nat; [injection Hk as <-; by rewrite filter_unowned|].
  destruct (forallb _ (n ++ c)); [injection Hk as <-; f_equal|destruct (forallb _ (n ++ c)); [injection Hk as <-; f_equal|done]].
  - apply (py_sorted_again str_le str_le_refl str_le_trans str_le_total); done.
  - apply (py_sorted_again num_le num_le_refl num_le_trans num_le_total); done.
Qed.

(** ** The writer *)

Lemma no_block_entries src : had_timers_block src = false -> timer_entries src = Ok [].
Proof. unfold had_timers_block, timer_entries. destruct (dget "timers" src) as [[]|]; done. Qed.

Definition unowned (src : pydict) (specs : list ConveneSpec) (existing : list pydict) : list pydict :=
  carried_tick src specs (List.filter (λ t, negb (is_convene t)) existing).

Lemma unowned_spec src specs existing :
  timer_entries src = Ok existing ->
  unowned src specs existing =
    if had_timers_block src then List.filter (λ t, negb (is_convene t)) existing
    else match specs with
         | [] => []
         | _ => if was_scheduling src
                then [timer_entry _LEGACY_TICK_ID (dget_or "tick_interval_seconds" (VInt _DEFAULT_TICK_INTERVAL_SECONDS) src) _LEGACY_TICK_KIND]
                else []
         end.
Proof.
  intros He. unfold unowned, carried_tick. destruct (had_timers_block src) eqn:Eb.
  - rewrite andb_false_r. by destruct specs.
  - rewrite no_block_entries in He by done. injection He as <-. destruct specs; [done|]. by destruct (was_scheduling src).
Qed.

Lemma unowned_not_convene src specs existing :
  timer_entries src = Ok existing -> Forall (λ t, is_convene t = false) (unowned src specs existing).
Proof.
  intros He. rewrite unowned_spec by done. destruct (had_timers_block src).
  - apply Forall_forall. intros t Ht%list_elem_of_In. apply filter_In in Ht as [_ Ht]. by apply negb_true_iff.
  - destruct specs; [done|]. destruct (was_scheduling src); [by repeat constructor|done].
Qed.

Lemma convene_entries_convene d : Forall (λ t, is_convene t = true) (map convene_entry d).
Proof. apply Forall_forall. by intros t (p&->&_)%list_elem_of_fmap. Qed.

Definition armed (specs : list ConveneSpec) : bool := match specs with [] => false | _ => true end.

(** The block with its timers and level written. *)
Definition written (src : pydict) (specs : list ConveneSpec) (k : list pydict) : pydict :=
  let merged := if armed specs || had_timers_block src then dset "timers" (VList (map VDict k)) src else src in
  if armed specs && negb (was_scheduling src) then dset "level" (VStr _MIN_SCHEDULER_LEVEL) merged else merged.

Lemma merge_Ok autonomy specs merged :
  merge_convene_timers autonomy specs = Ok merged <->
  let src := default [] autonomy in
  exists existing k, timer_entries src = Ok existing /\ ids_hashable (unowned src specs existing) = true /\
    Forall (λ s, (_MIN_INTERVAL_SECONDS <= spec_interval s)%Z /\
      exists t, standing_convene_timer_id (spec_channel s) = Some t /\ existsb (has_id t) (unowned src specs existing) = false) specs /\
    sort_timers (unowned src specs existing ++ map convene_entry (armed_timers specs [])) = Ok k /\
    merged = written src specs k.
Proof.
  cbv zeta. unfold merge_convene_timers. set (src := default [] autonomy). rewrite rbind_Ok. split.
  - intros (existing&He&H). fold (unowned src specs existing) in H.
    destruct (ids_hashable (unowned src specs existing)) eqn:Eh; [|done]. cbn [negb] in H.
    apply rbind_Ok in H as (timers&Ha&(k&Hk&[= <-])%rbind_Ok).
    rewrite <- (app_nil_r (unowned src specs existing)) in Ha at 2. change [] with (map convene_entry []) in Ha.
    apply arm_specs_Ok in Ha as [-> Hf]. exists existing, k. split_and!; done.
  - intros (existing&k&He&Hh&Hf&Hk&->). exists existing. split; [done|]. fold (unowned src specs existing). rewrite Hh. cbn [negb].
    apply rbind_Ok. exists (unowned src specs existing ++ map convene_entry (armed_timers specs []))%list. split.
    + rewrite <- (app_nil_r (unowned src specs existing)) at 2. change [] with (map convene_entry []) at 1. by apply arm_specs_Ok.
    + apply rbind_Ok. by exists k.
Qed.

Lemma entries_of_dicts k : entries_of (map VDict k) = Ok k.
Proof. induction k as [|d k IH]; [done|]. cbn [map entries_of]. by rewrite IH. Qed.

Lemma written_entries src specs k :
  armed specs || had_timers_block src = true ->
  timer_entries (written src specs k) = Ok k /\ had_timers_block (written src specs k) = true.
Proof.
  intros Ha. unfold written. rewrite Ha. unfold timer_entries, had_timers_block.
  assert (forall d, dget "timers" (if armed specs && negb (was_scheduling src) then dset "level" (VStr _MIN_SCHEDULER_LEVEL) d else d) = dget "timers" d) as E.
  { intros d. destruct (_ && _); [by rewrite dget_dset_ne|done]. }
  rewrite E, dget_dset_eq. destruct k as [|d k]; [done|]. cbn [map vtruthy negb]. by rewrite <- (entries_of_dicts (d :: k)).
Qed.

Lemma written_block src specs k :
  armed specs || had_timers_block src = true -> dget "timers" (written src specs k) = Some (VList (map VDict k)).
Proof.
  intros Ha. unfold written. rewrite Ha. destruct (_ && _); [by rewrite dget_dset_ne, dget_dset_eq|by rewrite dget_dset_eq].
Qed.

Lemma written_scheduling src specs k :
  was_scheduling (written src specs k) = armed specs || was_scheduling src.
Proof.
  unfold written. destruct (was_scheduling src) eqn:Ew.
  - rewrite orb_true_r, andb_false_r. unfold was_scheduling in *. destruct (_ || _); [|done].
    unfold dget_or. by rewrite dget_dset_ne.
  - rewrite orb_false_r, andb_true_r. destruct (armed specs); cbn [orb].
    + unfold was_scheduling, dget_or. by rewrite dget_dset_eq.
    + destruct (had_timers_block src); [|done]. unfold was_scheduling, dget_or in *. by rewrite dget_dset_ne.
Qed.

(** The convene timers of a merged block: the standing channels, one timer each,
    at their last given interval. *)
Lemma written_timers src specs existing k :
  timer_entries src = Ok existing ->
  Forall (λ s, (_MIN_INTERVAL_SECONDS <= spec_interval s)%Z /\
    exists t, standing_convene_timer_id (spec_channel s) = Some t /\ existsb (has_id t) (unowned src specs existing) = false) specs ->
  sort_timers (unowned src specs existing ++ map convene_entry (armed_timers specs [])) = Ok k ->
  (forall e, e ∈ k /\ is_convene e = true <->
     exists channel id i, last_interval channel specs = Some i /\ standing_convene_timer_id channel = Some id /\
       e = timer_entry id (VInt i) STANDING_CONVENE_KIND) /\
  List.filter (λ t, negb (is_convene t)) k ≡ₚ unowned src specs existing.
Proof.
  intros He Hf Hk. pose proof (sort_timers_perm _ _ Hk) as Hp. pose proof (unowned_not_convene src specs existing He) as Hu.
  assert (Forall (λ s, is_Some (standing_convene_timer_id (spec_channel s))) specs) as Hs
    by (eapply Forall_impl; [exact Hf|]; by intros ? (_&?&?&_)).
  split.
  - intros e. rewrite Hp, elem_of_app. split.
    + intros [[Hin|Hin] Hc]; [rewrite Forall_forall in Hu; by rewrite (Hu e Hin) in Hc|].
      apply list_elem_of_fmap in Hin as ([t i]&->&Hin).
      destruct (armed_timers_keys _ _ _ _ Hin) as [?%not_elem_of_nil|(s&Hin'&Ht)]; [done|].
      exists (spec_channel s), t, i. split; [|done].
      apply elem_dget in Hin; [|apply armed_timers_wf; by apply NoDup_nil].
      erewrite armed_timers_spec in Hin by eassumption. by destruct (last_interval (spec_channel s) specs).
    + intros (channel&t&i&Hl&Ht&->). split; [|done]. right. apply list_elem_of_fmap. exists (t, i). split; [done|].
      apply dget_Some_elem. erewrite armed_timers_spec by eassumption. by rewrite Hl.
  - rewrite filter_as_stdpp, Hp, <- filter_as_stdpp. by rewrite filter_unowned by (done || apply convene_entries_convene).
Qed.

(** The block after a merge. Its convene timers are exactly the standing
    channels', one per channel at its last given interval; every timer of
    another kind is kept, and a scheduling convener that had no block keeps its
    tick; it schedules whenever a timer was armed, its level otherwise as it
    was; nothing else changes; and with nothing to arm and no block to clean,
    nothing changes at all. *)
Theorem merge_reconciles autonomy specs merged :
  merge_convene_timers autonomy specs = Ok merged ->
  let src := default [] autonomy in
  (armed specs || had_timers_block src = false -> merged = src) /\
  was_scheduling merged = armed specs || was_scheduling src /\
  (was_scheduling src = true -> dget "level" merged = dget "level" src) /\
  (forall key, key <> "timers" -> key <> "level" -> dget key merged = dget key src) /\
  (armed specs || had_timers_block src = true ->
   exists existing timers, timer_entries src = Ok existing /\ dget "timers" merged = Some (VList (map VDict timers)) /\
     (forall e, e ∈ timers /\ is_convene e = true <->
        exists channel id i, last_interval channel specs = Some i /\ standing_convene_timer_id channel = Some id /\
          e = timer_entry id (VInt i) STANDING_CONVENE_KIND) /\
     List.filter (λ t, negb (is_convene t)) timers ≡ₚ
       (if had_timers_block src then List.filter (λ t, negb (is_convene t)) existing
        else if was_scheduling src
             then [timer_entry _LEGACY_TICK_ID (dget_or "tick_interval_seconds" (VInt _DEFAULT_TICK_INTERVAL_SECONDS) src) _LEGACY_TICK_KIND]
             else [])).
Proof.
  intros H. apply merge_Ok in H as (existing&k&He&_&Hf&Hk&->). cbv zeta. set (src := default [] autonomy) in *.
  split_and!.
  - intros [Ha Hb]%orb_false_iff. unfold written. by rewrite Ha, Hb.
  - apply written_scheduling.
  - intros Hw. unfold written. rewrite Hw, andb_false_r. destruct (_ || _); [by rewrite dget_dset_ne|done].
  - intros key H1 H2. unfold written. destruct (_ && _), (_ || _); rewrite ?dget_dset_ne; done.
  - intros Ha. exists existing, k. split; [done|]. split; [by apply written_block|].
    destruct (written_timers src specs existing k He Hf Hk) as [H1 H2]. split; [done|].
    rewrite H2, unowned_spec by done. destruct (had_timers_block src); [done|]. by destruct specs.
Qed.

(** Writing a block back and merging again changes nothing: a round trip of the
    configuration is stable. *)
Theorem merge_idempotent autonomy specs merged :
  merge_convene_timers autonomy specs = Ok merged -> merge_convene_timers (Some merged) specs = Ok merged.
Proof.
  intros H. pose proof H as (existing&k&He&Hh&Hf&Hk&Hm)%merge_Ok. set (src := default [] autonomy) in *.
  destruct (armed specs || had_timers_block src) eqn:Ea.
  - apply merge_Ok. cbn [default from_option id]. destruct (written_entries src specs k Ea) as [Hwe Hwb].
    rewrite <- Hm in Hwe, Hwb. pose proof (sort_timers_perm _ _ Hk) as Hp.
    pose proof (unowned_not_convene src specs existing He) as Hu. pose proof (convene_entries_convene (armed_timers specs [])) as Hc.
    assert (unowned merged specs k = List.filter (λ t, negb (is_convene t)) k) as Hun by by rewrite unowned_spec, Hwb.
    assert (unowned merged specs k ≡ₚ unowned src specs existing) as Hup
      by by rewrite Hun, filter_as_stdpp, Hp, <- filter_as_stdpp, filter_unowned.
    exists k, k. split_and!; [done| | | |].
    + rewrite <- Hh. unfold ids_hashable. by apply forallb_perm.
    + eapply Forall_impl; [exact Hf|]. intros s (H1&t&H2&H3). split; [done|]. exists t. split; [done|].
      rewrite <- H3. apply eq_true_iff_eq. rewrite !existsb_exists. setoid_rewrite <- list_elem_of_In. by setoid_rewrite Hup.
    + rewrite Hun. by apply (sort_timers_again (unowned src specs existing)).
    + unfold written. rewrite Hwb, orb_true_r.
      assert (was_scheduling merged = armed specs || was_scheduling src) as -> by (rewrite Hm; apply written_scheduling).
      assert (armed specs && negb (armed specs || was_scheduling src) = false) as -> by by destruct (armed specs).
      symmetry. apply dset_same. rewrite Hm. by apply written_block.
  - apply orb_false_iff in Ea as [Ha Hb]. assert (merged = src) as -> by (rewrite Hm; unfold written; by rewrite Ha, Hb).
    apply merge_Ok. cbn [default from_option id]. exists existing, k. split_and!; done.
Qed.

(** ** Witnesses *)

Definition demo_block : pydict :=
  [("level", VStr "reactive");
   ("timers", VList [VDict (timer_entry "reflect" (VInt 600) "reflection"); VDict (timer_entry "convene-old-room" (VInt 60) "convene")])].

Definition demo_specs : list ConveneSpec := [mkSpec "group:planning" 3600; mkSpec "group:ops" 60; mkSpec "group:planning" 1800].

Definition demo_merged : pydict :=
  [("level", VStr "semi-autonomous");
   ("timers", VList [VDict (timer_entry "convene-ops" (VInt 60) "convene"); VDict (timer_entry "convene-planning" (VInt 1800) "convene");
                     VDict (timer_entry "reflect" (VInt 600) "reflection")])].

Lemma merge_reconciles_witness :
  merge_convene_timers (Some demo_block) demo_specs = Ok demo_merged /\ was_scheduling demo_merged = true.
Proof.
  split; [reflexivity|]. apply (merge_reconciles (Some demo_block) demo_specs demo_merged). reflexivity.
Defined.

Lemma merge_idempotent_witness : merge_convene_timers (Some demo_merged) demo_specs = Ok demo_merged.
Proof. apply (merge_idempotent (Some demo_block) demo_specs demo_merged). reflexivity. Defined.

Lemma timer_id_roundtrip_witness : parse_standing_convene_timer_id "convene-convene-foo" = Some "group:convene-foo".
Proof. apply timer_id_roundtrip. reflexivity. Defined.
