(* ===== verification/ScheduledWakes.v ===== *)
(** * Scheduled wakes and persona timers

    Models [agents/memory/scheduled_wakes.py], the per-agent cache of timer
    anchors, and [agents/server_persona_timers.py], which rebuilds it from the
    configuration and registers the timers on the agent's loop, resuming the
    anchors a previous process saved.

    The table is the list of its rows; a statement is its meaning on it, and
    what SQLite itself may raise is the argument [faults]. A configured timer
    has the fields the agent schema gives it. *)

From Stdlib Require Import Qround Sorted.
From S2P Require Import Prelude PyStr PyDict PyValue PyFloat PySort PersonaEvents EventLoop EventLoopProps Timers.
Local Open Scope string_scope.
Local Open Scope py_scope.

(** ** [memory/scheduled_wakes.py] *)

Record ScheduledWakeRow := mkWakeRow {
  timer_id : string;
  kind : string;
  interval_ms : option Z;
  jitter_ms : Z;
  next_fire_at_ms : Z;
  source : string;
}.

(** The table [scheduled_wakes]: the column [agent_id], then the row. *)
Abbreviation wake_table := (list (string * ScheduledWakeRow)).

Record ScheduledWakesCache := mkCache { cache_agent : string; conn_open : bool }.

Definition new_cache (agent_id : string) : ScheduledWakesCache := mkCache agent_id false.
Definition close_cache (c : ScheduledWakesCache) : ScheduledWakesCache := mkCache (cache_agent c) false.

(** What the database raises in each operation, if anything. *)
Record Faults := mkFaults { on_open : option string; on_select : option string; on_write : option string }.
Definition no_faults : Faults := mkFaults None None None.

Definition initialize (faults : Faults) (c : ScheduledWakesCache) : result string ScheduledWakesCache :=
  if conn_open c then Ok c
  else match on_open faults with Some e => Raise e | None => Ok (mkCache (cache_agent c) true) end.

(** A Python [int] the driver can bind. *)
Definition sqlite_int (z : Z) : bool := ((- 2 ^ 63 <=? z) && (z <? 2 ^ 63))%Z.

Definition bindable (row : ScheduledWakeRow) : bool :=
  match interval_ms row with Some i => sqlite_int i | None => true end &&
  sqlite_int (jitter_ms row) && sqlite_int (next_fire_at_ms row).

(** [CHECK (source IN ('config', 'runtime'))] *)
Definition source_allowed (row : ScheduledWakeRow) : bool :=
  bool_decide (source row ∈ ["config"; "runtime"]).

(** [PRIMARY KEY (agent_id, timer_id)] *)
Definition same_key (agent_id id : string) (r : string * ScheduledWakeRow) : bool :=
  bool_decide (r.1 = agent_id /\ timer_id r.2 = id).

Definition insert_row (agent_id : string) (row : ScheduledWakeRow) (t : wake_table) : result string wake_table :=
  if negb (bindable row) then Raise "OverflowError"
  else if negb (source_allowed row) || existsb (same_key agent_id (timer_id row)) t then Raise "IntegrityError"
  else Ok (t ++ [(agent_id, row)])%list.

Fixpoint insert_rows (agent_id : string) (rows : list ScheduledWakeRow) (t : wake_table) : result string wake_table :=
  match rows with
  | [] => Ok t
  | row :: rows => let! t := insert_row agent_id row t in insert_rows agent_id rows t
  end.

Definition rows_of (agent_id : string) (t : wake_table) : list ScheduledWakeRow :=
  (filter (λ r, r.1 = agent_id) t).*2.

(** One transaction: what raises rolls the table back. *)
Definition rebuild_from_config (faults : Faults) (rows : list ScheduledWakeRow) (c : ScheduledWakesCache)
    (t : wake_table) : result string unit * wake_table :=
  if negb (conn_open c) then (Raise "RuntimeError", t)
  else match on_write faults with
       | Some e => (Raise e, t)
       | None =>
           match insert_rows (cache_agent c) rows (filter (λ r, r.1 <> cache_agent c) t) with
           | Ok t' => (Ok tt, t')
           | Raise e => (Raise e, t)
           end
       end.

(** [ORDER BY timer_id] *)
Definition id_le (a b : ScheduledWakeRow) : bool := String.leb (timer_id a) (timer_id b).

Definition list_timers (faults : Faults) (c : ScheduledWakesCache) (t : wake_table) :
    result string (list ScheduledWakeRow) :=
  if negb (conn_open c) then Raise "RuntimeError"
  else match on_select faults with
       | Some e => Raise e
       | None => Ok (py_sorted id_le (rows_of (cache_agent c) t))
       end.

(** ** [server_persona_timers.py] *)

Record TimerConfig := mkTimerConfig {
  cfg_id : string;
  cfg_kind : string;
  interval_seconds : Q;
  jitter_max_seconds : option Q;
}.

Definition jitter_seconds (cfg : TimerConfig) : Q := default 0%Q (jitter_max_seconds cfg).

(** The saved anchor, while it is still ahead. *)
Definition ahead (saved_anchors_ms : gmap string Z) (now_ms : Z) (cfg : TimerConfig) : option Z :=
  match saved_anchors_ms !! cfg_id cfg with
  | Some saved => if (now_ms <? saved)%Z then Some saved else None
  | None => None
  end.

Definition wake_row (now_ms : Z) (saved_anchors_ms : gmap string Z) (cfg : TimerConfig) : ScheduledWakeRow :=
  let interval_ms := py_round (interval_seconds cfg * 1000) in
  mkWakeRow (cfg_id cfg) (cfg_kind cfg) (Some interval_ms) (py_round (jitter_seconds cfg * 1000))
    (match ahead saved_anchors_ms now_ms cfg with
     | Some saved => saved
     | None => (now_ms + interval_ms)%Z
     end)
    "config".

Definition _build_scheduled_wake_rows (timers : list TimerConfig) (now_ms : Z) (saved_anchors_ms : gmap string Z) :
    list ScheduledWakeRow :=
  map (wake_row now_ms saved_anchors_ms) timers.

(** The delay of a resumed first fire. *)
Definition resume_delay (now_ms saved : Z) (cfg : TimerConfig) : Q :=
  let raw := (inject_Z (saved - now_ms) / 1000)%Q in
  fmax MIN_INTERVAL (fmin raw (interval_seconds cfg + jitter_seconds cfg)).

Definition initial_delay (saved_anchors_ms : gmap string Z) (now_ms : option Z) (cfg : TimerConfig) : option Q :=
  match now_ms with
  | None => None
  | Some now_ms => option_map (λ saved, resume_delay now_ms saved cfg) (ahead saved_anchors_ms now_ms cfg)
  end.

(** [draws i] is the generator's draw for the [i]-th timer. *)
Fixpoint register_each (saved_anchors_ms : gmap string Z) (now_ms : option Z) (draws : nat -> Q) (i : nat)
    (timers : list TimerConfig) (t : Timers) : result string unit * Timers :=
  match timers with
  | [] => (Ok tt, t)
  | cfg :: timers =>
      match register_timer (cfg_id cfg) (cfg_kind cfg) (Some (interval_seconds cfg)) (jitter_seconds cfg) None
              (initial_delay saved_anchors_ms now_ms cfg) (draws i) t with
      | Raise e => (Raise e, t)
      | Ok t => register_each saved_anchors_ms now_ms draws (S i) timers t
      end
  end.

(** [await scheduler.stop()] runs to its first await; the stop then under way
    is the loop's own. *)
Definition _register_configured_timers (saved_anchors_ms : gmap string Z) (now_ms : option Z) (draws : nat -> Q)
    (timers : list TimerConfig) (t : Timers) : result string unit * Timers :=
  match register_each saved_anchors_ms now_ms draws 0 timers t with
  | (Ok _, t) => (Ok tt, t)
  | (Raise e, t) => (Raise e, stop_timers t)
  end.

(** What the initialisation of a persona's timers reads and writes: the shared
    table, the persona's loop, and the caches the server will close. *)
Record Wakes := mkWakes {
  w_table : wake_table;
  w_loop : Timers;
  w_caches : option (gmap string ScheduledWakesCache);
}.

Definition saved_anchors (existing : list ScheduledWakeRow) : gmap string Z :=
  fold_left (λ m row, if (0 <? next_fire_at_ms row)%Z then <[timer_id row := next_fire_at_ms row]> m else m) existing ∅.

(** Opening the cache, reading the anchors and rebuilding. *)
Definition setup_cache (faults : Faults) (agent_id : string) (timers : list TimerConfig) (now_ms : Z) (t : wake_table) :
    result string (ScheduledWakesCache * gmap string Z) * wake_table :=
  match initialize faults (new_cache agent_id) with
  | Raise e => (Raise e, t)
  | Ok cache =>
      match list_timers faults cache t with
      | Raise e => (Raise e, t)
      | Ok existing =>
          let saved := saved_anchors existing in
          match rebuild_from_config faults (_build_scheduled_wake_rows timers now_ms saved) cache t with
          | (Raise e, t) => (Raise e, t)
          | (Ok _, t) => (Ok (cache, saved), t)
          end
      end
  end.

Definition init_persona_timers (faults : Faults) (agent_id : string) (timers : list TimerConfig) (clock_ms : Z)
    (draws : nat -> Q) (w : Wakes) : result string unit * Wakes :=
  match w_caches w with
  | None =>
      let '(r, t) := _register_configured_timers ∅ None draws timers (w_loop w) in
      (r, mkWakes (w_table w) t None)
  | Some caches =>
      match setup_cache faults agent_id timers clock_ms (w_table w) with
      | (Raise e, table) => (Raise e, mkWakes table (stop_timers (w_loop w)) (Some caches))
      | (Ok (cache, saved), table) =>
          match _register_configured_timers saved (Some clock_ms) draws timers (w_loop w) with
          | (Raise e, t) => (Raise e, mkWakes table t (Some caches))
          | (Ok _, t) => (Ok tt, mkWakes table t (Some (<[agent_id := cache]> caches)))
          end
      end
  end.

(** ** The table *)

Definition row_ok (row : ScheduledWakeRow) : Prop := bindable row = true /\ source_allowed row = true.

Lemma rows_of_app agent t t' : rows_of agent (t ++ t') = (rows_of agent t ++ rows_of agent t')%list.
Proof. unfold rows_of. by rewrite filter_app, fmap_app. Qed.

Lemma rows_of_own agent rows : rows_of agent (map (pair agent) rows) = rows.
Proof.
  unfold rows_of. rewrite filter_true_all; [|by apply Forall_forall; intros r (?&->&_)%list_elem_of_fmap].
  induction rows as [|r rows IH]; [done|]. cbn [map fmap list_fmap snd]. by f_equal.
Qed.

Lemma rows_of_others agent other rows : other <> agent -> rows_of other (map (pair agent) rows) = [].
Proof.
  intros Hne. unfold rows_of. induction rows as [|r rows IH]; [done|]. cbn [map]. rewrite filter_cons.
  by rewrite decide_False by (cbn; congruence).
Qed.

Lemma rows_of_deleted agent other t :
  rows_of other (filter (λ r, r.1 <> agent) t) = if decide (other = agent) then [] else rows_of other t.
Proof.
  unfold rows_of. rewrite filter_filter_and. case_decide as Hd.
  - subst. induction t as [|r t IH]; [done|]. rewrite filter_cons. by rewrite decide_False by tauto.
  - f_equal. apply filter_ext_Forall, Forall_forall. intros r _. split; [tauto|]. intros ->. tauto.
Qed.

Lemma taken_spec agent id t : existsb (same_key agent id) t = false <-> id ∉ map timer_id (rows_of agent t).
Proof.
  induction t as [|[a r] t IH]; [split; [intros _; apply not_elem_of_nil|done]|].
  cbn [existsb]. rewrite orb_false_iff, IH. unfold same_key, rows_of. rewrite filter_cons. cbn [fst snd].
  rewrite bool_decide_eq_false. case_decide; cbn [fmap list_fmap map snd]; [|split; [tauto|]; intros; split; [tauto|done]].
  rewrite not_elem_of_cons. split; intros [H1 H2]; (split; [|done]); [intros ->; by apply H1|intros [_ <-]; by apply H1].
Qed.

(** Inserting succeeds exactly on valid rows with fresh, distinct timer ids. *)
Lemma insert_rows_Ok agent rows : forall t t',
  insert_rows agent rows t = Ok t' <->
  t' = (t ++ map (pair agent) rows)%list /\ Forall row_ok rows /\
  NoDup (map timer_id rows) /\ (forall id, id ∈ map timer_id rows -> id ∉ map timer_id (rows_of agent t)).
Proof.
  induction rows as [|row rows IH]; intros t t'; cbn [insert_rows map].
  - rewrite app_nil_r. split; [intros [= <-]|by intros [-> _]].
    split_and!; [done|constructor..|]. by intros id ?%not_elem_of_nil.
  - rewrite rbind_Ok, Forall_cons, NoDup_cons. unfold insert_row, row_ok at 1.
    destruct (bindable row); cbn [negb]; [|split; [by intros (?&?&_)|by intros (_&[[]]&_)]].
    destruct (source_allowed row); cbn [negb orb]; [|split; [by intros (?&?&_)|by intros (_&[[]]&_)]].
    destruct (existsb (same_key agent (timer_id row)) t) eqn:Ek.
    + split; [by intros (?&?&_)|]. intros (_&_&_&Hf). specialize (Hf (timer_id row) ltac:(left)).
      apply taken_spec in Hf. congruence.
    + apply taken_spec in Ek. change (pair agent row :: map (pair agent) rows) with ([(agent, row)] ++ map (pair agent) rows)%list.
      rewrite app_assoc. split.
      * intros (?&[= <-]&(->&Hr&Hd&Hf)%IH).
        assert (forall id, id ∈ map timer_id rows -> id <> timer_id row /\ id ∉ map timer_id (rows_of agent t)) as Hf'.
        { intros id Hin. specialize (Hf id Hin). rewrite rows_of_app, map_app, not_elem_of_app in Hf. destruct Hf as [? Hf].
          change [(agent, row)] with (map (pair agent) [row]) in Hf. rewrite rows_of_own in Hf. cbn [map] in Hf.
          rewrite list_elem_of_singleton in Hf. done. }
        split_and!; try done.
        -- intros Hin. by destruct (Hf' _ Hin).
        -- intros id [->|Hin]%elem_of_cons; [done|]. by apply Hf'.
      * intros (->&[_ Hr]&[Hn Hd]&Hf). eexists. split; [done|]. apply IH. split_and!; try done.
        intros id Hin. rewrite rows_of_app, map_app, not_elem_of_app. split; [apply Hf; by right|].
        change [(agent, row)] with (map (pair agent) [row]). rewrite rows_of_own. cbn [map].
        rewrite list_elem_of_singleton. by intros ->.
Qed.

(** Everything a rebuild does, raising or not. *)
Lemma rebuild_spec faults rows c t :
  conn_open c = true -> on_write faults = None ->
  let '(r, t') := rebuild_from_config faults rows c t in
  (r = Ok tt <-> Forall row_ok rows /\ NoDup (map timer_id rows)) /\
  (r = Ok tt -> rows_of (cache_agent c) t' = rows) /\
  (r <> Ok tt -> t' = t) /\
  (forall other, other <> cache_agent c -> rows_of other t' = rows_of other t).
Proof.
  intros Ho Hw. unfold rebuild_from_config. rewrite Ho, Hw. cbn [negb].
  destruct (insert_rows _ _ _) as [t'|e] eqn:E.
  - apply insert_rows_Ok in E as (->&Hr&Hd&_). split_and!; [done|intros _|done|intros other Hne].
    + rewrite rows_of_app, rows_of_deleted, decide_True by done. apply rows_of_own.
    + rewrite rows_of_app, rows_of_deleted, decide_False, rows_of_others, app_nil_r; done.
  - split_and!; try done. split; [done|]. intros [Hr Hd]. exfalso.
    assert (exists x, insert_rows (cache_agent c) rows (filter (λ r, r.1 <> cache_agent c) t) = Ok x) as [x Hx]; [|congruence].
    eexists. apply insert_rows_Ok. split_and!; try done. intros id _. rewrite rows_of_deleted, decide_True by done.
    apply not_elem_of_nil.
Qed.

Lemma id_le_total a b : id_le a b = false -> id_le b a = true.
Proof. apply str_leb_total. Qed.
Lemma id_le_trans a b c : id_le a b = true -> id_le b c = true -> id_le a c = true.
Proof. apply str_leb_trans. Qed.

(** Rebuilding the cache is all or nothing: it succeeds exactly when every row
    can be stored and no timer id repeats; then the agent reads back its rows,
    in the order of their ids; otherwise it still reads what it read before.
    Either way no other agent's timers change. *)
Theorem rebuild_reads_back faults agent other rows t :
  on_write faults = None -> on_select faults = None -> other <> agent ->
  let c := mkCache agent true in
  let '(r, t') := rebuild_from_config faults rows c t in
  (r = Ok tt <-> Forall row_ok rows /\ NoDup (map timer_id rows)) /\
  (r = Ok tt -> exists l, list_timers faults c t' = Ok l /\ l ≡ₚ rows /\ StronglySorted (λ a b, id_le a b = true) l) /\
  (r <> Ok tt -> list_timers faults c t' = list_timers faults c t) /\
  list_timers faults (mkCache other true) t' = list_timers faults (mkCache other true) t.
Proof.
  intros Hw Hs Hne c. pose proof (rebuild_spec faults rows c t eq_refl Hw) as H.
  destruct (rebuild_from_config faults rows c t) as [r t']. destruct H as (H1&H2&H3&H4). unfold list_timers. rewrite Hs. cbn [conn_open negb c].
  split_and!; [done| | |].
  - intros Hr. eexists. split; [done|]. rewrite (H2 Hr). split; [apply py_sorted_perm|].
    apply py_sorted_sorted; [apply id_le_total|apply id_le_trans].
  - intros Hr. by rewrite (H3 Hr).
  - cbn [cache_agent]. by rewrite H4.
Qed.

(** ** Registration *)

(** Timer [cfg] is registered as configured and comes due after [d]. *)
Definition due_in (t : Timers) (cfg : TimerConfig) (d : Q) : Prop :=
  exists k i e, armed t (cfg_id cfg) k i /\ entries t !! k = Some e /\ callback_kind e = cfg_kind cfg /\
    interval e = Some (interval_seconds cfg) /\ jitter_max e = jitter_seconds cfg /\
    calls t !! i = Some (mkCall (cfg_id cfg) k d true).

Definition config_ok (cfg : TimerConfig) : Prop :=
  (MIN_INTERVAL <= interval_seconds cfg)%Q /\ (0 <= jitter_seconds cfg)%Q /\
  (jitter_seconds cfg <= interval_seconds cfg - MIN_INTERVAL)%Q.

Definition first_delay (saved : gmap string Z) (now_ms : option Z) (r : Q) (cfg : TimerConfig) : Q :=
  match initial_delay saved now_ms cfg with
  | Some d => d
  | None =>
      if Qle_bool (jitter_seconds cfg) 0 then interval_seconds cfg
      else (interval_seconds cfg + uniform (- jitter_seconds cfg) (jitter_seconds cfg) r)%Q
  end.

Lemma resume_delay_bounds now saved cfg :
  config_ok cfg ->
  (MIN_INTERVAL <= resume_delay now saved cfg)%Q /\
  (resume_delay now saved cfg <= interval_seconds cfg + jitter_seconds cfg)%Q.
Proof.
  intros (H1&H2&H3). unfold resume_delay, fmax, fmin.
  destruct (Qltb (_ + _) _) eqn:E1, (Qltb MIN_INTERVAL _) eqn:E2; q_props; split; lra.
Qed.

Lemma first_delay_bounds saved now_ms r cfg :
  config_ok cfg -> (0 <= r < 1)%Q ->
  (MIN_INTERVAL <= first_delay saved now_ms r cfg)%Q /\
  (first_delay saved now_ms r cfg <= interval_seconds cfg + jitter_seconds cfg)%Q.
Proof.
  intros Hc Hr. unfold first_delay, initial_delay. destruct now_ms as [now|]; [destruct (ahead saved now cfg) as [a|]; cbn [option_map]|].
  - by apply resume_delay_bounds.
  - destruct Hc as (H1&H2&H3). destruct (Qle_bool _ 0) eqn:E; q_props; [split; lra|].
    pose proof (uniform_bounds (jitter_seconds cfg) r H2 Hr). split; lra.
  - destruct Hc as (H1&H2&H3). destruct (Qle_bool _ 0) eqn:E; q_props; [split; lra|].
    pose proof (uniform_bounds (jitter_seconds cfg) r H2 Hr). split; lra.
Qed.

(** One registration arms its timer and leaves the others as they were. *)
Lemma register_due saved now_ms r cfg t t' :
  register_timer (cfg_id cfg) (cfg_kind cfg) (Some (interval_seconds cfg)) (jitter_seconds cfg) None
    (initial_delay saved now_ms cfg) r t = Ok t' ->
  config_ok cfg /\ timers t !! cfg_id cfg = None /\ due_in t' cfg (first_delay saved now_ms r cfg) /\
  (forall cfg' d, due_in t cfg' d -> due_in t' cfg' d) /\
  (forall id, is_Some (timers t' !! id) <-> id = cfg_id cfg \/ is_Some (timers t !! id)).
Proof.
  intros H. assert (config_ok cfg) as Hok.
  { unfold register_timer in H. destruct (register_check _ _ _ _ _ _) eqn:E; [done|].
    apply register_check_None in E as (_&?&?&?&_). done. }
  apply register_timer_Ok in H as (e&d&Hw&Hc&Hi&Hj&Hk&Hn&Hd&->).
  assert (d = first_delay saved now_ms r cfg) as ->.
  { unfold first_delay. destruct (initial_delay saved now_ms cfg) as [d'|]; [done|].
    unfold next_delay in Hd. rewrite Hi, Hj in Hd. destruct (Qle_bool _ 0); by injection Hd. }
  set (t1 := mkTimers _ _ _ _). split_and!; [done|done| | |].
  - assert (timers t1 !! cfg_id cfg = Some (length (entries t))) as Ht1 by (cbn; by rewrite lookup_insert_eq).
    assert (entries t1 !! length (entries t) = Some e) as He1 by (cbn; by apply list_lookup_middle).
    exists (length (entries t)), (length (calls t1)), (set_handle (Some (length (calls t1))) e). split.
    { exact (call_later_armed t1 (cfg_id cfg) (length (entries t)) e _ Ht1 He1 Hc Hw). }
    cbn [call_later entries calls]. rewrite list_lookup_alter_eq, He1, list_lookup_middle by done.
    split_and!; done.
  - intros cfg' d (k&i&e'&Ha&He'&?&?&?&Hcall). exists k, i, e'.
    assert (k <> length (entries t)) as Hne by (apply lookup_lt_Some in He'; lia).
    assert (entries (call_later (cfg_id cfg) (length (entries t)) (first_delay saved now_ms r cfg) t1) !! k = Some e') as He''.
    { cbn [call_later entries]. rewrite list_lookup_alter_ne by done. by apply lookup_app_l_Some. }
    assert (calls (call_later (cfg_id cfg) (length (entries t)) (first_delay saved now_ms r cfg) t1) !! i
            = Some (mkCall (cfg_id cfg') k d true)) as Hcall' by (cbn; by apply lookup_app_l_Some).
    split_and!; try done. apply (armed_frame t); [done| |congruence|congruence].
    cbn. apply lookup_insert_ne. intros E. rewrite <- E in Ha. destruct Ha as [Ha _]. congruence.
  - intros id. change (timers (call_later _ _ _ t1)) with (<[cfg_id cfg := length (entries t)]> (timers t)).
    destruct (decide (id = cfg_id cfg)) as [->|Hne].
    + rewrite lookup_insert_eq. split; [by left|]. by eexists.
    + rewrite lookup_insert_ne by done. tauto.
Qed.

Lemma register_accepts saved now_ms r cfg t :
  config_ok cfg -> timers t !! cfg_id cfg = None ->
  exists t', register_timer (cfg_id cfg) (cfg_kind cfg) (Some (interval_seconds cfg)) (jitter_seconds cfg) None
    (initial_delay saved now_ms cfg) r t = Ok t'.
Proof.
  intros Hok Hn. pose proof Hok as (H1&H2&H3).
  assert (register_check t (cfg_id cfg) (Some (interval_seconds cfg)) None (jitter_seconds cfg)
            (initial_delay saved now_ms cfg) = None) as E.
  { apply register_check_None. split_and!; try done. unfold initial_delay.
    destruct now_ms as [now|]; [|done]. destruct (ahead saved now cfg) as [a|]; [|done]. cbn [option_map].
    destruct (resume_delay_bounds now a cfg Hok) as [H _]. unfold MIN_INTERVAL in *. lra. }
  unfold register_timer. rewrite E. unfold arm_timer, next_delay. cbn [Timers.interval Timers.jitter_max].
  destruct (initial_delay saved now_ms cfg); [by eexists|]. destruct (Qle_bool _ 0); by eexists.
Qed.

Lemma register_each_spec saved now_ms draws timers' : forall i t,
  let '(r, t') := register_each saved now_ms draws i timers' t in
  (r = Ok tt <-> Forall config_ok timers' /\ NoDup (map cfg_id timers') /\
                 (forall id, id ∈ map cfg_id timers' -> timers t !! id = None)) /\
  (forall cfg d, due_in t cfg d -> due_in t' cfg d) /\
  (r = Ok tt -> forall j cfg, timers' !! j = Some cfg -> due_in t' cfg (first_delay saved now_ms (draws (i + j)%nat) cfg)).
Proof.
  induction timers' as [|cfg timers' IH]; intros i t; cbn [register_each map].
  - split_and!; [|done|done]. split; [|done]. intros _. split_and!; [constructor..|]. by intros ? ?%not_elem_of_nil.
  - destruct (register_timer _ _ _ _ _ _ _ _) as [t1|e] eqn:E.
    + pose proof (register_due _ _ _ _ _ _ E) as (Hok&Hn&Hdue&Hkeep&Hreg). specialize (IH (S i) t1).
      destruct (register_each _ _ _ _ _ _) as [r t']. destruct IH as (H1&H2&H3).
      rewrite Forall_cons, NoDup_cons. assert (forall id, timers t1 !! id = None <-> id <> cfg_id cfg /\ timers t !! id = None) as Hreg'.
      { intros id. rewrite !eq_None_not_Some, Hreg. tauto. }
      split_and!.
      * rewrite H1. split.
        -- intros (Hf&Hd&Hfr). split_and!; try done.
           ++ intros Hin. apply Hfr, Hreg' in Hin. tauto.
           ++ intros id [->|Hin]%elem_of_cons; [done|]. apply Hfr, Hreg' in Hin. tauto.
        -- intros ([_ Hf]&[Hnin Hd]&Hfr). split_and!; try done. intros id Hin. apply Hreg'. split; [by intros ->|].
           apply Hfr. by right.
      * auto.
      * intros Hr [|j] cfg' Hj; [injection Hj as <-; rewrite Nat.add_0_r; auto|].
        replace (i + S j)%nat with (S i + j)%nat by lia. by apply H3.
    + rewrite Forall_cons. split_and!; [|done|done]. split; [done|]. intros ([Hok _]&_&Hfr). exfalso.
      destruct (register_accepts saved now_ms (draws i) cfg t Hok) as [t' Ht']; [apply Hfr; left|]. congruence.
Qed.

Lemma register_each_ok saved now_ms draws timers' : forall i t r t',
  register_each saved now_ms draws i timers' t = (r, t') -> timers_ok t -> timers_ok t'.
Proof.
  induction timers' as [|cfg timers' IH]; intros i t r t'; cbn [register_each]; [by intros [= _ <-]|].
  destruct (register_timer _ _ _ _ _ _ _ _) as [t1|e] eqn:E; [|by intros [= _ <-]].
  intros H Hok. by eapply IH, register_timer_ok.
Qed.

(** ** Initialising a persona's timers *)

Lemma saved_anchors_lookup rows id a :
  NoDup (map timer_id rows) ->
  saved_anchors rows !! id = Some a <->
  exists row, row ∈ rows /\ timer_id row = id /\ next_fire_at_ms row = a /\ (0 < a)%Z.
Proof.
  unfold saved_anchors. intros Hd.
  enough (forall m : gmap string Z, (forall row, row ∈ rows -> m !! timer_id row = None) ->
    fold_left (λ m row, if (0 <? next_fire_at_ms row)%Z then <[timer_id row := next_fire_at_ms row]> m else m) rows m !! id = Some a <->
    m !! id = Some a \/ exists row, row ∈ rows /\ timer_id row = id /\ next_fire_at_ms row = a /\ (0 < a)%Z) as H.
  { rewrite H by (intros; apply lookup_empty). rewrite lookup_empty. split; [by intros [|]|by right]. }
  induction rows as [|row rows IH]; intros m Hm; cbn [fold_left].
  - split; [by left|]. intros [H|(?&?%not_elem_of_nil&_)]; done.
  - cbn [map] in Hd. apply NoDup_cons in Hd as [Hn Hd].
    assert (forall r, r ∈ rows -> timer_id r <> timer_id row) as Hne
      by (intros r Hr E; apply Hn; rewrite <- E; by apply list_elem_of_fmap_2).
    rewrite IH; [|done|].
    + setoid_rewrite elem_of_cons. destruct (Z.ltb_spec 0 (next_fire_at_ms row)).
      * rewrite lookup_insert_Some. split.
        -- intros [[[<- <-]|[? ?]]|(r&?&?)]; [right; exists row; split_and!; by try left|by left|right; exists r; by split; [right|]].
        -- intros [Hs|(r&[->|Hr]&<-&<-&Hp)]; [|by left; left|right; exists r; by split_and!].
           left. right. split; [|done]. intros <-. rewrite Hm in Hs; [done|left].
      * split; [intros [|(r&?&?)]; [by left|right; exists r; by split; [right|]]|]. intros [|(r&[->|Hr]&<-&<-&Hp)]; [by left|lia|right; exists r; by split_and!].
    + intros r Hr. case_match; [rewrite lookup_insert_ne by (by apply not_eq_sym, Hne)|]; apply Hm; by right.
Qed.

Lemma setup_cache_spec faults agent timers' now t :
  let saved := saved_anchors (py_sorted id_le (rows_of agent t)) in
  let rows := _build_scheduled_wake_rows timers' now saved in
  let '(r, t') := setup_cache faults agent timers' now t in
  (forall v, r = Ok v -> v = (mkCache agent true, saved) /\ rows_of agent t' = rows) /\
  (faults = no_faults -> is_ok r = true <-> Forall row_ok rows /\ NoDup (map cfg_id timers')) /\
  (is_ok r = false -> t' = t) /\
  (forall other, other <> agent -> rows_of other t' = rows_of other t).
Proof.
  cbv zeta. unfold setup_cache, initialize, new_cache. cbn [conn_open cache_agent].
  destruct faults as [[e|] sel wr]; cbn [on_open]; [split_and!; by try intros ->|].
  unfold list_timers. cbn [conn_open negb on_select cache_agent].
  destruct sel as [e|]; [split_and!; by try intros ->|].
  set (saved := saved_anchors _). set (rows := _build_scheduled_wake_rows _ _ _).
  destruct wr as [e|]; [split_and!; by try intros ->|].
  pose proof (rebuild_spec (mkFaults None None None) rows (mkCache agent true) t eq_refl eq_refl) as H.
  assert (map timer_id rows = map cfg_id timers') as Em by (unfold rows, _build_scheduled_wake_rows; by rewrite map_map).
  cbn [cache_agent] in H. rewrite Em in H. destruct (rebuild_from_config _ _ _ _) as [[[]|e] t']; destruct H as (H1&H2&H3&H4); cbn [is_ok].
  - split_and!; [intros v [= <-]; by rewrite H2|intros _; tauto|done|done].
  - split_and!; [done| |intros _; by apply H3|done].
    intros _. split; [done|]. intros H. by apply H1 in H.
Qed.

(** What the initialisation promises to the server. When it succeeds, every
    configured timer is registered, due at its resumed or its first delay, the
    cache holds exactly the configured timers and is handed over for shutdown.
    When it raises, no timer of the loop is left armed, a stop of the loop has
    begun, and no cache is handed over. Without a fault it succeeds exactly on
    valid timers that can be stored. No other agent's rows change. *)
Theorem init_timers_contract faults agent timers' now draws w caches :
  timers_ok (w_loop w) -> w_caches w = Some caches ->
  let saved := saved_anchors (py_sorted id_le (rows_of agent (w_table w))) in
  let rows := _build_scheduled_wake_rows timers' now saved in
  let '(r, w') := init_persona_timers faults agent timers' now draws w in
  (r = Ok tt ->
     (forall j cfg, timers' !! j = Some cfg -> due_in (w_loop w') cfg (first_delay saved (Some now) (draws j) cfg)) /\
    rows_of agent (w_table w') = rows /\ w_caches w' = Some (<[agent := mkCache agent true]> caches)) /\
  (r <> Ok tt ->
     (forall i c, calls (w_loop w') !! i = Some c -> live c = false) /\
    stopping (lp (w_loop w')) = AwaitReentrant /\ w_caches w' = Some caches /\
    (rows_of agent (w_table w') = rows \/ w_table w' = w_table w)) /\
  (faults = no_faults ->
     r = Ok tt <-> Forall row_ok rows /\ NoDup (map cfg_id timers') /\ Forall config_ok timers' /\
                  (forall id, id ∈ map cfg_id timers' -> timers (w_loop w) !! id = None)) /\
  (forall other, other <> agent -> rows_of other (w_table w') = rows_of other (w_table w)).
Proof.
  intros Hok Hc. cbv zeta. unfold init_persona_timers. rewrite Hc.
  pose proof (setup_cache_spec faults agent timers' now (w_table w)) as H. cbv zeta in H.
  destruct (setup_cache _ _ _ _ _) as [r t']. destruct H as (H1&H2&H3&H4).
  destruct r as [[cache saved]|e]; cbn [is_ok] in *.
  - destruct (H1 _ eq_refl) as [[= -> ->] Hr]. clear H1 H3.
    unfold _register_configured_timers. set (saved := saved_anchors _) in *.
    pose proof (register_each_spec saved (Some now) draws timers' 0 (w_loop w)) as H.
    destruct (register_each _ _ _ _ _ _) as [[[]|e] t1] eqn:E; destruct H as (R1&_&R3); cbn [w_loop w_table w_caches].
    + split_and!; [intros _; split_and!; [by apply R3|done|done]|done| |done].
      intros Hf. destruct (proj1 (H2 Hf) eq_refl) as [? ?]. destruct (proj1 R1 eq_refl) as (?&?&?). done.
    + split_and!; [done| | |done].
      * intros _. split_and!; [|done|done|by left]. intros i c Hi. eapply stop_timers_live; [|exact Hi].
        by eapply register_each_ok.
      * intros _. split; [done|]. intros (_&?&?&?). by apply R1.
  - cbn [w_loop w_table w_caches]. split_and!; [done| | |done].
    + intros _. split_and!; [|done|done|right; by apply H3]. intros i c Hi. by eapply stop_timers_live.
    + intros Hf. split; [done|]. intros (?&?&_). by assert (false = true) by (by apply (H2 Hf)).
Qed.

Lemma init_Ok faults agent timers' now draws w w' :
  is_Some (w_caches w) -> init_persona_timers faults agent timers' now draws w = (Ok tt, w') ->
  let saved := saved_anchors (py_sorted id_le (rows_of agent (w_table w))) in
  rows_of agent (w_table w') = _build_scheduled_wake_rows timers' now saved /\
  Forall config_ok timers' /\ NoDup (map cfg_id timers') /\
  (forall j cfg, timers' !! j = Some cfg -> due_in (w_loop w') cfg (first_delay saved (Some now) (draws j) cfg)).
Proof.
  intros [caches Hc] H. cbv zeta. unfold init_persona_timers in H. rewrite Hc in H.
  pose proof (setup_cache_spec faults agent timers' now (w_table w)) as Hs. cbv zeta in Hs.
  destruct (setup_cache _ _ _ _ _) as [[[cache saved]|e] t']; [|done]. destruct Hs as (Hs&_).
  destruct (Hs _ eq_refl) as [[= -> ->] Hr]. unfold _register_configured_timers in H.
  pose proof (register_each_spec (saved_anchors (py_sorted id_le (rows_of agent (w_table w)))) (Some now) draws timers' 0 (w_loop w)) as R.
  destruct (register_each _ _ _ _ _ _) as [[[]|e] t1]; [|done]. injection H as <-. destruct R as (R1&_&R3).
  destruct (proj1 R1 eq_refl) as (?&?&_). cbn [w_table w_loop]. split_and!; try done. by apply R3.
Qed.

Lemma ids_of_rows timers' now saved : map timer_id (_build_scheduled_wake_rows timers' now saved) = map cfg_id timers'.
Proof. unfold _build_scheduled_wake_rows. by rewrite map_map. Qed.

(** C28. A restart resumes. A process that finds the rows an earlier one left takes
    up each timer whose anchor is still ahead at that anchor, at most
    [interval + jitter] later, and keeps the anchor; a timer without one, or
    whose anchor has passed, starts afresh within its jitter, its anchor one
    interval from now. *)
Theorem restart_resumes faults1 faults2 agent timers1 timers2 now1 now2 draws1 draws2 w1 w1' w2 w2' j cfg :
  is_Some (w_caches w1) -> init_persona_timers faults1 agent timers1 now1 draws1 w1 = (Ok tt, w1') ->
  is_Some (w_caches w2) -> rows_of agent (w_table w2) = rows_of agent (w_table w1') -> (0 <= now2)%Z ->
  init_persona_timers faults2 agent timers2 now2 draws2 w2 = (Ok tt, w2') ->
  (forall i, 0 <= draws2 i < 1)%Q -> timers2 !! j = Some cfg ->
  exists row, row ∈ rows_of agent (w_table w2') /\ timer_id row = cfg_id cfg /\
  (forall row1, row1 ∈ rows_of agent (w_table w1') -> timer_id row1 = cfg_id cfg -> (now2 < next_fire_at_ms row1)%Z ->
     next_fire_at_ms row = next_fire_at_ms row1 /\
     due_in (w_loop w2') cfg (resume_delay now2 (next_fire_at_ms row1) cfg)) /\
  ((forall row1, row1 ∈ rows_of agent (w_table w1') -> timer_id row1 = cfg_id cfg -> (next_fire_at_ms row1 <= now2)%Z) ->
     next_fire_at_ms row = (now2 + py_round (interval_seconds cfg * 1000))%Z /\
     exists d, due_in (w_loop w2') cfg d /\
       (interval_seconds cfg - jitter_seconds cfg <= d <= interval_seconds cfg + jitter_seconds cfg)%Q).
Proof.
  intros Hc1 Hi1 Hc2 Et Hnow Hi2 Hdraws Hj. apply init_Ok in Hi1 as (Hr1&_&Hd1&_); [|done].
  apply init_Ok in Hi2 as (Hr2&Hok2&_&Hdue); [|done]. rewrite Et in Hr2, Hdue.
  set (rows1 := rows_of agent (w_table w1')) in *. set (saved := saved_anchors (py_sorted id_le rows1)) in *.
  assert (NoDup (map timer_id (py_sorted id_le rows1))) as Hnd.
  { rewrite py_sorted_perm, Hr1, ids_of_rows. done. }
  pose proof (Hdue j cfg Hj) as Hd. unfold first_delay, initial_delay in Hd.
  exists (wake_row now2 saved cfg). split; [|split; [done|split]].
  - rewrite Hr2. apply list_elem_of_fmap_2. by eapply list_elem_of_lookup_2.
  - intros row1 Hin Hid Hlt. assert (ahead saved now2 cfg = Some (next_fire_at_ms row1)) as Ea.
    { unfold ahead. assert (saved !! cfg_id cfg = Some (next_fire_at_ms row1)) as ->.
      { apply saved_anchors_lookup; [done|]. exists row1. rewrite elem_of_py_sorted. split_and!; (done || lia). }
      by apply Z.ltb_lt in Hlt as ->. }
    rewrite Ea in Hd. cbn [option_map] in Hd. split; [|done]. cbn [wake_row next_fire_at_ms]. by rewrite Ea.
  - intros Hpast. assert (ahead saved now2 cfg = None) as Ea.
    { unfold ahead. destruct (saved !! cfg_id cfg) as [a|] eqn:Es; [|done].
      apply saved_anchors_lookup in Es as (row1&Hin&Hid&<-&_); [|done]. rewrite elem_of_py_sorted in Hin.
      specialize (Hpast row1 Hin Hid). by destruct (Z.ltb_spec now2 (next_fire_at_ms row1)); [lia|]. }
    rewrite Ea in Hd. cbn [option_map] in Hd. split; [cbn [wake_row next_fire_at_ms]; by rewrite Ea|].
    eexists. split; [exact Hd|]. rewrite Forall_forall in Hok2.
    destruct (Hok2 cfg) as (H1&H2&H3); [by eapply list_elem_of_lookup_2|].
    destruct (Qle_bool _ 0) eqn:E; q_props; [split; lra|].
    pose proof (uniform_bounds (jitter_seconds cfg) (draws2 j) H2 (Hdraws j)). split; lra.
Qed.

(** ** Witnesses *)

Definition demo_timers_config : list TimerConfig :=
  [mkTimerConfig "tick" "tick" 60 (Some 30%Q); mkTimerConfig "reflect" "reflection" 600 None].

Definition demo_draws (i : nat) : Q := 29 # 60.

Definition demo_world (t : wake_table) : Wakes := mkWakes t (no_timers (new_loop 16)) (Some ∅).

Definition demo_started : result string unit * Wakes :=
  init_persona_timers no_faults "fox" demo_timers_config 1000000 demo_draws (demo_world [("owl", mkWakeRow "t" "tick" None 0 0 "config")]).

(** Restarted 59.5 seconds later, from the rows the first start left. *)
Definition demo_restarted : result string unit * Wakes :=
  init_persona_timers no_faults "fox" demo_timers_config 1059500 demo_draws (demo_world (w_table demo_started.2)).

(** The anchor is one interval after the start, wherever the jitter puts the
    fire: here the timer fires after 59 seconds, and a restart half a second
    later resumes the anchor, so that it fires again after one more second. *)
Lemma resume_may_refire :
  map (λ c, (for_timer c, Qred (delay c))) (calls (w_loop demo_started.2)) = [("tick", 59%Q); ("reflect", 600%Q)] /\
  map (λ c, (for_timer c, Qred (delay c))) (calls (w_loop demo_restarted.2)) = [("tick", 1%Q); ("reflect", 1081 # 2)].
Proof. by vm_compute. Qed.

Definition demo_repeated : list ScheduledWakeRow :=
  [mkWakeRow "b" "tick" None 0 0 "config"; mkWakeRow "b" "tick" None 0 0 "config"].

Lemma rebuild_reads_back_witness :
  let '(r, t) := rebuild_from_config no_faults demo_repeated (mkCache "fox" true) (w_table demo_started.2) in
  r <> Ok tt /\ list_timers no_faults (mkCache "fox" true) t = list_timers no_faults (mkCache "fox" true) (w_table demo_started.2).
Proof.
  pose proof (rebuild_reads_back no_faults "fox" "owl" demo_repeated (w_table demo_started.2) eq_refl eq_refl ltac:(done)) as H.
  cbv zeta in H. destruct (rebuild_from_config _ _ _ _) as [r t]. destruct H as (H1&_&H&_).
  assert (r <> Ok tt) as Hr; [|by split; [|apply H]]. intros Hr%H1. destruct Hr as [_ Hd].
  apply NoDup_cons in Hd as [Hd _]. apply Hd. left.
Defined.

Lemma no_timers_ok n : timers_ok (no_timers (new_loop n)).
Proof. split; [intros id k Hk; cbn in Hk; by rewrite lookup_empty in Hk|]. by intros i c Hi. Qed.

Lemma init_timers_contract_witness :
  demo_started.1 = Ok tt /\ rows_of "owl" (w_table demo_started.2) = [mkWakeRow "t" "tick" None 0 0 "config"] /\
  due_in (w_loop demo_started.2) (mkTimerConfig "reflect" "reflection" 600 None) 600.
Proof.
  pose proof (init_timers_contract no_faults "fox" demo_timers_config 1000000 demo_draws
                (demo_world [("owl", mkWakeRow "t" "tick" None 0 0 "config")]) ∅ (no_timers_ok 16) eq_refl) as H.
  fold demo_started in H. assert (demo_started.1 = Ok tt) as E by by vm_compute.
  destruct demo_started as [r w]. destruct H as (H1&_&_&H4). split; [done|]. split; [by apply (H4 "owl")|].
  destruct (H1 E) as [Hd _]. by apply (Hd 1%nat).
Defined.

Lemma restart_resumes_witness : exists row, row ∈ rows_of "fox" (w_table demo_restarted.2) /\ timer_id row = "tick" /\ next_fire_at_ms row = 1060000%Z.
Proof.
  destruct (restart_resumes no_faults no_faults "fox" demo_timers_config demo_timers_config 1000000 1059500 demo_draws demo_draws
              (demo_world [("owl", mkWakeRow "t" "tick" None 0 0 "config")]) demo_started.2 (demo_world (w_table demo_started.2))
              demo_restarted.2 0 (mkTimerConfig "tick" "tick" 60 (Some 30%Q))) as (row&Hin&Hid&Hr&_).
  - by eexists.
  - by vm_compute.
  - by eexists.
  - done.
  - lia.
  - by vm_compute.
  - intros i. unfold demo_draws. lra.
  - done.
  - exists row. split; [done|]. split; [done|].
    destruct (Hr (mkWakeRow "tick" "tick" (Some 60000%Z) 30000 1060000 "config")) as [H _]; [|done|done|done].
    assert (rows_of "fox" (w_table demo_started.2) = [mkWakeRow "tick" "tick" (Some 60000%Z) 30000 1060000 "config";
              mkWakeRow "reflect" "reflection" (Some 600000%Z) 0 1600000 "config"]) as -> by by vm_compute.
    left.
Defined.
