(* ===== verification/Tick.v ===== *)
(** * The tick scheduler

    Models [agents/tick.py]: the adapter that turns the wakes of an agent's
    loop into ticks, convenings and replies, with its idle accounting. What the
    agent, the executor's environment and the convene client do is the record
    [TickEnv] over a world [W]; the executor is that of [Cascade]. Log lines are
    left out, but for the case a convening ended in, which is a [report]. *)

From S2P Require Import Prelude PyStr PyDict PyValue Ambient PersonaEvents EventLoop EventLoopProps Timers Cascade ConveneTimer.
Local Open Scope string_scope.
Local Open Scope py_scope.

Definition _LEGACY_TIMER_ID : string := "legacy_tick".
Definition _EXPECTED_CONVENE_DECLINE_STATUSES : list Z := [409; 429; 503]%Z.
Definition _MIN_INTERVAL : Q := 1.

Record TickScheduler := mkTick {
  tick_interval : Q;
  max_actions_per_tick : Z;
  idle_after_ticks : Z;
  has_executor : bool;
  has_convene_client : bool;
  register_legacy_timer : bool;
  idle_count : Z;
  event_loop : Timers;
}.

Definition set_idle_count (n : Z) (s : TickScheduler) : TickScheduler :=
  mkTick (tick_interval s) (max_actions_per_tick s) (idle_after_ticks s) (has_executor s) (has_convene_client s)
    (register_legacy_timer s) n (event_loop s).
Definition set_event_loop (t : Timers) (s : TickScheduler) : TickScheduler :=
  mkTick (tick_interval s) (max_actions_per_tick s) (idle_after_ticks s) (has_executor s) (has_convene_client s)
    (register_legacy_timer s) (idle_count s) t.
Definition set_convene_client (b : bool) (s : TickScheduler) : TickScheduler :=
  mkTick (tick_interval s) (max_actions_per_tick s) (idle_after_ticks s) (has_executor s) b
    (register_legacy_timer s) (idle_count s) (event_loop s).

Definition new_scheduler (interval : Q) (max_actions idle_after : Z) (executor legacy : bool) (queue_size : Z) : TickScheduler :=
  mkTick (if Qltb interval _MIN_INTERVAL then _MIN_INTERVAL else interval) max_actions idle_after executor false legacy 0
    (no_timers (new_loop queue_size)).

Definition is_idle (s : TickScheduler) : bool := (idle_after_ticks s <=? idle_count s)%Z.

(** [wake()]: the immediate tick enters the queue of a running loop. *)
Definition wake_now (c : caller) (now : Q) (s : TickScheduler) : TickScheduler :=
  let s := set_idle_count 0 s in
  let t := event_loop s in
  if EventLoop.is_running (lp t) then
    let '(_, l) := enqueue c now (ScheduledWake _LEGACY_TIMER_ID "tick") (lp t) in
    set_event_loop (mkTimers l (timers t) (entries t) (calls t)) s
  else s.

Definition start_scheduler (r : Q) (s : TickScheduler) : result string TickScheduler :=
  let t := event_loop s in
  if EventLoop.is_running (lp t) then Ok s
  else
    let t := mkTimers (EventLoop.start (lp t)) (timers t) (entries t) (calls t) in
    if negb (register_legacy_timer s) then Ok (set_event_loop t s)
    else if has_timer _LEGACY_TIMER_ID t then Ok (set_event_loop t s)
    else let! t := register_timer _LEGACY_TIMER_ID "tick" (Some (tick_interval s)) 0 None None r t in
         Ok (set_event_loop t s).

(** [stop()], to its first await. *)
Definition stop_scheduler (s : TickScheduler) : TickScheduler := set_event_loop (stop_timers (event_loop s)) s.

(** ** The callbacks *)

(** What the convene endpoint answers: a convening, a refusal with its HTTP
    status, or nothing. *)
Inductive convene_outcome := Convened | Answered (status : Z) | Unreached.

Inductive convene_report :=
| NotStanding                        (* the timer id names no channel *)
| NoClient
| ConvenedChannel (channel_id : string)
| Declined (status : Z)              (* an expected decline *)
| NeedsOperator (status : Z)         (* any other answered refusal *)
| TransportFailed.

Inductive report :=
| Convening (r : convene_report)
| Recovered                          (* idle: energy only *)
| Ticked (quiet : bool)
| TickRaised (exc : string).

Record TickEnv (W : Type) := mkTickEnv {
  agent_env : Env W;
  on_tick : W -> decision * W;
  recover_idle_energy : W -> W;
  convene : string -> W -> convene_outcome * W;
}.
Arguments agent_env {W}. Arguments on_tick {W}. Arguments recover_idle_energy {W}. Arguments convene {W}.

(** [l[:n]] *)
Definition slice_to {A} (n : Z) (l : list A) : list A :=
  if (n <? 0)%Z then take (length l - Z.to_nat (- n)) l else take (Z.to_nat n) l.

(** [DispatchContext(cascade_depth=DEFAULT_MAX_CASCADE_DEPTH)] *)
Definition tick_context : DispatchContext := mkContext DEFAULT_MAX_CASCADE_DEPTH "" "" false "" "" "".

Section tick.
Context {W : Type} (env : TickEnv W) (max_cascade_depth : Z) (agent_id : string).

Definition do_nothing (a : AgentAction) : bool := bool_decide (action_type a = DO_NOTHING).

Definition _handle_convene_wake (timer_id : string) (s : TickScheduler) (st : state (W := W)) : convene_report * state :=
  match parse_standing_convene_timer_id timer_id with
  | None => (NotStanding, st)
  | Some channel =>
      if negb (has_convene_client s) then (NoClient, st)
      else
        let '(o, w) := convene env channel (world st) in
        let st := mkState w (decisions st) in
        (match o with
         | Convened => ConvenedChannel channel
         | Answered status =>
             if bool_decide (status ∈ _EXPECTED_CONVENE_DECLINE_STATUSES) then Declined status else NeedsOperator status
         | Unreached => TransportFailed
         end, st)
  end.

Definition _handle_scheduled_wake (fuel : nat) (timer_id callback_kind : string) (s : TickScheduler) (st : state) :
    option (report * TickScheduler * state) :=
  if bool_decide (callback_kind = STANDING_CONVENE_KIND) then
    let '(r, st) := _handle_convene_wake timer_id s st in Some (Convening r, s, st)
  else if is_idle s then Some (Recovered, s, mkState (recover_idle_energy env (world st)) (decisions st))
  else
    let '(d, w) := on_tick env (world st) in
    let st := mkState w (decisions st) in
    match d with
    | DecisionRaised x => Some (TickRaised x, s, st)
    | Decided actions =>
        let actions := slice_to (max_actions_per_tick s) actions in
        let quiet := forallb do_nothing actions in
        let s := set_idle_count (if quiet then idle_count s + 1 else 0)%Z s in
        if has_executor s then
          match execute (agent_env env) (dispatch (agent_env env) max_cascade_depth fuel true) agent_id actions tick_context st with
          | None => None
          | Some (_, st) => Some (Ticked quiet, s, st)
          end
        else Some (Ticked quiet, s, st)
    end.

(** The synchronous reply: the caller awaits the decision. *)
Definition _handle_event_wake (e : AgentEvent) (s : TickScheduler) (st : state) : decision * TickScheduler * state :=
  let '(d, w) := on_event (agent_env env) agent_id e (world st) in
  (d, set_idle_count 0 s, mkState w (decisions st ++ [(agent_id, e)])%list).

(** The fire-and-forget event: decide, execute, nobody waits. *)
Definition _handle_inbound_event (fuel : nat) (e : AgentEvent) (s : TickScheduler) (st : state) :
    option (result string unit * TickScheduler * state) :=
  let s := set_idle_count 0 s in
  if negb (has_executor s) then
    let '(d, w) := on_event (agent_env env) agent_id e (world st) in
    Some (match d with DecisionRaised x => Raise x | Decided _ => Ok tt end, s,
          mkState w (decisions st ++ [(agent_id, e)])%list)
  else
    match process_inbound (agent_env env) max_cascade_depth fuel agent_id e st with
    | None => None
    | Some (r, st) => Some (r, s, st)
    end.

(** What a scheduler handles, one after the other. *)
Inductive item :=
| Scheduled (timer_id callback_kind : string)
| Replied (e : AgentEvent)
| Inbound (e : AgentEvent)
| WakeCall (c : caller) (now : Q).

Definition handle_item (fuel : nat) (i : item) (s : TickScheduler) (st : state) :
    option (option report * TickScheduler * state) :=
  match i with
  | Scheduled timer_id kind =>
      match _handle_scheduled_wake fuel timer_id kind s st with
      | None => None
      | Some (r, s, st) => Some (Some r, s, st)
      end
  | Replied e => let '(_, s, st) := _handle_event_wake e s st in Some (None, s, st)
  | Inbound e =>
      match _handle_inbound_event fuel e s st with
      | None => None
      | Some (_, s, st) => Some (None, s, st)
      end
  | WakeCall c now => Some (None, wake_now c now s, st)
  end.

Fixpoint handle_items (fuel : nat) (items : list item) (s : TickScheduler) (st : state) :
    option (list (option report) * TickScheduler * state) :=
  match items with
  | [] => Some ([], s, st)
  | i :: items =>
      match handle_item fuel i s st with
      | None => None
      | Some (r, s, st) =>
          match handle_items fuel items s st with
          | None => None
          | Some (rs, s, st) => Some (r :: rs, s, st)
          end
      end
  end.
End tick.

(** ** A tick's actions *)

Section capped.
Context {W : Type} (env : TickEnv W) (max_cascade_depth : Z) (agent_id : string).
(** A property of the world that publishing at the cap keeps. *)
Context (P : W -> Prop).
Hypothesis publish_keeps : forall f p w, publisher (agent_env env) = Some f ->
  pub_cascade_depth p = DEFAULT_MAX_CASCADE_DEPTH -> pub_sender p = agent_id -> P w -> P (f p w).2.
Hypothesis vote_keeps : forall a c w, cascade_depth c = DEFAULT_MAX_CASCADE_DEPTH -> P w -> P (end_vote (agent_env env) agent_id a c w).2.

Definition capped (st st' : state (W := W)) : Prop :=
  decisions st' = decisions st /\ (P (world st) -> P (world st')).

Local Ltac answers :=
  repeat match goal with |- exists _, _ => eexists end; split; [reflexivity|split; [done|cbn; auto]].

(** At the ceiling every dispatch of a mention is dropped. *)
Lemma dispatch_mentions_capped fuel c sender ch content mentions targets st : forall n,
  (max_cascade_depth <= cascade_depth c)%Z ->
  dispatch_mentions (dispatch (agent_env env) max_cascade_depth (S fuel) true) (child_event c sender ch content mentions) targets n st
  = Some ((n + length targets)%nat, st).
Proof.
  intros n Hd. revert n. induction targets as [|t targets IH]; intros n; cbn [dispatch_mentions length].
  - by rewrite Nat.add_0_r.
  - cbn [dispatch]. rewrite child_event_depth. apply Z.leb_le in Hd as ->. rewrite IH. do 2 f_equal. lia.
Qed.

Lemma execute_one_capped fuel a st :
  (max_cascade_depth <= DEFAULT_MAX_CASCADE_DEPTH)%Z ->
  exists r st', execute_one (agent_env env) (dispatch (agent_env env) max_cascade_depth (S fuel) true) agent_id a tick_context st = Some (r, st') /\
    capped st st'.
Proof.
  intros Hd. unfold execute_one. destruct (action_type a) eqn:Ea; try by answers.
  - unfold handle_send_channel_message. cbv zeta.
    destruct (if truthy (target_channel_of a) then publisher (agent_env env) else None) as [publish|] eqn:Ep.
    + assert (publisher (agent_env env) = Some publish) as Hp by (destruct (truthy (target_channel_of a)); done).
      pose proof (publish_keeps publish (mkPublication (target_channel_of a) agent_id (dget_or "content" (VStr "") (act_payload a)) (mentions_of a)
                    (same_channel_claim tick_context (target_channel_of a) true) (cascade_depth tick_context)) (world st) Hp eq_refl eq_refl) as Hk.
      destruct (publish _ _) as [r w]. by answers.
    + destruct (mentions_of a) as [|m ms]; [by answers|]. rewrite dispatch_mentions_capped by done. by answers.
  - pose proof (vote_keeps a tick_context (world st) eq_refl) as Hk. destruct (end_vote _ _ _ _ _) as [status w]. by answers.
Qed.

Lemma execute_capped fuel actions : forall st,
  (max_cascade_depth <= DEFAULT_MAX_CASCADE_DEPTH)%Z ->
  exists rs st', execute (agent_env env) (dispatch (agent_env env) max_cascade_depth (S fuel) true) agent_id actions tick_context st = Some (rs, st') /\
    capped st st'.
Proof.
  induction actions as [|a actions IH]; intros st Hd; cbn [execute]; [by answers|].
  destruct (execute_one_capped fuel a st Hd) as (r&st1&->&H1&P1). destruct (IH st1 Hd) as (rs&st2&->&H2&P2).
  do 2 eexists. split; [done|]. split; [congruence|auto].
Qed.

Hypothesis tick_keeps : forall w, P w -> P (on_tick env w).2.
Hypothesis recover_keeps : forall w, P w -> P (recover_idle_energy env w).
Hypothesis convene_keeps : forall channel w, P w -> P (convene env channel w).2.

(** A scheduled wake fans out nowhere. It always ends, no agent decides on
    anything a tick sent, and everything a tick publishes is at the depth the
    orchestrator stops fanning out at: whatever publishing at that depth keeps
    (and the agent, its energy, votes and convenings), the wake keeps. *)
Theorem scheduled_wake_fans_out_nowhere fuel timer_id callback_kind s st :
  (max_cascade_depth <= DEFAULT_MAX_CASCADE_DEPTH)%Z ->
  exists r s' st', _handle_scheduled_wake env max_cascade_depth agent_id (S fuel) timer_id callback_kind s st = Some (r, s', st') /\
    decisions st' = decisions st /\ (P (world st) -> P (world st')).
Proof.
  intros Hd. unfold _handle_scheduled_wake. destruct (bool_decide _).
  { unfold _handle_convene_wake. destruct (parse_standing_convene_timer_id timer_id) as [channel|]; [|by answers].
    destruct (has_convene_client s); [|by answers]. cbn [negb]. pose proof (convene_keeps channel (world st)).
    destruct (convene env channel (world st)) as [o w]. by answers. }
  destruct (is_idle s); [by answers|].
  pose proof (tick_keeps (world st)) as Hk. destruct (on_tick env (world st)) as [[actions|x] w]; [|by answers].
  cbn [snd has_executor set_idle_count] in *. destruct (has_executor s); [|by answers].
  destruct (execute_capped fuel (slice_to (max_actions_per_tick s) actions) (mkState w (decisions st)) Hd) as (rs&st'&->&H1&P1).
  do 3 eexists. split; [done|]. split; [done|auto].
Qed.
End capped.

(** ** The idle machine *)

Section idle.
Context {W : Type} (env : TickEnv W) (max_cascade_depth : Z) (agent_id : string).

(** The ticks on which the agent did nothing, and what ends a quiet stretch: a
    tick on which it acted, an event, a wake-up call. *)
Definition quiet_tick (r : option report) : bool := match r with Some (Ticked true) => true | _ => false end.
Definition activity (r : option report) : bool := match r with Some (Ticked false) | None => true | _ => false end.
Definition quiet_ticks (rs : list (option report)) : Z := Z.of_nat (length (List.filter quiet_tick rs)).
Definition activities (rs : list (option report)) : Z := Z.of_nat (length (List.filter activity rs)).

(** The quiet ticks left before the agent is idle. *)
Definition allowance (s : TickScheduler) : Z := Z.max 0 (idle_after_ticks s - idle_count s).

Lemma allowance_set n s : allowance (set_idle_count n s) = Z.max 0 (idle_after_ticks s - n).
Proof. done. Qed.

Lemma handle_item_idle fuel i s st r s' st' :
  handle_item env max_cascade_depth agent_id fuel i s st = Some (r, s', st') ->
  idle_after_ticks s' = idle_after_ticks s /\
  (if activity r then idle_count s' = 0%Z
   else allowance s' + (if quiet_tick r then 1 else 0) = allowance s)%Z.
Proof.
  destruct i as [timer_id kind|e|e|c now]; cbn [handle_item].
  - destruct (_handle_scheduled_wake _ _ _ _ _ _ _ _) as [[[r0 s0] st0]|] eqn:E; [|done]. intros [= <- <- <-].
    unfold _handle_scheduled_wake in E. destruct (bool_decide _).
    { destruct (_handle_convene_wake _ _ _ _) as [r1 st1]. injection E as <- <- <-. cbn. split; [done|lia]. }
    destruct (is_idle s) eqn:Ei; [injection E as <- <- <-; cbn; split; [done|lia]|].
    unfold is_idle in Ei. apply Z.leb_gt in Ei.
    destruct (on_tick env (world st)) as [[actions|x] w]; [|injection E as <- <- <-; cbn; split; [done|lia]].
    set (quiet := forallb do_nothing _) in E.
    assert (exists st1, Some (Ticked quiet, set_idle_count (if quiet then idle_count s + 1 else 0)%Z s, st1) = Some (r0, s0, st0)) as [st1 E1].
    { cbn zeta in E. destruct (has_executor _); [destruct (execute _ _ _ _ _ _) as [[? ?]|]; [|done]|]; by eexists. }
    injection E1 as <- <- <-. split; [done|]. destruct quiet; cbn [activity quiet_tick]; [|done].
    rewrite allowance_set. unfold allowance. lia.
  - destruct (_handle_event_wake _ _ _ _ _) as [[d s0] st0] eqn:E. intros [= <- <- <-].
    unfold _handle_event_wake in E. destruct (on_event _ _ _ _) as [? ?]. by injection E as <- <- <-.
  - destruct (_handle_inbound_event _ _ _ _ _ _ _) as [[[d s0] st0]|] eqn:E; [|done]. intros [= <- <- <-].
    unfold _handle_inbound_event in E. destruct (negb _).
    + destruct (on_event _ _ _ _) as [? ?]. by injection E as <- <- <-.
    + destruct (process_inbound _ _ _ _ _ _) as [[? ?]|]; [|done]. by injection E as <- <- <-.
  - intros [= <- <- <-]. unfold wake_now. destruct (EventLoop.is_running _); [|done].
    by destruct (enqueue _ _ _ _).
Qed.

Lemma handle_items_idle fuel items : forall s st rs s' st',
  handle_items env max_cascade_depth agent_id fuel items s st = Some (rs, s', st') ->
  (quiet_ticks rs + allowance s' <= allowance s + Z.max 0 (idle_after_ticks s) * activities rs)%Z.
Proof.
  induction items as [|i items IH]; intros s st rs s' st'; cbn [handle_items].
  - intros [= <- <- <-]. unfold quiet_ticks, activities. cbn. lia.
  - destruct (handle_item _ _ _ _ _ _ _) as [[[r s1] st1]|] eqn:E; [|done].
    destruct (handle_items _ _ _ _ _ _ _) as [[[rs0 s2] st2]|] eqn:E2; [|done]. intros [= <- <- <-].
    apply handle_item_idle in E as [Ea E]. apply IH in E2. rewrite Ea in E2.
    unfold quiet_ticks, activities in *. cbn [List.filter]. unfold allowance in *.
    destruct (activity r) eqn:Eact, (quiet_tick r) eqn:Eq; cbn [length]; try lia;
      destruct r as [[| |[]|]|]; try done; lia.
Qed.

(** Idle detection bounds what an idle agent costs: whatever a scheduler
    handles, in any order, the ticks on which the agent did nothing number at
    most [idle_after_ticks] for each stretch between two activities. *)
Theorem quiet_ticks_bounded fuel items s st rs s' st' :
  handle_items env max_cascade_depth agent_id fuel items s st = Some (rs, s', st') -> (0 <= idle_count s)%Z ->
  (quiet_ticks rs <= Z.max 0 (idle_after_ticks s) * (1 + activities rs))%Z.
Proof. intros H Hn. apply handle_items_idle in H. unfold allowance in *. lia. Qed.

(** ** Convening *)

(** A standing schedule reaches its channels and nothing else. Once the writer
    has armed a convener's block, every convene timer of the block, when it
    fires, asks the orchestrator to convene a channel the writer was given, no
    matter whether the agent is idle, and every such channel has a timer that
    does; the wake never runs a tick, whatever the answer. *)
Theorem standing_schedule_convenes autonomy specs merged timers' fuel s st :
  merge_convene_timers autonomy specs = Ok merged -> armed specs = true ->
  dget "timers" merged = Some (VList (map VDict timers')) -> has_convene_client s = true ->
  let reaches e channel := exists timer_id r, dget "id" e = Some (VStr timer_id) /\
    _handle_scheduled_wake env max_cascade_depth agent_id fuel timer_id STANDING_CONVENE_KIND s st
    = Some (Convening r, s, mkState (convene env channel (world st)).2 (decisions st)) /\
    (r = ConvenedChannel channel <-> (convene env channel (world st)).1 = Convened) in
  (forall e, e ∈ timers' -> is_convene e = true -> exists spec, spec ∈ specs /\ reaches e (spec_channel spec)) /\
  (forall spec, spec ∈ specs -> exists e, e ∈ timers' /\ is_convene e = true /\ reaches e (spec_channel spec)).
Proof.
  intros H Ha Ht Hc. cbv zeta. apply merge_Ok in H as (existing&k&He&_&Hf&Hk&->).
  rewrite written_block in Ht by (by rewrite Ha). injection Ht as Ht.
  assert (k = timers') as -> by (pose proof (entries_of_dicts k) as E; rewrite Ht, entries_of_dicts in E; by injection E).
  destruct (written_timers _ _ _ _ He Hf Hk) as [Hw _].
  assert (forall channel id i, standing_convene_timer_id channel = Some id ->
    exists timer_id r, dget "id" (timer_entry id (VInt i) STANDING_CONVENE_KIND) = Some (VStr timer_id) /\
    _handle_scheduled_wake env max_cascade_depth agent_id fuel timer_id STANDING_CONVENE_KIND s st
    = Some (Convening r, s, mkState (convene env channel (world st)).2 (decisions st)) /\
    (r = ConvenedChannel channel <-> (convene env channel (world st)).1 = Convened)) as Hreach.
  { intros channel id i Hid. exists id. unfold _handle_scheduled_wake, _handle_convene_wake.
    rewrite bool_decide_eq_true_2 by done. rewrite (parse_of_timer_id channel id Hid), Hc. cbn [negb].
    destruct (convene env channel (world st)) as [[|status|] w]; eexists; (split_and!; [done|done|]); cbn [fst].
    - done.
    - by destruct (bool_decide _).
    - done. }
  split.
  - intros e Hin Hconv. destruct (proj1 (Hw e) (conj Hin Hconv)) as (channel&id&i&Hl&Hid&->).
    apply last_interval_spec in Hl as (spec&Hin'&<-&_). exists spec. split; [done|]. by apply Hreach.
  - intros spec Hin. rewrite Forall_forall in Hf. destruct (Hf spec Hin) as (_&id&Hid&_).
    destruct (last_interval (spec_channel spec) specs) as [i|] eqn:Hl.
    + exists (timer_entry id (VInt i) STANDING_CONVENE_KIND).
      destruct (proj2 (Hw (timer_entry id (VInt i) STANDING_CONVENE_KIND))) as [? ?]; [by exists (spec_channel spec), id, i|].
      split_and!; [done..|]. by apply Hreach.
    + by destruct (last_interval_None (spec_channel spec) specs Hl spec Hin).
Qed.
End idle.

(** ** Starting *)

Definition scheduler_ok (s : TickScheduler) : Prop := timers_ok (event_loop s) /\ (MIN_INTERVAL <= tick_interval s)%Q.

Lemma new_scheduler_ok i m a e l q : scheduler_ok (new_scheduler i m a e l q).
Proof.
  split; [split; [intros id k Hk; cbn in Hk; by rewrite lookup_empty in Hk|by intros ? ?]|].
  unfold new_scheduler, _MIN_INTERVAL, MIN_INTERVAL. cbn [tick_interval]. destruct (Qltb i 1) eqn:E; q_props; lra.
Qed.

(** Starting never raises: the clamped interval always passes the timer's
    checks. A started scheduler runs, keeps its idle count and its timers, and,
    unless its timers are configured, has the heartbeat armed, the same one if
    it was there already and otherwise due one interval later. *)
Theorem start_arms_heartbeat r s :
  scheduler_ok s ->
  exists s', start_scheduler r s = Ok s' /\ scheduler_ok s' /\ EventLoop.is_running (lp (event_loop s')) = true /\
    idle_count s' = idle_count s /\
    (EventLoop.is_running (lp (event_loop s)) = true -> s' = s) /\
    (EventLoop.is_running (lp (event_loop s)) = false ->
      if register_legacy_timer s && negb (has_timer _LEGACY_TIMER_ID (event_loop s)) then
        exists k i, Timers.armed (event_loop s') _LEGACY_TIMER_ID k i /\
          calls (event_loop s') !! i = Some (mkCall _LEGACY_TIMER_ID k (tick_interval s) true) /\
          forall id, id <> _LEGACY_TIMER_ID -> timers (event_loop s') !! id = timers (event_loop s) !! id
      else timers (event_loop s') = timers (event_loop s)).
Proof.
  intros [Hok Hi]. unfold start_scheduler. destruct (EventLoop.is_running (lp (event_loop s))) eqn:Er.
  { exists s. by split_and!. }
  set (t := mkTimers _ _ _ _). assert (timers_ok t) as Ht.
  { destruct Hok as [H1 H2]. split; [intros id k Hk; destruct (H1 id k Hk) as [i Hi']; by exists i|]. intros i c Hc Hl. exact (H2 i c Hc Hl). }
  assert (EventLoop.is_running (lp t) = true) as Hr by (cbn; unfold EventLoop.start; by rewrite Er).
  assert (has_timer _LEGACY_TIMER_ID t = has_timer _LEGACY_TIMER_ID (event_loop s)) as Eh by done.
  destruct (register_legacy_timer s); cbn [negb andb]; [|by exists (set_event_loop t s); split_and!].
  rewrite Eh. destruct (has_timer _ _) eqn:Hh; cbn [negb]; [by exists (set_event_loop t s); split_and!|].
  assert (timers t !! _LEGACY_TIMER_ID = None) as Hn.
  { unfold has_timer in Hh. apply bool_decide_eq_false in Hh. by apply eq_None_not_Some. }
  assert (register_check t _LEGACY_TIMER_ID (Some (tick_interval s)) None 0 None = None) as Hcheck.
  { apply register_check_None. unfold MIN_INTERVAL in *. split_and!; [done|lra|done|lra|done]. }
  destruct (register_timer _LEGACY_TIMER_ID "tick" (Some (tick_interval s)) 0 None None r t) as [t'|x] eqn:E.
  - cbn [rbind]. exists (set_event_loop t' s). pose proof (register_timer_ok _ _ _ _ _ _ _ _ _ Ht E) as Ht'.
    apply register_timer_Ok in E as (e&d&Hw&Hc&Hie&Hje&_&_&Hd&->).
    unfold next_delay in Hd. rewrite Hie, Hje in Hd. cbn in Hd. injection Hd as <-.
    split_and!; [done|done|done|done|done|]. intros _.
    exists (length (entries t)), (length (calls t)). cbn [set_event_loop event_loop]. split_and!.
    + apply (call_later_armed (mkTimers (lp t) (<[_LEGACY_TIMER_ID := length (entries t)]> (timers t)) (entries t ++ [e]) (calls t)) _ _ e);
        [cbn; by rewrite lookup_insert_eq|cbn; by apply list_lookup_middle|done|done].
    + cbn [call_later calls]. by apply list_lookup_middle.
    + intros id Hne. cbn. by rewrite lookup_insert_ne.
  - exfalso. unfold register_timer in E. by rewrite Hcheck in E.
Qed.

(** ** Witnesses *)

Definition demo_tick_env : TickEnv unit :=
  mkTickEnv unit demo_env (λ w, (Decided [demo_send], w)) (λ w, w) (λ _ w, (Convened, w)).

Definition demo_scheduler : TickScheduler := set_convene_client true (new_scheduler 60 3 10 true true 16).

(** Ticks deliver at the default ceiling, whatever ceiling the dispatcher was
    given: above it, a tick's mentions do reach agents, and cascade. *)
Lemma raised_ceiling_reopens_ticks :
  option_map (λ r, length (decisions r.2))
    (_handle_scheduled_wake demo_tick_env 7 "x" 7 _LEGACY_TIMER_ID "tick" demo_scheduler (mkState tt [])) = Some 6%nat.
Proof. by vm_compute. Qed.

Lemma scheduled_wake_fans_out_nowhere_witness :
  exists r s' st', _handle_scheduled_wake demo_tick_env 5 "x" 1 _LEGACY_TIMER_ID "tick" demo_scheduler (mkState tt []) = Some (r, s', st') /\
    decisions st' = [].
Proof.
  destruct (scheduled_wake_fans_out_nowhere demo_tick_env 5 "x" (λ _, True)) with (fuel := 0%nat) (timer_id := _LEGACY_TIMER_ID)
    (callback_kind := "tick") (s := demo_scheduler) (st := mkState (W := unit) tt []) as (r&s'&st'&E&Hd&_); [done..|].
  by exists r, s', st'.
Defined.

Definition demo_quiet_env : TickEnv unit :=
  mkTickEnv unit demo_env (λ w, (Decided [], w)) (λ w, w) (λ _ w, (Unreached, w)).

Definition demo_items : list item := repeat (Scheduled _LEGACY_TIMER_ID "tick") 20 ++ [Inbound demo_root] ++ repeat (Scheduled _LEGACY_TIMER_ID "tick") 20.

Lemma quiet_ticks_bounded_witness :
  exists rs s' st', handle_items demo_quiet_env 5 "x" 7 demo_items (set_idle_count 0 (new_scheduler 60 3 10 false true 16)) (mkState tt [])
    = Some (rs, s', st') /\ quiet_ticks rs = 20%Z /\ (20 <= 10 * (1 + activities rs))%Z.
Proof.
  destruct (handle_items demo_quiet_env 5 "x" 7 demo_items (set_idle_count 0 (new_scheduler 60 3 10 false true 16)) (mkState tt []))
    as [[[rs s'] st']|] eqn:E; [|by vm_compute in E].
  exists rs, s', st'. split; [done|]. pose proof (quiet_ticks_bounded _ _ _ _ _ _ _ _ _ _ E ltac:(done)) as H.
  assert (quiet_ticks rs = 20%Z) as Hq by (vm_compute in E; injection E as <- _ _; by vm_compute).
  split; [done|]. rewrite Hq in H. cbn in H. lia.
Defined.

Lemma standing_schedule_convenes_witness :
  exists timer_id r, _handle_scheduled_wake demo_tick_env 5 "x" 1 timer_id STANDING_CONVENE_KIND demo_scheduler (mkState tt [])
    = Some (Convening r, demo_scheduler, mkState tt []).
Proof.
  destruct (standing_schedule_convenes demo_tick_env 5 "x" (Some demo_block) demo_specs demo_merged
    [timer_entry "convene-ops" (VInt 60) "convene"; timer_entry "convene-planning" (VInt 1800) "convene"; timer_entry "reflect" (VInt 600) "reflection"]
    1 demo_scheduler (mkState tt [])) as [_ H]; [reflexivity..|].
  destruct (H (mkSpec "group:ops" 60)) as (e&_&_&id&r&_&Hr&_); [right; left|]. by exists id, r.
Defined.

Lemma start_arms_heartbeat_witness : exists s', start_scheduler 0 demo_scheduler = Ok s' /\ EventLoop.is_running (lp (event_loop s')) = true.
Proof.
  destruct (start_arms_heartbeat 0 demo_scheduler) as (s'&E&_&Hr&_); [apply new_scheduler_ok|]. by exists s'.
Defined.
