(* ===== verification/PyRegex.v ===== *)
(** * Python's [re]

    The regular expressions of the code, as a backtracking matcher over lists of
    code points: alternatives and repetitions are tried in the order of the
    engine, greedy ones longest first, and an iteration of a repetition consumes
    something. The relation [sem] says what a match is, without an order;
    [mtch_sound] and [mtch_complete] relate the two. An expression has one named
    group. *)

From Stdlib Require Import Ascii.
From S2P Require Import Prelude PyStr FactPredicates.

Inductive regex :=
| REps
| RChar (p : N -> bool)
| RSeq (a b : regex)
| RAlt (a b : regex)
| RStar (a : regex)
| RNot (a : regex)                 (* [(?!a)] *)
| RBound                           (* [\b] *)
| RGroup (a : regex).

Declare Scope regex_scope.
Delimit Scope regex_scope with re.
Bind Scope regex_scope with regex.
Infix "⋅" := RSeq (at level 40, left associativity) : regex_scope.
Infix "∪∪" := RAlt (at level 50, left associativity) : regex_scope.
Local Open Scope regex_scope.

Definition ROpt (a : regex) : regex := a ∪∪ REps.
Definition RPlus (a : regex) : regex := a ⋅ RStar a.

(** Where the engine stands: the character before, the text ahead, the group. *)
Record mstate := mkM { before : option N; ahead : text; group : option text }.

Definition step (c : N) (s : text) (st : mstate) : mstate := mkM (Some c) s (group st).

(** [[A-Za-z0-9_]] and the other letters and digits of the range *)
Definition word_char (n : N) : bool := is_word n || (n =? 95)%N.

Definition at_bound (st : mstate) : bool :=
  xorb (match before st with Some c => word_char c | None => false end)
       (match ahead st with c :: _ => word_char c | [] => false end).

(** What was consumed between two states. *)
Definition consumed (st st' : mstate) : text := take (length (ahead st) - length (ahead st')) (ahead st).

Definition close_group (st st' : mstate) : mstate := mkM (before st') (ahead st') (Some (consumed st st')).

Definition shorter (st' st : mstate) : bool := (length (ahead st') <? length (ahead st))%nat.

(** Iterating the matcher [f] of a body, at most [n] times: another iteration, if
    it consumes something and the rest then matches, else going on. *)
Fixpoint star (f : mstate -> (mstate -> option mstate) -> option mstate) (k : mstate -> option mstate) (n : nat)
    (st : mstate) : option mstate :=
  match n with
  | O => k st
  | S n =>
      match f st (λ st', if shorter st' st then star f k n st' else None) with
      | Some x => Some x
      | None => k st
      end
  end.

(** Matching [r] and then continuing with [k]. *)
Fixpoint mtch (r : regex) (st : mstate) (k : mstate -> option mstate) : option mstate :=
  match r with
  | REps => k st
  | RChar p => match ahead st with c :: s => if p c then k (step c s st) else None | [] => None end
  | RSeq a b => mtch a st (λ st, mtch b st k)
  | RAlt a b => match mtch a st k with Some x => Some x | None => mtch b st k end
  | RStar a => star (mtch a) k (length (ahead st)) st
  | RNot a => match mtch a st Some with Some _ => None | None => k st end
  | RBound => if at_bound st then k st else None
  | RGroup a => mtch a st (λ st', k (close_group st st'))
  end.

(** [pattern.search(text)]: where the first match starts and ends. *)
Fixpoint search_from (r : regex) (prev : option N) (s : text) : option (mstate * mstate) :=
  let st := mkM prev s None in
  match mtch r st Some with
  | Some st' => Some (st, st')
  | None => match s with [] => None | c :: s => search_from r (Some c) s end
  end.

Definition search (r : regex) (s : text) : option (mstate * mstate) := search_from r None s.

(** [pattern.finditer(text)] for a pattern that matches no empty text: [skip]
    characters belong to the match before. *)
Fixpoint finditer_from (r : regex) (skip : nat) (prev : option N) (s : text) : list (mstate * mstate) :=
  match s with
  | [] => []
  | c :: s' =>
      match skip with
      | S skip => finditer_from r skip (Some c) s'
      | O =>
          let st := mkM prev s None in
          match mtch r st Some with
          | Some st' => (st, st') :: finditer_from r (length s' - length (ahead st')) (Some c) s'
          | None => finditer_from r 0 (Some c) s'
          end
      end
  end.

Definition finditer (r : regex) (s : text) : list (mstate * mstate) := finditer_from r 0 None s.

(** [pattern.sub(f, text)] for such a pattern *)
Fixpoint re_sub_from (r : regex) (f : text -> text) (skip : nat) (prev : option N) (s : text) : text :=
  match s with
  | [] => []
  | c :: s' =>
      match skip with
      | S skip => re_sub_from r f skip (Some c) s'
      | O =>
          let st := mkM prev s None in
          match mtch r st Some with
          | Some st' => f (consumed st st') ++ re_sub_from r f (length s' - length (ahead st')) (Some c) s'
          | None => c :: re_sub_from r f 0 (Some c) s'
          end
      end
  end.

Definition re_sub (r : regex) (f : text -> text) (s : text) : text := re_sub_from r f 0 None s.

(** [pattern.split(text)] for such a pattern; [cur] is the piece being read. *)
Fixpoint re_split_from (r : regex) (skip : nat) (prev : option N) (cur s : text) : list text :=
  match s with
  | [] => [cur]
  | c :: s' =>
      match skip with
      | S skip => re_split_from r skip (Some c) cur s'
      | O =>
          match mtch r (mkM prev s None) Some with
          | Some st' => cur :: re_split_from r (length s' - length (ahead st')) (Some c) [] s'
          | None => re_split_from r 0 (Some c) (cur ++ [c]) s'
          end
      end
  end.

Definition re_split (r : regex) (s : text) : list text := re_split_from r 0 None [] s.

(** ** Character classes *)

(** A letter of a literal, under [IGNORECASE]; literals are lower case. *)
Definition lower_cp (n : N) : N :=
  (if (65 <=? n) && (n <=? 90) || (192 <=? n) && (n <=? 222) && negb (n =? 215) then n + 32 else n)%N.

Definition is_cp (x : N) : regex := RChar (λ c, (lower_cp c =? x)%N).
Definition among (xs : text) : regex := RChar (λ c, existsb (N.eqb c) xs).
Definition lit (s : string) : regex := foldr (λ x r, is_cp x ⋅ r) REps (codes s).
Definition space : regex := RChar space_cp.
Definition digit_cp (n : N) : bool := ((48 <=? n) && (n <=? 57))%N.
Definition digit : regex := RChar digit_cp.
Definition not_newline : regex := RChar (λ c, negb (c =? 10)%N).
Definition non_space : regex := RChar (λ c, negb (space_cp c)).

(** ** What a match is *)

Fixpoint sem (r : regex) (x y : mstate) : Prop :=
  match r with
  | REps => y = x
  | RChar p => exists c s, ahead x = c :: s /\ p c = true /\ y = step c s x
  | RSeq a b => exists z, sem a x z /\ sem b z y
  | RAlt a b => sem a x y \/ sem b x y
  | RStar a => rtc (λ u v, sem a u v /\ shorter v u = true) x y
  | RNot a => y = x /\ forall z, ~ sem a x z
  | RBound => y = x /\ at_bound x = true
  | RGroup a => exists z, sem a x z /\ y = close_group x z
  end.

(** A match only moves ahead. *)
Lemma sem_suffix r : forall x y, sem r x y -> exists w, ahead x = w ++ ahead y.
Proof.
  induction r as [|p|a IHa b IHb|a IHa b IHb|a IHa|a IHa| |a IHa]; cbn [sem]; intros x y H.
  - subst. by exists [].
  - destruct H as (c&s&E&_&->). rewrite E. by exists [c].
  - destruct H as (z&Ha&Hb). apply IHa in Ha as [u Eu]. apply IHb in Hb as [v Ev].
    exists (u ++ v). by rewrite Eu, Ev, app_assoc.
  - destruct H as [H|H]; auto.
  - induction H as [x|x z y [Hz _] _ [v Ev]]; [by exists []|].
    apply IHa in Hz as [u Eu]. exists (u ++ v). by rewrite Eu, Ev, app_assoc.
  - destruct H as [-> _]. by exists [].
  - destruct H as [-> _]. by exists [].
  - destruct H as (z&Hz&->). by apply IHa in Hz.
Qed.

Lemma sem_length r x y : sem r x y -> (length (ahead y) <= length (ahead x))%nat.
Proof. intros [w ->]%sem_suffix. rewrite length_app. lia. Qed.

Lemma consumed_app x y w : ahead x = w ++ ahead y -> consumed x y = w.
Proof. intros E. unfold consumed. rewrite E, length_app, Nat.add_sub. by rewrite take_app_length. Qed.

(** The matcher finds a match in the sense of [sem] that the continuation
    accepts, and finds none only when there is none. *)
Definition exact (r : regex) : Prop := forall st k,
  (forall x, mtch r st k = Some x -> exists st', sem r st st' /\ k st' = Some x) /\
  (mtch r st k = None -> forall st', sem r st st' -> k st' = None).

Lemma star_exact a : exact a -> forall k n st, (length (ahead st) <= n)%nat ->
  (forall x, star (mtch a) k n st = Some x -> exists st', sem (RStar a) st st' /\ k st' = Some x) /\
  (star (mtch a) k n st = None -> forall st', sem (RStar a) st st' -> k st' = None).
Proof.
  intros Ha k. induction n as [|n IH]; intros st Hn; cbn [star].
  - split; [intros x Hx; exists st; split; [apply rtc_refl|done]|]. intros Hk st' H. cbn [sem] in H.
    apply rtc_inv in H as [<-|(z&[_ Hz]&_)]; [done|]. apply Nat.ltb_lt in Hz. lia.
  - destruct (Ha st (λ st', if shorter st' st then star (mtch a) k n st' else None)) as [H1 H2].
    destruct (mtch a st _) as [x|] eqn:E.
    + split; [|done]. intros x' [= <-]. destruct (H1 x eq_refl) as (z&Hz&Hx). destruct (shorter z st) eqn:Es; [|done].
      apply IH in Hx as (st'&Hs&Hk); [|apply Nat.ltb_lt in Es; lia]. exists st'. split; [|done]. by eapply rtc_l.
    + split; [intros x Hx; exists st; split; [apply rtc_refl|done]|]. intros Hk st' H. cbn [sem] in H.
      apply rtc_inv in H as [<-|(z&[Hz Es]&Hr)]; [done|]. specialize (H2 eq_refl z Hz). cbn beta in H2.
      rewrite Es in H2. eapply IH; [|exact H2|exact Hr]. apply Nat.ltb_lt in Es. lia.
Qed.

Lemma mtch_exact r : exact r.
Proof.
  induction r as [|p|a IHa b IHb|a IHa b IHb|a IHa|a IHa| |a IHa]; intros st k; cbn [mtch sem].
  - split; [intros x Hx; by exists st|]. by intros H st' ->.
  - destruct (ahead st) as [|c s]; [split; [done|]; by intros _ st' (?&?&?&_)|].
    destruct (p c) eqn:Ep.
    + split; [intros x Hx; exists (step c s st); split; [by exists c, s|done]|]. by intros H st' (?&?&[= <- <-]&_&->).
    + split; [done|]. intros _ st' (?&?&[= <- <-]&?&_). congruence.
  - split.
    + intros x Hx. apply IHa in Hx as (z&Hz&Hx). apply IHb in Hx as (st'&Hs&Hk). exists st'. split; [by exists z|done].
    + intros H st' (z&Hz&Hs). destruct (IHa st (λ st, mtch b st k)) as [_ H2]. specialize (H2 H z Hz). cbn beta in H2.
      by eapply IHb.
  - destruct (mtch a st k) as [x|] eqn:E.
    + split; [|done]. intros x' [= <-]. apply IHa in E as (st'&?&?). exists st'. by split; [left|].
    + split; [intros x Hx; apply IHb in Hx as (st'&?&?); exists st'; by split; [right|]|].
      intros H st' [Hs|Hs]; [by eapply IHa|by eapply IHb].
  - by apply star_exact.
  - destruct (mtch a st Some) as [x|] eqn:E.
    + split; [done|]. intros _ st' [_ Hn]. apply IHa in E as (z&Hz&_). by destruct (Hn z).
    + split; [|by intros H st' [-> _]]. intros x Hx. exists st. split; [|done]. split; [done|]. intros z Hz.
      destruct (IHa st Some) as [_ H]. by specialize (H E z Hz).
  - destruct (at_bound st); [split; [intros x Hx; by exists st|by intros H st' [-> _]]|]. split; [done|]. by intros _ st' [_ ?].
  - split.
    + intros x Hx. apply IHa in Hx as (z&Hz&Hk). exists (close_group st z). split; [by exists z|done].
    + intros H st' (z&Hz&->). destruct (IHa st (λ st', k (close_group st st'))) as [_ H2]. by apply (H2 H z).
Qed.

Lemma mtch_Some r st st' : mtch r st Some = Some st' -> sem r st st'.
Proof. intros H. apply mtch_exact in H as (z&Hz&[= ->]). done. Qed.

Lemma mtch_None r st : mtch r st Some = None <-> forall st', ~ sem r st st'.
Proof.
  split.
  - intros H st' Hs. destruct (mtch_exact r st Some) as [_ H2]. by specialize (H2 H st' Hs).
  - intros H. destruct (mtch r st Some) as [x|] eqn:E; [|done]. apply mtch_Some in E. by destruct (H x).
Qed.

(** ** Searching *)

(** The character before a position. *)
Definition prev_of (prev : option N) (pre : text) : option N := match last pre with Some c => Some c | None => prev end.

Lemma prev_of_cons prev c pre : prev_of prev (c :: pre) = prev_of (Some c) pre.
Proof. unfold prev_of. destruct pre as [|d pre]; [done|]. change (last (c :: d :: pre)) with (last (d :: pre)). by destruct (last (d :: pre)) eqn:E; [|apply last_None in E]. Qed.

(** A search answers the leftmost position at which there is a match, and one of
    its matches. *)
Lemma search_from_Some r s : forall prev st st',
  search_from r prev s = Some (st, st') <->
  exists pre post, s = pre ++ post /\ st = mkM (prev_of prev pre) post None /\ mtch r st Some = Some st' /\
    forall pre1 post1, s = pre1 ++ post1 -> (length pre1 < length pre)%nat -> mtch r (mkM (prev_of prev pre1) post1 None) Some = None.
Proof.
  induction s as [|c s IH]; intros prev st st'; cbn [search_from].
  - destruct (mtch r (mkM prev [] None) Some) as [x|] eqn:E.
    + split.
      * intros [= <- <-]. exists [], []. split_and!; try done. intros ? ? _ H. cbn in H. lia.
      * intros (pre&post&H&->&Hm&_). symmetry in H. apply app_nil in H as [-> ->]. unfold prev_of in *. cbn in *. congruence.
    + split; [done|]. intros (pre&post&H&->&Hm&_). symmetry in H. apply app_nil in H as [-> ->]. unfold prev_of in *. cbn in *. congruence.
  - destruct (mtch r (mkM prev (c :: s) None) Some) as [x|] eqn:E.
    + split.
      * intros [= <- <-]. exists [], (c :: s). split_and!; try done. intros ? ? _ H. cbn in H. lia.
      * intros (pre&post&H&->&Hm&Hf). destruct pre as [|d pre].
        -- cbn in H. subst post. unfold prev_of in *. cbn in *. congruence.
        -- specialize (Hf [] (c :: s) eq_refl ltac:(cbn; lia)). unfold prev_of in Hf. cbn in Hf. congruence.
    + rewrite IH. split.
      * intros (pre&post&->&->&Hm&Hf). exists (c :: pre), post. rewrite prev_of_cons. split_and!; try done.
        intros [|d pre1] post1 H Hl; [cbn in H; subst; unfold prev_of; cbn; done|]. injection H as <- H.
        rewrite prev_of_cons. apply Hf; [done|]. cbn in Hl. lia.
      * intros (pre&post&H&->&Hm&Hf). destruct pre as [|d pre].
        -- cbn in H. subst post. unfold prev_of in *. cbn in *. congruence.
        -- injection H as <- ->. exists pre, post. rewrite prev_of_cons in *. split_and!; try done.
           intros pre1 post1 H Hl. rewrite H in Hf. specialize (Hf (c :: pre1) post1 eq_refl ltac:(cbn; lia)).
           by rewrite prev_of_cons in Hf.
Qed.

Lemma search_from_None r s : forall prev,
  search_from r prev s = None <-> forall pre post, s = pre ++ post -> mtch r (mkM (prev_of prev pre) post None) Some = None.
Proof.
  induction s as [|c s IH]; intros prev; cbn [search_from].
  - destruct (mtch r (mkM prev [] None) Some) as [x|] eqn:E.
    + split; [done|]. intros H. specialize (H [] [] eq_refl). unfold prev_of in H. cbn in H. congruence.
    + split; [|done]. intros _ pre post H. symmetry in H. apply app_nil in H as [-> ->]. done.
  - destruct (mtch r (mkM prev (c :: s) None) Some) as [x|] eqn:E.
    + split; [done|]. intros H. specialize (H [] (c :: s) eq_refl). unfold prev_of in H. cbn in H. congruence.
    + rewrite IH. split.
      * intros H [|d pre] post Hs; [cbn in Hs; by subst|]. injection Hs as <- ->. rewrite prev_of_cons. by apply H.
      * intros H pre post ->. specialize (H (c :: pre) post eq_refl). by rewrite prev_of_cons in H.
Qed.

(** ** Expressions of plain text *)

(** Without lookaround or groups, a match is a text of the language. *)
Fixpoint plain (r : regex) : bool :=
  match r with
  | REps | RChar _ => true
  | RSeq a b | RAlt a b => plain a && plain b
  | RStar a => plain a
  | RNot _ | RBound | RGroup _ => false
  end.

Fixpoint lang (r : regex) (w : text) : Prop :=
  match r with
  | REps => w = []
  | RChar p => exists c, w = [c] /\ p c = true
  | RSeq a b => exists u v, w = u ++ v /\ lang a u /\ lang b v
  | RAlt a b => lang a w \/ lang b w
  | RStar a => exists ws, w = concat ws /\ Forall (λ u, u <> [] /\ lang a u) ws
  | RNot _ | RBound | RGroup _ => False
  end.

Lemma prev_of_app prev u v : prev_of prev (u ++ v) = prev_of (prev_of prev u) v.
Proof. unfold prev_of. rewrite last_app. by destruct (last v). Qed.

Definition after (w : text) (s : text) (x : mstate) : mstate := mkM (prev_of (before x) w) s (group x).

Lemma after_nil x : after [] (ahead x) x = x.
Proof. by destruct x. Qed.

Lemma sem_plain r : plain r = true -> forall x y,
  sem r x y <-> exists w s, ahead x = w ++ s /\ lang r w /\ y = after w s x.
Proof.
  induction r as [|p|a IHa b IHb|a IHa b IHb|a IHa|a IHa| |a IHa]; cbn [plain]; try done; intros Hp x y; cbn [sem lang].
  - split; [intros ->; exists [], (ahead x); by rewrite after_nil|]. intros (w&s&E&->&->). cbn in E. by rewrite <- E, after_nil.
  - split.
    + intros (c&s&E&Hc&->). exists [c], s. split_and!; [done|by exists c|]. done.
    + intros (w&s&E&(c&->&Hc)&->). by exists c, s.
  - apply andb_true_iff in Hp as [Hp1 Hp2]. specialize (IHa Hp1). specialize (IHb Hp2). split.
    + intros (z&(u&s&E&Hu&->)%IHa&(v&s'&E'&Hv&->)%IHb). cbn in E'. exists (u ++ v), s'. split_and!.
      * by rewrite E, E', app_assoc.
      * by exists u, v.
      * unfold after. cbn. by rewrite prev_of_app.
    + intros (w&s&E&(u&v&->&Hu&Hv)&->). exists (after u (v ++ s) x). split.
      * apply IHa. exists u, (v ++ s). split_and!; [by rewrite E, app_assoc|done|done].
      * apply IHb. exists v, s. split_and!; [done|done|]. unfold after. cbn. by rewrite prev_of_app.
  - apply andb_true_iff in Hp as [Hp1 Hp2]. rewrite (IHa Hp1), (IHb Hp2). split.
    + intros [(w&s&?&?&?)|(w&s&?&?&?)]; exists w, s; tauto.
    + intros (w&s&?&[?|?]&?); [left|right]; by exists w, s.
  - specialize (IHa Hp). split.
    + induction 1 as [x|x z y [Hz Hs] _ IH]; [exists [], (ahead x); rewrite after_nil; split_and!; try done; by exists []|].
      apply IHa in Hz as (u&s&E&Hu&->). destruct IH as (v&s'&E'&(ws&->&Hws)&->). cbn in E'.
      exists (u ++ concat ws), s'. split_and!; [by rewrite E, E', app_assoc| |unfold after; cbn; by rewrite prev_of_app].
      exists (u :: ws). split; [done|]. constructor; [|done]. split; [|done]. intros ->. cbn in E. unfold shorter in Hs.
      cbn in Hs. rewrite E in Hs. apply Nat.ltb_lt in Hs. lia.
    + intros (w&s&E&(ws&->&Hws)&->). revert x E. induction Hws as [|u ws [Hne Hu] _ IH]; intros x E.
      * cbn in E. rewrite <- E. cbn. rewrite after_nil. apply rtc_refl.
      * cbn [concat] in *. rewrite <- app_assoc in E. eapply rtc_l; [split|].
        -- apply IHa. exists u, (concat ws ++ s). split_and!; done.
        -- unfold shorter. rewrite E. cbn. rewrite (length_app u). apply Nat.ltb_lt. destruct u; [done|cbn; lia].
        -- replace (after (u ++ concat ws) s x) with (after (concat ws) s (after u (concat ws ++ s) x)) by (unfold after; cbn; by rewrite prev_of_app).
           by apply IH.
Qed.

Lemma lang_lit s w : lang (lit s) w <-> map lower_cp w = codes s.
Proof.
  unfold lit. generalize (codes s) as l. intros l. revert w. induction l as [|x l IH]; intros w; cbn [foldr lang].
  - split; [by intros ->|]. by destruct w.
  - split.
    + intros (u&v&->&(c&->&Hc)&Hv). apply IH in Hv. cbn. apply N.eqb_eq in Hc. congruence.
    + destruct w as [|c w]; [done|]. intros [= Hc Hw]. exists [c], w. split_and!; [done| |by apply IH].
      exists c. split; [done|]. by apply N.eqb_eq.
Qed.

Lemma plain_lit s : plain (lit s) = true.
Proof. unfold lit. by induction (codes s). Qed.

Lemma lang_star_char p w : lang (RStar (RChar p)) w <-> Forall (λ c, p c = true) w.
Proof.
  cbn [lang]. split.
  - intros (ws&->&H). induction H as [|u ws [_ (c&->&Hc)] _ IH]; [done|]. cbn. by constructor.
  - intros H. exists (map (λ c, [c]) w). induction H as [|c w Hc _ [IH1 IH2]]; [done|]. cbn [map concat]. split; [by rewrite <- IH1|].
    constructor; [|done]. split; [done|]. by exists c.
Qed.
