(* ===== verification/SalienceAddressing.v ===== *)
(** * Addressing in natural language

    Models [agents/salience_addressing.py]: does a message invite this persona,
    or somebody else, by name? Texts are code points of U+0000 to U+00FF, with
    the two apostrophes U+2019 and U+02BC in a message. *)

From Stdlib Require Import Ascii.
From S2P Require Import Prelude PyStr FactPredicates PyRegex SalienceDeliberation.
Local Open Scope string_scope.

Local Open Scope regex_scope.

Definition spaces : regex := RPlus space.

(** [(?!(?:and|or)\b)[A-Za-z][\w'\-]*] *)
Definition _NAME_WORD : regex :=
  RNot ((lit "and" ∪∪ lit "or") ⋅ RBound) ⋅ RChar letter_cp ⋅
  RStar (RChar (λ c, word_char c || (c =? 39) || (c =? 45))%N).

(** [{0,2}] *)
Definition _ONE_NAME : regex :=
  let more := spaces ⋅ _NAME_WORD in _NAME_WORD ⋅ ROpt (more ⋅ ROpt more).

Definition _LIST_CONNECTIVE : regex :=
  RStar space ⋅ among (codes ",") ⋅ RStar space ∪∪ spaces ⋅ lit "and" ⋅ spaces ∪∪ spaces ⋅ lit "or" ⋅ spaces ∪∪
  RStar space ⋅ among (codes "&") ⋅ RStar space ∪∪ RStar space ⋅ among (codes "+") ⋅ RStar space.

Definition _NAME_RUN : regex := RGroup (_ONE_NAME ⋅ RStar (_LIST_CONNECTIVE ⋅ _ONE_NAME)).

Definition _LIST_SPLIT : regex := _LIST_CONNECTIVE.

Definition one_of (ws : list string) : regex :=
  match ws with [] => REps | w :: ws => fold_left (λ r w, r ∪∪ lit w) ws (lit w) end.

Definition _ADDRESS_CUES : list regex :=
  [lit "let" ⋅ ROpt (among (codes "'")) ⋅ lit "s" ⋅ spaces ⋅ lit "hear" ⋅ spaces ⋅ lit "from" ⋅ spaces ⋅ _NAME_RUN;
   lit "let" ⋅ spaces ⋅ lit "us" ⋅ spaces ⋅ lit "hear" ⋅ spaces ⋅ lit "from" ⋅ spaces ⋅ _NAME_RUN;
   RBound ⋅ lit "over" ⋅ spaces ⋅ lit "to" ⋅ spaces ⋅ _NAME_RUN;
   RBound ⋅ lit "hand" ⋅ ROpt (lit "ing") ⋅ spaces ⋅ ROpt (lit "it" ⋅ spaces ∪∪ lit "this" ⋅ spaces) ⋅
     ROpt (lit "over" ⋅ spaces) ⋅ lit "to" ⋅ spaces ⋅ _NAME_RUN;
   RBound ⋅ lit "what" ⋅ spaces ⋅ one_of ["do"; "does"; "would"; "will"] ⋅ spaces ⋅ _NAME_RUN ⋅ spaces ⋅ one_of ["think"; "say"];
   RBound ⋅ lit "curious" ⋅ spaces ⋅ (lit "what" ∪∪ lit "to" ⋅ spaces ⋅ lit "hear" ⋅ spaces ⋅ lit "what") ⋅ spaces ⋅
     _NAME_RUN ⋅ RBound].

Local Close Scope regex_scope.

(** ** The word lists *)

Definition _NON_NAME_TOKENS : list text := map codes
  ["you"; "u"; "we"; "us"; "all"; "everyone"; "everybody"; "anyone";
   "someone"; "anybody"; "somebody"; "them"; "they"; "folks"; "team";
   "people"; "yall"; "me"; "i"; "myself"; "here"; "there";
   "group"; "guys"; "gang"; "crew"; "squad"; "others"; "channel";
   "room"; "chat"; "two"; "both"].

Definition _NAME_FILLERS : list text := map codes
  ["the"; "a"; "an"; "our"; "my"; "your"; "their"; "his"; "her"; "its";
   "whole"; "entire"; "rest"; "of"; "both"; "all"].

Definition _NAME_TRAILERS : list text := map codes
  ["on"; "about"; "regarding"; "re"; "for"; "this"; "that"; "here";
   "please"; "think"; "thinks"; "say"; "says"; "too"; "as"].

Definition _PROSE_LEADERS : list text :=
  (_NON_NAME_TOKENS ++ map codes
  ["and"; "or"; "but"; "so"; "then"; "also"; "plus"; "if"; "when"; "while";
   "because"; "the"; "a"; "an"; "this"; "that"; "these"; "those";
   "is"; "are"; "was"; "were"; "be"; "been";
   "do"; "does"; "did"; "can"; "could"; "should"; "would"; "will";
   "may"; "might"; "must"; "shall";
   "ask"; "tell"; "see"; "check"; "get"; "let"; "lets"; "go"; "make";
   "take"; "give"; "pick"; "use"; "add"; "maybe"; "perhaps"; "please"; "just"])%list.

Definition _NAMELIKE_PROSE_WORDS : list text := map codes ["will"; "may"].

Definition among_texts (w : text) (ws : list text) : bool := bool_decide (w ∈ ws).

Definition _NEVER_NAME_LEADERS : list text :=
  List.filter (λ w, negb (among_texts w _NAMELIKE_PROSE_WORDS)) _PROSE_LEADERS.

(** ** The extractor *)

Record NLAddressing := mkAddressing { self_named : bool; other_named : bool }.

Definition token_cp (c : N) : bool := digit_cp c || ((97 <=? c) && (c <=? 122))%N.

(** [re.findall(r"[a-z0-9]+", s)]; [cur] is the token being read. *)
Fixpoint tokens_from (cur s : text) : list text :=
  match s with
  | [] => match cur with [] => [] | _ => [cur] end
  | c :: s =>
      if token_cp c then tokens_from (cur ++ [c])%list s
      else match cur with [] => tokens_from [] s | _ => cur :: tokens_from [] s end
  end.

Definition _name_tokens (s : text) : list text := tokens_from [] (lower_text s).

(** [s.strip(chars)] *)
Fixpoint lstrip_of (chars s : text) : text :=
  match s with c :: s' => if existsb (N.eqb c) chars then lstrip_of chars s' else s | [] => [] end.
Definition strip_of (chars s : text) : text := reverse (lstrip_of chars (reverse (lstrip_of chars s))).

Definition split_words (s : text) : list text := split_from [] s.

(** [words.pop()] while the last word is a trailer; the words are reversed. *)
Fixpoint pop_trailers (rev_words : list text) : list text :=
  match rev_words with
  | w :: ws => if among_texts (strip_of (codes ".,!?;:") (lower_text w)) _NAME_TRAILERS then pop_trailers ws else rev_words
  | [] => []
  end.

Definition _clean_name (s : text) : text := join_words (reverse (pop_trailers (reverse (split_words s)))).

Definition upper_cp (n : N) : bool := ((65 <=? n) && (n <=? 90) || (192 <=? n) && (n <=? 222) && negb (n =? 215))%N.

(** [w[:1].isupper()] *)
Definition capital (w : text) : bool := match w with c :: _ => upper_cp c | [] => false end.

(** The double quote is U+0022. *)
Definition punctuation : text := (codes ".,!?;:'" ++ [34%N])%list.

Fixpoint first_name_capital (words : list text) : bool :=
  match words with
  | [] => false
  | w :: words =>
      if among_texts (strip_of punctuation (lower_text w)) _NAME_FILLERS then first_name_capital words else capital w
  end.

Definition _has_proper_name_capital (candidate : text) : bool := first_name_capital (split_words candidate).

(** The list members after the first, up to the first that is prose. *)
Fixpoint keep_names (parts : list text) : list text :=
  match parts with
  | [] => []
  | part :: parts =>
      let stripped := strip_text part in
      match split_words stripped with
      | [] => []
      | w :: _ =>
          let first_tok := strip_of punctuation (lower_text w) in
          if among_texts first_tok _NEVER_NAME_LEADERS then []
          else if capital stripped || negb (among_texts first_tok _PROSE_LEADERS) then stripped :: keep_names parts
          else []
      end
  end.

Definition _split_names (s : text) : list text :=
  match re_split _LIST_SPLIT s with [] => [] | part :: parts => part :: keep_names parts end.

Definition subset (a b : list text) : bool := forallb (λ w, among_texts w b) a.

(** What a candidate says of the persona. *)
Inductive naming := NoName | NamesSelf | NamesOther (capitalised : bool).

Definition classify (persona_toks : list text) (candidate : text) : naming :=
  let core := List.filter (λ w, negb (among_texts w _NAME_FILLERS)) (_name_tokens (_clean_name candidate)) in
  if match core with [] => true | _ => false end || subset core _NON_NAME_TOKENS then NoName
  else if subset persona_toks core || subset core persona_toks then NamesSelf
  else NamesOther (_has_proper_name_capital candidate).

(** The candidates of one match, in order; [first] and [saw_real_name] as the
    loop has them. *)
Fixpoint scan (persona_toks : list text) (first saw_real_name : bool) (candidates : list text) (a : NLAddressing) : NLAddressing :=
  match candidates with
  | [] => a
  | c :: candidates =>
      match classify persona_toks c with
      | NoName => scan persona_toks false saw_real_name candidates a
      | NamesSelf => scan persona_toks false true candidates (mkAddressing true (other_named a))
      | NamesOther capitalised =>
          if capitalised && (first || saw_real_name)
          then scan persona_toks false true candidates (mkAddressing (self_named a) true)
          else scan persona_toks false saw_real_name candidates a
      end
  end.

Definition scan_match (persona_toks : list text) (a : NLAddressing) (m : mstate * mstate) : NLAddressing :=
  scan persona_toks true false (_split_names (default [] (group m.2))) a.

Definition straight_quotes (s : text) : text :=
  map (λ c, if (c =? 8217)%N || (c =? 700)%N then 39%N else c) s.

Definition detect_nl_addressing (content persona_name : text) : NLAddressing :=
  match content, persona_name with
  | [], _ | _, [] => mkAddressing false false
  | _, _ =>
      let content := straight_quotes content in
      match _name_tokens persona_name with
      | [] => mkAddressing false false
      | persona_toks =>
          fold_left (λ a cue, fold_left (scan_match persona_toks) (finditer cue content) a) _ADDRESS_CUES (mkAddressing false false)
      end
  end.

Example detect_self : detect_nl_addressing (codes "Great, let's hear from Iron Fox and ember owl on this") (codes "Ember Owl") = mkAddressing true true.
Proof. by vm_compute. Qed.

Example detect_group : detect_nl_addressing (codes "over to the whole team") (codes "Ember Owl") = mkAddressing false false.
Proof. by vm_compute. Qed.

Example detect_prose : detect_nl_addressing (codes "let's hear from Iron Fox and we should pick Redis") (codes "Redis") = mkAddressing false true.
Proof. by vm_compute. Qed.

Example detect_topic : detect_nl_addressing (codes "let's move over to caching") (codes "Ember Owl") = mkAddressing false false.
Proof. by vm_compute. Qed.

(** ** What the signal stands for *)

(** A match of a cue in a message, and the candidates it names. *)
Definition invites (content : text) (candidates : list text) : Prop :=
  exists cue m, cue ∈ _ADDRESS_CUES /\ m ∈ finditer cue (straight_quotes content) /\
    candidates = _split_names (default [] (group m.2)).

(** Candidate [i] counts as somebody else: a capitalised other name, which
    leads the list or follows a name already found real. *)
Definition other_at (persona_toks : list text) (candidates : list text) (i : nat) : Prop :=
  exists c, candidates !! i = Some c /\ classify persona_toks c = NamesOther true /\
  (i = 0%nat \/ exists j d, (j < i)%nat /\ candidates !! j = Some d /\
     (classify persona_toks d = NamesSelf \/ j = 0%nat /\ classify persona_toks d = NamesOther true)).

Definition self_at (persona_toks : list text) (candidates : list text) : Prop :=
  exists c, c ∈ candidates /\ classify persona_toks c = NamesSelf.

Definition a_or (a b : NLAddressing) : NLAddressing := mkAddressing (self_named a || self_named b) (other_named a || other_named b).

(** A list once anchored: every capitalised other counts. *)
Definition anchored_other (pt : list text) (first saw : bool) (cands : list text) (i : nat) : Prop :=
  exists c, cands !! i = Some c /\ classify pt c = NamesOther true /\
  (saw = true \/ (first = true /\ i = 0%nat) \/ exists j d, (j < i)%nat /\ cands !! j = Some d /\
     (classify pt d = NamesSelf \/ first = true /\ j = 0%nat /\ classify pt d = NamesOther true)).

Lemma anchored_cons pt first saw c cands i :
  anchored_other pt first saw (c :: cands) (S i) <->
  anchored_other pt false (saw || match classify pt c with NamesSelf => true | NamesOther true => first | _ => false end) cands i.
Proof.
  unfold anchored_other. split; intros (e&He&Hc&H); exists e; (split; [done|]); (split; [done|]).
  - destruct H as [-> |[[_ ?]|(j&d&Hj&Hd&H)]]; [by left|done|]. destruct j as [|j].
    + cbn in Hd. injection Hd as ->. left. destruct H as [-> |(->&_&->)]; [|]; by rewrite orb_true_r.
    + right. right. exists j, d. split; [lia|]. split; [done|]. destruct H as [H|(_&?&_)]; [by left|done].
  - destruct H as [H|[[? _]|(j&d&Hj&Hd&H)]]; [|done|].
    + apply orb_true_iff in H as [->|H]; [by left|]. right. right. exists 0%nat, c. split; [lia|]. split; [done|].
      destruct (classify pt c) as [| |[|]]; try done; [by left|right; done].
    + right. right. exists (S j), d. split; [lia|]. split; [done|]. destruct H as [H|(?&_)]; [by left|done].
Qed.

Lemma scan_spec pt cands : forall first saw a,
  let r := scan pt first saw cands a in
  (self_named r = true <-> self_named a = true \/ self_at pt cands) /\
  (other_named r = true <-> other_named a = true \/ exists i, anchored_other pt first saw cands i).
Proof.
  assert (forall first saw c cands, (exists i, anchored_other pt first saw (c :: cands) i) <->
    anchored_other pt first saw (c :: cands) 0 \/
    exists i, anchored_other pt false (saw || match classify pt c with NamesSelf => true | NamesOther true => first | _ => false end) cands i) as Hex.
  { intros first saw c l. setoid_rewrite <- anchored_cons. split; [intros [[|i] H]; [by left|right; eauto]|intros [H|[i H]]; eauto]. }
  assert (forall first saw c cands, anchored_other pt first saw (c :: cands) 0 <->
    classify pt c = NamesOther true /\ (saw = true \/ first = true)) as H0.
  { intros first saw c l. unfold anchored_other. cbn. split.
    - intros (e&[= ->]&Hc&H). split; [done|]. destruct H as [?|[[? _]|(j&?&?&_)]]; [by left|by right|lia].
    - intros [Hc H]. exists c. split_and!; try done. destruct H; [by left|by right; left]. }
  induction cands as [|c cands IH]; intros first saw a; cbv zeta; cbn [scan].
  - split; [split; [by left|]; intros [?|(?&?%not_elem_of_nil&_)]; done|]. split; [by left|]. by intros [?|(?&?&?&_)].
  - assert (self_at pt (c :: cands) <-> classify pt c = NamesSelf \/ self_at pt cands) as Hs.
    { unfold self_at. setoid_rewrite elem_of_cons. split; [intros (d&[->|?]&?); [by left|right; eauto]|intros [?|(d&?&?)]; eauto]. }
    rewrite Hex, H0, Hs. destruct (classify pt c) as [| |cap] eqn:Ec.
    + rewrite orb_false_r. destruct (IH false saw a) as [-> ->]. split; [intuition congruence|].
      split; [intros [?|?]; auto|intros [?|[[? _]|?]]; [by left|done|by right]].
    + rewrite orb_true_r. destruct (IH false true (mkAddressing true (other_named a))) as [-> ->]. cbn. split; [intuition|].
      split; [intros [?|?]; auto|intros [?|[[? _]|?]]; [by left|done|by right]].
    + destruct cap; cbn [andb].
      * destruct (first || saw) eqn:Ef.
        -- destruct (IH false true (mkAddressing (self_named a) true)) as [-> ->]. cbn. split; [intuition congruence|].
           split; [intros _|by left]. right. left. split; [done|]. apply orb_true_iff in Ef. tauto.
        -- apply orb_false_iff in Ef as [-> ->]. cbn [orb]. destruct (IH false false a) as [-> ->]. split; [intuition congruence|].
           split; [intros [?|?]; auto|intros [?|[[_ [?|?]]|?]]; [by left|done|done|by right]].
      * rewrite orb_false_r. destruct (IH false saw a) as [-> ->]. split; [intuition congruence|].
        split; [intros [?|?]; auto|intros [?|[[? _]|?]]; [by left|done|by right]].
Qed.

Lemma scan_match_spec pt a m :
  let cands := _split_names (default [] (group m.2)) in
  (self_named (scan_match pt a m) = true <-> self_named a = true \/ self_at pt cands) /\
  (other_named (scan_match pt a m) = true <-> other_named a = true \/ exists i, other_at pt cands i).
Proof.
  cbv zeta. unfold scan_match. set (cands := _split_names _). destruct (scan_spec pt cands true false a) as [-> ->].
  split; [done|]. split; (intros [?|[i H]]; [by left|right; exists i; revert H]); unfold anchored_other, other_at;
    intros (c&Hc&Hk&H); exists c; (split; [done|]); (split; [done|]).
  - destruct H as [?|[[_ ?]|(j&d&?&?&[?|(_&?&?)])]]; [done|by left|right; exists j, d; tauto|right; exists j, d; tauto].
  - right. destruct H as [?|(j&d&?&?&[?|(?&?)])]; [by left|right; exists j, d; tauto|right; exists j, d; tauto].
Qed.

(** Folding what each item names. *)
Lemma fold_names {A} (f : NLAddressing -> A -> NLAddressing) (S O : A -> Prop) :
  (forall a x, (self_named (f a x) = true <-> self_named a = true \/ S x) /\ (other_named (f a x) = true <-> other_named a = true \/ O x)) ->
  forall l a,
  (self_named (fold_left f l a) = true <-> self_named a = true \/ exists x, x ∈ l /\ S x) /\
  (other_named (fold_left f l a) = true <-> other_named a = true \/ exists x, x ∈ l /\ O x).
Proof.
  intros Hf. induction l as [|x l IH]; intros a; cbn [fold_left].
  - split; (split; [by left|]; intros [?|(?&?%not_elem_of_nil&_)]; done).
  - destruct (IH (f a x)) as [-> ->], (Hf a x) as [-> ->]. setoid_rewrite elem_of_cons.
    split; (split; [intros [[?|?]|(y&?&?)]; eauto|intros [?|(y&[->|?]&?)]; eauto]).
Qed.

(** The signal is exactly what the message says. The persona is named when some
    cue invites a name that shares all its words, or whose words it shares;
    somebody else is named when some cue invites, first or after a real name, a
    capitalised name that does not. Pronouns, groups, lower-case topics and the
    prose after a list name nobody; without a name or a message there is no
    signal. *)
Theorem addressing_exact content persona_name :
  let a := detect_nl_addressing content persona_name in
  let pt := _name_tokens persona_name in
  (self_named a = true <-> pt <> [] /\ exists candidates, invites content candidates /\ self_at pt candidates) /\
  (other_named a = true <-> pt <> [] /\ exists candidates i, invites content candidates /\ other_at pt candidates i).
Proof.
  cbv zeta. unfold detect_nl_addressing, invites.
  destruct content as [|c0 content]; [split; (split; [done|]); [intros (_&?&(cue&m&_&Hm&_)&_)|intros (_&?&?&(cue&m&_&Hm&_)&_)]; by apply not_elem_of_nil in Hm|].
  destruct persona_name as [|n0 persona_name]; [split; (split; [done|]); by intros [? _]|].
  destruct (_name_tokens (n0 :: persona_name)) as [|p0 pt0] eqn:Ept; [split; (split; [done|]); by intros [? _]|].
  set (pt := p0 :: pt0). set (msg := straight_quotes (c0 :: content)).
  pose proof (fold_names (scan_match pt) _ _ (scan_match_spec pt)) as Hmatch.
  destruct (fold_names (λ a cue, fold_left (scan_match pt) (finditer cue msg) a) _ _ (λ a cue, Hmatch (finditer cue msg) a)
              _ADDRESS_CUES (mkAddressing false false)) as [-> ->]. cbn [self_named other_named]. split.
  - split.
    + intros [?|(cue&?&m&?&?)]; [done|]. split; [done|]. eexists. split; [by exists cue, m|done].
    + intros (_&?&(cue&m&?&?&->)&?). right. exists cue. split; [done|]. by exists m.
  - split.
    + intros [?|(cue&?&m&?&i&?)]; [done|]. split; [done|]. eexists _, i. split; [by exists cue, m|done].
    + intros (_&?&i&(cue&m&?&?&->)&?). right. exists cue. split; [done|]. exists m. split; [done|]. by exists i.
Qed.
