(* ===== verification/SalienceBid.v ===== *)
(** * The salience bid

    Models [agents/salience_bid.py]: the bid on whether a message deserves a
    turn, its prompt, its score and its bar. The prompt files are the parameter
    [load_snippet], the alias table [resolved], and the leased model call
    [create_message], over a world [W]. *)

From Stdlib Require Import Ascii.
From S2P Require Import Prelude PyStr PyDict PyFloat FactPredicates PyRegex SalienceDeliberation SalienceAddressing.
Local Open Scope string_scope.
Local Open Scope py_scope.

Definition _BID_MODEL_ALIAS : string := "fast".
Definition _BID_TEMPERATURE : Q := 0.
Definition _DECISIVE_SCORE : Q := 8 # 10.
Definition _ADDRESSED_SELF_BONUS : Q := 2 # 10.
Definition _ADDRESSED_OTHER_PENALTY : Q := 2 # 10.
Definition _ADDRESSED_OTHER_CEILING : Q := 9 # 10.
Definition _BAR_PRECISION : Z := 6.
Definition DEFAULT_SALIENCE_MAX_CHANNEL_MEMBERS : Z := 20.

Record SalienceDecision := mkSalience {
  speak : bool;
  score : option Q;
  reason : string;
  reason_note : option text;
}.

Definition skip_bid_for_channel_size (channel_size : option Z) (max_members : Z) : bool :=
  if (max_members <=? 0)%Z then false
  else match channel_size with
       | None => false
       | Some n => if (n <=? 0)%Z then false else (max_members <? n)%Z
       end.

(** ** Reading the answer *)

Local Open Scope regex_scope.

Definition decimals : regex := among (codes ".") ⋅ RPlus digit.
Definition _SCORE_RE : regex :=
  lit "score" ⋅ field_sep ⋅ RGroup (among (codes "01") ⋅ ROpt decimals ∪∪ ROpt (among (codes "0")) ⋅ decimals) ⋅ RNot digit.
Definition _SPEAK_RE : regex := lit "speak" ⋅ field_sep ⋅ RGroup (lit "yes" ∪∪ lit "no") ⋅ REps.

Local Close Scope regex_scope.

(** [float(s)] of digits with an optional point *)
Definition digits_value (s : text) : Z := fold_left (λ n c, 10 * n + (Z.of_N c - 48))%Z s 0%Z.
Fixpoint cut_at (d : N) (s : text) : text * text :=
  match s with
  | [] => ([], [])
  | c :: s => if (c =? d)%N then ([], s) else let '(a, b) := cut_at d s in (c :: a, b)
  end.
Definition decimal (s : text) : Q :=
  let '(whole, frac) := cut_at 46 s in
  (inject_Z (digits_value whole) + inject_Z (digits_value frac) / inject_Z (10 ^ Z.of_nat (length frac)))%Q.

Definition _parse_score (answer : option text) : option Q :=
  match answer with
  | None | Some [] => None
  | Some s => option_map (λ v, fmax 0 (fmin 1 (decimal v))) (captured _SCORE_RE s)
  end.

Definition _parse_speak (answer : option text) : option bool :=
  match answer with
  | None | Some [] => None
  | Some s => option_map (λ v, bool_decide (lower_text v = codes "yes")) (captured _SPEAK_RE s)
  end.

(** ** The bar *)

(** [round(x, 6)] *)
Definition round_bar (x : Q) : Q := (inject_Z (py_round (x * inject_Z (10 ^ _BAR_PRECISION))) / inject_Z (10 ^ _BAR_PRECISION))%Q.

Definition _bar_for (threshold : option Q) (addressing : NLAddressing) : Q :=
  let base := default _DECISIVE_SCORE threshold in
  let bar :=
    if self_named addressing then (base - _ADDRESSED_SELF_BONUS)%Q
    else if other_named addressing then fmin (base + _ADDRESSED_OTHER_PENALTY) (fmax _ADDRESSED_OTHER_CEILING base)
    else base in
  round_bar (fmax 0 (fmin 1 bar)).

(** ** The prompt *)

(** [template.format] with plain names in its fields; [field] is the name
    being read. *)
Fixpoint format_from (args : list (text * text)) (field : option text) (s : text) : result string text :=
  match field, s with
  | None, [] => Ok []
  | Some _, [] => Raise "ValueError"
  | None, c :: s =>
      if (c =? 123)%N then
        match s with
        | d :: s' => if (d =? 123)%N then let! t := format_from args None s' in Ok (c :: t) else format_from args (Some []) s
        | [] => Raise "ValueError"
        end
      else if (c =? 125)%N then
        match s with
        | d :: s' => if (d =? 125)%N then let! t := format_from args None s' in Ok (c :: t) else Raise "ValueError"
        | [] => Raise "ValueError"
        end
      else let! t := format_from args None s in Ok (c :: t)
  | Some name, c :: s =>
      if (c =? 125)%N then
        match dget name args with
        | Some v => let! t := format_from args None s in Ok (v ++ t)%list
        | None => Raise "KeyError"
        end
      else format_from args (Some (name ++ [c])%list) s
  end.

Definition format (args : list (text * text)) (template : text) : result string text := format_from args None template.

Definition newline : text := [10%N].

Section bid.
Context (load_snippet : string -> result string text).

Definition _addressing_note (a : NLAddressing) : result string text :=
  if self_named a then let! s := load_snippet "salience-bid-addressing-self" in Ok (newline ++ newline ++ s)%list
  else if other_named a then let! s := load_snippet "salience-bid-addressing-other" in Ok (newline ++ newline ++ s)%list
  else Ok [].

(** A turn of the transcript, by its role and its content. *)
Definition transcript_line (turn : string * text) : list text :=
  match strip_text turn.2 with
  | [] => []
  | t => [(codes (if bool_decide (turn.1 = "assistant") then "Me" else "Thread") ++ codes ": " ++ t)%list]
  end.

Definition _build_bid_messages (content : text) (transcript : list (string * text)) (a : NLAddressing) (mode : string) :
    result string text :=
  let lines := flat_map transcript_line transcript in
  let block := match lines with [] => codes "(no prior turns this round)" | _ => join_with newline lines end in
  let! note := _addressing_note a in
  let note_tail := match note with [] => codes " " | _ => (note ++ newline ++ newline)%list end in
  let! template := load_snippet (user_snippet mode) in
  let! instruction := format [(codes "note_tail", note_tail)] template in
  Ok (codes "Conversation so far this round:" ++ newline ++ block ++ newline ++ newline ++
      codes "New message:" ++ newline ++ content ++ newline ++ newline ++ instruction)%list.

Definition _bid_system_prompt (persona_name persona_role : text) (mode : string) : result string text :=
  let! template := load_snippet (system_snippet mode) in
  format [(codes "persona_name", persona_name); (codes "persona_role", persona_role)] template.

(** ** The call *)

Record BidRequest := mkBid {
  b_model : string;
  b_alias : string;
  b_user : text;
  b_system : text;
  b_max_tokens : Z;
  b_cause : string;
  b_agent : string;
  b_interaction : string;
}.

(** What the leased call ends in; [RpcError true] is [RESOURCE_EXHAUSTED]. *)
Inductive llm_outcome :=
| Answer (t : option text)
| BudgetExceeded
| RpcError (resource_exhausted : bool)
| ProviderError.

(** A bid for one message. *)
Record BidInput := mkBidInput {
  i_content : text;
  i_transcript : list (string * text);
  i_agent : string;
  i_name : text;
  i_role : text;
  i_threshold : option Q;
  i_cause : string;
  i_interaction : string;
  i_mode : string;
}.

(** The decision, what [deliberation_out] is given, and the labels of the
    parse-failure counter. *)
Record BidResult := mkBidResult { bid_decision : SalienceDecision; surfaced : list text; parse_failures : list string }.

Definition silent (r : string) : BidResult := mkBidResult (mkSalience false None r None) [] [].

Context {W : Type} (resolved : option (string * string)) (create_message : BidRequest -> W -> llm_outcome * W).

(** The request, whose parts are made inside the [try]. *)
Definition bid_request (model : string * string) (i : BidInput) : result string BidRequest :=
  let! user := _build_bid_messages (i_content i) (i_transcript i) (detect_nl_addressing (i_content i) (i_name i)) (i_mode i) in
  let! system := _bid_system_prompt (i_name i) (i_role i) (i_mode i) in
  Ok (mkBid model.1 model.2 user system (max_output_tokens_for (i_mode i)) (i_cause i) (i_agent i) (i_interaction i)).

(** The decision on an answer. *)
Definition decide_answer (i : BidInput) (t : option text) : BidResult :=
  if is_structured (i_mode i) then
    let '(v, labels) := parse_verdict t (i_mode i) in
    mkBidResult (mkSalience (v_speak v) None (v_code v) (v_note v)) [default [] t] labels
  else
    match _parse_score t with
    | None => silent "parse_failure"
    | Some s =>
        if Qltb s (_bar_for (i_threshold i) (detect_nl_addressing (i_content i) (i_name i)))
        then mkBidResult (mkSalience false (Some s) "below_threshold" None) [] []
        else match _parse_speak t with
             | Some false => mkBidResult (mkSalience false (Some s) "declined" None) [] []
             | _ => mkBidResult (mkSalience true (Some s) "salient" None) [] []
             end
    end.

Definition on_outcome (i : BidInput) (o : llm_outcome) : BidResult :=
  match o with
  | BudgetExceeded | RpcError true => silent "lease_denied"
  | RpcError false | ProviderError => silent "llm_error"
  | Answer t => decide_answer i t
  end.

Definition evaluate_salience (i : BidInput) (w : W) : BidResult * W :=
  match resolved with
  | None => (silent "model_unresolvable", w)
  | Some model =>
      match bid_request model i with
      | Raise _ => (silent "llm_error", w)
      | Ok request =>
          let '(o, w) := create_message request w in (on_outcome i o, w)
      end
  end.
End bid.

(** ** The score *)

Definition number : regex := (among (codes "01") ⋅ ROpt decimals ∪∪ ROpt (among (codes "0")) ⋅ decimals)%re.

Definition no_digit_ahead (s : text) : Prop := forall c, head s = Some c -> digit_cp c = false.

(** The text states a score. *)
Definition scores (s value : text) : Prop :=
  exists pre post, labelled "score" field_sep s pre value post /\ lang number value /\ no_digit_ahead post.

Lemma score_sem st st' :
  sem _SCORE_RE st st' <->
  exists name gap value s, ahead st = (name ++ gap ++ value ++ s)%list /\ lower_text name = codes "score" /\
    lang field_sep gap /\ lang number value /\ no_digit_ahead s /\
    st' = mkM (prev_of (before st) (name ++ gap ++ value)) s (Some value).
Proof.
  unfold _SCORE_RE. fold number. rewrite sem_field by done. cbn [sem]. unfold no_digit_ahead.
  assert (forall prev s g, (forall z, ~ exists c s', ahead (mkM prev s g) = c :: s' /\ digit_cp c = true /\ z = step c s' (mkM prev s g)) <->
    forall c, head s = Some c -> digit_cp c = false) as Hd.
  { intros prev s g. cbn [ahead]. split.
    - intros H c Hc. destruct (digit_cp c) eqn:E; [|done]. exfalso. destruct s as [|d s]; [done|]. injection Hc as ->.
      eapply H. by exists c, s.
    - intros H z (c&s'&->&Hc&_). rewrite (H c eq_refl) in Hc. done. }
  split.
  - intros (name&gap&value&s&?&?&?&?&->&Hno). exists name, gap, value, s. split_and!; try done. exact (proj1 (Hd _ _ _) Hno).
  - intros (name&gap&value&s&?&?&?&?&Hno&->). exists name, gap, value, s. split_and!; try done. exact (proj2 (Hd _ _ _) Hno).
Qed.

Lemma clamped q : (0 <= fmax 0 (fmin 1 q) <= 1)%Q.
Proof. apply clamp_unit. Qed.

(** The score that is read is one the answer states, after the label and not cut
    out of a longer number, clamped to the unit interval; an answer that states
    none has no score. *)
Theorem score_reads s :
  match _parse_score (Some s) with
  | Some q => exists value, scores s value /\ q = fmax 0 (fmin 1 (decimal value)) /\ (0 <= q <= 1)%Q
  | None => forall value, ~ scores s value
  end.
Proof.
  unfold _parse_score. destruct s as [|c0 s0].
  - intros value (pre&post&(name&gap&E&Hn&_)&_). symmetry in E. apply app_nil in E as [_ E]. apply app_nil in E as [-> _]. done.
  - set (s := c0 :: s0). destruct (captured _SCORE_RE s) as [v|] eqn:E; cbn [option_map].
    + apply captured_Some in E as (pre&post&st'&Es&Hs&Hg). apply score_sem in Hs as (name&gap&value&s'&Ep&Hn&Hgap&Hv&Hd&->).
      cbn in Ep, Hg. injection Hg as ->. exists v. split_and!; [|done|apply clamped..].
      exists pre, s'. split_and!; [|done|done]. exists name, gap. split_and!; [by rewrite Es, Ep|done|done].
    + apply captured_None in E. 2: { intros st st' (?&?&?&?&_&_&_&_&_&->)%score_sem. by eexists. }
      rewrite search_None in E. intros value (pre&post&(name&gap&Es&Hn&Hgap)&Hv&Hd). eapply (E pre); [done|]. apply score_sem.
      by exists name, gap, value, post.
Qed.

(** ** The bar *)

Lemma round_bar_eq x : (round_bar x == py_round (x * 1000000) # 1000000)%Q.
Proof. unfold round_bar. change (inject_Z (10 ^ _BAR_PRECISION)) with 1000000%Q. symmetry. apply Qmake_Qdiv. Qed.

Lemma millionths x n : (n # 1000000 == x)%Q <-> (inject_Z n == x * 1000000)%Q.
Proof. rewrite Qmake_Qdiv. change (inject_Z (Z.pos 1000000)) with 1000000%Q. split; intros H; [rewrite <- H; field|rewrite H; field]. Qed.

Lemma round_bar_le x n : (x <= n # 1000000)%Q -> (round_bar x <= n # 1000000)%Q.
Proof.
  intros H. rewrite round_bar_eq. assert (py_round (x * 1000000) <= n)%Z as Hr; [|unfold Qle; cbn; lia].
  apply py_round_le. pose proof (proj1 (millionths (n # 1000000) n) ltac:(reflexivity)). lra.
Qed.

Lemma round_bar_ge x n : (n # 1000000 <= x)%Q -> (n # 1000000 <= round_bar x)%Q.
Proof.
  intros H. rewrite round_bar_eq. assert (n <= py_round (x * 1000000))%Z as Hr; [|unfold Qle; cbn; lia].
  apply py_round_ge. pose proof (proj1 (millionths (n # 1000000) n) ltac:(reflexivity)). lra.
Qed.

Lemma round_bar_near x : (x - (1 # 2000000) <= round_bar x <= x + (1 # 2000000))%Q.
Proof.
  unfold round_bar. change (inject_Z (10 ^ _BAR_PRECISION)) with 1000000%Q.
  pose proof (py_round_near (x * 1000000)) as [H1 H2]. unfold Qdiv. change (/ 1000000)%Q with (1 # 1000000)%Q. split; lra.
Qed.

(** The bar is a bias, never a verdict. It stays in the unit interval; being
    invited lowers it by the bonus and somebody else's invitation raises it by
    the penalty, up to the rounding, but never out of reach: unless the operator
    put the threshold above the ceiling, a score of the ceiling clears whoever
    was invited, and an unset threshold asks for the decisive score. *)
Theorem bar_is_a_bias threshold a :
  (0 <= default _DECISIVE_SCORE threshold <= 1)%Q ->
  let base := default _DECISIVE_SCORE threshold in
  let bar := _bar_for threshold a in
  (0 <= bar <= 1)%Q /\
  ((base <= _ADDRESSED_OTHER_CEILING)%Q -> (bar <= _ADDRESSED_OTHER_CEILING)%Q) /\
  (self_named a = false -> other_named a = false -> base - (1 # 2000000) <= bar <= base + (1 # 2000000))%Q /\
  (self_named a = true -> base - _ADDRESSED_SELF_BONUS - (1 # 2000000) <= bar <= base + (1 # 2000000))%Q /\
  (self_named a = false -> other_named a = true ->
     base - (1 # 2000000) <= bar <= base + _ADDRESSED_OTHER_PENALTY + (1 # 2000000))%Q.
Proof.
  intros Hb. cbv zeta. unfold _bar_for. set (base := default _DECISIVE_SCORE threshold) in *.
  unfold _ADDRESSED_SELF_BONUS, _ADDRESSED_OTHER_PENALTY, _ADDRESSED_OTHER_CEILING.
  set (x := fmax 0 (fmin 1 _)).
  assert (0 <= x <= 1)%Q as Hx by apply clamped.
  assert (forall q, (0 <= q <= 1)%Q -> (fmax 0 (fmin 1 q) == q)%Q) as Hid.
  { intros q Hq. unfold fmax, fmin. destruct (Qltb q 1) eqn:E1, (Qltb 0 _) eqn:E2; q_props; lra. }
  pose proof (round_bar_near x) as Hn.
  assert (0 <= round_bar x <= 1)%Q as Hr.
  { pose proof (round_bar_ge x 0). pose proof (round_bar_le x 1000000). split; lra. }
  split; [done|].
  assert ((base <= 9 # 10)%Q -> (x <= 9 # 10)%Q) as Hceil.
  { intros Hc. unfold x. destruct (self_named a), (other_named a).
    - destruct (fmin_spec 1 (base - (2 # 10))) as (?&?&_), (fmax_spec 0 (fmin 1 (base - (2 # 10)))) as (_&_&[E|E]); rewrite E; lra.
    - destruct (fmin_spec 1 (base - (2 # 10))) as (?&?&_), (fmax_spec 0 (fmin 1 (base - (2 # 10)))) as (_&_&[E|E]); rewrite E; lra.
    - set (y := fmin _ (fmax _ _)). assert (y <= 9 # 10)%Q.
      { unfold y. destruct (fmin_spec (base + (2 # 10)) (fmax (9 # 10) base)) as (_&?&_), (fmax_spec (9 # 10) base) as (_&_&[E|E]); rewrite E in *; lra. }
      destruct (fmin_spec 1 y) as (?&?&_), (fmax_spec 0 (fmin 1 y)) as (_&_&[E|E]); rewrite E; lra.
    - rewrite Hid; lra. }
  split; [|split_and!].
  - intros Hc. pose proof (round_bar_le x 900000). specialize (Hceil Hc). lra.
  - intros E1 E2. unfold x in Hn |- *. rewrite E1, E2 in *. pose proof (Hid base Hb). lra.
  - intros E1. unfold x in Hn |- *. rewrite E1 in *.
    destruct (fmin_spec 1 (base - (2 # 10))) as (?&?&[F|F]), (fmax_spec 0 (fmin 1 (base - (2 # 10)))) as (?&?&[E|E]); rewrite E in *; rewrite ?F in *; lra.
  - intros E1 E2. unfold x in Hn |- *. rewrite E1, E2 in *. set (y := fmin _ (fmax _ _)) in *.
    assert (base <= y <= base + (2 # 10))%Q as Hy.
    { unfold y. destruct (fmin_spec (base + (2 # 10)) (fmax (9 # 10) base)) as (?&?&[F|F]), (fmax_spec (9 # 10) base) as (?&?&_); rewrite F in *; lra. }
    destruct (fmin_spec 1 y) as (?&?&[F|F]), (fmax_spec 0 (fmin 1 y)) as (?&?&[E|E]); rewrite E in *; rewrite ?F in *; lra.
Qed.

(** ** The bid *)

Definition _REASONS : list string :=
  ["model_unresolvable"; "llm_error"; "lease_denied"; "parse_failure"; "below_threshold"; "declined"; "salient";
   REASON_ADDS_SUBSTANCE; REASON_ALREADY_ANSWERED; REASON_ONLY_AGREEING; REASON_NOTHING_TO_ADD].

Lemma verdict_code_closed t mode : v_code (parse_verdict t mode).1 ∈ _REASONS.
Proof.
  unfold parse_verdict. destruct (_parse_should_post _) as [yes|]; cbn [fst v_code].
  - unfold _resolve_reason_code. destruct (List.find _ _) as [c|] eqn:E.
    + apply find_some in E as [E%list_elem_of_In _]. unfold _SILENCE_CODES, _REASONS in *. rewrite !elem_of_cons in *. tauto.
    + unfold _REASONS. rewrite !elem_of_cons. destruct yes; tauto.
  - unfold _REASONS. rewrite !elem_of_cons. tauto.
Qed.

(** What an answer must say for the agent to speak. *)
Definition clears (i : BidInput) (t : option text) : Prop :=
  if is_structured (i_mode i) then v_speak (parse_verdict t (i_mode i)).1 = true
  else exists q, _parse_score t = Some q /\ (_bar_for (i_threshold i) (detect_nl_addressing (i_content i) (i_name i)) <= q)%Q /\
         _parse_speak t <> Some false.

Lemma decide_answer_speaks i t : speak (bid_decision (decide_answer i t)) = true <-> clears i t.
Proof.
  unfold decide_answer, clears. destruct (is_structured (i_mode i)).
  - destruct (parse_verdict t (i_mode i)) as [v labels]. done.
  - destruct (_parse_score t) as [q|]; [|split; [done|by intros (?&?&_)]].
    destruct (Qltb q _) eqn:E; q_props.
    + split; [done|]. intros (q'&[= <-]&?&_). lra.
    + destruct (_parse_speak t) as [[|]|]; cbn; (split; [intros H; exists q; split_and!; done|]); [done| |done].
      by intros (?&_&_&?).
Qed.

Lemma scalar_reason x : x ∈ ["model_unresolvable"; "llm_error"; "lease_denied"; "parse_failure"; "below_threshold"; "declined"; "salient"] -> x ∈ _REASONS.
Proof. unfold _REASONS. rewrite !elem_of_cons. tauto. Qed.

Lemma decide_answer_reason i t :
  reason (bid_decision (decide_answer i t)) ∈ _REASONS /\ reason (bid_decision (decide_answer i t)) <> "lease_denied".
Proof.
  unfold decide_answer. destruct (is_structured (i_mode i)).
  - pose proof (verdict_code_closed t (i_mode i)) as Hc. unfold parse_verdict in *.
    destruct (_parse_should_post _) as [yes|]; cbn [fst v_code] in *; (split; [done|]); [|done]. cbn. unfold _resolve_reason_code.
    destruct (List.find _ _) as [c|] eqn:E; [|by destruct yes]. apply find_some in E as [E%list_elem_of_In _].
    unfold _SILENCE_CODES in E. rewrite !elem_of_cons, elem_of_nil in E. by destruct E as [->|[->|[->|[]]]].
  - destruct (_parse_score t); [destruct (Qltb _ _); [|destruct (_parse_speak t) as [[|]|]]|]; (split; [|done]);
      apply scalar_reason; cbn [silent bid_decision reason]; rewrite !elem_of_cons; tauto.
Qed.

Lemma decide_answer_score i t q :
  score (bid_decision (decide_answer i t)) = Some q -> is_structured (i_mode i) = false /\ (0 <= q <= 1)%Q.
Proof.
  unfold decide_answer. destruct (is_structured _); [by destruct (parse_verdict t (i_mode i))|].
  assert (forall x, _parse_score t = Some x -> (0 <= x <= 1)%Q) as Hu.
  { intros x. unfold _parse_score. destruct t as [[|? ?]|]; [done| |done]. destruct (captured _ _); [|done]. cbn. intros [= <-]. apply clamped. }
  destruct (_parse_score t) as [x|]; [|done].
  destruct (Qltb _ _); [|destruct (_parse_speak t) as [[|]|]]; intros [= <-]; (split; [done|by apply Hu]).
Qed.

Lemma on_outcome_spec i o :
  let d := bid_decision (on_outcome i o) in
  (speak d = true <-> exists t, o = Answer t /\ clears i t) /\
  reason d ∈ _REASONS /\
  (reason d = "lease_denied" <-> o = BudgetExceeded \/ o = RpcError true) /\
  (forall q, score d = Some q -> is_structured (i_mode i) = false /\ (0 <= q <= 1)%Q).
Proof.
  cbv zeta. destruct o as [t| |b|]; cbn [on_outcome].
  - destruct (decide_answer_reason i t) as [H1 H2]. split_and!; [|done| |by apply decide_answer_score].
    + rewrite decide_answer_speaks. split; [by exists t|]. by intros (?&[= <-]&?).
    + split; [done|by intros [?|?]].
  - split_and!; [split; [done|by intros (?&?&_)]|by apply scalar_reason; right; right; left|split; [by left|done]|done].
  - destruct b; (split_and!; [split; [done|by intros (?&?&_)]|apply scalar_reason; cbn; rewrite !elem_of_cons; tauto| |done]).
    + split; [by right|done].
    + split; [done|by intros [?|?]].
  - split_and!; [split; [done|by intros (?&?&_)]|by apply scalar_reason; right; left|split; [done|by intros [?|?]]|done].
Qed.

Section bid_props.
Context (load_snippet : string -> result string text).
Context {W : Type} (resolved : option (string * string)) (create_message : BidRequest -> W -> llm_outcome * W).

(** The call is made, and ends in [o]. *)
Definition called (i : BidInput) (w : W) (o : llm_outcome) : Prop :=
  exists model request, resolved = Some model /\ bid_request load_snippet model i = Ok request /\ (create_message request w).1 = o.

(** The bid is biased to silence. The agent speaks only when its model was
    found, its request could be made, the leased call answered, and the answer
    clears: a stated verdict on the reasoning rungs, a stated score at or above
    the bar and no stated refusal otherwise. Everything else is silence, under a
    reason of a closed list; a refused lease is told from a failing provider.
    The model is asked at most once, and a score is reported only by the scalar
    bid. *)
Theorem bid_biased_to_silence i w :
  let '(r, w') := evaluate_salience load_snippet resolved create_message i w in
  let d := bid_decision r in
  (speak d = true <-> exists t, called i w (Answer t) /\ clears i t) /\
  (speak d = true -> is_structured (i_mode i) = true -> exists t, states t true) /\
  reason d ∈ _REASONS /\
  (reason d = "lease_denied" <-> called i w BudgetExceeded \/ called i w (RpcError true)) /\
  w' = match resolved with
       | Some model => match bid_request load_snippet model i with Ok request => (create_message request w).2 | Raise _ => w end
       | None => w
       end /\
  (forall q, score d = Some q -> is_structured (i_mode i) = false /\ (0 <= q <= 1)%Q).
Proof.
  unfold evaluate_salience, called. destruct resolved as [model|].
  2: { cbv zeta. split_and!; [split; [done|by intros (?&(?&?&?&_)&_)]|done|by apply scalar_reason; left|split; [done|by intros [(?&?&?&_)|(?&?&?&_)]]|done|done]. }
  destruct (bid_request load_snippet model i) as [request|e] eqn:Er.
  2: { cbv zeta. split_and!; [split; [done|]|done|by apply scalar_reason; right; left|split; [done|]|done|done].
       - intros (t&(m&q&[= <-]&Hq&_)&_). congruence.
       - intros [(m&q&[= <-]&Hq&_)|(m&q&[= <-]&Hq&_)]; congruence. }
  assert (forall o, (exists model' request', Some model = Some model' /\ bid_request load_snippet model' i = Ok request' /\
     (create_message request' w).1 = o) <-> (create_message request w).1 = o) as Hone.
  { intros o. split; [intros (m&q&[= <-]&Hq&<-); by assert (q = request) as -> by congruence|]. intros <-. by exists model, request. }
  destruct (create_message request w) as [o w'] eqn:Ec. cbn [fst snd] in *. cbv zeta. setoid_rewrite Hone.
  destruct (on_outcome_spec i o) as (H1&H2&H3&H4). split_and!; try done.
  rewrite H1. intros (t&_&Hc) Hs. unfold clears in Hc. rewrite Hs in Hc. exists (default [] t). by eapply verdict_speaks.
Qed.
End bid_props.

(** ** Witnesses and departures *)

(** A score out of ten is read as its first digit: one out of ten is certain,
    and speaks at every bar. *)
Lemma out_of_ten_reads_as_certain i :
  is_structured (i_mode i) = false -> (0 <= default _DECISIVE_SCORE (i_threshold i) <= 1)%Q ->
  speak (bid_decision (decide_answer i (Some (codes "score: 1/10")))) = true.
Proof.
  intros Hm Ht. apply decide_answer_speaks. unfold clears. rewrite Hm.
  exists (fmax 0 (fmin 1 (decimal (codes "1")))). split; [by vm_compute|]. split; [|by vm_compute].
  assert (fmax 0 (fmin 1 (decimal (codes "1"))) == 1)%Q as -> by by vm_compute.
  unfold _bar_for. match goal with |- (round_bar ?x <= 1)%Q => assert (x <= 1)%Q by (apply clamped); pose proof (round_bar_le x 1000000) end. lra.
Qed.

Lemma bar_is_a_bias_witness : (_bar_for None (mkAddressing false true) <= _ADDRESSED_OTHER_CEILING)%Q.
Proof.
  destruct (bar_is_a_bias None (mkAddressing false true)) as (_&H&_); [cbn; unfold _DECISIVE_SCORE; split; lra|].
  apply H. cbn. unfold _DECISIVE_SCORE, _ADDRESSED_OTHER_CEILING. lra.
Defined.
