(* ===== verification/SalienceGate.v ===== *)
(** * The salience gate of a turn

    Models [agents/persona_runtime/salience_gate.py], the seam between the
    response gate and the salience bid, with [wallet_cause.py]. The agent's
    formatting, its conversation window and its memory are the record [Seam]
    over a world [W]; the metric and log records the seam emits are an output. *)

From Stdlib Require Import Ascii.
From S2P Require Import Prelude PyStr PyDict PyValue PyFloat PersonaEvents ResponseGate Cascade FactPredicates PyRegex SalienceDeliberation SalienceAddressing SalienceBid.
Local Open Scope string_scope.
Local Open Scope py_scope.

(** ** [wallet_cause.py] *)

Definition cause_for_event (e : AgentEvent) : string :=
  match event_type e with
  | CHANNEL_MESSAGE => if dmem "chat_session_id" (metadata e) then "CAUSE_CHAT" else "CAUSE_CHANNEL_MESSAGE"
  | TICK => "CAUSE_AUTONOMOUS_TICK"
  | TASK_ASSIGNED => "CAUSE_WORKFLOW_TASK"
  | _ => "CAUSE_UNSPECIFIED"
  end.

Definition lease_interaction_id_for_event (e : AgentEvent) : string := wire_interaction_id (metadata e).

(** ** The inputs on the payload *)

Definition MAX_REVISE_ROUNDS : Z := 2.

Definition _governed (e : AgentEvent) : bool :=
  match dget "salience_gated" (ev_payload e) with Some v => vtruthy v | None => false end.

(** [float(raw)] overflows on a large [int]. *)
Definition _threshold (e : AgentEvent) : result string (option Q) :=
  let unit_only v := if Qle_bool 0 v && Qle_bool v 1 then Some v else None in
  match dget "threshold" (ev_payload e) with
  | Some (VInt z) => if int_overflows z then Raise "OverflowError" else Ok (unit_only (inject_Z z))
  | Some (VFloat q) => Ok (unit_only q)
  | _ => Ok None
  end.

Definition _channel_size (e : AgentEvent) : option Z :=
  match dget "channel_size" (ev_payload e) with Some (VInt z) => Some z | _ => None end.

Definition _max_members (e : AgentEvent) : Z :=
  match dget "salience_max_channel_members" (ev_payload e) with
  | Some (VInt z) => z
  | _ => DEFAULT_SALIENCE_MAX_CHANNEL_MEMBERS
  end.

Definition _reasoning_mode (e : AgentEvent) : string :=
  match dget "reasoning_mode" (ev_payload e) with
  | Some (VStr raw) => if negb (truthy raw) then MODE_OFF else if is_known_mode raw then raw else MODE_OFF
  | _ => MODE_OFF
  end.

(** The modes warned about, with the one this event adds. *)
Definition warned_by (e : AgentEvent) (warned : list string) : list string :=
  match dget "reasoning_mode" (ev_payload e) with
  | Some (VStr raw) => if negb (truthy raw) then warned else warn_if_unknown_mode raw warned
  | _ => warned
  end.

Definition _reasoning_revise (e : AgentEvent) : Z :=
  match dget "reasoning_revise" (ev_payload e) with
  | Some (VInt z) => if (z <=? 0)%Z then 0%Z else Z.min z MAX_REVISE_ROUNDS
  | _ => 0%Z
  end.

(** [payload.get("content", "")]: only a [str] has the methods of one; what is
    falsy is not looked into, and rendered. *)
Definition content_of (e : AgentEvent) : result string text :=
  match dget_or "content" (VStr "") (ev_payload e) with
  | VStr s => Ok (codes s)
  | VNone => Ok (codes "None")
  | VBool false => Ok (codes "False")
  | VInt 0 => Ok (codes "0")
  | VList [] => Ok (codes "[]")
  | VDict [] => Ok (codes "{}")
  | v => if vtruthy v then Raise "AttributeError" else Ok (codes "0.0")
  end.

(** ** The seam *)

Inductive emission :=
| SkippedTooLarge
| Deliberated (should_post : bool) (reason_code : string) (transcript_turns : Z)
| Gated (reason : string)
| NoteDebug (reason_code : string) (note : text).

Record SalienceOutcome := mkOutcome {
  o_silence : bool;
  o_user_message : option text;
  o_seed : option (list (string * text));
  o_plan : option CompositionPlan;
  o_revise : Z;
}.

Record Seam (W : Type) := mkSeam {
  agent_id : string;
  name : text;
  role : text;
  format_event : AgentEvent -> text;
  build_seed_messages : AgentEvent -> text -> W -> result string (list (string * text)) * W;
  store_event_episode : AgentEvent -> W -> result string unit * W;
  load_snippet : string -> result string text;
  resolved_model : option (string * string);
  create_message : BidRequest -> W -> llm_outcome * W;
}.
Arguments agent_id {W}. Arguments name {W}. Arguments role {W}. Arguments format_event {W}.
Arguments build_seed_messages {W}. Arguments store_event_episode {W}. Arguments load_snippet {W}.
Arguments resolved_model {W}. Arguments create_message {W}.

Section gate.
Context {W : Type} (seam : Seam W).

Definition silence : SalienceOutcome := mkOutcome true None None None 0.

(** The end of a silent turn: the message is still remembered. *)
Definition stay_silent (e : AgentEvent) (emitted : list emission) (w : W) :
    result string (option SalienceOutcome) * list emission * W :=
  let '(r, w) := store_event_episode seam e w in
  (let! _ := r in Ok (Some silence), emitted, w).

Definition bid_input (e : AgentEvent) (content : text) (threshold : option Q) (seed : list (string * text)) (mode : string) : BidInput :=
  mkBidInput content (removelast seed) (agent_id seam) (name seam) (role seam) threshold (cause_for_event e)
    (lease_interaction_id_for_event e) mode.

(** After the verdict. *)
Definition conclude (e : AgentEvent) (mode : string) (user_message : text) (seed : list (string * text)) (b : BidResult) (w : W) :
    result string (option SalienceOutcome) * list emission * W :=
  let d := bid_decision b in
  let audit := if is_structured mode then [Deliberated (speak d) (reason d) (Z.max 0 (Z.of_nat (length seed) - 1))] else [] in
  if negb (speak d) then
    let note := if is_structured mode then match reason_note d with Some n => [NoteDebug (reason d) n] | None => [] end else [] in
    stay_silent e (audit ++ [Gated (reason d)] ++ note)%list w
  else
    let plan := if bool_decide (mode = MODE_PLAN) then match surfaced b with t :: _ => parse_plan (Some t) | [] => None end else None in
    let revise := match plan with Some _ => _reasoning_revise e | None => 0%Z end in
    (Ok (Some (mkOutcome false (Some user_message) (Some seed) plan revise)), audit, w).

Definition run_salience_gate (e : AgentEvent) (d : GateDecision) (mode : option string) (w : W) :
    result string (option SalienceOutcome) * list emission * W :=
  if negb (is_open_floor_admit d && _governed e) then (Ok None, [], w)
  else
    let mode := default (_reasoning_mode e) mode in
    if skip_bid_for_channel_size (_channel_size e) (_max_members e) then stay_silent e [SkippedTooLarge] w
    else
      let user_message := format_event seam e in
      match build_seed_messages seam e user_message w with
      | (Raise x, w) => (Raise x, [], w)
      | (Ok seed, w) =>
          match (let! content := content_of e in let! threshold := _threshold e in Ok (content, threshold)) with
          | Raise x => (Raise x, [], w)
          | Ok (content, threshold) =>
              let '(b, w) := evaluate_salience (load_snippet seam) (resolved_model seam) (create_message seam)
                               (bid_input e content threshold seed mode) w in
              conclude e mode user_message seed b w
          end
      end.
End gate.

(** ** Properties *)

Section gate_props.
Context {W : Type} (seam : Seam W).

(** The rung the bid runs on. *)
Definition rung (e : AgentEvent) (mode : option string) : string := default (_reasoning_mode e) mode.

(** The verdict reached on [e]: the seed was built, the inputs read, and the bid
    run over them. *)
Definition verdict (e : AgentEvent) (mode : option string) (w : W) (seed : list (string * text)) (b : BidResult) (w' : W) : Prop :=
  exists content threshold w1,
    skip_bid_for_channel_size (_channel_size e) (_max_members e) = false /\
    build_seed_messages seam e (format_event seam e) w = (Ok seed, w1) /\
    content_of e = Ok content /\ _threshold e = Ok threshold /\
    evaluate_salience (load_snippet seam) (resolved_model seam) (create_message seam)
      (bid_input seam e content threshold seed (rung e mode)) w1 = (b, w').

Lemma reasoning_revise_bounds e : (0 <= _reasoning_revise e <= MAX_REVISE_ROUNDS)%Z.
Proof. unfold _reasoning_revise, MAX_REVISE_ROUNDS. repeat case_match; lia. Qed.

Lemma plan_revise e mode (texts : list text) :
  let plan := if bool_decide (mode = MODE_PLAN) then match texts with t :: _ => parse_plan (Some t) | [] => None end else None in
  let revise := match plan with Some _ => _reasoning_revise e | None => 0%Z end in
  (plan <> None -> mode = MODE_PLAN) /\ (0 <= revise <= MAX_REVISE_ROUNDS)%Z /\ ((0 < revise)%Z -> plan <> None).
Proof.
  intros plan. subst plan. case_bool_decide; [|cbn; unfold MAX_REVISE_ROUNDS; split_and!; intros; done || lia].
  destruct (match texts with t :: _ => parse_plan (Some t) | [] => None end); cbv zeta.
  - pose proof (reasoning_revise_bounds e). split_and!; done || lia.
  - unfold MAX_REVISE_ROUNDS. split_and!; intros; done || lia.
Qed.

(** The four ways a turn passes through the seam. *)
Lemma gate_cases e d mode w :
  let '(r, em, w') := run_salience_gate seam e d mode w in
  (is_open_floor_admit d && _governed e = false /\ r = Ok None /\ em = [] /\ w' = w) \/
  (is_open_floor_admit d && _governed e = true /\
    ((skip_bid_for_channel_size (_channel_size e) (_max_members e) = true /\ (r, em, w') = stay_silent seam e [SkippedTooLarge] w) \/
     (exists seed b w1, verdict e mode w seed b w1 /\ (r, em, w') = conclude seam e (rung e mode) (format_event seam e) seed b w1) \/
     (exists x, r = Raise x /\ em = []))).
Proof.
  unfold run_salience_gate. destruct (is_open_floor_admit d && _governed e); cbn [negb]; [|by left].
  destruct (skip_bid_for_channel_size _ _) eqn:Es.
  { destruct (stay_silent _ _ _ _) as [[r em] w'] eqn:E. right. split; [done|]. left. done. }
  destruct (build_seed_messages seam e _ w) as [[seed|x] w1] eqn:Eb; [|right; split; [done|]; right; right; by exists x].
  destruct (content_of e) as [content|x] eqn:Ec; cbn [rbind]; [|right; split; [done|]; right; right; by exists x].
  destruct (_threshold e) as [th|x] eqn:Et; cbn [rbind]; [|right; split; [done|]; right; right; by exists x].
  destruct (evaluate_salience _ _ _ _ w1) as [b w2] eqn:Ev.
  destruct (conclude _ _ _ _ _ _ _) as [[r em] w'] eqn:E. right. split; [done|]. right. left.
  exists seed, b, w2. split; [|done]. exists content, th, w1. done.
Qed.

Lemma stay_silent_spec e em w :
  let '(r, em', w') := stay_silent seam e em w in
  em' = em /\ store_event_episode seam e w = ((let! _ := r in Ok tt), w') /\ (forall o, r = Ok o -> o = Some silence).
Proof.
  unfold stay_silent. destruct (store_event_episode seam e w) as [[[]|x] w']; cbn [rbind]; split_and!; try done. by intros o [= <-].
Qed.

(** Is this turn one the bid may silence? *)
Definition applies (e : AgentEvent) : Prop :=
  is_open_floor_admit (evaluate_response_gate e (agent_id seam)) = true /\ _governed e = true.

(** The seam is transparent off the open floor: a turn the gate admitted for any
    other reason, or on an ungoverned channel, is neither looked at nor touched,
    so a directly addressed agent is never silenced by the bid. A turn that is
    silenced is an ordinary group message naming nobody who could take the
    floor, and it is remembered first; it is silenced because the channel is too
    large or because a verdict said so. A turn that is let through was spoken
    for by a verdict, and carries back the very seed and message the bid saw; a
    plan only on the plan rung, and rounds of revision only with a plan and never
    more than the bound. *)
Theorem salience_gate_exact e mode w :
  let '(r, _, w') := run_salience_gate seam e (evaluate_response_gate e (agent_id seam)) mode w in
  (r = Ok None -> ~ applies e /\ w' = w) /\
  (~ applies e -> r = Ok None) /\
  (forall o, r = Ok (Some o) -> o_silence o = true ->
     event_type e = CHANNEL_MESSAGE /\ stimulus e (agent_id seam) /\ ~ forced_turn (ev_payload e) /\
     (mentions_list (ev_payload e) = [] \/ (VStr (agent_id seam) ∉ mentions_list (ev_payload e))) /\
     o = silence /\
     exists w1, store_event_episode seam e w1 = (Ok tt, w') /\
       (skip_bid_for_channel_size (_channel_size e) (_max_members e) = true /\ w1 = w \/
        exists seed b, verdict e mode w seed b w1 /\ speak (bid_decision b) = false)) /\
  (forall o, r = Ok (Some o) -> o_silence o = false ->
     exists seed b, verdict e mode w seed b w' /\ speak (bid_decision b) = true /\
       o_user_message o = Some (format_event seam e) /\ o_seed o = Some seed /\
       (o_plan o <> None -> rung e mode = MODE_PLAN) /\
       (0 <= o_revise o <= MAX_REVISE_ROUNDS)%Z /\ ((0 < o_revise o)%Z -> o_plan o <> None)).
Proof.
  pose proof (gate_cases e (evaluate_response_gate e (agent_id seam)) mode w) as H.
  destruct (run_salience_gate _ _ _ _ _) as [[r em] w'].
  assert (applies e <-> is_open_floor_admit (evaluate_response_gate e (agent_id seam)) && _governed e = true) as Ha
    by (unfold applies; by rewrite andb_true_iff).
  destruct H as [(E&->&_&->)|(E&H)].
  { split_and!; [intros _; rewrite Ha, E; done|done|done|done]. }
  apply Ha in E as Happ. destruct Happ as [Hfloor _]. rewrite open_floor_exact in Hfloor.
  destruct Hfloor as (Hev&_&_&Hst&_&Hft&Hm).
  assert (~ ~ applies e) as Hn by (rewrite Ha, E; naive_solver).
  assert (mentions_list (ev_payload e) = [] \/ (VStr (agent_id seam) ∉ mentions_list (ev_payload e))) as Hm' by tauto.
  destruct H as [(Hskip&H)|[(seed&b&w1&Hv&H)|(x&->&_)]].
  - pose proof (stay_silent_spec e [SkippedTooLarge] w) as Hs. rewrite <- H in Hs. destruct Hs as (_&Hs&Ho).
    split_and!; [intros Hr; by apply Ho in Hr|done| |intros o Hr; apply Ho in Hr; by injection Hr as ->].
    intros o Hr _. split_and!; try done; [apply Ho in Hr; by injection Hr as ->|]. exists w. split; [by rewrite Hs, Hr|by left].
  - unfold conclude in H. destruct (speak (bid_decision b)) eqn:Esp; cbn [negb] in H.
    + injection H as -> _ ->.
      split_and!; [done|done|intros o [= <-] Ho; done|]. intros o [= <-] _. exists seed, b.
      pose proof (plan_revise e (rung e mode) (surfaced b)) as (?&?&?). done.
    + match type of H with _ = stay_silent _ _ ?em _ => pose proof (stay_silent_spec e em w1) as Hs end.
      rewrite <- H in Hs. destruct Hs as (_&Hs&Ho).
      split_and!; [intros Hr; by apply Ho in Hr|done| |intros o Hr; apply Ho in Hr; by injection Hr as ->].
      intros o Hr _. split_and!; try done; [apply Ho in Hr; by injection Hr as ->|]. exists w1. split; [by rewrite Hs, Hr|]. right. by exists seed, b.
  - split_and!; try done.
Qed.

(** The privacy wall around a deliberation. The audit record, which carries no
    text, is written exactly when a structured verdict was reached, whatever
    fails after it; the verbatim note leaves only on a structured silence, on
    the operator's debug record, which is never written when the agent speaks or
    the scalar bid ran. *)
Theorem deliberation_privacy_wall e d mode w :
  let '(r, em, _) := run_salience_gate seam e d mode w in
  (forall should_post reason_code turns, Deliberated should_post reason_code turns ∈ em <->
     is_open_floor_admit d && _governed e = true /\ is_structured (rung e mode) = true /\
     exists seed b w1, verdict e mode w seed b w1 /\ should_post = speak (bid_decision b) /\ reason_code = reason (bid_decision b) /\
       turns = Z.max 0 (Z.of_nat (length seed) - 1)) /\
  (forall reason_code note, NoteDebug reason_code note ∈ em ->
     is_structured (rung e mode) = true /\ (forall o, r = Ok (Some o) -> o_silence o = true) /\
     exists seed b w1, verdict e mode w seed b w1 /\ speak (bid_decision b) = false /\ reason_note (bid_decision b) = Some note).
Proof.
  pose proof (gate_cases e d mode w) as H. destruct (run_salience_gate _ _ _ _ _) as [[r em] w'] eqn:Erun.
  assert (forall seed b w1 seed' b' w1', verdict e mode w seed b w1 -> verdict e mode w seed' b' w1' -> seed = seed' /\ b = b') as Hdet.
  { intros s b v s' b' v' (c&t&u&_&E1&E2&E3&E4) (c'&t'&u'&_&E1'&E2'&E3'&E4'). rewrite E1 in E1'. injection E1' as <- <-.
    rewrite E2 in E2'. injection E2' as <-. rewrite E3 in E3'. injection E3' as <-. rewrite E4 in E4'. by injection E4' as <- _. }
  destruct H as [(E&->&->&->)|(E&H)].
  { split; [intros ? ? ?; split; [intros Hx; by apply elem_of_nil in Hx|intros (?&_); congruence]|intros ? ? Hx; by apply elem_of_nil in Hx]. }
  destruct H as [(Hskip&H)|[(seed&b&w1&Hv&H)|(x&->&->)]].
  - pose proof (stay_silent_spec e [SkippedTooLarge] w) as Hs. rewrite <- H in Hs. destruct Hs as (->&_&_).
    split; [intros ? ? ?; split; [intros Hx; by apply list_elem_of_singleton in Hx|]|intros ? ? Hx; by apply list_elem_of_singleton in Hx].
    intros (_&_&s&b&w1&(?&?&?&Hno&_)&_). congruence.
  - assert (exists tail, em = ((if is_structured (rung e mode) then [Deliberated (speak (bid_decision b)) (reason (bid_decision b)) (Z.max 0 (Z.of_nat (length seed) - 1))] else []) ++ tail)%list /\
       (forall x y z, Deliberated x y z ∉ tail) /\
       (forall c n, NoteDebug c n ∈ tail -> is_structured (rung e mode) = true /\ speak (bid_decision b) = false /\ SalienceBid.reason_note (bid_decision b) = Some n)
       /\ (speak (bid_decision b) = false -> forall o, r = Ok (Some o) -> o_silence o = true)) as (tail&->&Ht1&Ht2&Ho).
    { unfold conclude in H. destruct (speak (bid_decision b)) eqn:Esp; cbn [negb] in H.
      - injection H as _ -> _. exists []. rewrite app_nil_r. split_and!; [done|intros; apply not_elem_of_nil|intros ? ? Hx; by apply elem_of_nil in Hx|done].
      - match type of H with _ = stay_silent _ _ ?em _ => pose proof (stay_silent_spec e em w1) as Hs end.
        rewrite <- H in Hs. destruct Hs as (->&_&Ho). eexists. split; [reflexivity|].
        split_and!; [|intros c n Hx|intros _ o Hr; apply Ho in Hr; by injection Hr as ->].
        + intros x y z Hx. rewrite elem_of_app, list_elem_of_singleton in Hx. destruct Hx as [Hx|Hx]; [done|]. destruct (is_structured _), (SalienceBid.reason_note (bid_decision b)); set_solver.
        + rewrite elem_of_app, list_elem_of_singleton in Hx. destruct Hx as [Hx|Hx]; [done|]. destruct (is_structured _), (SalienceBid.reason_note (bid_decision b)); set_solver. }
    split.
    + intros x y z. rewrite elem_of_app. split.
      * intros [Hx|Hx]; [|by apply Ht1 in Hx]. destruct (is_structured _); [|by apply elem_of_nil in Hx].
        apply list_elem_of_singleton in Hx. injection Hx as -> -> ->. split_and!; try done. by exists seed, b, w1.
      * intros (_&Hs&s'&b'&w1'&Hv'&->&->&->). destruct (Hdet _ _ _ _ _ _ Hv Hv') as [<- <-]. left. rewrite Hs. by apply list_elem_of_singleton.
    + intros c n [Hx|Hx]%elem_of_app; [destruct (is_structured _); set_solver|]. apply Ht2 in Hx as (?&Hsp&?).
      split_and!; [done|by apply Ho|]. by exists seed, b, w1.
  - split; [intros x0 ? ?; split; [intros Hx; by apply elem_of_nil in Hx|]|intros ? ? Hx; by apply elem_of_nil in Hx].
    intros (_&_&seed&b&w1&(c&t&u&Hno&E1&E2&E3&E4)&_). exfalso. revert Erun. unfold run_salience_gate. rewrite E. cbn [negb].
    rewrite Hno, E1, E2, E3. cbn [rbind]. unfold rung in E4. rewrite E4. unfold conclude. destruct (speak _); cbn [negb]; [done|].
    unfold stay_silent. destruct (store_event_episode _ _ _) as [? ?]. intros [= _ Hx _]. by destruct (is_structured _).
Qed.
End gate_props.
