(* ===== verification/ConversationWindow.v ===== *)
(** * The conversation window of a turn

    Models [agents/persona_runtime/conversation_window.py], its cached fetch
    ([_conversation_window_cache.py]) and the seam that calls it
    ([conversation_seed.py]). The cache is the ordered dict it is, least recently
    used first; a fetch is two steps around its [await], between which other
    turns use the cache. The history endpoint is an input, and so is the
    tokenizer. *)

From S2P Require Import Prelude PyStr PyDict PyValue PersonaEvents WorkingMemory PromptFormat.
Local Open Scope string_scope.

(** ** The cache *)

Definition DEFAULT_WINDOW_CACHE_CAPACITY : Z := 256.

Abbreviation WindowKey := (string * Z * string)%type.
Abbreviation rows := (list pyval).

Record WindowCache := mkWindowCache { capacity : Z; data : list (WindowKey * (string * rows)) }.

Definition new_window_cache (capacity : Z) : result string WindowCache :=
  if (capacity <? 1)%Z then Raise "ValueError" else Ok (mkWindowCache capacity []).

(** [OrderedDict.move_to_end] of a key that is there. *)
Definition move_to_end {K V} `{EqDecision K} (k : K) (d : list (K * V)) : list (K * V) :=
  match dget k d with Some v => (ddel k d ++ [(k, v)])%list | None => d end.

Definition window_get (k : WindowKey) (c : WindowCache) : option (string * rows) * WindowCache :=
  match dget k (data c) with
  | None => (None, c)
  | Some v => (Some v, mkWindowCache (capacity c) (move_to_end k (data c)))
  end.

(** The number of entries evicted comes back. *)
Definition window_put (k : WindowKey) (v : string * rows) (c : WindowCache) : Z * WindowCache :=
  let d := move_to_end k (dset k v (data c)) in
  if (capacity c <? Z.of_nat (length d))%Z then (1%Z, mkWindowCache (capacity c) (tail d)) else (0%Z, mkWindowCache (capacity c) d).

Definition window_clear (c : WindowCache) : WindowCache := mkWindowCache (capacity c) [].

(** ** [_fetch_window] *)

(** Before the [await]: the rows of a hit, or a fetch to make. *)
Definition fetch_begin (k : WindowKey) (message_id : option string) (c : WindowCache) : option rows * WindowCache :=
  match message_id with
  | None => (None, c)
  | Some m =>
      match window_get k c with
      | (Some (m', raw), c') => if bool_decide (m' = m) then (Some raw, c') else (None, c')
      | (None, c') => (None, c')
      end
  end.

(** After it: what the endpoint gave. *)
Definition fetch_end (k : WindowKey) (message_id : option string) (o : result string (option rows)) (c : WindowCache) :
    option rows * WindowCache :=
  match o with
  | Raise _ | Ok None => (None, c)
  | Ok (Some raw) => (Some raw, match message_id with Some m => snd (window_put k (m, raw) c) | None => c end)
  end.

Section fetch.
Context {W : Type} (fetch : string -> Z -> string -> WindowCache * W -> result string (option rows) * (WindowCache * W)).

(** [fetch] also does what other turns do to the cache while it is awaited. *)
Definition _fetch_window (channel_id : string) (message_id : option string) (limit : Z) (agent_id : string) (s : WindowCache * W) :
    option rows * (WindowCache * W) :=
  let k := (channel_id, limit, agent_id) in
  match fetch_begin k message_id s.1 with
  | (Some raw, c) => (Some raw, (c, s.2))
  | (None, c) =>
      let '(o, (c, w)) := fetch channel_id limit agent_id (c, s.2) in
      let '(raw, c) := fetch_end k message_id o c in (raw, (c, w))
  end.
End fetch.

(** ** The configuration *)

Definition DEFAULT_MAX_TURNS : Z := 20.
Definition DEFAULT_MAX_TOKENS : Z := 2048.

Record ConversationWindowConfig := mkWindowConfig { max_turns : Z; max_tokens : Z; enabled : bool }.

Definition defaults : ConversationWindowConfig := mkWindowConfig DEFAULT_MAX_TURNS DEFAULT_MAX_TOKENS true.

Definition count_or (v : option pyval) (dft : Z) : Z :=
  match v with Some (VInt n) => if (1 <=? n)%Z then n else dft | _ => dft end.

Definition resolve_conversation_window_config (agent_config : pydict) : ConversationWindowConfig :=
  match dget "conversation_window" agent_config with
  | Some (VDict block) =>
      mkWindowConfig (count_or (dget "max_turns" block) (max_turns defaults)) (count_or (dget "max_tokens" block) (max_tokens defaults))
        (match dget "enabled" block with Some (VBool b) => b | _ => enabled defaults end)
  | _ => defaults
  end.

(** ** The transcript *)

Inductive role := User | Assistant.
#[export] Instance role_eq_dec : EqDecision role.
Proof. solve_decision. Defined.

Record turn := mkTurn { turn_role : role; turn_content : string }.

(** [isinstance(row, dict) and row.get("id") == message_id] *)
Definition row_is (message_id : string) (row : pyval) : bool :=
  match row with VDict d => match dget "id" d with Some v => v_eq_str v message_id | None => false end | _ => false end.

Fixpoint from_current (message_id : string) (raw : rows) : option rows :=
  match raw with
  | [] => None
  | row :: raw' => if row_is message_id row then Some raw else from_current message_id raw'
  end.

Definition _drop_rows_newer_than_current (raw : rows) (current : option string) : rows :=
  match current with None => raw | Some m => default raw (from_current m raw) end.

(** The label and the wrapper's name: an absent, empty or untyped sender is unknown. *)
Definition peer_name (sender : option pyval) : string :=
  match sender with Some (VStr s) => str_or s "unknown" | _ => "unknown" end.

Definition _format_peer_turn (sender : option pyval) (content : string) : string :=
  user_block (peer_name sender) ("[" +:+ drop_quotes (peer_name sender) +:+ "]: " +:+ content).

Definition is_self (agent_id : string) (sender : option pyval) : bool :=
  match sender with Some v => v_eq_str v agent_id | None => false end.

(** The turn a row replays as. *)
Definition row_turn (agent_id : string) (current : option string) (row : pyval) : option turn :=
  match row with
  | VDict d =>
      if match current with Some m => row_is m row | None => false end then None
      else match dget "content" d with
           | Some (VStr content) =>
               if negb (truthy content) then None
               else if is_self agent_id (dget "sender_id" d) then Some (mkTurn Assistant content)
               else Some (mkTurn User (_format_peer_turn (dget "sender_id" d) content))
           | _ => None
           end
  | _ => None
  end.

Section window.
Context (encode : option (string -> Z)).

Definition tokens (t : turn) : Z := estimate_tokens encode (turn_content t) true.

Fixpoint drop_over_tokens (max_tokens : Z) (turns : list turn) : list turn :=
  match turns with
  | [] => []
  | t :: rest => if (max_tokens <? zsum tokens turns)%Z then drop_over_tokens max_tokens rest else turns
  end.

Fixpoint drop_over_count (max_turns : Z) (turns : list turn) : list turn :=
  match turns with
  | [] => []
  | t :: rest => if (max_turns <? Z.of_nat (length turns))%Z then drop_over_count max_turns rest else turns
  end.

Definition _apply_admission (turns : list turn) (config : ConversationWindowConfig) : list turn :=
  drop_over_count (max_turns config) (drop_over_tokens (max_tokens config) turns).

Fixpoint _drop_leading_assistant_turns (turns : list turn) : list turn :=
  match turns with
  | [] => []
  | t :: rest => match turn_role t with User => turns | Assistant => _drop_leading_assistant_turns rest end
  end.

Definition _assemble_replayed_turns (raw : rows) (agent_id : string) (current : option string) (config : ConversationWindowConfig) :
    list turn :=
  _drop_leading_assistant_turns
    (_apply_admission (omap (row_turn agent_id current) (reverse (_drop_rows_newer_than_current raw current))) config).

Context {W : Type} (fetch : string -> Z -> string -> WindowCache * W -> result string (option rows) * (WindowCache * W)).

Definition build_conversation_messages (e : AgentEvent) (agent_id current_user_message : string) (config : ConversationWindowConfig)
    (s : WindowCache * W) : list turn * (WindowCache * W) :=
  let current_turn := mkTurn User current_user_message in
  if negb (enabled config) then ([current_turn], s)
  else if negb (truthy (opt_str (channel_id e))) then ([current_turn], s)
  else
    match _fetch_window fetch (opt_str (channel_id e)) (message_id e) (max_turns config + 1) agent_id s with
    | (None, s) => ([current_turn], s)
    | (Some raw, s) => ((_assemble_replayed_turns raw agent_id (message_id e) config ++ [current_turn])%list, s)
    end.
End window.

(** The seam: without a fetcher the current turn is alone. *)
Definition _build_seed_messages {W} (encode : option (string -> Z))
    (fetcher : option (string -> Z -> string -> WindowCache * W -> result string (option rows) * (WindowCache * W)))
    (agent_config : pydict) (agent_id : string) (e : AgentEvent) (current_user_message : string) (s : WindowCache * W) :
    list turn * (WindowCache * W) :=
  match fetcher with
  | None => ([mkTurn User current_user_message], s)
  | Some fetch => build_conversation_messages encode fetch e agent_id current_user_message (resolve_conversation_window_config agent_config) s
  end.

(** ** The cache is least-recently-used *)

Section lru.
Context {K V : Type} `{EqDecision K}.
Implicit Types (d l : list (K * V)).

Lemma ddel_dset k (v : V) d : dwf d -> ddel k (dset k v d) = ddel k d.
Proof.
  intros Hd. rewrite !ddel_filter by (done || by apply dwf_dset).
  induction d as [|[k' v'] d IH]; cbn [dset].
  - rewrite filter_cons_False by (cbn; tauto). done.
  - apply NoDup_cons in Hd as [_ Hd]. case_decide as E.
    + subst. rewrite !filter_cons_False by (cbn; tauto). done.
    + rewrite !filter_cons_True by (cbn; congruence). by rewrite IH.
Qed.

Lemma move_dset k (v : V) d : dwf d -> move_to_end k (dset k v d) = (filter (λ kv, kv.1 <> k) d ++ [(k, v)])%list.
Proof. intros Hd. unfold move_to_end. by rewrite dget_dset_eq, ddel_dset, ddel_filter. Qed.

Lemma filter_absent k d : k ∉ dkeys d -> filter (λ kv, kv.1 <> k) d = d.
Proof. intros Hk. apply filter_true_all, Forall_forall. intros x Hin <-. apply Hk. by apply (list_elem_of_fmap_2 fst). Qed.

(** Only the entries that matter are looked at. *)
Lemma take_filter_key k n l :
  dwf l -> take n (filter (λ kv, kv.1 <> k) l) = take n (filter (λ kv, kv.1 <> k) (take (S n) l)).
Proof.
  revert n. induction l as [|[k' v'] l IH]; intros n Hd; [done|]. apply NoDup_cons in Hd as [Hk Hd]. cbn [take].
  destruct (decide (k' = k)) as [->|Hne].
  - rewrite !filter_cons_False by (cbn; tauto). rewrite !filter_absent; [by rewrite take_take, Nat.min_id| |done].
    intros Hin. apply Hk. apply list_elem_of_fmap in Hin as (x&E&Hx). apply (list_elem_of_fmap_2' fst _ x); [|done]. apply elem_of_take in Hx as (i&Hi&_). by eapply list_elem_of_lookup_2.
  - rewrite !filter_cons_True by (cbn; congruence). destruct n as [|n]; [done|]. cbn [take]. f_equal. by apply IH.
Qed.

Lemma dwf_filter (P : K * V -> Prop) `{!∀ x, Decision (P x)} d : dwf d -> dwf (filter P d).
Proof.
  unfold dwf, dkeys. induction d as [|x d IH]; [done|]. intros [Hk Hd]%NoDup_cons. rewrite filter_cons. case_decide; [|by apply IH].
  apply NoDup_cons. split; [|by apply IH]. intros Hin. apply Hk. apply list_elem_of_fmap in Hin as (y&E&Hy).
  apply list_elem_of_filter in Hy as [_ Hy]. by apply (list_elem_of_fmap_2' fst _ y).
Qed.
End lru.

(** Every entry ever put, most recently used first: nothing is evicted, and a use
    counts when the entry is among the first [cap]. *)
Inductive cache_op := CGet (k : WindowKey) | CPut (k : WindowKey) (v : string * rows) | CClear.

Definition use (k : WindowKey) (v : string * rows) (l : list (WindowKey * (string * rows))) :=
  (k, v) :: filter (λ kv, kv.1 <> k) l.

Definition ideal_step (cap : nat) (l : list (WindowKey * (string * rows))) (o : cache_op) :=
  match o with
  | CGet k => match dget k (take cap l) with Some v => use k v l | None => l end
  | CPut k v => use k v l
  | CClear => []
  end.

Definition cache_step (c : WindowCache) (o : cache_op) : WindowCache :=
  match o with CGet k => snd (window_get k c) | CPut k v => snd (window_put k v c) | CClear => window_clear c end.

(** [c] holds the first [cap] entries of [l]. *)
Definition holds_recent (c : WindowCache) (l : list (WindowKey * (string * rows))) : Prop :=
  (1 <= capacity c)%Z /\ dwf l /\ data c = reverse (take (Z.to_nat (capacity c)) l).

Lemma dkeys_fmap {K V} (d : list (K * V)) : dkeys d = fst <$> d.
Proof. done. Qed.

Lemma dwf_reverse {K V} (d : list (K * V)) : dwf d -> dwf (reverse d).
Proof. unfold dwf. rewrite !dkeys_fmap, fmap_reverse. intros H. by rewrite reverse_Permutation. Qed.

Lemma dwf_take {K V} n (d : list (K * V)) : dwf d -> dwf (take n d).
Proof. unfold dwf. rewrite !dkeys_fmap. intros H. rewrite <- (take_drop n d), fmap_app in H. by apply NoDup_app in H as [H _]. Qed.

Lemma dget_reverse {K V} `{EqDecision K} (k : K) (d : list (K * V)) : dwf d -> dget k (reverse d) = dget k d.
Proof.
  intros Hd. destruct (dget k d) as [v|] eqn:E.
  - apply elem_dget; [by apply dwf_reverse|]. apply elem_of_reverse. by apply dget_Some_elem.
  - apply dget_None. apply dget_None in E. by rewrite dkeys_fmap, fmap_reverse, elem_of_reverse.
Qed.

Lemma dwf_use k v l : dwf l -> dwf (use k v l).
Proof.
  intros Hl. unfold dwf, dkeys, use. cbn. apply NoDup_cons. split; [|by apply dwf_filter].
  intros Hin. apply list_elem_of_fmap in Hin as (y&E&Hy). apply list_elem_of_filter in Hy as [Hn _]. congruence.
Qed.

Lemma reverse_filter {A} (P : A -> Prop) `{!∀ x, Decision (P x)} (l : list A) : filter P (reverse l) = reverse (filter P l).
Proof.
  induction l as [|x l IH]; [done|]. rewrite reverse_cons, filter_app, IH, !filter_cons, filter_nil.
  case_decide; [by rewrite reverse_cons|by rewrite app_nil_r].
Qed.

Lemma tail_reverse {A} (l : list A) n : length l = S n -> tail (reverse l) = reverse (take n l).
Proof.
  revert l. induction n as [|n IH]; intros [|x l] H; [done| |done|].
  - destruct l; [done|cbn in H; lia].
  - cbn [length] in H. cbn [take]. rewrite !reverse_cons, <- IH by lia.
    destruct (reverse l) as [|y r] eqn:E; [|done]. apply (f_equal length) in E. rewrite length_reverse in E. cbn in E. lia.
Qed.

(** A use of an entry among the first ones is a move. *)
Lemma take_use k v cap l : dwf l -> take (S cap) (use k v l) = (k, v) :: take cap (filter (λ kv, kv.1 <> k) (take (S cap) l)).
Proof. intros Hl. unfold use. cbn [take]. by rewrite <- take_filter_key. Qed.

Lemma move_recent k v (l : list (WindowKey * (string * rows))) cap :
  dwf l -> dget k (take cap l) = Some v -> (ddel k (reverse (take cap l)) ++ [(k, v)])%list = reverse (take cap (use k v l)).
Proof.
  intros Hl Hk. destruct cap as [|cap]; [done|]. rewrite take_use by done. rewrite reverse_cons. f_equal.
  rewrite ddel_filter by (by apply dwf_reverse, dwf_take). rewrite reverse_filter. f_equal. symmetry. apply take_ge.
  assert (forall d : list (WindowKey * (string * rows)), dget k d = Some v -> (length (filter (λ kv, kv.1 <> k) d) < length d)%nat) as H.
  { intros d Hd. apply dget_Some_elem in Hd. apply (length_filter_lt _ _ (k, v)); [done|cbn; tauto]. }
  apply H in Hk. rewrite length_take in Hk. lia.
Qed.

Lemma cache_step_recent c l o :
  holds_recent c l ->
  holds_recent (cache_step c o) (ideal_step (Z.to_nat (capacity c)) l o) /\ capacity (cache_step c o) = capacity c.
Proof.
  intros (Hc&Hl&Hd). set (cap := Z.to_nat (capacity c)) in *.
  assert (forall k, dget k (data c) = dget k (take cap l)) as Hget by (intros; rewrite Hd; by apply dget_reverse, dwf_take).
  destruct o as [k|k v|]; cbn [cache_step ideal_step].
  - unfold window_get. rewrite Hget. destruct (dget k (take cap l)) as [v|] eqn:E; [|done]. split; [|done].
    split_and!; [done|by apply dwf_use|]. cbn [data snd capacity]. unfold move_to_end. rewrite Hget, E, Hd. by apply move_recent.
  - assert (move_to_end k (dset k v (data c)) = reverse ((k, v) :: filter (λ kv, kv.1 <> k) (take cap l))) as Hm.
    { rewrite Hd, move_dset by (by apply dwf_reverse, dwf_take). by rewrite reverse_filter, reverse_cons. }
    unfold window_put. rewrite Hm, length_reverse. cbn [length].
    destruct cap as [|cap'] eqn:Ecap; [lia|].
    assert (length (filter (λ kv, kv.1 <> k) (take (S cap') l)) <= S cap')%nat as Hlen.
    { etrans; [apply length_filter|]. rewrite length_take. lia. }
    case_match eqn:E; cbn [snd]; (split; [split_and!; [done|by apply dwf_use|]|done]); cbn [data capacity]; fold cap; rewrite Ecap, take_use by done.
    + rewrite (tail_reverse _ (S cap')); [done|cbn [length]; apply Z.ltb_lt in E; lia].
    + f_equal. f_equal. symmetry. apply take_ge. apply Z.ltb_ge in E. lia.
  - split; [|done]. split_and!; [done|constructor|by rewrite take_nil].
Qed.

(** C25. The cache is the least-recently-used one it says it is, for ever: whatever
    the sequence of its operations, it holds exactly the [capacity] entries most
    recently put or served, with the values last put, oldest first, out of a
    history that evicts nothing; so it never grows past its capacity, and what it
    evicts was used before everything it keeps. *)
Theorem window_cache_is_lru cap c ops :
  new_window_cache cap = Ok c ->
  let final := fold_left cache_step ops c in
  let history := fold_left (ideal_step (Z.to_nat cap)) ops [] in
  dwf history /\ data final = reverse (take (Z.to_nat cap) history) /\
  (Z.of_nat (length (data final)) <= cap)%Z /\
  (forall k, fst (window_get k final) = dget k (take (Z.to_nat cap) history)).
Proof.
  unfold new_window_cache. destruct (cap <? 1)%Z eqn:E; [done|]. intros [= <-]. cbv zeta. apply Z.ltb_ge in E.
  assert (forall c l, holds_recent c l -> capacity c = cap ->
    holds_recent (fold_left cache_step ops c) (fold_left (ideal_step (Z.to_nat cap)) ops l) /\ capacity (fold_left cache_step ops c) = cap) as H.
  { induction ops as [|o ops IH]; [done|]. intros c l Hh Hc. cbn [fold_left]. subst cap.
    destruct (cache_step_recent c l o Hh) as [H1 H2]. by apply IH. }
  destruct (H (mkWindowCache cap []) []) as [(_&Hw&Hd) Hc]; [split_and!; [done|constructor|by rewrite take_nil]|done|].
  rewrite Hc in Hd. split_and!; [done|done| |].
  - rewrite Hd, length_reverse, length_take. lia.
  - intros k. unfold window_get. rewrite Hd, dget_reverse by (by apply dwf_take). by destruct (dget k _).
Qed.

(** ** Fetches of many turns, interleaved *)

Record WinState := mkWin {
  cache : WindowCache;
  pending : list (WindowKey * option string);           (** fetches awaited *)
  fetched : list (WindowKey * option string * rows);    (** what the endpoint answered, latest first *)
  served : list (WindowKey * option string * rows);     (** what turns were given *)
}.

Inductive win_step : WinState -> WinState -> Prop :=
| step_hit s k m raw c : fetch_begin k m (cache s) = (Some raw, c) ->
    win_step s (mkWin c (pending s) (fetched s) ((k, m, raw) :: served s))
| step_miss s k m c : fetch_begin k m (cache s) = (None, c) ->
    win_step s (mkWin c ((k, m) :: pending s) (fetched s) (served s))
| step_answer s k m raw c l r : pending s = (l ++ (k, m) :: r)%list -> fetch_end k m (Ok (Some raw)) (cache s) = (Some raw, c) ->
    win_step s (mkWin c (l ++ r) ((k, m, raw) :: fetched s) ((k, m, raw) :: served s))
| step_failure s k m o c l r : pending s = (l ++ (k, m) :: r)%list -> fetch_end k m o (cache s) = (None, c) ->
    win_step s (mkWin c (l ++ r) (fetched s) (served s))
| step_clear s : win_step s (mkWin (window_clear (cache s)) (pending s) (fetched s) (served s)).

Definition win_sound (s : WinState) : Prop :=
  dwf (data (cache s)) /\ (Z.of_nat (length (data (cache s))) <= capacity (cache s))%Z /\
  (forall k m raw, (k, (m, raw)) ∈ data (cache s) -> (k, Some m, raw) ∈ fetched s) /\
  (forall x, x ∈ served s -> x ∈ fetched s).

Lemma move_to_end_perm {K V} `{EqDecision K} (k : K) (d : list (K * V)) : dwf d -> move_to_end k d ≡ₚ d.
Proof.
  intros Hd. unfold move_to_end. destruct (dget k d) as [v|] eqn:E; [|done].
  induction d as [|[k' v'] d IH]; [done|]. apply NoDup_cons in Hd as [Hk Hd]. cbn [dget ddel] in *.
  case_decide as Ek.
  - injection E as ->. subst. by rewrite Permutation_app_comm.
  - cbn. by rewrite IH.
Qed.

Lemma window_get_perm k c : dwf (data c) ->
  data (snd (window_get k c)) ≡ₚ data c /\ capacity (snd (window_get k c)) = capacity c /\
  (forall v, fst (window_get k c) = Some v -> (k, v) ∈ data c).
Proof.
  intros Hd. unfold window_get. destruct (dget k (data c)) as [v|] eqn:E; [|done]. cbn.
  split_and!; [by apply move_to_end_perm|done|]. intros ? [= <-]. by apply dget_Some_elem.
Qed.

Lemma fetch_begin_spec k m c : dwf (data c) ->
  let '(r, c') := fetch_begin k m c in
  data c' ≡ₚ data c /\ capacity c' = capacity c /\ (forall raw, r = Some raw -> exists m', m = Some m' /\ (k, (m', raw)) ∈ data c).
Proof.
  intros Hd. unfold fetch_begin. destruct m as [m|]; [|done].
  pose proof (window_get_perm k c Hd) as (H1&H2&H3). destruct (window_get k c) as [[[m' raw]|] c']; cbn [fst snd] in *; [|done].
  case_bool_decide; (split_and!; [done|done|]); [|done]. intros ? [= <-]. subst. exists m. by split; [|apply H3].
Qed.

Lemma dset_length_le {K V} `{EqDecision K} (k : K) (v : V) d : (length (dset k v d) <= S (length d))%nat.
Proof. induction d as [|[k' v'] d IH]; cbn; [lia|]. case_decide; cbn; lia. Qed.

Lemma window_put_spec k v c : dwf (data c) -> (0 <= capacity c)%Z -> (Z.of_nat (length (data c)) <= capacity c)%Z ->
  let c' := snd (window_put k v c) in
  dwf (data c') /\ capacity c' = capacity c /\ (Z.of_nat (length (data c')) <= capacity c')%Z /\
  (forall x, x ∈ data c' -> x = (k, v) \/ x ∈ data c).
Proof.
  intros Hd Hc Hl. unfold window_put. rewrite move_dset by done.
  assert (dwf (filter (λ kv, kv.1 <> k) (data c) ++ [(k, v)])) as Hw.
  { unfold dwf. rewrite dkeys_fmap, fmap_app. apply NoDup_app. split_and!; [by apply dwf_filter| |apply NoDup_singleton].
    intros x Hx Hin. apply list_elem_of_singleton in Hin as ->. apply list_elem_of_fmap in Hx as (y&E&Hy).
    apply list_elem_of_filter in Hy as [Hy _]. by apply Hy. }
  assert (forall x, x ∈ (filter (λ kv, kv.1 <> k) (data c) ++ [(k, v)])%list -> x = (k, v) \/ x ∈ data c) as Hin.
  { intros x Hx. rewrite elem_of_app, list_elem_of_singleton, list_elem_of_filter in Hx. tauto. }
  assert (length (filter (λ kv, kv.1 <> k) (data c)) <= length (data c))%nat by apply length_filter.
  case_match eqn:E; cbn [snd data capacity].
  - split_and!; [|done| |].
    + destruct (filter _ _ ++ _)%list; [done|]. by apply NoDup_cons in Hw as [_ Hw].
    + destruct (filter _ _ ++ _)%list as [|y d] eqn:Ed; [cbn; lia|]. apply (f_equal length) in Ed. rewrite length_app in Ed. cbn in *. lia.
    + intros x Hx. apply Hin. destruct (filter _ _ ++ _)%list; [by apply elem_of_nil in Hx|by right].
  - apply Z.ltb_ge in E. done.
Qed.

Definition capacity_ok (s : WinState) : Prop := (0 <= capacity (cache s))%Z.

Lemma win_step_sound s s' : capacity_ok s -> win_sound s -> win_step s s' -> win_sound s' /\ capacity (cache s') = capacity (cache s).
Proof.
  intros Hcap (Hd&Hl&Hf&Hs) Hstep. destruct Hstep as [s k m raw c E|s k m c E|s k m raw c l r Ep E|s k m o c l r Ep E|s].
  1,2: pose proof (fetch_begin_spec k m (cache s) Hd) as H; rewrite E in H; destruct H as (Hp&Hc&Hr).
  - split; [|done]. split_and!; cbn [cache fetched served].
    + unfold dwf. rewrite dkeys_fmap, Hp, <- dkeys_fmap. done.
    + by rewrite Hp, Hc.
    + intros k' m' raw'. rewrite Hp. apply Hf.
    + intros x [->|Hx]%elem_of_cons; [|by apply Hs]. destruct (Hr raw eq_refl) as (m'&->&Hin). by apply Hf.
  - split; [|done]. split_and!; cbn [cache fetched served]; [|by rewrite Hp, Hc|intros k' m' raw'; rewrite Hp; apply Hf|done].
    unfold dwf. rewrite dkeys_fmap, Hp, <- dkeys_fmap. done.
  - cbn [fetch_end] in E. injection E as <-. destruct m as [m|].
    + destruct (window_put_spec k (m, raw) (cache s) Hd Hcap Hl) as (H1&H2&H3&H4). split; [|done].
      split_and!; cbn [cache fetched served]; [done|by rewrite <- H2 in *| |].
      * intros k' m' raw' Hin. apply H4 in Hin as [[= -> -> ->]|Hin]; [left|right; by apply Hf].
      * intros x [->|Hx]%elem_of_cons; [left|right; by apply Hs].
    + split; [|done]. split_and!; cbn [cache fetched served]; [done|done| |].
      * intros k' m' raw' Hin. right. by apply Hf.
      * intros x [->|Hx]%elem_of_cons; [left|right; by apply Hs].
  - assert (c = cache s) as -> by (destruct o as [[raw|]|x]; cbn in E; by injection E). done.
  - split; [|done]. split_and!; cbn [cache fetched served window_clear data capacity length]; [constructor|done| |done].
    intros k m raw Hin. by apply elem_of_nil in Hin.
Qed.

(** However the turns of however many personas interleave on the shared cache,
    a turn is only ever given rows that the endpoint answered to that persona,
    for that channel and that size of window; and a cached answer only for the
    very message it was fetched for. A window fetched for one persona, which is
    trimmed to that persona's membership, is never another's. *)
Theorem window_fetch_provenance cap c s k m raw :
  new_window_cache cap = Ok c -> rtc win_step (mkWin c [] [] []) s ->
  ((k, m, raw) ∈ served s -> (k, m, raw) ∈ fetched s) /\
  (forall c', fetch_begin k m (cache s) = (Some raw, c') -> exists m', m = Some m' /\ (k, Some m', raw) ∈ fetched s) /\
  (Z.of_nat (length (data (cache s))) <= cap)%Z.
Proof.
  unfold new_window_cache. destruct (cap <? 1)%Z eqn:Ec; [done|]. intros [= <-] Hr. apply Z.ltb_ge in Ec.
  assert (forall s0, win_sound s0 -> capacity (cache s0) = cap -> rtc win_step s0 s -> win_sound s /\ capacity (cache s) = cap) as H.
  { clear Hr. intros s0 H0 H1 Hrtc. induction Hrtc as [|x y z Hxy _ IH]; [done|].
    destruct (win_step_sound x y) as [H2 H3]; [unfold capacity_ok; lia|done|done|]. apply IH; [done|lia]. }
  destruct (H (mkWin (mkWindowCache cap []) [] [] [])) as [(Hd&Hl&Hf&Hs) Hcap]; [|done|done|].
  { split_and!; cbn; [constructor|lia|intros ? ? ? Hin; by apply elem_of_nil in Hin|done]. }
  split_and!; [apply Hs| |lia]. intros c' Hb. pose proof (fetch_begin_spec k m (cache s) Hd) as Hx. rewrite Hb in Hx.
  destruct Hx as (_&_&Hx). destruct (Hx raw eq_refl) as (m'&->&Hin). exists m'. split; [done|by apply Hf].
Qed.

(** ** The transcript is the longest that fits *)

(** Per key: the configured count is one, whatever the block holds. *)
Lemma resolved_config_positive agent_config :
  let c := resolve_conversation_window_config agent_config in (1 <= max_turns c)%Z /\ (1 <= max_tokens c)%Z.
Proof.
  assert (forall v d, (1 <= d)%Z -> (1 <= count_or v d)%Z) as H.
  { intros v d Hd. unfold count_or. destruct v as [[| |n| | | |]|]; try done. destruct (1 <=? n)%Z eqn:E; lia. }
  cbv zeta. unfold resolve_conversation_window_config. repeat case_match; cbn [max_turns max_tokens];
    split; try apply H; unfold defaults, DEFAULT_MAX_TURNS, DEFAULT_MAX_TOKENS; cbn; lia.
Qed.

Lemma from_current_spec m raw :
  match from_current m raw with
  | Some older => exists newer current rest, raw = (newer ++ older)%list /\ older = current :: rest /\ row_is m current = true /\
                    Forall (λ row, row_is m row = false) newer
  | None => Forall (λ row, row_is m row = false) raw
  end.
Proof.
  induction raw as [|row raw IH]; cbn [from_current]; [constructor|]. destruct (row_is m row) eqn:E.
  - exists [], row, raw. done.
  - destruct (from_current m raw) as [older|]; [|by constructor].
    destruct IH as (newer&current&rest&->&->&?&?). exists (row :: newer), current, rest. split_and!; try done. by constructor.
Qed.

Section window_props.
Context (encode : option (string -> Z)) (Hencode : forall enc s, encode = Some enc -> (0 <= enc s)%Z).

Lemma tokens_nonneg t : (0 <= tokens encode t)%Z.
Proof.
  unfold tokens, estimate_tokens. destruct encode as [enc|]; [by eapply Hencode|]. apply Z.div_pos; lia.
Qed.

Lemma zsum_tokens_nonneg ts : (0 <= zsum (tokens encode) ts)%Z.
Proof. apply zsum_nonneg. apply Forall_forall. intros t _. apply tokens_nonneg. Qed.

Lemma drop_over_tokens_spec max ts :
  exists k, drop_over_tokens encode max ts = drop k ts /\
    ((0 <= max)%Z -> (zsum (tokens encode) (drop k ts) <= max)%Z) /\
    (forall j, (j < k)%nat -> (max < zsum (tokens encode) (drop j ts))%Z).
Proof.
  induction ts as [|t ts IH]; cbn [drop_over_tokens].
  - exists 0%nat. split_and!; [done|done|lia].
  - destruct (max <? _)%Z eqn:E.
    + destruct IH as (k&Hk&H1&H2). exists (S k). split_and!; [done|done|]. intros [|j] Hj; [by apply Z.ltb_lt in E|]. apply H2. lia.
    + exists 0%nat. split_and!; [done| |lia]. intros _. by apply Z.ltb_ge in E.
Qed.

Lemma drop_over_count_spec max (ts : list turn) :
  exists k, drop_over_count max ts = drop k ts /\
    ((0 <= max)%Z -> (Z.of_nat (length (drop k ts)) <= max)%Z) /\
    (forall j, (j < k)%nat -> (max < Z.of_nat (length (drop j ts)))%Z).
Proof.
  induction ts as [|t ts IH]; cbn [drop_over_count].
  - exists 0%nat. split_and!; [done|done|lia].
  - destruct (max <? _)%Z eqn:E.
    + destruct IH as (k&Hk&H1&H2). exists (S k). split_and!; [done|done|]. intros [|j] Hj; [by apply Z.ltb_lt in E|]. apply H2. lia.
    + exists 0%nat. split_and!; [done| |lia]. intros _. by apply Z.ltb_ge in E.
Qed.

Lemma drop_leading_spec ts :
  exists k, _drop_leading_assistant_turns ts = drop k ts /\
    (forall t, head (drop k ts) = Some t -> turn_role t = User) /\
    (forall j, (j < k)%nat -> exists t, head (drop j ts) = Some t /\ turn_role t = Assistant).
Proof.
  induction ts as [|t ts IH]; cbn [_drop_leading_assistant_turns].
  - exists 0%nat. split_and!; [done|done|lia].
  - destruct (turn_role t) eqn:E.
    + exists 0%nat. split_and!; [done| |lia]. intros ? [= <-]. done.
    + destruct IH as (k&Hk&H1&H2). exists (S k). split_and!; [done|done|]. intros [|j] Hj; [by exists t|]. apply H2. lia.
Qed.

(** Admission and the leading rule together keep a suffix, the longest that fits. *)
Definition fits (config : ConversationWindowConfig) (ts : list turn) : Prop :=
  (zsum (tokens encode) ts <= max_tokens config)%Z /\ (Z.of_nat (length ts) <= max_turns config)%Z.

Lemma zsum_drop_le k ts : (zsum (tokens encode) (drop k ts) <= zsum (tokens encode) ts)%Z.
Proof. pose proof (zsum_tokens_nonneg (take k ts)). rewrite <- (take_drop k ts) at 2. rewrite zsum_app. lia. Qed.

Lemma admitted_spec config ts :
  (0 <= max_tokens config)%Z -> (0 <= max_turns config)%Z ->
  exists k, _drop_leading_assistant_turns (_apply_admission encode ts config) = drop k ts /\ fits config (drop k ts) /\
    (forall t, head (drop k ts) = Some t -> turn_role t = User) /\
    (forall j t, (j < k)%nat -> head (drop j ts) = Some t -> turn_role t = User -> ~ fits config (drop j ts)).
Proof.
  intros Ht Hn. unfold _apply_admission.
  destruct (drop_over_tokens_spec (max_tokens config) ts) as (k1&->&A1&A2).
  destruct (drop_over_count_spec (max_turns config) (drop k1 ts)) as (k2&->&B1&B2).
  destruct (drop_leading_spec (drop k2 (drop k1 ts))) as (k3&->&C1&C2).
  rewrite !drop_drop in *. exists (k1 + k2 + k3)%nat. split_and!; [by rewrite ?Nat.add_assoc| | |].
  - specialize (A1 Ht). specialize (B1 Hn). split.
    + etrans; [|apply A1]. replace (k1 + k2 + k3)%nat with (k1 + (k2 + k3))%nat by lia. rewrite <- drop_drop. apply zsum_drop_le.
    + rewrite length_drop in *. lia.
  - intros t Hh. apply C1. rewrite <- Hh. f_equal. rewrite ?drop_drop. f_equal. lia.
  - intros j t Hj Hh Hu [F1 F2]. destruct (decide (j < k1)%nat) as [Hj1|Hj1]; [specialize (A2 j Hj1); lia|].
    destruct (decide (j < k1 + k2)%nat) as [Hj2|Hj2].
    + specialize (B2 (j - k1)%nat ltac:(lia)). rewrite drop_drop in B2. replace (k1 + (j - k1))%nat with j in B2 by lia. lia.
    + destruct (C2 (j - (k1 + k2))%nat ltac:(lia)) as (t'&Ht'&Hr). rewrite drop_drop in Ht'.
      replace (k1 + k2 + (j - (k1 + k2)))%nat with j in Ht' by lia. congruence.
Qed.

(** How a row replays: the agent's own words as they are, anyone else's in a
    block of his. *)
Definition replays (agent_id : string) (current : option string) (row : pyval) (t : turn) : Prop :=
  exists d content, row = VDict d /\ dget "content" d = Some (VStr content) /\ content <> "" /\
    (forall m, current = Some m -> row_is m row = false) /\
    (is_self agent_id (dget "sender_id" d) = true /\ t = mkTurn Assistant content \/
     is_self agent_id (dget "sender_id" d) = false /\ t = mkTurn User (_format_peer_turn (dget "sender_id" d) content)).

Lemma row_turn_spec agent_id current row t : row_turn agent_id current row = Some t <-> replays agent_id current row t.
Proof.
  unfold row_turn, replays. destruct row as [| | | | | |d]; try (split; [done|by intros (?&?&?&_)]).
  destruct (match current with Some m => row_is m (VDict d) | None => false end) eqn:Ec.
  { split; [done|]. intros (?&?&_&_&_&H&_). destruct current as [m|]; [|done]. specialize (H m eq_refl). congruence. }
  assert (forall m, current = Some m -> row_is m (VDict d) = false) as Hc by (intros m ->; done).
  destruct (dget "content" d) as [[| | | |content| |]|] eqn:E; try (split; [done|intros (?&?&[= <-]&?&_); congruence]).
  destruct (truthy content) eqn:Et; cbn [negb].
  - apply truthy_true in Et. destruct (is_self _ _) eqn:Es.
    + split; [intros [= <-]; exists d, content; split_and!; try done; by left|].
      intros (?&y&[= <-]&?&_&_&[[_ ->]|[? _]]); [|congruence]. assert (content = y) by congruence. by subst.
    + split; [intros [= <-]; exists d, content; split_and!; try done; by right|].
      intros (?&y&[= <-]&?&_&_&[[? _]|[_ ->]]); [congruence|]. assert (content = y) by congruence. by subst.
  - apply truthy_false in Et. split; [done|]. intros (?&?&[= <-]&?&?&_). congruence.
Qed.

(** The rows that are not newer than the message being answered. *)
Definition not_newer (raw : rows) (current : option string) (older : rows) : Prop :=
  (exists newer c rest m, current = Some m /\ raw = (newer ++ older)%list /\ older = c :: rest /\ row_is m c = true /\
     Forall (λ row, row_is m row = false) newer) \/
  (older = raw /\ forall m, current = Some m -> Forall (λ row, row_is m row = false) raw).

Lemma drop_newer_spec raw current : not_newer raw current (_drop_rows_newer_than_current raw current).
Proof.
  unfold _drop_rows_newer_than_current, not_newer. destruct current as [m|]; [|by right].
  pose proof (from_current_spec m raw) as H. destruct (from_current m raw) as [older|]; cbn.
  - left. destruct H as (newer&c&rest&->&->&?&?). by exists newer, c, rest, m.
  - right. split; [done|]. by intros ? [= <-].
Qed.

(** What a transcript is: of the rows not newer than the message being answered,
    oldest first, each as it replays, the longest run of the latest that opens
    with somebody else's words and keeps to both bounds. *)
Definition transcript (raw : rows) (agent_id : string) (current : option string) (config : ConversationWindowConfig) (ts : list turn) : Prop :=
  exists older turns k, not_newer raw current older /\
    (forall t, t ∈ turns <-> exists row, row ∈ older /\ replays agent_id current row t) /\
    turns = omap (row_turn agent_id current) (reverse older) /\
    ts = drop k turns /\ fits config ts /\ (forall t, head ts = Some t -> turn_role t = User) /\
    (forall j t, (j < k)%nat -> head (drop j turns) = Some t -> turn_role t = User -> ~ fits config (drop j turns)).

Lemma assembled_transcript raw agent_id current config :
  (0 <= max_tokens config)%Z -> (0 <= max_turns config)%Z ->
  transcript raw agent_id current config (_assemble_replayed_turns encode raw agent_id current config).
Proof.
  intros Ht Hn. unfold _assemble_replayed_turns. set (older := _drop_rows_newer_than_current raw current).
  destruct (admitted_spec config (omap (row_turn agent_id current) (reverse older)) Ht Hn) as (k&->&Hf&Hh&Hm).
  exists older, (omap (row_turn agent_id current) (reverse older)), k. split_and!; try done; [apply drop_newer_spec|].
  intros t. rewrite list_elem_of_omap. split; intros (row&Hin&Hr); exists row; rewrite elem_of_reverse, ?row_turn_spec in *; split; done || by apply row_turn_spec.
Qed.

(** The seed of a turn. It ends with the message being answered, as given, and
    opens with a user's turn, which the provider demands. Everything between is
    the transcript of rows fetched for this agent in this channel: bounded by
    the configuration, which is never below one turn and one token, in order,
    with nothing newer than the message and not the message itself. Where no
    rows can be had, the message stands alone. *)
Theorem seed_well_formed {W} fetcher agent_config agent_id e msg (s : WindowCache * W) :
  let config := resolve_conversation_window_config agent_config in
  let '(msgs, _) := _build_seed_messages encode fetcher agent_config agent_id e msg s in
  exists ts, msgs = (ts ++ [mkTurn User msg])%list /\
    (forall t, head msgs = Some t -> turn_role t = User) /\
    (zsum (tokens encode) ts <= max_tokens config)%Z /\ (Z.of_nat (length ts) <= max_turns config)%Z /\
    (ts = [] \/
     exists fetch raw, fetcher = Some fetch /\ enabled config = true /\ opt_str (channel_id e) <> "" /\
       fst (_fetch_window fetch (opt_str (channel_id e)) (message_id e) (max_turns config + 1) agent_id s) = Some raw /\
       transcript raw agent_id (message_id e) config ts).
Proof.
  intros config. destruct (resolved_config_positive agent_config) as [Hn Ht]. fold config in Hn, Ht.
  assert (exists ts, [mkTurn User msg] = (ts ++ [mkTurn User msg])%list /\
    (forall t, head [mkTurn User msg] = Some t -> turn_role t = User) /\
    (zsum (tokens encode) ts <= max_tokens config)%Z /\ (Z.of_nat (length ts) <= max_turns config)%Z /\ ts = []) as H0.
  { exists []. split_and!; [done|by intros ? [= <-]|cbn; lia|cbn; lia|done]. }
  unfold _build_seed_messages. destruct fetcher as [fetch|]; [|destruct H0 as (ts&?&?&?&?&?); exists ts; split_and!; try done; by left].
  unfold build_conversation_messages. fold config.
  destruct (enabled config) eqn:Ee; cbn [negb]; [|destruct H0 as (ts&?&?&?&?&?); exists ts; split_and!; try done; by left].
  destruct (truthy (opt_str (channel_id e))) eqn:Ec; cbn [negb]; [|destruct H0 as (ts&?&?&?&?&?); exists ts; split_and!; try done; by left].
  apply truthy_true in Ec.
  destruct (_fetch_window _ _ _ _ _ _) as [[raw|] s'] eqn:Ef; [|destruct H0 as (ts&?&?&?&?&?); exists ts; split_and!; try done; by left].
  pose proof (assembled_transcript raw agent_id (message_id e) config ltac:(lia) ltac:(lia)) as Htr.
  exists (_assemble_replayed_turns encode raw agent_id (message_id e) config). split_and!; [done| | | |right; exists fetch, raw; by rewrite Ef].
  - destruct Htr as (?&?&?&_&_&_&_&_&Hh&_). destruct (_assemble_replayed_turns _ _ _ _ _) as [|t ts]; [by intros ? [= <-]|].
    intros t' [= <-]. by apply Hh.
  - by destruct Htr as (?&?&?&_&_&_&_&[??]&_).
  - by destruct Htr as (?&?&?&_&_&_&_&[??]&_).
Qed.
End window_props.

(** ** Witnesses *)

Definition demo_key (agent : string) : WindowKey := ("group:plan", 21%Z, agent).
Definition demo_row (id sender content : string) : pyval :=
  VDict [("id", VStr id); ("sender_id", VStr sender); ("content", VStr content)].

Lemma window_cache_is_lru_witness :
  let ops := [CPut (demo_key "a") ("m1", []); CPut (demo_key "b") ("m1", []); CGet (demo_key "a"); CPut (demo_key "c") ("m1", [])] in
  data (fold_left cache_step ops (mkWindowCache 2 [])) = [(demo_key "a", ("m1", [])); (demo_key "c", ("m1", []))].
Proof.
  cbv zeta. match goal with |- data (fold_left _ ?ops _) = _ => destruct (window_cache_is_lru 2 (mkWindowCache 2 []) ops) as (_&H&_); [reflexivity|] end.
  rewrite H. by vm_compute.
Defined.

Lemma window_fetch_provenance_witness :
  let raw := [demo_row "m1" "bob" "hi"] in
  let s := mkWin (mkWindowCache 2 [(demo_key "a", ("m1", raw))]) [] [(demo_key "a", Some "m1", raw)]
             [(demo_key "a", Some "m1", raw); (demo_key "a", Some "m1", raw)] in
  (demo_key "a", Some "m1", raw) ∈ fetched s.
Proof.
  intros raw s. refine (proj1 (window_fetch_provenance 2 (mkWindowCache 2 []) s (demo_key "a") (Some "m1") raw eq_refl _) _); [|left].
  eapply rtc_l. { apply (step_miss _ (demo_key "a") (Some "m1") (mkWindowCache 2 [])). by vm_compute. }
  eapply rtc_l. { apply (step_answer _ (demo_key "a") (Some "m1") raw (mkWindowCache 2 [(demo_key "a", ("m1", raw))]) [] []); by vm_compute. }
  eapply rtc_l. { apply (step_hit _ (demo_key "a") (Some "m1") raw (mkWindowCache 2 [(demo_key "a", ("m1", raw))])). by vm_compute. }
  apply rtc_refl.
Defined.

Definition demo_event : AgentEvent := mkEvent CHANNEL_MESSAGE [] (Some "group:plan") (Some "bob") (Some "m3") None 0 [].

(** Newest first: a later message, the current one, the agent's, a peer's, the agent's opening. *)
Definition demo_fetch (_ : string) (_ : Z) (_ : string) (s : WindowCache * unit) : result string (option rows) * (WindowCache * unit) :=
  (Ok (Some [demo_row "m4" "eve" "later"; demo_row "m3" "bob" "now"; demo_row "m2" "a" "mine"; demo_row "m1" "bob" "first"; demo_row "m0" "a" "opening"]), s).

Lemma seed_well_formed_witness :
  let msgs := (_build_seed_messages None (Some demo_fetch) [] "a" demo_event "now" (mkWindowCache 2 [], tt)).1 in
  map turn_role msgs = [User; Assistant; User] /\ exists ts, msgs = (ts ++ [mkTurn User "now"])%list.
Proof.
  split; [by vm_compute|]. pose proof (seed_well_formed None ltac:(done) (Some demo_fetch) [] "a" demo_event "now" (mkWindowCache 2 [], tt)) as H.
  cbv zeta in H. destruct (_build_seed_messages _ _ _ _ _ _ _) as [msgs s]. destruct H as (ts&H&_). exists ts. exact H.
Defined.
