(* ===== verification/ChannelValidation.v ===== *)
(** * The bounds on a channel message at the receiver

    Models [agents/channel_validation.py]: the two validators, of a typed wire
    event and of a row of the REST history, and the rendering of what they quote
    in a rejection. [datetime.fromisoformat] is an input: whether the string is
    a date, whether it has an offset, and its instant. So is [str()] of a JSON
    value that is not a string. *)

From Stdlib Require Import Ascii.
From stdpp Require Import pretty.
From S2P Require Import Prelude PyStr PyDict PyValue FactPredicates.
Local Open Scope string_scope.

(** ** What a rejection quotes *)

Definition _ERROR_MESSAGE_FIELD_MAX_CHARS : nat := 32.

Definition control_cp (n : N) : bool := ((n <? 32) || (n =? 127))%N.

Definition hex_digit (n : N) : N := (if n <? 10 then 48 + n else 87 + n)%N.

(** A control character as [\x..]. *)
Definition escape_cp (n : N) : text :=
  if control_cp n then [92; 120; hex_digit (n / 16); hex_digit (n mod 16)]%N else [n].

Definition ellipsis_cp : N := 8230.

Definition _safe_repr (value : text) : text :=
  let sanitized := concat (map escape_cp value) in
  let shown := if (_ERROR_MESSAGE_FIELD_MAX_CHARS <? length sanitized)%nat
               then (take _ERROR_MESSAGE_FIELD_MAX_CHARS sanitized ++ [ellipsis_cp])%list else sanitized in
  ([39%N] ++ shown ++ [39%N])%list.

Definition number (n : nat) : text := codes (pretty (N.of_nat n)).

(** ** The bounds *)

Definition _CHANNEL_CONTENT_MAX_CHARS : Z := 4000.
Definition _CHANNEL_THREAD_ID_MAX_CHARS : Z := 128.
Definition _CHANNEL_MAX_MENTIONS : Z := 10.
Definition _CHANNEL_ID_MAX_CHARS : Z := 256.
Definition _CHANNEL_MESSAGE_ID_MAX_CHARS : Z := 64.
Definition _CHANNEL_RESPOND_POLICIES : list string := ["when_mentioned"; "always"].
Definition _MENTION_EVERYONE : string := "@everyone".
Definition _CONVENE_DISPATCH_SENDER_ID : string := "orchestrator:convene".
Definition _SYNTHESIS_DISPATCH_SENDER_ID : string := "orchestrator:synthesis".
Definition _RESERVED_DISPATCH_SENDER_IDS : list string := [_CONVENE_DISPATCH_SENDER_ID; _SYNTHESIS_DISPATCH_SENDER_ID].
Definition _CHANNEL_TYPE_PREFIXES : list (string * string) := [("group", "group:"); ("dm", "dm:"); ("thread", "thread:")].

Definition alnum (c : ascii) : bool :=
  let n := code c in ((97 <=? n) && (n <=? 122) || (48 <=? n) && (n <=? 57))%N.

(** The rest of an id: letters, digits and dashes, the last no dash; a newline
    may follow, since [$] matches before a final one. *)
Fixpoint id_tail (s : string) : bool :=
  match s with
  | EmptyString => false
  | String c t =>
      if alnum c then match t with
                      | EmptyString => true
                      | String d EmptyString => if Ascii.eqb d (ascii_of_nat 10) then true else id_tail t
                      | _ => id_tail t
                      end
      else if Ascii.eqb c "-" then id_tail t else false
  end.

(** [_CHANNEL_PARTICIPANT_ID_RE.match] *)
Definition id_matches (s : string) : bool :=
  match s with String c t => alnum c && id_tail t | EmptyString => false end.

Definition reserved (s : string) : bool := bool_decide (s ∈ _RESERVED_DISPATCH_SENDER_IDS).

Definition zlen_str (s : string) : Z := Z.of_nat (String.length s).
Definition zlength {A} (l : list A) : Z := Z.of_nat (length l).

(** The typed event, as [task.proto] declares it. *)
Record ChannelMessageEvent := mkWire {
  w_message_id : string;
  w_channel_id : string;
  w_sender_id : string;
  w_content : string;
  w_timestamp : string;
  w_thread_id : string;
  w_mentions : list string;
  w_respond_policy : string;
  w_thread_parent_sender_id : string;
  w_cascade_depth : Z;
  w_sender_participant_type : string;
  w_salience_gated : bool;
  w_threshold : option Q;
  w_channel_size : Z;
  w_salience_max_channel_members : Z;
  w_interaction_id : string;
  w_floor_mentions : list string;
  w_floor_mentions_resolved : bool;
  w_previous_interaction_id : string;
  w_previous_interaction_close_trigger : string;
  w_chair_escalation : bool;
  w_interaction_close_notification : bool;
  w_chair_escalation_resynthesize : bool;
  w_reasoning_mode : string;
  w_reasoning_revise : Z;
  w_convene : bool;
  w_close_notification_redelivery : bool;
  w_close_notification_close_trigger : string;
  w_synthesis_turn : bool;
  w_classification : string;
  w_channel_type : string;
}.

Section validation.
Context (fromisoformat : string -> option (bool * Q)) (str_of : pyval -> text).

(** The last character dropped, when it is a [Z]. *)
Fixpoint zulu (s : string) : option string :=
  match s with
  | EmptyString => None
  | String c EmptyString => if Ascii.eqb c "Z" then Some EmptyString else None
  | String c s => option_map (String c) (zulu s)
  end.

Definition parse_channel_timestamp (value : string) : option Q :=
  if negb (truthy value) then None
  else match fromisoformat (match zulu value with Some s => s +:+ "+00:00" | None => value end) with
       | Some (true, t) => Some t
       | _ => None
       end.

Abbreviation verdict := (option text * option Q)%type.
Definition reject (e : text) : verdict := (Some e, None).

Definition exceeds (what : string) (bound : Z) (unit : string) (got : nat) : text :=
  (codes what ++ codes " exceeds " ++ number (Z.to_nat bound) ++ codes (" " +:+ unit +:+ " (got ") ++ number got ++ codes ")")%list.
Definition bad_id (what : text) (shown : text) : text := (what ++ codes " is not a valid participant id: " ++ shown)%list.
Definition indexed (what : string) (i : nat) : text := (codes what ++ codes "[" ++ number i ++ codes "]")%list.

(** The first entry of a list that is refused, by its place. *)
Fixpoint first_bad {A} (bad : nat -> A -> option text) (i : nat) (l : list A) : option text :=
  match l with
  | [] => None
  | x :: l => match bad i x with Some e => Some e | None => first_bad bad (S i) l end
  end.

Definition bad_mention (i : nat) (m : string) : option text :=
  if bool_decide (m = _MENTION_EVERYONE) then None
  else if negb (id_matches m) then Some (bad_id (indexed "mentions" i) (_safe_repr (codes m))) else None.

Definition bad_floor_mention (mentions : list string) (i : nat) (m : string) : option text :=
  if negb (id_matches m) then Some (bad_id (indexed "floor_mentions" i) (_safe_repr (codes m)))
  else if negb (bool_decide (m ∈ mentions)) then Some (indexed "floor_mentions" i ++ codes " not in mentions: " ++ _safe_repr (codes m))%list
  else None.

Definition quoted_list (l : list string) : text :=
  ([91%N] ++ foldr (λ x r, ([39%N] ++ codes x ++ [39%N] ++ match r with [] => [] | _ => codes ", " ++ r end))%list [] l ++ [93%N])%list.

Definition check_type (channel_type channel_id : string) : option text :=
  match dget channel_type _CHANNEL_TYPE_PREFIXES with
  | None => Some (codes "channel_type " ++ _safe_repr (codes channel_type) ++ codes " is not one of " ++ quoted_list ["dm"; "group"; "thread"])%list
  | Some prefix =>
      if negb (startswith prefix channel_id)
      then Some (codes "channel_id " ++ _safe_repr (codes channel_id) ++ codes " prefix disagrees with channel_type " ++ _safe_repr (codes channel_type))%list
      else None
  end.

Definition bad_timestamp (t : string) : text := (codes "timestamp is not a valid RFC 3339 string: " ++ _safe_repr (codes t))%list.

(** The checks in order, the first refusal winning. *)
Fixpoint first_error (checks : list (option text)) : option text :=
  match checks with [] => None | Some e :: _ => Some e | None :: checks => first_error checks end.

Definition over (n bound : Z) (e : text) : option text := if (bound <? n)%Z then Some e else None.

Definition validate_channel_message_event (r : ChannelMessageEvent) : verdict :=
  match first_error [
    over (zlen_str (w_content r)) _CHANNEL_CONTENT_MAX_CHARS (exceeds "content" _CHANNEL_CONTENT_MAX_CHARS "characters" (String.length (w_content r)));
    over (zlen_str (w_thread_id r)) _CHANNEL_THREAD_ID_MAX_CHARS (exceeds "thread_id" _CHANNEL_THREAD_ID_MAX_CHARS "characters" (String.length (w_thread_id r)));
    over (zlength (w_mentions r)) _CHANNEL_MAX_MENTIONS (exceeds "mentions list" _CHANNEL_MAX_MENTIONS "entries" (length (w_mentions r)));
    first_bad bad_mention 0 (w_mentions r);
    over (zlength (w_floor_mentions r)) _CHANNEL_MAX_MENTIONS (exceeds "floor_mentions list" _CHANNEL_MAX_MENTIONS "entries" (length (w_floor_mentions r)));
    first_bad (bad_floor_mention (w_mentions r)) 0 (w_floor_mentions r);
    (if negb (reserved (w_sender_id r)) && negb (id_matches (w_sender_id r))
     then Some (bad_id (codes "sender_id") (_safe_repr (codes (w_sender_id r)))) else None);
    over (zlen_str (w_channel_id r)) _CHANNEL_ID_MAX_CHARS (exceeds "channel_id" _CHANNEL_ID_MAX_CHARS "characters" (String.length (w_channel_id r)));
    over (zlen_str (w_message_id r)) _CHANNEL_MESSAGE_ID_MAX_CHARS (exceeds "message_id" _CHANNEL_MESSAGE_ID_MAX_CHARS "characters" (String.length (w_message_id r)));
    check_type (w_channel_type r) (w_channel_id r)] with
  | Some e => reject e
  | None =>
      match parse_channel_timestamp (w_timestamp r) with
      | None => reject (bad_timestamp (w_timestamp r))
      | Some ts =>
          if negb (bool_decide (w_respond_policy r ∈ _CHANNEL_RESPOND_POLICIES))
          then reject (codes "respond_policy " ++ _safe_repr (codes (w_respond_policy r)) ++ codes " is not one of " ++ quoted_list ["always"; "when_mentioned"])%list
          else if truthy (w_thread_parent_sender_id r) && negb (id_matches (w_thread_parent_sender_id r))
          then reject (bad_id (codes "thread_parent_sender_id") (_safe_repr (codes (w_thread_parent_sender_id r))))
          else (None, Some ts)
      end
  end.

(** [msg.get(k) or dft] *)
Definition get_or (k : string) (dft : pyval) (msg : pydict) : pyval :=
  match dget k msg with Some v => if vtruthy v then v else dft | None => dft end.

Definition bad_row_mention (i : nat) (m : pyval) : option text :=
  if v_eq_str m _MENTION_EVERYONE then None
  else match m with
       | VStr s => if negb (id_matches s) then Some (bad_id (indexed "mentions" i) (_safe_repr (codes s))) else None
       | _ => Some (bad_id (indexed "mentions" i) (_safe_repr (str_of m)))
       end.

Definition not_a (what kind : string) : verdict := reject (codes (what +:+ " is not a " +:+ kind)).

(** [check k] runs [k] only when no bound before it refuses. *)
Definition checked (checks : list (option text)) (k : verdict) : verdict :=
  match first_error checks with Some e => reject e | None => k end.

Definition validate_channel_message_dict (msg : pydict) (channel_type : string) : verdict :=
  match dget "sender_id" msg with
  | Some (VStr sender_id) =>
  match dget_or "content" (VStr "") msg with
  | VStr content =>
  checked [over (zlen_str content) _CHANNEL_CONTENT_MAX_CHARS (exceeds "content" _CHANNEL_CONTENT_MAX_CHARS "characters" (String.length content))]
  match get_or "thread_id" (VStr "") msg with
  | VStr thread_id =>
  checked [over (zlen_str thread_id) _CHANNEL_THREAD_ID_MAX_CHARS (exceeds "thread_id" _CHANNEL_THREAD_ID_MAX_CHARS "characters" (String.length thread_id))]
  match get_or "mentions" (VList []) msg with
  | VList mentions =>
  checked [
    over (zlength mentions) _CHANNEL_MAX_MENTIONS (exceeds "mentions list" _CHANNEL_MAX_MENTIONS "entries" (length mentions));
    first_bad bad_row_mention 0 mentions;
    (if negb (reserved sender_id) && negb (id_matches sender_id) then Some (bad_id (codes "sender_id") (_safe_repr (codes sender_id))) else None)]
  match dget "channel_id" msg with
  | Some (VStr channel_id) =>
  checked [over (zlen_str channel_id) _CHANNEL_ID_MAX_CHARS (exceeds "channel_id" _CHANNEL_ID_MAX_CHARS "characters" (String.length channel_id))]
  match dget_or "id" (VStr "") msg with
  | VStr message_id =>
  checked [
    over (zlen_str message_id) _CHANNEL_MESSAGE_ID_MAX_CHARS (exceeds "message_id" _CHANNEL_MESSAGE_ID_MAX_CHARS "characters" (String.length message_id));
    (if negb (truthy (strip message_id)) then Some (codes "message_id is empty") else None);
    check_type channel_type channel_id]
  match dget_or "timestamp" (VStr "") msg with
  | VStr raw_ts =>
      match parse_channel_timestamp raw_ts with
      | None => reject (bad_timestamp raw_ts)
      | Some ts => (None, Some ts)
      end
  | _ => not_a "timestamp" "string"
  end
  | _ => not_a "message_id" "string"
  end
  | _ => not_a "channel_id" "string"
  end
  | _ => not_a "mentions" "list"
  end
  | _ => not_a "thread_id" "string"
  end
  | _ => not_a "content" "string"
  end
  | _ => not_a "sender_id" "string"
  end.
End validation.

(** ** Ids *)

Definition id_char (c : ascii) : bool := alnum c || Ascii.eqb c "-".

(** A participant id: two characters or more, letters, digits and dashes, no
    dash at either end. *)
Definition participant_id (w : string) : Prop :=
  exists c m d, w = String c (m +:+ String d "") /\ alnum c = true /\ alnum d = true /\
    Forall (λ x, id_char x = true) (String.list_ascii_of_string m).

Definition LF : string := String (ascii_of_nat 10) "".

Lemma id_tail_spec s :
  id_tail s = true <-> exists m d, (s = m +:+ String d "" \/ s = (m +:+ String d "") +:+ LF) /\ alnum d = true /\
    Forall (λ x, id_char x = true) (String.list_ascii_of_string m).
Proof.
  induction s as [|c s IH]; cbn [id_tail].
  - split; [done|]. intros (m&d&[E|E]&_); by destruct m.
  - assert (id_char c = true -> (id_tail s = true <-> exists m d, (String c s = String c m +:+ String d "" \/ String c s = (String c m +:+ String d "") +:+ LF) /\
      alnum d = true /\ Forall (λ x, id_char x = true) (String.list_ascii_of_string (String c m)))) as Hstep.
    { intros Hc. rewrite IH. split.
      - intros (m&d&H&Hd&Hm). exists m, d. split_and!; [|done|by constructor]. destruct H as [-> | ->]; [by left|by right].
      - intros (m&d&H&Hd&Hm). inversion Hm; subst. exists m, d. split_and!; [|done|done]. destruct H as [[= ->]|[= ->]]; [by left|by right]. }
    assert (alnum c = true \/ Ascii.eqb c "-" = true -> id_tail s = true -> exists m d, (String c s = m +:+ String d "" \/ String c s = (m +:+ String d "") +:+ LF) /\
      alnum d = true /\ Forall (λ x, id_char x = true) (String.list_ascii_of_string m)) as Hfwd.
    { intros Hc Hs. apply Hstep in Hs as (m&d&?&?&?); [by exists (String c m), d|]. unfold id_char. by destruct Hc as [-> | ->]; rewrite ?orb_true_r. }
    assert (forall m d, (String c s = m +:+ String d "" \/ String c s = (m +:+ String d "") +:+ LF) -> alnum d = true ->
      Forall (λ x, id_char x = true) (String.list_ascii_of_string m) -> (m = "" /\ c = d /\ (s = "" \/ s = LF)) \/ id_char c = true /\ id_tail s = true) as Hbwd.
    { intros [|c' m] d H Hd Hm; [left; destruct H as [[= -> ->]|[= -> ->]]; auto|]. right. inversion Hm; subst.
      assert (c = c') as <- by (by destruct H as [[= ? ?]|[= ? ?]]). split; [done|]. apply Hstep; [done|]. by exists m, d. }
    destruct (alnum c) eqn:Ec.
    + destruct s as [|e s'].
      * split; [|done]. intros _. exists "", c. split_and!; [by left|done|constructor].
      * assert (id_tail (String e s') = true <-> exists m d, (String c (String e s') = m +:+ String d "" \/ String c (String e s') = (m +:+ String d "") +:+ LF) /\
          alnum d = true /\ Forall (λ x, id_char x = true) (String.list_ascii_of_string m) /\ String e s' <> LF) as Hrec.
        { split.
          - intros Hs. assert (String e s' <> LF) by (intros [= -> ->]; done). destruct (Hfwd (or_introl eq_refl) Hs) as (m&d&?&?&?). by exists m, d.
          - intros (m&d&H&Hd&Hm&Hn). destruct (Hbwd m d H Hd Hm) as [(->&->&[?|?])|[_ ?]]; done. }
        destruct s' as [|f s''].
        -- destruct (Ascii.eqb e _) eqn:Ee.
           ++ apply Ascii.eqb_eq in Ee as ->. split; [|done]. intros _. exists "", c. split_and!; [by right|done|constructor].
           ++ rewrite Hrec. split; [intros (m&d&?&?&?&_); by exists m, d|]. intros (m&d&?&?&?). exists m, d. split_and!; try done.
              intros [= ->]. done.
        -- rewrite Hrec. split; [intros (m&d&?&?&?&_); by exists m, d|]. intros (m&d&?&?&?). by exists m, d.
    + destruct (Ascii.eqb c "-") eqn:Ed.
      * split; [intros Hs; by apply Hfwd; [right|]|]. intros (m&d&H&Hd&Hm). destruct (Hbwd m d H Hd Hm) as [(->&->&_)|[_ ?]]; [congruence|done].
      * split; [done|]. intros (m&d&H&Hd&Hm). destruct (Hbwd m d H Hd Hm) as [(->&->&_)|[Hc _]]; [congruence|].
        unfold id_char in Hc. by rewrite Ec, Ed in Hc.
Qed.

(** The expression accepts the ids, and an id with a newline after it. *)
Lemma id_matches_spec s : id_matches s = true <-> participant_id s \/ exists w, participant_id w /\ s = w +:+ LF.
Proof.
  unfold id_matches, participant_id. destruct s as [|c t].
  - split; [done|]. intros [(?&?&?&[=]&_)|(w&(?&?&?&->&_)&[=])].
  - rewrite andb_true_iff, id_tail_spec. split.
    + intros (Hc&m&d&[-> | ->]&Hd&Hm); [left|right]; [by exists c, m, d|]. exists (String c (m +:+ String d "")). split; [by exists c, m, d|done].
    + intros [(c'&m&d&[= -> ->]&?&?&?)|(w&(c'&m&d&->&?&?&?)&[= -> ->])]; (split; [done|]); exists m, d; split_and!; try done; [by left|by right].
Qed.

(** ** What is accepted *)

Definition sender_ok (s : string) : Prop := s ∈ _RESERVED_DISPATCH_SENDER_IDS \/ id_matches s = true.

Definition mention_ok (m : string) : Prop := m = _MENTION_EVERYONE \/ id_matches m = true.

Definition type_agrees (channel_type channel_id : string) : Prop :=
  exists prefix, dget channel_type _CHANNEL_TYPE_PREFIXES = Some prefix /\ startswith prefix channel_id = true.

(** What both seams demand of a message. *)
Record envelope_ok (channel_type channel_id sender_id content message_id thread_id : string) (mentions : list string) : Prop := {
  ok_content : (zlen_str content <= _CHANNEL_CONTENT_MAX_CHARS)%Z;
  ok_thread : (zlen_str thread_id <= _CHANNEL_THREAD_ID_MAX_CHARS)%Z;
  ok_mentions : (zlength mentions <= _CHANNEL_MAX_MENTIONS)%Z;
  ok_each_mention : Forall mention_ok mentions;
  ok_sender : sender_ok sender_id;
  ok_channel : (zlen_str channel_id <= _CHANNEL_ID_MAX_CHARS)%Z;
  ok_message : (zlen_str message_id <= _CHANNEL_MESSAGE_ID_MAX_CHARS)%Z;
  ok_type : type_agrees channel_type channel_id;
}.

(** What only the typed event carries. *)
Record routing_ok (r : ChannelMessageEvent) : Prop := {
  ok_floor : (zlength (w_floor_mentions r) <= _CHANNEL_MAX_MENTIONS)%Z;
  ok_each_floor : Forall (λ m, id_matches m = true /\ m ∈ w_mentions r) (w_floor_mentions r);
  ok_policy : w_respond_policy r ∈ _CHANNEL_RESPOND_POLICIES;
  ok_parent : w_thread_parent_sender_id r = "" \/ id_matches (w_thread_parent_sender_id r) = true;
}.

Definition wire_envelope (r : ChannelMessageEvent) : Prop :=
  envelope_ok (w_channel_type r) (w_channel_id r) (w_sender_id r) (w_content r) (w_message_id r) (w_thread_id r) (w_mentions r).

Lemma first_error_None checks : first_error checks = None <-> Forall (λ c, c = None) checks.
Proof. induction checks as [|[e|] checks IH]; cbn; rewrite ?Forall_cons; [by split|by split; [done|intros [? _]]|rewrite IH; tauto]. Qed.

Lemma over_None n bound e : over n bound e = None <-> (n <= bound)%Z.
Proof. unfold over. destruct (bound <? n)%Z eqn:E; [apply Z.ltb_lt in E|apply Z.ltb_ge in E]; split; try done; lia. Qed.

Lemma first_bad_None {A} (bad : nat -> A -> option text) (P : A -> Prop) :
  (forall i x, bad i x = None <-> P x) -> forall l i, first_bad bad i l = None <-> Forall P l.
Proof.
  intros H. induction l as [|x l IH]; intros i; cbn; [by split|]. rewrite Forall_cons, <- (H i x). destruct (bad i x); [by split; [done|intros [? _]]|].
  rewrite IH. tauto.
Qed.

Lemma bad_mention_None i m : bad_mention i m = None <-> mention_ok m.
Proof. unfold bad_mention, mention_ok. case_bool_decide; [tauto|]. destruct (id_matches m); cbn; split; try done; [by right|by intros [?|?]]. Qed.

Lemma bad_floor_None mentions i m : bad_floor_mention mentions i m = None <-> id_matches m = true /\ m ∈ mentions.
Proof.
  unfold bad_floor_mention. destruct (id_matches m); cbn; [|by split; [done|intros [? _]]].
  case_bool_decide; cbn; [tauto|]. by split; [done|intros [_ ?]].
Qed.

Lemma sender_check_None s e : (if negb (reserved s) && negb (id_matches s) then Some e else None) = @None text <-> sender_ok s.
Proof.
  unfold sender_ok, reserved. case_bool_decide; cbn; [tauto|]. destruct (id_matches s); cbn; split; try done; [by right|by intros [?|?]].
Qed.

Lemma check_type_None t c : check_type t c = None <-> type_agrees t c.
Proof.
  unfold check_type, type_agrees. destruct (dget t _) as [p|].
  - destruct (startswith p c) eqn:E; cbn; [split; [by exists p|done]|]. split; [done|]. intros (?&[= <-]&?). congruence.
  - split; [done|]. by intros (?&?&_).
Qed.

Section props.
Context (fromisoformat : string -> option (bool * Q)) (str_of : pyval -> text).
Abbreviation validate := (validate_channel_message_event fromisoformat).
Abbreviation validate_row := (validate_channel_message_dict fromisoformat str_of).

Lemma wire_validation_accepts r :
  (forall ts, validate r = (None, Some ts) <->
     wire_envelope r /\ routing_ok r /\ parse_channel_timestamp fromisoformat (w_timestamp r) = Some ts) /\
  (forall e ts, validate r = (e, ts) -> (e = None <-> is_Some ts)).
Proof.
  unfold validate_channel_message_event. match goal with |- context[first_error ?l] => pose proof (first_error_None l) as Hl; set (checks := l) in * end.
  unfold checks in Hl. rewrite !Forall_cons, Forall_nil, !over_None, (first_bad_None _ mention_ok), (first_bad_None _ (λ m, id_matches m = true /\ m ∈ w_mentions r)),
    sender_check_None, check_type_None in Hl by (intros; apply bad_mention_None || apply bad_floor_None).
  fold checks in Hl. destruct (first_error checks) as [e|].
  - split; [|intros ? ? [= <- <-]; split; [done|by intros [? ?]]]. intros ts. split; [done|]. intros ([]&[]&_). exfalso.
    assert (Some e = None) by tauto. done.
  - assert (wire_envelope r /\ (zlength (w_floor_mentions r) <= _CHANNEL_MAX_MENTIONS)%Z /\ Forall (λ m, id_matches m = true /\ m ∈ w_mentions r) (w_floor_mentions r)) as (Hw&Hf&Hff)
      by (destruct (proj1 Hl eq_refl) as (?&?&?&?&?&?&?&?&?&?&_); split_and!; done).
    destruct (parse_channel_timestamp _ _) as [t|]; [|split; [intros ts; by split; [done|intros (_&_&?)]|intros ? ? [= <- <-]; split; [done|by intros [? ?]]]].
    case_bool_decide as Hp; cbn [negb].
    2: { split; [intros ts; split; [done|by intros (_&[]&_)]|intros ? ? [= <- <-]; split; [done|by intros [? ?]]]. }
    destruct (truthy (w_thread_parent_sender_id r)) eqn:Et; cbn [andb]; [apply truthy_true in Et|apply truthy_false in Et].
    + destruct (id_matches (w_thread_parent_sender_id r)) eqn:Ei; cbn [negb].
      * split; [intros ts; split; [intros [= <-]; split_and!; try done; split; try done; by right|by intros (_&_&[= <-])]|intros ? ? [= <- <-]; by split; [by exists t|]].
      * split; [intros ts; split; [done|intros (_&[_ _ _ [?|?]]&_); congruence]|intros ? ? [= <- <-]; split; [done|by intros [? ?]]].
    + split; [intros ts; split; [intros [= <-]; split_and!; try done; split; try done; by left|by intros (_&_&[= <-])]|intros ? ? [= <- <-]; by split; [by exists t|]].
Qed.

(** [msg] is the row of the message that [r] delivers. *)
Record row_of (msg : pydict) (r : ChannelMessageEvent) : Prop := {
  row_sender : dget "sender_id" msg = Some (VStr (w_sender_id r));
  row_content : dget_or "content" (VStr "") msg = VStr (w_content r);
  row_thread : get_or "thread_id" (VStr "") msg = VStr (w_thread_id r);
  row_mentions : get_or "mentions" (VList []) msg = VList (map VStr (w_mentions r));
  row_channel : dget "channel_id" msg = Some (VStr (w_channel_id r));
  row_id : dget_or "id" (VStr "") msg = VStr (w_message_id r);
  row_timestamp : dget_or "timestamp" (VStr "") msg = VStr (w_timestamp r);
}.

Lemma first_bad_row_mentions ms : forall i, first_bad (bad_row_mention str_of) i (map VStr ms) = None <-> Forall mention_ok ms.
Proof.
  intros i. rewrite <- (first_bad_None bad_mention mention_ok bad_mention_None ms i). revert i.
  induction ms as [|m ms IH]; intros i; [done|]. cbn [map first_bad].
  assert (bad_row_mention str_of i (VStr m) = bad_mention i m) as -> by done. by destruct (bad_mention i m).
Qed.

Lemma checked_ok checks k ts : checked checks k = (None, Some ts) <-> Forall (λ c, c = None) checks /\ k = (None, Some ts).
Proof.
  unfold checked. rewrite <- first_error_None. destruct (first_error checks); [|tauto]. split; [done|by intros [? _]].
Qed.

Lemma blank_check_None m e : (if negb (truthy (strip m)) then Some e else None) = @None text <-> strip m <> "".
Proof. destruct (truthy (strip m)) eqn:E; cbn; [apply truthy_true in E|apply truthy_false in E]; split; done || congruence. Qed.

(** The two seams enforce one contract. A message within the shared bounds is
    taken from the history exactly as it is taken off the wire, at the same
    instant, whichever way it comes; a row asks besides for an id to know it by,
    an event for its routing fields. *)
Theorem seams_agree msg r ts :
  row_of msg r ->
  validate_row msg (w_channel_type r) = (None, Some ts) /\ routing_ok r <->
  validate r = (None, Some ts) /\ strip (w_message_id r) <> "".
Proof.
  intros [H1 H2 H3 H4 H5 H6 H7]. rewrite (proj1 (wire_validation_accepts r) ts).
  unfold validate_channel_message_dict. rewrite H1, H2, H3, H4, H5, H6, H7.
  rewrite !checked_ok, !Forall_cons, !Forall_nil, !over_None, first_bad_row_mentions, sender_check_None, check_type_None, blank_check_None.
  assert (zlength (map VStr (w_mentions r)) = zlength (w_mentions r)) as -> by (unfold zlength; by rewrite length_map).
  destruct (parse_channel_timestamp _ _) as [t|].
  - split.
    + intros ((?&?&(?&?&?&_)&?&(?&?&?&_)&[= <-])&Hr). split_and!; try done. split; tauto.
    + intros (([]&?&[= <-])&?). tauto.
  - split; [intros ((?&?&_&?&_&?)&_); done|intros ((_&_&?)&_); done].
Qed.

(** ** Rejections are safe to log *)

Definition printable (s : text) : Prop := Forall (λ n, control_cp n = false) s.

Lemma printable_app a b : printable (a ++ b) <-> printable a /\ printable b.
Proof. apply Forall_app. Qed.

Lemma printable_codes s : forallb (λ c, negb (control_cp (code c))) (String.list_ascii_of_string s) = true -> printable (codes s).
Proof.
  unfold printable, codes. intros H. apply Forall_fmap. apply Forall_forall. intros c Hc. cbn.
  rewrite forallb_forall in H. apply list_elem_of_In in Hc. apply H in Hc. by apply negb_true_iff in Hc.
Qed.

Lemma hex_printable n : (n < 16)%N -> control_cp (hex_digit n) = false.
Proof. intros Hn. unfold control_cp, hex_digit. apply orb_false_iff. rewrite N.ltb_ge, N.eqb_neq. destruct (n <? 10)%N; lia. Qed.

(** What is quoted is short, and holds no control character. *)
Lemma safe_repr_bounded value : printable (_safe_repr value) /\ (length (_safe_repr value) <= 35)%nat.
Proof.
  assert (printable (concat (map escape_cp value))) as Hp.
  { apply Forall_concat, Forall_fmap, Forall_forall. intros n _. cbn. unfold escape_cp. destruct (control_cp n) eqn:E; [|by repeat constructor].
    repeat constructor; apply hex_printable; unfold control_cp in E; rewrite orb_true_iff, N.ltb_lt, N.eqb_eq in E.
    - apply N.Div0.div_lt_upper_bound. lia.
    - apply N.mod_lt. done. }
  unfold _safe_repr. match goal with |- context[if ?b then ?x else ?y] => set (shown := if b then x else y) end.
  assert (printable shown /\ (length shown <= 33)%nat) as [H1 H2].
  { unfold shown. destruct (_ <? _)%nat eqn:E.
    - split; [apply printable_app; split; [by apply Forall_take|by repeat constructor]|]. rewrite length_app, length_take. unfold _ERROR_MESSAGE_FIELD_MAX_CHARS. cbn [length]. lia.
    - split; [done|]. apply Nat.ltb_ge in E. unfold _ERROR_MESSAGE_FIELD_MAX_CHARS in E. lia. }
  split; [repeat (apply printable_app; split); try done; by repeat constructor|]. rewrite !length_app. cbn. lia.
Qed.

Lemma printable_number n : printable (number n).
Proof.
  unfold number, pretty, pretty_N. generalize (N.of_nat n). clear n. intros n. case_decide; [by apply printable_codes|].
  assert (forall s, printable (codes s) -> printable (codes (pretty_N_go n s))) as Hg; [|apply Hg; constructor].
  clear. induction (N.lt_wf_0 n) as [n _ IH]. intros s Hs. destruct (decide (n = 0)%N) as [->|Hn]; [by rewrite pretty_N_go_0|].
  rewrite pretty_N_go_step by lia. apply IH; [by apply N.div_lt; lia|]. constructor; [|done].
  unfold pretty_N_char. by repeat case_match.
Qed.

Lemma printable_exceeds what bound unit got :
  printable (codes what) -> printable (codes (" " +:+ unit +:+ " (got ")) -> printable (exceeds what bound unit got).
Proof. intros H1 H2. unfold exceeds. repeat (apply printable_app; split); try done; apply printable_number || by apply printable_codes. Qed.

Lemma printable_indexed what i : printable (codes what) -> printable (indexed what i).
Proof. intros. unfold indexed. repeat (apply printable_app; split); first [done|by apply printable_codes|apply printable_number]. Qed.

Ltac prove_printable :=
  first [assumption | apply safe_repr_bounded | apply printable_number | by apply printable_indexed, printable_codes
        | by apply printable_codes | by repeat constructor | by vm_compute; repeat constructor
        | apply printable_app; split; prove_printable].

Lemma some_printable x e : printable x -> Some x = Some e -> printable e.
Proof. by intros ? [= <-]. Qed.

Lemma printable_bad_id what shown : printable what -> printable shown -> printable (bad_id what shown).
Proof. intros. unfold bad_id. prove_printable. Qed.

Lemma first_error_printable checks e :
  Forall (λ c, forall e, c = Some e -> printable e) checks -> first_error checks = Some e -> printable e.
Proof. induction 1 as [|[x|] checks Hx _ IH]; cbn; [done| |done]. intros [= <-]. by apply Hx. Qed.

Lemma over_printable n b e' e : printable e' -> over n b e' = Some e -> printable e.
Proof. unfold over. destruct (_ <? _)%Z; [|done]. by intros ? [= <-]. Qed.

Lemma first_bad_printable {A} (bad : nat -> A -> option text) e :
  (forall i x e, bad i x = Some e -> printable e) -> forall l i, first_bad bad i l = Some e -> printable e.
Proof. intros H. induction l as [|x l IH]; intros i; cbn; [done|]. destruct (bad i x) eqn:E; [intros [= <-]; by eapply H|apply IH]. Qed.

Lemma bad_mention_printable i m e : bad_mention i m = Some e -> printable e.
Proof.
  unfold bad_mention. case_bool_decide; [done|]. destruct (id_matches m); [done|].
  apply some_printable, printable_bad_id; [by apply printable_indexed, printable_codes|apply safe_repr_bounded].
Qed.

Lemma bad_floor_printable ms i m e : bad_floor_mention ms i m = Some e -> printable e.
Proof.
  unfold bad_floor_mention. destruct (id_matches m); cbn [negb].
  - case_bool_decide; [done|]. apply some_printable. prove_printable.
  - apply some_printable, printable_bad_id; [by apply printable_indexed, printable_codes|apply safe_repr_bounded].
Qed.

Lemma check_type_printable t c e : check_type t c = Some e -> printable e.
Proof.
  unfold check_type. destruct (dget t _); [destruct (negb _); [|done]|]; apply some_printable; prove_printable.
Qed.

Lemma sender_check_printable s e :
  (if negb (reserved s) && negb (id_matches s) then Some (bad_id (codes "sender_id") (_safe_repr (codes s))) else None) = Some e -> printable e.
Proof. destruct (_ && _); [|done]. apply some_printable, printable_bad_id; [by apply printable_codes|apply safe_repr_bounded]. Qed.

#[local] Hint Resolve bad_mention_printable bad_floor_printable check_type_printable sender_check_printable : core.

(** The typed seam accepts exactly the events within every bound, with the
    instant of their timestamp; it gives an error or an instant, never both,
    never neither; and whatever the sender put in the event, the error holds no
    control character with which to forge a line of the log. *)
Theorem wire_validation_exact r :
  (forall ts, validate r = (None, Some ts) <->
     wire_envelope r /\ routing_ok r /\ parse_channel_timestamp fromisoformat (w_timestamp r) = Some ts) /\
  (forall e ts, validate r = (e, ts) -> (e = None <-> is_Some ts)) /\
  (forall e ts, validate r = (Some e, ts) -> printable e).
Proof.
  destruct (wire_validation_accepts r) as [H1 H2]. split_and!; [done|done|].
  intros e ts. unfold validate_channel_message_event. destruct (first_error _) as [e'|] eqn:E.
  - intros [= <- _]. eapply first_error_printable; [|exact E].
    repeat (apply Forall_cons; split); [..|by apply Forall_nil]; intros x Hx;
      first [by eauto | eapply over_printable; [|exact Hx]; by apply printable_exceeds; apply printable_codes
            | eapply first_bad_printable, Hx; by eauto].
  - destruct (parse_channel_timestamp _ _); [|intros Hx; apply (f_equal fst) in Hx; revert Hx; apply some_printable; unfold bad_timestamp; prove_printable].
    case_bool_decide; cbn [negb].
    + clear E; destruct (_ && _); [|done]. intros Hx. apply (f_equal fst) in Hx. revert Hx. apply some_printable, printable_bad_id; [by apply printable_codes|apply safe_repr_bounded].
    + intros Hx. apply (f_equal fst) in Hx. revert Hx. apply some_printable. prove_printable.
Qed.
End props.

(** ** Witnesses and departures *)

Definition demo_wire : ChannelMessageEvent :=
  mkWire "m1" "group:plan" "bob" "hi" "2026-05-04T00:00:00Z" "" ["a1"; "@everyone"] "always" "" 0 "user" true (Some (1 # 2)) 3 20 "i1" ["a1"] true
    "" "" false false false "bid" 0 false false "" false "internal" "group".

Definition demo_msg : pydict :=
  [("id", VStr "m1"); ("channel_id", VStr "group:plan"); ("sender_id", VStr "bob"); ("content", VStr "hi");
   ("timestamp", VStr "2026-05-04T00:00:00Z"); ("mentions", VList [VStr "a1"; VStr "@everyone"]);
   ("metadata", VDict [("interaction_id", VStr "i1")])].

(** Reads the one instant the witnesses use. *)
Definition demo_iso (s : string) : option (bool * Q) :=
  if String.eqb s "2026-05-04T00:00:00+00:00" then Some (true, 1777852800 # 1)%Q else None.

Lemma seams_agree_witness :
  validate_channel_message_event demo_iso demo_wire = (None, Some (1777852800 # 1)%Q).
Proof.
  refine (proj1 (proj1 (seams_agree demo_iso (λ _, []) demo_msg demo_wire _ _) _)); [by split|].
  split; [by vm_compute|]. split; [done| |right; left|by left].
  constructor; [|constructor]. split; [done|left].
Defined.

(** The expression's [$] also matches before a final newline, so a sender with a
    newline in his id passes; such an id equals no agent's. *)
Lemma newline_ids_pass w : participant_id w -> id_matches (w +:+ LF) = true /\ ~ participant_id (w +:+ LF).
Proof.
  intros Hw. split; [apply id_matches_spec; right; by exists w|]. intros (c&m&d&E&_&Hd&_).
  assert (forall a b x y, a +:+ String x "" = b +:+ String y "" -> x = y) as Hlast.
  { clear. induction a as [|p a IH]; intros [|q b] x y E; try (by injection E); cbn in E.
    - injection E as _ E. by destruct b.
    - injection E as _ E. by destruct a.
    - injection E as _ E. by eapply IH. }
  apply (Hlast w (String c m)) in E. by subst d.
Qed.
