(* ===== verification/ChannelIngress.v ===== *)
(** * From the wire to the agent's queue

    Models [agents/channel_wire_metadata.py], [channel_replay_event.py],
    [session_metadata.py], [ReceiveChannelMessage] of [server_servicers.py],
    [EventDispatcher.enqueue_inbound] of [dispatch.py] and
    [resolve_respond_policy] of [channel_catchup_discovery.py]: the live way of
    a message into an agent's event loop, and the event a replayed row becomes.
    The clock's offset and the parser of ISO dates are inputs. *)

From Stdlib Require Import Ascii.
From S2P Require Import Prelude PyStr PyDict PyValue Ambient PersonaEvents Cascade Classification EventLoop FactPredicates Security PromptFormat ChannelValidation.
Local Open Scope string_scope.

(** ** [channel_wire_metadata.py] *)

Definition _INTERACTION_ID_MAX_BYTES : Z := 128.
Definition WIRE_CLOSE_TRIGGER_IDLE : string := "idle".
Definition WIRE_CLOSE_TRIGGER_END_VOTES : string := "end_votes".
Definition WIRE_CLOSE_TRIGGER_STRUCTURAL : string := "structural".
Definition WIRE_CLOSE_TRIGGER_COST : string := "cost".
Definition WIRE_CLOSE_TRIGGERS : list string :=
  [WIRE_CLOSE_TRIGGER_IDLE; WIRE_CLOSE_TRIGGER_END_VOTES; WIRE_CLOSE_TRIGGER_STRUCTURAL; WIRE_CLOSE_TRIGGER_COST].
Definition WIRE_BOUNDED_CLOSE_TRIGGERS : list string := [WIRE_CLOSE_TRIGGER_STRUCTURAL; WIRE_CLOSE_TRIGGER_COST].

(** [if b: d[k] = v] *)
Definition dset_if (b : bool) (k : string) (v : pyval) (d : pydict) : pydict := if b then dset k v d else d.

Definition channel_event_payload (r : ChannelMessageEvent) : pydict :=
  let payload := [
    ("content", VStr (w_content r));
    ("channel_type", VStr (w_channel_type r));
    ("mentions", VList (map VStr (w_mentions r)));
    ("respond_policy", VStr (w_respond_policy r));
    ("thread_parent_sender_id", VStr (w_thread_parent_sender_id r));
    ("salience_gated", VBool (w_salience_gated r));
    ("threshold", match w_threshold r with Some q => VFloat q | None => VNone end);
    ("channel_size", VInt (w_channel_size r));
    ("salience_max_channel_members", VInt (w_salience_max_channel_members r));
    ("reasoning_mode", VStr (w_reasoning_mode r));
    ("reasoning_revise", VInt (w_reasoning_revise r));
    ("floor_mentions", VList (map VStr (w_floor_mentions r)));
    ("floor_mentions_resolved", VBool (w_floor_mentions_resolved r));
    ("chair_escalation", VBool (w_chair_escalation r))] in
  let payload := dset_if (w_interaction_close_notification r) "interaction_close_notification" (VBool true) payload in
  let payload := dset_if (w_chair_escalation_resynthesize r) "chair_escalation_resynthesize" (VBool true) payload in
  let payload := dset_if (w_convene r) "convene" (VBool true) payload in
  let payload := dset_if (w_close_notification_redelivery r) "close_notification_redelivery" (VBool true) payload in
  let payload := dset_if (bool_decide (w_close_notification_close_trigger r ∈ WIRE_BOUNDED_CLOSE_TRIGGERS))
                   "close_notification_close_trigger" (VStr (w_close_notification_close_trigger r)) payload in
  dset_if (w_synthesis_turn r) "synthesis_turn" (VBool true) payload.

Definition id_within (s : string) : bool := truthy s && (utf8_len s <=? _INTERACTION_ID_MAX_BYTES)%Z.

Definition _seed_validated_interaction_keys (interaction_id prev_id prev_trigger : string) (metadata : pydict) : pydict :=
  let metadata := dset_if (id_within interaction_id) "interaction_id" (VStr interaction_id) metadata in
  if id_within prev_id && bool_decide (prev_trigger ∈ WIRE_CLOSE_TRIGGERS)
  then dset "previous_interaction_close_trigger" (VStr prev_trigger) (dset "previous_interaction_id" (VStr prev_id) metadata)
  else metadata.

Definition seed_wire_metadata (r : ChannelMessageEvent) (metadata : pydict) : pydict :=
  let metadata := dset_if (truthy (w_sender_participant_type r)) "sender_participant_type" (VStr (w_sender_participant_type r)) metadata in
  let metadata := _seed_validated_interaction_keys (w_interaction_id r) (w_previous_interaction_id r)
                    (w_previous_interaction_close_trigger r) metadata in
  seed_channel_classification metadata (VStr (w_classification r)).

Definition str_field (k : string) (row : pydict) : string :=
  match dget_or k (VStr "") row with VStr s => s | _ => "" end.

Definition seed_replay_metadata (row_metadata : option pyval) (metadata : pydict) : pydict :=
  match row_metadata with
  | Some (VDict row) =>
      _seed_validated_interaction_keys (str_field "interaction_id" row) (str_field "previous_interaction_id" row)
        (str_field "previous_interaction_close_trigger" row) metadata
  | _ => metadata
  end.

(** ** [session_metadata.py] *)

Definition SESSION_METADATA_GRPC_KEY : string := "persatrix-session".
Definition PRINCIPAL_METADATA_GRPC_KEY : string := "persatrix-principal".
Definition EPOCH_METADATA_GRPC_KEY : string := "persatrix-epoch".

(** A header's value is a [str] or [bytes]. *)
Abbreviation headers := (list (string * (string + list Z))).

Fixpoint _header_from_metadata (metadata : headers) (header : string) : option string :=
  match metadata with
  | [] => None
  | (k, v) :: metadata =>
      match v with
      | inl s => if String.eqb (lower k) header && truthy s then Some s else _header_from_metadata metadata header
      | inr _ => _header_from_metadata metadata header
      end
  end.

Definition header_from (metadata : option headers) (header : string) : option string :=
  match metadata with None => None | Some m => _header_from_metadata m header end.

Definition seed_header (metadata : option headers) (header key : string) (d : pydict) : pydict :=
  match header_from metadata header with Some v => dset key (VStr v) d | None => d end.

(** ** The events *)

Section events.
Context (fromisoformat : string -> option (bool * Q)) (str_of : pyval -> text) (offset : Q).

Definition to_agent_time (wall : Q) : Q := (wall + offset)%Q.

Definition none_if_empty (s : string) : option string := if truthy s then Some s else None.

(** The event of an accepted message, with the headers of its call. *)
Definition live_event (r : ChannelMessageEvent) (publish_ts : Q) (hs : option headers) : AgentEvent :=
  let metadata := seed_wire_metadata r [("cascade_depth", VInt (w_cascade_depth r))] in
  let metadata := seed_header hs SESSION_METADATA_GRPC_KEY Session.EVENT_SESSION_METADATA_KEY metadata in
  let metadata := seed_header hs PRINCIPAL_METADATA_GRPC_KEY Principal.EVENT_PRINCIPAL_METADATA_KEY metadata in
  let metadata := seed_header hs EPOCH_METADATA_GRPC_KEY Epoch.EVENT_EPOCH_METADATA_KEY metadata in
  mkEvent CHANNEL_MESSAGE (channel_event_payload r) (Some (w_channel_id r)) (Some (w_sender_id r)) (Some (w_message_id r))
    (none_if_empty (w_thread_id r)) (to_agent_time publish_ts) metadata.

Definition as_str (v : option pyval) : option string := match v with Some (VStr s) => Some s | _ => None end.

(** The event of a row the validator accepted; [now] is the clock, should the
    timestamp not parse. *)
Definition build_replay_event (msg : pydict) (channel_id respond_policy : string) (channel : pydict) (now : Q) : AgentEvent :=
  let payload := [
    ("content", dget_or "content" (VStr "") msg);
    ("channel_type", dget_or "channel_type" (VStr "") channel);
    ("mentions", get_or "mentions" (VList []) msg);
    ("respond_policy", VStr respond_policy)] in
  let parsed := match dget "timestamp" msg with Some (VStr t) => parse_channel_timestamp fromisoformat t | _ => None end in
  let metadata := seed_replay_metadata (dget "metadata" msg) [("replay_mode", VBool true)] in
  let metadata := seed_channel_classification metadata (default VNone (dget "classification" channel)) in
  let metadata := snd (Principal.seed_principal_metadata metadata (default VNone (dget "principal_id" msg))) in
  mkEvent CHANNEL_MESSAGE payload (Some channel_id) (as_str (dget "sender_id" msg)) (as_str (dget "id" msg))
    (match get_or "thread_id" VNone msg with VStr s => Some s | _ => None end)
    (match parsed with Some t => to_agent_time t | None => now end) metadata.

(** ** [enqueue_inbound] *)

Definition _MAX_INBOUND_FALLBACK_TASKS : Z := 1000.

Record Receiver := mkReceiver {
  served_agents : list string;                    (** the servicer's [_agents] *)
  known_agents : list string;                     (** the dispatcher's *)
  loops : list (string * Loop);                   (** a tick scheduler's event loop, by agent *)
  fallback_tasks : list (string * AgentEvent);    (** in flight, without a loop *)
}.

Definition enqueue_inbound (now : Q) (target : string) (e : AgentEvent) (s : Receiver) : bool * Receiver :=
  let fallback :=
    if negb (bool_decide (target ∈ known_agents s)) then (false, s)
    else if (_MAX_INBOUND_FALLBACK_TASKS <=? zlength (fallback_tasks s))%Z then (false, s)
    else (true, mkReceiver (served_agents s) (known_agents s) (loops s) (fallback_tasks s ++ [(target, e)])%list) in
  match dget target (loops s) with
  | Some l =>
      if is_running l then
        let '(accepted, l) := enqueue FromTask now (InboundEventWake e None) l in
        (accepted, mkReceiver (served_agents s) (known_agents s) (dset target l (loops s)) (fallback_tasks s))
      else fallback
  | None => fallback
  end.

(** ** [ReceiveChannelMessage] *)

(** A refusal, or success. *)
Abbreviation ack := (option text).

Definition ReceiveChannelMessage (now : Q) (r : ChannelMessageEvent) (hs : option headers) (s : Receiver) : ack * Receiver :=
  match validate_channel_message_event fromisoformat r with
  | (Some err, _) => (Some err, s)
  | (None, None) => (Some (codes "internal: validator returned no timestamp"), s)
  | (None, Some publish_ts) =>
      match served_agents s with
      | [] => (Some (codes "no agents registered on this server"), s)
      | [target] =>
          let '(accepted, s) := enqueue_inbound now target (live_event r publish_ts hs) s in
          (if accepted then None else Some (codes "receiver overloaded: agent event-loop queue full (discard-not-block backpressure)"), s)
      | _ => (Some (codes "multi-agent server: ChannelMessageEvent has no recipient_id field; deferred to RFC 0011 PR 4a-ii"), s)
      end
  end.
End events.

(** ** [channel_catchup_discovery.py] *)

(** [None]: not a member. *)
Fixpoint resolve_respond_policy (members : list pydict) (agent_id : string) : option string :=
  match members with
  | [] => None
  | m :: members =>
      if match dget "id" m with Some v => v_eq_str v agent_id | None => false end
      then match dget "respond" m with
           | Some (VStr policy) => Some (if truthy policy then policy else "when_mentioned")
           | _ => Some "when_mentioned"
           end
      else resolve_respond_policy members agent_id
  end.

(** ** The seeds *)

Lemma dget_dset_if b k k' v d : dget k' (dset_if b k v d) = if bool_decide (k = k') then (if b then Some v else dget k' d) else dget k' d.
Proof.
  unfold dset_if. case_bool_decide as E.
  - subst. destruct b; [by rewrite dget_dset_eq|done].
  - destruct b; [by rewrite dget_dset_ne|done].
Qed.

Definition interaction_key (k : string) : bool :=
  bool_decide (k ∈ ["interaction_id"; "previous_interaction_id"; "previous_interaction_close_trigger"]).

(** What the interaction keys hold after the seed: the id when it is within the
    bound, the predecessor and its trigger both or neither. *)
Definition seeded_key (i p t k : string) : option pyval :=
  let pair := id_within p && bool_decide (t ∈ WIRE_CLOSE_TRIGGERS) in
  if bool_decide (k = "interaction_id") then if id_within i then Some (VStr i) else None
  else if bool_decide (k = "previous_interaction_id") then if pair then Some (VStr p) else None
  else if bool_decide (k = "previous_interaction_close_trigger") then if pair then Some (VStr t) else None
  else None.

Lemma seeded_keys i p t d k :
  (forall k, interaction_key k = true -> dget k d = None) ->
  dget k (_seed_validated_interaction_keys i p t d) = if interaction_key k then seeded_key i p t k else dget k d.
Proof.
  intros Hd. unfold _seed_validated_interaction_keys, seeded_key. set (b := id_within p && _).
  assert (forall k, interaction_key k = true <-> k = "interaction_id" \/ k = "previous_interaction_id" \/ k = "previous_interaction_close_trigger") as Hk.
  { intros k'. unfold interaction_key. rewrite bool_decide_eq_true, !elem_of_cons, elem_of_nil. tauto. }
  destruct (interaction_key k) eqn:Ek.
  - pose proof (Hd k Ek) as Hn. apply Hk in Ek as [-> | [-> | ->]]; destruct b;
      repeat first [rewrite dget_dset_eq | rewrite dget_dset_ne by done | rewrite dget_dset_if]; cbn;
      destruct (id_within i); done.
  - assert (k <> "interaction_id" /\ k <> "previous_interaction_id" /\ k <> "previous_interaction_close_trigger") as (?&?&?).
    { split_and!; intros ->; done. }
    destruct b; rewrite ?dget_dset_ne, dget_dset_if by done; by rewrite bool_decide_eq_false_2.
Qed.

Lemma dget_classification d s k :
  dget k (seed_channel_classification d (VStr s)) =
    if bool_decide (k = CHANNEL_CLASSIFICATION_METADATA_KEY)
    then if truthy s && (utf8_len s <=? CLASSIFICATION_MAX_BYTES)%Z then Some (VStr s) else dget k d
    else dget k d.
Proof.
  cbn [seed_channel_classification]. destruct (truthy s && _); case_bool_decide as E; subst; try done; [by rewrite dget_dset_eq|].
  by rewrite dget_dset_ne.
Qed.

Lemma dget_header hs h key d k :
  dget k (seed_header hs h key d) =
    if bool_decide (k = key) then match header_from hs h with Some v => Some (VStr v) | None => dget k d end else dget k d.
Proof.
  unfold seed_header. destruct (header_from hs h); case_bool_decide as E; subst; try done; [by rewrite dget_dset_eq|by rewrite dget_dset_ne].
Qed.

(** ** A replayed message is the live one *)

(** [channel] is the channel of [r] as the list endpoint gives it, and [msg] the
    row that carries it, with the metadata the router stamped. *)
Record history_of (channel msg : pydict) (r : ChannelMessageEvent) (hs : option headers) : Prop := {
  hist_row : row_of msg r;
  hist_type : dget_or "channel_type" (VStr "") channel = VStr (w_channel_type r);
  hist_class : dget "classification" channel = Some (VStr (w_classification r));
  hist_meta : exists row, dget "metadata" msg = Some (VDict row) /\ str_field "interaction_id" row = w_interaction_id r /\
    str_field "previous_interaction_id" row = w_previous_interaction_id r /\
    str_field "previous_interaction_close_trigger" row = w_previous_interaction_close_trigger r;
  hist_principal : exists p, header_from hs PRINCIPAL_METADATA_GRPC_KEY = Some p /\ dget "principal_id" msg = Some (VStr p) /\
    strip p = p /\ (utf8_len p <= Principal.SEEDED_PRINCIPAL_MAX_BYTES)%Z;
}.

(** The metadata both ways must carry. *)
Definition shared_metadata : list string :=
  ["interaction_id"; "previous_interaction_id"; "previous_interaction_close_trigger"; CHANNEL_CLASSIFICATION_METADATA_KEY;
   Principal.EVENT_PRINCIPAL_METADATA_KEY].

Lemma header_truthy hs h p : header_from hs h = Some p -> truthy p = true.
Proof.
  unfold header_from. destruct hs as [l|]; [|done]. induction l as [|[k [s|b]] l IH]; cbn; [done| |done].
  destruct (String.eqb _ _ && truthy s) eqn:E; [|done]. intros [= <-]. by apply andb_true_iff in E as [_ ?].
Qed.

Lemma dget_cons_ne (k k' : string) (v : pyval) d : k <> k' -> dget k ((k', v) :: d) = dget k d.
Proof. intros H. cbn [dget]. by destruct (decide _). Qed.

(** What of the live payload a replayed event carries. *)
Definition shared_payload : list string := ["content"; "channel_type"; "mentions"].

(** C19. A replayed event is the live one, cut down to what the history knows and
    marked. The row of a message, read back from the history, becomes an event
    with the type, the sender, the channel, the thread and the agent-time instant
    of the event its live delivery made, and its message id where the row has one.
    Of the live payload it carries the content, the channel's type and the
    mentions, with the respond policy of the member beside them, and no other key:
    no author of the thread's parent, no salience input, no chair or closing mark.
    Of the live metadata it carries the interaction, its predecessor with the
    trigger that closed it, the classification and the tenant, with the replay mark
    beside them, and no other key: no cascade depth, no kind of sender, no session
    and no epoch. *)
Theorem replay_parity iso offset r ts hs channel msg policy now :
  validate_channel_message_event iso r = (None, Some ts) -> history_of channel msg r hs ->
  let live := live_event offset r ts hs in
  let replayed := build_replay_event iso offset msg (w_channel_id r) policy channel now in
  event_type replayed = event_type live /\ channel_id replayed = channel_id live /\ sender_id replayed = sender_id live /\
  thread_id replayed = thread_id live /\ timestamp replayed = timestamp live /\
  message_id replayed = (if dget "id" msg then message_id live else None) /\
  (forall k, dget k (ev_payload replayed) =
     if bool_decide (k ∈ shared_payload) then dget k (ev_payload live)
     else if bool_decide (k = "respond_policy") then Some (VStr policy) else None) /\
  (forall k, dget k (metadata replayed) =
     if bool_decide (k ∈ shared_metadata) then dget k (metadata live)
     else if bool_decide (k = "replay_mode") then Some (VBool true) else None) /\
  dget "replay_mode" (metadata live) = None.
Proof.
  intros Hv [[H1 H2 H3 H4 H5 H6 H7] Ht Hc (row&Hm&Hi&Hp&Htr) (p&Hh&Hpr&Hs&Hl)].
  apply (wire_validation_accepts iso) in Hv as (_&_&Hts). intros live replayed.
  pose proof (header_truthy _ _ _ Hh) as Hpt.
  assert (metadata live = seed_header hs EPOCH_METADATA_GRPC_KEY Epoch.EVENT_EPOCH_METADATA_KEY
    (seed_header hs PRINCIPAL_METADATA_GRPC_KEY Principal.EVENT_PRINCIPAL_METADATA_KEY
    (seed_header hs SESSION_METADATA_GRPC_KEY Session.EVENT_SESSION_METADATA_KEY
      (seed_wire_metadata r [("cascade_depth", VInt (w_cascade_depth r))])))) as El by done.
  assert (metadata replayed = dset Principal.EVENT_PRINCIPAL_METADATA_KEY (VStr p)
    (seed_channel_classification (_seed_validated_interaction_keys (w_interaction_id r) (w_previous_interaction_id r)
      (w_previous_interaction_close_trigger r) [("replay_mode", VBool true)]) (VStr (w_classification r)))) as Er.
  { unfold replayed, build_replay_event. cbn [metadata]. rewrite Hc, Hpr, Hm. cbn [from_option id].
    unfold seed_replay_metadata. rewrite Hi, Hp, Htr. unfold Principal.seed_principal_metadata. rewrite Hs, Hpt. cbn [negb orb].
    destruct (_ <? _)%Z eqn:E; [apply Z.ltb_lt in E; lia|done]. }
  assert (forall k, dget k (seed_wire_metadata r [("cascade_depth", VInt (w_cascade_depth r))]) =
    dget k (seed_channel_classification (_seed_validated_interaction_keys (w_interaction_id r) (w_previous_interaction_id r)
      (w_previous_interaction_close_trigger r) (dset_if (truthy (w_sender_participant_type r)) "sender_participant_type" (VStr (w_sender_participant_type r))
        [("cascade_depth", VInt (w_cascade_depth r))])) (VStr (w_classification r)))) as Es by done.
  assert (forall k, interaction_key k = true -> dget k (dset_if (truthy (w_sender_participant_type r)) "sender_participant_type" (VStr (w_sender_participant_type r))
        [("cascade_depth", VInt (w_cascade_depth r))]) = None /\ dget k [("replay_mode", VBool true)] = None) as Hfresh.
  { intros k. unfold interaction_key. rewrite bool_decide_eq_true, !elem_of_cons, elem_of_nil, dget_dset_if.
    intros [-> | [-> | [-> | []]]]; done. }
  split_and!; try done.
  - unfold replayed, live. cbn. by rewrite H1.
  - unfold replayed, live. cbn. unfold get_or in *. destruct (dget "thread_id" msg) as [v|]; cbn.
    + destruct (vtruthy v) eqn:Ev; cbn in H3.
      * subst v. cbn in Ev. unfold none_if_empty. by rewrite Ev.
      * injection H3 as <-. destruct v; done.
    + injection H3 as <-. done.
  - unfold replayed, live. cbn. unfold dget_or in H7. destruct (dget "timestamp" msg) as [v|]; cbn in H7.
    + subst v. by rewrite Hts.
    + injection H7 as E. rewrite <- E in Hts. done.
  - unfold replayed, live. cbn. unfold dget_or in H6. destruct (dget "id" msg) as [v|]; [|done]. cbn in *. by subst.
  - intros k. unfold shared_payload. case_bool_decide as Hk.
    2:{ unfold replayed, build_replay_event. cbn [ev_payload]. rewrite !not_elem_of_cons in Hk. destruct Hk as (?&?&?&_).
        rewrite !dget_cons_ne by congruence. case_bool_decide; [by subst|]. by rewrite dget_cons_ne by congruence. }
    revert Hk. rewrite !elem_of_cons, elem_of_nil.
    assert (forall k', k' ∈ ["content"; "channel_type"; "mentions"] -> dget k' (ev_payload live) =
      dget k' [("content", VStr (w_content r)); ("channel_type", VStr (w_channel_type r)); ("mentions", VList (map VStr (w_mentions r)))]) as Hpl.
    { intros k'. unfold live, live_event, channel_event_payload. cbn [ev_payload]. rewrite !elem_of_cons, elem_of_nil, !dget_dset_if.
      intros [-> | [-> | [-> | []]]]; done. }
    unfold replayed, build_replay_event. cbn [ev_payload]. rewrite H2, H4, Ht.
    intros [-> | [-> | [-> | []]]]; by rewrite Hpl by set_solver.
  - intros k. case_bool_decide as Hk; unfold shared_metadata in Hk.
    2:{ rewrite Er. rewrite !not_elem_of_cons in Hk. destruct Hk as (?&?&?&?&?&_). rewrite dget_dset_ne by congruence.
        rewrite dget_classification, bool_decide_eq_false_2 by done. rewrite seeded_keys by (intros; by apply Hfresh).
        assert (interaction_key k = false) as ->.
        { unfold interaction_key. apply bool_decide_eq_false_2. rewrite !elem_of_cons, elem_of_nil. tauto. }
        case_bool_decide; [by subst|]. by rewrite dget_cons_ne by congruence. }
    rewrite El, Er, !dget_header, Es. rewrite !elem_of_cons, elem_of_nil in Hk.
    assert (interaction_key k = true \/ k = CHANNEL_CLASSIFICATION_METADATA_KEY \/ k = Principal.EVENT_PRINCIPAL_METADATA_KEY) as Hk' by
      (unfold interaction_key; rewrite bool_decide_eq_true, !elem_of_cons, elem_of_nil; tauto).
    destruct Hk' as [Hik|[-> | ->]].
    + assert (k <> CHANNEL_CLASSIFICATION_METADATA_KEY /\ k <> Principal.EVENT_PRINCIPAL_METADATA_KEY /\
        k <> Epoch.EVENT_EPOCH_METADATA_KEY /\ k <> Session.EVENT_SESSION_METADATA_KEY) as (?&?&?&?) by (split_and!; intros ->; done).
      rewrite !bool_decide_eq_false_2 by done. rewrite dget_dset_ne by done. rewrite !dget_classification, !bool_decide_eq_false_2 by done.
      rewrite !seeded_keys by (intros; by apply Hfresh). by rewrite Hik.
    + rewrite !bool_decide_eq_false_2 by done. rewrite dget_dset_ne, !dget_classification, !bool_decide_eq_true_2 by done.
      destruct (truthy _ && _); [done|]. rewrite !seeded_keys by (intros; by apply Hfresh). cbn. rewrite dget_dset_if. done.
    + rewrite (bool_decide_eq_false_2 (_ = Epoch.EVENT_EPOCH_METADATA_KEY)), (bool_decide_eq_true_2 (_ = Principal.EVENT_PRINCIPAL_METADATA_KEY)), Hh by done.
      by rewrite dget_dset_eq.
  - rewrite El, !dget_header, Es, dget_classification, seeded_keys by (intros; by apply Hfresh). cbn. by rewrite dget_dset_if.
Qed.

(** ** Into the queue *)

Definition running_loop (target : string) (s : Receiver) : option Loop :=
  match dget target (loops s) with Some l => if is_running l then Some l else None | None => None end.

(** The agent can take one more event: its loop runs, is not stopping and is not
    full, or it has no running loop and the tasks in flight are below the cap. *)
Definition can_take (target : string) (s : Receiver) : Prop :=
  match running_loop target s with
  | Some l => stopped l = false /\ queue_full l = false
  | None => target ∈ known_agents s /\ (zlength (fallback_tasks s) < _MAX_INBOUND_FALLBACK_TASKS)%Z
  end.

(** One event more, last in the agent's queue, or one task more; nothing else. *)
Definition took (target : string) (e : AgentEvent) (s s' : Receiver) : Prop :=
  match running_loop target s with
  | Some l => loops s' = dset target (set_queue (queue l ++ [InboundEventWake e None])%list l) (loops s) /\ fallback_tasks s' = fallback_tasks s
  | None => loops s' = loops s /\ fallback_tasks s' = (fallback_tasks s ++ [(target, e)])%list
  end.

(** No queue and no task has changed. *)
Definition queues_unchanged (s s' : Receiver) : Prop :=
  fallback_tasks s' = fallback_tasks s /\ forall k, option_map queue (dget k (loops s')) = option_map queue (dget k (loops s)).

Lemma enqueue_inbound_spec now target e s :
  let '(accepted, s') := enqueue_inbound now target e s in
  (accepted = true <-> can_take target s) /\ (accepted = true -> took target e s s') /\ (accepted = false -> queues_unchanged s s').
Proof.
  assert (queues_unchanged s s) as Hrefl by done.
  unfold enqueue_inbound, can_take, took, running_loop.
  assert (let '(accepted, s') := if negb (bool_decide (target ∈ known_agents s)) then (false, s)
     else if (_MAX_INBOUND_FALLBACK_TASKS <=? zlength (fallback_tasks s))%Z then (false, s)
     else (true, mkReceiver (served_agents s) (known_agents s) (loops s) (fallback_tasks s ++ [(target, e)])%list) in
   (accepted = true <-> target ∈ known_agents s /\ (zlength (fallback_tasks s) < _MAX_INBOUND_FALLBACK_TASKS)%Z) /\
   (accepted = true -> loops s' = loops s /\ fallback_tasks s' = (fallback_tasks s ++ [(target, e)])%list) /\
   (accepted = false -> queues_unchanged s s')) as Hfb.
  { case_bool_decide; cbn [negb]; [|split_and!; [by split; [done|intros [? _]]|done..]].
    destruct (_ <=? _)%Z eqn:E; [apply Z.leb_le in E|apply Z.leb_gt in E]; (split_and!; [split; try done; lia|done..]). }
  destruct (dget target (loops s)) as [l|] eqn:El; [|done]. destruct (is_running l); [|done]. clear Hfb.
  unfold enqueue, put_or_drop. destruct (stopped l) eqn:Es; cbn [wake_handle settle_opt].
  - rewrite dset_same by done. split_and!; [by split; [done|intros [? _]]|done|by split].
  - destruct (queue_full l) eqn:Ef; cbn [fst snd].
    + split_and!; [by split; [done|intros [_ ?]]|done|]. intros _. split; [done|]. intros k. cbn [loops].
      destruct (decide (k = target)) as [->|]; [|by rewrite dget_dset_ne]. rewrite dget_dset_eq, El. cbn.
      unfold log_queue_full. repeat case_match; done.
    + split_and!; done.
Qed.

(** The live ingress is exact. A message is acknowledged when, and only when, it
    is within every bound, one agent is served, and that agent can take it; it
    is then, once, the last of that agent's queue, as the event its wire form
    makes; in every other case no queue has changed. The tasks in flight never
    pass their cap. *)
Theorem receive_exact iso offset now r hs s :
  let '(a, s') := ReceiveChannelMessage iso offset now r hs s in
  (a = None <-> exists ts target, validate_channel_message_event iso r = (None, Some ts) /\ served_agents s = [target] /\ can_take target s) /\
  (forall ts target, a = None -> validate_channel_message_event iso r = (None, Some ts) -> served_agents s = [target] ->
     took target (live_event offset r ts hs) s s') /\
  (a <> None -> queues_unchanged s s') /\
  ((zlength (fallback_tasks s) <= _MAX_INBOUND_FALLBACK_TASKS)%Z -> (zlength (fallback_tasks s') <= _MAX_INBOUND_FALLBACK_TASKS)%Z).
Proof.
  unfold ReceiveChannelMessage.
  assert (forall e : text, (Some e = None <-> exists ts target, validate_channel_message_event iso r = (None, Some ts) /\ served_agents s = [target] /\ can_take target s) ->
    (Some e = None <-> exists ts target, validate_channel_message_event iso r = (None, Some ts) /\ served_agents s = [target] /\ can_take target s) /\
    (forall ts target, Some e = None -> validate_channel_message_event iso r = (None, Some ts) -> served_agents s = [target] ->
     took target (live_event offset r ts hs) s s) /\ (Some e <> None -> queues_unchanged s s) /\
    ((zlength (fallback_tasks s) <= _MAX_INBOUND_FALLBACK_TASKS)%Z -> (zlength (fallback_tasks s) <= _MAX_INBOUND_FALLBACK_TASKS)%Z)) as Hsame
    by (intros e He; split_and!; try done; apply He).
  revert Hsame. destruct (validate_channel_message_event iso r) as [[err|] [ts|]]; intros Hsame; try (apply Hsame; split; [done|intros (?&?&?&_); done]).
  destruct (served_agents s) as [|target [|? ?]] ; [apply Hsame; split; [done|intros (?&?&_&?&_); done]| |apply Hsame; split; [done|intros (?&?&_&?&_); done]].
  clear Hsame. pose proof (enqueue_inbound_spec now target (live_event offset r ts hs) s) as H.
  destruct (enqueue_inbound _ _ _ s) as [accepted s']. destruct H as (H1&H2&H3).
  split_and!.
  - destruct accepted; split; try done.
    + intros _. exists ts, target. split_and!; try done. by apply H1.
    + intros (?&?&[= <-]&[= <-]&Hc). by apply H1 in Hc.
  - destruct accepted; [|done]. intros ? ? _ [= <-] [= <-]. by apply H2.
  - destruct accepted; [done|]. intros _. by apply H3.
  - intros Hl. destruct accepted; [|by destruct (H3 eq_refl) as [-> _]]. specialize (H2 eq_refl). pose proof (proj1 H1 eq_refl) as Hc.
    unfold took, can_take in *. destruct (running_loop target s); [by destruct H2 as [_ ->]|]. destruct H2 as [_ ->]. unfold zlength in *.
    rewrite length_app. cbn [length]. lia.
Qed.

(** ** The block of an accepted message *)

Lemma id_matches_no_bar s : id_matches s = true -> has_char "|" s = false.
Proof.
  assert (forall m, Forall (λ x, id_char x = true) (String.list_ascii_of_string m) -> has_char "|" m = false) as Hm.
  { intros m Hf. unfold has_char. induction (String.list_ascii_of_string m) as [|x l IH]; [done|]. inversion Hf as [|? ? Hx Hl]; subst. cbn [existsb].
    rewrite IH by done. rewrite orb_false_r. apply Ascii.eqb_neq. by intros <-. }
  assert (forall a b, has_char "|" (a +:+ b) = has_char "|" a || has_char "|" b) as Happ.
  { intros a b. unfold has_char. induction a as [|c a IH]; [done|].
    change (String c a +:+ b) with (String c (a +:+ b)). cbn [existsb String.list_ascii_of_string]. by rewrite IH, orb_assoc. }
  assert (forall w, participant_id w -> has_char "|" w = false) as Hw.
  { intros w (c&m&d&->&Hc&Hd&Hf). change (String c (m +:+ String d "")) with (String c "" +:+ m +:+ String d ""). rewrite !Happ, (Hm m) by done.
    rewrite (Hm (String c "")), (Hm (String d "")); [done|..]; (apply Forall_cons; split; [unfold id_char; by rewrite ?Hc, ?Hd|by apply Forall_nil]). }
  intros [H|(w&H&->)]%id_matches_spec; [by apply Hw|]. rewrite Happ, Hw by done. done.
Qed.

(** Nobody speaks from outside his block. A message that the receiver accepts,
    put to the model as a user's, stands in a block whose only unescaped
    delimiters are its own opening and its own closing, whatever its content
    and whoever sent it. *)
Theorem accepted_message_sealed iso offset r ts hs load_snippet :
  validate_channel_message_event iso r = (None, Some ts) ->
  w_sender_participant_type r = "user" -> w_convene r = false -> w_synthesis_turn r = false -> w_chair_escalation r = false ->
  let e := live_event offset r ts hs in
  let open := String.length (block_open (w_sender_id r)) in
  let body := String.length (escape_prompt_delimiters (w_content r)) in
  exists block, format_channel_message load_snippet e (w_content r) = Ok block /\
    raws "<" "|" false 0 block = [0; open + 1 + body + 1]%nat /\
    raws "|" ">" false 0 block = [open - 2; open + 1 + body + 1 + 15]%nat.
Proof.
  intros Hv Hu Hc Hy Hx. apply (wire_validation_accepts iso) in Hv as (He&_&_). pose proof (ok_sender _ _ _ _ _ _ _ He) as Hsend. cbv zeta.
  assert (has_char "|" (w_sender_id r) = false) as Hbar.
  { destruct Hsend as [Hr|Hi]; [|by apply id_matches_no_bar]. unfold _RESERVED_DISPATCH_SENDER_IDS in Hr.
    rewrite !elem_of_cons, elem_of_nil in Hr. by destruct Hr as [-> | [-> | []]]. }
  assert (w_sender_id r <> "") as Hne.
  { intros E. destruct Hsend as [Hr|Hi]; [|by rewrite E in Hi]. unfold _RESERVED_DISPATCH_SENDER_IDS in Hr.
    rewrite E, !elem_of_cons, elem_of_nil in Hr. by destruct Hr as [? | [? | []]]. }
  exists (user_block (w_sender_id r) (w_content r)). split; [|by apply block_delimiters].
  assert (forall k, k ∈ ["convene"; "synthesis_turn"; "chair_escalation"] -> is_true (dget k (channel_event_payload r)) = false) as Hp.
  { intros k. unfold channel_event_payload. rewrite !elem_of_cons, elem_of_nil, !dget_dset_if, Hc, Hy.
    intros [-> | [-> | [-> | []]]]; cbn; [done|done|by rewrite Hx]. }
  assert (from_user (live_event offset r ts hs) = true) as Hfu.
  { unfold from_user, dget_or. enough (dget "sender_participant_type" (metadata (live_event offset r ts hs)) = Some (VStr "user")) as -> by done.
    unfold live_event, seed_wire_metadata. cbn [metadata]. rewrite !dget_header, dget_classification. cbn.
    unfold _seed_validated_interaction_keys. destruct (id_within _ && bool_decide _);
      repeat first [rewrite dget_dset_ne by done | rewrite dget_dset_if]; by rewrite Hu. }
  unfold format_channel_message. rewrite Hfu. unfold live_event. cbn [ev_payload sender_id opt_str default from_option].
  rewrite !Hp by set_solver. unfold str_or, id. by rewrite (proj2 (truthy_true _) Hne).
Qed.

(** ** Witnesses *)

Definition demo_channel : pydict := [("id", VStr "group:plan"); ("channel_type", VStr "group"); ("classification", VStr "internal")].
Definition demo_row : pydict := demo_msg ++ [("principal_id", VStr "acme")].
Definition demo_headers : option headers := Some [("Persatrix-Principal", inl "acme")].

Lemma replay_parity_witness :
  timestamp (build_replay_event demo_iso 5 demo_row "group:plan" "always" demo_channel 0) =
    timestamp (live_event 5 demo_wire (1777852800 # 1) demo_headers).
Proof.
  refine (proj1 (proj2 (proj2 (proj2 (proj2 (replay_parity demo_iso 5 demo_wire (1777852800 # 1) demo_headers demo_channel demo_row "always" 0 _ _)))))).
  - by vm_compute.
  - split; [by split|done|done| |].
    + exists [("interaction_id", VStr "i1")]. done.
    + exists "acme". done.
Defined.

Lemma accepted_message_sealed_witness :
  exists block, format_channel_message (λ _, Raise "FileNotFoundError") (live_event 0 demo_wire (1777852800 # 1) None) "hi" = Ok block /\
    raws "<" "|" false 0 block = [0; 34]%nat.
Proof.
  destruct (accepted_message_sealed demo_iso 0 demo_wire (1777852800 # 1) None (λ _, Raise "FileNotFoundError")) as (block&H1&H2&_);
    [by vm_compute|done|done|done|done|]. exists block. split; [exact H1|]. rewrite H2. by vm_compute.
Defined.
