(* ===== verification/ChannelCatchup.v ===== *)
(** * The catch-up pass of start-up

    Models [agents/channel_catchup.py] with the outcome it reports
    ([channel_replay_outcome.py]): the recent history of each channel the agent
    is in, replayed through the agent in conversational order. The three REST
    reads and the agent's handler are inputs over a world [W]; each is awaited,
    and may fail or be cut by the wall-clock budget. The agent's replay
    bookkeeping is the one of ReplayBookkeeping. *)

From S2P Require Import Prelude PyStr PyDict PyValue PersonaEvents FactPredicates ReplayBookkeeping ChannelValidation ChannelIngress.
Local Open Scope string_scope.

Definition DEFAULT_CATCHUP_LIMIT : Z := 50.

(** How an [await] ends: a value, an exception, or the budget's cancellation. *)
Inductive awaited (A : Type) := Got (a : A) | Threw (e : string) | Cancelled.
Arguments Got {A} a. Arguments Threw {A} e. Arguments Cancelled {A}.

Record ReplayPassOutcome := mkOutcome {
  completed : gset string;
  speaker_gaps : gset (string * string);
}.

(** What became of a row. *)
Inductive row_fate :=
| Malformed (reason : text)
| Predates
| Ingested (e : AgentEvent)
| Gap (e : AgentEvent) (speaker : string).

(** How a loop ends: by itself, by an exception, or cancelled. *)
Inductive ending := Finished | Escaped (e : string) | CutOff.

Record CatchupEnv (W : Type) := mkEnv {
  iso : string -> option (bool * Q);
  str_of : pyval -> text;
  clock_offset : Q;
  clock_anchor : option Q;
  clock_now : Q;
  channel_list : W -> awaited (option (list pydict)) * W;
  membership : string -> W -> awaited (option (list pydict)) * W;
  history : string -> Z -> string -> W -> awaited (option (list pyval)) * W;
  on_event : AgentEvent -> Replay * W -> awaited unit * (Replay * W);
}.
Arguments iso {W}. Arguments str_of {W}. Arguments clock_offset {W}. Arguments clock_anchor {W}. Arguments clock_now {W}.
Arguments channel_list {W}. Arguments membership {W}. Arguments history {W}. Arguments on_event {W}.

Section catchup.
Context {W : Type} (env : CatchupEnv W) (agent_id : string).

Definition predates_agent_clock (wall : Q) : bool :=
  match clock_anchor env with Some anchor => Qltb wall anchor | None => false end.

(** The speaker a gap is charged to; the empty one is the whole channel. *)
Definition gap_speaker (msg : pydict) : string := match dget "sender_id" msg with Some (VStr s) => s | _ => "" end.

(** The rows of one channel, oldest first. [complete] is [channel_complete]. *)
Fixpoint replay_rows (channel : pydict) (channel_id channel_type respond_policy : string) (msgs : list pyval)
    (complete : bool) (gaps : gset (string * string)) (fates : list row_fate) (s : Replay * W) :
    ending * bool * gset (string * string) * list row_fate * (Replay * W) :=
  match msgs with
  | [] => (Finished, complete, gaps, fates, s)
  | VDict msg :: msgs =>
      match validate_channel_message_dict (iso env) (str_of env) msg channel_type with
      | (Some err, _) => replay_rows channel channel_id channel_type respond_policy msgs complete gaps (fates ++ [Malformed err]) s
      | (None, parsed) =>
          if match parsed with Some t => predates_agent_clock t | None => false end
          then replay_rows channel channel_id channel_type respond_policy msgs complete gaps (fates ++ [Predates]) s
          else
            let e := build_replay_event (iso env) (clock_offset env) msg channel_id respond_policy channel (clock_now env) in
            match on_event env e s with
            | (Got _, s) => replay_rows channel channel_id channel_type respond_policy msgs complete gaps (fates ++ [Ingested e]) s
            | (Threw _, (r, w)) =>
                let speaker := gap_speaker msg in
                replay_rows channel channel_id channel_type respond_policy msgs
                  (if truthy speaker then complete else false)
                  (if truthy speaker then {[ (channel_id, speaker) ]} ∪ gaps else gaps)
                  (fates ++ [Gap e speaker]) (note_replay_gap channel_id speaker r, w)
            | (Cancelled, s) => (CutOff, complete, gaps, fates, s)
            end
      end
  | _ :: _ => (Escaped "AttributeError", complete, gaps, fates, s)
  end.

(** What one channel was found to be. *)
Inductive channel_fate :=
| Skipped
| Replayed (channel_id : string) (msgs : list pyval) (fates : list row_fate) (ended : ending).

Definition channel_type_of (channel : pydict) : string :=
  match dget "channel_type" channel with Some (VStr t) => t | _ => "" end.

Definition replay_channel (limit : Z) (channel : pydict) (o : ReplayPassOutcome) (s : Replay * W) :
    ending * channel_fate * ReplayPassOutcome * (Replay * W) :=
  match dget "id" channel with
  | Some (VStr channel_id) =>
      if negb (truthy channel_id) then (Finished, Skipped, o, s)
      else
        match membership env channel_id s.2 with
        | (Threw e, w) => (Escaped e, Skipped, o, (s.1, w))
        | (Cancelled, w) => (CutOff, Skipped, o, (s.1, w))
        | (Got None, w) => (Finished, Skipped, o, (s.1, w))
        | (Got (Some members), w) =>
            match resolve_respond_policy members agent_id with
            | None => (Finished, Skipped, o, (s.1, w))
            | Some policy =>
                match history env channel_id limit agent_id w with
                | (Threw e, w) => (Escaped e, Skipped, o, (s.1, w))
                | (Cancelled, w) => (CutOff, Skipped, o, (s.1, w))
                | (Got None, w) => (Finished, Skipped, o, (s.1, w))
                | (Got (Some messages), w) =>
                    let '(ended, complete, gaps, fates, s) :=
                      replay_rows channel channel_id (channel_type_of channel) policy (reverse messages) true (speaker_gaps o) [] (s.1, w) in
                    (ended, Replayed channel_id messages fates ended,
                     mkOutcome (match ended with Finished => if complete then {[ channel_id ]} ∪ completed o else completed o | _ => completed o end) gaps, s)
                end
            end
        end
  | _ => (Finished, Skipped, o, s)
  end.

(** The channels in turn, until one ends the pass. *)
Fixpoint replay_channels (limit : Z) (channels : list pydict) (o : ReplayPassOutcome) (s : Replay * W) :
    ending * list channel_fate * ReplayPassOutcome * (Replay * W) :=
  match channels with
  | [] => (Finished, [], o, s)
  | channel :: channels =>
      match replay_channel limit channel o s with
      | (Finished, f, o, s) =>
          let '(ended, fs, o, s) := replay_channels limit channels o s in (ended, f :: fs, o, s)
      | (ended, f, o, s) => (ended, [f], o, s)
      end
  end.

(** A rate-limit refusal ends the pass, quietly. *)
Definition OrchestratorRateLimitedError : string := "OrchestratorRateLimitedError".

Definition replay_channel_history_inner (limit : Z) (o : ReplayPassOutcome) (s : Replay * W) :
    ending * list channel_fate * ReplayPassOutcome * (Replay * W) :=
  match channel_list env s.2 with
  | (Threw e, w) => (Escaped e, [], o, (s.1, w))
  | (Cancelled, w) => (CutOff, [], o, (s.1, w))
  | (Got None, w) => (Finished, [], o, (s.1, w))
  | (Got (Some channels), w) =>
      match replay_channels limit channels o (s.1, w) with
      | (Escaped e, fs, o, s) => (if bool_decide (e = OrchestratorRateLimitedError) then Finished else Escaped e, fs, o, s)
      | x => x
      end
  end.

(** [replay_channel_history], with what [replay_for_persona_agents] does with an
    exception: the outcome is read whatever happened. The flag says whether the
    pass ran to its end. *)
Definition replay_channel_history (limit : Z) (s : Replay * W) : bool * list channel_fate * ReplayPassOutcome * (Replay * W) :=
  let '(ended, fs, o, s) := replay_channel_history_inner limit (mkOutcome ∅ ∅) s in
  (match ended with Finished => true | _ => false end, fs, o, s).
End catchup.

(** ** Properties *)

Section catchup_props.
Context {W : Type} (env : CatchupEnv W) (agent_id : string).

(** The fate of a row is the one its content and the clock call for; only the
    handler decides between the last two. *)
Definition fate_of (channel : pydict) (channel_id policy : string) (row : pyval) (f : row_fate) : Prop :=
  exists msg, row = VDict msg /\
    match validate_channel_message_dict (iso env) (str_of env) msg (channel_type_of channel) with
    | (Some err, _) => f = Malformed err
    | (None, parsed) =>
        if match parsed with Some t => predates_agent_clock env t | None => false end then f = Predates
        else let e := build_replay_event (iso env) (clock_offset env) msg channel_id policy channel (clock_now env) in
             f = Ingested e \/ f = Gap e (gap_speaker msg)
    end.

(** The gaps a list of fates leaves. *)
Definition leaves_gap (channel_id : string) (fates : list row_fate) (x : string * string) : Prop :=
  exists e speaker, Gap e speaker ∈ fates /\ speaker <> "" /\ x = (channel_id, speaker).

Definition unattributed (f : row_fate) : Prop := exists e, f = Gap e "".

(** Handling an event forgets no gap: within a pass the bookkeeping only grows. *)
Definition keeps_gaps : Prop :=
  forall e r w c sp, let '(_, (r', _)) := on_event env e (r, w) in
    replay_record_compromised c sp r = true -> replay_record_compromised c sp r' = true.

Lemma compromised_spec c sp r :
  replay_record_compromised c sp r = true <-> c ∈ compromised_channels r \/ (c, sp) ∈ compromised_records r.
Proof. unfold replay_record_compromised. by rewrite orb_true_iff, !bool_decide_eq_true. Qed.

Lemma note_gap_keeps c sp c' sp' r :
  replay_record_compromised c sp r = true -> replay_record_compromised c sp (note_replay_gap c' sp' r) = true.
Proof. rewrite !compromised_spec. unfold note_replay_gap. destruct (truthy sp'); cbn; set_solver. Qed.

Lemma note_gap_notes c sp r :
  replay_record_compromised c sp (note_replay_gap c sp r) = true /\
  (sp = "" -> forall sp', replay_record_compromised c sp' (note_replay_gap c sp r) = true).
Proof.
  rewrite compromised_spec. unfold note_replay_gap. destruct (truthy sp) eqn:E; cbn.
  - split; [set_solver|]. intros ->. done.
  - split; [set_solver|]. intros _ sp'. rewrite compromised_spec. cbn. set_solver.
Qed.

(** The agent knows of every gap. *)
Definition knows (channel_id : string) (fates : list row_fate) (r : Replay) : Prop :=
  forall e sp, Gap e sp ∈ fates -> replay_record_compromised channel_id sp r = true /\
    (sp = "" -> forall sp', replay_record_compromised channel_id sp' r = true).

(** What a run of the rows' loop leaves, from the state it began in: one fate for
    each row it got to. *)
Definition accounts (channel : pydict) (channel_id policy : string) (msgs : list pyval) (complete : bool) (gaps : gset (string * string))
    (fates : list row_fate) (s : Replay * W) (res : ending * bool * gset (string * string) * list row_fate * (Replay * W)) : Prop :=
  let '(ended, complete', gaps', fates', s') := res in
  exists new, fates' = (fates ++ new)%list /\ Forall2 (fate_of channel channel_id policy) (take (length new) msgs) new /\
    (ended = Finished -> length new = length msgs) /\
    (complete' = true <-> complete = true /\ Forall (λ f, ~ unattributed f) new) /\
    (forall x, x ∈ gaps' <-> x ∈ gaps \/ leaves_gap channel_id new x) /\
    (keeps_gaps -> (forall c sp, replay_record_compromised c sp s.1 = true -> replay_record_compromised c sp s'.1 = true) /\
       knows channel_id new s'.1).

Lemma no_gap_nil channel_id x : ~ leaves_gap channel_id [] x.
Proof. intros (e&sp&Hin&_). by apply elem_of_nil in Hin. Qed.

(** The loop stops here, its state having grown. *)
Lemma accounts_stop channel channel_id policy msgs complete gaps fates s ended s' :
  (ended = Finished -> msgs = []) ->
  (keeps_gaps -> forall c sp, replay_record_compromised c sp s.1 = true -> replay_record_compromised c sp s'.1 = true) ->
  accounts channel channel_id policy msgs complete gaps fates s (ended, complete, gaps, fates, s').
Proof.
  intros He Hs. exists []. rewrite app_nil_r. split_and!; [done|constructor|intros E; by rewrite (He E)|split; [by split|by intros [? _]]| |].
  - intros x. split; [by left|]. intros [?|Hx]; [done|by apply no_gap_nil in Hx].
  - intros K. split; [by apply Hs|]. intros e sp Hin. by apply elem_of_nil in Hin.
Qed.

(** One row more before it. *)
Lemma accounts_cons channel channel_id policy row msgs complete gaps fates s f complete1 gaps1 s1 res :
  fate_of channel channel_id policy row f ->
  (complete1 = true <-> complete = true /\ ~ unattributed f) ->
  (forall x, x ∈ gaps1 <-> x ∈ gaps \/ leaves_gap channel_id [f] x) ->
  (keeps_gaps -> (forall c sp, replay_record_compromised c sp s.1 = true -> replay_record_compromised c sp s1.1 = true) /\ knows channel_id [f] s1.1) ->
  accounts channel channel_id policy msgs complete1 gaps1 (fates ++ [f]) s1 res ->
  accounts channel channel_id policy (row :: msgs) complete gaps fates s res.
Proof.
  destruct res as [[[[ended complete'] gaps'] fates'] s']. intros Hf Hc Hg Hk (new&->&H1&H2&H3&H4&H5). exists (f :: new).
  rewrite <- app_assoc. split_and!; [done|by constructor|intros He; cbn; by rewrite H2| | |].
  - rewrite H3, Hc, Forall_cons. tauto.
  - intros x. rewrite H4, Hg. unfold leaves_gap. split.
    + intros [[?|(e&sp&Hin&?&?)]|(e&sp&Hin&?&?)]; [by left|right; exists e, sp; apply list_elem_of_singleton in Hin as <-; split; [left|done]|right; exists e, sp; split; [by right|done]].
    + intros [?|(e&sp&[<-|Hin]%elem_of_cons&?&?)]; [by left; left|left; right; exists e, sp; split; [left|done]|right; by exists e, sp].
  - intros K. destruct (Hk K) as [K1 K2], (H5 K) as [K3 K4]. split; [auto|].
    intros e sp [<-|Hin]%elem_of_cons; [|by apply (K4 e)]. destruct (K2 e sp) as [K5 K6]; [left|]. split; [auto|]. intros Hsp sp'. auto.
Qed.

(** A fate that is no gap adds none. *)
Lemma accounts_plain channel channel_id policy row msgs complete gaps fates s f s1 res :
  (forall e sp, f <> Gap e sp) -> fate_of channel channel_id policy row f ->
  (keeps_gaps -> forall c sp, replay_record_compromised c sp s.1 = true -> replay_record_compromised c sp s1.1 = true) ->
  accounts channel channel_id policy msgs complete gaps (fates ++ [f]) s1 res ->
  accounts channel channel_id policy (row :: msgs) complete gaps fates s res.
Proof.
  intros Hf Hfate Hs. apply accounts_cons; [done| | |].
  - split; [|by intros [? _]]. intros ?. split; [done|]. intros [e ->]. by eapply Hf.
  - intros x. split; [by left|]. intros [?|(e&sp&Hin&_)]; [done|]. apply list_elem_of_singleton in Hin as <-. by destruct (Hf e sp).
  - intros K. split; [by apply Hs|]. intros e sp Hin. apply list_elem_of_singleton in Hin as <-. by destruct (Hf e sp).
Qed.

Lemma replay_rows_spec channel channel_id policy msgs : forall complete gaps fates s,
  accounts channel channel_id policy msgs complete gaps fates s
    (replay_rows env channel channel_id (channel_type_of channel) policy msgs complete gaps fates s).
Proof.
  induction msgs as [|row msgs IH]; intros complete gaps fates s; cbn [replay_rows]; [by apply accounts_stop|].
  destruct row as [| | | | | |msg]; try by apply accounts_stop.
  assert (forall f, fate_of channel channel_id policy (VDict msg) f <->
    match validate_channel_message_dict (iso env) (str_of env) msg (channel_type_of channel) with
    | (Some err, _) => f = Malformed err
    | (None, parsed) =>
        if match parsed with Some t => predates_agent_clock env t | None => false end then f = Predates
        else let e := build_replay_event (iso env) (clock_offset env) msg channel_id policy channel (clock_now env) in
             f = Ingested e \/ f = Gap e (gap_speaker msg)
    end) as Hfate by (intros f; split; [by intros (?&[= <-]&?)|by exists msg]).
  destruct (validate_channel_message_dict _ _ _ _) as [[err|] parsed].
  { apply (accounts_plain _ _ _ _ _ _ _ _ _ (Malformed err) s); [done|by apply Hfate|done|apply IH]. }
  destruct (match parsed with Some t => predates_agent_clock env t | None => false end).
  { apply (accounts_plain _ _ _ _ _ _ _ _ _ Predates s); [done|by apply Hfate|done|apply IH]. }
  set (e := build_replay_event _ _ _ _ _ _ _) in *. destruct s as [r w].
  assert (forall o r' w', on_event env e (r, w) = (o, (r', w')) ->
    keeps_gaps -> forall c sp, replay_record_compromised c sp r = true -> replay_record_compromised c sp r' = true) as Hgrow.
  { intros o r' w' E K c sp. specialize (K e r w c sp). by rewrite E in K. }
  destruct (on_event env e (r, w)) as [[[]|x|] [r' w']]; specialize (Hgrow _ _ _ eq_refl).
  - apply (accounts_plain _ _ _ _ _ _ _ _ _ (Ingested e) (r', w')); [done|apply Hfate; by left|exact Hgrow|apply IH].
  - eapply (accounts_cons _ _ _ _ _ _ _ _ _ (Gap e (gap_speaker msg))); [apply Hfate; by right| | | |apply IH].
    + destruct (truthy (gap_speaker msg)) eqn:Et; [apply truthy_true in Et|apply truthy_false in Et].
      * split; [|by intros [? _]]. intros ?. split; [done|]. intros [e' [= _ ?]]. done.
      * split; [done|]. intros [_ H]. exfalso. apply H. exists e. by rewrite Et.
    + intros y. destruct (truthy (gap_speaker msg)) eqn:Et; [apply truthy_true in Et|apply truthy_false in Et].
      * rewrite elem_of_union, elem_of_singleton. split.
        -- intros [->|?]; [right|by left]. exists e, (gap_speaker msg). split; [left|done].
        -- intros [?|(e'&sp&Hin&_&->)]; [by right|left]. apply list_elem_of_singleton in Hin. by injection Hin as _ ->.
      * split; [by left|]. intros [?|(e'&sp&Hin&Hn&_)]; [done|]. apply list_elem_of_singleton in Hin. injection Hin as _ ->. done.
    + intros K. cbn [fst]. split; [intros c sp H; by apply note_gap_keeps, Hgrow|]. intros e' sp Hin. apply list_elem_of_singleton in Hin. injection Hin as _ ->.
      apply note_gap_notes.
  - by apply accounts_stop.
Qed.

(** A window replayed to its end, every hole in it charged to a speaker. *)
Definition whole (f : channel_fate) (channel_id : string) : Prop :=
  exists msgs fates, f = Replayed channel_id msgs fates Finished /\ Forall (λ x, ~ unattributed x) fates.

Definition charged (f : channel_fate) (x : string * string) : Prop :=
  exists channel_id msgs fates ended, f = Replayed channel_id msgs fates ended /\ leaves_gap channel_id fates x.

(** The report of a channel is true: its rows met their fates oldest first, all
    of them if the loop ended by itself. *)
Definition truthful (f : channel_fate) : Prop :=
  forall channel_id msgs fates ended, f = Replayed channel_id msgs fates ended ->
    exists channel policy, Forall2 (fate_of channel channel_id policy) (take (length fates) (reverse msgs)) fates /\
      (ended = Finished -> length fates = length msgs).

Definition known (f : channel_fate) (r : Replay) : Prop :=
  forall channel_id msgs fates ended, f = Replayed channel_id msgs fates ended -> knows channel_id fates r.

(** What a stretch of the pass does to the outcome and to the agent. *)
Definition reports (fs : list channel_fate) (o : ReplayPassOutcome) (s : Replay * W) (o' : ReplayPassOutcome) (s' : Replay * W) : Prop :=
  (forall c, c ∈ completed o' <-> c ∈ completed o \/ exists f, f ∈ fs /\ whole f c) /\
  (forall x, x ∈ speaker_gaps o' <-> x ∈ speaker_gaps o \/ exists f, f ∈ fs /\ charged f x) /\
  Forall truthful fs /\
  (keeps_gaps -> (forall c sp, replay_record_compromised c sp s.1 = true -> replay_record_compromised c sp s'.1 = true) /\
     Forall (λ f, known f s'.1) fs).

Lemma reports_nothing f o s w : f = Skipped -> reports [f] o s o (s.1, w).
Proof.
  intros ->. split_and!.
  - intros c. split; [by left|]. intros [?|(f&Hf&(?&?&E&_))]; [done|]. apply list_elem_of_singleton in Hf as ->. done.
  - intros x. split; [by left|]. intros [?|(f&Hf&(?&?&?&?&E&_))]; [done|]. apply list_elem_of_singleton in Hf as ->. done.
  - constructor; [by intros ? ? ? ?|constructor].
  - intros _. split; [done|]. constructor; [by intros ? ? ? ?|constructor].
Qed.

Lemma replay_channel_spec limit channel o s :
  let '(_, f, o', s') := replay_channel env agent_id limit channel o s in reports [f] o s o' s'.
Proof.
  unfold replay_channel. destruct s as [r w].
  destruct (dget "id" channel) as [[| | | |channel_id| |]|]; try (by apply (reports_nothing _ o (r, w) w)).
  destruct (negb (truthy channel_id)); [by apply (reports_nothing _ o (r, w) w)|]. cbn [fst snd].
  destruct (membership env channel_id w) as [[[members|]|x|] w1]; try (by apply (reports_nothing _ o (r, w) w1)).
  destruct (resolve_respond_policy members agent_id) as [policy|]; [|by apply (reports_nothing _ o (r, w) w1)].
  destruct (history env channel_id limit agent_id w1) as [[[messages|]|x|] w2]; try (by apply (reports_nothing _ o (r, w) w2)).
  pose proof (replay_rows_spec channel channel_id policy (reverse messages) true (speaker_gaps o) [] (r, w2)) as H.
  destruct (replay_rows _ _ _ _ _ _ _ _ _ _) as [[[[ended complete] gaps] fates] s']. destruct H as (new&->&H1&H2&H3&H4&H5).
  cbn [app]. split_and!; cbn [completed speaker_gaps].
  - intros c. transitivity (c ∈ completed o \/ (c = channel_id /\ ended = Finished /\ complete = true)).
    { destruct ended; [destruct complete|..]; rewrite ?elem_of_union, ?elem_of_singleton; intuition congruence. }
    split; (intros [?|H]; [by left|right]).
    + destruct H as (->&->&Hc). eexists. split; [by left|]. exists messages, new. split; [done|]. by apply H3.
    + destruct H as (f&Hf&(msgs&fates&E&Hw)). apply list_elem_of_singleton in Hf as ->. injection E as -> -> -> ->. split_and!; [done|done|]. by apply H3.
  - intros x. rewrite H4. split; (intros [?|H]; [by left|right]).
    + eexists. split; [by left|]. by exists channel_id, messages, new, ended.
    + destruct H as (f&Hf&(c&msgs&fates&e&E&Hl)). apply list_elem_of_singleton in Hf as ->. by injection E as -> -> -> ->.
  - constructor; [|constructor]. intros ? ? ? ? [= <- <- <- <-]. exists channel, policy. split; [done|]. intros He. by rewrite H2, length_reverse.
  - intros K. destruct (H5 K) as [K1 K2]. split; [done|]. constructor; [|constructor]. by intros ? ? ? ? [= <- <- <- <-].
Qed.

Lemma reports_nil o s : reports [] o s o s.
Proof.
  split_and!; [intros c|intros x|constructor|intros _; split; [done|constructor]]; (split; [by left|]);
    (intros [?|(f&Hf&_)]; [done|by apply elem_of_nil in Hf]).
Qed.

Lemma reports_trans fs1 fs2 o s o1 s1 o2 s2 : reports fs1 o s o1 s1 -> reports fs2 o1 s1 o2 s2 -> reports (fs1 ++ fs2) o s o2 s2.
Proof.
  intros (A1&A2&A3&A4) (B1&B2&B3&B4). split_and!.
  - intros c. rewrite B1, A1. setoid_rewrite elem_of_app. split.
    + intros [[?|(f&?&?)]|(f&?&?)]; [by left|right; exists f; tauto..].
    + intros [?|(f&[?|?]&?)]; [by left; left|left; right; by exists f|right; by exists f].
  - intros x. rewrite B2, A2. setoid_rewrite elem_of_app. split.
    + intros [[?|(f&?&?)]|(f&?&?)]; [by left|right; exists f; tauto..].
    + intros [?|(f&[?|?]&?)]; [by left; left|left; right; by exists f|right; by exists f].
  - by apply Forall_app.
  - intros K. destruct (A4 K) as [K1 K2], (B4 K) as [K3 K4]. split; [auto|]. apply Forall_app. split; [|done].
    eapply Forall_impl; [exact K2|]. intros f Hf c msgs fates e E e' sp Hin. destruct (Hf c msgs fates e E e' sp Hin) as [L1 L2].
    split; [auto|]. intros Hsp sp'. auto.
Qed.

Lemma replay_channels_spec limit channels : forall o s,
  let '(_, fs, o', s') := replay_channels env agent_id limit channels o s in reports fs o s o' s'.
Proof.
  induction channels as [|channel channels IH]; intros o s; cbn [replay_channels]; [apply reports_nil|].
  pose proof (replay_channel_spec limit channel o s) as H. destruct (replay_channel _ _ _ _ _ _) as [[[ended f] o1] s1].
  destruct ended; [|done..]. specialize (IH o1 s1). destruct (replay_channels _ _ _ _ _ _) as [[[ended fs] o2] s2].
  by apply (reports_trans [f] fs o s o1 s1).
Qed.

(** What the pass claims of its completeness is true, however it ends. A channel
    is reported complete exactly when its whole window was replayed and no hole
    in it is anybody's; every hole but those is charged to the speaker whose row
    made it, and to no other; every row met the fate its content calls for, in
    conversational order; and the agent itself knows of every hole, provided
    handling an event makes it forget none. *)
Theorem catchup_reports_truly limit s :
  let '(_, fs, o, s') := replay_channel_history env agent_id limit s in
  (forall c, c ∈ completed o <-> exists f, f ∈ fs /\ whole f c) /\
  (forall x, x ∈ speaker_gaps o <-> exists f, f ∈ fs /\ charged f x) /\
  Forall truthful fs /\
  (keeps_gaps -> Forall (λ f, known f s'.1) fs).
Proof.
  assert (forall fs o s', reports fs (mkOutcome ∅ ∅) s o s' -> (forall c, c ∈ completed o <-> exists f, f ∈ fs /\ whole f c) /\
    (forall x, x ∈ speaker_gaps o <-> exists f, f ∈ fs /\ charged f x) /\ Forall truthful fs /\ (keeps_gaps -> Forall (λ f, known f s'.1) fs)) as Hfin.
  { intros fs o s' (H1&H2&H3&H4). split_and!; [intros c; rewrite H1; set_solver|intros x; rewrite H2; set_solver|done|]. intros K. by apply H4. }
  unfold replay_channel_history, replay_channel_history_inner. destruct s as [r w]. cbn [fst snd].
  destruct (channel_list env w) as [[[channels|]|x|] w1].
  - pose proof (replay_channels_spec limit channels (mkOutcome ∅ ∅) (r, w1)) as H.
    destruct (replay_channels _ _ _ _ _ _) as [[[ended fs] o] s']. assert (reports fs (mkOutcome ∅ ∅) (r, w) o s') as H' by exact H.
    destruct ended; by apply Hfin.
  - apply Hfin. apply (reports_nil (mkOutcome ∅ ∅) (r, w)).
  - apply Hfin. apply (reports_nil (mkOutcome ∅ ∅) (r, w)).
  - apply Hfin. apply (reports_nil (mkOutcome ∅ ∅) (r, w)).
Qed.
End catchup_props.

(** A row that is no object ends the whole pass with an exception, the other rows
    and channels unread, where a malformed one is only dropped. *)
Lemma odd_row_escapes {W} (env : CatchupEnv W) channel channel_id policy v msgs complete gaps fates s :
  (forall d, v <> VDict d) ->
  replay_rows env channel channel_id (channel_type_of channel) policy (v :: msgs) complete gaps fates s =
    (Escaped "AttributeError", complete, gaps, fates, s).
Proof. intros H. destruct v; try done. by destruct (H d). Qed.
