(* ===== verification/ActionParser.v ===== *)
(** * From an answer of the model to actions

    Models [agents/persona_runtime/action_parser.py] and [action_validation.py]:
    finding the JSON array of a reply, bare or in a code fence beside prose, and
    checking what each action type requires. [json.loads] is a parameter. A
    payload is what the model wrote, not always an object: [LlmAction]. Floats
    are finite. *)

From Stdlib Require Import Ascii.
From S2P Require Import Prelude PyStr PyText PyDict PyValue PersonaEvents ChannelValidation.
Local Open Scope string_scope.
Local Open Scope py_scope.

(** An [AgentAction] as parsed. *)
Record LlmAction := mkLlm { la_type : ActionType; la_payload : pyval }.

(** [ActionType(value)] *)
Definition ActionType_of (v : pyval) : option ActionType :=
  match v with
  | VStr s =>
      if String.eqb s "send_channel_message" then Some SEND_CHANNEL_MESSAGE
      else if String.eqb s "complete_task" then Some COMPLETE_TASK
      else if String.eqb s "delegate" then Some DELEGATE
      else if String.eqb s "spawn_sub_agent" then Some SPAWN_SUB_AGENT
      else if String.eqb s "use_tool" then Some USE_TOOL
      else if String.eqb s "request_approval" then Some REQUEST_APPROVAL
      else if String.eqb s "grant_approval" then Some GRANT_APPROVAL
      else if String.eqb s "deny_approval" then Some DENY_APPROVAL
      else if String.eqb s "do_nothing" then Some DO_NOTHING
      else if String.eqb s "end_interaction_vote" then Some END_INTERACTION_VOTE
      else None
  | _ => None
  end.

(** ** [action_validation.py] *)

Definition _MAX_SUB_AGENT_TOKENS : Z := 100000.
Definition _MAX_SUB_AGENT_TIMEOUT_SECONDS : Z := 3600.
Definition _MAX_SUB_AGENT_LLM_CALLS : Z := 50.

(** [_AGENT_ID_RE.match]: a letter or digit, then as a participant's id; a
    newline may follow. *)
Definition agent_id_matches (s : string) : bool :=
  match s with
  | String c EmptyString => alnum c
  | String c (String d EmptyString) => (alnum c && Ascii.eqb d "010") || id_matches s
  | _ => id_matches s
  end.

(** [int(s)]: digits, single underscores between them. *)
Fixpoint int_digits (acc : Z) (s : string) : option Z :=
  match s with
  | EmptyString => Some acc
  | String c s' =>
      let n := Z.of_N (code c) in
      if ((48 <=? n) && (n <=? 57))%Z then int_digits (10 * acc + (n - 48)) s'
      else if (n =? 95)%Z then
        match s' with
        | String d s'' =>
            let m := Z.of_N (code d) in
            if ((48 <=? m) && (m <=? 57))%Z then int_digits (10 * acc + (m - 48)) s'' else None
        | EmptyString => None
        end
      else None
  end.

(** More than 4300 digits are refused. *)
Fixpoint digit_count (s : string) : Z :=
  match s with String c s => (if Ascii.eqb c "_" then 0 else 1) + digit_count s | EmptyString => 0 end.

Definition int_unsigned (s : string) : option Z :=
  match s with
  | String c _ => if Ascii.eqb c "_" || (4300 <? digit_count s)%Z then None else int_digits 0 s
  | EmptyString => None
  end.

Definition int_of_str (s : string) : option Z :=
  match strip s with
  | String c s' =>
      if Ascii.eqb c "-" then option_map Z.opp (int_unsigned s')
      else if Ascii.eqb c "+" then int_unsigned s'
      else int_unsigned (String c s')
  | EmptyString => None
  end.

(** [int(v)], [None] on [TypeError] or [ValueError]: a finite float is truncated. *)
Definition py_int (v : pyval) : option Z :=
  match v with
  | VBool b => Some (if b then 1 else 0)%Z
  | VInt z => Some z
  | VFloat q => Some (Z.quot (Qnum q) (Zpos (Qden q)))
  | VStr s => int_of_str s
  | _ => None
  end.

(** [isinstance(p.get(k), str) and p[k].strip()] *)
Definition has_text (k : string) (p : pydict) : bool :=
  match dget k p with Some (VStr s) => truthy (strip s) | _ => false end.

(** One numeric limit: removed when it is no number, clamped when above. *)
Definition clamp_limit (p : pydict) (limit : string * Z) : pydict :=
  let '(field_name, cap) := limit in
  match dget field_name p with
  | None => p
  | Some v =>
      match py_int v with
      | None => ddel field_name p
      | Some val => if (cap <? val)%Z then dset field_name (VInt cap) p else p
      end
  end.

Definition sub_agent_limits : list (string * Z) :=
  [("max_tokens", _MAX_SUB_AGENT_TOKENS); ("timeout_seconds", _MAX_SUB_AGENT_TIMEOUT_SECONDS);
   ("max_llm_calls", _MAX_SUB_AGENT_LLM_CALLS)].

Definition nothing : LlmAction := mkLlm DO_NOTHING (VDict []).

(** [p.get] on what is no object raises. *)
Definition validate_action_payload (a : LlmAction) : result string LlmAction :=
  match la_type a, la_payload a with
  | DELEGATE, VDict p =>
      match dget "agent_id" p with
      | Some (VStr agent_id) =>
          if negb (agent_id_matches agent_id) then Ok nothing
          else if negb (has_text "task" p) then Ok nothing
          else Ok a
      | _ => Ok nothing
      end
  | SEND_CHANNEL_MESSAGE, VDict p =>
      if negb (has_text "channel_id" p) then Ok nothing
      else if negb (has_text "content" p) then Ok nothing
      else Ok a
  | SPAWN_SUB_AGENT, VDict p =>
      if negb (has_text "role" p) then Ok nothing
      else if negb (has_text "task" p) then Ok nothing
      else Ok (mkLlm SPAWN_SUB_AGENT (VDict (fold_left clamp_limit sub_agent_limits p)))
  | DELEGATE, _ | SEND_CHANNEL_MESSAGE, _ | SPAWN_SUB_AGENT, _ => Raise "AttributeError"
  | _, _ => Ok a
  end.

(** ** The code fence *)

Definition is_blank (c : ascii) : bool := Ascii.eqb c " " || Ascii.eqb c "009".

Fixpoint drop_blanks (s : string) : string :=
  match s with
  | String c s' => if is_blank c then drop_blanks s' else s
  | EmptyString => s
  end.

(** An optional character. *)
Definition drop_one (x : ascii) (s : string) : string :=
  match s with String c s' => if Ascii.eqb c x then s' else s | EmptyString => s end.

Definition drop_break (s : string) : string := drop_one "010" (drop_one "013" s).

Definition ticks : string := "```".
Definition opening : string := "```json".

(** The closing of a fence: an optional line break, blanks and the ticks. *)
Definition fence_close (s : string) : option string := after_prefix ticks (drop_blanks (drop_break s)).

(** The shortest text before a closing, and what follows it. *)
Fixpoint fence_body (s : string) : option (string * string) :=
  match fence_close s with
  | Some rest => Some ("", rest)
  | None =>
      match s with
      | EmptyString => None
      | String c s' => option_map (λ '(g, rest), (String c g, rest)) (fence_body s')
      end
  end.

(** The search of a fence: the text before, its body and the text after. The
    opening gives back nothing it took: a body that is found without its line
    break is found with it. *)
Fixpoint find_fence (s : string) : option (string * string * string) :=
  match option_map (λ r, fence_body (drop_break (drop_blanks r))) (after_prefix opening s) with
  | Some (Some (g, rest)) => Some ("", g, rest)
  | _ =>
      match s with
      | EmptyString => None
      | String c s' => option_map (λ '(pre, g, rest), (String c pre, g, rest)) (find_fence s')
      end
  end.

(** ** [action_parser.py] *)

Definition break2 : string := String "010" (String "010" "").

(** The whole text as the result of the task. *)
Definition completed (text : string) : LlmAction := mkLlm COMPLETE_TASK (VDict [("result", VStr text)]).

(** The elements the loop sees; what is no iterable raises. *)
Definition iterate (v : pyval) : result string (list pyval) :=
  match v with
  | VList l => Ok l
  | VDict d => Ok (map VStr (dkeys d))
  | VStr s => Ok (map (λ c, VStr (String c "")) (String.list_ascii_of_string s))
  | _ => Raise "TypeError"
  end.

(** One element: an unknown type is skipped, [raw.get] needs an object. *)
Definition parse_action (raw : pyval) : result string (option LlmAction) :=
  match raw with
  | VDict d =>
      match ActionType_of (dget_or "action_type" (VStr "do_nothing") d) with
      | None => Ok None
      | Some t =>
          let! a := validate_action_payload (mkLlm t (dget_or "payload" (VDict []) d)) in Ok (Some a)
      end
  | _ => Raise "AttributeError"
  end.

Fixpoint parse_each (raws : list pyval) : result string (list LlmAction) :=
  match raws with
  | [] => Ok []
  | raw :: raws =>
      let! a := parse_action raw in
      let! l := parse_each raws in
      Ok (match a with Some a => a :: l | None => l end)
  end.

Definition is_vote (a : LlmAction) : bool := bool_decide (la_type a = END_INTERACTION_VOTE).

Section parse.
(** A text read, or the name of the exception raised. *)
Context (loads : string -> result string pyval).

(** [except (json.JSONDecodeError, ValueError)] *)
Definition is_value_error (x : string) : bool := bool_decide (x ∈ ["JSONDecodeError"; "ValueError"]).

(** The actions an array gives, with the prose found around it. *)
Definition actions_of (text surrounding_prose : string) (raw_actions : pyval) : result string (list LlmAction) :=
  let! raws := iterate raw_actions in
  let! actions := parse_each raws in
  match actions with
  | [] => Ok [completed text]
  | _ => Ok (if truthy surrounding_prose && existsb is_vote actions
             then actions ++ [completed surrounding_prose] else actions)%list
  end.

Definition prose_around (pre post : string) : string :=
  join_str break2 (filter (λ part, truthy part = true) (map strip [pre; post])).

Definition parse_found (text found prose : string) : result string (list LlmAction) :=
  match loads found with
  | Ok raw_actions => actions_of text prose raw_actions
  | Raise x => Raise x
  end.

Definition try_parse (text : string) : result string (list LlmAction) :=
  let stripped := strip text in
  if startswith "[" stripped then parse_found text stripped ""
  else if occurs opening stripped then
    match find_fence stripped with
    | None => Ok [completed text]
    | Some (pre, g, post) => parse_found text (strip g) (prose_around pre post)
    end
  else Ok [completed text].

(** [response.text] may be [None]. *)
Definition parse_actions (response_text : option string) : result string (list LlmAction) :=
  let text := opt_str response_text in
  match try_parse text with
  | Raise x => if is_value_error x then Ok [completed text] else Raise x
  | r => r
  end.
End parse.

(** ** The fence *)

(** The first fence marker of [s]. *)
Fixpoint first_ticks (s : string) : option (string * string) :=
  match after_prefix ticks s with
  | Some rest => Some ("", rest)
  | None =>
      match s with
      | EmptyString => None
      | String c s' => option_map (λ '(w, rest), (String c w, rest)) (first_ticks s')
      end
  end.

(** No marker inside, nor one that runs into a marker that follows. *)
Definition fenceless (s : string) : bool := negb (occurs ticks (s +:+ "``")).

Definition tickless (s : string) : bool := negb (occurs "`" s).

Lemma blank_space c : is_blank c = true -> is_space c = true.
Proof. unfold is_blank. rewrite orb_true_iff, !Ascii.eqb_eq. by intros [-> | ->]. Qed.

Lemma drop_blanks_spec s : exists w, s = w +:+ drop_blanks s /\ all_space w = true.
Proof.
  induction s as [|c s IH]; [by exists ""|]. cbn [drop_blanks]. destruct (is_blank c) eqn:E; [|by exists ""].
  destruct IH as (w&Hw&Hs). exists (String c w). rewrite app_cons, <- Hw. split; [done|].
  cbn [all_space]. by rewrite blank_space.
Qed.

Lemma drop_break_spec s : exists w, s = w +:+ drop_break s /\ all_space w = true.
Proof.
  assert (forall x s, is_space x = true -> exists w, s = w +:+ drop_one x s /\ all_space w = true) as H.
  { intros x [|c t] Hx; [by exists ""|]. cbn [drop_one]. destruct (Ascii.eqb_spec c x) as [->|]; [|by exists ""].
    exists (String x ""). cbn [all_space]. by rewrite Hx. }
  unfold drop_break. destruct (H "013"%char s) as (w&Hw&Hsw); [done|].
  destruct (H "010"%char (drop_one "013" s)) as (v&Hv&Hsv); [done|].
  exists (w +:+ v). rewrite all_space_app, Hsw, Hsv. split; [|done]. by rewrite <- app_assoc_str, <- Hv.
Qed.

Lemma first_ticks_space w rest : all_space w = true -> first_ticks (w +:+ ticks +:+ rest) = Some (w, rest).
Proof.
  induction w as [|c w IH]; [done|]. cbn [all_space]. intros [Hc Hw]%andb_true_iff. rewrite app_cons. cbn [first_ticks].
  destruct (after_prefix ticks (String c _)) as [r|] eqn:E.
  - apply after_prefix_spec in E. injection E as -> _. done.
  - by rewrite IH.
Qed.

(** The body found is the text before the first marker, but for spaces. *)
Lemma fence_body_spec s :
  match first_ticks s with
  | Some (w, rest) => exists g ws, fence_body s = Some (g, rest) /\ w = g +:+ ws /\ all_space ws = true
  | None => fence_body s = None
  end.
Proof.
  assert (forall s rest, fence_close s = Some rest -> exists ws, first_ticks s = Some (ws, rest) /\ all_space ws = true) as Hclose.
  { unfold fence_close. intros t rest H%after_prefix_spec. destruct (drop_break_spec t) as (v&Hv&Hsv).
    destruct (drop_blanks_spec (drop_break t)) as (w&Hw&Hsw). exists (v +:+ w).
    rewrite all_space_app, Hsv, Hsw. split; [|done]. rewrite Hv, Hw, H, app_assoc_str.
    apply first_ticks_space. by rewrite all_space_app, Hsv, Hsw. }
  induction s as [|c s IH]; [done|]. cbn [fence_body].
  destruct (fence_close (String c s)) as [rest|] eqn:E.
  { destruct (Hclose _ _ E) as (ws&->&Hs). by exists "", ws. }
  cbn [first_ticks]. destruct (after_prefix ticks (String c s)) as [rest|] eqn:Ep.
  { apply after_prefix_spec in Ep. rewrite Ep in E. done. }
  destruct (first_ticks s) as [[w rest]|]; cbn [option_map]; [|by rewrite IH].
  destruct IH as (g&ws&->&->&Hs). exists (String c g), ws. done.
Qed.

Lemma occurs_app_r p s t : occurs p t = true -> occurs p (s +:+ t) = true.
Proof. intros H. induction s as [|c s IH]; [done|]. rewrite app_cons. cbn [occurs]. by rewrite IH, orb_true_r. Qed.

Lemma fenceless_tail w s : fenceless (w +:+ s) = true -> fenceless s = true.
Proof.
  unfold fenceless. rewrite !negb_true_iff. intros H. destruct (occurs ticks (s +:+ "``")) eqn:E; [|done].
  rewrite <- app_assoc_str, occurs_app_r in H; done.
Qed.

Lemma first_ticks_body s post : fenceless s = true -> first_ticks (s +:+ ticks +:+ post) = Some (s, post).
Proof.
  induction s as [|c s IH]; intros H; [done|].
  assert (fenceless s = true) as Hs by (by apply (fenceless_tail (String c ""))).
  rewrite app_cons. cbn [first_ticks]. rewrite (IH Hs). cbn [option_map].
  destruct (after_prefix ticks (String c (s +:+ ticks +:+ post))) as [r|] eqn:E; [|done]. exfalso.
  apply after_prefix_spec in E. unfold fenceless in H. rewrite negb_true_iff in H.
  rewrite app_cons in H. cbn [occurs] in H. apply orb_false_iff in H as [H _].
  enough (exists r, String c (s +:+ "``") = ticks +:+ r) as Hx by (apply startswith_true in Hx; congruence).
  destruct s as [|d [|e s]].
  - injection E as -> _. by exists "".
  - injection E as -> -> _. by exists "`".
  - injection E as -> -> -> _. by exists (s +:+ "``").
Qed.

(** The opening takes spaces off the body. *)
Lemma opening_drops s : exists w, s = w +:+ drop_break (drop_blanks s) /\ all_space w = true.
Proof.
  destruct (drop_blanks_spec s) as (w&Hw&Hs), (drop_break_spec (drop_blanks s)) as (v&Hv&Hsv).
  exists (w +:+ v). rewrite all_space_app, Hs, Hsv, <- app_assoc_str, <- Hv. done.
Qed.

Lemma first_ticks_skip w s : all_space w = true ->
  first_ticks (w +:+ s) = option_map (λ '(v, rest), (w +:+ v, rest)) (first_ticks s).
Proof.
  induction w as [|c w IH]; [intros _; rewrite app_empty; by destruct (first_ticks s) as [[v rest]|]|].
  cbn [all_space]. intros [Hc Hw]%andb_true_iff. rewrite app_cons. cbn [first_ticks].
  destruct (after_prefix ticks (String c _)) as [r|] eqn:E.
  - apply after_prefix_spec in E. injection E as -> _. done.
  - rewrite IH by done. by destruct (first_ticks s) as [[v rest]|].
Qed.

Lemma tickless_cons c s : tickless (String c s) = true -> c <> "`"%char /\ tickless s = true.
Proof.
  unfold tickless. cbn [occurs]. rewrite negb_orb. intros [H ?]%andb_true_iff. split; [|done]. intros ->. by destruct s.
Qed.

(** Wherever the markers stand, on the line of the array or on their own. *)
Lemma find_fence_spec pre inner post :
  tickless pre = true -> fenceless inner = true ->
  exists g, find_fence (pre +:+ opening +:+ inner +:+ ticks +:+ post) = Some (pre, g, post) /\ strip g = strip inner.
Proof.
  intros Hp Hi. induction pre as [|c pre IH].
  - rewrite app_empty. set (s := inner +:+ ticks +:+ post).
    destruct (opening_drops s) as (w&Hw&Hsw). pose proof (first_ticks_body inner post Hi) as Hf. fold s in Hf.
    rewrite Hw, first_ticks_skip in Hf by done.
    pose proof (fence_body_spec (drop_break (drop_blanks s))) as Hb.
    destruct (first_ticks _) as [[v rest]|]; [|done]. injection Hf as Hv ->.
    destruct Hb as (g&ws&Hg&->&Hws). exists g. split.
    + assert (find_fence (opening +:+ s) =
        match option_map (λ r, fence_body (drop_break (drop_blanks r))) (after_prefix opening (opening +:+ s)) with
        | Some (Some (g, rest)) => Some ("", g, rest)
        | _ => option_map (λ '(pre, g, rest), (String "`" pre, g, rest)) (find_fence ("``json" +:+ s))
        end) as -> by reflexivity.
      rewrite after_prefix_app. cbn [option_map]. by rewrite Hg.
    + rewrite <- Hv. symmetry. by apply strip_around.
  - apply tickless_cons in Hp as [Hc Hp]. destruct (IH Hp) as (g&Hg&Hs). exists g. split; [|done].
    rewrite app_cons. cbn [find_fence].
    destruct (after_prefix opening (String c _)) as [r|] eqn:E.
    { apply after_prefix_spec in E. injection E as E _. done. }
    cbn [option_map]. by rewrite Hg.
Qed.

Lemma occurs_app_l p s t : startswith p s = true -> occurs p (s +:+ t) = true.
Proof.
  intros (r&->)%startswith_true. rewrite <- app_assoc_str. destruct (p +:+ r +:+ t) eqn:E; cbn [occurs]; rewrite <- E.
  - by rewrite startswith_app.
  - by rewrite startswith_app.
Qed.

(** ** What a reply gives *)

Section reply.
Context (loads : string -> result string pyval).

(** The exceptions [parse_actions] turns into the fallback. *)
Definition recovered (text : string) (r : result string (list LlmAction)) : result string (list LlmAction) :=
  match r with Raise x => if is_value_error x then Ok [completed text] else Raise x | r => r end.

Lemma parse_actions_try text : parse_actions loads (Some text) = recovered text (try_parse loads text).
Proof. by unfold parse_actions, recovered; cbn [opt_str default from_option id]; destruct (try_parse loads text). Qed.

Lemma strip_fenced_reply pre inner post :
  strip (pre +:+ opening +:+ inner +:+ ticks +:+ post) = lstrip pre +:+ opening +:+ inner +:+ ticks +:+ rstrip post.
Proof.
  unfold strip. change (opening +:+ inner +:+ ticks +:+ post) with (String "`" ("``json" +:+ inner +:+ ticks +:+ post)).
  rewrite lstrip_app_nonspace by done.
  assert (forall a, a +:+ String "`" ("``json" +:+ inner +:+ ticks +:+ post) =
    (a +:+ opening +:+ inner +:+ "``") +:+ String "`" post) as ->.
  { intros a. change (String "`" ("``json" +:+ inner +:+ ticks +:+ post)) with (opening +:+ inner +:+ ticks +:+ post).
    change (ticks +:+ post) with ("``" +:+ String "`" post). by rewrite <- !app_assoc_str. }
  rewrite rstrip_app_nonspace by done. rewrite <- !app_assoc_str. done.
Qed.

Lemma tickless_lstrip s : tickless s = true -> tickless (lstrip s) = true.
Proof.
  induction s as [|c s IH]; [done|]. cbn [lstrip]. destruct (is_space c); [|done]. intros [_ H]%tickless_cons. by apply IH.
Qed.

(** The three shapes of a reply. A bare array and an array in a fence are read
    alike: the fence may share a line with the array or stand on its own lines,
    with any space, and prose may surround it; the array is what is between the
    markers, and the prose around, without the empty parts, is kept beside it.
    Any other reply is, verbatim, the result of the task; so is one whose array
    is no JSON. *)
Theorem reply_shapes text :
  (startswith "[" (strip text) = true ->
   parse_actions loads (Some text) = recovered text (parse_found loads text (strip text) "")) /\
  (forall pre inner post, text = pre +:+ opening +:+ inner +:+ ticks +:+ post ->
   tickless pre = true -> startswith "[" (lstrip pre) = false -> fenceless inner = true ->
   parse_actions loads (Some text) =
     recovered text (parse_found loads text (strip inner)
       (join_str break2 (filter (λ part, truthy part = true) [strip pre; strip post])))) /\
  (startswith "[" (strip text) = false -> occurs opening (strip text) = false ->
   parse_actions loads (Some text) = Ok [completed text]).
Proof.
  rewrite parse_actions_try. unfold try_parse. split_and!.
  - by intros ->.
  - intros pre inner post -> Hp Hb Hi. rewrite strip_fenced_reply.
    assert (startswith "[" (lstrip pre +:+ opening +:+ inner +:+ ticks +:+ rstrip post) = false) as ->.
    { destruct (lstrip pre) as [|c r]; [done|]. rewrite app_cons. revert Hb. unfold startswith. cbn [String.prefix].
      destruct (ascii_dec "[" c); [by destruct r|done]. }
    assert (occurs opening (lstrip pre +:+ opening +:+ inner +:+ ticks +:+ rstrip post) = true) as ->.
    { apply occurs_app_r, occurs_app_l. reflexivity. }
    destruct (find_fence_spec (lstrip pre) inner (rstrip post)) as (g&->&->); [by apply tickless_lstrip|done|].
    unfold prose_around. cbn [map]. by rewrite strip_lstrip, strip_rstrip.
  - by intros -> ->.
Qed.
End reply.

(** ** What is checked *)

Lemma fold_clamp_other limits p k : k ∉ map fst limits -> dget k (fold_left clamp_limit limits p) = dget k p.
Proof.
  revert p. induction limits as [|[f cap] limits IH]; intros p Hk; [done|]. cbn [map fst] in Hk.
  apply not_elem_of_cons in Hk as [Hne Hk]. cbn [fold_left]. rewrite IH by done. unfold clamp_limit.
  repeat case_match; rewrite ?dget_ddel_ne, ?dget_dset_ne by congruence; done.
Qed.

Lemma dwf_clamp limits p : dwf p -> dwf (fold_left clamp_limit limits p).
Proof.
  revert p. induction limits as [|[f cap] limits IH]; intros p Hp; [done|]. cbn [fold_left]. apply IH.
  unfold clamp_limit. repeat case_match; auto using dwf_ddel, dwf_dset.
Qed.

(** What the executor relies on. *)
Definition well_formed (a : LlmAction) : Prop :=
  match la_type a with
  | DELEGATE => exists p id, la_payload a = VDict p /\
      dget "agent_id" p = Some (VStr id) /\ agent_id_matches id = true /\ has_text "task" p = true
  | SEND_CHANNEL_MESSAGE => exists p, la_payload a = VDict p /\ has_text "channel_id" p = true /\ has_text "content" p = true
  | SPAWN_SUB_AGENT => exists p, la_payload a = VDict p /\ has_text "role" p = true /\ has_text "task" p = true /\
      forall f cap v, (f, cap) ∈ sub_agent_limits -> dget f p = Some v -> exists n, py_int v = Some n /\ (n <= cap)%Z
  | _ => True
  end.

Lemma completed_well_formed text : well_formed (completed text).
Proof. done. Qed.

(** ** What a reply says *)

(** The members of the enumeration. *)
Definition type_value (t : ActionType) : string :=
  match t with
  | SEND_CHANNEL_MESSAGE => "send_channel_message" | COMPLETE_TASK => "complete_task" | DELEGATE => "delegate"
  | SPAWN_SUB_AGENT => "spawn_sub_agent" | USE_TOOL => "use_tool" | REQUEST_APPROVAL => "request_approval"
  | GRANT_APPROVAL => "grant_approval" | DENY_APPROVAL => "deny_approval" | DO_NOTHING => "do_nothing"
  | END_INTERACTION_VOTE => "end_interaction_vote"
  end.

Lemma ActionType_of_exact v t : ActionType_of v = Some t <-> v = VStr (type_value t).
Proof.
  split; [|intros ->; by destruct t]. destruct v; try done. unfold ActionType_of.
  repeat match goal with |- context [String.eqb s ?x] =>
    destruct (String.eqb_spec s x) as [->|]; [by intros [= <-]|] end. done.
Qed.

(** The array's text in a stripped reply and the prose around it: a reply that
    opens with a bracket is the array; else it is what stands between the first
    opening of a fence and the first marker after it. *)
Definition fenced_at (s pre inner post : string) : Prop :=
  s = pre +:+ opening +:+ inner +:+ ticks +:+ post /\
  (forall a b, s = a +:+ opening +:+ b -> (String.length pre <= String.length a)%nat) /\
  (forall a b, inner +:+ ticks +:+ post = a +:+ ticks +:+ b -> (String.length inner <= String.length a)%nat).

Definition beside (before after : string) : string :=
  match before, after with "", q => q | p, "" => p | p, q => p +:+ break2 +:+ q end.

Inductive array_in (s : string) : string -> string -> Prop :=
| array_bare : startswith "[" s = true -> array_in s s ""
| array_fenced pre inner post :
    startswith "[" s = false -> fenced_at s pre inner post ->
    array_in s (strip inner) (beside (strip pre) (strip post)).

(** The fields a type requires. *)
Definition complete (t : ActionType) (payload : pyval) : Prop :=
  match t with
  | DELEGATE => exists p id, payload = VDict p /\
      dget "agent_id" p = Some (VStr id) /\ agent_id_matches id = true /\ has_text "task" p = true
  | SEND_CHANNEL_MESSAGE => exists p, payload = VDict p /\ has_text "channel_id" p = true /\ has_text "content" p = true
  | SPAWN_SUB_AGENT => exists p, payload = VDict p /\ has_text "role" p = true /\ has_text "task" p = true
  | _ => True
  end.

(** [q] is [p] with no limit above its cap and none that is no number. *)
Definition limited (p q : pydict) : Prop :=
  (forall k, k ∉ map fst sub_agent_limits -> dget k q = dget k p) /\
  forall f cap, (f, cap) ∈ sub_agent_limits ->
    dget f q = match dget f p with
               | Some v => match py_int v with
                           | Some n => Some (if (cap <? n)%Z then VInt cap else v)
                           | None => None
                           end
               | None => None
               end.

(** The action an element writes. *)
Definition writes (t : ActionType) (payload : pyval) (a : LlmAction) : Prop :=
  (~ complete t payload /\ a = nothing) \/
  (complete t payload /\
   match t with
   | SPAWN_SUB_AGENT => exists p q, payload = VDict p /\ a = mkLlm t (VDict q) /\ limited p q
   | _ => a = mkLlm t payload
   end).

(** Objects read in order: one whose type is no member is passed over. *)
Inductive reads : list pyval -> list LlmAction -> Prop :=
| reads_nil : reads [] []
| reads_skip d raws l :
    (forall t, dget_or "action_type" (VStr "do_nothing") d <> VStr (type_value t)) ->
    reads raws l -> reads (VDict d :: raws) l
| reads_action d t a raws l :
    dget_or "action_type" (VStr "do_nothing") d = VStr (type_value t) ->
    writes t (dget_or "payload" (VDict []) d) a ->
    reads raws l -> reads (VDict d :: raws) (a :: l).

Lemma fold_clamp_value limits p f cap : NoDup (map fst limits) -> dwf p -> (f, cap) ∈ limits ->
  dget f (fold_left clamp_limit limits p) =
    match dget f p with
    | Some v => match py_int v with Some n => Some (if (cap <? n)%Z then VInt cap else v) | None => None end
    | None => None
    end.
Proof.
  revert p. induction limits as [|[g c] limits IH]; intros p Hd Hp Hin; [by apply not_elem_of_nil in Hin|].
  cbn [map fst] in Hd. apply NoDup_cons in Hd as [Hg Hd]. cbn [fold_left].
  apply elem_of_cons in Hin as [[= -> ->]|Hin].
  - rewrite fold_clamp_other by done. unfold clamp_limit. destruct (dget g p) as [w|] eqn:E; [|done].
    destruct (py_int w) as [n|] eqn:En; [|by rewrite dget_ddel_eq].
    destruct (c <? n)%Z; [by rewrite dget_dset_eq|done].
  - assert (f <> g) as Hne by (intros ->; apply Hg, list_elem_of_fmap; by exists (g, cap)).
    rewrite IH by (try done; exact (dwf_clamp [(g, c)] p Hp)).
    pose proof (fold_clamp_other [(g, c)] p f) as H. cbn [fold_left map fst] in H. rewrite H; [done|].
    by intros ->%list_elem_of_singleton.
Qed.

Lemma clamp_limited p : dwf p -> limited p (fold_left clamp_limit sub_agent_limits p).
Proof.
  intros Hp. split; [intros k; apply fold_clamp_other|]. intros f cap. apply fold_clamp_value; [|done].
  cbn. repeat constructor; set_solver.
Qed.

(** A field that is not there. *)
Ltac lacking :=
  let H := fresh in intros H; repeat match type of H with ex _ => destruct H as [? H] end;
  destruct_and? H; simplify_eq; congruence.

Lemma validate_writes t v a : py_wf v -> validate_action_payload (mkLlm t v) = Ok a -> writes t v a.
Proof.
  unfold validate_action_payload, writes. cbn [la_type la_payload]. intros Hw.
  destruct t, v as [| | | | | |p]; try done; try (intros [= <-]; by right); cbn [complete].
  - destruct (has_text "channel_id" p) eqn:E1; [|intros [= <-]; left; split; [lacking|done]].
    destruct (has_text "content" p) eqn:E2; [|intros [= <-]; left; split; [lacking|done]].
    intros [= <-]. right. eauto.
  - destruct (dget "agent_id" p) as [[| | | |id| |]|] eqn:E;
      try (intros [= <-]; left; split; [intros (?&?&[= <-]&?&_); congruence|done]).
    destruct (agent_id_matches id) eqn:Ei; [|intros [= <-]; left; split; [lacking|done]].
    destruct (has_text "task" p) eqn:Et; [|intros [= <-]; left; split; [lacking|done]].
    intros [= <-]. right. eauto 10.
  - destruct (has_text "role" p) eqn:E1; [|intros [= <-]; left; split; [lacking|done]].
    destruct (has_text "task" p) eqn:E2; [|intros [= <-]; left; split; [lacking|done]].
    intros [= <-]. right. split; [eauto|]. eexists p, _. split_and!; [done..|]. apply clamp_limited, Hw.
Qed.

Lemma payload_wf d : py_wf (VDict d) -> py_wf (dget_or "payload" (VDict []) d).
Proof.
  intros Hd. unfold dget_or. destruct (dget "payload" d) as [v|] eqn:E; cbn [default from_option id].
  - by apply dget_Some_elem, (py_wf_dict_elem d) in E.
  - split; [by apply NoDup_nil|done].
Qed.

Lemma parse_each_reads raws actions : Forall py_wf raws -> parse_each raws = Ok actions -> reads raws actions.
Proof.
  revert actions. induction raws as [|raw raws IH]; intros actions Hw; cbn [parse_each].
  { intros [= <-]. constructor. }
  apply Forall_cons in Hw as [Hr Hw]. rewrite rbind_Ok. intros (o&Ho&(l&Hl&[= <-])%rbind_Ok).
  specialize (IH l Hw Hl). unfold parse_action in Ho. destruct raw as [| | | | | |d]; try done.
  destruct (ActionType_of _) as [t|] eqn:Et.
  - apply ActionType_of_exact in Et. apply rbind_Ok in Ho as (a&Ha&[= <-]).
    eapply reads_action; [done| |done]. apply validate_writes; [by apply payload_wf|done].
  - injection Ho as <-. apply reads_skip; [|done]. intros t H%ActionType_of_exact. congruence.
Qed.

(** ** Where the array stands *)

Lemma app_split_str (a b c d : string) : a +:+ b = c +:+ d -> (String.length a <= String.length c)%nat ->
  exists x, c = a +:+ x /\ b = x +:+ d.
Proof.
  revert c. induction a as [|h a IH]; intros c; [rewrite app_empty; intros -> _; by exists c|].
  destruct c as [|h' c]; rewrite ?app_empty; cbn [String.length]; [lia|].
  rewrite !app_cons. intros [= -> H] Hl. destruct (IH c H ltac:(lia)) as (x&->&->). exists x. by rewrite app_cons.
Qed.

Lemma first_ticks_found a b : first_ticks (a +:+ ticks +:+ b) <> None.
Proof.
  induction a as [|c a IH]; [done|]. rewrite app_cons. cbn [first_ticks].
  destruct (after_prefix ticks _); [done|]. by destruct (first_ticks (a +:+ ticks +:+ b)) as [[]|].
Qed.

Lemma first_ticks_least s w rest : first_ticks s = Some (w, rest) ->
  s = w +:+ ticks +:+ rest /\ forall a b, s = a +:+ ticks +:+ b -> (String.length w <= String.length a)%nat.
Proof.
  revert w. induction s as [|c s IH]; intros w; [done|]. cbn [first_ticks].
  destruct (after_prefix ticks (String c s)) as [r|] eqn:E.
  { intros [= <- <-]. apply after_prefix_spec in E. split; [done|]. cbn. lia. }
  destruct (first_ticks s) as [[v r]|]; [|done]. cbn [option_map]. intros [= <- <-].
  destruct (IH v eq_refl) as [-> Hmin]. split; [by rewrite app_cons|]. intros [|d a] b H.
  { rewrite app_empty in H. apply after_prefix_spec in H. congruence. }
  rewrite app_cons in H. injection H as <- H. apply Hmin in H. cbn. lia.
Qed.

Lemma fence_body_none s : fence_body (drop_break (drop_blanks s)) = None -> first_ticks s = None.
Proof.
  intros H. destruct (opening_drops s) as (w&->&Hw). revert H. set (d := drop_break _). clearbody d. intros H.
  rewrite first_ticks_skip by done. pose proof (fence_body_spec d) as Hb.
  destruct (first_ticks d) as [[v r]|]; [|done]. destruct Hb as (g&ws&?&_). congruence.
Qed.

Lemma find_fence_at s pre g post : find_fence s = Some (pre, g, post) ->
  exists inner, fenced_at s pre inner post /\ strip g = strip inner.
Proof.
  revert pre. induction s as [|c s IH]; intros pre; [done|]. cbn [find_fence].
  destruct (after_prefix opening (String c s)) as [r|] eqn:Ea; cbn [option_map].
  - apply after_prefix_spec in Ea. destruct (fence_body _) as [[g' rest]|] eqn:Eb.
    + intros [= <- <- <-]. destruct (opening_drops r) as (w&Hw&Hsw).
      pose proof (fence_body_spec (drop_break (drop_blanks r))) as Hb.
      destruct (first_ticks (drop_break _)) as [[v rest']|] eqn:Ef; [|congruence].
      destruct Hb as (g&ws&Hg&->&Hws). rewrite Eb in Hg. injection Hg as -> ->.
      assert (first_ticks r = Some (w +:+ (g +:+ ws), rest')) as Hr by (by rewrite Hw, first_ticks_skip, Ef).
      destruct (first_ticks_least _ _ _ Hr) as [Hr' Hmin]. exists (w +:+ (g +:+ ws)). split.
      * unfold fenced_at. rewrite <- Hr', Ea. split_and!; [done|cbn; lia|done].
      * symmetry. by apply strip_around.
    + apply fence_body_none in Eb. intros H. destruct (find_fence s) as [[[pre' g'] post']|]; [|done]. exfalso. injection H as _ -> ->.
      destruct (IH _ eq_refl) as (inner&(Hs&_&_)&_). clear IH.
      change (String c s = String "`" ("``json" +:+ r)) in Ea. injection Ea as _ ->.
      assert ("``json" +:+ r = (pre' +:+ opening +:+ inner) +:+ (ticks +:+ post)) as H
        by (by rewrite Hs, <- !app_assoc_str).
      apply app_split_str in H as (x&_&->); [by apply first_ticks_found in Eb|].
      clear. change (opening +:+ inner) with ("```json" +:+ inner).
      induction pre' as [|c pre' IH]; [rewrite app_empty, !app_cons; cbn [String.length]; lia|].
      rewrite app_cons. cbn [String.length] in *. lia.
  - destruct (find_fence s) as [[[pre' g'] post']|]; [|done]. cbn [option_map]. intros [= <- <- <-].
    destruct (IH _ eq_refl) as (inner&(->&Hmin&Hin)&Hg). exists inner. split; [|done].
    split_and!; [by rewrite app_cons| |done]. intros [|d a] b H.
    { rewrite app_empty in H. apply after_prefix_spec in H. congruence. }
    rewrite app_cons in H. injection H as <- H. apply Hmin in H. cbn. lia.
Qed.

Lemma find_fence_found a i post : find_fence (a +:+ opening +:+ i +:+ ticks +:+ post) <> None.
Proof.
  induction a as [|c a IH].
  - rewrite app_empty. set (r := i +:+ ticks +:+ post).
    change (opening +:+ r) with (String "`" ("``json" +:+ r)). cbn [find_fence].
    change (String "`" ("``json" +:+ r)) with (opening +:+ r). rewrite after_prefix_app. cbn [option_map].
    destruct (fence_body _) as [[g rest]|] eqn:E; [done|]. apply fence_body_none in E.
    by apply first_ticks_found in E.
  - rewrite app_cons. cbn [find_fence].
    destruct (option_map _ (after_prefix opening _)) as [[[]|]|]; [done|..];
      by destruct (find_fence _) as [[[]]|].
Qed.

Lemma prose_around_beside pre post : prose_around pre post = beside (strip pre) (strip post).
Proof.
  unfold prose_around. cbn [map]. set (x := strip pre). set (y := strip post).
  rewrite !filter_cons. destruct x, y; cbn; rewrite ?app_empty_r; done.
Qed.

Lemma parse_each_raises raws x : parse_each raws = Raise x -> is_value_error x = false.
Proof.
  induction raws as [|raw raws IH]; [done|]. cbn [parse_each]. destruct (parse_action raw) as [o|y] eqn:E; cbn [rbind].
  - destruct (parse_each raws) as [l|y]; cbn [rbind]; [done|]. intros [= <-]. by apply IH.
  - intros [= <-]. revert E. unfold parse_action. destruct raw as [| | | | | |d]; try by intros [= <-].
    destruct (ActionType_of _) as [t|]; [|done]. destruct (validate_action_payload _) as [a|z] eqn:E; [done|].
    intros [= <-]. revert E. unfold validate_action_payload. cbn [la_type la_payload].
    destruct t; repeat case_match; try done; by intros [= <-].
Qed.

Lemma actions_of_raises text prose v x : actions_of text prose v = Raise x -> is_value_error x = false.
Proof.
  unfold actions_of. destruct (iterate v) as [raws|y] eqn:E; cbn [rbind].
  - destruct (parse_each raws) as [l|y] eqn:El; cbn [rbind]; [by destruct l|]. intros [= <-].
    by apply parse_each_raises in El.
  - intros [= <-]. revert E. by destruct v; intros [= <-].
Qed.

Section sound.
Context (loads : string -> result string pyval).

(** The reply stands as the result of the task: no array is in it, or what is
    there is no JSON, or it holds nothing of a known type. *)
Definition unread (text : string) : Prop :=
  (forall found prose, ~ array_in (strip text) found prose) \/
  exists found prose, array_in (strip text) found prose /\
    match loads found with
    | Ok v => v = VDict [] \/ v = VStr "" \/ exists raws, v = VList raws /\ reads raws []
    | Raise x => is_value_error x = true
    end.

(** The actions of a reply, from its text. *)
Inductive replies (text : string) : list LlmAction -> Prop :=
| replies_text : unread text -> replies text [completed text]
| replies_actions found prose raws parsed :
    array_in (strip text) found prose -> loads found = Ok (VList raws) -> reads raws parsed -> parsed <> [] ->
    replies text (parsed ++ (if truthy prose && existsb is_vote parsed then [completed prose] else []))%list.

Hypothesis Hloads : forall s v, loads s = Ok v -> py_wf v.

Lemma actions_of_replies text found prose v actions :
  array_in (strip text) found prose -> loads found = Ok v -> actions_of text prose v = Ok actions ->
  replies text actions.
Proof.
  intros Ha Hl. unfold actions_of. intros (raws&Hi&(parsed&Hp&H)%rbind_Ok)%rbind_Ok.
  assert (v = VList raws /\ reads raws parsed \/ (v = VDict [] \/ v = VStr "") /\ parsed = []) as [[-> Hr]|[Hv ->]].
  { destruct v as [| | | |s|l|d]; cbn [iterate] in Hi; try done; injection Hi as <-.
    - right. destruct s; [|done]. injection Hp as <-. auto.
    - left. split; [done|]. apply parse_each_reads; [|done]. apply py_wf_list. by apply Hloads in Hl.
    - right. destruct d as [|[k w] d]; [|done]. injection Hp as <-. auto. }
  - destruct parsed as [|a parsed].
    + injection H as <-. apply replies_text. right. exists found, prose. rewrite Hl. eauto 6.
    + injection H as <-. pose proof (replies_actions text found prose raws (a :: parsed) Ha Hl Hr) as Hx.
      destruct (_ && _); rewrite ?app_nil_r in Hx; by apply Hx.
  - injection H as <-. apply replies_text. right. exists found, prose. rewrite Hl. split; [done|].
    destruct Hv; auto.
Qed.

Lemma parse_replies text actions : parse_actions loads text = Ok actions -> replies (opt_str text) actions.
Proof.
  assert (forall t found prose, array_in (strip t) found prose ->
    match parse_found loads t found prose with
    | Ok l => replies t l
    | Raise x => is_value_error x = true -> replies t [completed t]
    end) as Hf.
  { intros t found prose Ha. unfold parse_found. destruct (loads found) as [v|x] eqn:E.
    - destruct (actions_of t prose v) as [l|x] eqn:Eo; [by eapply actions_of_replies|].
      rewrite (actions_of_raises t prose v x Eo). done.
    - intros Hx. apply replies_text. right. exists found, prose. by rewrite E. }
  set (t := opt_str text). unfold parse_actions. fold t. intros H.
  assert (match try_parse loads t with
          | Ok l => replies t l | Raise x => is_value_error x = true -> replies t [completed t] end) as Ht.
  { unfold try_parse. destruct (startswith "[" (strip t)) eqn:Eb; [by apply Hf, array_bare|].
    assert ((forall a b, strip t <> a +:+ opening +:+ b) -> replies t [completed t]) as Hno.
    { intros Hno. apply replies_text. left. intros f p Ha. destruct Ha as [Ha|pre i post _ (Hs&_)]; [congruence|].
      by apply Hno in Hs. }
    destruct (occurs opening (strip t)) eqn:Eo.
    - destruct (find_fence (strip t)) as [[[pre g] post]|] eqn:Ef.
      + destruct (find_fence_at _ _ _ _ Ef) as (inner&Hi&->). rewrite prose_around_beside.
        apply Hf. by apply array_fenced.
      + apply replies_text. left. intros f p Ha. destruct Ha as [Ha|pre i post _ (Hs&_)]; [congruence|].
        rewrite Hs in Ef. by apply find_fence_found in Ef.
    - apply Hno. intros a b Hs. rewrite Hs in Eo.
      rewrite (occurs_app_r opening a) in Eo; [done|]. by apply occurs_app_l. }
  destruct (try_parse loads t) as [l|x]; [by injection H as <-|].
  destruct (is_value_error x); [|done]. injection H as <-. by apply Ht.
Qed.

Lemma written_well_formed t v a : writes t v a -> well_formed a.
Proof.
  intros [[_ ->]|[Hc Ha]]; [done|]. unfold well_formed. destruct t; try (by subst a); cbn in *.
  destruct Ha as (p&q&->&->&Hk&Hl). destruct Hc as (p'&[= <-]&Hr&Ht). cbn. exists q. split; [done|].
  unfold has_text. rewrite !Hk by (rewrite list_elem_of_In; cbn; naive_solver). split_and!; [done..|].
  intros f cap w Hin. rewrite (Hl f cap Hin). destruct (dget f p) as [x|]; [|done].
  destruct (py_int x) as [n|] eqn:En; [|done]. intros [= <-]. destruct (Z.ltb_spec cap n).
  - exists cap. split; [done|lia].
  - by exists n.
Qed.

Lemma replies_well_formed text actions : replies text actions -> actions <> [] /\ Forall well_formed actions.
Proof.
  intros [|found prose raws parsed _ _ Hr Hn]; [split; [done|by repeat constructor]|].
  split; [by destruct parsed|]. apply Forall_app. split; [|destruct (_ && _); by repeat constructor].
  clear Hn. induction Hr; [constructor|done|]. constructor; [by eapply written_well_formed|done].
Qed.

Lemma parsed_well_formed text actions : parse_actions loads text = Ok actions -> actions <> [] /\ Forall well_formed actions.
Proof. intros H. by apply (replies_well_formed (opt_str text)), parse_replies. Qed.

End sound.

Section total.
Context (loads : string -> result string pyval).

(** An array of objects, whose payloads are objects. *)
Definition actions_shaped (v : pyval) : Prop :=
  exists ds, v = VList (map VDict ds) /\ Forall (λ d, exists p, dget_or "payload" (VDict []) d = VDict p) ds.

Lemma parse_each_total ds : Forall (λ d, exists p, dget_or "payload" (VDict []) d = VDict p) ds ->
  is_ok (parse_each (map VDict ds)) = true.
Proof.
  induction 1 as [|d ds [p Hp] _ IH]; [done|]. cbn [map parse_each parse_action].
  destruct (parse_each (map VDict ds)) as [l|]; [|done]. clear IH.
  destruct (ActionType_of _) as [t|]; cbn [rbind]; [|done]. rewrite Hp.
  destruct (validate_action_payload _) as [a|] eqn:E; cbn [rbind]; [done|].
  exfalso. revert E. unfold validate_action_payload. cbn [la_type la_payload]. by destruct t; repeat case_match.
Qed.

(** No reply is lost to the parser where the model keeps to the schema: if what
    is read is an array of objects with object payloads, or no JSON at all,
    parsing answers. *)
Theorem parse_total text
    (H : forall s, match loads s with Ok v => actions_shaped v | Raise x => is_value_error x = true end) :
  exists actions, parse_actions loads text = Ok actions.
Proof.
  assert (forall found prose, match parse_found loads (opt_str text) found prose with Ok _ => True | Raise x => is_value_error x = true end) as Hf.
  { intros found prose. unfold parse_found. pose proof (H found) as Hl. destruct (loads found) as [v|x]; [|done].
    destruct Hl as (ds&->&Hd). unfold actions_of. cbn [iterate rbind]. pose proof (parse_each_total ds Hd) as Ht.
    destruct (parse_each _) as [[|a l]|]; by cbn [rbind]. }
  unfold parse_actions, try_parse. destruct (startswith _ _).
  - specialize (Hf (strip (opt_str text)) ""). destruct (parse_found _ _ _ _); [eauto|]. rewrite Hf. eauto.
  - destruct (occurs _ _); [|eauto]. destruct (find_fence _) as [[[pre g] post]|]; [|eauto].
    specialize (Hf (strip g) (prose_around pre post)). destruct (parse_found _ _ _ _); [eauto|]. rewrite Hf. eauto.
Qed.
End total.

(** A single object in a fence, not wrapped in an array, is JSON that the loop
    iterates by its keys: the error escapes the fallback the parser promises. *)
Lemma object_answer_raises :
  let loads s := if String.eqb s "{}" then Ok (VDict [("action_type", VStr "do_nothing")]) else Raise "JSONDecodeError" in
  parse_actions loads (Some "```json {} ```") = Raise "AttributeError".
Proof. reflexivity. Qed.

Definition demo_vote : pyval := VList [VDict [("action_type", VStr "end_interaction_vote")]].
Definition demo_loads (s : string) : result string pyval :=
  if String.eqb s "[v]" then Ok demo_vote else Raise "JSONDecodeError".
Definition demo_reply : string := "Done." +:+ opening +:+ " [v] " +:+ ticks +:+ " Bye ".

Lemma demo_reply_parsed :
  parse_actions demo_loads (Some demo_reply) =
  Ok [mkLlm END_INTERACTION_VOTE (VDict []); completed ("Done." +:+ break2 +:+ "Bye")].
Proof. vm_compute. reflexivity. Qed.

Lemma demo_loads_wf s v : demo_loads s = Ok v -> py_wf v.
Proof.
  unfold demo_loads. destruct (String.eqb s "[v]"); [|done]. intros [= <-]. cbn. split_and!; try done.
  apply NoDup_singleton.
Qed.

Lemma reply_shapes_witness :
  parse_actions demo_loads (Some demo_reply) =
  recovered demo_reply (parse_found demo_loads demo_reply (strip " [v] ") ("Done." +:+ break2 +:+ "Bye")).
Proof.
  destruct (reply_shapes demo_loads demo_reply) as (_&H&_). rewrite (H "Done." " [v] " " Bye "); reflexivity.
Defined.


Lemma parse_total_witness : exists actions, parse_actions demo_loads (Some demo_reply) = Ok actions.
Proof.
  apply parse_total. intros s. unfold demo_loads. destruct (String.eqb s "[v]"); [|reflexivity].
  exists [[("action_type", VStr "end_interaction_vote")]]. split; [reflexivity|].
  constructor; [by exists []|constructor].
Defined.
