(* ===== verification/DelegationCodec.v ===== *)
(** * The delegation envelopes on the wire

    Models [to_json], [from_context_value], [from_metadata_value] and [to_dict] of
    [agents/sub_agents/delegation.py], on parsed JSON: what is written is the
    payload with its keys sorted, what is read is a JSON value. [str(v)] of a
    value that is not text and [float(s)] of text are arguments. JSON numbers are
    finite and exact here, and the lists of text of a record hold text: a decoded
    list with another value in it is [NotText]. *)

From S2P Require Import Prelude PyStr PyDict PySort PyValue PyFloat PyJson Delegation ActionParser.
Local Open Scope string_scope.
Local Open Scope py_scope.

Definition DELEGATION_REQUEST_KEY := "_delegation_request".
Definition DELEGATION_RESULT_KEY := "_delegation_result".
Definition MAX_CONTEXT_PACKAGE_BYTES : Z := 256 * 1024.

(** A decoding fails on the contract, with another exception, or leaves the records
    of this model. *)
Inductive codec_error := ContractError (what : string) | OtherError (exception : string) | NotText.

Definition contract {A} (r : result delegation_error A) : result codec_error A :=
  match r with
  | Ok a => Ok a
  | Raise (DelegationContractError w) => Raise (ContractError w)
  | Raise DelegationFailure => Raise (OtherError "DelegationFailure")
  end.

(** ** Conversions *)

Section codec.
Context (str_of : pyval -> string) (float_of_str : string -> option pyfloat).

(** [str(v)] *)
Definition to_str (v : pyval) : string := match v with VStr s => s | _ => str_of v end.

(** [float(v)] *)
Definition to_float (v : pyval) : result codec_error pyfloat :=
  match v with
  | VBool b => Ok (Fin (if b then 1 else 0))
  | VInt z => if int_overflows z then Raise (OtherError "OverflowError") else Ok (Fin (inject_Z z))
  | VFloat q => Ok (Fin q)
  | VStr s => match float_of_str s with Some x => Ok x | None => Raise (OtherError "ValueError") end
  | _ => Raise (OtherError "TypeError")
  end.

(** [int(v)] *)
Definition to_int (v : pyval) : result codec_error Z :=
  match py_int v with
  | Some z => Ok z
  | None => Raise (OtherError match v with VStr _ => "ValueError" | _ => "TypeError" end)
  end.

(** [tuple(v or ())] *)
Definition to_tuple (v : pyval) : result codec_error (list pyval) :=
  if negb (vtruthy v) then Ok []
  else match v with
       | VList l => Ok l
       | VStr s => Ok (map (λ c, VStr (String c EmptyString)) (String.list_ascii_of_string s))
       | VDict d => Ok (map VStr (dkeys d))
       | _ => Raise (OtherError "TypeError")
       end.

Fixpoint texts (l : list pyval) : result codec_error (list string) :=
  match l with
  | [] => Ok []
  | VStr s :: l => let! t := texts l in Ok (s :: t)
  | _ => Raise NotText
  end.

(** The two items of a member of a sequence of pairs. *)
Definition pair_of (v : pyval) : result codec_error (pyval * pyval) :=
  match v with
  | VList l => match l with [a; b] => Ok (a, b) | _ => Raise (OtherError "ValueError") end
  | VStr (String a (String b EmptyString)) => Ok (VStr (String a EmptyString), VStr (String b EmptyString))
  | VStr _ => Raise (OtherError "ValueError")
  | VDict d => match dkeys d with [a; b] => Ok (VStr a, VStr b) | _ => Raise (OtherError "ValueError") end
  | _ => Raise (OtherError "TypeError")
  end.

Fixpoint dict_of_pairs (l : list pyval) (d : pydict) : result codec_error pydict :=
  match l with
  | [] => Ok d
  | v :: l =>
      let! (k, x) := pair_of v in
      match k with
      | VStr k => dict_of_pairs l (dset k x d)
      | VList _ | VDict _ => Raise (OtherError "TypeError")
      | _ => Raise NotText
      end
  end.

(** [dict(v or {})] *)
Definition to_dict_value (v : pyval) : result codec_error pydict :=
  if negb (vtruthy v) then Ok []
  else match v with
       | VDict d => Ok d
       | VList l => dict_of_pairs l []
       | VStr s => dict_of_pairs (map (λ c, VStr (String c EmptyString)) (String.list_ascii_of_string s)) []
       | _ => Raise (OtherError "TypeError")
       end.

(** ** The result *)

Definition float_val (x : pyfloat) : option pyval := match x with Fin q => Some (VFloat q) | _ => None end.
Definition opt_str (o : option string) : pyval := match o with Some s => VStr s | None => VNone end.
Definition str_list (l : list string) : pyval := VList (map VStr l).

(** [MemoryWriteEntry.to_dict]; [None] where a number is not finite. *)
Definition entry_to_dict (e : MemoryWriteEntry) : option pyval :=
  importance ← float_val (importance e);
  ttl ← match ttl_seconds e with Some t => float_val t | None => Some VNone end;
  Some (VDict
    [("tier", VStr (tier e)); ("key", VStr (key e)); ("content", VStr (Delegation.content e)); ("importance", importance);
     ("ttl_seconds", ttl); ("tags", str_list (tags e)); ("merge_strategy", VStr (merge_strategy e));
     ("source_agent", opt_str (source_agent e))]).

Definition result_to_data (r : DelegationResult) : option pyval :=
  writes ← mapM entry_to_dict (memory_writes r);
  Some (VDict
    [("version", VInt 1); ("summary", VStr (summary r)); ("status", VStr (status r)); ("artifacts", artifacts r);
     ("decisions", str_list (decisions r)); ("memory_writes", VList writes); ("risks", str_list (risks r))]).

(** [float(v) if v is not None else None] *)
Definition to_ttl (v : pyval) : result codec_error (option pyfloat) :=
  match v with VNone => Ok None | _ => let! x := to_float v in Ok (Some x) end.

(** A [source_agent] that is no text counts for being there, not for its value. *)
Definition entry_of (v : pyval) : result codec_error MemoryWriteEntry :=
  match v with
  | VDict raw =>
      let! importance := to_float (dget_or "importance" (VFloat (1 # 2)) raw) in
      let! ttl := to_ttl (dget_or "ttl_seconds" VNone raw) in
      let! tags := to_tuple (dget_or "tags" VNone raw) in
      let! tags := texts tags in
      Ok (mkEntry (to_str (dget_or "tier" (VStr "") raw)) (to_str (dget_or "key" (VStr "") raw)) (to_str (dget_or "content" (VStr "") raw))
            importance ttl tags (to_str (dget_or "merge_strategy" (VStr "replace") raw))
            (match dget_or "source_agent" VNone raw with VNone => None | v => Some (to_str v) end))
  | _ => Raise (ContractError "memory_writes")
  end.

Fixpoint write_entries_of (l : list pyval) : result codec_error (list MemoryWriteEntry) :=
  match l with
  | [] => Ok []
  | v :: l => let! e := entry_of v in let! es := write_entries_of l in Ok (e :: es)
  end.

(** [from_metadata_value], from the parsed text; [None] where it is not JSON. *)
Definition result_of_data (data : option pyval) : result codec_error DelegationResult :=
  match data with
  | Some (VDict data) =>
      let! writes := match dget_or "memory_writes" VNone data with
                     | VList l => Ok l
                     | v => if vtruthy v then Raise (ContractError "memory_writes") else Ok []
                     end in
      let! entries := write_entries_of writes in
      let! artifacts := to_dict_value (dget_or "artifacts" VNone data) in
      let! decisions := to_tuple (dget_or "decisions" VNone data) in
      let! risks := to_tuple (dget_or "risks" VNone data) in
      let! decisions := texts decisions in
      let! risks := texts risks in
      let r := mkResult (to_str (dget_or "summary" (VStr "") data)) (to_str (dget_or "status" (VStr "") data)) (VDict artifacts)
                 decisions entries risks in
      let! _ := contract (validate_result r) in
      Ok r
  | _ => Raise (ContractError "payload")
  end.

(** ** The request *)

Definition request_to_data (r : DelegationRequest) : option pyval :=
  timeout ← float_val (timeout_seconds (budget r));
  ceiling ← float_val (trust_ceiling r);
  Some (VDict
    [("version", VInt 1); ("objective", VStr (objective r)); ("acceptance_criteria", str_list (acceptance_criteria r));
     ("context_package", VDict (context_package r));
     ("budget", VDict [("tokens", VInt (tokens (budget r))); ("timeout_seconds", timeout); ("max_llm_calls", VInt (max_llm_calls (budget r)))]);
     ("allowed_tools", str_list (py_sorted String.leb (allowed_tools r))); ("output_schema", VDict (output_schema r));
     ("trust_ceiling", ceiling); ("max_memory_writes", VInt (max_memory_writes r))]).

(** [frozenset(l)], kept in order. *)
Definition frozenset (l : list string) : list string := py_sorted String.leb (remove_dups l).

Definition request_of_data (data : option pyval) : result codec_error DelegationRequest :=
  match data with
  | Some (VDict data) =>
      let! raw := match dget_or "budget" VNone data with
                  | VDict d => Ok d
                  | v => if vtruthy v then Raise (ContractError "budget") else Ok []
                  end in
      let! tk := to_int (dget_or "tokens" (VInt 0) raw) in
      let! ts := to_float (dget_or "timeout_seconds" (VFloat 0) raw) in
      let! calls := to_int (dget_or "max_llm_calls" (VInt 0) raw) in
      let! envelope := contract (BudgetEnvelope_new tk ts calls) in
      let! criteria := to_tuple (dget_or "acceptance_criteria" VNone data) in
      let! package := to_dict_value (dget_or "context_package" VNone data) in
      let! tools := to_tuple (dget_or "allowed_tools" VNone data) in
      let! _ := if existsb (λ v, match v with VList _ | VDict _ => true | _ => false end) tools then Raise (OtherError "TypeError") else Ok tt in
      let! schema := to_dict_value (dget_or "output_schema" VNone data) in
      let! ceiling := to_float (dget_or "trust_ceiling" (VFloat (8 # 10)) data) in
      let! writes := to_int (dget_or "max_memory_writes" (VInt DEFAULT_MAX_MEMORY_WRITES) data) in
      let! objective := match dget_or "objective" (VStr "") data with
                        | VStr s => Ok s
                        | v => if vtruthy v then Raise (OtherError "AttributeError") else Raise (ContractError "objective")
                        end in
      let! criteria := texts criteria in
      let! tools := texts tools in
      let r := mkRequest objective criteria package envelope (frozenset tools) schema ceiling writes in
      let! _ := contract (validate_request r) in
      Ok r
  | _ => Raise (ContractError "payload")
  end.
End codec.

(** ** Records come back *)

(** No field holds a number JSON has not, and no object repeats a key. *)
Definition finite (x : pyfloat) : Prop := match x with Fin _ => True | _ => False end.

Definition entry_encodable (e : MemoryWriteEntry) : Prop :=
  finite (importance e) /\ match ttl_seconds e with Some t => finite t | None => True end.

Definition result_encodable (r : DelegationResult) : Prop :=
  Forall entry_encodable (memory_writes r) /\ match artifacts r with VDict d => dwf d | _ => True end.

Definition request_encodable (r : DelegationRequest) : Prop :=
  finite (timeout_seconds (budget r)) /\ finite (trust_ceiling r) /\ dwf (context_package r) /\ dwf (output_schema r) /\
  (0 <= tokens (budget r))%Z /\ flt (timeout_seconds (budget r)) (Fin 0) = false /\ (0 <= max_llm_calls (budget r))%Z /\
  frozenset (allowed_tools r) = allowed_tools r.

(** The records [sort_keys] leaves: the keys of the free objects are in order. *)
Definition sorted_dict (d : pydict) : pydict := match sort_keys (VDict d) with VDict d => d | _ => [] end.

Definition sorted_result (r : DelegationResult) : DelegationResult :=
  mkResult (summary r) (status r) (sort_keys (artifacts r)) (decisions r) (memory_writes r) (risks r).

Definition sorted_request (r : DelegationRequest) : DelegationRequest :=
  mkRequest (objective r) (acceptance_criteria r) (sorted_dict (context_package r)) (budget r) (allowed_tools r)
    (sorted_dict (output_schema r)) (trust_ceiling r) (max_memory_writes r).

Section roundtrip.
Context (str_of : pyval -> string) (float_of_str : string -> option pyfloat).

(** Reading a field of a sorted object. *)
Lemma dget_or_holds d d' k dft v : holds d d' -> dget k d = Some v -> dget_or k dft d' = sort_keys v.
Proof. intros Hh Hd. unfold dget_or. by rewrite Hh, Hd. Qed.

Lemma sort_str_list l : sort_keys (str_list l) = str_list l.
Proof. unfold str_list. cbn [sort_keys]. rewrite map_map. by f_equal. Qed.

Lemma tuple_str_list l : (let! t := to_tuple (str_list l) in texts t) = Ok l.
Proof.
  assert (texts (map VStr l) = Ok l) as Ht by (induction l as [|s l IH]; [done|]; cbn [map texts]; by rewrite IH).
  destruct l as [|s l]; [done|]. exact Ht.
Qed.

(** The two steps of a tuple of text, wherever other steps come between. *)
Lemma tuple_str_list_steps l : exists t, to_tuple (str_list l) = Ok t /\ texts t = Ok l.
Proof. pose proof (tuple_str_list l) as H. apply rbind_Ok in H as (t&Ht&H). by exists t. Qed.

Lemma to_dict_value_dict d : to_dict_value (VDict d) = Ok d.
Proof. by destruct d. Qed.

(** Rewrites each field of the sorted object with the value it was written with. *)
Ltac read_fields Hh :=
  repeat (erewrite (dget_or_holds _ _ _ _ _ Hh); [|reflexivity]); cbn [sort_keys to_str].

Lemma entry_roundtrip e v : entry_encodable e -> entry_to_dict e = Some v ->
  entry_of str_of float_of_str (sort_keys v) = Ok e.
Proof.
  intros [Hi Ht] He. destruct e as [tr ky ct im tl tg st sa]. unfold entry_to_dict in He. cbn in Hi, Ht.
  destruct im as [im| | |]; try done. cbn [importance float_val mbind option_bind ttl_seconds] in He.
  assert (exists tv, match tl with Some t => float_val t | None => Some VNone end = Some tv /\ sort_keys tv = tv /\
    to_ttl float_of_str tv = Ok tl) as (tv&Htv&Hsv&Hdv).
  { destruct tl as [[t| | |]|]; try done; by eexists. }
  rewrite Htv in He. injection He as <-. edestruct sort_keys_holds as (d'&->&Hh&_); [apply (bool_decide_unpack _); vm_compute; done|].
  cbn [entry_of]. read_fields Hh. rewrite Hsv, Hdv. cbn [to_float rbind tier key Delegation.content merge_strategy source_agent tags].
  change (VList (map sort_keys (map VStr tg))) with (sort_keys (str_list tg)). rewrite sort_str_list.
  destruct (tuple_str_list_steps tg) as (t&->&Hx). cbn [rbind]. rewrite Hx. cbn [rbind]. by destruct sa.
Qed.

Lemma entries_roundtrip es vs : Forall entry_encodable es -> mapM entry_to_dict es = Some vs ->
  write_entries_of str_of float_of_str (map sort_keys vs) = Ok es.
Proof.
  intros Hf Hm. apply mapM_Some in Hm. revert Hf. induction Hm as [|e v es vs He Hm IH]; intros Hf; [done|].
  apply Forall_cons in Hf as [Hf Hfs]. cbn [map write_entries_of]. rewrite (entry_roundtrip e v Hf He). cbn [rbind]. by rewrite (IH Hfs).
Qed.

Lemma entries_encode es : Forall entry_encodable es -> exists vs, mapM entry_to_dict es = Some vs.
Proof.
  induction 1 as [|e es [Hi Ht] Hes [vs IH]]; [by exists []|]. cbn [mapM].
  assert (exists v, entry_to_dict e = Some v) as [v Hv]; [|rewrite Hv; cbn [mbind option_bind]; rewrite IH; by eexists].
  unfold entry_to_dict. destruct (importance e); try done. cbn [float_val mbind option_bind].
  destruct (ttl_seconds e) as [[]|]; try done; by eexists.
Qed.

(** A result the contract admits reads back as it was written, but for the order of
    the keys of its artifacts, which the writer sorts. *)
Lemma result_reads_back r arts : validate_result r = Ok arts -> result_encodable r ->
  exists v, result_to_data r = Some v /\ result_of_data str_of float_of_str (Some (sort_keys v)) = Ok (sorted_result r).
Proof.
  intros Hv [He Hd]. destruct (entries_encode _ He) as [vs Hvs]. unfold result_to_data. rewrite Hvs. cbn [mbind option_bind].
  eexists. split; [done|]. destruct r as [su st ar de mw ri]. cbn [summary status artifacts decisions memory_writes risks] in *.
  edestruct sort_keys_holds as (d'&->&Hh&_); [apply (bool_decide_unpack _); vm_compute; done|].
  cbn [result_of_data]. read_fields Hh. cbn [rbind].
  rewrite (entries_roundtrip mw vs) by done. cbn [rbind].
  unfold validate_result in Hv. cbn [status artifacts] in Hv. destruct (negb _) eqn:Es; [done|]. destruct ar as [| | | | | |ar]; try done.
  edestruct (sort_keys_holds ar) as (ar'&Ha&_&_); [done|].
  change (to_dict_value (sort_keys (VDict ar))) with (to_dict_value (sort_keys (VDict ar))). rewrite Ha.
  change (VList (map sort_keys (map VStr de))) with (sort_keys (str_list de)). change (VList (map sort_keys (map VStr ri))) with (sort_keys (str_list ri)).
  rewrite !sort_str_list, to_dict_value_dict. cbn [rbind].
  destruct (tuple_str_list_steps de) as (td&->&Hde), (tuple_str_list_steps ri) as (tr&->&Hri). cbn [rbind]. rewrite Hde, Hri. cbn [rbind].
  unfold validate_result. cbn [status artifacts]. rewrite Es. cbn [contract rbind]. unfold sorted_result. cbn [summary status artifacts decisions memory_writes risks].
  by rewrite Ha.
Qed.

Lemma remove_dups_id (l : list string) : NoDup l -> remove_dups l = l.
Proof. induction 1 as [|x l Hx Hl IH]; [done|]. cbn [remove_dups]. case_decide; [done|]. by rewrite IH. Qed.

Lemma frozen_sorted l : frozenset l = l -> py_sorted String.leb l = l.
Proof.
  intros H. assert (NoDup l) as Hn by (rewrite <- H; unfold frozenset; rewrite py_sorted_perm; apply NoDup_remove_dups).
  unfold frozenset in H. by rewrite (remove_dups_id l Hn) in H.
Qed.

Lemma sorted_dict_eq d : sort_keys (VDict d) = VDict (sorted_dict d).
Proof. done. Qed.

Lemma objects_not_in_texts l : existsb (λ v, match v with VList _ | VDict _ => true | _ => false end) (map VStr l) = false.
Proof. by induction l. Qed.

Lemma to_tuple_str_list l : to_tuple (str_list l) = Ok (map VStr l).
Proof. by destruct l. Qed.

Lemma texts_map l : texts (map VStr l) = Ok l.
Proof. induction l as [|s l IH]; [done|]. cbn [map texts]. by rewrite IH. Qed.

(** The same for a request. *)
Lemma request_reads_back r : validate_request r = Ok tt -> request_encodable r ->
  exists v, request_to_data r = Some v /\ request_of_data float_of_str (Some (sort_keys v)) = Ok (sorted_request r).
Proof.
  intros Hv (Hts&Htc&Hcp&Hos&Htk&Htp&Hcl&Hfr). destruct r as [ob ac cp [tk ts cl] at_ os tc mw].
  cbn [budget timeout_seconds trust_ceiling context_package output_schema tokens max_llm_calls allowed_tools] in *.
  destruct ts as [ts| | |]; try done. destruct tc as [tc| | |]; try done. unfold request_to_data.
  cbn [budget timeout_seconds trust_ceiling context_package output_schema tokens max_llm_calls allowed_tools float_val mbind option_bind objective acceptance_criteria max_memory_writes].
  rewrite (frozen_sorted at_ Hfr). eexists. split; [done|].
  edestruct sort_keys_holds as (d'&->&Hh&_); [apply (bool_decide_unpack _); vm_compute; done|].
  edestruct (sort_keys_holds [("tokens", VInt tk); ("timeout_seconds", VFloat ts); ("max_llm_calls", VInt cl)]) as (b'&Eb&Hb&_);
    [apply (bool_decide_unpack _); vm_compute; done|].
  cbn [request_of_data]. repeat (erewrite (dget_or_holds _ _ _ _ _ Hh); [|reflexivity]). rewrite Eb. cbn [rbind].
  repeat (erewrite (dget_or_holds _ _ _ _ _ Hb); [|reflexivity]). rewrite !sort_str_list, !sorted_dict_eq, !to_dict_value_dict, !to_tuple_str_list.
  cbn [sort_keys]. change (to_int (VInt tk)) with (@Ok codec_error Z tk). change (to_int (VInt cl)) with (@Ok codec_error Z cl).
  change (to_int (VInt mw)) with (@Ok codec_error Z mw). cbn [to_float rbind].
  assert (BudgetEnvelope_new tk (Fin ts) cl = Ok (mkBudget tk (Fin ts) cl)) as ->.
  { unfold BudgetEnvelope_new. rewrite Htp. by destruct (Z.ltb_spec tk 0), (Z.ltb_spec cl 0); try lia. }
  cbn [contract rbind]. rewrite objects_not_in_texts. cbn [rbind]. rewrite !texts_map. cbn [rbind]. rewrite Hfr.
  change (validate_request _) with (validate_request (mkRequest ob ac cp (mkBudget tk (Fin ts) cl) at_ os (Fin tc) mw)).
  rewrite Hv. done.
Qed.
End roundtrip.

(** What a reader lets through has passed the contract. *)
Lemma request_of_data_valid float_of_str data r : request_of_data float_of_str data = Ok r -> validate_request r = Ok tt.
Proof.
  unfold request_of_data. destruct data as [[| | | | | |data]|]; try done. intros H.
  repeat (match type of H with rbind _ _ = _ => idtac end;
          let x := fresh "x" in let Hx := fresh "Hx" in apply rbind_Ok in H as (x & Hx & H); cbv beta in H).
  injection H as <-. match goal with Hx : contract (validate_request ?r) = Ok _ |- _ => destruct (validate_request r) as [[]|[]]; [done|..] end; done.
Qed.

Lemma result_of_data_valid str_of float_of_str data r : result_of_data str_of float_of_str data = Ok r -> exists arts, validate_result r = Ok arts.
Proof.
  unfold result_of_data. destruct data as [[| | | | | |data]|]; try done. intros H.
  repeat (match type of H with rbind _ _ = _ => idtac end;
          let x := fresh "x" in let Hx := fresh "Hx" in apply rbind_Ok in H as (x & Hx & H); cbv beta in H).
  injection H as <-. match goal with Hx : contract (validate_result ?r) = Ok _ |- _ => destruct (validate_result r) as [a|[]]; [by exists a|..] end; done.
Qed.

(** The two envelopes come back. A valid request, and a valid result, is written and
    read as the record it was, but for the order of keys in its free objects; and
    whatever a reader returns, from any text at all, passes the contract. *)
Theorem envelopes_roundtrip str_of float_of_str :
  (forall r, validate_request r = Ok tt -> request_encodable r -> exists v, request_to_data r = Some v /\
     request_of_data float_of_str (Some (sort_keys v)) = Ok (sorted_request r)) /\
  (forall r arts, validate_result r = Ok arts -> result_encodable r -> exists v, result_to_data r = Some v /\
     result_of_data str_of float_of_str (Some (sort_keys v)) = Ok (sorted_result r)) /\
  (forall data r, request_of_data float_of_str data = Ok r -> validate_request r = Ok tt) /\
  (forall data r, result_of_data str_of float_of_str data = Ok r -> exists arts, validate_result r = Ok arts).
Proof.
  split_and!; [apply request_reads_back|apply result_reads_back|apply request_of_data_valid|apply result_of_data_valid].
Qed.

Lemma envelopes_roundtrip_witness :
  let r := mkResult "done" "completed" (VDict [("b", VInt 1); ("a", VNone)]) ["kept"] [mkEntry "notes" "k" "c" (Fin (1 # 2)) None ["t"] "replace" None] [] in
  exists v, result_to_data r = Some v /\
    result_of_data (λ _, "") (λ _, None) (Some (sort_keys v)) =
      Ok (mkResult "done" "completed" (VDict [("a", VNone); ("b", VInt 1)]) ["kept"] [mkEntry "notes" "k" "c" (Fin (1 # 2)) None ["t"] "replace" None] []).
Proof.
  cbv zeta. apply (proj1 (proj2 (envelopes_roundtrip (λ _, "") (λ _, None)))
    (mkResult "done" "completed" (VDict [("b", VInt 1); ("a", VNone)]) ["kept"] [mkEntry "notes" "k" "c" (Fin (1 # 2)) None ["t"] "replace" None] [])
    [("b", VInt 1); ("a", VNone)]); [reflexivity|].
  split; [repeat constructor|]. apply (bool_decide_unpack _); vm_compute; exact I.
Defined.
