(* ===== verification/ChannelReply.v ===== *)
(** * What a turn says on its channel

    Models [agents/persona_runtime/channel_reply.py]: binding a vote to the
    channel of the turn, folding the turn's prose into the vote, and publishing a
    reply the model gave as plain text. [str(v)] of what is no [str] is the
    argument [str_of]; the ellipsis of a direct message is held as its UTF-8
    bytes. *)

From Stdlib Require Import Ascii.
From S2P Require Import Prelude PyStr PyText PyDict PyValue PersonaEvents ChannelValidation ActionParser.
Local Open Scope string_scope.
Local Open Scope py_scope.

Definition _DM_EMPTY_REPLY_FALLBACK : string := "…".
Definition _DM_CHANNEL_PREFIX : string := "dm:".
Definition _GROUP_CHANNEL_PREFIX : string := "group:".

(** [action.payload] where a method of it is called *)
Definition payload (a : LlmAction) : result string pydict :=
  match la_payload a with VDict p => Ok p | _ => Raise "AttributeError" end.

Section reply.
Context (str_of : pyval -> string).

(** [str(payload.get(k, "") or "").strip()] *)
Definition text_field (k : string) (p : pydict) : string :=
  match dget k p with
  | Some v => if vtruthy v then strip (match v with VStr s => s | _ => str_of v end) else ""
  | None => ""
  end.

(** [isinstance(v, str) and v.strip()], with the text *)
Definition text_value (v : pyval) : option string :=
  match v with VStr s => if truthy (strip s) then Some s else None | _ => None end.

(** ** [bind_end_vote_channel] *)

Definition bind_one (channel_id : string) (a : LlmAction) : result string LlmAction :=
  if is_vote a then
    let! p := payload a in
    Ok (if truthy (text_field "channel_id" p) then a
        else mkLlm END_INTERACTION_VOTE (VDict (dset "channel_id" (VStr channel_id) p)))
  else Ok a.

Fixpoint bind_each (channel_id : string) (actions : list LlmAction) : result string (list LlmAction) :=
  match actions with
  | [] => Ok []
  | a :: actions =>
      let! b := bind_one channel_id a in
      let! l := bind_each channel_id actions in
      Ok (b :: l)
  end.

(** The channel the turn arrived on, where it did. *)
Definition turn_channel (e : AgentEvent) : option string :=
  if bool_decide (event_type e = CHANNEL_MESSAGE) && truthy (opt_str (channel_id e)) then channel_id e else None.

Definition bind_end_vote_channel (e : AgentEvent) (actions : list LlmAction) : result string (list LlmAction) :=
  match turn_channel e with
  | Some c => bind_each c actions
  | None => Ok actions
  end.

(** ** [fold_prose_into_end_vote] *)

(** The first vote of a group channel, with what is around it. *)
Fixpoint split_vote (actions : list LlmAction) : result string (option (list LlmAction * LlmAction * list LlmAction)) :=
  match actions with
  | [] => Ok None
  | a :: actions =>
      let! here := if is_vote a
                   then let! p := payload a in Ok (startswith _GROUP_CHANNEL_PREFIX (text_field "channel_id" p))
                   else Ok false in
      if here : bool then Ok (Some ([], a, actions))
      else let! found := split_vote actions in
           Ok (option_map (λ '(pre, v, post), (a :: pre, v, post)) found)
  end.

(** The free text of a sibling of the vote, stripped. *)
Definition prose_of (vote_channel : string) (a : LlmAction) : result string (option string) :=
  let stripped k p := option_map strip (text_value (dget_or k (VStr "") p)) in
  match la_type a with
  | SEND_CHANNEL_MESSAGE =>
      let! p := payload a in
      Ok (if String.eqb (text_field "channel_id" p) vote_channel then stripped "content" p else None)
  | COMPLETE_TASK => let! p := payload a in Ok (stripped "result" p)
  | _ => Ok None
  end.

(** The texts consumed, and the actions that are left. *)
Fixpoint consume (vote_channel : string) (actions : list LlmAction) : result string (list string * list LlmAction) :=
  match actions with
  | [] => Ok ([], [])
  | a :: actions =>
      let! text := prose_of vote_channel a in
      let! (parts, kept) := consume vote_channel actions in
      Ok (match text with Some t => (t :: parts, kept) | None => (parts, a :: kept) end)
  end.

(** The parts without repeats, in order of first occurrence. *)
Fixpoint dedup (seen : list string) (parts : list string) : list string :=
  match parts with
  | [] => []
  | p :: parts => if bool_decide (p ∈ seen) then dedup seen parts else p :: dedup (p :: seen) parts
  end.

Definition folded_content (prose_parts : list string) (existing : string) : string :=
  join_str break2 (dedup [] (prose_parts ++ (if truthy existing then [existing] else []))%list).

Definition fold_into (pre : list LlmAction) (vote : LlmAction) (post : list LlmAction) (actions : list LlmAction) :
    result string (list LlmAction) :=
  let! p := payload vote in
  let vote_channel := text_field "channel_id" p in
  let! (parts1, kept1) := consume vote_channel pre in
  let! (parts2, kept2) := consume vote_channel post in
  match (parts1 ++ parts2)%list with
  | [] => Ok actions
  | parts =>
      let content := folded_content parts (text_field "content" p) in
      Ok (kept1 ++ mkLlm END_INTERACTION_VOTE (VDict (dset "content" (VStr content) p)) :: kept2)%list
  end.

Definition fold_prose_into_end_vote (e : AgentEvent) (actions : list LlmAction) : result string (list LlmAction) :=
  match turn_channel e with
  | Some _ =>
      let! found := split_vote actions in
      match found with
      | None => Ok actions
      | Some (pre, vote, post) => fold_into pre vote post actions
      end
  | None => Ok actions
  end.

(** ** [synthesize_channel_reply] *)

(** Does some message of the turn go to the channel? *)
Fixpoint already_sent (channel_id : string) (actions : list LlmAction) : result string bool :=
  match actions with
  | [] => Ok false
  | a :: actions =>
      if bool_decide (la_type a = SEND_CHANNEL_MESSAGE) then
        let! p := payload a in
        match dget "channel_id" p with
        | Some v => if v_eq_str v channel_id then Ok true else already_sent channel_id actions
        | None => already_sent channel_id actions
        end
      else already_sent channel_id actions
  end.

(** The first text a completed task gives; empty without one. *)
Fixpoint reply_text_of (actions : list LlmAction) : result string string :=
  match actions with
  | [] => Ok ""
  | a :: actions =>
      if bool_decide (la_type a = COMPLETE_TASK) then
        let! p := payload a in
        match text_value (dget_or "result" (VStr "") p) with
        | Some candidate => Ok candidate
        | None => reply_text_of actions
        end
      else reply_text_of actions
  end.

Definition is_forced_control_turn (e : AgentEvent) : bool :=
  let flag k := match dget k (ev_payload e) with Some v => vtruthy v | None => false end in
  flag "convene" || flag "synthesis_turn".

Definition reply_mentions (e : AgentEvent) : list pyval :=
  if is_forced_control_turn e || negb (truthy (opt_str (sender_id e))) then [] else [VStr (opt_str (sender_id e))].

Definition synthesized (e : AgentEvent) (channel_id reply_text : string) : LlmAction :=
  mkLlm SEND_CHANNEL_MESSAGE
    (VDict [("channel_id", VStr channel_id); ("content", VStr reply_text); ("mentions", VList (reply_mentions e))]).

Definition promote (e : AgentEvent) (channel_id : string) (actions : list LlmAction) : result string (list LlmAction) :=
  let! sent := already_sent channel_id actions in
  if sent : bool then Ok actions
  else
    let! reply_text := reply_text_of actions in
    if truthy reply_text then Ok (synthesized e channel_id reply_text :: actions)
    else if negb (startswith _DM_CHANNEL_PREFIX channel_id) then Ok actions
    else Ok (synthesized e channel_id _DM_EMPTY_REPLY_FALLBACK :: actions).

Definition synthesize_channel_reply (e : AgentEvent) (actions : list LlmAction) : result string (list LlmAction) :=
  match turn_channel e with
  | None => Ok actions
  | Some c =>
      let! actions := bind_end_vote_channel e actions in
      let! actions := fold_prose_into_end_vote e actions in
      promote e c actions
  end.
End reply.

(** ** The steps *)

Section steps.
Context (str_of : pyval -> string).

Abbreviation text_at := (text_field str_of).
Abbreviation prose := (prose_of str_of).

Lemma is_vote_type a : is_vote a = true <-> la_type a = END_INTERACTION_VOTE.
Proof. apply bool_decide_eq_true. Qed.

Lemma field_set k s p : text_at k (dset k (VStr s) p) = strip s.
Proof. unfold text_field. rewrite dget_dset_eq. cbn [vtruthy]. by destruct s. Qed.

Lemma bind_each_Ok c l : forall l', bind_each str_of c l = Ok l' -> Forall2 (λ a b, bind_one str_of c a = Ok b) l l'.
Proof.
  induction l as [|a l IH]; intros l'; cbn [bind_each].
  - by intros [= <-].
  - intros (b&Hb&(r&Hr&[= <-])%rbind_Ok)%rbind_Ok. constructor; auto.
Qed.

(** Binding touches nothing but votes, and gives each one a channel. *)
Lemma bind_one_spec c a b : bind_one str_of c a = Ok b ->
  la_type b = la_type a /\ (is_vote a = false -> b = a) /\
  (is_vote a = true -> exists p q, la_payload a = VDict p /\ la_payload b = VDict q /\
     text_at "channel_id" q = if truthy (text_at "channel_id" p) then text_at "channel_id" p else strip c).
Proof.
  unfold bind_one. destruct (is_vote a) eqn:Ev; [|intros [= <-]; done].
  apply is_vote_type in Ev. unfold payload. destruct (la_payload a) as [| | | | | |p] eqn:Ep; try done. cbn [rbind].
  destruct (truthy (text_at "channel_id" p)) eqn:Et; intros [= <-].
  - split_and!; [done|done|]. intros _. exists p, p. by rewrite Et.
  - split_and!; [done|done|]. intros _. eexists p, _. rewrite Et. split_and!; [done|done|apply field_set].
Qed.

Lemma prose_vote vc a : is_vote a = true -> prose vc a = Ok None.
Proof. intros H%is_vote_type. unfold prose_of. by rewrite H. Qed.

Lemma bind_prose c vc a b : bind_one str_of c a = Ok b -> prose vc b = prose vc a.
Proof.
  intros H. destruct (is_vote a) eqn:E.
  - destruct (bind_one_spec c a b H) as (Ht&_). rewrite !prose_vote; [done|done|].
    rewrite is_vote_type in *. congruence.
  - destruct (bind_one_spec c a b H) as (_&Hb&_). by rewrite (Hb E).
Qed.

Lemma consume_spec vc l : forall parts kept, consume str_of vc l = Ok (parts, kept) ->
  (forall a, a ∈ kept -> a ∈ l /\ prose vc a = Ok None) /\
  (forall a, a ∈ l -> prose vc a = Ok None -> a ∈ kept) /\
  (forall t, t ∈ parts <-> exists a, a ∈ l /\ prose vc a = Ok (Some t)).
Proof.
  induction l as [|a l IH]; intros parts kept; cbn [consume].
  { intros [= <- <-]. split_and!; set_solver. }
  intros (text&Ht&([ps ks]&Hc&Heq)%rbind_Ok)%rbind_Ok. destruct (IH ps ks Hc) as (Hk&Hk'&Hp).
  destruct text as [t|]; injection Heq as <- <-; split_and!.
  - intros b Hb. destruct (Hk b Hb). split; [by right|done].
  - intros b [->|Hb]%elem_of_cons Hn; [congruence|auto].
  - intros u. rewrite elem_of_cons, Hp. split.
    + intros [->|(b&Hb&Hu)]; [exists a; by split; [left|]|exists b; by split; [right|]].
    + intros (b&[->|Hb]%elem_of_cons&Hu); [left; congruence|right; eauto].
  - intros b [->|Hb]%elem_of_cons; [by split; [left|]|]. destruct (Hk b Hb). split; [by right|done].
  - intros b [->|Hb]%elem_of_cons Hn; [by left|right; auto].
  - intros u. rewrite Hp. split; intros (b&Hb&Hu); exists b; (split; [|done]); [by right|].
    apply elem_of_cons in Hb as [->|Hb]; [congruence|done].
Qed.

Lemma dedup_spec parts : forall seen, NoDup (dedup seen parts) /\ forall x, x ∈ dedup seen parts <-> x ∈ parts /\ x ∉ seen.
Proof.
  induction parts as [|p parts IH]; intros seen; cbn [dedup].
  { split; [by apply NoDup_nil|]. set_solver. }
  case_bool_decide as E.
  - destruct (IH seen) as [Hn Hx]. split; [done|]. intros x. rewrite Hx, elem_of_cons. naive_solver.
  - destruct (IH (p :: seen)) as [Hn Hx]. split.
    + apply NoDup_cons. split; [|done]. rewrite Hx. set_solver.
    + intros x. rewrite !elem_of_cons, Hx, elem_of_cons. destruct (decide (x = p)) as [->|]; naive_solver.
Qed.

Lemma split_vote_spec l : forall r, split_vote str_of l = Ok r ->
  match r with
  | Some (pre, v, post) => l = (pre ++ v :: post)%list /\ is_vote v = true /\
      exists p, la_payload v = VDict p /\ startswith _GROUP_CHANNEL_PREFIX (text_at "channel_id" p) = true
  | None => forall v p, v ∈ l -> is_vote v = true -> la_payload v = VDict p ->
      startswith _GROUP_CHANNEL_PREFIX (text_at "channel_id" p) = false
  end.
Proof.
  induction l as [|a l IH]; intros r; cbn [split_vote].
  { intros [= <-] v p Hv. by apply not_elem_of_nil in Hv. }
  intros (here&Hh&H)%rbind_Ok.
  assert (here = true -> is_vote a = true /\ exists p, la_payload a = VDict p /\ startswith _GROUP_CHANNEL_PREFIX (text_at "channel_id" p) = true) as Ht.
  { intros ->. destruct (is_vote a); [|done]. apply rbind_Ok in Hh as (p&Hp&[= Hs]). split; [done|]. exists p.
    split; [|done]. unfold payload in Hp. by destruct (la_payload a); simplify_eq. }
  destruct here.
  - injection H as <-. destruct (Ht eq_refl) as (Hv&p&Hp&Hs). split; [done|]. split; [done|]. by exists p.
  - apply rbind_Ok in H as (found&Hf&[= <-]). specialize (IH found Hf). destruct found as [[[pre v] post]|]; cbn [option_map].
    + destruct IH as (->&?&?). done.
    + intros v p [->|Hv]%elem_of_cons Hiv Hp; [|by apply (IH v p)]. rewrite Hiv in Hh. unfold payload in Hh. rewrite Hp in Hh.
      cbn [rbind] in Hh. by injection Hh.
Qed.

Lemma consume_total vc l : forall r, consume str_of vc l = Ok r -> forall a, a ∈ l -> exists t, prose vc a = Ok t.
Proof.
  induction l as [|a l IH]; intros r H b Hb; [by apply not_elem_of_nil in Hb|].
  apply rbind_Ok in H as (text&Ht&([ps ks]&Hc&_)%rbind_Ok). apply elem_of_cons in Hb as [->|Hb]; eauto.
Qed.

(** The effect of a fold. *)
Lemma fold_into_spec pre vote post p out :
  is_vote vote = true -> la_payload vote = VDict p -> fold_into str_of pre vote post (pre ++ vote :: post) = Ok out ->
  let vc := text_at "channel_id" p in
  exists kept1 vote' q kept2,
    out = (kept1 ++ vote' :: kept2)%list /\ is_vote vote' = true /\ la_payload vote' = VDict q /\
    text_at "channel_id" q = vc /\
    Forall (λ a, prose vc a = Ok None /\ a ∈ (pre ++ post)%list) (kept1 ++ kept2) /\
    (forall a, a ∈ (pre ++ post)%list -> prose vc a = Ok None -> a ∈ (kept1 ++ kept2)%list) /\
    ((forall a t, a ∈ (pre ++ post)%list -> prose vc a <> Ok (Some t)) /\ vote' = vote \/
     exists parts, dget "content" q = Some (VStr (join_str break2 parts)) /\ NoDup parts /\ parts <> [] /\
       forall t, t ∈ parts <-> (exists a, a ∈ (pre ++ post)%list /\ prose vc a = Ok (Some t)) \/
                               (t = text_at "content" p /\ t <> "")) .
Proof.
  intros Hv Hp H vc. unfold fold_into, payload in H. rewrite Hp in H. cbn [rbind] in H. fold vc in H.
  apply rbind_Ok in H as ([parts1 kept1]&H1&([parts2 kept2]&H2&H)%rbind_Ok).
  destruct (consume_spec vc pre parts1 kept1 H1) as (Hk1&Hn1&Ht1), (consume_spec vc post parts2 kept2 H2) as (Hk2&Hn2&Ht2).
  assert (forall t, t ∈ (parts1 ++ parts2)%list <-> exists a, a ∈ (pre ++ post)%list /\ prose vc a = Ok (Some t)) as Hparts.
  { intros t. rewrite elem_of_app, Ht1, Ht2. setoid_rewrite elem_of_app. naive_solver. }
  destruct (parts1 ++ parts2)%list as [|t0 parts] eqn:E.
  - injection H as <-. assert (forall a, a ∈ (pre ++ post)%list -> prose vc a = Ok None) as Hnone.
    { intros a Ha. assert (exists t, prose vc a = Ok t) as [[t|] Ht]; [|exfalso|done].
      - apply elem_of_app in Ha as [Ha|Ha]; [exact (consume_total _ _ _ H1 a Ha)|exact (consume_total _ _ _ H2 a Ha)].
      - apply (not_elem_of_nil t), Hparts. eauto. }
    exists pre, vote, p, post. split_and!; try done.
    + apply Forall_forall. eauto.
    + left. split; [|done]. intros a t Ha. rewrite Hnone by done. done.
  - injection H as <-. eexists kept1, _, _, kept2. split_and!; [reflexivity| |reflexivity| | | |].
    + done.
    + unfold text_field. rewrite dget_dset_ne by done. done.
    + apply Forall_forall. intros a. rewrite elem_of_app. setoid_rewrite elem_of_app. intros [Ha|Ha]; [destruct (Hk1 a Ha)|destruct (Hk2 a Ha)]; auto.
    + intros a. rewrite !elem_of_app. intros [Ha|Ha] Hn; auto.
    + right. set (all := (t0 :: parts ++ (if truthy (text_at "content" p) then [text_at "content" p] else []))%list).
      destruct (dedup_spec all []) as [Hd Hx]. exists (dedup [] all). split_and!.
      * rewrite dget_dset_eq. done.
      * done.
      * intros Hnil. assert (t0 ∈ dedup [] all) as Hin by (apply Hx; set_solver). rewrite Hnil in Hin. set_solver.
      * intros t. rewrite Hx. unfold all. rewrite elem_of_cons, elem_of_app, <- Hparts, elem_of_cons.
        destruct (truthy (text_at "content" p)) eqn:Et.
        -- rewrite list_elem_of_singleton. apply truthy_true in Et. split; [|intros [?|[-> _]]]; set_solver.
        -- apply truthy_false in Et. rewrite Et. set_solver.
Qed.

Lemma reply_text_spec l : forall t, reply_text_of l = Ok t ->
  t = "" \/ exists a p, a ∈ l /\ la_type a = COMPLETE_TASK /\ la_payload a = VDict p /\ dget "result" p = Some (VStr t) /\
    truthy (strip t) = true.
Proof.
  induction l as [|a l IH]; intros t; cbn [reply_text_of]; [by intros [= <-]; left|].
  assert (reply_text_of l = Ok t -> t = "" \/ exists b p, b ∈ a :: l /\ la_type b = COMPLETE_TASK /\ la_payload b = VDict p /\
    dget "result" p = Some (VStr t) /\ truthy (strip t) = true) as Hl.
  { intros H. destruct (IH t H) as [?|(b&p&Hb&?)]; [by left|right]. exists b, p. split; [by right|done]. }
  case_bool_decide as Ht; [|done]. intros (p&Hp&H)%rbind_Ok. unfold payload in Hp.
  destruct (la_payload a) as [| | | | | |q] eqn:Eq; try done. injection Hp as ->.
  destruct (text_value (dget_or "result" (VStr "") p)) as [c|] eqn:Ec; [|auto]. injection H as ->. right.
  exists a, p. split; [by left|]. split_and!; try done; unfold dget_or in Ec;
    (destruct (dget "result" p) as [[| | | |s| |]|] eqn:E; cbn in Ec; try done); unfold text_value in Ec;
    (destruct (truthy (strip s)) eqn:Es; [|done]); by injection Ec as ->.
Qed.

Lemma complete_prose vc a p t : la_type a = COMPLETE_TASK -> la_payload a = VDict p -> dget "result" p = Some (VStr t) ->
  truthy (strip t) = true -> prose vc a = Ok (Some (strip t)).
Proof.
  intros Ht Hp Hr Hs. unfold prose_of, payload. rewrite Ht, Hp. cbn [rbind]. unfold dget_or. rewrite Hr.
  cbn [default from_option id text_value]. by rewrite Hs.
Qed.

Lemma group_strip c : startswith _GROUP_CHANNEL_PREFIX c = true -> startswith _GROUP_CHANNEL_PREFIX (strip c) = true.
Proof.
  intros (r&->)%startswith_true. apply startswith_true. exists (rstrip r).
  change (_GROUP_CHANNEL_PREFIX +:+ r) with ("group" +:+ String ":" r). unfold strip.
  change (lstrip ("group" +:+ String ":" r)) with ("group" +:+ String ":" r). by rewrite rstrip_app_nonspace.
Qed.

Lemma bound_element c l l' b : Forall2 (λ a b, bind_one str_of c a = Ok b) l l' -> b ∈ l' ->
  exists a, a ∈ l /\ bind_one str_of c a = Ok b.
Proof. intros H Hb. apply list_elem_of_lookup in Hb as [i Hi]. destruct (Forall2_lookup_r _ _ _ _ _ H Hi) as (a&Ha&Hab). exists a. split; [by eapply list_elem_of_lookup_2|done]. Qed.

Lemma bound_image c l l' a : Forall2 (λ a b, bind_one str_of c a = Ok b) l l' -> a ∈ l ->
  exists b, b ∈ l' /\ bind_one str_of c a = Ok b.
Proof. intros H Ha. apply list_elem_of_lookup in Ha as [i Hi]. destruct (Forall2_lookup_l _ _ _ _ _ H Hi) as (b&Hb&Hab). exists b. split; [by eapply list_elem_of_lookup_2|done]. Qed.

(** A vote that names no channel, or a group channel. *)
Definition group_vote (a : LlmAction) : Prop :=
  is_vote a = true /\
  forall p, la_payload a = VDict p -> text_at "channel_id" p = "" \/ startswith _GROUP_CHANNEL_PREFIX (text_at "channel_id" p) = true.

(** What is said on [vc] by the actions, the votes apart. *)
Definition says (vc : string) (actions : list LlmAction) (t : string) : Prop :=
  exists a, a ∈ actions /\ prose vc a = Ok (Some t).

(** A turn that votes to end the discussion of a group is one publish. Its vote
    is bound to a group channel, and beside it the turn keeps no message to that
    channel and no result with text: every such text is part of what the vote
    says, once, with the vote's own statement. Nothing else of the turn is lost. *)
Theorem vote_travels_alone e c actions out
    (Hc : turn_channel e = Some c) (Hg : startswith _GROUP_CHANNEL_PREFIX c = true)
    (Hv : exists v, v ∈ actions /\ group_vote v) (H : synthesize_channel_reply str_of e actions = Ok out) :
  exists kept1 vote q kept2,
    out = (kept1 ++ vote :: kept2)%list /\ is_vote vote = true /\ la_payload vote = VDict q /\
    let vc := text_at "channel_id" q in
    startswith _GROUP_CHANNEL_PREFIX vc = true /\
    (forall t, ~ says vc (kept1 ++ kept2) t) /\
    (forall a, a ∈ actions -> is_vote a = false -> prose vc a = Ok None -> a ∈ out) /\
    (forall t, says vc actions t -> exists parts,
       dget "content" q = Some (VStr (join_str break2 parts)) /\ NoDup parts /\ t ∈ parts /\
       forall s, says vc actions s -> s ∈ parts).
Proof.
  unfold synthesize_channel_reply, bind_end_vote_channel, fold_prose_into_end_vote in H. rewrite Hc in H.
  apply rbind_Ok in H as (bound&Hb%bind_each_Ok&(folded&(found&Hs%split_vote_spec&Hfold)%rbind_Ok&Hp)%rbind_Ok).
  destruct found as [[[pre v] post]|].
  2:{ exfalso. destruct Hv as (v&Hin&Hiv&Hch). destruct (bound_image c actions bound v Hb Hin) as (b&Hbin&Hbind).
      destruct (bind_one_spec c v b Hbind) as (Ht&_&Hp'). destruct (Hp' Hiv) as (p&q&Hpv&Hqb&Hf).
      assert (is_vote b = true) as Hib by (rewrite is_vote_type in *; congruence).
      pose proof (Hs b q Hbin Hib Hqb) as Hn. rewrite Hf in Hn.
      destruct (Hch p Hpv) as [Hz|Hz]; [rewrite Hz in Hn; cbn [truthy] in Hn; rewrite group_strip in Hn; done|].
      destruct (text_at "channel_id" p); [done|]. cbn [truthy] in Hn. congruence. }
  destruct Hs as (->&Hiv&p&Hpv&Hpg). destruct (fold_into_spec pre v post p folded Hiv Hpv Hfold) as (k1&vote&q&k2&->&Hivote&Hq&Hqc&Hk&Hkept&Hcont).
  rewrite Forall_forall in Hk.
  assert (forall vc t, says vc actions t <-> exists a, a ∈ (pre ++ post)%list /\ prose vc a = Ok (Some t)) as Hsays.
  { intros vc t. split.
    - intros (a&Ha&Ht). destruct (bound_image c actions _ a Hb Ha) as (b&Hbin&Hbind). rewrite <- (bind_prose c vc a b Hbind) in Ht.
      exists b. split; [|done]. rewrite elem_of_app, elem_of_cons in Hbin. rewrite elem_of_app. destruct Hbin as [?|[->|?]]; auto.
      by rewrite prose_vote in Ht.
    - intros (b&Hbin&Ht). destruct (bound_element c actions _ b Hb) as (a&Ha&Hbind); [set_solver|].
      exists a. split; [done|]. by rewrite <- (bind_prose c vc a b Hbind). }
  assert (out = k1 ++ vote :: k2)%list as ->.
  { unfold promote in Hp. apply rbind_Ok in Hp as (sent&_&Hp). destruct sent; [by injection Hp as <-|].
    apply rbind_Ok in Hp as (t&Ht%reply_text_spec&Hp). destruct Ht as [->|(a&r&Ha&Hta&Hra&Hr&Hs)].
    - cbn [truthy] in Hp. destruct (startswith _DM_CHANNEL_PREFIX c) eqn:Ed; cbn [negb] in Hp; [|by injection Hp as <-].
      apply startswith_true in Hg as [x ->], Ed as [y Ey]. done.
    - exfalso. pose proof (complete_prose (text_at "channel_id" p) a r t Hta Hra Hr Hs) as Hx.
      rewrite elem_of_app, elem_of_cons in Ha. destruct Ha as [Ha|[->|Ha]].
      + destruct (Hk a) as [Hy _]; [rewrite elem_of_app; by left|congruence].
      + apply is_vote_type in Hivote. congruence.
      + destruct (Hk a) as [Hy _]; [rewrite elem_of_app; by right|congruence]. }
  exists k1, vote, q, k2. cbv zeta. rewrite Hqc. split_and!; try done.
  - intros t (a&Ha&Ht). destruct (Hk a Ha) as [Hn _]. congruence.
  - intros a Ha Hna Hpa. destruct (bound_image c actions _ a Hb Ha) as (b&Hbin&Hbind).
    destruct (bind_one_spec c a b Hbind) as (_&He&_). rewrite (He Hna) in Hbin.
    assert (a ∈ (k1 ++ k2)%list) as Hin; [|set_solver]. apply Hkept; [|done].
    rewrite elem_of_app, elem_of_cons in Hbin. rewrite elem_of_app. destruct Hbin as [?|[->|?]]; auto. congruence.
  - intros t Ht. pose proof (proj1 (Hsays _ _) Ht) as (a&Ha&Hat). destruct Hcont as [[Hno _]|(parts&Hd&Hnd&_&Hparts)].
    { destruct (Hno a t Ha Hat). }
    exists parts. split_and!; [done|done|rewrite Hparts; left; eauto|]. intros u Hu. rewrite Hparts. left. by apply Hsays.
Qed.

(** Folding and binding leave every action but the votes as it was. *)
Lemma bound_other c l l' a : Forall2 (λ a b, bind_one str_of c a = Ok b) l l' -> a ∈ l' -> is_vote a = false -> a ∈ l.
Proof.
  intros Hb Ha Hv. destruct (bound_element c l l' a Hb Ha) as (x&Hx&Hbind).
  destruct (bind_one_spec c x a Hbind) as (Ht&He&_). rewrite He; [done|].
  destruct (is_vote x) eqn:E; [|done]. rewrite is_vote_type in E. rewrite <- Ht in E. apply is_vote_type in E. congruence.
Qed.

Lemma folded_other e l l' a : fold_prose_into_end_vote str_of e l = Ok l' -> a ∈ l' -> is_vote a = false -> a ∈ l.
Proof.
  unfold fold_prose_into_end_vote. destruct (turn_channel e); [|by intros [= ->]].
  intros (found&Hs%split_vote_spec&H)%rbind_Ok Ha Hv. destruct found as [[[pre v] post]|]; [|by injection H as ->].
  destruct Hs as (->&Hiv&p&Hpv&_). destruct (fold_into_spec pre v post p l' Hiv Hpv H) as (k1&vote&q&k2&->&Hivote&_&_&Hk&_).
  rewrite Forall_forall in Hk. rewrite elem_of_app, elem_of_cons in Ha.
  assert (a ∈ (k1 ++ k2)%list) as Hin by (rewrite elem_of_app; destruct Ha as [?|[->|?]]; auto; congruence).
  destruct (Hk a Hin) as [_ Hin']. set_solver.
Qed.

Lemma send_not_vote a : la_type a = SEND_CHANNEL_MESSAGE -> is_vote a = false.
Proof. intros H. apply not_true_iff_false. rewrite is_vote_type. congruence. Qed.

Lemma already_sent_spec c l : already_sent c l = Ok true ->
  exists a p, a ∈ l /\ la_type a = SEND_CHANNEL_MESSAGE /\ la_payload a = VDict p /\ dget "channel_id" p = Some (VStr c).
Proof.
  induction l as [|a l IH]; cbn [already_sent]; [done|].
  assert (already_sent c l = Ok true -> exists b p, b ∈ a :: l /\ la_type b = SEND_CHANNEL_MESSAGE /\ la_payload b = VDict p /\ dget "channel_id" p = Some (VStr c)) as Hl.
  { intros H. destruct (IH H) as (b&p&Hb&?). exists b, p. split; [by right|done]. }
  case_bool_decide as Ht; [|done]. intros (p&Hp&H)%rbind_Ok. unfold payload in Hp.
  destruct (la_payload a) as [| | | | | |q] eqn:Eq; try done. injection Hp as ->.
  destruct (dget "channel_id" p) as [v|] eqn:Ed; [|auto]. destruct (v_eq_str v c) eqn:Ev; [|auto].
  exists a, p. split; [by left|]. split_and!; try done. destruct v; try done. cbn in Ev. apply bool_decide_eq_true in Ev. by subst.
Qed.

Lemma synthesize_element e c actions out a : turn_channel e = Some c -> synthesize_channel_reply str_of e actions = Ok out -> a ∈ out ->
  is_vote a = true \/ a ∈ actions \/ exists t, a = synthesized e c t /\ truthy (strip t) = true.
Proof.
  intros Hc H. unfold synthesize_channel_reply, bind_end_vote_channel in H. rewrite Hc in H.
  apply rbind_Ok in H as (bound&Hb%bind_each_Ok&(folded&Hf&Hp)%rbind_Ok).
  assert (forall a, a ∈ folded -> is_vote a = true \/ a ∈ actions) as Hin.
  { intros b Hbin. destruct (is_vote b) eqn:E; [by left|right]. eapply bound_other; [exact Hb| |done]. by eapply folded_other. }
  unfold promote in Hp. apply rbind_Ok in Hp as (sent&_&Hp). destruct sent; [injection Hp as <-; intros Ha; destruct (Hin a Ha); auto|].
  apply rbind_Ok in Hp as (t&Ht%reply_text_spec&Hp).
  assert (forall u, out = synthesized e c u :: folded -> truthy (strip u) = true -> a ∈ out ->
    is_vote a = true \/ a ∈ actions \/ exists t, a = synthesized e c t /\ truthy (strip t) = true) as Hadd.
  { intros u -> Hu [->|Ha]%elem_of_cons; [eauto|]. destruct (Hin a Ha); auto. }
  destruct (truthy t) eqn:Et.
  - injection Hp as <-. apply Hadd with t; [done|]. destruct Ht as [->|(b&p&_&_&_&_&?)]; done.
  - destruct (startswith _DM_CHANNEL_PREFIX c); cbn [negb] in Hp; injection Hp as <-; [by apply Hadd with _DM_EMPTY_REPLY_FALLBACK|].
    intros Ha. destruct (Hin a Ha); auto.
Qed.

(** Valid actions stay valid. *)
Lemma synthesize_wf e actions out :
  (forall c, turn_channel e = Some c -> truthy (strip c) = true) ->
  synthesize_channel_reply str_of e actions = Ok out -> Forall well_formed actions -> Forall well_formed out.
Proof.
  intros Hc H Hw. destruct (turn_channel e) as [c|] eqn:E.
  2:{ unfold synthesize_channel_reply in H. rewrite E in H. by injection H as <-. }
  apply Forall_forall. intros a Ha. rewrite Forall_forall in Hw.
  destruct (synthesize_element e c actions out a E H Ha) as [Hv|[Hin|(t&->&Ht)]]; [|by apply Hw|].
  - apply is_vote_type in Hv. unfold well_formed. by rewrite Hv.
  - eexists. split; [reflexivity|]. split; [exact (Hc c eq_refl)|exact Ht].
Qed.

(** A turn says on its channel what the model said: every message it sends the
    model wrote, or carries the text of the task it completed, to the channel the
    turn arrived on, and at most one is added. The only words of the runtime's own are the
    placeholder of a direct message. And a direct message is always answered:
    if the actions are valid, some message of the turn goes to it and says
    something. *)
Theorem turn_speaks e c actions out
    (Hc : turn_channel e = Some c) (H : synthesize_channel_reply str_of e actions = Ok out) :
  (forall a, a ∈ out -> la_type a = SEND_CHANNEL_MESSAGE ->
     a ∈ actions \/
     exists t, a = synthesized e c t /\
       ((exists b p, b ∈ actions /\ la_type b = COMPLETE_TASK /\ la_payload b = VDict p /\
           dget "result" p = Some (VStr t) /\ truthy (strip t) = true) \/
        t = _DM_EMPTY_REPLY_FALLBACK /\ startswith _DM_CHANNEL_PREFIX c = true)) /\
  (length out <= S (length actions))%nat /\
  (startswith _DM_CHANNEL_PREFIX c = true -> Forall well_formed actions ->
   exists a p, a ∈ out /\ la_type a = SEND_CHANNEL_MESSAGE /\ la_payload a = VDict p /\
     dget "channel_id" p = Some (VStr c) /\ has_text "content" p = true).
Proof.
  unfold synthesize_channel_reply, bind_end_vote_channel in H. rewrite Hc in H.
  apply rbind_Ok in H as (bound&Hb%bind_each_Ok&(folded&Hf&Hp)%rbind_Ok).
  assert (forall a, a ∈ folded -> is_vote a = false -> a ∈ actions) as Hin.
  { intros a Ha Hv. eapply bound_other; [exact Hb| |done]. by eapply folded_other. }
  assert (length folded <= length actions)%nat as Hlen.
  { rewrite (Forall2_length _ _ _ Hb). revert Hf. unfold fold_prose_into_end_vote. rewrite Hc.
    intros (found&Hs%split_vote_spec&Hf)%rbind_Ok. destruct found as [[[pre v] post]|]; [|injection Hf as ->; lia].
    destruct Hs as (->&_). unfold fold_into in Hf. apply rbind_Ok in Hf as (p&_&([ps1 k1]&H1&([ps2 k2]&H2&Hf)%rbind_Ok)%rbind_Ok).
    assert (forall l ps ks, consume str_of (text_at "channel_id" p) l = Ok (ps, ks) -> length ks <= length l)%nat as Hlk.
    { clear. induction l as [|a l IH]; intros ps ks; cbn [consume]; [by intros [= <- <-]|].
      intros (t&_&([ps' ks']&Hcs&Heq)%rbind_Ok)%rbind_Ok. apply IH in Hcs. destruct t; injection Heq as <- <-; cbn; lia. }
    apply Hlk in H1, H2. destruct (ps1 ++ ps2)%list; injection Hf as <-; rewrite !length_app; cbn; lia. }
  apply rbind_Ok in Hp as (sent&Hsent&Hp). destruct sent.
  { injection Hp as <-. split_and!; [|lia|].
    - intros a Ha Ht. left. apply Hin; [done|by apply send_not_vote].
    - intros _ Hw. destruct (already_sent_spec c folded Hsent) as (a&p&Ha&Ht&Hpl&Hd).
      exists a, p. split_and!; try done. rewrite Forall_forall in Hw.
      assert (well_formed a) as Hwa by (apply Hw, Hin; [done|by apply send_not_vote]).
      unfold well_formed in Hwa. rewrite Ht in Hwa. destruct Hwa as (q&Hq&_&Hcn). congruence. }
  apply rbind_Ok in Hp as (t&Ht%reply_text_spec&Hp).
  match goal with |- ?G => assert (forall u, out = synthesized e c u :: folded -> truthy (strip u) = true ->
    ((exists b p, b ∈ actions /\ la_type b = COMPLETE_TASK /\ la_payload b = VDict p /\
           dget "result" p = Some (VStr u) /\ truthy (strip u) = true) \/
        u = _DM_EMPTY_REPLY_FALLBACK /\ startswith _DM_CHANNEL_PREFIX c = true) -> G) as Hadd end.
  2:{ destruct Ht as [->|(a&p&Ha&Hta&Hpa&Hr&Hs)].
      - cbn [truthy] in Hp. destruct (startswith _DM_CHANNEL_PREFIX c) eqn:Ed; cbn [negb] in Hp; injection Hp as <-.
        + eapply Hadd; [reflexivity|reflexivity|by right].
        + split_and!; [|lia|done]. intros a Ha Ht. left. apply Hin; [done|by apply send_not_vote].
      - assert (truthy t = true) as Htt by (by destruct t). rewrite Htt in Hp. injection Hp as <-.
        eapply Hadd; [reflexivity|done|]. left. exists a, p. split_and!; try done. apply Hin; [done|].
        apply not_true_iff_false. rewrite is_vote_type. congruence. }
  intros u -> Hu Hw. split_and!; [|cbn; lia|].
  - intros a [->|Ha]%elem_of_cons Hta; [right; by exists u|left]. apply Hin; [done|by apply send_not_vote].
  - intros _ _. eexists _, _. split; [by left|]. split_and!; [done|reflexivity|done|].
    unfold has_text. cbn. done.
Qed.
End steps.

Definition demo_turn (c : string) : AgentEvent := mkEvent CHANNEL_MESSAGE [] (Some c) (Some "bob") None None 0 [].
Definition demo_str (_ : pyval) : string := "?".
Definition demo_vote_to (c : string) : LlmAction := mkLlm END_INTERACTION_VOTE (VDict [("channel_id", VStr c)]).

(** The fold looks at the channel of the vote and not at that of the turn: in a
    direct message, a vote that names a group takes the reply with it. What was
    meant for one person is published to the group, and the person is sent the
    placeholder. *)
Lemma dm_reply_published_to_group :
  synthesize_channel_reply demo_str (demo_turn "dm:a:bob") [demo_vote_to "group:g"; completed "for your eyes only"] =
  Ok [synthesized (demo_turn "dm:a:bob") "dm:a:bob" _DM_EMPTY_REPLY_FALLBACK;
      mkLlm END_INTERACTION_VOTE (VDict [("channel_id", VStr "group:g"); ("content", VStr "for your eyes only")])].
Proof. vm_compute. reflexivity. Qed.

Definition demo_turn_actions : list LlmAction := [completed "Agreed."; mkLlm END_INTERACTION_VOTE (VDict [])].

Lemma vote_travels_alone_witness :
  exists out, synthesize_channel_reply demo_str (demo_turn "group:g") demo_turn_actions = Ok out /\
    exists kept1 vote q kept2, out = (kept1 ++ vote :: kept2)%list /\ is_vote vote = true /\ la_payload vote = VDict q.
Proof.
  eexists. split; [vm_compute; reflexivity|].
  edestruct (vote_travels_alone demo_str (demo_turn "group:g") "group:g" demo_turn_actions) as (k1&v&q&k2&H1&H2&H3&_);
    [reflexivity|reflexivity| |vm_compute; reflexivity|by exists k1, v, q, k2].
  exists (mkLlm END_INTERACTION_VOTE (VDict [])). split; [right; left|]. split; [reflexivity|].
  intros p [= <-]. left. reflexivity.
Defined.

Lemma turn_speaks_witness :
  exists out a p, synthesize_channel_reply demo_str (demo_turn "dm:a:bob") [nothing] = Ok out /\
    a ∈ out /\ la_payload a = VDict p /\ dget "channel_id" p = Some (VStr "dm:a:bob").
Proof.
  edestruct (turn_speaks demo_str (demo_turn "dm:a:bob") "dm:a:bob" [nothing]) as (_&_&H);
    [reflexivity|vm_compute; reflexivity|].
  destruct H as (a&p&Ha&_&Hp&Hd&_); [reflexivity|by repeat constructor|]. eexists _, a, p. split; [vm_compute; reflexivity|done].
Defined.
