(* ===== verification/Reflexion.v ===== *)
(** * The critic and the revision of a composed message

    Models [agents/persona_runtime/reflexion.py]: a cheap critic reads the draft
    against the plan, and only a weak one is rewritten, a bounded number of
    times. The prompt files are the parameter [load_snippet], the alias table
    [resolved] and the leased call [create_message], over a world [W]; the
    outcome charted is part of the answer. *)

From Stdlib Require Import Ascii.
From S2P Require Import Prelude PyStr PyText PyDict PyValue PersonaEvents FactPredicates PyRegex SalienceDeliberation SalienceBid SalienceGate ChannelValidation ActionParser.
Local Open Scope string_scope.
Local Open Scope py_scope.

Definition _CRITIC_MODEL_ALIAS : string := "fast".
Definition _CRITIC_MAX_OUTPUT_TOKENS : Z := 64.
Definition _CRITIQUE_MAX_CHARS : nat := 240.
Definition _CRITIC_SYSTEM_SNIPPET : string := "reflexion-critic-system".
Definition _CRITIC_USER_SNIPPET : string := "reflexion-critic-user".
Definition _REVISE_SYSTEM_SNIPPET : string := "reflexion-revise-system".
Definition _REVISE_USER_SNIPPET : string := "reflexion-revise-user".

Definition _WEAK_RE : regex := yes_no_re "weak".
Definition _CRITIQUE_RE : regex :=
  (lit "critique" ⋅ field_sep ⋅ RGroup (non_space ⋅ RStar not_newline))%re.

Record ReflexionResult := mkReflexion {
  r_text : string;
  r_rounds : Z;
  r_changed : bool;
  r_degraded : bool;
}.

Definition semicolons : text := codes "; ".

Definition _plan_brief (p : CompositionPlan) : text :=
  join_with newline
    ([codes "Intent: " ++ intent p] ++
     match key_points p with [] => [] | l => [codes "Key points to land: " ++ join_with semicolons l] end ++
     match avoid_restating p with [] => [] | l => [codes "Do not restate: " ++ join_with semicolons l] end)%list.

Definition _parse_weak (answer : option string) : bool :=
  match captured _WEAK_RE (codes (opt_str answer)) with
  | Some v => bool_decide (lower_text v = codes "yes")
  | None => false
  end.

Definition _parse_critique (answer : option string) : text :=
  match captured _CRITIQUE_RE (codes (opt_str answer)) with
  | Some v => take _CRITIQUE_MAX_CHARS (strip_text v)
  | None => []
  end.

(** ** The passes *)

Inductive pass := CRITIC | REVISE.

Record PassRequest := mkPass {
  p_purpose : pass;
  p_model : string;
  p_alias : option string;
  p_user : text;
  p_system : text;
  p_max_tokens : Z;
  p_cause : string;
  p_agent : string;
  p_interaction : string;
}.

(** What a leased call ends in: an answer, cut short or not, or an exception. *)
Inductive pass_outcome :=
| PassAnswer (t : option string) (truncated : bool)
| PassRaised.

(** Who writes, and what the passes are billed to. *)
Record Compose := mkCompose {
  c_name : text;
  c_role : text;
  c_model : string;
  c_alias : option string;
  c_cause : string;
  c_agent : string;
  c_interaction : string;
  c_max_tokens : Z;
}.

Section reflexion.
Context (load_snippet : string -> result string text).
Context {W : Type} (resolved : option (string * option string)) (create_message : PassRequest -> W -> pass_outcome * W).

Definition persona_args (k : Compose) : list (text * text) :=
  [(codes "persona_name", c_name k); (codes "persona_role", c_role k)].

Definition critic_request (k : Compose) (model : string * option string) (plan_brief : text) (draft : string) : result string PassRequest :=
  let! s := load_snippet _CRITIC_SYSTEM_SNIPPET in
  let! system := format (persona_args k) s in
  let! u := load_snippet _CRITIC_USER_SNIPPET in
  let user := (codes "Your private plan for the message:" ++ newline ++ plan_brief ++ newline ++ newline ++
               codes "Your draft message:" ++ newline ++ codes draft ++ newline ++ newline ++ u)%list in
  Ok (mkPass CRITIC model.1 model.2 user system _CRITIC_MAX_OUTPUT_TOKENS (c_cause k) (c_agent k) (c_interaction k)).

Definition revise_request (k : Compose) (plan_brief critique : text) (draft : string) : result string PassRequest :=
  let! s := load_snippet _REVISE_SYSTEM_SNIPPET in
  let! system := format (persona_args k) s in
  let critique_block := match critique with [] => [] | _ => (codes "A reviewer flagged: " ++ critique ++ newline ++ newline)%list end in
  let! u := load_snippet _REVISE_USER_SNIPPET in
  let user := (codes "Your private plan for the message:" ++ newline ++ plan_brief ++ newline ++ newline ++ critique_block ++
               codes "Your current draft:" ++ newline ++ codes draft ++ newline ++ newline ++ u)%list in
  Ok (mkPass REVISE (c_model k) (c_alias k) user system (c_max_tokens k) (c_cause k) (c_agent k) (c_interaction k)).

(** The verdict of the critic: a strong draft, a weak one with its critique, or
    a call that could not complete. *)
Inductive verdict := Strong | Weak (critique : text) | CriticDegraded.

Definition _run_critic (k : Compose) (model : string * option string) (plan_brief : text) (draft : string) (w : W) : verdict * W :=
  match critic_request k model plan_brief draft with
  | Raise _ => (CriticDegraded, w)
  | Ok request =>
      match create_message request w with
      | (PassRaised, w) => (CriticDegraded, w)
      | (PassAnswer t _, w) => (if _parse_weak t then Weak (_parse_critique t) else Strong, w)
      end
  end.

(** The rewrite, [None] to keep the draft. *)
Definition _run_revise (k : Compose) (plan_brief critique : text) (draft : string) (w : W) : option string * W :=
  match revise_request k plan_brief critique draft with
  | Raise _ => (None, w)
  | Ok request =>
      match create_message request w with
      | (PassRaised, w) => (None, w)
      | (PassAnswer t truncated, w) =>
          (if truncated then None
           else let revised := strip (opt_str t) in if truthy revised then Some revised else None, w)
      end
  end.

(** The rounds left, the draft and the rounds counted. *)
Fixpoint rounds (k : Compose) (model : string * option string) (plan_brief : text) (n : nat) (current : string) (count : Z) (w : W) :
    (string * Z * bool) * W :=
  match n with
  | O => (current, count, false, w)
  | S n =>
      match _run_critic k model plan_brief current w with
      | (CriticDegraded, w) => (current, count, true, w)
      | (Strong, w) => (current, count, false, w)
      | (Weak critique, w) =>
          match _run_revise k plan_brief critique current w with
          | (None, w) => (current, count, true, w)
          | (Some revised, w) =>
              if String.eqb revised current then (current, count, false, w)
              else rounds k model plan_brief n revised (count + 1) w
          end
      end
  end.

Definition run_reflexion (k : Compose) (draft : string) (plan : option CompositionPlan) (revise : Z) (w : W) : ReflexionResult * W :=
  let rounds_cap := Z.min revise MAX_REVISE_ROUNDS in
  match plan with
  | Some p =>
      if (rounds_cap <=? 0)%Z || negb (truthy (strip draft)) then (mkReflexion draft 0 false false, w)
      else
        match resolved with
        | None => (mkReflexion draft 0 false true, w)
        | Some model =>
            let '(current, count, degraded, w) := rounds k model (_plan_brief p) (Z.to_nat rounds_cap) draft 0 w in
            (mkReflexion current count (negb (String.eqb current draft)) degraded, w)
        end
  | None => (mkReflexion draft 0 false false, w)
  end.

(** ** In a turn *)

Context (str_of : pyval -> string).

Definition content_text (k : string) (p : pydict) : string :=
  match dget k p with Some (VStr s) => s | Some v => str_of v | None => "" end.

(** The first message that says something, with what is around it. *)
Fixpoint split_draft (actions : list LlmAction) : result string (option (list LlmAction * pydict * list LlmAction)) :=
  match actions with
  | [] => Ok None
  | a :: actions =>
      let next := let! found := split_draft actions in
                  Ok (option_map (λ '(pre, p, post), (a :: pre, p, post)) found) in
      if bool_decide (la_type a = SEND_CHANNEL_MESSAGE) then
        match la_payload a with
        | VDict p => if truthy (strip (content_text "content" p)) then Ok (Some ([], p, actions)) else next
        | _ => Raise "AttributeError"
        end
      else next
  end.

(** [compose]: the agent's name, role and models as read, which may raise. The
    rounds charted are the second component. *)
Definition maybe_revise_channel_message (compose : result string Compose) (actions : list LlmAction)
    (salience : option SalienceOutcome) (w : W) : result string (list LlmAction) * option ReflexionResult * W :=
  match salience with
  | Some o =>
      match o_plan o with
      | Some plan =>
          if (o_revise o <? 1)%Z then (Ok actions, None, w)
          else
            match split_draft actions with
            | Raise x => (Raise x, None, w)
            | Ok None => (Ok actions, None, w)
            | Ok (Some (pre, p, post)) =>
                match compose with
                | Raise _ => (Ok actions, None, w)
                | Ok k =>
                    let '(r, w) := run_reflexion k (content_text "content" p) (Some plan) (o_revise o) w in
                    if negb (r_changed r) then (Ok actions, Some r, w)
                    else
                      (Ok (pre ++ mkLlm SEND_CHANNEL_MESSAGE (VDict (dset "content" (VStr (r_text r)) p)) :: post)%list, Some r, w)
                end
            end
      | None => (Ok actions, None, w)
      end
  | None => (Ok actions, None, w)
  end.
End reflexion.

(** ** Properties *)

Section reflexion_props.
Context (load_snippet : string -> result string text).
Context {W : Type} (resolved : option (string * option string)) (create_message : PassRequest -> W -> pass_outcome * W).

(** The world after some calls. *)
Definition after_calls (reqs : list PassRequest) (w : W) : W := fold_left (λ w r, (create_message r w).2) reqs w.

Definition revises (reqs : list PassRequest) : nat := length (List.filter (λ r, match p_purpose r with REVISE => true | CRITIC => false end) reqs).

(** A critic's answer that states the draft is weak. *)
Definition flagged : Prop :=
  exists request w t cut w', create_message request w = (PassAnswer t cut, w') /\ p_purpose request = CRITIC /\
    answers "weak" (codes (opt_str t)) true.

(** [text] is a complete rewrite. *)
Definition rewritten (text : string) : Prop :=
  exists request w t w', create_message request w = (PassAnswer t false, w') /\ p_purpose request = REVISE /\
    text = strip (opt_str t) /\ text <> "".

Lemma weak_answers t : _parse_weak t = true -> answers "weak" (codes (opt_str t)) true.
Proof.
  unfold _parse_weak, _WEAK_RE. pose proof (yes_no_reads "weak" (codes (opt_str t))) as H.
  destruct (captured _ _) as [v|]; [|done]. cbn [option_map] in H. intros E. by rewrite E in H.
Qed.

(** A pass as the turn of [k] is billed for it. *)
Definition issued (k : Compose) (q : PassRequest) : Prop :=
  p_cause q = c_cause k /\ p_agent q = c_agent k /\ p_interaction q = c_interaction k /\
  p_max_tokens q = match p_purpose q with CRITIC => _CRITIC_MAX_OUTPUT_TOKENS | REVISE => c_max_tokens k end.

Lemma critic_spec k model brief draft w :
  let '(v, w') := _run_critic load_snippet create_message k model brief draft w in
  exists reqs, (length reqs <= 1)%nat /\ revises reqs = 0%nat /\ w' = after_calls reqs w /\ Forall (issued k) reqs /\
    (forall c, v = Weak c -> flagged).
Proof.
  unfold _run_critic. destruct (critic_request _ _ _ _ _) as [request|x] eqn:Er; [|exists []; cbn; split_and!; done || lia].
  assert (p_purpose request = CRITIC /\ issued k request) as [Hp Hk].
  { unfold critic_request in Er. apply rbind_Ok in Er as (s&_&(sys&_&(u&_&Er)%rbind_Ok)%rbind_Ok). by injection Er as <-. }
  destruct (create_message request w) as [[t cut|] w'] eqn:Ec.
  - exists [request]. unfold revises, after_calls. cbn. rewrite Hp, Ec. split_and!; [lia|done|done|by constructor|].
    intros c Hv. destruct (_parse_weak t) eqn:Ew; [|done]. apply weak_answers in Ew. by exists request, w, t, cut, w'.
  - exists [request]. unfold revises, after_calls. cbn. rewrite Hp, Ec. split_and!; try (done || lia). by constructor.
Qed.

Lemma revise_spec k brief critique draft w :
  let '(v, w') := _run_revise load_snippet create_message k brief critique draft w in
  exists reqs, (length reqs <= 1)%nat /\ w' = after_calls reqs w /\ Forall (issued k) reqs /\
    (forall s, v = Some s -> rewritten s).
Proof.
  unfold _run_revise. destruct (revise_request _ _ _ _ _) as [request|x] eqn:Er; [|exists []; cbn; split_and!; done || lia].
  assert (p_purpose request = REVISE /\ issued k request) as [Hp Hk].
  { unfold revise_request in Er. apply rbind_Ok in Er as (s&_&(sys&_&(u&_&Er)%rbind_Ok)%rbind_Ok). by injection Er as <-. }
  destruct (create_message request w) as [[t cut|] w'] eqn:Ec; exists [request]; unfold after_calls; cbn; rewrite Ec;
    (split_and!; [lia|done|by constructor|]); [|done].
  intros s. destruct cut; [done|]. destruct (truthy (strip (opt_str t))) eqn:Et; [|done]. intros [= <-].
  exists request, w, t, w'. split_and!; try done. by apply truthy_true.
Qed.

Lemma after_calls_app a b w : after_calls (a ++ b) w = after_calls b (after_calls a w).
Proof. apply fold_left_app. Qed.

Lemma revises_le reqs : (revises reqs <= length reqs)%nat.
Proof. unfold revises. induction reqs as [|r reqs IH]; cbn; [lia|]. destruct (p_purpose r); cbn; lia. Qed.

Lemma revises_app a b : revises (a ++ b) = (revises a + revises b)%nat.
Proof. unfold revises. by rewrite List.filter_app, length_app. Qed.

Lemma rounds_spec k model brief n : forall current count w,
  let '(text, count', degraded, w') := rounds load_snippet create_message k model brief n current count w in
  (count <= count' <= count + Z.of_nat n)%Z /\
  (text = current \/ rewritten text /\ flagged) /\
  exists reqs, w' = after_calls reqs w /\ (length reqs <= 2 * n)%nat /\ (revises reqs <= n)%nat /\ Forall (issued k) reqs.
Proof.
  induction n as [|n IH]; intros current count w; cbn [rounds].
  { split_and!; [lia|lia|by left|]. exists []. cbn. split_and!; done || lia. }
  pose proof (critic_spec k model brief current w) as Hc. destruct (_run_critic _ _ _ _ _ _ _) as [v w1].
  destruct Hc as (r1&Hl1&Hr1&->&Hi1&Hflag).
  destruct v as [|critique|]; try (split_and!; [lia|lia|by left|exists r1; split_and!; [done|lia|lia|done]]).
  pose proof (revise_spec k brief critique current (after_calls r1 w)) as Hv. destruct (_run_revise _ _ _ _ _ _ _) as [s w2].
  destruct Hv as (r2&Hl2&->&Hi2&Hrw). rewrite <- after_calls_app. pose proof (revises_le r2).
  assert (length (r1 ++ r2) <= 2 /\ revises (r1 ++ r2) <= 1)%nat as [Hl Hr] by (rewrite length_app, revises_app; lia).
  assert (Forall (issued k) (r1 ++ r2)) as Hi by (by apply Forall_app).
  destruct s as [s|]; [|split_and!; [lia|lia|by left|exists (r1 ++ r2)%list; split_and!; [done|lia|lia|done]]].
  destruct (String.eqb_spec s current) as [->|Hne]; [split_and!; [lia|lia|by left|exists (r1 ++ r2)%list; split_and!; [done|lia|lia|done]]|].
  specialize (IH s (count + 1)%Z (after_calls (r1 ++ r2) w)). destruct (rounds _ _ _ _ _ _ _ _ _) as [[[text count'] degraded] w3].
  destruct IH as (Hcount&Htext&r3&->&Hl3&Hr3&Hi3). rewrite <- after_calls_app. split_and!; [lia|lia| |].
  - right. destruct Htext as [->|[? ?]]; [split; [by apply Hrw|by eapply Hflag]|done].
  - exists ((r1 ++ r2) ++ r3)%list. rewrite (length_app (r1 ++ r2)), (revises_app (r1 ++ r2)). split_and!; [done|lia|lia|by apply Forall_app].
Qed.

(** The most rounds a request allows. *)
Definition cap (revise : Z) : nat := Z.to_nat (Z.min revise MAX_REVISE_ROUNDS).

(** Reflexion never blocks a post and its cost is bounded. Whatever the model
    answers and whichever call fails, a draft that could be posted leaves a text
    that can be; it changed only if a critic said in so many words that the draft
    is weak and a rewrite came back complete and not empty, and then it is that
    rewrite. There are at most two calls a round, one of them a rewrite, in at
    most two rounds, and none without a plan, rounds or a draft. *)
Theorem reflexion_bounded k draft plan revise w :
  let '(r, w') := run_reflexion load_snippet resolved create_message k draft plan revise w in
  (truthy (strip draft) = true -> truthy (strip (r_text r)) = true) /\
  (r_changed r = true <-> r_text r <> draft) /\
  (r_changed r = true -> rewritten (r_text r) /\ flagged) /\
  (0 <= r_rounds r <= Z.of_nat (cap revise))%Z /\ (r_changed r = true -> 0 < r_rounds r)%Z /\
  (exists reqs, w' = after_calls reqs w /\ (length reqs <= 2 * cap revise)%nat /\ (revises reqs <= cap revise)%nat) /\
  (plan = None \/ (revise <= 0)%Z \/ truthy (strip draft) = false -> r = mkReflexion draft 0 false false /\ w' = w).
Proof.
  assert (forall d, let r := mkReflexion draft 0 false d in
    (truthy (strip draft) = true -> truthy (strip (r_text r)) = true) /\ (r_changed r = true <-> r_text r <> draft) /\
    (r_changed r = true -> rewritten (r_text r) /\ flagged) /\ (0 <= r_rounds r <= Z.of_nat (cap revise))%Z /\
    (r_changed r = true -> 0 < r_rounds r)%Z /\
    (exists reqs, w = after_calls reqs w /\ (length reqs <= 2 * cap revise)%nat /\ (revises reqs <= cap revise)%nat)) as Hkeep.
  { intros d. cbn. split_and!; try done; [lia|]. exists []. cbn. split_and!; [done|lia|lia]. }
  unfold run_reflexion. destruct plan as [p|]; [|specialize (Hkeep false); naive_solver].
  destruct (Z.leb_spec (Z.min revise MAX_REVISE_ROUNDS) 0) as [Hcap|Hcap]; cbn [orb]; [specialize (Hkeep false); naive_solver|].
  destruct (truthy (strip draft)) eqn:Ed; cbn [negb]; [|specialize (Hkeep false); naive_solver].
  destruct resolved as [model|]; cbv iota.
  2:{ specialize (Hkeep true). split_and!; try apply Hkeep. intros [?|[?|?]]; [done| |done]. unfold MAX_REVISE_ROUNDS in *. lia. }
  pose proof (rounds_spec k model (_plan_brief p) (cap revise) draft 0 w) as H. fold (cap revise).
  assert (forall text count degraded w' , rounds load_snippet create_message k model (_plan_brief p) (cap revise) draft 0 w = (text, count, degraded, w') ->
    text <> draft -> 0 < count)%Z as Hpos.
  { intros text count degraded w' E Hne. destruct (cap revise) as [|n]; cbn [rounds] in E; [congruence|].
    destruct (_run_critic _ _ _ _ _ _ _) as [[|critique|] w1]; try congruence.
    destruct (_run_revise _ _ _ _ _ _ _) as [[s|] w2]; [|congruence]. destruct (String.eqb s draft); [congruence|].
    pose proof (rounds_spec k model (_plan_brief p) n s (0 + 1) w2) as H'. rewrite E in H'. lia. }
  destruct (rounds _ _ _ _ _ _ _ _ _) as [[[text count] degraded] w']. destruct H as (Hc&Ht&reqs&->&Hl&Hr&_).
  cbn [r_text r_changed r_rounds]. assert (negb (text =? draft)%string = true <-> text <> draft) as Hch.
  { rewrite negb_true_iff. apply String.eqb_neq. }
  split_and!; [|done| |lia|lia| |by exists reqs|].
  - intros _. destruct Ht as [->|[(request&w1&t&w2&_&_&->&Hne) _]]; [done|]. rewrite strip_strip. by apply truthy_true.
  - intros Hne%Hch. destruct Ht as [->|?]; done.
  - intros Hne%Hch. by eapply Hpos.
  - intros [?|[?|?]]; [done| |congruence]. unfold MAX_REVISE_ROUNDS in *. lia.
Qed.
End reflexion_props.

Section glue.
Context (load_snippet : string -> result string text) (str_of : pyval -> string).
Context {W : Type} (resolved : option (string * option string)) (create_message : PassRequest -> W -> pass_outcome * W).

Lemma split_draft_spec l :
  match split_draft str_of l with
  | Ok (Some (pre, p, post)) => l = (pre ++ mkLlm SEND_CHANNEL_MESSAGE (VDict p) :: post)%list /\
      truthy (strip (content_text str_of "content" p)) = true
  | Ok None => True
  | Raise x => ~ Forall well_formed l
  end.
Proof.
  induction l as [|[t v] l IH]; cbn [split_draft la_type la_payload]; [done|].
  assert (match (let! found := split_draft str_of l in Ok (option_map (λ '(pre, p, post), (mkLlm t v :: pre, p, post)) found)) with
    | Ok (Some (pre, p, post)) => mkLlm t v :: l = (pre ++ mkLlm SEND_CHANNEL_MESSAGE (VDict p) :: post)%list /\
        truthy (strip (content_text str_of "content" p)) = true
    | Ok None => True
    | Raise x => ~ Forall well_formed (mkLlm t v :: l)
    end) as Hnext.
  { destruct (split_draft str_of l) as [[[[pre p] post]|]|x]; cbn [rbind option_map]; [|done|].
    - destruct IH as [-> ?]. done.
    - intros [_ H]%Forall_cons. done. }
  case_bool_decide as Ht; [|done]. subst t. destruct v as [| | | | | |p]; cbv iota;
    try (by intros [(?&Hq&_) _]%Forall_cons). destruct (truthy (strip (content_text str_of "content" p))) eqn:E; [|done]. done.
Qed.

(** What a revision calls: passes of the turn, at most two a round, and only with a
    plan and rounds. *)
Lemma revision_calls compose actions salience w :
  exists reqs, (maybe_revise_channel_message load_snippet resolved create_message str_of compose actions salience w).2 =
      after_calls create_message reqs w /\
    (length reqs <= 2 * Z.to_nat MAX_REVISE_ROUNDS)%nat /\
    (reqs <> [] -> exists o k, salience = Some o /\ o_plan o <> None /\ (1 <= o_revise o)%Z /\ compose = Ok k /\ Forall (issued k) reqs).
Proof.
  assert (exists reqs : list PassRequest, w = after_calls create_message reqs w /\ (length reqs <= 2 * Z.to_nat MAX_REVISE_ROUNDS)%nat /\
    (reqs <> [] -> exists o k, salience = Some o /\ o_plan o <> None /\ (1 <= o_revise o)%Z /\ compose = Ok k /\ Forall (issued k) reqs)) as Hno.
  { exists []. split_and!; try done. cbn. lia. }
  unfold maybe_revise_channel_message. destruct salience as [o|]; [|exact Hno].
  destruct (o_plan o) as [plan|] eqn:Ep; [|exact Hno]. destruct (Z.ltb_spec (o_revise o) 1); [exact Hno|].
  destruct (split_draft str_of actions) as [[[[pre p] post]|]|x]; try exact Hno.
  destruct compose as [k|x]; [|exact Hno]. unfold run_reflexion.
  destruct (_ || _); [exact Hno|]. destruct resolved as [model|]; [|exact Hno].
  pose proof (rounds_spec load_snippet create_message k model (_plan_brief plan) (Z.to_nat (Z.min (o_revise o) MAX_REVISE_ROUNDS))
    (content_text str_of "content" p) 0 w) as Hs.
  destruct (rounds _ _ _ _ _ _ _ _ _) as [[[text count] degraded] w']. destruct Hs as (_&_&reqs&->&Hl&_&Hi).
  assert (exists reqs0 : list PassRequest, after_calls create_message reqs w = after_calls create_message reqs0 w /\
    (length reqs0 <= 2 * Z.to_nat MAX_REVISE_ROUNDS)%nat /\
    (reqs0 <> [] -> exists o0 k0, Some o = Some o0 /\ o_plan o0 <> None /\ (1 <= o_revise o0)%Z /\ Ok (E := string) k = Ok k0 /\ Forall (issued k0) reqs0)).
  { exists reqs. split; [done|]. split; [unfold MAX_REVISE_ROUNDS in *; lia|]. intros _. exists o, k. split_and!; [done|congruence|lia|done|done]. }
  by destruct (negb _).
Qed.

(** What a revision touches. The turn's actions come back, valid if they were,
    as they were but for the content of at most one message: the first that says
    something, where a critic called it weak, replaced by a complete rewrite that
    says something else. Its channel and its mentions stay. Without a plan and
    rounds nothing is called; a failing configuration keeps the draft. *)
Theorem revision_confined compose actions salience w :
  let '(r, charted, w') := maybe_revise_channel_message load_snippet resolved create_message str_of compose actions salience w in
  (Forall well_formed actions -> exists out, r = Ok out /\ Forall well_formed out) /\
  (forall out, r = Ok out -> out = actions \/
     exists pre p post s,
       actions = (pre ++ mkLlm SEND_CHANNEL_MESSAGE (VDict p) :: post)%list /\
       out = (pre ++ mkLlm SEND_CHANNEL_MESSAGE (VDict (dset "content" (VStr s) p)) :: post)%list /\
       s <> content_text str_of "content" p /\ rewritten create_message s /\ flagged create_message) /\
  (forall o, salience = Some o -> o_plan o = None \/ (o_revise o < 1)%Z -> r = Ok actions /\ w' = w) /\
  (salience = None \/ (exists x, compose = Raise x) -> w' = w) /\
  (charted <> None -> exists o, salience = Some o /\ o_plan o <> None /\ (1 <= o_revise o)%Z).
Proof.
  assert (forall (w' : W) (r : result string (list LlmAction)), r = Ok actions -> (Forall well_formed actions -> exists out, r = Ok out /\ Forall well_formed out) /\
    (forall out, r = Ok out -> out = actions \/
     exists pre p post s, actions = (pre ++ mkLlm SEND_CHANNEL_MESSAGE (VDict p) :: post)%list /\
       out = (pre ++ mkLlm SEND_CHANNEL_MESSAGE (VDict (dset "content" (VStr s) p)) :: post)%list /\
       s <> content_text str_of "content" p /\ rewritten create_message s /\ flagged create_message) /\
    (forall o, salience = Some o -> o_plan o = None \/ (o_revise o < 1)%Z -> r = Ok actions /\ w' = w') ) as Hkeep.
  { intros w' r ->. split_and!; [eauto|by intros out [= ->]; left|done]. }
  unfold maybe_revise_channel_message. destruct salience as [o|]; [|specialize (Hkeep w _ eq_refl); naive_solver].
  destruct (o_plan o) as [plan|] eqn:Epl; [|specialize (Hkeep w _ eq_refl); naive_solver].
  destruct (Z.ltb_spec (o_revise o) 1) as [Hr|Hr]; [specialize (Hkeep w _ eq_refl); naive_solver|].
  pose proof (split_draft_spec actions) as Hs. destruct (split_draft str_of actions) as [[[[pre p] post]|]|x].
  2:{ specialize (Hkeep w _ eq_refl). naive_solver. }
  2:{ split_and!; [by intros H; destruct Hs|done| |done|done]. intros o' [= <-] [?|?]; [congruence|lia]. }
  destruct Hs as [-> Hs]. destruct compose as [k|x]; [|specialize (Hkeep w _ eq_refl); naive_solver].
  pose proof (reflexion_bounded load_snippet resolved create_message k (content_text str_of "content" p) (Some plan) (o_revise o) w) as H.
  destruct (run_reflexion _ _ _ _ _ _ _ _) as [r w']. destruct H as (Hpost&Hch&Hrw&_). destruct (r_changed r) eqn:Ec; cbn [negb].
  - destruct (Hrw eq_refl) as [Hr1 Hr2]. split_and!.
    + intros Hw. eexists. split; [done|]. apply Forall_app in Hw as [Hw1 [Hw2 Hw3]%Forall_cons]. apply Forall_app.
      split; [done|]. constructor; [|done]. destruct Hw2 as (q&[= <-]&Hc&_). eexists. split; [done|]. split.
      * unfold has_text in *. by rewrite dget_dset_ne.
      * unfold has_text. rewrite dget_dset_eq. by apply Hpost.
    + intros out [= <-]. right. exists pre, p, post, (r_text r). split_and!; try done. by apply Hch.
    + intros o' [= <-] [?|?]; [congruence|lia].
    + intros [?|[? ?]]; done.
    + intros _. exists o. split_and!; [done|congruence|done].
  - specialize (Hkeep w' _ eq_refl). split_and!; try apply Hkeep.
    + intros o' [= <-] [?|?]; [congruence|lia].
    + intros [?|[? ?]]; done.
    + intros _. exists o. split_and!; [done|congruence|done].
Qed.
End glue.

Example weak_demo : _parse_weak (Some "Weak: YES, critique: flat") = true /\ _parse_weak (Some "weak: yesterday") = false /\
  _parse_critique (Some "weak: yes
critique:  says nothing new ") = codes "says nothing new".
Proof. vm_compute. done. Qed.
