(* ===== verification/PersonaState.v ===== *)
(** * The state of a persona

    Models [PersonaState] of [agents/persona_types.py] and its persistence in
    [agents/persona_runtime/state_persistence.py]: mood, stress, energy and the
    progress of goals. [float(s)] of a [str] is the argument [float_of_str]; what
    the state renders as in a prompt is not modelled. *)

From S2P Require Import Prelude PyStr PyDict PyValue PyFloat.
Local Open Scope string_scope.
Local Open Scope py_scope.

Inductive Mood := NEUTRAL | FOCUSED | FRUSTRATED | ENERGIZED | UNCERTAIN | SATISFIED.

#[export] Instance Mood_eq_dec : EqDecision Mood.
Proof. solve_decision. Defined.

Definition mood_value (m : Mood) : string :=
  match m with
  | NEUTRAL => "neutral" | FOCUSED => "focused" | FRUSTRATED => "frustrated"
  | ENERGIZED => "energized" | UNCERTAIN => "uncertain" | SATISFIED => "satisfied"
  end.

Definition moods : list Mood := [NEUTRAL; FOCUSED; FRUSTRATED; ENERGIZED; UNCERTAIN; SATISFIED].

(** [Mood(v)], NEUTRAL for what is none *)
Definition Mood_of (v : pyval) : Mood :=
  default NEUTRAL (List.find (λ m, v_eq_str v (mood_value m)) moods).

Definition _ENERGY_COST_PER_ACTION : Q := 5 # 100.
Definition _ENERGY_RECOVERY_PER_TICK : Q := 1 # 10.

Record PersonaState := mkState {
  mood : Mood;
  stress_level : Q;
  energy : Q;
  recent_context : list string;
  goal_progress : list (string * Q);
}.

Definition initial_state : PersonaState := mkState NEUTRAL 0 1 [] [].

Definition drain_energy (s : PersonaState) : PersonaState :=
  mkState (mood s) (stress_level s) (fmax 0 (energy s - _ENERGY_COST_PER_ACTION)) (recent_context s) (goal_progress s).

Definition recover_energy (s : PersonaState) : PersonaState :=
  mkState (mood s) (stress_level s) (fmin 1 (energy s + _ENERGY_RECOVERY_PER_TICK)) (recent_context s) (goal_progress s).

Definition to_dict (s : PersonaState) : pydict :=
  [("mood", VStr (mood_value (mood s))); ("stress_level", VFloat (stress_level s)); ("energy", VFloat (energy s));
   ("goal_progress", VDict (map (λ '(k, q), (k, VFloat q)) (goal_progress s)))].

Section load.
Context (float_of_str : string -> option pyfloat).

(** [float(v)] *)
Definition py_float (v : pyval) : result string pyfloat :=
  match v with
  | VBool b => Ok (Fin (if b then 1 else 0)%Q)
  | VInt z => if int_overflows z then Raise "OverflowError" else Ok (Fin (inject_Z z))
  | VFloat q => Ok (Fin q)
  | VStr s => match float_of_str s with Some x => Ok x | None => Raise "ValueError" end
  | _ => Raise "TypeError"
  end.

(** [min(1.0, max(0.0, x))], always a finite number *)
Definition clamp01 (x : pyfloat) : Q :=
  match py_min (Fin 1) (py_max (Fin 0) x) with Fin q => q | _ => 1 end.

(** The goals read, in order; one that is no number is skipped. *)
Fixpoint load_goals (raw : pydict) (goals : list (string * Q)) : result string (list (string * Q)) :=
  match raw with
  | [] => Ok goals
  | (k, v) :: raw =>
      match py_float v with
      | Ok x => load_goals raw (dset k (clamp01 x) goals)
      | Raise x => if bool_decide (x = "TypeError" \/ x = "ValueError") then load_goals raw goals else Raise x
      end
  end.

Definition from_dict (data : pydict) : result string PersonaState :=
  let m := Mood_of (dget_or "mood" (VStr "neutral") data) in
  match dget_or "goal_progress" (VDict []) data with
  | VDict raw_goals =>
      let! goals := load_goals raw_goals [] in
      let! stress := py_float (dget_or "stress_level" (VFloat 0) data) in
      let! e := py_float (dget_or "energy" (VFloat 1) data) in
      Ok (mkState m (clamp01 stress) (clamp01 e) [] goals)
  | _ => Raise "AttributeError"
  end.

(** ** [state_persistence.py]: the stored row, parsed; what cannot be read is
    replaced by the defaults *)
Definition _load_persona_state (stored : result string (option pyval)) : PersonaState :=
  match stored with
  | Ok (Some (VDict data)) =>
      match from_dict data with Ok s => s | Raise _ => initial_state end
  | _ => initial_state
  end.

(** ** Properties *)

Definition unit_interval (q : Q) : Prop := (0 <= q <= 1)%Q.

Definition in_range (s : PersonaState) : Prop :=
  unit_interval (stress_level s) /\ unit_interval (energy s) /\ Forall (λ g, unit_interval g.2) (goal_progress s).

Lemma clamp01_range x : unit_interval (clamp01 x).
Proof.
  assert (forall q, (0 <= q)%Q -> unit_interval (match py_min (Fin 1) (Fin q) with Fin q => q | _ => 1 end)) as H.
  { intros q Hq. unfold unit_interval, py_min. cbn. destruct (Qltb q 1) eqn:E; q_props; lra. }
  unfold clamp01, py_max. destruct x as [q| | |]; cbn [flt]; [|cbn; unfold unit_interval; lra|by apply H|by apply H].
  destruct (Qltb 0 q) eqn:E; apply H; q_props; lra.
Qed.

Lemma clamp01_id q : unit_interval q -> (clamp01 (Fin q) == q)%Q.
Proof.
  unfold clamp01, unit_interval, py_min, py_max. intros H. cbn. destruct (Qltb 0 q) eqn:E1; cbn.
  - destruct (Qltb q 1) eqn:E2; q_props; lra.
  - change (Qltb 0 1) with true. cbv iota. q_props. lra.
Qed.

Lemma load_goals_range raw : forall goals out, load_goals raw goals = Ok out ->
  Forall (λ g, unit_interval g.2) goals -> dwf goals -> Forall (λ g, unit_interval g.2) out /\ dwf out.
Proof.
  assert (forall k x goals, Forall (λ g : string * Q, unit_interval g.2) goals -> Forall (λ g, unit_interval g.2) (dset k (clamp01 x) goals)) as Hset.
  { intros k x goals H. induction H as [|[k' q] goals Hq Hg IH]; cbn [dset]; [constructor; [apply clamp01_range|constructor]|].
    case_decide; constructor; try done. apply clamp01_range. }
  induction raw as [|[k v] raw IH]; intros goals out; cbn [load_goals]; [by intros [= <-]|].
  destruct (py_float v) as [x|x]; [intros; eapply IH; eauto using dwf_dset|].
  case_bool_decide; [apply IH|done].
Qed.

(** A state that was written reads back: the mood, the numbers and the goals, and
    no context. *)
Definition same_state (s t : PersonaState) : Prop :=
  mood s = mood t /\ (stress_level s == stress_level t)%Q /\ (energy s == energy t)%Q /\
  Forall2 (λ g h, g.1 = h.1 /\ (g.2 == h.2)%Q) (goal_progress s) (goal_progress t).

Lemma Mood_of_value m : Mood_of (VStr (mood_value m)) = m.
Proof. by destruct m. Qed.

Lemma load_goals_back gs : forall seen,
  Forall (λ g, unit_interval g.2) gs -> NoDup (map fst (seen ++ gs)) ->
  exists out, load_goals (map (λ '(k, q), (k, VFloat q)) gs) seen = Ok (seen ++ out)%list /\
    Forall2 (λ g h, g.1 = h.1 /\ (g.2 == h.2)%Q) gs out.
Proof.
  induction gs as [|[k q] gs IH]; intros dn Hr Hd; cbn [map load_goals].
  { exists []. by rewrite app_nil_r. }
  apply Forall_cons in Hr as [Hq Hr]. cbn [py_float]. rewrite dset_fresh.
  2:{ apply dget_None. unfold dkeys. intros Hin. rewrite map_app in Hd. apply NoDup_app in Hd as (_&Hd&_).
      apply (Hd k Hin). by left. }
  destruct (IH (dn ++ [(k, clamp01 (Fin q))])%list) as (out&Ho&Hf); [done| |].
  { rewrite !map_app in *. cbn [map fst] in *. by rewrite <- app_assoc. }
  exists ((k, clamp01 (Fin q)) :: out). split; [by rewrite Ho, <- app_assoc|]. constructor; [|done].
  split; [done|]. cbn. by rewrite clamp01_id.
Qed.

(** The state of a persona survives a restart, and no stored row breaks it.
    Whatever the row holds, the state that is loaded has its levels and the
    progress of every goal in the unit interval; the row a state in range was
    written to reads back as that state, its goals in order; draining and
    recovering keep a state in range and move energy by at most one step. *)
Theorem state_roundtrip s :
  in_range s -> dwf (goal_progress s) ->
  (exists t, from_dict (to_dict s) = Ok t /\ same_state s t /\ recent_context t = [] /\
     _load_persona_state (Ok (Some (VDict (to_dict s)))) = t) /\
  (forall stored, in_range (_load_persona_state stored) /\ dwf (goal_progress (_load_persona_state stored))) /\
  in_range (drain_energy s) /\ in_range (recover_energy s) /\
  (energy s - _ENERGY_COST_PER_ACTION <= energy (drain_energy s) <= energy s)%Q /\
  (energy s <= energy (recover_energy s) <= energy s + _ENERGY_RECOVERY_PER_TICK)%Q.
Proof.
  intros (Hst&He&Hg) Hd. unfold _ENERGY_COST_PER_ACTION, _ENERGY_RECOVERY_PER_TICK. split_and!.
  - destruct (load_goals_back (goal_progress s) [] Hg Hd) as (out&Ho&Hf).
    exists (mkState (mood s) (clamp01 (Fin (stress_level s))) (clamp01 (Fin (energy s))) [] out).
    assert (from_dict (to_dict s) = Ok (mkState (mood s) (clamp01 (Fin (stress_level s))) (clamp01 (Fin (energy s))) [] out)) as E.
    { unfold from_dict.
      change (dget_or "goal_progress" (VDict []) (to_dict s)) with (VDict (map (λ '(k, q), (k, VFloat q)) (goal_progress s))).
      change (dget_or "mood" (VStr "neutral") (to_dict s)) with (VStr (mood_value (mood s))).
      rewrite Mood_of_value, Ho. reflexivity. }
    split_and!; [done| |done|unfold _load_persona_state; by rewrite E].
    unfold same_state. cbn. rewrite !clamp01_id by done. done.
  - intros [[[| | | | | |data]|]|x]; cbn [_load_persona_state];
      try (unfold in_range, unit_interval, initial_state; cbn; split_and!; [lra..|constructor|apply NoDup_nil; done]).
    destruct (from_dict data) as [t|x] eqn:E;
      [|unfold in_range, unit_interval, initial_state; cbn; split_and!; [lra..|constructor|apply NoDup_nil; done]].
    unfold from_dict in E. destruct (dget_or "goal_progress" _ data) as [| | | | | |raw]; try done.
    apply rbind_Ok in E as (goals&Hgo&(st&_&(en&_&[= <-])%rbind_Ok)%rbind_Ok).
    destruct (load_goals_range raw [] goals Hgo) as [? ?]; [constructor|by apply NoDup_nil|].
    unfold in_range. cbn. split_and!; try done; apply clamp01_range.
  - unfold in_range, drain_energy. cbn. split_and!; try done. unfold unit_interval, fmax, _ENERGY_COST_PER_ACTION in *.
    destruct (Qltb _ _) eqn:E; q_props; lra.
  - unfold in_range, recover_energy. cbn. split_and!; try done. unfold unit_interval, fmin, _ENERGY_RECOVERY_PER_TICK in *.
    destruct (Qltb _ _) eqn:E; q_props; lra.
  - cbn. unfold fmax, _ENERGY_COST_PER_ACTION, unit_interval in *. destruct (Qltb _ _) eqn:E; q_props; lra.
  - cbn. unfold fmax, _ENERGY_COST_PER_ACTION, unit_interval in *. destruct (Qltb _ _) eqn:E; q_props; lra.
  - cbn. unfold fmin, _ENERGY_RECOVERY_PER_TICK, unit_interval in *. destruct (Qltb _ _) eqn:E; q_props; lra.
  - cbn. unfold fmin, _ENERGY_RECOVERY_PER_TICK, unit_interval in *. destruct (Qltb _ _) eqn:E; q_props; lra.
Qed.
End load.

Definition demo_state : PersonaState := mkState FOCUSED (1 # 4) (3 # 4) ["x"] [("ship", 1 # 2); ("rest", 0)].

Lemma state_roundtrip_witness :
  exists t, from_dict (λ _, None) (to_dict demo_state) = Ok t /\ same_state demo_state t.
Proof.
  destruct (state_roundtrip (λ _, None) demo_state) as ((t&Ht&Hs&_)&_).
  - unfold in_range, unit_interval. cbn. split_and!; try (unfold Qle; cbn; lia). repeat constructor; cbn; unfold Qle; cbn; lia.
  - unfold dwf. cbn. repeat constructor; set_solver.
  - by exists t.
Defined.
