(* ===== verification/LlmTypes.v ===== *)
(** * The provider-agnostic types of a model call

    Models [agents/llm_types.py]: what a provider's answer is mapped to, a call of
    a tool, and the result a tool gives back. *)

From S2P Require Import Prelude PyValue.

Inductive TurnStop := END_TURN | TOOL_USE | MAX_TOKENS.

#[export] Instance turn_stop_eq_dec : EqDecision TurnStop.
Proof. solve_decision. Defined.

Record Usage := mkUsage {
  input_tokens : Z;
  output_tokens : Z;
  cache_write_tokens : Z;
  cache_read_tokens : Z;
}.

Definition prompt_tokens (u : Usage) : Z := (input_tokens u + cache_write_tokens u + cache_read_tokens u)%Z.
Definition no_usage : Usage := mkUsage 0 0 0 0.

(** The arguments are what the provider's client parsed. *)
Record ToolCall := mkCall { call_id : string; call_name : string; call_input : pyval }.
Record LLMToolResult := mkToolResult { tool_call_id : string; tool_content : string; is_error : bool }.

Record LLMResponse := mkResponse {
  resp_text : option string;
  tool_calls : list ToolCall;
  stop_reason : TurnStop;
  usage : Usage;
}.
