(* ===== verification/PersonaTurn.v ===== *)
(** * One turn of a persona

    Models [_on_event_inner] of [agents/persona_runtime/action_loop.py] with the
    pieces it is made of: [channel_ingest.py], [gate_suppress.py],
    [compose_prompt.py], [llm_call_errors.py] and [lease_attribution_for_event]
    of [wallet_cause.py]. The agent's stores, prompts, tools and model are the
    record [TurnEnv] over a world [W]; messages are whatever the provider's client
    makes of them, [M]. A turn keeps what it emits and every leased model call it
    makes: the salience bid, the calls of its loop, the critic's and the revision's. *)

From Stdlib Require Import Ascii.
From stdpp Require Import pretty.
From S2P Require Import Prelude PyStr PyText PyDict PyValue PyFloat PersonaEvents ResponseGate FactPredicates SalienceDeliberation SalienceBid SalienceGate Security Classification InjectionGate ChannelValidation ActionParser ChannelReply Reflexion PersonaState LlmTypes.
Local Open Scope string_scope.
Local Open Scope py_scope.

(** ** [llm_call_errors.py] *)

(** What a leased call of a turn ends in. *)
Inductive llm_exception :=
| BudgetExceededError (reason : string)
| AioRpcError (resource_exhausted : bool)
| OtherException.

Definition exception_name (x : llm_exception) : string :=
  match x with BudgetExceededError _ => "BudgetExceededError" | AioRpcError _ => "AioRpcError" | OtherException => "Exception" end.

(** ** [channel_ingest.py] *)

Definition set_payload (e : AgentEvent) (p : pydict) : AgentEvent :=
  mkEvent (event_type e) p (channel_id e) (sender_id e) (message_id e) (thread_id e) (timestamp e) (metadata e).

Definition sanitize_inbound_event (patterns : list (string * (string -> bool))) (e : AgentEvent) : result string AgentEvent :=
  if negb (bool_decide (event_type e = CHANNEL_MESSAGE)) then Ok e
  else
    match dget_or "content" (VStr "") (ev_payload e) with
    | VStr s =>
        if negb (truthy s) then Ok e
        else
          let! r := sanitize patterns s CONTEXT_SOURCE_CHANNEL_MESSAGE SANITIZER_ACTION_PASSTHROUGH in
          if String.eqb (content r) s then Ok e
          else Ok (set_payload e (dset "content" (VStr (content r)) (ev_payload e)))
    | _ => Ok e
    end.

(** ** The turn *)

Inductive turn_emission :=
| Replayed (channel_id : string)
| GatedBy (channel_id policy : string)
| TickIdle (idle_reason : string)
| FromSalience (em : SalienceGate.emission)
| Revised (r : ReflexionResult).

Inductive query := QContent (v : pyval) | QMessage (t : text).

Record TurnRequest (M : Type) := mkTurnRequest {
  t_messages : M;
  t_system : text;
  t_cause : string;
  t_agent : string;
  t_interaction : string;
  t_max_tokens : Z;
}.
Arguments mkTurnRequest {M}. Arguments t_messages {M}. Arguments t_system {M}. Arguments t_cause {M}.
Arguments t_agent {M}. Arguments t_interaction {M}. Arguments t_max_tokens {M}.

Record TurnEnv (W M : Type) := mkTurn {
  me : string;
  my_name : text;
  my_role : text;
  has_model : bool;
  max_llm_calls : Z;
  turn_max_tokens : Z;
  patterns : list (string * (string -> bool));
  format_event : AgentEvent -> text;
  build_seed_messages : AgentEvent -> text -> W -> result string (list (string * text)) * W;
  store_event_episode : AgentEvent -> list LlmAction -> W -> result string unit * W;
  close_interaction_on_notification : AgentEvent -> W -> result string unit * W;
  close_interaction_on_cost : AgentEvent -> W -> W;
  (** the tokens of memory admitted *)
  inject_memory_context : AgentEvent -> query -> W -> result string Z * W;
  has_active_goal_payload : W -> bool;
  has_pending_turn : W -> bool;
  build_system_prompt : W -> text;
  build_context : W -> list text;
  (** [task.config.sub_agent_parent_id], empty where the payload is no task *)
  sub_agent_parent : AgentEvent -> string;
  seed_messages : list (string * text) -> M;
  create_turn : TurnRequest M -> W -> (LLMResponse + llm_exception) * W;
  execute_tools : list ToolCall -> W -> list LLMToolResult * W;
  append_tool_round : M -> LLMResponse -> list LLMToolResult -> M;
  load_snippet : string -> result string text;
  resolved_model : option (string * string);
  create_bid : BidRequest -> W -> llm_outcome * W;
  create_pass : PassRequest -> W -> pass_outcome * W;
  (** the agent's name, role and models, as the revision reads them *)
  compose_config : result string (text * text * string * option string);
  loads : string -> result string pyval;
  str_of : pyval -> string;
  get_state : W -> PersonaState;
  set_state : PersonaState -> W -> W;
  persist_persona_state : W -> W;
}.
Arguments me {W M}. Arguments my_name {W M}. Arguments my_role {W M}. Arguments has_model {W M}. Arguments max_llm_calls {W M}.
Arguments turn_max_tokens {W M}. Arguments patterns {W M}. Arguments format_event {W M}. Arguments build_seed_messages {W M}.
Arguments store_event_episode {W M}. Arguments close_interaction_on_notification {W M}. Arguments close_interaction_on_cost {W M}.
Arguments inject_memory_context {W M}. Arguments has_active_goal_payload {W M}. Arguments has_pending_turn {W M}.
Arguments build_system_prompt {W M}. Arguments build_context {W M}. Arguments sub_agent_parent {W M}. Arguments seed_messages {W M}.
Arguments create_turn {W M}. Arguments execute_tools {W M}. Arguments append_tool_round {W M}. Arguments load_snippet {W M}.
Arguments resolved_model {W M}. Arguments create_bid {W M}. Arguments create_pass {W M}. Arguments compose_config {W M}. Arguments loads {W M}.
Arguments str_of {W M}. Arguments get_state {W M}. Arguments set_state {W M}. Arguments persist_persona_state {W M}.

(** A leased call of a turn. *)
Inductive leased_call (M : Type) := BidCall (q : BidRequest) | TurnCall (q : TurnRequest M) | PassCall (q : PassRequest).
Arguments BidCall {M}. Arguments TurnCall {M}. Arguments PassCall {M}.

Section turn.
Context {W M : Type} (env : TurnEnv W M).

Record state := mkTurnState { world : W; emitted : list turn_emission; calls : list (leased_call M) }.

(** An operation of the world beside the calls made so far, and one that is a call. *)
Definition beside {A} (f : W -> A * W) (wl : W * list (leased_call M)) : A * (W * list (leased_call M)) :=
  let '(a, w) := f wl.1 in (a, (w, wl.2)).
Definition calling {Q A} (c : Q -> leased_call M) (f : Q -> W -> A * W) (q : Q) (wl : W * list (leased_call M)) :
    A * (W * list (leased_call M)) :=
  let '(a, w) := f q wl.1 in (a, (w, wl.2 ++ [c q])%list).

Definition at_world (w : W) (s : state) : state := mkTurnState w (emitted s) (calls s).
Definition emit (em : list turn_emission) (s : state) : state := mkTurnState (world s) (emitted s ++ em)%list (calls s).

Definition idle_actions : list LlmAction := [nothing].

(** ** [gate_suppress.py] *)

Definition suppressed_event_actions (e : AgentEvent) (d : GateDecision) (s : state) : result string (list LlmAction) * state :=
  let s := emit [GatedBy (opt_str (channel_id e)) (str_or (policy d) "unknown")] s in
  if bool_decide (ResponseGate.reason d = "close_notification") then
    let '(r, w) := close_interaction_on_notification env e (world s) in
    (let! _ := r in Ok idle_actions, at_world w s)
  else if negb (bool_decide (policy d = POLICY_DEFENSE_IN_DEPTH)) then
    let '(r, w) := store_event_episode env e [] (world s) in
    (let! _ := r in Ok idle_actions, at_world w s)
  else (Ok idle_actions, s).

(** ** [llm_call_errors.py] *)

Definition provider_error : list LlmAction := [completed "LLM provider error"].

(** [None] is to re-raise. *)
Definition handle_llm_call_exception (x : llm_exception) (e : AgentEvent) : option (list LlmAction) * list turn_emission :=
  let is_tick := bool_decide (event_type e = TICK) in
  match x with
  | BudgetExceededError _ => if is_tick then (Some idle_actions, [TickIdle "budget_denied"]) else (None, [])
  | AioRpcError false => (Some provider_error, [])
  | AioRpcError true => if is_tick then (Some idle_actions, [TickIdle "resource_exhausted"]) else (None, [])
  | OtherException => (Some provider_error, [])
  end.

Definition handle_llm_call_exception_with_cost_close (x : llm_exception) (e : AgentEvent) (s : state) :
    result string (list LlmAction) * state :=
  let s := match x with
           | BudgetExceededError "interaction_budget_exhausted" => at_world (close_interaction_on_cost env e (world s)) s
           | _ => s
           end in
  let '(r, em) := handle_llm_call_exception x e in
  (match r with Some actions => Ok actions | None => Raise (exception_name x) end, emit em s).

(** ** Prompts and attribution *)

Definition gap : text := (SalienceBid.newline ++ SalienceBid.newline)%list.

Definition build_compose_system_prompt (salience : option SalienceOutcome) (w : W) : text :=
  let prompt := build_system_prompt env w in
  let prompt := match build_context env w with [] => prompt | sections => (prompt ++ gap ++ join_with gap sections)%list end in
  match salience with
  | Some o => match o_plan o with Some plan => (prompt ++ gap ++ render_plan_section plan)%list | None => prompt end
  | None => prompt
  end.

(** The cause, the agent and the interaction a call is billed to. *)
Definition lease_attribution_for_event (e : AgentEvent) : string * string * string :=
  let parent := if bool_decide (event_type e = TASK_ASSIGNED) then sub_agent_parent env e else "" in
  if truthy parent then ("CAUSE_SUB_AGENT", parent, lease_interaction_id_for_event e)
  else (cause_for_event e, me env, lease_interaction_id_for_event e).

(** ** The loop of model calls *)

(** What the loop ends in: the last response, if one came, or what an exception
    leaves to answer. *)
Inductive loop_end := LastResponse (r : option LLMResponse) | LoopFailed (r : result string (list LlmAction)).

Fixpoint llm_loop (e : AgentEvent) (request : M -> TurnRequest M) (n : nat) (messages : M) (last : option LLMResponse) (s : state) :
    loop_end * state :=
  match n with
  | O => (LastResponse last, s)
  | S n =>
      let s := mkTurnState (world s) (emitted s) (calls s ++ [TurnCall (request messages)])%list in
      match create_turn env (request messages) (world s) with
      | (inr x, w) =>
          let '(r, s) := handle_llm_call_exception_with_cost_close x e (at_world w s) in (LoopFailed r, s)
      | (inl response, w) =>
          match stop_reason response with
          | TOOL_USE =>
              let '(results, w) := execute_tools env (tool_calls response) w in
              llm_loop e request n (append_tool_round env messages response results) (Some response) (at_world w s)
          | _ => (LastResponse (Some response), at_world w s)
          end
      end
  end.

Definition exhausted_text : string :=
  "Max LLM call budget exhausted after " +:+ pretty (max_llm_calls env) +:+ " iterations".

(** The text to parse, or the answer of a turn that has none. *)
Definition answer_of (r : option LLMResponse) : option string + list LlmAction :=
  match r with
  | None => inr [completed "No LLM response"]
  | Some response =>
      match stop_reason response with
      | MAX_TOKENS => inr [completed "Response truncated: max_tokens limit reached"]
      | TOOL_USE => inl (Some exhausted_text)
      | END_TURN => inl (resp_text response)
      end
  end.

(** ** The single-channel guard, on actions as parsed *)

Definition guard_llm (c : string) (a : LlmAction) : result string LlmAction :=
  match la_type a with
  | SEND_CHANNEL_MESSAGE =>
      let! p := payload a in
      let g := guard_action c (mkAction SEND_CHANNEL_MESSAGE p) in
      Ok (mkLlm (action_type g) (VDict (act_payload g)))
  | _ => Ok a
  end.

Fixpoint guard_each (c : string) (actions : list LlmAction) : result string (list LlmAction) :=
  match actions with
  | [] => Ok []
  | a :: actions => let! b := guard_llm c a in let! l := guard_each c actions in Ok (b :: l)
  end.

Definition guard_turn (e : AgentEvent) (actions : list LlmAction) : result string (list LlmAction) :=
  match channel_id e with
  | Some c => if is_channel_acting (event_type e) && truthy c then guard_each c actions else Ok actions
  | None => Ok actions
  end.

(** ** The steps of a turn *)

Definition drain (actions : list LlmAction) (st : PersonaState) : PersonaState :=
  fold_left (λ st a, if bool_decide (la_type a = DO_NOTHING) then st else drain_energy st) actions st.

(** Steps 4 to 6: from the answer to the actions carried out. *)
Definition act (e : AgentEvent) (salience : option SalienceOutcome) (text : option string) (s : state) :
    result string (list LlmAction) * state :=
  match (let! actions := parse_actions (loads env) text in synthesize_channel_reply (str_of env) e actions) with
  | Raise x => (Raise x, s)
  | Ok actions =>
      let '(cause, lease_agent, interaction) := lease_attribution_for_event e in
      let compose := let! (name, role, model, alias) := compose_config env in
                     Ok (mkCompose name role model alias cause lease_agent interaction (turn_max_tokens env)) in
      let '(revised, charted, (w, made)) :=
        maybe_revise_channel_message (load_snippet env) (option_map (λ m, (m.1, Some m.2)) (resolved_model env))
          (calling PassCall (create_pass env)) (str_of env) compose actions salience (world s, calls s) in
      let s := mkTurnState w (emitted s ++ match charted with Some r => [Revised r] | None => [] end)%list made in
      match (let! actions := revised in guard_turn e actions) with
      | Raise x => (Raise x, s)
      | Ok actions =>
          let w := set_state env (drain actions (get_state env (world s))) (world s) in
          let '(r, w) := store_event_episode env e actions w in
          match r with
          | Raise x => (Raise x, at_world w s)
          | Ok _ => (Ok actions, at_world (persist_persona_state env w) s)
          end
      end
  end.

(** Steps 1 to 3: the calls of the turn. *)
Definition compose_turn (e : AgentEvent) (salience : option SalienceOutcome) (user_message : text) (s : state) :
    result string (list LlmAction) * state :=
  let system := build_compose_system_prompt salience (world s) in
  match match (match salience with Some o => o_seed o | None => None end) with
        | Some seed => (Ok seed, world s)
        | None => build_seed_messages env e user_message (world s)
        end with
  | (Raise x, w) => (Raise x, at_world w s)
  | (Ok seed, w) =>
      let '(cause, lease_agent, interaction) := lease_attribution_for_event e in
      let request m := mkTurnRequest m system cause lease_agent interaction (turn_max_tokens env) in
      match llm_loop e request (Z.to_nat (max_llm_calls env)) (seed_messages env seed) None (at_world w s) with
      | (LoopFailed r, s) => (r, s)
      | (LastResponse r, s) =>
          match answer_of r with
          | inr actions => (Ok actions, s)
          | inl text => act e salience text s
          end
      end
  end.

Definition seam : Seam (W * list (leased_call M)) :=
  mkSeam (W * list (leased_call M)) (me env) (my_name env) (my_role env) (format_event env)
    (λ e m, beside (build_seed_messages env e m)) (λ e, beside (store_event_episode env e []))
    (load_snippet env) (resolved_model env) (calling BidCall (create_bid env)).

Definition empty_context_tick_of (e : AgentEvent) (admitted_tokens : Z) (w : W) : bool :=
  bool_decide (event_type e = TICK) && (admitted_tokens =? 0)%Z && negb (has_active_goal_payload env w) && negb (has_pending_turn env w).

(** After the gates: memory, then the calls. *)
Definition recall_and_compose (e : AgentEvent) (salience : option SalienceOutcome) (s : state) : result string (list LlmAction) * state :=
  let user_message := match (match salience with Some o => o_user_message o | None => None end) with
                      | Some m => m | None => format_event env e end in
  let q := if bool_decide (event_type e = CHANNEL_MESSAGE) then QContent (dget_or "content" (VStr "") (ev_payload e)) else QMessage user_message in
  match inject_memory_context env e q (world s) with
  | (Raise x, w) => (Raise x, at_world w s)
  | (Ok admitted_tokens, w) =>
      let s := at_world w s in
      if empty_context_tick_of e admitted_tokens w then (Ok idle_actions, emit [TickIdle "empty_context_tick"] s)
      else compose_turn e salience user_message s
  end.

Definition is_replay (e : AgentEvent) : bool := is_true (dget "replay_mode" (metadata e)).

Definition on_event_inner (e : AgentEvent) (s : state) : result string (list LlmAction) * state :=
  if negb (has_model env) then (Ok [completed "Agent config missing required 'model' field"], s)
  else
    match sanitize_inbound_event (patterns env) e with
    | Raise x => (Raise x, s)
    | Ok e =>
        if is_replay e then
          if bool_decide (sender_id e = Some (me env)) then (Ok idle_actions, s)
          else
            let '(r, w) := store_event_episode env e [] (world s) in
            match r with
            | Raise x => (Raise x, at_world w s)
            | Ok _ => (Ok idle_actions, emit [Replayed (opt_str (channel_id e))] (at_world w s))
            end
        else
          let d := evaluate_response_gate e (me env) in
          if negb (respond d) then suppressed_event_actions e d s
          else
            let '(salience, em, (w, made)) := run_salience_gate seam e d None (world s, calls s) in
            let s := mkTurnState w (emitted s ++ map FromSalience em)%list made in
            match salience with
            | Raise x => (Raise x, s)
            | Ok o =>
                if match o with Some o => o_silence o | None => false end then (Ok idle_actions, s)
                else recall_and_compose e o s
            end
    end.
End turn.

(** ** Properties *)

Section turn_props.
Context {W M : Type} (env : TurnEnv W M).

Abbreviation state := (state (W := W) (M := M)).

(** The sanitizer passes text through. *)
Lemma sanitize_inbound_same p e : sanitize_inbound_event p e = Ok e.
Proof.
  unfold sanitize_inbound_event. destruct (bool_decide _); [|done]. cbn [negb].
  destruct (dget_or "content" (VStr "") (ev_payload e)) as [| | | |s| |]; try done.
  destruct (truthy s); [|done]. cbn [negb].
  assert (exists r, sanitize p s CONTEXT_SOURCE_CHANNEL_MESSAGE SANITIZER_ACTION_PASSTHROUGH = Ok r /\ content r = s) as (r&->&Hr).
  { unfold sanitize. eexists. split; [reflexivity|]. cbn [content]. by rewrite andb_false_r. }
  cbn [rbind]. by rewrite Hr, String.eqb_refl.
Qed.

(** ** The calls of a turn *)

Lemma handle_calls x e (s : state) : calls (handle_llm_call_exception_with_cost_close env x e s).2 = calls s.
Proof.
  unfold handle_llm_call_exception_with_cost_close. destruct (handle_llm_call_exception x e) as [r em]. cbn.
  destruct x as [reason|b|]; try done. by repeat (case_match; try done).
Qed.

Lemma loop_calls e request n : forall messages last (s : state),
  exists new, calls (llm_loop env e request n messages last s).2 = (calls s ++ map TurnCall new)%list /\ (length new <= n)%nat /\
    Forall (λ q, exists m, q = request m) new.
Proof.
  induction n as [|n IH]; intros messages last s; cbn [llm_loop world]; [exists []; by rewrite app_nil_r|].
  destruct (create_turn env (request messages) (world s)) as [[response|x] w].
  - assert (exists new, (calls s ++ [TurnCall (request messages)])%list = (calls s ++ map TurnCall new)%list /\ (length new <= S n)%nat /\
      Forall (λ q, exists m, q = request m) new) as Hone.
    { exists [request messages]. split_and!; [done|cbn; lia|]. constructor; [by exists messages|done]. }
    destruct (stop_reason response); try exact Hone.
    destruct (execute_tools env (tool_calls response) w) as [results w'].
    match goal with |- context [llm_loop env e request n ?m ?l ?s0] => destruct (IH m l s0) as (new&Hn&Hl&Hf) end.
    exists (request messages :: new). rewrite Hn. cbn [calls at_world map]. rewrite <- app_assoc. cbn [length].
    split_and!; [done|lia|]. constructor; [by exists messages|done].
  - pose proof (handle_calls x e (at_world w (mkTurnState (world s) (emitted s) (calls s ++ [TurnCall (request messages)])%list))) as Hh.
    destruct (handle_llm_call_exception_with_cost_close _ _ _ _) as [r s1]. cbn in Hh. cbn [snd]. rewrite Hh.
    exists [request messages]. split_and!; [done|cbn; lia|]. constructor; [by exists messages|done].
Qed.

(** Who every call of the turn is billed to, and its ceiling of tokens. *)
Definition billed (e : AgentEvent) (c : leased_call M) : Prop :=
  match c with
  | BidCall q => (b_cause q, b_agent q, b_interaction q) = lease_attribution_for_event env e /\
      b_max_tokens q = max_output_tokens_for (_reasoning_mode e)
  | TurnCall q => (t_cause q, t_agent q, t_interaction q) = lease_attribution_for_event env e /\ t_max_tokens q = turn_max_tokens env
  | PassCall q => (p_cause q, p_agent q, p_interaction q) = lease_attribution_for_event env e /\
      p_max_tokens q = match p_purpose q with CRITIC => _CRITIC_MAX_OUTPUT_TOKENS | REVISE => turn_max_tokens env end
  end.

(** Calls that only a counting world sees. *)
Lemma after_passes (f : PassRequest -> W -> pass_outcome * W) reqs wl :
  (after_calls (calling (M := M) PassCall f) reqs wl).2 = (wl.2 ++ map PassCall reqs)%list.
Proof.
  revert wl. unfold after_calls. induction reqs as [|q reqs IH]; intros wl; cbn [fold_left map]; [by rewrite app_nil_r|].
  rewrite IH. unfold calling. destruct (f q wl.1) as [a w]. cbn [snd]. by rewrite <- app_assoc.
Qed.

(** The rounds a plan allows. *)
Definition planned (salience : option SalienceOutcome) : Prop :=
  exists o, salience = Some o /\ o_plan o <> None /\ (1 <= o_revise o)%Z.

Lemma act_calls e salience text (s : state) :
  exists passes, calls (act env e salience text s).2 = (calls s ++ map PassCall passes)%list /\
    (length passes <= 2 * Z.to_nat MAX_REVISE_ROUNDS)%nat /\ Forall (billed e) (map PassCall passes) /\ (passes <> [] -> planned salience).
Proof.
  assert (forall s' : state, calls s' = calls s -> exists passes, calls s' = (calls s ++ map PassCall passes)%list /\
    (length passes <= 2 * Z.to_nat MAX_REVISE_ROUNDS)%nat /\ Forall (billed e) (map PassCall passes) /\ (passes <> [] -> planned salience)) as Hno.
  { intros s' ->. exists []. rewrite app_nil_r. split_and!; done || (cbn; lia) || constructor. }
  unfold act. destruct (rbind _ _) as [actions|x]; [|by apply Hno].
  destruct (lease_attribution_for_event env e) as [[cause agent] interaction] eqn:El. cbv zeta.
  match goal with |- context [maybe_revise_channel_message ?l ?r ?cr ?so ?k ?acts ?sal ?w] =>
    pose proof (revision_calls l so r cr k acts sal w) as H; destruct (maybe_revise_channel_message l r cr so k acts sal w) as [[revised charted] [w' made]] end.
  destruct H as (reqs&Hm&Hl&Hi). apply (f_equal snd) in Hm. cbn [snd] in Hm. rewrite after_passes in Hm. cbn [snd] in Hm. subst made.
  assert (exists passes, (calls s ++ map PassCall reqs)%list = (calls s ++ map PassCall passes)%list /\
    (length passes <= 2 * Z.to_nat MAX_REVISE_ROUNDS)%nat /\ Forall (billed e) (map PassCall passes) /\ (passes <> [] -> planned salience)) as Hp.
  { exists reqs. split_and!; [done|done| |].
    - destruct reqs as [|q reqs]; [constructor|]. destruct Hi as (o&k&_&_&_&Hk&Hi); [done|].
      apply rbind_Ok in Hk as ([[[name role] model] alias]&_&[= <-]). apply Forall_map. eapply Forall_impl; [exact Hi|].
      intros p (H1&H2&H3&H4). unfold billed. rewrite El, H1, H2, H3. done.
    - intros Hne. destruct (Hi Hne) as (o&k&?&?&?&_). by exists o. }
  destruct (rbind revised _) as [out|x]; [|exact Hp].
  destruct (store_event_episode env e out _) as [[u|x] w2]; exact Hp.
Qed.

(** What a turn adds: the calls of the loop, and then the passes of the revision. *)
Definition composed (e : AgentEvent) (salience : option SalienceOutcome) (new : list (leased_call M)) : Prop :=
  exists turns passes, new = (map TurnCall turns ++ map PassCall passes)%list /\ (length turns <= Z.to_nat (max_llm_calls env))%nat /\
    (length passes <= 2 * Z.to_nat MAX_REVISE_ROUNDS)%nat /\ Forall (billed e) new /\ (passes <> [] -> turns <> [] /\ planned salience).

Lemma composed_nothing e salience : composed e salience [].
Proof. exists [], []. split_and!; try done; cbn; lia. Qed.

Lemma loop_answer_calls e request n : forall messages last (s : state) r s',
  llm_loop env e request n messages last s = (LastResponse r, s') -> (r <> None -> last <> None \/ calls s' <> calls s).
Proof.
  induction n as [|n IH]; intros messages last s r s'; cbn [llm_loop].
  { intros [= <- <-]. auto. }
  intros H Hr. right. pose proof (loop_calls e request (S n) messages last s) as (new&Hn&_). cbn [llm_loop] in Hn. rewrite H in Hn. cbn [snd] in Hn.
  rewrite Hn. destruct new as [|q new].
  - exfalso. rewrite app_nil_r in Hn. revert H. destruct (create_turn _ _ _) as [[response|x] w].
    + destruct (stop_reason response); try (intros [= _ <-]; cbn in Hn; apply (f_equal length) in Hn; rewrite length_app in Hn; cbn in Hn; lia).
      destruct (execute_tools _ _ _) as [results w']. intros H.
      match type of H with llm_loop env e request n ?m ?l ?s0 = _ =>
        destruct (loop_calls e request n m l s0) as (new2&Hn2&_); rewrite H in Hn2; cbn in Hn2 end.
      rewrite Hn in Hn2. apply (f_equal length) in Hn2. rewrite !length_app in Hn2. cbn in Hn2. lia.
    + by destruct (handle_llm_call_exception_with_cost_close _ _ _ _).
  - intros Hx. apply (f_equal length) in Hx. rewrite length_app in Hx. cbn in Hx. lia.
Qed.

Lemma compose_calls e salience um (s : state) :
  exists new, calls (compose_turn env e salience um s).2 = (calls s ++ new)%list /\ composed e salience new.
Proof.
  unfold compose_turn. destruct (match match salience with Some o => o_seed o | None => None end with Some seed => _ | None => _ end) as [[seed|x] w];
    [|exists []; rewrite app_nil_r; split; [done|apply composed_nothing]].
  destruct (lease_attribution_for_event env e) as [[cause agent] interaction] eqn:El.
  set (request := λ m, mkTurnRequest m _ cause agent interaction (turn_max_tokens env)).
  destruct (loop_calls e request (Z.to_nat (max_llm_calls env)) (seed_messages env seed) None (at_world w s)) as (turns&Hn&Hl&Hf).
  assert (Forall (billed e) (map TurnCall turns)) as Hb.
  { apply Forall_map. eapply Forall_impl; [exact Hf|]. intros q [m ->]. unfold billed. cbn. by rewrite El. }
  fold request. pose proof (loop_answer_calls e request (Z.to_nat (max_llm_calls env)) (seed_messages env seed) None (at_world w s)) as Ha.
  destruct (llm_loop _ _ _ _ _ _ _) as [[r|r] s'] eqn:Eloop; cbn [snd calls at_world] in Hn.
  - specialize (Ha r s' eq_refl). destruct (answer_of env r) as [text|actions] eqn:Ea.
    + destruct (act_calls e salience text s') as (passes&Hp&Hlp&Hbp&Hpl). exists (map TurnCall turns ++ map PassCall passes)%list.
      rewrite Hp, Hn, <- app_assoc. split; [done|]. exists turns, passes. split_and!; [done|done|done|by apply Forall_app|].
      intros Hne. split; [|by apply Hpl]. intros ->. destruct r as [r|]; [|done]. destruct Ha as [?|Ha]; [done|done|].
      apply Ha. by rewrite Hn, app_nil_r.
    + exists (map TurnCall turns). split; [done|]. exists turns, []. rewrite app_nil_r. split_and!; try done. cbn. lia.
  - exists (map TurnCall turns). split; [done|]. exists turns, []. rewrite app_nil_r. split_and!; try done. cbn. lia.
Qed.

(** The event is one a model may be called for. *)
Definition callable (e : AgentEvent) : Prop :=
  has_model env = true /\ is_replay e = false /\ respond (evaluate_response_gate e (me env)) = true.

(** A tick whose recall found nothing, with no goal and nobody waiting. *)
Definition idle_tick (e : AgentEvent) (w : W) : Prop :=
  event_type e = TICK /\
  exists w', inject_memory_context env e (QMessage (format_event env e)) w = (Ok 0%Z, w') /\
    has_active_goal_payload env w' = false /\ has_pending_turn env w' = false.

(** The bid of the salience gate: at most one, on the open floor of a governed
    channel that is not too large. *)
Definition bids (e : AgentEvent) (made : list BidRequest) : Prop :=
  (length made <= 1)%nat /\ Forall (billed e) (map BidCall made) /\
  (made <> [] -> is_open_floor_admit (evaluate_response_gate e (me env)) = true /\ _governed e = true /\
    skip_bid_for_channel_size (_channel_size e) (_max_members e) = false).

Lemma no_bids e : bids e [].
Proof. unfold bids. split_and!; done || (cbn; lia) || constructor. Qed.

Lemma stay_silent_calls e em w l : exists r em' w', stay_silent (seam env) e em (w, l) = (r, em', (w', l)).
Proof.
  unfold stay_silent, seam, beside. cbn. destruct (store_event_episode env e [] w) as [r w']. by eexists _, _, _.
Qed.

Lemma conclude_calls e mode m seed b w l : exists r em w', conclude (seam env) e mode m seed b (w, l) = (r, em, (w', l)).
Proof.
  unfold conclude. destruct (negb _); [apply stay_silent_calls|]. by eexists _, _, _.
Qed.

Lemma bid_calls e content threshold seed w l : event_type e = CHANNEL_MESSAGE ->
  exists b w' made, evaluate_salience (SalienceGate.load_snippet (seam env)) (SalienceGate.resolved_model (seam env))
      (create_message (seam env)) (bid_input (seam env) e content threshold seed (_reasoning_mode e)) (w, l) =
    (b, (w', (l ++ map BidCall made)%list)) /\ (length made <= 1)%nat /\ Forall (billed e) (map BidCall made).
Proof.
  intros Ht. unfold evaluate_salience.
  assert (forall b : BidResult, exists b' w' made, (b, (w, l)) = (b', (w', (l ++ map (BidCall (M := M)) made)%list)) /\ (length made <= 1)%nat /\
    Forall (billed e) (map BidCall made)) as Hno.
  { intros b. exists b, w, []. cbn. rewrite app_nil_r. split_and!; [done|lia|constructor]. }
  destruct (SalienceGate.resolved_model (seam env)) as [model|]; [|apply Hno].
  destruct (bid_request _ _ _) as [q|x] eqn:Eq; [|apply Hno].
  unfold seam, calling. cbn [create_message fst snd]. destruct (create_bid env q w) as [o w'].
  eexists _, w', [q]. split_and!; [done|cbn; lia|]. constructor; [|constructor].
  unfold bid_request in Eq. apply rbind_Ok in Eq as (user&_&(system&_&[= <-])%rbind_Ok). unfold billed. cbn.
  unfold lease_attribution_for_event. by rewrite bool_decide_eq_false_2 by congruence.
Qed.

Lemma gate_calls e w l :
  exists r em w' made, run_salience_gate (seam env) e (evaluate_response_gate e (me env)) None (w, l) =
    (r, em, (w', (l ++ map BidCall made)%list)) /\ bids e made.
Proof.
  assert (forall (r : result string (option SalienceOutcome)) (em : list SalienceGate.emission) (w' : W), exists r' em' w'' made, (r, em, (w', l)) = (r', em', (w'', (l ++ map (BidCall (M := M)) made)%list)) /\ bids e made) as Hno.
  { intros r em w'. exists r, em, w', []. cbn. rewrite app_nil_r. split; [done|apply no_bids]. }
  unfold run_salience_gate. destruct (is_open_floor_admit _) eqn:Ef; cbn [andb negb]; [|apply Hno].
  destruct (_governed e) eqn:Eg; cbn [negb]; [|apply Hno]. cbn [default]. cbv zeta.
  destruct (skip_bid_for_channel_size _ _) eqn:Es.
  { destruct (stay_silent_calls e [SkippedTooLarge] w l) as (r&em&w'&->). apply Hno. }
  change (SalienceGate.build_seed_messages (seam env) e ?m (w, l)) with (beside (build_seed_messages env e m) (w, l)).
  unfold beside at 1. cbn [fst snd SalienceGate.format_event seam]. fold (seam env).
  destruct (build_seed_messages env e (format_event env e) w) as [[seed|x] w1]; [|apply Hno].
  destruct (rbind _ _) as [[content threshold]|x]; [|apply Hno].
  assert (event_type e = CHANNEL_MESSAGE) as Ht by (by apply open_floor_exact in Ef as [? _]).
  destruct (bid_calls e content threshold seed w1 l Ht) as (b&w2&made&->&Hl&Hb).
  destruct (conclude_calls e (_reasoning_mode e) (format_event env e) seed b w2 (l ++ map BidCall made)%list) as (r&em&w3&->).
  exists r, em, w3, made. split; [done|]. unfold bids. split_and!; [done|done|]. done.
Qed.

Lemma suppressed_calls e d (s : state) : calls (suppressed_event_actions env e d s).2 = calls s.
Proof.
  unfold suppressed_event_actions. repeat (case_bool_decide || case_match); done.
Qed.

(** A tick is no open floor: the salience gate is not entered. *)
Lemma tick_gate e (s : state) : event_type e = TICK ->
  run_salience_gate (seam env) e (evaluate_response_gate e (me env)) None (world s, calls s) = (Ok None, [], (world s, calls s)).
Proof.
  intros Ht. unfold evaluate_response_gate. rewrite bool_decide_eq_false_2 by congruence. reflexivity.
Qed.

Lemma recall_calls e salience (s : state) :
  exists new, calls (recall_and_compose env e salience s).2 = (calls s ++ new)%list /\ composed e salience new /\
    (salience = None -> idle_tick e (world s) -> new = []).
Proof.
  unfold recall_and_compose. destruct (inject_memory_context env e _ (world s)) as [[tokens|x] w] eqn:Ei.
  2:{ exists []. rewrite app_nil_r. split_and!; [done|apply composed_nothing|done]. }
  destruct (empty_context_tick_of env e tokens w) eqn:Eq.
  { exists []. rewrite app_nil_r. split_and!; [done|apply composed_nothing|done]. }
  match goal with |- context [compose_turn env e salience ?m ?s0] => destruct (compose_calls e salience m s0) as (new&Hn&Hc) end.
  exists new. split_and!; [exact Hn|done|].
  intros -> (Ht&w'&Hw&Hg&Hp). exfalso. rewrite bool_decide_eq_false_2 in Ei by congruence. rewrite Hw in Ei. injection Ei as <- <-.
  unfold empty_context_tick_of in Eq. rewrite bool_decide_eq_true_2, Hg, Hp in Eq by done. done.
Qed.

(** The calls an event adds, in order: the bid, the loop, the passes. *)
Definition adds (e : AgentEvent) (s : state) (new : list (leased_call M)) : Prop :=
  exists made turns passes, new = (map BidCall made ++ map TurnCall turns ++ map PassCall passes)%list /\
    bids e made /\ (length turns <= Z.to_nat (max_llm_calls env))%nat /\ (length passes <= 2 * Z.to_nat MAX_REVISE_ROUNDS)%nat /\
    (length new <= Z.to_nat (max_llm_calls env) + 5)%nat /\ Forall (billed e) new /\
    (new <> [] -> callable e) /\
    (passes <> [] -> made <> [] /\ turns <> [] /\ _reasoning_mode e = MODE_PLAN) /\
    (forall o em w, run_salience_gate (seam env) e (evaluate_response_gate e (me env)) None (world s, calls s) = (Ok (Some o), em, w) ->
       o_silence o = true -> turns = [] /\ passes = []) /\
    (idle_tick e (world s) -> new = []).

Lemma adds_nothing e s : adds e s [].
Proof. exists [], [], []. split_and!; try done; [apply no_bids|cbn; lia..]. Qed.

(** A plan comes with a verdict, and so with a bid. *)
Lemma planned_by_bid e w l o em w' made :
  run_salience_gate (seam env) e (evaluate_response_gate e (me env)) None (w, l) = (Ok o, em, (w', (l ++ map BidCall made)%list)) ->
  planned o -> made <> [] /\ _reasoning_mode e = MODE_PLAN.
Proof.
  intros H (o'&->&Hp&Hr). revert H. unfold run_salience_gate. destruct (negb (_ && _)); [done|]. cbn [default]. cbv zeta.
  destruct (skip_bid_for_channel_size _ _).
  { unfold stay_silent. destruct (SalienceGate.store_event_episode _ _ _) as [[u|x] w1]; cbn; [intros [= <- _ _]; done|done]. }
  change (SalienceGate.build_seed_messages (seam env) e ?m (w, l)) with (beside (build_seed_messages env e m) (w, l)).
  unfold beside at 1. cbn [fst snd SalienceGate.format_event seam]. fold (seam env).
  destruct (build_seed_messages env e _ w) as [[seed|x] w1]; [|done].
  destruct (rbind _ _) as [[content threshold]|x]; [|done].
  unfold evaluate_salience.
  assert (forall b l1 m, surfaced b = [] \/ l1 = (l ++ map BidCall m)%list /\ m <> [] ->
    forall w2, conclude (seam env) e (_reasoning_mode e) (format_event env e) seed b (w2, l1) = (Ok (Some o'), em, (w', (l ++ map BidCall made)%list)) ->
    made <> [] /\ _reasoning_mode e = MODE_PLAN) as Hc.
  { intros b l1 m Hb w2. unfold conclude. destruct (negb (speak _)).
    - unfold stay_silent. destruct (SalienceGate.store_event_episode _ _ _) as [[u|x] w3]; cbn; [intros [= <- _ _]; done|done].
    - intros [= <- _ _ Hl]. cbn in Hp. destruct (bool_decide_reflect (_reasoning_mode e = MODE_PLAN)); [|done].
      destruct Hb as [Hb|[-> Hm]]; [by rewrite Hb in Hp|]. split; [|done]. apply app_inv_head in Hl. intros ->. by destruct m. }
  destruct (SalienceGate.resolved_model (seam env)) as [model|]; [|apply (Hc _ l []); by left].
  destruct (bid_request _ _ _) as [q|x]; [|apply (Hc _ l []); by left].
  unfold seam at 1, calling. cbn [create_message fst snd]. destruct (create_bid env q w1) as [out w2].
  apply (Hc _ (l ++ [BidCall q])%list [q]). by right.
Qed.

(** C21. The cost of a turn is bounded before it starts. An event makes at most the
    configured number of calls in its loop, one bid before them and four passes of
    critic and revision after them: at most five more than configured. Every one is
    billed to the cause, the agent and the interaction of the event, under the
    ceiling of its kind. There is none at all when the agent has no model, on a
    replayed message, when the response gate refuses, or on a tick with nothing to
    work on; when the salience gate silences there is none but its bid; a bid is
    made only on the open floor of a governed channel that is not too large, and a
    pass only after a bid on the plan rung. *)
Theorem turn_calls_bounded e (s : state) :
  let '(r, s') := on_event_inner env e s in
  exists new, calls s' = (calls s ++ new)%list /\ adds e s new.
Proof.
  assert (forall s' : state, calls s' = calls s -> exists new, calls s' = (calls s ++ new)%list /\ adds e s new) as Hnone.
  { intros s' Hs. exists []. rewrite app_nil_r. split; [done|apply adds_nothing]. }
  unfold on_event_inner. destruct (has_model env) eqn:Em; cbn [negb]; [|by apply Hnone]. rewrite sanitize_inbound_same.
  destruct (is_replay e) eqn:Er.
  { case_bool_decide; [by apply Hnone|]. destruct (store_event_episode env e [] (world s)) as [[u|x] w]; by apply Hnone. }
  destruct (respond (evaluate_response_gate e (me env))) eqn:Eg; cbn [negb].
  2:{ pose proof (suppressed_calls e (evaluate_response_gate e (me env)) s). destruct (suppressed_event_actions _ _ _ _). by apply Hnone. }
  destruct (gate_calls e (world s) (calls s)) as (o&em&w&made&Es&Hb). rewrite Es.
  assert (idle_tick e (world s) -> o = Ok None /\ w = world s /\ made = []) as Htick.
  { intros [Ht _]. rewrite (tick_gate e s Ht) in Es. injection Es as <- _ <- Hl. split_and!; [done..|].
    rewrite <- (app_nil_r (calls s)) in Hl at 1. apply app_inv_head in Hl. by destruct made. }
  assert (exists new, (calls s ++ map BidCall made)%list = (calls s ++ new)%list /\ adds e s new) as Hbid.
  { exists (map BidCall made). split; [done|]. exists made, [], []. rewrite !app_nil_r. destruct Hb as (Hl&Hf&Hw).
    split_and!; try done; [cbn; lia|cbn; lia|rewrite length_map; lia|]. intros H%Htick. by destruct H as (_&_&->). }
  destruct o as [o|x]; [|exact Hbid].
  destruct (match o with Some o => o_silence o | None => false end) eqn:Ho; [exact Hbid|].
  destruct (recall_calls e o (mkTurnState w (emitted s ++ map FromSalience em) (calls s ++ map BidCall made))) as (new&Hn&Hc&Hq).
  destruct (recall_and_compose _ _ _ _) as [r s']. cbn [snd calls] in Hn. exists (map BidCall made ++ new)%list.
  split; [by rewrite Hn, app_assoc|]. destruct Hc as (turns&passes&->&Hlt&Hlp&Hf&Hp). exists made, turns, passes.
  pose proof Hb as (Hlb&Hfb&_). split_and!; try done.
  - rewrite !length_app, !length_map. change (2 * Z.to_nat MAX_REVISE_ROUNDS)%nat with 4%nat in Hlp. lia.
  - by apply Forall_app.
  - intros Hne. destruct (Hp Hne) as [Ht Hpl]. destruct (planned_by_bid _ _ _ _ _ _ _ Es Hpl). by split_and!.
  - intros o' em' w' Hx Hsil. rewrite Hx in Es. injection Es as <- _ _. congruence.
  - intros Ht. destruct (Htick Ht) as (Hno&->&->). injection Hno as ->. by apply Hq.
Qed.

(** ** What a turn may do *)

(** A message to [c]. *)
Definition sends_to (c : string) (a : LlmAction) : Prop :=
  la_type a = SEND_CHANNEL_MESSAGE /\ exists p, la_payload a = VDict p /\ dget "channel_id" p = Some (VStr c).

(** A message to [c] that says something. *)
Definition speaks_on (c : string) (a : LlmAction) : Prop :=
  la_type a = SEND_CHANNEL_MESSAGE /\
  exists p, la_payload a = VDict p /\ dget "channel_id" p = Some (VStr c) /\ has_text "content" p = true.

Lemma guard_llm_spec c a b : guard_llm c a = Ok b -> well_formed a ->
  well_formed b /\ (la_type b = SEND_CHANNEL_MESSAGE -> sends_to c b) /\ (sends_to c a -> b = a).
Proof.
  destruct a as [t v]. unfold guard_llm. cbn [la_type]. destruct t;
    try (intros [= <-] Hw; split_and!; [done|done|by intros [? _]]).
  intros H (p&[= ->]&Hc&Hm). unfold payload in H. cbn [la_payload rbind] in H. injection H as <-.
  unfold guard_action. cbn [PersonaEvents.action_type act_payload]. pose proof Hc as Hc'. unfold has_text in Hc'.
  destruct (dget "channel_id" p) as [[| | | |target| |]|] eqn:Ed; try done.
  assert (truthy target = true) as Ht by (by destruct target). rewrite Ht. cbn [andb].
  destruct (String.eqb_spec target c) as [->|Hne]; cbn [negb PersonaEvents.action_type act_payload].
  - split_and!; [by exists p|intros _; split; [done|by exists p]|done].
  - split_and!; [done|done|]. intros [_ (q&[= <-]&Hq)]. congruence.
Qed.

Lemma guard_each_spec c l : forall out, guard_each c l = Ok out -> Forall well_formed l ->
  Forall well_formed out /\ (forall b, b ∈ out -> la_type b = SEND_CHANNEL_MESSAGE -> sends_to c b) /\
  (forall a, a ∈ l -> sends_to c a -> a ∈ out).
Proof.
  induction l as [|a l IH]; intros out; cbn [guard_each].
  { intros [= <-] _. split_and!; [done|intros b Hb; by apply not_elem_of_nil in Hb|done]. }
  intros (b&Hb&(r&Hr&[= <-])%rbind_Ok)%rbind_Ok [Ha Hl]%Forall_cons.
  destruct (guard_llm_spec c a b Hb Ha) as (H1&H2&H3), (IH r Hr Hl) as (H4&H5&H6). split_and!.
  - by constructor.
  - intros x [->|Hx]%elem_of_cons; auto.
  - intros x [->|Hx]%elem_of_cons Hs; [rewrite H3 by done; by left|right; auto].
Qed.

Lemma guard_each_total c l : Forall well_formed l -> exists out, guard_each c l = Ok out.
Proof.
  induction 1 as [|a l Ha _ [out IH]]; [by exists []|]. cbn [guard_each]. unfold guard_llm, payload. rewrite IH.
  destruct (la_type a) eqn:Et; try (eexists; reflexivity). unfold well_formed in Ha. rewrite Et in Ha.
  destruct Ha as (p&->&_). eexists. reflexivity.
Qed.

Section confined.
Context (e : AgentEvent) (c : string).
Context (Hloads : forall s v, loads env s = Ok v -> py_wf v).
Context (Het : event_type e = CHANNEL_MESSAGE) (Hch : channel_id e = Some c) (Hc : truthy (strip c) = true).

Lemma turn_channel_c : turn_channel e = Some c.
Proof.
  unfold turn_channel. rewrite Het, Hch. cbn. destruct c; [done|]. done.
Qed.

Lemma act_confined salience text (s : state) out s' : act env e salience text s = (Ok out, s') ->
  Forall well_formed out /\ (forall a, a ∈ out -> la_type a = SEND_CHANNEL_MESSAGE -> sends_to c a) /\
  (startswith _DM_CHANNEL_PREFIX c = true -> exists a, a ∈ out /\ speaks_on c a).
Proof.
  intros H. unfold act in H. destruct (rbind (parse_actions _ _) _) as [actions|x] eqn:Ea; [|done].
  apply rbind_Ok in Ea as (parsed&Hp&Hsyn). apply (parsed_well_formed _ Hloads) in Hp as [_ Hpw].
  assert (Forall well_formed actions) as Hw.
  { eapply synthesize_wf; [|exact Hsyn|done]. intros c'. rewrite turn_channel_c. by intros [= <-]. }
  destruct (lease_attribution_for_event env e) as [[cause agent] interaction].
  match type of H with context [maybe_revise_channel_message ?l ?r ?cr ?so ?k ?acts ?sal ?w] =>
    pose proof (revision_confined l so r cr k acts sal w) as Hrev;
    destruct (maybe_revise_channel_message l r cr so k acts sal w) as [[revised charted] [w1 made]] end.
  destruct Hrev as (Hrw&Hshape&_). destruct (Hrw Hw) as (ract&->&Hrwf). specialize (Hshape ract eq_refl). cbn [rbind] in H.
  unfold guard_turn in H. rewrite Hch, Het in H. assert (truthy c = true) as Htc by (by destruct c).
  change (is_channel_acting CHANNEL_MESSAGE) with true in H. rewrite Htc in H. cbn [andb] in H.
  destruct (guard_each_total c ract Hrwf) as [guarded Hg]. rewrite Hg in H.
  assert (guarded = out) as <- by (destruct (store_event_episode env e guarded _) as [[u|x] w2]; by simplify_eq).
  destruct (guard_each_spec c ract guarded Hg Hrwf) as (H1&H2&H3). split_and!; [done|done|].
  intros Hdm. destruct (turn_speaks _ e c parsed actions turn_channel_c Hsyn) as (_&_&Hdms).
  destruct (Hdms Hdm Hpw) as (a&p&Ha&Hta&Hpa&Hd&Hcont).
  assert (exists b, b ∈ ract /\ speaks_on c b) as (b&Hb&Hsb).
  { destruct Hshape as [->|(pre&q&post&t&->&->&_&(request&w2&u&w3&_&_&->&Hne)&_)]; [exists a; split; [done|]; split; [done|by exists p]|].
    rewrite elem_of_app, elem_of_cons in Ha. destruct Ha as [Ha|[->|Ha]].
    - exists a. split; [set_solver|]. split; [done|by exists p].
    - injection Hpa as <-. eexists. split; [rewrite elem_of_app, elem_of_cons; right; left; reflexivity|]. split; [done|].
      eexists. split; [reflexivity|]. split; [by rewrite dget_dset_ne|]. unfold has_text. rewrite dget_dset_eq, strip_strip.
      by apply truthy_true.
    - exists a. split; [set_solver|]. split; [done|by exists p]. }
  exists b. split; [|done]. apply H3; [done|]. destruct Hsb as (?&q&?&?&_). split; [done|by exists q].
Qed.

(** What a turn answers where nothing was decided. *)
Definition apologies : list string :=
  ["Agent config missing required 'model' field"; "LLM provider error"; "No LLM response";
   "Response truncated: max_tokens limit reached"].

(** The answer of a turn that did not act. *)
Definition inert (out : list LlmAction) : Prop := out = idle_actions \/ exists t, t ∈ apologies /\ out = [completed t].

(** Acted on, or inert. *)
Definition confined (out : list LlmAction) : Prop :=
  Forall well_formed out /\ (forall a, a ∈ out -> la_type a = SEND_CHANNEL_MESSAGE -> sends_to c a) /\
  (startswith _DM_CHANNEL_PREFIX c = true -> (exists a, a ∈ out /\ speaks_on c a) \/ inert out).

Lemma inert_confined out : inert out -> confined out.
Proof.
  intros H. assert (exists a, out = [a] /\ well_formed a /\ la_type a <> SEND_CHANNEL_MESSAGE) as (a&->&Hw&Hn).
  { destruct H as [->|(t&_&->)]; eexists; done. }
  unfold confined. split_and!; [by constructor| |by right]. intros b ->%list_elem_of_singleton. done.
Qed.

Lemma handled_inert x (s : state) out s' : handle_llm_call_exception_with_cost_close env x e s = (Ok out, s') -> inert out.
Proof.
  unfold handle_llm_call_exception_with_cost_close, handle_llm_call_exception. rewrite Het.
  unfold apologies, inert. destruct x as [reason|[]|]; cbn; intros [= <- _]; right; eexists; (split; [|reflexivity]); set_solver.
Qed.

Lemma loop_inert request n : forall messages last (s : state) out s',
  llm_loop env e request n messages last s = (LoopFailed (Ok out), s') -> inert out.
Proof.
  induction n as [|n IH]; intros messages last s out s'; cbn [llm_loop]; [done|].
  destruct (create_turn env _ _) as [[response|x] w].
  - destruct (stop_reason response); try done. destruct (execute_tools _ _ _). apply IH.
  - match goal with |- context [handle_llm_call_exception_with_cost_close env x e ?s0] =>
      destruct (handle_llm_call_exception_with_cost_close env x e s0) as [r s1] eqn:Eh end.
    intros [= -> ->]. by eapply handled_inert.
Qed.

Lemma compose_confined salience um (s : state) out s' : compose_turn env e salience um s = (Ok out, s') -> confined out.
Proof.
  unfold compose_turn. destruct (match match salience with Some o => o_seed o | None => None end with Some seed => _ | None => _ end) as [[seed|x] w]; [|done].
  destruct (lease_attribution_for_event env e) as [[cause agent] interaction].
  destruct (llm_loop _ _ _ _ _ _ _) as [[r|r] s1] eqn:El.
  - destruct (answer_of env r) as [text|actions] eqn:Ea.
    + intros H. apply act_confined in H as (H1&H2&H3). unfold confined. auto.
    + intros [= <- _]. apply inert_confined. right. unfold answer_of in Ea.
      destruct r as [response|]; [destruct (stop_reason response); try done|]; injection Ea as <-; eexists; (split; [|reflexivity]); unfold apologies; set_solver.
  - intros [= -> _]. apply inert_confined. by eapply loop_inert.
Qed.

(** C5. A turn in a channel stays in it. Whatever the model writes and whichever
    call fails, every action the turn carries out has what its type requires,
    and every message it sends goes to the channel the event came from, once its
    reply was folded, completed, revised and guarded. In a direct message the
    turn says something to the other side, unless it did nothing or could only
    apologise. *)
Theorem turn_confined (s : state) out s' (H : on_event_inner env e s = (Ok out, s')) : confined out.
Proof.
  revert H. unfold on_event_inner. assert (inert idle_actions) as Hno by (by left).
  destruct (has_model env); cbn [negb].
  2:{ intros [= <- _]. apply inert_confined. right. eexists. split; [|reflexivity]. unfold apologies. set_solver. }
  rewrite sanitize_inbound_same. destruct (is_replay e).
  { case_bool_decide; [by intros [= <- _]; apply inert_confined|].
    destruct (store_event_episode _ _ _ _) as [[u|x] w]; [|done]. intros [= <- _]. by apply inert_confined. }
  destruct (respond _); cbn [negb].
  2:{ unfold suppressed_event_actions. intros H. apply inert_confined. revert H.
      case_bool_decide; [destruct (close_interaction_on_notification _ _ _) as [[u|x] w]; cbn; by intros [= <- _]|].
      case_bool_decide; cbn [negb]; [by intros [= <- _]|].
      destruct (store_event_episode _ _ _ _) as [[u|x] w]; cbn; by intros [= <- _]. }
  destruct (run_salience_gate _ _ _ _ _) as [[[o|x] em] [w made]]; [|done].
  destruct (match o with Some o => o_silence o | None => false end); [by intros [= <- _]; apply inert_confined|].
  unfold recall_and_compose. destruct (inject_memory_context _ _ _ _) as [[tokens|x] w1]; [|done].
  destruct (empty_context_tick_of _ _ _ _); [by intros [= <- _]; apply inert_confined|apply compose_confined].
Qed.
End confined.
End turn_props.

(** ** A concrete agent *)

Definition turn_loads (s : string) : result string pyval :=
  if String.eqb s "[v]"
  then Ok (VList [VDict [("action_type", VStr "end_interaction_vote"); ("payload", VDict [("channel_id", VStr "group:b"); ("content", VStr "what a said")])]])
  else Raise "JSONDecodeError".

Definition demo_agent (answer : LLMResponse) : TurnEnv unit unit :=
  mkTurn unit unit "a" (codes "Ann") (codes "chair") true 3 100 [] (λ _, codes "hi") (λ _ _ w, (Ok [], w)) (λ _ _ w, (Ok tt, w))
    (λ _ w, (Ok tt, w)) (λ _ w, w) (λ _ _ w, (Ok 0%Z, w)) (λ _, false) (λ _, false) (λ _, codes "You are Ann.") (λ _, [])
    (λ _, "") (λ _, tt) (λ _ w, (inl answer, w)) (λ _ w, ([], w)) (λ m _ _, m) (λ _, Ok []) None (λ _ w, (BudgetExceeded, w))
    (λ _ w, (PassRaised, w)) (Raise "AttributeError") turn_loads (λ _, "?") (λ _, initial_state) (λ _ w, w) (λ w, w).

Definition demo_start : state (W := unit) (M := unit) := mkTurnState tt [] [].
Definition demo_event (c : string) : AgentEvent := mkEvent CHANNEL_MESSAGE [("content", VStr "hello")] (Some c) (Some "bob") None None 0 [].

(** A direct message whose answer was cut off is answered by nothing: the turn
    ends before its reply is made a message of the channel. *)
Lemma truncated_dm_is_silent :
  (on_event_inner (demo_agent (mkResponse (Some "Well") [] MAX_TOKENS no_usage)) (demo_event "dm:a:bob") demo_start).1 =
  Ok [completed "Response truncated: max_tokens limit reached"].
Proof. vm_compute. reflexivity. Qed.

(** The guard of a turn's channel looks at messages only: a vote, which is
    published with whatever it says, may name another channel. *)
Definition mention_of (c : string) : AgentEvent :=
  mkEvent CHANNEL_MESSAGE [("content", VStr "hello"); ("mentions", VList [VStr "a"]); ("respond_policy", VStr "when_mentioned")] (Some c) (Some "bob") None None 0 [].

Lemma vote_escapes_its_channel :
  (on_event_inner (demo_agent (mkResponse (Some "[v]") [] END_TURN no_usage)) (mention_of "group:a") demo_start).1 =
  Ok [mkLlm END_INTERACTION_VOTE (VDict [("channel_id", VStr "group:b"); ("content", VStr "what a said")])].
Proof. vm_compute. reflexivity. Qed.

Lemma turn_loads_wf s v : turn_loads s = Ok v -> py_wf v.
Proof.
  unfold turn_loads. destruct (String.eqb s "[v]"); [|done]. intros [= <-]. cbn. unfold dwf.
  split_and!; try done; cbn; repeat constructor; set_solver.
Qed.

Lemma turn_confined_witness :
  exists out, (on_event_inner (demo_agent (mkResponse (Some "Hello!") [] END_TURN no_usage)) (demo_event "dm:a:bob") demo_start).1 = Ok out /\
    confined "dm:a:bob" out.
Proof.
  destruct (on_event_inner (demo_agent (mkResponse (Some "Hello!") [] END_TURN no_usage)) (demo_event "dm:a:bob") demo_start) as [[out|x] s'] eqn:E;
    [|vm_compute in E; discriminate E].
  exists out. split; [reflexivity|].
  eapply (turn_confined (demo_agent (mkResponse (Some "Hello!") [] END_TURN no_usage)) (demo_event "dm:a:bob") "dm:a:bob");
    [exact turn_loads_wf|reflexivity|reflexivity|reflexivity|exact E].
Defined.

(** A model that keeps asking for tools is stopped at the configured number. *)
Definition tool_agent : TurnEnv unit unit := demo_agent (mkResponse None [] TOOL_USE no_usage).

Lemma turn_calls_bounded_witness :
  exists new, calls (on_event_inner tool_agent (demo_event "dm:a:bob") demo_start).2 = new /\ length new = 3%nat /\
    adds tool_agent (demo_event "dm:a:bob") demo_start new.
Proof.
  pose proof (turn_calls_bounded tool_agent (demo_event "dm:a:bob") demo_start) as H.
  destruct (on_event_inner tool_agent (demo_event "dm:a:bob") demo_start) as [r s'] eqn:E.
  destruct H as (new&Hn&Ha). change (calls demo_start ++ new)%list with new in Hn. exists new. cbn [snd].
  split; [exact Hn|]. split; [|exact Ha]. rewrite <- Hn. apply (f_equal snd) in E. cbn [snd] in E. rewrite <- E. vm_compute. reflexivity.
Defined.
