(* ===== verification/ToolArguments.v ===== *)
(** * Checking the arguments of a tool call

    Models [agents/tools/arg_check.py], with [bounded] of
    [agents/sub_agents/_log_safety.py]: what a tool's signature accepts, the
    lossless conversions, and the refusal, which names arguments and never
    values. jsonschema, a third-party package, is the parameters [schema_ok] and
    [errors_of]; [str(v)], [json.dumps(v)] and the float a decimal text reads back
    as are arguments. Floats are finite, and an object repeats no key. *)

From Stdlib Require Import Ascii.
From stdpp Require Import pretty.
From S2P Require Import Prelude PyStr PyText PyDict PySort PyValue PyFloat FactPredicates PromptFormat SalienceDeliberation ChannelValidation ActionParser.
Local Open Scope string_scope.
Local Open Scope py_scope.

(** ** [_log_safety.py] *)

Definition _CTRL_REPLACEMENT : N := 9252.

(** [c.isprintable()] on U+0000 to U+00FF *)
Definition printable_cp (n : N) : bool :=
  ((32 <=? n) && (n <=? 126) || (161 <=? n) && (n <=? 255) && negb (n =? 173))%N.

Definition truncation_mark : text := ([8230%N] ++ codes " (truncated)")%list.

Definition bounded (s : text) (cap : nat) : text :=
  let head := map (λ c, if printable_cp c then c else _CTRL_REPLACEMENT) (take cap s) in
  if (length s <=? cap)%nat then head else (head ++ truncation_mark)%list.

(** ** The specification of a tool's arguments *)

Record ArgumentSpec := mkArgSpec {
  names : list string;
  required : list string;
  integers : list string;
  numbers : list string;
  takes_none : list string;
  nulls_mean_default : list string;
  open : bool;
  narrowed : list (string * pydict);
}.

Record ArgumentRefusal := mkRefusal {
  input_type : string;
  missing : list string;
  unknown : list text;
  unknown_count : nat;
  invalid : list (string * string * string * pyval);
  takes : list string;
}.

Definition _MAX_LISTED : nat := 16.
Definition _MAX_NAME : nat := 64.

(** [isinstance(name, str) and name in names] *)
Definition in_names (n : string) (l : list string) : bool := bool_decide (n ∈ l).

Definition _json_type (v : pyval) : string :=
  match v with
  | VNone => "null"
  | VBool _ => "boolean"
  | VInt _ => "integer"
  | VFloat _ => "number"
  | VStr _ => "string"
  | VDict _ => "object"
  | VList _ => "array"
  end.

(** ** Conversions *)

Definition ascii_digit (c : ascii) : bool := let n := code c in ((48 <=? n) && (n <=? 57))%N.
Fixpoint all_digits (s : string) : bool :=
  match s with EmptyString => true | String c s => ascii_digit c && all_digits s end.

(** [0|-?[1-9][0-9]*] *)
Definition integer_text (s : string) : bool :=
  let positive t := match t with
                    | String c r => ascii_digit c && negb (Ascii.eqb c "0") && all_digits r
                    | EmptyString => false
                    end in
  match s with
  | String "-" t => positive t
  | String "0" EmptyString => true
  | _ => positive s
  end.

(** [value.is_integer()], with the integer *)
Definition integral (q : Q) : option Z :=
  if (Z.rem (Qnum q) (Zpos (Qden q)) =? 0)%Z then Some (Z.quot (Qnum q) (Zpos (Qden q))) else None.

Definition _one_integer (v : pyval) : pyval :=
  match v with
  | VStr s => if integer_text s then match int_of_str s with Some z => VInt z | None => v end else v
  | VFloat q => match integral q with Some z => VInt z | None => v end
  | _ => v
  end.

Fixpoint odd_part (p : positive) : positive := match p with xO p => odd_part p | _ => p end.

(** A float holds the integer: 53 bits, below the overflow. *)
Definition float_holds (z : Z) : bool :=
  negb (int_overflows z) && match z with Z0 => true | Zpos p | Zneg p => (Zpos (odd_part p) <? 2 ^ 53)%Z end.

Definition number_of_int (z : Z) : pyval := if float_holds z then VFloat (inject_Z z) else VInt z.

Section check.
(** The float of a decimal text that prints as that text. *)
Context (decimal_text : string -> option Q).

Definition _one_number (v : pyval) : pyval :=
  match v with
  | VStr s =>
      if integer_text s then match int_of_str s with
                             | Some z => if float_holds z then VFloat (inject_Z z) else VInt z
                             | None => v
                             end
      else match decimal_text s with Some q => VFloat q | None => v end
  | VInt z => number_of_int z
  | _ => v
  end.

(** What jsonschema finds wrong with a value under a schema: each keyword broken,
    with its limit. It may raise. *)
Context (errors_of : pydict -> pyval -> result string (list (string * pyval))).

(** [value is None] *)
Definition is_null (v : pyval) : bool := match v with VNone => true | _ => false end.

(** ** [validate_arguments] *)

Inductive checked := Checked (arguments : pydict) | Refused (r : ArgumentRefusal).

Definition known (spec : ArgumentSpec) (name : string) : bool := in_names name (names spec) || open spec.

(** An argument the tool has a place for, as it receives it; a null that means the
    default is left out. *)
Definition receive (spec : ArgumentSpec) (a : string * pyval) : option (string * pyval) :=
  let '(name, value) := a in
  if negb (known spec name) then None
  else if is_null value && in_names name (nulls_mean_default spec) then None
  else Some (name, if in_names name (integers spec) then _one_integer value
                   else if in_names name (numbers spec) then _one_number value
                   else value).

(** The narrowings a present value breaks, in the order of the schema. *)
Fixpoint broken (spec : ArgumentSpec) (args : pydict) (narrowings : list (string * pydict)) :
    result string (list (string * string * string * pyval)) :=
  match narrowings with
  | [] => Ok []
  | (name, schema) :: narrowings =>
      let! errors := match dget name args with
                     | Some value => if is_null value && in_names name (takes_none spec) then Ok []
                                     else let! es := errors_of schema value in
                                          Ok (map (λ e : string * pyval, (name, e.1, _json_type value, e.2)) es)
                     | None => Ok []
                     end in
      let! rest := broken spec args narrowings in
      Ok (errors ++ rest)%list
  end.

Definition validate_arguments (spec : option ArgumentSpec) (arguments : pyval) : result string checked :=
  match arguments with
  | VDict args =>
      match spec with
      | None => Ok (Checked args)
      | Some spec =>
          let out := omap (receive spec) args in
          let strangers := List.filter (λ n, negb (known spec n)) (dkeys args) in
          let absent := List.filter (λ n, negb (dmem n out)) (required spec) in
          let! bad := match narrowed spec with [] => Ok [] | narrowings => broken spec out narrowings end in
          match strangers, absent, bad with
          | [], [], [] => Ok (Checked out)
          | _, _, _ =>
              Ok (Refused (mkRefusal "object" absent (map (λ n, bounded (codes n) _MAX_NAME) (take _MAX_LISTED strangers))
                             (length strangers) bad (names spec)))
          end
      end
  | v => Ok (Refused (mkRefusal (_json_type v) [] [] 0 [] []))
  end.

(** ** The refusal as the model and the operator see it *)

Context (str_of dumps : pyval -> text).

Definition comma : text := codes ", ".
Definition plural (n : nat) : text := codes (if (1 <? n)%nat then "s" else "").
Definition listed (l : list string) : text := join_with comma (map codes l).

(** [limit == 1] *)
Definition is_one (v : pyval) : bool := py_eq v (VInt 1).

Definition _broken (rule got : string) (limit : pyval) : text :=
  let s := codes (if is_one limit then "" else "s") in
  if String.eqb rule "type" then (codes "must be of type " ++ str_of limit ++ codes ", not " ++ codes got)%list
  else if String.eqb rule "enum" then (codes "must be one of " ++ dumps limit)%list
  else if String.eqb rule "minimum" then (codes "must be >= " ++ dumps limit)%list
  else if String.eqb rule "maximum" then (codes "must be <= " ++ dumps limit)%list
  else if String.eqb rule "minLength" then (codes "must be at least " ++ str_of limit ++ codes " character" ++ s)%list
  else (codes "must be at most " ++ str_of limit ++ codes " character" ++ s)%list.

Definition detail (r : ArgumentRefusal) : text :=
  let shape := if String.eqb (input_type r) "object" then []
               else [(codes "arguments must be a JSON object, not " ++ codes (input_type r))%list] in
  let lacks := match missing r with
               | [] => []
               | l => [(codes "missing required argument" ++ plural (length l) ++ codes ": " ++ listed l)%list]
               end in
  let extra := if (unknown_count r =? 0)%nat then []
               else
                 let more := if (length (unknown r) <? unknown_count r)%nat
                             then (codes " ... and " ++ number (unknown_count r - length (unknown r)) ++ codes " more")%list else [] in
                 let tail := match takes r with [] => codes "this tool takes no arguments" | l => (codes "this tool takes: " ++ listed l)%list end in
                 [(codes "unknown argument" ++ plural (unknown_count r) ++ codes ": " ++ join_with comma (unknown r) ++ more ++
                   codes " (" ++ tail ++ codes ")")%list] in
  let breaks := map (λ '(a, rule, got, limit), (codes "argument " ++ codes a ++ codes " " ++ _broken rule got limit)%list) (invalid r) in
  (join_with (codes "; ") (shape ++ lacks ++ extra ++ breaks) ++ codes ". The tool did not run; fix the arguments and call it again.")%list.

(** [json.dumps(x, ensure_ascii=True)] of a text, of a list and of an object whose
    values are JSON already; a character past U+FFFF is a surrogate pair. *)
Definition hex4 (n : N) : text :=
  [hex_digit (n / 4096 mod 16); hex_digit (n / 256 mod 16); hex_digit (n / 16 mod 16); hex_digit (n mod 16)]%N.

Definition json_unicode (n : N) : text := ([92; 117]%N ++ hex4 n)%list.

Definition json_char (n : N) : text :=
  if (n =? 34)%N then [92; 34]%N
  else if (n =? 92)%N then [92; 92]%N
  else if (n =? 10)%N then [92; 110]%N
  else if (n =? 13)%N then [92; 114]%N
  else if (n =? 9)%N then [92; 116]%N
  else if (n =? 8)%N then [92; 98]%N
  else if (n =? 12)%N then [92; 102]%N
  else if ((32 <=? n) && (n <=? 126))%N then [n]
  else if (n <? 65536)%N then json_unicode n
  else (json_unicode (55296 + (n - 65536) / 1024 mod 1024) ++ json_unicode (56320 + (n - 65536) mod 1024))%N%list.

Definition json_text (t : text) : text := ([34%N] ++ concat (map json_char t) ++ [34%N])%list.
Definition json_list (l : list text) : text := (codes "[" ++ join_with comma l ++ codes "]")%list.
Definition json_object (l : list (string * text)) : text :=
  (codes "{" ++ join_with comma (map (λ kv, json_text (codes kv.1) ++ codes ": " ++ kv.2)%list l) ++ codes "}")%list.

(** The result the model receives, ASCII only. *)
Definition content (r : ArgumentRefusal) : text :=
  json_object
    [("tool_argument_validation_error", json_text (detail r));
     ("missing", json_list (map (λ n, json_text (codes n)) (missing r)));
     ("unknown", json_list (map json_text (unknown r)));
     ("invalid", json_list (map (λ '(a, rule, got, _),
        json_object [("argument", json_text (codes a)); ("rule", json_text (codes rule)); ("got", json_text (codes got))]) (invalid r)))].

Definition refusal_content (r : ArgumentRefusal) : string := String.string_of_list_ascii (map ascii_of_N (content r)).

(** The fields of the audit line. *)
Record AuditFields := mkAudit {
  a_input_type : string;
  a_missing : list string;
  a_unknown_count : nat;
  a_invalid : list (string * string * string);
}.

Definition audit_fields (r : ArgumentRefusal) : AuditFields :=
  mkAudit (input_type r) (missing r) (unknown_count r) (map (λ '(a, rule, got, _), (a, rule, got)) (invalid r)).
End check.

(** ** Reading a signature *)

Inductive annotation :=
| NoAnnotation | AnyAnnotation | ObjectAnnotation | NoneAnnotation | Unresolved
| IntAnnotation | FloatAnnotation | BoolAnnotation | StrAnnotation | OtherAnnotation
| Alias (a : annotation)
| Literal (args : list pyval)
| Annotated (a : annotation)
| Union (members : list annotation).

Fixpoint _takes_none (a : annotation) : bool :=
  match a with
  | NoAnnotation | AnyAnnotation | ObjectAnnotation | NoneAnnotation | Unresolved => true
  | Alias a | Annotated a => _takes_none a
  | Literal args => existsb (λ v, py_eq v VNone) args
  | Union members => existsb _takes_none members
  | _ => false
  end.

(** The JSON type [@tool] offers a parameter as. *)
Definition param_type (a : annotation) : string :=
  match a with IntAnnotation => "integer" | FloatAnnotation => "number" | BoolAnnotation => "boolean" | _ => "string" end.

Inductive param_kind := POSITIONAL_ONLY | BY_NAME | VAR_POSITIONAL | VAR_KEYWORD.

#[export] Instance param_kind_eq_dec : EqDecision param_kind.
Proof. solve_decision. Defined.

Record param := mkParam { p_name : string; p_kind : param_kind; p_default : bool; p_annotation : annotation }.

Definition NARROWING_KEYWORDS : list string := ["type"; "enum"; "minimum"; "maximum"; "minLength"; "maxLength"].

(** The JSON types a keyword limits. *)
Definition applies_to (keyword : string) : list string :=
  if String.eqb keyword "type" then ["string"; "integer"; "number"; "boolean"]
  else if bool_decide (keyword ∈ ["minimum"; "maximum"]) then ["integer"; "number"]
  else ["string"].

Section spec.
(** [Draft7Validator.check_schema] does not raise. *)
Context (schema_ok : pydict -> bool).

(** [rule[low] > rule[high]] *)
Definition crossed (rule : pydict) (low high : string) : bool :=
  match dget low rule, dget high rule with
  | Some l, Some h => match vnum l, vnum h with Some x, Some y => Qltb y x | _, _ => false end
  | _, _ => false
  end.

Definition _workable (rule : pyval) (own_type : string) : result string pydict :=
  match rule with
  | VDict r =>
      if negb (forallb (λ k, in_names k NARROWING_KEYWORDS) (dkeys r)) then Raise "ValueError"
      else if negb (schema_ok r) then Raise "ValueError"
      else if negb (v_eq_str (dget_or "type" (VStr own_type) r) own_type) then Raise "ValueError"
      else if negb (forallb (λ k, in_names own_type (applies_to k)) (dkeys r)) then Raise "ValueError"
      else if match dget "enum" r with
              | Some (VList l) => negb (vtruthy (VList l) && forallb (λ v, match v with VStr _ => true | _ => false end) l)
              | Some _ => true
              | None => false
              end then Raise "ValueError"
      else if existsb (λ k, match dget k r with Some (VInt z) => int_overflows z | _ => false end) ["minimum"; "maximum"]
      then Raise "OverflowError"
      else if crossed r "minimum" "maximum" || crossed r "minLength" "maxLength" then Raise "ValueError"
      else Ok r
  | _ => Raise "ValueError"
  end.

(** [properties[name].update(rule)] *)
Definition dupdate (r d : pydict) : pydict := fold_left (λ d kv, dset kv.1 kv.2 d) r d.

Fixpoint narrow_each (params : list param) (narrow : list (string * pyval)) (schemas : list (string * pydict)) :
    result string (list (string * pydict)) :=
  match narrow with
  | [] => Ok schemas
  | (name, rule) :: narrow =>
      match List.find (λ p, String.eqb (p_name p) name) params with
      | Some p =>
          if negb (bool_decide (p_kind p = BY_NAME)) || existsb (λ p, bool_decide (p_kind p = POSITIONAL_ONLY)) params then Raise "ValueError"
          else
            let! r := _workable rule (param_type (p_annotation p)) in
            narrow_each params narrow (schemas ++ [(name, dupdate r [("type", VStr (param_type (p_annotation p)))])])%list
      | None => Raise "ValueError"
      end
  end.

(** [None] where a parameter is positional only. *)
Definition argument_spec (params : list param) (narrow : list (string * pyval)) : result string (option ArgumentSpec) :=
  let! narrowings := narrow_each params narrow [] in
  if existsb (λ p, bool_decide (p_kind p = POSITIONAL_ONLY)) params then Ok None
  else
    let by_name := List.filter (λ p, bool_decide (p_kind p = BY_NAME)) params in
    let of_type t := map p_name (List.filter (λ p, String.eqb (param_type (p_annotation p)) t) by_name) in
    let none := map p_name (List.filter (λ p, _takes_none (p_annotation p)) by_name) in
    Ok (Some (mkArgSpec (map p_name by_name)
                (map p_name (List.filter (λ p, negb (p_default p)) by_name))
                (of_type "integer") (of_type "number") none
                (map p_name (List.filter (λ p, p_default p && negb (in_names (p_name p) none) && negb (in_names (p_name p) (map fst narrowings))) by_name))
                (existsb (λ p, bool_decide (p_kind p = VAR_KEYWORD)) params)
                narrowings)).
End spec.

(** ** Integer text *)

(** The value of a string of digits, the first ones first. *)
Lemma int_digits_app s t : forall acc, all_digits s = true -> int_digits acc (s +:+ t) =
  match int_digits acc s with Some n => int_digits n t | None => None end.
Proof.
  induction s as [|c s IH]; intros acc; [done|]. rewrite app_cons. cbn [all_digits int_digits].
  unfold ascii_digit. intros [Hc Hs]%andb_true_iff.
  assert ((48 <=? Z.of_N (code c))%Z && (Z.of_N (code c) <=? 57)%Z = true) as ->; [|by apply IH].
  revert Hc. rewrite !andb_true_iff, !N.leb_le, !Z.leb_le. lia.
Qed.

Definition digit_of (c : ascii) : N := (code c - 48)%N.

Lemma digit_char c : ascii_digit c = true -> pretty_N_char (digit_of c) = c /\ (digit_of c < 10)%N.
Proof.
  unfold ascii_digit, digit_of, code. rewrite andb_true_iff, !N.leb_le. intros Hc.
  assert (c = ascii_of_N (N_of_ascii c)) as Ec by (by rewrite ascii_N_embedding).
  set (n := N_of_ascii c) in *. rewrite Ec.
  assert (n = 48 \/ n = 49 \/ n = 50 \/ n = 51 \/ n = 52 \/ n = 53 \/ n = 54 \/ n = 55 \/ n = 56 \/ n = 57)%N as Hn by lia.
  destruct Hn as [->|[->|[->|[->|[->|[->|[->|[->|[->| ->]]]]]]]]]; split; (reflexivity || lia).
Qed.

(** Digits with no leading zero print as they were read. *)
Lemma digits_pretty n : forall s acc, String.length s = n -> all_digits s = true ->
  match s with String c _ => c <> "0"%char | EmptyString => False end ->
  exists v, int_digits 0 s = Some (Z.of_N v) /\ (0 < v)%N /\ pretty_N_go v acc = s +:+ acc.
Proof.
  induction n as [n IH] using lt_wf_ind. intros s acc Hn Hs Hz.
  assert (exists p d, s = p +:+ String d "") as (p&d&->).
  { clear -Hz. destruct s as [|c s]; [done|]. clear Hz. revert c. induction s as [|e s IHs]; intros c; [by exists "", c|].
    destruct (IHs e) as (p&d&E). exists (String c p), d. by rewrite app_cons, <- E. }
  assert (all_digits p = true /\ ascii_digit d = true) as [Hp Hd].
  { clear -Hs. induction p as [|c p IHp]; [rewrite app_empty in Hs; cbn in Hs; by rewrite andb_true_r in Hs|].
    rewrite app_cons in Hs. cbn [all_digits] in *. apply andb_true_iff in Hs as [-> Hs]. apply IHp in Hs as [-> ->]. done. }
  destruct (digit_char d Hd) as [Hdc Hdl].
  assert (forall v, int_digits (Z.of_N v) (String d "") = Some (Z.of_N (10 * v + digit_of d))) as Hlast.
  { intros v. cbn [int_digits]. unfold ascii_digit in Hd. rewrite andb_true_iff, !N.leb_le in Hd.
    assert ((48 <=? Z.of_N (code d))%Z && (Z.of_N (code d) <=? 57)%Z = true) as -> by (rewrite andb_true_iff, !Z.leb_le; lia).
    f_equal. unfold digit_of. lia. }
  assert (forall v acc', (0 < 10 * v + digit_of d)%N -> pretty_N_go (10 * v + digit_of d) acc' = pretty_N_go v (String d acc')) as Hgo.
  { intros v acc' Hv. rewrite pretty_N_go_step by done.
    assert ((10 * v + digit_of d) `mod` 10 = digit_of d)%N as -> by (symmetry; apply (N.mod_unique _ _ v); lia).
    assert ((10 * v + digit_of d) `div` 10 = v)%N as -> by (symmetry; apply (N.div_unique _ _ _ (digit_of d)); lia).
    by rewrite Hdc. }
  destruct p as [|c p].
  - rewrite app_empty in *. exists (digit_of d). specialize (Hlast 0%N). rewrite N.mul_0_r, N.add_0_l in Hlast.
    assert (0 < digit_of d)%N as Hpos.
    { unfold digit_of. destruct (decide (code d = 48)%N) as [E|]; [|unfold ascii_digit in Hd; rewrite andb_true_iff, !N.leb_le in Hd; lia].
      exfalso. apply Hz. rewrite <- (ascii_N_embedding d). unfold code in E. by rewrite E. }
    split_and!; [done|done|]. specialize (Hgo 0%N acc). rewrite N.mul_0_r, N.add_0_l in Hgo. rewrite Hgo by done.
    by rewrite pretty_N_go_0.
  - destruct (IH (String.length (String c p))) with (s := String c p) (acc := String d acc) as (v&Hv&Hpos&Hpr); try done.
    { rewrite <- Hn, str_app_length. change (String.length (String d "")) with 1%nat. lia. }
    exists (10 * v + digit_of d)%N. rewrite int_digits_app by done. rewrite Hv, Hlast. split_and!; [done|lia|].
    rewrite Hgo by lia. rewrite Hpr, <- app_assoc_str. done.
Qed.

Lemma digits_no_space s : all_digits s = true -> rstrip s = s /\ lstrip s = s.
Proof.
  induction s as [|c s IH]; [done|]. cbn [all_digits rstrip lstrip]. intros [Hc Hs]%andb_true_iff.
  destruct (IH Hs) as [-> _].
  assert (is_space c = false) as ->; [|by destruct s].
  unfold ascii_digit, code in Hc. destruct c as [[][][][][][][][]]; done.
Qed.

Lemma digits_count s : all_digits s = true -> digit_count s = Z.of_nat (String.length s).
Proof.
  induction s as [|c s IH]; [done|]. cbn [all_digits digit_count String.length]. intros [Hc Hs]%andb_true_iff.
  rewrite (IH Hs). assert (Ascii.eqb c "_" = false) as ->; [|lia].
  destruct (Ascii.eqb_spec c "_") as [->|]; done.
Qed.

Lemma positive_pretty s : all_digits s = true -> match s with String c _ => c <> "0"%char | EmptyString => False end ->
  forall z, int_unsigned s = Some z -> (0 < z)%Z /\ pretty z = s.
Proof.
  intros Hs Hz z Hi. destruct s as [|c s]; [done|]. unfold int_unsigned in Hi.
  destruct (Ascii.eqb c "_" || (4300 <? digit_count (String c s))%Z)%bool; [done|].
  destruct (digits_pretty _ (String c s) "" eq_refl Hs Hz) as (v&Hv&Hpos&Hp). rewrite Hv in Hi. injection Hi as <-.
  split; [lia|]. rewrite app_nil_str in Hp. destruct v as [|p]; [done|]. change ((if decide (N.pos p = 0%N) then "0" else pretty_N_go (N.pos p) "") = String c s).
  by rewrite decide_False.
Qed.

(** The text the pattern accepts is the text the integer prints as. *)
Lemma integer_text_pretty s z : integer_text s = true -> int_of_str s = Some z -> s = pretty z.
Proof.
  assert (forall t, all_digits t = true -> strip t = t) as Hstrip.
  { intros t Ht. destruct (digits_no_space t Ht) as [Hr Hl]. unfold strip. by rewrite Hl, Hr. }
  assert (forall t, match t with String c r => ascii_digit c && negb (Ascii.eqb c "0") && all_digits r | EmptyString => false end = true ->
    all_digits t = true /\ match t with String c _ => c <> "0"%char | EmptyString => False end) as Hpos.
  { intros [|c t]; [done|]. rewrite !andb_true_iff, negb_true_iff. intros [[Hc H0] Ht]. cbn [all_digits].
    rewrite Hc, Ht. split; [done|]. intros ->. by rewrite Ascii.eqb_refl in H0. }
  intros Ht Hi. assert (s = "0" \/ (exists t, s = String "-" t /\ all_digits t = true /\ match t with String c _ => c <> "0"%char | EmptyString => False end)
    \/ (all_digits s = true /\ match s with String c _ => c <> "0"%char | EmptyString => False end)) as [->|[(t&->&Hd&Hz)|[Hd Hz]]].
  { unfold integer_text in Ht. destruct s as [|c s]; [done|].
    destruct (Ascii.eqb_spec c "-") as [->|Hm]; [right; left; exists s; split; [done|by apply Hpos]|].
    destruct (Ascii.eqb_spec c "0") as [->|H0].
    - destruct s; [by left|]. by rewrite andb_false_r in Ht.
    - right; right. apply Hpos. rewrite <- Ht. destruct c as [[][][][][][][][]]; try done. }
  - by vm_compute in Hi; injection Hi as <-.
  - unfold int_of_str in Hi. assert (strip (String "-" t) = String "-" t) as Es.
    { destruct (digits_no_space t Hd) as [Hr Hl]. unfold strip. cbn [lstrip]. change (is_space "-") with false. cbv iota.
      cbn [rstrip]. rewrite Hr. by destruct t. }
    rewrite Es in Hi. change (Ascii.eqb "-" "-") with true in Hi. cbv iota in Hi.
    destruct (int_unsigned t) as [y|] eqn:Ey; [|done]. injection Hi as <-.
    destruct (positive_pretty t Hd Hz y Ey) as [Hy Hp]. destruct y as [|y|y]; [lia| |lia]. change (- Z.pos y)%Z with (Z.neg y).
    unfold pretty, pretty_Z in *. by rewrite Hp.
  - unfold int_of_str in Hi. rewrite (Hstrip s Hd) in Hi. destruct s as [|c s]; [done|].
    assert (Ascii.eqb c "-" = false /\ Ascii.eqb c "+" = false) as [Hm Hp].
    { cbn [all_digits] in Hd. apply andb_true_iff in Hd as [Hd _]. split; destruct (Ascii.eqb_spec c "-"), (Ascii.eqb_spec c "+"); by subst. }
    rewrite Hm, Hp in Hi. by destruct (positive_pretty _ Hd Hz z Hi) as [_ ->].
Qed.

(** ** Lossless conversions *)

Section conversions.
Context (decimal_text : string -> option Q).

(** [same_value v w]: [w] is [v], or the one number [v] writes in another form. *)
Inductive same_value : pyval -> pyval -> Prop :=
| sv_same v : same_value v v
| sv_int_text z : same_value (VStr (pretty z)) (VInt z)
| sv_int_float q z : (q == inject_Z z)%Q -> same_value (VFloat q) (VInt z)
| sv_float_int z : float_holds z = true -> same_value (VInt z) (VFloat (inject_Z z))
| sv_float_int_text z : float_holds z = true -> same_value (VStr (pretty z)) (VFloat (inject_Z z))
| sv_float_text s q : decimal_text s = Some q -> same_value (VStr s) (VFloat q).
#[local] Hint Constructors same_value : core.

Lemma integral_eq q z : integral q = Some z -> (q == inject_Z z)%Q.
Proof.
  unfold integral. destruct (Z.rem (Qnum q) (Zpos (Qden q)) =? 0)%Z eqn:E; [|done]. intros [= <-].
  apply Z.eqb_eq in E. unfold Qeq. cbn [inject_Z Qnum Qden]. pose proof (Z.quot_rem' (Qnum q) (Zpos (Qden q))). lia.
Qed.

Lemma one_integer_same v : same_value v (_one_integer v).
Proof.
  destruct v as [|b|z|q|s|l|d]; cbn [_one_integer]; auto.
  - destruct (integral q) as [z|] eqn:E; [|auto]. apply sv_int_float. by apply integral_eq.
  - destruct (integer_text s) eqn:Ht; [|auto]. destruct (int_of_str s) as [z|] eqn:E; [|auto].
    rewrite (integer_text_pretty s z Ht E). auto.
Qed.

Lemma one_number_same v : same_value v (_one_number decimal_text v).
Proof.
  destruct v as [|b|z|q|s|l|d]; cbn [_one_number]; auto.
  - unfold number_of_int. destruct (float_holds z) eqn:E; auto.
  - destruct (integer_text s) eqn:Ht; [|destruct (decimal_text s) eqn:E; auto].
    destruct (int_of_str s) as [z|] eqn:E; [|auto].
    rewrite (integer_text_pretty s z Ht E). destruct (float_holds z) eqn:F; auto.
Qed.

Lemma one_integer_idem v : _one_integer (_one_integer v) = _one_integer v.
Proof.
  destruct v as [|b|z|q|s|l|d]; cbn [_one_integer]; try done.
  - destruct (integral q) eqn:E; cbn [_one_integer]; [done|by rewrite E].
  - destruct (integer_text s) eqn:Ht; [|cbn [_one_integer]; by rewrite Ht].
    destruct (int_of_str s) eqn:E; cbn [_one_integer]; [done|by rewrite Ht, E].
Qed.

Lemma one_number_idem v : _one_number decimal_text (_one_number decimal_text v) = _one_number decimal_text v.
Proof.
  destruct v as [|b|z|q|s|l|d]; cbn [_one_number]; try done.
  - unfold number_of_int. destruct (float_holds z) eqn:E; cbn [_one_number]; [done|]. unfold number_of_int. by rewrite E.
  - destruct (integer_text s) eqn:Ht.
    + destruct (int_of_str s) eqn:E; [|cbn [_one_number]; by rewrite Ht, E].
      destruct (float_holds z) eqn:F; cbn [_one_number]; [done|]. unfold number_of_int. by rewrite F.
    + destruct (decimal_text s) eqn:E; cbn [_one_number]; [done|by rewrite Ht, E].
Qed.

(** What [receive] keeps of an argument, and what it drops. *)
Lemma receive_Some spec n v m w : receive decimal_text spec (n, v) = Some (m, w) ->
  m = n /\ known spec n = true /\ same_value v w /\ receive decimal_text spec (n, w) = Some (n, w).
Proof.
  unfold receive. destruct (known spec n) eqn:Hk; [|done]. cbn [negb].
  destruct (is_null v && in_names n (nulls_mean_default spec)) eqn:Hn; [done|]. intros [= <- <-].
  assert (forall w, (is_null w = true -> is_null v = true) -> is_null w && in_names n (nulls_mean_default spec) = false) as Hnn.
  { intros w' Hw. destruct (is_null w'); [|done]. by rewrite Hw in Hn. }
  assert (forall w', same_value v w' -> is_null w' = true -> is_null v = true) as Hnull by (intros ? []; done).
  destruct (in_names n (integers spec)); [|destruct (in_names n (numbers spec))].
  - split_and!; [done|done|apply one_integer_same|]. rewrite Hnn by (apply Hnull, one_integer_same). by rewrite one_integer_idem.
  - split_and!; [done|done|apply one_number_same|]. rewrite Hnn by (apply Hnull, one_number_same). by rewrite one_number_idem.
  - split_and!; [done|done|auto|]. by rewrite Hnn by (apply Hnull; auto).
Qed.

Lemma receive_None spec n v : receive decimal_text spec (n, v) = None -> known spec n = true ->
  v = VNone /\ in_names n (nulls_mean_default spec) = true.
Proof.
  unfold receive. intros H Hk. rewrite Hk in H. cbn [negb] in H.
  destruct (is_null v && in_names n (nulls_mean_default spec)) eqn:Hn; [|done].
  apply andb_true_iff in Hn as [Hv ->]. by destruct v.
Qed.

Lemma receive_idem spec (args : pydict) : omap (receive decimal_text spec) (omap (receive decimal_text spec) args) = omap (receive decimal_text spec) args.
Proof.
  assert (forall x (l : pydict), omap (receive decimal_text spec) (x :: l) = match receive decimal_text spec x with
    Some y => y :: omap (receive decimal_text spec) l | None => omap (receive decimal_text spec) l end) as Hcons by done.
  induction args as [|[n v] args IH]; [done|]. rewrite Hcons. destruct (receive decimal_text spec (n, v)) as [[m w]|] eqn:E; [|done].
  destruct (receive_Some _ _ _ _ _ E) as (->&_&_&E'). rewrite Hcons, E'. by rewrite IH.
Qed.

Lemma received_keys spec (args : pydict) n : n ∈ dkeys (omap (receive decimal_text spec) args) -> n ∈ dkeys args /\ known spec n = true.
Proof.
  unfold dkeys. intros ([m w]&->&Hin)%list_elem_of_fmap. apply list_elem_of_omap in Hin as ([k v]&Hin&E).
  destruct (receive_Some _ _ _ _ _ E) as (->&Hk&_). split; [|done]. by apply (list_elem_of_fmap_2 fst) in Hin.
Qed.
End conversions.

(** ** Admission *)

(** [f( **args)] finds a parameter for every name and a value for every parameter. *)
Definition binds (params : list param) (args : pydict) : Prop :=
  (forall n, n ∈ dkeys args -> (exists p, p ∈ params /\ p_name p = n /\ p_kind p = BY_NAME) \/ exists p, p ∈ params /\ p_kind p = VAR_KEYWORD) /\
  (forall p, p ∈ params -> p_kind p = BY_NAME -> p_default p = false -> p_name p ∈ dkeys args).

Lemma in_filter {A} (f : A -> bool) (l : list A) x : x ∈ List.filter f l <-> x ∈ l /\ f x = true.
Proof. by rewrite !list_elem_of_In, filter_In. Qed.

Lemma in_names_spec n l : in_names n l = true <-> n ∈ l.
Proof. apply bool_decide_eq_true. Qed.

Lemma dmem_keys {V} n (d : list (string * V)) : dmem n d = true <-> n ∈ dkeys d.
Proof.
  unfold dmem. pose proof (dget_None n d) as H. destruct (dget n d) eqn:E; [|split; [done|]].
  - split; [|done]. intros _. apply dget_Some_elem in E. by apply (list_elem_of_fmap_2 fst) in E.
  - intros Hin. by apply H in Hin.
Qed.

Lemma filter_nil_iff {A} (f : A -> bool) l : List.filter f l = [] <-> forall x, x ∈ l -> f x = false.
Proof.
  split.
  - intros H x Hx. destruct (f x) eqn:E; [|done]. assert (x ∈ List.filter f l) as Hi by (by apply in_filter).
    rewrite H in Hi. set_solver.
  - intros H. apply filter_none. by apply Forall_forall.
Qed.

Section admission.
Context (schema_ok : pydict -> bool).

Context (params : list param) (narrow : list (string * pyval)) (spec : ArgumentSpec).
Context (Hdistinct : NoDup (map p_name params)) (Hspec : argument_spec schema_ok params narrow = Ok (Some spec)).

Lemma same_param p q : p ∈ params -> q ∈ params -> p_name p = p_name q -> p = q.
Proof.
  clear Hspec. intros Hp Hq E. apply list_elem_of_lookup in Hp as [i Hi]. apply list_elem_of_lookup in Hq as [j Hj].
  assert (i = j) as ->; [|by simplify_eq]. eapply NoDup_lookup; [exact Hdistinct| |].
  - rewrite list_lookup_fmap, Hi. done.
  - rewrite list_lookup_fmap, Hj. cbn. by rewrite E.
Qed.

(** The fields of the specification. *)
Lemma spec_names n : n ∈ names spec <-> exists p, p ∈ params /\ p_name p = n /\ p_kind p = BY_NAME.
Proof.
  unfold argument_spec in Hspec. destruct (narrow_each _ _ _ _); [|done]. cbn [rbind] in Hspec.
  destruct (existsb _ params); [done|]. injection Hspec as <-. cbn [names]. unfold map.
  setoid_rewrite list_elem_of_fmap. setoid_rewrite in_filter. setoid_rewrite bool_decide_eq_true. naive_solver.
Qed.

Lemma spec_required n : n ∈ required spec <-> exists p, p ∈ params /\ p_name p = n /\ p_kind p = BY_NAME /\ p_default p = false.
Proof.
  unfold argument_spec in Hspec. destruct (narrow_each _ _ _ _); [|done]. cbn [rbind] in Hspec.
  destruct (existsb _ params); [done|]. injection Hspec as <-. cbn [required].
  setoid_rewrite list_elem_of_fmap. setoid_rewrite in_filter. setoid_rewrite in_filter.
  setoid_rewrite bool_decide_eq_true. setoid_rewrite negb_true_iff. naive_solver.
Qed.

Lemma spec_open : open spec = true <-> exists p, p ∈ params /\ p_kind p = VAR_KEYWORD.
Proof.
  unfold argument_spec in Hspec. destruct (narrow_each _ _ _ _); [|done]. cbn [rbind] in Hspec.
  destruct (existsb (λ p, bool_decide (p_kind p = POSITIONAL_ONLY)) params); [done|]. injection Hspec as <-. cbn [open].
  rewrite existsb_exists. setoid_rewrite <- list_elem_of_In. by setoid_rewrite bool_decide_eq_true.
Qed.

Lemma spec_nulls n : n ∈ nulls_mean_default spec ->
  exists p, p ∈ params /\ p_name p = n /\ p_default p = true /\ _takes_none (p_annotation p) = false /\ n ∉ map fst (narrowed spec).
Proof.
  unfold argument_spec in Hspec. destruct (narrow_each _ _ _ _); [|done]. cbn [rbind] in Hspec.
  destruct (existsb _ params); [done|]. injection Hspec as <-. cbn [nulls_mean_default narrowed].
  rewrite list_elem_of_fmap. intros (p&->&Hp). rewrite !in_filter, !andb_true_iff, !negb_true_iff in Hp.
  destruct Hp as [[Hin Hk] [[Hd Hn] Hw]]. exists p. split_and!; try done.
  - destruct (_takes_none (p_annotation p)) eqn:E; [|done]. apply not_true_iff_false in Hn. exfalso. apply Hn.
    apply in_names_spec, list_elem_of_fmap. exists p. split; [done|]. rewrite !in_filter. done.
  - intros Hi. apply in_names_spec in Hi. by rewrite Hi in Hw.
Qed.

Context (errors_of : pydict -> pyval -> result string (list (string * pyval))).

(** A value in [out] that a narrowing limits and refuses. *)
Definition breaks (out : pydict) (n : string) (schema : pydict) : Prop :=
  exists v es, dget n out = Some v /\ (is_null v && in_names n (takes_none spec))%bool = false /\
    errors_of schema v = Ok es /\ es <> [].

Lemma broken_exact out narrowings : (forall schema v, exists es, errors_of schema v = Ok es) ->
  exists bad, broken errors_of spec out narrowings = Ok bad /\
    match bad with
    | [] => forall n schema, (n, schema) ∈ narrowings -> ~ breaks out n schema
    | _ => exists n schema, (n, schema) ∈ narrowings /\ breaks out n schema
    end.
Proof.
  clear Hdistinct Hspec params narrow schema_ok. intros Htot. induction narrowings as [|[n schema] narrowings (bad&IH&Hbad)]; [exists []; split; [done|set_solver]|].
  assert (exists es, match dget n out with
                     | Some value => if is_null value && in_names n (takes_none spec) then Ok []
                                     else let! es := errors_of schema value in
                                          Ok (map (λ e : string * pyval, (n, e.1, _json_type value, e.2)) es)
                     | None => Ok []
                     end = Ok es /\ match es with [] => ~ breaks out n schema | _ => breaks out n schema end) as (es&He&Hes).
  { unfold breaks. destruct (dget n out) as [v|] eqn:E; [|exists []; split; [done|naive_solver]].
    destruct (is_null v && in_names n (takes_none spec)) eqn:X; [exists []; split; [done|]; intros (v'&es&[= <-]&Hx&_); congruence|].
    destruct (Htot schema v) as [es Hes]. rewrite Hes. cbn [rbind]. eexists. split; [done|].
    destruct es as [|e es]; [|by exists v, (e :: es)].
    intros (v'&es'&[= <-]&_&He&Hne). rewrite Hes in He. by injection He as <-. }
  cbn [broken]. exists (es ++ bad)%list. rewrite He. cbn [rbind]. rewrite IH. split; [done|].
  destruct es as [|e es]; [|exists n, schema; by split; [left|]]. destruct bad as [|e bad].
  - intros m sch [[= -> ->]|Hin]%elem_of_cons; [done|]. by apply Hbad.
  - destruct Hbad as (m&sch&Hin&Hb). exists m, sch. by split; [right|].
Qed.

Context (decimal_text : string -> option Q).

Lemma dropped_argument args n v : (n, v) ∈ args -> n ∉ dkeys (omap (receive decimal_text spec) args) ->
  known spec n = true -> v = VNone /\ n ∈ nulls_mean_default spec.
Proof.
  intros Hin Hn Hk. destruct (receive decimal_text spec (n, v)) as [[m w]|] eqn:E.
  - exfalso. apply Hn. destruct (receive_Some _ _ _ _ _ _ E) as (->&_). apply list_elem_of_fmap. exists (n, w).
    split; [done|]. apply list_elem_of_omap. by exists (n, v).
  - destruct (receive_None _ _ _ _ E Hk) as [-> Hm]. split; [done|]. by apply in_names_spec.
Qed.

Lemma required_kept args n : n ∈ required spec -> n ∈ dkeys args -> n ∈ dkeys (omap (receive decimal_text spec) args).
Proof.
  intros Hr Ha. unfold dkeys in Ha. apply list_elem_of_fmap in Ha as ([m v]&->&Hin). cbn [fst] in *. destruct (decide (m ∈ dkeys (omap (receive decimal_text spec) args))); [done|].
  apply spec_required in Hr as (p&Hp&Hpn&Hk&Hd).
  destruct (dropped_argument args m v) as [_ Hn]; try done.
  - unfold known. apply orb_true_iff. left. apply in_names_spec, spec_names. by exists p.
  - apply spec_nulls in Hn as (q&Hq&Hqn&Hqd&_). assert (p = q) as -> by (apply same_param; congruence). congruence.
Qed.

Lemma known_spec n : known spec n = true <-> (exists p, p ∈ params /\ p_name p = n /\ p_kind p = BY_NAME) \/ exists p, p ∈ params /\ p_kind p = VAR_KEYWORD.
Proof. unfold known. by rewrite orb_true_iff, in_names_spec, spec_names, spec_open. Qed.

(** A call binds exactly when it leaves no required argument out and names none the
    tool has no parameter for. *)
Lemma binds_exact args : binds params args <->
  List.filter (λ n, negb (known spec n)) (dkeys args) = [] /\
  List.filter (λ n, negb (dmem n (omap (receive decimal_text spec) args))) (required spec) = [].
Proof.
  rewrite !filter_nil_iff. setoid_rewrite negb_false_iff. setoid_rewrite known_spec. setoid_rewrite dmem_keys.
  unfold binds. split; intros [Hk Hr]; (split; [done|]).
  - intros n Hn. apply required_kept; [done|]. apply spec_required in Hn as (p&Hp&<-&Hb&Hd). by apply Hr.
  - intros p Hp Hb Hd. eapply received_keys, Hr, spec_required. by exists p.
Qed.

Lemma received_binds args : binds params args -> binds params (omap (receive decimal_text spec) args).
Proof.
  rewrite !binds_exact, receive_idem. rewrite !filter_nil_iff. intros [Hk Hr]. split; [|done].
  intros n Hn. by apply Hk, (received_keys decimal_text spec args n).
Qed.
End admission.

(** C22. Admission is exactly Python's binding plus the narrowings.  Arguments the check
    admits bind to the tool's signature and break no narrowing; each value the tool
    receives is the one sent, or the same number in its one lossless form; and an
    argument is left out only as a null for an optional parameter that neither takes
    null nor is narrowed.  A refused call would not have bound, or a narrowing the
    tool declared refuses one of its values. *)
Theorem admission_exact schema_ok decimal_text errors_of params narrow spec args :
  NoDup (map p_name params) -> argument_spec schema_ok params narrow = Ok (Some spec) ->
  (forall schema v, exists es, errors_of schema v = Ok es) ->
  exists res, validate_arguments decimal_text errors_of (Some spec) (VDict args) = Ok res /\
    match res with
    | Checked out =>
        binds params args /\ binds params out /\
        (forall n schema, (n, schema) ∈ narrowed spec -> ~ breaks spec errors_of out n schema) /\
        (forall n w, (n, w) ∈ out -> exists v, (n, v) ∈ args /\ same_value decimal_text v w) /\
        (forall n v, (n, v) ∈ args -> n ∉ dkeys out -> v = VNone /\
           exists p, p ∈ params /\ p_name p = n /\ p_default p = true /\ _takes_none (p_annotation p) = false /\ n ∉ map fst (narrowed spec))
    | Refused r =>
        ~ binds params args \/
        exists n schema, (n, schema) ∈ narrowed spec /\ breaks spec errors_of (omap (receive decimal_text spec) args) n schema
    end.
Proof.
  intros Hnd Hspec Htot. set (out := omap (receive decimal_text spec) args).
  destruct (broken_exact spec errors_of out (narrowed spec) Htot) as (bad&Hbad&Hex).
  assert (match narrowed spec with [] => Ok [] | narrowings => broken errors_of spec out narrowings end = Ok bad) as Hb
    by (rewrite <- Hbad; by destruct (narrowed spec)).
  unfold validate_arguments. fold out. rewrite Hb. cbn [rbind].
  pose proof (binds_exact schema_ok params narrow spec Hnd Hspec decimal_text args) as Hbinds. fold out in Hbinds.
  destruct (List.filter (λ n, negb (known spec n)) (dkeys args)) as [|x xs] eqn:Ek;
    [destruct (List.filter (λ n, negb (dmem n out)) (required spec)) as [|y ys] eqn:Er; [destruct bad as [|b bad]|]|];
    (eexists; split; [done|]); cbn iota.
  - assert (binds params args) as Hok by by apply Hbinds.
    split_and!; [done|by eapply received_binds|done| |].
    + intros n w ([k v]&Hin&E)%list_elem_of_omap. destruct (receive_Some _ _ _ _ _ _ E) as (->&_&Hs&_). by exists v.
    + intros n v Hin Hn. assert (known spec n = true) as Hkn.
      { eapply known_spec; [done|]. apply Hok. by apply (list_elem_of_fmap_2 fst) in Hin. }
      destruct (dropped_argument spec decimal_text args n v Hin Hn Hkn) as [-> Hd]. split; [done|]. by eapply spec_nulls.
  - by right.
  - left. rewrite Hbinds. by intros [_ ?].
  - left. rewrite Hbinds. by intros [? _].
Qed.

(** A command, required and narrowed to text, and an optional integer timeout. *)
Definition shell_params : list param :=
  [mkParam "command" BY_NAME false StrAnnotation; mkParam "timeout" BY_NAME true IntAnnotation].

Definition shell_narrow : list (string * pyval) := [("command", VDict [("type", VStr "string")])].

Definition text_errors (schema : pydict) (v : pyval) : result string (list (string * pyval)) :=
  Ok (match v with VStr _ => [] | _ => [("type", VStr "string")] end).

Lemma admission_exact_witness :
  exists spec, argument_spec (λ _, true) shell_params shell_narrow = Ok (Some spec) /\
    validate_arguments (λ _, None) text_errors (Some spec) (VDict [("command", VStr "ls"); ("timeout", VStr "30")]) =
      Ok (Checked [("command", VStr "ls"); ("timeout", VInt 30)]) /\
    binds shell_params [("command", VStr "ls"); ("timeout", VStr "30")].
Proof.
  eexists. split; [vm_compute; reflexivity|]. split; [vm_compute; reflexivity|].
  edestruct (admission_exact (λ _, true) (λ _, None) text_errors shell_params shell_narrow)
    with (args := [("command", VStr "ls"); ("timeout", VStr "30")]) as (res&Hres&Hm).
  - apply (bool_decide_unpack _); vm_compute; exact I.
  - vm_compute; reflexivity.
  - intros schema v; eexists; reflexivity.
  - vm_compute in Hres. injection Hres as <-. exact (proj1 Hm).
Defined.

(** Arguments a tool receives are admitted again, unchanged. *)
Theorem admitted_unchanged decimal_text errors_of spec args out :
  validate_arguments decimal_text errors_of (Some spec) (VDict args) = Ok (Checked out) ->
  validate_arguments decimal_text errors_of (Some spec) (VDict out) = Ok (Checked out).
Proof.
  unfold validate_arguments. intros H. apply rbind_Ok in H as (bad&Hb&H).
  destruct (List.filter (λ n, negb (known spec n)) (dkeys args)) as [|] eqn:Ek; [|done].
  destruct (List.filter _ (required spec)) eqn:Er; [|done]. destruct bad; [|done]. injection H as <-.
  rewrite receive_idem, Hb. cbn [rbind]. rewrite Er.
  assert (List.filter (λ n, negb (known spec n)) (dkeys (omap (receive decimal_text spec) args)) = []) as ->; [|done].
  apply filter_nil_iff. intros n Hn. apply negb_false_iff. by eapply received_keys.
Qed.

Lemma admitted_unchanged_witness :
  exists spec, validate_arguments (λ _, None) text_errors (Some spec) (VDict [("command", VStr "ls"); ("timeout", VInt 30)]) =
    Ok (Checked [("command", VStr "ls"); ("timeout", VInt 30)]).
Proof.
  destruct (argument_spec (λ _, true) shell_params shell_narrow) as [[spec|]|] eqn:E; [|vm_compute in E; discriminate|vm_compute in E; discriminate].
  exists spec. apply (admitted_unchanged (λ _, None) text_errors spec [("command", VStr "ls"); ("timeout", VFloat (60 # 2))]).
  injection E as <-. vm_compute. reflexivity.
Defined.

(** A narrowing no value passes is accepted: between 0.2 and 0.8 there is no integer. *)
Lemma unsatisfiable_narrowing_accepted :
  exists r, _workable (λ _, true) (VDict [("minimum", VFloat (1 # 5)); ("maximum", VFloat (4 # 5))]) "integer" = Ok r /\
    forall z : Z, ~ ((1 # 5) <= inject_Z z /\ inject_Z z <= (4 # 5))%Q.
Proof. eexists. split; [vm_compute; reflexivity|]. intros z. unfold Qle. cbn. lia. Qed.

(** ** What a refusal shows *)

Definition json_safe (t : text) : Prop := Forall (λ n, (32 <= n <= 126)%N) t.

Lemma hex_digit_safe n : (n < 16)%N -> (32 <= hex_digit n <= 126)%N.
Proof. unfold hex_digit. destruct (N.ltb_spec n 10); lia. Qed.

Lemma json_unicode_safe n : json_safe (json_unicode n).
Proof.
  unfold json_unicode, hex4, json_safe. cbn [app].
  repeat (apply Forall_cons; split; [first [by vm_compute | apply hex_digit_safe, N.mod_lt; lia]|]). by apply Forall_nil.
Qed.

Lemma json_char_safe n : json_safe (json_char n).
Proof.
  unfold json_char. repeat (case_match; [repeat (apply Forall_cons; split; [by vm_compute|]); by apply Forall_nil|]).
  destruct ((32 <=? n) && (n <=? 126))%N eqn:E.
  - apply andb_true_iff in E. rewrite !N.leb_le in E. apply Forall_cons. by split; [|apply Forall_nil].
  - destruct (n <? 65536)%N; [apply json_unicode_safe|]. apply Forall_app. split; apply json_unicode_safe.
Qed.

Lemma json_text_safe t : json_safe (json_text t).
Proof.
  unfold json_text. repeat (apply Forall_app; split); [by repeat constructor| |by repeat constructor].
  induction t as [|c t IH]; [by apply Forall_nil|]. cbn [map concat]. apply Forall_app. split; [apply json_char_safe|done].
Qed.

Lemma join_safe sep l : json_safe sep -> Forall json_safe l -> json_safe (join_with sep l).
Proof.
  intros Hs Hl. induction Hl as [|x l Hx Hl IH]; [by apply Forall_nil|]. cbn [join_with]. destruct l; [done|].
  repeat (apply Forall_app; split; try done).
Qed.

Lemma codes_safe s : forallb (λ c, (32 <=? code c) && (code c <=? 126))%N (String.list_ascii_of_string s) = true -> json_safe (codes s).
Proof.
  unfold codes, json_safe. intros H. apply Forall_forall. intros n (c&->&Hc)%list_elem_of_fmap.
  rewrite forallb_forall in H. apply list_elem_of_In in Hc. specialize (H c Hc).
  apply andb_true_iff in H. by rewrite !N.leb_le in H.
Qed.

Lemma json_list_safe l : Forall json_safe l -> json_safe (json_list l).
Proof.
  intros H. unfold json_list. repeat (apply Forall_app; split); try (by apply codes_safe). by apply join_safe; [apply codes_safe|].
Qed.

Lemma json_object_safe l : Forall (λ kv, json_safe kv.2) l -> json_safe (json_object l).
Proof.
  intros H. unfold json_object. repeat (apply Forall_app; split); try (by apply codes_safe).
  apply join_safe; [by apply codes_safe|]. apply Forall_fmap. eapply Forall_impl; [exact H|]. intros [k v] Hv. cbn [fst snd] in *.
  apply Forall_app. split; [apply json_text_safe|]. apply Forall_app. by split; [apply codes_safe|].
Qed.

(** A refusal reaches the model as printable ASCII whatever names, limits and types
    it carries, and the names the model made up are at most sixteen, each cut to
    sixty-four characters and the mark that says so. *)
Theorem refusal_content_bounded decimal_text errors_of str_of dumps spec args r :
  validate_arguments decimal_text errors_of spec args = Ok (Refused r) ->
  json_safe (content str_of dumps r) /\
  (length (unknown r) <= _MAX_LISTED)%nat /\
  Forall (λ n, (length n <= _MAX_NAME + length truncation_mark)%nat /\ Forall (λ c, printable_cp c = true \/ c = _CTRL_REPLACEMENT \/ c = 8230%N) n) (unknown r).
Proof.
  intros Hv. split.
  { unfold content. apply json_object_safe.
    assert (forall l : list string, json_safe (json_list (map (λ n, json_text (codes n)) l))) as Hnames.
    { intros l. apply json_list_safe, Forall_fmap, Forall_forall. intros n _. apply json_text_safe. }
    apply Forall_cons; split; [cbn [snd]; apply json_text_safe|]. apply Forall_cons; split; [cbn [snd]; apply Hnames|].
    apply Forall_cons; split; [cbn [snd]; apply json_list_safe, Forall_fmap, Forall_forall; intros n _; apply json_text_safe|].
    apply Forall_cons; split; [cbn [snd]|by apply Forall_nil].
    apply json_list_safe, Forall_fmap, Forall_forall. intros [[[a rule] got] l] _. cbn beta iota zeta. apply json_object_safe.
    do 3 (apply Forall_cons; split; [cbn [snd]; apply json_text_safe|]). by apply Forall_nil. }
  assert (unknown r = [] \/ exists (spec : ArgumentSpec) (args : pydict), unknown r = map (λ n, bounded (codes n) _MAX_NAME) (take _MAX_LISTED (List.filter (λ n, negb (known spec n)) (dkeys args)))) as [->|(sp&a&->)].
  { unfold validate_arguments in Hv. destruct args as [| | | | | |args]; try (injection Hv as <-; by left).
    destruct spec as [sp|]; [|done]. right. exists sp, args. apply rbind_Ok in Hv as (bad&_&Hv).
    destruct (List.filter _ (dkeys args)); [destruct (List.filter _ (required sp)); [destruct bad; [done|]|]|]; by injection Hv as <-. }
  { split; [cbn; lia|by apply Forall_nil]. }
  split; [rewrite length_map, length_take; lia|]. apply Forall_fmap, Forall_forall. intros n _. cbv beta. unfold compose, bounded.
  assert (forall m : text, Forall (λ c, printable_cp c = true \/ c = _CTRL_REPLACEMENT \/ c = 8230%N) (map (λ c, if printable_cp c then c else _CTRL_REPLACEMENT) m)) as Hp.
  { intros m. apply Forall_fmap, Forall_forall. intros c _. cbn. destruct (printable_cp c) eqn:E; auto. }
  destruct (length (codes n) <=? _MAX_NAME)%nat.
  - split; [rewrite length_map; pose proof (length_take (codes n) _MAX_NAME); lia|apply Hp].
  - split; [rewrite length_app, length_map; pose proof (length_take (codes n) _MAX_NAME); lia|].
    apply Forall_app. split; [apply Hp|]. vm_compute.
    repeat (apply Forall_cons; split; [first [left; reflexivity|right; right; reflexivity]|]). by apply Forall_nil.
Qed.

Lemma refusal_content_bounded_witness :
  exists r, validate_arguments (λ _, None) text_errors None (VList []) = Ok (Refused r) /\
    json_safe (content (λ _, []) (λ _, []) r) /\ input_type r = "array".
Proof.
  eexists. split; [reflexivity|]. split; [|reflexivity].
  exact (proj1 (refusal_content_bounded (λ _, None) text_errors (λ _, []) (λ _, []) None (VList []) _ eq_refl)).
Defined.
