(* ===== verification/ToolRound.v ===== *)
(** * The tools an agent offers, and the calls it runs

    Models [agents/tools/tool_list.py], the [@tool] wrapper of
    [agents/tools/registry.py], and the two tool rounds:
    [agents/persona_runtime/tool_round.py] and [agents/task_tool_round.py]. A tool
    body is an argument, [run], over a world [W]; so are jsonschema, [json.dumps]
    and [str]. Spans, metrics and logs other than the audit line are left out. *)

From S2P Require Import Prelude PyStr PyDict PyValue FactPredicates Security LlmTypes ToolArguments.
Local Open Scope string_scope.
Local Open Scope py_scope.

(** ** [registry.py] *)

Record ToolResult := mkResult {
  success : bool;
  data : pyval;
  error : option string;
  error_type : option string;
}.

(** What a tool's body does: returns a result, another value, or raises. *)
Inductive outcome :=
| Returned (r : ToolResult)
| ReturnedValue (v : pyval)
| Raised (type_name message : string).

(** The body as [@tool] wraps it, or as it is. *)
Inductive tool_func (F : Type) := Wrapped (f : F) | Bare (f : F).
Arguments Wrapped {F} f. Arguments Bare {F} f.

Record ToolDefinition (F : Type) := mkTool {
  td_name : string;
  td_description : string;
  td_parameters : pydict;
  td_func : option (tool_func F);
  td_spec : option ArgumentSpec;
}.
Arguments mkTool {F}. Arguments td_name {F}. Arguments td_description {F}. Arguments td_parameters {F}.
Arguments td_func {F}. Arguments td_spec {F}.

(** The wrapper turns a value into a success and an exception into a failure. *)
Definition wrapper (o : outcome) : ToolResult :=
  match o with
  | Returned r => r
  | ReturnedValue v => mkResult true v None None
  | Raised t m => mkResult false VNone (Some m) (Some t)
  end.

(** ** [tool_list.py] *)

Definition _listed_names (config : pydict) : list string :=
  match dget "tools" config with
  | Some (VList listed) => omap (λ v, match v with VStr s => Some s | _ => None end) listed
  | _ => []
  end.

Section tools.
Context {F W : Type} (run : F -> pydict -> W -> outcome * W).
Context (decimal_text : string -> option Q) (errors_of : pydict -> pyval -> result string (list (string * pyval))).
(** [json.dumps(v)] and [str(v)], as text and as a narrowing's limit is shown *)
Context (dumps : pyval -> result string string) (str_of : pyval -> string).
Context (limit_json limit_str : pyval -> text).
Context (patterns : list (string * (string -> bool))).

Definition offered_tools (registry : list (ToolDefinition F)) (config : pydict) : list (ToolDefinition F) :=
  match _listed_names config with
  | [] => []
  | names => List.filter (λ td, in_names (td_name td) names) registry
  end.

Definition refuse_call (c : ToolCall) : LLMToolResult := mkToolResult (call_id c) ("Unknown tool: " +:+ call_name c) true.

(** What a round does besides answering: refusals counted, the audit line, the bodies run. *)
Inductive tool_emission :=
| RefusedCall (tool refusal : string)
| ArgInvalid (tool call : string) (fields : AuditFields)
| Ran (f : F) (args : pydict).

Inductive admission := AdmittedCall (f : tool_func F) (args : pydict) | Answered (r : LLMToolResult).

Definition admit_call (tools : list (string * ToolDefinition F)) (c : ToolCall) : admission * list tool_emission :=
  match dget (call_name c) tools with
  | Some td =>
      match td_func td with
      | Some f =>
          match validate_arguments decimal_text errors_of (td_spec td) (call_input c) with
          | Raise _ => (Answered (mkToolResult (call_id c) "Internal tool error" true), [RefusedCall (call_name c) "argument_check_error"])
          | Ok (Refused r) =>
              (Answered (mkToolResult (call_id c) (refusal_content limit_str limit_json r) true),
               [RefusedCall (call_name c) "tool_argument_validation_error"; ArgInvalid (call_name c) (call_id c) (audit_fields r)])
          | Ok (Checked args) => (AdmittedCall f args, [])
          end
      | None => (Answered (refuse_call c), [])
      end
  | None => (Answered (refuse_call c), [])
  end.

(** ** A round *)

(** [await admitted.run( **admitted.arguments)]; anything but a [ToolResult] a bare
    body returns has no [success]. *)
Definition call_tool (f : tool_func F) (args : pydict) (w : W) : result string ToolResult * list tool_emission * W :=
  match f with
  | Wrapped f => let '(o, w) := run f args w in (Ok (wrapper o), [Ran f args], w)
  | Bare f =>
      let '(o, w) := run f args w in
      (match o with Returned r => Ok r | ReturnedValue _ => Raise "AttributeError" | Raised t _ => Raise t end, [Ran f args], w)
  end.

Definition shown (v : pyval) : result string string :=
  match v with VDict _ | VList _ => dumps v | _ => Ok (str_of v) end.

(** The message of a failure, without its output. *)
Definition failure_text (r : ToolResult) : string :=
  let msg := match error r with Some e => if truthy e then e else "Tool failed" | None => "Tool failed" end in
  match error_type r with
  | Some t => if truthy t then "Tool error (" +:+ t +:+ "): " +:+ msg else msg
  | None => msg
  end.

Definition answer_result (c : ToolCall) (r : ToolResult) : result string LLMToolResult :=
  let! content :=
    if success r then let! out := shown (data r) in maybe_wrap_tool_content patterns (call_name c) out
    else if vtruthy (data r) then
      let! out := shown (data r) in
      let! out := maybe_wrap_tool_content patterns (call_name c) out in
      Ok (failure_text r +:+ newline +:+ out)
    else Ok (failure_text r) in
  Ok (mkToolResult (call_id c) content (negb (success r))).

(** One call; [on_error] words the exceptions the round catches. *)
Definition execute_call (on_error : string -> string) (tools : list (string * ToolDefinition F)) (c : ToolCall) (w : W) :
    LLMToolResult * list tool_emission * W :=
  match admit_call tools c with
  | (Answered r, em) => (r, em, w)
  | (AdmittedCall f args, em) =>
      let '(r, ran, w) := call_tool f args w in
      (match (let! r := r in answer_result c r) with
       | Ok answer => answer
       | Raise t => mkToolResult (call_id c) (on_error t) true
       end, (em ++ ran)%list, w)
  end.

Fixpoint execute_each (on_error : string -> string) (tools : list (string * ToolDefinition F)) (calls : list ToolCall) (w : W) :
    list LLMToolResult * list tool_emission * W :=
  match calls with
  | [] => ([], [], w)
  | c :: calls =>
      let '(r, em, w) := execute_call on_error tools c w in
      let '(rs, ems, w) := execute_each on_error tools calls w in
      (r :: rs, (em ++ ems)%list, w)
  end.

(** [{td.name: td for td in ...}] over [d] *)
Definition by_name (d : list (string * ToolDefinition F)) (l : list (ToolDefinition F)) : list (string * ToolDefinition F) :=
  fold_left (λ d td, dset (td_name td) td d) l d.

(** *** A task agent *)

Definition definition (td : ToolDefinition F) : string * string * pydict := (td_name td, td_description td, td_parameters td).

Definition task_tool_definitions (registry : list (ToolDefinition F)) (config : pydict) : list (string * string * pydict) :=
  map definition (offered_tools registry config).

Definition task_execute_tools (registry : list (ToolDefinition F)) (config : pydict) :=
  execute_each (λ t, if String.eqb t "PermissionError" then "Permission denied" else "Internal tool error")
    (by_name [] (offered_tools registry config)).

(** *** A persona *)

Definition persona_tool_map (registry memory_tools : list (ToolDefinition F)) (config : pydict) : list (string * ToolDefinition F) :=
  by_name (by_name [] (offered_tools registry config)) memory_tools.

Definition persona_tool_definitions (registry memory_tools : list (ToolDefinition F)) (config : pydict) : list (string * string * pydict) :=
  let add := fold_left (λ d td, dset (td_name td) (definition td) d) in
  map snd (add memory_tools (add (offered_tools registry config) [])).

Definition persona_execute_tools (registry memory_tools : list (ToolDefinition F)) (config : pydict) :=
  execute_each (λ _, "Internal tool error") (persona_tool_map registry memory_tools config).
End tools.

(** ** Lookups *)

Section lookups.
Context {F : Type}.
Implicit Types (l : list (ToolDefinition F)) (d : list (string * ToolDefinition F)).

Lemma by_name_step d l td : by_name d (l ++ [td])%list = dset (td_name td) td (by_name d l).
Proof. unfold by_name. by rewrite fold_left_app. Qed.

(** The definition under a name is the last one of that name, else what was there. *)
Lemma by_name_lookup d l n : dget n (by_name d l) = match List.find (λ td : ToolDefinition F, String.eqb (td_name td) n) (rev l) with Some td => Some td | None => dget n d end.
Proof.
  induction l as [|td l IH] using rev_ind; [done|]. rewrite by_name_step, rev_unit. cbn [List.find].
  destruct (String.eqb_spec (td_name td) n) as [<-|Hn]; [by rewrite dget_dset_eq|]. by rewrite dget_dset_ne.
Qed.

Lemma by_name_elem d l n td : dget n (by_name d l) = Some td -> (td ∈ l /\ td_name td = n) \/ dget n d = Some td.
Proof.
  rewrite by_name_lookup. destruct (List.find _ (rev l)) eqn:E; [|auto]. intros [= ->].
  apply find_some in E as [Hin Hn]. left. apply in_rev, list_elem_of_In in Hin. split; [done|]. by apply String.eqb_eq.
Qed.

Lemma by_name_wf d l : dwf d -> dwf (by_name d l).
Proof. intros Hd. induction l as [|td l IH] using rev_ind; [done|]. rewrite by_name_step. by apply dwf_dset. Qed.

Lemma dset_map {A B} (f : A -> B) n a (d : list (string * A)) : map (λ kv, (kv.1, f kv.2)) (dset n a d) = dset n (f a) (map (λ kv, (kv.1, f kv.2)) d).
Proof. induction d as [|[k b] d IH]; [done|]. cbn. case_decide; [done|]. cbn. by rewrite IH. Qed.

(** What a persona offers is, name by name, what a call of that name runs. *)
Lemma offered_map d l :
  fold_left (λ e (td : ToolDefinition F), dset (td_name td) (definition td) e) l (map (λ kv, (kv.1, definition kv.2)) d) = map (λ kv, (kv.1, definition kv.2)) (by_name d l).
Proof.
  unfold by_name. revert d. induction l as [|td l IH]; intros d; [done|]. cbn [fold_left]. by rewrite <- dset_map, IH.
Qed.

Lemma offered_registered (registry : list (ToolDefinition F)) config td :
  td ∈ offered_tools registry config <-> td ∈ registry /\ td_name td ∈ _listed_names config.
Proof.
  unfold offered_tools. destruct (_listed_names config) as [|n names] eqn:E; [set_solver|].
  by rewrite in_filter, in_names_spec.
Qed.
End lookups.

Lemma by_name_shadow {F} (n : string) (l : list (ToolDefinition F)) :
  List.find (λ td : ToolDefinition F, String.eqb (td_name td) n) (rev l) = None -> n ∉ map td_name l.
Proof.
  intros E (td&->&Hin)%list_elem_of_fmap. apply list_elem_of_In, in_rev in Hin.
  pose proof (find_none _ _ E td Hin) as Hf. cbv beta in Hf. by rewrite String.eqb_refl in Hf.
Qed.

Lemma persona_tool_elem {F} (registry memory_tools : list (ToolDefinition F)) config n td :
  dget n (persona_tool_map registry memory_tools config) = Some td ->
  td_name td = n /\ (td ∈ memory_tools \/ (td ∈ registry /\ n ∈ _listed_names config /\ n ∉ map td_name memory_tools)).
Proof.
  unfold persona_tool_map. intros H. rewrite by_name_lookup in H. destruct (List.find _ (rev memory_tools)) as [td'|] eqn:E.
  - injection H as ->. apply find_some in E as [Hin Hn]. split; [by apply String.eqb_eq|]. left. apply list_elem_of_In. by apply in_rev.
  - apply by_name_elem in H as [[Hin Hn]|H]; [|done]. split; [done|]. right. apply offered_registered in Hin as [Hr Hl]. rewrite <- Hn at 1.
    split_and!; [done|done|by apply by_name_shadow].
Qed.

(** The offer of a persona and its dispatch agree: the definitions it sends the model
    are exactly those of the map its calls run from, each under its own name, one per
    name; a memory tool is among them under its name whatever the agent's list says,
    and any other is a registered tool the agent's list names. *)
Theorem offer_is_dispatch {F} (registry memory_tools : list (ToolDefinition F)) config :
  let tools := persona_tool_map registry memory_tools config in
  persona_tool_definitions registry memory_tools config = map (λ kv, definition kv.2) tools /\
  dwf tools /\
  (forall n td, dget n tools = Some td ->
     td_name td = n /\ (td ∈ memory_tools \/ (td ∈ registry /\ n ∈ _listed_names config /\ n ∉ map td_name memory_tools))) /\
  (forall n, n ∈ map td_name memory_tools -> is_Some (dget n tools)) /\
  (forall td, td ∈ registry -> td_name td ∈ _listed_names config -> is_Some (dget (td_name td) tools)).
Proof.
  cbv zeta. unfold persona_tool_map, persona_tool_definitions.
  pose proof (offered_map [] (offered_tools registry config)) as H1. cbn [map] in H1. rewrite H1, offered_map, map_map.
  split_and!; [done|apply by_name_wf, by_name_wf; by apply NoDup_nil|..].
  - intros n td H. by apply persona_tool_elem.
  - intros n Hn. rewrite by_name_lookup. destruct (List.find _ (rev memory_tools)) eqn:E; [done|]. by apply by_name_shadow in E.
  - intros td Hr Hl. rewrite by_name_lookup. destruct (List.find _ (rev memory_tools)) eqn:E; [done|].
    rewrite by_name_lookup. destruct (List.find _ (rev (offered_tools registry config))) eqn:E'; [done|].
    exfalso. apply by_name_shadow in E'. apply E'. apply list_elem_of_fmap. exists td. split; [done|]. by apply offered_registered.
Qed.

(** ** Running *)

Definition body {F} (f : tool_func F) : F := match f with Wrapped f | Bare f => f end.

Section rounds.
Context {F W : Type} (run : F -> pydict -> W -> outcome * W).
Context (decimal_text : string -> option Q) (errors_of : pydict -> pyval -> result string (list (string * pyval))).
Context (dumps : pyval -> result string string) (str_of : pyval -> string).
Context (limit_json limit_str : pyval -> text).
Context (patterns : list (string * (string -> bool))).
Abbreviation round_calls := (execute_each run decimal_text errors_of dumps str_of limit_json limit_str patterns).
Abbreviation round_call := (execute_call run decimal_text errors_of dumps str_of limit_json limit_str patterns).

(** A call is entitled to run [f] on [args]: its name is in the map, and the
    arguments are the ones the check admits for that definition. *)
Definition entitled (tools : list (string * ToolDefinition F)) (c : ToolCall) (f : F) (args : pydict) : Prop :=
  exists td g, dget (call_name c) tools = Some td /\ td_func td = Some g /\ body g = f /\
    validate_arguments decimal_text errors_of (td_spec td) (call_input c) = Ok (Checked args).

(** The bodies run, in order. *)
Definition ran (em : list (tool_emission (F := F))) : list (F * pydict) :=
  omap (λ e, match e with Ran f args => Some (f, args) | _ => None end) em.

Lemma ran_app em em' : ran (em ++ em')%list = (ran em ++ ran em')%list.
Proof. apply omap_app. Qed.

(** Text as a tool of that name hands it to the model: enveloped, with what the
    patterns say of it, for an external tool, as it is for another. *)
Definition sealed (tool out content : string) : Prop :=
  match external_source_for_tool tool with
  | Some src => wrap_external out src (match match_all patterns out with [] => false | _ => true end) true = Ok content
  | None => content = out
  end.

(** The result the round reads from what a body did. *)
Definition result_of (g : tool_func F) (o : outcome) : result string ToolResult :=
  match g, o with
  | Wrapped _, _ => Ok (wrapper o)
  | Bare _, Returned r => Ok r
  | Bare _, ReturnedValue _ => Raise "AttributeError"
  | Bare _, Raised t _ => Raise t
  end.

(** The answer to a call whose body did [o]: its output sealed, after the tool's own
    words of a failure; a fixed text where there is no result or no way to show it. *)
Definition replied (on_error : string -> string) (c : ToolCall) (g : tool_func F) (o : outcome) (r : LLMToolResult) : Prop :=
  tool_call_id r = call_id c /\
  match result_of g o with
  | Raise t => is_error r = true /\ tool_content r = on_error t
  | Ok res =>
      if success res || vtruthy (data res) then
        match shown dumps str_of (data res) with
        | Raise t => is_error r = true /\ tool_content r = on_error t
        | Ok out =>
            is_error r = negb (success res) /\
            exists content, sealed (call_name c) out content /\
              tool_content r = if success res then content else failure_text res +:+ newline +:+ content
        end
      else is_error r = true /\ tool_content r = failure_text res
  end.

Lemma maybe_wrap_sealed tool out : exists t, maybe_wrap_tool_content patterns tool out = Ok t /\ sealed tool out t.
Proof.
  unfold maybe_wrap_tool_content, sealed. destruct (external_source_for_tool tool) as [src|] eqn:E; [|by exists out].
  assert (validate_source src = Ok tt) as Hv.
  { unfold external_source_for_tool, EXTERNAL_TOOL_SOURCES in E. cbn [dget] in E. repeat case_decide; by simplify_eq. }
  unfold sanitize_and_wrap, sanitize. rewrite Hv. cbn [rbind]. change (bool_decide (_ ∈ KNOWN_SANITIZER_ACTIONS)) with true. cbn [negb].
  cbv zeta. rewrite andb_false_r. cbn [rbind content flagged]. unfold wrap_external. rewrite Hv. cbn [rbind fst].
  eexists. split; [reflexivity|]. by destruct (match_all patterns out).
Qed.

Lemma answer_replied on_error c g o :
  replied on_error c g o
    match (let! r := result_of g o in answer_result dumps str_of patterns c r) with
    | Ok answer => answer
    | Raise t => mkToolResult (call_id c) (on_error t) true
    end.
Proof.
  unfold replied. destruct (result_of g o) as [res|t]; cbn [rbind]; [|by split].
  unfold answer_result. destruct (success res); cbn [orb negb].
  - destruct (shown _ _ _) as [out|t]; cbn [rbind]; [|by split]. destruct (maybe_wrap_sealed (call_name c) out) as (t & -> & Ht).
    split; [done|]. split; [done|]. by exists t.
  - destruct (vtruthy (data res)); [|by split]. destruct (shown _ _ _) as [out|t]; cbn [rbind]; [|by split].
    destruct (maybe_wrap_sealed (call_name c) out) as (t & -> & Ht). split; [done|]. split; [done|]. by exists t.
Qed.

(** A round from one world to another: its answers and the bodies it ran. *)
Inductive gated_round (on_error : string -> string) (tools : list (string * ToolDefinition F)) :
    list ToolCall -> list LLMToolResult -> list (F * pydict) -> W -> W -> Prop :=
| round_done w : gated_round on_error tools [] [] [] w w
| round_ran c td g args o w1 r calls rs bodies w w' :
    dget (call_name c) tools = Some td -> td_func td = Some g ->
    validate_arguments decimal_text errors_of (td_spec td) (call_input c) = Ok (Checked args) ->
    run (body g) args w = (o, w1) -> replied on_error c g o r ->
    gated_round on_error tools calls rs bodies w1 w' ->
    gated_round on_error tools (c :: calls) (r :: rs) ((body g, args) :: bodies) w w'
| round_refused c r calls rs bodies w w' :
    (forall f args, ~ entitled tools c f args) -> tool_call_id r = call_id c -> is_error r = true ->
    gated_round on_error tools calls rs bodies w w' ->
    gated_round on_error tools (c :: calls) (r :: rs) bodies w w'.

Lemma admit_call_cases tools c :
  match admit_call decimal_text errors_of limit_json limit_str tools c with
  | (Answered r, em) => (forall f args, ~ entitled tools c f args) /\ tool_call_id r = call_id c /\ is_error r = true /\ ran em = []
  | (AdmittedCall g args, em) => em = [] /\ exists td, dget (call_name c) tools = Some td /\ td_func td = Some g /\
      validate_arguments decimal_text errors_of (td_spec td) (call_input c) = Ok (Checked args)
  end.
Proof.
  unfold admit_call, entitled. destruct (dget (call_name c) tools) as [td|] eqn:Et; [|by split; [naive_solver|]].
  destruct (td_func td) as [g|] eqn:Eg; [|by split; [naive_solver|]].
  destruct (validate_arguments _ _ _ _) as [[args|r]|x] eqn:Ev.
  - split; [done|]. by exists td.
  - split; [|done]. intros f args (td'&g'&E&_&_&E'). congruence.
  - split; [|done]. intros f args (td'&g'&E&_&_&E'). congruence.
Qed.

Lemma call_tool_run g args w o w1 : run (body g) args w = (o, w1) -> call_tool run g args w = (result_of g o, [Ran (body g) args], w1).
Proof. intros H. destruct g as [f|f]; cbn [body call_tool] in *; rewrite H; by destruct o. Qed.

Lemma execute_round on_error tools calls : forall w, exists rs em w', round_calls on_error tools calls w = (rs, em, w') /\
  gated_round on_error tools calls rs (ran em) w w'.
Proof.
  induction calls as [|c calls IH]; intros w; [exists [], [], w; split; [done|constructor]|].
  cbn [execute_each]. unfold execute_call. pose proof (admit_call_cases tools c) as Ha.
  destruct (admit_call _ _ _ _ tools c) as [[g args|r] em].
  - destruct Ha as (->&td&Ht&Hg&Hv). destruct (run (body g) args w) as [o w1] eqn:Er. rewrite (call_tool_run g args w o w1 Er).
    destruct (IH w1) as (rs&ems&w'&->&Hr). eexists _, _, w'. split; [reflexivity|]. rewrite ran_app.
    by apply (round_ran _ _ c td g args o w1); [..|apply answer_replied|].
  - destruct Ha as (Hn&Hi&Hx&Hr). destruct (IH w) as (rs&ems&w'&->&Hrs). eexists _, _, w'. split; [reflexivity|].
    rewrite ran_app, Hr. by apply round_refused.
Qed.
End rounds.

(** C9. Every call of a persona's round is answered once, in order, under its own id.
    A body runs exactly for the calls entitled to one, each once and in turn: of a
    memory tool, or of a registered tool the agent's list names that no memory tool
    shadows, and on the arguments the check admits. Every other call is answered with
    an error and changes nothing. The answer shows what that body gave in the world it
    ran in and nothing else: the data of an external tool, on success and on failure
    alike, only inside the untrusted-data envelope; a failure's own message, of any
    tool, as the tool words it. *)
Theorem persona_round_gated {F W} (run : F -> pydict -> W -> outcome * W) decimal_text errors_of dumps str_of limit_json limit_str patterns
    registry memory_tools config calls w :
  let tools := persona_tool_map registry memory_tools config in
  exists rs em w',
    persona_execute_tools run decimal_text errors_of dumps str_of limit_json limit_str patterns registry memory_tools config calls w = (rs, em, w') /\
    gated_round run decimal_text errors_of dumps str_of patterns (λ _, "Internal tool error") tools calls rs (ran em) w w' /\
    forall n td, dget n tools = Some td ->
      td_name td = n /\ (td ∈ memory_tools \/ (td ∈ registry /\ n ∈ _listed_names config /\ n ∉ map td_name memory_tools)).
Proof.
  cbv zeta. unfold persona_execute_tools.
  destruct (execute_round run decimal_text errors_of dumps str_of limit_json limit_str patterns (λ _, "Internal tool error")
    (persona_tool_map registry memory_tools config) calls w) as (rs&em&w'&->&H).
  exists rs, em, w'. split; [done|]. split; [done|]. intros n td. apply persona_tool_elem.
Qed.

(** The same for a task agent, which has no memory tools. *)
Theorem task_round_gated {F W} (run : F -> pydict -> W -> outcome * W) decimal_text errors_of dumps str_of limit_json limit_str patterns
    registry config calls w :
  let tools := by_name [] (offered_tools registry config) in
  exists rs em w',
    task_execute_tools run decimal_text errors_of dumps str_of limit_json limit_str patterns registry config calls w = (rs, em, w') /\
    gated_round run decimal_text errors_of dumps str_of patterns
      (λ t, if String.eqb t "PermissionError" then "Permission denied" else "Internal tool error") tools calls rs (ran em) w w' /\
    forall n td, dget n tools = Some td -> td_name td = n /\ td ∈ registry /\ n ∈ _listed_names config.
Proof.
  cbv zeta. unfold task_execute_tools.
  destruct (execute_round run decimal_text errors_of dumps str_of limit_json limit_str patterns
    (λ t, if String.eqb t "PermissionError" then "Permission denied" else "Internal tool error")
    (by_name [] (offered_tools registry config)) calls w) as (rs&em&w'&->&H).
  exists rs, em, w'. split; [done|]. split; [done|]. intros n td Ht.
  apply by_name_elem in Ht as [[Hin Hn]|Ht]; [|done]. apply offered_registered in Hin as [Hr Hl]. by rewrite Hn in Hl.
Qed.
