(* ===== verification/TaskAgent.v ===== *)
(** * A task agent's turn

    Models [_inject_memories] and [_run_llm_loop] of [agents/base.py],
    [agents/task_agent.py], [agents/task_types.py] and [budget_to_limit] of
    [agents/memory/facade.py]. The agent's configuration, memory, prompts, tools and
    model are the record [AgentEnv] over a world [W]; messages are whatever the
    provider's client makes of them, [M]. The loop keeps the model calls it makes. *)

From stdpp Require Import pretty.
From S2P Require Import Prelude PyStr PyText PyDict PyValue PyFloat PyJson LlmTypes Delegation DelegationCodec ActionParser.
Local Open Scope string_scope.
Local Open Scope py_scope.

(** ** [task_types.py] *)

Definition CONTEXT_PACKAGE_KEY := "_context_package".

Inductive TaskStatus := COMPLETED | FAILED.

#[export] Instance task_status_eq_dec : EqDecision TaskStatus.
Proof. solve_decision. Defined.

Record TaskInputConfig := mkTaskConfig {
  max_llm_calls : Z;
  max_tokens : Z;
  config_allowed_tools : list string;
  sub_agent_parent_id : string;
}.

Record TaskInput := mkTask {
  task_id : string;
  workflow_id : string;
  payload : string;
  task_context : list (string * string);
  config : TaskInputConfig;
}.

Record TaskOutput := mkOutput {
  task_status : TaskStatus;
  task_result : string;
  task_metadata : pydict;
}.

Definition DEFAULT_MAX_LLM_CALLS : Z := 5.
Definition DEFAULT_MAX_TOKENS : Z := 8192.

(** ** [budget_to_limit] *)

Definition DEFAULT_AVG_ENTRY_TOKENS : Z := 100.

Definition budget_to_limit (budget_memory_tokens avg_entry_tokens fallback_limit : Z) : result string Z :=
  if (budget_memory_tokens <=? 0)%Z then Ok (Z.max 1 fallback_limit)
  else if (avg_entry_tokens <=? 0)%Z then Raise "ValueError"
  else Ok (Z.max 1 (budget_memory_tokens / avg_entry_tokens)).

(** ** The agent *)

(** What a leased call ends in when it does not answer. *)
Inductive call_failure := Denied (scope reason message : string) | ProviderFailed.

Record TaskRequest (M : Type) := mkTaskRequest {
  r_messages : M;
  r_system : string;
  r_max_tokens : Z;
  r_cause : string;
  r_workflow : string;
  r_agent : string;
}.
Arguments mkTaskRequest {M}. Arguments r_messages {M}. Arguments r_system {M}. Arguments r_max_tokens {M}.
Arguments r_cause {M}. Arguments r_workflow {M}. Arguments r_agent {M}.

Record AgentEnv (W M : Type) := mkAgent {
  agent_id : string;
  role : string;
  instructions : string;
  (** [builtin.workspace_root] where the agent lists tools *)
  workspace_root : option string;
  has_client : bool;
  has_model : bool;
  config_max_llm_calls : option Z;
  config_max_tokens : option Z;
  (** the open store's search, or what it raises *)
  retrieve_relevant : option (string -> Z -> W -> result string (list string) * W);
  load_snippet : string -> result string string;
  format_workspace : string -> string -> result string string;
  loads : string -> result string pyval;
  dumps : pyval -> string;
  str_of : pyval -> string;
  float_of_str : string -> option pyfloat;
  user_message : string -> M;
  create_message : TaskRequest M -> W -> (LLMResponse + call_failure) * W;
  execute_tools : list ToolCall -> W -> list LLMToolResult * W;
  append_tool_round : M -> LLMResponse -> list LLMToolResult -> M;
}.
Arguments agent_id {W M}. Arguments role {W M}. Arguments instructions {W M}. Arguments workspace_root {W M}.
Arguments has_client {W M}. Arguments has_model {W M}. Arguments config_max_llm_calls {W M}. Arguments config_max_tokens {W M}.
Arguments retrieve_relevant {W M}. Arguments load_snippet {W M}. Arguments format_workspace {W M}. Arguments loads {W M}.
Arguments dumps {W M}. Arguments str_of {W M}. Arguments float_of_str {W M}. Arguments user_message {W M}.
Arguments create_message {W M}. Arguments execute_tools {W M}. Arguments append_tool_round {W M}.

Section agent.
Context {W M : Type} (env : AgentEnv W M).

Definition newline : string := String (Ascii.ascii_of_nat 10) EmptyString.
Definition gap : string := newline +:+ newline.
Definition number (z : Z) : pyval := VStr (pretty z).

(** [budget_memory_tokens] of the package: a text that is not JSON, or a value [int]
    refuses, is ignored; a value without [get] raises. *)
Definition package_budget (task : TaskInput) : result string Z :=
  match dget CONTEXT_PACKAGE_KEY (task_context task) with
  | Some package =>
      if negb (truthy package) then Ok 0%Z
      else match loads env package with
           | Raise _ => Ok 0%Z
           | Ok (VDict d) => Ok (default 0%Z (py_int (dget_or "budget_memory_tokens" (VInt 0) d)))
           | Ok _ => Raise "AttributeError"
           end
  | None => Ok 0%Z
  end.

Definition _inject_memories (system_prompt : string) (task : TaskInput) (w : W) : result string string * W :=
  match retrieve_relevant env with
  | None => (Ok system_prompt, w)
  | Some retrieve =>
      match (let! tokens := package_budget task in budget_to_limit tokens DEFAULT_AVG_ENTRY_TOKENS 5) with
      | Raise x => (Raise x, w)
      | Ok limit =>
          let '(entries, w) := retrieve (payload task) limit w in
          match entries with
          | Raise _ | Ok [] => (Ok system_prompt, w)
          | Ok entries =>
              (let! snippet := load_snippet env "memory-preamble" in
               Ok (system_prompt +:+ gap +:+ snippet +:+ newline +:+ join_str newline (map (λ e, "- " +:+ e) entries)), w)
          end
      end
  end.

(** ** The loop *)

Record loop_state := mkLoop {
  world : W;
  calls : list (TaskRequest M);
  answers : list LLMResponse;        (* what came back *)
  total_tokens : Z;
  tool_calls_count : nat;
}.

Definition counters (s : loop_state) : pydict :=
  [("tokens_used", number (total_tokens s)); ("tool_calls", number (Z.of_nat (tool_calls_count s)))].

Definition failed (text : string) (metadata : pydict) : TaskOutput := mkOutput FAILED text metadata.

(** [exc.scope or exc.reason] *)
Definition budget_output (scope reason message : string) (s : loop_state) : TaskOutput :=
  failed ("budget exceeded (" +:+ (if truthy scope then scope else reason) +:+ "): " +:+ message)
    (("error_type", VStr "budget_exceeded") :: ("budget_scope", VStr scope) :: ("budget_reason", VStr reason) :: counters s).

Fixpoint loop (request : M -> TaskRequest M) (n : nat) (messages : M) (s : loop_state) : TaskOutput * loop_state :=
  match n with
  | O => (failed "Max LLM call iterations exceeded" (counters s), s)
  | S n =>
      let '(reply, w) := create_message env (request messages) (world s) in
      let asked := (calls s ++ [request messages])%list in
      match reply with
      | inr (Denied scope reason message) =>
          let s := mkLoop w asked (answers s) (total_tokens s) (tool_calls_count s) in (budget_output scope reason message s, s)
      | inr ProviderFailed =>
          let s := mkLoop w asked (answers s) (total_tokens s) (tool_calls_count s) in (failed "LLM provider error" (counters s), s)
      | inl r =>
          let s := mkLoop w asked (answers s ++ [r])%list (total_tokens s + prompt_tokens (usage r) + output_tokens (usage r))%Z (tool_calls_count s) in
          match stop_reason r with
          | END_TURN => (mkOutput COMPLETED (default "" (resp_text r)) (counters s), s)
          | MAX_TOKENS => (failed "LLM response truncated: max_tokens limit reached" (counters s), s)
          | TOOL_USE =>
              let '(results, w) := execute_tools env (tool_calls r) (world s) in
              loop request n (append_tool_round env messages r results)
                (mkLoop w (calls s) (answers s) (total_tokens s) (tool_calls_count s + length results))
          end
      end
  end.

(** [x or default] on the limits *)
Definition or_default (z : Z) (from_config : option Z) (dft : Z) : Z := if (z =? 0)%Z then default dft from_config else z.
Definition call_limit (task : TaskInput) : Z := or_default (max_llm_calls (config task)) (config_max_llm_calls env) DEFAULT_MAX_LLM_CALLS.
Definition token_limit (task : TaskInput) : Z := or_default (max_tokens (config task)) (config_max_tokens env) DEFAULT_MAX_TOKENS.

Definition invalid_fields (task : TaskInput) : list string :=
  ((if (max_llm_calls (config task) <? 0)%Z then ["max_llm_calls"] else []) ++
   (if (max_tokens (config task) <? 0)%Z then ["max_tokens"] else []))%list.

Definition request_for (task : TaskInput) (system : string) (messages : M) : TaskRequest M :=
  let parent := sub_agent_parent_id (config task) in
  mkTaskRequest messages system (token_limit task)
    (if truthy parent then "CAUSE_SUB_AGENT" else "CAUSE_WORKFLOW_TASK") (workflow_id task)
    (if truthy parent then parent else agent_id env).

Definition _run_llm_loop (task : TaskInput) (system_prompt : string) (s : loop_state) : result string TaskOutput * loop_state :=
  if negb (has_client env) then (Ok (failed "LLM client not configured" []), s)
  else if negb (has_model env) then (Ok (failed "Agent config missing required 'model' field" []), s)
  else
    let '(system, w) := _inject_memories system_prompt task (world s) in
    let s := mkLoop w (calls s) (answers s) (total_tokens s) (tool_calls_count s) in
    match system with
    | Raise x => (Raise x, s)
    | Ok system =>
        match invalid_fields task with
        | [] =>
            let '(out, s) := loop (request_for task system) (Z.to_nat (call_limit task)) (user_message env (payload task))
                               (mkLoop (world s) (calls s) (answers s) 0 0) in
            (Ok out, s)
        | fields =>
            (Ok (failed "Negative execution limits are not allowed"
                   [("error_type", VStr "permanent"); ("invalid_fields", VStr (join_str "," fields))]), s)
        end
    end.

(** ** [task_agent.py] *)

Definition system_prompt : result string string :=
  let prompt := "Role: " +:+ role env in
  let prompt := if truthy (instructions env) then prompt +:+ gap +:+ instructions env else prompt in
  match workspace_root env with
  | None => Ok prompt
  | Some root =>
      let! snippet := load_snippet env "workspace-root-instructions" in
      let! section := format_workspace env snippet root in
      Ok (prompt +:+ gap +:+ section)
  end.

Definition _synthesise (output : TaskOutput) : DelegationResult :=
  mkResult (task_result output) (if bool_decide (task_status output = COMPLETED) then "completed" else "failed") (VDict []) [] [] [].

(** [DelegationResult.from_metadata_value] of a text *)
Definition read_result (text : string) : result codec_error DelegationResult :=
  result_of_data (str_of env) (float_of_str env) (match loads env text with Ok v => Some v | Raise _ => None end).

Definition _parse_or_synthesise (output : TaskOutput) : result codec_error DelegationResult :=
  let text := strip (task_result output) in
  if negb (truthy text) then Ok (_synthesise output)
  else match read_result text with
       | Raise (ContractError _) => Ok (_synthesise output)
       | r => r
       end.

(** The second check is the one a synthesised envelope always passes. *)
Definition _attach_delegation_result (output : TaskOutput) : result codec_error TaskOutput :=
  let! r := _parse_or_synthesise output in
  let! r := match contract (validate_result r) with
            | Ok _ => Ok r
            | Raise (ContractError _) =>
                let! _ := contract (validate_result (_synthesise output)) in Ok (_synthesise output)
            | Raise x => Raise x
            end in
  match result_to_data r with
  | Some v => Ok (mkOutput (task_status output) (task_result output) (dset DELEGATION_RESULT_KEY (VStr (dumps env (sort_keys v))) (task_metadata output)))
  | None => Raise NotText
  end.

(** [TaskAgent.handle] *)
Definition handle (task : TaskInput) (s : loop_state) : result codec_error TaskOutput * loop_state :=
  match system_prompt with
  | Raise x => (Raise (OtherError x), s)
  | Ok prompt =>
      match _run_llm_loop task prompt s with
      | (Raise x, s) => (Raise (OtherError x), s)
      | (Ok output, s) =>
          if dmem DELEGATION_REQUEST_KEY (task_context task) then (_attach_delegation_result output, s) else (Ok output, s)
      end
  end.
End agent.

(** ** The loop accounts for every call *)

Definition tokens_of (l : list LLMResponse) : Z := fold_right (λ r n, prompt_tokens (usage r) + output_tokens (usage r) + n)%Z 0%Z l.

Section loop_props.
Context {W M : Type} (env : AgentEnv W M).

(** What a run of the loop adds: calls asked, answers got, and how it ends. *)
Definition loop_ends (out : TaskOutput) (asked : list (TaskRequest M)) (got : list LLMResponse) : Prop :=
  (length got <= length asked <= S (length got))%nat /\
  Forall (λ r, stop_reason r = TOOL_USE) (removelast got) /\
  (task_status out = COMPLETED <-> length got = length asked /\ exists r, last got = Some r /\ stop_reason r = END_TURN) /\
  (task_status out = COMPLETED -> forall r, last got = Some r -> task_result out = default "" (resp_text r)).

Lemma loop_ends_unanswered out asked : task_status out = FAILED -> (length asked <= 1)%nat -> loop_ends out asked [].
Proof.
  intros Hf Hl. unfold loop_ends. cbn [length removelast last]. split; [lia|]. split; [by apply Forall_nil|].
  split; [split; [congruence|by intros (_&r&?&_)]|by intros _ r].
Qed.

Lemma loop_ends_answered out q r :
  (task_status out = COMPLETED <-> stop_reason r = END_TURN) -> (task_status out = COMPLETED -> task_result out = default "" (resp_text r)) ->
  loop_ends out [q] [r].
Proof.
  intros Hs Ht. unfold loop_ends. cbn [length removelast last]. split; [lia|]. split; [by apply Forall_nil|]. split.
  - rewrite Hs. split; [intros He; split; [done|by exists r]|by intros (_&r'&[= <-]&?)].
  - intros Hok r' [= <-]. by apply Ht.
Qed.

Lemma loop_ends_cons out q r asked got : stop_reason r = TOOL_USE -> loop_ends out asked got -> loop_ends out (q :: asked) (r :: got).
Proof.
  intros Hr (Hl&Hf&Hc&Ht). unfold loop_ends. cbn [length]. split; [lia|]. split; [|split].
  - destruct got as [|g got]; [by apply Forall_nil|]. cbn [removelast] in *. by apply Forall_cons.
  - rewrite Hc. destruct got as [|g got]; cbn [length last].
    + split; [by intros (_&r'&?&_)|]. intros (_&r'&[= <-]&He). congruence.
    + split; intros [Hlen Hx]; (split; [lia|exact Hx]).
  - intros Hok r'. destruct got as [|g got]; cbn [last]; [|by apply Ht]. by destruct (proj1 Hc Hok) as (_&r''&?&_).
Qed.

Lemma loop_exact request n : forall messages (s : loop_state),
  exists out asked got w extra, loop env request n messages s =
    (out, mkLoop w (calls s ++ asked) (answers s ++ got) (total_tokens s + tokens_of got) (tool_calls_count s + extra))%list /\
    loop_ends out asked got /\ (length asked <= n)%nat /\ Forall (λ q, exists m, q = request m) asked /\
    incl (counters (W := W) (M := M) (mkLoop w [] [] (total_tokens s + tokens_of got) (tool_calls_count s + extra))) (task_metadata out).
Proof.
  assert (forall m, Forall (λ q, exists m, q = request m) [request m]) as Hone by (intros m; apply Forall_cons; split; [by eexists|by apply Forall_nil]).
  induction n as [|n IH]; intros messages s; cbn [loop].
  { exists (failed "Max LLM call iterations exceeded" (counters s)), [], [], (world s), 0%nat. destruct s as [w cs an tt tc].
    cbn [calls answers total_tokens tool_calls_count world]. rewrite !app_nil_r, Nat.add_0_r. cbn [tokens_of fold_right]. rewrite Z.add_0_r.
    split; [done|]. split; [apply loop_ends_unanswered; [done|cbn; lia]|]. split; [cbn; lia|]. split; [by apply Forall_nil|apply incl_refl]. }
  assert (forall t : Z, (t + tokens_of [])%Z = t) as Hnil by (intros t; cbn; lia).
  destruct (create_message env (request messages) (world s)) as [[r|[scope reason message|]] w] eqn:Ec.
  2,3: eexists _, [request messages], [], w, 0%nat; rewrite !app_nil_r, Nat.add_0_r, Hnil; split; [done|];
       split; [apply loop_ends_unanswered; [done|cbn; lia]|]; split; [cbn; lia|]; split; [apply Hone|].
  2:{ cbn [task_metadata budget_output failed]. do 3 apply incl_tl. apply incl_refl. }
  2:{ apply incl_refl. }
  cbn [world calls answers total_tokens tool_calls_count].
  assert (forall t : Z, (t + prompt_tokens (usage r) + output_tokens (usage r))%Z = (t + tokens_of [r])%Z) as Ht by (intros t; cbn; lia).
  destruct (stop_reason r) eqn:Es.
  2:{ destruct (execute_tools env (tool_calls r) w) as [results w'].
      edestruct (IH (append_tool_round env messages r results)) as (out&asked&got&w''&extra&->&He&Hl&Hq&Hm).
      cbn [world calls answers total_tokens tool_calls_count] in *.
      exists out, (request messages :: asked), (r :: got), w'', (length results + extra)%nat. rewrite <- !app_assoc. cbn [app].
      assert ((total_tokens s + tokens_of (r :: got))%Z = (total_tokens s + prompt_tokens (usage r) + output_tokens (usage r) + tokens_of got)%Z) as ->
        by (change (tokens_of (r :: got)) with (prompt_tokens (usage r) + output_tokens (usage r) + tokens_of got)%Z; lia).
      rewrite Nat.add_assoc. split; [done|]. split; [by apply loop_ends_cons|]. split; [cbn; lia|]. split; [|done].
      apply Forall_cons. split; [by eexists|done]. }
  all: eexists _, [request messages], [r], w, 0%nat; rewrite Nat.add_0_r, Ht; split; [done|];
       split; [apply loop_ends_answered; [by rewrite Es|done]|]; split; [cbn; lia|]; split; [apply Hone|apply incl_refl].
Qed.
End loop_props.

(** What a run that returns [out] has added to the loop's record. *)
Definition accounted {W M} (env : AgentEnv W M) (task : TaskInput) (out : TaskOutput) (s s' : loop_state (W := W) (M := M)) : Prop :=
  exists asked got, calls s' = (calls s ++ asked)%list /\ answers s' = (answers s ++ got)%list /\
    (Z.of_nat (length asked) <= Z.max 0 (call_limit env task))%Z /\
    Forall (λ q, r_max_tokens q = token_limit env task /\ r_workflow q = workflow_id task /\
      if truthy (sub_agent_parent_id (config task)) then r_cause q = "CAUSE_SUB_AGENT" /\ r_agent q = sub_agent_parent_id (config task)
      else r_cause q = "CAUSE_WORKFLOW_TASK" /\ r_agent q = agent_id env) asked /\
    loop_ends out asked got /\
    (asked <> [] -> ("tokens_used", number (tokens_of got)) ∈ task_metadata out) /\
    ((max_llm_calls (config task) < 0 \/ max_tokens (config task) < 0)%Z -> asked = []).

Lemma run_accounted {W M} (env : AgentEnv W M) task prompt s out s' :
  _run_llm_loop env task prompt s = (Ok out, s') -> accounted env task out s s'.
Proof.
  unfold _run_llm_loop, accounted.
  assert (forall text meta, loop_ends (M := M) (failed text meta) [] []) as Hnone by (intros; by apply loop_ends_unanswered; [|cbn; lia]).
  destruct (has_client env); cbn [negb]; [destruct (has_model env); cbn [negb]|].
  2,3: intros [= <- <-]; exists [], []; rewrite !app_nil_r; split_and!; try done; cbn; lia.
  destruct (_inject_memories env prompt task (world s)) as [[system|x] w]; [|done].
  destruct (invalid_fields task) as [|f fs] eqn:Ef.
  - destruct (loop_exact env (request_for env task system) (Z.to_nat (call_limit env task)) (user_message env (payload task))
      (mkLoop w (calls s) (answers s) 0 0)) as (o&asked&got&w'&extra&E&He&Hl&Hq&Hm). cbn [world calls answers total_tokens tool_calls_count] in *.
    rewrite E. intros [= <- <-]. exists asked, got. cbn [calls answers]. split_and!; [done|done|lia| |done| |].
    + eapply Forall_impl; [exact Hq|]. intros q [m ->]. cbn. by destruct (truthy _).
    + intros _. apply list_elem_of_In, Hm. by left.
    + intros Hneg. exfalso. unfold invalid_fields in Ef. destruct (Z.ltb_spec (max_llm_calls (config task)) 0), (Z.ltb_spec (max_tokens (config task)) 0); try done. lia.
  - intros [= <- <-]. exists [], []. rewrite !app_nil_r. split_and!; try done; cbn; lia.
Qed.

(** A task agent's run asks the model at most as often as its limit says, every call
    at the task's token limit and billed to the task's workflow: to the delegating
    agent, as sub-agent work, when there is one. It completes exactly when the last
    call answered ends the turn, with that answer's text; every answer before it asked
    for tools; and whenever a call was made its output counts the tokens of every
    answer received. *)
Theorem task_run_accounted {W M} (env : AgentEnv W M) task prompt s out s' :
  _run_llm_loop env task prompt s = (Ok out, s') ->
  exists asked got, calls s' = (calls s ++ asked)%list /\ answers s' = (answers s ++ got)%list /\
    (Z.of_nat (length asked) <= Z.max 0 (call_limit env task))%Z /\
    Forall (λ q, r_max_tokens q = token_limit env task /\ r_workflow q = workflow_id task /\
      if truthy (sub_agent_parent_id (config task)) then r_cause q = "CAUSE_SUB_AGENT" /\ r_agent q = sub_agent_parent_id (config task)
      else r_cause q = "CAUSE_WORKFLOW_TASK" /\ r_agent q = agent_id env) asked /\
    loop_ends out asked got /\
    (asked <> [] -> ("tokens_used", number (tokens_of got)) ∈ task_metadata out) /\
    ((max_llm_calls (config task) < 0 \/ max_tokens (config task) < 0)%Z -> asked = []).
Proof. apply run_accounted. Qed.

(** ** The delegation envelope *)

Section attach.
Context {W M : Type} (env : AgentEnv W M).

Lemma dset_wf_fold l : forall d d', dwf d -> dict_of_pairs l d = Ok d' -> dwf d'.
Proof.
  induction l as [|v l IH]; intros d d' Hd; cbn [dict_of_pairs]; [by intros [= <-]|]. intros H.
  apply rbind_Ok in H as ([k x]&_&H). destruct k; try done. eapply IH; [|exact H]. by apply dwf_dset.
Qed.

Lemma to_dict_value_wf v d : py_wf v -> to_dict_value v = Ok d -> dwf d.
Proof.
  unfold to_dict_value. intros Hv. destruct (negb (vtruthy v)); [intros [= <-]; by apply NoDup_nil|].
  destruct v; try done; [eapply dset_wf_fold; by apply NoDup_nil|eapply dset_wf_fold; by apply NoDup_nil|].
  intros [= <-]. by destruct Hv.
Qed.

Lemma mapM_encodable es vs : mapM entry_to_dict es = Some vs -> Forall entry_encodable es.
Proof.
  intros Hm. apply mapM_Some in Hm. induction Hm as [|e v es vs He _ IH]; [by apply Forall_nil|]. apply Forall_cons. split; [|done].
  unfold entry_to_dict, entry_encodable in *. destruct (importance e); try done. cbn [float_val mbind option_bind] in He.
  split; [done|]. by destruct (ttl_seconds e) as [[]|].
Qed.

(** A decoded result that can be written can be read again. *)
Lemma decoded_encodable data r v : py_wf data -> result_of_data (str_of env) (float_of_str env) (Some data) = Ok r ->
  result_to_data r = Some v -> result_encodable r.
Proof.
  intros Hw H Hv. unfold result_to_data in Hv. destruct (mapM entry_to_dict (memory_writes r)) as [vs|] eqn:Hm; [|done].
  split; [by eapply mapM_encodable|]. destruct data as [| | | | | |data]; try done. cbn [result_of_data] in H.
  apply rbind_Ok in H as (ws&_&H). apply rbind_Ok in H as (es&_&H). apply rbind_Ok in H as (arts&Ha&H).
  repeat (match type of H with rbind _ _ = _ => idtac end; apply rbind_Ok in H as (?&_&H); cbv beta in H).
  injection H as <-. cbn [artifacts]. eapply to_dict_value_wf; [|exact Ha].
  unfold dget_or. destruct (dget "artifacts" data) as [a|] eqn:E; [|done]. cbn. eapply py_wf_dict_elem; [exact Hw|]. by apply dget_Some_elem.
Qed.
End attach.

(** A delegated task's output carries an envelope its caller can read. Where the
    agent's handler returns, the metadata holds the JSON text of a value that the
    spawner's reader takes as a contract-valid result; and where the reply was no such
    result it says what the output says: the reply as the summary, completed exactly
    where the task is, and nothing to write to memory. *)
Theorem delegated_output_readable {W M} (env : AgentEnv W M) task s out s' :
  (forall t v, loads env t = Ok v -> py_wf v) ->
  dmem DELEGATION_REQUEST_KEY (task_context task) = true ->
  handle env task s = (Ok out, s') ->
  exists v r, dget DELEGATION_RESULT_KEY (task_metadata out) = Some (VStr (dumps env (sort_keys v))) /\
    result_of_data (str_of env) (float_of_str env) (Some (sort_keys v)) = Ok r /\
    (exists arts, validate_result r = Ok arts) /\
    (r = _synthesise out \/ exists r', read_result env (strip (task_result out)) = Ok r' /\ r = sorted_result r').
Proof.
  intros Hwf Hkey. unfold handle. destruct (system_prompt env) as [prompt|]; [|done].
  destruct (_run_llm_loop env task prompt s) as [[o|] s1]; [|done]. rewrite Hkey. intros [= H <-].
  unfold _attach_delegation_result in H. apply rbind_Ok in H as (r&Hr&H). apply rbind_Ok in H as (r0&Hr0&H).
  destruct (result_to_data r0) as [v|] eqn:Ev; [|done]. injection H as <-. cbn [task_metadata task_result task_status].
  assert (forall st te me, _synthesise (mkOutput st te me) = _synthesise (mkOutput st te (task_metadata o))) as Hsyn by done.
  assert ((exists arts, validate_result r0 = Ok arts) /\ result_encodable r0 /\
    (r0 = _synthesise o \/ read_result env (strip (task_result o)) = Ok r0)) as (Hva&Hen&Hor).
  { assert (validate_result (_synthesise o) = Ok [] /\ result_encodable (_synthesise o)) as [Hs1 Hs2].
    { split; [by unfold _synthesise; case_bool_decide|]. split; [by apply Forall_nil|by apply NoDup_nil]. }
    assert (r = _synthesise o \/ read_result env (strip (task_result o)) = Ok r) as Hcase.
    { unfold _parse_or_synthesise in Hr. destruct (negb _); [left; by injection Hr as <-|].
      destruct (read_result env (strip (task_result o))) as [r1|[w|x|]]; [right; by injection Hr as <-|left; by injection Hr as <-|done|done]. }
    destruct Hcase as [->|Hread].
    - rewrite Hs1 in Hr0. injection Hr0 as <-. split; [by exists []|]. split; [done|by left].
    - unfold read_result in Hread. pose proof Hread as Hread'. apply result_of_data_valid in Hread as [arts Hv]. rewrite Hv in Hr0. injection Hr0 as <-.
      split; [by exists arts|]. split; [|right; exact Hread'].
      destruct (loads env (strip (task_result o))) as [data|] eqn:El; [|done]. by eapply decoded_encodable; [eapply Hwf| |]. }
  destruct Hva as [arts Hva]. destruct (result_reads_back (str_of env) (float_of_str env) r0 arts Hva Hen) as (v'&Ev'&Hback).
  rewrite Ev in Ev'. injection Ev' as <-.
  exists v, (sorted_result r0). rewrite dget_dset_eq. split; [done|]. split; [done|]. split; [by eapply result_of_data_valid|].
  destruct Hor as [->|Hread]; [by left|]. right. by exists r0.
Qed.

(** ** Examples *)

(** A text that is JSON, and a model that answers once. *)
Definition demo_agent (reply : LLMResponse) (parse : string -> result string pyval) : AgentEnv unit unit :=
  mkAgent _ _ "a" "helper" "" None true true None None None (λ _, Raise "FileNotFoundError") (λ s _, Ok s) parse
    (λ _, "json") (λ _, "") (λ _, None) (λ _, tt) (λ _ _, (inl reply, tt)) (λ _ _, ([], tt)) (λ _ _ _, tt).

Definition demo_task (package : string) : TaskInput :=
  mkTask "t" "wf" "do it" [(DELEGATION_REQUEST_KEY, "json"); (CONTEXT_PACKAGE_KEY, package)] (mkTaskConfig 2 0 [] "boss").

Definition demo_state : loop_state (W := unit) (M := unit) := mkLoop tt [] [] 0 0.
Definition demo_reply (t : string) : LLMResponse := mkResponse (Some t) [] END_TURN (mkUsage 10 5 0 0).
Definition no_json (t : string) : result string pyval := Raise "JSONDecodeError".

Lemma task_run_accounted_witness :
  exists out s', _run_llm_loop (demo_agent (demo_reply "done") no_json) (demo_task "") "p" demo_state = (Ok out, s') /\
    task_status out = COMPLETED /\ length (calls s') = 1%nat /\
    (("tokens_used", number 15) ∈ task_metadata out).
Proof.
  destruct (_run_llm_loop (demo_agent (demo_reply "done") no_json) (demo_task "") "p" demo_state) as [[out|x] s'] eqn:E; [|vm_compute in E; discriminate].
  exists out, s'. split; [reflexivity|].
  destruct (task_run_accounted (demo_agent (demo_reply "done") no_json) (demo_task "") "p" demo_state out s' E) as (asked&got&H1&_).
  vm_compute in E. injection E as <- <-. split; [reflexivity|]. split; [reflexivity|]. vm_compute. left.
Defined.

Lemma delegated_output_readable_witness :
  exists out s', handle (demo_agent (demo_reply "done") no_json) (demo_task "") demo_state = (Ok out, s') /\
    dget DELEGATION_RESULT_KEY (task_metadata out) = Some (VStr "json").
Proof.
  destruct (handle (demo_agent (demo_reply "done") no_json) (demo_task "") demo_state) as [[out|x] s'] eqn:E; [|vm_compute in E; discriminate].
  exists out, s'. split; [reflexivity|].
  destruct (delegated_output_readable (demo_agent (demo_reply "done") no_json) (demo_task "") demo_state out s') as (v&r&Hd&_);
    [intros t v H; discriminate|reflexivity|exact E|exact Hd].
Defined.

(** A reply that is a result with a field of another type is no contract error: the
    agent's handler raises, where a reply that is no result at all is passed on. *)
Lemma mistyped_reply_escapes :
  (handle (demo_agent (demo_reply "{}") (λ _, Ok (VDict [("status", VStr "completed"); ("artifacts", VList [VInt 1])]))) (demo_task "") demo_state).1 =
  Raise (OtherError "TypeError").
Proof. vm_compute. reflexivity. Qed.

(** A context package that is JSON but no object stops the task of an agent with a memory. *)
Lemma odd_package_escapes :
  let env := demo_agent (demo_reply "done") (λ _, Ok (VInt 5)) in
  let env := mkAgent _ _ "a" "helper" "" None true true None None (Some (λ _ _ w, (Ok [], w))) (load_snippet env) (format_workspace env) (loads env)
               (dumps env) (str_of env) (float_of_str env) (user_message env) (create_message env) (execute_tools env) (append_tool_round env) in
  (handle env (demo_task "5") demo_state).1 = Raise (OtherError "AttributeError").
Proof. vm_compute. reflexivity. Qed.
