(* ===== verification/Episodes.v ===== *)
(** * Episodic memory: the table and what writes it

    Models [agents/memory/episode_types.py], [episodic_writes.py],
    [interaction_janitor.py], [_episodic_replay_dedup.py],
    [episodic_replay_api.py], [episodic_crud.py], [_episodic_agent_state.py],
    [episodic_state_api.py], [episodic_closed.py], [episodic_retention.py] and
    [store_episode] of [episodic.py]. The [episodes] table is the list of its rows
    in [rowid] order and each SQL statement is its meaning on it. A database call
    may fail: the failures to come are part of the database, and a failed call
    changes nothing. A context is kept as the object its JSON text encodes. Metrics
    and trace spans are left out. *)

From Stdlib Require Import Ascii.
From Stdlib Require Import Ascii Sorted.
From S2P Require Import Prelude PyStr PyText PyDict PyValue PyFloat PySort MemoryEvents Ambient RowScope.
Local Open Scope string_scope.
Local Open Scope py_scope.

Definition SUMMARY_PENDING_TEXT := "[summary pending]".
Definition SUMMARY_UNAVAILABLE_TEXT := "[interaction summary unavailable]".
Definition MAX_RECALL_LIMIT : Z := 100.
Definition EPISODIC_APPEND_SALIENCE : pyfloat := Fin 0.
Definition DEFAULT_CLOSING_GRACE_SEC : Q := 300.

Record Episode := mkEpisode {
  ep_id : string; ep_agent_id : string; ep_summary : string; ep_context : pydict; ep_outcome : option string;
  ep_importance : Q; ep_access_count : Z; ep_last_accessed_at : option Q; ep_tags : list string; ep_created_at : Q;
  ep_compressed_at : option Q; ep_compression_level : Z; ep_scope : option string; ep_interaction_id : option string;
  ep_started_at : option Q; ep_closed_at : option Q; ep_turn_count : option Z; ep_governance_id : option string;
  ep_protection_level : string; ep_source_channel_id : option string; ep_session_id : string }.

(** A row: the columns an [Episode] carries and those it does not. *)
Record EpisodeRow := mkEpisodeRow {
  row_to_episode : Episode; row_principal : string; row_epoch : string; row_speaker : option string }.

(** [agent_state]: the interaction counter and the opaque persona state. *)
Record AgentState := mkAgentState { interaction_count : Z; persona_state_json : option string }.

Record EpisodeDb := mkEpisodeDb {
  episodes : list EpisodeRow;
  agent_states : list (string * AgentState);
  failures : list bool;
  ep_sent : list MemoryWriteEvent;
}.

Record EpisodicMemory := mkEpisodicMemory { em_agent : string; em_scope : TierScope; has_fts5 : bool }.

(** One call: its ambient context, clock, span and fresh id. *)
Record EpisodeCall := mkEpisodeCall { ec_amb : ambient; ec_now : Q; ec_span : option string; ec_uuid : string }.

Definition set_episodes (t : list EpisodeRow) (db : EpisodeDb) : EpisodeDb :=
  mkEpisodeDb t (agent_states db) (failures db) (ep_sent db).
Definition set_agent_states (s : list (string * AgentState)) (db : EpisodeDb) : EpisodeDb :=
  mkEpisodeDb (episodes db) s (failures db) (ep_sent db).
Definition set_failures (fs : list bool) (db : EpisodeDb) : EpisodeDb :=
  mkEpisodeDb (episodes db) (agent_states db) fs (ep_sent db).
Definition emit_episode (e : MemoryWriteEvent) (db : EpisodeDb) : EpisodeDb :=
  mkEpisodeDb (episodes db) (agent_states db) (failures db) (ep_sent db ++ [e])%list.

(** One statement with its commit. *)
Definition sql {A} (f : EpisodeDb -> A * EpisodeDb) (db : EpisodeDb) : result string A * EpisodeDb :=
  match failures db with
  | true :: fs => (Raise "OperationalError", set_failures fs db)
  | fs => let '(a, db) := f (set_failures (tail fs) db) in (Ok a, db)
  end.

Definition with_episode (f : Episode -> Episode) (r : EpisodeRow) : EpisodeRow :=
  mkEpisodeRow (f (row_to_episode r)) (row_principal r) (row_epoch r) (row_speaker r).

Definition set_summary (s : string) (e : Episode) : Episode :=
  mkEpisode (ep_id e) (ep_agent_id e) s (ep_context e) (ep_outcome e) (ep_importance e) (ep_access_count e)
    (ep_last_accessed_at e) (ep_tags e) (ep_created_at e) (ep_compressed_at e) (ep_compression_level e) (ep_scope e)
    (ep_interaction_id e) (ep_started_at e) (ep_closed_at e) (ep_turn_count e) (ep_governance_id e)
    (ep_protection_level e) (ep_source_channel_id e) (ep_session_id e).

Definition bump_access (now : Q) (e : Episode) : Episode :=
  mkEpisode (ep_id e) (ep_agent_id e) (ep_summary e) (ep_context e) (ep_outcome e) (ep_importance e)
    (ep_access_count e + 1) (Some now) (ep_tags e) (ep_created_at e) (ep_compressed_at e) (ep_compression_level e)
    (ep_scope e) (ep_interaction_id e) (ep_started_at e) (ep_closed_at e) (ep_turn_count e) (ep_governance_id e)
    (ep_protection_level e) (ep_source_channel_id e) (ep_session_id e).

Definition set_compressed (s : string) (level : Z) (now : Q) (e : Episode) : Episode :=
  mkEpisode (ep_id e) (ep_agent_id e) s (ep_context e) (ep_outcome e) (ep_importance e) (ep_access_count e)
    (ep_last_accessed_at e) (ep_tags e) (ep_created_at e) (Some now) level (ep_scope e)
    (ep_interaction_id e) (ep_started_at e) (ep_closed_at e) (ep_turn_count e) (ep_governance_id e)
    (ep_protection_level e) (ep_source_channel_id e) (ep_session_id e).

(** [UPDATE episodes SET ... WHERE ...], with the number of rows it matched, and
    [DELETE FROM episodes WHERE ...] *)
Definition update_where (p : Episode -> bool) (f : Episode -> Episode) (db : EpisodeDb) : Z * EpisodeDb :=
  (Z.of_nat (length (List.filter (λ r, p (row_to_episode r)) (episodes db))),
   set_episodes (map (λ r, if p (row_to_episode r) then with_episode f r else r) (episodes db)) db).

Definition delete_where (p : Episode -> bool) (db : EpisodeDb) : Z * EpisodeDb :=
  (Z.of_nat (length (List.filter (λ r, p (row_to_episode r)) (episodes db))),
   set_episodes (List.filter (λ r, negb (p (row_to_episode r))) (episodes db)) db).

Definition owned (agent : string) (e : Episode) : bool := String.eqb (ep_agent_id e) agent.
Definition opt_is (v : option string) (s : string) : bool := bool_decide (v = Some s).

(** ** Writing *)

Record EpisodeArgs := mkEpisodeArgs {
  ea_summary : string; ea_context : pydict; ea_outcome : option string; ea_importance : Q; ea_tags : list string;
  ea_interaction_id : option string; ea_started_at : option Q; ea_closed_at : option Q; ea_turn_count : option Z;
  ea_scope : option string; ea_governance_id : option string; ea_session_id : string; ea_protection_level : string;
  ea_source_channel_id : option string; ea_speaker_id : option string; ea_principal_id : option string }.

(** [v or None] *)
Definition or_none (v : option string) : option string :=
  match v with Some s => if truthy s then Some s else None | None => None end.

Definition new_episode_row (agent : string) (c : EpisodeCall) (importance : Q) (session principal epoch : string)
    (a : EpisodeArgs) : EpisodeRow :=
  mkEpisodeRow
    (mkEpisode (ec_uuid c) agent (ea_summary a) (ea_context a) (ea_outcome a) importance 0 None (ea_tags a) (ec_now c)
       None 0 (ea_scope a) (ea_interaction_id a) (ea_started_at a) (ea_closed_at a) (ea_turn_count a)
       (ea_governance_id a) (ea_protection_level a) (ea_source_channel_id a) session)
    principal epoch (or_none (ea_speaker_id a)).

Definition insert_episode (r : EpisodeRow) (db : EpisodeDb) : result string string * EpisodeDb :=
  let id := ep_id (row_to_episode r) in
  match sql (λ db, if bool_decide (id ∈ map (ep_id ∘ row_to_episode) (episodes db)) then (false, db)
                   else (true, set_episodes (episodes db ++ [r])%list db)) db with
  | (Ok true, db) => (Ok id, db)
  | (Ok false, db) => (Raise "IntegrityError", db)
  | (Raise x, db) => (Raise x, db)
  end.

Definition store_episode (em : EpisodicMemory) (c : EpisodeCall) (a : EpisodeArgs) (db : EpisodeDb) :
    result string string * EpisodeDb :=
  if negb (truthy (ea_summary a)) || negb (truthy (strip (ea_summary a))) then (Raise "ValueError", db)
  else
    let i := ea_importance a in
    let importance := if negb (Qle_bool 0 i && Qle_bool i 1) then fmax 0 (fmin 1 i) else i in
    let session := Session.normalize_session_id (Some (ea_session_id a)) in
    let principal := resolve_write_principal (ec_amb c) (ea_principal_id a) (active_principal_id (em_scope em)) in
    let epoch := resolve_active_epoch (ec_amb c) (active_epoch_id (em_scope em)) in
    match insert_episode (new_episode_row (em_agent em) c importance session principal epoch a) db with
    | (Raise x, db) => (Raise x, db)
    | (Ok id, db) =>
        (Ok id, emit_episode (MemoryWriteEvent_new (em_agent em) Tepisodic EPISODIC_APPEND_SALIENCE (ec_span c) (ec_now c)) db)
    end.

Definition pending_of (agent interaction : string) (e : Episode) : bool :=
  owned agent e && opt_is (ep_interaction_id e) interaction && String.eqb (ep_summary e) SUMMARY_PENDING_TEXT.

Definition update_episode_summary (agent interaction summary : string) (db : EpisodeDb) : result string bool * EpisodeDb :=
  match sql (update_where (pending_of agent interaction) (set_summary summary)) db with
  | (Ok n, db) => (Ok (0 <? n)%Z, db)
  | (Raise x, db) => (Raise x, db)
  end.

(** ** The janitor *)

Definition stuck (agent : string) (cutoff : Q) (e : Episode) : bool :=
  owned agent e && String.eqb (ep_summary e) SUMMARY_PENDING_TEXT &&
  match ep_closed_at e with Some t => Qltb t cutoff | None => false end.

Definition cleanup_closing_interactions (agent : string) (grace_sec now : Q) : EpisodeDb -> result string Z * EpisodeDb :=
  sql (update_where (stuck agent (now - grace_sec)) (set_summary SUMMARY_UNAVAILABLE_TEXT)).

(** ** The replay guard *)

Definition derived_for (agent interaction : string) (e : Episode) : bool :=
  owned agent e && opt_is (ep_interaction_id e) interaction && negb (String.eqb (ep_summary e) SUMMARY_UNAVAILABLE_TEXT).

Definition episode_exists_for_interaction (agent interaction : string) : EpisodeDb -> result string bool * EpisodeDb :=
  sql (λ db, (existsb (λ r, derived_for agent interaction (row_to_episode r)) (episodes db), db)).

Definition tombstone_of (agent interaction : string) (e : Episode) : bool :=
  owned agent e && opt_is (ep_interaction_id e) interaction && String.eqb (ep_summary e) SUMMARY_UNAVAILABLE_TEXT.

Definition clear_failed_episode_for_interaction (agent interaction : string) : EpisodeDb -> result string Z * EpisodeDb :=
  sql (delete_where (tombstone_of agent interaction)).

(** [active_epoch_id()] *)
Definition write_epoch (em : EpisodicMemory) (a : ambient) : string := resolve_active_epoch a (active_epoch_id (em_scope em)).

Definition has_episode_for_interaction (em : EpisodicMemory) := episode_exists_for_interaction (em_agent em).
Definition clear_failed_episode (em : EpisodicMemory) := clear_failed_episode_for_interaction (em_agent em).

(** ** By id *)

Definition is_episode (agent id : string) (e : Episode) : bool := String.eqb (ep_id e) id && owned agent e.

Definition get_episode (agent id : string) : EpisodeDb -> result string (option Episode) * EpisodeDb :=
  sql (λ db, (row_to_episode <$> List.find (λ r, is_episode agent id (row_to_episode r)) (episodes db), db)).

Definition count_episodes (agent : string) : EpisodeDb -> result string Z * EpisodeDb :=
  sql (λ db, (Z.of_nat (length (List.filter (λ r, owned agent (row_to_episode r)) (episodes db))), db)).

Definition delete_episode (agent id : string) (db : EpisodeDb) : result string bool * EpisodeDb :=
  match sql (delete_where (is_episode agent id)) db with
  | (Ok n, db) => (Ok (0 <? n)%Z, db)
  | (Raise x, db) => (Raise x, db)
  end.

Definition reinforce_episodes (agent : string) (ids : list string) (now : Q) (db : EpisodeDb) : result string Q * EpisodeDb :=
  match ids with
  | [] => (Ok now, db)
  | _ => match sql (update_where (λ e, owned agent e && bool_decide (ep_id e ∈ ids)) (bump_access now)) db with
         | (Ok _, db) => (Ok now, db)
         | (Raise x, db) => (Raise x, db)
         end
  end.

(** ** Agent state *)

Definition state_of (agent : string) (db : EpisodeDb) : option AgentState := dget agent (agent_states db).

(** [INSERT ... ON CONFLICT(agent_id) DO UPDATE] *)
Definition upsert_state (agent : string) (fresh : AgentState) (upd : AgentState -> AgentState) (db : EpisodeDb) : EpisodeDb :=
  set_agent_states (dset agent (match state_of agent db with Some s => upd s | None => fresh end) (agent_states db)) db.

Definition counter_of (agent : string) (db : EpisodeDb) : Z := default 0%Z (interaction_count <$> state_of agent db).

Definition get_interaction_count (agent : string) : EpisodeDb -> result string Z * EpisodeDb :=
  sql (λ db, (counter_of agent db, db)).

Definition increment_interaction_count (agent : string) : EpisodeDb -> result string Z * EpisodeDb :=
  sql (λ db, let db := upsert_state agent (mkAgentState 1 None)
                         (λ s, mkAgentState (interaction_count s + 1) (persona_state_json s)) db in
             (counter_of agent db, db)).

Definition reset_interaction_count (agent : string) : EpisodeDb -> result string unit * EpisodeDb :=
  sql (λ db, (tt, upsert_state agent (mkAgentState 0 None) (λ s, mkAgentState 0 (persona_state_json s)) db)).

Definition persist_agent_state (agent json : string) : EpisodeDb -> result string unit * EpisodeDb :=
  sql (λ db, (tt, upsert_state agent (mkAgentState 0 (Some json)) (λ s, mkAgentState (interaction_count s) (Some json)) db)).

Definition load_agent_state (agent : string) : EpisodeDb -> result string (option string) * EpisodeDb :=
  sql (λ db, (or_none (state_of agent db ≫= persona_state_json), db)).

(** ** Reading back closed interactions *)

Definition closed_read (agent : string) (scope interaction : option string) (min_turns : Z) (e : Episode) : bool :=
  owned agent e && bool_decide (is_Some (ep_closed_at e)) && bool_decide (is_Some (ep_interaction_id e)) &&
  negb (String.eqb (ep_summary e) SUMMARY_PENDING_TEXT) && negb (String.eqb (ep_summary e) "") &&
  match ep_turn_count e with Some n => (min_turns <=? n)%Z | None => false end &&
  match scope with Some s => opt_is (ep_scope e) s | None => true end &&
  match interaction with
  | Some i => opt_is (ep_interaction_id e) i || opt_is (ep_governance_id e) i
  | None => true
  end.

(** [ORDER BY closed_at DESC, rowid DESC] *)
Definition closed_le (a b : nat * Episode) : bool :=
  match ep_closed_at a.2, ep_closed_at b.2 with
  | Some x, Some y => Qltb y x || Qeq_bool x y && (b.1 <=? a.1)%nat
  | Some _, None => true
  | None, Some _ => false
  | None, None => (b.1 <=? a.1)%nat
  end.

Definition recall_closed_interactions (agent : string) (limit : Z) (scope interaction : option string) (min_turns : Z) :
    EpisodeDb -> result string (list Episode) * EpisodeDb :=
  let clamped := Z.max 1 (Z.min limit MAX_RECALL_LIMIT) in
  let clamped_min_turns := Z.max 1 min_turns in
  sql (λ db, (take (Z.to_nat clamped)
                (map snd (py_sorted closed_le
                   (List.filter (λ x, closed_read agent scope interaction clamped_min_turns x.2)
                      (imap pair (map row_to_episode (episodes db)))))), db)).

Definition closed_interactions (em : EpisodicMemory) := recall_closed_interactions (em_agent em).

(** ** Retention *)

Definition _MAX_CONTEXT_CHARS : nat := 2000.
Definition newline : string := String (ascii_of_nat 10) "".

(** The oldest raw episodes; the order of equal times is the table's. *)
Definition raw_before (agent : string) (cutoff : Q) (e : Episode) : bool :=
  owned agent e && (ep_compression_level e <? 1)%Z && Qltb (ep_created_at e) cutoff.
Definition created_le (a b : Episode) : bool := Qle_bool (ep_created_at a) (ep_created_at b).
Definition raw_batch (agent : string) (cutoff : Q) (size : Z) (db : EpisodeDb) : list Episode :=
  take (Z.to_nat size)
    (py_sorted created_le (List.filter (raw_before agent cutoff) (map row_to_episode (episodes db)))).

Section retention.
Context (dumps : pyval -> string) (retention_user : string).

(** [resolve(compression_model)] finds a model; the answer to the [k]-th call of a
    batch, [None] for no text; the clock after it. *)
Context (resolvable : bool) (ask : nat -> string -> result string (option string)) (clock_after : nat -> Q).

Definition retention_prompt (e : Episode) : string :=
  retention_user +:+ newline +:+ newline +:+ "Summary: " +:+ ep_summary e +:+ newline
  +:+ (if truthy (opt_str (ep_outcome e)) then "Outcome: " +:+ opt_str (ep_outcome e) +:+ newline else "")
  +:+ match ep_tags e with [] => "" | ts => "Tags: " +:+ join_str ", " ts +:+ newline end
  +:+ match ep_context e with
      | [] => ""
      | c => let ctx_str := dumps (VDict c) in
             "Context: " +:+ (if (_MAX_CONTEXT_CHARS <? String.length ctx_str)%nat
                              then String.substring 0 _MAX_CONTEXT_CHARS ctx_str +:+ "... [truncated]" else ctx_str)
             +:+ newline
      end.

(** One episode of the batch: [1] when it was summarised. *)
Definition summarize_one (agent : string) (k : nat) (e : Episode) (db : EpisodeDb) : Z * EpisodeDb :=
  match ask k (retention_prompt e) with
  | Ok (Some text) =>
      if truthy (strip text) then
        match sql (update_where (is_episode agent (ep_id e))
                     (set_compressed (strip text) (ep_compression_level e + 1) (clock_after k))) db with
        | (Ok n, db) => ((if 0 <? n then 1 else 0)%Z, db)
        | (Raise _, db) => (0%Z, db)
        end
      else (0%Z, db)
  | _ => (0%Z, db)
  end.

Fixpoint summarize_batch (agent : string) (k : nat) (es : list Episode) (db : EpisodeDb) : Z * EpisodeDb :=
  match es with
  | [] => (0%Z, db)
  | e :: es =>
      let '(n, db) := summarize_one agent k e db in
      let '(m, db) := summarize_batch agent (S k) es db in ((n + m)%Z, db)
  end.

Definition summarize_old_episodes (agent : string) (older_than_days : Q) (now : Q) (batch_size : Z) (db : EpisodeDb) :
    result string Z * EpisodeDb :=
  if (batch_size <? 1)%Z then (Raise "ValueError", db)
  else if Qltb older_than_days 0 then (Raise "ValueError", db)
  else
    match sql (λ db, (raw_batch agent (now - older_than_days * 86400) batch_size db, db)) db with
    | (Raise x, db) => (Raise x, db)
    | (Ok [], db) => (Ok 0%Z, db)
    | (Ok es, db) => if resolvable then let '(n, db) := summarize_batch agent 0 es db in (Ok n, db) else (Ok 0%Z, db)
    end.
End retention.

Definition compressed_before (agent : string) (cutoff : Q) (e : Episode) : bool :=
  owned agent e && (1 <=? ep_compression_level e)%Z && Qltb (ep_created_at e) cutoff.

Definition delete_old_episodes (agent : string) (older_than_days now : Q) (db : EpisodeDb) : result string Z * EpisodeDb :=
  if Qltb older_than_days 0 then (Raise "ValueError", db)
  else sql (delete_where (compressed_before agent (now - older_than_days * 86400))) db.

(** * What the episodes table guarantees

    The summary of a closed interaction is settled once whatever the background
    writer, the janitor and the replay guard do in between; retention compresses
    before it deletes, and its batches come to an end. *)

(** ** The statements as maps on the table *)

Definition table (db : EpisodeDb) : list Episode := map row_to_episode (episodes db).

Definition table_update (p : Episode -> bool) (f : Episode -> Episode) (es : list Episode) : list Episode :=
  map (λ e, if p e then f e else e) es.

Lemma table_update_where p f db : table (update_where p f db).2 = table_update p f (table db).
Proof.
  unfold table, table_update, update_where. cbn [snd set_episodes episodes]. rewrite !map_map.
  apply map_ext. intros r. by destruct (p (row_to_episode r)).
Qed.

Lemma count_update_where p f db : (update_where p f db).1 = Z.of_nat (length (List.filter p (table db))).
Proof.
  unfold update_where, table. cbn [fst]. f_equal. induction (episodes db) as [|r t IH]; [done|].
  cbn [map List.filter]. destruct (p (row_to_episode r)); cbn [length]; by rewrite IH.
Qed.

Lemma table_delete_where p db : table (delete_where p db).2 = List.filter (λ e, negb (p e)) (table db).
Proof.
  unfold table, delete_where. cbn [snd set_episodes episodes]. induction (episodes db) as [|r t IH]; [done|].
  cbn [map List.filter]. destruct (p (row_to_episode r)); cbn [negb map]; by rewrite IH.
Qed.

(** What a statement does when it does not fail, and that a failed one does nothing. *)
Lemma sql_cases {A} (f : EpisodeDb -> A * EpisodeDb) db :
  (exists x, (sql f db).1 = Raise x /\ table (sql f db).2 = table db) \/
  exists db0, table db0 = table db /\ sql f db = (Ok (f db0).1, (f db0).2).
Proof.
  unfold sql. destruct (failures db) as [|[] fs].
  - right. exists (set_failures [] db). split; [done|]. by destruct (f _).
  - left. by eexists.
  - right. exists (set_failures fs db). split; [done|]. by destruct (f _).
Qed.

Lemma filter_update (q p : Episode -> bool) f es :
  (forall e, q (f e) = q e) -> List.filter q (table_update p f es) = table_update p f (List.filter q es).
Proof.
  intros Hq. unfold table_update. induction es as [|e es IH]; [done|]. cbn [map List.filter].
  assert (q (if p e then f e else e) = q e) as -> by (destruct (p e); [apply Hq|done]).
  destruct (q e); cbn [map]; by rewrite IH.
Qed.

(** ** One summary per interaction *)

Definition row_of (agent interaction : string) (e : Episode) : bool := owned agent e && opt_is (ep_interaction_id e) interaction.

(** The summaries the table holds for an interaction. *)
Definition summaries (agent interaction : string) (db : EpisodeDb) : list string :=
  map ep_summary (List.filter (row_of agent interaction) (table db)).

Inductive close_op :=
| CUpdate (agent interaction summary : string)
| CJanitor (agent : string) (grace now : Q)
| CExists (agent interaction : string)
| CClear (agent interaction : string)
| CReinforce (agent : string) (ids : list string) (now : Q)
| CStore (em : EpisodicMemory) (c : EpisodeCall) (a : EpisodeArgs)
| CClosed (agent : string) (limit : Z) (scope interaction : option string) (min_turns : Z).

(** An operation; an update reports whether it replaced a pending summary. *)
Definition run_close (o : close_op) (db : EpisodeDb) : bool * EpisodeDb :=
  match o with
  | CUpdate agent i s => match update_episode_summary agent i s db with (Ok b, db) => (b, db) | (Raise _, db) => (false, db) end
  | CJanitor agent g t => (false, (cleanup_closing_interactions agent g t db).2)
  | CExists agent i => (false, (episode_exists_for_interaction agent i db).2)
  | CClear agent i => (false, (clear_failed_episode_for_interaction agent i db).2)
  | CReinforce agent ids t => (false, (reinforce_episodes agent ids t db).2)
  | CStore em c a => (false, (store_episode em c a db).2)
  | CClosed agent n sc i m => (false, (recall_closed_interactions agent n sc i m db).2)
  end.

(** The summaries the updates of one interaction report as theirs, in order. *)
Fixpoint winners (agent interaction : string) (ops : list close_op) (db : EpisodeDb) : list string * EpisodeDb :=
  match ops with
  | [] => ([], db)
  | o :: ops =>
      let '(won, db) := run_close o db in
      let '(later, db) := winners agent interaction ops db in
      (match o with
       | CUpdate a i s => if won && String.eqb a agent && String.eqb i interaction then [s] else []
       | _ => []
       end ++ later, db)%list
  end.

(** Nothing else writes a row of the interaction, and no summary is the marker. *)
Definition honest (agent interaction : string) (o : close_op) : Prop :=
  match o with
  | CUpdate _ _ s => s <> SUMMARY_PENDING_TEXT
  | CStore em _ a => em_agent em = agent -> ea_interaction_id a <> Some interaction
  | _ => True
  end.

(** How far the summary of an interaction has come, given who won so far. *)
Definition settled_by (won sums : list string) : Prop :=
  won = [] /\ (sums = [SUMMARY_PENDING_TEXT] \/ sums = [SUMMARY_UNAVAILABLE_TEXT] \/ sums = []) \/
  exists s, won = [s] /\ s <> SUMMARY_PENDING_TEXT /\ (sums = [s] \/ s = SUMMARY_UNAVAILABLE_TEXT /\ sums = []).

(** An operation leaves the summaries or marks pending ones unavailable, drops the
    unavailable ones, or is an update of the interaction; only that one wins. *)
Definition op_effect (gain old new : list string) : Prop :=
  gain = [] /\ Forall2 (λ x y, y = x \/ x = SUMMARY_PENDING_TEXT /\ y = SUMMARY_UNAVAILABLE_TEXT) old new \/
  gain = [] /\ new = List.filter (λ x, negb (String.eqb x SUMMARY_UNAVAILABLE_TEXT)) old \/
  exists s, s <> SUMMARY_PENDING_TEXT /\ new = map (λ x, if String.eqb x SUMMARY_PENDING_TEXT then s else x) old /\
    gain = if bool_decide (SUMMARY_PENDING_TEXT ∈ old) then [s] else [].

Lemma Forall2_same_or {A} (P : A -> A -> Prop) (l : list A) : Forall2 (λ x y, y = x \/ P x y) l l.
Proof. induction l; constructor; auto. Qed.

Lemma op_effect_settled won gain old new :
  settled_by won old -> op_effect gain old new -> settled_by (won ++ gain)%list new.
Proof.
  intros Hw [[-> H]|[[-> ->]|(s'&Hs'&->&->)]]; rewrite ?app_nil_r;
    destruct Hw as [[-> [->|[->| ->]]]|(s&->&Hs&[->|[-> ->]])]; unfold settled_by.
  - apply Forall2_cons_inv_l in H as (y&k&Hy&Hk&->). apply Forall2_nil_inv_l in Hk as ->. left. destruct Hy as [->|[_ ->]]; auto.
  - apply Forall2_cons_inv_l in H as (y&k&Hy&Hk&->). apply Forall2_nil_inv_l in Hk as ->. left. destruct Hy as [->|[[=] _]]; auto.
  - apply Forall2_nil_inv_l in H as ->. auto.
  - apply Forall2_cons_inv_l in H as (y&k&Hy&Hk&->). apply Forall2_nil_inv_l in Hk as ->. right. exists s. destruct Hy as [->|[? _]]; [auto|done].
  - apply Forall2_nil_inv_l in H as ->. right. by exists SUMMARY_UNAVAILABLE_TEXT; auto.
  - by left; auto.
  - by left; auto.
  - by left; auto.
  - right. exists s. cbn [List.filter]. destruct (String.eqb_spec s SUMMARY_UNAVAILABLE_TEXT) as [->|]; cbn [negb]; auto.
  - right. by exists SUMMARY_UNAVAILABLE_TEXT; auto.
  - right. exists s'. rewrite bool_decide_true by left. cbn [map]. rewrite String.eqb_refl. auto.
  - left. rewrite bool_decide_false by (intros [?|H]%elem_of_cons; [done|by apply not_elem_of_nil in H]). auto.
  - left. rewrite bool_decide_false by (by apply not_elem_of_nil). auto.
  - right. exists s. rewrite bool_decide_false by (intros [?|H]%elem_of_cons; [done|by apply not_elem_of_nil in H]).
    cbn [map app]. destruct (String.eqb_spec s SUMMARY_PENDING_TEXT) as [?|_]; [done|]. auto.
  - right. exists SUMMARY_UNAVAILABLE_TEXT. rewrite bool_decide_false by (by apply not_elem_of_nil). auto.
Qed.

(** What each statement does to the summaries of an interaction. *)
Section effects.
Context (agent i : string).
Implicit Types db : EpisodeDb.

Lemma pending_row e : pending_of agent i e = row_of agent i e && String.eqb (ep_summary e) SUMMARY_PENDING_TEXT.
Proof. done. Qed.

Lemma summaries_table db db' : table db = table db' -> summaries agent i db = summaries agent i db'.
Proof. unfold summaries. by intros ->. Qed.

Lemma summaries_update p s db :
  summaries agent i (update_where p (set_summary s) db).2 =
  map (λ e, if p e then s else ep_summary e) (List.filter (row_of agent i) (table db)).
Proof.
  unfold summaries. rewrite table_update_where, filter_update by done. unfold table_update. rewrite map_map.
  apply map_ext. intros e. by destruct (p e).
Qed.

Lemma effect_none db db' : table db = table db' -> op_effect [] (summaries agent i db') (summaries agent i db).
Proof. intros E. left. split; [done|]. rewrite (summaries_table _ _ E). apply Forall2_same_or. Qed.

Lemma run_update_effect s db : s <> SUMMARY_PENDING_TEXT ->
  op_effect (if (run_close (CUpdate agent i s) db).1 then [s] else []) (summaries agent i db)
    (summaries agent i (run_close (CUpdate agent i s) db).2).
Proof.
  intros Hs. cbn [run_close]. unfold update_episode_summary.
  destruct (sql_cases (update_where (pending_of agent i) (set_summary s)) db) as [(x&E&Ht)|(db0&Ht&E)].
  - destruct (sql _ db) as [r db']. cbn [fst snd] in *. subst r. cbn [fst snd]. by apply effect_none.
  - rewrite E. cbn [fst snd]. right. right. exists s. split; [done|].
    rewrite <- (summaries_table _ _ Ht), summaries_update, count_update_where. split.
    + unfold summaries. rewrite map_map. apply map_ext_in. intros e [_ He]%filter_In. by rewrite pending_row, He.
    + set (l := List.filter (pending_of agent i) (table db0)).
      assert (SUMMARY_PENDING_TEXT ∈ summaries agent i db0 <-> l <> []) as Hl.
      { unfold summaries, l. rewrite list_elem_of_fmap. split.
        - intros (e&He&Hin%list_elem_of_In) Hnil. apply filter_In in Hin as [Hin Hr].
          assert (In e (List.filter (pending_of agent i) (table db0))) as Hf; [|by rewrite Hnil in Hf].
          apply filter_In. split; [done|]. by rewrite pending_row, Hr, <- He, String.eqb_refl.
        - intros Hne. destruct (List.filter _ _) as [|e k] eqn:Ek; [done|]. exists e.
          assert (In e (List.filter (pending_of agent i) (table db0))) as Hf by (rewrite Ek; by left).
          apply filter_In in Hf as [Hin Hf]. rewrite pending_row in Hf. apply andb_true_iff in Hf as [Hr He]. split; [by apply String.eqb_eq in He|].
          apply list_elem_of_In, filter_In. done. }
      destruct (decide (SUMMARY_PENDING_TEXT ∈ summaries agent i db0)) as [H|H].
      * rewrite bool_decide_true by done. apply Hl in H. by destruct l.
      * rewrite bool_decide_false by done. destruct l; [done|]. exfalso. apply H, Hl. done.
Qed.

(** A filtered list does not see an update of rows it does not hold. *)
Lemma filter_update_other (q p : Episode -> bool) f es :
  (forall e, q (f e) = q e) -> (forall e, q e = true -> p e = false) ->
  List.filter q (table_update p f es) = List.filter q es.
Proof.
  intros Hq Hp. rewrite filter_update by done. unfold table_update. rewrite <- (map_id (List.filter q es)) at 2.
  apply map_ext_in. intros e [_ He]%filter_In. by rewrite Hp.
Qed.

Lemma run_janitor_effect a g t db :
  op_effect [] (summaries agent i db) (summaries agent i (run_close (CJanitor a g t) db).2).
Proof.
  cbn [run_close snd]. unfold cleanup_closing_interactions.
  destruct (sql_cases (update_where (stuck a (t - g)) (set_summary SUMMARY_UNAVAILABLE_TEXT)) db) as [(x&_&Ht)|(db0&Ht&->)];
    [by apply effect_none|]. cbn [snd]. left. split; [done|].
  rewrite <- (summaries_table _ _ Ht), summaries_update. unfold summaries.
  induction (List.filter (row_of agent i) (table db0)) as [|e es IH]; constructor; [|done].
  destruct (stuck a (t - g) e) eqn:Es; [|by left]. right. split; [|done].
  unfold stuck in Es. bool_props. destruct Es as [[_ E] _]. by apply String.eqb_eq.
Qed.

Lemma run_clear_effect a j db :
  op_effect [] (summaries agent i db) (summaries agent i (run_close (CClear a j) db).2).
Proof.
  cbn [run_close snd]. unfold clear_failed_episode_for_interaction.
  destruct (sql_cases (delete_where (tombstone_of a j)) db) as [(x&_&Ht)|(db0&Ht&->)]; [by apply effect_none|].
  cbn [snd]. rewrite <- (summaries_table _ _ Ht). clear Ht.
  assert (forall e, row_of agent i e = true ->
            tombstone_of a j e = bool_decide (a = agent /\ j = i) && String.eqb (ep_summary e) SUMMARY_UNAVAILABLE_TEXT) as Ha.
  { intros e He. unfold row_of, tombstone_of, owned, opt_is in *. bool_props. destruct He as [He1 He2].
    apply String.eqb_eq in He1. rewrite He1, He2. f_equal.
    destruct (String.eqb_spec agent a) as [<-|Hne]; cbn [andb];
      [|symmetry; apply bool_decide_false; by intros [? _]].
    apply bool_decide_ext. naive_solver. }
  unfold summaries. rewrite table_delete_where. destruct (decide (a = agent /\ j = i)) as [Hd|Hd].
  - right. left. split; [done|]. revert Ha. induction (table db0) as [|e es IH]; intros Ha; [done|]. cbn [List.filter].
    destruct (row_of agent i e) eqn:Er.
    + specialize (Ha e Er) as Hae. rewrite bool_decide_true in Hae by done. cbn [andb] in Hae. rewrite Hae. cbn [map List.filter].
      destruct (String.eqb (ep_summary e) SUMMARY_UNAVAILABLE_TEXT); cbn [negb List.filter]; [by apply IH|].
      rewrite Er. cbn [map]. f_equal. by apply IH.
    + destruct (tombstone_of a j e); cbn [negb List.filter]; [|rewrite Er]; by apply IH.
  - left. split; [done|]. replace (List.filter (row_of agent i) (List.filter (λ e, negb (tombstone_of a j e)) (table db0)))
      with (List.filter (row_of agent i) (table db0)); [apply Forall2_same_or|].
    induction (table db0) as [|e es IH]; [done|]. cbn [List.filter]. destruct (row_of agent i e) eqn:Er.
    + rewrite (Ha e Er), bool_decide_false by done. cbn [andb negb List.filter]. rewrite Er. by f_equal.
    + destruct (tombstone_of a j e); cbn [negb List.filter]; rewrite ?Er; done.
Qed.

Lemma run_reinforce_effect a ids t db :
  op_effect [] (summaries agent i db) (summaries agent i (run_close (CReinforce a ids t) db).2).
Proof.
  cbn [run_close snd]. unfold reinforce_episodes. destruct ids as [|id ids]; [by apply effect_none|].
  destruct (sql_cases (update_where (λ e, owned a e && bool_decide (ep_id e ∈ id :: ids)) (bump_access t)) db) as [(x&E&Ht)|(db0&Ht&E)].
  - destruct (sql _ db) as [r db']. cbn [fst snd] in *. subst r. by apply effect_none.
  - rewrite E. cbn [snd]. rewrite <- (summaries_table _ _ Ht). left. split; [done|].
    unfold summaries. rewrite table_update_where, filter_update by done. unfold table_update. rewrite map_map.
    induction (List.filter _ _) as [|e es IH]; constructor; [|done]. left. by destruct (_ && _).
Qed.

Lemma run_store_effect em c a db : honest agent i (CStore em c a) ->
  op_effect [] (summaries agent i db) (summaries agent i (run_close (CStore em c a) db).2).
Proof.
  intros Hh. cbn [run_close snd]. unfold store_episode. destruct (_ || _); [by apply effect_none|].
  set (r := new_episode_row _ _ _ _ _ _ _). unfold insert_episode. set (f := λ db, _).
  pose proof (sql_cases f db) as [(x&E&Ht)|(db0&Ht&E)].
  - destruct (sql f db) as [q db']. cbn [fst snd] in *. subst q. by apply effect_none.
  - rewrite E. unfold f. destruct (bool_decide _); cbn [fst snd]; [by apply effect_none|].
    left. split; [done|]. rewrite <- (summaries_table _ _ Ht). unfold summaries.
    assert (table (emit_episode (MemoryWriteEvent_new (em_agent em) Tepisodic EPISODIC_APPEND_SALIENCE (ec_span c) (ec_now c))
       (set_episodes (episodes db0 ++ [r]) db0)) = table db0 ++ [row_to_episode r])%list as ->.
    { unfold table. cbn [episodes emit_episode set_episodes]. by rewrite map_app. }
    rewrite List.filter_app. cbn [List.filter].
    replace (row_of agent i (row_to_episode r)) with false; [rewrite app_nil_r; apply Forall2_same_or|].
    symmetry. unfold row_of, owned, opt_is, r. cbn. destruct (String.eqb_spec (em_agent em) agent) as [He|]; [|done].
    cbn [andb]. apply bool_decide_false. by apply Hh.
Qed.

(** Every operation, with the summaries an update of this interaction gains. *)
Lemma run_close_effect o db : honest agent i o ->
  let '(won, db') := run_close o db in
  op_effect (match o with CUpdate a j s => if won && String.eqb a agent && String.eqb j i then [s] else [] | _ => [] end)
    (summaries agent i db) (summaries agent i db').
Proof.
  intros Hh. destruct (run_close o db) as [won db'] eqn:E. apply (f_equal snd) in E as E2. cbn [snd] in E2. subst db'.
  destruct o.
  - cbn [honest] in Hh. destruct (decide (agent0 = agent /\ interaction = i)) as [[-> ->]|Hne].
    + pose proof (run_update_effect summary db Hh) as H. rewrite E in H. cbn [fst snd] in H.
      rewrite !String.eqb_refl, !andb_true_r, E. done.
    + assert (won && String.eqb agent0 agent && String.eqb interaction i = false) as ->.
      { destruct (String.eqb_spec agent0 agent), (String.eqb_spec interaction i), won; cbn; try done. exfalso. auto. }
      cbn [run_close]. unfold update_episode_summary.
      destruct (sql_cases (update_where (pending_of agent0 interaction) (set_summary summary)) db) as [(x&Er&Ht)|(db0&Ht&Er)].
      * destruct (sql _ db) as [r db']. cbn [fst snd] in *. subst r. by apply effect_none.
      * rewrite Er. cbn [snd]. rewrite <- (summaries_table _ _ Ht). left. split; [done|].
        unfold summaries. rewrite table_update_where, filter_update_other; [apply Forall2_same_or|done|].
        intros e He. unfold row_of, pending_of, owned, opt_is in *. bool_props. destruct He as [He1 He2].
        apply String.eqb_eq in He1. rewrite He1, He2. left.
        destruct (String.eqb_spec agent agent0) as [<-|]; [|by left]. right. intros [= <-]. by apply Hne.
  - apply run_janitor_effect.
  - cbn [run_close snd]. unfold episode_exists_for_interaction.
    destruct (sql_cases (λ db, (existsb (λ r, derived_for agent0 interaction (row_to_episode r)) (episodes db), db)) db)
      as [(x&_&Ht)|(db0&Ht&->)]; by apply effect_none.
  - apply run_clear_effect.
  - apply run_reinforce_effect.
  - by apply run_store_effect.
  - cbn [run_close snd]. unfold recall_closed_interactions. cbv zeta.
    match goal with |- context [sql ?f db] => destruct (sql_cases f db) as [(x&_&Ht)|(db0&Ht&->)] end; by apply effect_none.
Qed.

Lemma winners_settled ops : forall won db,
  Forall (honest agent i) ops -> settled_by won (summaries agent i db) ->
  let '(later, db') := winners agent i ops db in settled_by (won ++ later)%list (summaries agent i db').
Proof.
  induction ops as [|o ops IH]; intros won db Hh Hw; cbn [winners]; [by rewrite app_nil_r|].
  apply Forall_cons in Hh as [Ho Hh]. pose proof (run_close_effect o db Ho) as He.
  destruct (run_close o db) as [w db1]. pose proof (op_effect_settled _ _ _ _ Hw He) as Hw1.
  specialize (IH _ db1 Hh Hw1). destruct (winners agent i ops db1) as [later db2]. by rewrite app_assoc.
Qed.
End effects.

(** C15. The summary of a closed interaction is settled once. From the moment its
    pending row is stored, whatever the background writers, the janitor, the replay
    guard, the readers and the writers of other rows do, in any order and with any
    of their statements failing, at most one update reports the summary as its own;
    then the row carries that text for good (or is dropped as a tombstone), and
    otherwise it is still pending, or marked unavailable, or dropped. *)
Theorem summary_settled_once agent interaction ops db :
  summaries agent interaction db = [SUMMARY_PENDING_TEXT] -> Forall (honest agent interaction) ops ->
  let '(won, db') := winners agent interaction ops db in
  let now := summaries agent interaction db' in
  (won = [] /\ (now = [SUMMARY_PENDING_TEXT] \/ now = [SUMMARY_UNAVAILABLE_TEXT] \/ now = [])) \/
  (exists s, won = [s] /\ s <> SUMMARY_PENDING_TEXT /\ (now = [s] \/ s = SUMMARY_UNAVAILABLE_TEXT /\ now = [])).
Proof.
  intros Hp Hh. pose proof (winners_settled agent interaction ops [] db Hh) as H. rewrite Hp in H.
  specialize (H (or_introl (conj eq_refl (or_introl eq_refl)))). by destruct (winners agent interaction ops db).
Qed.

(** ** Retention *)

(** What every table the program writes is: ids are a primary key and a
    compression level starts at 0. *)
Definition episodes_wf (db : EpisodeDb) : Prop :=
  NoDup (map ep_id (table db)) /\ Forall (λ e, 0 <= ep_compression_level e)%Z (table db).

Definition raw_of (agent : string) (e : Episode) : bool := owned agent e && (ep_compression_level e <? 1)%Z.
Definition raw_count (agent : string) (db : EpisodeDb) : Z := Z.of_nat (length (List.filter (raw_of agent) (table db))).

(** A row before and after a batch. *)
Definition kept_or_compressed (agent : string) (cutoff : Q) (e e' : Episode) : Prop :=
  e' = e \/ raw_before agent cutoff e = true /\
            exists text t, truthy text = true /\ e' = set_compressed text (ep_compression_level e + 1) t e.

Lemma kept_or_compressed_trans agent cutoff es es' es'' :
  Forall (λ e, 0 <= ep_compression_level e)%Z es ->
  Forall2 (kept_or_compressed agent cutoff) es es' -> Forall2 (kept_or_compressed agent cutoff) es' es'' ->
  Forall2 (kept_or_compressed agent cutoff) es es''.
Proof.
  intros Hl H. revert es''. induction H as [|e e' es es' He _ IH]; intros es'' H2; inversion H2; subst; [constructor|].
  apply Forall_cons in Hl as [Hle Hl]. constructor; [|by apply IH].
  destruct He as [->|(Hr&text&t&Ht&->)]; [done|].
  match goal with H : kept_or_compressed _ _ _ ?y |- _ => destruct H as [->|(Hr'&_)] end; [right; eauto|].
  exfalso. unfold raw_before in Hr'. bool_props. destruct Hr' as [[_ H']_]. cbn in H'. lia.
Qed.

Lemma kept_levels agent cutoff es es' :
  Forall (λ e, 0 <= ep_compression_level e)%Z es -> Forall2 (kept_or_compressed agent cutoff) es es' ->
  Forall (λ e, 0 <= ep_compression_level e)%Z es'.
Proof.
  intros Hl H. induction H as [|e e' es es' He _ IH]; [done|]. apply Forall_cons in Hl as [Hle Hl].
  constructor; [|by apply IH]. destruct He as [->|(_&?&?&_&->)]; [done|]. cbn. lia.
Qed.

Lemma kept_ids agent cutoff es es' : Forall2 (kept_or_compressed agent cutoff) es es' -> map ep_id es' = map ep_id es.
Proof. induction 1 as [|e e' es es' He _ IH]; [done|]. cbn [map]. rewrite IH. by destruct He as [->|(_&?&?&_&->)]. Qed.

(** A row found by its id, and the table around it. *)
Lemma update_one (f : Episode -> Episode) es1 e es2 agent :
  NoDup (map ep_id (es1 ++ e :: es2)) -> owned agent e = true ->
  table_update (is_episode agent (ep_id e)) f (es1 ++ e :: es2) = (es1 ++ f e :: es2)%list /\
  List.filter (is_episode agent (ep_id e)) (es1 ++ e :: es2) = [e].
Proof.
  intros Hd Ho. rewrite map_app in Hd. cbn [map] in Hd. apply NoDup_app in Hd as (_&H1&Hd).
  apply NoDup_cons in Hd as [H2 _].
  assert (forall x, x ∈ es1 \/ x ∈ es2 -> is_episode agent (ep_id e) x = false) as Hx.
  { intros x Hx. unfold is_episode. destruct (String.eqb_spec (ep_id x) (ep_id e)) as [E|]; [|done]. exfalso.
    destruct Hx as [Hx|Hx].
    - apply (H1 (ep_id x)); [by apply list_elem_of_fmap_2|rewrite E; left].
    - apply H2. rewrite <- E. by apply list_elem_of_fmap_2. }
  assert (is_episode agent (ep_id e) e = true) as He by (unfold is_episode; by rewrite String.eqb_refl, Ho).
  assert (forall es, (forall x, x ∈ es -> is_episode agent (ep_id e) x = false) ->
     table_update (is_episode agent (ep_id e)) f es = es /\ List.filter (is_episode agent (ep_id e)) es = []) as Hn.
  { clear. intros es. induction es as [|x es IH]; intros H; [done|]. unfold table_update in *. cbn [map List.filter].
    rewrite H by left. destruct IH as [-> ->]; [|done]. intros y Hy. apply H. by right. }
  destruct (Hn es1) as [E1 F1]; [auto|]. destruct (Hn es2) as [E2 F2]; [auto|].
  unfold table_update in *. rewrite map_app, List.filter_app. cbn [map List.filter]. by rewrite He, E1, E2, F1, F2.
Qed.

Section retention_props.
Context (dumps : pyval -> string) (retention_user : string) (resolvable : bool).
Context (ask : nat -> string -> result string (option string)) (clock_after : nat -> Q) (agent : string) (cutoff : Q).
Abbreviation summarize_one := (summarize_one dumps retention_user ask clock_after agent).
Abbreviation summarize_batch := (summarize_batch dumps retention_user ask clock_after agent).

Lemma summarize_one_spec k e db :
  episodes_wf db -> e ∈ table db -> raw_before agent cutoff e = true ->
  let '(n, db') := summarize_one k e db in
  (0 <= n <= 1)%Z /\ raw_count agent db = (raw_count agent db' + n)%Z /\
  Forall2 (kept_or_compressed agent cutoff) (table db) (table db') /\
  (forall x, x ∈ table db -> ep_id x <> ep_id e -> x ∈ table db').
Proof.
  intros [Hid Hl] Hin Hr.
  assert (forall db', table db' = table db ->
    (0 <= 0 <= 1)%Z /\ raw_count agent db = (raw_count agent db' + 0)%Z /\
    Forall2 (kept_or_compressed agent cutoff) (table db) (table db') /\
    (forall x, x ∈ table db -> ep_id x <> ep_id e -> x ∈ table db')) as Hsame.
  { intros db' E. unfold raw_count. rewrite E. split; [lia|]. split; [lia|]. split; [|done].
    clear. induction (table db); constructor; [by left|done]. }
  unfold Episodes.summarize_one. destruct (ask k _) as [[text|]|x]; [|by apply Hsame..].
  destruct (truthy (strip text)) eqn:Ht; [|by apply Hsame].
  set (f := set_compressed (strip text) (ep_compression_level e + 1) (clock_after k)).
  destruct (sql_cases (update_where (is_episode agent (ep_id e)) f) db) as [(x&E&Htab)|(db0&Htab&E)].
  - destruct (sql _ db) as [r db']. cbn [fst snd] in *. subst r. by apply Hsame.
  - rewrite E. rewrite count_update_where, Htab.
    apply list_elem_of_split in Hin as (es1&es2&Es).
    assert (owned agent e = true) as Ho by (unfold raw_before in Hr; bool_props; tauto).
    assert ((0 <=? ep_compression_level e)%Z = true) as Hle.
    { apply Z.leb_le. rewrite Es, Forall_app, Forall_cons in Hl. tauto. }
    assert (raw_of agent e = true /\ raw_of agent (f e) = false) as [Hre Hrf].
    { unfold raw_before in Hr. unfold raw_of, f. cbn. bool_props. split; [tauto|]. right.
      apply Z.leb_le in Hle. apply Z.ltb_ge. lia. }
    destruct (update_one f es1 e es2 agent) as [Eu Ef]; [by rewrite <- Es|done|].
    rewrite Es, Ef. change (if (0 <? Z.of_nat (length [e]))%Z then 1 else 0)%Z with 1%Z. split; [done|].
    assert (table (update_where (is_episode agent (ep_id e)) f db0).2 = es1 ++ f e :: es2)%list as Etab
      by (by rewrite table_update_where, Htab, Es, Eu).
    unfold raw_count. rewrite Etab, Es. split; [|split].
    + rewrite !List.filter_app. cbn [List.filter]. rewrite Hre, Hrf, !length_app. cbn [length]. lia.
    + apply Forall2_app; [|constructor].
      * clear. induction es1; constructor; [by left|done].
      * right. split; [done|]. exists (strip text), (clock_after k). done.
      * clear. induction es2; constructor; [by left|done].
    + intros y Hy Hne. apply elem_of_app in Hy as [Hy|Hy]; [apply elem_of_app; by left|].
      apply elem_of_cons in Hy as [->|Hy]; [done|]. apply elem_of_app. right. by right.
Qed.

Lemma summarize_batch_spec es : forall k db,
  episodes_wf db -> NoDup (map ep_id es) -> (forall e, e ∈ es -> e ∈ table db /\ raw_before agent cutoff e = true) ->
  let '(n, db') := summarize_batch k es db in
  (0 <= n <= Z.of_nat (length es))%Z /\ raw_count agent db = (raw_count agent db' + n)%Z /\
  Forall2 (kept_or_compressed agent cutoff) (table db) (table db').
Proof.
  induction es as [|e es IH]; intros k db Hwf Hd He; cbn [Episodes.summarize_batch].
  - split; [cbn; lia|]. split; [lia|]. clear. induction (table db); constructor; [by left|done].
  - destruct (He e) as [Hin Hr]; [left|]. pose proof (summarize_one_spec k e db Hwf Hin Hr) as H1.
    destruct (summarize_one k e db) as [n db1]. destruct H1 as (Hn&Hc&Hf&Ho).
    cbn [map] in Hd. apply NoDup_cons in Hd as [Hne Hd].
    assert (episodes_wf db1) as Hwf1.
    { destruct Hwf as [Hid Hl]. split; [by rewrite (kept_ids _ _ _ _ Hf)|by eapply kept_levels]. }
    specialize (IH (S k) db1 Hwf1 Hd). destruct (summarize_batch (S k) es db1) as [m db2].
    destruct IH as (Hm&Hc2&Hf2).
    { intros x Hx. destruct (He x) as [Hxt Hxr]; [by right|]. split; [|done]. apply Ho; [done|].
      intros E. apply Hne. rewrite <- E. by apply list_elem_of_fmap_2. }
    split; [cbn [length]; lia|]. split; [lia|]. eapply kept_or_compressed_trans; [by destruct Hwf|done..].
Qed.
End retention_props.

Definition kept (agent : string) (cutoff : Q) (e : Episode) : bool := negb (compressed_before agent cutoff e).

Lemma NoDup_sublist_map {A B} (f : A -> B) (l k : list A) : k `sublist_of` l -> NoDup (map f l) -> NoDup (map f k).
Proof. intros Hs Hd. eapply sublist_NoDup; [done|]. by apply (fmap_sublist f). Qed.

(** C37. Retention compresses before it deletes, and never more than it counts. On a
    table as the program writes it, a summarising batch answers the number of raw
    episodes that stopped being raw, at most the batch size: each is an old one of
    the agent with a non-blank text of the model, and every other row is untouched,
    whatever the model answers and whichever statements fail. So the advised loop
    ends, the answers of any number of batches adding up to at most the raw episodes
    there were. Pruning removes exactly the agent's old compressed episodes, never a
    raw one. *)
Theorem retention_compresses_first dumps user resolvable ask clk agent days now size db :
  episodes_wf db ->
  (match summarize_old_episodes dumps user resolvable ask clk agent days now size db with
   | (Ok n, db') =>
       (0 <= n <= size)%Z /\ raw_count agent db = (raw_count agent db' + n)%Z /\ episodes_wf db' /\
       Forall2 (kept_or_compressed agent (now - days * 86400)) (table db) (table db')
   | (Raise _, db') => table db' = table db
   end) /\
  (match delete_old_episodes agent days now db with
   | (Ok n, db') =>
       table db' = List.filter (λ e, negb (compressed_before agent (now - days * 86400) e)) (table db) /\
       raw_count agent db' = raw_count agent db /\ episodes_wf db'
   | (Raise _, db') => table db' = table db
   end).
Proof.
  intros Hwf. split.
  - unfold summarize_old_episodes. destruct (size <? 1)%Z eqn:Hs; [done|]. apply Z.ltb_ge in Hs.
    destruct (Qltb days 0); [done|]. set (cutoff := now - days * 86400).
    assert (forall db', table db' = table db -> (0 <= 0 <= size)%Z /\ raw_count agent db = (raw_count agent db' + 0)%Z /\
      episodes_wf db' /\ Forall2 (kept_or_compressed agent cutoff) (table db) (table db')) as Hsame.
    { intros db' E. unfold raw_count, episodes_wf. rewrite E. split; [lia|]. split; [lia|]. split; [done|].
      clear. induction (table db); constructor; [by left|done]. }
    destruct (sql_cases (λ db, (raw_batch agent cutoff size db, db)) db) as [(x&E&Ht)|(db0&Ht&E)].
    { destruct (sql _ db) as [r db']. cbn [fst snd] in *. by subst r. }
    rewrite E. cbn [fst snd]. destruct (raw_batch agent cutoff size db0) as [|e es] eqn:Eb; [by apply Hsame|].
    destruct resolvable; [|by apply Hsame].
    assert (episodes_wf db0) as Hwf0 by (unfold episodes_wf; by rewrite Ht).
    assert (forall x, x ∈ raw_batch agent cutoff size db0 -> x ∈ table db0 /\ raw_before agent cutoff x = true) as Hin.
    { intros x Hx%elem_of_take. unfold raw_batch in *. destruct Hx as (j&Hx&_). apply list_elem_of_lookup_2 in Hx.
      rewrite elem_of_py_sorted, list_elem_of_In, filter_In, <- list_elem_of_In in Hx. exact Hx. }
    assert (NoDup (map ep_id (raw_batch agent cutoff size db0))) as Hnd.
    { unfold raw_batch. eapply NoDup_sublist_map; [apply sublist_take|].
      change (map ep_id) with (fmap ep_id (M := list)). fold (table db0). rewrite py_sorted_perm.
      change (fmap ep_id (M := list)) with (map ep_id). rewrite filter_as_stdpp. eapply NoDup_sublist_map; [apply sublist_filter|]. apply Hwf0. }
    pose proof (summarize_batch_spec dumps user ask clk agent cutoff (e :: es) 0 db0 Hwf0) as H.
    rewrite <- Eb in H |- *. specialize (H Hnd Hin).
    destruct (summarize_batch _ _ _ _ _ _ _ db0) as [n db']. destruct H as (Hn&Hc&Hf).
    rewrite Ht in Hf. unfold raw_count in *. rewrite Ht in Hc. split; [|split; [done|split; [|done]]].
    + assert (length (raw_batch agent cutoff size db0) <= Z.to_nat size)%nat by (unfold raw_batch; rewrite length_take; lia). lia.
    + destruct Hwf as [Hid Hl]. split; [by rewrite (kept_ids _ _ _ _ Hf)|by eapply kept_levels].
  - unfold delete_old_episodes. destruct (Qltb days 0); [done|]. set (cutoff := now - days * 86400).
    destruct (sql_cases (delete_where (compressed_before agent cutoff)) db) as [(x&E&Ht)|(db0&Ht&E)].
    { destruct (sql _ db) as [r db']. cbn [fst snd] in *. by subst r. }
    rewrite E. cbn [fst snd]. unfold raw_count, episodes_wf. rewrite table_delete_where, Ht.
    change (λ e, negb (compressed_before agent cutoff e)) with (kept agent cutoff). split; [done|]. split; [|split].
    + do 2 f_equal. clear. induction (table db) as [|e es IH]; [done|]. cbn [List.filter].
      destruct (raw_of agent e) eqn:Er; destruct (kept agent cutoff e) eqn:Ep; cbn [List.filter]; rewrite ?Er, ?IH; try done.
      exfalso. unfold kept, compressed_before, raw_of in Er, Ep.
      apply negb_false_iff, andb_true_iff in Ep as [[_ Ep]%andb_true_iff _]. apply andb_true_iff in Er as [_ Er].
      apply Z.leb_le in Ep. apply Z.ltb_lt in Er. lia.
    + rewrite filter_as_stdpp. eapply NoDup_sublist_map; [apply sublist_filter|]. apply Hwf.
    + destruct Hwf as [_ Hl]. rewrite Forall_forall in Hl |- *. intros e He. apply Hl.
      apply list_elem_of_In, filter_In in He as [He _]. by apply list_elem_of_In.
Qed.

(** ** At concrete inputs *)

Definition sample_ambient : ambient := Ambient None None None [].
Definition sample_memory : EpisodicMemory := mkEpisodicMemory "ada" (tier_scope sample_ambient) true.
Definition sample_args (interaction summary : string) (closed : Q) : EpisodeArgs :=
  mkEpisodeArgs summary [("close_reason", VStr "idle_gap")] None (1 # 2) [] (Some interaction) (Some 0) (Some closed) (Some 2%Z)
    (Some "group:ops") None "legacy" "internal" None (Some "bob") (Some "acme").
Definition sample_store (id interaction summary : string) (closed : Q) (db : EpisodeDb) : EpisodeDb :=
  (store_episode sample_memory (mkEpisodeCall sample_ambient closed None id) (sample_args interaction summary closed) db).2.
Definition sample_db : EpisodeDb :=
  sample_store "e2" "i2" "told a joke" 20 (sample_store "e1" "i1" SUMMARY_PENDING_TEXT 10 (mkEpisodeDb [] [] [] [])).

Lemma summary_settled_once_witness :
  summaries "ada" "i1" sample_db = [SUMMARY_PENDING_TEXT] /\
  settled_by ["they agreed"] ["they agreed"] /\
  let ops := [CExists "ada" "i1"; CUpdate "ada" "i1" "they agreed"; CJanitor "ada" 300 1000; CUpdate "ada" "i1" "late"] in
  winners "ada" "i1" ops sample_db = (["they agreed"], (winners "ada" "i1" ops sample_db).2) /\
  let '(won, db') := winners "ada" "i1" ops sample_db in
  let now := summaries "ada" "i1" db' in
  (won = [] /\ (now = [SUMMARY_PENDING_TEXT] \/ now = [SUMMARY_UNAVAILABLE_TEXT] \/ now = [])) \/
  (exists s, won = [s] /\ s <> SUMMARY_PENDING_TEXT /\ (now = [s] \/ s = SUMMARY_UNAVAILABLE_TEXT /\ now = [])).
Proof.
  split; [by vm_compute|]. split; [right; eexists; split; [done|]; split; [by vm_compute|by left]|].
  split; [by vm_compute|].
  apply (summary_settled_once "ada" "i1" [CExists "ada" "i1"; CUpdate "ada" "i1" "they agreed"; CJanitor "ada" 300 1000; CUpdate "ada" "i1" "late"] sample_db);
    [by vm_compute|]. repeat constructor; by vm_compute.
Defined.

Lemma sample_db_wf : episodes_wf sample_db.
Proof.
  split; [|by repeat constructor; vm_compute].
  assert (map ep_id (table sample_db) = ["e1"; "e2"]) as -> by by vm_compute.
  apply NoDup_cons. split; [set_solver|]. apply NoDup_cons. split; [set_solver|constructor].
Defined.

Lemma retention_compresses_first_witness :
  (summarize_old_episodes (λ _, "{}") "Summarise." true (λ _ _, Ok (Some " short ")) (λ _, 500) "ada" 0 100 50 sample_db).1 = Ok 2%Z /\
  episodes_wf sample_db /\
  (match summarize_old_episodes (λ _, "{}") "Summarise." true (λ _ _, Ok (Some " short ")) (λ _, 500) "ada" 0 100 50 sample_db with
   | (Ok n, db') =>
       (0 <= n <= 50)%Z /\ raw_count "ada" sample_db = (raw_count "ada" db' + n)%Z /\ episodes_wf db' /\
       Forall2 (kept_or_compressed "ada" (100 - 0 * 86400)) (table sample_db) (table db')
   | (Raise _, db') => table db' = table sample_db
   end).
Proof.
  split; [by vm_compute|]. split; [apply sample_db_wf|].
  apply (retention_compresses_first (λ _, "{}") "Summarise." true (λ _ _, Ok (Some " short ")) (λ _, 500) "ada" 0 100 50 sample_db sample_db_wf).
Defined.
