(* ===== verification/Spawner.v ===== *)
(** * The sub-agent spawner

    Models [agents/sub_agents/spawner.py]: a dispatch validates and writes a request,
    has the child handle it, reads the child's envelope back, holds its artifacts to
    the caller's schema, merges it, and keeps what the merge admits. The child is any
    handler over a world [W]; the facade that keeps memories is a class, and
    [store_observation] of [memory/store.py] over the episodes table its instance.
    jsonschema is the two arguments [schema_ok] and [conforms]. The texts of the
    errors are left out. *)

From Stdlib Require Import Sorted.
From S2P Require Import Prelude PyStr PyDict PySort PyValue PyFloat MemoryEvents Ambient RowScope Classification Episodes.
From S2P Require Import PyJson LlmTypes Delegation DelegationCodec ActionParser TaskAgent.
Local Open Scope string_scope.
Local Open Scope py_scope.

Record SpawnResult := mkSpawn {
  spawn_result : DelegationResult;
  outcome : MergeOutcome;
  raw_output : TaskOutput;
  admitted_entry_ids : list string;
}.

Inductive spawn_error := SContract | SFailure | SOther (exception : string).

(** [DelegationContractError] keeps its class on the way out of [validate]. *)
Definition caller_side {A} (r : result delegation_error A) : result spawn_error A :=
  match r with Ok a => Ok a | Raise (DelegationContractError _) => Raise SContract | Raise DelegationFailure => Raise SFailure end.

(** Any exception of the child's handler comes through as it is. *)
Definition child_side {A} (r : result codec_error A) : result spawn_error A :=
  match r with Ok a => Ok a | Raise (ContractError _) => Raise SContract | Raise (OtherError x) => Raise (SOther x) | Raise NotText => Raise (SOther "NotText") end.

Section spawner.
Context {W : Type}.
Context (dumps : pyval -> string) (loads : string -> result string pyval).
Context (str_of : pyval -> string) (float_of_str : string -> option pyfloat).
Context (schema_ok : pydict -> bool) (conforms : pydict -> pyval -> bool).
Context (parent_agent_id : string).

(** The child: its id and its handler. *)
Context (child_id : string) (child_handle : TaskInput -> W -> result codec_error TaskOutput * W).

(** [_persist_admitted]; the base class's returns the keys. *)
Context (persist_admitted : MergeOutcome -> W -> result string (list string) * W).

Definition written (v : pyval) : string := dumps (sort_keys v).
Definition oversized (text : string) : bool := (MAX_CONTEXT_PACKAGE_BYTES <? Z.of_nat (String.length text))%Z.

(** The task a request becomes; the key of the request comes first. *)
Definition task_for (task_id : string) (workflow : option string) (request : DelegationRequest) (serialised_pkg request_payload : string) : TaskInput :=
  mkTask task_id (match workflow with Some w => if truthy w then w else "delegation" | None => "delegation" end) (objective request)
    ((DELEGATION_REQUEST_KEY, request_payload) :: (if truthy serialised_pkg then [(CONTEXT_PACKAGE_KEY, serialised_pkg)] else []))
    (mkTaskConfig (Delegation.max_llm_calls (budget request)) (tokens (budget request)) (py_sorted String.leb (allowed_tools request)) parent_agent_id).

(** What is checked before the child runs. *)
Definition prepare (task_id : string) (workflow : option string) (request : DelegationRequest) : result spawn_error TaskInput :=
  let! _ := caller_side (validate_request request) in
  let pkg := match context_package request with [] => "" | d => written (VDict d) end in
  if oversized pkg then Raise SContract
  else match request_to_data request with
       | None => Raise (SOther "NotText")
       | Some data =>
           let payload := written data in
           if oversized payload then Raise SContract else Ok (task_for task_id workflow request pkg payload)
       end.

Definition _extract_result (output : TaskOutput) : result spawn_error DelegationResult :=
  if bool_decide (task_status output = FAILED) then Raise SFailure
  else match dget DELEGATION_RESULT_KEY (task_metadata output) with
       | Some (VStr raw) =>
           match result_of_data str_of float_of_str (match loads raw with Ok v => Some v | Raise _ => None end) with
           | Ok r => Ok r
           | Raise (ContractError _) => Raise SFailure
           | Raise (OtherError x) => Raise (SOther x)
           | Raise NotText => Raise (SOther "NotText")
           end
       | _ => Raise SFailure
       end.

Definition _enforce_output_schema (request : DelegationRequest) (r : DelegationResult) : result spawn_error unit :=
  match output_schema request with
  | [] => Ok tt
  | schema => if negb (schema_ok schema) then Raise SFailure else if conforms schema (artifacts r) then Ok tt else Raise SFailure
  end.

(** What follows the child's answer, up to the merge. *)
Definition accept_output (request : DelegationRequest) (existing_artifacts : option pydict) (existing_keys : list string) (output : TaskOutput) :
    result spawn_error (DelegationResult * MergeOutcome) :=
  let! r := _extract_result output in
  let! _ := _enforce_output_schema request r in
  let! merged := caller_side (merge_result r request child_id existing_artifacts existing_keys).1 in
  Ok (r, merged).

Definition dispatch (task_id : string) (workflow : option string) (request : DelegationRequest) (existing_artifacts : option pydict)
    (existing_keys : list string) (persist_to_memory : bool) (w : W) : result spawn_error SpawnResult * W :=
  match prepare task_id workflow request with
  | Raise x => (Raise x, w)
  | Ok task =>
      let '(output, w) := child_handle task w in
      match (let! output := child_side output in
             let! merged := accept_output request existing_artifacts existing_keys output in Ok (output, merged)) with
      | Raise x => (Raise x, w)
      | Ok (output, (r, merged)) =>
          match persist_to_memory, admitted merged with
          | true, _ :: _ =>
              match persist_admitted merged w with
              | (Raise x, w) => (Raise (SOther x), w)
              | (Ok ids, w) => (Ok (mkSpawn r merged output ids), w)
              end
          | _, _ => (Ok (mkSpawn r merged output []), w)
          end
      end
  end.
End spawner.

(** [SubAgentSpawner._persist_admitted] *)
Definition keys_of_admitted {W} (merged : MergeOutcome) (w : W) : result string (list string) * W := (Ok (map key (admitted merged)), w).

(** ** The facade *)

(** What a memory facade does for the spawner. The episodic accessor is [None] where
    the facade has none. *)
Class Facade (W : Type) := {
  facade_store : string -> pyfloat -> option pyfloat -> list string -> W -> result string string * W;
  facade_delete : option (string -> W -> result string bool * W);
}.

Section facade.
Context {W : Type} `{Facade W}.

Definition observation_tags (e : MemoryWriteEntry) : list string :=
  (tags e ++ ["tier:" +:+ tier e; "key:" +:+ key e;
              "source:" +:+ match source_agent e with Some a => if truthy a then a else "unknown" | None => "unknown" end])%list.

(** Every id is deleted in turn; a delete that raises is passed over. *)
Fixpoint _rollback_persisted (ids : list string) (w : W) : W :=
  match facade_delete with
  | None => w
  | Some delete => match ids with [] => w | i :: ids => _rollback_persisted ids (delete i w).2 end
  end.

(** [FacadeBoundSpawner._persist_admitted], from the ids stored so far. *)
Fixpoint persist_each (entries : list MemoryWriteEntry) (ids : list string) (w : W) : result string (list string) * W :=
  match entries with
  | [] => (Ok ids, w)
  | e :: entries =>
      match facade_store (Delegation.content e) (importance e) (ttl_seconds e) (observation_tags e) w with
      | (Raise x, w) => (Raise x, _rollback_persisted (rev ids) w)
      | (Ok i, w) => persist_each entries (ids ++ [i])%list w
      end
  end.

Definition facade_persist_admitted (merged : MergeOutcome) (w : W) : result string (list string) * W :=
  persist_each (admitted merged) [] w.
End facade.

(** ** The memory store as a facade *)

(** The importance as the column holds it: the clamp of [store_episode] on a float
    that is not finite, which [EpisodeArgs] does not carry. *)
Definition finite_importance (x : pyfloat) : Q := match x with Fin q => q | NegInf => 0 | _ => 1 end.

(** The store's table, and how many writes it has been asked for. *)
Record StoreWorld := mkStoreWorld { sw_db : EpisodeDb; sw_writes : nat }.

Section memory_store.
Context (em : EpisodicMemory) (store_session : string).

(** The context, clock and fresh id of each write; a float as a JSON value, which is
    [VFloat q] for a finite one. *)
Context (call : nat -> EpisodeCall) (json_float : pyfloat -> pyval).

(** [MemoryStore.store_observation], of an initialised store, with the arguments the
    spawner gives. *)
Definition store_observation (content : string) (importance : pyfloat) (ttl_seconds : option pyfloat) (tags : list string)
    (w : StoreWorld) : result string string * StoreWorld :=
  let c := call (sw_writes w) in
  if negb (truthy content) || negb (truthy (strip content)) then (Raise "ValueError", w)
  else if match ttl_seconds with Some t => flt t (Fin 0) || feq t (Fin 0) | None => false end then (Raise "ValueError", w)
  else
    let context := match ttl_seconds with Some t => [("ttl_seconds", json_float t)] | None => [] end in
    let '(r, db) := store_episode em c
      (mkEpisodeArgs content context None (finite_importance importance) tags None None None None None None
         (resolve_active_session (ec_amb c) store_session) CLASSIFICATION_INTERNAL None None None) (sw_db w) in
    (r, mkStoreWorld db (S (sw_writes w))).

Definition episodic_delete (id : string) (w : StoreWorld) : result string bool * StoreWorld :=
  let '(r, db) := delete_episode (em_agent em) id (sw_db w) in (r, mkStoreWorld db (sw_writes w)).

#[local] Instance memory_store : Facade StoreWorld := {|
  facade_store := store_observation;
  facade_delete := Some episodic_delete;
|}.

(** [FacadeBoundSpawner._persist_admitted] over a memory store. *)
Definition store_persist_admitted : MergeOutcome -> StoreWorld -> result string (list string) * StoreWorld := facade_persist_admitted.

(** ** Keeping what was admitted *)

Definition row_id (r : EpisodeRow) : string := ep_id (row_to_episode r).

(** The row an admitted entry becomes. *)
Definition kept_as (e : MemoryWriteEntry) (r : EpisodeRow) : Prop :=
  let p := row_to_episode r in
  ep_agent_id p = em_agent em /\ ep_summary p = Delegation.content e /\ ep_tags p = observation_tags e /\
  ep_context p = match ttl_seconds e with Some t => [("ttl_seconds", json_float t)] | None => [] end /\
  ep_interaction_id p = None /\ ep_protection_level p = "internal" /\
  (forall q, importance e = Fin q -> (0 <= q <= 1)%Q -> ep_importance p = q).

Lemma sql_failures {A} (f : EpisodeDb -> A * EpisodeDb) db :
  (forall db, failures (f db).2 = failures db) -> failures (sql f db).2 = tail (failures db).
Proof.
  intros Hf. unfold sql. destruct (failures db) as [|[] fs]; [|done|];
    match goal with |- context [f ?d] => specialize (Hf d); destruct (f d) end; done.
Qed.

(** A store adds the entry's row, under an id of its own, or changes nothing. *)
Lemma store_observation_spec e w :
  let fs := failures (sw_db w) in
  match store_observation (Delegation.content e) (importance e) (ttl_seconds e) (observation_tags e) w with
  | (Ok id, w') => exists r, episodes (sw_db w') = (episodes (sw_db w) ++ [r])%list /\ row_id r = id /\
      id ∉ map row_id (episodes (sw_db w)) /\ kept_as e r /\ (failures (sw_db w') `suffix_of` fs)
  | (Raise x, w') => episodes (sw_db w') = episodes (sw_db w) /\ (failures (sw_db w') `suffix_of` fs) /\
      (x = "OperationalError" -> (true :: failures (sw_db w')) `suffix_of` fs)
  end.
Proof.
  cbn zeta. unfold store_observation. destruct (negb (truthy (Delegation.content e)) || _) eqn:Ec; [done|].
  destruct (match ttl_seconds e with Some _ => _ | None => _ end); [done|].
  unfold store_episode. cbn [ea_summary]. rewrite Ec. set (a := mkEpisodeArgs _ _ _ _ _ _ _ _ _ _ _ _ _ _ _ _).
  set (i := if negb _ then _ else _).
  set (r := new_episode_row _ _ i _ _ _ a). unfold insert_episode, sql.
  assert (kept_as e r) as Hk.
  { unfold kept_as. cbn [r new_episode_row row_to_episode ep_agent_id ep_summary ep_tags ep_context ep_interaction_id
      ep_protection_level ep_importance a ea_summary ea_tags ea_context ea_interaction_id ea_protection_level ea_importance].
    split_and!; try done. intros q Hq [H0 H1]. unfold i. cbn [a ea_importance]. rewrite Hq. cbn [finite_importance].
    apply Qle_bool_iff in H0, H1. by rewrite H0, H1. }
  clearbody r i. destruct (failures (sw_db w)) as [|[] fs] eqn:Ef; cbn [fst snd].
  - case_bool_decide as Hin; cbn [fst snd sw_db episodes failures emit_episode set_episodes set_failures tail].
    + split; [done|]. split; [done|]. intros [=].
    + by exists r.
  - split; [done|]. split; [by apply suffix_cons_r|done].
  - case_bool_decide as Hin; cbn [fst snd sw_db episodes failures emit_episode set_episodes set_failures tail].
    + split; [done|]. split; [by apply suffix_cons_r|]. intros [=].
    + exists r. split_and!; try done. by apply suffix_cons_r.
Qed.

Lemma delete_other rows id : id ∉ map row_id rows ->
  List.filter (λ r, negb (is_episode (em_agent em) id (row_to_episode r))) rows = rows.
Proof.
  induction rows as [|r rows IH]; [done|]. cbn [map List.filter]. intros [Hne Hin]%not_elem_of_cons.
  unfold is_episode at 1. destruct (String.eqb_spec (ep_id (row_to_episode r)) id) as [E|_]; [by subst|].
  cbn [andb negb]. by rewrite IH.
Qed.

(** One delete of the rollback, of the row [r]. *)
Lemma episodic_delete_row base rows r rest w :
  episodes (sw_db w) = (base ++ rows ++ r :: rest)%list -> ep_agent_id (row_to_episode r) = em_agent em ->
  row_id r ∉ map row_id (base ++ rows ++ rest) ->
  let w' := (episodic_delete (row_id r) w).2 in
  failures (sw_db w') = tail (failures (sw_db w)) /\
  episodes (sw_db w') = (base ++ rows ++ (if default false (head (failures (sw_db w))) then [r] else []) ++ rest)%list.
Proof.
  intros Ht Ha Hn. rewrite !map_app, !not_elem_of_app in Hn. destruct Hn as (H1&H2&H3).
  unfold episodic_delete, delete_episode, sql.
  assert (List.filter (λ x, negb (is_episode (em_agent em) (row_id r) (row_to_episode x))) (base ++ rows ++ r :: rest) =
          base ++ rows ++ rest)%list as Hf.
  { rewrite !List.filter_app. cbn [List.filter]. unfold is_episode at 3, owned, row_id at 3.
    rewrite Ha, !String.eqb_refl. cbn [andb negb]. by rewrite !delete_other. }
  destruct (failures (sw_db w)) as [|[] fs] eqn:Ef; cbn [fst snd sw_db default head tail app]; [split; [done|]..].
  - unfold delete_where. cbn [snd set_episodes set_failures episodes]. by rewrite Ht.
  - done.
  - unfold delete_where. cbn [snd set_episodes set_failures episodes]. by rewrite Ht.
Qed.

Definition failed (fs : list bool) : nat := length (List.filter id fs).

(** The rollback leaves of the batch exactly the rows whose delete failed. *)
Lemma rollback_rows base : forall rows rest w,
  episodes (sw_db w) = (base ++ rows ++ rest)%list ->
  Forall (λ r, ep_agent_id (row_to_episode r) = em_agent em) rows ->
  NoDup (map row_id (rows ++ rest)) -> (forall r, r ∈ rows -> row_id r ∉ map row_id base) ->
  exists left, left `sublist_of` rows /\
    episodes (sw_db (_rollback_persisted (rev (map row_id rows)) w)) = (base ++ left ++ rest)%list /\
    length left = failed (take (length rows) (failures (sw_db w))).
Proof.
  induction rows as [|r rows IH] using rev_ind; intros rest w Ht Hw Hnd Hb.
  { exists []. by split_and!. }
  rewrite map_app, rev_app_distr. cbn [map rev app _rollback_persisted facade_delete memory_store].
  rewrite <- app_assoc in Ht. apply Forall_app in Hw as [Hw [Hr _]%Forall_cons].
  rewrite <- app_assoc, map_app in Hnd. cbn [app map] in Hnd.
  destruct (episodic_delete_row base rows r rest w) as [Hf He]; [done|done| |].
  { rewrite !map_app, !not_elem_of_app. apply NoDup_app in Hnd as (_&H1&H2). apply NoDup_cons in H2 as [H2 _].
    split; [apply Hb; rewrite elem_of_app; right; by left|]. split; [|done]. intros Hin. apply (H1 _ Hin). by left. }
  set (w' := (episodic_delete (row_id r) w).2) in *.
  set (kept := if default false (head (failures (sw_db w))) then [r] else []) in *.
  destruct (IH (kept ++ rest)%list w') as (left&Hs&Hl&Hn); [done|done| | |].
  - rewrite map_app. unfold kept. destruct (default false _); cbn [app]; [done|].
    eapply sublist_NoDup; [exact Hnd|]. apply sublist_app; [done|]. by apply sublist_cons.
  - intros x Hx. apply Hb. rewrite elem_of_app. by left.
  - exists (left ++ kept)%list. split_and!.
    + apply sublist_app; [done|]. unfold kept. destruct (default false _); [done|apply sublist_nil_l].
    + by rewrite Hl, <- !app_assoc.
    + rewrite !length_app, Hn, Hf. unfold kept, failed. cbn [length]. rewrite Nat.add_1_r.
      destruct (failures (sw_db w)) as [|[] fs]; cbn [head default take tail List.filter id length];
        rewrite ?take_nil; cbn [List.filter length]; lia.
Qed.

Lemma persist_each_rows entries : forall rows w w0 done_,
  episodes (sw_db w) = (episodes (sw_db w0) ++ rows)%list -> Forall2 kept_as done_ rows ->
  NoDup (map row_id rows) -> (forall r, r ∈ rows -> row_id r ∉ map row_id (episodes (sw_db w0))) ->
  failures (sw_db w) `suffix_of` failures (sw_db w0) ->
  match persist_each entries (map row_id rows) w with
  | (Ok ids, w') => exists all, episodes (sw_db w') = (episodes (sw_db w0) ++ all)%list /\ ids = map row_id all /\
      Forall2 kept_as (done_ ++ entries) all
  | (Raise x, w') => exists batch rest stored left fs, (done_ ++ entries = batch ++ rest)%list /\ rest <> [] /\ Forall2 kept_as batch stored /\
      left `sublist_of` stored /\ episodes (sw_db w') = (episodes (sw_db w0) ++ left)%list /\
      (if bool_decide (x = "OperationalError") then (true :: fs) else fs) `suffix_of` failures (sw_db w0) /\
      length left = failed (take (length stored) fs)
  end.
Proof.
  induction entries as [|e entries IH]; intros rows w w0 dn Ht Hk Hnd Hb Hsf; cbn [persist_each].
  { exists rows. by rewrite app_nil_r. }
  cbn [facade_store memory_store]. pose proof (store_observation_spec e w) as Hs. cbn zeta in Hs.
  destruct (store_observation _ _ _ _ w) as [[id|x] w1].
  - destruct Hs as (r&He&<-&Hn&Hr&Hf). specialize (IH (rows ++ [r])%list w1 w0 (dn ++ [e])%list).
    rewrite map_app in IH. rewrite <- !app_assoc in IH. cbn [app map] in IH. rewrite Ht, map_app, not_elem_of_app in Hn. apply IH.
    + by rewrite He, Ht, <- app_assoc.
    + apply Forall2_app; [done|by constructor].
    + apply NoDup_app. split; [done|]. split; [|apply NoDup_singleton]. intros i Hi ->%list_elem_of_singleton. by apply Hn.
    + intros x [Hx| ->%list_elem_of_singleton]%elem_of_app; [by apply Hb|apply Hn].
    + by etrans.
  - destruct Hs as (He&Hf&Hx). cbn [map].
    destruct (rollback_rows (episodes (sw_db w0)) rows [] w1) as (left&Hl&Hr&Hn).
    + by rewrite He, Ht, app_nil_r.
    + clear -Hk. induction Hk as [|e r es rs [H _]]; by constructor.
    + by rewrite app_nil_r.
    + done.
    + exists dn, (e :: entries), rows, left, (failures (sw_db w1)). rewrite app_nil_r in Hr. split_and!; try done.
      case_bool_decide as Ex; [by etrans; [apply Hx|]|by etrans].
Qed.
End memory_store.

(** C24. Keeping is all or nothing, but for a delete that fails. Where every admitted
    entry is stored, the table has gained one row for each, in order, under the ids
    returned. Where a store raises, no row the table held is touched, and of the
    batch's own rows those stay whose delete failed, no other: where the one
    statement the database fails is the store that raised, none. *)
Theorem persist_all_or_nothing em session call json_float merged w :
  match store_persist_admitted em session call json_float merged w with
  | (Ok ids, w') => exists rows, episodes (sw_db w') = (episodes (sw_db w) ++ rows)%list /\ ids = map row_id rows /\
      Forall2 (kept_as em json_float) (admitted merged) rows
  | (Raise x, w') => exists batch rest stored left fs,
      (admitted merged = batch ++ rest)%list /\ rest <> [] /\ Forall2 (kept_as em json_float) batch stored /\
      left `sublist_of` stored /\ episodes (sw_db w') = (episodes (sw_db w) ++ left)%list /\
      (if bool_decide (x = "OperationalError") then (true :: fs) else fs) `suffix_of` failures (sw_db w) /\
      length left = failed (take (length stored) fs) /\
      (x = "OperationalError" -> (failed (failures (sw_db w)) <= 1)%nat -> left = [])
  end.
Proof.
  unfold store_persist_admitted, facade_persist_admitted.
  pose proof (persist_each_rows em session call json_float (admitted merged) [] w w []) as Hp.
  cbn [map app] in Hp. specialize (Hp ltac:(by rewrite app_nil_r) ltac:(constructor) ltac:(constructor)).
  specialize (Hp ltac:(intros r Hr; by apply not_elem_of_nil in Hr) ltac:(done)).
  destruct (persist_each _ _ _) as [[ids|x] w']; [done|].
  destruct Hp as (batch&rest&stored&left&fs&H1&H2&H3&H4&H5&H6&H7). exists batch, rest, stored, left, fs.
  split_and!; try done. intros ->. rewrite bool_decide_true in H6 by done. destruct H6 as [pre ->].
  unfold failed in *. rewrite List.filter_app. cbn [List.filter id]. rewrite length_app. cbn [length]. intros Hone.
  assert (length (List.filter id (take (length stored) fs)) <= length (List.filter id fs))%nat as Hle.
  { rewrite <- (take_drop (length stored) fs) at 2. rewrite List.filter_app, length_app. lia. }
  apply nil_length_inv. lia.
Qed.

(** ** The dispatch *)

Section dispatch_props.
Context {W : Type}.
Context (dumps : pyval -> string) (loads : string -> result string pyval).
Context (str_of : pyval -> string) (float_of_str : string -> option pyfloat).
Context (schema_ok : pydict -> bool) (conforms : pydict -> pyval -> bool).

Definition within_cap (text : string) : Prop := (Z.of_nat (String.length text) <= MAX_CONTEXT_PACKAGE_BYTES)%Z.

(** The texts the task carries are within the cap. *)
Definition package_text (request : DelegationRequest) : string :=
  match context_package request with [] => "" | d => written dumps (VDict d) end.

(** What the parent's side checks. *)
Definition dispatchable (request : DelegationRequest) : Prop :=
  validate_request request = Ok tt /\ within_cap (package_text request) /\
  exists data, request_to_data request = Some data /\ within_cap (written dumps data).

(** The task a request becomes: the objective as its payload, the request and its
    context package as its context, the request's limits and tools as its
    configuration, under the parent's name. *)
Definition carries (parent id : string) (workflow : option string) (request : DelegationRequest) (task : TaskInput) : Prop :=
  task_id task = id /\ workflow_id task = match workflow with Some w => if truthy w then w else "delegation" | None => "delegation" end /\
  payload task = objective request /\
  (exists data, request_to_data request = Some data /\
    task_context task = (DELEGATION_REQUEST_KEY, written dumps data) ::
      (if truthy (package_text request) then [(CONTEXT_PACKAGE_KEY, package_text request)] else [])) /\
  max_llm_calls (config task) = Delegation.max_llm_calls (budget request) /\ max_tokens (config task) = tokens (budget request) /\
  config_allowed_tools (config task) ≡ₚ allowed_tools request /\
  StronglySorted (λ a b, String.leb a b = true) (config_allowed_tools (config task)) /\
  sub_agent_parent_id (config task) = parent.

(** The result the child's own output carries. *)
Definition answered (output : TaskOutput) (r : DelegationResult) : Prop :=
  task_status output = COMPLETED /\
  exists raw v, dget DELEGATION_RESULT_KEY (task_metadata output) = Some (VStr raw) /\ loads raw = Ok v /\
    result_of_data str_of float_of_str (Some v) = Ok r.

Definition conforming (request : DelegationRequest) (r : DelegationResult) : Prop :=
  output_schema request = [] \/ schema_ok (output_schema request) = true /\ conforms (output_schema request) (artifacts r) = true.

Lemma prepare_exact parent id workflow request :
  match prepare dumps parent id workflow request with
  | Ok task => dispatchable request /\ carries parent id workflow request task
  | Raise _ => ~ dispatchable request
  end.
Proof.
  unfold prepare, dispatchable, carries, package_text. destruct (validate_request request) as [[]|[]]; cbn [caller_side rbind];
    [|by intros [? _]..]. set (pkg := match context_package request with [] => _ | _ => _ end).
  unfold oversized, within_cap. destruct (Z.ltb_spec MAX_CONTEXT_PACKAGE_BYTES (Z.of_nat (String.length pkg))); [intros (_&?&_); lia|].
  destruct (request_to_data request) as [data|]; [|by intros (_&_&?&?&_)].
  destruct (Z.ltb_spec MAX_CONTEXT_PACKAGE_BYTES (Z.of_nat (String.length (written dumps data)))).
  { intros (_&_&d&[= <-]&?). lia. }
  split; [eauto|]. unfold task_for. cbn. split_and!; try done; [by exists data|apply py_sorted_perm|].
  apply py_sorted_sorted; [apply str_leb_total|apply str_leb_trans].
Qed.

Lemma extract_exact output r : _extract_result loads str_of float_of_str output = Ok r <-> answered output r.
Proof.
  unfold _extract_result, answered. case_bool_decide as E; [split; [done|intros [H _]; congruence]|].
  assert (task_status output = COMPLETED) as -> by (by destruct (task_status output)). split.
  - destruct (dget _ _) as [[| | | |raw| |]|]; try done. destruct (loads raw) as [v|x] eqn:El; [|done].
    destruct (result_of_data str_of float_of_str (Some v)) as [r0|[]] eqn:Er; try done. intros [= ->]. eauto 10.
  - by intros (_&raw&v&->&->&->).
Qed.

Lemma schema_exact request r : _enforce_output_schema schema_ok conforms request r = Ok tt <-> conforming request r.
Proof.
  unfold _enforce_output_schema, conforming. destruct (output_schema request) as [|kv schema]; [naive_solver|].
  destruct (schema_ok _), (conforms _ _); naive_solver.
Qed.

Lemma accept_exact child request ea ek output :
  match accept_output loads str_of float_of_str schema_ok conforms child request ea ek output with
  | Ok (r, merged) => answered output r /\ conforming request r /\ (merge_result r request child ea ek).1 = Ok merged
  | Raise _ => ~ exists r merged, answered output r /\ conforming request r /\ (merge_result r request child ea ek).1 = Ok merged
  end.
Proof.
  unfold accept_output. destruct (_extract_result _ _ _ output) as [r|x] eqn:Er; cbn [rbind].
  2:{ intros (r&m&Ha%extract_exact&_). congruence. }
  destruct (_enforce_output_schema _ _ request r) as [[]|x] eqn:Es; cbn [rbind].
  2:{ intros (r'&m&Ha%extract_exact&Hc%schema_exact&_). congruence. }
  destruct (merge_result r request child ea ek).1 as [m|[]] eqn:Em; cbn [caller_side rbind].
  { split_and!; [by apply extract_exact|by apply schema_exact|done]. }
  all: intros (r'&m&Ha%extract_exact&_&Hm); congruence.
Qed.
End dispatch_props.

(** C23. The delegation contract, both ways. A dispatch that returns took a request that
    is valid and within the size cap; the child has handled the one task that carries
    it; the result is the one in that output's envelope, completed and readable, its
    artifacts conform to the request's schema, the outcome is that result merged under
    the child's name, and ids are returned for what was admitted, when it is to be
    kept. A dispatch that raises did so before the child ran, and then exactly on a
    request that is not valid or over the cap (or whose time-out is no finite number,
    for which the values of this model have no JSON); or because the child raised, or
    its output carries no such result, and then nothing is kept; or because keeping
    failed. *)
Theorem dispatch_contract {W} dumps loads str_of float_of_str schema_ok conforms parent child_id
    (child_handle : TaskInput -> W -> result codec_error TaskOutput * W) persist id workflow request ea ek keep w :
  let accepted output r merged :=
    answered loads str_of float_of_str output r /\ conforming schema_ok conforms request r /\
    (merge_result r request child_id ea ek).1 = Ok merged in
  match dispatch dumps loads str_of float_of_str schema_ok conforms parent child_id child_handle persist id workflow request ea ek keep w with
  | (Ok sr, w') => dispatchable dumps request /\
      exists task w1, carries dumps parent id workflow request task /\ child_handle task w = (Ok (raw_output sr), w1) /\
        accepted (raw_output sr) (spawn_result sr) (outcome sr) /\
        (if keep && negb (bool_decide (admitted (outcome sr) = []))
         then persist (outcome sr) w1 = (Ok (admitted_entry_ids sr), w') else admitted_entry_ids sr = [] /\ w' = w1)
  | (Raise x, w') =>
      (~ dispatchable dumps request /\ w' = w) \/
      dispatchable dumps request /\ exists task out w1,
        carries dumps parent id workflow request task /\ child_handle task w = (out, w1) /\
        match out with
        | Raise _ => w' = w1
        | Ok output =>
            (~ exists r merged, accepted output r merged) /\ w' = w1 \/
            keep = true /\ exists r merged y, accepted output r merged /\ persist merged w1 = (Raise y, w') /\ x = SOther y
        end
  end.
Proof.
  cbn zeta. unfold dispatch. pose proof (prepare_exact dumps parent id workflow request) as Hp.
  destruct (prepare dumps parent id workflow request) as [task|x]; [|by left]. destruct Hp as [Hd Hc].
  destruct (child_handle task w) as [[output|e] w1] eqn:Eh.
  2:{ destruct e; cbn [child_side rbind]; right; (split; [done|]); by eexists task, (Raise _), w1. }
  cbn [child_side rbind].
  pose proof (accept_exact loads str_of float_of_str schema_ok conforms child_id request ea ek output) as Ha.
  destruct (accept_output _ _ _ _ _ child_id request ea ek output) as [[r merged]|x]; cbn [rbind].
  2:{ right. split; [done|]. exists task, (Ok output), w1. split_and!; [done..|]. by left. }
  destruct keep; [destruct (admitted merged) as [|e es] eqn:Ea|].
  - split; [done|]. exists task, w1. cbn. by rewrite Ea.
  - destruct (persist merged w1) as [[ids|y] w'] eqn:Ek.
    + split; [done|]. exists task, w1. cbn. by rewrite Ea.
    + right. split; [done|]. exists task, (Ok output), w1. split_and!; [done..|]. right. split; [done|]. by exists r, merged, y.
  - split; [done|]. by exists task, w1.
Qed.

(** Delegating to a task agent spends the delegating agent's budget, within the
    request's: however the dispatch ends, the child has asked the model at most as
    often as the request's limit says (the child's own where it says none), each call
    billed to the parent as sub-agent work; and a request refused at the parent's side
    asked nothing. *)
Theorem delegated_work_billed {W M} (env : AgentEnv W M) schema_ok conforms parent child_id task_id workflow request ea ek keep
    (s : loop_state (W := W) (M := M)) :
  truthy parent = true ->
  let '(res, s') := dispatch (dumps env) (loads env) (str_of env) (float_of_str env) schema_ok conforms parent child_id (handle env)
                      keys_of_admitted task_id workflow request ea ek keep s in
  exists asked, calls s' = (calls s ++ asked)%list /\
    (Z.of_nat (length asked) <= Z.max 0 (or_default (Delegation.max_llm_calls (budget request)) (config_max_llm_calls env) DEFAULT_MAX_LLM_CALLS))%Z /\
    Forall (λ q, r_cause q = "CAUSE_SUB_AGENT" /\ r_agent q = parent /\
      r_max_tokens q = or_default (tokens (budget request)) (config_max_tokens env) DEFAULT_MAX_TOKENS) asked /\
    (validate_request request <> Ok tt -> asked = []).
Proof.
  intros Hp. unfold dispatch. destruct (prepare (dumps env) parent task_id workflow request) as [task|x] eqn:Ep.
  2:{ exists []. rewrite app_nil_r. split_and!; try done; cbn; lia. }
  pose proof (prepare_exact (dumps env) parent task_id workflow request) as Hprep. rewrite Ep in Hprep.
  destruct Hprep as ((Pv&_)&_&_&_&_&Pcalls&Ptok&_&_&Ppar).
  assert (forall out s1, handle env task s = (out, s1) -> exists asked, calls s1 = (calls s ++ asked)%list /\
    (Z.of_nat (length asked) <= Z.max 0 (or_default (Delegation.max_llm_calls (budget request)) (config_max_llm_calls env) DEFAULT_MAX_LLM_CALLS))%Z /\
    Forall (λ q, r_cause q = "CAUSE_SUB_AGENT" /\ r_agent q = parent /\
      r_max_tokens q = or_default (tokens (budget request)) (config_max_tokens env) DEFAULT_MAX_TOKENS) asked) as Hh.
  { intros out s1. unfold handle. destruct (system_prompt env) as [prompt|x].
    2:{ intros [= <- <-]. exists []. rewrite app_nil_r. split_and!; try done; cbn; lia. }
    destruct (_run_llm_loop env task prompt s) as [[o|x] s2] eqn:Er.
    - assert (accounted env task o s s2) as (asked&got&Hc&_&Hl&Hq&_) by (by eapply run_accounted).
      intros H. assert (s1 = s2) as -> by (destruct (dmem _ _); congruence).
      exists asked. split; [done|]. unfold call_limit in Hl. rewrite Pcalls in Hl. split; [done|].
      eapply Forall_impl; [exact Hq|]. intros q (Hmt&_&Hb). rewrite Ppar, Hp in Hb. destruct Hb as [Hb1 Hb2]. split_and!; [done|done|].
      rewrite Hmt. unfold token_limit. by rewrite Ptok.
    - intros [= <- <-]. exists []. rewrite app_nil_r. split; [|split; [cbn; lia|by apply Forall_nil]].
      unfold _run_llm_loop in Er. destruct (negb (has_client env)); [done|]. destruct (negb (has_model env)); [done|].
      destruct (_inject_memories env prompt task (world s)) as [[system|y] w]; [|by injection Er as <- <-].
      destruct (invalid_fields task); [|done]. by destruct (loop _ _ _ _ _). }
  destruct (handle env task s) as [out s1] eqn:Eh. destruct (Hh out s1 eq_refl) as (asked&H1&H2&H3).
  assert (forall p : result spawn_error SpawnResult * loop_state, p.2 = s1 -> let '(_, s') := p in exists asked, calls s' = (calls s ++ asked)%list /\
    (Z.of_nat (length asked) <= Z.max 0 (or_default (Delegation.max_llm_calls (budget request)) (config_max_llm_calls env) DEFAULT_MAX_LLM_CALLS))%Z /\
    Forall (λ q, r_cause q = "CAUSE_SUB_AGENT" /\ r_agent q = parent /\
      r_max_tokens q = or_default (tokens (budget request)) (config_max_tokens env) DEFAULT_MAX_TOKENS) asked /\
    (validate_request request <> Ok tt -> asked = [])) as Hend by (intros [res s'] Hs; cbn [snd] in Hs; subst s'; exists asked; split_and!; done).
  destruct (let! output := child_side out in _) as [[o [r merged]]|x]; [|exact (Hend (Raise x, s1) eq_refl)].
  destruct keep; [|exact (Hend (Ok (mkSpawn r merged o []), s1) eq_refl)].
  destruct (admitted merged) eqn:Ea; [exact (Hend (Ok (mkSpawn r merged o []), s1) eq_refl)|].
  exact (Hend (Ok (mkSpawn r merged o (map key (admitted merged))), s1) eq_refl).
Qed.

(** ** Examples *)

Definition demo_write (c : string) : MemoryWriteEntry := mkEntry "notes" "k" c (Fin (1 # 2)) None [] "replace" (Some "child").

(** A store whose second write meets a locked database. *)
Definition demo_call (n : nat) : EpisodeCall := mkEpisodeCall sample_ambient 30 None (match n with O => "id0" | S _ => "id1" end).
Definition demo_world : StoreWorld :=
  mkStoreWorld (set_failures [false; true; false] sample_db) 0.
Definition demo_float (x : pyfloat) : pyval := match x with Fin q => VFloat q | _ => VNone end.

Lemma persist_all_or_nothing_witness :
  exists x w', store_persist_admitted sample_memory "s" demo_call demo_float
      (mkOutcome [demo_write "good"; demo_write "bad"] [] []) demo_world = (Raise x, w') /\
    episodes (sw_db w') = episodes (sw_db demo_world).
Proof.
  pose proof (persist_all_or_nothing sample_memory "s" demo_call demo_float
    (mkOutcome [demo_write "good"; demo_write "bad"] [] []) demo_world) as H.
  destruct (store_persist_admitted _ _ _ _ _ _) as [[ids|x] w'] eqn:E; [vm_compute in E; discriminate|].
  exists x, w'. split; [reflexivity|]. destruct H as (batch&rest&stored&left&fs&_&_&_&_&Ht&_&_&Hone).
  rewrite Hone in Ht; [by rewrite app_nil_r in Ht| |by vm_compute]. vm_compute in E. by injection E as <- _.
Defined.

Definition demo_request (calls : Z) : DelegationRequest :=
  mkRequest "do it" [] [] (mkBudget 0 (Fin 0) calls) [] [] (Fin (8 # 10)) 20.

(** A child that answers a readable envelope with one memory write, and one that
    answers nothing. *)
Definition demo_data : pyval :=
  VDict [("summary", VStr "done"); ("status", VStr "completed");
         ("memory_writes", VList [VDict [("tier", VStr "notes"); ("key", VStr "k"); ("content", VStr "noted")]])].
Definition demo_output : TaskOutput := mkOutput COMPLETED "" [(DELEGATION_RESULT_KEY, VStr "envelope")].
Definition demo_child (readable : bool) (task : TaskInput) (n : nat) : result codec_error TaskOutput * nat :=
  (Ok (if readable then demo_output else mkOutput COMPLETED "" []), S n).
Definition demo_dispatch (readable : bool) : result spawn_error SpawnResult * nat :=
  dispatch (λ _, "{}") (λ s, if String.eqb s "envelope" then Ok demo_data else Raise "JSONDecodeError") (λ _, "") (λ _, None)
    (λ _, true) (λ _ _, true) "boss" "child" (demo_child readable) keys_of_admitted "t" None (demo_request 2) None [] true 0%nat.

Lemma dispatch_contract_witness :
  (exists sr task, demo_dispatch true = (Ok sr, 1%nat) /\ carries (λ _, "{}") "boss" "t" None (demo_request 2) task /\
    map Delegation.content (admitted (outcome sr)) = ["noted"] /\ admitted_entry_ids sr = ["k"]) /\
  (exists x, demo_dispatch false = (Raise x, 1%nat)).
Proof.
  pose proof (dispatch_contract (λ _, "{}") (λ s, if String.eqb s "envelope" then Ok demo_data else Raise "JSONDecodeError") (λ _, "") (λ _, None)
    (λ _, true) (λ _ _, true) "boss" "child" (demo_child true) keys_of_admitted "t" None (demo_request 2) None [] true 0%nat) as H.
  split; [|by eexists]. destruct (demo_dispatch true) as [[sr|x] n] eqn:E; [|by vm_compute in E].
  unfold demo_dispatch in E. cbn zeta in H. rewrite E in H.
  destruct H as (_&task&w1&Hc&_). exists sr, task. vm_compute in E. injection E as <- <-. by split_and!.
Defined.

Lemma delegated_work_billed_witness :
  exists res s', dispatch (dumps (demo_agent (demo_reply "done") no_json)) no_json (λ _, "") (λ _, None) (λ _, true) (λ _ _, true) "boss" "a"
      (handle (demo_agent (demo_reply "done") no_json)) keys_of_admitted "t" None (demo_request 2) None [] true demo_state = (res, s') /\
    exists asked, calls s' = asked /\ (length asked <= 2)%nat /\ Forall (λ q, r_agent q = "boss") asked.
Proof.
  pose proof (delegated_work_billed (demo_agent (demo_reply "done") no_json) (λ _, true) (λ _ _, true) "boss" "a" "t" None (demo_request 2) None [] true
    demo_state eq_refl) as H.
  change (str_of (demo_agent (demo_reply "done") no_json)) with (λ _ : pyval, "") in H.
  destruct (dispatch _ _ _ _ _ _ _ _ _ _ _ _ _ _ _ _ _) as [res s'] eqn:E in H.
  exists res, s'. split; [exact E|]. destruct H as (asked&Hc&Hl&Hq&_). exists asked. split; [exact Hc|].
  change (Z.of_nat (length asked) <= 2)%Z in Hl. split; [lia|]. eapply Forall_impl; [exact Hq|]. intros q (_&Ha&_). exact Ha.
Defined.
