(* ===== verification/EpisodeRecall.v ===== *)
(** * Recalling episodes

    Models [agents/memory/_fts5_query.py], [episodic_queries.py], [recall] and
    [reinforce] of [episodic.py], [episodic_room_ranked.py], [scope_recall.py] and
    [session_boost_expr] of [_session_filter.py]. What SQLite computes is a
    parameter: [bm25 m t r], the relevance of row [r] for the MATCH text [m] in table
    [t], [None] where it does not match; [ln]; and [dumps], the JSON text of a
    context. Rows of equal score keep the table's order. *)

From Stdlib Require Import Ascii Sorted.
From S2P Require Import Prelude PyStr PyText PyDict PyValue PyFloat PySort MemoryEvents Ambient RowScope Episodes.
Local Open Scope string_scope.
Local Open Scope py_scope.

(** ** [_fts5_query.py] *)

Definition FTS5_STOPWORDS : list string := words
"a about above after again against ain all am an and any are aren as at be
because been before being below between both but by can couldn d did didn do
does doesn doing don down during each few for from further had hadn has hasn
have haven having he her here hers herself him himself his how i if in into
is isn it its itself just ll m ma me mightn more most mustn my myself needn
no nor not now o of off on once only or other our ours ourselves out over own
re s same shan she should shouldn so some such t than that the their theirs
them themselves then there these they this those through to too under until
up ve very was wasn we were weren what when where which while who whom why
will with won wouldn y you your yours yourself yourselves".

Definition EPISODE_STRUCTURAL_WORDS : list string := words
"actions agent approval assigned at channel close complete completed confidence
count delegate deny do dm duplicate end event false gap governance grant group
id idle interaction joined left live mention message nothing null participant
payload pending pool reason request requested response room scope seconds send
sender source spawn structural sub summary task thread tick timestamp tool true
ttl turn turns type unavailable use user vote".

Definition MAX_MATCH_PHRASES : nat := 40.
Definition TICK_TEXT := "Autonomous tick: review your goals and decide on next actions.".

Definition in_run (c : ascii) : bool := is_word (code c).

Fixpoint trim_front (trimmed l : list string) : list string :=
  match l with
  | x :: l' => if bool_decide (x ∈ trimmed) then trim_front trimmed l' else l
  | [] => []
  end.
(** [while runs and runs[-1] in trimmed: runs.pop()] *)
Definition trim_end (trimmed l : list string) : list string := reverse (trim_front trimmed (reverse l)).

Definition single_character (rs : list string) : bool :=
  match rs with [r] => Nat.eqb (String.length r) 1 | _ => false end.

(** The phrase of one word, if it keeps one. *)
Definition word_phrase (trimmed : list string) (primary : bool) (word : string) : option string :=
  match trim_end trimmed (map lower (runs in_run word)) with
  | [] => None
  | rs => if primary && single_character rs then None else Some (join_str " " rs)
  end.

Definition _phrases (raw : string) (trimmed : list string) (primary : bool) : list string :=
  dkeys (fold_left (λ seen word, match word_phrase trimmed primary word with Some p => dset p tt seen | None => seen end)
           (words raw) []).

Definition quoted (p : string) : string := String (ascii_of_nat 34) (p +:+ String (ascii_of_nat 34) "").

Definition fts5_match_query (raw : string) (structural : list string) : option string :=
  if all_char (λ c, negb (in_run c)) raw then None
  else if String.eqb (strip raw) TICK_TEXT then Some ""
  else
    let phrases := match _phrases raw (FTS5_STOPWORDS ++ structural) true with
                   | [] => if Nat.eqb (length (words raw)) 1 then _phrases raw [] false else []
                   | ps => ps
                   end in
    Some (join_str " OR " (map quoted (take MAX_MATCH_PHRASES phrases))).

(** ** Scores *)

Definition ROOM_BOOST_FACTOR : Q := 2.

(** [session_boost_expr]: the factor of a row. *)
Definition session_boost (session_list : option (list string)) (column : string) : Q :=
  match session_list with
  | None | Some [] => 1
  | Some ids => if bool_decide (column ∈ ids) then ROOM_BOOST_FACTOR else 1
  end.

(** A candidate with its sort key; a [NULL] key comes last. *)
Definition best_first (a b : option Q * Episode) : bool :=
  match a.1, b.1 with
  | Some x, Some y => Qle_bool y x
  | _, None => true
  | None, Some _ => false
  end.
Definition ranked (l : list (option Q * Episode)) : list Episode := map snd (py_sorted best_first l).

(** Either the wall or the boost. *)
Definition _reject_wall_and_boost (sessions boost_sessions : option (list string)) : bool :=
  match sessions, boost_sessions with Some _, Some (_ :: _) => true | _, _ => false end.

Definition resolve_min_score (min_score : option Q) : Q := default 0 min_score.

(** [summary LIKE '%...%']: the characters [LIKE] gives a meaning are escaped, and it
    folds ASCII case. *)
Definition like_fold (c : ascii) : ascii :=
  let n := code c in if ((65 <=? n) && (n <=? 90))%N then ascii_of_N (n + 32) else c.
Fixpoint like_text (s : string) : string :=
  match s with EmptyString => EmptyString | String c s => String (like_fold c) (like_text s) end.
Definition like_hit (query text : string) : bool := occurs (like_text query) (like_text text).

Section recall.
Context (ln : Q -> Q) (bm25 : string -> list EpisodeRow -> EpisodeRow -> option Q) (dumps : pyval -> string).

(** [_SCORE_EXPR]; a division by zero is [NULL]. *)
Definition score_expr (now : Q) (e : Episode) : option Q :=
  let d := (1 + (now - ep_created_at e) / 86400)%Q in
  if Qeq_bool d 0 then None
  else Some (((1 # 10) + ep_importance e * (9 # 10)) * (1 + ln (1 + inject_Z (ep_access_count e))) * (1 / d))%Q.

(** ** [episodic_queries.py] *)

(** What the three queries share: whose rows, which and how many. *)
Record recall_args := mkRecall {
  ra_agent : string; ra_limit : Z; ra_min_importance : Q; ra_sessions : option (list string);
  ra_boost : option (list string); ra_principal : string; ra_epoch : string }.

(** The [WHERE] clauses the three queries share. *)
Definition visible (q : recall_args) (r : EpisodeRow) : bool :=
  let e := row_to_episode r in
  owned (ra_agent q) e && Qle_bool (ra_min_importance q) (ep_importance e) &&
  session_in (ra_sessions q) (ep_session_id e) && principal_eq (ra_principal q) (row_principal r) &&
  epoch_eq (ra_epoch q) (row_epoch r).

Definition boosted (q : recall_args) (now relevance : Q) (e : Episode) : option Q :=
  (λ s, (relevance * s * session_boost (ra_boost q) (ep_session_id e))%Q) <$> score_expr now e.

Definition select (q : recall_args) (l : list (option Q * Episode)) : list Episode := take (Z.to_nat (ra_limit q)) (ranked l).

Definition recall_recency (q : recall_args) (now : Q) (db : EpisodeDb) : result string (list Episode) * EpisodeDb :=
  if _reject_wall_and_boost (ra_sessions q) (ra_boost q) then (Raise "ValueError", db)
  else sql (λ db, (select q (map (λ r, (boosted q now 1 (row_to_episode r), row_to_episode r))
                               (List.filter (visible q) (episodes db))), db)) db.

Definition recall_like (q : recall_args) (query : string) (now : Q) (db : EpisodeDb) : result string (list Episode) * EpisodeDb :=
  if _reject_wall_and_boost (ra_sessions q) (ra_boost q) then (Raise "ValueError", db)
  else
    let hit r := let e := row_to_episode r in
      visible q r && (like_hit query (ep_summary e) || like_hit query (dumps (VDict (ep_context e)))) in
    sql (λ db, (select q (map (λ r, (boosted q now 1 (row_to_episode r), row_to_episode r))
                            (List.filter hit (episodes db))), db)) db.

(** The candidates of a search, each with its relevance. *)
Definition fts_candidates (q : recall_args) (m : string) (t : list EpisodeRow) : list (Q * Episode) :=
  omap (λ r, if visible q r then (λ x, (x, row_to_episode r)) <$> bm25 m t r else None) t.

Definition best_of (l : list Q) : option Q := match l with [] => None | x :: xs => Some (qmax x xs) end.

(** [_floor_bar_expr]: the best relevance rows are measured against. *)
Definition floor_bar (levels : option (list string)) (cs : list (Q * Episode)) : option Q :=
  let every := best_of (map fst cs) in
  match levels with
  | None => every
  | Some ls =>
      match best_of (map fst (List.filter (λ c, bool_decide (ep_protection_level c.2 ∈ ls)) cs)) with
      | Some b => Some b
      | None => every
      end
  end.

Definition over_floor (min_score : option Q) (levels : option (list string)) (cs : list (Q * Episode)) : list (Q * Episode) :=
  match floor_bar levels cs with
  | None => []
  | Some best => List.filter (λ c, Qle_bool (resolve_min_score min_score * best) c.1) cs
  end.

Definition recall_fts5 (q : recall_args) (query : string) (min_score : option Q) (levels : option (list string)) (now : Q)
    (db : EpisodeDb) : result string (list Episode) * EpisodeDb :=
  if _reject_wall_and_boost (ra_sessions q) (ra_boost q) then (Raise "ValueError", db)
  else
    match fts5_match_query query EPISODE_STRUCTURAL_WORDS with
    | None => recall_recency q now db
    | Some m =>
        if negb (truthy m) then (Ok [], db)
        else
          match sql (λ db, (select q (map (λ c, (boosted q now c.1 c.2, c.2))
                                       (over_floor min_score levels (fts_candidates q m (episodes db)))), db)) db with
          | (Ok es, db) => (Ok es, db)
          | (Raise _, db) => recall_like q query now db
          end
    end.

Definition relevance_by_id (query : string) (ids : list string) (db : EpisodeDb) : result string (list (string * Q)) * EpisodeDb :=
  match fts5_match_query query EPISODE_STRUCTURAL_WORDS, ids with
  | Some m, _ :: _ =>
      if negb (truthy m) then (Ok [], db)
      else sql (λ db, (omap (λ r, let id := ep_id (row_to_episode r) in
                              if bool_decide (id ∈ ids) then (λ x, (id, x)) <$> bm25 m (episodes db) r else None)
                         (episodes db), db)) db
  | _, _ => (Ok [], db)
  end.

(** ** [episodic.py] and [episodic_room_ranked.py] *)

Definition reinforce (em : EpisodicMemory) (ids : list string) (now : Q) (db : EpisodeDb) : result string unit * EpisodeDb :=
  match reinforce_episodes (em_agent em) ids now db with
  | (Ok _, db) => (Ok tt, db)
  | (Raise x, db) => (Raise x, db)
  end.

Definition not_pending (e : Episode) : bool := negb (String.eqb (ep_summary e) SUMMARY_PENDING_TEXT).

(** Which of the three queries runs. *)
Definition run_query (em : EpisodicMemory) (q : recall_args) (query : string) (min_score : option Q)
    (levels : option (list string)) (now : Q) : EpisodeDb -> result string (list Episode) * EpisodeDb :=
  if truthy query then
    if has_fts5 em then recall_fts5 q query min_score levels now else recall_like q query now
  else recall_recency q now.

(** Pending rows go, and each returned row counts a use. *)
Definition used (em : EpisodicMemory) (count_use : bool) (now : Q) (es : list Episode) (db : EpisodeDb) :
    result string (list Episode) * EpisodeDb :=
  let es := List.filter not_pending es in
  if count_use then
    match reinforce_episodes (em_agent em) (map ep_id es) now db with
    | (Ok now, db) => (Ok (map (bump_access now) es), db)
    | (Raise x, db) => (Raise x, db)
    end
  else (Ok es, db).

Definition bad_score (min_score : option Q) : bool :=
  match min_score with Some m => negb (Qle_bool 0 m && Qle_bool m 1) | None => false end.

Definition recall_with (em : EpisodicMemory) (c : EpisodeCall) (query : string) (limit : Z) (min_importance : Q)
    (min_score : option Q) (levels : option (list string)) (count_use : bool)
    (rooms : result string (option (list string) * option (list string))) (db : EpisodeDb) :
    result string (list Episode) * EpisodeDb :=
  if (limit <? 1)%Z then (Raise "ValueError", db)
  else if bad_score min_score then (Raise "ValueError", db)
  else
    match rooms with
    | Raise x => (Raise x, db)
    | Ok (sessions, boost) =>
        let q := mkRecall (em_agent em) (Z.min limit MAX_RECALL_LIMIT) min_importance sessions boost
                   (resolve_active_principal (ec_amb c) (active_principal_id (em_scope em)))
                   (resolve_active_epoch (ec_amb c) (active_epoch_id (em_scope em))) in
        match run_query em q query min_score levels (ec_now c) db with
        | (Raise x, db) => (Raise x, db)
        | (Ok es, db) => used em count_use (ec_now c) es db
        end
    end.

(** The room list as a wall. *)
Definition recall (em : EpisodicMemory) (c : EpisodeCall) (query : string) (limit : Z) (min_importance : Q)
    (min_score : option Q) (sessions : sessions_arg) (levels : option (list string)) :=
  recall_with em c query limit min_importance min_score levels true
    (let! ids := resolve_session_list (ec_amb c) sessions (active_session_id (em_scope em)) in Ok (ids, None)).

(** The room list as a boost. *)
Definition recall_room_ranked (em : EpisodicMemory) (c : EpisodeCall) (query : string) (limit : Z) (min_importance : Q)
    (min_score : option Q) (count_use : bool) (levels : option (list string)) :=
  recall_with em c query limit min_importance min_score levels count_use
    (let! ids := resolve_session_list (ec_amb c) SessDefault (active_session_id (em_scope em)) in Ok (None, ids)).

(** ** [scope_recall.py] *)

Definition TAG_SCOPE_OVERFETCH_FACTOR : Z := 3.

Definition entry_scope (e : Episode) : option pyval :=
  match ep_scope e with Some s => Some (VStr s) | None => dget "scope" (ep_context e) end.

Definition scope_tags_keep (scope : option string) (tags : list string) (e : Episode) : bool :=
  forallb (λ t, bool_decide (t ∈ ep_tags e)) tags &&
  match scope with
  | None => true
  | Some s => match entry_scope e with Some v => v_eq_str v s | None => false end
  end.

Definition recall_with_scope_filter (em : EpisodicMemory) (c : EpisodeCall) (query : string) (limit : Z)
    (scope : option string) (tags : list string) (min_score : option Q) (sessions : sessions_arg) (db : EpisodeDb) :
    result string (list Episode) * EpisodeDb :=
  let filtered := match tags with [] => false | _ => true end || bool_decide (is_Some scope) in
  let recall_limit := if filtered then (limit * TAG_SCOPE_OVERFETCH_FACTOR)%Z else limit in
  match recall em c query recall_limit 0 (if filtered then None else min_score) sessions None db with
  | (Raise x, db) => (Raise x, db)
  | (Ok es, db) =>
      let out := List.filter (scope_tags_keep scope tags) es in
      let floor_after := filtered && negb (Qeq_bool (resolve_min_score min_score) 0) && truthy query && has_fts5 em in
      match out with
      | _ :: _ =>
          if floor_after then
            match relevance_by_id query (map ep_id out) db with
            | (Raise x, db) => (Raise x, db)
            | (Ok relevance, db) =>
                let best := default 0 (best_of (map snd relevance)) in
                (Ok (take (Z.to_nat limit)
                       (List.filter (λ e, Qle_bool (resolve_min_score min_score * best) (default 0 (dget (ep_id e) relevance))) out)), db)
            end
          else (Ok (take (Z.to_nat limit) out), db)
      | [] => (Ok [], db)
      end
  end.
End recall.

(** * What recall can return

    Every query of the episodic tier stays inside the tenant and the epoch of its
    call, counts a use of what it returns and of nothing else, and sends the
    full-text engine a text no message can inject syntax into. *)

(** ** The MATCH text *)

Definition phrase_char (c : ascii) : bool := in_run c || Ascii.eqb c " "%char.

Lemma in_run_lower c : in_run c = true -> in_run (lower_char c) = true.
Proof. destruct c as [[][][][][][][][]]; by vm_compute. Qed.

Lemma all_char_lower s : all_char in_run s = true -> all_char in_run (lower s) = true.
Proof.
  induction s as [|c s IH]; [done|]. cbn [all_char lower]. intros [Hc Hs]%andb_true_iff.
  by rewrite in_run_lower, IH.
Qed.

Lemma all_char_impl (p q : ascii -> bool) s : (forall c, p c = true -> q c = true) -> all_char p s = true -> all_char q s = true.
Proof. intros H. induction s as [|c s IH]; [done|]. cbn [all_char]. intros [Hc Hs]%andb_true_iff. by rewrite H, IH. Qed.

Lemma trim_front_incl ts l x : x ∈ trim_front ts l -> x ∈ l.
Proof. induction l as [|y l IH]; [done|]. cbn [trim_front]. case_bool_decide; [|done]. intros Hx. right. by apply IH. Qed.

Lemma join_phrase rs : (forall r, r ∈ rs -> all_char in_run r = true /\ r <> "") -> rs <> [] ->
  all_char phrase_char (join_str " " rs) = true /\ join_str " " rs <> "".
Proof.
  induction rs as [|r rs IH]; intros Hr Hne; [done|]. destruct (Hr r) as [Hc Hr0]; [left|].
  assert (all_char phrase_char r = true) as Hp.
  { eapply all_char_impl; [|exact Hc]. intros c Hc'. unfold phrase_char. by rewrite Hc'. }
  destruct rs as [|r' rs]; [done|]. cbn [join_str]. destruct IH as [IH _]; [intros x Hx; apply Hr; by right|done|].
  change (join_str " " (r' :: rs)) with (match rs with [] => r' | _ :: _ => r' +:+ " " +:+ join_str " " rs end) in IH.
  split; [by rewrite !all_char_app, Hp, IH|]. by destruct r.
Qed.

Lemma word_phrase_inert ts primary w p : word_phrase ts primary w = Some p -> all_char phrase_char p = true /\ p <> "".
Proof.
  unfold word_phrase. intros H. set (rs := trim_end _ _) in H.
  assert (forall r, r ∈ rs -> all_char in_run r = true /\ r <> "") as Hr.
  { intros r Hr. unfold rs, trim_end in Hr. rewrite elem_of_reverse in Hr. apply trim_front_incl in Hr.
    rewrite elem_of_reverse in Hr. apply list_elem_of_fmap in Hr as (x&->&Hx). apply runs_keep in Hx as [Hx Hx0].
    split; [by apply all_char_lower|]. by destruct x. }
  destruct rs as [|r rs0] eqn:E; [done|]. destruct (primary && _); [done|]. injection H as <-. by apply (join_phrase (r :: rs0)).
Qed.

(** The phrases: distinct, non-empty, of letters, digits and spaces. *)
Lemma phrases_inert raw ts primary :
  NoDup (_phrases raw ts primary) /\ Forall (λ p, all_char phrase_char p = true /\ p <> "") (_phrases raw ts primary).
Proof.
  unfold _phrases. set (f := λ _ _, _).
  assert (forall ws seen, dwf seen -> Forall (λ p, all_char phrase_char p = true /\ p <> "") (dkeys seen) ->
    dwf (fold_left f ws seen) /\ Forall (λ p, all_char phrase_char p = true /\ p <> "") (dkeys (fold_left f ws seen))) as H.
  { induction ws as [|w ws IH]; intros seen Hd Hs; [done|]. cbn [fold_left]. apply IH; unfold f;
      destruct (word_phrase ts primary w) as [p|] eqn:E; try done; [by apply dwf_dset|].
    apply word_phrase_inert in E. destruct (dget p seen) as [[]|] eqn:Eg; [by rewrite dset_same|].
    rewrite dset_fresh by done. unfold dkeys. rewrite map_app. apply Forall_app. split; [done|]. by apply Forall_singleton. }
  apply H; [apply NoDup_nil_2|constructor].
Qed.

Lemma no_run_char raw : all_char (λ c, negb (in_run c)) raw = false <-> exists a c b, raw = a +:+ String c b /\ in_run c = true.
Proof.
  induction raw as [|c raw IH]; cbn [all_char].
  - split; [done|]. by intros ([]&?&?&[=]&_).
  - rewrite andb_false_iff, negb_false_iff, IH. split.
    + intros [Hc|(a&d&b&->&Hd)]; [by exists "", c, raw|]. by exists (String c a), d, b.
    + intros ([|d a]&e&b&[= -> ->]&He); [by left|]. right. eauto.
Qed.

(** C40. No message can speak to the full-text engine: whatever the text, what is sent
    is a list of at most forty distinct phrases, each in quotes and made of letters,
    digits and spaces only, joined with OR, so that no quote, operator or other
    syntax of the message gets through. No text is sent exactly when the message
    holds no letter or digit, and the standing sentence of a tick searches nothing. *)
Theorem match_text_inert raw structural :
  match fts5_match_query raw structural with
  | None => ~ exists a c b, raw = a +:+ String c b /\ in_run c = true
  | Some m =>
      (exists a c b, raw = a +:+ String c b /\ in_run c = true) /\
      (strip raw = TICK_TEXT -> m = "") /\
      exists ps, m = join_str " OR " (map quoted ps) /\ (length ps <= MAX_MATCH_PHRASES)%nat /\ NoDup ps /\
        Forall (λ p, all_char phrase_char p = true /\ p <> "") ps
  end.
Proof.
  unfold fts5_match_query. destruct (all_char (λ c, negb (in_run c)) raw) eqn:E.
  - intros H%no_run_char. congruence.
  - apply no_run_char in E. destruct (String.eqb_spec (strip raw) TICK_TEXT) as [Ht|Ht].
    { split; [done|]. split; [done|]. exists []. split; [done|]. split; [cbn; lia|]. split; constructor. }
    split; [done|]. split; [done|].
    set (ps := match _ with [] => _ | ps => ps end). exists (take MAX_MATCH_PHRASES ps). split; [done|].
    assert (NoDup ps /\ Forall (λ p, all_char phrase_char p = true /\ p <> "") ps) as [Hd Hf].
    { unfold ps. pose proof (phrases_inert raw (FTS5_STOPWORDS ++ structural) true) as H1.
      destruct (_phrases raw _ true); [|done]. destruct (Nat.eqb _ _); [apply phrases_inert|]. split; constructor. }
    split; [rewrite length_take; lia|]. split; [eapply sublist_NoDup; [done|apply sublist_take]|].
    by apply Forall_take.
Qed.

(** ** Reading *)

Lemma sql_read {A} (g : list EpisodeRow -> A) db :
  let '(r, db') := sql (λ db, (g (episodes db), db)) db in
  episodes db' = episodes db /\ (r = Ok (g (episodes db)) \/ exists x, r = Raise x).
Proof. unfold sql. destruct (failures db) as [|[] fs]; eauto. Qed.

Lemma best_first_total a b : best_first a b = false -> best_first b a = true.
Proof. unfold best_first. destruct a.1, b.1; try done. intros H%Qle_bool_false. apply Qle_bool_iff. lra. Qed.

Lemma best_first_trans a b c : best_first a b = true -> best_first b c = true -> best_first a c = true.
Proof. unfold best_first. destruct a.1, b.1, c.1; try done. rewrite !Qle_bool_iff; lra. Qed.

Section recall_props.
Context (ln : Q -> Q) (bm25 : string -> list EpisodeRow -> EpisodeRow -> option Q) (dumps : pyval -> string).

(** What a query may answer: at most the limit of rows its walls let through. *)
Definition walled (q : recall_args) (t : list EpisodeRow) (es : list Episode) : Prop :=
  (Z.of_nat (length es) <= Z.max 0 (ra_limit q))%Z /\ forall e, e ∈ es -> exists r, r ∈ t /\ visible q r = true /\ row_to_episode r = e.

Lemma elem_of_ranked x l : x ∈ ranked l <-> exists k, (k, x) ∈ l.
Proof.
  unfold ranked. rewrite list_elem_of_fmap. split.
  - intros ([k y]&->&Hy). rewrite elem_of_py_sorted in Hy. eauto.
  - intros (k&Hk). exists (k, x). split; [done|]. by rewrite elem_of_py_sorted.
Qed.

Lemma select_walled q t l : (forall k e, (k, e) ∈ l -> exists r, r ∈ t /\ visible q r = true /\ row_to_episode r = e) ->
  walled q t (select q l).
Proof.
  intros H. unfold walled, select. split.
  - rewrite length_take. lia.
  - intros e (i&Hi&_)%elem_of_take. apply list_elem_of_lookup_2, elem_of_ranked in Hi as (k&Hk). eauto.
Qed.

Lemma select_rows_walled q t (key : Episode -> option Q) (p : EpisodeRow -> bool) :
  (forall r, p r = true -> visible q r = true) ->
  walled q t (select q (map (λ r, (key (row_to_episode r), row_to_episode r)) (List.filter p t))).
Proof.
  intros Hp. apply select_walled. intros k e (r&[= -> ->]&Hr)%list_elem_of_fmap.
  apply list_elem_of_In, filter_In in Hr as [Hr Hv]. exists r. split; [by apply list_elem_of_In|]. auto.
Qed.

Lemma walled_nil q t : walled q t [].
Proof. split; [cbn; lia|]. by intros e He%not_elem_of_nil. Qed.

Lemma recency_walled q now db :
  let '(r, db') := recall_recency ln q now db in
  episodes db' = episodes db /\ match r with Ok es => walled q (episodes db) es | Raise _ => True end.
Proof.
  unfold recall_recency. destruct (_reject_wall_and_boost _ _); [done|].
  pose proof (sql_read (λ t, select q (map (λ r, (boosted ln q now 1 (row_to_episode r), row_to_episode r)) (List.filter (visible q) t))) db) as H.
  cbn beta in H. destruct (sql _ db) as [r db']. destruct H as [E [->|[x ->]]]; [|done].
  split; [done|]. by apply (select_rows_walled q (episodes db) (boosted ln q now 1)).
Qed.

Lemma like_walled q query now db :
  let '(r, db') := recall_like ln dumps q query now db in
  episodes db' = episodes db /\ match r with Ok es => walled q (episodes db) es | Raise _ => True end.
Proof.
  unfold recall_like. destruct (_reject_wall_and_boost _ _); [done|]. cbv zeta.
  set (hit := λ r, visible q r && _).
  pose proof (sql_read (λ t, select q (map (λ r, (boosted ln q now 1 (row_to_episode r), row_to_episode r)) (List.filter hit t))) db) as H.
  cbn beta in H. destruct (sql _ db) as [r db']. destruct H as [E [->|[x ->]]]; [|done].
  split; [done|]. apply (select_rows_walled q (episodes db) (boosted ln q now 1)).
  intros r [Hr _]%andb_true_iff. done.
Qed.

Lemma candidates_visible q m t x e : (x, e) ∈ fts_candidates bm25 q m t -> exists r, r ∈ t /\ visible q r = true /\ row_to_episode r = e.
Proof.
  unfold fts_candidates. intros (r&Hr&H)%list_elem_of_omap. destruct (visible q r) eqn:Ev; [|done].
  destruct (bm25 m t r); [|done]. cbn in H. injection H as <- <-. eauto.
Qed.

Lemma over_floor_incl m levels cs c : c ∈ over_floor m levels cs -> c ∈ cs.
Proof.
  unfold over_floor. destruct (floor_bar levels cs); [|by intros H%not_elem_of_nil].
  intros H%list_elem_of_In. apply filter_In in H as [H _]. by apply list_elem_of_In.
Qed.

Lemma fts5_walled q query m levels now db :
  let '(r, db') := recall_fts5 ln bm25 dumps q query m levels now db in
  episodes db' = episodes db /\ match r with Ok es => walled q (episodes db) es | Raise _ => True end.
Proof.
  unfold recall_fts5. destruct (_reject_wall_and_boost _ _); [done|].
  destruct (fts5_match_query query EPISODE_STRUCTURAL_WORDS) as [t|]; [|apply recency_walled].
  destruct (negb (truthy t)); [split; [done|apply walled_nil]|].
  pose proof (sql_read (λ rs, select q (map (λ c, (boosted ln q now c.1 c.2, c.2)) (over_floor m levels (fts_candidates bm25 q t rs)))) db) as H.
  cbn beta in H. destruct (sql _ db) as [r db']. destruct H as [E [->|[x ->]]].
  - split; [done|]. apply select_walled. intros k e ([y e']&[= -> ->]&Hc)%list_elem_of_fmap.
    apply over_floor_incl in Hc. by eapply candidates_visible.
  - pose proof (like_walled q query now db') as H. destruct (recall_like _ _ _ _ _ _) as [r db2]. by rewrite E in H.
Qed.

Lemma run_query_walled em q query m levels now db :
  let '(r, db') := run_query ln bm25 dumps em q query m levels now db in
  episodes db' = episodes db /\ match r with Ok es => walled q (episodes db) es | Raise _ => True end.
Proof.
  unfold run_query. destruct (truthy query); [destruct (has_fts5 em)|];
    [apply fts5_walled|apply like_walled|apply recency_walled].
Qed.

(** The query a call stands for. *)
Definition query_of (em : EpisodicMemory) (c : EpisodeCall) (limit : Z) (min_importance : Q)
    (rooms : option (list string) * option (list string)) : recall_args :=
  mkRecall (em_agent em) (Z.min limit MAX_RECALL_LIMIT) min_importance rooms.1 rooms.2
    (resolve_active_principal (ec_amb c) (active_principal_id (em_scope em)))
    (resolve_active_epoch (ec_amb c) (active_epoch_id (em_scope em))).

Lemma recall_with_walled em c query limit mi m levels count_use rooms db :
  match recall_with ln bm25 dumps em c query limit mi m levels count_use rooms db with
  | (Raise _, db') => table db' = table db
  | (Ok es, db') =>
      exists rs found, rooms = Ok rs /\ walled (query_of em c limit mi rs) (episodes db) found /\
        (count_use = true /\ es = map (bump_access (ec_now c)) (List.filter not_pending found) \/
         count_use = false /\ es = List.filter not_pending found) /\
        table db' = table_update (λ e, count_use && owned (em_agent em) e && bool_decide (ep_id e ∈ map ep_id es))
                      (bump_access (ec_now c)) (table db)
  end.
Proof.
  assert (forall es db', table db' = table db -> table db' =
    table_update (λ e, false && owned (em_agent em) e && bool_decide (ep_id e ∈ map ep_id es)) (bump_access (ec_now c)) (table db)) as Hno.
  { intros es db' ->. unfold table_update. cbn [andb]. by rewrite map_id. }
  unfold recall_with. destruct (limit <? 1)%Z; [done|]. destruct (bad_score m); [done|].
  destruct rooms as [[s b]|x]; [|done]. fold (query_of em c limit mi (s, b)).
  pose proof (run_query_walled em (query_of em c limit mi (s, b)) query m levels (ec_now c) db) as H.
  destruct (run_query _ _ _ _ _ _ _ _ _ db) as [[found|x] db1]; destruct H as [E Hw]; [|by unfold table; rewrite E].
  unfold used. assert (table db1 = table db) as Et by (unfold table; by rewrite E).
  destruct count_use; [|exists (s, b), found; split; [done|]; split; [done|]; split; [by right|by apply Hno]].
  unfold reinforce_episodes. destruct (map ep_id (List.filter not_pending found)) as [|i ids] eqn:Ei.
  - exists (s, b), found. split; [done|]. split; [done|]. split; [by left|].
    apply map_eq_nil in Ei. rewrite Ei. rewrite Et. unfold table_update. cbn [map].
    symmetry. rewrite <- (map_id (table db)) at 2. apply map_ext. intros e.
    rewrite bool_decide_false by (by intros ?%not_elem_of_nil). by rewrite andb_false_r.
  - destruct (sql_cases (update_where (λ e, owned (em_agent em) e && bool_decide (ep_id e ∈ i :: ids)) (bump_access (ec_now c))) db1) as [(x&Ex&Ht)|(db0&Ht&Ex)].
    + destruct (sql _ db1) as [r db2]. cbn [fst snd] in *. subst r. by rewrite Ht.
    + rewrite Ex. exists (s, b), found. split; [done|]. split; [done|]. split; [by left|].
      assert (map ep_id (map (bump_access (ec_now c)) (List.filter not_pending found)) = i :: ids) as -> by (rewrite map_map; exact Ei).
      by rewrite table_update_where, Ht, Et.
Qed.
End recall_props.

(** What a call may read: finalised rows of its agent, tenant, epoch and rooms. *)
Definition allowed (em : EpisodicMemory) (c : EpisodeCall) (min_importance : Q) (rooms : option (list string)) (r : EpisodeRow) : Prop :=
  let e := row_to_episode r in
  ep_agent_id e = em_agent em
  /\ row_principal r = str_or (opt_str (active_principal (ec_amb c))) (active_principal_id (em_scope em))
  /\ row_epoch r = str_or (opt_str (active_epoch (ec_amb c))) (active_epoch_id (em_scope em))
  /\ (min_importance <= ep_importance e)%Q /\ ep_summary e <> SUMMARY_PENDING_TEXT
  /\ match rooms with Some ids => ep_session_id e ∈ ids | None => True end.

Lemma visible_allowed em c limit mi rooms boost r :
  visible (query_of em c limit mi (rooms, boost)) r = true -> not_pending (row_to_episode r) = true -> allowed em c mi rooms r.
Proof.
  unfold visible, query_of, not_pending, owned, session_in, principal_eq, epoch_eq. cbn.
  rewrite !andb_true_iff, !String.eqb_eq, negb_true_iff, String.eqb_neq, Qle_bool_iff.
  intros ((((Ha & Hi) & Hs) & Hp) & He) Hn. split; [done|]. split; [done|]. split; [done|]. split; [done|]. split; [done|].
  destruct rooms; [by apply bool_decide_eq_true in Hs|done].
Qed.

(** C17. Recall stays inside its walls and only counts what it returns. Whatever the
    query, the full-text engine's ranking, the failures and the fallbacks, a walled
    recall answers at most the limit of episodes that are the agent's own, of the
    call's tenant and epoch, of one of the rooms the call may see, important enough
    and summarised; a room-ranked one the same without the room wall. Each returned
    row has one more use than before and no other row of the table changes; a read
    that does not count, and one that raises, leave the table as it was. *)
Theorem recall_walled ln bm25 dumps em c query limit mi m sessions levels count_use db :
  (match recall ln bm25 dumps em c query limit mi m sessions levels db with
   | (Raise _, db') => table db' = table db
   | (Ok es, db') =>
       exists rooms, resolve_session_list (ec_amb c) sessions (active_session_id (em_scope em)) = Ok rooms /\
       (Z.of_nat (length es) <= Z.max 0 (Z.min limit MAX_RECALL_LIMIT))%Z /\
       (forall e, e ∈ es -> exists r, r ∈ episodes db /\ allowed em c mi rooms r /\ e = bump_access (ec_now c) (row_to_episode r)) /\
       table db' = table_update (λ e, owned (em_agent em) e && bool_decide (ep_id e ∈ map ep_id es)) (bump_access (ec_now c)) (table db)
   end) /\
  (match recall_room_ranked ln bm25 dumps em c query limit mi m count_use levels db with
   | (Raise _, db') => table db' = table db
   | (Ok es, db') =>
       (Z.of_nat (length es) <= Z.max 0 (Z.min limit MAX_RECALL_LIMIT))%Z /\
       (forall e, e ∈ es -> exists r, r ∈ episodes db /\ allowed em c mi None r /\
          e = if count_use then bump_access (ec_now c) (row_to_episode r) else row_to_episode r) /\
       (count_use = false -> table db' = table db)
   end).
Proof.
  assert (forall (q : recall_args) t es, walled q t es -> forall e, e ∈ List.filter not_pending es ->
            exists r, r ∈ t /\ visible q r = true /\ not_pending (row_to_episode r) = true /\ e = row_to_episode r) as Hin.
  { intros q t es [_ H] e He%list_elem_of_In. apply filter_In in He as [He Hn]. apply list_elem_of_In in He.
    destruct (H e He) as (r&?&?&<-). eauto. }
  assert (forall (q : recall_args) t es, walled q t es -> (Z.of_nat (length (List.filter not_pending es)) <= Z.max 0 (ra_limit q))%Z) as Hlen.
  { intros q t es [H _]. pose proof (filter_length_le not_pending es). lia. }
  split.
  - unfold recall. pose proof (recall_with_walled ln bm25 dumps em c query limit mi m levels true
      (let! ids := resolve_session_list (ec_amb c) sessions (active_session_id (em_scope em)) in Ok (ids, None)) db) as H.
    destruct (recall_with _ _ _ _ _ _ _ _ _ _ _ _ db) as [[es|x] db']; [|done].
    destruct H as (rs&found&Er&Hw&[[_ Ees]|[Hd _]]&Ht); [|done]. apply rbind_Ok in Er as (ids&Eids&[= <-]).
    exists ids. split; [done|]. split; [|split; [|by rewrite Ht]].
    + rewrite Ees, length_map. by apply (Hlen _ _ _ Hw).
    + rewrite Ees. intros e (e0&->&He0)%list_elem_of_fmap. destruct (Hin _ _ _ Hw e0 He0) as (r&?&?&?&->).
      eauto 10 using visible_allowed.
  - unfold recall_room_ranked. pose proof (recall_with_walled ln bm25 dumps em c query limit mi m levels count_use
      (let! ids := resolve_session_list (ec_amb c) SessDefault (active_session_id (em_scope em)) in Ok (None, ids)) db) as H.
    destruct (recall_with _ _ _ _ _ _ _ _ _ _ _ _ db) as [[es|x] db']; [|done].
    destruct H as (rs&found&Er&Hw&Ees&Ht). apply rbind_Ok in Er as (ids&Eids&[= <-]).
    destruct (resolve_session_list_default (ec_amb c) (active_session_id (em_scope em)) "") as (rooms&Er&_).
    rewrite Er in Eids. injection Eids as <-. split; [|split].
    + destruct Ees as [[_ ->]|[_ ->]]; rewrite ?length_map; by apply (Hlen _ _ _ Hw).
    + intros e He. destruct Ees as [[-> ->]|[-> ->]].
      * apply list_elem_of_fmap in He as (e0&->&He0). destruct (Hin _ _ _ Hw e0 He0) as (r&?&?&?&->). eauto 10 using visible_allowed.
      * destruct (Hin _ _ _ Hw e He) as (r&?&?&?&->). eauto 10 using visible_allowed.
    + intros ->. rewrite Ht. unfold table_update. cbn [andb]. by rewrite map_id.
Qed.
