(* ===== verification/TurnIngest.v ===== *)
(** * What a turn carries, and when it ends a record

    Models [agents/persona_runtime/turn_payload.py], [close_entries.py],
    [interaction_boundary.py] and [record_write_scope.py]: the payload a turn leaves
    on a record, the fields it freezes when it opens one, the turns a closed record
    is derived from, the boundaries an event draws through a scope, and the axes a
    record's rows are written under. [str_of] is [str()] of a number or a
    container. *)

From Stdlib Require Import Ascii.
From stdpp Require Import pretty.
From S2P Require Import Prelude PyStr PyText PyDict PyValue Ambient Scopes Interactions Tracker PersonaEvents Classification Cascade ChannelIngress Episodes.
Local Open Scope string_scope.

(** [EventType(...).value], [ActionType(...).value] *)
Definition event_type_value (t : EventType) : string :=
  match t with
  | TASK_ASSIGNED => "task_assigned" | CHANNEL_MESSAGE => "channel_message" | MENTION => "mention"
  | SUB_AGENT_COMPLETED => "sub_agent_completed" | APPROVAL_REQUESTED => "approval_requested"
  | APPROVAL_RESPONSE => "approval_response" | TICK => "tick" | AGENT_JOINED => "agent_joined" | AGENT_LEFT => "agent_left"
  end.

Definition VOTE_CLOSE_TOKEN_KEY := "vote_close_token".

(** ** [turn_payload.py] *)

Definition replay_markers (e : AgentEvent) : bool * bool :=
  let replayed := is_true (dget "replay_mode" (metadata e)) in
  (replayed, replayed && bool_decide (is_Some (Principal.principal_id_from_metadata (metadata e)))).

(** [str | None] as a value. *)
Definition v_opt (v : option string) : pyval := match v with Some s => VStr s | None => VNone end.

Definition set_if (b : bool) (k : string) (v : pyval) (d : pydict) : pydict := if b then dset k v d else d.

Definition build_turn_payload (e : AgentEvent) (summary : string) (room_close live_duplicate : bool) : pydict :=
  let payload := [("summary", VStr summary);
    ("event_type", VStr (event_type_value (event_type e)));
    ("sender", v_opt (sender_id e));
    ("channel_id", v_opt (channel_id e));
    ("timestamp", VFloat (timestamp e));
    ("participant_type", dget_or "sender_participant_type" (VStr "agent") (metadata e))] in
  let payload := set_if (truthy (opt_str (message_id e))) "message_id" (v_opt (message_id e)) payload in
  let payload := match dget "content" (ev_payload e) with
                 | Some (VStr s) => if truthy (strip s) then dset "text" (VStr s) payload else payload
                 | _ => payload
                 end in
  let payload := set_if room_close ROOM_CLOSE_TURN_KEY (VBool true) payload in
  set_if live_duplicate LIVE_DUPLICATE_TURN_KEY (VBool true) payload.

(** [frozen_open_capture], with the session the caller adds: the record's frozen
    fields, and the speaker half of its key. *)
Definition frozen_open_capture (e : AgentEvent) (session : string) : open_args * option string :=
  let '(replayed, attributed) := replay_markers e in
  (mkArgs (Some session) (wire_channel_classification e)
     (if truthy (opt_str (channel_id e)) then channel_id e else None) replayed attributed, sender_id e).

(** ** [close_entries.py] *)

Section entries.
Context (str_of : pyval -> string).

(** [str(v)] *)
Definition v_str (v : pyval) : string :=
  match v with
  | VStr s => s
  | VNone => "None"
  | VBool b => if b then "True" else "False"
  | _ => str_of v
  end.

Definition is_foreign_room_close_turn (payload : pydict) (speaker : string) : bool :=
  if negb (is_true (dget ROOM_CLOSE_TURN_KEY payload)) then false
  else negb (String.eqb (strip (v_str (dget_or "sender" (VStr "") payload))) speaker).

Definition own_turn (speaker : string) (t : Turn) : bool :=
  negb (is_foreign_room_close_turn (payload t) speaker) &&
  negb (vtruthy (dget_or LIVE_DUPLICATE_TURN_KEY VNone (payload t))).

(** The record's own turns, with their positions from 1. *)
Definition own_turn_items (i : Interaction) : list (nat * Turn) :=
  List.filter (λ x, own_turn (speaker_id i) x.2) (imap (λ n t, (S n, t)) (turns i)).

Record MemoryEntry := mkMemoryEntry {
  me_id : string; me_content : string; me_importance : Q; me_tags : list string; me_created_at : Q; me_score : Q }.

Definition truthy_str (s : string) : list string := if truthy s then [s] else [].

Definition content_parts (p : pydict) : list string :=
  let parts := (truthy_str (strip (v_str (dget_or "text" (VStr "") p)))
                ++ truthy_str (strip (v_str (dget_or "summary" (VStr "") p))))%list in
  let sender := strip (v_str (dget_or "sender" (VStr "") p)) in
  let parts := (parts ++ (if truthy sender then ["sender=" +:+ sender] else []))%list in
  match parts with
  | [] => ["event_type=" +:+ v_str (dget_or "event_type" (VStr "unknown") p)]
  | _ => parts
  end.

Definition interaction_to_entries (i : Interaction) : list MemoryEntry :=
  let total := Z.max (turn_count i) 1 in
  map (λ x : nat * Turn,
         mkMemoryEntry ("turn-" +:+ v_str (VInt (Z.of_nat x.1))) (join_str " | " (content_parts (payload x.2)))
           (inject_Z (Z.of_nat x.1) / inject_Z total)%Q [] (at_ x.2) 0%Q)
      (own_turn_items i).

(** ** [interaction_boundary.py] *)

Definition _SESSION_END_METADATA_KEYS : list string := ["chat_end"; "session_end"].
Definition _SESSION_END_TRUTHY_STRINGS : list string := ["true"; "1"; "yes"; "y"; "on"].

Definition ends_session (v : pyval) : bool :=
  match v with
  | VBool b => b
  | VStr s => bool_decide (lower (strip s) ∈ _SESSION_END_TRUTHY_STRINGS)
  | VInt z => negb (z =? 0)%Z
  | VFloat q => negb (Qeq_bool q 0)
  | _ => false
  end.

Definition is_session_end_event (e : AgentEvent) : bool :=
  existsb (λ k, match dget k (metadata e) with Some v => ends_session v | None => false end) _SESSION_END_METADATA_KEYS.

(** [str(payload.get(k, "") or "")] *)
Definition text_field (k : string) (d : pydict) : string :=
  let v := dget_or k (VStr "") d in if vtruthy v then v_str v else "".

Definition is_matching_vote (channel : string) (a : AgentAction) : bool :=
  bool_decide (action_type a = END_INTERACTION_VOTE) && String.eqb (strip (text_field "channel_id" (act_payload a))) channel.

Definition matching_end_votes (e : AgentEvent) (actions : list AgentAction) : list AgentAction :=
  let channel := opt_str (channel_id e) in
  if truthy channel then List.filter (is_matching_vote channel) actions else [].

Definition wire_rotation_closes (i : Interaction) (wire_id : string) : bool :=
  is_open i && truthy wire_id && truthy (Interactions.wire_interaction_id i) &&
  negb (String.eqb (Interactions.wire_interaction_id i) wire_id) && negb (String.eqb (predecessor_wire_id i) wire_id).

Definition wire_rotation_close_reason (i : Interaction) (md : pydict) : string :=
  let prev_id := text_field "previous_interaction_id" md in
  let prev_trigger := text_field "previous_interaction_close_trigger" md in
  if truthy prev_id && String.eqb prev_id (Interactions.wire_interaction_id i) && String.eqb prev_trigger WIRE_CLOSE_TRIGGER_IDLE
  then REASON_IDLE_GAP else REASON_STRUCTURAL.

Definition stale_close_reason (i : Interaction) (e : AgentEvent) (wire_id : string) (is_target_record : bool) : option string :=
  if negb (is_open i) then None
  else if is_target_record && negb (bool_decide ((replayed i, replay_attributed i) = replay_markers e))
       then Some REASON_CATCHUP_COMPLETE
  else if wire_rotation_closes i wire_id then Some (wire_rotation_close_reason i (metadata e))
  else None.
End entries.

Definition scope_wire_anchor (sc : string) (e : AgentEvent) : string :=
  if is_thread_scope sc then "" else Cascade.wire_interaction_id (metadata e).

Definition wire_admits_record (i : Interaction) (anchor : string) (tolerate_blank_anchor : bool) : bool :=
  if negb (truthy (Interactions.wire_interaction_id i)) then true
  else if negb (truthy anchor) then tolerate_blank_anchor
  else String.eqb (Interactions.wire_interaction_id i) anchor.

(** ** [record_write_scope.py] *)

Definition record_write_scopes {A} (i : Interaction) (block : body A) : body A :=
  Principal.principal_scope (Some (principal_id i)) (λ _,
    if truthy (epoch_id i) then Epoch.epoch_scope (Some (epoch_id i)) (λ _, block) else block).

(** * When two replayed spans are the same span

    Models [agents/persona_runtime/replay_identity.py]: the identity of a replayed
    span, the bytes it is a digest of, and the guard that keeps a span from being
    derived twice. [sha256_hex] is [hashlib.sha256(...).hexdigest()] on the bytes, a
    byte being a character below U+0100. *)

Definition REPLAY_INTERACTION_ID_PREFIX := "replay-".

(** [c.encode("utf-8")], and of a text *)
Definition utf8_char (c : ascii) : string :=
  let n := code c in
  if (n <? 128)%N then String c ""
  else String (ascii_of_N (192 + n / 64)) (String (ascii_of_N (128 + n mod 64)) "").
Fixpoint utf8 (s : string) : string :=
  match s with EmptyString => EmptyString | String c s => utf8_char c +:+ utf8 s end.

(** [<byte-length>:<bytes>] per component. *)
Definition encode_component (part : string) : string :=
  pretty (N.of_nat (String.length (utf8 part))) +:+ ":" +:+ utf8 part.
Fixpoint _join_components (parts : list string) : string :=
  match parts with [] => "" | p :: ps => encode_component p +:+ _join_components ps end.

Section identity.
Context (sha256_hex : string -> string).

Definition replay_span_identity (i : Interaction) (agent epoch level : string) (message_ids : list string) : option string :=
  match message_ids with
  | [] => None
  | _ =>
      if forallb truthy message_ids then
        Some (REPLAY_INTERACTION_ID_PREFIX +:+ sha256_hex (_join_components
          ([agent; epoch; session_id i; level; principal_id i; speaker_id i; scope i] ++ message_ids)%list))
      else None
  end.

(** The epoch of the digest: the record's own, or the one a write would get. *)
Definition digest_epoch (em : EpisodicMemory) (a : ambient) (i : Interaction) : string :=
  if truthy (epoch_id i) then epoch_id i else write_epoch em a.

(** Whether the span was derived before, and the id it is given when it can be
    identified and looked up. *)
Definition replay_span_already_derived (em : EpisodicMemory) (a : ambient) (i : Interaction) (level : string)
    (message_ids : list string) (db : EpisodeDb) : bool * option string * EpisodeDb :=
  match replay_span_identity i (em_agent em) (digest_epoch em a i) level message_ids with
  | None => (false, None, db)
  | Some identity =>
      match has_episode_for_interaction em identity db with
      | (Raise _, db) => (false, None, db)
      | (Ok true, db) => (true, Some identity, db)
      | (Ok false, db) => (false, Some identity, (clear_failed_episode em identity db).2)
      end
  end.
End identity.

(** ** The digest names the span *)

Lemma app_cons_str c (s t : string) : String c s +:+ t = String c (s +:+ t).
Proof. done. Qed.

Lemma utf8_char_prefix_code c d x y : utf8_char c +:+ x = utf8_char d +:+ y -> c = d /\ x = y.
Proof.
  assert (forall a b : ascii, code a = code b -> a = b) as Hinj.
  { intros a b E. unfold code in E. by rewrite <- (ascii_N_embedding a), <- (ascii_N_embedding b), E. }
  assert (forall a : ascii, (code a < 256)%N) as Hlt by apply N_ascii_bounded.
  assert (forall m n, (m < 256)%N -> (n < 256)%N -> ascii_of_N m = ascii_of_N n -> m = n) as Hof.
  { intros m n Hm Hn E. by rewrite <- (N_ascii_embedding m), <- (N_ascii_embedding n), E. }
  unfold utf8_char. pose proof (Hlt c) as Hc. pose proof (Hlt d) as Hd.
  pose proof (N.div_mod (code c) 64 ltac:(done)) as Ec. pose proof (N.div_mod (code d) 64 ltac:(done)) as Ed.
  pose proof (N.mod_lt (code c) 64 ltac:(done)) as Mc. pose proof (N.mod_lt (code d) 64 ltac:(done)) as Md.
  set (qc := (code c / 64)%N) in *. set (rc := (code c mod 64)%N) in *.
  set (qd := (code d / 64)%N) in *. set (rd := (code d mod 64)%N) in *.
  destruct (N.ltb_spec (code c) 128) as [Lc|Lc], (N.ltb_spec (code d) 128) as [Ld|Ld]; rewrite !app_cons_str; intros H.
  - injection H as -> H. done.
  - injection H as H _. apply (f_equal code) in H. unfold code in H at 2. rewrite N_ascii_embedding in H by lia. lia.
  - injection H as H _. apply (f_equal code) in H. unfold code in H at 1. rewrite N_ascii_embedding in H by lia. lia.
  - injection H as H1 H2 H. apply Hof in H1; [|lia..]. apply Hof in H2; [|lia..]. split; [|done]. apply Hinj. lia.
Qed.

Lemma utf8_inj s t : utf8 s = utf8 t -> s = t.
Proof.
  revert t. induction s as [|c s IH]; intros [|d t]; cbn [utf8]; [done| | |].
  - unfold utf8_char. by case_match.
  - unfold utf8_char. by case_match.
  - intros [-> H]%utf8_char_prefix_code. f_equal. auto.
Qed.

(** Texts of the same length before what follows them. *)
Lemma app_length_inj (s t x y : string) : String.length s = String.length t -> s +:+ x = t +:+ y -> s = t /\ x = y.
Proof.
  revert t. induction s as [|c s IH]; intros [|d t] Hl; try done. rewrite !app_cons_str. intros [= -> H].
  injection Hl as Hl. destruct (IH t Hl H) as [-> ->]. done.
Qed.

Lemma pretty_no_colon n : no_char ":"%char (pretty (N.of_nat n)).
Proof.
  unfold pretty, pretty_N. case_decide; [done|]. generalize (N.of_nat n). clear.
  intros n. assert (forall s, no_char ":"%char s -> no_char ":"%char (pretty_N_go n s)) as Hg; [|by apply Hg].
  induction (N.lt_wf_0 n) as [n _ IH]. intros s Hs. destruct (decide (n = 0)%N) as [->|Hn]; [by rewrite pretty_N_go_0|].
  rewrite pretty_N_go_step by lia. apply IH; [by apply N.div_lt; lia|]. split; [|done].
  unfold pretty_N_char. by repeat case_match.
Qed.

(** Length-prefixing is self-delimiting: the bytes determine the components. *)
Lemma join_components_inj ps qs : _join_components ps = _join_components qs -> ps = qs.
Proof.
  assert (forall p ps, encode_component p +:+ _join_components ps <> "") as Hne.
  { intros p k. unfold encode_component. destruct (pretty _ : string) eqn:E; by cbn. }
  revert qs. induction ps as [|p ps IH]; intros [|q qs]; cbn [_join_components]; [done| | |].
  - intros H. by destruct (Hne q qs).
  - intros H. by destruct (Hne p ps).
  - unfold encode_component. rewrite <- !app_assoc_str. intros H.
    rewrite (app_assoc_str ":"), (app_assoc_str ":") in H.
    assert (forall a b : string, ":" +:+ a +:+ b = String ":" (a +:+ b)) as Hc by done.
    rewrite <- !(app_assoc_str ":") in H. rewrite !Hc in H.
    apply app_sep_inj in H as [Hl H]; [|apply pretty_no_colon..].
    apply (inj pretty) in Hl. apply Nat2N.inj in Hl. apply app_length_inj in H as [Hp H]; [|done].
    f_equal; [by apply utf8_inj|by apply IH].
Qed.

(** C39. A replayed span's identity names the span and nothing else. Where the digest
    does not collide, two spans share an id exactly when they agree on everything a
    row is later filtered by (the agent, the epoch, the session, the protection
    level, the tenant, the speaker and the scope) and replay the same messages in the
    same order: no crafted message id, of any characters, makes one span answer for
    another. A span with an unidentified turn has no identity at all. *)
Theorem span_identity_exact (sha256_hex : string -> string) i j agent agent' epoch epoch' level level' ids ids' :
  (forall x y, sha256_hex x = sha256_hex y -> x = y) ->
  (replay_span_identity sha256_hex i agent epoch level ids = None <-> ids = [] \/ "" ∈ ids) /\
  (forall k, replay_span_identity sha256_hex i agent epoch level ids = Some k ->
     (replay_span_identity sha256_hex j agent' epoch' level' ids' = Some k <->
      (agent', epoch', session_id j, level', principal_id j, speaker_id j, scope j, ids') =
      (agent, epoch, session_id i, level, principal_id i, speaker_id i, scope i, ids))).
Proof.
  intros Hsha. split.
  - unfold replay_span_identity. destruct ids as [|x ids]; [by split; [left|]|].
    destruct (forallb truthy (x :: ids)) eqn:E.
    + split; [done|]. intros [[=]|H]. exfalso. rewrite forallb_forall in E.
      apply list_elem_of_In in H. by specialize (E _ H).
    + split; [|done]. intros _. right. destruct (decide ("" ∈ x :: ids)) as [|Hn]; [done|]. exfalso.
      assert (forallb truthy (x :: ids) = true); [|congruence]. apply forallb_forall. intros y Hy.
      apply truthy_true. intros ->. apply Hn. by apply list_elem_of_In.
  - intros k Hk. unfold replay_span_identity in *. destruct ids as [|x ids]; [done|].
    destruct (forallb truthy (x :: ids)) eqn:E; [|done]. injection Hk as <-. split.
    + destruct ids' as [|y ids']; [done|]. destruct (forallb truthy (y :: ids')); [|done].
      intros H. injection H as H. apply Hsha in H.
      apply (join_components_inj (agent' :: epoch' :: session_id j :: level' :: principal_id j :: speaker_id j :: scope j :: y :: ids')
               (agent :: epoch :: session_id i :: level :: principal_id i :: speaker_id i :: scope i :: x :: ids)) in H.
      by injection H as -> -> -> -> -> -> -> -> ->.
    + intros [= -> -> -> -> -> -> -> ->]. by rewrite E.
Qed.

Definition sample_span (scope speaker : string) : Interaction :=
  mkInteraction "u1" scope 0 [] None "" "" "" "" "ops" "acme" speaker "live" true true true None (Some "general") false.

Lemma span_identity_exact_witness :
  let sha (x : string) := x in
  let ids := ["m1"; "m2"] in
  (forall x y, sha x = sha y -> x = y) /\
  is_Some (replay_span_identity sha (sample_span "group:ops" "bob") "ada" "live" "internal" ids) /\
  replay_span_identity sha (sample_span "group:ops" "bob") "ada" "live" "internal" ["m12:m2"] <>
  replay_span_identity sha (sample_span "group:ops" "bob") "ada" "live" "internal" ids /\
  (replay_span_identity sha (sample_span "group:ops" "bob") "ada" "live" "internal" ids = None <-> ids = [] \/ "" ∈ ids).
Proof.
  cbv zeta. split; [done|]. split; [by eexists|]. split; [by vm_compute|].
  apply (span_identity_exact (λ x, x) (sample_span "group:ops" "bob") (sample_span "group:ops" "bob") "ada" "ada" "live" "live"
           "internal" "internal" ["m1"; "m2"] []). done.
Defined.
