(* ===== verification/ClosePath.v ===== *)
(** * Closing interactions

    Models [agents/persona_runtime/close_path.py], [close_fan.py], [cost_close.py],
    [close_notification.py], [vote_close.py], [replay_sweep.py] and
    [close_lifecycle.py]: what closing one record means (the two-phase write, its
    skips and the row it stores) and the events that close many. The state is the
    persona's tracker, its episodic store, the summary tasks in flight and its parked
    votes. [clock k] and [fresh k] are what the [k]-th reading of the clock and of
    [uuid4] give; one reading of the clock stands for those of a stretch of code
    without an [await]. *)

From S2P Require Import Prelude PyStr PyText PyDict PyValue PyFloat Ambient RowScope Scopes Interactions ReplayBookkeeping Tracker PersonaEvents Classification Cascade ChannelIngress Episodes TurnIngest.
Local Open Scope string_scope.
Local Open Scope py_scope.

(** A background summary: the record, the context it runs in, whether it waits at
    the replay gate, and the session of its writes. *)
Record SummaryTask := mkSummaryTask { st_record : oid; st_context : ambient; st_gated : bool; st_session : string }.

Record PendingVoteClose := mkPendingVote {
  pv_scope : string; pv_interaction_id : string; pv_token : string; pv_in_flight : Z; pv_wire_id : string;
  pv_sibling_ids : list string }.

Record CloseState := mkCloseState {
  tracker : Tracker;
  memory : EpisodeDb;
  pending_tasks : list SummaryTask;
  pending_vote_closes : list (string * PendingVoteClose);
  vote_closed_wire_ids : list (string * string);
  reads : nat;
}.

Definition set_tracker (t : Tracker) (s : CloseState) : CloseState :=
  mkCloseState t (memory s) (pending_tasks s) (pending_vote_closes s) (vote_closed_wire_ids s) (reads s).
Definition set_memory (db : EpisodeDb) (s : CloseState) : CloseState :=
  mkCloseState (tracker s) db (pending_tasks s) (pending_vote_closes s) (vote_closed_wire_ids s) (reads s).
Definition add_task (t : SummaryTask) (s : CloseState) : CloseState :=
  mkCloseState (tracker s) (memory s) (pending_tasks s ++ [t])%list (pending_vote_closes s) (vote_closed_wire_ids s) (reads s).
Definition set_pending_votes (p : list (string * PendingVoteClose)) (s : CloseState) : CloseState :=
  mkCloseState (tracker s) (memory s) (pending_tasks s) p (vote_closed_wire_ids s) (reads s).
Definition set_vote_closed (v : list (string * string)) (s : CloseState) : CloseState :=
  mkCloseState (tracker s) (memory s) (pending_tasks s) (pending_vote_closes s) v (reads s).
Definition read_once (s : CloseState) : CloseState :=
  mkCloseState (tracker s) (memory s) (pending_tasks s) (pending_vote_closes s) (vote_closed_wire_ids s) (S (reads s)).

(** Assignments to a record's fields. *)
Definition set_interaction_id (id : string) (i : Interaction) : Interaction :=
  mkInteraction id (scope i) (started_at i) (turns i) (closed_at i) (close_reason i) (structural_close_reason i)
    (Interactions.wire_interaction_id i) (predecessor_wire_id i) (session_id i) (principal_id i) (speaker_id i) (epoch_id i)
    (replayed i) (replay_attributed i) (replay_window_complete i) (classification i) (source_channel_id i) (meter_close_summary i).
Definition set_wire (wire predecessor : string) (i : Interaction) : Interaction :=
  mkInteraction (interaction_id i) (scope i) (started_at i) (turns i) (closed_at i) (close_reason i) (structural_close_reason i)
    wire predecessor (session_id i) (principal_id i) (speaker_id i) (epoch_id i)
    (replayed i) (replay_attributed i) (replay_window_complete i) (classification i) (source_channel_id i) (meter_close_summary i).
Definition set_meter (i : Interaction) : Interaction :=
  mkInteraction (interaction_id i) (scope i) (started_at i) (turns i) (closed_at i) (close_reason i) (structural_close_reason i)
    (Interactions.wire_interaction_id i) (predecessor_wire_id i) (session_id i) (principal_id i) (speaker_id i) (epoch_id i)
    (replayed i) (replay_attributed i) (replay_window_complete i) (classification i) (source_channel_id i) true.

Definition edit (f : Interaction -> Interaction) (t : Tracker) (o : oid) : Tracker :=
  match obj t o with Some i => set_heap (<[o := f i]> (heap t)) t | None => t end.

Definition _TRANSIENT_TURN_KEYS : list string := ["text"; "message_id"].

(** What a turn leaves in the stored context. *)
Definition stored_turn (t : Turn) : pyval :=
  VDict [("at", VFloat (at_ t));
         ("payload", VDict (List.filter (λ kv, negb (bool_decide (kv.1 ∈ _TRANSIENT_TURN_KEYS))) (payload t)))].

Definition close_context (i : Interaction) (own : list (nat * Turn)) : pydict :=
  [("scope", VStr (scope i)); ("close_reason", VStr (close_reason i)); ("turn_count", VInt (Z.of_nat (length own)));
   ("governance_interaction_id", VStr (Interactions.wire_interaction_id i));
   ("turns", VList (map (λ x, stored_turn x.2) own))].

Definition close_row (i : Interaction) (own : list (nat * Turn)) (protection_level : string) : EpisodeArgs :=
  mkEpisodeArgs SUMMARY_PENDING_TEXT (close_context i own) None (1 # 2) [] (Some (interaction_id i)) (Some (started_at i))
    (closed_at i) (Some (Z.of_nat (length own))) (Some (scope i)) (or_none (Some (Interactions.wire_interaction_id i)))
    (session_id i) protection_level (source_channel_id i) (or_none (Some (speaker_id i))) (Some (principal_id i)).

Definition _MULTI_TURN_EVENT_TYPES : list EventType := [CHANNEL_MESSAGE; MENTION].

Section close.
Context (em : EpisodicMemory) (str_of : pyval -> string) (sha256_hex : string -> string).
Context (clock : nat -> Q) (fresh : nat -> string).

Definition tracker_call (a : ambient) (s : CloseState) : call_env := mkCall a (clock (reads s)) (fresh (reads s)).
Definition episode_call (a : ambient) (s : CloseState) : EpisodeCall := mkEpisodeCall a (clock (reads s)) None (fresh (reads s)).

(** A tracker method, with the readings it takes. *)
Definition on_tracker {A} (a : ambient) (f : Tracker -> call_env -> A * Tracker) (s : CloseState) : A * CloseState :=
  let '(r, t) := f (tracker s) (tracker_call a s) in (r, read_once (set_tracker t s)).

(** ** One record *)

(** The rows a closed record is never given: no turns, or a replay that cannot say
    whose it is or that holds no whole window. *)
Definition never_derived (i : Interaction) : bool :=
  (turn_count i =? 0)%Z || replayed i && negb (replay_attributed i) || replayed i && negb (replay_window_complete i).

Definition wire_ids (i : Interaction) : list string := map (λ t, text_field str_of "message_id" (payload t)) (turns i).

(** Under the record's own axes: the pending row, then the task. *)
Definition two_phase (o : oid) (i : Interaction) (own : list (nat * Turn)) (level : string) (s : CloseState) : body CloseState :=
  λ a,
    let '(r, db) := store_episode em (episode_call a s) (close_row i own level) (memory s) in
    let s := read_once (set_memory db s) in
    (Ok (match r with Raise _ => s | Ok _ => add_task (mkSummaryTask o a (replayed i) (session_id i)) s end), a).

Definition persist_record (a : ambient) (o : oid) (i : Interaction) (s : CloseState) : CloseState :=
  if never_derived i then s
  else
    match own_turn_items str_of i with
    | [] => s
    | own =>
        let level := normalize_for_stamp (classification i) in
        let '(already, identity, db) :=
          if replayed i then replay_span_already_derived sha256_hex em a i level (wire_ids i) (memory s)
          else (false, None, memory s) in
        let i := match identity with Some id => set_interaction_id id i | None => i end in
        let s := set_memory db (set_tracker (match identity with Some id => edit (set_interaction_id id) (tracker s) o
                                                              | None => tracker s end) s) in
        if already then s
        else match (record_write_scopes i (two_phase o i own level s) a).1 with Ok s => s | Raise _ => s end
    end.

Definition persist_closed_interaction (a : ambient) (o : oid) (s : CloseState) : result string unit * CloseState :=
  (Ok tt, match obj (tracker s) o with Some i => persist_record a o i s | None => s end).

(** ** [close_fan.py] *)

(** Each record behind its own guard. *)
Definition persist_fanned_closes (persist : oid -> CloseState -> result string unit * CloseState) (os : list oid) (s : CloseState) :
    CloseState := fold_left (λ s o, (persist o s).2) os s.

Definition segment_complete (e : AgentEvent) (t : Tracker) (i : Interaction) (reason : string) : bool :=
  let channel := opt_str (source_channel_id i) in
  replayed i && (replay_markers e).1 && negb (String.eqb reason REASON_CATCHUP_COMPLETE) && truthy channel &&
  negb (replay_record_compromised channel (speaker_id i) (replay t)).

Definition stale_visit (c : call_env) (target : RecordKey) (e : AgentEvent) (wire_id : string) (t : Tracker) (o : oid) :
    option oid * Tracker :=
  match obj t o with
  | None => (None, t)
  | Some i =>
      match stale_close_reason str_of i e wire_id (bool_decide (record_key i = target)) with
      | None => (None, t)
      | Some reason => close_record t c o reason None (if segment_complete e t i reason then Some true else None)
      end
  end.

Definition close_stale_records (a : ambient) (sc : string) (e : AgentEvent) (wire_id : string) (s : CloseState) : CloseState :=
  let target := resolve_record_key a sc None (sender_id e) in
  let '(splits, s) := on_tracker a (λ t c, sweep (stale_visit c target e wire_id) t (records_for_scope t sc)) s in
  persist_fanned_closes (persist_closed_interaction a) splits s.

(** A room's close: the admitted records, then their rows. *)
Definition close_room (a : ambient) (sc : option string) (reason : string) (accepts : Interaction -> bool) (s : CloseState) : CloseState :=
  let '(closed, s) := on_tracker a (λ t c, close_scope t c sc reason None (Some accepts)) s in
  persist_fanned_closes (persist_closed_interaction a) closed s.

(** The idle flush every ingest runs. *)
Definition flush_idle (a : ambient) (s : CloseState) : CloseState :=
  let '(expired, s) := on_tracker a (λ t c, idle_check t c None None) s in
  persist_fanned_closes (persist_closed_interaction a) expired s.

(** ** [cost_close.py] *)

Definition _scope_for_multi_turn_event (e : AgentEvent) : option string :=
  (scope_for_channel_event (em_agent em) (channel_id e) (sender_id e) (thread_id e)
     (match dget "channel_type" (ev_payload e) with Some (VStr t) => Some t | _ => None end) true).1.

Definition _scope_for_cost_close (e : AgentEvent) : option string :=
  if bool_decide (event_type e ∈ _MULTI_TURN_EVENT_TYPES) then _scope_for_multi_turn_event e
  else if bool_decide (event_type e = TICK) then Some SCOPE_TICK
  else Some (event_type_value (event_type e)).

Definition close_interaction_on_cost (a : ambient) (e : AgentEvent) (s : CloseState) : CloseState :=
  match _scope_for_cost_close e with
  | None => s
  | Some sc =>
      let anchor := scope_wire_anchor sc e in
      close_room a (Some sc) REASON_COST (λ i, wire_admits_record i anchor true) s
  end.

(** ** [close_notification.py] *)

Definition v_in (v : option pyval) (l : list string) : bool :=
  match v with Some (VStr s) => bool_decide (s ∈ l) | _ => false end.

(** The closing message, with the mark of a room close. *)
Context (envelope_line : string -> list string -> string).

Definition closing_turn (e : AgentEvent) : pydict :=
  build_turn_payload e (envelope_line (event_type_value (event_type e)) []) true false.

(** Every record to close, in turn. *)
Definition edit_all (f : Interaction -> Interaction) (os : list oid) (t : Tracker) : Tracker := fold_left (edit f) os t.

Definition land_and_close (e : AgentEvent) (anchor : string) (t : Tracker) (c : call_env) (to_close : list oid) :
    list oid * Tracker :=
  let t := if truthy anchor
           then edit_all (λ i, if truthy (Interactions.wire_interaction_id i) then i else set_wire anchor (predecessor_wire_id i) i) to_close t
           else t in
  let trigger := dget "close_notification_close_trigger" (ev_payload e) in
  let bounded := v_in trigger WIRE_BOUNDED_CLOSE_TRIGGERS in
  let reason := if v_in trigger [WIRE_CLOSE_TRIGGER_COST] then REASON_COST else REASON_STRUCTURAL in
  let t := if bounded then edit_all set_meter to_close t else t in
  let redelivery := is_true (dget "close_notification_redelivery" (ev_payload e)) in
  let t := if negb (bool_decide (sender_id e = Some (em_agent em))) && negb (redelivery && bounded)
           then fold_left (λ t o, append_turn t c o (Some (closing_turn e)) (Some (Tracker.clock c))) to_close t
           else t in
  sweep (λ t o, close_record t c o reason (Some (Tracker.clock c)) None) t to_close.

Definition close_interaction_on_notification (a : ambient) (e : AgentEvent) (s : CloseState) : CloseState :=
  if negb (is_true (dget "interaction_close_notification" (ev_payload e))) then s
  else if negb (bool_decide (event_type e ∈ _MULTI_TURN_EVENT_TYPES)) then s
  else
    match _scope_for_multi_turn_event e with
    | None => s
    | Some sc =>
        let s := flush_idle a s in
        let anchor := scope_wire_anchor sc e in
        let to_close := admitted_records (tracker s) (Some sc) (Some (λ i, wire_admits_record i anchor true)) in
        match to_close with
        | [] => s
        | _ =>
            let '(closed, s) := on_tracker a (λ t c, land_and_close e anchor t c to_close) s in
            persist_fanned_closes (persist_closed_interaction a) closed s
        end
    end.

(** ** [vote_close.py] *)

Definition stamp_token (token channel : string) (x : AgentAction) : AgentAction :=
  if is_matching_vote str_of channel x then mkAction (action_type x) (dset VOTE_CLOSE_TOKEN_KEY (VStr token) (act_payload x)) else x.

Definition ids_of (t : Tracker) (os : list oid) : list string :=
  omap (λ o, interaction_id <$> obj t o) os.

Definition park_end_vote_close (e : AgentEvent) (sc : string) (o : oid) (actions : list AgentAction) (s : CloseState) :
    list AgentAction * CloseState :=
  if negb (is_group_scope sc) then (actions, s)
  else
    match matching_end_votes str_of e actions, obj (tracker s) o with
    | (_ :: _) as votes, Some i =>
        let token := fresh (reads s) in
        let park := mkPendingVote sc (interaction_id i) token (Z.of_nat (length votes)) (Interactions.wire_interaction_id i)
                      (ids_of (tracker s) (records_for_scope (tracker s) sc)) in
        (map (stamp_token token (opt_str (channel_id e))) actions,
         read_once (set_pending_votes (dset (opt_str (channel_id e)) park (pending_vote_closes s)) s))
    | _, _ => (actions, s)
    end.

Definition vote_admits (p : PendingVoteClose) (anchor : string) (i : Interaction) : bool :=
  (match pv_sibling_ids p with [] => true | ids => bool_decide (interaction_id i ∈ ids) end) &&
  wire_admits_record i anchor false.

Definition discharge_end_vote_publish (a : ambient) (channel : string) (published : bool) (token : string) (synthesis_reply : bool)
    (s : CloseState) : CloseState :=
  match dget channel (pending_vote_closes s) with
  | None => s
  | Some p =>
      if negb (String.eqb token (pv_token p)) then s
      else if negb published then
        if (1 <? pv_in_flight p)%Z
        then set_pending_votes (dset channel (mkPendingVote (pv_scope p) (pv_interaction_id p) (pv_token p) (pv_in_flight p - 1)
               (pv_wire_id p) (pv_sibling_ids p)) (pending_vote_closes s)) s
        else set_pending_votes (ddel channel (pending_vote_closes s)) s
      else
        let s := set_pending_votes (ddel channel (pending_vote_closes s)) s in
        let parked := List.find (λ o, holds (tracker s) (λ i, String.eqb (interaction_id i) (pv_interaction_id p)) o)
                        (records_for_scope (tracker s) (pv_scope p)) in
        let anchor := str_or (pv_wire_id p)
                        (match parked ≫= obj (tracker s) with Some i => Interactions.wire_interaction_id i | None => "" end) in
        let revote := truthy anchor && bool_decide (dget (pv_scope p) (vote_closed_wire_ids s) = Some anchor) in
        let s := if truthy anchor then set_vote_closed (dset (pv_scope p) anchor (vote_closed_wire_ids s)) s else s in
        if synthesis_reply then s
        else if revote then s
        else if negb (truthy anchor) && bool_decide (parked = None) then s
        else close_room a (Some (pv_scope p)) REASON_STRUCTURAL (vote_admits p anchor) s
  end.

(** ** [replay_sweep.py] *)

Definition derivable (derive_channels : option (list string)) (speaker_gaps : option (list (string * string))) (t : Tracker)
    (i : Interaction) : bool :=
  let channel := opt_str (source_channel_id i) in
  truthy channel &&
  match derive_channels with None => true | Some cs => bool_decide (channel ∈ cs) end &&
  negb (replay_record_compromised channel (speaker_id i) (replay t)) &&
  match speaker_gaps with None => true | Some gs => negb (bool_decide ((channel, speaker_id i) ∈ gs)) end.

(** The sweep runs without the lock: [meanwhile] is what the other tasks do to the
    state at the [await] of a record's write. *)
Fixpoint sweep_replayed (meanwhile : oid -> CloseState -> CloseState) (derive_channels : option (list string))
    (speaker_gaps : option (list (string * string))) (a : ambient) (os : list oid) (s : CloseState) : Z * CloseState :=
  match os with
  | [] => (0%Z, s)
  | o :: os =>
      let '(n, s) :=
        match obj (tracker s) o with
        | Some i =>
            if replayed i then
              match on_tracker a (λ t c, close_record t c o REASON_CATCHUP_COMPLETE None
                                           (Some (derivable derive_channels speaker_gaps t i))) s with
              | (None, s) => (0%Z, s)
              | (Some o, s) => (1%Z, meanwhile o (persist_closed_interaction a o s).2)
              end
            else (0%Z, s)
        | None => (0%Z, s)
        end in
      let '(m, s) := sweep_replayed meanwhile derive_channels speaker_gaps a os s in ((n + m)%Z, s)
  end.

Definition close_replayed_scopes (meanwhile : oid -> CloseState -> CloseState) (derive_channels : option (list string))
    (speaker_gaps : option (list (string * string))) (a : ambient) (s : CloseState) : Z * CloseState :=
  let '(closed, s) := sweep_replayed meanwhile derive_channels speaker_gaps a (open_records (tracker s)) s in
  (closed, set_tracker (set_replay (clear_replay_pass_state (replay (tracker s))) (tracker s)) s).

(** ** [close_lifecycle.py] *)

Definition close_open_interactions (a : ambient) (s : CloseState) : CloseState :=
  let '(closed, s) := on_tracker a (λ t c,
    let now := Some (Tracker.clock c) in
    let '(idle, t) := idle_check t c now (Some (admitted_records t None None)) in
    let '(rest, t) := close_scope t c None REASON_SHUTDOWN now None in ((idle ++ rest)%list, t)) s in
  persist_fanned_closes (persist_closed_interaction a) closed s.

(** [auto_reflect_after] is the configured number, [0] where there is none. *)
Definition _tick_auto_reflect_counter (auto_reflect_after : Z) (s : CloseState) : CloseState :=
  if (auto_reflect_after <=? 0)%Z then s
  else set_memory (increment_interaction_count (em_agent em) (memory s)).2 s.

Definition cleanup_closing (grace_sec : Q) (now : option Q) (s : CloseState) : result string Z * CloseState :=
  let '(r, db) := cleanup_closing_interactions (em_agent em) grace_sec (default (clock (reads s)) now) (memory s) in
  (r, read_once (set_memory db s)).
End close.

(** * From an event to the record it belongs to

    Models [agents/persona_runtime/episode_routing.py]: what the completed event of a
    turn leaves in memory. A channel message becomes a turn of its sender's record,
    after the boundaries it draws and before the closes it asks for; any other event
    is a record of its own, opened and closed at once. *)

Definition _SINGLE_TURN_EVENT_TYPES : list EventType :=
  [TICK; TASK_ASSIGNED; SUB_AGENT_COMPLETED; APPROVAL_REQUESTED; APPROVAL_RESPONSE; AGENT_JOINED; AGENT_LEFT].

Definition action_type_value (t : ActionType) : string :=
  match t with
  | SEND_CHANNEL_MESSAGE => "send_channel_message" | COMPLETE_TASK => "complete_task" | DELEGATE => "delegate"
  | SPAWN_SUB_AGENT => "spawn_sub_agent" | USE_TOOL => "use_tool" | REQUEST_APPROVAL => "request_approval"
  | GRANT_APPROVAL => "grant_approval" | DENY_APPROVAL => "deny_approval" | DO_NOTHING => "do_nothing"
  | END_INTERACTION_VOTE => "end_interaction_vote"
  end.

(** What one event stores: the turns a channel message lands in, or a row. *)
Section routing.
Context (em : EpisodicMemory) (str_of : pyval -> string) (sha256_hex : string -> string).
Context (clock : nat -> Q) (fresh : nat -> string) (envelope_line : string -> list string -> string).
Context (session : string).

Abbreviation persist := (persist_closed_interaction em str_of sha256_hex clock fresh).
Abbreviation on_tracker := (on_tracker clock fresh).

Definition _active_write_session_id (a : ambient) : string := str_or (opt_str (active_session a)) session.

(** A row of its own, as before interactions were tracked. *)
Definition legacy_args (a : ambient) (summary : string) (ctx : pydict) (speaker : option string) : EpisodeArgs :=
  mkEpisodeArgs summary ctx None (1 # 2) [] None None None None None None (_active_write_session_id a) DEFAULT_CLASSIFICATION None
    speaker None.

Definition store_row (a : ambient) (args : EpisodeArgs) (s : CloseState) : CloseState :=
  read_once (set_memory (store_episode em (episode_call clock fresh a s) args (memory s)).2 s).

(** The wire id of the opening turn, and its predecessor. *)
Definition stamp_wire (e : AgentEvent) (wire_id : string) (i : Interaction) : Interaction :=
  if truthy wire_id && is_open i && negb (truthy (Interactions.wire_interaction_id i))
  then set_wire wire_id (text_field str_of "previous_interaction_id" (metadata e)) i else i.

(** The turn, on the record it belongs to. *)
Definition ingest (a : ambient) (e : AgentEvent) (sc wire_id : string) (payload : pydict) (s : CloseState) : oid * CloseState :=
  let '(args, speaker) := frozen_open_capture e (_active_write_session_id a) in
  let '(o, s) := on_tracker a (λ t c, add_turn t c sc (Some payload) None args None speaker) s in
  (o, set_tracker (edit (stamp_wire e wire_id) (tracker s) o) s).

Definition _handle_multi_turn_event (a : ambient) (e : AgentEvent) (summary : string) (ctx : pydict) (actions : list AgentAction)
    (s : CloseState) : list AgentAction * CloseState :=
  match _scope_for_multi_turn_event em e with
  | None => (actions, store_row a (legacy_args a summary ctx None) s)
  | Some sc =>
      let '(duplicate, r) := observe_wire_message (opt_str (message_id e)) (is_true (dget "replay_mode" (metadata e)))
                               (replay (tracker s)) in
      let s := set_tracker (set_replay r (tracker s)) s in
      let payload := build_turn_payload e summary false duplicate in
      let wire_id := scope_wire_anchor sc e in
      let s := close_stale_records em str_of sha256_hex clock fresh a sc e wire_id s in
      let '(o, s) := ingest a e sc wire_id payload s in
      let capped := negb (holds (tracker s) is_open o) in
      let s := if capped then persist_fanned_closes (persist a) [o] s else s in
      if is_session_end_event e then
        (actions, close_room em str_of sha256_hex clock fresh a (Some sc) REASON_STRUCTURAL (λ i, wire_admits_record i wire_id true) s)
      else if capped then (actions, s)
      else park_end_vote_close str_of fresh e sc o actions s
  end.

(** The row of an event that is a record of its own. *)
Definition single_turn_args (i : Interaction) (summary : string) (ctx : pydict) : EpisodeArgs :=
  mkEpisodeArgs summary (dset "close_reason" (VStr (close_reason i)) ctx) None (1 # 2) [] (Some (interaction_id i)) (Some (started_at i))
    (closed_at i) (Some (turn_count i)) (Some (scope i)) None (session_id i) DEFAULT_CLASSIFICATION None (or_none (Some (speaker_id i))) None.

Definition handle_single_turn (a : ambient) (e : AgentEvent) (summary : string) (ctx : pydict) (s : CloseState) : CloseState :=
  let sc := if bool_decide (event_type e = TICK) then SCOPE_TICK else event_type_value (event_type e) in
  let args := mkArgs (Some (_active_write_session_id a)) None None false false in
  let '(o, s) := on_tracker a (λ t c, add_turn t c sc None None args None (sender_id e)) s in
  match on_tracker a (λ t c, close_record t c o REASON_STRUCTURAL None None) s with
  | (None, s) => s
  | (Some o, s) =>
      match obj (tracker s) o with
      | Some i => store_row a (single_turn_args i summary ctx) s
      | None => s
      end
  end.

Definition _store_event_episode (a : ambient) (e : AgentEvent) (actions : list AgentAction) (s : CloseState) :
    list AgentAction * CloseState :=
  let summary := envelope_line (event_type_value (event_type e)) (map (λ x, action_type_value (action_type x)) actions) in
  let ctx := [("event", VDict (ev_payload e)); ("sender", v_opt (sender_id e))] in
  let s := flush_idle em str_of sha256_hex clock fresh a s in
  if bool_decide (event_type e ∈ _MULTI_TURN_EVENT_TYPES) then _handle_multi_turn_event a e summary ctx actions s
  else if negb (bool_decide (event_type e ∈ _SINGLE_TURN_EVENT_TYPES)) then
    (actions, store_row a (legacy_args a summary ctx (sender_id e)) s)
  else (actions, handle_single_turn a e summary ctx s).
End routing.
