(* ===== verification/CloseProps.v ===== *)
(** * What a close leaves behind

    The properties of the close path: which records an event closes, what each of
    them leaves in the episodic store and under whose axes, when a replayed span is
    derived again, and what a vote parked at its turn may still close. *)

From Stdlib Require Import Ascii.
From S2P Require Import Prelude PyStr PyText PyDict PyValue PyFloat Ambient RowScope Scopes Interactions ReplayBookkeeping Tracker TrackerProps PersonaEvents Classification Cascade ChannelIngress Episodes TurnIngest ClosePath.
Local Open Scope string_scope.
Local Open Scope py_scope.

Definition rows (s : CloseState) : list EpisodeRow := episodes (memory s).
Definition row_ids (db : EpisodeDb) : list string := map (ep_id ∘ row_to_episode) (episodes db).

Section close_props.
Context (em : EpisodicMemory) (str_of : pyval -> string) (sha256_hex : string -> string).
Context (clock : nat -> Q) (fresh : nat -> string).

Abbreviation persist := (persist_closed_interaction em str_of sha256_hex clock fresh).

(** The row a record is entitled to: pending, under the record's own tenant,
    epoch, session, speaker, scope and protection level, holding its own turns. *)
Definition filed_for (i : Interaction) (r : EpisodeRow) : Prop :=
  let e := row_to_episode r in
  let own := own_turn_items str_of i in
  row_principal r = Principal.normalize_principal_id (Some (principal_id i))
  /\ (truthy (epoch_id i) = true -> row_epoch r = Epoch.normalize_epoch_id (Some (epoch_id i)))
  /\ row_speaker r = or_none (Some (speaker_id i))
  /\ ep_agent_id e = em_agent em
  /\ ep_session_id e = Session.normalize_session_id (Some (session_id i))
  /\ ep_scope e = Some (scope i)
  /\ ep_protection_level e = normalize_for_stamp (classification i)
  /\ ep_summary e = SUMMARY_PENDING_TEXT
  /\ ep_context e = close_context i own
  /\ own <> [] /\ never_derived i = false.

(** Whether a record leaves a row at all. *)
Definition derives (i : Interaction) : bool :=
  negb (never_derived i) && match own_turn_items str_of i with [] => false | _ => true end.

Lemma sql_ok {A} (f : EpisodeDb -> A * EpisodeDb) db :
  failures db = [] -> sql f db = (Ok (f db).1, (f db).2).
Proof.
  intros H. unfold sql. rewrite H. replace (set_failures (tail []) db) with db; [by destruct (f db)|].
  by destruct db; simpl in *; subst.
Qed.

Lemma insert_episode_rows r db :
  match insert_episode r db with
  | (Ok id, db') => episodes db' = (episodes db ++ [r])%list
  | (Raise _, db') => episodes db' = episodes db
  end.
Proof.
  unfold insert_episode, sql. destruct (failures db) as [|[] fs]; cbn [fst snd]; [|done|];
    case_bool_decide; done.
Qed.

(** The context a record's rows are written in, whoever closes it. *)
Definition record_context (i : Interaction) (a : ambient) : ambient :=
  let a := ax_set Principal.ax (Some (Principal.normalize_principal_id (Some (principal_id i)))) a in
  if truthy (epoch_id i) then ax_set Epoch.ax (Some (Epoch.normalize_epoch_id (Some (epoch_id i)))) a else a.

Lemma record_write_scopes_run {A} i (block : body A) a :
  (record_write_scopes i block a).1 = (block (record_context i a)).1.
Proof.
  unfold record_write_scopes, Principal.principal_scope, record_context. rewrite with_scope_run. cbn [fst].
  destruct (truthy (epoch_id i)); [|done]. unfold Epoch.epoch_scope. by rewrite with_scope_run.
Qed.

Lemma store_close_row a i s :
  own_turn_items str_of i <> [] -> never_derived i = false ->
  let own := own_turn_items str_of i in
  match store_episode em (episode_call clock fresh (record_context i a) s)
          (close_row i own (normalize_for_stamp (classification i))) (memory s) with
  | (Ok id, db) => exists r, episodes db = (rows s ++ [r])%list /\ filed_for i r
                             /\ ep_interaction_id (row_to_episode r) = Some (interaction_id i)
                             /\ ep_id (row_to_episode r) = fresh (reads s)
  | (Raise _, db) => episodes db = rows s
  end.
Proof.
  intros Hown Hnd own. unfold store_episode, close_row. cbn [ea_summary].
  change (negb (truthy SUMMARY_PENDING_TEXT) || negb (truthy (strip SUMMARY_PENDING_TEXT))) with false. cbv iota zeta.
  match goal with |- context [insert_episode ?r ?db] => pose proof (insert_episode_rows r db) as H; set (row := r) in * end.
  destruct (insert_episode row (memory s)) as [[id|x] db]; [|done].
  exists row. split; [exact H|]. split; [|done]. unfold filed_for. subst row own. cbn.
  split; [done|]. split.
  { intros He. unfold resolve_active_epoch, resolve_active, record_context. rewrite He. rewrite ax_get_set. cbn.
    unfold str_or. by rewrite (proj2 (truthy_true _) (normalize_id_truthy Epoch.ax _)). }
  split; [by destruct (truthy (speaker_id i)) eqn:E; cbn; rewrite ?E|]. by repeat split.
Qed.

Lemma replay_guard_rows a i level ids db :
  forall r, r ∈ episodes (replay_span_already_derived sha256_hex em a i level ids db).2 -> r ∈ episodes db.
Proof.
  unfold replay_span_already_derived. destruct (replay_span_identity _ _ _ _ _ _) as [identity|]; [|done].
  unfold has_episode_for_interaction, episode_exists_for_interaction, clear_failed_episode,
    clear_failed_episode_for_interaction, sql.
  destruct (failures db) as [|[] fs]; cbn [fst snd]; [|done|]; (destruct (existsb _ _); cbn [fst snd]; [done|]).
  - cbn. intros r Hr. by apply list_elem_of_In, filter_In in Hr as [Hr%list_elem_of_In _].
  - cbn. destruct fs as [|[] fs]; cbn; [|done|]; intros r Hr; by apply list_elem_of_In, filter_In in Hr as [Hr%list_elem_of_In _].
Qed.

(** What persisting one record may change. *)
Record persisted (o : oid) (i : Interaction) (s s' : CloseState) : Prop := {
  persisted_tracker : tracker s' = tracker s
    \/ replayed i = true /\ exists id, tracker s' = edit (set_interaction_id id) (tracker s) o;
  persisted_rows : forall r, r ∈ rows s' -> r ∈ rows s \/ filed_for i r;
  persisted_tasks : pending_tasks s' = pending_tasks s
    \/ exists t, pending_tasks s' = (pending_tasks s ++ [t])%list /\ st_record t = o /\ turns i <> [];
  persisted_votes : pending_vote_closes s' = pending_vote_closes s;
  persisted_voted : vote_closed_wire_ids s' = vote_closed_wire_ids s }.

Lemma persisted_nothing o i s s' :
  tracker s' = tracker s \/ (replayed i = true /\ exists id, tracker s' = edit (set_interaction_id id) (tracker s) o) ->
  (forall r, r ∈ rows s' -> r ∈ rows s) -> pending_tasks s' = pending_tasks s ->
  pending_vote_closes s' = pending_vote_closes s -> vote_closed_wire_ids s' = vote_closed_wire_ids s -> persisted o i s s'.
Proof. intros. split; auto. Qed.

Lemma two_phase_persisted o i a s :
  own_turn_items str_of i <> [] -> never_derived i = false ->
  let own := own_turn_items str_of i in
  exists s', (two_phase em clock fresh o i own (normalize_for_stamp (classification i)) s (record_context i a)).1 = Ok s'
    /\ persisted o i s s' /\ tracker s' = tracker s /\ reads s' = S (reads s)
    /\ (failures (memory s) = [] -> fresh (reads s) ∉ row_ids (memory s) ->
        exists r, rows s' = (rows s ++ [r])%list /\ filed_for i r /\ ep_interaction_id (row_to_episode r) = Some (interaction_id i)
          /\ ep_id (row_to_episode r) = fresh (reads s) /\ failures (memory s') = []
          /\ pending_tasks s' = (pending_tasks s ++ [mkSummaryTask o (record_context i a) (replayed i) (session_id i)])%list).
Proof.
  intros Hown Hnd own. pose proof (store_close_row a i s Hown Hnd) as H. cbv zeta in H. unfold two_phase. subst own.
  assert (turns i <> []) as Ht.
  { intros E. apply Hown. unfold own_turn_items. by rewrite E. }
  destruct (store_episode _ _ _ _) as [[id|x] db] eqn:E.
  - destruct H as (r & Hr & Hf & Hid & Heid). eexists. split; [done|]. split.
    { split; cbn; auto.
      - unfold rows at 1. cbn. rewrite Hr. intros r' [?|Hr']%elem_of_app; [by left|]. apply list_elem_of_singleton in Hr'. subst. by right.
      - right. by eexists. }
    split; [done|]. split; [done|]. intros Hfs Hfr. exists r. split; [exact Hr|]. split; [done|]. split; [done|]. split; [done|].
    split; [|done]. cbn. revert E. unfold store_episode, insert_episode. rewrite sql_ok by done.
    case_match; [done|]. case_bool_decide; cbn; intros [=]; subst; done.
  - eexists. split; [done|]. split; [|split; [done|]; split; [done|]].
    { apply persisted_nothing; auto. unfold rows at 1. cbn. by rewrite H. }
    intros Hfs Hfr. exfalso. revert E. unfold store_episode, insert_episode. cbn [ea_summary close_row].
    change (negb (truthy SUMMARY_PENDING_TEXT) || negb (truthy (strip SUMMARY_PENDING_TEXT))) with false. cbv iota zeta.
    rewrite sql_ok by done. cbn [new_episode_row row_to_episode ep_id episode_call ec_uuid].
    rewrite bool_decide_false by done. done.
Qed.

Lemma persist_persisted a o i s : obj (tracker s) o = Some i -> persisted o i s (persist a o s).2.
Proof.
  intros Ho. unfold persist_closed_interaction, persist_record. rewrite Ho. cbn [snd].
  destruct (never_derived i) eqn:Hnd; [by apply persisted_nothing; auto|].
  destruct (own_turn_items str_of i) as [|x own] eqn:Hown; [by apply persisted_nothing; auto|].
  assert (own_turn_items str_of i <> []) as Hne by (by rewrite Hown). rewrite <- Hown. clear Hown.
  destruct (replayed i) eqn:Hr.
  - pose proof (replay_guard_rows a i (normalize_for_stamp (classification i)) (wire_ids str_of i) (memory s)) as Hg.
    destruct (replay_span_already_derived _ _ _ _ _ _ _) as [[already identity] db]. cbn [fst snd] in Hg.
    set (i' := match identity with Some id => set_interaction_id id i | None => i end).
    set (s1 := set_memory db _).
    assert (tracker s1 = tracker s \/ (replayed i = true /\ exists id, tracker s1 = edit (set_interaction_id id) (tracker s) o)) as Ht.
    { subst s1. destruct identity as [id|]; cbn; eauto. }
    destruct already; [by apply persisted_nothing|].
    rewrite record_write_scopes_run.
    assert (own_turn_items str_of i' = own_turn_items str_of i /\ never_derived i' = never_derived i
            /\ classification i' = classification i /\ (forall r, filed_for i' r <-> filed_for i r) /\ turns i' = turns i) as (Eo & En & Ec & Ef & Et).
    { subst i'. by destruct identity. }
    rewrite <- Eo, <- Ec. rewrite <- Eo in Hne. rewrite <- En in Hnd.
    destruct (two_phase_persisted o i' a s1 Hne Hnd) as (s2 & E2 & Hp & Hts & _). rewrite E2.
    destruct Hp as [_ Hrows Htasks Hv Hvc]. split.
    + by rewrite Hts.
    + intros r Hr2. destruct (Hrows r Hr2) as [H|H]; [left; by apply Hg|right; by apply Ef].
    + rewrite <- Et. exact Htasks.
    + exact Hv.
    + exact Hvc.
  - rewrite record_write_scopes_run. cbv iota.
    replace (set_memory (memory s) (set_tracker (tracker s) s)) with s by by destruct s.
    destruct (two_phase_persisted o i a s Hne Hnd) as (s2 & E2 & Hp & _). by rewrite E2.
Qed.

(** A live record with turns of its own is filed, unless the write fails. *)
Lemma persist_live a o i s :
  obj (tracker s) o = Some i -> replayed i = false -> failures (memory s) = [] -> fresh (reads s) ∉ row_ids (memory s) ->
  let s' := (persist a o s).2 in
  failures (memory s') = []
  /\ if derives i then exists r, rows s' = (rows s ++ [r])%list /\ filed_for i r
       /\ ep_interaction_id (row_to_episode r) = Some (interaction_id i) /\ ep_id (row_to_episode r) = fresh (reads s) /\ reads s' = S (reads s)
     else s' = s.
Proof.
  intros Ho Hr Hf Hfr s'. subst s'. unfold persist_closed_interaction, persist_record, derives. rewrite Ho. cbn [snd].
  destruct (never_derived i) eqn:Hnd; [done|].
  destruct (own_turn_items str_of i) as [|x own] eqn:Hown; [done|].
  assert (own_turn_items str_of i <> []) as Hne by (by rewrite Hown). rewrite <- Hown, Hr. clear Hown. cbv iota.
  replace (set_memory (memory s) (set_tracker (tracker s) s)) with s by by destruct s.
  rewrite record_write_scopes_run.
  destruct (two_phase_persisted o i a s Hne Hnd) as (s2 & E2 & _ & _ & Hrd & Hx). rewrite E2.
  destruct (Hx Hf Hfr) as (r & H1 & H2 & H3 & H4 & H5 & _). split; [done|]. by exists r.
Qed.

(** ** A fan of closes *)

(** Records that only got a new id: replayed ones among [os]. *)
Record reidentified (os : list oid) (t t' : Tracker) : Prop := {
  re_open : open_ t' = open_ t;
  re_replay : replay t' = replay t;
  re_max : max_turns t' = max_turns t;
  re_length : length (heap t') = length (heap t);
  re_obj : forall o, obj t' o = obj t o
    \/ o ∈ os /\ exists i id, obj t o = Some i /\ replayed i = true /\ obj t' o = Some (set_interaction_id id i) }.

Lemma reidentified_refl os t : reidentified os t t.
Proof. split; auto. Qed.

Lemma reidentified_trans os1 os2 t1 t2 t3 :
  reidentified os1 t1 t2 -> reidentified os2 t2 t3 -> reidentified (os1 ++ os2) t1 t3.
Proof.
  intros [A1 A2 A3 A4 A5] [B1 B2 B3 B4 B5]. split; [congruence..|]. intros o. specialize (A5 o). specialize (B5 o).
  destruct A5 as [E1|(H1 & i & id & Hi & Hr & E1)]; destruct B5 as [E2|(H2 & i2 & id2 & Hi2 & Hr2 & E2)].
  - left. congruence.
  - right. split; [apply elem_of_app; auto|]. exists i2, id2. rewrite <- E1. auto.
  - right. split; [apply elem_of_app; auto|]. exists i, id. rewrite E2. auto.
  - right. split; [apply elem_of_app; auto|]. exists i, id2. rewrite E1 in Hi2. injection Hi2 as <-. auto.
Qed.

Lemma reidentified_edit o id t i :
  obj t o = Some i -> replayed i = true -> reidentified [o] t (edit (set_interaction_id id) t o).
Proof.
  intros Ho Hr. unfold edit. rewrite Ho. split; [done..| |].
  - cbn. by rewrite length_insert.
  - intros o'. unfold obj in *. cbn. destruct (decide (o' = o)) as [->|Hne].
    + right. split; [by apply list_elem_of_singleton|]. exists i, id. split; [done|]. split; [done|].
      rewrite list_lookup_insert_eq; [done|]. by eapply lookup_lt_Some.
    + left. by rewrite list_lookup_insert_ne.
Qed.

Lemma persisted_reidentified o i s s' :
  obj (tracker s) o = Some i -> persisted o i s s' -> reidentified [o] (tracker s) (tracker s').
Proof.
  intros Ho [[E|(Hr & id & E)] _ _ _ _]; rewrite E; [apply reidentified_refl|by apply reidentified_edit with i].
Qed.

Lemma filed_for_id id i r : filed_for (set_interaction_id id i) r <-> filed_for i r.
Proof. done. Qed.

Record fanned (os : list oid) (s s' : CloseState) : Prop := {
  fanned_tracker : reidentified os (tracker s) (tracker s');
  fanned_rows : forall r, r ∈ rows s' -> r ∈ rows s \/ exists o i, o ∈ os /\ obj (tracker s) o = Some i /\ filed_for i r;
  fanned_tasks : forall t, t ∈ pending_tasks s' ->
    t ∈ pending_tasks s \/ exists i, st_record t ∈ os /\ obj (tracker s) (st_record t) = Some i /\ turns i <> [];
  fanned_votes : pending_vote_closes s' = pending_vote_closes s;
  fanned_voted : vote_closed_wire_ids s' = vote_closed_wire_ids s }.

Lemma re_obj_back os t t' o i' : reidentified os t t' -> obj t' o = Some i' ->
  exists i, obj t o = Some i /\ (i' = i \/ exists id, i' = set_interaction_id id i).
Proof.
  intros [_ _ _ _ H] E. destruct (H o) as [E'|(_ & i & id & Hi & _ & E')]; rewrite E in E'.
  - by exists i'; auto.
  - exists i. injection E' as ->. eauto.
Qed.

Lemma fan_persisted a os : forall s, fanned os s (persist_fanned_closes (persist a) os s).
Proof.
  unfold persist_fanned_closes. induction os as [|o os IH]; intros s; cbn [fold_left].
  { split; auto. apply reidentified_refl. }
  destruct (obj (tracker s) o) as [i|] eqn:Ho.
  - pose proof (persist_persisted a o i s Ho) as Hp. pose proof (persisted_reidentified o i s _ Ho Hp) as Hre.
    destruct Hp as [_ Hrows Htasks Hv Hvc]. set (s1 := (persist a o s).2) in *.
    destruct (IH s1) as [Ft Fr Fk Fv Fc]. split; [by apply (reidentified_trans [o] os _ _ _ Hre)| | |congruence|congruence].
    + intros r Hr. destruct (Fr r Hr) as [H|(o' & i' & Hin & Hi' & Hf)].
      * destruct (Hrows r H) as [?|?]; [by left|]. right. exists o, i. split; [left|]. done.
      * right. destruct (re_obj_back _ _ _ _ _ Hre Hi') as (j & Hj & E). exists o', j.
        split; [by right|]. split; [done|]. destruct E as [->|(id & ->)]; done.
    + intros k Hk. destruct (Fk k Hk) as [H|(i' & Hin & Hi' & Hn)].
      * destruct Htasks as [E|(k' & E & Hst & Ht)]; rewrite E in H; [by left|].
        apply elem_of_app in H as [H|H%list_elem_of_singleton]; [by left|]. subst k'.
        right. exists i. rewrite Hst. split; [left|]. done.
      * right. destruct (re_obj_back _ _ _ _ _ Hre Hi') as (j & Hj & E). exists j. split; [by right|].
        split; [done|]. by destruct E as [->|(id & ->)].
  - assert ((persist a o s).2 = s) as -> by (unfold persist_closed_interaction; by rewrite Ho).
    destruct (IH s) as [Ft Fr Fk Fv Fc]. split; auto.
    + apply (reidentified_trans [o] os _ _ _ (reidentified_refl _ _) Ft).
    + intros r Hr. destruct (Fr r Hr) as [H|(o' & i' & Hin & H)]; [by left|]. right. exists o', i'. split; [by right|done].
    + intros k Hk. destruct (Fk k Hk) as [H|(i' & Hin & H)]; [by left|]. right. exists i'. split; [by right|done].
Qed.

(** Where the store answers and ids are fresh, every live record of a fan is filed. *)
Definition store_answers (s : CloseState) : Prop :=
  failures (memory s) = [] /\ forall k, (reads s <= k)%nat -> fresh k ∉ row_ids (memory s).

Lemma fan_live_filed a os : forall s,
  (forall j k, fresh j = fresh k -> j = k) -> store_answers s ->
  (forall o, o ∈ os -> exists i, obj (tracker s) o = Some i /\ replayed i = false) ->
  let s' := persist_fanned_closes (persist a) os s in
  (forall r, r ∈ rows s -> r ∈ rows s')
  /\ (forall o i, o ∈ os -> obj (tracker s) o = Some i -> derives i = true ->
       exists r, r ∈ rows s' /\ filed_for i r /\ ep_interaction_id (row_to_episode r) = Some (interaction_id i)).
Proof.
  unfold persist_fanned_closes. induction os as [|o os IH]; intros s Hinj [Hf Hid] Hlive; cbn [fold_left].
  { split; [done|]. intros o i Hin. by apply elem_of_nil in Hin. }
  destruct (Hlive o) as (i & Ho & Hr); [by left|].
  pose proof (persist_persisted a o i s Ho) as [[Et|(Hr' & _)] _ _ _ _]; [|congruence].
  destruct (persist_live a o i s Ho Hr Hf (Hid _ (le_n _))) as [Hf1 Hcase]. set (s1 := (persist a o s).2) in *.
  assert (store_answers s1 /\ (forall r, r ∈ rows s -> r ∈ rows s1)
          /\ (derives i = true -> exists r, r ∈ rows s1 /\ filed_for i r /\ ep_interaction_id (row_to_episode r) = Some (interaction_id i)))
    as (Hs1 & Hmono & Hfiled).
  { destruct (derives i).
    - destruct Hcase as (r & Hrows & Hfor & Hiid & Heid & Hreads). split; [|split].
      + split; [done|]. intros k Hk. unfold row_ids, rows in *. rewrite Hrows, map_app. cbn.
        rewrite Heid. intros [H|H%list_elem_of_singleton]%elem_of_app.
        * apply (Hid k); [lia|done].
        * apply Hinj in H. lia.
      + intros r' Hr'. rewrite Hrows. apply elem_of_app. by left.
      + intros _. exists r. split; [|done]. rewrite Hrows. apply elem_of_app. right. by apply list_elem_of_singleton.
    - rewrite Hcase. done. }
  destruct (IH s1 Hinj Hs1) as [Hm Hfl].
  { intros o' Hin. rewrite Et. apply Hlive. by right. }
  split; [by eauto|]. intros o' i' [->|Hin]%elem_of_cons Ho' Hd.
  - rewrite Ho in Ho'. injection Ho' as <-. destruct (Hfiled Hd) as (r & Hr1 & Hr2). exists r. by auto.
  - apply (Hfl o'); [done| |done]. by rewrite Et.
Qed.

(** ** Closing a room *)

Definition room_admits (sc : string) (accepts : Interaction -> bool) (i : Interaction) : bool :=
  is_open i && admitted (Some sc) (Some accepts) i.

Lemma admitted_members t sc accepts o i : wf t -> obj t o = Some i ->
  (o ∈ admitted_records t (Some sc) (Some accepts) <-> room_admits sc accepts i = true).
Proof.
  intros Hwf Ho. unfold admitted_records, room_admits. rewrite list_elem_of_filter. unfold holds. rewrite Ho.
  destruct (open_records_ok t Hwf) as [_ Hop]. rewrite Forall_forall in Hop. rewrite andb_true_iff. split.
  - intros [H Hin]. specialize (Hop o Hin). unfold holds in Hop. by rewrite Ho in Hop.
  - intros [H1 H2]. split; [done|]. destruct Hwf as (_ & _ & Hall). unfold open_records, dvalues. apply list_elem_of_fmap.
    exists (record_key i, o). split; [done|]. by apply dget_Some_elem, Hall.
Qed.

Lemma room_sweep t c sc reason accepts : wf t ->
  let '(closed, t') := close_scope t c (Some sc) reason None (Some accepts) in
  (forall o i, obj t o = Some i ->
     obj t' o = Some (if room_admits sc accepts i then mark_closed (Tracker.clock c) reason None i else i))
  /\ (forall o i, obj t o = Some i -> (o ∈ closed <-> room_admits sc accepts i = true))
  /\ (forall o, o ∈ closed -> exists i, obj t o = Some i /\ room_admits sc accepts i = true /\ replayed i = false).
Proof.
  intros Hwf. pose proof (close_scope_spec t c (Some sc) reason None (Some accepts) Hwf) as H.
  destruct (close_scope _ _ _ _ _ _) as [closed t']. destruct H as (Hc & Hobj & _). cbn [default] in Hobj.
  change (closed = admitted_records t (Some sc) (Some accepts)) in Hc.
  assert (forall o i, obj t o = Some i -> (o ∈ closed <-> room_admits sc accepts i = true)) as Hm.
  { intros o i Ho. rewrite Hc. by apply admitted_members. }
  split; [|split; [done|]].
  - intros o i Ho. rewrite (Hobj o i Ho). specialize (Hm o i Ho).
    destruct (room_admits sc accepts i), (decide (o ∈ closed)); case_bool_decide; try done; naive_solver.
  - intros o Ho. destruct (obj t o) as [i|] eqn:E.
    + exists i. assert (room_admits sc accepts i = true) as Ha by by apply (Hm o i).
      split; [done|]. split; [done|]. unfold room_admits, admitted in Ha. by destruct (replayed i); rewrite ?andb_false_r in Ha.
    + rewrite Hc in Ho. apply list_elem_of_filter in Ho as [Ho _]. unfold holds in Ho. by rewrite E in Ho.
Qed.

(** What [close_room] does. *)
Lemma room_close_spec a sc reason accepts s (Hwf : wf (tracker s)) :
  let close i := mark_closed (clock (reads s)) reason None i in
  let s' := close_room em str_of sha256_hex clock fresh a (Some sc) reason accepts s in
  (forall o i, obj (tracker s) o = Some i ->
     obj (tracker s') o = Some (if room_admits sc accepts i then close i else i))
  /\ (forall r, r ∈ rows s' -> r ∈ rows s
        \/ exists o i, obj (tracker s) o = Some i /\ room_admits sc accepts i = true /\ filed_for (close i) r)
  /\ ((forall j k, fresh j = fresh k -> j = k) -> store_answers s ->
      forall o i, obj (tracker s) o = Some i -> room_admits sc accepts i = true -> derives i = true ->
        exists r, r ∈ rows s' /\ filed_for (close i) r /\ ep_interaction_id (row_to_episode r) = Some (interaction_id i)).
Proof.
  intros close s'. subst s'. unfold close_room, on_tracker.
  pose proof (room_sweep (tracker s) (tracker_call clock fresh a s) sc reason accepts Hwf) as H.
  destruct (close_scope _ _ _ _ _ _) as [closed t']. destruct H as (Hobj & Hm & Hin). cbn in Hobj. fold close in Hobj.
  set (s1 := read_once (set_tracker t' s)).
  assert (forall o i, obj (tracker s) o = Some i -> room_admits sc accepts i = true -> obj (tracker s1) o = Some (close i)) as Hobj1.
  { intros o i Ho Ha. subst s1. cbn. by rewrite (Hobj o i Ho), Ha. }
  assert (forall o, o ∈ closed -> exists i, obj (tracker s1) o = Some i /\ replayed i = false) as Hlive.
  { intros o Ho. destruct (Hin o Ho) as (i & Hi & Ha & Hr). exists (close i). by rewrite (Hobj1 o i). }
  destruct (fan_persisted a closed s1) as [Ft Fr _ _ _]. split; [|split].
  - intros o i Ho. destruct (re_obj _ _ _ Ft o) as [E|(Hoc & i' & id & Hi' & Hr & _)].
    + rewrite E. subst s1. cbn. by apply Hobj.
    + destruct (Hlive o Hoc) as (j & Hj & Hrj). congruence.
  - intros r Hr. destruct (Fr r Hr) as [?|(o & i & Ho & Hi & Hf)]; [by left|]. right.
    destruct (Hin o Ho) as (j & Hj & Ha & _). exists o, j. split; [done|]. split; [done|].
    rewrite (Hobj1 o j Hj Ha) in Hi. by injection Hi as <-.
  - intros Hinj [Hf Hid] o i Ho Ha Hd.
    destruct (fan_live_filed a closed s1 Hinj) as [_ Hfl]; [|done|].
    { split; [done|]. intros k Hk. apply Hid. subst s1. cbn in Hk. lia. }
    apply (Hfl o (close i)); [|by apply Hobj1|done]. by apply (Hm o i).
Qed.

(** C4. Closing a room closes exactly its open live records that the caller admits,
    all at one instant, and changes no other; each row that appears is one of those
    records' own: its tenant, epoch, session, speaker and protection level, and its
    own turns without the text or the message id, whoever asks for the close and
    whichever of the writes fail. Where the store answers, each such record that has
    turns of its own is filed. *)
Theorem room_close_exact a sc reason accepts s (Hwf : wf (tracker s)) :
  let close i := mark_closed (clock (reads s)) reason None i in
  let s' := close_room em str_of sha256_hex clock fresh a (Some sc) reason accepts s in
  (forall o i, obj (tracker s) o = Some i ->
     obj (tracker s') o = Some (if room_admits sc accepts i then close i else i))
  /\ (forall r, r ∈ rows s' -> r ∈ rows s
        \/ exists o i, obj (tracker s) o = Some i /\ room_admits sc accepts i = true /\ filed_for (close i) r)
  /\ ((forall j k, fresh j = fresh k -> j = k) -> store_answers s ->
      forall o i, obj (tracker s) o = Some i -> room_admits sc accepts i = true -> derives i = true ->
        exists r, r ∈ rows s' /\ filed_for (close i) r /\ ep_interaction_id (row_to_episode r) = Some (interaction_id i)).
Proof. by apply room_close_spec. Qed.

(** ** A replayed span *)

Definition span_of (a : ambient) (i : Interaction) : option string :=
  replay_span_identity sha256_hex i (em_agent em) (digest_epoch em a i) (normalize_for_stamp (classification i)) (wire_ids str_of i).

Definition derived (id : string) (s : CloseState) : bool :=
  existsb (λ r, derived_for (em_agent em) id (row_to_episode r)) (rows s).

Definition spared (id : string) (rs : list EpisodeRow) : list EpisodeRow :=
  List.filter (λ r, negb (tombstone_of (em_agent em) id (row_to_episode r))) rs.

Lemma guard_spec a i id s :
  span_of a i = Some id -> failures (memory s) = [] ->
  let g := replay_span_already_derived sha256_hex em a i (normalize_for_stamp (classification i)) (wire_ids str_of i) (memory s) in
  g.1 = (derived id s, Some id) /\ failures g.2 = []
  /\ episodes g.2 = if derived id s then rows s else spared id (rows s).
Proof.
  intros Hid Hf g. subst g. unfold replay_span_already_derived. unfold span_of in Hid. rewrite Hid.
  unfold has_episode_for_interaction, episode_exists_for_interaction. rewrite sql_ok by done. cbn [fst snd].
  unfold derived, rows. destruct (existsb _ _); cbn [fst snd]; [done|].
  unfold clear_failed_episode, clear_failed_episode_for_interaction. rewrite sql_ok by done. done.
Qed.

Lemma spared_ids id db : forall x, x ∈ map (ep_id ∘ row_to_episode) (spared id (episodes db)) -> x ∈ row_ids db.
Proof.
  intros x (r & -> & Hr)%list_elem_of_fmap. apply list_elem_of_fmap. exists r. split; [done|].
  by apply list_elem_of_In, filter_In in Hr as [Hr%list_elem_of_In _].
Qed.

(** C16. A replayed span is derived once: persisting a record whose span has a row
    that is not the mark of a failed summary adds no row and no task, whichever
    start of the agent wrote that row; otherwise the marks of earlier failures go and
    one row comes, under the span's own identity, with one summary task held at the
    replay gate; and either way the span has a derived row afterwards. *)
Theorem replayed_span_derived_once a o i s id
    (Ho : obj (tracker s) o = Some i) (Hr : replayed i = true) (Hd : derives i = true)
    (Hf : failures (memory s) = []) (Hfresh : fresh (reads s) ∉ row_ids (memory s)) (Hid : span_of a i = Some id) :
  let s' := (persist a o s).2 in
  obj (tracker s') o = Some (set_interaction_id id i)
  /\ derived id s' = true
  /\ (if derived id s then rows s' = rows s /\ pending_tasks s' = pending_tasks s
      else exists r, rows s' = (spared id (rows s) ++ [r])%list /\ filed_for i r
             /\ ep_interaction_id (row_to_episode r) = Some id
             /\ exists t, pending_tasks s' = (pending_tasks s ++ [t])%list /\ st_record t = o /\ st_gated t = true).
Proof.
  intros s'. subst s'. unfold persist_closed_interaction, persist_record. rewrite Ho. cbn [snd].
  unfold derives in Hd. destruct (never_derived i) eqn:Hnd; [done|].
  destruct (own_turn_items str_of i) as [|x own] eqn:Hown; [done|].
  assert (own_turn_items str_of i <> []) as Hne by (by rewrite Hown). rewrite <- Hown, Hr. clear Hown Hd.
  destruct (guard_spec a i id s Hid Hf) as (E1 & E2 & E3).
  destruct (replay_span_already_derived _ _ _ _ _ _ _) as [[already identity] db]. cbn [fst snd] in E1, E2, E3.
  injection E1 as -> ->. set (s1 := set_memory db _).
  assert (obj (tracker s1) o = Some (set_interaction_id id i)) as Ho1.
  { subst s1. unfold edit, obj in *. rewrite Ho. cbn. apply list_lookup_insert_eq. by eapply lookup_lt_Some. }
  destruct (derived id s) eqn:Ed.
  - split; [done|]. split; [|done]. unfold derived, rows. subst s1. cbn. rewrite E3. exact Ed.
  - rewrite record_write_scopes_run.
    destruct (two_phase_persisted o (set_interaction_id id i) a s1 Hne Hnd) as (s2 & Es & _ & Ets & _ & Hx).
    rewrite (Es : (two_phase em clock fresh o (set_interaction_id id i) (own_turn_items str_of i)
      (normalize_for_stamp (classification i)) s1 (record_context (set_interaction_id id i) a)).1 = Ok s2).
    destruct Hx as (r & Hrows & Hfor & Hiid & _ & _ & Htk); [done| |].
    { subst s1. cbn. unfold row_ids. rewrite E3. intros H%spared_ids. done. }
    assert (rows s1 = spared id (rows s)) as Er1 by exact E3.
    split; [by rewrite Ets|]. split.
    + unfold derived. rewrite Hrows. rewrite existsb_app. apply orb_true_iff. right. cbn.
      destruct Hfor as (_ & _ & _ & Ha & _ & _ & _ & Hsum & _). unfold derived_for, owned, opt_is.
      rewrite Ha, Hiid, Hsum, String.eqb_refl. rewrite bool_decide_true by done. done.
    + exists r. rewrite Hrows, Er1. split; [done|]. split; [done|]. split; [done|].
      rewrite Htk. eexists. split; [done|]. split; [done|exact Hr].
Qed.

(** ** A vote *)

Definition one_fewer (p : PendingVoteClose) : PendingVoteClose :=
  mkPendingVote (pv_scope p) (pv_interaction_id p) (pv_token p) (pv_in_flight p - 1) (pv_wire_id p) (pv_sibling_ids p).

(** What the publishing of a vote may close: a live record of the parked scope, open
    when the vote was parked, on the voted wire interaction or on none. *)
Definition vote_may_close (p : PendingVoteClose) (s s' : CloseState) (i : Interaction) : Prop :=
  is_open i = true /\ replayed i = false /\ scope i = pv_scope p
  /\ (pv_sibling_ids p = [] \/ interaction_id i ∈ pv_sibling_ids p)
  /\ (Interactions.wire_interaction_id i = ""
      \/ dget (pv_scope p) (vote_closed_wire_ids s) <> Some (Interactions.wire_interaction_id i)
         /\ dget (pv_scope p) (vote_closed_wire_ids s') = Some (Interactions.wire_interaction_id i)).

Lemma vote_admits_may p anchor s i s' :
  room_admits (pv_scope p) (vote_admits p anchor) i = true ->
  (truthy anchor = true -> dget (pv_scope p) (vote_closed_wire_ids s) <> Some anchor
     /\ dget (pv_scope p) (vote_closed_wire_ids s') = Some anchor) -> vote_may_close p s s' i.
Proof.
  unfold room_admits, admitted, vote_admits, in_scope, wire_admits_record. rewrite !andb_true_iff.
  intros (Ho & (Hsc & Hr) & Hs & Hw) Ha. apply negb_true_iff in Hr. rewrite bool_decide_eq_true in Hsc.
  split; [done|]. split; [done|]. split; [done|]. split.
  - destruct (pv_sibling_ids p) eqn:E; [by left|]. right. by rewrite bool_decide_eq_true in Hs.
  - destruct (truthy (Interactions.wire_interaction_id i)) eqn:Et; [|left; by apply truthy_false]. right.
    destruct (truthy anchor) eqn:Ea; [|done]. apply String.eqb_eq in Hw. subst anchor. by apply Ha.
Qed.

Lemma close_room_votes a sc reason accepts s :
  let s' := close_room em str_of sha256_hex clock fresh a sc reason accepts s in
  pending_vote_closes s' = pending_vote_closes s /\ vote_closed_wire_ids s' = vote_closed_wire_ids s.
Proof.
  unfold close_room, on_tracker. destruct (close_scope _ _ _ _ _ _) as [closed t']. cbv zeta.
  by destruct (fan_persisted a closed (read_once (set_tracker t' s))) as [_ _ _ -> ->].
Qed.

(** The park goes, the wire interaction is noted, and the room is closed at most once. *)
Lemma discharge_published a channel synthesis s p :
  dget channel (pending_vote_closes s) = Some p ->
  exists anchor s2,
    tracker s2 = tracker s /\ pending_vote_closes s2 = ddel channel (pending_vote_closes s) /\ reads s2 = reads s
    /\ (truthy anchor = true -> dget (pv_scope p) (vote_closed_wire_ids s2) = Some anchor)
    /\ let out := discharge_end_vote_publish em str_of sha256_hex clock fresh a channel true (pv_token p) synthesis s in
       let closed := synthesis = false
         /\ (truthy anchor = true -> dget (pv_scope p) (vote_closed_wire_ids s) <> Some anchor)
         /\ out = close_room em str_of sha256_hex clock fresh a (Some (pv_scope p)) REASON_STRUCTURAL (vote_admits p anchor) s2 in
       (out = s2 \/ closed)
       /\ (synthesis = false -> truthy (pv_wire_id p) = true ->
           dget (pv_scope p) (vote_closed_wire_ids s) <> Some (pv_wire_id p) -> anchor = pv_wire_id p /\ closed).
Proof.
  intros Ep. unfold discharge_end_vote_publish. rewrite Ep, String.eqb_refl. cbn [negb].
  set (s1 := set_pending_votes _ s). cbv zeta.
  match goal with |- context [str_or (pv_wire_id p) ?w] => set (wire := w) end.
  set (anchor := str_or (pv_wire_id p) wire).
  set (s2 := if truthy anchor then set_vote_closed (dset (pv_scope p) anchor (vote_closed_wire_ids s1)) s1 else s1).
  exists anchor, s2.
  split; [subst s2; by destruct (truthy anchor)|]. split; [subst s2; by destruct (truthy anchor)|].
  split; [subst s2; by destruct (truthy anchor)|].
  split; [intros Ha; subst s2; rewrite Ha; cbn; apply dget_dset_eq|]. split.
  - destruct synthesis; [by left|]. destruct (_ && bool_decide (dget _ _ = _)) eqn:E; [by left|].
    destruct (negb _ && _); [by left|]. right. split; [done|]. split; [|done].
    intros Ha. rewrite Ha in E. cbn in E. by apply bool_decide_eq_false in E.
  - intros -> Hw Hv. assert (anchor = pv_wire_id p) as Ea by (subst anchor; unfold str_or; by rewrite Hw).
    split; [done|]. split; [done|]. rewrite Ea. split; [done|]. rewrite Hw. cbn [negb andb].
    by rewrite bool_decide_false by done.
Qed.

(** C11. A published vote closes only what it was cast on, and only once: without a
    parked vote, or with another vote's token, nothing happens; a refused publish
    uses up one of the park's tries and changes no record; a published one removes the
    park, and a record it changes is a live one of the room, among those open when the
    vote was parked, on no wire interaction or on one no vote had closed before and
    which is closed for votes from then on. A vote cast on a wire interaction not yet
    voted closed closes every such record of it. *)
Theorem vote_closes_its_own a channel published token synthesis s (Hwf : wf (tracker s)) (Hd : dwf (pending_vote_closes s)) :
  let s' := discharge_end_vote_publish em str_of sha256_hex clock fresh a channel published token synthesis s in
  match dget channel (pending_vote_closes s) with
  | None => s' = s
  | Some p =>
      if negb (String.eqb token (pv_token p)) then s' = s
      else
        dget channel (pending_vote_closes s') = (if negb published && (1 <? pv_in_flight p)%Z then Some (one_fewer p) else None)
        /\ (forall o i, obj (tracker s) o = Some i -> obj (tracker s') o <> Some i ->
              published = true /\ synthesis = false /\ vote_may_close p s s' i
              /\ obj (tracker s') o = Some (mark_closed (clock (reads s)) REASON_STRUCTURAL None i))
        /\ (published = true -> synthesis = false -> truthy (pv_wire_id p) = true ->
            dget (pv_scope p) (vote_closed_wire_ids s) <> Some (pv_wire_id p) ->
            forall o i, obj (tracker s) o = Some i -> room_admits (pv_scope p) (vote_admits p (pv_wire_id p)) i = true ->
              obj (tracker s') o = Some (mark_closed (clock (reads s)) REASON_STRUCTURAL None i))
  end.
Proof.
  intros s'. destruct (dget channel (pending_vote_closes s)) as [p|] eqn:Ep;
    [|subst s'; unfold discharge_end_vote_publish; by rewrite Ep].
  destruct (negb (String.eqb token (pv_token p))) eqn:Etok; [subst s'; unfold discharge_end_vote_publish; by rewrite Ep, Etok|].
  apply negb_false_iff, String.eqb_eq in Etok. subst token. destruct published; cbn [negb andb].
  - destruct (discharge_published a channel synthesis s p Ep) as (anchor & s2 & Et & Ev & Er & Hvc & Hcl & Hmust).
    fold s' in Hcl, Hmust. cbv zeta in Hcl, Hmust. assert (wf (tracker s2)) as Hwf2 by by rewrite Et.
    destruct (close_room_votes a (Some (pv_scope p)) REASON_STRUCTURAL (vote_admits p anchor) s2) as [Hp Hv].
    destruct (room_close_spec a (pv_scope p) REASON_STRUCTURAL (vote_admits p anchor) s2 Hwf2) as (Hobj & _ & _).
    rewrite Et, Er in Hobj. split; [|split].
    + destruct Hcl as [E|(_ & _ & E)]; rewrite E, ?Hp, Ev; by apply dget_ddel_eq.
    + intros o i Ho Hne. split; [done|]. destruct Hcl as [E|(Hs & Hfirst & E)]; [rewrite E, Et in Hne; done|].
      split; [done|]. rewrite E in Hne |- *. rewrite (Hobj o i Ho) in Hne |- *.
      destruct (room_admits _ _ i) eqn:Ea; [|done]. split; [|done].
      apply (vote_admits_may p anchor); [done|]. intros Ha. split; [by apply Hfirst|]. rewrite Hv. by apply Hvc.
    + intros _ Hs Hw Hnv o i Ho Ha. destruct (Hmust Hs Hw Hnv) as (-> & _ & _ & E). by rewrite E, (Hobj o i Ho), Ha.
  - subst s'. unfold discharge_end_vote_publish. rewrite Ep, String.eqb_refl. cbn [negb].
    destruct (1 <? pv_in_flight p)%Z; (split; [|split; [by intros|done]]); [apply dget_dset_eq|by apply dget_ddel_eq].
Qed.

(** ** The record a turn lands in *)

(** What later closes keep of a record. *)
Definition settles (i i' : Interaction) : Prop :=
  record_key i' = record_key i /\ turns i' = turns i
  /\ replayed i' = replayed i /\ replay_attributed i' = replay_attributed i
  /\ Interactions.wire_interaction_id i' = Interactions.wire_interaction_id i
  /\ predecessor_wire_id i' = predecessor_wire_id i /\ (is_open i = false -> is_open i' = false).

#[local] Instance settles_preorder : PreOrder settles.
Proof.
  split; [by repeat split|]. intros i j k (A1 & A2 & A3 & A4 & A5 & A6 & A7) (B1 & B2 & B3 & B4 & B5 & B6 & B7).
  repeat split; congruence || auto.
Qed.

Definition settled (t t' : Tracker) : Prop :=
  forall o i, obj t o = Some i -> exists i', obj t' o = Some i' /\ settles i i'.

#[local] Instance settled_preorder : PreOrder settled.
Proof.
  split; [intros t o i Hi; by exists i|]. intros t1 t2 t3 H1 H2 o i Hi.
  destruct (H1 o i Hi) as (j & Hj & E1). destruct (H2 o j Hj) as (k & Hk & E2). exists k. split; [done|]. by etrans.
Qed.

Lemma reidentified_settled os t t' : reidentified os t t' -> settled t t'.
Proof.
  intros [_ _ _ _ H] o i Hi. destruct (H o) as [E|(_ & j & id & Hj & _ & E)].
  - exists i. split; [congruence|done].
  - exists (set_interaction_id id j). split; [done|]. replace j with i by congruence. by repeat split.
Qed.

Lemma reidentified_wf os t t' : reidentified os t t' -> wf t -> wf t'.
Proof.
  intros Hre (Hd & Hmap & Hall). pose proof (re_open _ _ _ Hre) as Eo. split; [by rewrite Eo|]. rewrite Eo. split.
  - intros k o Hg. destruct (Hmap k o Hg) as (i & Hi & Hk & Hop).
    destruct (re_obj _ _ _ Hre o) as [E|(_ & j & id & Hj & _ & E)].
    + exists i. split; [|done]. change (obj t' o = Some i). by rewrite E.
    + exists (set_interaction_id id j). split; [exact E|]. replace j with i by (unfold obj in Hj; congruence). done.
  - intros o i' Hi' Hop. destruct (re_obj_back _ _ _ _ _ Hre Hi') as (i & Hi & [->|(id & ->)]); by apply (Hall o i).
Qed.

Lemma room_settled a sc reason accepts s : wf (tracker s) ->
  settled (tracker s) (tracker (close_room em str_of sha256_hex clock fresh a (Some sc) reason accepts s)).
Proof.
  intros Hwf o i Hi. destruct (room_close_spec a sc reason accepts s Hwf) as (H & _). rewrite (H o i Hi).
  eexists. split; [done|]. destruct (room_admits sc accepts i); by repeat split.
Qed.

(** What the stale sweep leaves: a record it visits and leaves open is current. *)
Definition current (target : RecordKey) (e : AgentEvent) (w : string) (i : Interaction) : Prop :=
  stale_close_reason str_of i e w (bool_decide (record_key i = target)) = None.

Record stale_swept (target : RecordKey) (e : AgentEvent) (w : string) (os : list oid) (t t' : Tracker) : Prop := {
  ss_wf : wf t';
  ss_obj : forall o i, obj t o = Some i -> exists i', obj t' o = Some i' /\ settles i i'
             /\ (is_open i' = true -> i' = i /\ (o ∈ os -> current target e w i));
  ss_length : length (heap t') = length (heap t) }.

Lemma stale_visit_spec c target e w t o i : wf t -> obj t o = Some i ->
  (stale_visit str_of c target e w t o = (None, t) /\ (is_open i = true -> current target e w i))
  \/ is_open i = true /\ exists reason win,
       stale_visit str_of c target e w t o = (Some o, closed_state t o i (Tracker.clock c) reason win).
Proof.
  intros Hwf Ho. unfold stale_visit. rewrite Ho. destruct (stale_close_reason _ _ _ _ _) as [reason|] eqn:Es; [|by left].
  rewrite close_record_spec, Ho by done. destruct (is_open i) eqn:Hop; [|by left].
  right. split; [done|]. by eexists _, _.
Qed.

Lemma stale_sweep_spec c target e w os : forall t, wf t ->
  stale_swept target e w os t (sweep (stale_visit str_of c target e w) t os).2.
Proof.
  induction os as [|o os IH]; intros t Hwf; cbn [sweep].
  { split; [done| |done]. intros o i Hi. exists i. split; [done|]. split; [done|]. intros _. split; [done|].
    intros H. by apply elem_of_nil in H. }
  destruct (obj t o) as [i|] eqn:Ho.
  - destruct (stale_visit_spec c target e w t o i Hwf Ho) as [(Ev & Hcur)|(Hop & reason & win & Ev)]; rewrite Ev.
    + destruct (IH t Hwf) as [W O L]. destruct (sweep _ t os) as [closed t']. split; [done| |done].
      intros o' j Hj. destruct (O o' j Hj) as (j' & Hj' & Hs & Hc). exists j'. split; [done|]. split; [done|].
      intros Hopen. destruct (Hc Hopen) as [-> Hin]. split; [done|]. intros [->|H]%elem_of_cons; [|by apply Hin].
      rewrite Ho in Hj. injection Hj as ->. by apply Hcur.
    + set (t1 := closed_state _ _ _ _ _ _) in *. assert (wf t1) as Hwf1 by by apply wf_closed_state.
      destruct (IH t1 Hwf1) as [W O L]. destruct (sweep _ t1 os) as [closed t']. split; [done| |].
      * intros o' j Hj. pose proof (obj_closed_state t o i (Tracker.clock c) reason win o' Ho) as E. fold t1 in E.
        destruct (decide (o = o')) as [<-|Hne].
        -- destruct (O o _ E) as (j' & Hj' & Hs & Hc). exists j'. split; [done|]. rewrite Ho in Hj. injection Hj as <-.
           split; [etrans; [|exact Hs]; by repeat split|]. intros Hopen. destruct (Hc Hopen) as [-> _]. done.
        -- rewrite <- E in Hj. destruct (O o' j Hj) as (j' & Hj' & Hs & Hc). exists j'. split; [done|]. split; [done|].
           intros Hopen. destruct (Hc Hopen) as [-> Hin]. split; [done|]. intros [->|H]%elem_of_cons; [done|by apply Hin].
      * cbn [snd] in L |- *. rewrite L. subst t1. destruct (closed_state_maps t o i (Tracker.clock c) reason win) as [-> _]. by rewrite length_insert.
  - assert (stale_visit str_of c target e w t o = (None, t)) as -> by (unfold stale_visit; by rewrite Ho).
    destruct (IH t Hwf) as [W O L]. destruct (sweep _ t os) as [closed t']. split; [done| |done].
    intros o' j Hj. destruct (O o' j Hj) as (j' & Hj' & Hs & Hc). exists j'. split; [done|]. split; [done|].
    intros Hopen. destruct (Hc Hopen) as [-> Hin]. split; [done|]. intros [->|H]%elem_of_cons; [congruence|by apply Hin].
Qed.

Lemma in_records_for_scope t sc o i :
  wf t -> obj t o = Some i -> is_open i = true -> scope i = sc -> o ∈ records_for_scope t sc.
Proof.
  intros Hwf Ho Hop Hsc. apply list_elem_of_filter. split.
  - unfold holds, in_scope. rewrite Ho. by apply bool_decide_true.
  - destruct Hwf as (_ & _ & Hall). unfold open_records, dvalues. apply list_elem_of_fmap.
    exists (record_key i, o). split; [done|]. by apply dget_Some_elem, Hall.
Qed.

Lemma close_stale_spec a sc e w s : wf (tracker s) ->
  let target := resolve_record_key a sc None (sender_id e) in
  let s' := close_stale_records em str_of sha256_hex clock fresh a sc e w s in
  wf (tracker s') /\ settled (tracker s) (tracker s') /\ length (heap (tracker s')) = length (heap (tracker s))
  /\ (forall o, dget target (open_ (tracker s')) = Some o -> exists i, obj (tracker s') o = Some i /\ current target e w i).
Proof.
  intros Hwf target s'. subst s'. unfold close_stale_records, on_tracker. fold target.
  pose proof (stale_sweep_spec (tracker_call clock fresh a s) target e w (records_for_scope (tracker s) sc) (tracker s) Hwf) as [W O L].
  destruct (sweep _ _ _) as [splits t']. cbn [snd] in W, O, L.
  set (s1 := read_once (set_tracker t' s)).
  destruct (fan_persisted a splits s1) as [Ft _ _ _ _]. set (s2 := persist_fanned_closes (persist a) splits s1) in *.
  change (tracker s1) with t' in Ft. pose proof (reidentified_wf _ _ _ Ft W) as Hwf2.
  split; [done|]. split.
  { transitivity t'; [|by apply (reidentified_settled splits)]. intros o i Hi.
    destruct (O o i Hi) as (i' & Hi' & Hs & _). by exists i'. }
  split; [by rewrite (re_length _ _ _ Ft)|]. intros o Hg. pose proof Hwf2 as (_ & Hmap & _). destruct (Hmap _ _ Hg) as (i2 & Hi2 & Hk & Hop).
  exists i2. split; [done|]. destruct (re_obj_back _ _ _ _ _ Ft Hi2) as (i1 & Hi1 & Heq).
  assert (is_open i1 = true) as Hop1 by by destruct Heq as [->|(id & ->)].
  assert (record_key i1 = target) as Hk1 by by destruct Heq as [->|(id & ->)].
  destruct (obj (tracker s) o) as [i|] eqn:Ho.
  2:{ unfold obj in *. apply lookup_ge_None in Ho. apply lookup_lt_Some in Hi1. lia. }
  destruct (O o i Ho) as (i1' & Hi1' & _ & Hcur). rewrite Hi1 in Hi1'. injection Hi1' as <-.
  destruct (Hcur Hop1) as [-> Hin].
  assert (current target e w i) as Hc.
  { apply Hin. apply (in_records_for_scope _ _ _ i); [done|done|done|]. by apply (f_equal snd) in Hk1. }
  by destruct Heq as [->|(id & ->)].
Qed.

(** The number of records and the cap, which closes leave alone. *)
Definition shape (t : Tracker) : nat * option Z := (length (heap t), max_turns t).

Lemma close_record_shape t c o reason now win : shape (close_record t c o reason now win).2 = shape t.
Proof.
  unfold close_record. destruct (obj t o); [|done]. case_bool_decide; [|done]. unfold shape.
  destruct (_ && _); cbn; by rewrite length_insert.
Qed.

Lemma sweep_shape visit os : (forall t o, shape (visit t o).2 = shape t) -> forall t, shape (sweep visit t os).2 = shape t.
Proof.
  intros H. induction os as [|o os IH]; intros t; cbn [sweep]; [done|]. specialize (H t o).
  destruct (visit t o) as [f t1]. specialize (IH t1). destruct (sweep visit t1 os) as [l t2]. cbn [snd] in *. congruence.
Qed.

Lemma fan_shape a os s : shape (tracker (persist_fanned_closes (persist a) os s)) = shape (tracker s).
Proof. destruct (fan_persisted a os s) as [Ft _ _ _ _]. unfold shape. by rewrite (re_length _ _ _ Ft), (re_max _ _ _ Ft). Qed.

Lemma stale_shape a sc e w s : shape (tracker (close_stale_records em str_of sha256_hex clock fresh a sc e w s)) = shape (tracker s).
Proof.
  unfold close_stale_records, on_tracker.
  pose proof (sweep_shape (stale_visit str_of (tracker_call clock fresh a s) (resolve_record_key a sc None (sender_id e)) e w)
    (records_for_scope (tracker s) sc)) as H. destruct (sweep _ _ _) as [l t'] eqn:E. rewrite fan_shape. cbn [tracker read_once set_tracker].
  rewrite <- (H ltac:(intros t o; unfold stale_visit; repeat case_match; first [apply close_record_shape|done]) (tracker s)). by rewrite E.
Qed.

Lemma room_shape a sc reason accepts s :
  shape (tracker (close_room em str_of sha256_hex clock fresh a sc reason accepts s)) = shape (tracker s).
Proof.
  unfold close_room, on_tracker, close_scope.
  pose proof (λ ts, sweep_shape (λ t o, close_record t (tracker_call clock fresh a s) o reason (Some ts) None)
    (admitted_records (tracker s) sc (Some accepts)) ltac:(intros; apply close_record_shape) (tracker s)) as H.
  specialize (H (Tracker.clock (tracker_call clock fresh a s))).
  cbn [default]. destruct (sweep _ _ _) as [l t'].
  by rewrite fan_shape.
Qed.

(** The wire interaction of the record a turn [w] lands on, by the one it had [before]:
    a record that has one keeps it, and is on it or continues it; a record without one
    takes the turn's, unless the turn fills it up and closes it first. *)
Definition on_wire (capped : bool) (before w : string) (i : Interaction) : Prop :=
  if truthy before then
    Interactions.wire_interaction_id i = before /\ (before = w \/ predecessor_wire_id i = w)
  else Interactions.wire_interaction_id i = if capped then "" else w.

(** A turn on the record of its event: its tenant, speaker and scope; opened by a
    message of the same provenance; on the event's wire interaction. *)
Definition landed (key : RecordKey) (e : AgentEvent) (max : option Z) (before w : string) (tn : Turn) (i : Interaction) : Prop :=
  record_key i = key /\ (replayed i, replay_attributed i) = replay_markers e /\ last (turns i) = Some tn
  /\ (truthy w = true -> on_wire (match max with Some m => (m <=? turn_count i)%Z | None => false end) before w i).

Lemma landed_settles key e max before w tn i i' : settles i i' -> landed key e max before w tn i -> landed key e max before w tn i'.
Proof.
  intros (A1 & A2 & A3 & A4 & A5 & A6 & A7) (B1 & B2 & B3 & B4). unfold landed, on_wire, turn_count in *. by rewrite A1, A2, A3, A4, A5, A6.
Qed.

(** The wire interaction of a record, where there is one. *)
Definition wire_before (t : Tracker) (o : oid) : string :=
  match obj t o with Some j => Interactions.wire_interaction_id j | None => "" end.

Lemma wire_before_settled t t' o : settled t t' -> length (heap t') = length (heap t) -> wire_before t' o = wire_before t o.
Proof.
  intros Hs Hl. unfold wire_before. destruct (obj t o) as [j|] eqn:E.
  - destruct (Hs o j E) as (j' & -> & _ & _ & _ & _ & Hw & _). done.
  - unfold obj in *. apply lookup_ge_None in E. by rewrite lookup_ge_None_2 by lia.
Qed.

Lemma current_wire key e w i : current key e w i -> record_key i = key -> is_open i = true ->
  (replayed i, replay_attributed i) = replay_markers e
  /\ (truthy w = true -> Interactions.wire_interaction_id i = "" \/ Interactions.wire_interaction_id i = w \/ predecessor_wire_id i = w).
Proof.
  unfold current, stale_close_reason. intros Hc Hk Hop. rewrite Hop in Hc. cbn [negb] in Hc.
  rewrite bool_decide_true in Hc by done. cbn [andb] in Hc. case_bool_decide as Hm; cbn [negb] in Hc; [|done].
  split; [done|]. intros Hw. destruct (wire_rotation_closes i w) eqn:Er; [done|].
  unfold wire_rotation_closes in Er. rewrite Hop, Hw in Er. cbn in Er.
  destruct (truthy (Interactions.wire_interaction_id i)) eqn:Et; [|left; by apply truthy_false]. right. cbn in Er.
  destruct (Interactions.wire_interaction_id i =? w) eqn:E1; [left; by apply String.eqb_eq|].
  destruct (predecessor_wire_id i =? w) eqn:E2; [right; by apply String.eqb_eq|done].
Qed.

Context (envelope_line : string -> list string -> string) (session : string).

Lemma wf_edit f t o : (forall i, record_key (f i) = record_key i /\ is_open (f i) = is_open i) -> wf t -> wf (edit f t o).
Proof.
  intros Hf Hwf. unfold edit. destruct (obj t o) as [i|] eqn:Ho; [|done].
  destruct (Hf i). by eapply wf_maps_update.
Qed.

Lemma obj_edit f t o o' : obj (edit f t o) o' = if decide (o = o') then f <$> obj t o else obj t o'.
Proof.
  unfold edit. destruct (obj t o) as [i|] eqn:Ho.
  - unfold obj in *. cbn. case_decide as H; [subst o'|by rewrite list_lookup_insert_ne].
    rewrite list_lookup_insert_eq; [done|]. by eapply lookup_lt_Some.
  - case_decide as H; [by subst o'|done].
Qed.

Lemma stamp_wire_keeps e w i : record_key (stamp_wire str_of e w i) = record_key i /\ is_open (stamp_wire str_of e w i) = is_open i
  /\ turns (stamp_wire str_of e w i) = turns i.
Proof. unfold stamp_wire. by destruct (_ && _ && _). Qed.

Lemma stamp_landed key e t ts w tn i0 :
  let before := Interactions.wire_interaction_id i0 in
  let i := turn_outcome t ts (append_to tn i0) in
  record_key i0 = key -> (replayed i0, replay_attributed i0) = replay_markers e -> is_open i0 = true ->
  (truthy w = true -> before = "" \/ before = w \/ predecessor_wire_id i0 = w) ->
  landed key e (max_turns t) before w tn (stamp_wire str_of e w i).
Proof.
  intros before i Hk Hm Hop Hw. subst i. unfold landed. destruct (stamp_wire_keeps e w (turn_outcome t ts (append_to tn i0))) as (-> & _ & Et).
  assert (turns (turn_outcome t ts (append_to tn i0)) = (turns i0 ++ [tn])%list) as Et0 by (unfold turn_outcome; by destruct (cap_reached _ _)).
  split; [unfold turn_outcome; by destruct (cap_reached _ _)|]. split.
  { unfold stamp_wire, turn_outcome. by destruct (cap_reached _ _), (_ && _ && _). }
  split; [rewrite Et, Et0; apply last_snoc|]. intros Htw. unfold turn_count. rewrite Et, Et0.
  change (Z.of_nat (length (turns i0 ++ [tn]))) with (turn_count (append_to tn i0)).
  change (match max_turns t with Some m => (m <=? turn_count (append_to tn i0))%Z | None => false end) with (cap_reached t (append_to tn i0)).
  unfold on_wire, stamp_wire, turn_outcome. rewrite Htw.
  destruct (cap_reached t (append_to tn i0)); cbn [andb is_open mark_closed append_to closed_at Interactions.wire_interaction_id].
  - change (is_open (mark_closed ts REASON_MAX_TURNS None (append_to tn i0))) with false. cbn. fold before.
    destruct (truthy before) eqn:Eb; [|by apply truthy_false]. split; [done|].
    destruct (Hw Htw) as [Hb|[?|?]]; [by rewrite Hb in Eb|by left|by right].
  - change (is_open (append_to tn i0)) with (is_open i0). rewrite Hop. cbn. fold before.
    destruct (truthy before) eqn:Eb; cbn; fold before; [|done]. split; [done|].
    destruct (Hw Htw) as [Hb|[?|?]]; [by rewrite Hb in Eb|by left|by right].
Qed.

Lemma ingest_spec a e sc w payload s :
  wf (tracker s) -> ambient_ok a ->
  let key := resolve_record_key a sc None (sender_id e) in
  (forall o, dget key (open_ (tracker s)) = Some o -> exists i, obj (tracker s) o = Some i /\ current key e w i) ->
  let tn := mkTurn (clock (reads s)) payload in
  let '(o, s') := ingest str_of clock fresh session a e sc w payload s in
  wf (tracker s')
  /\ (exists i, obj (tracker s') o = Some i /\ landed key e (max_turns (tracker s)) (wire_before (tracker s) o) w tn i
        /\ turns i = (match obj (tracker s) o with Some j => turns j | None => [] end ++ [tn])%list)
  /\ (forall o', o' <> o -> obj (tracker s') o' = obj (tracker s) o').
Proof.
  intros Hwf Ha key Hcur tn. unfold ingest, frozen_open_capture. destruct (replay_markers e) as [rep att] eqn:Em.
  unfold on_tracker. set (args := mkArgs _ _ _ _ _). set (c := tracker_call clock fresh a s).
  pose proof (add_turn_spec (tracker s) c sc (Some payload) None args None (sender_id e) Hwf Ha) as H.
  pose proof (wf_add_turn (tracker s) c sc (Some payload) None args None (sender_id e) Hwf) as Hwf1.
  cbv zeta in H. change (resolve_record_key (amb c) sc None (sender_id e)) with key in H.
  destruct (add_turn _ _ _ _ _ _ _ _) as [o1 t1]. cbn [snd] in Hwf1.
  destruct (target (tracker s) c key (default (Tracker.clock c) None) args) as [o i0] eqn:Etg.
  destruct H as (-> & Ho & _ & _ & Hoth).
  assert (record_key i0 = key /\ (replayed i0, replay_attributed i0) = replay_markers e
    /\ (truthy w = true -> Interactions.wire_interaction_id i0 = "" \/ Interactions.wire_interaction_id i0 = w \/ predecessor_wire_id i0 = w)
    /\ turns i0 = match obj (tracker s) o with Some j => turns j | None => [] end
    /\ is_open i0 = true /\ Interactions.wire_interaction_id i0 = wire_before (tracker s) o) as (Hk & Hm & Hw & Ht & Hop & Hwb).
  { unfold target in Etg. destruct (dget key (open_ (tracker s))) as [o'|] eqn:Eg.
    - destruct (Hcur o' eq_refl) as (i & Hi & Hc). pose proof Hwf as (_ & Hmap & _). destruct (Hmap _ _ Eg) as (i' & Hi' & Hk & Hop).
      assert (i' = i) as -> by (unfold obj in Hi; congruence). injection Etg as -> <-. unfold wire_before. rewrite Hi. cbn [default].
      destruct (current_wire key e w i Hc Hk Hop). done.
    - injection Etg as <- <-. split; [apply record_key_fresh|]. split; [by rewrite Em|]. split; [by left|].
      unfold wire_before, obj. by rewrite lookup_ge_None_2. }
  cbn [tracker set_tracker read_once reads]. split; [|split].
  - apply wf_edit; [|done]. intros i. destruct (stamp_wire_keeps e w i) as (-> & -> & _). done.
  - rewrite obj_edit, decide_True, Ho by done. cbn [fmap option_fmap option_map]. eexists. split; [done|].
    destruct (stamp_wire_keeps e w (turn_outcome (tracker s) (clock (reads s)) (append_to tn i0))) as (_ & _ & Et).
    unfold c in Ho. split.
    + rewrite <- Hwb. by apply stamp_landed.
    + etrans; [exact Et|]. rewrite <- Ht. unfold turn_outcome. by destruct (cap_reached _ _).
  - intros o' Hne. rewrite obj_edit, decide_False by done. by apply Hoth.
Qed.

Lemma park_tracker e sc o actions s : tracker (park_end_vote_close str_of fresh e sc o actions s).2 = tracker s.
Proof. unfold park_end_vote_close. by repeat case_match. Qed.

Lemma fan_settled a os s : wf (tracker s) ->
  wf (tracker (persist_fanned_closes (persist a) os s)) /\ settled (tracker s) (tracker (persist_fanned_closes (persist a) os s)).
Proof.
  intros Hwf. destruct (fan_persisted a os s) as [Ft _ _ _ _]. split; [by eapply reidentified_wf|by eapply reidentified_settled].
Qed.

Lemma room_wf a sc reason accepts s : wf (tracker s) ->
  wf (tracker (close_room em str_of sha256_hex clock fresh a sc reason accepts s)).
Proof.
  intros Hwf. unfold close_room, on_tracker.
  pose proof (wf_run_op (tracker s) (tracker_call clock fresh a s) (OpCloseScope sc reason None (Some accepts)) Hwf) as H. cbn in H.
  destruct (close_scope _ _ _ _ _ _) as [closed t']. by apply (fan_settled a closed (read_once (set_tracker t' s))).
Qed.


(** ** A close notification *)

(** What a notified record becomes: the anchor adopted by one without, the meter
    flag of a bounded close, the room's final turn unless the agent sent it itself
    or it was delivered before, and the close. *)
Definition notified (e : AgentEvent) (anchor : string) (now : Q) (i : Interaction) : Interaction :=
  let trigger := dget "close_notification_close_trigger" (ev_payload e) in
  let bounded := v_in trigger WIRE_BOUNDED_CLOSE_TRIGGERS in
  let i := if truthy anchor && negb (truthy (Interactions.wire_interaction_id i)) then set_wire anchor (predecessor_wire_id i) i else i in
  let i := if bounded then set_meter i else i in
  let i := if negb (bool_decide (sender_id e = Some (em_agent em)))
              && negb (is_true (dget "close_notification_redelivery" (ev_payload e)) && bounded)
           then append_to (mkTurn now (closing_turn envelope_line e)) i else i in
  mark_closed now (if v_in trigger [WIRE_CLOSE_TRIGGER_COST] then REASON_COST else REASON_STRUCTURAL) None i.

(** An update of each of the given records, in turn. *)
Lemma fold_visits (visit : Tracker -> oid -> Tracker) (f : Interaction -> Interaction) :
  (forall t o i, wf t -> obj t o = Some i -> is_open i = true ->
     wf (visit t o) /\ length (heap (visit t o)) = length (heap t)
     /\ forall o', obj (visit t o) o' = if decide (o = o') then f <$> obj t o' else obj t o') ->
  forall ks t, NoDup ks -> wf t -> (forall o, o ∈ ks -> holds t is_open o = true) ->
  let t' := fold_left visit ks t in
  wf t' /\ length (heap t') = length (heap t)
  /\ forall o, obj t' o = if bool_decide (o ∈ ks) then f <$> obj t o else obj t o.
Proof.
  intros Hv. induction ks as [|o ks IH]; intros t Hnd Hwf Hop; cbn [fold_left].
  { split; [done|]. split; [done|]. intros o. by rewrite bool_decide_false by apply not_elem_of_nil. }
  apply NoDup_cons in Hnd as [Hn Hnd]. pose proof (Hop o ltac:(by left)) as Ho. unfold holds in Ho.
  destruct (obj t o) as [i|] eqn:Ei; [|done].
  destruct (Hv t o i Hwf Ei Ho) as (Hwf1 & Hlen1 & Hobj1).
  destruct (IH (visit t o)) as (Hwf2 & Hlen2 & Hobj2); [done|done| |].
  { intros o' Hin. unfold holds. rewrite Hobj1. rewrite decide_False by (intros ->; done). apply (Hop o'). by right. }
  split; [done|]. split; [congruence|]. intros o'. rewrite Hobj2, Hobj1.
  destruct (decide (o = o')) as [<-|Hne].
  - rewrite (bool_decide_false (o ∈ ks)) by done. by rewrite bool_decide_true by left.
  - destruct (decide (o' ∈ ks)) as [Hin|Hin].
    + rewrite !bool_decide_true; [done|by right|done].
    + rewrite !bool_decide_false; [done| |done]. intros [->|?]%elem_of_cons; done.
Qed.

(** Every record of [ks], each still open, updated by [f], and no other. *)
Record updated (f : Interaction -> Interaction) (ks : list oid) (t t' : Tracker) : Prop := {
  up_wf : wf t';
  up_length : length (heap t') = length (heap t);
  up_obj : forall o, obj t' o = if bool_decide (o ∈ ks) then f <$> obj t o else obj t o;
  up_open : forall o, o ∈ ks -> holds t' is_open o = true }.

Definition all_open (ks : list oid) (t : Tracker) : Prop :=
  NoDup ks /\ wf t /\ forall o, o ∈ ks -> holds t is_open o = true.

Lemma updated_all_open f ks t t' : NoDup ks -> updated f ks t t' -> all_open ks t'.
Proof. by intros Hnd [? ? ? ?]. Qed.

Lemma updated_trans f g ks t1 t2 t3 : updated f ks t1 t2 -> updated g ks t2 t3 -> updated (g ∘ f) ks t1 t3.
Proof.
  intros [A1 A2 A3 A4] [B1 B2 B3 B4]. split; [done|congruence| |done].
  intros o. rewrite B3, A3. case_bool_decide; [|done]. by destruct (obj t1 o).
Qed.

Lemma updated_if (b : bool) f ks t t' : all_open ks t ->
  (b = true -> updated f ks t t') -> updated (λ i, if b then f i else i) ks t (if b then t' else t).
Proof.
  intros (Hnd & Hwf & Hop) H. destruct b; [by apply H|]. split; [done|done| |done].
  intros o. case_bool_decide; [|done]. by destruct (obj t o).
Qed.

Lemma updated_ext f g ks t t' : (forall i, f i = g i) -> updated f ks t t' -> updated g ks t t'.
Proof.
  intros E [A1 A2 A3 A4]. split; [done|done| |done]. intros o. rewrite A3. case_bool_decide; [|done].
  destruct (obj t o); [|done]. cbn. by rewrite E.
Qed.

Lemma visits_updated visit f ks t :
  (forall i, is_open (f i) = is_open i) ->
  (forall t o i, wf t -> obj t o = Some i -> is_open i = true ->
     wf (visit t o) /\ length (heap (visit t o)) = length (heap t)
     /\ forall o', obj (visit t o) o' = if decide (o = o') then f <$> obj t o' else obj t o') ->
  all_open ks t -> updated f ks t (fold_left visit ks t).
Proof.
  intros Hf Hv (Hnd & Hwf & Hop). destruct (fold_visits visit f Hv ks t Hnd Hwf Hop) as (H1 & H2 & H3).
  split; [done|done|done|]. intros o Hin. specialize (Hop o Hin). unfold holds in *.
  rewrite H3, bool_decide_true by done. destruct (obj t o); [|done]. cbn. by rewrite Hf.
Qed.

Lemma edit_all_updated f ks t :
  (forall i, record_key (f i) = record_key i /\ is_open (f i) = is_open i) -> all_open ks t -> updated f ks t (edit_all f ks t).
Proof.
  intros Hf. apply visits_updated; [apply Hf|]. intros t0 o i Hwf0 Ho Hi. split; [by apply wf_edit|]. split.
  - unfold edit. rewrite Ho. cbn. by rewrite length_insert.
  - intros o'. rewrite obj_edit. by case_decide; subst.
Qed.

Lemma append_updated c p now ks t : all_open ks t ->
  updated (append_to (mkTurn now p)) ks t (fold_left (λ t o, append_turn t c o (Some p) (Some now)) ks t).
Proof.
  apply visits_updated; [done|]. intros t0 o i Hwf0 Ho Hi. split; [by apply wf_append_turn|].
  unfold append_turn, holds, push_turn. rewrite Ho, Hi. cbn. split; [by rewrite length_insert|].
  intros o'. pose proof (obj_edit (append_to (mkTurn now p)) t0 o o') as E.
  unfold edit in E. rewrite Ho in E. rewrite E. by case_decide; subst; rewrite ?Ho.
Qed.

Lemma close_visits c reason now ks t : all_open ks t ->
  let '(closed, t') := sweep (λ t o, close_record t c o reason (Some now) None) t ks in
  closed = ks /\ wf t' /\ length (heap t') = length (heap t)
  /\ (forall o, obj t' o = if bool_decide (o ∈ ks) then mark_closed now reason None <$> obj t o else obj t o).
Proof.
  intros (Hnd & Hwf & Hop). rewrite sweep_close_record.
  pose proof (sweep_closes (λ _, Some reason) c now ks t Hwf Hnd) as H.
  assert (wf (sweep (close_by (λ _, Some reason) c now) t ks).2) as Hwf'.
  { apply sweep_wf; [|done]. intros t0 o Hwf0. unfold close_by. destruct (obj t0 o); [by apply wf_close_record|done]. }
  destruct (sweep _ t ks) as [closed t']. destruct H as (Hc & Hobj & _); [by apply Forall_forall|]. cbn [snd] in Hwf'.
  assert (forall o, obj t' o = if bool_decide (o ∈ ks) then mark_closed now reason None <$> obj t o else obj t o) as Hobj'.
  { intros o. rewrite Hobj. unfold swept. destruct (obj t o) as [i|]; [|by case_bool_decide]. cbn. by case_bool_decide. }
  split; [|split; [done|split; [|done]]].
  - rewrite Hc. apply filter_true_all, Forall_forall. intros o Hin. specialize (Hop o Hin). unfold holds in Hop.
    unfold TrackerProps.decided. destruct (obj t o); [eauto|done].
  - assert (forall o, is_Some (obj t' o) <-> is_Some (obj t o)) as Hs.
    { intros o. rewrite Hobj'. case_bool_decide; [|done]. by rewrite fmap_is_Some. }
    unfold obj in Hs. pose proof (Hs (length (heap t))) as H1. pose proof (Hs (length (heap t'))) as H2.
    rewrite !lookup_lt_is_Some in H1, H2. lia.
Qed.

Lemma land_and_close_spec e anchor t c ks : all_open ks t ->
  let '(closed, t') := land_and_close em envelope_line e anchor t c ks in
  closed = ks /\ wf t' /\ length (heap t') = length (heap t)
  /\ (forall o, obj t' o = if bool_decide (o ∈ ks) then notified e anchor (Tracker.clock c) <$> obj t o else obj t o).
Proof.
  intros Hall. pose proof (proj1 Hall) as Hnd. unfold land_and_close.
  set (adopt i := if truthy (Interactions.wire_interaction_id i) then i else set_wire anchor (predecessor_wire_id i) i).
  assert (forall i, record_key (adopt i) = record_key i /\ is_open (adopt i) = is_open i) as Hadopt
    by (intros i; unfold adopt; by destruct (truthy (Interactions.wire_interaction_id i))).
  pose proof (updated_if (truthy anchor) adopt ks t (edit_all adopt ks t) Hall (λ _, edit_all_updated adopt ks t Hadopt Hall)) as U1.
  set (t1 := if truthy anchor then _ else t) in *. pose proof (updated_all_open _ _ _ _ Hnd U1) as H1.
  set (bounded := v_in _ WIRE_BOUNDED_CLOSE_TRIGGERS).
  pose proof (updated_if bounded set_meter ks t1 (edit_all set_meter ks t1) H1
                (λ _, edit_all_updated set_meter ks t1 ltac:(done) H1)) as U2.
  set (t2 := if bounded then _ else t1) in *. pose proof (updated_all_open _ _ _ _ Hnd U2) as H2.
  match goal with |- context [if ?b && ?d then fold_left ?g ks t2 else t2] => set (lands := b && d) end.
  pose proof (updated_if lands _ ks t2 _ H2 (λ _, append_updated c (closing_turn envelope_line e) (Tracker.clock c) ks t2 H2)) as U3.
  set (t3 := if lands then _ else t2) in *. pose proof (updated_all_open _ _ _ _ Hnd U3) as H3.
  pose proof (updated_trans _ _ _ _ _ _ (updated_trans _ _ _ _ _ _ U1 U2) U3) as [_ L O _].
  pose proof (close_visits c (if v_in (dget "close_notification_close_trigger" (ev_payload e)) [WIRE_CLOSE_TRIGGER_COST]
                              then REASON_COST else REASON_STRUCTURAL) (Tracker.clock c) ks t3 H3) as Hc.
  destruct (sweep _ t3 ks) as [closed t']. destruct Hc as (-> & W & L' & O'). split; [done|]. split; [done|]. split; [congruence|].
  intros o. rewrite O', O. case_bool_decide; [|done]. destruct (obj t o) as [i|]; [|done]. cbn. unfold notified.
  fold bounded lands. subst adopt. cbn. by destruct (truthy anchor), (truthy (Interactions.wire_interaction_id i)).
Qed.

Lemma flush_wf a s : wf (tracker s) -> wf (tracker (flush_idle em str_of sha256_hex clock fresh a s)).
Proof.
  intros Hwf. unfold flush_idle, on_tracker.
  pose proof (wf_run_op (tracker s) (tracker_call clock fresh a s) (OpIdleCheck None None) Hwf) as H. cbn [run_op] in H.
  destruct (idle_check _ _ _ _) as [closed t']. by apply (fan_settled a closed (read_once (set_tracker t' s))).
Qed.

Lemma admitted_all_open t sc accepts : wf t -> all_open (admitted_records t (Some sc) (Some accepts)) t.
Proof.
  intros Hwf. destruct (open_records_ok t Hwf) as [Hnd Hop]. rewrite Forall_forall in Hop.
  split; [by apply NoDup_filter|]. split; [done|]. intros o Hin. apply list_elem_of_filter in Hin as [_ Hin]. by apply Hop.
Qed.

(** Whether an event is the notice of a close, and of which scope. *)
Definition notice_scope (e : AgentEvent) : option string :=
  if is_true (dget "interaction_close_notification" (ev_payload e)) && bool_decide (event_type e ∈ _MULTI_TURN_EVENT_TYPES)
  then _scope_for_multi_turn_event em e else None.

(** C18. A close notification ends every record the close concerns and touches no
    other: after the idle flush, each open live record of the scope that is on the
    closed wire interaction, or on none, gets the room's last turn (unless the agent
    sent it, or it is the second delivery of a bounded close), the wire id if it had
    none, and the close, all at one instant; no record is opened; each row that
    appears is one of those records' own; and an event that is no such notice changes
    nothing. *)
Theorem notification_closes_once a e s (Hwf : wf (tracker s)) :
  let s' := close_interaction_on_notification em str_of sha256_hex clock fresh envelope_line a e s in
  match notice_scope e with
  | None => s' = s
  | Some sc =>
      let s1 := flush_idle em str_of sha256_hex clock fresh a s in
      let anchor := scope_wire_anchor sc e in
      let concerns := room_admits sc (λ i, wire_admits_record i anchor true) in
      let ended := notified e anchor (clock (reads s1)) in
      length (heap (tracker s')) = length (heap (tracker s1))
      /\ (forall o i, obj (tracker s1) o = Some i -> obj (tracker s') o = Some (if concerns i then ended i else i))
      /\ (forall r, r ∈ rows s' -> r ∈ rows s1
            \/ exists o i, obj (tracker s1) o = Some i /\ concerns i = true /\ filed_for (ended i) r)
  end.
Proof.
  intros s'. subst s'. unfold notice_scope, close_interaction_on_notification.
  destruct (is_true (dget "interaction_close_notification" (ev_payload e))); [|done]. cbn [negb andb].
  destruct (bool_decide _); [|done]. cbn [negb]. destruct (_scope_for_multi_turn_event em e) as [sc|]; [|done].
  set (s1 := flush_idle em str_of sha256_hex clock fresh a s). set (anchor := scope_wire_anchor sc e).
  set (concerns := room_admits sc (λ i, wire_admits_record i anchor true)). set (ended := notified e anchor (clock (reads s1))).
  pose proof (flush_wf a s Hwf) as Hwf1. fold s1 in Hwf1.
  set (ks := admitted_records (tracker s1) (Some sc) (Some (λ i, wire_admits_record i anchor true))).
  assert (forall o i, obj (tracker s1) o = Some i -> (o ∈ ks <-> concerns i = true)) as Hm
    by (intros o i Ho; by apply admitted_members).
  destruct ks as [|k ks'] eqn:Ek.
  { split; [done|]. split; [|by left]. intros o i Ho. destruct (concerns i) eqn:Ec; [|done].
    apply (Hm o i Ho) in Ec. by apply elem_of_nil in Ec. }
  rewrite <- Ek in *. unfold on_tracker.
  pose proof (land_and_close_spec e anchor (tracker s1) (tracker_call clock fresh a s1) ks (admitted_all_open _ _ _ Hwf1)) as H.
  destruct (land_and_close _ _ _ _ _ _ _) as [closed t']. destruct H as (-> & W & L & O). cbn [tracker_call Tracker.clock] in O.
  fold ended in O. set (s2 := read_once (set_tracker t' s1)).
  destruct (fan_persisted a ks s2) as [Ft Fr _ _ _]. change (tracker s2) with t' in Ft, Fr.
  assert (forall o i, obj (tracker s1) o = Some i -> obj t' o = Some (if concerns i then ended i else i)) as Hobj.
  { intros o i Ho. rewrite O, Ho. specialize (Hm o i Ho). destruct (concerns i); case_bool_decide; done || naive_solver. }
  assert (forall o, o ∈ ks -> exists i, obj (tracker s1) o = Some i /\ concerns i = true /\ replayed (ended i) = false) as Hks.
  { intros o Hin. pose proof (proj2 (proj2 (admitted_all_open _ _ _ Hwf1)) o Hin) as Hop. unfold holds in Hop.
    destruct (obj (tracker s1) o) as [i|] eqn:Ho; [|done]. exists i. assert (concerns i = true) as Hc by by apply (Hm o i Ho).
    split; [done|]. split; [done|]. assert (replayed (ended i) = replayed i) as -> by (subst ended; unfold notified; by repeat case_match).
    unfold concerns, room_admits, admitted in Hc. by destruct (replayed i); rewrite ?andb_false_r in Hc. }
  split; [by rewrite (re_length _ _ _ Ft)|]. split.
  - intros o i Ho. destruct (re_obj _ _ _ Ft o) as [E|(Hin & j & id & Hj & Hr & _)]; [by rewrite E, (Hobj o i Ho)|].
    destruct (Hks o Hin) as (i' & Hi' & Hc' & Hr'). rewrite (Hobj o i' Hi'), Hc' in Hj. injection Hj as <-. congruence.
  - intros r Hr. destruct (Fr r Hr) as [?|(o & i & Hin & Hi & Hf)]; [by left|]. right.
    destruct (Hks o Hin) as (i' & Hi' & Hc' & _). exists o, i'. split; [done|]. split; [done|].
    rewrite (Hobj o i' Hi'), Hc' in Hi. by injection Hi as <-.
Qed.

(** ** The state of the close path *)

(** Closed records stay closed, with the turns they have. *)
Definition keeps (t t' : Tracker) : Prop :=
  forall o i, obj t o = Some i -> is_open i = false -> exists i', obj t' o = Some i' /\ is_open i' = false /\ turns i' = turns i.

#[local] Instance keeps_preorder : PreOrder keeps.
Proof.
  split; [intros t o i Hi Hc; by exists i|]. intros t1 t2 t3 H1 H2 o i Hi Hc.
  destruct (H1 o i Hi Hc) as (j & Hj & Hcj & E1). destruct (H2 o j Hj Hcj) as (k & Hk & Hck & E2).
  exists k. split; [done|]. split; [done|]. congruence.
Qed.

Lemma grows_keeps t t' : grows t t' -> keeps t t'.
Proof.
  intros H o i Hi Hc. destruct (H o i Hi) as (i' & Hi' & _ & _ & E). destruct (E Hc) as (Et & Ec & _).
  exists i'. split; [done|]. split; [|done]. unfold is_open in *. by rewrite Ec.
Qed.

Lemma settled_keeps t t' : settled t t' -> keeps t t'.
Proof. intros H o i Hi Hc. destruct (H o i Hi) as (i' & Hi' & _ & Et & _ & _ & _ & _ & E). exists i'. auto. Qed.

Definition is_closed (t : Tracker) (o : oid) : Prop := exists i, obj t o = Some i /\ is_open i = false.

Lemma keeps_closed t t' o : keeps t t' -> is_closed t o -> is_closed t' o.
Proof. intros H (i & Hi & Hc). destruct (H o i Hi Hc) as (i' & ? & ? & _). by exists i'. Qed.

(** A tracker call that closed [os]. *)
Record closes (t : Tracker) (os : list oid) (t' : Tracker) : Prop := {
  cl_wf : wf t'; cl_keeps : keeps t t'; cl_closed : forall o, o ∈ os -> is_closed t' o }.

Lemma close_record_closes t c o reason now win : wf t ->
  let '(r, t') := close_record t c o reason now win in closes t (option_list r) t'.
Proof.
  intros Hwf. pose proof (wf_close_record t c o reason now win Hwf) as W.
  pose proof (grows_keeps _ _ (grows_close t c o reason now win Hwf)) as K.
  rewrite close_record_spec in * by done. destruct (obj t o) as [i|] eqn:Ho; [|split; [done..|]; intros o' H; by apply elem_of_nil in H].
  destruct (is_open i); [|split; [done..|]; intros o' H; by apply elem_of_nil in H].
  split; [done..|]. intros o' ->%list_elem_of_singleton. unfold is_closed.
  rewrite obj_closed_state, decide_True by done. by eexists.
Qed.

Lemma no_close_closes t : wf t -> closes t [] t.
Proof. intros Hwf. split; [done..|]. intros o H. by apply elem_of_nil in H. Qed.

Lemma closes_trans t1 os1 t2 os2 t3 : closes t1 os1 t2 -> closes t2 os2 t3 -> closes t1 (os1 ++ os2) t3.
Proof.
  intros [W1 K1 C1] [W2 K2 C2]. split; [done|by etrans|]. intros o [H|H]%elem_of_app; [|by apply C2].
  eapply keeps_closed; [exact K2|]. by apply C1.
Qed.

Lemma sweep_closes_all visit os :
  (forall t o, wf t -> let '(r, t') := visit t o in closes t (option_list r) t') ->
  forall t, wf t -> let '(closed, t') := sweep visit t os in closes t closed t'.
Proof.
  intros Hv. induction os as [|o os IH]; intros t Hwf; cbn [sweep]; [by apply no_close_closes|].
  specialize (Hv t o Hwf). destruct (visit t o) as [r t1]. specialize (IH t1 (cl_wf _ _ _ Hv)).
  destruct (sweep visit t1 os) as [closed t2]. by apply (closes_trans t _ t1).
Qed.

Lemma close_scope_closes t c sc reason now rule : wf t ->
  let '(closed, t') := close_scope t c sc reason now rule in closes t closed t'.
Proof. apply sweep_closes_all. intros. by apply close_record_closes. Qed.

Lemma idle_check_closes t c now rule : wf t ->
  let '(closed, t') := idle_check t c now rule in closes t closed t'.
Proof.
  apply sweep_closes_all. intros t0 o Hwf. unfold idle_visit. destruct (obj t0 o); [|by apply no_close_closes].
  destruct (first_reason _ _ _); [by apply close_record_closes|by apply no_close_closes].
Qed.

Lemma stale_sweep_closes c target e w os t : wf t ->
  let '(closed, t') := sweep (stale_visit str_of c target e w) t os in closes t closed t'.
Proof.
  apply sweep_closes_all. intros t0 o Hwf. unfold stale_visit. destruct (obj t0 o); [|by apply no_close_closes].
  destruct (stale_close_reason _ _ _ _ _); [by apply close_record_closes|by apply no_close_closes].
Qed.

(** A parked vote waits for a publish, in a group room, with its record's id among
    those it may close; a summary task is for a closed record with turns. *)
Definition park_ok (p : PendingVoteClose) : Prop :=
  (0 < pv_in_flight p)%Z /\ is_group_scope (pv_scope p) = true /\ pv_interaction_id p ∈ pv_sibling_ids p.

Record close_inv (s : CloseState) : Prop := {
  inv_wf : wf (tracker s);
  inv_parks_wf : dwf (pending_vote_closes s);
  inv_parks : forall ch p, dget ch (pending_vote_closes s) = Some p -> park_ok p;
  inv_tasks : forall k, k ∈ pending_tasks s ->
    exists i, obj (tracker s) (st_record k) = Some i /\ is_open i = false /\ turns i <> [] }.

Lemma inv_tracker s s' : close_inv s -> wf (tracker s') -> keeps (tracker s) (tracker s') ->
  pending_tasks s' = pending_tasks s -> pending_vote_closes s' = pending_vote_closes s -> close_inv s'.
Proof.
  intros [W P1 P2 T] W' K Et Ev. split; [done|by rewrite Ev|by rewrite Ev|]. rewrite Et. intros k Hk.
  destruct (T k Hk) as (i & Hi & Hc & Hn). destruct (K _ i Hi Hc) as (i' & Hi' & Hc' & E). exists i'.
  split; [done|]. split; [done|]. by rewrite E.
Qed.

Lemma inv_votes s s' : close_inv s -> tracker s' = tracker s -> pending_tasks s' = pending_tasks s ->
  dwf (pending_vote_closes s') -> (forall ch p, dget ch (pending_vote_closes s') = Some p -> park_ok p) -> close_inv s'.
Proof. intros [W P1 P2 T] Et Ek D P. split; [by rewrite Et|done|done|]. by rewrite Et, Ek. Qed.

Lemma fan_inv a os s : close_inv s -> (forall o, o ∈ os -> is_closed (tracker s) o) ->
  close_inv (persist_fanned_closes (persist a) os s).
Proof.
  intros [W P1 P2 T] Hc. destruct (fan_persisted a os s) as [Ft _ Fk Fv _].
  pose proof (settled_keeps _ _ (reidentified_settled _ _ _ Ft)) as K.
  split; [by eapply reidentified_wf|by rewrite Fv|by rewrite Fv|]. intros k Hk.
  assert (exists i, obj (tracker s) (st_record k) = Some i /\ is_open i = false /\ turns i <> []) as (i & Hi & Hci & Hn).
  { destruct (Fk k Hk) as [H|(i & Hin & Hi & Hn)]; [by apply T|]. destruct (Hc _ Hin) as (i' & Hi' & Hci).
    exists i. split; [done|]. split; [|done]. congruence. }
  destruct (K _ i Hi Hci) as (i' & Hi' & Hc' & E). exists i'. split; [done|]. split; [done|]. by rewrite E.
Qed.

Lemma closes_fan_inv a os t' s : close_inv s -> closes (tracker s) os t' ->
  close_inv (persist_fanned_closes (persist a) os (read_once (set_tracker t' s))).
Proof.
  intros Hi [W K C]. apply fan_inv; [|done]. by apply (inv_tracker s).
Qed.

Lemma room_inv a sc reason accepts s : close_inv s -> close_inv (close_room em str_of sha256_hex clock fresh a sc reason accepts s).
Proof.
  intros Hi. unfold close_room, on_tracker.
  pose proof (close_scope_closes (tracker s) (tracker_call clock fresh a s) sc reason None (Some accepts) (inv_wf s Hi)) as H.
  destruct (close_scope _ _ _ _ _ _). by apply closes_fan_inv.
Qed.

Lemma flush_inv a s : close_inv s -> close_inv (flush_idle em str_of sha256_hex clock fresh a s).
Proof.
  intros Hi. unfold flush_idle, on_tracker.
  pose proof (idle_check_closes (tracker s) (tracker_call clock fresh a s) None None (inv_wf s Hi)) as H.
  destruct (idle_check _ _ _ _). by apply closes_fan_inv.
Qed.

Lemma stale_inv a sc e w s : close_inv s -> close_inv (close_stale_records em str_of sha256_hex clock fresh a sc e w s).
Proof.
  intros Hi. unfold close_stale_records, on_tracker.
  pose proof (stale_sweep_closes (tracker_call clock fresh a s) (resolve_record_key a sc None (sender_id e)) e w
                (records_for_scope (tracker s) sc) (tracker s) (inv_wf s Hi)) as H.
  destruct (sweep _ _ _). by apply closes_fan_inv.
Qed.

Lemma shutdown_inv a s : close_inv s -> close_inv (close_open_interactions em str_of sha256_hex clock fresh a s).
Proof.
  intros Hi. unfold close_open_interactions, on_tracker. set (c := tracker_call clock fresh a s).
  pose proof (idle_check_closes (tracker s) c (Some (Tracker.clock c)) (Some (admitted_records (tracker s) None None)) (inv_wf s Hi)) as H1.
  destruct (idle_check _ _ _ _) as [idle t1].
  pose proof (close_scope_closes t1 c None REASON_SHUTDOWN (Some (Tracker.clock c)) None (cl_wf _ _ _ H1)) as H2.
  destruct (close_scope _ _ _ _ _ _) as [rest t2]. apply closes_fan_inv; [done|]. by apply (closes_trans _ _ t1).
Qed.

Lemma notified_closed e anchor now i : is_open (notified e anchor now i) = false.
Proof. done. Qed.

Lemma notice_inv a e s : close_inv s -> close_inv (close_interaction_on_notification em str_of sha256_hex clock fresh envelope_line a e s).
Proof.
  intros Hi. unfold close_interaction_on_notification.
  destruct (negb _); [done|]. destruct (negb _); [done|]. destruct (_scope_for_multi_turn_event em e) as [sc|]; [|done].
  pose proof (flush_inv a s Hi) as Hi1. set (s1 := flush_idle em str_of sha256_hex clock fresh a s) in *. cbv zeta.
  set (anchor := scope_wire_anchor sc e). pose proof (admitted_all_open (tracker s1) sc (λ i, wire_admits_record i anchor true) (inv_wf _ Hi1)) as Hall.
  destruct (admitted_records (tracker s1) _ _) as [|k ks'] eqn:Ek; [done|]. set (ks := k :: ks') in *. unfold on_tracker.
  pose proof (land_and_close_spec e anchor (tracker s1) (tracker_call clock fresh a s1) ks Hall) as H.
  destruct (land_and_close _ _ _ _ _ _ _) as [closed t']. destruct H as (-> & W & L & O). apply closes_fan_inv; [done|].
  destruct Hall as (_ & _ & Hop). split; [done| |].
  - intros o i Ho Hc. exists i. rewrite O, bool_decide_false; [done|]. intros Hin. specialize (Hop o Hin). unfold holds in Hop.
    rewrite Ho in Hop. congruence.
  - intros o Hin. unfold is_closed. rewrite O, bool_decide_true by done. specialize (Hop o Hin). unfold holds in Hop.
    destruct (obj (tracker s1) o) as [i|]; [|done]. by exists (notified e anchor (Tracker.clock (tracker_call clock fresh a s1)) i).
Qed.

Lemma cost_inv a e s : close_inv s -> close_inv (close_interaction_on_cost em str_of sha256_hex clock fresh a e s).
Proof. intros Hi. unfold close_interaction_on_cost. destruct (_scope_for_cost_close em e); [by apply room_inv|done]. Qed.

Lemma publish_inv a channel published token synthesis s : close_inv s ->
  close_inv (discharge_end_vote_publish em str_of sha256_hex clock fresh a channel published token synthesis s).
Proof.
  intros Hi. pose proof Hi as [W D P T]. unfold discharge_end_vote_publish.
  destruct (dget channel (pending_vote_closes s)) as [p|] eqn:Ep; [|done]. destruct (negb (String.eqb _ _)); [done|].
  assert (close_inv (set_pending_votes (ddel channel (pending_vote_closes s)) s)) as Hdel.
  { apply (inv_votes s); [done..|by apply dwf_ddel|]. cbn. intros ch q. destruct (decide (channel = ch)) as [<-|Hne].
    - by rewrite dget_ddel_eq.
    - rewrite dget_ddel_ne by done. apply P. }
  destruct published; cbn [negb].
  - set (s1 := set_pending_votes _ s) in *. cbv zeta. match goal with |- context [str_or ?x ?y] => set (anchor := str_or x y) end.
    set (s2 := if truthy anchor then _ else s1). assert (close_inv s2) as H2.
    { subst s2. destruct (truthy anchor); [|done]. by apply (inv_votes s1); [done..|exact (inv_parks_wf _ Hdel)|exact (inv_parks _ Hdel)]. }
    destruct synthesis; [done|]. destruct (_ && _); [done|]. destruct (_ && _); [done|]. by apply room_inv.
  - destruct (1 <? pv_in_flight p)%Z eqn:E1; [|done]. apply Z.ltb_lt in E1.
    apply (inv_votes s); [done..|by apply dwf_dset|]. cbn. intros ch q. destruct (decide (channel = ch)) as [<-|Hne].
    + rewrite dget_dset_eq. intros [= <-]. destruct (P _ _ Ep) as (_ & Hg & Hs). split; [cbn; lia|done].
    + rewrite dget_dset_ne by done. apply P.
Qed.

Lemma ids_of_member t os o i : o ∈ os -> obj t o = Some i -> interaction_id i ∈ ids_of t os.
Proof. intros Hin Ho. unfold ids_of. apply list_elem_of_omap. exists o. split; [done|]. by rewrite Ho. Qed.

Lemma park_inv e sc o actions s i : close_inv s -> obj (tracker s) o = Some i -> is_open i = true -> scope i = sc ->
  close_inv (park_end_vote_close str_of fresh e sc o actions s).2.
Proof.
  intros Hi Ho Hop Hsc. pose proof Hi as [W D P T]. unfold park_end_vote_close.
  destruct (is_group_scope sc) eqn:Eg; cbn [negb]; [|done].
  destruct (matching_end_votes str_of e actions) as [|v vs] eqn:Ev; [done|]. rewrite Ho. cbn [snd].
  apply (inv_votes s); [done..|by apply dwf_dset|]. cbn. intros ch q.
  destruct (decide (opt_str (channel_id e) = ch)) as [<-|Hne]; [|rewrite dget_dset_ne by done; apply P].
  rewrite dget_dset_eq. intros [= <-]. split; [cbn; lia|]. split; [done|]. cbn.
  apply (ids_of_member _ _ o); [|done]. by apply (in_records_for_scope _ _ _ i).
Qed.

Lemma row_inv a args s : close_inv s -> close_inv (store_row em clock fresh a args s).
Proof. intros Hi. by apply (inv_tracker s); [done|apply (inv_wf s Hi)|..]. Qed.

Lemma ingest_keeps a e sc w payload s : wf (tracker s) -> ambient_ok a ->
  keeps (tracker s) (tracker (ingest str_of clock fresh session a e sc w payload s).2)
  /\ pending_tasks (ingest str_of clock fresh session a e sc w payload s).2 = pending_tasks s
  /\ pending_vote_closes (ingest str_of clock fresh session a e sc w payload s).2 = pending_vote_closes s.
Proof.
  intros Hwf Ha. unfold ingest. destruct (frozen_open_capture _ _) as [args speaker]. unfold on_tracker.
  pose proof (grows_add_turn (tracker s) (tracker_call clock fresh a s) sc (Some payload) None args None speaker Hwf Ha) as G.
  destruct (add_turn _ _ _ _ _ _ _ _) as [o t1]. cbn [snd] in *. split; [|done].
  etrans; [by apply grows_keeps|]. cbn. intros o' i Ho Hc. rewrite obj_edit. exists i. case_decide; [subst|done].
  rewrite Ho. cbn. unfold stamp_wire. rewrite Hc, andb_false_r. done.
Qed.

Lemma multi_turn_inv a e summary ctx actions s : close_inv s -> ambient_ok a ->
  close_inv (_handle_multi_turn_event em str_of sha256_hex clock fresh session a e summary ctx actions s).2.
Proof.
  intros Hi Ha. unfold _handle_multi_turn_event. destruct (_scope_for_multi_turn_event em e) as [sc|]; [|by apply row_inv].
  destruct (observe_wire_message _ _ _) as [duplicate r]. set (s0 := set_tracker _ s).
  assert (close_inv s0) as Hi0 by (apply (inv_tracker s); [done|exact (inv_wf s Hi)|by intros o i Ho Hc; exists i|done..]).
  set (w := scope_wire_anchor sc e). set (payload0 := build_turn_payload e summary false duplicate).
  destruct (close_stale_spec a sc e w s0 (inv_wf _ Hi0)) as (Hwf1 & _ & _ & Hcur).
  pose proof (stale_inv a sc e w s0 Hi0) as Hi1. set (s1 := close_stale_records _ _ _ _ _ _ _ _ _ _) in *.
  pose proof (ingest_spec a e sc w payload0 s1 Hwf1 Ha Hcur) as Hin.
  destruct (ingest_keeps a e sc w payload0 s1 Hwf1 Ha) as (K & Ek & Ev).
  destruct (ingest _ _ _ _ _ _ _ _ _) as [o s2]. cbn [snd] in *. destruct Hin as (Hwf2 & (i & Ho & (Hk & _) & _) & _).
  assert (close_inv s2) as Hi2 by by apply (inv_tracker s1).
  unfold holds. rewrite Ho. set (s3 := if negb (is_open i) then _ else s2).
  assert (close_inv s3) as Hi3.
  { subst s3. destruct (is_open i) eqn:Eo; [done|]. apply fan_inv; [done|]. intros o' ->%list_elem_of_singleton. by exists i. }
  destruct (is_session_end_event e); cbn [snd]; [by apply room_inv|]. destruct (is_open i) eqn:Eo; cbn [negb snd]; [|done].
  apply (park_inv _ _ _ _ _ i); [done..|]. by apply (f_equal snd) in Hk.
Qed.

Lemma single_turn_inv a e summary ctx s : close_inv s -> ambient_ok a ->
  close_inv (handle_single_turn em clock fresh session a e summary ctx s).
Proof.
  intros Hi Ha. unfold handle_single_turn, on_tracker. set (sc := if bool_decide _ then _ else _). set (args := mkArgs _ _ _ _ _).
  pose proof (grows_add_turn (tracker s) (tracker_call clock fresh a s) sc None None args None (sender_id e) (inv_wf s Hi) Ha) as G.
  pose proof (wf_add_turn (tracker s) (tracker_call clock fresh a s) sc None None args None (sender_id e) (inv_wf s Hi)) as W.
  destruct (add_turn _ _ _ _ _ _ _ _) as [o t1]. cbn [snd] in *. set (s1 := read_once (set_tracker t1 s)).
  assert (close_inv s1) as Hi1 by (apply (inv_tracker s); [done|done|by apply grows_keeps|done..]).
  pose proof (close_record_closes (tracker s1) (tracker_call clock fresh a s1) o REASON_STRUCTURAL None None (inv_wf _ Hi1)) as H.
  destruct (close_record _ _ _ _ _ _) as [r t2]. destruct H as [W2 K2 _]. assert (close_inv (read_once (set_tracker t2 s1))) as Hi2 by by apply (inv_tracker s1).
  destruct r as [o2|]; [|done]. destruct (obj _ o2); [by apply row_inv|done].
Qed.

(** What steps of the close path lead to: an event's turn, a notice, a cost close, a
    publish, a shutdown, the end of a replay pass during whose writes other steps run,
    the counter, the janitor, and whatever else writes the store. *)
Inductive leads_to : CloseState -> CloseState -> Prop :=
| by_nothing s : leads_to s s
| by_steps s1 s2 s3 : leads_to s1 s2 -> leads_to s2 s3 -> leads_to s1 s3
| by_event a e actions s : ambient_ok a ->
    leads_to s (_store_event_episode em str_of sha256_hex clock fresh envelope_line session a e actions s).2
| by_notice a e s : leads_to s (close_interaction_on_notification em str_of sha256_hex clock fresh envelope_line a e s)
| by_cost a e s : leads_to s (close_interaction_on_cost em str_of sha256_hex clock fresh a e s)
| by_publish a channel published token synthesis s :
    leads_to s (discharge_end_vote_publish em str_of sha256_hex clock fresh a channel published token synthesis s)
| by_shutdown a s : leads_to s (close_open_interactions em str_of sha256_hex clock fresh a s)
| by_sweep meanwhile derive_channels gaps a s : (forall o s, leads_to s (meanwhile o s)) ->
    leads_to s (close_replayed_scopes em str_of sha256_hex clock fresh meanwhile derive_channels gaps a s).2
| by_counter n s : leads_to s (_tick_auto_reflect_counter em n s)
| by_cleanup grace now s : leads_to s (cleanup_closing em clock grace now s).2
| by_store db s : leads_to s (set_memory db s).

Definition new_close_state (inst : bool) (idle : Q) (db : EpisodeDb) : CloseState :=
  mkCloseState (new_tracker inst None idle) db [] [] [] 0.

Lemma store_inv db s : close_inv s -> close_inv (set_memory db s).
Proof. intros Hi. by apply (inv_tracker s); [done|apply (inv_wf s Hi)|..]. Qed.

Lemma sweep_inv meanwhile dc gaps a os : (forall o s, close_inv s -> close_inv (meanwhile o s)) ->
  forall s, close_inv s -> close_inv (sweep_replayed em str_of sha256_hex clock fresh meanwhile dc gaps a os s).2.
Proof.
  intros Hm. induction os as [|o os IH]; intros s Hi; cbn [sweep_replayed]; [done|].
  match goal with |- context [let '(_, _) := ?x in _] => assert (close_inv x.2) as H1; [|destruct x as [n s1]] end.
  { destruct (obj (tracker s) o) as [i|]; [|done]. destruct (replayed i); [|done]. unfold on_tracker.
    set (win := Some (derivable dc gaps (tracker s) i)).
    pose proof (close_record_closes (tracker s) (tracker_call clock fresh a s) o REASON_CATCHUP_COMPLETE None win (inv_wf s Hi)) as H.
    destruct (close_record _ _ _ _ _ _) as [[o'|] t']; cbn [option_list] in H.
    - cbn [snd]. apply Hm. change (persist a o' ?s0).2 with (persist_fanned_closes (persist a) [o'] s0). by apply closes_fan_inv.
    - destruct H. by apply (inv_tracker s). }
  specialize (IH s1 H1). by destruct (sweep_replayed _ _ _ _ _ _ _ _ _ _ s1).
Qed.

Lemma event_inv a e actions s : close_inv s -> ambient_ok a ->
  close_inv (_store_event_episode em str_of sha256_hex clock fresh envelope_line session a e actions s).2.
Proof.
  intros Hi Ha. pose proof (flush_inv a s Hi) as Hi1. unfold _store_event_episode.
  destruct (bool_decide _); [by apply multi_turn_inv|]. destruct (negb _); cbn [snd]; [by apply row_inv|by apply single_turn_inv].
Qed.

Lemma leads_to_inv s s' : leads_to s s' -> close_inv s -> close_inv s'.
Proof.
  induction 1 as [| | | | | | |meanwhile dc gaps a s Hm IH| | |]; intros Hi; auto using event_inv, notice_inv, cost_inv, publish_inv, shutdown_inv, store_inv.
  - pose proof (sweep_inv meanwhile dc gaps a (open_records (tracker s)) IH s Hi) as H.
    unfold close_replayed_scopes. destruct (sweep_replayed _ _ _ _ _ _ _ _ _ _ s) as [n s1]. cbn [snd] in *.
    apply (inv_tracker s1); [done|exact (inv_wf _ H)|by intros o i Ho Hc; exists i|done..].
  - unfold _tick_auto_reflect_counter. destruct (_ <=? _)%Z; [done|]. by apply store_inv.
  - unfold cleanup_closing. destruct (cleanup_closing_interactions _ _ _ _) as [r db].
    by apply (inv_tracker s); [done|apply (inv_wf s Hi)|..].
Qed.

(** C3. Whatever events, notices, publishes, sweeps and store failures a persona goes
    through, in whatever order and however they interleave with a replay sweep: a
    record is filed as open under its key exactly when it is open; every parked vote
    still waits for a publish, in a group room, with its own record among those it may
    close; and every summary task is for a closed record that has turns. *)
Theorem close_path_invariant inst idle db s (Hr : leads_to (new_close_state inst idle db) s) :
  (forall o i, obj (tracker s) o = Some i -> (is_open i = true <-> dget (record_key i) (open_ (tracker s)) = Some o))
  /\ (forall ch p, dget ch (pending_vote_closes s) = Some p -> park_ok p)
  /\ (forall k, k ∈ pending_tasks s -> exists i, obj (tracker s) (st_record k) = Some i /\ is_open i = false /\ turns i <> []).
Proof.
  assert (close_inv (new_close_state inst idle db)) as H0.
  { split; [apply wf_new|apply NoDup_nil_2|done|]. intros k Hk. by apply elem_of_nil in Hk. }
  destruct (leads_to_inv _ _ Hr H0) as [(Hd & Hmap & Hall) _ P T]. split; [|done].
  intros o i Ho. split; [by apply Hall|]. intros Hg. destruct (Hmap _ _ Hg) as (j & Hj & _ & Hop).
  unfold obj in Ho. congruence.
Qed.
End close_props.

(** ** A concrete persona, for the witnesses *)

Definition demo_em : EpisodicMemory := mkEpisodicMemory "ada" (mkTierScope "" "" "") false.
Fixpoint marks (k : nat) : string := match k with O => "" | S k => String "u"%char (marks k) end.
Definition demo_clock (k : nat) : Q := inject_Z (Z.of_nat k).
Definition no_text (v : pyval) : string := "".
Definition demo_line (t : string) (_ : list string) : string := t.
Definition demo_ambient : ambient := Ambient None None None [].
Definition demo_db : EpisodeDb := mkEpisodeDb [] [] [] [].

Definition demo_message (sender text : string) (md : pydict) : AgentEvent :=
  mkEvent CHANNEL_MESSAGE [("content", VStr text); ("channel_type", VStr "group")] (Some "ops") (Some sender) (Some (sender +:+ text)) None 5 md.

Lemma marks_inj j k : marks j = marks k -> j = k.
Proof. revert k. induction j as [|j IH]; intros [|k] E; simplify_eq/=; auto. Qed.

Definition demo_turn_of (e : AgentEvent) (actions : list AgentAction) (s : CloseState) : CloseState :=
  (_store_event_episode demo_em no_text (λ x, x) demo_clock marks demo_line "sess" demo_ambient e actions s).2.
Definition demo_vote : AgentAction := mkAction END_INTERACTION_VOTE [("channel_id", VStr "ops")].
Definition wire (id : string) : pydict := [("interaction_id", VStr id)].
Definition demo_state : CloseState :=
  demo_turn_of (demo_message "bob" "hello" (wire "w1")) [demo_vote]
    (demo_turn_of (demo_message "eve" "hi" (wire "w1")) [] (new_close_state false 600 demo_db)).

Abbreviation demo_leads_to := (leads_to demo_em no_text (λ x, x) demo_clock marks demo_line "sess").

Lemma demo_reached : demo_leads_to (new_close_state false 600 demo_db) demo_state.
Proof.
  eapply by_steps; [|apply (by_event _ _ _ _ _ _ _ demo_ambient (demo_message "bob" "hello" (wire "w1")) [demo_vote]); done].
  by apply (by_event _ _ _ _ _ _ _ demo_ambient (demo_message "eve" "hi" (wire "w1")) []).
Qed.

Lemma demo_inv : close_inv demo_state.
Proof.
  apply (leads_to_inv _ _ _ _ _ _ _ _ _ demo_reached). split; [apply wf_new|apply NoDup_nil_2|done|].
  intros k Hk. by apply elem_of_nil in Hk.
Qed.

Lemma demo_answers : store_answers marks demo_state.
Proof. split; [done|]. intros k _. by apply not_elem_of_nil. Qed.

Definition demo_close : CloseState :=
  close_room demo_em no_text (λ x, x) demo_clock marks demo_ambient (Some "group:ops") REASON_COST (λ i, wire_admits_record i "w1" true) demo_state.

Lemma room_close_exact_witness :
  wf (tracker demo_state) /\ length (rows demo_close) = 2%nat
  /\ (forall o i, obj (tracker demo_state) o = Some i -> room_admits "group:ops" (λ i, wire_admits_record i "w1" true) i = true ->
       derives no_text i = true ->
       exists r, r ∈ rows demo_close /\ filed_for demo_em no_text (mark_closed 7 REASON_COST None i) r
         /\ ep_interaction_id (row_to_episode r) = Some (interaction_id i)).
Proof.
  split; [apply demo_inv|]. split; [by vm_compute|].
  apply (room_close_exact demo_em no_text (λ x, x) demo_clock marks demo_ambient "group:ops" REASON_COST
           (λ i, wire_admits_record i "w1" true) demo_state (inv_wf _ demo_inv)); [apply marks_inj|apply demo_answers].
Defined.

Definition demo_span : Interaction :=
  mkInteraction "u" "group:ops" 1 [mkTurn 1 [("summary", VStr "hi"); ("sender", VStr "bob"); ("message_id", VStr "m1")]] (Some 2) REASON_CATCHUP_COMPLETE
    "" "" "" "sess" "acme" "bob" "live" true true true None (Some "ops") false.
Definition demo_boot (db : EpisodeDb) : CloseState :=
  mkCloseState (set_heap [demo_span] (new_tracker false None 600)) db [] [] [] 0.
Definition demo_str (v : pyval) : string := match v with VStr s => s | _ => "" end.
Definition demo_span_id : string := default "" (span_of demo_em demo_str (λ x, x) demo_ambient demo_span).
Definition demo_derived : CloseState :=
  (persist_closed_interaction demo_em demo_str (λ x, x) demo_clock marks demo_ambient 0 (demo_boot demo_db)).2.

Lemma replayed_span_derived_once_witness :
  length (rows demo_derived) = 1%nat /\ derived demo_em demo_span_id (demo_boot demo_db) = false /\ derived demo_em demo_span_id demo_derived = true
  /\ rows (persist_closed_interaction demo_em demo_str (λ x, x) demo_clock (λ k, marks (S k)) demo_ambient 0 (demo_boot (memory demo_derived))).2
     = rows demo_derived.
Proof.
  split; [by vm_compute|]. split; [by vm_compute|]. split.
  - apply (replayed_span_derived_once demo_em demo_str (λ x, x) demo_clock marks demo_ambient 0 demo_span (demo_boot demo_db) demo_span_id);
      [done|done|by vm_compute|done|by apply not_elem_of_nil|by vm_compute].
  - assert (fresh_id : marks 1 ∉ row_ids (memory demo_derived))
      by (assert (row_ids (memory demo_derived) = [""]) as -> by (by vm_compute); set_solver).
    pose proof (replayed_span_derived_once demo_em demo_str (λ x, x) demo_clock (λ k, marks (S k)) demo_ambient 0 demo_span
      (demo_boot (memory demo_derived)) demo_span_id eq_refl eq_refl ltac:(by vm_compute) eq_refl fresh_id ltac:(by vm_compute)) as (_ & _ & H).
    assert (derived demo_em demo_span_id (demo_boot (memory demo_derived)) = true) as E by (by vm_compute). rewrite E in H. apply H.
Defined.

Definition demo_voted : CloseState :=
  discharge_end_vote_publish demo_em no_text (λ x, x) demo_clock marks demo_ambient "ops" true "uuuuuu" false demo_state.

Lemma vote_closes_its_own_witness :
  close_inv demo_state /\ length (rows demo_voted) = 2%nat
  /\ exists p, dget "ops" (pending_vote_closes demo_state) = Some p /\ dget "ops" (pending_vote_closes demo_voted) = None
  /\ forall o i, obj (tracker demo_state) o = Some i -> obj (tracker demo_voted) o <> Some i -> vote_may_close p demo_state demo_voted i.
Proof.
  split; [apply demo_inv|]. split; [by vm_compute|]. unfold demo_voted.
  pose proof (vote_closes_its_own demo_em no_text (λ x, x) demo_clock marks demo_ambient "ops" true "uuuuuu" false demo_state
                (inv_wf _ demo_inv) (inv_parks_wf _ demo_inv)) as H. cbv zeta in H.
  assert (match dget "ops" (pending_vote_closes demo_state) with Some p => pv_token p = "uuuuuu" | None => False end) as Et
    by (vm_compute; reflexivity).
  destruct (dget "ops" (pending_vote_closes demo_state)) as [p|]; [|destruct Et].
  rewrite Et, String.eqb_refl in H. destruct H as (Hg & H & _).
  exists p. split; [reflexivity|]. split; [exact Hg|]. intros o i Ho Hn.
  destruct (H o i Ho Hn) as (_ & _ & Hm & _). exact Hm.
Defined.

Definition demo_next : CloseState :=
  (_handle_multi_turn_event demo_em no_text (λ x, x) demo_clock marks "sess" demo_ambient (demo_message "bob" "again" (wire "w2")) "again" [] []
     demo_state).2.


Definition demo_notice : AgentEvent :=
  mkEvent CHANNEL_MESSAGE [("content", VStr "bye"); ("channel_type", VStr "group"); ("interaction_close_notification", VBool true)]
    (Some "ops") (Some "bob") (Some "m9") None 9 (wire "w1").
Definition demo_noticed : CloseState :=
  close_interaction_on_notification demo_em no_text (λ x, x) demo_clock marks demo_line demo_ambient demo_notice demo_state.

Lemma notification_closes_once_witness :
  wf (tracker demo_state) /\ notice_scope demo_em demo_notice = Some "group:ops"
  /\ map turn_count (heap (tracker demo_noticed)) = [2; 2]%Z
  /\ length (heap (tracker demo_noticed))
     = length (heap (tracker (flush_idle demo_em no_text (λ x, x) demo_clock marks demo_ambient demo_state))).
Proof.
  split; [apply demo_inv|]. split; [by vm_compute|]. split; [by vm_compute|]. unfold demo_noticed.
  pose proof (notification_closes_once demo_em no_text (λ x, x) demo_clock marks demo_line demo_ambient demo_notice demo_state
                (inv_wf _ demo_inv)) as H. cbv zeta in H.
  assert (notice_scope demo_em demo_notice = Some "group:ops") as E by (by vm_compute). rewrite E in H. apply H.
Defined.

Lemma close_path_invariant_witness :
  demo_leads_to (new_close_state false 600 demo_db) demo_state /\ length (pending_vote_closes demo_state) = 1%nat
  /\ (forall ch p, dget ch (pending_vote_closes demo_state) = Some p -> park_ok p).
Proof.
  split; [apply demo_reached|]. split; [by vm_compute|].
  apply (close_path_invariant demo_em no_text (λ x, x) demo_clock marks demo_line "sess" false 600 demo_db demo_state demo_reached).
Defined.
