(* ===== verification/SummarizeClose.v ===== *)
(** * The background half of a close

    Models [agents/memory/store_compress.py] and
    [agents/persona_runtime/summarize_close.py], [record_close.py] and
    [finalize_close.py]: what the task behind a pending row asks the model, how it
    reads the answer, and what it then writes to the episode, the facts, the
    projections and the relationship of the record. What the model answers, and
    what other tasks do while it is awaited, are inputs. [str_of] is [str()] of a
    number or a container; [load_snippet] reads a file, [resolve_model] the
    configuration. *)

From Stdlib Require Import Ascii Sorted.
From S2P Require Import Prelude PyStr PyText PyDict PyValue PyFloat PySort SalienceBid Ambient RowScope Scopes WorkingMemory FactPredicates Relationships Facts FactEnvelope FactExtractor InjectionGate Classification Interactions Episodes Tracker TurnIngest ClosePath CloseProps.
Local Open Scope string_scope.
Local Open Scope py_scope.

Definition nl : string := String "010" "".

(** ** [store_compress.py] *)

Record CompressedView := mkView { view_summary : string; entries_dropped : Z; tokens_before : Z; tokens_after : Z }.

Definition entry_tokens (e : MemoryEntry) : Z := estimate_tokens None (me_content e) false.

(** The key is [-importance]. *)
Definition more_important (a b : MemoryEntry) : bool := Qle_bool (me_importance b) (me_importance a).

(** The loop, over what it has taken so far. *)
Fixpoint extract_loop (target : Z) (chunks : list string) (tokens count : Z) (ordered : list MemoryEntry) :
    list string * Z * Z :=
  match ordered with
  | [] => (chunks, tokens, count)
  | e :: ordered =>
      if (target <? tokens + entry_tokens e)%Z then extract_loop target chunks tokens count ordered
      else extract_loop target (chunks ++ [me_content e])%list (tokens + entry_tokens e) (count + 1) ordered
  end.

Definition compress_entries (entries : list MemoryEntry) (target_tokens : Z) : result string CompressedView :=
  if (target_tokens <? 0)%Z then Raise "ValueError"
  else
    let '(chunks, tokens, count) := extract_loop target_tokens [] 0 0 (py_sorted more_important entries) in
    Ok (mkView (join_str (nl +:+ nl) chunks) (Z.of_nat (length entries) - count) (zsum entry_tokens entries) tokens).

(** ** [record_close.py] *)

Definition RECORD_INTERACTION_OUTCOME_CHARS : nat := 200.

(** [s.split(":", 1)] *)
Fixpoint split_at_colon (s : string) : option (string * string) :=
  match s with
  | EmptyString => None
  | String c s => if Ascii.eqb c ":" then Some ("", s)
                  else match split_at_colon s with Some (a, b) => Some (String c a, b) | None => None end
  end.

Definition peer_type_of (i : Interaction) : string :=
  match turns i with
  | t :: _ => match dget "participant_type" (payload t) with
              | Some (VStr raw) => if bool_decide (raw ∈ ["agent"; "user"]) then raw else "agent"
              | _ => "agent"
              end
  | [] => "agent"
  end.

Definition extract_peer_from_interaction (agent : string) (i : Interaction) : option string * string :=
  match split_at_colon (String.substring 3 (String.length (scope i)) (scope i)) with
  | None => (None, "agent")
  | Some (a, b) =>
      match (if String.eqb a agent then Some b else if String.eqb b agent then Some a else None) with
      | None => (None, "agent")
      | Some peer => if String.eqb peer agent then (None, "agent") else (Some peer, peer_type_of i)
      end
  end.

(** The outcome column of the interaction's row. *)
Definition outcome_of (summary : string) (failed : bool) : option string :=
  if failed then None
  else if truthy (strip summary) then Some (String.substring 0 RECORD_INTERACTION_OUTCOME_CHARS (strip summary)) else None.

(** A failed write is logged and changes nothing. *)
Definition record_closed_interaction (a : ambient) (agent : string) (ts : TierScope) (now : Q) (new_id : string)
    (i : Interaction) (summary : string) (failed : bool) (session : string) (db : rel_db) : rel_db :=
  if negb (startswith DM_PREFIX (scope i)) then db
  else if replayed i then db
  else
    let '(peer, peer_type) := extract_peer_from_interaction agent i in
    if negb (truthy (opt_str peer)) then db
    else
      (record_interaction
         (mkKey agent "agent" (opt_str peer) peer_type (resolve_active_principal a (active_principal_id ts))
            (resolve_active_epoch a (active_epoch_id ts)))
         "conversation" (outcome_of summary failed) (Fin 0) session new_id now db).2.

(** ** [summarize_close.py] *)

Definition SUMMARIZATION_TARGET_TOKENS : Z := 2000.
Definition SUMMARIZATION_MAX_OUTPUT_TOKENS : Z := 1024.

(** The levels a close asks restatements for. *)
Definition _projection_levels (i : Interaction) : result string (list string) :=
  let! stamp := rank_for_stamp (classification i) in
  let! internal := rank_of CLASSIFICATION_INTERNAL in
  if (stamp <=? internal)%Z then Ok [] else levels_below_stamp (classification i).

(** One call of the model; the lease is the billed agent and interaction. *)
Record SummaryRequest := mkSummaryRequest {
  sr_model : string; sr_alias : string; sr_prompt : text; sr_system : text; sr_max_tokens : Z;
  sr_lease : option (string * string) }.

Record Summary := mkSummary {
  sm_text : string; sm_failed : bool; sm_facts : option string; sm_projections : list (string * string) }.

Definition unavailable : Summary := mkSummary SUMMARY_UNAVAILABLE_TEXT true None [].

(** What the call leaves outside: the request and the counters. *)
Inductive close_event :=
| Asked (r : SummaryRequest)
| SummaryFailed (reason : string)
| SummaryUnleased
| EnvelopeFailed (reason : string).

Abbreviation summary_outcome := (result string Summary * list close_event)%type.

Definition fallback (reason : string) : summary_outcome := (Ok unavailable, [SummaryFailed reason]).

(** Raised past [except Exception]. *)
Definition base_exception (e : string) : bool :=
  bool_decide (e ∈ ["CancelledError"; "SystemExit"; "KeyboardInterrupt"; "GeneratorExit"]).

(** The handlers around the call. *)
Definition call_failed (e : string) : summary_outcome :=
  if String.eqb e "TimeoutError" then fallback "timeout"
  else if String.eqb e "BudgetExceededError" then fallback "budget_denied"
  else if base_exception e then (Raise e, [])
  else fallback "llm_error".

Section summarize.
Context (str_of : pyval -> string) (loads : string -> option pyval) (dumps : pyval -> string).
Context (load_snippet : string -> result string text).
Context (resolve_model : string -> result string (string * string)) (summarization_model : string).
Context (ask : SummaryRequest -> result string (option string)).

Definition str_int (z : Z) : string := v_str str_of (VInt z).

Definition build_combined_prompt_suffix : result string text :=
  let! snippet := load_snippet "fact-extractor-suffix" in
  let! body := format [(codes "predicate_list", codes (join_str ", " (py_sorted String.leb PREDICATE_ALLOWLIST)))] snippet in
  Ok (codes (nl +:+ nl) ++ body ++ codes nl)%list.

(** A template that is missing or does not render asks for no restatement. *)
Definition projection_suffix (i : Interaction) (levels : list string) : text :=
  match (let! snippet := load_snippet "projection-suffix" in
         format [(codes "interaction_level", codes (normalize_for_stamp (classification i)));
                 (codes "levels_list", codes (join_str ", " (map (λ l, "`" +:+ l +:+ "`") levels)))] snippet) with
  | Ok rendered => (codes nl ++ rendered ++ codes nl)%list
  | Raise _ => []
  end.

Definition _build_summarization_prompt (i : Interaction) (view : CompressedView) (shown_turns : Z) : result string text :=
  let reason := if String.eqb (close_reason i) REASON_SHUTDOWN then "" else "Close reason: " +:+ close_reason i +:+ nl in
  let! head := load_snippet "interaction-summarizer" in
  let body := nl +:+ nl +:+ "Scope: " +:+ scope i +:+ nl +:+ "Turns: " +:+ str_int shown_turns +:+ nl +:+ reason +:+
    "Tokens (before compression / after): " +:+ str_int (tokens_before view) +:+ " / " +:+ str_int (tokens_after view) +:+ nl +:+
    "Entries dropped during compression: " +:+ str_int (entries_dropped view) +:+ nl +:+ nl +:+
    "Compressed turns:" +:+ nl +:+ view_summary view +:+ nl in
  let! suffix := build_combined_prompt_suffix in
  let! levels := _projection_levels i in
  Ok (head ++ codes body ++ suffix ++ match levels with [] => [] | _ => projection_suffix i levels end)%list.

(** The deterministic text of a lone turn that carries no message. *)
Definition single_turn_placeholder (i : Interaction) : option Summary :=
  match turns i with
  | [t] =>
      let single := strip (v_str str_of (dget_or "summary" (VStr "") (payload t))) in
      let has_message_text := truthy (strip (v_str str_of (dget_or "text" (VStr "") (payload t)))) in
      if truthy single && negb has_message_text && negb (bool_decide (own_turn_items str_of i = [])) then
        Some (mkSummary ("Multi-turn interaction (scope=" +:+ scope i +:+ ", turns=1, reason=" +:+ close_reason i +:+
                "): first[" +:+ single +:+ "] last[" +:+ single +:+ "]") false None [])
      else None
  | _ => None
  end.

Definition excluded_placeholder (i : Interaction) : Summary :=
  mkSummary ("Multi-turn interaction (scope=" +:+ scope i +:+ ", turns=" +:+ str_int (turn_count i) +:+ ", reason=" +:+
      close_reason i +:+ "): no content attributable to this record's speaker") false None [].

Definition close_lease (agent : string) (i : Interaction) : option (string * string) :=
  if meter_close_summary i && truthy (Interactions.wire_interaction_id i)
  then Some (agent, Interactions.wire_interaction_id i) else None.

Definition read_summary (i : Interaction) (response : option string) : summary_outcome :=
  let txt := strip (opt_str response) in
  if negb (truthy txt) then fallback "empty"
  else
    match split_combined_response loads dumps txt with
    | Raise (Some reason) => (Ok unavailable, [EnvelopeFailed reason; SummaryFailed reason])
    | Raise None => (Ok (mkSummary txt false None []), [])
    | Ok (summary, facts_raw) =>
        if negb (truthy (strip summary)) then fallback "empty_field"
        else
          (let! requested := _projection_levels i in
           Ok (mkSummary summary false (Some facts_raw)
                 (match requested with [] => [] | _ => extract_projections loads txt requested end)), [])
    end.

(** From the resolved model on. *)
Definition ask_summary (agent : string) (i : Interaction) (prompt : text) (model alias : string) : summary_outcome :=
  let warned := if meter_close_summary i && negb (truthy (Interactions.wire_interaction_id i)) then [SummaryUnleased] else [] in
  let '(r, log) :=
    match load_snippet "episode-summarizer" with
    | Raise e => call_failed e
    | Ok system =>
        let request := mkSummaryRequest model alias prompt system SUMMARIZATION_MAX_OUTPUT_TOKENS (close_lease agent i) in
        let '(r, log) := match ask request with Raise e => call_failed e | Ok response => read_summary i response end in
        (r, Asked request :: log)
    end in
  (r, (warned ++ log)%list).

Definition summarize_closed_interaction (agent : string) (i : Interaction) : summary_outcome :=
  match single_turn_placeholder i with
  | Some placeholder => (Ok placeholder, [])
  | None =>
      match interaction_to_entries str_of i with
      | [] => (Ok (excluded_placeholder i), [])
      | entries =>
          match (let! view := compress_entries entries SUMMARIZATION_TARGET_TOKENS in
                 _build_summarization_prompt i view (Z.of_nat (length entries))) with
          | Raise e => (Raise e, [])
          | Ok prompt =>
              match resolve_model summarization_model with
              | Raise e => if String.eqb e "SystemExit" then fallback "model_unresolvable" else (Raise e, [])
              | Ok (model, alias) => ask_summary agent i prompt model alias
              end
          end
      end
  end.

(** ** [finalize_close.py] *)

(** The stores a close writes to. *)
Record CloseStores := mkStores {
  cs_memory : EpisodeDb; cs_facts : xstate; cs_projections : projection_table; cs_relations : rel_db }.

Definition with_memory (db : EpisodeDb) (s : CloseStores) : CloseStores :=
  mkStores db (cs_facts s) (cs_projections s) (cs_relations s).

Definition JANITOR_INTERVAL_SEC : Q := 300.

(** [except Exception] around the whole tail. *)
Definition guarded (r : result string unit) : result string unit :=
  match r with Raise e => if base_exception e then Raise e else Ok tt | Ok _ => Ok tt end.

(** The task's surroundings: the persona's stores, its clock and fresh ids. *)
Context (em : EpisodicMemory) (rel_scope : TierScope) (facts_tier : option FactStore).
Context (drawn_at : nat -> Q) (drawn_id : nat -> string) (tick : EpisodeDb -> result string unit * EpisodeDb).

Definition finalize_facts (a : ambient) (i : Interaction) (session : string) (sm : Summary) (x : xstate) : xstate :=
  match sm_failed sm, sm_facts sm, facts_tier with
  | false, Some facts_raw, Some st =>
      dispatch_facts_from_response loads st (λ n, mkFactCall a (drawn_at n) None (drawn_id n)) facts_raw i session x
  | _, _, _ => x
  end.

Definition finalize_projections (i : Interaction) (sm : Summary) (t : projection_table) : projection_table :=
  match sm_projections sm with
  | [] => t
  | ps => (replace_entry_projections (em_agent em) (Interactions.interaction_id i) ENTRY_TIER_EPISODE ps (closing_time i) t).2
  end.

(** What the winner of the summary row goes on to write. *)
Definition derive (a : ambient) (i : Interaction) (session : string) (sm : Summary) (s : CloseStores) : CloseStores :=
  mkStores (cs_memory s) (finalize_facts a i session sm (cs_facts s)) (finalize_projections i sm (cs_projections s))
    (record_closed_interaction a (em_agent em) rel_scope (drawn_at 0) (drawn_id 0) i (sm_text sm) (sm_failed sm) session
       (cs_relations s)).

Definition finalize_closed_interaction (meanwhile : CloseStores -> CloseStores) (a : ambient) (i : Interaction)
    (session : string) (s : CloseStores) : result string unit * CloseStores :=
  let r := (summarize_closed_interaction (em_agent em) i).1 in
  let s := meanwhile s in
  match r with
  | Raise e => (guarded (Raise e), s)
  | Ok sm =>
      match update_episode_summary (em_agent em) (Interactions.interaction_id i) (sm_text sm) (cs_memory s) with
      | (Raise _, db) => (Ok tt, with_memory db s)
      | (Ok false, db) => (Ok tt, with_memory db s)
      | (Ok true, db) =>
          let s := derive a i session sm (with_memory db s) in
          let '(r, db) := tick (cs_memory s) in
          (guarded r, with_memory db s)
      end
  end.

(** The cooldown is spent whether the sweep ran or failed; the count is that of
    [janitor.failed]. *)
Definition maybe_run_janitor (cleanup : EpisodeDb -> result string Z * EpisodeDb) (last : option Q) (now interval : Q)
    (db : EpisodeDb) : result string (option Q) * Z * EpisodeDb :=
  let run :=
    let '(r, db) := cleanup db in
    match r with
    | Ok _ => (Ok (Some now), 0%Z, db)
    | Raise e => if base_exception e then (Raise e, 0%Z, db) else (Ok (Some now), 1%Z, db)
    end in
  match last with
  | Some l => if Qltb (now - l) interval then (Ok last, 0%Z, db) else run
  | None => run
  end.
End summarize.

(** ** The compressed context *)

Lemma more_important_total x y : more_important x y = false -> more_important y x = true.
Proof. unfold more_important. intros H. q_props. lra. Qed.

(** The entries the loop takes. *)
Fixpoint taken (target tokens : Z) (l : list MemoryEntry) : list MemoryEntry :=
  match l with
  | [] => []
  | e :: l => if (target <? tokens + entry_tokens e)%Z then taken target tokens l
              else e :: taken target (tokens + entry_tokens e) l
  end.

Lemma extract_loop_taken target l : forall chunks tokens count,
  extract_loop target chunks tokens count l =
  ((chunks ++ map me_content (taken target tokens l))%list, (tokens + zsum entry_tokens (taken target tokens l))%Z,
   (count + Z.of_nat (length (taken target tokens l)))%Z).
Proof.
  induction l as [|e l IH]; intros; cbn [extract_loop taken].
  - rewrite app_nil_r. unfold zsum. cbn [foldr length]. by rewrite !Z.add_0_r.
  - destruct (_ <? _)%Z; rewrite IH; [done|]. cbn [map zsum foldr length]. rewrite <- app_assoc.
    unfold zsum. cbn [foldr]. rewrite Z.add_assoc. f_equal. lia.
Qed.

Lemma taken_sublist target l : forall tokens, taken target tokens l `sublist_of` l.
Proof. induction l as [|e l IH]; intros tokens; cbn [taken]; [done|]. case_match; by constructor. Qed.

Lemma taken_within target l : forall tokens, (tokens <= target)%Z -> (tokens + zsum entry_tokens (taken target tokens l) <= target)%Z.
Proof.
  induction l as [|e l IH]; intros tokens H; cbn [taken]; [cbn; lia|]. destruct (Z.ltb_spec target (tokens + entry_tokens e)) as [|Hle].
  - auto.
  - specialize (IH _ Hle). unfold zsum in *. cbn [foldr]. lia.
Qed.

Lemma taken_app target l k : forall tokens,
  taken target tokens (l ++ k) = (taken target tokens l ++ taken target (tokens + zsum entry_tokens (taken target tokens l)) k)%list.
Proof.
  induction l as [|e l IH]; intros tokens; cbn [taken app]; [cbn; by rewrite Z.add_0_r|].
  case_match; rewrite IH; [done|]. cbn [app]. unfold zsum. cbn [foldr]. by rewrite Z.add_assoc.
Qed.

Lemma entry_tokens_nonneg e : (0 <= entry_tokens e)%Z.
Proof. unfold entry_tokens, estimate_tokens. apply Z.div_pos; lia. Qed.

Lemma taken_all target l : forall tokens, (tokens + zsum entry_tokens l <= target)%Z -> taken target tokens l = l.
Proof.
  induction l as [|e l IH]; intros tokens H; cbn [taken]; [done|]. unfold zsum in H. cbn [foldr] in H. fold (zsum entry_tokens l) in H.
  assert (0 <= zsum entry_tokens l)%Z by (apply zsum_nonneg, Forall_forall; intros; apply entry_tokens_nonneg).
  destruct (Z.ltb_spec target (tokens + entry_tokens e)); [lia|]. f_equal. apply IH. lia.
Qed.

Lemma zsum_sublist l k : l `sublist_of` k -> (zsum entry_tokens l <= zsum entry_tokens k)%Z.
Proof.
  induction 1 as [|e l k _ IH|e l k _ IH]; [done|..]; unfold zsum in *; cbn [foldr]; pose proof (entry_tokens_nonneg e); lia.
Qed.

Lemma length_append (s t : string) : String.length (s +:+ t) = (String.length s + String.length t)%nat.
Proof. induction s as [|c s IH]; [done|]. rewrite app_cons. cbn [String.length]. by rewrite IH. Qed.

(** A token stands for at most four characters and a remainder of three, and a
    separator is two. *)
Lemma joined_length l :
  (Z.of_nat (String.length (join_str (nl +:+ nl) (map me_content l))) <= 4 * zsum entry_tokens l + 5 * Z.of_nat (length l))%Z.
Proof.
  assert (forall e, Z.of_nat (String.length (me_content e)) <= 4 * entry_tokens e + 3)%Z as He.
  { intros e. unfold entry_tokens, estimate_tokens. pose proof (Z.div_mod (Z.of_nat (String.length (me_content e))) 4 ltac:(done)).
    pose proof (Z.mod_pos_bound (Z.of_nat (String.length (me_content e))) 4 ltac:(done)). lia. }
  induction l as [|e [|e' l] IH]; [done| |].
  - specialize (He e). unfold zsum. cbn [map join_str foldr length]. lia.
  - change (map me_content (e :: e' :: l)) with (me_content e :: map me_content (e' :: l)).
    assert (forall s x y l, join_str s (x :: y :: l) = x +:+ s +:+ join_str s (y :: l)) as Hj by done.
    change (map me_content (e' :: l)) with (me_content e' :: map me_content l) in *. rewrite Hj, !length_append.
    change (zsum entry_tokens (e :: e' :: l)) with (entry_tokens e + zsum entry_tokens (e' :: l))%Z.
    specialize (He e). cbn [length] in *. change (String.length nl) with 1%nat. lia.
Qed.

(** C38. The context a summary is written from stays within its budget and drops as
    little as the order of importance allows. The entries shown are an ordered
    selection of the record's entries, most important first; each is left out exactly
    when it does not fit after the more important ones already taken, so nothing is
    dropped when everything fits. What is reported adds up, and the text itself is
    bounded by the budget and the number of entries shown. *)
Theorem compressed_within_budget entries target v (H : compress_entries entries target = Ok v) :
  let ordered := py_sorted more_important entries in
  ordered ≡ₚ entries /\ StronglySorted (λ a b, (me_importance b <= me_importance a)%Q) ordered /\
  exists kept,
    view_summary v = join_str (nl +:+ nl) (map me_content kept)
    /\ kept `sublist_of` ordered
    /\ (forall pre e post, ordered = (pre ++ e :: post)%list -> exists before after,
          kept = (before ++ (if decide (zsum entry_tokens before + entry_tokens e <= target)%Z then [e] else []) ++ after)%list
          /\ before `sublist_of` pre /\ after `sublist_of` post)
    /\ entries_dropped v = (Z.of_nat (length entries) - Z.of_nat (length kept))%Z
    /\ tokens_after v = zsum entry_tokens kept /\ tokens_before v = zsum entry_tokens entries
    /\ (0 <= tokens_after v <= target)%Z /\ (tokens_after v <= tokens_before v)%Z
    /\ ((tokens_before v <= target)%Z -> kept = ordered)
    /\ (Z.of_nat (String.length (view_summary v)) <= 4 * tokens_after v + 5 * Z.of_nat (length kept))%Z.
Proof.
  intros ordered. unfold compress_entries in H. destruct (Z.ltb_spec target 0) as [|Ht]; [done|].
  rewrite extract_loop_taken in H. cbn [app] in H. rewrite !Z.add_0_l in H. injection H as <-. fold ordered.
  assert (ordered ≡ₚ entries) as Hp by apply py_sorted_perm. split; [done|]. split.
  { eapply StronglySorted_impl; [|apply py_sorted_sorted; [apply more_important_total|]].
    - intros a b. cbn. unfold more_important. intros. by q_props.
    - unfold more_important. intros x y z Hxy Hyz. q_props. lra. }
  pose proof (taken_sublist target ordered 0) as Hs. pose proof (taken_within target ordered 0 Ht) as Hw.
  exists (taken target 0 ordered). cbn [view_summary entries_dropped tokens_before tokens_after].
  split; [done|]. split; [done|]. split.
  { intros pre e post ->. exists (taken target 0 pre). rewrite taken_app. cbn [taken].
    destruct (Z.ltb_spec target (0 + zsum entry_tokens (taken target 0 pre) + entry_tokens e)) as [Hlt|Hle].
    - eexists. rewrite decide_False by lia. cbn [app]. split; [done|]. split; apply taken_sublist.
    - eexists. rewrite decide_True by lia. cbn [app]. split; [done|]. split; apply taken_sublist. }
  split; [done|]. split; [done|]. split; [done|].
  assert (0 <= zsum entry_tokens (taken target 0 ordered))%Z by (apply zsum_nonneg, Forall_forall; intros; apply entry_tokens_nonneg).
  split; [lia|]. split; [rewrite <- (zsum_Permutation _ _ _ Hp); by apply zsum_sublist|]. split.
  - intros Hf. apply taken_all. rewrite (zsum_Permutation _ _ _ Hp). lia.
  - apply joined_length.
Qed.

Definition demo_memory (n : Z) (content : string) : MemoryEntry := mkMemoryEntry "" content (inject_Z n / 4) [] 0 0.
Definition demo_memories : list MemoryEntry := [demo_memory 1 "first said"; demo_memory 2 "a longer remark"; demo_memory 3 "the last word"].

Lemma compressed_within_budget_witness :
  exists v, compress_entries demo_memories 5 = Ok v /\ view_summary v = "the last word" +:+ nl +:+ nl +:+ "first said"
    /\ entries_dropped v = 1%Z /\ (0 <= tokens_after v <= 5)%Z.
Proof.
  eexists. split; [reflexivity|]. split; [reflexivity|]. split; [reflexivity|].
  destruct (compressed_within_budget demo_memories 5 _ eq_refl) as (_ & _ & kept & _ & _ & _ & _ & _ & _ & H & _). exact H.
Defined.

(** The budget counts whole groups of four characters per entry, so short entries
    are free and the separators are not counted: the text can exceed the budget the
    view reports to be within. *)
Lemma view_over_budget : exists v,
  compress_entries [demo_memory 1 "yes"; demo_memory 2 "and"; demo_memory 3 "no."] 0 = Ok v
  /\ tokens_after v = 0%Z /\ entries_dropped v = 0%Z /\ estimate_tokens None (view_summary v) false = 3%Z.
Proof. eexists. split; [reflexivity|]. repeat split. Qed.

(** ** What a summary is *)

(** The calls of a log. *)
Definition asked (log : list close_event) : list SummaryRequest :=
  omap (λ x, match x with Asked q => Some q | _ => None end) log.

Definition failures_in (log : list close_event) : list string :=
  omap (λ x, match x with SummaryFailed reason => Some reason | _ => None end) log.

(** Restatements are only of a protected record, each for a level below its stamp. *)
Definition below_stamp (i : Interaction) (ps : list (string * string)) : Prop :=
  forall l t, (l, t) ∈ ps -> t <> "" /\ strip t = t /\
    exists rl rs, rank_of l = Ok rl /\ rank_for_stamp (classification i) = Ok rs /\ (1 < rs)%Z /\ (rl < rs)%Z.

Lemma projection_levels_ok i : exists levels, _projection_levels i = Ok levels /\
  forall l, l ∈ levels -> exists rl rs, rank_of l = Ok rl /\ rank_for_stamp (classification i) = Ok rs /\ (1 < rs)%Z /\ (rl < rs)%Z.
Proof.
  unfold _projection_levels, levels_below_stamp. destruct (rank_for_stamp_ok (classification i)) as (rs & Hrs & _).
  rewrite Hrs. cbn [rbind]. change (rank_of CLASSIFICATION_INTERNAL) with (Ok 1%Z : result string Z). cbn [rbind].
  destruct (Z.leb_spec rs 1) as [|Hlt]; [eexists; split; [done|]; by intros l ?%not_elem_of_nil|].
  eexists. split; [done|]. intros l Hin. pose proof (proj1 (level_set_spec (λ r, r < rs)%Z l) Hin) as (rl & Hl & Hb). exists rl, rs.
  split; [unfold rank_of; by rewrite Hl|]. auto.
Qed.

Lemma strip_truthy s : truthy (strip s) = true -> strip s <> "".
Proof. by rewrite truthy_true. Qed.

Lemma strip_head c s : is_space c = false -> strip (String c s) <> "".
Proof. intros H. unfold strip. cbn [lstrip]. rewrite H. by destruct (rstrip_cons_nonspace c s H) as [r ->]. Qed.

Section contract.
Context (str_of : pyval -> string) (loads : string -> option pyval) (dumps : pyval -> string).
Context (load_snippet : string -> result string text).
Context (resolve_model : string -> result string (string * string)) (summarization_model : string).
Context (ask : SummaryRequest -> result string (option string)).

Abbreviation summarize := (summarize_closed_interaction str_of loads dumps load_snippet resolve_model summarization_model ask).

(** The answer's own envelope restates the record as [t] for the level [l]. *)
Definition restated (response : option string) (l t : string) : Prop :=
  exists envelope ps u, loads (_strip_code_fence (strip (opt_str response))) = Some (VDict envelope)
    /\ dget "projections" envelope = Some (VDict ps) /\ dget l ps = Some (VStr u) /\ t = strip u.

(** What one pass over the answer yields, without the call itself. *)
Record settles_as (i : Interaction) (from : option (option string)) (o : summary_outcome) : Prop := {
  settles_asks : asked o.2 = [];
  settles_how :
    match o.1 with
    | Ok sm =>
        strip (sm_text sm) <> ""
        /\ (if sm_failed sm then sm = unavailable /\ exists reason, failures_in o.2 = [reason]
            else failures_in o.2 = []
              /\ (forall f, sm_facts sm = Some f -> exists response, from = Some response
                    /\ split_combined_response loads dumps (strip (opt_str response)) = Ok (sm_text sm, f)))
        /\ below_stamp i (sm_projections sm)
        /\ (forall l t, (l, t) ∈ sm_projections sm -> exists response, from = Some response /\ restated response l t)
    | Raise e => base_exception e = true /\ failures_in o.2 = []
    end }.

Lemma below_nothing i (P : string -> string -> Prop) : below_stamp i [] /\ (forall l t, (l, t) ∈ ([] : list (string * string)) -> P l t).
Proof. split; by intros l t ?%not_elem_of_nil. Qed.

Lemma fallback_settles i from reason : settles_as i from (fallback reason).
Proof.
  split; [done|]. cbn. split; [done|]. split; [|apply below_nothing]. split; [done|]. by exists reason.
Qed.

Lemma call_failed_settles i from e : settles_as i from (call_failed e).
Proof. unfold call_failed. repeat case_match; try apply fallback_settles. by split. Qed.

Lemma read_summary_settles i response : settles_as i (Some response) (read_summary loads dumps i response).
Proof.
  unfold read_summary. destruct (truthy (strip (opt_str response))) eqn:Et; cbn [negb]; [|apply fallback_settles].
  destruct (split_combined_response _ _ _) as [[summary facts]|[reason|]] eqn:Es.
  - destruct (truthy (strip summary)) eqn:Eb; cbn [negb]; [|apply fallback_settles].
    destruct (projection_levels_ok i) as (levels & -> & Hl). cbn [rbind]. split; [done|]. cbn.
    split; [by apply strip_truthy|]. split; [split; [done|]; intros f [= <-]; by exists response|].
    destruct levels as [|l0 levels]; [apply below_nothing|]. split; intros l t Hin;
      apply projections_exact in Hin as (Hlv & envelope & ps & u & He & Hps & Hu & -> & Hne).
    + split; [done|]. split; [apply strip_strip|]. by apply Hl.
    + rewrite strip_strip in He. exists response. split; [done|]. by exists envelope, ps, u.
  - split; [done|]. cbn. split; [done|]. split; [|apply below_nothing]. split; [done|]. by exists reason.
  - split; [done|]. cbn [fst snd sm_text sm_failed sm_projections]. split; [rewrite strip_strip; by apply strip_truthy|]. split; [done|apply below_nothing].
Qed.

(** The request of a close. *)
Definition close_request (agent : string) (i : Interaction) (q : SummaryRequest) : Prop :=
  sr_max_tokens q = SUMMARIZATION_MAX_OUTPUT_TOKENS
  /\ (forall billed id, sr_lease q = Some (billed, id) <->
        meter_close_summary i = true /\ billed = agent /\ id = Interactions.wire_interaction_id i /\ id <> "")
  /\ own_turn_items str_of i <> [].

Lemma close_lease_iff agent i billed id : close_lease agent i = Some (billed, id) <->
  meter_close_summary i = true /\ billed = agent /\ id = Interactions.wire_interaction_id i /\ id <> "".
Proof.
  unfold close_lease. destruct (meter_close_summary i); cbn [andb]; [|naive_solver].
  destruct (truthy (Interactions.wire_interaction_id i)) eqn:E.
  - apply truthy_true in E. naive_solver.
  - apply truthy_false in E. rewrite E. naive_solver.
Qed.

Lemma asked_app l k : asked (l ++ k) = (asked l ++ asked k)%list.
Proof. apply omap_app. Qed.

Lemma failures_in_app l k : failures_in (l ++ k) = (failures_in l ++ failures_in k)%list.
Proof. apply omap_app. Qed.

Lemma settles_warned i from o (w : bool) :
  settles_as i from o -> settles_as i from (o.1, ((if w then [SummaryUnleased] else []) ++ o.2)%list).
Proof. intros [Ha Hh]. by destruct w, o; split. Qed.

(** A call is made at most once, and then read. *)
Lemma ask_summary_spec agent i prompt model alias :
  let o := ask_summary loads dumps load_snippet ask agent i prompt model alias in
  (settles_as i None o \/
   exists q warned rest, sr_max_tokens q = SUMMARIZATION_MAX_OUTPUT_TOKENS /\ sr_lease q = close_lease agent i
     /\ o = (rest.1, (warned ++ Asked q :: rest.2)%list) /\ asked warned = [] /\ failures_in warned = []
     /\ settles_as i (match ask q with Ok response => Some response | Raise _ => None end) rest).
Proof.
  unfold ask_summary. destruct (load_snippet "episode-summarizer") as [system|e].
  - right. set (q := mkSummaryRequest _ _ _ _ _ _). set (warned := if meter_close_summary i && _ then [SummaryUnleased] else []).
    set (rest := match ask q with Raise e => call_failed e | Ok response => read_summary loads dumps i response end).
    exists q, warned, rest. split; [done|]. split; [done|]. split; [by destruct rest|]. subst warned.
    split; [by case_match|]. split; [by case_match|]. subst rest.
    destruct (ask q); [apply read_summary_settles|apply call_failed_settles].
  - left. pose proof (settles_warned i None (call_failed e)
      (meter_close_summary i && negb (truthy (Interactions.wire_interaction_id i))) (call_failed_settles i None e)) as H.
    by destruct (call_failed e).
Qed.

(** C13. The summary of a close is always usable and never more than the record allows.
    Whatever the model answers, the call is made at most once, of a record with turns
    of its own, and is billed exactly when the close is metered and the conversation
    has an id. What comes back has text to show; it is marked failed exactly when one
    failure is counted, and then carries neither facts nor restatements; facts come
    only from the answer's own envelope together with its text; and restatements are
    the ones that envelope gives, confined to the levels below the stamp of a record
    above the internal level. The
    task ends without a summary only for a prompt file or an alias it cannot read or
    for an exception that is no error, such as a cancellation. *)
Theorem close_summary_contract agent i :
  let '(r, log) := summarize agent i in
  (asked log = [] \/ exists q, asked log = [q] /\ close_request agent i q)
  /\ match r with
     | Ok sm =>
         strip (sm_text sm) <> ""
         /\ (if sm_failed sm then sm = unavailable /\ exists reason, failures_in log = [reason] else failures_in log = [])
         /\ (forall f, sm_facts sm = Some f -> exists q response, asked log = [q] /\ ask q = Ok response
               /\ split_combined_response loads dumps (strip (opt_str response)) = Ok (sm_text sm, f))
         /\ below_stamp i (sm_projections sm)
         /\ (forall l t, (l, t) ∈ sm_projections sm -> exists q response, asked log = [q] /\ ask q = Ok response /\ restated response l t)
     | Raise e =>
         failures_in log = []
         /\ (base_exception e = true
             \/ (exists view, _build_summarization_prompt str_of load_snippet i view (Z.of_nat (length (own_turn_items str_of i))) = Raise e)
             \/ resolve_model summarization_model = Raise e)
     end.
Proof.
  unfold summarize_closed_interaction. destruct (single_turn_placeholder str_of i) as [sm|] eqn:Ep.
  { revert Ep. unfold single_turn_placeholder. destruct (turns i) as [|t [|]]; try done.
    case_match; [|done]. intros [= <-]. cbn [fst snd sm_text sm_failed sm_facts sm_projections]. split; [by left|].
    split; [by apply strip_head|]. split; [done|]. split; [done|apply below_nothing]. }
  destruct (interaction_to_entries str_of i) as [|e0 entries] eqn:Ee.
  { cbn [excluded_placeholder sm_text sm_failed sm_facts sm_projections]. split; [by left|].
    split; [by apply strip_head|]. split; [done|]. split; [done|apply below_nothing]. }
  assert (own_turn_items str_of i <> []) as Hown by (intros E; unfold interaction_to_entries in Ee; by rewrite E in Ee).
  assert (length (e0 :: entries) = length (own_turn_items str_of i)) as Hlen
    by (rewrite <- Ee; unfold interaction_to_entries; by rewrite length_map).
  rewrite Hlen. destruct (compress_entries (e0 :: entries) SUMMARIZATION_TARGET_TOKENS) as [view|x] eqn:Ev; cbn [rbind].
  2: { unfold compress_entries in Ev. cbn [Z.ltb] in Ev. by destruct (extract_loop _ _ _ _ _) as [[]]. }
  destruct (_build_summarization_prompt _ _ _ _ _) as [prompt|e] eqn:Epr.
  2: { split; [by left|]. split; [done|]. right. left. by exists view. }
  destruct (resolve_model summarization_model) as [[model alias]|e] eqn:Er.
  2: { destruct (String.eqb e "SystemExit"); [|split; [by left|]; split; [done|]; by right; right].
       split; [by left|]. cbn. split; [done|]. split; [split; [done|]; by eexists|]. split; [done|apply below_nothing]. }
  destruct (ask_summary_spec agent i prompt model alias) as [[Ha Hh]|(q & warned & rest & Hm & Hl & E & Hw & Hwf & [Ha Hh])].
  - destruct (ask_summary _ _ _ _ _ _ _ _ _) as [[sm|e] log]; cbn [fst snd] in *; (split; [by left|]).
    + destruct Hh as (H1 & H2 & H3 & H4). split; [done|]. destruct (sm_failed sm) eqn:Ef.
      * destruct H2 as [-> H2]. split; [done|]. split; [done|apply below_nothing].
      * destruct H2 as [H2 Hf]. split; [done|]. split; [intros f Hfa; by destruct (Hf f Hfa) as (? & ? & _)|].
        split; [done|]. intros l t Hlt. by destruct (H4 l t Hlt) as (? & ? & _).
    + destruct Hh. auto.
  - rewrite E. assert (asked (warned ++ Asked q :: rest.2) = [q]) as Hq by (rewrite asked_app, Hw; change (asked (Asked q :: rest.2)) with (q :: asked rest.2); by rewrite Ha).
    split; [right; exists q; split; [done|]; split; [done|]; split; [|done]; intros; rewrite Hl; apply close_lease_iff|].
    assert (failures_in (warned ++ Asked q :: rest.2) = failures_in rest.2) as -> by (rewrite failures_in_app, Hwf; done).
    destruct (rest.1) as [sm|e]; [|destruct Hh; auto]. destruct Hh as (H1 & H2 & H3 & H4). split; [done|]. destruct (sm_failed sm) eqn:Ef.
    + destruct H2 as [-> H2]. split; [done|]. split; [done|apply below_nothing].
    + destruct H2 as [H2 Hf]. split; [done|]. assert (forall response, match ask q with Ok r => Some r | Raise _ => None end = Some response -> ask q = Ok response) as Hq'.
      { intros response. destruct (ask q); congruence. }
      split; [intros f Hfa; destruct (Hf f Hfa) as (response & Hr & Hs); exists q, response; auto|].
      split; [done|]. intros l t Hlt. destruct (H4 l t Hlt) as (response & Hr & Hs). exists q, response. auto.
Qed.
End contract.

(** ** The relationship a close credits *)

Lemma split_at_colon_app a b : no_char ":"%char a -> split_at_colon (a +:+ ":" +:+ b) = Some (a, b).
Proof.
  induction a as [|c a IH]; [done|]. intros [Hc Ha]. rewrite app_cons. cbn [split_at_colon].
  destruct (Ascii.eqb_spec c ":"); [done|]. by rewrite IH.
Qed.

Lemma substring_all (s : string) : String.substring 0 (String.length s) s = s.
Proof. induction s as [|c s IH]; [done|]. cbn [String.length String.substring]. by rewrite IH. Qed.

Lemma substring_more (s : string) n : (String.length s <= n)%nat -> String.substring 0 n s = s.
Proof. revert n. induction s as [|c s IH]; intros [|n] H; cbn [String.length String.substring] in *; [done|done|lia|]. by rewrite IH by lia. Qed.

Lemma dm_body (s : string) : String.substring 3 (String.length (DM_PREFIX +:+ s)) (DM_PREFIX +:+ s) = s.
Proof. unfold DM_PREFIX. rewrite !app_cons, app_empty. cbn [String.length String.substring]. apply substring_more. lia. Qed.

(** The scope of a direct message leads back to the other participant. *)
Lemma dm_peer agent peer i :
  no_char ":"%char agent -> no_char ":"%char peer -> scope i = scope_for_dm agent peer ->
  extract_peer_from_interaction agent i = if decide (agent = peer) then (None, "agent") else (Some peer, peer_type_of i).
Proof.
  intros Ha Hp Hs. unfold extract_peer_from_interaction. rewrite Hs. unfold scope_for_dm.
  destruct (sorted_pair_or agent peer) as [-> | ->]; rewrite dm_body, split_at_colon_app by done.
  - rewrite String.eqb_refl. destruct (String.eqb_spec peer agent); case_decide; congruence.
  - destruct (String.eqb_spec peer agent) as [->|Hne].
    + rewrite String.eqb_refl. by rewrite decide_True.
    + rewrite String.eqb_refl. destruct (String.eqb_spec peer agent); [done|]. by rewrite decide_False.
Qed.

Lemma peer_type_valid i : peer_type_of i ∈ VALID_PARTICIPANT_TYPES.
Proof.
  unfold peer_type_of, VALID_PARTICIPANT_TYPES. repeat case_match; try (left; done).
  match goal with H : bool_decide _ = true |- _ => by apply bool_decide_eq_true in H end.
Qed.

Lemma length_substring n (s : string) : (String.length (String.substring 0 n s) <= n)%nat.
Proof. revert n. induction s as [|c s IH]; intros [|n]; cbn [String.length String.substring]; [lia..|]. specialize (IH n). lia. Qed.

(** An outcome is at most two hundred characters, which the table keeps whole. *)
Lemma outcome_kept summary failed :
  (match outcome_of summary failed with Some o => Some (if truthy o then truncate_field o else o) | None => None end)
  = outcome_of summary failed.
Proof.
  unfold outcome_of. destruct failed; [done|]. destruct (truthy (strip summary)); [|done]. f_equal.
  pose proof (length_substring RECORD_INTERACTION_OUTCOME_CHARS (strip summary)) as H. unfold truncate_field, RECORD_INTERACTION_OUTCOME_CHARS in *.
  destruct (Z.ltb_spec 1024 (Z.of_nat (String.length (String.substring 0 200 (strip summary))))); [lia|]. by case_match.
Qed.

(** A close credits exactly the conversation's other participant. A live direct
    message adds one interaction to the relationship with the peer its scope names,
    in the tenant and epoch of the task, with the head of the summary or, where the
    summary failed, with none; trust, notes and identity stand, and every other
    relationship is as it was. A replayed span, a room, a thread or a conversation of
    the agent with itself credits nobody. *)
Theorem close_credits_peer a agent ts now new_id i summary failed session db :
  let db' := record_closed_interaction a agent ts now new_id i summary failed session db in
  (replayed i = true \/ startswith DM_PREFIX (scope i) = false -> db' = db) /\
  forall peer, no_char ":"%char agent -> no_char ":"%char peer -> scope i = scope_for_dm agent peer ->
    (agent = peer -> db' = db) /\
    (replayed i = false -> agent <> peer -> blank peer = false -> new_id ∉ map int_id (ints db) ->
     let k := mkKey agent "agent" peer (peer_type_of i) (resolve_active_principal a (active_principal_id ts))
                (resolve_active_epoch a (active_epoch_id ts)) in
     (exists r, dget k (rels db') = Some r
       /\ Relationships.interaction_count r = (default 0 (Relationships.interaction_count <$> dget k (rels db)) + 1)%Z /\ last_interaction_at r = Some now
       /\ match dget k (rels db) with
          | Some r0 => trust_score r = trust_score r0 /\ notes r = notes r0 /\ identity r = identity r0
          | None => trust_score r = DEFAULT_TRUST /\ notes r = None /\ identity r = None
          end)
     /\ (forall k', k' <> k -> dget k' (rels db') = dget k' (rels db))
     /\ ints db' = (ints db ++ [mkInt new_id k "conversation" (outcome_of summary failed) 0 now
                                  (Session.normalize_session_id (Some session))])%list).
Proof.
  cbv zeta. split.
  { intros H. unfold record_closed_interaction. destruct (startswith DM_PREFIX (scope i)); [|done]. destruct H as [->|H]; [done|done]. }
  intros peer Ha Hp Hs. pose proof (dm_peer agent peer i Ha Hp Hs) as Hx. split.
  { intros ->. rewrite decide_True in Hx by done. unfold record_closed_interaction. rewrite Hx. cbn [opt_str truthy negb]. by repeat case_match. }
  intros Hr Hne Hb Hid. rewrite decide_False in Hx by done.
  assert (startswith DM_PREFIX (scope i) = true) as Hdm
    by (rewrite Hs; unfold scope_for_dm; destruct (sorted_pair _ _); apply startswith_app).
  unfold record_closed_interaction. rewrite Hdm, Hr, Hx. cbn [negb]. change (opt_str (Some peer)) with peer.
  assert (truthy peer = true) as Ht by (unfold blank in Hb; by destruct (truthy peer)). rewrite Ht. cbn [negb].
  set (k := mkKey _ _ _ _ _ _). unfold record_interaction.
  assert (validate_key k = Ok tt) as ->.
  { unfold validate_key, validate_other_id, validate_participant_type, k. cbn [other_id participant_type other_type]. rewrite Hb. cbn [rbind].
    rewrite decide_True by (left; done). cbn [rbind]. by rewrite decide_True by apply peer_type_valid. }
  change (blank "conversation") with false. cbv iota zeta.
  replace (existsb _ (ints db)) with false.
  2: { symmetry. apply not_true_iff_false. intros (x & Hxin%list_elem_of_In & E%String.eqb_eq)%existsb_exists. apply Hid.
       apply list_elem_of_fmap. exists x. by rewrite E. }
  cbn [snd rels ints]. rewrite outcome_kept. split; [|split].
  - rewrite dget_dset_eq. eexists. split; [done|]. destruct (dget k (rels db)) as [r0|]; cbn; by repeat split.
  - intros k' Hk. by rewrite dget_dset_ne.
  - done.
Qed.

(** ** One derivation per record *)

(** No row of the record is left to finalise. *)
Definition no_pending (agent id : string) (db : EpisodeDb) : Prop :=
  forall r, r ∈ episodes db -> pending_of agent id (row_to_episode r) = false.

Lemma update_summary_effect agent id txt db :
  match update_episode_summary agent id txt db with
  | (Ok true, db') => episodes db' = map (λ r, if pending_of agent id (row_to_episode r) then with_episode (set_summary txt) r else r) (episodes db)
      /\ (txt <> SUMMARY_PENDING_TEXT -> no_pending agent id db')
      /\ exists r, r ∈ episodes db /\ pending_of agent id (row_to_episode r) = true
  | (_, db') => episodes db' = episodes db
  end.
Proof.
  unfold update_episode_summary, sql. set (hit := λ r, pending_of agent id (row_to_episode r)).
  assert (forall fs, let db0 := set_failures fs db in
    (0 <? (update_where (pending_of agent id) (set_summary txt) db0).1)%Z = true <-> exists r, r ∈ episodes db /\ hit r = true) as Hc.
  { intros fs. cbn. fold hit. rewrite Z.ltb_lt. split.
    - intros H. destruct (List.filter hit (episodes db)) as [|r l] eqn:E; [cbn in H; lia|]. exists r.
      assert (In r (List.filter hit (episodes db))) as [Hin Hh]%filter_In by (rewrite E; by left). by rewrite list_elem_of_In.
    - intros (r & Hin%list_elem_of_In & Hh). assert (In r (List.filter hit (episodes db))) as H by (by apply filter_In).
      destruct (List.filter hit (episodes db)); [done|]. cbn [length]. lia. }
  assert (forall r, pending_of agent id (row_to_episode (if hit r then with_episode (set_summary txt) r else r)) = true -> txt = SUMMARY_PENDING_TEXT) as Hp.
  { intros r. destruct (hit r) eqn:E; [|unfold hit in E; intros; congruence]. unfold pending_of. cbn. intros H. bool_props.
    destruct H as [_ H]. by apply String.eqb_eq in H. }
  destruct (failures db) as [|[] fs]; [| done |]; cbn [tail];
  (match goal with |- context [update_where _ _ (set_failures ?f db)] => specialize (Hc f) end; cbv zeta in Hc;
   destruct (update_where _ _ _) as [n db'] eqn:E; cbn [fst] in Hc; destruct (0 <? n)%Z eqn:En;
   unfold update_where in E; injection E as _ <-; cbn [episodes set_episodes set_failures]; [split; [done|]; split; [|by apply Hc]|]).
  1,3: intros Ht r (x & -> & _)%list_elem_of_fmap; apply not_true_iff_false; intros H; by apply Ht, (Hp x).
  all: rewrite <- (map_id (episodes db)) at 2; apply map_ext_in; intros r Hr%list_elem_of_In; fold (hit r);
    destruct (hit r) eqn:Eh; [|done]; destruct Hc as [_ Hc]; discriminate Hc; eauto.
Qed.

(** One run of the task: what the model answers it, what other tasks do meanwhile,
    its context, its record and its session. *)
Record Attempt := mkAttempt {
  at_ask : SummaryRequest -> result string (option string); at_meanwhile : CloseStores -> CloseStores;
  at_ambient : ambient; at_interaction : Interaction; at_session : string }.

(** What a close derives beside the summary. *)
Definition derived_of (s : CloseStores) : xstate * projection_table * rel_db := (cs_facts s, cs_projections s, cs_relations s).

Section history.
Context (str_of : pyval -> string) (loads : string -> option pyval) (dumps : pyval -> string).
Context (load_snippet : string -> result string text).
Context (resolve_model : string -> result string (string * string)) (summarization_model : string).
Context (em : EpisodicMemory) (rel_scope : TierScope) (facts_tier : option FactStore).
Context (drawn_at : nat -> Q) (drawn_id : nat -> string) (tick : EpisodeDb -> result string unit * EpisodeDb).
Hypothesis tick_rows : forall db, episodes (tick db).2 = episodes db.

Definition attempt_summary (x : Attempt) : result string Summary :=
  (summarize_closed_interaction str_of loads dumps load_snippet resolve_model summarization_model (at_ask x) (em_agent em)
     (at_interaction x)).1.

Definition attempt (x : Attempt) (s : CloseStores) : CloseStores :=
  (finalize_closed_interaction str_of loads dumps load_snippet resolve_model summarization_model (at_ask x) em rel_scope
     facts_tier drawn_at drawn_id tick (at_meanwhile x) (at_ambient x) (at_interaction x) (at_session x) s).2.

(** Whether the run's update found the row still pending. *)
Definition settled_row (x : Attempt) (s : CloseStores) : bool :=
  match attempt_summary x with
  | Ok sm =>
      match (update_episode_summary (em_agent em) (Interactions.interaction_id (at_interaction x)) (sm_text sm)
               (cs_memory (at_meanwhile x s))).1 with Ok b => b | Raise _ => false end
  | Raise _ => false
  end.

Abbreviation rows_now s := (episodes (cs_memory s)).

Lemma attempt_spec x s :
  let s0 := at_meanwhile x s in
  let id := Interactions.interaction_id (at_interaction x) in
  if settled_row x s then
    exists sm, attempt_summary x = Ok sm
      /\ rows_now (attempt x s) = map (λ r, if pending_of (em_agent em) id (row_to_episode r) then with_episode (set_summary (sm_text sm)) r else r) (rows_now s0)
      /\ (sm_text sm <> SUMMARY_PENDING_TEXT -> no_pending (em_agent em) id (cs_memory (attempt x s)))
      /\ ~ no_pending (em_agent em) id (cs_memory s0)
      /\ derived_of (attempt x s) =
           derived_of (derive loads em rel_scope facts_tier drawn_at drawn_id (at_ambient x) (at_interaction x) (at_session x) sm s0)
  else rows_now (attempt x s) = rows_now s0 /\ derived_of (attempt x s) = derived_of s0.
Proof.
  intros s0 id. unfold settled_row, attempt, finalize_closed_interaction. fold (attempt_summary x). fold s0 id.
  destruct (attempt_summary x) as [sm|e]; [|by split].
  pose proof (update_summary_effect (em_agent em) id (sm_text sm) (cs_memory s0)) as H.
  destruct (update_episode_summary _ _ _ _) as [[[]|e] db]; cbn [fst snd] in *; [|by split..].
  destruct H as (H1 & H2 & r & Hr & Hh). exists sm. split; [done|].
  pose proof (tick_rows db) as Ht. cbn [derive with_memory cs_memory cs_facts cs_projections cs_relations].
  destruct (tick db) as [rt db']. cbn [fst snd] in *. split; [exact (eq_trans Ht H1)|]. split; [|split; [|done]].
  - intros Hne r' Hr'. apply (H2 Hne). by rewrite <- Ht.
  - intros Hn. by rewrite (Hn r Hr) in Hh.
Qed.

(** The runs for one record; the tasks between and during them file no new pending
    row for it. *)
Definition runs_for (agent id : string) (x : Attempt) : Prop :=
  Interactions.interaction_id (at_interaction x) = id /\
  forall s, no_pending agent id (cs_memory s) -> no_pending agent id (cs_memory (at_meanwhile x s)).

Lemma settled_stays id x s : runs_for (em_agent em) id x -> no_pending (em_agent em) id (cs_memory s) ->
  rows_now (attempt x s) = rows_now (at_meanwhile x s) /\ derived_of (attempt x s) = derived_of (at_meanwhile x s)
  /\ no_pending (em_agent em) id (cs_memory (attempt x s)).
Proof.
  intros [<- Hq] Hn. specialize (Hq s Hn). pose proof (attempt_spec x s) as H. cbv zeta in H. destruct (settled_row x s).
  - by destruct H as (sm & _ & _ & _ & Hc & _).
  - destruct H as [H1 H2]. split; [done|]. split; [done|]. intros r. rewrite H1. apply Hq.
Qed.

(** C12. A record is derived once. A run that does not find its row pending, because
    it has no summary to write, the update failed, the janitor closed the row or
    another run did, leaves the rows, the facts, the projections and the relationships
    as the other tasks left them. A run that finds it replaces exactly the pending
    rows' summaries and writes the rest from one summary; and where that summary is not
    the pending marker itself and other tasks file no new pending row for the record,
    no later run for it, however many, whatever the model answers them, writes
    anything. *)
Theorem finalized_once x zs y s id (Hx : runs_for (em_agent em) id x) (Hz : Forall (runs_for (em_agent em) id) zs)
    (Hy : runs_for (em_agent em) id y)
    (Hm : forall sm, attempt_summary x = Ok sm -> sm_text sm <> SUMMARY_PENDING_TEXT) :
  if settled_row x s then
    (exists sm, attempt_summary x = Ok sm
      /\ rows_now (attempt x s) = map (λ r, if pending_of (em_agent em) id (row_to_episode r) then with_episode (set_summary (sm_text sm)) r else r)
                                    (rows_now (at_meanwhile x s))
      /\ derived_of (attempt x s) =
           derived_of (derive loads em rel_scope facts_tier drawn_at drawn_id (at_ambient x) (at_interaction x) (at_session x) sm (at_meanwhile x s)))
    /\ let s' := fold_left (λ s z, attempt z s) zs (attempt x s) in
       rows_now (attempt y s') = rows_now (at_meanwhile y s') /\ derived_of (attempt y s') = derived_of (at_meanwhile y s')
  else rows_now (attempt x s) = rows_now (at_meanwhile x s) /\ derived_of (attempt x s) = derived_of (at_meanwhile x s).
Proof.
  pose proof (attempt_spec x s) as H. cbv zeta in H. destruct Hx as [Hid Hq]. rewrite Hid in H.
  destruct (settled_row x s); [|done]. destruct H as (sm & Hsm & Hr & Hn & _ & Hd). split; [by exists sm|].
  specialize (Hn (Hm sm Hsm)). cbv zeta. revert Hn. generalize (attempt x s). clear -Hz Hy tick_rows.
  induction Hz as [|z zs Hz1 _ IH]; intros s Hn; cbn [fold_left].
  - destruct (settled_stays id y s Hy Hn) as (? & ? & _). done.
  - apply IH. by apply (settled_stays id z s).
Qed.
End history.

(** ** From the close to the summary *)

Section composed.
Context (str_of : pyval -> string) (loads : string -> option pyval) (dumps : pyval -> string).
Context (load_snippet : string -> result string text).
Context (resolve_model : string -> result string (string * string)) (summarization_model : string).
Context (em : EpisodicMemory) (rel_scope : TierScope) (facts_tier : option FactStore).
Context (drawn_at : nat -> Q) (drawn_id : nat -> string) (tick : EpisodeDb -> result string unit * EpisodeDb).
Context (sha256_hex : string -> string) (clock : nat -> Q) (fresh : nat -> string).
Hypothesis tick_rows : forall db, episodes (tick db).2 = episodes db.

Abbreviation persist := (persist_closed_interaction em str_of sha256_hex clock fresh).
Abbreviation run := (attempt str_of loads dumps load_snippet resolve_model summarization_model em rel_scope facts_tier drawn_at drawn_id tick).
Abbreviation summary_of := (attempt_summary str_of loads dumps load_snippet resolve_model summarization_model em).

(** The row a live record files, and the task behind it. *)
Lemma persist_live_task a o i s :
  obj (tracker s) o = Some i -> replayed i = false -> derives str_of i = true ->
  failures (memory s) = [] -> fresh (reads s) ∉ row_ids (memory s) ->
  exists r, CloseProps.rows (persist a o s).2 = (CloseProps.rows s ++ [r])%list /\ filed_for em str_of i r
    /\ ep_interaction_id (row_to_episode r) = Some (Interactions.interaction_id i) /\ failures (memory (persist a o s).2) = []
    /\ pending_tasks (persist a o s).2 = (pending_tasks s ++ [mkSummaryTask o (record_context i a) false (session_id i)])%list.
Proof.
  intros Ho Hr Hd Hf Hfr. apply andb_true_iff in Hd as [Hnd Hown]. apply negb_true_iff in Hnd.
  assert (own_turn_items str_of i <> []) as Hne by (by destruct (own_turn_items str_of i)).
  unfold persist_closed_interaction, persist_record. rewrite Ho. cbn [snd]. rewrite Hnd.
  destruct (own_turn_items str_of i) as [|t own] eqn:Eo; [done|]. rewrite <- Eo in *. rewrite Hr. cbv iota.
  replace (set_memory (memory s) (set_tracker (tracker s) s)) with s by by destruct s.
  rewrite record_write_scopes_run.
  destruct (two_phase_persisted em str_of clock fresh o i a s Hne Hnd) as (s2 & E2 & _ & _ & _ & Hx). rewrite E2.
  destruct (Hx Hf Hfr) as (r & H1 & H2 & H3 & _ & H5 & H6). rewrite Hr in H6. by exists r.
Qed.

(** C14. What a close files, its task finishes. Closing a live record with turns of its
    own adds one pending row under the record's own axes and schedules one task, which
    runs in the record's tenant and writes under its session; when the task comes to
    its update with the database as the close left it, that row and no other takes the
    summary, and nothing is left pending for the record. *)
Theorem closed_row_settled a o i s x sm
    (Ho : obj (tracker s) o = Some i) (Hr : replayed i = false) (Hd : derives str_of i = true)
    (Hf : failures (memory s) = []) (Hfr : fresh (reads s) ∉ row_ids (memory s))
    (Hn : no_pending (em_agent em) (Interactions.interaction_id i) (memory s))
    (Hx : at_interaction x = i) (Hs : summary_of x = Ok sm) (Ht : sm_text sm <> SUMMARY_PENDING_TEXT) :
  let s' := (persist a o s).2 in
  exists r task, CloseProps.rows s' = (CloseProps.rows s ++ [r])%list /\ filed_for em str_of i r
    /\ pending_tasks s' = (pending_tasks s ++ [task])%list /\ st_record task = o /\ st_session task = session_id i
    /\ (forall snapshot, resolve_active_principal (st_context task) snapshot = Principal.normalize_principal_id (Some (principal_id i)))
    /\ forall cs, cs_memory (at_meanwhile x cs) = memory s' ->
         episodes (cs_memory (run x cs)) = (CloseProps.rows s ++ [with_episode (set_summary (sm_text sm)) r])%list
         /\ no_pending (em_agent em) (Interactions.interaction_id i) (cs_memory (run x cs)).
Proof.
  destruct (persist_live_task a o i s Ho Hr Hd Hf Hfr) as (r & H1 & H2 & H3 & H4 & H5).
  exists r, (mkSummaryTask o (record_context i a) false (session_id i)). split; [done|]. split; [done|]. split; [done|].
  split; [done|]. split; [done|]. split.
  { intros snapshot. unfold resolve_active_principal, resolve_active, record_context. cbn [st_context].
    assert (forall b, ax_get Principal.ax (if b : bool then
      ax_set Epoch.ax (Some (Epoch.normalize_epoch_id (Some (epoch_id i)))) (ax_set Principal.ax (Some (Principal.normalize_principal_id (Some (principal_id i)))) a)
      else ax_set Principal.ax (Some (Principal.normalize_principal_id (Some (principal_id i)))) a)
      = Some (Principal.normalize_principal_id (Some (principal_id i)))) as Hg by by intros [].
    rewrite Hg. cbn. unfold str_or. by rewrite (proj2 (truthy_true _) (normalize_id_truthy Principal.ax _)). }
  intros cs Hcs. assert (pending_of (em_agent em) (Interactions.interaction_id i) (row_to_episode r) = true) as Hp.
  { destruct H2 as (_ & _ & _ & Ha & _ & _ & _ & Hsm & _). unfold pending_of, owned, opt_is. rewrite Ha, H3, Hsm, !String.eqb_refl.
    by rewrite bool_decide_true. }
  pose proof (attempt_spec str_of loads dumps load_snippet resolve_model summarization_model em rel_scope facts_tier
    drawn_at drawn_id tick tick_rows x cs) as H. cbv zeta in H. rewrite Hx, Hcs in H. fold (CloseProps.rows (persist a o s).2) in H.
  rewrite H1 in H. destruct (settled_row _ _ _ _ _ _ _ x cs) eqn:Ew.
  - destruct H as (sm' & Hsm' & Hrows & Hnp & _). assert (sm' = sm) as -> by congruence. split; [|by apply Hnp].
    rewrite Hrows, map_app. cbn [map]. rewrite Hp. f_equal. rewrite <- (map_id (CloseProps.rows s)) at 2. apply map_ext_in.
    intros r' Hr'%list_elem_of_In. by rewrite (Hn r' Hr').
  - exfalso. revert Ew. unfold settled_row. fold (summary_of x). rewrite Hs, Hx, Hcs.
    pose proof (update_summary_effect (em_agent em) (Interactions.interaction_id i) (sm_text sm) (memory (persist a o s).2)) as Hu.
    unfold update_episode_summary in *. rewrite sql_ok in * by done. cbn [fst snd] in *. intros Ew. rewrite Ew in Hu.
    unfold update_where in Ew. cbn [fst] in Ew. fold (CloseProps.rows (persist a o s).2) in Ew. rewrite H1, List.filter_app in Ew.
    cbn [List.filter] in Ew. rewrite Hp, length_app in Ew. cbn [length] in Ew. apply Z.ltb_ge in Ew. lia.
Qed.
End composed.

(** ** A concrete close, for the witnesses *)

Definition demo_record : Interaction :=
  mkInteraction "i1" "dm:ada:bob" 1
    [mkTurn 1 [("summary", VStr "hi"); ("sender", VStr "bob"); ("text", VStr "my sister is Eve"); ("participant_type", VStr "user")]]
    (Some 2) REASON_IDLE_GAP "" "w1" "" "sess" "acme" "bob" "live" false false true (Some "restricted") (Some "dm-1") true.

Definition demo_state_of (i : Interaction) : CloseState :=
  mkCloseState (set_heap [i] (new_tracker false None 600)) demo_db [] [] [] 0.

Definition demo_loads (s : string) : option pyval :=
  if String.eqb s "{answer}" then
    Some (VDict [("summary", VStr "They spoke of family."); ("facts", VList []);
                 ("projections", VDict [("internal", VStr "A private talk."); ("secret", VStr "Eve")])])
  else if String.eqb s "{marker}" then Some (VDict [("summary", VStr SUMMARY_PENDING_TEXT)])
  else if String.eqb s "[]" then Some (VList []) else None.

Definition demo_snippet (name : string) : result string text := Ok (codes name).
Definition demo_model (alias : string) : result string (string * string) := Ok ("model", alias).
Definition demo_int (v : pyval) : string := "1".
Definition answers (s : string) (_ : SummaryRequest) : result string (option string) := Ok (Some s).

Definition close_tick (n : Z) (db : EpisodeDb) : result string unit * EpisodeDb :=
  (Ok tt, memory (_tick_auto_reflect_counter demo_em n (set_memory db (demo_state_of demo_record)))).

Lemma close_tick_rows n db : episodes (close_tick n db).2 = episodes db.
Proof.
  unfold close_tick, _tick_auto_reflect_counter. destruct (n <=? 0)%Z; [done|]. cbn [snd memory set_memory].
  unfold increment_interaction_count, sql. by destruct (failures db) as [|[]].
Qed.

Definition demo_attempt (answer : string) : Attempt :=
  mkAttempt (answers answer) (λ s, s) (record_context demo_record demo_ambient) demo_record "sess".

Definition demo_closed : CloseState :=
  (persist_closed_interaction demo_em demo_int (λ x, x) demo_clock marks demo_ambient 0 (demo_state_of demo_record)).2.
Definition demo_stores : CloseStores := mkStores (memory demo_closed) (mkX (mkFactDb [] [] []) ∅ 0) [] rel_db_new.

Abbreviation demo_run x := (attempt demo_int demo_loads (λ _, "[]") demo_snippet demo_model "summarizer" demo_em
  (mkTierScope "" "" "") None demo_clock marks (close_tick 5) x).
Abbreviation demo_summary x := (attempt_summary demo_int demo_loads (λ _, "[]") demo_snippet demo_model "summarizer" demo_em x).

(** A metered, protected close: one leased call, the text, the facts and the one
    restatement below the stamp. *)
Example summary_demo :
  let '(r, log) := summarize_closed_interaction demo_int demo_loads (λ _, "[]") demo_snippet demo_model "summarizer" (answers "{answer}") "ada" demo_record in
  r = Ok (mkSummary "They spoke of family." false (Some "[]") [("internal", "A private talk.")])
  /\ map sr_lease (asked log) = [Some ("ada", "w1")].
Proof. vm_compute. by split. Qed.

Lemma close_credits_peer_witness :
  exists r, dget (mkKey "ada" "agent" "bob" "user" "acme" "live")
    (rels (record_closed_interaction (record_context demo_record demo_ambient) "ada" (mkTierScope "" "" "") 9 "n1" demo_record "A talk." false "sess" rel_db_new)) = Some r
  /\ Relationships.interaction_count r = 1%Z.
Proof.
  pose proof (close_credits_peer (record_context demo_record demo_ambient) "ada" (mkTierScope "" "" "") 9 "n1" demo_record "A talk." false "sess" rel_db_new) as [_ H].
  destruct (H "bob") as [_ Hc]; [cbn; repeat split; discriminate|cbn; repeat split; discriminate|reflexivity|].
  destruct Hc as [(r & Hk & Hn & _) _]; [reflexivity|discriminate|reflexivity|by apply not_elem_of_nil|]. exists r. exact (conj Hk Hn).
Defined.

Lemma demo_runs x : at_interaction x = demo_record -> at_meanwhile x = (λ s, s) -> runs_for "ada" "i1" x.
Proof. intros H1 H2. split; [by rewrite H1|]. intros s. by rewrite H2. Qed.

Lemma demo_quiet answer s : at_meanwhile (demo_attempt answer) s = s.
Proof. done. Qed.

Lemma demo_answered : demo_summary (demo_attempt "{answer}") =
  Ok (mkSummary "They spoke of family." false (Some "[]") [("internal", "A private talk.")]).
Proof. by vm_compute. Qed.

Lemma demo_settled : settled_row demo_int demo_loads (λ _, "[]") demo_snippet demo_model "summarizer" demo_em
  (demo_attempt "{answer}") demo_stores = true.
Proof. by vm_compute. Qed.

Lemma finalized_once_witness :
  map (λ r, ep_summary (row_to_episode r)) (episodes (cs_memory (demo_run (demo_attempt "{answer}") demo_stores))) = ["They spoke of family."]
  /\ let s' := fold_left (λ s z, demo_run z s) [demo_attempt "late"] (demo_run (demo_attempt "{answer}") demo_stores) in
     episodes (cs_memory (demo_run (demo_attempt "later") s')) = episodes (cs_memory s')
     /\ derived_of (demo_run (demo_attempt "later") s') = derived_of s'.
Proof.
  split; [by vm_compute|].
  pose proof (finalized_once demo_int demo_loads (λ _, "[]") demo_snippet demo_model "summarizer" demo_em (mkTierScope "" "" "") None
    demo_clock marks (close_tick 5) (close_tick_rows 5) (demo_attempt "{answer}") [demo_attempt "late"] (demo_attempt "later") demo_stores "i1") as H.
  rewrite demo_settled in H.
  destruct H as [_ H].
  - exact (demo_runs (demo_attempt _) eq_refl eq_refl).
  - exact (Forall_cons_2 _ _ _ (demo_runs (demo_attempt _) eq_refl eq_refl) (Forall_nil_2 _)).
  - exact (demo_runs (demo_attempt _) eq_refl eq_refl).
  - intros sm E. rewrite demo_answered in E. injection E as <-. discriminate.
  - cbv zeta in *. rewrite !demo_quiet in H. exact H.
Defined.

Lemma closed_row_settled_witness :
  length (pending_tasks demo_closed) = 1%nat
  /\ exists r, filed_for demo_em demo_int demo_record r
     /\ episodes (cs_memory (demo_run (demo_attempt "{answer}") demo_stores)) = [with_episode (set_summary "They spoke of family.") r].
Proof.
  split; [by vm_compute|].
  destruct (closed_row_settled demo_int demo_loads (λ _, "[]") demo_snippet demo_model "summarizer" demo_em (mkTierScope "" "" "") None
    demo_clock marks (close_tick 5) (λ x, x) demo_clock marks (close_tick_rows 5) demo_ambient 0 demo_record (demo_state_of demo_record)
    (demo_attempt "{answer}") (mkSummary "They spoke of family." false (Some "[]") [("internal", "A private talk.")]))
    as (r & task & _ & Hf & _ & _ & _ & _ & H).
  all: try reflexivity; try discriminate; try by apply not_elem_of_nil.
  - intros r Hr. by apply elem_of_nil in Hr.
  - exists r. split; [exact Hf|]. apply (H demo_stores). reflexivity.
Defined.

(** A summary that is the marker itself is accepted, and leaves the row pending for
    the janitor to fail. *)
Lemma literal_marker_unsettled :
  let s := demo_run (demo_attempt "{marker}") demo_stores in
  settled_row demo_int demo_loads (λ _, "[]") demo_snippet demo_model "summarizer" demo_em (demo_attempt "{marker}") demo_stores = true
  /\ existsb (λ r, pending_of "ada" "i1" (row_to_episode r)) (episodes (cs_memory s)) = true
  /\ map (λ r, ep_summary (row_to_episode r)) (episodes (cleanup_closing_interactions "ada" 300 400 (cs_memory s)).2) = [SUMMARY_UNAVAILABLE_TEXT].
Proof. vm_compute. by repeat split. Qed.
